(* ===== verification/_CoqProject ===== *)
-Q . S2P
Prelude.v
BoundedLog.v
BigNum.v
Fips180.v
Sha2.v
Asn1.v
X509.v
RsaPkcs1.v
Pkcs7.v
PeHash.v
TrustAnchors.v
Authenticode.v
Float64.v
Entropy.v
Observation.v
Text.v
FileSystem.v
TelemetryBus.v
Policy.v
PolicyStore.v
Quarantine.v
VaultRuns.v
ArtifactTrust.v
Correlation.v
Pipeline.v
Threat.v
EventLog.v
LegacyAdapter.v
EngineManager.v
EtwProcess.v
Lifecycle.v
ProcessBehavior.v
Inspection.v
Yara.v
Md5.v
PeStatic.v
Firewall.v
DnsMonitor.v
SignatureDb.v
ThreatIntel.v
DeviceControl.v
ForensicTimeline.v
RansomwareShield.v
CredentialGuard.v
NetworkDpi.v
Lolbins.v
FilelessAst.v
Heuristics.v
DeepScanner.v
VulnScanner.v
UpdateEngine.v
ReflectiveInjection.v
AlertManager.v
WebhookEngine.v
Monitors.v
Guards.v
ServiceIpc.v
UiPreferences.v
ReportGenerator.v
ExactFloat.v
Sandbox.v
EtgRi.v
Pmsr.v
Arhs.v
Zrgp.v
Galois.v
Behavior.v
SelfDefense.v
Syscall.v
KernelMon.v
Atomic.v
