(* ===== verification/Prelude.v ===== *)
(** * GCAD: a verification library of its detection and response core

    GCAD (src/README.md, src/ARCHITECTURE.md) is a security monitor in C++20 for Windows
    and Linux.  Some thirty detection engines watch processes, files and the network.
    What they see enters one pipeline: a bounded queue of observations (the telemetry
    bus), a correlation engine that scores them into findings, and a policy that turns
    the gravest findings into candidates for remediation.  A candidate waits until a
    caller approves it; then a second call lets the quarantine executor move the file
    into a vault, from where it can be restored.  The engine manager owns all of these,
    starts and stops them, and keeps the log of events the console shows.  Files are
    judged by their Authenticode signature, checked by the program's own DER, X.509,
    PKCS#7, RSA and SHA-2 code, and by static analysis, YARA rules and byte signatures.

    ** The files, from the bottom up

    Every file opens with a comment that names the source it models.  Names of
    definitions are those of the C++ code.

    Data and machine: this file (bytes, words, the memory model and shared lemmas),
    [Float64] (binary64 arithmetic), [Text] (searches and cuts of strings), [Entropy]
    (byte statistics), [FileSystem] (a file system whose every request may fail or stop
    part of the way), [Observation] and [Threat] (the records the parts exchange).

    Signatures: [BigNum], [Sha2], [Asn1], [X509], [RsaPkcs1], [Pkcs7], [PeHash],
    [TrustAnchors], [Authenticode].  These are the files of src/src/security of the same
    names.  [Fips180] is the text of FIPS 180-4 on its own, which [Sha2] is proved equal to.  [authenticode_verdict_sound] and [certificate_chain_verdict_sound] put them
    together: a verdict of trust means that the RSA signature, the message digest, the
    digest of the image and every link of the chain were checked, down to a root that is
    compiled in.  Below them every parser is total, reads in bounds on arbitrary bytes
    and fills what it promises; arithmetic, hashes and signatures equal their reference
    definitions (integers, FIPS 180-4, RFC 1321, EMSA-PKCS1-v1_5); encoders round trip.

    The pipeline: [TelemetryBus] (the queue), [Correlation] (scores and findings),
    [Policy] and [PolicyStore] (the decision and its file), [Pipeline] (publishers,
    worker and owner as interleaved steps), [LegacyAdapter] (engine events as
    observations).  [high_findings_are_corroborated], [ingest_behaviour],
    [candidates_are_earned] and [stop_drains] state what a finding and a candidate
    require, that approval is never automatic, and that stopping ends.

    The response: [Quarantine] (the executor with its ledger, over [FileSystem]),
    [VaultRuns] (its calls as sequences of requests that other calls and other programs
    come between) and [EngineManager] (events, approvals, quarantine, composed with every step of the
    pipeline).  [quarantined_files_are_earned] is the claim of the whole: whatever the
    interleaving and whatever the file system refuses, a file in the ledger was reported
    by an observation that warranted a candidate and was approved by a call.
    [vault_keeps_its_files], [quarantine_moves_or_refuses] and
    [quarantine_restore_roundtrip] say that no call loses a file it was given.

    The manager: [Lifecycle] (starting and stopping; the engines' common interface
    [ISecurityEngine] of src/include/gcad/i_security_engine.hpp is a type class, with the
    engines of one monitor thread as an instance), [EventLog] (the log and its queries),
    [Inspection] (the sampling of inspections).

    The scanner: [DeepScanner] (the verdict on a file and the scan with its pool of
    workers, as interleaved steps of owner, monitor and workers), [Heuristics],
    [SignatureDb], [Yara], [Md5], [PeStatic], [Entropy].  [scan_is_complete] and
    [scans_terminate] say that a scan answers for every file it was given and ends;
    [find_pattern_correct], [scan_buffer_correct] and [file_verdict_in_order] that
    searches and verdicts equal their declarative meaning.

    The engines that judge events: [EtwProcess] and [KernelMon] (processes and code as
    the kernel shows them), [ProcessBehavior] and [Behavior] (scores of a process),
    [ArtifactTrust], [RansomwareShield], [CredentialGuard], [ForensicTimeline],
    [ThreatIntel], [DeviceControl], [Lolbins], [FilelessAst], [Guards] (AMSI, drivers,
    pipes, WMI), [Monitors] (files and autorun values), [VulnScanner], [Sandbox].
    [BoundedLog] holds the lemmas of the logs they keep and [ExactFloat] those of the
    scores that are sums of small integers.  The credential guard refines a map from
    processes to what was seen of them ([credential_guard_refines]), the chains of the
    timeline follow the parents of processes ([chains_follow_processes]); scores are shown to cross their
    thresholds exactly at the signs that the code means ([ransomware_verdict],
    [explanation_shows_the_largest]).

    Network: [NetworkDpi], [Firewall], [DnsMonitor], [EtgRi] (captured packets, read in
    bounds: [etg_packets_in_bounds]), [Zrgp] (the deception ports).

    Memory and self defense: [ReflectiveInjection], [Pmsr] (the ring of canaries:
    [tampering_is_seen]), [Arhs] (snapshots and their roll back: [rollback_restores]),
    [SelfDefense] (access lists built byte by byte: [deny_is_prepended]), [Syscall].
    [Atomic] attacks the models of the other engines, as the self test of the program
    does with the engines.

    Around them: [UpdateEngine] (data files and their checksums), [AlertManager],
    [WebhookEngine], [ServiceIpc] (the packets between the service and its window:
    [ipc_packets], [threat_crosses_pipe]), [ReportGenerator], [UiPreferences], and the
    facade [Galois].

    ** How the code corresponds

    A class is a [Record] of its state, a method a function on it; an effect is a state
    that is returned, a sum for an exception, or a step of a relation.  Where threads
    meet, a step is the work between two points at which another thread may run (a
    lock), and theorems hold for every sequence of steps: [Pipeline.step],
    [EngineManager.managed_run], [VaultRuns.vault_step], [Arhs.arhs_act], [Sandbox.act],
    [TelemetryBus] operations.  In [EngineManager] a call of [quarantine] is one step; that
    others may act between its requests is modelled in [VaultRuns].  A buffer is a possibly null
    pointer with a length, and a read outside it is the outcome [OOB] of the monad
    [mem]: "reads in bounds" is the statement that [OOB] does not occur.  Words are
    integers in Z with their wrap-around written out ([u8], [u32], [u64]); [size_t] sums
    of offsets into a buffer in memory are exact, because the buffer is shorter than
    2^63 bytes.  Doubles are binary64 values of the Standard Library's specification.
    Times are nanoseconds unless a file says otherwise.

    What is not fixed by the language is an argument of the definitions: [std::sort]
    (given the comparator of the code, any permutation that it orders: [std_sort]), the iteration order of hash maps, [std::log2], the
    formatting of doubles, the clock, and what the operating system answers.

    ** Recursion and fuel

    Loops over lists are structural.  Loops over offsets take fuel that the code's own
    progress bounds: the sibling walk of DER elements and of sections takes the length
    of the buffer, the chain walk its constant, labels of a DNS name the length of the
    query, the walk of an access list its 16-bit count, and the search of a pattern the
    length of the text; each comes with the theorem that the fuel is enough (the function
    returns its result, never the out-of-fuel value).  Threads that loop for ever are
    step relations; that they drain their queue and leave when asked is a theorem about
    every schedule ([stop_drains], [scans_terminate], [hook_drains], [sandbox_drains]).

    ** Defects the model shows

    Proved as theorems or evaluated examples, listed with source lines in the manifest:
    among them engines that never restart after STOP ALL and a second start that calls
    [std::terminate] ([restart_fails]), a monitor that blocks for ever at the first
    suspicious name ([dga_names_block_the_monitor]), default rules that allow all
    inbound traffic ([default_rules_deny_nothing]), an observation that may be lost when
    the pipeline stops ([stop_can_lose_an_observation]), a failed write that loses a file
    of the vault ([unchecked_writes_lose_files]), a file replaced between its hash and its
    move ([replaced_before_the_move]), a signature whose mask one scan uses
    and the other ignores ([masks_are_ignored_at_offsets]), a code section that is not
    watched ([code_is_not_watched]), a check for forged parents that reports every parent
    but a forged one ([kernel_turn_exact]), and a self test that passes without the
    engines it tests ([self_test_is_constant]).

    ** Not modelled

    Drawing and the tray icon, the logger and the thread pool, process and service
    control, and the entry point: calls to the operating system and to the drawing
    library.  Of the kernel sensors, the sockets and the decoding of the structures of
    the Linux kernel; of the YARA engine its idle thread, of the static
    analysis engine its counters.  Polling threads are modelled as sequences of their turns, and what a
    turn reads from the system is its argument. *)
From stdpp Require Export base tactics list list_numbers strings pretty sorting relations gmap fin_maps.
From Stdlib Require Export ZArith Lia.
From Stdlib Require Export Strings.Byte.

#[global] Open Scope Z_scope.
#[global] Set Default Goal Selector "!".

(** ** Bytes and machine words *)

Declare Scope word_scope.
Delimit Scope word_scope with word.

(** [uint8_t] values are the 256 constructors of [byte]; [bval] reads one as a
    number and [byte_of] is the narrowing cast [static_cast<uint8_t>]. *)
Definition bval (b : byte) : Z := Z.of_N (Byte.to_N b).

Definition byte_of (z : Z) : byte :=
  match Byte.of_N (Z.to_N (z mod 256)) with
  | Some b => b
  | None => x00
  end.

#[export] Instance byte_eq_decision : EqDecision byte := Byte.byte_eq_dec.

#[export] Instance byte_inhabited : Inhabited byte := populate x00.

(** Wrap-around of the unsigned types. *)
Definition u8 (z : Z) : Z := z mod 2 ^ 8.
Definition u16 (z : Z) : Z := z mod 2 ^ 16.
Definition u32 (z : Z) : Z := z mod 2 ^ 32.
Definition u64 (z : Z) : Z := z mod 2 ^ 64.

Notation "x <<< n" := (Z.shiftl x n) (at level 35, right associativity) : word_scope.
Notation "x >>> n" := (Z.shiftr x n) (at level 35, right associativity) : word_scope.
Notation "x .& y" := (Z.land x y) (at level 37, left associativity) : word_scope.
Notation "x .^ y" := (Z.lxor x y) (at level 38, left associativity) : word_scope.
Notation "x .| y" := (Z.lor x y) (at level 39, left associativity) : word_scope.

Lemma bval_range b : 0 <= bval b < 256.
Proof. unfold bval. pose proof (Byte.to_N_bounded b). lia. Qed.

Lemma bval_byte_of z : bval (byte_of z) = z mod 256.
Proof.
  unfold bval, byte_of. pose proof (Z.mod_pos_bound z 256 ltac:(lia)) as Hz.
  destruct (Byte.of_N (Z.to_N (z mod 256))) as [b|] eqn:E.
  - apply Byte.to_of_N in E. rewrite E. lia.
  - apply Byte.of_N_None_iff in E. lia.
Qed.

Lemma byte_of_bval b : byte_of (bval b) = b.
Proof.
  unfold byte_of. rewrite Z.mod_small by apply bval_range.
  unfold bval. rewrite N2Z.id, Byte.of_to_N. reflexivity.
Qed.

#[export] Instance bval_inj : Inj (=) (=) bval.
Proof. intros a b H. rewrite <- (byte_of_bval a), <- (byte_of_bval b). congruence. Qed.

Lemma bval_byte_of_small z : 0 <= z < 256 -> bval (byte_of z) = z.
Proof. intros. rewrite bval_byte_of. apply Z.mod_small. lia. Qed.

Lemma bval_eqb a b : (bval a =? bval b) = bool_decide (a = b).
Proof.
  case_bool_decide as H; [subst; apply Z.eqb_refl |].
  apply Z.eqb_neq. intros E. apply H, (inj bval), E.
Qed.

Lemma u32_range z : 0 <= u32 z < 2 ^ 32.
Proof. apply Z.mod_pos_bound. lia. Qed.

Lemma u32_le z : 0 <= z -> 0 <= u32 z <= z.
Proof. intros. unfold u32. split; [apply Z.mod_pos_bound; lia | apply Z.mod_le; lia]. Qed.

Lemma u64_range z : 0 <= u64 z < 2 ^ 64.
Proof. apply Z.mod_pos_bound. lia. Qed.

Lemma u32_small z : 0 <= z < 2 ^ 32 -> u32 z = z.
Proof. apply Z.mod_small. Qed.

Lemma u64_small z : 0 <= z < 2 ^ 64 -> u64 z = z.
Proof. apply Z.mod_small. Qed.

(** A counter that goes on counting. *)
Lemma u64_add_one a n : u64 (u64 (a + 1) + Z.of_nat n) = u64 (a + Z.of_nat (S n)).
Proof. unfold u64. rewrite Z.add_mod_idemp_l by lia. f_equal. lia. Qed.

(** A disjunction of disjoint bit ranges is a sum. *)
Lemma lor_shiftl_add a b n :
  0 <= n -> 0 <= a < 2 ^ n -> Z.lor a (Z.shiftl b n) = a + b * 2 ^ n.
Proof.
  intros Hn Ha. rewrite <- Z.shiftl_mul_pow2 by lia.
  rewrite <- Z.lxor_lor.
  - symmetry. apply Z.add_nocarry_lxor.
    apply Z.bits_inj'. intros i Hi. rewrite Z.land_spec, Z.bits_0.
    destruct (Z.lt_ge_cases i n).
    + rewrite Z.shiftl_spec_low by lia. apply andb_false_r.
    + rewrite <- (Z.mod_small a (2 ^ n)) by lia.
      rewrite Z.mod_pow2_bits_high by lia. reflexivity.
  - apply Z.bits_inj'. intros i Hi. rewrite Z.land_spec, Z.bits_0.
    destruct (Z.lt_ge_cases i n).
    + rewrite Z.shiftl_spec_low by lia. apply andb_false_r.
    + rewrite <- (Z.mod_small a (2 ^ n)) by lia.
      rewrite Z.mod_pow2_bits_high by lia. reflexivity.
Qed.

Lemma land_ones_mod a n : 0 <= n -> Z.land a (2 ^ n - 1) = a mod 2 ^ n.
Proof.
  intros. replace (2 ^ n - 1) with (Z.ones n) by (rewrite Z.ones_equiv; lia).
  apply Z.land_ones. lia.
Qed.

(** ** Positional values *)

(** [digs B l] is the number whose base-[B] digits are [l], least significant
    first: limbs are read with [B = 2^32], bytes with [B = 256]. *)
Fixpoint digs (B : Z) (l : list Z) : Z :=
  match l with
  | [] => 0
  | x :: l' => x + B * digs B l'
  end.

Definition digit (B x : Z) : Prop := 0 <= x < B.

Section digs.
Context (B : Z) (HB : 1 < B).

Lemma digs_app l k : digs B (l ++ k) = digs B l + B ^ Z.of_nat (length l) * digs B k.
Proof.
  induction l as [|x l IH]; cbn [digs app length].
  - rewrite Z.pow_0_r. lia.
  - rewrite IH, Nat2Z.inj_succ, Z.pow_succ_r by lia. ring.
Qed.

Lemma digs_nonneg l : Forall (digit B) l -> 0 <= digs B l.
Proof. induction 1 as [|x l Hx Hl IH]; cbn [digs]; [lia|]. unfold digit in Hx. nia. Qed.

Lemma digs_bound l : Forall (digit B) l -> 0 <= digs B l < B ^ Z.of_nat (length l).
Proof.
  induction 1 as [|x l Hx Hl IH]; cbn [digs length].
  - rewrite Z.pow_0_r. lia.
  - rewrite Nat2Z.inj_succ, Z.pow_succ_r by lia. unfold digit in Hx. nia.
Qed.

Lemma digs_replicate_0 n : digs B (replicate n 0) = 0.
Proof. induction n; cbn [replicate digs]; lia. Qed.

Lemma digs_insert l i x y :
  l !! i = Some y -> digs B (<[i := x]> l) = digs B l + (x - y) * B ^ Z.of_nat i.
Proof.
  revert i. induction l as [|z l IH]; intros [|i] Hi; try discriminate.
  - cbn in Hi. injection Hi as ->. cbn. rewrite Z.pow_0_r. lia.
  - cbn in Hi. change (<[S i := x]> (z :: l)) with (z :: <[i := x]> l). cbn [digs].
    rewrite (IH i Hi), Nat2Z.inj_succ, Z.pow_succ_r by lia. ring.
Qed.

Lemma digs_lookup_le l i x :
  Forall (digit B) l -> l !! i = Some x -> x * B ^ Z.of_nat i <= digs B l.
Proof.
  intros Hl. revert i. induction Hl as [|z l Hz Hl IH]; intros [|i] Hi; try discriminate.
  - cbn in Hi. injection Hi as ->. cbn [digs]. rewrite Z.pow_0_r.
    pose proof (digs_nonneg _ Hl). nia.
  - cbn in Hi. cbn [digs]. rewrite Nat2Z.inj_succ, Z.pow_succ_r by lia.
    specialize (IH _ Hi). unfold digit in Hz. nia.
Qed.

Lemma digs_inj l k :
  Forall (digit B) l -> Forall (digit B) k -> length l = length k ->
  digs B l = digs B k -> l = k.
Proof.
  intros Hl. revert k. induction Hl as [|x l Hx Hl IH]; intros [|y k] Hk Hlen E;
    try discriminate; [done|].
  apply Forall_cons in Hk as [Hy Hk]. cbn [digs] in E. unfold digit in *.
  destruct (Z.div_mod_unique B (digs B l) (digs B k) x y) as [E' ->]; [lia..|].
  f_equal. apply IH; [done| |done]. by injection Hlen.
Qed.
End digs.

(** Little- and big-endian numbers of a byte string. *)
Definition le_val (l : list byte) : Z := digs 256 (bval <$> l).
Definition be_val (l : list byte) : Z := le_val (reverse l).

Lemma bytes_digits (l : list byte) : Forall (digit 256) (bval <$> l).
Proof. apply Forall_fmap, Forall_true. intros b. apply bval_range. Qed.

Lemma le_val_nonneg l : 0 <= le_val l.
Proof. apply digs_nonneg; [lia | apply bytes_digits]. Qed.

Lemma le_val_bound l : 0 <= le_val l < 256 ^ Z.of_nat (length l).
Proof.
  unfold le_val. pose proof (digs_bound 256 ltac:(lia) _ (bytes_digits l)) as H.
  by rewrite length_fmap in H.
Qed.

Lemma le_val_app l k : le_val (l ++ k) = le_val l + 256 ^ Z.of_nat (length l) * le_val k.
Proof. unfold le_val. rewrite fmap_app, digs_app, length_fmap. done. Qed.

Lemma le_val_inj l k : length l = length k -> le_val l = le_val k -> l = k.
Proof.
  intros Hlen E. apply (inj (fmap (M:=list) bval)).
  eapply (digs_inj 256); [apply bytes_digits..| |done]. by rewrite !length_fmap.
Qed.

Lemma be_val_bound l : 0 <= be_val l < 256 ^ Z.of_nat (length l).
Proof. unfold be_val. rewrite <- (length_reverse l). apply le_val_bound. Qed.

Lemma be_val_nonneg l : 0 <= be_val l.
Proof. apply le_val_nonneg. Qed.

Lemma be_val_inj l k : length l = length k -> be_val l = be_val k -> l = k.
Proof.
  intros Hlen E. apply (inj reverse), le_val_inj; [|done]. by rewrite !length_reverse.
Qed.

Lemma be_val_cons b l : be_val (b :: l) = bval b * 256 ^ Z.of_nat (length l) + be_val l.
Proof.
  unfold be_val. rewrite reverse_cons, le_val_app, length_reverse. unfold le_val. cbn. lia.
Qed.

Lemma be_val_app l k : be_val (l ++ k) = be_val l * 256 ^ Z.of_nat (length k) + be_val k.
Proof. unfold be_val. rewrite reverse_app, le_val_app, length_reverse. lia. Qed.

Lemma bval_high_bit b : (Z.land (bval b) 128 =? 0) = (bval b <? 128).
Proof. by destruct b. Qed.

Lemma bval_low_bits b : Z.land (bval b) 127 = bval b mod 128.
Proof. apply (land_ones_mod _ 7). lia. Qed.

Lemma lookup_lt_Z {A} (l : list A) (i : Z) :
  0 <= i < Z.of_nat (length l) -> exists x, l !! Z.to_nat i = Some x.
Proof. intros Hi. apply lookup_lt_is_Some. lia. Qed.

(** ** Memory-safe reads

    The parsers index raw buffers: [data[i]] outside the buffer is undefined
    behaviour.  A computation of type [mem A] yields a value or has read out of
    bounds; a parser is memory safe when no input makes it [OOB]. *)
Inductive mem (A : Type) : Type :=
  | Val (a : A)
  | OOB.
Arguments Val {A} a.
Arguments OOB {A}.

Definition mem_bind {A B} (m : mem A) (k : A -> mem B) : mem B :=
  match m with Val a => k a | OOB => OOB end.

(** A computation that may return early with [std::nullopt]. *)
Definition opt_bind {A B} (m : mem (option A)) (k : A -> mem (option B)) : mem (option B) :=
  mem_bind m (fun r => match r with Some a => k a | None => Val None end).

Declare Scope mem_scope.
Delimit Scope mem_scope with mem.
Notation "'let*' x := m 'in' k" := (mem_bind m (fun x => k))
  (at level 10, x pattern, m at level 100, k at level 200) : mem_scope.
Notation "'let?' x := m 'in' k" := (opt_bind m (fun x => k))
  (at level 10, x pattern, m at level 100, k at level 200) : mem_scope.

(** A [const uint8_t*] argument: [None] is the null pointer. *)
Definition ptr : Type := option (list byte).

Definition null (p : ptr) : bool := match p with None => true | Some _ => false end.

(** [p[i]] *)
Definition rd (p : ptr) (i : Z) : mem byte :=
  match p with
  | Some d =>
      if (0 <=? i) && (i <? Z.of_nat (length d)) then
        match d !! Z.to_nat i with Some b => Val b | None => OOB end
      else OOB
  | None => OOB
  end.

(** The bytes [p + start .. p + start + len], as the vector and string
    constructors over an iterator pair read them. *)
Definition slice (p : ptr) (start len : Z) : mem (list byte) :=
  match p with
  | Some d =>
      if (0 <=? start) && (0 <=? len) && (start + len <=? Z.of_nat (length d))
      then Val (take (Z.to_nat len) (drop (Z.to_nat start) d))
      else OOB
  | None => OOB
  end.

#[global] Arguments rd : simpl never.
#[global] Arguments slice : simpl never.

(** [m] reads in bounds only, and its value satisfies [Q]. *)
Definition safe {A} (m : mem A) (Q : A -> Prop) : Prop :=
  match m with Val a => Q a | OOB => False end.

(** The value of an early-returning computation satisfies [Q] when there is one. *)
Definition safe_opt {A} (m : mem (option A)) (Q : A -> Prop) : Prop :=
  safe m (fun r => forall a, r = Some a -> Q a).

Create HintDb gcad_safe discriminated.

Lemma safe_val {A} (a : A) (Q : A -> Prop) : Q a -> safe (Val a) Q.
Proof. done. Qed.

Lemma safe_bind {A B} (m : mem A) (k : A -> mem B) P Q :
  safe m P -> (forall a, P a -> safe (k a) Q) -> safe (mem_bind m k) Q.
Proof. destruct m; cbn; auto. Qed.

Lemma safe_mono {A} (m : mem A) (P Q : A -> Prop) :
  safe m P -> (forall a, P a -> Q a) -> safe m Q.
Proof. destruct m; cbn; auto. Qed.

Lemma safe_opt_bind {A B} (m : mem (option A)) (k : A -> mem (option B)) P Q :
  safe_opt m P -> (forall a, P a -> safe_opt (k a) Q) -> safe_opt (opt_bind m k) Q.
Proof.
  unfold safe_opt, opt_bind. destruct m as [[a|]|]; cbn; [auto| |auto].
  intros _ _ a. discriminate.
Qed.

Lemma safe_opt_mono {A} (m : mem (option A)) (P Q : A -> Prop) :
  safe_opt m P -> (forall a, P a -> Q a) -> safe_opt m Q.
Proof. intros Hm HPQ. eapply safe_mono; [apply Hm|]. eauto. Qed.

Lemma safe_opt_none {A} (Q : A -> Prop) : safe_opt (Val None) Q.
Proof. intros a. discriminate. Qed.

Lemma safe_opt_some {A} (a : A) (Q : A -> Prop) : Q a -> safe_opt (Val (Some a)) Q.
Proof. intros H b [= <-]. done. Qed.

Lemma safe_opt_bind_mem {A B} (m : mem A) (k : A -> mem (option B)) P Q :
  safe m P -> (forall a, P a -> safe_opt (k a) Q) -> safe_opt (mem_bind m k) Q.
Proof. apply safe_bind. Qed.

Lemma safe_not_oob {A} (m : mem A) Q : safe m Q -> m <> OOB.
Proof. by intros H ->. Qed.

Lemma safe_inv {A} (m : mem A) Q : safe m Q -> exists a, m = Val a /\ Q a.
Proof. destruct m; cbn; [eauto|done]. Qed.

Lemma safe_opt_some_inv {A} (m : mem (option A)) Q a : safe_opt m Q -> m = Val (Some a) -> Q a.
Proof. intros H ->. by apply H. Qed.

Lemma rd_safe d i :
  0 <= i < Z.of_nat (length d) -> safe (rd (Some d) i) (fun b => d !! Z.to_nat i = Some b).
Proof.
  intros Hi. unfold rd. destruct (lookup_lt_Z _ _ Hi) as [b Hb].
  rewrite (proj2 (Z.leb_le _ _)), (proj2 (Z.ltb_lt _ _)) by lia. cbn [andb].
  by rewrite Hb.
Qed.

Lemma rd_lookup d i b :
  d !! i = Some b -> rd (Some d) (Z.of_nat i) = Val b.
Proof.
  intros Hb. pose proof (lookup_lt_Some _ _ _ Hb). unfold rd.
  rewrite (proj2 (Z.leb_le _ _)), (proj2 (Z.ltb_lt _ _)) by lia. cbn [andb].
  by rewrite Nat2Z.id, Hb.
Qed.

Lemma rd_app pre b post : rd (Some (pre ++ b :: post)) (Z.of_nat (length pre)) = Val b.
Proof. apply rd_lookup. by rewrite lookup_app_r, Nat.sub_diag by lia. Qed.

Lemma slice_safe d start len :
  0 <= start -> 0 <= len -> start + len <= Z.of_nat (length d) ->
  safe (slice (Some d) start len)
    (fun l => l = take (Z.to_nat len) (drop (Z.to_nat start) d) /\ Z.of_nat (length l) = len).
Proof.
  intros H1 H2 H3. unfold slice.
  rewrite !(proj2 (Z.leb_le _ _)) by lia. cbn [andb safe]. split; [done|].
  rewrite length_take, length_drop. lia.
Qed.

(** [l] is a contiguous part of [d]. *)
Definition infix_of {A} (l d : list A) : Prop := exists pre post, d = pre ++ l ++ post.

Lemma infix_take_drop {A} (d : list A) m n : infix_of (take n (drop m d)) d.
Proof. exists (take m d), (drop n (drop m d)). by rewrite !take_drop. Qed.

Lemma slice_app pre mid post :
  slice (Some (pre ++ mid ++ post)) (Z.of_nat (length pre)) (Z.of_nat (length mid)) = Val mid.
Proof.
  unfold slice. rewrite !length_app, !(proj2 (Z.leb_le _ _)) by lia. cbn [andb].
  by rewrite !Nat2Z.id, drop_app_length, take_app_length.
Qed.

#[export] Hint Resolve safe_val safe_opt_none safe_opt_some rd_safe slice_safe : gcad_safe.
#[export] Hint Opaque safe safe_opt : gcad_safe.
#[export] Hint Extern 1 (_ <= _) => lia : gcad_safe.
#[export] Hint Extern 1 (_ < _) => lia : gcad_safe.
#[export] Hint Extern 1 (_ <= _ < _) => lia : gcad_safe.

(** Splits on the test of the first conditional of a [safe] goal and turns its
    boolean facts into propositions for [lia]. *)
Ltac bool_facts :=
  repeat match goal with
  | H : (_ && _) = true |- _ => apply andb_true_iff in H as [? ?]
  | H : (_ || _) = false |- _ => apply orb_false_iff in H as [? ?]
  | H : negb _ = true |- _ => apply negb_true_iff in H
  | H : negb _ = false |- _ => apply negb_false_iff in H
  | H : (_ <=? _) = true |- _ => apply Z.leb_le in H
  | H : (_ <=? _) = false |- _ => apply Z.leb_gt in H
  | H : (_ <? _) = true |- _ => apply Z.ltb_lt in H
  | H : (_ <? _) = false |- _ => apply Z.ltb_ge in H
  | H : (_ =? _) = true |- _ => apply Z.eqb_eq in H
  | H : (_ =? _) = false |- _ => apply Z.eqb_neq in H
  | H : String.eqb _ _ = true |- _ => apply String.eqb_eq in H
  | H : String.eqb _ _ = false |- _ => apply String.eqb_neq in H
  | H : bool_decide _ = true |- _ => apply bool_decide_eq_true_1 in H
  | H : bool_decide _ = false |- _ => apply bool_decide_eq_false_1 in H
  | H : (_ >? _) = _ |- _ => rewrite Z.gtb_ltb in H
  | H : (_ >=? _) = _ |- _ => rewrite Z.geb_leb in H
  end.

Ltac safe_if :=
  match goal with
  | |- safe (if ?b then _ else _) _ => let E := fresh "E" in destruct b eqn:E; bool_facts
  | |- safe_opt (if ?b then _ else _) _ => let E := fresh "E" in destruct b eqn:E; bool_facts
  end.

(** Runs a computation up to its next choice the databases do not settle. *)
Ltac safe_step :=
  match goal with
  | |- safe_opt (opt_bind _ _) _ => eapply safe_opt_bind; [solve [eauto with gcad_safe] |]; intros; cbv beta in *
  | |- safe_opt (mem_bind _ _) _ => eapply safe_opt_bind_mem; [solve [eauto with gcad_safe] |]; intros; cbv beta in *
  | |- safe (mem_bind _ _) _ => eapply safe_bind; [solve [eauto with gcad_safe] |]; intros; cbv beta in *
  | |- safe_opt (Val None) _ => apply safe_opt_none
  | |- safe_opt (Val (Some _)) _ => apply safe_opt_some
  | |- safe (Val _) _ => apply safe_val
  | |- safe_opt (let _ := _ in _) _ => cbv zeta
  | |- safe (let _ := _ in _) _ => cbv zeta
  | |- _ => safe_if
  end.
Ltac safe_auto := repeat safe_step.

(** Closes the branches that return nothing. *)
Ltac none_case := try match goal with |- safe_opt (Val None) _ => apply safe_opt_none end.

(** Splits the facts about the elements of a list of known shape. *)
Ltac forall_split :=
  repeat match goal with
  | H : Forall _ (_ :: _) |- _ => apply Forall_cons in H as [? H]
  | H : Forall _ [] |- _ => clear H
  end.

(** Inverts a computation that returned a value, step by step. *)
Ltac mem_inv H :=
  repeat match type of H with
  | opt_bind ?m _ = Val (Some _) =>
      let E := fresh "Em" in let r := fresh "r" in
      destruct m as [[r|]|] eqn:E; cbn [opt_bind mem_bind] in H; [|discriminate H..]
  | mem_bind ?m _ = Val _ =>
      let E := fresh "Em" in let r := fresh "r" in
      destruct m as [r|] eqn:E; cbn [mem_bind] in H; [|discriminate H]
  | (if ?b then Val None else _) = Val (Some _) =>
      let E := fresh "Eb" in destruct b eqn:E; [discriminate H|]
  | Val (Some _) = Val (Some _) => injection H as H
  end.

(** ** Sorted lists *)

Lemma sorted_snoc {A} (R : A -> A -> Prop) l x : StronglySorted R l -> Forall (fun y => R y x) l -> StronglySorted R (l ++ [x]).
Proof.
  intros Hs Hx. apply StronglySorted_app_2; [|done|repeat constructor].
  intros y z Hy Hz. apply list_elem_of_singleton in Hz as ->. rewrite Forall_forall in Hx. by apply Hx.
Qed.

(** ** [std::sort]

    A comparator is a strict weak order on the elements that are sorted when it never puts
    two of them before each other and incomparability is transitive.  For such a comparator
    the standard promises an ordered permutation, and leaves the order of incomparable
    elements open; for any other the behaviour is undefined. *)
Definition strict_weak_on {A} (before : A -> A -> bool) (l : list A) : Prop :=
  (forall x y, x ∈ l -> y ∈ l -> before x y = true -> before y x = false) /\
  (forall x y z, x ∈ l -> y ∈ l -> z ∈ l -> before x y = false -> before y z = false -> before x z = false).

Definition std_sort {A} (sort : (A -> A -> bool) -> list A -> list A) : Prop :=
  forall before l, strict_weak_on before l ->
    sort before l ≡ₚ l /\ StronglySorted (fun x y => before y x = false) (sort before l).

Lemma strict_weak_on_sub {A} (before : A -> A -> bool) (l k : list A) :
  (forall x, x ∈ k -> x ∈ l) -> strict_weak_on before l -> strict_weak_on before k.
Proof. intros Hk [Ha Ht]. split; [eauto|]. intros x y z Hx Hy Hz. apply (Ht x y z); auto. Qed.

(** A sort that keeps the promise, for the concrete runs. *)
Fixpoint insert_before {A} (before : A -> A -> bool) (x : A) (l : list A) : list A :=
  match l with
  | [] => [x]
  | y :: l' => if before y x then y :: insert_before before x l' else x :: l
  end.

Definition insert_sort {A} (before : A -> A -> bool) (l : list A) : list A := foldr (insert_before before) [] l.

Lemma insert_before_perm {A} (before : A -> A -> bool) x l : insert_before before x l ≡ₚ x :: l.
Proof. induction l as [|y l IH]; cbn; [done|]. destruct (before y x); [|done]. rewrite IH. apply Permutation_swap. Qed.

Lemma insert_sort_perm {A} (before : A -> A -> bool) l : insert_sort before l ≡ₚ l.
Proof. induction l as [|x l IH]; cbn; [done|]. by rewrite insert_before_perm, IH. Qed.

Lemma insert_before_sorted {A} (before : A -> A -> bool) x l :
  strict_weak_on before (x :: l) -> StronglySorted (fun a b => before b a = false) l ->
  StronglySorted (fun a b => before b a = false) (insert_before before x l).
Proof.
  induction l as [|y l IH]; intros Hw Hs; cbn; [by repeat constructor|]. pose proof Hw as [Ha Ht].
  apply StronglySorted_inv in Hs as [Hs Hy]. destruct (before y x) eqn:E.
  - constructor.
    + apply IH; [|done]. revert Hw. apply strict_weak_on_sub. intros z. rewrite !elem_of_cons. tauto.
    + rewrite insert_before_perm. constructor; [|done]. apply Ha; [rewrite !elem_of_cons; tauto..|done].
  - constructor; [by constructor|]. constructor; [done|]. apply Forall_forall. intros z Hz. rewrite Forall_forall in Hy.
    apply (Ht z y x); [rewrite !elem_of_cons; tauto..|by apply Hy|done].
Qed.

Lemma insert_sort_std {A} : std_sort (insert_sort (A := A)).
Proof.
  intros before l Hw. split; [apply insert_sort_perm|]. induction l as [|x l IH]; cbn; [constructor|].
  apply insert_before_sorted.
  - revert Hw. apply strict_weak_on_sub. intros z. rewrite !elem_of_cons. change (foldr (insert_before before) [] l) with (insert_sort before l). by rewrite insert_sort_perm.
  - apply IH. revert Hw. apply strict_weak_on_sub. intros z. rewrite elem_of_cons. tauto.
Qed.
