(* ===== verification/BoundedLog.v ===== *)
(** * BoundedLog: the logs the engines keep

    The engines keep their events in a [std::deque]: a new one is pushed at the back, and
    [while (log.size() > MAX) log.pop_front()] cuts the front; a query of the [n] latest
    returns the end of the deque.  One pair of definitions models all of them. *)
From S2P Require Import Prelude.

(** The last [n] elements. *)
Definition last_n {A} (n : Z) (l : list A) : list A := drop (length l - Z.to_nat n) l.

Definition push_bounded {A} (max : Z) (log : list A) (x : A) : list A := last_n max (log ++ [x]).

Definition latest {A} (n : Z) (log : list A) : list A := last_n (Z.min n (Z.of_nat (length log))) log.

#[global] Arguments last_n : simpl never.
#[global] Arguments push_bounded : simpl never.
#[global] Arguments latest : simpl never.

Section logs.
Context {A : Type}.
Implicit Types (l : list A) (n m max : Z).

Lemma last_n_length n l : 0 <= n -> Z.of_nat (length (last_n n l)) = Z.min n (Z.of_nat (length l)).
Proof. intros Hn. unfold last_n. rewrite length_drop. lia. Qed.

Lemma last_n_all n l : Z.of_nat (length l) <= n -> last_n n l = l.
Proof. intros H. unfold last_n. replace (length l - Z.to_nat n)%nat with 0%nat by lia. done. Qed.

Lemma last_n_suffix n l : exists before, l = before ++ last_n n l.
Proof. exists (take (length l - Z.to_nat n) l). unfold last_n. by rewrite take_drop. Qed.

Lemma last_n_app n l (k : list A) : Z.of_nat (length k) <= n -> last_n n (l ++ k) = last_n (n - Z.of_nat (length k)) l ++ k.
Proof.
  intros H. unfold last_n. rewrite length_app, drop_app. f_equal.
  - f_equal. lia.
  - replace (length l + length k - Z.to_nat n - length l)%nat with 0%nat by lia. done.
Qed.

Lemma last_n_last_n n m l : 0 <= n -> 0 <= m -> last_n n (last_n m l) = last_n (Z.min n m) l.
Proof. intros Hn Hm. unfold last_n. rewrite drop_drop, length_drop. f_equal. lia. Qed.

Lemma last_n_push max l x : 0 < max -> push_bounded max (last_n max l) x = last_n max (l ++ [x]).
Proof.
  intros H. unfold push_bounded. rewrite !last_n_app by (cbn; lia). f_equal.
  rewrite last_n_last_n by (cbn; lia). f_equal. cbn. lia.
Qed.

(** A log holds the latest of what was pushed. *)
Lemma push_bounded_from max l (xs : list A) : 0 < max -> foldl (push_bounded max) (last_n max l) xs = last_n max (l ++ xs).
Proof.
  intros H. induction xs as [|x xs IH] using rev_ind; [by rewrite app_nil_r|]. rewrite foldl_app, IH, app_assoc. cbn [foldl].
  by apply last_n_push.
Qed.

Lemma push_bounded_all max (xs : list A) : 0 < max -> foldl (push_bounded max) [] xs = last_n max xs.
Proof. exact (push_bounded_from max [] xs). Qed.

Lemma latest_last_n n max l : 0 <= n -> 0 <= max -> latest n (last_n max l) = last_n (Z.min n max) l.
Proof.
  intros Hn Hm. unfold latest. rewrite last_n_length, last_n_last_n by lia.
  unfold last_n. f_equal. lia.
Qed.

Lemma in_last_n x n l : In x (last_n n l) -> In x l.
Proof. destruct (last_n_suffix n l) as [before E]. intros H. rewrite E. apply in_or_app. by right. Qed.

Lemma Forall_last_n (P : A -> Prop) n l : Forall P l -> Forall P (last_n n l).
Proof. apply Forall_drop. Qed.

Lemma in_push_bounded max l x y : In y (push_bounded max l x) -> In y l \/ y = x.
Proof. intros H%in_last_n. apply in_app_or in H as [H|[H|[]]]; auto. Qed.
End logs.

Lemma mjoin_fmap_nil {A B} (g : A -> list B) l : (forall x, g x = []) -> mjoin (g <$> l) = [].
Proof. intros H. induction l as [|x l IH]; [done|]. change (g x ++ mjoin (g <$> l) = []). by rewrite H, IH. Qed.
