(* ===== verification/BigNum.v ===== *)
(** * BigNum: the arbitrary-precision unsigned integer of the RSA check

    Models [gcad::security::BigUInt] (src/include/gcad/security/bignum.hpp and
    src/src/security/bignum.cpp): little-endian vectors of 32-bit limbs with no
    trailing zero limb.  Loops over limb indices are recursions over the limb
    lists; an operand read past its end is 0 exactly where the code writes
    [i < size ? limbs_[i] : 0].  Every operation is proved against [Z]. *)
From S2P Require Import Prelude.

#[local] Open Scope word_scope.

(** ** Data and operations *)

Record BigUInt := Big { limbs_ : list Z }.


Definition limb : Z -> Prop := digit (2 ^ 32).

(** [trim]: pop zero limbs from the back; [drop_zeros] works on the reversed
    vector, whose head is [limbs_.back()]. *)
Fixpoint drop_zeros (r : list Z) : list Z :=
  match r with
  | [] => []
  | x :: r' => if x =? 0 then drop_zeros r' else r
  end.

Definition trim (a : BigUInt) : BigUInt := Big (reverse (drop_zeros (reverse (limbs_ a)))).

Fixpoint skip_zero_bytes (data : list byte) : list byte :=
  match data with
  | [] => []
  | b :: data' => if bval b =? 0 then skip_zero_bytes data' else data
  end.

(** One turn of the loop of [from_bytes_be]: or the [i]-th least significant
    byte into its limb. *)
Definition or_byte (limbs : list Z) (ib : nat * byte) : list Z :=
  let '(i, b) := ib in
  <[(i / 4)%nat := (limbs !!! (i / 4)%nat)
                   .| u32 (bval b <<< (Z.of_nat (i mod 4) * 8))]> limbs.

Definition from_bytes_be (data : list byte) : BigUInt :=
  let rest := skip_zero_bytes data in
  let n := length rest in
  if Nat.eqb n 0 then Big []
  else trim (Big (foldl or_byte (replicate ((n + 3) / 4) 0) (zip (seq 0 n) (reverse rest)))).

Definition from_small (value : Z) : BigUInt :=
  if negb (value =? 0) then Big [value] else Big [].

Definition limb_bytes (l : Z) : list byte :=
  [byte_of (l .& 0xFF); byte_of ((l >>> 8) .& 0xFF);
   byte_of ((l >>> 16) .& 0xFF); byte_of ((l >>> 24) .& 0xFF)].

(** [while (first_nonzero + 1 < size && big_endian[first_nonzero] == 0)] *)
Fixpoint strip_leading (l : list byte) : list byte :=
  match l with
  | b :: ((_ :: _) as l') => if bval b =? 0 then strip_leading l' else l
  | _ => l
  end.

Definition to_bytes_be (min_len : nat) (a : BigUInt) : list byte :=
  let little_endian := mjoin (limb_bytes <$> limbs_ a) in
  let big_endian := reverse little_endian in
  let trimmed := strip_leading big_endian in
  if Nat.eqb (length trimmed) 1 && bool_decide (trimmed !! 0%nat = Some x00) && Nat.eqb min_len 0
  then []
  else if Nat.ltb (length trimmed) min_len
       then replicate (min_len - length trimmed) x00 ++ trimmed
       else trimmed.

Definition is_zero (a : BigUInt) : bool :=
  match limbs_ a with [] => true | _ => false end.

(** [while (top) { ++n; top >>= 1; }] on a 32-bit word. *)
Fixpoint count_bits (fuel : nat) (top : Z) : nat :=
  match fuel with
  | O => 0
  | S fuel' => if top =? 0 then 0 else S (count_bits fuel' (top >>> 1))
  end.

Definition bit_length (a : BigUInt) : nat :=
  match last (limbs_ a) with
  | None => 0
  | Some top => (length (limbs_ a) - 1) * 32 + count_bits 32 top
  end.

Definition get_bit (a : BigUInt) (index : nat) : bool :=
  match limbs_ a !! (index / 32)%nat with
  | None => false
  | Some l => negb (((l >>> Z.of_nat (index mod 32)) .& 1) =? 0)
  end.

Fixpoint compare_top (ra rb : list Z) : Z :=
  match ra, rb with
  | x :: ra', y :: rb' => if negb (x =? y) then (if x <? y then -1 else 1) else compare_top ra' rb'
  | _, _ => 0
  end.

Definition compare (a b : BigUInt) : Z :=
  if negb (Nat.eqb (length (limbs_ a)) (length (limbs_ b)))
  then (if Nat.ltb (length (limbs_ a)) (length (limbs_ b)) then -1 else 1)
  else compare_top (reverse (limbs_ a)) (reverse (limbs_ b)).

Fixpoint add_loop (n : nat) (a b : list Z) (carry : Z) : list Z :=
  match n with
  | O => []
  | S n' =>
      let sum := u64 (hd 0 a + hd 0 b + carry) in
      (sum .& 0xFFFFFFFF) :: add_loop n' (tail a) (tail b) (sum >>> 32)
  end.

Definition add (a b : BigUInt) : BigUInt :=
  let n := S (Nat.max (length (limbs_ a)) (length (limbs_ b))) in
  trim (Big (add_loop n (limbs_ a) (limbs_ b) 0)).

(** [diff] is an [int64_t]; the narrowing cast to [uint32_t] is [u32]. *)
Fixpoint sub_loop (a b : list Z) (borrow : Z) : list Z :=
  match a with
  | [] => []
  | ai :: a' =>
      let diff := ai - hd 0 b - borrow in
      if diff <? 0
      then u32 (diff + (1 <<< 32)) :: sub_loop a' (tail b) 1
      else u32 diff :: sub_loop a' (tail b) 0
  end.

Definition subtract (a b : BigUInt) : BigUInt :=
  trim (Big (sub_loop (limbs_ a) (limbs_ b) 0)).

(** The carry propagation [while (carry != 0)] of one row, on the limbs of the
    result from index [k] on. *)
Fixpoint mul_carry (r : list Z) (carry : Z) : list Z :=
  if carry =? 0 then r
  else match r with
       | [] => []
       | rk :: r' =>
           let sum := u64 (rk + carry) in
           (sum .& 0xFFFFFFFF) :: mul_carry r' (sum >>> 32)
       end.

(** The inner loop of row [i], on the limbs of the result from index [i] on. *)
Fixpoint mul_row (ai : Z) (b r : list Z) (carry : Z) : list Z :=
  match b, r with
  | bj :: b', rij :: r' =>
      let prod := u64 (ai * bj + rij + carry) in
      (prod .& 0xFFFFFFFF) :: mul_row ai b' r' (prod >>> 32)
  | _, _ => mul_carry r carry
  end.

(** The outer loop: row [i] leaves the limbs below [i] alone. *)
Fixpoint mul_loop (a b r : list Z) : list Z :=
  match a with
  | [] => r
  | ai :: a' =>
      match mul_row ai b r 0 with
      | [] => []
      | low :: r' => low :: mul_loop a' b r'
      end
  end.

Definition multiply (a b : BigUInt) : BigUInt :=
  if is_zero a || is_zero b then Big []
  else trim (Big (mul_loop (limbs_ a) (limbs_ b)
                    (replicate (length (limbs_ a) + length (limbs_ b)) 0))).

Fixpoint shl_loop (a : list Z) (carry : Z) : list Z :=
  match a with
  | [] => [carry]
  | ai :: a' => (u32 (ai <<< 1) .| carry) :: shl_loop a' (ai >>> 31)
  end.

Definition shift_left_one_bit (a : BigUInt) : BigUInt :=
  if is_zero a then Big [] else trim (Big (shl_loop (limbs_ a) 0)).

(** The loop body of [mod] runs for [idx = total_bits - 1, ..., 0]. *)
Fixpoint mod_loop (a m : BigUInt) (idx : nat) (remainder : BigUInt) : BigUInt :=
  match idx with
  | O => remainder
  | S idx' =>
      let r1 := shift_left_one_bit remainder in
      let r2 := if get_bit a idx' then add r1 (from_small 1) else r1 in
      let r3 := if 0 <=? compare r2 m then subtract r2 m else r2 in
      mod_loop a m idx' r3
  end.

Definition bmod (a m : BigUInt) : BigUInt :=
  if is_zero m then Big []
  else if compare a m <? 0 then a
  else mod_loop a m (bit_length a) (Big []).

(** The loop of [mod_pow] runs for [i = 0, ..., bits - 1]. *)
Fixpoint mod_pow_loop (exp m : BigUInt) (i : nat) (bits : nat) (result base : BigUInt) : BigUInt :=
  match bits with
  | O => result
  | S bits' =>
      let result' := if get_bit exp i then bmod (multiply result base) m else result in
      mod_pow_loop exp m (S i) bits' result' (bmod (multiply base base) m)
  end.

Definition mod_pow (base_in exp m : BigUInt) : BigUInt :=
  if is_zero m then Big []
  else mod_pow_loop exp m 0 (bit_length exp) (from_small 1) (bmod base_in m).

(** ** Abstraction *)

(** The number a [BigUInt] stands for, and the representation invariant: limbs
    are 32-bit words and the last one is not zero. *)
Definition big_val (a : BigUInt) : Z := digs (2 ^ 32) (limbs_ a).

Definition big_wf (a : BigUInt) : Prop :=
  Forall limb (limbs_ a) /\ last (limbs_ a) <> Some 0.

#[global] Arguments big_val : simpl never.

(** ** Helper lemmas *)

Lemma last_nil_or_nonzero (l : list Z) : last (reverse (drop_zeros (reverse l))) <> Some 0.
Proof.
  rewrite last_reverse. induction (reverse l) as [|x r IH]; cbn; [done|].
  destruct (Z.eqb_spec x 0); [done|]. cbn. congruence.
Qed.

Lemma drop_zeros_split r : exists n, r = replicate n 0 ++ drop_zeros r.
Proof.
  induction r as [|x r [n IH]]; [by exists 0%nat|]. cbn.
  destruct (Z.eqb_spec x 0) as [->|]; [|by exists 0%nat].
  exists (S n). cbn. by rewrite <- IH.
Qed.

Lemma big_val_trim a : big_val (trim a) = big_val a.
Proof.
  unfold big_val, trim. cbn.
  destruct (drop_zeros_split (reverse (limbs_ a))) as [n E].
  apply (f_equal reverse) in E. rewrite reverse_involutive, reverse_app in E.
  rewrite E at 2. rewrite digs_app by lia.
  rewrite reverse_replicate, digs_replicate_0. lia.
Qed.

Lemma trim_wf a : Forall limb (limbs_ a) -> big_wf (trim a).
Proof.
  intros Ha. split; [|apply last_nil_or_nonzero]. cbn.
  destruct (drop_zeros_split (reverse (limbs_ a))) as [n E].
  apply Forall_reverse. apply Forall_reverse in Ha. rewrite E in Ha.
  by apply Forall_app in Ha as [_ ?].
Qed.

Lemma big_val_nonneg a : Forall limb (limbs_ a) -> 0 <= big_val a.
Proof. intros. apply digs_nonneg; [lia|done]. Qed.

Lemma big_val_bound a :
  Forall limb (limbs_ a) -> big_val a < (2 ^ 32) ^ Z.of_nat (length (limbs_ a)).
Proof. intros. apply digs_bound; [lia|done]. Qed.

(** A canonical number with [n + 1] limbs is at least [2 ^ (32 * n)]. *)
Lemma big_val_lower a n :
  big_wf a -> length (limbs_ a) = S n -> (2 ^ 32) ^ Z.of_nat n <= big_val a.
Proof.
  intros [Ha Hl] Hn.
  destruct (limbs_ a !! n) as [x|] eqn:E; [|apply lookup_ge_None in E; lia].
  assert (x <> 0) as Hx.
  { rewrite last_lookup, Hn in Hl. cbn in Hl. congruence. }
  assert (limb x) as Hx' by (eapply Forall_lookup_1; done).
  unfold limb, digit in Hx'.
  pose proof (digs_lookup_le (2 ^ 32) ltac:(lia) _ _ _ Ha E). unfold big_val. nia.
Qed.

Lemma is_zero_spec a : big_wf a -> is_zero a = (big_val a =? 0).
Proof.
  intros Ha. unfold is_zero. destruct (limbs_ a) as [|x l] eqn:E.
  - unfold big_val. by rewrite E.
  - symmetry. apply Z.eqb_neq.
    pose proof (big_val_lower a (length l) Ha) as H. rewrite E in H.
    specialize (H eq_refl). pose proof (Z.pow_pos_nonneg (2 ^ 32) (Z.of_nat (length l))).
    lia.
Qed.

Lemma big_nil_wf : big_wf (Big []).
Proof. by split. Qed.

Lemma from_small_wf v : limb v -> big_wf (from_small v).
Proof.
  intros Hv. unfold from_small. destruct (Z.eqb_spec v 0); cbn; [apply big_nil_wf|].
  split; cbn; [by constructor|congruence].
Qed.

Lemma from_small_val v : big_val (from_small v) = v.
Proof. unfold from_small, big_val. destruct (Z.eqb_spec v 0); cbn; lia. Qed.

(** Two canonical numbers are ordered first by size, then limb by limb. *)
Definition sgn (c : comparison) : Z := match c with Lt => -1 | Eq => 0 | Gt => 1 end.

Lemma compare_top_spec ra rb :
  Forall limb ra -> Forall limb rb -> length ra = length rb ->
  compare_top ra rb = sgn (digs (2 ^ 32) (reverse ra) ?= digs (2 ^ 32) (reverse rb)).
Proof.
  intros Ha. revert rb. induction Ha as [|x ra Hx Ha IH]; intros [|y rb] Hb Hlen;
    try discriminate; [done|].
  apply Forall_cons in Hb as [Hy Hb]. injection Hlen as Hlen.
  cbn [compare_top]. rewrite !reverse_cons, !digs_app, !length_reverse by lia.
  pose proof (digs_bound (2 ^ 32) ltac:(lia) (reverse ra) ltac:(by apply Forall_reverse)) as Ba.
  pose proof (digs_bound (2 ^ 32) ltac:(lia) (reverse rb) ltac:(by apply Forall_reverse)) as Bb.
  rewrite length_reverse in Ba, Bb. rewrite <- Hlen in *.
  set (P := (2 ^ 32) ^ Z.of_nat (length ra)) in *.
  set (da := digs _ (reverse ra)) in *. set (db := digs _ (reverse rb)) in *.
  cbn [digs]. unfold limb, digit in *.
  destruct (Z.eqb_spec x y) as [->|Hne]; cbn [negb].
  - rewrite IH by done. fold da db.
    by rewrite !(Z.add_comm _ (P * _)), Z.add_compare_mono_l.
  - destruct (Z.ltb_spec x y).
    + destruct (Z.compare_spec (da + P * (x + 2 ^ 32 * 0)) (db + P * (y + 2 ^ 32 * 0))); cbn; nia.
    + destruct (Z.compare_spec (da + P * (x + 2 ^ 32 * 0)) (db + P * (y + 2 ^ 32 * 0))); cbn; nia.
Qed.

Lemma compare_spec a b :
  big_wf a -> big_wf b -> compare a b = sgn (big_val a ?= big_val b).
Proof.
  intros Ha Hb. unfold compare.
  destruct (Nat.eqb_spec (length (limbs_ a)) (length (limbs_ b))) as [E|E]; cbn [negb].
  - rewrite compare_top_spec, !reverse_involutive.
    + done.
    + apply Forall_reverse, Ha.
    + apply Forall_reverse, Hb.
    + by rewrite !length_reverse.
  - assert (Hlt : forall c d, big_wf c -> big_wf d ->
      (length (limbs_ c) < length (limbs_ d))%nat -> big_val c < big_val d).
    { intros c d Hc Hd Hcd.
      pose proof (big_val_bound c (proj1 Hc)).
      pose proof (big_val_lower d (length (limbs_ d) - 1) Hd ltac:(lia)).
      pose proof (Z.pow_le_mono_r (2 ^ 32) (Z.of_nat (length (limbs_ c)))
                    (Z.of_nat (length (limbs_ d) - 1)) ltac:(lia) ltac:(lia)). lia. }
    destruct (Nat.ltb_spec (length (limbs_ a)) (length (limbs_ b))).
    + specialize (Hlt a b Ha Hb ltac:(lia)). rewrite (proj2 (Z.compare_lt_iff _ _)); [done|lia].
    + specialize (Hlt b a Hb Ha ltac:(lia)). rewrite (proj2 (Z.compare_gt_iff _ _)); [done|lia].
Qed.

(** ** Addition and subtraction *)

Lemma split32 z : (z .& 0xFFFFFFFF) + 2 ^ 32 * (z >>> 32) = z.
Proof.
  change 0xFFFFFFFF with (2 ^ 32 - 1). rewrite land_ones_mod, Z.shiftr_div_pow2 by lia.
  pose proof (Z.div_mod z (2 ^ 32)). lia.
Qed.

Lemma land32_limb z : limb (z .& 0xFFFFFFFF).
Proof.
  change 0xFFFFFFFF with (2 ^ 32 - 1). rewrite land_ones_mod by lia.
  apply Z.mod_pos_bound. lia.
Qed.

Lemma shr32_bound z k : 0 <= z < 2 ^ 32 * k -> 0 <= z >>> 32 < k.
Proof.
  intros. rewrite Z.shiftr_div_pow2 by lia.
  split; [apply Z.div_pos; lia|apply Z.div_lt_upper_bound; lia].
Qed.

Create HintDb big.

#[export] Hint Resolve land32_limb big_nil_wf trim_wf from_small_wf : big.

Lemma hd_digit l : Forall limb l -> limb (hd 0 l).
Proof. intros H. destruct H; cbn; [unfold limb, digit; lia|done]. Qed.

Lemma digs_hd_tail B l : digs B l = hd 0 l + B * digs B (tail l).
Proof. destruct l; cbn; lia. Qed.

Lemma tail_limbs l : Forall limb l -> Forall limb (tail l).
Proof. by destruct 1. Qed.

#[export] Hint Resolve hd_digit tail_limbs : big.

Lemma add_loop_spec n a b carry :
  Forall limb a -> Forall limb b -> 0 <= carry <= 1 ->
  (length a < n)%nat -> (length b < n)%nat ->
  digs (2 ^ 32) (add_loop n a b carry) = digs (2 ^ 32) a + digs (2 ^ 32) b + carry /\
  Forall limb (add_loop n a b carry).
Proof.
  revert a b carry. induction n as [|n IH]; intros a b carry Ha Hb Hc Hla Hlb; [lia|].
  cbn [add_loop digs].
  pose proof (hd_digit a Ha) as H1. pose proof (hd_digit b Hb) as H2.
  unfold limb, digit in H1, H2. rewrite u64_small by lia.
  set (sum := hd 0 a + hd 0 b + carry) in *.
  pose proof (split32 sum) as Hs. pose proof (shr32_bound sum 2 ltac:(lia)) as Hq.
  destruct n as [|n].
  - destruct a, b; cbn in Hla, Hlb; try lia. cbn [hd] in *.
    pose proof (shr32_bound sum 1 ltac:(lia)). cbn [add_loop digs]. split; [lia|]. auto with big.
  - destruct (IH (tail a) (tail b) (sum >>> 32)) as [IH1 IH2];
      [auto with big..|lia|destruct a; cbn in *; lia|destruct b; cbn in *; lia|].
    rewrite IH1, (digs_hd_tail _ a), (digs_hd_tail _ b). split; [lia|]. auto with big.
Qed.

Lemma add_spec a b :
  big_wf a -> big_wf b -> big_val (add a b) = big_val a + big_val b /\ big_wf (add a b).
Proof.
  intros [Ha _] [Hb _]. unfold add.
  destruct (add_loop_spec (S (Nat.max (length (limbs_ a)) (length (limbs_ b))))
              (limbs_ a) (limbs_ b) 0) as [E H]; [done|done|lia..|].
  rewrite big_val_trim. split; [|by apply trim_wf].
  unfold big_val at 1. cbn [limbs_]. unfold big_val. lia.
Qed.

Lemma sub_loop_spec a b borrow :
  Forall limb a -> Forall limb b -> 0 <= borrow <= 1 -> (length b <= length a)%nat ->
  exists out, 0 <= out <= 1 /\
  digs (2 ^ 32) (sub_loop a b borrow) =
    digs (2 ^ 32) a - digs (2 ^ 32) b - borrow + out * (2 ^ 32) ^ Z.of_nat (length a) /\
  Forall limb (sub_loop a b borrow) /\ length (sub_loop a b borrow) = length a.
Proof.
  intros Ha. revert b borrow. induction Ha as [|x a Hx Ha IH]; intros b borrow Hb Hbo Hlen.
  - destruct b; cbn in Hlen; [|lia]. exists borrow. cbn. split_and!; [lia|lia|lia|done|done].
  - cbn [sub_loop length]. rewrite Nat2Z.inj_succ, Z.pow_succ_r by lia.
    rewrite (digs_hd_tail _ b). pose proof (hd_digit b Hb) as Hy.
    unfold limb, digit in Hx, Hy. change (1 <<< 32) with (2 ^ 32).
    assert (Hlen' : (length (tail b) <= length a)%nat) by (destruct b; cbn in *; lia).
    destruct (Z.ltb_spec (x - hd 0 b - borrow) 0) as [Hd|Hd].
    + destruct (IH (tail b) 1) as (o & Ho & E & Hf & Hl); [auto with big|lia|done|].
      exists o. cbn [digs length]. rewrite u32_small, E, Hl by lia.
      split_and!; [lia|lia|ring|constructor; [unfold limb, digit; lia|done]|done].
    + destruct (IH (tail b) 0) as (o & Ho & E & Hf & Hl); [auto with big|lia|done|].
      exists o. cbn [digs length]. rewrite u32_small, E, Hl by lia.
      split_and!; [lia|lia|ring|constructor; [unfold limb, digit; lia|done]|done].
Qed.

Lemma subtract_spec a b :
  big_wf a -> big_wf b -> big_val b <= big_val a ->
  big_val (subtract a b) = big_val a - big_val b /\ big_wf (subtract a b).
Proof.
  intros Ha Hb Hle. unfold subtract.
  assert (length (limbs_ b) <= length (limbs_ a))%nat as Hlen.
  { destruct (decide (length (limbs_ b) <= length (limbs_ a))%nat); [done|].
    pose proof (big_val_lower b (length (limbs_ b) - 1) Hb ltac:(lia)).
    pose proof (big_val_bound a (proj1 Ha)).
    pose proof (Z.pow_le_mono_r (2 ^ 32) (Z.of_nat (length (limbs_ a)))
                  (Z.of_nat (length (limbs_ b) - 1)) ltac:(lia) ltac:(lia)). lia. }
  destruct (sub_loop_spec (limbs_ a) (limbs_ b) 0 (proj1 Ha) (proj1 Hb)) as (o & Ho & E & Hf & Hl);
    [lia|done|].
  rewrite big_val_trim. split; [|by apply trim_wf].
  pose proof (digs_bound (2 ^ 32) ltac:(lia) _ Hf) as Hbd. rewrite Hl in Hbd.
  pose proof (big_val_bound a (proj1 Ha)). pose proof (big_val_nonneg b (proj1 Hb)).
  unfold big_val in *. cbn [limbs_]. assert (o = 0) as -> by nia. lia.
Qed.

(** ** Shift and multiplication *)

Lemma shl_loop_spec a carry :
  Forall limb a -> 0 <= carry <= 1 ->
  digs (2 ^ 32) (shl_loop a carry) = 2 * digs (2 ^ 32) a + carry /\
  Forall limb (shl_loop a carry).
Proof.
  intros Ha. revert carry. induction Ha as [|x a Hx Ha IH]; intros carry Hc.
  - cbn. split; [lia|]. constructor; [unfold limb, digit; lia|done].
  - cbn [shl_loop digs]. unfold limb, digit in Hx.
    assert (Hw : (u32 (x <<< 1) .| carry) = u32 (x <<< 1) + carry).
    { rewrite Z.lor_comm. unfold u32.
      replace ((x <<< 1) mod 2 ^ 32) with ((x mod 2 ^ 31) <<< 1).
      - rewrite lor_shiftl_add by lia. rewrite Z.shiftl_mul_pow2 by lia. lia.
      - rewrite !Z.shiftl_mul_pow2 by lia.
        replace (2 ^ 32) with (2 ^ 31 * 2 ^ 1) by lia. rewrite Z.mul_mod_distr_r by lia. done. }
    rewrite Hw. unfold u32. rewrite Z.shiftl_mul_pow2, Z.shiftr_div_pow2 by lia.
    pose proof (Z.div_mod x (2 ^ 31)) as Hdm. pose proof (Z.mod_pos_bound x (2 ^ 31)).
    assert (Hd : 0 <= x / 2 ^ 31 <= 1).
    { split; [apply Z.div_pos; lia|]. apply Z.lt_succ_r, Z.div_lt_upper_bound; lia. }
    assert (Hm : (x * 2 ^ 1) mod 2 ^ 32 = 2 * (x mod 2 ^ 31)).
    { replace (2 ^ 32) with (2 ^ 31 * 2 ^ 1) by lia. rewrite Z.mul_mod_distr_r by lia. lia. }
    destruct (IH (x / 2 ^ 31) Hd) as [E Hf]. rewrite E, Hm. split; [lia|].
    constructor; [unfold limb, digit; lia|done].
Qed.

Lemma shift_left_one_bit_spec a :
  big_wf a -> big_val (shift_left_one_bit a) = 2 * big_val a /\ big_wf (shift_left_one_bit a).
Proof.
  intros Ha. unfold shift_left_one_bit. rewrite is_zero_spec by done.
  destruct (Z.eqb_spec (big_val a) 0) as [E|E].
  - rewrite E. split; [done|apply big_nil_wf].
  - destruct (shl_loop_spec (limbs_ a) 0 (proj1 Ha)) as [E' Hf]; [lia|].
    rewrite big_val_trim. split; [|by apply trim_wf]. unfold big_val. cbn [limbs_]. lia.
Qed.

Lemma mul_carry_spec r carry :
  Forall limb r -> 0 <= carry < 2 ^ 32 ->
  digs (2 ^ 32) r + carry < (2 ^ 32) ^ Z.of_nat (length r) ->
  digs (2 ^ 32) (mul_carry r carry) = digs (2 ^ 32) r + carry /\
  Forall limb (mul_carry r carry) /\ length (mul_carry r carry) = length r.
Proof.
  intros Hr. revert carry. induction Hr as [|x r Hx Hr IH]; intros carry Hc Hb;
    cbn [mul_carry]; destruct (Z.eqb_spec carry 0) as [->|Hne].
  - cbn. split_and!; [lia|done|done].
  - cbn in Hb. lia.
  - split_and!; [lia|by constructor|done].
  - cbn [length] in Hb. rewrite Nat2Z.inj_succ, Z.pow_succ_r in Hb by lia.
    cbn [digs] in *. unfold limb, digit in Hx. rewrite u64_small by lia.
    pose proof (split32 (x + carry)) as Hs. pose proof (shr32_bound (x + carry) 2 ltac:(lia)).
    pose proof (land32_limb (x + carry)) as Hlow. unfold limb, digit in Hlow.
    destruct (IH ((x + carry) >>> 32)) as (E & Hf & Hl); [lia|nia|].
    cbn [length]. rewrite E, Hl. split_and!; [lia|constructor; [done|done]|done].
Qed.

Lemma mul_row_spec ai b r carry :
  limb ai -> Forall limb b -> Forall limb r -> 0 <= carry < 2 ^ 32 ->
  (length b <= length r)%nat ->
  digs (2 ^ 32) r + ai * digs (2 ^ 32) b + carry < (2 ^ 32) ^ Z.of_nat (length r) ->
  digs (2 ^ 32) (mul_row ai b r carry) = digs (2 ^ 32) r + ai * digs (2 ^ 32) b + carry /\
  Forall limb (mul_row ai b r carry) /\ length (mul_row ai b r carry) = length r.
Proof.
  intros Hai Hb. revert r carry.
  induction Hb as [|y b Hy Hb IH]; intros r carry Hr Hc Hlen Hbd.
  - cbn [digs] in *. replace (mul_row ai [] r carry) with (mul_carry r carry) by by destruct r.
    destruct (mul_carry_spec r carry) as (E & ?); [done|done|lia|]. split; [lia|done].
  - destruct Hr as [|x r Hx Hr]; [cbn in Hlen; lia|].
    cbn [length] in Hbd, Hlen. rewrite Nat2Z.inj_succ, Z.pow_succ_r in Hbd by lia.
    cbn [mul_row digs] in *. unfold limb, digit in Hx, Hy, Hai.
    rewrite u64_small by nia. set (p := ai * y + x + carry) in *.
    pose proof (split32 p) as Hs. pose proof (land32_limb p) as Hlow. unfold limb, digit in Hlow.
    pose proof (shr32_bound p (2 ^ 32) ltac:(nia)).
    destruct (IH r (p >>> 32)) as (E & Hf & Hl); [done|lia|lia|nia|].
    cbn [length digs]. rewrite E, Hl. split_and!; [nia|by constructor|done].
Qed.

Lemma mul_loop_spec a b r :
  Forall limb a -> Forall limb b -> Forall limb r ->
  (length a + length b <= length r)%nat ->
  digs (2 ^ 32) r < (2 ^ 32) ^ Z.of_nat (length b) ->
  digs (2 ^ 32) (mul_loop a b r) = digs (2 ^ 32) r + digs (2 ^ 32) a * digs (2 ^ 32) b /\
  Forall limb (mul_loop a b r).
Proof.
  intros Ha Hb. revert r. induction Ha as [|x a Hx Ha IH]; intros r Hr Hlen Hbd.
  - cbn. split; [lia|done].
  - pose proof (digs_bound (2 ^ 32) ltac:(lia) b Hb) as Hbb.
    pose proof (digs_nonneg (2 ^ 32) ltac:(lia) r Hr) as Hrn.
    cbn [length] in Hlen. unfold limb, digit in Hx.
    assert (Hrow : digs (2 ^ 32) r + x * digs (2 ^ 32) b + 0 < 2 ^ 32 * (2 ^ 32) ^ Z.of_nat (length b)) by nia.
    destruct (mul_row_spec x b r 0) as (E & Hf & Hl); [done|done|done|lia|lia| |].
    + rewrite <- Z.pow_succ_r in Hrow by lia.
      pose proof (Z.pow_le_mono_r (2 ^ 32) (Z.succ (Z.of_nat (length b))) (Z.of_nat (length r))
                    ltac:(lia) ltac:(lia)). lia.
    + cbn [mul_loop digs]. destruct (mul_row x b r 0) as [|low r'] eqn:Em.
      { cbn in Hl. lia. }
      apply Forall_cons in Hf as [Hlow Hf]. unfold limb, digit in Hlow. cbn [digs length] in *.
      destruct (IH r' Hf) as [E' Hf']; [lia|nia|].
      rewrite E'. split; [nia|by constructor].
Qed.

Lemma multiply_spec a b :
  big_wf a -> big_wf b ->
  big_val (multiply a b) = big_val a * big_val b /\ big_wf (multiply a b).
Proof.
  intros Ha Hb. unfold multiply. rewrite !is_zero_spec by done.
  destruct (Z.eqb_spec (big_val a) 0) as [->|]; [split; [done|apply big_nil_wf]|].
  destruct (Z.eqb_spec (big_val b) 0) as [->|]; cbn [orb].
  { rewrite Z.mul_0_r. split; [done|apply big_nil_wf]. }
  destruct (mul_loop_spec (limbs_ a) (limbs_ b)
    (replicate (length (limbs_ a) + length (limbs_ b)) 0)) as [E Hf].
  - apply Ha.
  - apply Hb.
  - apply Forall_replicate. unfold limb, digit. lia.
  - by rewrite length_replicate.
  - rewrite digs_replicate_0. apply Z.pow_pos_nonneg; lia.
  - rewrite big_val_trim. split; [|by apply trim_wf].
    unfold big_val. cbn [limbs_]. rewrite E, digs_replicate_0. lia.
Qed.

(** ** Bits *)

Lemma count_bits_spec fuel top :
  0 <= top < 2 ^ Z.of_nat fuel ->
  (count_bits fuel top <= fuel)%nat /\ top < 2 ^ Z.of_nat (count_bits fuel top).
Proof.
  revert top. induction fuel as [|fuel IH]; intros top Ht; cbn [count_bits].
  - cbn in *. lia.
  - rewrite Nat2Z.inj_succ, Z.pow_succ_r in Ht by lia.
    destruct (Z.eqb_spec top 0); [cbn; lia|].
    rewrite Z.shiftr_div_pow2 by lia.
    destruct (IH (top / 2 ^ 1)) as [IH1 IH2].
    { split; [apply Z.div_pos; lia|apply Z.div_lt_upper_bound; lia]. }
    rewrite Nat2Z.inj_succ, Z.pow_succ_r by lia. split; [lia|].
    pose proof (Z.div_mod top (2 ^ 1)). pose proof (Z.mod_pos_bound top (2 ^ 1)). lia.
Qed.

Lemma pow32_pow2 n : (2 ^ 32) ^ Z.of_nat n = 2 ^ (32 * Z.of_nat n).
Proof. rewrite <- Z.pow_mul_r by lia. done. Qed.

Lemma bit_length_bound a : big_wf a -> big_val a < 2 ^ Z.of_nat (bit_length a).
Proof.
  intros [Ha _]. unfold bit_length, big_val.
  destruct (limbs_ a) as [|x l _] using rev_ind; [cbn; lia|].
  rewrite last_snoc, length_app. cbn [length]. apply Forall_app in Ha as [Hl Hx].
  apply Forall_cons in Hx as [Hx _]. rewrite digs_app by lia. cbn [digs].
  destruct (count_bits_spec 32 x) as [_ Hc]; [unfold limb, digit in Hx; cbn; lia|].
  pose proof (digs_bound (2 ^ 32) ltac:(lia) l Hl) as Hb. rewrite pow32_pow2 in *.
  replace (Z.of_nat ((length l + 1 - 1) * 32 + count_bits 32 x))
    with (32 * Z.of_nat (length l) + Z.of_nat (count_bits 32 x)) by lia.
  rewrite Z.pow_add_r by lia. nia.
Qed.

Lemma digs_testbit l i :
  Forall limb l ->
  Z.testbit (digs (2 ^ 32) l) (Z.of_nat i) =
  match l !! (i / 32)%nat with Some x => Z.testbit x (Z.of_nat (i mod 32)) | None => false end.
Proof.
  intros Hl. revert i. induction Hl as [|x l Hx Hl IH]; intros i.
  - cbn [digs]. by rewrite Z.bits_0, lookup_nil.
  - cbn [digs]. unfold limb, digit in Hx.
    rewrite (Z.mul_comm (2 ^ 32)), <- lor_shiftl_add, Z.lor_spec by lia.
    destruct (decide (i < 32)%nat) as [Hi|Hi].
    + rewrite Nat.div_small, Nat.mod_small, Z.shiftl_spec_low, orb_false_r by lia. done.
    + assert (Ei : i = (i - 32 + 1 * 32)%nat) by lia.
      assert ((i / 32)%nat = S ((i - 32) / 32)) as ->.
      { rewrite Ei at 1. rewrite Nat.div_add by lia. lia. }
      assert ((i mod 32)%nat = ((i - 32) mod 32)%nat) as ->.
      { rewrite Ei at 1. by rewrite Nat.Div0.mod_add. }
      change ((x :: l) !! S ((i - 32) / 32)) with (l !! ((i - 32) / 32)%nat).
      rewrite <- (Z.mod_small x (2 ^ 32)), Z.mod_pow2_bits_high, Z.shiftl_spec_high by lia.
      replace (Z.of_nat i - 32) with (Z.of_nat (i - 32)) by lia. apply IH.
Qed.

Lemma get_bit_spec a i : big_wf a -> get_bit a i = Z.testbit (big_val a) (Z.of_nat i).
Proof.
  intros [Ha _]. unfold get_bit, big_val. rewrite digs_testbit by done.
  destruct (_ !! _) as [x|]; [|done].
  rewrite (Z.land_ones _ 1), Z.shiftr_div_pow2 by lia. change (2 ^ 1) with 2.
  rewrite <- Z.testbit_spec' by lia. by destruct (Z.testbit x _).
Qed.

(** ** Reduction and modular exponentiation *)

Lemma get_bit_step a i :
  big_wf a ->
  big_val a / 2 ^ Z.of_nat i =
  2 * (big_val a / 2 ^ Z.of_nat (S i)) + (if get_bit a i then 1 else 0).
Proof.
  intros Ha. rewrite get_bit_spec by done.
  pose proof (Z.testbit_spec' (big_val a) (Z.of_nat i) ltac:(lia)) as Hb.
  rewrite Nat2Z.inj_succ, Z.pow_succ_r, (Z.mul_comm 2 (2 ^ _)) by lia.
  rewrite <- Z.div_div by (try apply Z.pow_nonzero; lia).
  set (q := big_val a / 2 ^ Z.of_nat i) in *.
  pose proof (Z.div_mod q 2 ltac:(lia)) as Hd. rewrite <- Hb in Hd.
  destruct (Z.testbit _ _); cbn [Z.b2z] in Hd; lia.
Qed.

Lemma mod_loop_spec a m idx r :
  big_wf a -> big_wf m -> 0 < big_val m -> big_wf r ->
  big_val r = (big_val a / 2 ^ Z.of_nat idx) mod big_val m ->
  big_val (mod_loop a m idx r) = big_val a mod big_val m /\ big_wf (mod_loop a m idx r).
Proof.
  intros Ha Hm Hpos. revert r. induction idx as [|i IH]; intros r Hr E.
  - cbn [mod_loop]. rewrite Z.pow_0_r, Z.div_1_r in E. done.
  - cbn [mod_loop].
    destruct (shift_left_one_bit_spec r Hr) as [E1 W1].
    set (r1 := shift_left_one_bit r) in *.
    set (bit := if get_bit a i then 1 else 0).
    assert (H2 : big_val (if get_bit a i then add r1 (from_small 1) else r1) = 2 * big_val r + bit /\
  big_wf (if get_bit a i then add r1 (from_small 1) else r1)).
    { subst bit. destruct (get_bit a i); [|split; [lia|done]].
      destruct (add_spec r1 (from_small 1)) as [Ea Wa];
        [done|apply from_small_wf; unfold limb, digit; lia|].
      rewrite Ea, from_small_val. split; [lia|done]. }
    destruct H2 as [E2 W2]. set (r2 := if get_bit a i then add r1 (from_small 1) else r1) in *.
    set (q := big_val a / 2 ^ Z.of_nat (S i)) in *. set (M := big_val m) in *.
    assert (Hq : big_val a / 2 ^ Z.of_nat i = 2 * q + bit) by (by apply get_bit_step).
    pose proof (Z.mod_pos_bound q M Hpos) as Hqb. rewrite <- E in Hqb.
    assert (0 <= bit <= 1) by (subst bit; destruct (get_bit a i); lia).
    assert (Hmod : (2 * q + bit) mod M = (big_val r2) mod M).
    { rewrite E2, E. rewrite <- (Z.add_mod_idemp_l (2 * q)), <- (Z.add_mod_idemp_l (2 * (q mod M))) by lia.
      by rewrite Z.mul_mod_idemp_r by lia. }
    rewrite compare_spec by done. fold M.
    apply IH.
    + destruct (Z.compare_spec (big_val r2) M); cbn; [| |]; try done.
      all: apply subtract_spec; try done; fold M; lia.
    + rewrite Hq, Hmod.
      destruct (Z.compare_spec (big_val r2) M) as [Ec|Ec|Ec]; cbn.
      * destruct (subtract_spec r2 m W2 Hm) as [Es _]; [fold M; lia|]. rewrite Es. fold M.
        rewrite Ec, Z.mod_same by lia. lia.
      * symmetry. apply Z.mod_small. lia.
      * destruct (subtract_spec r2 m W2 Hm) as [Es _]; [fold M; lia|]. rewrite Es. fold M.
        rewrite <- (Z_mod_plus_full (big_val r2) (-1) M), Z.mod_small by lia. lia.
Qed.

Lemma bmod_spec a m :
  big_wf a -> big_wf m -> 0 < big_val m ->
  big_val (bmod a m) = big_val a mod big_val m /\ big_wf (bmod a m).
Proof.
  intros Ha Hm Hpos. unfold bmod. rewrite is_zero_spec by done.
  destruct (Z.eqb_spec (big_val m) 0); [lia|]. rewrite compare_spec by done.
  pose proof (big_val_nonneg a (proj1 Ha)).
  assert (Hloop : big_val (mod_loop a m (bit_length a) (Big [])) = big_val a mod big_val m /\
  big_wf (mod_loop a m (bit_length a) (Big []))).
  { apply mod_loop_spec; try done. pose proof (bit_length_bound a Ha).
    rewrite Z.div_small by lia. by rewrite Z.mod_0_l by lia. }
  destruct (Z.compare_spec (big_val a) (big_val m)); cbn; try done.
  rewrite Z.mod_small by lia. done.
Qed.

Lemma mod_pow_loop_spec e m b bits i result base :
  big_wf e -> big_wf m -> 0 < big_val m -> 0 <= b -> big_wf result -> big_wf base ->
  big_val result mod big_val m = b ^ (big_val e mod 2 ^ Z.of_nat i) mod big_val m ->
  big_val base = b ^ (2 ^ Z.of_nat i) mod big_val m ->
  let r := mod_pow_loop e m i bits result base in
  big_val r mod big_val m = b ^ (big_val e mod 2 ^ Z.of_nat (i + bits)) mod big_val m /\ big_wf r /\
  (0 <= big_val result < big_val m -> 0 <= big_val r < big_val m).
Proof.
  intros He Hm Hpos Hb0. revert i result base.
  induction bits as [|bits IH]; intros i result base Hr Hb Er Eb; cbn [mod_pow_loop].
  - rewrite Nat.add_0_r. done.
  - set (M := big_val m) in *.
    destruct (multiply_spec base base Hb Hb) as [Ebb Wbb].
    destruct (bmod_spec (multiply base base) m Wbb Hm Hpos) as [Eb2 Wb2].
    set (e1 := big_val e mod 2 ^ Z.of_nat i) in *.
    set (p := 2 ^ Z.of_nat i) in *.
    assert (Hp : 0 < p) by (apply Z.pow_pos_nonneg; lia).
    assert (He1 : 0 <= e1) by (apply Z.mod_pos_bound; lia).
    assert (Hbase : big_val (bmod (multiply base base) m) = b ^ (2 ^ Z.of_nat (S i)) mod M).
    { rewrite Eb2, Ebb, Eb. fold M. rewrite <- Z.mul_mod by lia.
      rewrite <- Z.pow_add_r by lia. f_equal. f_equal.
      rewrite Nat2Z.inj_succ, Z.pow_succ_r by lia. fold p. lia. }
    assert (Hres : let r' := if get_bit e i then bmod (multiply result base) m else result in
      big_wf r' /\ big_val r' mod M = b ^ (big_val e mod 2 ^ Z.of_nat (S i)) mod M /\
  (0 <= big_val result < M -> 0 <= big_val r' < M)).
    { cbn zeta.
      assert (Hbit : big_val e mod 2 ^ Z.of_nat (S i) = e1 + p * (if get_bit e i then 1 else 0)).
      { subst e1 p. rewrite Nat2Z.inj_succ, Z.pow_succ_r, (Z.mul_comm 2 (2 ^ _)) by lia.
        rewrite Z.rem_mul_r by (try apply Z.pow_nonzero; lia).
        rewrite get_bit_spec by done. rewrite <- Z.testbit_spec' by lia.
        by destruct (Z.testbit (big_val e) (Z.of_nat i)). }
      rewrite Hbit. destruct (get_bit e i).
      - destruct (multiply_spec result base Hr Hb) as [Em Wm].
        destruct (bmod_spec (multiply result base) m Wm Hm Hpos) as [Eq Wq].
        fold M in Eq. split_and!; [done| |].
        + rewrite Eq, Z.mod_mod, Em, Z.mul_mod, Er, Eb, Z.mod_mod, <- Z.mul_mod by lia.
          rewrite <- Z.pow_add_r by lia. f_equal. f_equal. lia.
        + intros _. rewrite Eq. apply Z.mod_pos_bound. lia.
      - rewrite Z.mul_0_r, Z.add_0_r. done. }
    destruct Hres as (Wr' & Er' & Hlt).
    destruct (IH (S i) _ _ Wr' Wb2 Er' Hbase) as (E & W & L).
    rewrite Nat.add_succ_r. split_and!; [exact E|done|tauto].
Qed.

(** [mod_pow] is modular exponentiation for every modulus above 1. *)
Lemma mod_pow_spec base e m :
  big_wf base -> big_wf e -> big_wf m -> 1 < big_val m ->
  big_val (mod_pow base e m) = big_val base ^ big_val e mod big_val m /\
  big_wf (mod_pow base e m).
Proof.
  intros Hb He Hm Hpos. unfold mod_pow. rewrite is_zero_spec by done.
  destruct (Z.eqb_spec (big_val m) 0); [lia|].
  destruct (bmod_spec base m Hb Hm ltac:(lia)) as [Eb Wb].
  destruct (mod_pow_loop_spec e m (big_val base) (bit_length e) 0 (from_small 1) (bmod base m))
    as (E & W & L); try done; [lia|apply big_val_nonneg, Hb| | | |].
  - apply from_small_wf. unfold limb, digit. lia.
  - rewrite from_small_val. cbn. by rewrite Z.mod_1_r, Z.pow_0_r.
  - rewrite Eb. cbn. by rewrite Z.pow_1_r.
  - rewrite from_small_val in L. specialize (L ltac:(lia)). split; [|done].
    rewrite <- (Z.mod_small _ _ L), E. f_equal. f_equal. apply Z.mod_small.
    split; [apply big_val_nonneg, He|apply bit_length_bound, He].
Qed.

(** ** Bytes *)

Lemma pow256_split k :
  256 ^ Z.of_nat k = (2 ^ 32) ^ Z.of_nat (k / 4) * 2 ^ (Z.of_nat (k mod 4) * 8).
Proof.
  rewrite pow32_pow2, <- Z.pow_add_r by lia. change 256 with (2 ^ 8).
  rewrite <- Z.pow_mul_r by lia. f_equal.
  pose proof (Nat.div_mod_eq k 4). lia.
Qed.

Lemma or_byte_spec limbs k b :
  Forall limb limbs -> (k < 4 * length limbs)%nat -> digs (2 ^ 32) limbs < 256 ^ Z.of_nat k ->
  digs (2 ^ 32) (or_byte limbs (k, b)) = digs (2 ^ 32) limbs + bval b * 256 ^ Z.of_nat k /\
  Forall limb (or_byte limbs (k, b)) /\ length (or_byte limbs (k, b)) = length limbs.
Proof.
  intros Hl Hk Hb. unfold or_byte.
  destruct (limbs !! (k / 4)%nat) as [x|] eqn:E.
  2:{ apply lookup_ge_None in E. exfalso. pose proof (Nat.Div0.div_lt_upper_bound k 4 (length limbs)). lia. }
  rewrite (list_lookup_total_correct _ _ _ E).
  pose proof (digs_lookup_le (2 ^ 32) ltac:(lia) _ _ _ Hl E) as Hle.
  rewrite pow256_split in *. set (m := Z.of_nat (k mod 4) * 8) in *.
  assert (Hm : 0 <= m <= 24) by (pose proof (Nat.mod_upper_bound k 4 ltac:(lia)); lia).
  pose proof (Z.pow_pos_nonneg (2 ^ 32) (Z.of_nat (k / 4)) ltac:(lia) ltac:(lia)) as Hp.
  pose proof (bval_range b) as Hbr.
  assert (Hx0 : 0 <= x).
  { assert (limb x) as Hx by (eapply Forall_lookup_1; done). apply Hx. }
  assert (Hx : 0 <= x < 2 ^ m) by nia.
  assert (Hm2 : 2 ^ m <= 2 ^ 24) by (apply Z.pow_le_mono_r; lia).
  assert (Hsh : 0 <= bval b * 2 ^ m < 2 ^ 32) by nia.
  rewrite u32_small by (rewrite Z.shiftl_mul_pow2; lia).
  rewrite lor_shiftl_add by lia. split_and!.
  - rewrite (digs_insert _ _ _ _ _ E). ring.
  - apply Forall_insert; [done|]. unfold limb, digit.
    replace (2 ^ 32) with (2 ^ (32 - m) * 2 ^ m) by (rewrite <- Z.pow_add_r by lia; f_equal; lia).
    assert (2 ^ 8 <= 2 ^ (32 - m)) by (apply Z.pow_le_mono_r; lia). nia.
  - apply length_insert.
Qed.

Lemma or_bytes_spec bs : forall k limbs,
  Forall limb limbs -> (k + length bs <= 4 * length limbs)%nat ->
  digs (2 ^ 32) limbs < 256 ^ Z.of_nat k ->
  digs (2 ^ 32) (foldl or_byte limbs (zip (seq k (length bs)) bs)) =
    digs (2 ^ 32) limbs + 256 ^ Z.of_nat k * le_val bs /\
  Forall limb (foldl or_byte limbs (zip (seq k (length bs)) bs)).
Proof.
  induction bs as [|b bs IH]; intros k limbs Hl Hk Hb.
  - cbn. split; [lia|done].
  - cbn [length seq zip zip_with foldl] in *.
    destruct (or_byte_spec limbs k b) as (E & Hf & Hlen); [done|lia|done|].
    pose proof (bval_range b). pose proof (Z.pow_pos_nonneg 256 (Z.of_nat k) ltac:(lia) ltac:(lia)).
    pose proof (digs_nonneg (2 ^ 32) ltac:(lia) limbs Hl).
    destruct (IH (S k) (or_byte limbs (k, b))) as [E' Hf'].
    + done.
    + lia.
    + rewrite E, Nat2Z.inj_succ, Z.pow_succ_r by lia. nia.
    + rewrite E', E. split; [|done].
      rewrite Nat2Z.inj_succ, Z.pow_succ_r by lia. unfold le_val. cbn. ring.
Qed.

Lemma skip_zero_bytes_val data : be_val (skip_zero_bytes data) = be_val data.
Proof.
  induction data as [|b data IH]; [done|]. cbn [skip_zero_bytes].
  destruct (Z.eqb_spec (bval b) 0) as [E|E]; [|done]. rewrite IH, be_val_cons, E. lia.
Qed.

Lemma from_bytes_be_spec data :
  big_val (from_bytes_be data) = be_val data /\ big_wf (from_bytes_be data).
Proof.
  rewrite <- (skip_zero_bytes_val data). unfold from_bytes_be.
  destruct (skip_zero_bytes data) as [|b rest] eqn:E; [by split|].
  set (r := b :: rest). change (Nat.eqb (length r) 0) with false. cbv iota.
  destruct (or_bytes_spec (reverse r) 0 (replicate ((length r + 3) / 4) 0)) as [E1 Hf].
  - apply Forall_replicate. unfold limb, digit. lia.
  - rewrite length_reverse, length_replicate.
    pose proof (Nat.div_mod_eq (length r + 3) 4). pose proof (Nat.mod_upper_bound (length r + 3) 4). lia.
  - rewrite digs_replicate_0. cbn. lia.
  - rewrite length_reverse in *. rewrite big_val_trim. split; [|by apply trim_wf].
    unfold big_val. cbn [limbs_]. rewrite E1, digs_replicate_0.
    unfold be_val. cbn [Z.of_nat]. rewrite Z.pow_0_r. lia.
Qed.

Lemma limb_bytes_val x : limb x -> le_val (limb_bytes x) = x.
Proof.
  intros Hx. unfold limb, digit in Hx. unfold le_val, limb_bytes. cbn [fmap list_fmap digs].
  rewrite !bval_byte_of. change 0xFF with (2 ^ 8 - 1).
  rewrite !land_ones_mod, !Z.shiftr_div_pow2 by lia. change (2 ^ 8) with 256.
  rewrite !Z.mod_mod by lia.
  assert (Hd : forall z, z = z mod 256 + 256 * (z / 256)) by (intros; pose proof (Z.div_mod z 256); lia).
  change (2 ^ 16) with (256 * 256). change (2 ^ 24) with (256 * 256 * 256).
  rewrite <- !Z.div_div by lia.
  pose proof (Hd x). pose proof (Hd (x / 256)). pose proof (Hd (x / 256 / 256)).
  pose proof (Hd (x / 256 / 256 / 256)).
  assert (x / 256 / 256 / 256 / 256 = 0) by (rewrite !Z.div_div by lia; apply Z.div_small; lia).
  lia.
Qed.

Lemma limbs_bytes_val l :
  Forall limb l -> le_val (mjoin (limb_bytes <$> l)) = digs (2 ^ 32) l.
Proof.
  induction 1 as [|x l Hx Hl IH]; [done|].
  change (mjoin (limb_bytes <$> x :: l)) with (limb_bytes x ++ mjoin (limb_bytes <$> l)).
  cbn [digs]. rewrite le_val_app, limb_bytes_val, IH by done.
  change (256 ^ Z.of_nat (length (limb_bytes x))) with (2 ^ 32). lia.
Qed.

Lemma strip_leading_spec l :
  exists k, l = replicate k x00 ++ strip_leading l /\
  ((length (strip_leading l) <= 1)%nat \/
   exists b l', strip_leading l = b :: l' /\ bval b <> 0).
Proof.
  induction l as [|b l IH]; [exists 0%nat; cbn; auto|].
  destruct l as [|c l]; [exists 0%nat; cbn; auto|].
  change (strip_leading (b :: c :: l)) with
    (if bval b =? 0 then strip_leading (c :: l) else b :: c :: l).
  destruct (Z.eqb_spec (bval b) 0) as [E|E].
  - destruct IH as (k & Ek & Hk). exists (S k). split; [|done].
    cbn [replicate app]. rewrite <- Ek. f_equal. apply (inj bval). done.
  - exists 0%nat. split; [done|]. right. by exists b, (c :: l).
Qed.

Lemma be_val_zeros k l : be_val (replicate k x00 ++ l) = be_val l.
Proof. induction k as [|k IH]; [done|]. cbn [replicate app]. rewrite be_val_cons, IH. cbn. lia. Qed.

Lemma to_bytes_be_spec n a :
  big_wf a ->
  be_val (to_bytes_be n a) = big_val a /\
  (big_val a < 256 ^ Z.of_nat n -> length (to_bytes_be n a) = n).
Proof.
  intros [Ha _]. unfold to_bytes_be.
  set (t := strip_leading (reverse (mjoin (limb_bytes <$> limbs_ a)))).
  assert (Ht : be_val t = big_val a).
  { destruct (strip_leading_spec (reverse (mjoin (limb_bytes <$> limbs_ a)))) as (k & E & _).
    fold t in E. rewrite <- (be_val_zeros k t), <- E. unfold be_val.
    by rewrite reverse_involutive, limbs_bytes_val. }
  destruct (strip_leading_spec (reverse (mjoin (limb_bytes <$> limbs_ a)))) as (_ & _ & Hlead).
  fold t in Hlead.
  destruct (Nat.eqb_spec (length t) 1) as [E1|E1]; cbn [andb].
  - destruct t as [|b [|? ?]]; try discriminate. cbn [lookup list_lookup].
    destruct (decide (b = x00)) as [->|Hb].
    + rewrite bool_decide_true by done. cbn [andb].
      destruct (Nat.eqb_spec n 0) as [->|Hn]; [done|].
      destruct (Nat.ltb_spec (length [x00]) n) as [Hl|Hl]; cbn [length] in Hl.
      * rewrite be_val_zeros. split; [done|]. intros _. rewrite length_app, length_replicate. cbn. lia.
      * split; [done|]. intros _. cbn. lia.
    + rewrite bool_decide_false by congruence. cbn [andb].
      assert (Hv : 1 <= bval b).
      { pose proof (bval_range b). enough (bval b <> 0) by lia. intros E. apply Hb, (inj bval), E. }
      destruct (Nat.ltb_spec (length [b]) n) as [Hl|Hl]; cbn [length] in Hl.
      * rewrite be_val_zeros. split; [done|]. intros _. rewrite length_app, length_replicate. cbn. lia.
      * split; [done|]. rewrite <- Ht. rewrite be_val_cons. cbn. intros Hlt.
        destruct n as [|[|n]]; [cbn in Hlt; lia|done|lia].
  - destruct (Nat.ltb_spec (length t) n) as [Hl|Hl].
    + rewrite be_val_zeros. split; [done|]. intros _. rewrite length_app, length_replicate. lia.
    + split; [done|]. intros Hlt. destruct Hlead as [Hs|(b & l' & E & Hb)]; [lia|].
      rewrite E in *. cbn [length] in *. rewrite be_val_cons in Ht.
      pose proof (bval_range b). pose proof (be_val_bound l').
      destruct (decide (n <= length l')%nat); [|lia].
      pose proof (Z.pow_le_mono_r 256 (Z.of_nat n) (Z.of_nat (length l')) ltac:(lia) ltac:(lia)). nia.
Qed.

(** ** Properties *)

(** the arithmetic of [BigUInt] is the arithmetic of the non-negative
    integers, and every operation returns a canonical number: no carry, borrow
    or limb is lost whatever the operands' sizes. *)
Theorem biguint_arith_refines_Z (a b : BigUInt) :
  big_wf a -> big_wf b ->
  (big_wf (add a b) /\ big_val (add a b) = big_val a + big_val b) /\
  (big_wf (multiply a b) /\ big_val (multiply a b) = big_val a * big_val b) /\
  (big_wf (shift_left_one_bit a) /\ big_val (shift_left_one_bit a) = 2 * big_val a) /\
  compare a b = sgn (big_val a ?= big_val b) /\
  (compare a b <> -1 -> big_wf (subtract a b) /\ big_val (subtract a b) = big_val a - big_val b) /\
  (is_zero b = false -> big_wf (bmod a b) /\ big_val (bmod a b) = big_val a mod big_val b).
Proof.
  intros Ha Hb. pose proof (compare_spec a b Ha Hb) as Hc.
  pose proof (big_val_nonneg b (proj1 Hb)) as Hb0.
  split; [by apply and_comm, add_spec|]. split; [by apply and_comm, multiply_spec|].
  split; [by apply and_comm, shift_left_one_bit_spec|]. split; [done|]. split.
  - rewrite Hc. intros Hn. apply and_comm, subtract_spec; [done|done|].
    destruct (Z.compare_spec (big_val a) (big_val b)); cbn in Hn; lia.
  - rewrite is_zero_spec by done. intros Hn%Z.eqb_neq. apply and_comm, bmod_spec; [done|done|lia].
Qed.

Lemma biguint_arith_refines_Z_witness :
  big_val (subtract (Big [0; 0; 7]) (Big [1; 5])) = 7 * 2 ^ 64 - (1 + 5 * 2 ^ 32).
Proof.
  apply (biguint_arith_refines_Z (Big [0; 0; 7]) (Big [1; 5])).
  - split; [repeat constructor; unfold digit; lia|done].
  - split; [repeat constructor; unfold digit; lia|done].
  - done.
Defined.

(** [mod_pow] computes [base ^ exp mod m] for every modulus above 1, for
    operands of any size: the result of the square-and-multiply loop over the
    exponent's bits with the bit-by-bit long division is the mathematical one. *)
Theorem mod_pow_correct (base exp m : BigUInt) :
  big_wf base -> big_wf exp -> big_wf m -> 1 < big_val m ->
  big_val (mod_pow base exp m) = (big_val base ^ big_val exp) mod big_val m /\
  big_wf (mod_pow base exp m).
Proof. apply mod_pow_spec. Qed.

Lemma mod_pow_correct_witness :
  big_val (mod_pow (Big [123456789; 1]) (Big [65537]) (Big [4000000007; 9])) =
  ((123456789 + 2 ^ 32) ^ 65537) mod (4000000007 + 9 * 2 ^ 32).
Proof.
  apply (mod_pow_correct (Big [123456789; 1]) (Big [65537]) (Big [4000000007; 9])).
  - split; [repeat constructor; unfold digit; lia|done].
  - split; [repeat constructor; unfold digit; lia|done].
  - split; [repeat constructor; unfold digit; lia|done].
  - done.
Defined.

(** decoding a big-endian byte string and encoding it at its own length gives
    the string back, leading zero bytes included, and the decoded number is the
    one the bytes spell. *)
Theorem biguint_bytes_roundtrip (data : list byte) :
  to_bytes_be (length data) (from_bytes_be data) = data /\
  big_val (from_bytes_be data) = be_val data /\ big_wf (from_bytes_be data).
Proof.
  destruct (from_bytes_be_spec data) as [E W].
  destruct (to_bytes_be_spec (length data) _ W) as [Ev El].
  rewrite E in *. split; [|done]. apply be_val_inj; [|congruence].
  apply El, be_val_bound.
Qed.

(** The one modulus [mod_pow] gets wrong: with modulus 1 and exponent 0 it
    returns 1, which is not reduced. *)
Lemma mod_pow_modulus_one : big_val (mod_pow (Big [5]) (Big []) (Big [1])) = 1.
Proof. reflexivity. Qed.
