(* ===== verification/Fips180.v ===== *)
(** * Fips180: the Secure Hash Standard, as a reference definition

    FIPS 180-4 for SHA-256 and SHA-384, written from the standard and not from the program:
    words are tables of bits (section 2), the logical functions are defined bit by bit
    (section 4.1), the constants are roots of primes (sections 4.2 and 5.3), a message is
    padded, cut into blocks and compressed (sections 5.1, 5.2 and 6).  The file [Sha2] shows
    that the contexts of the program compute [fips_sha256] and [fips_sha384]. *)
From S2P Require Import Prelude.

(** ** Words *)

(** The word of [n] bits whose bit [i], from the least significant, is [bit i]. *)
Fixpoint word_of (n : nat) (bit : nat -> bool) : Z :=
  match n with
  | O => 0
  | S n => word_of n bit + Z.b2z (bit n) * 2 ^ Z.of_nat n
  end.

Definition bit (x : Z) (i : nat) : bool := Z.testbit x (Z.of_nat i).

(** ** The logical functions, section 4.1 *)

Section functions.
Context (w : nat).

Definition ROTR (n : nat) (x : Z) : Z := word_of w (fun i => bit x ((i + n) mod w)).
Definition SHR (n : nat) (x : Z) : Z := word_of w (fun i => bit x (i + n)).
Definition Parity (x y z : Z) : Z := word_of w (fun i => xorb (bit x i) (xorb (bit y i) (bit z i))).
Definition Ch (x y z : Z) : Z := word_of w (fun i => if bit x i then bit y i else bit z i).
Definition Maj (x y z : Z) : Z :=
  word_of w (fun i => (bit x i && bit y i) || (bit x i && bit z i) || (bit y i && bit z i)).

(** Three rotations, or two and a shift. *)
Definition Sigma (n : nat * nat * nat) (x : Z) : Z := Parity (ROTR n.1.1 x) (ROTR n.1.2 x) (ROTR n.2 x).
Definition sigma (n : nat * nat * nat) (x : Z) : Z := Parity (ROTR n.1.1 x) (ROTR n.1.2 x) (SHR n.2 x).
End functions.

(** ** The constants *)

(** The integer part of the [k]-th root, found bit by bit from the highest. *)
Fixpoint int_root (k : Z) (bits : nat) (root n : Z) : Z :=
  match bits with
  | O => root
  | S b => int_root k b (if (root + 2 ^ Z.of_nat b) ^ k <=? n then root + 2 ^ Z.of_nat b else root) n
  end.

(** The first [w] bits of the fractional part of the [k]-th root of [p]. *)
Definition root_fraction (k : Z) (w : nat) (p : Z) : Z := int_root k (w + 9) 0 (p * 2 ^ (k * Z.of_nat w)) mod 2 ^ Z.of_nat w.

Definition is_prime (p : Z) : bool := forallb (fun d => negb ((d * d <=? p) && (p mod d =? 0))) (seqZ 2 30).

(** The first 80 primes. *)
Definition primes : list Z := filter (fun p => is_prime p = true) (seqZ 2 408).

(** ** The two hashes *)

Record variant := Variant {
  word_size : nat;                  (* bits of a word *)
  Sigma0 : nat * nat * nat;
  Sigma1 : nat * nat * nat;
  sigma0 : nat * nat * nat;
  sigma1 : nat * nat * nat;
  round_constants : list Z;         (* one for each round *)
  initial_hash : list Z;
  digest_words : nat;
}.

(** Sections 4.1.2, 4.2.2 and 5.3.3: the constants of SHA-256 come from the cube roots of the
    first 64 primes, its initial hash from the square roots of the first eight. *)
Definition sha256 : variant :=
  Variant 32 (2, 13, 22)%nat (6, 11, 25)%nat (7, 18, 3)%nat (17, 19, 10)%nat
    (root_fraction 3 32 <$> take 64 primes) (root_fraction 2 32 <$> take 8 primes) 8.

(** Sections 4.1.3, 4.2.3 and 5.3.4: those of SHA-384 from the cube roots of the first 80
    primes and the square roots of the ninth to the sixteenth. *)
Definition sha384 : variant :=
  Variant 64 (28, 34, 39)%nat (14, 18, 41)%nat (1, 8, 7)%nat (19, 61, 6)%nat
    (root_fraction 3 64 <$> take 80 primes) (root_fraction 2 64 <$> take 8 (drop 8 primes)) 6.

Section hash.
Context (v : variant).

#[local] Abbreviation w := (word_size v).

(** Addition modulo 2^w. *)
Definition sum (l : list Z) : Z := foldr Z.add 0 l mod 2 ^ Z.of_nat w.

(** Section 5.2: the sixteen words of a block, most significant byte first. *)
Definition message_word (blk : list byte) (t : nat) : Z := be_val (take (w / 8) (drop (t * (w / 8)) blk)).

(** Section 6.2.2, step 1: the message schedule, the latest word first. *)
Fixpoint schedule (blk : list byte) (t : nat) : list Z :=
  match t with
  | O => reverse (message_word blk <$> seq 0 16)
  | S t =>
      let W := schedule blk t in
      sum [sigma w (sigma1 v) (nth 1 W 0); nth 6 W 0; sigma w (sigma0 v) (nth 14 W 0); nth 15 W 0] :: W
  end.

(** Steps 2 and 3: a round, with its constant and its word of the schedule. *)
Definition round (s : list Z) (kw : Z * Z) : list Z :=
  match s with
  | [a; b; c; d; e; f; g; h] =>
      let T1 := sum [h; Sigma w (Sigma1 v) e; Ch w e f g; kw.1; kw.2] in
      let T2 := sum [Sigma w (Sigma0 v) a; Maj w a b c] in
      [sum [T1; T2]; a; b; c; sum [d; T1]; e; f; g]
  | _ => []
  end.

(** Step 4: the intermediate hash value after one more block. *)
Definition compress (H : list Z) (blk : list byte) : list Z :=
  let W := reverse (schedule blk (length (round_constants v) - 16)) in
  zip_with (fun h x => sum [x; h]) H (foldl round H (zip (round_constants v) W)).

(** Section 5.1: a one bit, the fewest zeros, and the length in bits, up to whole blocks of
    sixteen words; the length takes two words. *)
Definition block_bytes : nat := 16 * (w / 8).
Definition length_octets : nat := 2 * (w / 8).

Definition be_bytes (n : nat) (x : Z) : list byte := (fun i => byte_of (x / 256 ^ Z.of_nat i)) <$> reverse (seq 0 n).

Definition padded (msg : list byte) : list byte :=
  msg ++ [x80] ++ replicate (Z.to_nat ((- Z.of_nat (length msg + 1 + length_octets)) mod Z.of_nat block_bytes)) x00 ++
  be_bytes length_octets (8 * Z.of_nat (length msg)).

Definition message_blocks (msg : list byte) : list (list byte) :=
  (fun i => take block_bytes (drop (i * block_bytes) msg)) <$> seq 0 (length msg / block_bytes).

Definition fips_hash (msg : list byte) : list byte :=
  concat (map (be_bytes (w / 8)) (take (digest_words v) (foldl compress (initial_hash v) (message_blocks (padded msg))))).
End hash.

Definition fips_sha256 : list byte -> list byte := fips_hash sha256.
Definition fips_sha384 : list byte -> list byte := fips_hash sha384.

(** ** Bits of words *)

Lemma word_of_range n f : 0 <= word_of n f < 2 ^ Z.of_nat n.
Proof.
  induction n as [|n IH]; cbn [word_of]; [lia|]. rewrite Nat2Z.inj_succ, Z.pow_succ_r by lia.
  destruct (f n); cbn [Z.b2z]; lia.
Qed.

Lemma word_of_bits n f x : 0 <= x < 2 ^ Z.of_nat n -> (forall i, (i < n)%nat -> f i = bit x i) -> word_of n f = x.
Proof.
  revert x. induction n as [|n IH]; intros x Hx Hf; cbn [word_of]; [cbn in Hx; lia|].
  rewrite Nat2Z.inj_succ, Z.pow_succ_r in Hx by lia. rewrite (IH (x mod 2 ^ Z.of_nat n)).
  - rewrite Hf by lia. unfold bit. rewrite Z.testbit_spec' by lia.
    assert (Hq : 0 <= x / 2 ^ Z.of_nat n < 2) by (split; [apply Z.div_pos; lia|apply Z.div_lt_upper_bound; lia]).
    rewrite (Z.mod_small (x / _)) by lia. pose proof (Z.div_mod x (2 ^ Z.of_nat n) ltac:(lia)). lia.
  - apply Z.mod_pos_bound. lia.
  - intros i Hi. rewrite Hf by lia. unfold bit. by rewrite Z.mod_pow2_bits_low by lia.
Qed.

(** ** The roots *)

Lemma int_root_spec k bits root n :
  0 < k -> 0 <= root -> root ^ k <= n -> n < (root + 2 ^ Z.of_nat bits) ^ k ->
  let r := int_root k bits root n in 0 <= r /\ r ^ k <= n < (r + 1) ^ k.
Proof.
  intros Hk. revert root. induction bits as [|b IH]; intros root Hr Hlo Hhi; cbn [int_root]; [by split_and!|].
  rewrite Nat2Z.inj_succ, Z.pow_succ_r in Hhi by lia. destruct (Z.leb_spec ((root + 2 ^ Z.of_nat b) ^ k) n); apply IH; try lia.
  by replace (root + 2 ^ Z.of_nat b + 2 ^ Z.of_nat b) with (root + 2 * 2 ^ Z.of_nat b) by lia.
Qed.

(** A root is known by the powers around it. *)
Lemma int_root_unique k bits n r :
  0 < k -> 0 <= r -> r ^ k <= n < (r + 1) ^ k -> n < (2 ^ Z.of_nat bits) ^ k -> int_root k bits 0 n = r.
Proof.
  intros Hk Hr Hn Hb. assert (0 <= r ^ k) by (apply Z.pow_nonneg; lia).
  destruct (int_root_spec k bits 0 n Hk ltac:(lia)) as [Hs Hx]; [rewrite Z.pow_0_l by lia; by etransitivity; [|apply Hn]|exact Hb|].
  set (s := int_root k bits 0 n) in *.
  assert (s < r + 1) by (apply (Z.pow_lt_mono_l_iff s (r + 1) k); [lia..|]; eapply Z.le_lt_trans; [apply Hx|apply Hn]).
  assert (r < s + 1) by (apply (Z.pow_lt_mono_l_iff r (s + 1) k); [lia..|]; eapply Z.le_lt_trans; [apply Hn|apply Hx]). lia.
Qed.

(** [c] is the fraction of the root, found with its integer part [m]. *)
Definition fraction_checked (k : Z) (w : nat) (c p : Z) : bool :=
  existsb (fun m => let r := m * 2 ^ Z.of_nat w + c in
    (r ^ k <=? p * 2 ^ (k * Z.of_nat w)) && (p * 2 ^ (k * Z.of_nat w) <? (r + 1) ^ k)) (seqZ 1 22) &&
  (0 <=? c) && (c <? 2 ^ Z.of_nat w) && (0 <? p) && (p <? 512).

Lemma fraction_checked_spec k w c p : 0 < k -> fraction_checked k w c p = true -> root_fraction k w p = c.
Proof.
  intros Hk. unfold fraction_checked. rewrite !andb_true_iff, existsb_exists, !Z.leb_le, !Z.ltb_lt.
  intros (((((m & Hm & Hc1) & Hc0) & Hc) & Hp0) & Hp). cbv zeta in Hc1. rewrite andb_true_iff, Z.leb_le, Z.ltb_lt in Hc1.
  apply list_elem_of_In, elem_of_seqZ in Hm. unfold root_fraction.
  rewrite (int_root_unique k (w + 9) _ (m * 2 ^ Z.of_nat w + c)); [|done|nia|done|].
  - rewrite Z.add_comm, Z_mod_plus_full. apply Z.mod_small. lia.
  - rewrite <- Z.pow_mul_r, Nat2Z.inj_add by lia. replace ((Z.of_nat w + Z.of_nat 9) * k) with (9 * k + k * Z.of_nat w) by lia.
    rewrite Z.pow_add_r by lia. apply Z.mul_lt_mono_pos_r; [lia|]. apply Z.lt_le_trans with (2 ^ 9); [lia|]. apply Z.pow_le_mono_r; lia.
Qed.

Lemma fractions_checked k w l ps :
  0 < k -> length l = length ps -> forallb (fun cp => fraction_checked k w cp.1 cp.2) (zip l ps) = true ->
  root_fraction k w <$> ps = l.
Proof.
  intros Hk. revert ps. induction l as [|c l IH]; intros [|p ps] Hl H; try discriminate; [done|].
  cbn in H. apply andb_true_iff in H as [H1 H2]. cbn. f_equal; [by apply fraction_checked_spec|]. apply IH; [|done]. by injection Hl.
Qed.

(** The test is primality, for the numbers it is used on. *)
Lemma is_prime_spec p : 1 < p < 1024 -> is_prime p = true <-> (forall d, 1 < d < p -> ~ (d | p)).
Proof.
  intros Hp. unfold is_prime. rewrite forallb_forall. setoid_rewrite <- list_elem_of_In. setoid_rewrite elem_of_seqZ. split.
  - intros H. assert (Hsmall : forall d, 1 < d -> d * d <= p -> ~ (d | p)).
    { intros d Hd Hq Hdiv. specialize (H d ltac:(nia)). apply negb_true_iff, andb_false_iff in H as [H|H]; [lia|].
      apply Z.eqb_neq in H. apply H. apply Z.mod_divide; [lia|done]. }
    intros d Hd Hdiv. pose proof Hdiv as [q Hq]. destruct (Z.le_gt_cases (d * d) p) as [L|L]; [apply (Hsmall d); [lia|done|done]|].
    apply (Hsmall q); [nia|nia|]. exists d. lia.
  - intros H d Hd. apply negb_true_iff, andb_false_iff. destruct (Z.leb_spec (d * d) p) as [L|L]; [right|by left].
    apply Z.eqb_neq. intros E. apply (H d); [nia|]. apply Z.mod_divide; [lia|done].
Qed.
