(* ===== verification/Sha2.v ===== *)
(** * Sha2: the SHA-256 and SHA-384 contexts

    Models [SHA256] and [SHA384] of src/include/gcad/common.hpp.  The two classes
    are the same streaming construction (a block buffer, a bit counter, padding)
    around two compression functions: the streaming part is written once, over
    the block size, the offset of the length field and the compression function,
    and instantiated twice.  A context keeps the whole [buffer_] array, stale
    bytes included, as the code does.  The reference is the standard as [Fips180]
    writes it, with constants, functions, schedule and padding of its own. *)
From S2P Require Import Prelude Fips180.

#[local] Open Scope word_scope.

(** ** The streaming context *)

Record sha_ctx := Ctx {
  state_ : list Z;
  buffer_ : list byte;
  bitcount_ : Z;
  buflen_ : nat;
}.

Section streaming.
Context (block : nat) (len_at : nat) (zero_hi : nat).
Context (transform : list Z -> list byte -> list Z).
Context (words : nat) (word_bytes : nat).

(** [buffer_[buflen_++] = b] *)
Definition put (c : sha_ctx) (b : byte) : sha_ctx :=
  Ctx (state_ c) (<[buflen_ c := b]> (buffer_ c)) (bitcount_ c) (S (buflen_ c)).

(** [transform(buffer_); buflen_ = 0] *)
Definition flush (c : sha_ctx) : sha_ctx :=
  Ctx (transform (state_ c) (buffer_ c)) (buffer_ c) (bitcount_ c) 0.

Definition add_bits (c : sha_ctx) : sha_ctx :=
  Ctx (state_ c) (buffer_ c) (u64 (bitcount_ c + 8 * Z.of_nat block)) (buflen_ c).

Definition update_byte (c : sha_ctx) (b : byte) : sha_ctx :=
  let c := put c b in
  if Nat.eqb (buflen_ c) block then add_bits (flush c) else c.

Definition stream_update (c : sha_ctx) (data : list byte) : sha_ctx :=
  foldl update_byte c data.

(** [while (buflen_ < limit) buffer_[buflen_++] = 0] *)
Definition zero_fill (limit : nat) (c : sha_ctx) : sha_ctx :=
  Nat.iter (limit - buflen_ c) (fun c => put c x00) c.

(** [for (int i = n - 1; i >= 0; --i) buffer_[buflen_++] = uint8_t(w >> (i * 8))] *)
Definition word_be (n : nat) (w : Z) : list byte :=
  (fun i => byte_of (w >>> (Z.of_nat i * 8))) <$> reverse (seq 0 n).

Definition stream_finalize (c : sha_ctx) : list byte :=
  let bits := u64 (bitcount_ c + Z.of_nat (buflen_ c) * 8) in
  let c := put c x80 in
  let c := if Nat.ltb len_at (buflen_ c) then flush (zero_fill block c) else c in
  let c := zero_fill len_at c in
  let c := Nat.iter zero_hi (fun c => put c x00) c in
  let c := foldl put c (word_be 8 bits) in
  let c := flush c in
  mjoin (word_be word_bytes <$> take words (state_ c)).
End streaming.

(** A big-endian word of the block: [be_word n block i] is [w[i]]. *)
Definition be_word (n : nat) (blk : list byte) (i : nat) : Z :=
  foldl (fun w b => (w <<< 8) .| bval b) 0 (take n (drop (i * n) blk)).

(** The working variables [a .. h] of a compression round. *)
Record vars := Vars { va : Z; vb : Z; vc : Z; vd : Z; ve : Z; vf : Z; vg : Z; vh : Z }.

Definition vars_of (s : list Z) : vars :=
  Vars (s !!! 0%nat) (s !!! 1%nat) (s !!! 2%nat) (s !!! 3%nat)
       (s !!! 4%nat) (s !!! 5%nat) (s !!! 6%nat) (s !!! 7%nat).

Definition list_of (v : vars) : list Z := [va v; vb v; vc v; vd v; ve v; vf v; vg v; vh v].

(** ** SHA-256 *)
Module Sha256.

(** The round constants (FIPS 180-4, section 4.2.2), in decimal. *)
Definition K256 : list Z :=
  [1116352408; 1899447441; 3049323471; 3921009573; 961987163; 1508970993; 2453635748;
   2870763221; 3624381080; 310598401; 607225278; 1426881987; 1925078388; 2162078206;
   2614888103; 3248222580; 3835390401; 4022224774; 264347078; 604807628; 770255983;
   1249150122; 1555081692; 1996064986; 2554220882; 2821834349; 2952996808; 3210313671;
   3336571891; 3584528711; 113926993; 338241895; 666307205; 773529912; 1294757372;
   1396182291; 1695183700; 1986661051; 2177026350; 2456956037; 2730485921; 2820302411;
   3259730800; 3345764771; 3516065817; 3600352804; 4094571909; 275423344; 430227734;
   506948616; 659060556; 883997877; 958139571; 1322822218; 1537002063; 1747873779;
   1955562222; 2024104815; 2227730452; 2361852424; 2428436474; 2756734187; 3204031479;
   3329325298].

Definition rotr32 (x n : Z) : Z := (x >>> n) .| u32 (x <<< (32 - n)).
Definition ch32 (x y z : Z) : Z := (x .& y) .^ (u32 (Z.lnot x) .& z).
Definition maj32 (x y z : Z) : Z := (x .& y) .^ (x .& z) .^ (y .& z).
Definition ep0_32 (x : Z) : Z := rotr32 x 2 .^ rotr32 x 13 .^ rotr32 x 22.
Definition ep1_32 (x : Z) : Z := rotr32 x 6 .^ rotr32 x 11 .^ rotr32 x 25.
Definition sig0_32 (x : Z) : Z := rotr32 x 7 .^ rotr32 x 18 .^ (x >>> 3).
Definition sig1_32 (x : Z) : Z := rotr32 x 17 .^ rotr32 x 19 .^ (x >>> 10).

Definition schedule_step256 (w : list Z) (i : nat) : list Z :=
  w ++ [u32 (sig1_32 (w !!! (i - 2)%nat) + w !!! (i - 7)%nat
             + sig0_32 (w !!! (i - 15)%nat) + w !!! (i - 16)%nat)].

Definition schedule256 (blk : list byte) : list Z :=
  foldl schedule_step256 (be_word 4 blk <$> seq 0 16) (seq 16 48).

Definition round256 (w : list Z) (v : vars) (i : nat) : vars :=
  let t1 := u32 (vh v + ep1_32 (ve v) + ch32 (ve v) (vf v) (vg v) + K256 !!! i + w !!! i) in
  let t2 := u32 (ep0_32 (va v) + maj32 (va v) (vb v) (vc v)) in
  Vars (u32 (t1 + t2)) (va v) (vb v) (vc v) (u32 (vd v + t1)) (ve v) (vf v) (vg v).

Definition transform256 (state : list Z) (blk : list byte) : list Z :=
  let w := schedule256 blk in
  let v := foldl (round256 w) (vars_of state) (seq 0 64) in
  zip_with (fun s x => u32 (s + x)) state (list_of v).

Definition initial256 : list Z :=
  [1779033703; 3144134277; 1013904242; 2773480762;
   1359893119; 2600822924; 528734635; 1541459225].

Definition reset256 : sha_ctx := Ctx initial256 (replicate 64 x00) 0 0.

Definition update256 : sha_ctx -> list byte -> sha_ctx := stream_update 64 transform256.
Definition finalize256 : sha_ctx -> list byte := stream_finalize 64 56 0 transform256 8 4.

End Sha256.
Export Sha256.

(** ** SHA-384 *)
Module Sha384.

(** The round constants (FIPS 180-4, section 4.2.3), in decimal. *)
Definition K384 : list Z :=
  [4794697086780616226; 8158064640168781261; 13096744586834688815; 16840607885511220156;
   4131703408338449720; 6480981068601479193; 10538285296894168987; 12329834152419229976;
   15566598209576043074; 1334009975649890238; 2608012711638119052; 6128411473006802146;
   8268148722764581231; 9286055187155687089; 11230858885718282805; 13951009754708518548;
   16472876342353939154; 17275323862435702243; 1135362057144423861; 2597628984639134821;
   3308224258029322869; 5365058923640841347; 6679025012923562964; 8573033837759648693;
   10970295158949994411; 12119686244451234320; 12683024718118986047; 13788192230050041572;
   14330467153632333762; 15395433587784984357; 489312712824947311; 1452737877330783856;
   2861767655752347644; 3322285676063803686; 5560940570517711597; 5996557281743188959;
   7280758554555802590; 8532644243296465576; 9350256976987008742; 10552545826968843579;
   11727347734174303076; 12113106623233404929; 14000437183269869457; 14369950271660146224;
   15101387698204529176; 15463397548674623760; 17586052441742319658; 1182934255886127544;
   1847814050463011016; 2177327727835720531; 2830643537854262169; 3796741975233480872;
   4115178125766777443; 5681478168544905931; 6601373596472566643; 7507060721942968483;
   8399075790359081724; 8693463985226723168; 9568029438360202098; 10144078919501101548;
   10430055236837252648; 11840083180663258601; 13761210420658862357; 14299343276471374635;
   14566680578165727644; 15097957966210449927; 16922976911328602910; 17689382322260857208;
   500013540394364858; 748580250866718886; 1242879168328830382; 1977374033974150939;
   2944078676154940804; 3659926193048069267; 4368137639120453308; 4836135668995329356;
   5532061633213252278; 6448918945643986474; 6902733635092675308; 7801388544844847127].

Definition rotr64 (x n : Z) : Z := (x >>> n) .| u64 (x <<< (64 - n)).
Definition ch64 (x y z : Z) : Z := (x .& y) .^ (u64 (Z.lnot x) .& z).
Definition maj64 (x y z : Z) : Z := (x .& y) .^ (x .& z) .^ (y .& z).
Definition ep0_64 (x : Z) : Z := rotr64 x 28 .^ rotr64 x 34 .^ rotr64 x 39.
Definition ep1_64 (x : Z) : Z := rotr64 x 14 .^ rotr64 x 18 .^ rotr64 x 41.
Definition sig0_64 (x : Z) : Z := rotr64 x 1 .^ rotr64 x 8 .^ (x >>> 7).
Definition sig1_64 (x : Z) : Z := rotr64 x 19 .^ rotr64 x 61 .^ (x >>> 6).

Definition schedule_step384 (w : list Z) (i : nat) : list Z :=
  w ++ [u64 (sig1_64 (w !!! (i - 2)%nat) + w !!! (i - 7)%nat
             + sig0_64 (w !!! (i - 15)%nat) + w !!! (i - 16)%nat)].

Definition schedule384 (blk : list byte) : list Z :=
  foldl schedule_step384 (be_word 8 blk <$> seq 0 16) (seq 16 64).

Definition round384 (w : list Z) (v : vars) (i : nat) : vars :=
  let t1 := u64 (vh v + ep1_64 (ve v) + ch64 (ve v) (vf v) (vg v) + K384 !!! i + w !!! i) in
  let t2 := u64 (ep0_64 (va v) + maj64 (va v) (vb v) (vc v)) in
  Vars (u64 (t1 + t2)) (va v) (vb v) (vc v) (u64 (vd v + t1)) (ve v) (vf v) (vg v).

Definition transform384 (state : list Z) (blk : list byte) : list Z :=
  let w := schedule384 blk in
  let v := foldl (round384 w) (vars_of state) (seq 0 80) in
  zip_with (fun s x => u64 (s + x)) state (list_of v).

Definition initial384 : list Z :=
  [14680500436340154072; 7105036623409894663; 10473403895298186519;
   1526699215303891257; 7436329637833083697; 10282925794625328401;
   15784041429090275239; 5167115440072839076].

Definition reset384 : sha_ctx := Ctx initial384 (replicate 128 x00) 0 0.

Definition update384 : sha_ctx -> list byte -> sha_ctx := stream_update 128 transform384.
Definition finalize384 : sha_ctx -> list byte := stream_finalize 128 112 8 transform384 6 8.

End Sha384.
Export Sha384.

(** ** Digests of byte strings and files *)

Definition hex_digit (n : Z) : Ascii.ascii :=
  match String.get (Z.to_nat n) "0123456789abcdef" with Some c => c | None => Ascii.zero end.

Fixpoint hex (h : list byte) : string :=
  match h with
  | [] => EmptyString
  | b :: h' => String (hex_digit (bval b >>> 4)) (String (hex_digit (bval b .& 0xf)) (hex h'))
  end.

Definition sha256_digest (data : list byte) : list byte := finalize256 (update256 reset256 data).
Definition sha384_digest (data : list byte) : list byte := finalize384 (update384 reset384 data).

Definition hash_bytes256 (data : list byte) : string := hex (sha256_digest data).
Definition hash_bytes384 (data : list byte) : string := hex (sha384_digest data).

(** [hash_file]: full 8192-byte reads go through the loop, the short last read
    after it.  [None] is a file that does not open.  Each turn of the loop
    consumes 8192 bytes, so the content's length is enough fuel. *)
Fixpoint hash_file_loop (chunk fuel : nat) (content : list byte) (c : sha_ctx) : sha_ctx :=
  match fuel with
  | O => c
  | S fuel' =>
      if Nat.leb chunk (length content)
      then hash_file_loop chunk fuel' (drop chunk content) (update256 c (take chunk content))
      else if Nat.ltb 0 (length content) then update256 c content else c
  end.

Definition hash_file (content : option (list byte)) : string :=
  match content with
  | None => EmptyString
  | Some data =>
      hex (finalize256 (hash_file_loop (Z.to_nat 8192) (S (length data)) data reset256))
  end.

(** ** Padding and hashing block by block, over any compression function *)

Section fips.
Context (block len_bytes : nat) (transform : list Z -> list byte -> list Z).

(** The number of zero bytes: the least [k] with
    [length + 1 + k + len_bytes] a multiple of the block size. *)
Definition pad_zeros (len : nat) : nat := Z.to_nat ((- Z.of_nat (len + 1 + len_bytes)) mod Z.of_nat block).

(** The message, a one bit, zeros, and the bit length as a big-endian number. *)
Definition fips_pad (msg : list byte) : list byte :=
  msg ++ [x80] ++ replicate (pad_zeros (length msg)) x00
      ++ word_be len_bytes (8 * Z.of_nat (length msg)).

Fixpoint fips_blocks (n : nat) (s : list Z) (msg : list byte) : list Z :=
  match n with
  | O => s
  | S n' => fips_blocks n' (transform s (take block msg)) (drop block msg)
  end.

Definition fips_state (init : list Z) (msg : list byte) : list Z :=
  fips_blocks (length (fips_pad msg) / block) init (fips_pad msg).
End fips.

(** What the clients of a digest rely on: hashing in pieces is hashing the
    concatenation, and digests have one length. *)
Class StreamHash (init : sha_ctx) (update : sha_ctx -> list byte -> sha_ctx)
    (finalize : sha_ctx -> list byte) (len : nat) : Prop := {
  stream_nil : forall c, update c [] = c;
  stream_app : forall c a b, update (update c a) b = update c (a ++ b);
  stream_len : forall a, length (finalize (update init a)) = len;
}.

(** ** The streaming context computes the reference hash *)

Lemma fips_blocks_snoc block transform n s msg :
  fips_blocks block transform (S n) s msg =
  transform (fips_blocks block transform n s msg) (take block (drop (n * block) msg)).
Proof.
  revert s msg. induction n as [|n IH]; intros s msg; [done|].
  change (fips_blocks block transform (S (S n)) s msg) with
    (fips_blocks block transform (S n) (transform s (take block msg)) (drop block msg)).
  rewrite IH, drop_drop. done.
Qed.

Lemma fips_blocks_app block transform n s msg ext :
  (n * block <= length msg)%nat ->
  fips_blocks block transform n s (msg ++ ext) = fips_blocks block transform n s msg.
Proof.
  revert s msg. induction n as [|n IH]; intros s msg Hn; [done|]. cbn [fips_blocks].
  rewrite take_app_le, drop_app_le by lia. apply IH. rewrite length_drop. lia.
Qed.

Lemma word_be_length n w : length (word_be n w) = n.
Proof. unfold word_be. by rewrite length_fmap, length_reverse, length_seq. Qed.

Lemma word_be_S n w : word_be (S n) w = byte_of (w >>> (Z.of_nat n * 8)) :: word_be n w.
Proof.
  unfold word_be. rewrite seq_S, reverse_app. cbn. done.
Qed.

(** Leading zero bytes of a number that fits in fewer. *)
Lemma word_be_zeros k n w :
  0 <= w < 2 ^ (Z.of_nat n * 8) -> word_be (k + n) w = replicate k x00 ++ word_be n w.
Proof.
  intros Hw. induction k as [|k IH]; [done|]. cbn [Nat.add replicate app].
  assert (Hw' : w < 2 ^ (Z.of_nat (k + n) * 8)).
  { eapply Z.lt_le_trans; [apply Hw|]. apply Z.pow_le_mono_r; lia. }
  rewrite word_be_S, IH, Z.shiftr_div_pow2, Z.div_small by lia. done.
Qed.

Section streaming_holds.
Context (block : nat) (transform : list Z -> list byte -> list Z).

(** The context holds state [s] and the unprocessed bytes [buf]. *)
Definition holds (s : list Z) (buf : list byte) (c : sha_ctx) : Prop :=
  state_ c = s /\ length (buffer_ c) = block /\ buflen_ c = length buf /\
  take (length buf) (buffer_ c) = buf.

Lemma holds_put s buf c b :
  holds s buf c -> (length buf < block)%nat -> holds s (buf ++ [b]) (put c b).
Proof.
  intros (Hs & Hl & Hn & Ht) Hlt. unfold holds, put. cbn.
  rewrite length_insert, length_app, Hn.
  split; [done|]. split; [done|]. split; [cbn; lia|].
  replace (length buf + length [b])%nat with (S (length buf)) by (cbn; lia).
  rewrite (take_S_r _ _ b); [|apply list_lookup_insert_eq; lia].
  rewrite take_insert_ge by lia. by rewrite Ht.
Qed.

Lemma holds_puts s buf c bs :
  holds s buf c -> (length buf + length bs <= block)%nat -> holds s (buf ++ bs) (foldl put c bs).
Proof.
  revert buf c. induction bs as [|b bs IH]; intros buf c Hc Hle.
  - by rewrite app_nil_r.
  - cbn [length foldl] in *. replace (buf ++ b :: bs) with ((buf ++ [b]) ++ bs) by by rewrite <- app_assoc.
    apply IH; [apply holds_put; [done|lia]|]. rewrite length_app. cbn. lia.
Qed.

Lemma iter_put_foldl n c : Nat.iter n (fun c => put c x00) c = foldl put c (replicate n x00).
Proof.
  revert c. induction n as [|n IH]; intros c; [done|].
  rewrite Nat.iter_succ_r, IH. done.
Qed.

Lemma holds_zero_fill s buf c limit :
  holds s buf c -> (length buf <= limit <= block)%nat ->
  holds s (buf ++ replicate (limit - length buf) x00) (zero_fill limit c).
Proof.
  intros Hc Hle. unfold zero_fill. rewrite iter_put_foldl.
  replace (buflen_ c) with (length buf) by (symmetry; apply Hc).
  apply holds_puts; [done|]. rewrite length_replicate. lia.
Qed.

Lemma holds_flush s buf c :
  holds s buf c -> length buf = block -> holds (transform s buf) [] (flush transform c).
Proof.
  intros (Hs & Hl & Hn & Ht) Hb. unfold holds, flush. cbn. split_and!; [|done|done|by rewrite take_0].
  rewrite Hs, <- Ht. by rewrite Hb, <- Hl, firstn_all.
Qed.

End streaming_holds.

Section streaming_correct.
Context (block : nat) (transform : list Z -> list byte -> list Z) (Hblock : (0 < block)%nat).

(** After absorbing [msg] the context has compressed its full blocks and keeps
    the rest; the bit counter counts the compressed bits. *)
Definition absorbed (init : list Z) (msg : list byte) (c : sha_ctx) : Prop :=
  let q := (length msg / block)%nat in
  holds block (fips_blocks block transform q init msg) (drop (q * block) msg) c /\
  bitcount_ c = u64 (8 * Z.of_nat (q * block)).

Lemma absorbed_byte init msg c b :
  absorbed init msg c -> absorbed init (msg ++ [b]) (update_byte block transform c b).
Proof.
  intros [Hc Hbits]. unfold absorbed. set (q := (length msg / block)%nat) in *.
  pose proof (Nat.div_mod_eq (length msg) block) as Hdm. fold q in Hdm.
  pose proof (Nat.mod_upper_bound (length msg) block ltac:(lia)) as Hr.
  set (r := (length msg mod block)%nat) in *.
  assert (Hrest : length (drop (q * block) msg) = r) by (rewrite length_drop; lia).
  pose proof (holds_put _ _ _ _ b Hc ltac:(lia)) as Hp.
  unfold update_byte. rewrite length_app. cbn [length].
  replace (buflen_ (put c b)) with (S r)
    by (rewrite (proj1 (proj2 (proj2 Hp))), length_app, Hrest; cbn; lia).
  destruct (Nat.eqb_spec (S r) block) as [E|E].
  - assert (((length msg + 1) / block)%nat = S q) as ->.
    { symmetry. apply (Nat.div_unique _ _ _ 0); lia. }
    split.
    + rewrite fips_blocks_snoc, fips_blocks_app by lia.
      rewrite (drop_app_le msg [b] (q * block)) by lia.
      rewrite (drop_ge (msg ++ [b])) by (rewrite length_app; cbn; lia).
      rewrite take_ge by (rewrite length_app, Hrest; cbn; lia).
      pose proof (holds_flush _ transform _ _ _ Hp ltac:(rewrite length_app, Hrest; cbn; lia)) as Hf.
      exact Hf.
    + cbn. rewrite Hbits. unfold u64. rewrite Z.add_mod_idemp_l by lia. f_equal. lia.
  - assert (((length msg + 1) / block)%nat = q) as ->.
    { symmetry. apply (Nat.div_unique _ _ _ (S r)); lia. }
    rewrite fips_blocks_app, drop_app_le by lia. done.
Qed.

Lemma absorbed_update init a b c :
  absorbed init a c -> absorbed init (a ++ b) (stream_update block transform c b).
Proof.
  revert a c. induction b as [|x b IH]; intros a c Hc.
  - by rewrite app_nil_r.
  - replace (a ++ x :: b) with ((a ++ [x]) ++ b) by by rewrite <- app_assoc.
    apply IH, absorbed_byte, Hc.
Qed.
End streaming_correct.

Section finalize_correct.
Context (block len_at zero_hi words word_bytes : nat).
Context (transform : list Z -> list byte -> list Z).
Context (Hblock : (len_at + zero_hi + 8 = block)%nat) (Hlen_at : (0 < len_at)%nat).

#[local] Abbreviation holds := (holds block).

(** The padding bytes [finalize] writes, in one or two blocks. *)
Lemma finalize_blocks s buf c :
  holds s buf c -> (length buf < block)%nat ->
  let bits := word_be 8 (u64 (bitcount_ c + Z.of_nat (buflen_ c) * 8)) in
  let tail := replicate zero_hi x00 ++ bits in
  stream_finalize block len_at zero_hi transform words word_bytes c =
  mjoin (word_be word_bytes <$> take words
    (if Nat.ltb len_at (S (length buf))
     then transform (transform s (buf ++ [x80] ++ replicate (block - S (length buf)) x00))
            (replicate len_at x00 ++ tail)
     else transform s (buf ++ [x80] ++ replicate (len_at - S (length buf)) x00 ++ tail))).
Proof.
  intros Hc Hlt bits tail. unfold stream_finalize. fold bits. rewrite iter_put_foldl.
  assert (Htail : forall s buf c, holds s buf c -> length buf = len_at ->
    state_ (flush transform (foldl put (foldl put c (replicate zero_hi x00)) bits)) =
    transform s (buf ++ tail)).
  { intros s' buf' c' Hc' Hl'. rewrite <- foldl_app. fold tail.
    assert (length tail = (zero_hi + 8)%nat) as Htl.
    { unfold tail, bits. by rewrite length_app, length_replicate, word_be_length. }
    apply (holds_flush block transform); [apply holds_puts; [done|lia]|].
    rewrite length_app. lia. }
  pose proof (holds_put _ _ _ _ x80 Hc Hlt) as H1.
  assert (Hl1 : buflen_ (put c x80) = S (length buf)).
  { rewrite (proj1 (proj2 (proj2 H1))), length_app. cbn. lia. }
  rewrite Hl1. destruct (Nat.ltb_spec len_at (S (length buf))) as [Hbig|Hsmall].
  - pose proof (holds_zero_fill _ _ _ _ block H1) as H2. rewrite length_app in H2. cbn [length] in H2.
    specialize (H2 ltac:(lia)).
    pose proof (holds_flush _ transform _ _ _ H2) as H3.
    rewrite !length_app, length_replicate in H3. cbn [length] in H3. specialize (H3 ltac:(lia)).
    pose proof (holds_zero_fill _ _ _ _ len_at H3) as H4. cbn [length app] in H4.
    specialize (H4 ltac:(lia)). rewrite Nat.sub_0_r in H4.
    rewrite (Htail _ _ _ H4) by apply length_replicate.
    rewrite <- app_assoc, Nat.add_1_r. done.
  - pose proof (holds_zero_fill _ _ _ _ len_at H1) as H2. rewrite length_app in H2. cbn [length] in H2.
    specialize (H2 ltac:(lia)).
    rewrite (Htail _ _ _ H2) by (rewrite !length_app, length_replicate; cbn; lia).
    rewrite <- !app_assoc, Nat.add_1_r. done.
Qed.

Theorem stream_is_fips init msg c :
  absorbed block transform init msg c ->
  8 * Z.of_nat (length msg) < 2 ^ 64 ->
  stream_finalize block len_at zero_hi transform words word_bytes c =
  mjoin (word_be word_bytes <$> take words (fips_state block (zero_hi + 8) transform init msg)).
Proof.
  intros [Hc Hbits] Hlen. set (q := (length msg / block)%nat) in *.
  pose proof (Nat.div_mod_eq (length msg) block) as Hdm. fold q in Hdm.
  pose proof (Nat.mod_upper_bound (length msg) block ltac:(lia)) as Hr.
  set (r := (length msg mod block)%nat) in *.
  set (rest := drop (q * block) msg) in *.
  assert (Hrest : length rest = r) by (subst rest; rewrite length_drop; lia).
  rewrite (finalize_blocks _ _ _ Hc) by lia.
  rewrite (proj1 (proj2 (proj2 Hc))), Hrest, Hbits.
  assert (u64 (u64 (8 * Z.of_nat (q * block)) + Z.of_nat r * 8) = 8 * Z.of_nat (length msg)) as ->.
  { unfold u64. rewrite Z.add_mod_idemp_l by lia. rewrite Z.mod_small by lia. lia. }
  f_equal. f_equal. f_equal. unfold fips_state, fips_pad, pad_zeros.
  rewrite (word_be_zeros zero_hi 8) by (cbn [Z.of_nat Pos.of_succ_nat]; lia).
  set (tail := replicate zero_hi x00 ++ word_be 8 (8 * Z.of_nat (length msg))).
  assert (Htl : length tail = (zero_hi + 8)%nat).
  { subst tail. by rewrite length_app, length_replicate, word_be_length. }
  assert (Hm : msg = take (q * block) msg ++ rest) by (symmetry; apply take_drop).
  assert (Hq : length (take (q * block) msg) = (q * block)%nat) by (rewrite length_take; lia).
  destruct (Nat.ltb_spec len_at (S r)) as [Hbig|Hsmall].
  - assert (Z.to_nat (- Z.of_nat (length msg + 1 + (zero_hi + 8)) mod Z.of_nat block)
            = (block - S r + len_at)%nat) as ->.
    { rewrite <- (Z.mod_unique _ (Z.of_nat block) (- Z.of_nat (q + 2)) (Z.of_nat (block - S r + len_at)));
        [lia|lia|]. nia. }
    set (p := msg ++ _).
    assert (length p / block = S (S q))%nat as ->.
    { subst p. rewrite !length_app, length_replicate, Htl. cbn [length].
      symmetry. apply (Nat.div_unique _ _ _ 0); nia. }
    rewrite !fips_blocks_snoc. subst p. rewrite fips_blocks_app by lia.
    rewrite replicate_add.
    set (z1 := replicate (block - S r) x00). set (z2 := replicate len_at x00).
    assert (Hz1 : length z1 = (block - S r)%nat) by apply length_replicate.
    assert (Hz2 : length z2 = len_at) by apply length_replicate.
    set (full := rest ++ [x80] ++ z1).
    assert (Hfull : length full = block) by (subst full; rewrite !length_app, Hz1; cbn; lia).
    assert (HA : rest ++ [x80] ++ (z1 ++ z2) ++ tail = full ++ (z2 ++ tail)).
    { subst full. by rewrite <- !app_assoc. }
    replace (S q * block)%nat with (q * block + length full)%nat by lia.
    rewrite <- drop_drop, !(drop_app_le msg) by lia. fold rest. rewrite HA, drop_app_length.
    rewrite (take_app_length' full) by done. rewrite take_ge; [done|].
    rewrite length_app, Hz2, Htl. lia.
  - assert (Z.to_nat (- Z.of_nat (length msg + 1 + (zero_hi + 8)) mod Z.of_nat block)
            = (len_at - S r)%nat) as ->.
    { rewrite <- (Z.mod_unique _ (Z.of_nat block) (- Z.of_nat (q + 1)) (Z.of_nat (len_at - S r)));
        [lia|lia|]. nia. }
    set (p := msg ++ _).
    assert (length p / block = S q)%nat as ->.
    { subst p. rewrite !length_app, length_replicate, Htl. cbn [length].
      symmetry. apply (Nat.div_unique _ _ _ 0); nia. }
    rewrite fips_blocks_snoc. subst p. rewrite fips_blocks_app by lia.
    rewrite (drop_app_le msg) by lia. fold rest.
    rewrite take_ge; [done|]. rewrite !length_app, length_replicate, Htl. cbn. lia.
Qed.
End finalize_correct.

(** ** Digest lengths and the hash interface *)

Lemma transform256_length s b : length s = 8%nat -> length (transform256 s b) = 8%nat.
Proof. intros Hs. unfold transform256. by rewrite length_zip_with, Hs. Qed.

Lemma transform384_length s b : length s = 8%nat -> length (transform384 s b) = 8%nat.
Proof. intros Hs. unfold transform384. by rewrite length_zip_with, Hs. Qed.

Lemma mjoin_words_length n l : length (mjoin (word_be n <$> l)) = (n * length l)%nat.
Proof.
  induction l as [|x l IH]; [cbn; lia|].
  change (mjoin (word_be n <$> x :: l)) with (word_be n x ++ mjoin (word_be n <$> l)).
  rewrite length_app, IH, word_be_length. cbn. lia.
Qed.

Section digest_length.
Context (block : nat) (transform : list Z -> list byte -> list Z).
Context (Htr : forall s b, length s = 8%nat -> length (transform s b) = 8%nat).

Definition state8 (c : sha_ctx) : Prop := length (state_ c) = 8%nat.

Lemma state8_flush c : state8 c -> state8 (flush transform c).
Proof. apply Htr. Qed.

Lemma state8_puts bs c : state8 c -> state8 (foldl put c bs).
Proof. revert c. induction bs as [|b bs IH]; intros c Hc; [done|]. by apply IH. Qed.

Lemma state8_fill n c : state8 c -> state8 (zero_fill n c).
Proof. unfold zero_fill. rewrite iter_put_foldl. apply state8_puts. Qed.

Lemma state8_update bs c : state8 c -> state8 (stream_update block transform c bs).
Proof.
  revert c. induction bs as [|b bs IH]; intros c Hc; [done|]. apply IH.
  unfold update_byte. cbv zeta. case_match; [by apply state8_flush|done].
Qed.

Lemma finalize_length len_at zero_hi words word_bytes c :
  state8 c -> (words <= 8)%nat ->
  length (stream_finalize block len_at zero_hi transform words word_bytes c) = (word_bytes * words)%nat.
Proof.
  intros Hc Hw. unfold stream_finalize. rewrite mjoin_words_length, length_take, iter_put_foldl.
  match goal with |- context [length (state_ ?c')] => assert (state8 c') as -> end; [|by rewrite Nat.min_l].
  apply state8_flush, state8_puts, state8_puts, state8_fill.
  case_match; [apply state8_flush, state8_fill|]; done.
Qed.
End digest_length.

#[export] Instance sha256_stream : StreamHash reset256 update256 finalize256 32.
Proof.
  split.
  - done.
  - intros c a b. symmetry. apply foldl_app.
  - intros a. apply (finalize_length 64 transform256 transform256_length _ _ 8 4); [|lia].
    by apply state8_update; [apply transform256_length|].
Qed.

#[export] Instance sha384_stream : StreamHash reset384 update384 finalize384 48.
Proof.
  split.
  - done.
  - intros c a b. symmetry. apply foldl_app.
  - intros a. apply (finalize_length 128 transform384 transform384_length _ _ 6 8); [|lia].
    by apply state8_update; [apply transform384_length|].
Qed.

Lemma foldl_update (upd : sha_ctx -> list byte -> sha_ctx) init fin n
    `{!StreamHash init upd fin n} pieces c :
  foldl upd c pieces = upd c (mjoin pieces).
Proof.
  revert c. induction pieces as [|p pieces IH]; intros c.
  - by rewrite stream_nil.
  - change (mjoin (p :: pieces)) with (p ++ mjoin pieces). cbn [foldl].
    by rewrite IH, stream_app.
Qed.

Lemma sha256_digest_length data : length (sha256_digest data) = 32%nat.
Proof. apply stream_len. Qed.

Lemma sha384_digest_length data : length (sha384_digest data) = 48%nat.
Proof. apply stream_len. Qed.

Lemma hash_file_loop_update chunk fuel content c :
  (0 < chunk)%nat -> (length content < fuel)%nat ->
  hash_file_loop chunk fuel content c = update256 c content.
Proof.
  intros Hchunk. revert content c. induction fuel as [|fuel IH]; intros content c Hf; [lia|].
  cbn [hash_file_loop]. destruct (Nat.leb_spec chunk (length content)).
  - rewrite IH by (rewrite length_drop; lia).
    by rewrite (stream_app (StreamHash := sha256_stream)), take_drop.
  - destruct content; done.
Qed.

(** ** The compression functions *)

Lemma schedule_fill step (w0 : list Z) n k :
  (forall w i, length (step w i) = S (length w) /\ forall j, (j < length w)%nat -> step w i !!! j = w !!! j) ->
  length w0 = k ->
  let w := foldl step w0 (seq k n) in
  length w = (k + n)%nat /\
  (forall j, (j < k)%nat -> w !!! j = w0 !!! j) /\
  (forall i, (k <= i < k + n)%nat -> exists v,
     length v = i /\ (forall j, (j < i)%nat -> v !!! j = w !!! j) /\ w !!! i = step v i !!! i).
Proof.
  intros Hstep. revert w0 k. induction n as [|n IH]; intros w0 k Hk w.
  - subst w. cbn. split_and!; [lia|done|lia].
  - subst w. cbn [seq foldl]. destruct (Hstep w0 k) as [Hl Hj].
    destruct (IH (step w0 k) (S k) ltac:(lia)) as (IH1 & IH2 & IH3). split_and!.
    + rewrite IH1. lia.
    + intros j Hjk. rewrite IH2 by lia. apply Hj. lia.
    + intros i Hi. destruct (decide (i = k)) as [->|Hne].
      * exists w0. split_and!; [done| |by apply IH2; lia].
        intros j Hlt. rewrite IH2 by lia. symmetry. apply Hj. lia.
      * apply IH3. lia.
Qed.

Lemma list_lookup_total_snoc (w : list Z) x j : (j < length w)%nat -> (w ++ [x]) !!! j = w !!! j.
Proof. intros. rewrite !list_lookup_total_alt, lookup_app_l by done. done. Qed.

Lemma list_lookup_total_last (w : list Z) x : (w ++ [x]) !!! length w = x.
Proof. by rewrite list_lookup_total_alt, lookup_app_r, Nat.sub_diag by lia. Qed.

#[local] Opaque schedule_step256 be_word.

Lemma schedule256_spec blk :
  length (schedule256 blk) = 64%nat /\
  (forall i, (i < 16)%nat -> schedule256 blk !!! i = be_word 4 blk i) /\
  (forall i, (16 <= i < 64)%nat -> schedule256 blk !!! i =
     u32 (sig1_32 (schedule256 blk !!! (i - 2)%nat) + schedule256 blk !!! (i - 7)%nat
          + sig0_32 (schedule256 blk !!! (i - 15)%nat) + schedule256 blk !!! (i - 16)%nat)).
Proof.
  assert (Hs : forall w i, length (schedule_step256 w i) = S (length w) /\
    forall j, (j < length w)%nat -> schedule_step256 w i !!! j = w !!! j).
  { Transparent schedule_step256. intros w i. split; [unfold schedule_step256; rewrite length_app; cbn; lia|].
    intros. by apply list_lookup_total_snoc. }
  Opaque schedule_step256.
  destruct (schedule_fill schedule_step256 (be_word 4 blk <$> seq 0 16) 48 16 Hs
    ltac:(by rewrite length_fmap, length_seq))
    as (H1 & H2 & H3). fold (schedule256 blk) in H1, H2, H3. split_and!; [done|..].
  - intros i Hi. rewrite H2 by done. apply list_lookup_total_correct.
    by rewrite list_lookup_fmap, lookup_seq_lt by lia.
  - intros i Hi. destruct (H3 i ltac:(lia)) as (v & <- & Hv & ->).
    Transparent schedule_step256. unfold schedule_step256.
    by rewrite list_lookup_total_last, !Hv by lia.
Qed.

#[local] Opaque schedule_step384.

Lemma schedule384_spec blk :
  length (schedule384 blk) = 80%nat /\
  (forall i, (i < 16)%nat -> schedule384 blk !!! i = be_word 8 blk i) /\
  (forall i, (16 <= i < 80)%nat -> schedule384 blk !!! i =
     u64 (sig1_64 (schedule384 blk !!! (i - 2)%nat) + schedule384 blk !!! (i - 7)%nat
          + sig0_64 (schedule384 blk !!! (i - 15)%nat) + schedule384 blk !!! (i - 16)%nat)).
Proof.
  assert (Hs : forall w i, length (schedule_step384 w i) = S (length w) /\
    forall j, (j < length w)%nat -> schedule_step384 w i !!! j = w !!! j).
  { Transparent schedule_step384. intros w i. split; [unfold schedule_step384; rewrite length_app; cbn; lia|].
    intros. by apply list_lookup_total_snoc. }
  Opaque schedule_step384.
  destruct (schedule_fill schedule_step384 (be_word 8 blk <$> seq 0 16) 64 16 Hs
    ltac:(by rewrite length_fmap, length_seq))
    as (H1 & H2 & H3). fold (schedule384 blk) in H1, H2, H3. split_and!; [done|..].
  - intros i Hi. rewrite H2 by done. apply list_lookup_total_correct.
    by rewrite list_lookup_fmap, lookup_seq_lt by lia.
  - intros i Hi. destruct (H3 i ltac:(lia)) as (v & <- & Hv & ->).
    Transparent schedule_step384. unfold schedule_step384.
    by rewrite list_lookup_total_last, !Hv by lia.
Qed.

(** [rotr32] rotates: bit [i] of the result is bit [(i + n) mod 32]. *)
Lemma rotr_testbit w x n i :
  0 < n < w -> 0 <= x < 2 ^ w -> 0 <= i < w ->
  Z.testbit ((x >>> n) .| ((x <<< (w - n)) mod 2 ^ w)) i = Z.testbit x ((i + n) mod w).
Proof.
  intros Hn Hx Hi. rewrite Z.lor_spec, Z.shiftr_spec, Z.mod_pow2_bits_low by lia.
  destruct (Z.lt_ge_cases (i + n) w).
  - rewrite Z.shiftl_spec_low, orb_false_r, Z.mod_small by lia. done.
  - rewrite <- (Z.mod_small x (2 ^ w) Hx) at 1. rewrite Z.mod_pow2_bits_high by lia.
    rewrite Z.shiftl_spec_high by lia. cbn [orb]. f_equal.
    rewrite <- (Z_mod_plus_full (i + n) (-1) w), Z.mod_small by lia. lia.
Qed.

(** ** The compression functions are the standard's *)

Lemma word_high_bits n x i : 0 <= x < 2 ^ n -> n <= i -> 0 <= n -> Z.testbit x i = false.
Proof. intros Hx Hi Hn. rewrite <- (Z.mod_small x (2 ^ n)) by done. apply Z.mod_pow2_bits_high. lia. Qed.

Lemma range_of_bits n x : 0 <= n -> (forall i, n <= i -> Z.testbit x i = false) -> 0 <= x < 2 ^ n.
Proof.
  intros Hn H. replace x with (x mod 2 ^ n); [apply Z.mod_pos_bound; lia|]. apply Z.bits_inj'. intros i Hi.
  destruct (Z.lt_ge_cases i n); [by rewrite Z.mod_pow2_bits_low by lia|]. by rewrite Z.mod_pow2_bits_high, H by lia.
Qed.

Lemma word_eq (w : nat) x f :
  (forall i, Z.of_nat w <= i -> Z.testbit x i = false) -> (forall i, (i < w)%nat -> f i = bit x i) -> x = word_of w f.
Proof. intros Hh Hl. symmetry. apply word_of_bits; [|done]. apply range_of_bits; [lia|done]. Qed.

Section logical.
Context (w : nat).
#[local] Abbreviation M := (2 ^ Z.of_nat w).

Lemma rotr_is_ROTR x (n : nat) : (0 < n < w)%nat -> 0 <= x < M ->
  (x >>> Z.of_nat n) .| ((x <<< (Z.of_nat w - Z.of_nat n)) mod M) = ROTR w n x.
Proof.
  intros Hn Hx. apply word_eq.
  - intros i Hi. rewrite Z.lor_spec, Z.shiftr_spec, Z.mod_pow2_bits_high by lia. rewrite orb_false_r. apply (word_high_bits (Z.of_nat w)); lia.
  - intros i Hi. unfold bit. rewrite rotr_testbit by lia. by rewrite Nat2Z.inj_mod, Nat2Z.inj_add.
Qed.

Lemma shiftr_is_SHR x (n : nat) : 0 <= x < M -> x >>> Z.of_nat n = SHR w n x.
Proof.
  intros Hx. apply word_eq; intros i Hi; [|unfold bit]; rewrite Z.shiftr_spec by lia; [apply (word_high_bits (Z.of_nat w)); lia|].
  by rewrite Nat2Z.inj_add.
Qed.

Lemma xor_is_Parity x y z : 0 <= x < M -> 0 <= y < M -> 0 <= z < M -> x .^ y .^ z = Parity w x y z.
Proof.
  intros Hx Hy Hz. apply word_eq; intros i Hi; [|unfold bit]; rewrite !Z.lxor_spec.
  - by rewrite !(word_high_bits (Z.of_nat w)) by lia.
  - by rewrite xorb_assoc.
Qed.

Lemma ch_is_Ch x y z : 0 <= x < M -> 0 <= y < M -> 0 <= z < M -> (x .& y) .^ ((Z.lnot x mod M) .& z) = Ch w x y z.
Proof.
  intros Hx Hy Hz. apply word_eq; intros i Hi; [|unfold bit]; rewrite Z.lxor_spec, !Z.land_spec.
  - by rewrite (word_high_bits (Z.of_nat w) y), (word_high_bits (Z.of_nat w) z), !andb_false_r by lia.
  - rewrite Z.mod_pow2_bits_low, Z.lnot_spec by lia. destruct (Z.testbit x _); cbn; [|done]. by rewrite xorb_false_r.
Qed.

Lemma maj_is_Maj x y z : 0 <= x < M -> 0 <= y < M -> 0 <= z < M -> (x .& y) .^ (x .& z) .^ (y .& z) = Maj w x y z.
Proof.
  intros Hx Hy Hz. apply word_eq; intros i Hi; [|unfold bit]; rewrite !Z.lxor_spec, !Z.land_spec.
  - by rewrite (word_high_bits (Z.of_nat w) y), (word_high_bits (Z.of_nat w) z), !andb_false_r by lia.
  - by destruct (Z.testbit x _), (Z.testbit y _), (Z.testbit z _).
Qed.
End logical.

Lemma foldl_be l acc :
  0 <= acc -> foldl (fun w b => (w <<< 8) .| bval b) acc l = acc * 256 ^ Z.of_nat (length l) + be_val l.
Proof.
  revert acc. induction l as [|b l IH]; intros acc Ha; [cbn; lia|]. cbn [foldl]. pose proof (bval_range b).
  rewrite Z.lor_comm, lor_shiftl_add by lia. rewrite IH by lia. rewrite be_val_cons. cbn [length]. rewrite Nat2Z.inj_succ, Z.pow_succ_r by lia. lia.
Qed.

#[local] Transparent be_word.

Lemma be_word_value n blk i : be_word n blk i = be_val (take n (drop (i * n) blk)).
Proof. unfold be_word. rewrite foldl_be by lia. lia. Qed.

Lemma nth_reverse (l : list Z) k : (k < length l)%nat -> nth k (reverse l) 0 = l !!! (length l - S k)%nat.
Proof.
  intros Hk. rewrite nth_lookup, reverse_lookup by done. destruct (lookup_lt_is_Some_2 l (length l - S k) ltac:(lia)) as [x Hx].
  by rewrite Hx, (list_lookup_total_correct _ _ _ Hx).
Qed.

Lemma zip_lookups (K W : list Z) n : length K = n -> length W = n -> zip K W = (fun i => (K !!! i, W !!! i)) <$> seq 0 n.
Proof.
  intros HK HW. apply list_eq. intros i. rewrite list_lookup_fmap, lookup_zip_with. destruct (decide (i < n)%nat) as [Hi|Hi].
  - rewrite lookup_seq_lt by done. destruct (lookup_lt_is_Some_2 K i ltac:(lia)) as [k Hk]. destruct (lookup_lt_is_Some_2 W i ltac:(lia)) as [x Hx].
    rewrite Hk, Hx. cbn. by rewrite (list_lookup_total_correct _ _ _ Hk), (list_lookup_total_correct _ _ _ Hx).
  - rewrite (lookup_ge_None_2 K) by lia. by rewrite lookup_seq_ge by lia.
Qed.

(** The compression of the program, over the functions of a word size. *)
Section compression.
Context (v : variant) (s0 s1 e0 e1 : Z -> Z) (ch maj : Z -> Z -> Z -> Z) (K : list Z).

#[local] Abbreviation w := (word_size v).
#[local] Abbreviation M := (2 ^ Z.of_nat w).

Definition in_range (x : Z) : Prop := 0 <= x < M.

Context (HK : round_constants v = K) (Hw : exists k, w = (8 * k)%nat).
Context (Hs0 : forall x, in_range x -> s0 x = sigma w (sigma0 v) x) (Hs1 : forall x, in_range x -> s1 x = sigma w (sigma1 v) x).
Context (He0 : forall x, in_range x -> e0 x = Sigma w (Sigma0 v) x) (He1 : forall x, in_range x -> e1 x = Sigma w (Sigma1 v) x).
Context (Hch : forall x y z, in_range x -> in_range y -> in_range z -> ch x y z = Ch w x y z).
Context (Hmaj : forall x y z, in_range x -> in_range y -> in_range z -> maj x y z = Maj w x y z).

Definition words_step (W : list Z) (i : nat) : list Z :=
  W ++ [(s1 (W !!! (i - 2)%nat) + W !!! (i - 7)%nat + s0 (W !!! (i - 15)%nat) + W !!! (i - 16)%nat) mod M].

Definition words_round (W : list Z) (x : vars) (i : nat) : vars :=
  let t1 := (vh x + e1 (ve x) + ch (ve x) (vf x) (vg x) + K !!! i + W !!! i) mod M in
  let t2 := (e0 (va x) + maj (va x) (vb x) (vc x)) mod M in
  Vars ((t1 + t2) mod M) (va x) (vb x) (vc x) ((vd x + t1) mod M) (ve x) (vf x) (vg x).

Definition words_transform (state : list Z) (blk : list byte) : list Z :=
  let W := foldl words_step (be_word (w / 8) blk <$> seq 0 16) (seq 16 (length K - 16)) in
  zip_with (fun s x => (s + x) mod M) state (list_of (foldl (words_round W) (vars_of state) (seq 0 (length K)))).

Lemma mod_in_range x : in_range (x mod M).
Proof using Type. clear. apply Z.mod_pos_bound. lia. Qed.

Lemma sum_mod l : sum v l = foldr Z.add 0 l mod M.
Proof using Type. done. Qed.

Lemma message_word_range blk t : in_range (message_word v blk t).
Proof using Hw.
  clear -Hw. unfold in_range, message_word. destruct Hw as [k ->]. replace (8 * k / 8)%nat with k by (symmetry; rewrite Nat.mul_comm; apply Nat.div_mul; lia).
  pose proof (be_val_bound (take k (drop (t * k) blk))) as [H1 H2]. split; [done|]. eapply Z.lt_le_trans; [exact H2|].
  replace (Z.of_nat (8 * k)) with (8 * Z.of_nat k) by lia. rewrite Z.pow_mul_r by lia. change (2 ^ 8) with 256.
  apply Z.pow_le_mono_r; [lia|]. rewrite length_take. lia.
Qed.

(** The array of the program is the schedule, which starts with the latest word. *)
Lemma schedule_reversed blk t :
  let W := foldl words_step (be_word (w / 8) blk <$> seq 0 16) (seq 16 t) in
  schedule v blk t = reverse W /\ length W = (16 + t)%nat /\ Forall in_range W.
Proof using Hw Hs0 Hs1.
  induction t as [|t IH]; intros W.
  - subst W. change (seq 16 0) with (@nil nat). cbn [foldl schedule]. split_and!; [|by rewrite length_fmap, length_seq|].
    + f_equal. apply list_fmap_ext. intros i x _. by rewrite be_word_value.
    + apply Forall_fmap, Forall_true. intros i. unfold compose. rewrite be_word_value. apply message_word_range.
  - subst W. rewrite (seq_S t 16), foldl_app. set (W := foldl words_step _ (seq 16 t)) in *. destruct IH as (IH1 & IH2 & IH3).
    cbn [foldl]. unfold words_step at 1 2 3. cbn [schedule]. rewrite IH1.
    assert (Hr : forall i, (i < 16 + t)%nat -> in_range (W !!! i)).
    { intros i Hi. destruct (lookup_lt_is_Some_2 W i ltac:(lia)) as [x Hx]. rewrite (list_lookup_total_correct _ _ _ Hx). by apply (Forall_lookup_1 _ _ _ _ IH3 Hx). }
    split_and!.
    + rewrite reverse_app. cbn [reverse]. rewrite !nth_reverse by lia. rewrite IH2. rewrite reverse_singleton. cbn [app]. f_equal.
      rewrite sum_mod. cbn [foldr]. rewrite <- Hs1, <- Hs0 by (apply Hr; lia).
      replace (16 + t - 2)%nat with (16 + t - S 1)%nat by lia. f_equal.
      replace (16 + t - 7)%nat with (16 + t - S 6)%nat by lia. replace (16 + t - 15)%nat with (16 + t - S 14)%nat by lia.
      replace (16 + t - 16)%nat with (16 + t - S 15)%nat by lia. lia.
    + rewrite length_app, IH2. cbn. lia.
    + apply Forall_app. split; [done|]. repeat constructor; apply mod_in_range.
Qed.

Context (Hrounds : (16 <= length K)%nat).

Definition vars_ok (x : vars) : Prop := Forall in_range (list_of x).

Lemma words_round_ok W x i : vars_ok x ->
  vars_ok (words_round W x i) /\ list_of (words_round W x i) = round v (list_of x) (K !!! i, W !!! i).
Proof using He0 He1 Hch Hmaj.
  destruct x as [a b c d e f g h]. unfold vars_ok, words_round, list_of. cbn [va vb vc vd ve vf vg vh]. rewrite !List.Forall_cons_iff.
  intros (Ha & Hb & Hc & Hd & He & Hf & Hg & Hh & _). split; [split_and!; by try apply mod_in_range|].
  cbn [round fst snd]. rewrite !sum_mod. cbn [foldr]. rewrite He0, He1, Hch, Hmaj by done. rewrite !Z.add_0_r, !Z.add_assoc. done.
Qed.

Lemma words_rounds_ok W l x : vars_ok x ->
  vars_ok (foldl (words_round W) x l) /\
  list_of (foldl (words_round W) x l) = foldl (round v) (list_of x) ((fun i => (K !!! i, W !!! i)) <$> l).
Proof using He0 He1 Hch Hmaj.
  revert x. induction l as [|i l IH]; intros x Hx; [done|]. destruct (words_round_ok W x i Hx) as [Hx' E].
  cbn [foldl]. rewrite fmap_cons. cbn [foldl]. rewrite <- E. by apply IH.
Qed.

Lemma words_transform_is_compress state blk : length state = 8%nat -> Forall in_range state ->
  words_transform state blk = compress v state blk /\ length (compress v state blk) = 8%nat /\ Forall in_range (compress v state blk).
Proof using HK Hw Hrounds Hs0 Hs1 He0 He1 Hch Hmaj.
  intros Hl Hs. destruct (schedule_reversed blk (length K - 16)) as (E1 & E2 & _).
  assert (Hv : list_of (vars_of state) = state).
  { do 8 (destruct state as [|? state]; [discriminate Hl|]). destruct state; [done|discriminate Hl]. }
  assert (E : words_transform state blk = compress v state blk).
  { unfold words_transform, compress. cbv zeta. rewrite HK, E1, reverse_involutive. set (W := foldl words_step _ _) in *.
    rewrite (zip_lookups K W (length K)) by lia. rewrite (proj2 (words_rounds_ok W (seq 0 (length K)) (vars_of state) ltac:(unfold vars_ok; by rewrite Hv))), Hv.
    apply zip_with_ext; [|done..]. intros x y. rewrite sum_mod. cbn [foldr]. f_equal. lia. }
  rewrite <- E. split; [done|]. unfold words_transform. split; [by rewrite length_zip_with, Hl|].
  cbv zeta. apply Forall_lookup. intros i x. rewrite lookup_zip_with_Some. intros (y & z & -> & _). apply mod_in_range.
Qed.
End compression.

(** Three rotations, and two with a shift, of a word in range. *)
Section sigmas.
Context (w : nat) (n : nat * nat * nat) (x : Z) (Hx : 0 <= x < 2 ^ Z.of_nat w).
Context (H1 : (0 < n.1.1 < w)%nat) (H2 : (0 < n.1.2 < w)%nat).

#[local] Abbreviation rot k := ((x >>> Z.of_nat k) .| ((x <<< (Z.of_nat w - Z.of_nat k)) mod 2 ^ Z.of_nat w)).

Lemma Sigma_words : (0 < n.2 < w)%nat -> rot n.1.1 .^ rot n.1.2 .^ rot n.2 = Sigma w n x.
Proof using Hx H1 H2. intros H3. rewrite !rotr_is_ROTR by done. apply xor_is_Parity; apply word_of_range. Qed.

Lemma sigma_words : rot n.1.1 .^ rot n.1.2 .^ (x >>> Z.of_nat n.2) = sigma w n x.
Proof using Hx H1 H2. rewrite !rotr_is_ROTR, (shiftr_is_SHR w) by done. apply xor_is_Parity; apply word_of_range. Qed.
End sigmas.

Lemma K256_roots : root_fraction 3 32 <$> take 64 primes = K256.
Proof. apply fractions_checked; [lia|vm_compute; reflexivity..]. Qed.

Lemma initial256_roots : root_fraction 2 32 <$> take 8 primes = initial256.
Proof. apply fractions_checked; [lia|vm_compute; reflexivity..]. Qed.

Lemma K384_roots : root_fraction 3 64 <$> take 80 primes = K384.
Proof. apply fractions_checked; [lia|vm_compute; reflexivity..]. Qed.

Lemma initial384_roots : root_fraction 2 64 <$> take 8 (drop 8 primes) = initial384.
Proof. apply fractions_checked; [lia|vm_compute; reflexivity..]. Qed.

(** Eight words in range. *)
Definition hash_state (v : variant) (s : list Z) : Prop := length s = 8%nat /\ Forall (in_range v) s.

Lemma transform256_compress s blk : hash_state sha256 s ->
  transform256 s blk = compress sha256 s blk /\ hash_state sha256 (compress sha256 s blk).
Proof.
  intros [Hl Hr]. change (transform256 s blk) with (words_transform sha256 sig0_32 sig1_32 ep0_32 ep1_32 ch32 maj32 K256 s blk).
  unfold hash_state. refine (words_transform_is_compress sha256 sig0_32 sig1_32 ep0_32 ep1_32 ch32 maj32 K256 K256_roots _ _ _ _ _ _ _ _ s blk Hl Hr).
  - by exists 4%nat.
  - intros x Hx. exact (sigma_words 32 (7, 18, 3)%nat x Hx ltac:(cbn; lia) ltac:(cbn; lia)).
  - intros x Hx. exact (sigma_words 32 (17, 19, 10)%nat x Hx ltac:(cbn; lia) ltac:(cbn; lia)).
  - intros x Hx. exact (Sigma_words 32 (2, 13, 22)%nat x Hx ltac:(cbn; lia) ltac:(cbn; lia) ltac:(cbn; lia)).
  - intros x Hx. exact (Sigma_words 32 (6, 11, 25)%nat x Hx ltac:(cbn; lia) ltac:(cbn; lia) ltac:(cbn; lia)).
  - intros x y z. exact (ch_is_Ch 32 x y z).
  - intros x y z. exact (maj_is_Maj 32 x y z).
  - cbn. lia.
Qed.

Lemma transform384_compress s blk : hash_state sha384 s ->
  transform384 s blk = compress sha384 s blk /\ hash_state sha384 (compress sha384 s blk).
Proof.
  intros [Hl Hr]. change (transform384 s blk) with (words_transform sha384 sig0_64 sig1_64 ep0_64 ep1_64 ch64 maj64 K384 s blk).
  unfold hash_state. refine (words_transform_is_compress sha384 sig0_64 sig1_64 ep0_64 ep1_64 ch64 maj64 K384 K384_roots _ _ _ _ _ _ _ _ s blk Hl Hr).
  - by exists 8%nat.
  - intros x Hx. exact (sigma_words 64 (1, 8, 7)%nat x Hx ltac:(cbn; lia) ltac:(cbn; lia)).
  - intros x Hx. exact (sigma_words 64 (19, 61, 6)%nat x Hx ltac:(cbn; lia) ltac:(cbn; lia)).
  - intros x Hx. exact (Sigma_words 64 (28, 34, 39)%nat x Hx ltac:(cbn; lia) ltac:(cbn; lia) ltac:(cbn; lia)).
  - intros x Hx. exact (Sigma_words 64 (14, 18, 41)%nat x Hx ltac:(cbn; lia) ltac:(cbn; lia) ltac:(cbn; lia)).
  - intros x y z. exact (ch_is_Ch 64 x y z).
  - intros x y z. exact (maj_is_Maj 64 x y z).
  - cbn. lia.
Qed.

Lemma fips_blocks_foldl block transform n s msg :
  fips_blocks block transform n s msg = foldl transform s ((fun i => take block (drop (i * block) msg)) <$> seq 0 n).
Proof. induction n as [|n IH]; [done|]. by rewrite fips_blocks_snoc, IH, seq_S, fmap_app, foldl_app. Qed.

Lemma word_be_bytes n x : word_be n x = be_bytes n x.
Proof.
  apply list_fmap_ext. intros _ i _. rewrite Z.shiftr_div_pow2 by lia. by rewrite (Z.mul_comm _ 8), Z.pow_mul_r by lia.
Qed.

(** A transform that compresses as the standard, from its initial value, computes its hash. *)
Lemma fips_state_hash v transform init msg :
  initial_hash v = init -> hash_state v init ->
  (forall s blk, hash_state v s -> transform s blk = compress v s blk /\ hash_state v (compress v s blk)) ->
  mjoin (word_be (word_size v / 8) <$> take (digest_words v) (fips_state (block_bytes v) (length_octets v) transform init msg)) =
  fips_hash v msg.
Proof.
  intros Hi Hs Htr. unfold fips_hash, fips_state, message_blocks. rewrite Hi, fips_blocks_foldl.
  assert (Hp : fips_pad (block_bytes v) (length_octets v) msg = padded v msg) by (unfold fips_pad, padded, pad_zeros; by rewrite word_be_bytes).
  rewrite Hp. clear Hi Hp. revert init Hs. generalize ((fun i => take (block_bytes v) (drop (i * block_bytes v) (padded v msg))) <$> seq 0 (length (padded v msg) / block_bytes v)).
  intros bs. induction bs as [|b bs IH]; intros s Hs; cbn [foldl].
  - generalize (take (digest_words v) s). intros l. generalize (word_size v / 8)%nat. intros n. induction l as [|x l IH]; [done|].
    change (word_be n x ++ mjoin (word_be n <$> l) = be_bytes n x ++ concat (map (be_bytes n) l)). by rewrite word_be_bytes, IH.
  - destruct (Htr s b Hs) as [-> Hc]. by apply IH.
Qed.

Lemma small_state v l : length l = 8%nat -> forallb (fun x => (0 <=? x) && (x <? 2 ^ Z.of_nat (word_size v))) l = true -> hash_state v l.
Proof.
  intros Hl H. split; [done|]. rewrite forallb_forall in H. apply List.Forall_forall. intros x Hx. specialize (H x Hx). unfold in_range. lia.
Qed.

Lemma sha256_digest_fips data :
  8 * Z.of_nat (length data) < 2 ^ 64 -> sha256_digest data = fips_sha256 data.
Proof.
  intros Hlen. unfold sha256_digest, finalize256.
  rewrite (stream_is_fips 64 56 0 8 4 transform256 eq_refl ltac:(lia) initial256 data); [|..|done].
  - apply (fips_state_hash sha256 transform256 initial256 data); [exact initial256_roots|by apply small_state|exact transform256_compress].
  - rewrite <- (app_nil_l data) at 1. by apply absorbed_update; [lia|].
Qed.

Lemma sha384_digest_fips data :
  8 * Z.of_nat (length data) < 2 ^ 64 -> sha384_digest data = fips_sha384 data.
Proof.
  intros Hlen. unfold sha384_digest, finalize384.
  rewrite (stream_is_fips 128 112 8 6 8 transform384 eq_refl ltac:(lia) initial384 data); [|..|done].
  - apply (fips_state_hash sha384 transform384 initial384 data); [exact initial384_roots|by apply small_state|exact transform384_compress].
  - rewrite <- (app_nil_l data) at 1. by apply absorbed_update; [lia|].
Qed.

(** ** Properties *)

(** C20: both hash contexts are streaming and compute the hash of FIPS 180-4, written
    independently in [Fips180] (functions bit by bit, constants as the fractions of roots of
    primes, schedule, padding): however a message is cut into [update] calls, the result is
    the standard's, for every message whose bit length fits in 64 bits; digests are 32 and 48
    bytes long. *)
Theorem sha_streams_are_fips (pieces : list (list byte)) :
  8 * Z.of_nat (length (mjoin pieces)) < 2 ^ 64 ->
  finalize256 (foldl update256 reset256 pieces) = fips_sha256 (mjoin pieces) /\
  length (fips_sha256 (mjoin pieces)) = 32%nat /\
  finalize384 (foldl update384 reset384 pieces) = fips_sha384 (mjoin pieces) /\
  length (fips_sha384 (mjoin pieces)) = 48%nat.
Proof.
  intros Hlen. rewrite (foldl_update update256 reset256 finalize256 32).
  rewrite (foldl_update update384 reset384 finalize384 48).
  rewrite <- (sha256_digest_fips _ Hlen), <- (sha384_digest_fips _ Hlen).
  rewrite sha256_digest_length, sha384_digest_length.
  unfold sha256_digest, sha384_digest.
  split; [reflexivity|]. split; [reflexivity|]. split; reflexivity.
Qed.

Lemma sha_streams_are_fips_witness :
  finalize256 (foldl update256 reset256 [[x61]; []; [x62; x63]]) = fips_sha256 [x61; x62; x63].
Proof.
  assert (Hl : 8 * Z.of_nat (length (mjoin [[x61]; []; [x62; x63]])) < 2 ^ 64) by reflexivity.
  exact (proj1 (sha_streams_are_fips [[x61]; []; [x62; x63]] Hl)).
Defined.

(** the words of the compression functions are the standard's: the message
    schedule array satisfies the recurrence of FIPS 180-4 in every one of its 64
    (80) entries, and [rotr] is a rotation of the machine word. *)
Theorem sha_schedule_and_rotation (blk : list byte) (x n i : Z) :
  (length (schedule256 blk) = 64%nat /\
   (forall t, (t < 16)%nat -> schedule256 blk !!! t = be_word 4 blk t) /\
   (forall t, (16 <= t < 64)%nat -> schedule256 blk !!! t =
     u32 (sig1_32 (schedule256 blk !!! (t - 2)%nat) + schedule256 blk !!! (t - 7)%nat
          + sig0_32 (schedule256 blk !!! (t - 15)%nat) + schedule256 blk !!! (t - 16)%nat))) /\
  (length (schedule384 blk) = 80%nat /\
   (forall t, (t < 16)%nat -> schedule384 blk !!! t = be_word 8 blk t) /\
   (forall t, (16 <= t < 80)%nat -> schedule384 blk !!! t =
     u64 (sig1_64 (schedule384 blk !!! (t - 2)%nat) + schedule384 blk !!! (t - 7)%nat
          + sig0_64 (schedule384 blk !!! (t - 15)%nat) + schedule384 blk !!! (t - 16)%nat))) /\
  (0 < n < 32 -> 0 <= x < 2 ^ 32 -> 0 <= i < 32 ->
     Z.testbit (rotr32 x n) i = Z.testbit x ((i + n) mod 32)) /\
  (0 < n < 64 -> 0 <= x < 2 ^ 64 -> 0 <= i < 64 ->
     Z.testbit (rotr64 x n) i = Z.testbit x ((i + n) mod 64)).
Proof.
  split; [apply schedule256_spec|]. split; [apply schedule384_spec|].
  split; intros; by apply rotr_testbit.
Qed.

Lemma sha_schedule_and_rotation_witness :
  Z.testbit (rotr32 0x80000001 7) 25 = Z.testbit 0x80000001 ((25 + 7) mod 32).
Proof. apply (sha_schedule_and_rotation [] 0x80000001 7 25); lia. Defined.

(** [hash_file] reads in 8192-byte chunks and returns the digest of the whole
    content; a file that does not open hashes to the empty string. *)
Theorem hash_file_is_hash_bytes (content : list byte) :
  hash_file (Some content) = hash_bytes256 content /\ hash_file None = EmptyString.
Proof.
  split; [|done]. unfold hash_file, hash_bytes256, sha256_digest.
  by rewrite hash_file_loop_update by lia.
Qed.

(** Test vectors of the standard. *)
Example sha256_abc : hash_bytes256 [x61; x62; x63] =
  "ba7816bf8f01cfea414140de5dae2223b00361a396177a9cb410ff61f20015ad"%string.
Proof. vm_compute. reflexivity. Qed.

Example sha384_abc : hash_bytes384 [x61; x62; x63] =
  "cb00753f45a35e8bb5a03d699ac65007272c32ab0eded1631a8b605a43ff5bed8086072ba1e7cc2358baeca134c825a7"%string.
Proof. vm_compute. reflexivity. Qed.
