(* ===== verification/Asn1.v ===== *)
(** * Asn1: the DER reader

    Models src/src/security/asn1.cpp and asn1.hpp.  A buffer is a possibly null
    pointer ([ptr]), offsets and lengths are [size_t] values in Z (their sums do
    not reach 2^64 for a buffer that exists in memory); the tag number wraps at
    32 bits and the arcs of an object identifier at 64, as in the code.  Each
    reading function lives in [mem]: [OOB] is a read outside the buffer.  The
    reference is [der_tlv], the DER encoding of an element. *)
From S2P Require Import Prelude.


#[local] Open Scope word_scope.
#[local] Open Scope mem_scope.

(** ** Data *)

Inductive TagClass := UNIVERSAL | APPLICATION | CONTEXT_SPECIFIC | PRIVATE.

#[export] Instance TagClass_eq_decision : EqDecision TagClass.
Proof. solve_decision. Defined.

Definition tag_class_of (z : Z) : TagClass :=
  if z =? 0 then UNIVERSAL else if z =? 1 then APPLICATION
  else if z =? 2 then CONTEXT_SPECIFIC else PRIVATE.

Inductive UniversalTag :=
  | BOOLEAN | INTEGER | BIT_STRING | OCTET_STRING | NULL_TAG | OBJECT_IDENTIFIER
  | UTF8_STRING | SEQUENCE | SET | PRINTABLE_STRING | T61_STRING | IA5_STRING
  | UTC_TIME | GENERALIZED_TIME | BMP_STRING.

Definition tag_value (t : UniversalTag) : Z :=
  match t with
  | BOOLEAN => 1 | INTEGER => 2 | BIT_STRING => 3 | OCTET_STRING => 4 | NULL_TAG => 5
  | OBJECT_IDENTIFIER => 6 | UTF8_STRING => 12 | SEQUENCE => 16 | SET => 17
  | PRINTABLE_STRING => 19 | T61_STRING => 20 | IA5_STRING => 22 | UTC_TIME => 23
  | GENERALIZED_TIME => 24 | BMP_STRING => 30
  end.

Record Element := El {
  tag_class : TagClass;
  constructed : bool;
  tag_number : Z;
  content_offset : Z;
  content_length : Z;
  total_length : Z;
}.

Definition is_universal (e : Element) (t : UniversalTag) : bool :=
  bool_decide (tag_class e = UNIVERSAL) && (tag_number e =? tag_value t).

(** ** Reading one element *)

(** The high-tag-number loop, at most [n] more bytes: the number and the position
    after it, [None] when no terminating byte was met. *)
Fixpoint high_tag (data : ptr) (size : Z) (n : nat) (pos tag : Z) : mem (option (Z * Z)) :=
  match n with
  | O => Val None
  | S n =>
      if pos <? size then
        let* b := rd data pos in
        let tag := u32 (tag <<< 7) .| (bval b .& 0x7F) in
        if (bval b .& 0x80) =? 0 then Val (Some (tag, pos + 1))
        else high_tag data size n (pos + 1) tag
      else Val None
  end.

(** [for (i = 0; i < num_len_bytes; ++i) content_length = (content_length << 8) | data[pos++]] *)
Fixpoint long_length (data : ptr) (n : nat) (pos len : Z) : mem (Z * Z) :=
  match n with
  | O => Val (len, pos)
  | S n =>
      let* b := rd data pos in
      long_length data n (pos + 1) (u64 (len <<< 8) .| bval b)
  end.

(** The length field at [pos]: the content length and the content's position. *)
Definition read_length (data : ptr) (size pos : Z) : mem (option (Z * Z)) :=
  if size <=? pos then Val None
  else
    let* b := rd data pos in
    let len_byte := bval b in
    let pos := pos + 1 in
    if (len_byte .& 0x80) =? 0 then Val (Some (len_byte, pos))
    else
      let num_len_bytes := len_byte .& 0x7F in
      if num_len_bytes =? 0 then Val None
      else if 8 <? num_len_bytes then Val None
      else if size <? pos + num_len_bytes then Val None
      else
        let* r := long_length data (Z.to_nat num_len_bytes) pos 0 in
        Val (Some r).

Definition parse_element (data : ptr) (size offset : Z) : mem (option Element) :=
  if null data || (size <=? offset) then Val None
  else
    let* t := rd data offset in
    let tag_byte := bval t in
    let cls := tag_class_of ((tag_byte >>> 6) .& 0x03) in
    let cons := negb ((tag_byte .& 0x20) =? 0) in
    let low := tag_byte .& 0x1F in
    let? (num, pos) :=
      if low =? 0x1F then high_tag data size 5 (offset + 1) 0
      else Val (Some (low, offset + 1)) in
    let? (len, pos) := read_length data size pos in
    if size - pos <? len then Val None
    else Val (Some (El cls cons num pos len (pos + len - offset))).

(** ** Sibling elements *)

(** The loop of [parse_sequence_children]; every element takes at least two bytes,
    so [length] iterations are more than it can make. *)
Fixpoint children_loop (data : ptr) (end_ : Z) (fuel : nat) (pos : Z)
    (children : list Element) : mem (list Element) :=
  match fuel with
  | O => Val children
  | S fuel =>
      if pos <? end_ then
        let* child := parse_element data end_ pos in
        match child with
        | None => Val children
        | Some c => children_loop data end_ fuel (pos + total_length c) (children ++ [c])
        end
      else Val children
  end.

Definition parse_sequence_children (data : ptr) (offset length : Z) : mem (list Element) :=
  children_loop data (offset + length) (Z.to_nat length) offset [].

(** ** Contents *)

Definition read_unsigned_integer (data : ptr) (e : Element) : mem (list byte) :=
  if null data || negb (is_universal e INTEGER) || (content_length e =? 0) then Val []
  else
    let* c0 := rd data (content_offset e) in
    if negb ((bval c0 .& 0x80) =? 0) then Val []
    else
      let* start :=
        if (2 <=? content_length e) && (bval c0 =? 0) then
          let* c1 := rd data (content_offset e + 1) in
          Val (if negb ((bval c1 .& 0x80) =? 0) then 1 else 0)
        else Val 0 in
      slice data (content_offset e + start) (content_length e - start).

Definition raw_bytes (data : ptr) (e : Element) : mem (list byte) :=
  if null data || (total_length e <? content_length e) then Val []
  else
    let header_len := total_length e - content_length e in
    if content_offset e <? header_len then Val []
    else slice data (content_offset e - header_len) (total_length e).

(** [std::to_string] of an unsigned value. *)
Definition to_string (z : Z) : string := pretty (Z.to_N z).

(** The arc loop of [oid_to_string] over the bytes after the first. *)
Fixpoint oid_loop (content : list byte) (out : string) (value : Z) (mid_arc : bool) : string :=
  match content with
  | [] => if mid_arc then EmptyString else out
  | b :: content =>
      let value := u64 (value <<< 7) .| (bval b .& 0x7F) in
      if (bval b .& 0x80) =? 0
      then oid_loop content (out +:+ "." +:+ to_string value) 0 false
      else oid_loop content out value true
  end.

Definition oid_to_string (data : ptr) (e : Element) : mem string :=
  if null data || negb (is_universal e OBJECT_IDENTIFIER) || (content_length e =? 0)
  then Val EmptyString
  else
    let* b0 := rd data (content_offset e) in
    let first_byte := bval b0 in
    let first_arc := first_byte / 40 in
    let second_arc := first_byte mod 40 in
    let '(first_arc, second_arc) :=
      if 2 <? first_arc then (2, first_byte - 80) else (first_arc, second_arc) in
    let out := to_string first_arc +:+ "." +:+ to_string second_arc in
    let* content := slice data (content_offset e + 1) (content_length e - 1) in
    Val (oid_loop content out 0 false).

(** ** Memory safety and position of the result *)

(** [e] was read at [offset] inside a window ending at [size]. *)
Definition elt_in (offset size : Z) (e : Element) : Prop :=
  offset + 2 <= content_offset e /\ 0 <= content_length e /\
  content_offset e + content_length e <= size /\
  total_length e = content_offset e + content_length e - offset.

Section safety.
Context (d : list byte) (size : Z) (Hsize : size <= Z.of_nat (length d)).

Lemma high_tag_safe n pos tag :
  0 <= pos -> safe_opt (high_tag (Some d) size n pos tag) (fun r => pos < r.2 <= size).
Proof.
  revert pos tag. induction n as [|n IH]; intros pos tag Hpos; cbn [high_tag]; safe_auto.
  - cbn. lia.
  - eapply safe_opt_mono; [apply IH; lia|]. intros r Hr. cbn beta in Hr. lia.
Qed.

Lemma long_length_safe n pos len :
  0 <= pos -> pos + Z.of_nat n <= size -> 0 <= len ->
  safe (long_length (Some d) n pos len) (fun r => 0 <= r.1 /\ r.2 = pos + Z.of_nat n).
Proof.
  revert pos len. induction n as [|n IH]; intros pos len Hpos Hn Hlen; cbn [long_length]; safe_auto.
  - cbn. lia.
  - eapply safe_mono; [apply IH; [lia..|]|].
    + apply Z.lor_nonneg. split; [apply u64_range | apply bval_range].
    + intros r [H1 H2]. split; [done|lia].
Qed.

Lemma read_length_safe pos :
  0 <= pos -> safe_opt (read_length (Some d) size pos)
    (fun r => 0 <= r.1 /\ pos < r.2 <= size).
Proof.
  intros Hpos. unfold read_length. safe_auto.
  - cbn. pose proof (bval_range a). lia.
  - assert (0 <= Z.land (bval a) 127) by (apply Z.land_nonneg; lia).
    eapply safe_opt_bind_mem; [apply long_length_safe; lia|].
    intros r [H1 H2]. safe_auto. cbn. lia.
Qed.

#[local] Hint Resolve read_length_safe : gcad_safe.

Lemma parse_element_safe offset :
  0 <= offset -> safe_opt (parse_element (Some d) size offset) (elt_in offset size).
Proof.
  intros Hoff. unfold parse_element. cbn [null orb]. safe_if; safe_auto.
  eapply (safe_opt_bind _ _ (fun r => offset < r.2 <= size)).
  - safe_if; [eapply safe_opt_mono; [apply high_tag_safe; lia|]; cbn; lia|].
    safe_auto. cbn. lia.
  - intros [num pos] Hpos. cbn in Hpos. safe_auto. destruct a0 as [len pos']. cbn in H0.
    safe_auto. unfold elt_in. cbn. lia.
Qed.
End safety.

#[export] Hint Resolve parse_element_safe : gcad_safe.

Lemma parse_element_in d size offset e :
  size <= Z.of_nat (length d) -> 0 <= offset ->
  parse_element (Some d) size offset = Val (Some e) -> elt_in offset size e.
Proof.
  intros Hs Ho He. eapply safe_opt_some_inv; [|apply He]. by apply parse_element_safe.
Qed.

(** ** Narrowing the window *)

Lemma high_tag_narrow p size size' n pos tag :
  size' <= size ->
  high_tag p size' n pos tag = Val None \/ high_tag p size' n pos tag = high_tag p size n pos tag.
Proof.
  intros Hs. revert pos tag. induction n as [|n IH]; intros pos tag; [by left|]. cbn [high_tag].
  destruct (Z.ltb_spec pos size'); [|by left].
  rewrite (proj2 (Z.ltb_lt pos size)) by lia.
  destruct (rd p pos) as [b|]; [|by right]. cbn [mem_bind].
  destruct (_ =? 0); [by right | apply IH].
Qed.

Lemma read_length_narrow p size size' pos :
  size' <= size ->
  read_length p size' pos = Val None \/ read_length p size' pos = read_length p size pos.
Proof.
  intros Hs. unfold read_length. destruct (Z.leb_spec size' pos); [by left|].
  rewrite (proj2 (Z.leb_gt size pos)) by lia.
  destruct (rd p pos) as [b|]; [|by right]. cbn [mem_bind]. cbv zeta.
  repeat (case_match; [by right|]).
  destruct (Z.ltb_spec size' (pos + 1 + Z.land (bval b) 127)); [by left|].
  rewrite (proj2 (Z.ltb_ge size _)) by lia. by right.
Qed.

(** Cutting the window before the end of an element that parses makes it fail. *)
Lemma parse_element_truncated d size size' offset e :
  size <= Z.of_nat (length d) -> 0 <= offset ->
  parse_element (Some d) size offset = Val (Some e) ->
  size' < offset + total_length e ->
  parse_element (Some d) size' offset = Val None.
Proof.
  intros Hs Ho He Hlt.
  pose proof (parse_element_in _ _ _ _ Hs Ho He) as (H1 & H2 & H3 & H4).
  revert He. unfold parse_element. cbn [null orb].
  destruct (Z.leb_spec size offset) as [|Hso]; [discriminate|].
  destruct (Z.leb_spec size' offset) as [|Hso']; [done|].
  destruct (rd (Some d) offset) as [t|]; [|discriminate]. cbn [mem_bind]. cbv zeta.
  assert (Hhi : forall m m' : mem (option (Z * Z)), m' = Val None \/ m' = m ->
    forall k k', (forall x, k x = Val (Some e) -> k' x = Val None) ->
    opt_bind m k = Val (Some e) -> opt_bind m' k' = Val (@None Element)).
  { intros m m' [->| ->] k k' Hk; [done|]. destruct m as [[x|]|]; cbn; [apply Hk|done|discriminate]. }
  eapply Hhi.
  - case_match; [apply high_tag_narrow; lia | by right].
  - intros [num pos]. eapply Hhi; [apply read_length_narrow; lia|].
    intros [len pos']. destruct (Z.ltb_spec (size - pos') len); [discriminate|].
    intros [= <-]. cbn in *. rewrite (proj2 (Z.ltb_lt _ _)) by lia. done.
Qed.

(** ** Sibling lists *)

(** The maximal run of elements from [pos] on, inside a window ending at [end_]. *)
Inductive siblings (data : ptr) (end_ : Z) : Z -> list Element -> Prop :=
  | siblings_end pos : end_ <= pos -> siblings data end_ pos []
  | siblings_malformed pos :
      pos < end_ -> parse_element data end_ pos = Val None -> siblings data end_ pos []
  | siblings_cons pos e l :
      pos < end_ -> parse_element data end_ pos = Val (Some e) ->
      siblings data end_ (pos + total_length e) l -> siblings data end_ pos (e :: l).

Lemma children_loop_spec d end_ fuel pos acc :
  end_ <= Z.of_nat (length d) -> 0 <= pos -> end_ - pos <= Z.of_nat fuel ->
  exists l, children_loop (Some d) end_ fuel pos acc = Val (acc ++ l) /\
    siblings (Some d) end_ pos l.
Proof.
  intros He. revert pos acc. induction fuel as [|fuel IH]; intros pos acc Hpos Hf; cbn [children_loop].
  - exists []. rewrite app_nil_r. split; [done|]. apply siblings_end. lia.
  - destruct (Z.ltb_spec pos end_) as [Hlt|Hge].
    2:{ exists []. rewrite app_nil_r. split; [done|]. by apply siblings_end. }
    destruct (safe_inv _ _ (parse_element_safe d end_ He pos Hpos)) as ([e|] & Hp & Hin);
      rewrite Hp; cbn [mem_bind].
    + specialize (Hin e eq_refl). destruct Hin as (H1 & H2 & H3 & H4).
      destruct (IH (pos + total_length e) (acc ++ [e])) as (l & -> & Hl); [lia..|].
      exists (e :: l). rewrite <- app_assoc. split; [done|]. by apply siblings_cons.
    + exists []. rewrite app_nil_r. split; [done|]. by apply siblings_malformed.
Qed.

Lemma children_spec d offset length_ :
  0 <= offset -> offset + length_ <= Z.of_nat (length d) ->
  exists l, parse_sequence_children (Some d) offset length_ = Val l /\
    siblings (Some d) (offset + length_) offset l.
Proof.
  intros Ho He. unfold parse_sequence_children.
  destruct (children_loop_spec d (offset + length_) (Z.to_nat length_) offset [] He Ho)
    as (l & -> & Hl); [lia|]. by exists l.
Qed.

(** An element somewhere in a window. *)
Definition elt_within (lo hi : Z) (e : Element) : Prop :=
  exists pos, lo <= pos /\ elt_in pos hi e.

Lemma siblings_within d end_ pos l :
  end_ <= Z.of_nat (length d) -> 0 <= pos -> siblings (Some d) end_ pos l ->
  Forall (elt_within pos end_) l.
Proof.
  intros He Hpos Hs. induction Hs as [| |pos e l Hlt Hp Hs IH]; [done..|].
  pose proof (parse_element_in _ _ _ _ He Hpos Hp) as Hin.
  constructor; [by exists pos|]. destruct Hin as (H1 & H2 & H3 & H4).
  eapply Forall_impl; [apply IH; lia|]. intros e' (p & Hp' & He'). exists p. split; [lia|done].
Qed.

Lemma siblings_fun p end_ pos l l' : siblings p end_ pos l -> siblings p end_ pos l' -> l = l'.
Proof.
  intros H. revert l'. induction H; intros l' H'; inversion H'; subst; try done; try lia; try congruence.
  assert (e0 = e) as -> by congruence. f_equal. auto.
Qed.

Lemma children_safe d offset length_ :
  0 <= offset -> offset + length_ <= Z.of_nat (length d) ->
  safe (parse_sequence_children (Some d) offset length_)
    (Forall (elt_within offset (offset + length_))).
Proof.
  intros Ho He. destruct (children_spec d offset length_ Ho He) as (l & -> & Hl).
  cbn. by eapply siblings_within.
Qed.
#[export] Hint Resolve children_safe : gcad_safe.

(** ** The DER encoding *)

(** The bytes of a number, least significant first, without leading zeros. *)
Fixpoint le_bytes (fuel : nat) (n : Z) : list byte :=
  match fuel with
  | O => []
  | S fuel => if n =? 0 then [] else byte_of n :: le_bytes fuel (n / 256)
  end.

(** X.690 section 8.1.3: the short form below 128, else the minimal long form. *)
Definition der_length (n : Z) : list byte :=
  if n <? 128 then [byte_of n]
  else byte_of (128 + Z.of_nat (length (le_bytes 8 n))) :: reverse (le_bytes 8 n).

Definition der_tlv (tag : byte) (content : list byte) : list byte :=
  tag :: der_length (Z.of_nat (length content)) ++ content.

Lemma le_bytes_length fuel n : (length (le_bytes fuel n) <= fuel)%nat.
Proof. revert n. induction fuel as [|f IH]; intros n; cbn; [lia|]. case_match; cbn; [lia|].
  specialize (IH (n / 256)). lia.
Qed.

Lemma le_bytes_val fuel n : 0 <= n < 256 ^ Z.of_nat fuel -> le_val (le_bytes fuel n) = n.
Proof.
  revert n. induction fuel as [|f IH]; intros n Hn.
  - cbn in *. unfold le_val. cbn. lia.
  - cbn [le_bytes]. destruct (Z.eqb_spec n 0) as [->|Hne]; [done|].
    rewrite Nat2Z.inj_succ, Z.pow_succ_r in Hn by lia.
    assert (Hv : le_val (byte_of n :: le_bytes f (n / 256)) = n mod 256 + 256 * (n / 256)).
    { change (bval (byte_of n) + 256 * le_val (le_bytes f (n / 256)) = n mod 256 + 256 * (n / 256)).
      rewrite bval_byte_of, IH; [done|]. split; [apply Z.div_pos; lia|].
      apply Z.div_lt_upper_bound; lia. }
    rewrite Hv. pose proof (Z.div_mod n 256). lia.
Qed.

Lemma be_val_le_bytes fuel n :
  0 <= n < 256 ^ Z.of_nat fuel -> be_val (reverse (le_bytes fuel n)) = n.
Proof. intros. unfold be_val. rewrite reverse_involutive. by apply le_bytes_val. Qed.

Lemma long_length_bytes pre bs post len :
  0 <= len -> len * 256 ^ Z.of_nat (length bs) + be_val bs < 2 ^ 64 ->
  long_length (Some (pre ++ bs ++ post)) (length bs) (Z.of_nat (length pre)) len =
  Val (len * 256 ^ Z.of_nat (length bs) + be_val bs, Z.of_nat (length pre + length bs)).
Proof.
  revert pre len. induction bs as [|b bs IH]; intros pre len Hlen Hb; cbn [length long_length].
  - rewrite Z.pow_0_r, Z.mul_1_r, Nat.add_0_r. unfold be_val, le_val. cbn. by rewrite Z.add_0_r.
  - cbn [app]. rewrite rd_app. cbn [mem_bind].
    rewrite be_val_cons, Nat2Z.inj_succ, Z.pow_succ_r in * by lia. cbn [length] in Hb.
    rewrite Nat2Z.inj_succ, Z.pow_succ_r in Hb by lia.
    pose proof (bval_range b). pose proof (be_val_nonneg bs).
    assert (1 <= 256 ^ Z.of_nat (length bs)) by (apply (Z.pow_le_mono_r 256 0); lia).
    assert (Hw : u64 (Z.shiftl len 8) = len * 256).
    { rewrite Z.shiftl_mul_pow2 by lia. apply u64_small. nia. }
    rewrite Hw, Z.lor_comm.
    replace (len * 256) with (Z.shiftl len 8) by (by rewrite Z.shiftl_mul_pow2 by lia).
    rewrite lor_shiftl_add by lia.
    replace (pre ++ b :: bs ++ post) with ((pre ++ [b]) ++ bs ++ post) by (by rewrite <- app_assoc).
    replace (Z.of_nat (length pre) + 1) with (Z.of_nat (length (pre ++ [b])))
      by (rewrite length_app; cbn; lia).
    rewrite IH by nia. rewrite length_app. cbn [length]. f_equal. f_equal; [ring|lia].
Qed.

Lemma der_length_nonempty n : (1 <= length (der_length n))%nat.
Proof. unfold der_length. case_match; cbn; lia. Qed.

Lemma read_length_encoded pre n post size :
  0 <= n < 2 ^ 64 -> Z.of_nat (length (pre ++ der_length n)) <= size ->
  read_length (Some (pre ++ der_length n ++ post)) size (Z.of_nat (length pre)) =
  Val (Some (n, Z.of_nat (length (pre ++ der_length n)))).
Proof.
  intros Hn Hs. pose proof (der_length_nonempty n) as Hne. unfold read_length.
  rewrite length_app in *. rewrite (proj2 (Z.leb_gt size _)) by lia.
  revert Hs Hne. unfold der_length. destruct (Z.ltb_spec n 128) as [Hlt|Hge]; intros Hs _; cbn [app length].
  - rewrite rd_app. cbn [mem_bind]. cbv zeta. rewrite bval_high_bit, bval_byte_of_small by lia.
    rewrite (proj2 (Z.ltb_lt _ _)) by lia. do 3 f_equal. lia.
  - rewrite rd_app. cbn [mem_bind]. cbv zeta. set (L := le_bytes 8 n).
    assert (HL : (1 <= length L <= 8)%nat).
    { pose proof (le_bytes_length 8 n). fold L in H. split; [|done].
      destruct L eqn:E; [|cbn; lia]. pose proof (le_bytes_val 8 n ltac:(lia)) as Hv.
      fold L in Hv. rewrite E in Hv. cbn in Hv. unfold le_val in Hv. cbn in Hv. lia. }
    rewrite bval_high_bit, bval_low_bits, bval_byte_of_small by lia.
    rewrite (proj2 (Z.ltb_ge _ _)) by lia.
    replace ((128 + Z.of_nat (length L)) mod 128) with (Z.of_nat (length L)) by
      (apply (Z.mod_unique_pos _ _ 1); lia).
    rewrite (proj2 (Z.eqb_neq _ _)), !(proj2 (Z.ltb_ge _ _)) by
      (cbn [length] in Hs; rewrite ?length_reverse in Hs; fold L in Hs; lia).
    rewrite Nat2Z.id.
    replace (pre ++ byte_of (128 + Z.of_nat (length L)) :: reverse L ++ post)
      with ((pre ++ [byte_of (128 + Z.of_nat (length L))]) ++ reverse L ++ post)
      by (by rewrite <- app_assoc).
    replace (Z.of_nat (length pre) + 1) with
      (Z.of_nat (length (pre ++ [byte_of (128 + Z.of_nat (length L))]))) by (rewrite length_app; cbn; lia).
    assert (Hv : be_val (reverse L) = n) by (apply be_val_le_bytes; lia).
    pose proof (long_length_bytes (pre ++ [byte_of (128 + Z.of_nat (length L))]) (reverse L) post 0
      ltac:(lia) ltac:(lia)) as Hll.
    rewrite Hv, (length_reverse L) in Hll. rewrite Hll.
    cbn [mem_bind]. rewrite length_app, length_reverse. cbn [length]. do 3 f_equal. lia.
Qed.

(** What the code reads at the start of the encoding of an element. *)
Definition tlv_element (tag : byte) (offset : Z) (content : list byte) : Element :=
  let start := offset + 1 + Z.of_nat (length (der_length (Z.of_nat (length content)))) in
  El (tag_class_of ((bval tag >>> 6) .& 0x03)) (negb ((bval tag .& 0x20) =? 0)) (bval tag .& 0x1F)
     start (Z.of_nat (length content)) (start + Z.of_nat (length content) - offset).

Lemma der_tlv_length tag content :
  length (der_tlv tag content) =
  (1 + length (der_length (Z.of_nat (length content))) + length content)%nat.
Proof. unfold der_tlv. cbn. rewrite length_app. lia. Qed.

Lemma parse_element_tlv pre tag content post size :
  (bval tag .& 0x1F) <> 0x1F -> Z.of_nat (length content) < 2 ^ 64 ->
  Z.of_nat (length (pre ++ der_tlv tag content)) <= size ->
  parse_element (Some (pre ++ der_tlv tag content ++ post)) size (Z.of_nat (length pre)) =
  Val (Some (tlv_element tag (Z.of_nat (length pre)) content)).
Proof.
  intros Htag Hlen Hs. rewrite length_app, der_tlv_length in Hs. unfold parse_element.
  cbn [null orb]. rewrite (proj2 (Z.leb_gt size _)) by lia.
  unfold der_tlv. cbn [app]. rewrite rd_app. cbn [mem_bind]. cbv zeta.
  rewrite (proj2 (Z.eqb_neq _ _)) by done. cbn [opt_bind mem_bind].
  rewrite <- app_assoc.
  replace (pre ++ tag :: der_length (Z.of_nat (length content)) ++ content ++ post)
    with ((pre ++ [tag]) ++ der_length (Z.of_nat (length content)) ++ content ++ post)
    by (by rewrite <- app_assoc).
  replace (Z.of_nat (length pre) + 1) with (Z.of_nat (length (pre ++ [tag])))
    by (rewrite length_app; cbn; lia).
  rewrite read_length_encoded by (rewrite ?length_app; cbn [length]; lia).
  cbn [opt_bind mem_bind]. rewrite !length_app. cbn [length].
  rewrite (proj2 (Z.ltb_ge _ _)) by lia. unfold tlv_element. do 3 f_equal; lia.
Qed.

(** A run of encoded elements, each with its tag byte and its content. *)
Definition tlv_ok (tc : byte * list byte) : Prop :=
  (bval tc.1 .& 0x1F) <> 0x1F /\ Z.of_nat (length tc.2) < 2 ^ 64.

Definition tlvs (l : list (byte * list byte)) : list byte :=
  mjoin ((fun tc => der_tlv tc.1 tc.2) <$> l).

Fixpoint tlv_elements (offset : Z) (l : list (byte * list byte)) : list Element :=
  match l with
  | [] => []
  | tc :: l =>
      tlv_element tc.1 offset tc.2 ::
      tlv_elements (offset + Z.of_nat (length (der_tlv tc.1 tc.2))) l
  end.

Lemma tlvs_cons tc l : tlvs (tc :: l) = der_tlv tc.1 tc.2 ++ tlvs l.
Proof. done. Qed.

Lemma tlv_element_total tag offset content :
  total_length (tlv_element tag offset content) = Z.of_nat (length (der_tlv tag content)).
Proof. rewrite der_tlv_length. cbn. lia. Qed.

Lemma tlvs_siblings pre l post :
  Forall tlv_ok l ->
  siblings (Some (pre ++ tlvs l ++ post)) (Z.of_nat (length (pre ++ tlvs l)))
    (Z.of_nat (length pre)) (tlv_elements (Z.of_nat (length pre)) l).
Proof.
  intros Hl. revert pre. induction Hl as [|[t c] l [Ht Hc] Hl IH]; intros pre.
  - apply siblings_end. rewrite length_app. cbn. lia.
  - rewrite tlvs_cons. cbn [fst snd tlv_elements] in *.
    assert (Hp : (0 < length (der_tlv t c))%nat) by (rewrite der_tlv_length; lia).
    apply siblings_cons.
    + rewrite !length_app. lia.
    + rewrite <- (app_assoc (der_tlv t c)).
      apply parse_element_tlv; [done..|]. rewrite !length_app. lia.
    + rewrite tlv_element_total. specialize (IH (pre ++ der_tlv t c)).
      rewrite <- !app_assoc in IH. rewrite <- app_assoc.
      rewrite (length_app pre (der_tlv t c)), Nat2Z.inj_add in IH. apply IH.
Qed.

Lemma children_of_tlvs pre l post :
  Forall tlv_ok l ->
  parse_sequence_children (Some (pre ++ tlvs l ++ post)) (Z.of_nat (length pre))
    (Z.of_nat (length (tlvs l))) = Val (tlv_elements (Z.of_nat (length pre)) l).
Proof.
  intros Hl.
  destruct (children_spec (pre ++ tlvs l ++ post) (Z.of_nat (length pre)) (Z.of_nat (length (tlvs l))))
    as (l' & -> & Hs); [lia|rewrite !length_app; lia|].
  f_equal. eapply siblings_fun; [apply Hs|].
  pose proof (tlvs_siblings pre l post Hl) as H. by rewrite length_app, Nat2Z.inj_add in H.
Qed.

Lemma tlv_content pre tag content post :
  let e := tlv_element tag (Z.of_nat (length pre)) content in
  slice (Some (pre ++ der_tlv tag content ++ post)) (content_offset e) (content_length e) =
  Val content.
Proof.
  cbn [tlv_element content_offset content_length]. cbv zeta. unfold der_tlv. set (L := der_length (Z.of_nat (length content))).
  replace (pre ++ (tag :: L ++ content) ++ post) with ((pre ++ tag :: L) ++ content ++ post)
    by (by rewrite <- !app_assoc; cbn; rewrite <- app_assoc).
  replace (Z.of_nat (length pre) + 1 + Z.of_nat (length L))
    with (Z.of_nat (length (pre ++ tag :: L))) by (rewrite length_app; cbn; lia).
  apply slice_app.
Qed.

Lemma tlv_raw_bytes pre tag content post :
  raw_bytes (Some (pre ++ der_tlv tag content ++ post))
    (tlv_element tag (Z.of_nat (length pre)) content) = Val (der_tlv tag content).
Proof.
  unfold raw_bytes. cbn [null orb]. rewrite tlv_element_total. cbn [content_length content_offset tlv_element].
  pose proof (der_tlv_length tag content) as Hl.
  rewrite !(proj2 (Z.ltb_ge _ _)) by lia.
  match goal with |- slice _ ?o _ = _ => replace o with (Z.of_nat (length pre)) by lia end.
  apply slice_app.
Qed.

(** What the sibling elements of an encoded run give back. *)
Definition gives_back (data : ptr) (e : Element) (tc : byte * list byte) : Prop :=
  raw_bytes data e = Val (der_tlv tc.1 tc.2) /\
  slice data (content_offset e) (content_length e) = Val tc.2.

Lemma tlv_elements_give_back pre l post :
  Forall2 (gives_back (Some (pre ++ tlvs l ++ post))) (tlv_elements (Z.of_nat (length pre)) l) l.
Proof.
  revert pre. induction l as [|[t c] l IH]; intros pre; [constructor|].
  rewrite tlvs_cons. cbn [tlv_elements fst snd]. constructor.
  - rewrite <- app_assoc. split; [apply tlv_raw_bytes | apply tlv_content].
  - specialize (IH (pre ++ der_tlv t c)). rewrite <- !app_assoc in IH.
    rewrite length_app, Nat2Z.inj_add in IH. rewrite <- app_assoc. apply IH.
Qed.

(** ** Integers *)

(** DER INTEGER contents with the sign bit clear (X.690 section 8.3). *)
Definition non_negative (content : list byte) : bool :=
  match content with b :: _ => bval b <? 128 | [] => false end.

Lemma read_unsigned_integer_tlv pre content post :
  read_unsigned_integer (Some (pre ++ der_tlv x02 content ++ post))
    (tlv_element x02 (Z.of_nat (length pre)) content) =
  Val (if non_negative content then
         match content with
         | x00 :: (b :: _) as rest => if 128 <=? bval b then tail content else content
         | _ => content
         end
       else []).
Proof.
  pose proof (tlv_content pre x02 content post) as Hsl. cbn zeta in Hsl.
  unfold read_unsigned_integer. set (e := tlv_element x02 (Z.of_nat (length pre)) content) in *.
  change (is_universal e INTEGER) with true. cbn [null orb negb].
  change (content_length e) with (Z.of_nat (length content)) in *.
  destruct content as [|b0 content]; [done|].
  rewrite (proj2 (Z.eqb_neq _ _)) by (cbn; lia).
  set (P := pre ++ x02 :: der_length (Z.of_nat (length (b0 :: content)))).
  assert (Hpost : pre ++ der_tlv x02 (b0 :: content) ++ post = P ++ (b0 :: content) ++ post).
  { unfold P, der_tlv. rewrite <- !app_assoc. cbn. by rewrite <- app_assoc. }
  assert (Ho : content_offset e = Z.of_nat (length P)).
  { unfold e, P. cbn [tlv_element content_offset]. rewrite length_app. cbn [length]. lia. }
  rewrite Hpost in *. rewrite Ho in *. cbn [app]. rewrite rd_app. cbn [mem_bind non_negative].
  rewrite bval_high_bit. destruct (bval b0 <? 128) eqn:Hb; [|done]. cbn [negb].
  destruct content as [|b1 content].
  { rewrite (proj2 (Z.leb_gt 2 _)) by (cbn; lia). cbn [andb mem_bind].
    rewrite Z.add_0_r, Z.sub_0_r. etransitivity; [exact Hsl|]. by destruct b0. }
  rewrite (proj2 (Z.leb_le _ _)) by (cbn; lia). cbn [andb].
  destruct (Z.eqb_spec (bval b0) 0) as [E|E].
  - assert (b0 = x00) as -> by (apply (inj bval); done).
    replace (P ++ x00 :: (b1 :: content) ++ post) with ((P ++ [x00]) ++ (b1 :: content) ++ post)
      by (by rewrite <- app_assoc).
    replace (Z.of_nat (length P) + 1) with (Z.of_nat (length (P ++ [x00])))
      by (rewrite length_app; cbn; lia).
    cbn [app]. rewrite rd_app. cbn [mem_bind]. rewrite bval_high_bit.
    destruct (Z.leb_spec 128 (bval b1)).
    + rewrite (proj2 (Z.ltb_ge _ _)) by lia. cbn [negb mem_bind tail].
      replace (Z.of_nat (length P) + 1) with (Z.of_nat (length (P ++ [x00])))
        by (rewrite length_app; cbn; lia).
      replace (Z.of_nat (length (x00 :: b1 :: content)) - 1) with (Z.of_nat (length (b1 :: content)))
        by (cbn; lia).
      apply (slice_app _ (b1 :: content)).
    + rewrite (proj2 (Z.ltb_lt _ _)) by lia. cbn [negb mem_bind].
      rewrite Z.add_0_r, Z.sub_0_r, <- app_assoc. exact Hsl.
  - cbn [mem_bind]. rewrite Z.add_0_r, Z.sub_0_r. etransitivity; [exact Hsl|].
    by destruct b0.
Qed.

(** ** Object identifiers *)

(** The continuation bytes of an arc [v], most significant group first. *)
Fixpoint arc_high (fuel : nat) (v : Z) : list byte :=
  match fuel with
  | O => []
  | S fuel => if v =? 0 then [] else arc_high fuel (v / 128) ++ [byte_of (v mod 128 + 128)]
  end.

(** X.690 section 8.19.2; ten groups hold any 64-bit arc. *)
Definition arc_bytes (v : Z) : list byte := arc_high 10 (v / 128) ++ [byte_of (v mod 128)].

(** The content of an identifier whose first two arcs share one byte. *)
Definition oid_content (a b : Z) (arcs : list Z) : list byte :=
  byte_of (40 * a + b) :: mjoin (arc_bytes <$> arcs).

Definition dotted_from (s : string) (arcs : list Z) : string :=
  foldl (fun s v => s +:+ "." +:+ to_string v) s arcs.

Lemma oid_loop_high fuel v rest out mid :
  0 <= v < 128 ^ Z.of_nat fuel -> v < 2 ^ 57 ->
  exists mid', oid_loop (arc_high fuel v ++ rest) out 0 mid = oid_loop rest out v mid'.
Proof.
  intros Hv Hsmall. revert v rest mid Hv Hsmall.
  induction fuel as [|fuel IH]; intros v rest mid Hv Hsmall.
  - cbn in Hv. assert (v = 0) as -> by lia. by exists mid.
  - cbn [arc_high]. destruct (Z.eqb_spec v 0) as [->|Hne]; [by exists mid|].
    rewrite <- app_assoc. rewrite Nat2Z.inj_succ, Z.pow_succ_r in Hv by lia.
    destruct (IH (v / 128) ([byte_of (v mod 128 + 128)] ++ rest) mid) as [mid' ->].
    { split; [apply Z.div_pos; lia | apply Z.div_lt_upper_bound; lia]. }
    { apply Z.div_lt_upper_bound; lia. }
    exists true. cbn [app oid_loop].
    pose proof (Z.mod_pos_bound v 128 ltac:(lia)) as Hm.
    pose proof (Z.div_mod v 128 ltac:(lia)) as Hd.
    rewrite bval_high_bit, bval_low_bits, bval_byte_of_small by lia.
    rewrite (proj2 (Z.ltb_ge _ _)) by lia.
    replace ((v mod 128 + 128) mod 128) with (v mod 128)
      by (apply (Z.mod_unique_pos _ _ 1); lia).
    rewrite Z.shiftl_mul_pow2, u64_small by lia.
    rewrite Z.lor_comm, <- Z.shiftl_mul_pow2, lor_shiftl_add by lia.
    f_equal; lia.
Qed.

Lemma oid_loop_arc v rest out mid :
  0 <= v < 2 ^ 64 ->
  oid_loop (arc_bytes v ++ rest) out 0 mid = oid_loop rest (out +:+ "." +:+ to_string v) 0 false.
Proof.
  intros Hv. unfold arc_bytes. rewrite <- app_assoc.
  assert (0 <= v / 128 < 2 ^ 57) by (split; [apply Z.div_pos; lia | apply Z.div_lt_upper_bound; lia]).
  destruct (oid_loop_high 10 (v / 128) ([byte_of (v mod 128)] ++ rest) out mid) as [mid' ->];
    [lia|lia|].
  cbn [app oid_loop].
  pose proof (Z.mod_pos_bound v 128 ltac:(lia)) as Hm.
  pose proof (Z.div_mod v 128 ltac:(lia)) as Hd.
  rewrite bval_high_bit, bval_low_bits, bval_byte_of_small by lia.
  rewrite (proj2 (Z.ltb_lt _ _)) by lia.
  rewrite Z.mod_mod, Z.shiftl_mul_pow2, u64_small by lia.
  rewrite Z.lor_comm, <- Z.shiftl_mul_pow2, lor_shiftl_add by lia.
  do 3 f_equal. f_equal. f_equal. lia.
Qed.

Lemma oid_loop_arcs arcs out :
  Forall (fun v => 0 <= v < 2 ^ 64) arcs ->
  oid_loop (mjoin (arc_bytes <$> arcs)) out 0 false = dotted_from out arcs.
Proof.
  intros Ha. revert out. induction Ha as [|v arcs Hv Ha IH]; intros out; [done|].
  change (mjoin (arc_bytes <$> v :: arcs)) with (arc_bytes v ++ mjoin (arc_bytes <$> arcs)).
  rewrite oid_loop_arc by done. apply IH.
Qed.

(** The arcs X.660 allows in front, as far as one byte can hold them. *)
Definition first_arcs_ok (a b : Z) : Prop :=
  (0 <= a < 2 /\ 0 <= b < 40) \/ (a = 2 /\ 0 <= b < 48).

Lemma first_arcs_decode a b :
  first_arcs_ok a b ->
  (if 2 <? bval (byte_of (40 * a + b)) / 40 then (2, bval (byte_of (40 * a + b)) - 80)
   else (bval (byte_of (40 * a + b)) / 40, bval (byte_of (40 * a + b)) mod 40)) = (a, b).
Proof.
  unfold first_arcs_ok. intros H. rewrite bval_byte_of_small by lia.
  pose proof (Z.div_mod (40 * a + b) 40 ltac:(lia)).
  pose proof (Z.mod_pos_bound (40 * a + b) 40 ltac:(lia)).
  destruct (Z.ltb_spec 2 ((40 * a + b) / 40)); f_equal; lia.
Qed.

Lemma oid_to_string_tlv pre a b arcs post :
  first_arcs_ok a b -> Forall (fun v => 0 <= v < 2 ^ 64) arcs ->
  oid_to_string (Some (pre ++ der_tlv x06 (oid_content a b arcs) ++ post))
    (tlv_element x06 (Z.of_nat (length pre)) (oid_content a b arcs)) =
  Val (dotted_from (to_string a +:+ "." +:+ to_string b) arcs).
Proof.
  intros Hab Harcs. unfold oid_to_string.
  set (content := oid_content a b arcs).
  set (e := tlv_element x06 (Z.of_nat (length pre)) content).
  change (is_universal e OBJECT_IDENTIFIER) with true. cbn [null orb negb].
  change (content_length e) with (Z.of_nat (length content)).
  rewrite (proj2 (Z.eqb_neq _ _)) by (cbn; lia).
  set (P := pre ++ x06 :: der_length (Z.of_nat (length content))).
  set (rest := mjoin (arc_bytes <$> arcs)).
  assert (Hpost : pre ++ der_tlv x06 content ++ post = P ++ byte_of (40 * a + b) :: rest ++ post).
  { unfold P, der_tlv. rewrite <- !app_assoc. cbn. by rewrite <- app_assoc. }
  assert (Ho : content_offset e = Z.of_nat (length P)).
  { unfold e, P. cbn [tlv_element content_offset]. rewrite length_app. cbn [length]. lia. }
  rewrite Hpost, Ho, rd_app. cbn [mem_bind]. rewrite first_arcs_decode by done.
  replace (P ++ byte_of (40 * a + b) :: rest ++ post)
    with ((P ++ [byte_of (40 * a + b)]) ++ rest ++ post) by (by rewrite <- app_assoc).
  replace (Z.of_nat (length P) + 1) with (Z.of_nat (length (P ++ [byte_of (40 * a + b)])))
    by (rewrite length_app; cbn; lia).
  replace (Z.of_nat (length content) - 1) with (Z.of_nat (length rest))
    by (unfold content, oid_content; fold rest; cbn [length]; lia).
  rewrite slice_app. cbn [mem_bind]. f_equal. by apply oid_loop_arcs.
Qed.

(** ** The interface the certificate parsers use

    An element that lies in the buffer can be read by every function above, and
    its children lie in the buffer again. *)
Definition in_buf (d : list byte) (e : Element) : Prop :=
  0 <= content_length e /\ 0 <= content_offset e /\
  content_offset e + content_length e <= Z.of_nat (length d) /\
  0 < total_length e - content_length e <= content_offset e.

Lemma elt_in_buf d offset size e :
  0 <= offset -> size <= Z.of_nat (length d) -> elt_in offset size e -> in_buf d e.
Proof. unfold elt_in, in_buf. lia. Qed.

Lemma parse_element_buf d size offset :
  0 <= offset -> size <= Z.of_nat (length d) ->
  safe_opt (parse_element (Some d) size offset) (in_buf d).
Proof.
  intros Ho Hs. eapply safe_opt_mono; [by apply parse_element_safe|].
  intros e. by apply elt_in_buf.
Qed.

Lemma children_region_buf d offset length_ :
  0 <= offset -> offset + length_ <= Z.of_nat (length d) ->
  safe (parse_sequence_children (Some d) offset length_) (Forall (in_buf d)).
Proof.
  intros Ho He. eapply safe_mono; [by apply children_safe|].
  intros l Hl. eapply Forall_impl; [apply Hl|]. intros e (pos & Hpos & Hin).
  eapply elt_in_buf; [|exact He|exact Hin]. lia.
Qed.

Lemma children_buf d e :
  in_buf d e ->
  safe (parse_sequence_children (Some d) (content_offset e) (content_length e)) (Forall (in_buf d)).
Proof. intros (H1 & H2 & H3 & H4). by apply children_region_buf. Qed.

Lemma content_buf d e :
  in_buf d e -> safe (slice (Some d) (content_offset e) (content_length e)) (fun l => infix_of l d).
Proof.
  intros (H1 & H2 & H3 & H4). eapply safe_mono; [by apply slice_safe|].
  intros l [-> _]. apply infix_take_drop.
Qed.

Lemma raw_bytes_buf d e :
  in_buf d e -> safe (raw_bytes (Some d) e) (fun l => l <> [] /\ infix_of l d).
Proof.
  intros (H1 & H2 & H3 & H4). unfold raw_bytes. cbn [null orb].
  rewrite !(proj2 (Z.ltb_ge _ _)) by lia.
  eapply safe_mono; [apply slice_safe; lia|]. intros l [-> Hl]. split; [|apply infix_take_drop].
  intros E. rewrite E in Hl. cbn in Hl. lia.
Qed.

Lemma read_unsigned_integer_buf d e :
  in_buf d e -> safe (read_unsigned_integer (Some d) e) (fun _ => True).
Proof.
  intros (H1 & H2 & H3 & H4). unfold read_unsigned_integer. cbn [null orb]. safe_auto; try done.
  eapply (safe_bind _ _ (fun start => 0 <= start <= 1 /\ start <= content_length e)).
  - safe_auto; [|cbn; lia]. case_match; cbn; lia.
  - intros start Hs. eapply safe_mono; [apply slice_safe; lia|done].
Qed.

Lemma oid_to_string_buf d e : in_buf d e -> safe (oid_to_string (Some d) e) (fun _ => True).
Proof.
  intros (H1 & H2 & H3 & H4). unfold oid_to_string. cbn [null orb]. safe_auto; try done.
  destruct (if 2 <? _ then _ else _) as [x y].
  eapply safe_bind; [apply slice_safe; lia|]. done.
Qed.

#[export] Hint Resolve parse_element_buf children_buf children_region_buf content_buf raw_bytes_buf
  read_unsigned_integer_buf oid_to_string_buf : gcad_safe.

(** An element of a buffer that is the encoding of [content] under [tag]: the
    reading functions give the content back, and the children of an encoded run
    are encodings in turn. *)
Definition encodes (d : list byte) (e : Element) (tag : byte) (content : list byte) : Prop :=
  exists pre post, d = pre ++ der_tlv tag content ++ post /\
    e = tlv_element tag (Z.of_nat (length pre)) content.

Section encodes.
Context (d : list byte) (e : Element).

Lemma encodes_raw tag content :
  encodes d e tag content -> raw_bytes (Some d) e = Val (der_tlv tag content).
Proof. intros (pre & post & -> & ->). apply tlv_raw_bytes. Qed.

Lemma encodes_content tag content :
  encodes d e tag content -> slice (Some d) (content_offset e) (content_length e) = Val content.
Proof. intros (pre & post & -> & ->). apply tlv_content. Qed.

Lemma encodes_length tag content :
  encodes d e tag content -> content_length e = Z.of_nat (length content).
Proof. by intros (pre & post & -> & ->). Qed.

Lemma encodes_universal tag content t :
  encodes d e tag content ->
  is_universal e t = (bval tag >>> 6 =? 0) && (bval tag mod 32 =? tag_value t).
Proof.
  intros (pre & post & -> & ->). unfold is_universal. cbn [tlv_element tag_class tag_number].
  f_equal; [|f_equal; apply (land_ones_mod _ 5); lia]. by destruct tag.
Qed.

Lemma encodes_is tag content t :
  encodes d e tag content -> (bval tag >>> 6 =? 0) && (bval tag mod 32 =? tag_value t) = true ->
  is_universal e t = true.
Proof. intros He Ht. by rewrite (encodes_universal _ _ _ He). Qed.

Lemma encodes_children tag l :
  encodes d e tag (tlvs l) -> Forall tlv_ok l ->
  exists es, parse_sequence_children (Some d) (content_offset e) (content_length e) = Val es /\
    Forall2 (fun e' tc => encodes d e' tc.1 tc.2) es l.
Proof.
  intros (pre & post & -> & ->) Hl. unfold der_tlv.
  set (P := pre ++ tag :: der_length (Z.of_nat (length (tlvs l)))).
  replace (pre ++ (tag :: der_length (Z.of_nat (length (tlvs l))) ++ tlvs l) ++ post)
    with (P ++ tlvs l ++ post) by (unfold P; by rewrite <- !app_assoc; cbn; rewrite <- app_assoc).
  exists (tlv_elements (Z.of_nat (length P)) l). cbn [tlv_element content_offset content_length].
  replace (Z.of_nat (length pre) + 1 + Z.of_nat (length (der_length (Z.of_nat (length (tlvs l))))))
    with (Z.of_nat (length P)) by (unfold P; rewrite length_app; cbn; lia).
  split; [by apply children_of_tlvs|]. clearbody P. clear Hl.
  revert P. induction l as [|[t c] l IH]; intros P; [constructor|].
  rewrite tlvs_cons. cbn [tlv_elements fst snd]. rewrite <- (app_assoc (der_tlv t c)). constructor.
  - exists P, (tlvs l ++ post). done.
  - specialize (IH (P ++ der_tlv t c)). rewrite <- !app_assoc, length_app, Nat2Z.inj_add in IH.
    apply IH.
Qed.

Lemma encodes_oid a b arcs :
  encodes d e x06 (oid_content a b arcs) -> first_arcs_ok a b ->
  Forall (fun v => 0 <= v < 2 ^ 64) arcs ->
  oid_to_string (Some d) e = Val (dotted_from (to_string a +:+ "." +:+ to_string b) arcs).
Proof. intros (pre & post & -> & ->). apply oid_to_string_tlv. Qed.

(** The unsigned content of an encoded INTEGER. *)
Definition unsigned_content (content : list byte) : list byte :=
  if non_negative content then
    match content with
    | x00 :: (b :: _) as rest => if 128 <=? bval b then tail content else content
    | _ => content
    end
  else [].

Lemma encodes_integer content :
  encodes d e x02 content -> read_unsigned_integer (Some d) e = Val (unsigned_content content).
Proof. intros (pre & post & -> & ->). apply read_unsigned_integer_tlv. Qed.
End encodes.

(** Passes a tag test on an element that encodes the expected tag. *)
Ltac expect H t :=
  rewrite ?(encodes_is _ _ _ _ t H eq_refl); cbn [negb andb orb opt_bind mem_bind]; cbv iota.

Lemma encodes_whole tag content :
  (bval tag .& 0x1F) <> 0x1F -> Z.of_nat (length content) < 2 ^ 64 ->
  exists e, parse_element (Some (der_tlv tag content)) (Z.of_nat (length (der_tlv tag content))) 0 =
    Val (Some e) /\ encodes (der_tlv tag content) e tag content.
Proof.
  intros Ht Hc. exists (tlv_element tag 0 content). split.
  - pose proof (parse_element_tlv [] tag content [] (Z.of_nat (length (der_tlv tag content))) Ht Hc) as H.
    rewrite app_nil_r in H. by apply H.
  - exists [], []. by rewrite app_nil_r.
Qed.

Lemma encodes_split d e tag content :
  encodes d e tag content ->
  exists P post, d = P ++ content ++ post /\ content_offset e = Z.of_nat (length P) /\
    content_length e = Z.of_nat (length content).
Proof.
  intros (pre & post & -> & ->).
  exists (pre ++ tag :: der_length (Z.of_nat (length content))), post.
  unfold der_tlv. rewrite <- !app_assoc. cbn [tlv_element content_offset content_length app].
  rewrite <- !app_assoc, length_app. cbn [length]. split_and!; [done|lia|done].
Qed.

Lemma encodes_context d e tag content :
  encodes d e tag content ->
  tag_class e = tag_class_of (bval tag >>> 6) /\ tag_number e = bval tag mod 32.
Proof. intros (pre & post & -> & ->). cbn. by destruct tag. Qed.

(** The size side condition of a run follows from the size of the buffer. *)
Definition low_tag (tag : byte) : Prop := (bval tag .& 0x1F) <> 0x1F.

Lemma tlvs_sizes l :
  Forall (fun tc => low_tag tc.1) l -> Z.of_nat (length (tlvs l)) < 2 ^ 64 -> Forall tlv_ok l.
Proof.
  induction 1 as [|[t c] l Ht Hl IH]; [constructor|].
  rewrite tlvs_cons, length_app, der_tlv_length. cbn [fst snd]. intros Hs.
  constructor; [split; [done|cbn; lia]|]. apply IH. lia.
Qed.

Lemma encodes_size d e tag content :
  encodes d e tag content -> (length content < length d)%nat.
Proof.
  intros (pre & post & -> & _). rewrite !length_app, der_tlv_length. lia.
Qed.

(** [encodes_children] with its conditions discharged from the buffer's size. *)
Lemma encodes_enter d e tag l :
  encodes d e tag (tlvs l) -> Z.of_nat (length d) < 2 ^ 64 -> Forall (fun tc => low_tag tc.1) l ->
  exists es, parse_sequence_children (Some d) (content_offset e) (content_length e) = Val es /\
    Forall2 (fun e' tc => encodes d e' tc.1 tc.2) es l.
Proof.
  intros He Hd Hl. apply (encodes_children _ _ tag); [done|].
  apply tlvs_sizes; [done|]. pose proof (encodes_size _ _ _ _ He). lia.
Qed.

(** ** Properties *)

(** [parse_element] is memory safe and fails closed: for every buffer, every
    window inside it and every offset it reads inside the buffer only; an element
    it returns lies wholly inside the window, and every narrower window that cuts
    the element short is refused. *)
Theorem parse_element_safe_and_fails_closed (d : list byte) (size offset : Z) :
  size <= Z.of_nat (length d) -> 0 <= offset ->
  parse_element None size offset = Val None /\
  exists r, parse_element (Some d) size offset = Val r /\
    forall e, r = Some e ->
      offset + 2 <= content_offset e /\ 0 <= content_length e /\
      content_offset e + content_length e <= size /\
      total_length e = content_offset e + content_length e - offset /\
      forall size', size' < offset + total_length e ->
        parse_element (Some d) size' offset = Val None.
Proof.
  intros Hs Ho. split; [done|].
  destruct (safe_inv _ _ (parse_element_safe d size Hs offset Ho)) as (r & Hr & Hin).
  exists r. split; [done|]. intros e ->. destruct (Hin e eq_refl) as (H1 & H2 & H3 & H4).
  split_and!; [done..|]. intros size' Hlt. by eapply parse_element_truncated.
Qed.

Lemma parse_element_safe_and_fails_closed_witness :
  parse_element (Some [x04; x02; xaa]) 3 0 = Val None /\
  exists r, parse_element (Some [x04; x01; xaa; xbb]) 4 0 = Val r.
Proof.
  split; [reflexivity|].
  destruct (parse_element_safe_and_fails_closed [x04; x01; xaa; xbb] 4 0) as (_ & r & Hr & _);
    [cbn; lia | lia | exists r; exact Hr].
Defined.

(** [parse_sequence_children] terminates on every buffer without reading
    outside it, and returns exactly the maximal run of elements that parse one
    after the other from the start of the region: it stops at the end of the
    region or at the first malformed element, and every element it returns lies
    inside the region. *)
Theorem parse_sequence_children_walk (d : list byte) (offset len : Z) :
  0 <= offset -> offset + len <= Z.of_nat (length d) ->
  exists l, parse_sequence_children (Some d) offset len = Val l /\
    siblings (Some d) (offset + len) offset l /\
    (forall l', siblings (Some d) (offset + len) offset l' -> l' = l) /\
    Forall (elt_within offset (offset + len)) l.
Proof.
  intros Ho He. destruct (children_spec d offset len Ho He) as (l & Hl & Hs).
  exists l. split_and!; [done..| |by eapply siblings_within].
  intros l' Hl'. by eapply siblings_fun.
Qed.

Lemma parse_sequence_children_walk_witness :
  exists l, parse_sequence_children (Some [x02; x01; x05; x04; x00; x30; x7f]) 0 7 = Val l.
Proof.
  destruct (parse_sequence_children_walk [x02; x01; x05; x04; x00; x30; x7f] 0 7) as (l & Hl & _);
    [lia | cbn; lia | exists l; exact Hl].
Defined.

(** DER round trip: the reader applied to a run of encoded elements, anywhere
    inside a larger buffer, returns one element per encoded one, with its tag class,
    form and number, whose complete encoding and whose content are the encoded
    bytes. *)
Theorem der_roundtrip (pre : list byte) (l : list (byte * list byte)) (post : list byte) :
  Forall (fun tc => Z.land (bval tc.1) 0x1F <> 0x1F /\ Z.of_nat (length tc.2) < 2 ^ 64) l ->
  let data := Some (pre ++ mjoin ((fun tc => der_tlv tc.1 tc.2) <$> l) ++ post) in
  exists es,
    parse_sequence_children data (Z.of_nat (length pre))
      (Z.of_nat (length (mjoin ((fun tc => der_tlv tc.1 tc.2) <$> l)))) = Val es /\
    Forall2 (fun e tc =>
      tag_class e = tag_class_of (Z.shiftr (bval tc.1) 6) /\
      constructed e = Z.testbit (bval tc.1) 5 /\ tag_number e = bval tc.1 mod 32 /\
      raw_bytes data e = Val (der_tlv tc.1 tc.2) /\
      slice data (content_offset e) (content_length e) = Val tc.2) es l.
Proof.
  intros Hl data. exists (tlv_elements (Z.of_nat (length pre)) l). split.
  - exact (children_of_tlvs pre l post Hl).
  - pose proof (tlv_elements_give_back pre l post) as Hb.
    change (Some (pre ++ tlvs l ++ post)) with data in Hb. clear Hl.
    clearbody data. revert Hb. generalize (Z.of_nat (length pre)).
    induction l as [|[t c] l IH]; intros o Hb; [constructor|].
    cbn [tlv_elements] in *. inversion Hb; subst. constructor; [|eapply IH; eassumption].
    match goal with H : gives_back _ _ _ |- _ => destruct H as [Hr Hc] end.
    split_and!; [| | |done..]; cbn; by destruct t.
Qed.

Lemma der_roundtrip_witness :
  exists es, parse_sequence_children (Some [xff; x02; x01; x05; x30; x00; xee]) 1 5 = Val es.
Proof.
  destruct (der_roundtrip [xff] [(x02, [x05]); (x30, [])] [xee]) as (es & H & _).
  - repeat constructor; cbn; discriminate.
  - exists es. exact H.
Defined.

(** the values read from encoded integers and object identifiers: an INTEGER
    whose sign bit is clear yields bytes of the same big-endian value and a
    negative one yields none; an OBJECT IDENTIFIER yields the dotted decimal form
    of its arcs, when the first two fit one byte and the others 64 bits. *)
Theorem asn1_values_decoded (pre content post : list byte) (a b : Z) (arcs : list Z) :
  (exists bytes,
     read_unsigned_integer (Some (pre ++ der_tlv x02 content ++ post))
       (tlv_element x02 (Z.of_nat (length pre)) content) = Val bytes /\
     if non_negative content then be_val bytes = be_val content /\ bytes <> [] else bytes = []) /\
  ((0 <= a < 2 /\ 0 <= b < 40) \/ (a = 2 /\ 0 <= b < 48) ->
   Forall (fun v => 0 <= v < 2 ^ 64) arcs ->
   oid_to_string (Some (pre ++ der_tlv x06 (oid_content a b arcs) ++ post))
     (tlv_element x06 (Z.of_nat (length pre)) (oid_content a b arcs)) =
   Val (foldl (fun s v => s +:+ "." +:+ to_string v) (to_string a +:+ "." +:+ to_string b) arcs)).
Proof.
  split.
  - rewrite read_unsigned_integer_tlv. eexists. split; [reflexivity|].
    destruct (non_negative content) eqn:Hn; [|done].
    destruct content as [|b0 [|b1 content]]; [done|by destruct b0|].
    destruct b0; try done. case_match; [|done]. split; [|done].
    cbn [tail]. rewrite (be_val_cons x00). cbn. lia.
  - intros. by apply oid_to_string_tlv.
Qed.

Lemma asn1_values_decoded_witness :
  oid_to_string (Some (x06 :: x09 :: [x2a; x86; x48; x86; xf7; x0d; x01; x01; x0b]))
    (tlv_element x06 0 (oid_content 1 2 [840; 113549; 1; 1; 11])) = Val "1.2.840.113549.1.1.11"%string.
Proof.
  apply (asn1_values_decoded [] [] [] 1 2 [840; 113549; 1; 1; 11]).
  - left. lia.
  - repeat (constructor; [lia|]). constructor.
Defined.

(** encodings the decoders do not tell apart: an identifier octet in the
    high-tag-number form whose number is 16, or 16 modulo 2^32, is read as a
    universal SEQUENCE; arcs wrap modulo 2^64, so the arcs 5 and 2^64 + 5 print
    alike; and an identifier whose first two arcs do not fit one byte is misread
    (2.999 prints as 2.56.55). *)
Theorem asn1_aliases :
  parse_element (Some [x1f; x10; x00]) 3 0 = Val (Some (El UNIVERSAL false 16 3 0 3)) /\
  parse_element (Some [x1f; x90; x80; x80; x80; x10; x00]) 7 0 =
    Val (Some (El UNIVERSAL false 16 7 0 7)) /\
  oid_to_string (Some [x06; x02; x88; x37]) (tlv_element x06 0 [x88; x37]) = Val "2.56.55"%string /\
  oid_to_string (Some (der_tlv x06 [x2a; x82; x80; x80; x80; x80; x80; x80; x80; x80; x05]))
      (tlv_element x06 0 [x2a; x82; x80; x80; x80; x80; x80; x80; x80; x80; x05]) = Val "1.2.5"%string /\
  oid_to_string (Some (der_tlv x06 [x2a; x05])) (tlv_element x06 0 [x2a; x05]) = Val "1.2.5"%string.
Proof.
  split_and!; vm_compute; reflexivity.
Qed.
