(* ===== verification/X509.v ===== *)
(** * X509: the certificate parser

    Models src/src/security/x509.cpp and x509.hpp on top of the DER reader.  A
    pointer into the buffer together with a length (the BIT STRING payload) is
    the byte string it delimits, so a read past that length counts as out of
    bounds.  [std::string] values are byte strings. *)
From S2P Require Import Prelude Sha2 Asn1.

#[local] Open Scope word_scope.
#[local] Open Scope mem_scope.

(** ** Data *)

Record RsaPublicKey := RsaKey { modulus : list byte; exponent : list byte }.

Record X509Certificate := Cert {
  raw : list byte;
  tbs_certificate : list byte;
  serial_number : list byte;
  issuer_der : list byte;
  subject_der : list byte;
  issuer_common_name : string;
  subject_common_name : string;
  not_before : string;
  not_after : string;
  public_key_algorithm_oid : string;
  rsa_public_key : option RsaPublicKey;
  signature_algorithm_oid : string;
  signature_value : list byte;
  sha256_thumbprint : string;
}.

#[export] Instance RsaPublicKey_eq_decision : EqDecision RsaPublicKey.
Proof. solve_decision. Defined.
#[export] Instance X509Certificate_eq_decision : EqDecision X509Certificate.
Proof. solve_decision. Defined.

Definition kRsaEncryptionOid : string := "1.2.840.113549.1.1.1".
Definition kCommonNameOid : string := "2.5.4.3".

(** The bytes of a [std::string]. *)
Definition str (l : list byte) : string := String.string_of_list_byte l.

(** ** Helpers *)

(** The UTF-8 encoding of one 16-bit unit. *)
Definition bmp_char (cp : Z) : list byte :=
  if cp <=? 0x7F then [byte_of cp]
  else if cp <=? 0x7FF then
    [byte_of (0xC0 .| (cp >>> 6)); byte_of (0x80 .| (cp .& 0x3F))]
  else
    [byte_of (0xE0 .| (cp >>> 12)); byte_of (0x80 .| ((cp >>> 6) .& 0x3F));
     byte_of (0x80 .| (cp .& 0x3F))].

Fixpoint bmp_string_to_utf8 (data : list byte) : list byte :=
  match data with
  | hi :: lo :: rest => bmp_char ((bval hi <<< 8) .| bval lo) ++ bmp_string_to_utf8 rest
  | _ => []
  end.

(** The attribute loop of one relative name: [Some s] when it returns. *)
Fixpoint common_name_in (data : ptr) (atvs : list Element) : mem (option string) :=
  match atvs with
  | [] => Val None
  | atv :: atvs =>
      if negb (is_universal atv SEQUENCE) then common_name_in data atvs
      else
        let* fields := parse_sequence_children data (content_offset atv) (content_length atv) in
        match fields with
        | [type; value] =>
            if negb (is_universal type OBJECT_IDENTIFIER) then common_name_in data atvs
            else
              let* oid := oid_to_string data type in
              if negb (String.eqb oid kCommonNameOid) then common_name_in data atvs
              else
                let* content := slice data (content_offset value) (content_length value) in
                Val (Some (str (if is_universal value BMP_STRING
                                then bmp_string_to_utf8 content else content)))
        | _ => common_name_in data atvs
        end
  end.

Fixpoint common_name_of (data : ptr) (rdns : list Element) : mem string :=
  match rdns with
  | [] => Val EmptyString
  | rdn :: rdns =>
      if negb (is_universal rdn SET) then common_name_of data rdns
      else
        let* atvs := parse_sequence_children data (content_offset rdn) (content_length rdn) in
        let* found := common_name_in data atvs in
        match found with
        | Some s => Val s
        | None => common_name_of data rdns
        end
  end.

Definition extract_common_name (data : ptr) (name_seq : Element) : mem string :=
  let* rdns := parse_sequence_children data (content_offset name_seq) (content_length name_seq) in
  common_name_of data rdns.

Definition extract_time_string (data : ptr) (time_el : Element) : mem string :=
  if negb (is_universal time_el UTC_TIME) && negb (is_universal time_el GENERALIZED_TIME)
  then Val EmptyString
  else
    let* content := slice data (content_offset time_el) (content_length time_el) in
    Val (str content).

Definition read_byte_aligned_bit_string (data : ptr) (el : Element) : mem (option (list byte)) :=
  if negb (is_universal el BIT_STRING) || (content_length el =? 0) then Val None
  else
    let* unused := rd data (content_offset el) in
    if negb (bval unused =? 0) then Val None
    else
      let* out := slice data (content_offset el + 1) (content_length el - 1) in
      Val (Some out).

(** [idx >= fields.size() || !fields[idx].is_universal(t)] returns early. *)
Definition field (fields : list Element) (idx : nat) (t : UniversalTag) : mem (option Element) :=
  match fields !! idx with
  | Some e => if is_universal e t then Val (Some e) else Val None
  | None => Val None
  end.

(** The test of an optional context-specific field at [idx]. *)
Definition has_context_tag (fields : list Element) (idx : nat) (n : Z) : bool :=
  match fields !! idx with
  | Some e => bool_decide (tag_class e = CONTEXT_SPECIFIC) && (tag_number e =? n)
  | None => false
  end.

(** The identifier of an AlgorithmIdentifier: its first child, printed, when it is
    an object identifier and prints. *)
Definition algorithm_oid (data : ptr) (e : Element) : mem (option string) :=
  let* alg := parse_sequence_children data (content_offset e) (content_length e) in
  let? first := field alg 0 OBJECT_IDENTIFIER in
  let* oid := oid_to_string data first in
  if String.eqb oid EmptyString then Val None else Val (Some oid).

(** The RSA key of a subject public key, absent unless it has the expected shape. *)
Definition read_rsa_key (key : list byte) : mem (option RsaPublicKey) :=
  let data := Some key in
  let? rsa_seq := parse_element data (Z.of_nat (length key)) 0 in
  if negb (is_universal rsa_seq SEQUENCE) then Val None
  else
    let* rsa_fields := parse_sequence_children data (content_offset rsa_seq) (content_length rsa_seq) in
    match rsa_fields with
    | [f0; f1] =>
        if is_universal f0 INTEGER && is_universal f1 INTEGER then
          let* n := read_unsigned_integer data f0 in
          let* e := read_unsigned_integer data f1 in
          if bool_decide (n <> []) && bool_decide (e <> []) then Val (Some (RsaKey n e)) else Val None
        else Val None
    | _ => Val None
    end.

(** ** The parser *)

(** The validity dates. *)
Definition read_validity (data : ptr) (e : Element) : mem (option (string * string)) :=
  let* validity := parse_sequence_children data (content_offset e) (content_length e) in
  match validity with
  | [v0; v1] =>
      let* nb := extract_time_string data v0 in
      let* na := extract_time_string data v1 in
      if String.eqb nb EmptyString || String.eqb na EmptyString then Val None
      else Val (Some (nb, na))
  | _ => Val None
  end.

(** The algorithm and, for RSA, the key of the subject public key info. *)
Definition read_spki (data : ptr) (e : Element) : mem (option (string * option RsaPublicKey)) :=
  let* spki := parse_sequence_children data (content_offset e) (content_length e) in
  match spki with
  | s0 :: s1 :: _ =>
      if negb (is_universal s0 SEQUENCE) then Val None
      else
        let? oid := algorithm_oid data s0 in
        let? key := read_byte_aligned_bit_string data s1 in
        if String.eqb oid kRsaEncryptionOid then
          let* k := read_rsa_key key in
          Val (Some (oid, k))
        else Val (Some (oid, None))
  | _ => Val None
  end.

Definition x509_parse (der : list byte) : mem (option X509Certificate) :=
  let data := Some der in
  let? cert_seq := parse_element data (Z.of_nat (length der)) 0 in
  if negb (is_universal cert_seq SEQUENCE) then Val None
  else
    let* top := parse_sequence_children data (content_offset cert_seq) (content_length cert_seq) in
    match top with
    | [tbs_el; sig_alg_el; sig_val_el] =>
        if negb (is_universal tbs_el SEQUENCE) then Val None
        else if negb (is_universal sig_alg_el SEQUENCE) then Val None
        else
          let* tbs := raw_bytes data tbs_el in
          let? sig_oid := algorithm_oid data sig_alg_el in
          let? sig := read_byte_aligned_bit_string data sig_val_el in
          let* tc := parse_sequence_children data (content_offset tbs_el) (content_length tbs_el) in
          let idx := if has_context_tag tc 0 0 then 1%nat else 0%nat in
          let? serial_el := field tc idx INTEGER in
          let* serial := read_unsigned_integer data serial_el in
          if bool_decide (serial = []) then Val None
          else
            let? _ := field tc (idx + 1) SEQUENCE in
            let? issuer_el := field tc (idx + 2) SEQUENCE in
            let* issuer := raw_bytes data issuer_el in
            let* issuer_cn := extract_common_name data issuer_el in
            let? validity_el := field tc (idx + 3) SEQUENCE in
            let? (nb, na) := read_validity data validity_el in
            let? subject_el := field tc (idx + 4) SEQUENCE in
            let* subject := raw_bytes data subject_el in
            let* subject_cn := extract_common_name data subject_el in
            let? spki_el := field tc (idx + 5) SEQUENCE in
            let? (pk_oid, key) := read_spki data spki_el in
            Val (Some {| raw := der; tbs_certificate := tbs; serial_number := serial;
                         issuer_der := issuer; subject_der := subject;
                         issuer_common_name := issuer_cn; subject_common_name := subject_cn;
                         not_before := nb; not_after := na;
                         public_key_algorithm_oid := pk_oid; rsa_public_key := key;
                         signature_algorithm_oid := sig_oid; signature_value := sig;
                         sha256_thumbprint := hash_bytes256 der |})
    | _ => Val None
    end.

(** ** Memory safety *)

Section x509_safe.
Context (d : list byte).

Lemma common_name_in_safe atvs :
  Forall (in_buf d) atvs -> safe (common_name_in (Some d) atvs) (fun _ => True).
Proof.
  induction 1 as [|atv atvs Hatv Hatvs IH]; cbn [common_name_in]; [done|].
  safe_auto; [done|]. destruct a as [|type [|value [|]]]; try done.
  forall_split.
  safe_auto; done.
Qed.

Lemma common_name_of_safe rdns :
  Forall (in_buf d) rdns -> safe (common_name_of (Some d) rdns) (fun _ => True).
Proof.
  induction 1 as [|rdn rdns Hrdn Hrdns IH]; cbn [common_name_of]; [done|].
  safe_auto; [done|]. eapply safe_bind; [by apply common_name_in_safe|]. by intros [s|] _.
Qed.

Lemma extract_common_name_safe e :
  in_buf d e -> safe (extract_common_name (Some d) e) (fun _ => True).
Proof. intros He. unfold extract_common_name. safe_step. by apply common_name_of_safe. Qed.

Lemma extract_time_string_safe e :
  in_buf d e -> safe (extract_time_string (Some d) e) (fun _ => True).
Proof. intros He. unfold extract_time_string. safe_auto; done. Qed.

Lemma bit_string_safe e :
  in_buf d e -> safe_opt (read_byte_aligned_bit_string (Some d) e) (fun l => infix_of l d).
Proof.
  intros (H1 & H2 & H3 & H4). unfold read_byte_aligned_bit_string.
  safe_if; [apply safe_opt_none|]. safe_auto.
  match goal with H : _ /\ _ |- _ => destruct H as [-> _] end. apply infix_take_drop.
Qed.

Lemma field_safe fields idx t : Forall (in_buf d) fields -> safe_opt (field fields idx t) (in_buf d).
Proof.
  intros Hf. unfold field. destruct (fields !! idx) as [e|] eqn:E; safe_auto.
  by eapply (Forall_lookup_1 _ _ _ _ Hf).
Qed.

#[local] Hint Resolve extract_common_name_safe extract_time_string_safe bit_string_safe field_safe
  : gcad_safe.

Lemma algorithm_oid_safe e :
  in_buf d e -> safe_opt (algorithm_oid (Some d) e) (fun s => s <> EmptyString).
Proof.
  intros He. unfold algorithm_oid. safe_auto. done.
Qed.

Lemma read_validity_safe e :
  in_buf d e ->
  safe_opt (read_validity (Some d) e) (fun r => r.1 <> EmptyString /\ r.2 <> EmptyString).
Proof.
  intros He. unfold read_validity. safe_step.
  destruct a as [|v0 [|v1 [|]]]; none_case.
  forall_split.
  safe_auto. done.
Qed.
End x509_safe.

#[export] Hint Resolve extract_common_name_safe extract_time_string_safe bit_string_safe field_safe
  algorithm_oid_safe read_validity_safe : gcad_safe.

(** A key the parser stores has a modulus and an exponent. *)
Definition key_ok (k : RsaPublicKey) : Prop := modulus k <> [] /\ exponent k <> [].

Lemma read_rsa_key_safe key : safe_opt (read_rsa_key key) key_ok.
Proof.
  unfold read_rsa_key. safe_auto. destruct a0 as [|f0 [|f1 [|]]]; none_case.
  forall_split.
  safe_auto. done.
Qed.

Lemma read_spki_safe d e :
  in_buf d e -> safe_opt (read_spki (Some d) e)
    (fun r => r.1 <> EmptyString /\ forall k, r.2 = Some k -> r.1 = kRsaEncryptionOid /\ key_ok k).
Proof.
  intros He. unfold read_spki. safe_step.
  destruct a as [|s0 [|s1 rest]]; none_case.
  forall_split.
  safe_auto.
  - eapply safe_opt_bind_mem; [apply read_rsa_key_safe|]. intros k Hk. safe_auto.
    split; [done|]. intros k' Hk'. split; [done|by apply Hk].
  - by split.
Qed.
#[export] Hint Resolve read_spki_safe : gcad_safe.

(** What the parser promises of a certificate it returns. *)
Record cert_ok (der : list byte) (c : X509Certificate) : Prop := {
  ok_raw : raw c = der;
  ok_thumbprint : sha256_thumbprint c = hash_bytes256 der;
  ok_tbs : tbs_certificate c <> [] /\ infix_of (tbs_certificate c) der;
  ok_issuer : issuer_der c <> [] /\ infix_of (issuer_der c) der;
  ok_subject : subject_der c <> [] /\ infix_of (subject_der c) der;
  ok_signature : infix_of (signature_value c) der;
  ok_serial : serial_number c <> [];
  ok_dates : not_before c <> EmptyString /\ not_after c <> EmptyString;
  ok_oids : signature_algorithm_oid c <> EmptyString /\ public_key_algorithm_oid c <> EmptyString;
  ok_key : forall k, rsa_public_key c = Some k ->
    public_key_algorithm_oid c = kRsaEncryptionOid /\ key_ok k;
}.

#[local] Opaque hash_bytes256.

Lemma x509_parse_safe der : safe_opt (x509_parse der) (cert_ok der).
Proof.
  unfold x509_parse. safe_auto. destruct a0 as [|e0 [|e1 [|e2 [|]]]]; none_case.
  forall_split.
  safe_auto. destruct a11 as [nb na]. safe_auto. destruct a15 as [pk_oid key]. safe_auto.
  cbn [fst snd] in *. destruct_and?. constructor; cbn; auto.
Qed.

(** ** The parser on encoded certificates *)

(** An attribute of a name: its type, and its value under a string tag. *)
Record attribute := Attr {
  attr_a : Z; attr_b : Z; attr_arcs : list Z; attr_tag : byte; attr_value : list byte }.

Definition attr_ok (x : attribute) : Prop :=
  first_arcs_ok (attr_a x) (attr_b x) /\ Forall (fun v => 0 <= v < 2 ^ 64) (attr_arcs x) /\
  low_tag (attr_tag x).

Definition attr_tlvs (x : attribute) : list (byte * list byte) :=
  [(x06, oid_content (attr_a x) (attr_b x) (attr_arcs x)); (attr_tag x, attr_value x)].

(** A name is a sequence of sets of attributes. *)
Definition name_content (rdns : list (list attribute)) : list byte :=
  tlvs ((fun rdn => (x31, tlvs ((fun x => (x30, tlvs (attr_tlvs x))) <$> rdn))) <$> rdns).

Definition attr_oid (x : attribute) : string :=
  dotted_from (to_string (attr_a x) +:+ "." +:+ to_string (attr_b x)) (attr_arcs x).

Definition attr_text (x : attribute) : string :=
  str (if (bval (attr_tag x) >>> 6 =? 0) && (bval (attr_tag x) mod 32 =? 30)
       then bmp_string_to_utf8 (attr_value x) else attr_value x).

(** The text of the first attribute whose type is the common name. *)
Fixpoint first_common_name (attrs : list attribute) : option string :=
  match attrs with
  | [] => None
  | x :: attrs =>
      if String.eqb (attr_oid x) kCommonNameOid then Some (attr_text x) else first_common_name attrs
  end.

Lemma first_common_name_app l k :
  first_common_name (l ++ k) =
  match first_common_name l with Some s => Some s | None => first_common_name k end.
Proof. induction l as [|x l IH]; [done|]. cbn [app first_common_name].
  by destruct (String.eqb _ _). Qed.

Section encoded_name.
Context (d : list byte) (Hd : Z.of_nat (length d) < 2 ^ 64).

Lemma common_name_in_encoded rdn es :
  Forall attr_ok rdn ->
  Forall2 (fun e' tc => encodes d e' tc.1 tc.2) es ((fun x => (x30, tlvs (attr_tlvs x))) <$> rdn) ->
  common_name_in (Some d) es = Val (first_common_name rdn).
Proof.
  intros Hok. revert es. induction Hok as [|x rdn (H1 & H2 & H3) Hok IH]; intros es Hes.
  - by inversion Hes.
  - inversion Hes as [|e ? es' ? He Hes' [Ee Et]]; subst. cbn [fst snd] in He.
    cbn [common_name_in first_common_name].
    expect He SEQUENCE.
    destruct (encodes_enter d e x30 (attr_tlvs x) He Hd) as (fs & -> & Hfs).
    { repeat constructor; [discriminate|apply H3]. }
    cbn [mem_bind]. unfold attr_tlvs in Hfs.
    inversion Hfs as [|f0 ? ? ? Hf0 Hfs']; subst. inversion Hfs' as [|f1 ? ? ? Hf1 Hfs'']; subst.
    inversion Hfs''; subst. cbn [fst snd] in *.
    expect Hf0 OBJECT_IDENTIFIER. rewrite (encodes_oid _ _ _ _ _ Hf0 H1 H2). cbn [mem_bind].
    fold (attr_oid x). destruct (String.eqb (attr_oid x) kCommonNameOid); cbn [negb].
    + rewrite (encodes_content _ _ _ _ Hf1). cbn [mem_bind].
      by rewrite (encodes_universal _ _ _ _ BMP_STRING Hf1).
    + by apply IH.
Qed.

Lemma extract_common_name_encoded e rdns :
  encodes d e x30 (name_content rdns) -> Forall (Forall attr_ok) rdns ->
  extract_common_name (Some d) e = Val (default EmptyString (first_common_name (mjoin rdns))).
Proof.
  intros He Hok. unfold extract_common_name.
  destruct (encodes_enter d e x30 _ He Hd) as (es & -> & Hes).
  { apply Forall_fmap, Forall_true. discriminate. }
  cbn [mem_bind]. clear He. revert es Hes.
  induction Hok as [|rdn rdns Hrdn Hok IH]; intros es Hes.
  - by inversion Hes.
  - inversion Hes as [|e' ? es' ? He Hes' [Ee Et]]; subst. cbn [fst snd] in He.
    cbn [common_name_of]. expect He SET.
    destruct (encodes_enter d e' x31 _ He Hd) as (as_ & -> & Has).
    { apply Forall_fmap, Forall_true. discriminate. }
    cbn [mem_bind]. rewrite (common_name_in_encoded rdn) by done. cbn [mem_bind].
    change (mjoin (rdn :: rdns)) with (rdn ++ mjoin rdns). rewrite first_common_name_app.
    destruct (first_common_name rdn); [done|]. by apply IH.
Qed.
End encoded_name.

Section encoded_fields.
Context (d : list byte) (Hd : Z.of_nat (length d) < 2 ^ 64).

Lemma field_encoded es l i tag content t :
  Forall2 (fun e' tc => encodes d e' tc.1 tc.2) es l ->
  l !! i = Some (tag, content) ->
  (bval tag >>> 6 =? 0) && (bval tag mod 32 =? tag_value t) = true ->
  exists e, field es i t = Val (Some e) /\ encodes d e tag content.
Proof.
  intros Hes Hi Ht. destruct (Forall2_lookup_r _ _ _ _ _ Hes Hi) as (e & He & Henc).
  exists e. split; [|done]. unfold field. rewrite He. cbn [fst snd] in Henc.
  by rewrite (encodes_universal _ _ _ _ t Henc), Ht.
Qed.

Lemma has_context_encoded es l i n :
  Forall2 (fun e' tc => encodes d e' tc.1 tc.2) es l ->
  has_context_tag es i n =
  match l !! i with Some tc => (bval tc.1 >>> 6 =? 2) && (bval tc.1 mod 32 =? n) | None => false end.
Proof.
  intros Hes. unfold has_context_tag. destruct (l !! i) as [[tag c]|] eqn:Hi.
  - destruct (Forall2_lookup_r _ _ _ _ _ Hes Hi) as (e & -> & Henc). cbn [fst snd] in *.
    destruct (encodes_context _ _ _ _ Henc) as [-> ->]. f_equal. by destruct tag.
  - rewrite lookup_ge_None in Hi. rewrite <- (Forall2_length _ _ _ Hes) in Hi.
    by rewrite (lookup_ge_None_2 _ _ Hi).
Qed.

Lemma algorithm_oid_encoded e a b arcs params :
  encodes d e x30 (tlvs ((x06, oid_content a b arcs) :: params)) ->
  Forall (fun tc => low_tag tc.1) params ->
  first_arcs_ok a b -> Forall (fun v => 0 <= v < 2 ^ 64) arcs ->
  dotted_from (to_string a +:+ "." +:+ to_string b) arcs <> EmptyString ->
  algorithm_oid (Some d) e = Val (Some (dotted_from (to_string a +:+ "." +:+ to_string b) arcs)).
Proof.
  intros He Hp Hab Harcs Hne. unfold algorithm_oid.
  destruct (encodes_enter d e x30 _ He Hd) as (es & -> & Hes); [constructor; [discriminate|done]|].
  cbn [mem_bind].
  destruct (field_encoded _ _ 0 x06 (oid_content a b arcs) OBJECT_IDENTIFIER Hes) as (f & -> & Hf);
    [done|done|].
  cbn [opt_bind mem_bind]. rewrite (encodes_oid _ _ _ _ _ Hf Hab Harcs). cbn [mem_bind].
  by rewrite (proj2 (String.eqb_neq _ _) Hne).
Qed.

Lemma bit_string_encoded e s :
  encodes d e x03 (x00 :: s) -> read_byte_aligned_bit_string (Some d) e = Val (Some s).
Proof using d.
  clear Hd. intros He. unfold read_byte_aligned_bit_string.
  expect He BIT_STRING.
  destruct (encodes_split _ _ _ _ He) as (P & post & -> & -> & ->).
  rewrite (proj2 (Z.eqb_neq _ _)) by (cbn; lia). cbn [orb app]. rewrite rd_app. cbn [mem_bind].
  change (negb (bval x00 =? 0)) with false. cbv iota.
  replace (P ++ x00 :: s ++ post) with ((P ++ [x00]) ++ s ++ post) by (by rewrite <- app_assoc).
  replace (Z.of_nat (length P) + 1) with (Z.of_nat (length (P ++ [x00])))
    by (rewrite length_app; cbn; lia).
  replace (Z.of_nat (length (x00 :: s)) - 1) with (Z.of_nat (length s)) by (cbn; lia).
  by rewrite slice_app.
Qed.

(** A date: a UTCTime or GeneralizedTime and its text. *)
Definition date_ok (tc : byte * list byte) : Prop := (tc.1 = x17 \/ tc.1 = x18) /\ tc.2 <> [].

Lemma time_encoded e tc :
  encodes d e tc.1 tc.2 -> date_ok tc -> extract_time_string (Some d) e = Val (str tc.2).
Proof.
  intros He [Ht _]. unfold extract_time_string.
  rewrite !(encodes_universal _ _ _ _ _ He), (encodes_content _ _ _ _ He).
  by destruct Ht as [-> | ->].
Qed.

Lemma str_nonempty l : l <> [] -> String.eqb (str l) EmptyString = false.
Proof. by destruct l. Qed.

Lemma validity_encoded e t0 t1 :
  encodes d e x30 (tlvs [t0; t1]) -> date_ok t0 -> date_ok t1 ->
  read_validity (Some d) e = Val (Some (str t0.2, str t1.2)).
Proof.
  intros He H0 H1. unfold read_validity.
  destruct (encodes_enter d e x30 _ He Hd) as (es & -> & Hes).
  { repeat constructor; [destruct H0 as [[-> | ->] _]|destruct H1 as [[-> | ->] _]]; discriminate. }
  inversion Hes as [|e0 ? ? ? Hv0 Hes']; subst. inversion Hes' as [|e1 ? ? ? Hv1 Hes'']; subst.
  inversion Hes''; subst. cbn [mem_bind].
  rewrite (time_encoded _ _ Hv0 H0), (time_encoded _ _ Hv1 H1). cbn [mem_bind].
  by rewrite !str_nonempty by (apply H0 || apply H1).
Qed.
End encoded_fields.

(** The PKCS#1 public key and the SubjectPublicKeyInfo around it. *)
Definition rsa_key_der (n e : list byte) : list byte := der_tlv x30 (tlvs [(x02, n); (x02, e)]).

Definition rsa_spki (params : list (byte * list byte)) (n e : list byte) : list (byte * list byte) :=
  [(x30, tlvs ((x06, oid_content 1 2 [840; 113549; 1; 1; 1]) :: params));
   (x03, x00 :: rsa_key_der n e)].

Lemma unsigned_content_nonempty c : non_negative c = true -> unsigned_content c <> [].
Proof. unfold unsigned_content. intros H. rewrite H. destruct c as [|[] [|b c]]; try done.
  by destruct (128 <=? bval b). Qed.

Lemma rsa_key_encoded n e :
  Z.of_nat (length (rsa_key_der n e)) < 2 ^ 64 -> non_negative n = true -> non_negative e = true ->
  read_rsa_key (rsa_key_der n e) = Val (Some (RsaKey (unsigned_content n) (unsigned_content e))).
Proof.
  intros Hk Hn He. unfold read_rsa_key, rsa_key_der in *. pose proof Hk as Hk'. rewrite der_tlv_length in Hk'.
  destruct (encodes_whole x30 (tlvs [(x02, n); (x02, e)])) as (s & -> & Hs); [discriminate|lia|].
  cbn [opt_bind mem_bind]. expect Hs SEQUENCE.
  destruct (encodes_enter _ s x30 _ Hs Hk) as (es & -> & Hes); [repeat constructor; discriminate|].
  inversion Hes as [|e0 ? ? ? H0 Hes']; subst. inversion Hes' as [|e1 ? ? ? H1 Hes'']; subst.
  inversion Hes''; subst. cbn [mem_bind fst snd] in *.
  expect H0 INTEGER. expect H1 INTEGER.
  rewrite (encodes_integer _ _ _ H0), (encodes_integer _ _ _ H1). cbn [mem_bind].
  by rewrite !bool_decide_eq_true_2 by by apply unsigned_content_nonempty.
Qed.

Lemma spki_encoded d e params n ex :
  encodes d e x30 (tlvs (rsa_spki params n ex)) -> Z.of_nat (length d) < 2 ^ 64 ->
  Forall (fun tc => low_tag tc.1) params -> non_negative n = true -> non_negative ex = true ->
  read_spki (Some d) e =
  Val (Some (kRsaEncryptionOid, Some (RsaKey (unsigned_content n) (unsigned_content ex)))).
Proof.
  intros He Hd Hp Hn Hex. unfold read_spki.
  destruct (encodes_enter d e x30 _ He Hd) as (es & -> & Hes); [repeat constructor; discriminate|].
  unfold rsa_spki in Hes.
  inversion Hes as [|e0 ? ? ? H0 Hes']; subst. inversion Hes' as [|e1 ? ? ? H1 Hes'']; subst.
  inversion Hes''; subst. cbn [mem_bind fst snd] in *.
  expect H0 SEQUENCE.
  rewrite (algorithm_oid_encoded d Hd _ _ _ _ _ H0 Hp); [| |repeat (constructor; [lia|]); constructor|discriminate].
  2:{ left. lia. }
  cbn [opt_bind mem_bind]. rewrite (bit_string_encoded d e1 _ H1). cbn [opt_bind mem_bind].
  change (String.eqb _ kRsaEncryptionOid) with true. cbv iota.
  rewrite rsa_key_encoded; [done| |done..].
  pose proof (encodes_size _ _ _ _ H1). cbn [length] in *. lia.
Qed.

(** The parts of a certificate with an RSA key, as an issuer writes them. *)
Record cert_parts := Parts {
  p_version : option (list byte);
  p_serial : list byte;
  p_inner_alg : list byte;
  p_issuer : list (list attribute);
  p_before : byte * list byte;
  p_after : byte * list byte;
  p_subject : list (list attribute);
  p_key_params : list (byte * list byte);
  p_modulus : list byte;
  p_exponent : list byte;
  p_rest : list (byte * list byte);
  p_sig_a : Z; p_sig_b : Z; p_sig_arcs : list Z;
  p_sig_params : list (byte * list byte);
  p_signature : list byte;
}.

Definition tbs_fields (p : cert_parts) : list (byte * list byte) :=
  match p_version p with Some v => [(xa0, v)] | None => [] end ++
  [(x02, p_serial p); (x30, p_inner_alg p); (x30, name_content (p_issuer p));
   (x30, tlvs [p_before p; p_after p]); (x30, name_content (p_subject p));
   (x30, tlvs (rsa_spki (p_key_params p) (p_modulus p) (p_exponent p)))] ++ p_rest p.

Definition cert_fields (p : cert_parts) : list (byte * list byte) :=
  [(x30, tlvs (tbs_fields p));
   (x30, tlvs ((x06, oid_content (p_sig_a p) (p_sig_b p) (p_sig_arcs p)) :: p_sig_params p));
   (x03, x00 :: p_signature p)].

Definition cert_der (p : cert_parts) : list byte := der_tlv x30 (tlvs (cert_fields p)).

Definition sig_oid (p : cert_parts) : string :=
  dotted_from (to_string (p_sig_a p) +:+ "." +:+ to_string (p_sig_b p)) (p_sig_arcs p).

Record parts_ok (p : cert_parts) : Prop := {
  po_serial : non_negative (p_serial p) = true;
  po_issuer : Forall (Forall attr_ok) (p_issuer p);
  po_subject : Forall (Forall attr_ok) (p_subject p);
  po_before : date_ok (p_before p);
  po_after : date_ok (p_after p);
  po_params : Forall (fun tc => low_tag tc.1) (p_key_params p);
  po_modulus : non_negative (p_modulus p) = true;
  po_exponent : non_negative (p_exponent p) = true;
  po_rest : Forall (fun tc => low_tag tc.1) (p_rest p);
  po_sig : first_arcs_ok (p_sig_a p) (p_sig_b p) /\
    Forall (fun v => 0 <= v < 2 ^ 64) (p_sig_arcs p) /\ sig_oid p <> EmptyString;
  po_sig_params : Forall (fun tc => low_tag tc.1) (p_sig_params p);
  po_size : Z.of_nat (length (cert_der p)) < 2 ^ 64;
}.

(** The certificate the parser returns for these parts. *)
Definition parsed_cert (p : cert_parts) : X509Certificate := {|
  raw := cert_der p;
  tbs_certificate := der_tlv x30 (tlvs (tbs_fields p));
  serial_number := unsigned_content (p_serial p);
  issuer_der := der_tlv x30 (name_content (p_issuer p));
  subject_der := der_tlv x30 (name_content (p_subject p));
  issuer_common_name := default EmptyString (first_common_name (mjoin (p_issuer p)));
  subject_common_name := default EmptyString (first_common_name (mjoin (p_subject p)));
  not_before := str (p_before p).2;
  not_after := str (p_after p).2;
  public_key_algorithm_oid := kRsaEncryptionOid;
  rsa_public_key := Some (RsaKey (unsigned_content (p_modulus p)) (unsigned_content (p_exponent p)));
  signature_algorithm_oid := sig_oid p;
  signature_value := p_signature p;
  sha256_thumbprint := hash_bytes256 (cert_der p);
|}.

Lemma tbs_fields_lookup p i :
  tbs_fields p !! ((if p_version p is Some _ then 1 else 0) + i)%nat =
  ([(x02, p_serial p); (x30, p_inner_alg p); (x30, name_content (p_issuer p));
    (x30, tlvs [p_before p; p_after p]); (x30, name_content (p_subject p));
    (x30, tlvs (rsa_spki (p_key_params p) (p_modulus p) (p_exponent p)))] ++ p_rest p) !! i.
Proof. unfold tbs_fields. by destruct (p_version p). Qed.

Lemma tbs_fields_tags p : parts_ok p -> Forall (fun tc => low_tag tc.1) (tbs_fields p).
Proof.
  intros Hp. unfold tbs_fields. apply Forall_app.
  split; [destruct (p_version p); repeat constructor; discriminate|].
  apply Forall_app. split; [repeat constructor; discriminate | apply Hp].
Qed.

Lemma tbs_version p :
  match tbs_fields p !! 0%nat with
  | Some tc => (bval tc.1 >>> 6 =? 2) && (bval tc.1 mod 32 =? 0)
  | None => false
  end = bool_decide (is_Some (p_version p)).
Proof. unfold tbs_fields. by destruct (p_version p). Qed.

Lemma x509_parse_encoded p : parts_ok p -> x509_parse (cert_der p) = Val (Some (parsed_cert p)).
Proof.
  intros Hp. pose proof Hp as [Hser Hiss Hsub Hbef Haft Hpar Hmod Hexp Hrest (Hs1 & Hs2 & Hs3) Hsp Hsize].
  pose proof Hsize as Hsize'. unfold cert_der in Hsize'. rewrite der_tlv_length in Hsize'.
  unfold x509_parse. set (d := cert_der p) in *.
  destruct (encodes_whole x30 (tlvs (cert_fields p))) as (s & Hs & Henc); [discriminate|lia|].
  change (der_tlv x30 (tlvs (cert_fields p))) with d in Hs, Henc. rewrite Hs. cbn [opt_bind mem_bind].
  expect Henc SEQUENCE.
  destruct (encodes_enter d s x30 _ Henc Hsize) as (es & -> & Hes); [repeat constructor; discriminate|].
  unfold cert_fields in Hes.
  inversion Hes as [|e0 ? ? ? H0 Hes']; subst. inversion Hes' as [|e1 ? ? ? H1 Hes'']; subst.
  inversion Hes'' as [|e2 ? ? ? H2 Hes3]; subst. inversion Hes3; subst. clear Hes Hes' Hes'' Hes3.
  cbn [mem_bind fst snd] in *.
  expect H0 SEQUENCE. expect H1 SEQUENCE.
  rewrite (encodes_raw _ _ _ _ H0). cbn [mem_bind].
  rewrite (algorithm_oid_encoded d Hsize _ _ _ _ _ H1 Hsp Hs1 Hs2 Hs3). cbn [opt_bind mem_bind].
  rewrite (bit_string_encoded d e2 _ H2). cbn [opt_bind mem_bind].
  destruct (encodes_enter d e0 x30 _ H0 Hsize (tbs_fields_tags p Hp)) as (tc & -> & Htc).
  cbn [mem_bind]. cbv zeta.
  rewrite (has_context_encoded d _ _ 0 0 Htc), tbs_version.
  replace (if bool_decide (is_Some (p_version p)) then 1%nat else 0%nat)
    with (if p_version p is Some _ then 1%nat else 0%nat) by (by destruct (p_version p)).
  assert (Hf : forall i tag c t,
    ([(x02, p_serial p); (x30, p_inner_alg p); (x30, name_content (p_issuer p));
      (x30, tlvs [p_before p; p_after p]); (x30, name_content (p_subject p));
      (x30, tlvs (rsa_spki (p_key_params p) (p_modulus p) (p_exponent p)))] ++ p_rest p) !! i = Some (tag, c) ->
    (bval tag >>> 6 =? 0) && (bval tag mod 32 =? tag_value t) = true ->
    exists e, field tc ((if p_version p is Some _ then 1 else 0) + i) t = Val (Some e) /\ encodes d e tag c).
  { intros i tag c t Hi Ht. eapply field_encoded; [exact Htc| |exact Ht]. by rewrite tbs_fields_lookup. }
  destruct (Hf 0%nat _ _ INTEGER eq_refl eq_refl) as (f0 & E0 & F0). rewrite Nat.add_0_r in E0. rewrite E0.
  cbn [opt_bind mem_bind]. rewrite (encodes_integer _ _ _ F0). cbn [mem_bind].
  rewrite bool_decide_eq_false_2 by (by apply unsigned_content_nonempty).
  destruct (Hf 1%nat _ _ SEQUENCE eq_refl eq_refl) as (f1 & E1 & F1). rewrite E1. cbn [opt_bind mem_bind].
  destruct (Hf 2%nat _ _ SEQUENCE eq_refl eq_refl) as (f2 & E2 & F2). rewrite E2. cbn [opt_bind mem_bind].
  rewrite (encodes_raw _ _ _ _ F2), (extract_common_name_encoded d Hsize _ _ F2 Hiss). cbn [mem_bind].
  destruct (Hf 3%nat _ _ SEQUENCE eq_refl eq_refl) as (f3 & E3 & F3). rewrite E3. cbn [opt_bind mem_bind].
  rewrite (validity_encoded d Hsize _ _ _ F3 Hbef Haft). cbn [opt_bind mem_bind].
  destruct (Hf 4%nat _ _ SEQUENCE eq_refl eq_refl) as (f4 & E4 & F4). rewrite E4. cbn [opt_bind mem_bind].
  rewrite (encodes_raw _ _ _ _ F4), (extract_common_name_encoded d Hsize _ _ F4 Hsub). cbn [mem_bind].
  destruct (Hf 5%nat _ _ SEQUENCE eq_refl eq_refl) as (f5 & E5 & F5). rewrite E5. cbn [opt_bind mem_bind].
  by rewrite (spki_encoded _ _ _ _ _ F5 Hsize Hpar Hmod Hexp).
Qed.

(** ** Properties *)

(** [X509Parser::parse] is total and memory safe on every input, and a
    certificate it returns is fully populated: it carries the input and its
    SHA-256 thumbprint, its TBS part, names and signature are parts of the input,
    serial number, dates and algorithm identifiers are present, and a key is
    stored only under the rsaEncryption identifier, with both its numbers. *)
Theorem x509_parse_total_and_populated (der : list byte) :
  exists r, x509_parse der = Val r /\
    forall c, r = Some c ->
      raw c = der /\ sha256_thumbprint c = hash_bytes256 der /\
      (exists pre post, der = pre ++ tbs_certificate c ++ post) /\ tbs_certificate c <> [] /\
      (exists pre post, der = pre ++ issuer_der c ++ post) /\ issuer_der c <> [] /\
      (exists pre post, der = pre ++ subject_der c ++ post) /\ subject_der c <> [] /\
      serial_number c <> [] /\ not_before c <> EmptyString /\ not_after c <> EmptyString /\
      signature_algorithm_oid c <> EmptyString /\ public_key_algorithm_oid c <> EmptyString /\
      forall k, rsa_public_key c = Some k ->
        public_key_algorithm_oid c = kRsaEncryptionOid /\ modulus k <> [] /\ exponent k <> [].
Proof.
  destruct (safe_inv _ _ (x509_parse_safe der)) as (r & Hr & Hok). exists r. split; [done|].
  intros c ->. destruct (Hok c eq_refl) as [? ? [? ?] [? ?] [? ?] ? ? [? ?] [? ?] ?].
  split_and!; try done.
Qed.

(** [X509Parser::parse] inverts the encoding of certificates with an RSA key:
    whatever the serial number, the names, the dates, the key, the extensions and
    the signature, with or without a version field, the parser returns exactly
    the encoded fields, the raw TBS certificate and names, and the first common
    name of the issuer and of the subject. *)
Theorem x509_parse_of_encoding (p : cert_parts) :
  parts_ok p -> x509_parse (cert_der p) = Val (Some (parsed_cert p)).
Proof. apply x509_parse_encoded. Qed.

(** A small certificate: serial 5, CN "A" signed by CN "B", a toy key. *)
Definition tiny_parts : cert_parts :=
  Parts (Some [x02; x01; x02]) [x05] []
    [[Attr 2 5 [4; 3] x0c [x42]]] (x17, [x31]) (x18, [x32]) [[Attr 2 5 [4; 6] x13 [x5a]]; [Attr 2 5 [4; 3] x13 [x41]]]
    [(x05, [])] [x00; xbb] [x03] [] 1 2 [840; 113549; 1; 1; 11] [(x05, [])] [x77; x88].

Lemma tiny_parts_ok : parts_ok tiny_parts.
Proof.
  assert (Hc : Forall (fun v => 0 <= v < 2 ^ 64) [4; 3] /\ Forall (fun v => 0 <= v < 2 ^ 64) [4; 6]).
  { split; repeat (constructor; [lia|]); constructor. }
  destruct Hc as [H3 H6].
  split; [done| | |split; [by left|done]|split; [by right|done]|repeat constructor; discriminate|done|done
         |constructor| |repeat constructor; discriminate|vm_compute; done].
  - repeat constructor; first [done | by right | discriminate | apply H3].
  - repeat constructor; first [done | by right | discriminate | apply H3 | apply H6].
  - split_and!; [left; cbn; lia|cbn [tiny_parts p_sig_arcs]; repeat (constructor; [lia|]); constructor|discriminate].
Qed.

Lemma x509_parse_of_encoding_witness :
  exists c, x509_parse (cert_der tiny_parts) = Val (Some c) /\ subject_common_name c = "A"%string.
Proof.
  exists (parsed_cert tiny_parts). split; [|reflexivity].
  apply (x509_parse_of_encoding tiny_parts). exact tiny_parts_ok.
Defined.
