(* ===== verification/RsaPkcs1.v ===== *)
(** * RsaPkcs1: RSA PKCS#1 v1.5 signature verification

    Models src/src/security/rsa_pkcs1.cpp.  The reference is the deterministic
    encoding EMSA-PKCS1-v1_5 of RFC 8017, section 9.2: a signature verifies
    exactly when its RSA recovery is the encoded message. *)
From S2P Require Import Prelude BigNum X509.

Definition kSha256DigestInfoPrefix : list byte :=
  [x30; x31; x30; x0d; x06; x09; x60; x86; x48; x01; x65; x03; x04; x02; x01; x05; x00; x04; x20].

Definition kSha384DigestInfoPrefix : list byte :=
  [x30; x41; x30; x0d; x06; x09; x60; x86; x48; x01; x65; x03; x04; x02; x02; x05; x00; x04; x30].

(** [while (i < em.size() && em[i] == 0xFF) ++i], over the bytes from [i] on: the
    number of bytes skipped. *)
Fixpoint count_ff (em : list byte) : nat :=
  match em with
  | b :: em => if bval b =? 0xFF then S (count_ff em) else O
  | [] => O
  end.

(** [std::equal] of a whole array against as many bytes of [em] from [i] on. *)
Definition equal_at (a em : list byte) (i : nat) : bool :=
  bool_decide (take (length a) (drop i em) = a).

(** The check of the recovered block; every index is below the size tested first. *)
Definition check_encoding (em digest prefix : list byte) : bool :=
  if Nat.ltb (length em) 11 || negb (bval (em !!! 0%nat) =? 0x00) || negb (bval (em !!! 1%nat) =? 0x01)
  then false
  else
    let padding_len := count_ff (drop 2 em) in
    let i := (2 + padding_len)%nat in
    if Nat.ltb padding_len 8 then false
    else if Nat.leb (length em) i || negb (bval (em !!! i) =? 0x00) then false
    else
      let i := (i + 1)%nat in
      if negb (Nat.eqb (length em - i) (length prefix + length digest)) then false
      else if negb (equal_at prefix em i) then false
      else equal_at digest em (i + length prefix).

Definition verify_pkcs1v15 (signature : list byte) (key : RsaPublicKey)
    (digest prefix : list byte) : bool :=
  if bool_decide (signature = []) || bool_decide (modulus key = []) || bool_decide (exponent key = [])
  then false
  else
    let n := from_bytes_be (modulus key) in
    let e := from_bytes_be (exponent key) in
    let sig := from_bytes_be signature in
    if is_zero n || is_zero e || is_zero sig then false
    else if 0 <=? compare sig n then false
    else
      let decoded := mod_pow sig e n in
      let em := to_bytes_be (length (modulus key)) decoded in
      if negb (Nat.eqb (length em) (length (modulus key))) then false
      else check_encoding em digest prefix.

Definition verify_pkcs1v15_sha256 (signature : list byte) (key : RsaPublicKey)
    (digest : list byte) : bool :=
  verify_pkcs1v15 signature key digest kSha256DigestInfoPrefix.

Definition verify_pkcs1v15_sha384 (signature : list byte) (key : RsaPublicKey)
    (digest : list byte) : bool :=
  verify_pkcs1v15 signature key digest kSha384DigestInfoPrefix.

(** ** The reference: EMSA-PKCS1-v1_5 *)

(** The encoded message of length [k] around the DigestInfo [t]. *)
Definition emsa_pkcs1 (k : nat) (t : list byte) : list byte :=
  [x00; x01] ++ replicate (k - 3 - length t) xff ++ [x00] ++ t.

(** RFC 8017 section 8.2.2: the signature representative is in range and recovers
    the encoded message, which has at least eight padding bytes. *)
Definition rsassa_verifies (signature : list byte) (key : RsaPublicKey) (t : list byte) : Prop :=
  let k := length (modulus key) in
  0 < be_val signature < be_val (modulus key) /\ 0 < be_val (exponent key) /\
  (length t + 11 <= k)%nat /\
  be_val signature ^ be_val (exponent key) mod be_val (modulus key) = be_val (emsa_pkcs1 k t).

(** ** The check accepts exactly the encoded message *)

Lemma count_ff_le l : (count_ff l <= length l)%nat.
Proof. induction l as [|b l IH]; cbn; [lia|]. case_match; lia. Qed.

Lemma count_ff_take l : take (count_ff l) l = replicate (count_ff l) xff.
Proof.
  induction l as [|b l IH]; [done|]. cbn [count_ff]. destruct (Z.eqb_spec (bval b) 0xFF) as [E|]; [|done].
  assert (b = xff) as -> by (by apply (inj bval)). cbn. by rewrite IH.
Qed.

Lemma count_ff_replicate n b l :
  b <> xff -> count_ff (replicate n xff ++ b :: l) = n.
Proof.
  intros Hb. induction n as [|n IH]; cbn [replicate app count_ff].
  - destruct (Z.eqb_spec (bval b) 0xFF) as [E|]; [|done]. exfalso. apply Hb. by apply (inj bval).
  - by rewrite IH.
Qed.

Lemma emsa_length k t : (length t + 3 <= k)%nat -> length (emsa_pkcs1 k t) = k.
Proof. intros. unfold emsa_pkcs1. rewrite !length_app, length_replicate. cbn. lia. Qed.

(** The block behind its padding. *)
Lemma drop_padding p rest j :
  drop (2 + p + 1 + j) (x00 :: x01 :: replicate p xff ++ x00 :: rest) = drop j rest.
Proof.
  replace (2 + p + 1 + j)%nat with (S (S (p + S j))) by lia. cbn [drop].
  rewrite <- drop_drop, drop_app_length' by (by rewrite length_replicate). done.
Qed.

Lemma check_encoding_sound em digest prefix :
  check_encoding em digest prefix = true ->
  em = emsa_pkcs1 (length em) (prefix ++ digest) /\ (length (prefix ++ digest) + 11 <= length em)%nat.
Proof.
  unfold check_encoding. destruct em as [|b0 [|b1 em]]; [done..|].
  change ((b0 :: b1 :: em) !!! 0%nat) with b0. change ((b0 :: b1 :: em) !!! 1%nat) with b1.
  change (drop 2 (b0 :: b1 :: em)) with em.
  destruct (Nat.ltb_spec (length (b0 :: b1 :: em)) 11) as [|Hl]; [done|]. cbn [orb].
  destruct (Z.eqb_spec (bval b0) 0) as [E0|]; [|done].
  destruct (Z.eqb_spec (bval b1) 1) as [E1|]; [|done]. cbn [negb orb].
  assert (b0 = x00) as -> by (by apply (inj bval)). assert (b1 = x01) as -> by (by apply (inj bval)).
  destruct (Nat.ltb_spec (count_ff em) 8) as [|Hff]; [done|]. set (p := count_ff em) in *.
  destruct (Nat.leb_spec (length (x00 :: x01 :: em)) (2 + p)) as [|Hp]; [done|]. cbn [orb].
  cbn [length] in Hp.
  destruct (drop p em) as [|z rest] eqn:Ed.
  { apply (f_equal length) in Ed. rewrite length_drop in Ed. cbn in Ed. lia. }
  assert (Hz : (x00 :: x01 :: em) !!! (2 + p)%nat = z).
  { change ((x00 :: x01 :: em) !!! (2 + p)%nat) with (em !!! p).
    apply list_lookup_total_correct. replace p with (p + 0)%nat by lia.
    by rewrite <- lookup_drop, Ed. }
  rewrite Hz. destruct (Z.eqb_spec (bval z) 0) as [Ez|]; [|done]. cbn [negb].
  assert (z = x00) as -> by (by apply (inj bval)).
  assert (Hem : em = replicate p xff ++ x00 :: rest).
  { rewrite <- (take_drop p em), Ed. f_equal. apply count_ff_take. }
  clearbody p. subst em. cbn [length]. rewrite length_app, length_replicate. cbn [length].
  destruct (Nat.eqb_spec (S (S (p + S (length rest))) - (2 + p + 1))
              (length prefix + length digest)) as [El|]; [|done]. cbn [negb].
  unfold equal_at. pose proof (drop_padding p rest 0) as H0. rewrite Nat.add_0_r in H0.
  rewrite H0, drop_padding, drop_0.
  case_bool_decide as Hpre; [|done]. cbn [negb]. intros Hdig%bool_decide_eq_true_1.
  assert (rest = prefix ++ digest) as ->.
  { rewrite <- (take_drop (length prefix) rest), Hpre. f_equal. rewrite <- Hdig.
    symmetry. apply take_ge. rewrite length_drop. lia. }
  rewrite length_app in *. split; [|lia]. unfold emsa_pkcs1. cbn [app]. do 3 f_equal.
  rewrite length_app. f_equal. lia.
Qed.

Lemma check_encoding_complete k digest prefix :
  (length (prefix ++ digest) + 11 <= k)%nat ->
  check_encoding (emsa_pkcs1 k (prefix ++ digest)) digest prefix = true.
Proof.
  unfold check_encoding. intros Hl. set (t := prefix ++ digest) in *.
  rewrite emsa_length by lia.
  destruct (Nat.ltb_spec k 11); [lia|]. unfold emsa_pkcs1. cbn [app].
  set (p := (k - 3 - length t)%nat).
  change ((x00 :: x01 :: replicate p xff ++ x00 :: t) !!! 0%nat) with x00.
  change ((x00 :: x01 :: replicate p xff ++ x00 :: t) !!! 1%nat) with x01.
  change (drop 2 (x00 :: x01 :: replicate p xff ++ x00 :: t)) with (replicate p xff ++ x00 :: t).
  cbn [bval orb]. rewrite count_ff_replicate by done. cbn [Z.eqb negb orb Z.of_N Byte.to_N Pos.eqb].
  destruct (Nat.ltb_spec p 8); [lia|]. destruct (Nat.leb_spec k (2 + p)); [lia|]. cbn [orb].
  assert (Hz : (x00 :: x01 :: replicate p xff ++ x00 :: t) !!! (2 + p)%nat = x00).
  { change ((x00 :: x01 :: replicate p xff ++ x00 :: t) !!! (2 + p)%nat)
      with ((replicate p xff ++ x00 :: t) !!! p).
    apply list_lookup_total_correct. rewrite lookup_app_r by (by rewrite length_replicate).
    by rewrite length_replicate, Nat.sub_diag. }
  rewrite Hz. change (negb (bval x00 =? 0)) with false. cbv iota.
  assert (El : (k - (2 + p + 1))%nat = (length prefix + length digest)%nat).
  { unfold p, t in *. rewrite length_app in *. lia. }
  rewrite (proj2 (Nat.eqb_eq _ _) El). cbn [negb]. unfold equal_at.
  pose proof (drop_padding p t 0) as Hd. rewrite Nat.add_0_r in Hd. rewrite Hd, drop_padding, drop_0.
  unfold t. rewrite take_app_length, drop_app_length. rewrite bool_decide_eq_true_2 by done. cbn [negb].
  rewrite take_ge by lia. by rewrite bool_decide_eq_true_2.
Qed.

(** ** Verification *)

Lemma verify_spec signature key digest prefix :
  verify_pkcs1v15 signature key digest prefix = true <->
  rsassa_verifies signature key (prefix ++ digest).
Proof.
  unfold verify_pkcs1v15, rsassa_verifies. set (k := length (modulus key)).
  destruct (from_bytes_be_spec (modulus key)) as [En Wn].
  destruct (from_bytes_be_spec (exponent key)) as [Ee We].
  destruct (from_bytes_be_spec signature) as [Es Ws].
  rewrite !is_zero_spec, compare_spec, En, Ee, Es by done.
  pose proof (be_val_nonneg signature). pose proof (be_val_nonneg (exponent key)).
  assert (Hempty : forall l, l = [] -> be_val l = 0) by (by intros l ->).
  set (em := to_bytes_be k (mod_pow _ _ _)).
  assert (Hem : 0 < be_val signature < be_val (modulus key) ->
    length em = k /\
    be_val em = be_val signature ^ be_val (exponent key) mod be_val (modulus key)).
  { intros Hs. destruct (mod_pow_spec _ _ _ Ws We Wn) as [Ep Wp]; [lia|]. rewrite Es, Ee, En in Ep.
    destruct (to_bytes_be_spec k _ Wp) as [Hv Hl]. split; [|by rewrite <- Ep].
    apply Hl. rewrite Ep. pose proof (be_val_bound (modulus key)).
    pose proof (Z.mod_pos_bound (be_val signature ^ be_val (exponent key)) (be_val (modulus key)) ltac:(lia)).
    unfold k. lia. }
  split.
  - destruct (_ || _) eqn:E1; [done|]. destruct (_ || _) eqn:E2 in |- *; [done|].
    destruct (0 <=? sgn _) eqn:E3; [done|]. bool_facts.
    assert (Hlt : 0 < be_val signature < be_val (modulus key)).
    { split; [lia|]. destruct (Z.compare_spec (be_val signature) (be_val (modulus key)));
        cbn [sgn] in *; lia. }
    destruct (Hem Hlt) as [Hl Hv]. rewrite (proj2 (Nat.eqb_eq _ _) Hl). cbn [negb].
    intros [He Hk]%check_encoding_sound. rewrite Hl in He, Hk. rewrite <- Hv, <- He. split_and!; [lia..|done].
  - intros (Hlt & He & Hk & Heq). destruct (Hem Hlt) as [Hl Hv].
    rewrite !bool_decide_eq_false_2 by (intros E; apply Hempty in E; lia). cbn [orb].
    rewrite !(proj2 (Z.eqb_neq _ _)) by lia. cbn [orb].
    rewrite (proj2 (Z.compare_lt_iff _ _)) by lia. cbn [sgn Z.leb Z.compare].
    rewrite (proj2 (Nat.eqb_eq _ _) Hl). cbn [negb].
    assert (em = emsa_pkcs1 k (prefix ++ digest)) as ->.
    { apply be_val_inj; [rewrite Hl, emsa_length; lia|]. by rewrite Hv. }
    by apply check_encoding_complete.
Qed.

(** Two verifying digests of one length are equal. *)
Lemma verify_unique signature key d1 d2 prefix :
  length d1 = length d2 ->
  verify_pkcs1v15 signature key d1 prefix = true ->
  verify_pkcs1v15 signature key d2 prefix = true -> d1 = d2.
Proof.
  rewrite !verify_spec. unfold rsassa_verifies. intros Hl (_ & _ & Hk1 & H1) (_ & _ & Hk2 & H2).
  rewrite H1 in H2. rewrite !length_app in *. apply be_val_inj in H2.
  - unfold emsa_pkcs1 in H2. rewrite !length_app, Hl in H2. by simplify_list_eq.
  - by rewrite !emsa_length by (rewrite length_app; lia).
Qed.

(** ** Properties *)

(** C14: RSASSA-PKCS1-v1_5: a signature over a SHA-256 or SHA-384 digest verifies
    exactly when it is a non-zero number below the modulus whose [e]-th power
    modulo [n] is the encoded message 00 01 FF..FF 00 DigestInfo of the length of
    the modulus, with at least eight FF bytes; and one signature verifies at most
    one digest under one key. *)
Theorem rsa_verify_iff_emsa (signature : list byte) (key : RsaPublicKey) (digest : list byte) :
  let k := length (modulus key) in
  let verifies t :=
    0 < be_val signature < be_val (modulus key) /\ 0 < be_val (exponent key) /\
    (length t + 11 <= k)%nat /\
    be_val signature ^ be_val (exponent key) mod be_val (modulus key) =
      be_val ([x00; x01] ++ replicate (k - 3 - length t) xff ++ [x00] ++ t) in
  (verify_pkcs1v15_sha256 signature key digest = true <->
     verifies (kSha256DigestInfoPrefix ++ digest)) /\
  (verify_pkcs1v15_sha384 signature key digest = true <->
     verifies (kSha384DigestInfoPrefix ++ digest)) /\
  (forall digest', length digest' = length digest ->
     verify_pkcs1v15_sha256 signature key digest = true ->
     verify_pkcs1v15_sha256 signature key digest' = true -> digest' = digest).
Proof.
  cbv zeta. split; [apply verify_spec|]. split; [apply verify_spec|].
  intros digest' Hl H1 H2. by eapply verify_unique.
Qed.
