(* ===== verification/Pkcs7.v ===== *)
(** * Pkcs7: the CMS SignedData parser

    Models src/src/security/pkcs7.cpp and pkcs7.hpp.  [find_signer_certificate]
    returns a pointer into the certificate vector: here the index, since the
    chain walk compares such pointers. *)
From S2P Require Import Prelude Sha2 Asn1 X509.

#[local] Open Scope word_scope.
#[local] Open Scope mem_scope.

Definition kSignedDataOid : string := "1.2.840.113549.1.7.2".
Definition kContentTypeAttrOid : string := "1.2.840.113549.1.9.3".
Definition kMessageDigestAttrOid : string := "1.2.840.113549.1.9.4".

Record SignerInfo := Signer {
  si_issuer_der : list byte;
  si_serial_number : list byte;
  digest_algorithm_oid : string;
  signed_attrs_content : list byte;
  content_type_attr : option string;
  message_digest : option (list byte);
  si_signature_algorithm_oid : string;
  signature : list byte;
}.

Record SignedData := Signed {
  content_type : string;
  content : list byte;
  certificates : list X509Certificate;
  signer_infos : list SignerInfo;
}.

(** ** Helpers *)

Definition unwrap_explicit (data : ptr) (wrapper : Element) : mem (option Element) :=
  let* inner := parse_sequence_children data (content_offset wrapper) (content_length wrapper) in
  match inner with
  | [e] => Val (Some e)
  | _ => Val None
  end.

(** The loop of [parse_certificates_set]: [None] when it returns false. *)
Fixpoint certificates_loop (data : ptr) (entries : list Element) (out : list X509Certificate) :
    mem (option (list X509Certificate)) :=
  match entries with
  | [] => Val (Some out)
  | entry :: entries =>
      if negb (is_universal entry SEQUENCE) then certificates_loop data entries out
      else
        let* der := raw_bytes data entry in
        let? cert := x509_parse der in
        certificates_loop data entries (out ++ [cert])
  end.

Definition parse_certificates_set (data : ptr) (certs_el : Element) :
    mem (option (list X509Certificate)) :=
  let* entries := parse_sequence_children data (content_offset certs_el) (content_length certs_el) in
  certificates_loop data entries [].

(** The two attributes [extract_signed_attributes] fills in. *)
Definition attrs_found : Type := option string * option (list byte).

(** One attribute: [continue] keeps what was found so far. *)
Definition signed_attribute (data : ptr) (found : attrs_found) (attr : Element) : mem attrs_found :=
  if negb (is_universal attr SEQUENCE) then Val found
  else
    let* fields := parse_sequence_children data (content_offset attr) (content_length attr) in
    match fields with
    | [type; set] =>
        if negb (is_universal type OBJECT_IDENTIFIER) then Val found
        else if negb (is_universal set SET) || (content_length set =? 0) then Val found
        else
          let* oid := oid_to_string data type in
          let* values := parse_sequence_children data (content_offset set) (content_length set) in
          match values with
          | [] => Val found
          | v :: _ =>
              if String.eqb oid kContentTypeAttrOid && is_universal v OBJECT_IDENTIFIER then
                let* s := oid_to_string data v in
                Val (Some s, found.2)
              else if String.eqb oid kMessageDigestAttrOid && is_universal v OCTET_STRING then
                let* md := slice data (content_offset v) (content_length v) in
                Val (found.1, Some md)
              else Val found
          end
    | _ => Val found
    end.

Fixpoint signed_attributes_loop (data : ptr) (attrs : list Element) (found : attrs_found) :
    mem attrs_found :=
  match attrs with
  | [] => Val found
  | attr :: attrs =>
      let* found := signed_attribute data found attr in
      signed_attributes_loop data attrs found
  end.

Definition extract_signed_attributes (data : ptr) (offset len : Z) : mem attrs_found :=
  let* attrs := parse_sequence_children data offset len in
  signed_attributes_loop data attrs (None, None).

(** IssuerAndSerialNumber. *)
Definition issuer_and_serial (data : ptr) (e : Element) : mem (option (list byte * list byte)) :=
  let* iasn := parse_sequence_children data (content_offset e) (content_length e) in
  match iasn with
  | [issuer; serial] =>
      if is_universal issuer SEQUENCE && is_universal serial INTEGER then
        let* i := raw_bytes data issuer in
        let* s := read_unsigned_integer data serial in
        if bool_decide (i = []) || bool_decide (s = []) then Val None else Val (Some (i, s))
      else Val None
  | _ => Val None
  end.

(** ** The parser *)

Definition parse_signer_info (data : ptr) (si_el : Element) : mem (option SignerInfo) :=
  let* fields := parse_sequence_children data (content_offset si_el) (content_length si_el) in
  let? _ := field fields 0 INTEGER in
  let? sid := field fields 1 SEQUENCE in
  let? (issuer, serial) := issuer_and_serial data sid in
  let? digest_alg := field fields 2 SEQUENCE in
  let? digest_oid := algorithm_oid data digest_alg in
  match fields !! 3%nat with
  | None => Val None
  | Some attrs =>
      if negb (has_context_tag fields 3 0) then Val None
      else
        let* attrs_content := slice data (content_offset attrs) (content_length attrs) in
        let* (ct, md) := extract_signed_attributes data (content_offset attrs) (content_length attrs) in
        let? sig_alg := field fields 4 SEQUENCE in
        let? sig_oid := algorithm_oid data sig_alg in
        let? sig_el := field fields 5 OCTET_STRING in
        let* sig := slice data (content_offset sig_el) (content_length sig_el) in
        if bool_decide (sig = []) then Val None
        else
          Val (Some {| si_issuer_der := issuer; si_serial_number := serial;
                       digest_algorithm_oid := digest_oid; signed_attrs_content := attrs_content;
                       content_type_attr := ct; message_digest := md;
                       si_signature_algorithm_oid := sig_oid; signature := sig |})
  end.

(** encapContentInfo: the content type and the content octets, if any. *)
Definition encap_content (data : ptr) (e : Element) : mem (option (string * list byte)) :=
  let* eci := parse_sequence_children data (content_offset e) (content_length e) in
  let? type := field eci 0 OBJECT_IDENTIFIER in
  let* oid := oid_to_string data type in
  if String.eqb oid EmptyString then Val None
  else
    match eci !! 1%nat with
    | Some wrapper =>
        if has_context_tag eci 1 0 then
          let? inner := unwrap_explicit data wrapper in
          if negb (is_universal inner OCTET_STRING) && negb (is_universal inner SEQUENCE) then Val None
          else
            let* c := slice data (content_offset inner) (content_length inner) in
            Val (Some (oid, c))
        else Val (Some (oid, []))
    | None => Val (Some (oid, []))
    end.

(** The signer loop: every entry has to parse. *)
Fixpoint signers_loop (data : ptr) (entries : list Element) (out : list SignerInfo) :
    mem (option (list SignerInfo)) :=
  match entries with
  | [] => Val (Some out)
  | entry :: entries =>
      if negb (is_universal entry SEQUENCE) then Val None
      else
        let? signer := parse_signer_info data entry in
        signers_loop data entries (out ++ [signer])
  end.

Definition pkcs7_parse (der : list byte) : mem (option SignedData) :=
  let data := Some der in
  let? content_info := parse_element data (Z.of_nat (length der)) 0 in
  if negb (is_universal content_info SEQUENCE) then Val None
  else
    let* ci := parse_sequence_children data (content_offset content_info) (content_length content_info) in
    match ci with
    | [type; wrapper] =>
        if negb (is_universal type OBJECT_IDENTIFIER) then Val None
        else
          let* oid := oid_to_string data type in
          if negb (String.eqb oid kSignedDataOid) then Val None
          else if negb (has_context_tag ci 1 0) then Val None
          else
            let? sd_el := unwrap_explicit data wrapper in
            if negb (is_universal sd_el SEQUENCE) then Val None
            else
              let* sd := parse_sequence_children data (content_offset sd_el) (content_length sd_el) in
              let? _ := field sd 0 INTEGER in
              let? _ := field sd 1 SET in
              let? eci := field sd 2 SEQUENCE in
              let? (ct, c) := encap_content data eci in
              let idx := 3%nat in
              let? (certs, idx) :=
                match sd !! idx with
                | Some e =>
                    if has_context_tag sd idx 0 then
                      let? certs := parse_certificates_set data e in
                      Val (Some (certs, S idx))
                    else Val (Some ([], idx))
                | None => Val (Some ([], idx))
                end in
              let idx := if has_context_tag sd idx 1 then S idx else idx in
              let? signers_el := field sd idx SET in
              let* entries := parse_sequence_children data (content_offset signers_el)
                                (content_length signers_el) in
              if bool_decide (entries = []) then Val None
              else
                let? signers := signers_loop data entries [] in
                Val (Some {| content_type := ct; content := c; certificates := certs;
                             signer_infos := signers |})
    | _ => Val None
    end.

(** ** Operations on the result *)

Definition signer_matches (signer : SignerInfo) (cert : X509Certificate) : bool :=
  bool_decide (issuer_der cert = si_issuer_der signer) &&
  bool_decide (serial_number cert = si_serial_number signer).

Fixpoint first_index {A} (f : A -> bool) (l : list A) : option nat :=
  match l with
  | [] => None
  | x :: l => if f x then Some O else S <$> first_index f l
  end.

Definition find_signer_certificate (data : SignedData) (signer : SignerInfo) : option nat :=
  first_index (signer_matches signer) (certificates data).

(** [while (remaining > 0) len_bytes[num_bytes++] = remaining & 0xFF, remaining >>= 8]
    with the eight bytes of a [size_t]. *)
Fixpoint length_bytes (fuel : nat) (remaining : Z) : list byte :=
  match fuel with
  | O => []
  | S fuel =>
      if 0 <? remaining
      then byte_of (remaining .& 0xFF) :: length_bytes fuel (remaining >>> 8)
      else []
  end.

Definition der_encode_set (content : list byte) : list byte :=
  let len := Z.of_nat (length content) in
  let header :=
    if len <? 0x80 then [byte_of len]
    else
      let len_bytes := length_bytes 8 len in
      byte_of (0x80 .| Z.of_nat (length len_bytes)) :: reverse len_bytes in
  [x31] ++ header ++ content.

(** ** Memory safety and what a parsed message carries *)

Section pkcs7_safe.
Context (d : list byte).

Lemma unwrap_explicit_safe e : in_buf d e -> safe_opt (unwrap_explicit (Some d) e) (in_buf d).
Proof.
  intros He. unfold unwrap_explicit. safe_step. destruct a as [|x [|]]; none_case.
  forall_split. safe_auto. done.
Qed.

Lemma certificates_loop_safe entries out :
  Forall (in_buf d) entries -> Forall (fun c => cert_ok (raw c) c) out ->
  safe_opt (certificates_loop (Some d) entries out) (Forall (fun c => cert_ok (raw c) c)).
Proof.
  intros He. revert out. induction He as [|e entries He Hes IH]; intros out Hout;
    cbn [certificates_loop]; safe_auto; [done|by apply IH|].
  eapply safe_opt_bind; [apply x509_parse_safe|]. intros c Hc. apply IH.
  apply Forall_app. split; [done|]. constructor; [|done]. by rewrite (ok_raw _ _ Hc).
Qed.

Lemma parse_certificates_set_safe e :
  in_buf d e ->
  safe_opt (parse_certificates_set (Some d) e) (Forall (fun c => cert_ok (raw c) c)).
Proof. intros He. unfold parse_certificates_set. safe_step. by apply certificates_loop_safe. Qed.

Lemma signed_attribute_safe found e :
  in_buf d e -> safe (signed_attribute (Some d) found e) (fun _ => True).
Proof.
  intros He. unfold signed_attribute. safe_auto; [done|].
  destruct a as [|type [|set [|]]]; try done. forall_split.
  safe_auto; try done. destruct a0 as [|v vs]; [done|]. forall_split. safe_auto; done.
Qed.

Lemma extract_signed_attributes_safe offset len :
  0 <= offset -> offset + len <= Z.of_nat (length d) ->
  safe (extract_signed_attributes (Some d) offset len) (fun _ => True).
Proof.
  intros Ho Hl. unfold extract_signed_attributes. safe_step.
  generalize ((None, None) : attrs_found).
  induction H as [|e l He Hl' IH]; intros found; cbn [signed_attributes_loop]; [done|].
  eapply safe_bind; [by apply signed_attribute_safe|]. intros f _. apply IH.
Qed.

Lemma issuer_and_serial_safe e :
  in_buf d e ->
  safe_opt (issuer_and_serial (Some d) e) (fun r => r.1 <> [] /\ infix_of r.1 d /\ r.2 <> []).
Proof.
  intros He. unfold issuer_and_serial. safe_step. destruct a as [|i [|s [|]]]; none_case.
  forall_split. safe_auto. cbn. by destruct_and!.
Qed.

#[local] Hint Resolve unwrap_explicit_safe parse_certificates_set_safe extract_signed_attributes_safe
  issuer_and_serial_safe : gcad_safe.

(** What the parser promises of a signer and of a message. *)
Record signer_ok (s : SignerInfo) : Prop := {
  sok_issuer : si_issuer_der s <> [] /\ infix_of (si_issuer_der s) d;
  sok_serial : si_serial_number s <> [];
  sok_digest : digest_algorithm_oid s <> EmptyString;
  sok_attrs : infix_of (signed_attrs_content s) d;
  sok_alg : si_signature_algorithm_oid s <> EmptyString;
  sok_signature : signature s <> [] /\ infix_of (signature s) d;
}.

Lemma parse_signer_info_safe e : in_buf d e -> safe_opt (parse_signer_info (Some d) e) signer_ok.
Proof.
  intros He. unfold parse_signer_info. safe_auto. destruct a2 as [issuer serial]. safe_auto.
  destruct (a !! 3%nat) as [attrs|] eqn:Ea; none_case.
  pose proof (Forall_lookup_1 _ _ _ _ H Ea) as Hattrs. pose proof Hattrs as (G1 & G2 & G3 & G4).
  safe_if; none_case.
  eapply safe_opt_bind_mem; [by apply content_buf|]. intros attrs_content Hc.
  eapply safe_opt_bind_mem; [by apply extract_signed_attributes_safe|]. intros [ct md] _.
  safe_auto. cbn [fst snd] in *. destruct_and?. split; cbn; auto.
Qed.

Lemma encap_content_safe e :
  in_buf d e -> safe_opt (encap_content (Some d) e) (fun r => r.1 <> EmptyString).
Proof.
  intros He. unfold encap_content. safe_auto.
  destruct (a !! 1%nat) as [w|] eqn:Ew; safe_auto; [|done|done].
  pose proof (Forall_lookup_1 _ _ _ _ H Ew). safe_auto. done.
Qed.

Lemma signers_loop_safe entries out :
  Forall (in_buf d) entries -> Forall signer_ok out ->
  safe_opt (signers_loop (Some d) entries out)
    (fun l => Forall signer_ok l /\ length l = (length out + length entries)%nat).
Proof.
  intros He. revert out. induction He as [|e entries He Hes IH]; intros out Hout;
    cbn [signers_loop]; safe_auto.
  - split; [done|]. cbn. lia.
  - eapply safe_opt_bind; [by apply parse_signer_info_safe|]. intros s Hs.
    eapply safe_opt_mono; [apply IH|].
    + apply Forall_app. split; [done|]. by constructor.
    + intros l [Hl Hn]. split; [done|]. rewrite Hn, length_app. cbn. lia.
Qed.
#[local] Hint Resolve encap_content_safe signers_loop_safe : gcad_safe.

Record signed_ok (sd : SignedData) : Prop := {
  mok_type : content_type sd <> EmptyString;
  mok_certs : Forall (fun c => cert_ok (raw c) c) (certificates sd);
  mok_signers : Forall signer_ok (signer_infos sd);
  mok_some : signer_infos sd <> [];
}.

(** The optional certificate set. *)
Lemma optional_certs_safe sd idx :
  Forall (in_buf d) sd ->
  safe_opt
    (match sd !! idx with
     | Some e =>
         if has_context_tag sd idx 0 then
           let? certs := parse_certificates_set (Some d) e in Val (Some (certs, S idx))
         else Val (Some ([], idx))
     | None => Val (Some ([], idx))
     end)
    (fun r => Forall (fun c => cert_ok (raw c) c) r.1).
Proof.
  intros Hsd. destruct (sd !! idx) as [e|] eqn:Ee; safe_auto; [|done|done].
  pose proof (Forall_lookup_1 _ _ _ _ Hsd Ee). safe_auto. done.
Qed.
End pkcs7_safe.

Lemma pkcs7_parse_safe der : safe_opt (pkcs7_parse der) (signed_ok der).
Proof.
  unfold pkcs7_parse. safe_auto. destruct a0 as [|type [|wrapper [|]]]; none_case.
  forall_split. safe_auto.
  eapply safe_opt_bind; [by apply unwrap_explicit_safe|]. intros sd_el Hsd_el. safe_auto.
  eapply safe_opt_bind; [by apply encap_content_safe|]. intros [ct c] Hct.
  eapply safe_opt_bind; [by apply optional_certs_safe|]. intros [certs idx] Hcerts. safe_auto.
  eapply safe_opt_bind; [by apply signers_loop_safe|]. intros signers [Hs Hn]. safe_auto.
  split; cbn; try done. intros ->. cbn in Hn.
  match goal with H : ?l <> [] |- _ => destruct l; [done|]; cbn in Hn; lia end.
Qed.

(** ** The signer's certificate and the re-tagged attribute set *)

Lemma first_index_spec {A} (f : A -> bool) l :
  match first_index f l with
  | Some i => exists x, l !! i = Some x /\ f x = true /\
                forall j y, (j < i)%nat -> l !! j = Some y -> f y = false
  | None => Forall (fun x => f x = false) l
  end.
Proof.
  induction l as [|x l IH]; cbn [first_index]; [constructor|].
  destruct (f x) eqn:Ex.
  - exists x. split_and!; [done..|]. intros j y Hj. lia.
  - destruct (first_index f l) as [i|]; cbn.
    + destruct IH as (y & Hy & Hf & Hlt). exists y. split_and!; [done..|].
      intros [|j] z Hj Hz; [by injection Hz as <-|]. apply (Hlt j); [lia|done].
    + by constructor.
Qed.

Lemma length_bytes_le fuel n : 0 <= n -> length_bytes fuel n = le_bytes fuel n.
Proof.
  revert n. induction fuel as [|fuel IH]; intros n Hn; [done|]. cbn [length_bytes le_bytes].
  destruct (Z.ltb_spec 0 n), (Z.eqb_spec n 0); [lia| |done|lia].
  rewrite (Z.shiftr_div_pow2 n 8) by lia. rewrite IH by (apply Z.div_pos; lia). f_equal.
  apply (inj bval). rewrite !bval_byte_of.
  pose proof (land_ones_mod n 8 ltac:(lia)) as H8. change (2 ^ 8 - 1) with 255 in H8.
  rewrite H8. by apply Z.mod_mod.
Qed.

Lemma der_encode_set_tlv c : der_encode_set c = der_tlv x31 c.
Proof.
  unfold der_encode_set, der_tlv, der_length. cbv zeta. rewrite length_bytes_le by lia.
  change (0x80) with 128. destruct (Z.ltb_spec (Z.of_nat (length c)) 128) as [|Hge]; [done|].
  pose proof (le_bytes_length 8 (Z.of_nat (length c))).
  set (L := le_bytes 8 (Z.of_nat (length c))) in *.
  replace (Z.lor 128 (Z.of_nat (length L))) with (128 + Z.of_nat (length L)).
  - cbn [app]. done.
  - pose proof (lor_shiftl_add (Z.of_nat (length L)) 1 7 ltac:(lia) ltac:(lia)) as Hl.
    change (Z.shiftl 1 7) with 128 in Hl. rewrite Z.lor_comm, Hl. lia.
Qed.

(** ** Properties *)

(** [Pkcs7Parser::parse] is total and memory safe on every input, and a message
    it returns has a content type, at least one signer, only fully populated
    certificates (each parsed from its own bytes), and for every signer an issuer
    and a serial number, both algorithm identifiers, the content of its signed
    attributes and a non-empty signature, cut out of the input. *)
Theorem pkcs7_parse_total_and_populated (der : list byte) :
  exists r, pkcs7_parse der = Val r /\
    forall sd, r = Some sd ->
      content_type sd <> EmptyString /\ signer_infos sd <> [] /\
      Forall (fun c => cert_ok (raw c) c) (certificates sd) /\
      Forall (fun s =>
        si_issuer_der s <> [] /\ (exists pre post, der = pre ++ si_issuer_der s ++ post) /\
        si_serial_number s <> [] /\ digest_algorithm_oid s <> EmptyString /\
        si_signature_algorithm_oid s <> EmptyString /\
        (exists pre post, der = pre ++ signed_attrs_content s ++ post) /\
        signature s <> [] /\ (exists pre post, der = pre ++ signature s ++ post)) (signer_infos sd).
Proof.
  destruct (safe_inv _ _ (pkcs7_parse_safe der)) as (r & Hr & Hok). exists r. split; [done|].
  intros sd ->. destruct (Hok sd eq_refl) as [? ? Hs ?]. split_and!; [done..|].
  eapply Forall_impl; [exact Hs|]. intros s [[? ?] ? ? ? ? [? ?]]. by split_and!.
Qed.

(** [der_encode_set] re-tags signed attributes as RFC 5652, section 5.4 asks:
    its result is the minimal DER encoding of a SET with the given content, the
    reader takes it apart again, and it is the encoding of the [0] IMPLICIT element
    with the first octet replaced. *)
Theorem der_encode_set_retags (c post : list byte) :
  Z.of_nat (length c) < 2 ^ 64 ->
  let set := der_encode_set c in
  (exists e, parse_element (Some (set ++ post)) (Z.of_nat (length set)) 0 = Val (Some e) /\
     is_universal e SET = true /\ constructed e = true /\
     slice (Some (set ++ post)) (content_offset e) (content_length e) = Val c /\
     raw_bytes (Some (set ++ post)) e = Val set) /\
  tail set = tail (der_tlv xa0 c).
Proof.
  intros Hc. cbv zeta. rewrite der_encode_set_tlv. split; [|done].
  exists (tlv_element x31 0 c). split_and!; [|done..| |].
  - by apply (parse_element_tlv [] x31 c post).
  - apply (tlv_content [] x31 c post).
  - apply (tlv_raw_bytes [] x31 c post).
Qed.

Lemma der_encode_set_retags_witness : tail (der_encode_set [x30; x00]) = tail (der_tlv xa0 [x30; x00]).
Proof. apply (der_encode_set_retags [x30; x00] []). reflexivity. Defined.

(** [find_signer_certificate] returns the first embedded certificate whose
    issuer and serial number are the signer's, and nothing when there is none. *)
Theorem find_signer_certificate_first (sd : SignedData) (s : SignerInfo) :
  match find_signer_certificate sd s with
  | Some i => exists c, certificates sd !! i = Some c /\
      issuer_der c = si_issuer_der s /\ serial_number c = si_serial_number s /\
      forall j c', (j < i)%nat -> certificates sd !! j = Some c' ->
        ~ (issuer_der c' = si_issuer_der s /\ serial_number c' = si_serial_number s)
  | None => forall c, In c (certificates sd) ->
      ~ (issuer_der c = si_issuer_der s /\ serial_number c = si_serial_number s)
  end.
Proof.
  unfold find_signer_certificate. pose proof (first_index_spec (signer_matches s) (certificates sd)) as H.
  assert (Hm : forall c, signer_matches s c = false ->
    ~ (issuer_der c = si_issuer_der s /\ serial_number c = si_serial_number s)).
  { intros c Hc [E1 E2]. unfold signer_matches in Hc. by rewrite !bool_decide_eq_true_2 in Hc. }
  destruct (first_index _ _) as [i|].
  - destruct H as (c & Hc & Hf & Hlt). unfold signer_matches in Hf. bool_facts.
    exists c. split_and!; [done..|]. intros j c' Hj Hc'. by apply Hm, (Hlt j).
  - intros c Hin. rewrite Forall_forall in H. apply Hm, H, list_elem_of_In, Hin.
Qed.
