(* ===== verification/PeHash.v ===== *)
(** * PeHash: the Authenticode hash of a PE image

    Models src/src/security/pe_authenticode_hash.cpp.  Sums of [uint32_t] header
    fields with small constants wrap at 32 bits as in the code; the other offsets
    are [size_t].  [std::sort] leaves the order of sections with equal offsets
    open: the functions take the sort as an argument and hand it the comparator of
    the source, [section_before].  The header checks both
    functions of the source repeat are written once, as [pe_header_of]. *)
From S2P Require Import Prelude Sha2.

#[local] Open Scope word_scope.
#[local] Open Scope mem_scope.

Definition read_u16 (data : ptr) (offset : Z) : mem Z :=
  let* b0 := rd data offset in
  let* b1 := rd data (offset + 1) in
  Val (bval b0 .| (bval b1 <<< 8)).

Definition read_u32 (data : ptr) (offset : Z) : mem Z :=
  let* b0 := rd data offset in
  let* b1 := rd data (offset + 1) in
  let* b2 := rd data (offset + 2) in
  let* b3 := rd data (offset + 3) in
  Val (bval b0 .| (bval b1 <<< 8) .| (bval b2 <<< 16) .| (bval b3 <<< 24)).

Definition fits (size offset length : Z) : bool := (offset <=? size) && (length <=? size - offset).

Record SectionRange := Range { s_offset : Z; s_length : Z }.

(** The comparator given to [std::sort]. *)
Definition section_before (a b : SectionRange) : bool := s_offset a <? s_offset b.

(** ** The headers *)

Record pe_header := Header {
  file_header_offset : Z;
  size_of_optional_header : Z;
  opt_header_offset : Z;
  data_dir_base : Z;
}.

(** The DOS and PE signatures, the file header and the kind of optional header. *)
Definition pe_header_of (data : ptr) (size : Z) : mem (option pe_header) :=
  if null data || (size <? 64) then Val None
  else
    let* m := rd data 0 in
    let* z := rd data 1 in
    if negb (bval m =? 77) || negb (bval z =? 90) then Val None
    else
      let* pe_offset := read_u32 data 0x3C in
      if negb (fits size pe_offset 4) then Val None
      else
        let* p0 := rd data pe_offset in
        let* p1 := rd data (u32 (pe_offset + 1)) in
        let* p2 := rd data (u32 (pe_offset + 2)) in
        let* p3 := rd data (u32 (pe_offset + 3)) in
        if negb (bval p0 =? 80) || negb (bval p1 =? 69) || negb (bval p2 =? 0) || negb (bval p3 =? 0)
        then Val None
        else
          let fho := u32 (pe_offset + 4) in
          if negb (fits size fho 20) then Val None
          else
            let* soh := read_u16 data (fho + 16) in
            let oho := fho + 20 in
            if negb (fits size oho soh) then Val None
            else if soh <? 2 then Val None
            else
              let* magic := read_u16 data oho in
              if magic =? 0x10b then Val (Some (Header fho soh oho 96))
              else if magic =? 0x20b then Val (Some (Header fho soh oho 112))
              else Val None.

(** The section table loop, from section [i] on. *)
Fixpoint sections_loop (data : ptr) (size table : Z) (n : nat) (i : Z)
    (sections : list SectionRange) : mem (option (list SectionRange)) :=
  match n with
  | O => Val (Some sections)
  | S n =>
      let hdr := table + i * 40 in
      let* raw_size := read_u32 data (hdr + 16) in
      let* raw_ptr := read_u32 data (hdr + 20) in
      if raw_size =? 0 then sections_loop data size table n (i + 1) sections
      else if negb (fits size raw_ptr raw_size) then Val None
      else sections_loop data size table n (i + 1) (sections ++ [Range raw_ptr raw_size])
  end.

(** What the headers say about the file. *)
Record pe_layout := Layout {
  checksum_offset : Z;
  security_dir_entry_offset : Z;
  size_of_headers : Z;
  cert_table_offset : Z;
  cert_table_size : Z;
  section_ranges : list SectionRange;
}.

Definition pe_layout_of (data : ptr) (size : Z) : mem (option pe_layout) :=
  let? h := pe_header_of data size in
  let* number_of_sections := read_u16 data (file_header_offset h + 2) in
  let checksum_offset := opt_header_offset h + 64 in
  if negb (fits size checksum_offset 4) then Val None
  else if negb (fits size (opt_header_offset h + 60) 4) then Val None
  else
    let* size_of_headers := read_u32 data (opt_header_offset h + 60) in
    if negb (fits size 0 size_of_headers) then Val None
    else if size_of_headers <? checksum_offset + 4 then Val None
    else
      let sde := opt_header_offset h + data_dir_base h + 4 * 8 in
      if negb (fits size sde 8) then Val None
      else if size_of_headers <? sde + 8 then Val None
      else
        let* cert_table_offset := read_u32 data sde in
        let* cert_table_size := read_u32 data (sde + 4) in
        if (0 <? cert_table_size) && negb (fits size cert_table_offset cert_table_size) then Val None
        else
          let table := opt_header_offset h + size_of_optional_header h in
          if negb (fits size table (number_of_sections * 40)) then Val None
          else if size_of_headers <? table + number_of_sections * 40 then Val None
          else
            let? sections := sections_loop data size table (Z.to_nat number_of_sections) 0 [] in
            Val (Some (Layout checksum_offset sde size_of_headers cert_table_offset cert_table_size
                         sections)).

(** ** The hash *)

(** [ctx.update(data + offset, length)] *)
Definition hash_range (data : ptr) (c : sha_ctx) (offset len : Z) : mem sha_ctx :=
  let* bytes := slice data offset len in
  Val (update256 c bytes).

Fixpoint hash_sections (data : ptr) (c : sha_ctx) (extra_data_start : Z)
    (sections : list SectionRange) : mem (sha_ctx * Z) :=
  match sections with
  | [] => Val (c, extra_data_start)
  | s :: sections =>
      let* c := hash_range data c (s_offset s) (s_length s) in
      hash_sections data c (Z.max extra_data_start (s_offset s + s_length s)) sections
  end.

Section pe_hash.
Context (sort : (SectionRange -> SectionRange -> bool) -> list SectionRange -> list SectionRange).

Definition compute_authenticode_pe_hash_sha256 (data : ptr) (size : Z) : mem (option (list byte)) :=
  let? l := pe_layout_of data size in
  let* c := hash_range data reset256 0 (checksum_offset l) in
  let* c := hash_range data c (checksum_offset l + 4)
              (security_dir_entry_offset l - (checksum_offset l + 4)) in
  let* c := hash_range data c (security_dir_entry_offset l + 8)
              (size_of_headers l - (security_dir_entry_offset l + 8)) in
  let* (c, extra_data_start) := hash_sections data c (size_of_headers l) (sort section_before (section_ranges l)) in
  let extra_data_end := if 0 <? cert_table_size l then cert_table_offset l else size in
  if extra_data_start <? extra_data_end then
    if size <? extra_data_end then Val None
    else
      let* c := hash_range data c extra_data_start (extra_data_end - extra_data_start) in
      Val (Some (finalize256 c))
  else Val (Some (finalize256 c)).
End pe_hash.

(** ** The embedded signature *)

Definition extract_authenticode_signature (data : ptr) (size : Z) : mem (option (list byte)) :=
  let? h := pe_header_of data size in
  let sde := opt_header_offset h + data_dir_base h + 4 * 8 in
  if negb (fits size sde 8) then Val None
  else
    let* cert_table_offset := read_u32 data sde in
    let* cert_table_size := read_u32 data (sde + 4) in
    if cert_table_size =? 0 then Val None
    else if cert_table_size <? 8 then Val None
    else if negb (fits size cert_table_offset cert_table_size) then Val None
    else
      let* wc_length := read_u32 data cert_table_offset in
      let* wc_cert_type := read_u16 data (u32 (cert_table_offset + 6)) in
      if negb (wc_cert_type =? 0x0002) then Val None
      else if (wc_length <? 8) || (cert_table_size <? wc_length) then Val None
      else
        let pkcs7_offset := u32 (cert_table_offset + 8) in
        let pkcs7_size := wc_length - 8 in
        if negb (fits size pkcs7_offset pkcs7_size) then Val None
        else
          let* bytes := slice data pkcs7_offset pkcs7_size in
          Val (Some bytes).

(** ** Memory safety *)

Lemma fits_spec size offset len :
  fits size offset len = true <-> offset <= size /\ len <= size - offset.
Proof. unfold fits. rewrite andb_true_iff, !Z.leb_le. done. Qed.

(** Bytes placed at disjoint positions stay below the next power. *)
Lemma lor_byte_bound a b n :
  0 <= n -> 0 <= a < 2 ^ n -> 0 <= Z.lor a (Z.shiftl (bval b) n) < 2 ^ (n + 8).
Proof.
  intros Hn Ha. rewrite lor_shiftl_add by lia. pose proof (bval_range b).
  rewrite Z.pow_add_r by lia. nia.
Qed.

Section pe_safe.
Context (d : list byte) (size : Z) (Hsize : size <= Z.of_nat (length d)).

Lemma read_u16_safe offset :
  0 <= offset -> offset + 2 <= size -> safe (read_u16 (Some d) offset) (fun v => 0 <= v < 2 ^ 16).
Proof using Hsize.
  intros Ho Hs. unfold read_u16. safe_auto.
  apply (lor_byte_bound _ _ 8); [lia|]. apply bval_range.
Qed.

Lemma read_u32_safe offset :
  0 <= offset -> offset + 4 <= size -> safe (read_u32 (Some d) offset) (fun v => 0 <= v < 2 ^ 32).
Proof using Hsize.
  intros Ho Hs. unfold read_u32. safe_auto.
  apply (lor_byte_bound _ _ 24), (lor_byte_bound _ _ 16), (lor_byte_bound _ _ 8); try lia.
  apply bval_range.
Qed.
End pe_safe.

#[export] Hint Extern 1 (safe (read_u16 _ _) _) => eapply read_u16_safe; [eassumption|lia..] : gcad_safe.
#[export] Hint Extern 1 (safe (read_u32 _ _) _) => eapply read_u32_safe; [eassumption|lia..] : gcad_safe.

(** Turns the [fits] tests of the context into inequalities. *)
Ltac fits_facts :=
  bool_facts;
  repeat match goal with
  | H : fits _ _ _ = true |- _ => apply fits_spec in H
  end.

(** Bounds of the wrapped sums of the goal. *)
Ltac wrap_facts :=
  repeat match goal with
  | |- context [u32 ?x] =>
      lazymatch goal with
      | H : 0 <= u32 x <= x |- _ => fail
      | _ => assert (0 <= u32 x <= x) by (apply u32_le; lia)
      end
  end.

Ltac pe_step := first [progress wrap_facts | safe_step; fits_facts].

Section pe_safe2.
Context (d : list byte) (size : Z) (Hsize : size <= Z.of_nat (length d)).

(** The headers lie in the file. *)
Definition header_ok (h : pe_header) : Prop :=
  20 <= opt_header_offset h /\ opt_header_offset h = file_header_offset h + 20 /\
  2 <= size_of_optional_header h < 2 ^ 16 /\
  opt_header_offset h + size_of_optional_header h <= size /\
  (data_dir_base h = 96 \/ data_dir_base h = 112).

Lemma pe_header_safe : safe_opt (pe_header_of (Some d) size) header_ok.
Proof using Hsize.
  unfold pe_header_of. cbn [null orb]. cbv zeta. repeat pe_step.
  all: unfold header_ok; cbn; lia.
Qed.
#[local] Hint Resolve pe_header_safe : gcad_safe.

Definition range_ok (s : SectionRange) : Prop :=
  0 <= s_offset s /\ 0 < s_length s /\ s_offset s + s_length s <= size.

Lemma sections_loop_safe table n i sections :
  0 <= table -> 0 <= i -> table + (i + Z.of_nat n) * 40 <= size -> Forall range_ok sections ->
  safe_opt (sections_loop (Some d) size table n i sections) (Forall range_ok).
Proof using Hsize.
  intros Ht. revert i sections. induction n as [|n IH]; intros i sections Hi Hn Hs;
    cbn [sections_loop]; cbv zeta; repeat pe_step; [done|apply IH; [lia..|done]|].
  apply IH; [lia..|]. apply Forall_app. split; [done|]. repeat constructor; cbn; lia.
Qed.

(** The regions the hash leaves out are disjoint and inside the headers. *)
Definition layout_ok (l : pe_layout) : Prop :=
  64 <= checksum_offset l /\ checksum_offset l + 4 <= security_dir_entry_offset l /\
  security_dir_entry_offset l + 8 <= size_of_headers l /\ size_of_headers l <= size /\
  0 <= cert_table_offset l < 2 ^ 32 /\ 0 <= cert_table_size l < 2 ^ 32 /\
  (0 < cert_table_size l -> cert_table_offset l + cert_table_size l <= size) /\
  Forall range_ok (section_ranges l).

Lemma pe_layout_safe : safe_opt (pe_layout_of (Some d) size) layout_ok.
Proof using Hsize.
  unfold pe_layout_of. safe_step. unfold header_ok in *. destruct_and!. cbv zeta.
  repeat pe_step.
  eapply safe_opt_bind; [apply sections_loop_safe; [lia..|constructor]|].
  intros l Hl. safe_auto. unfold layout_ok. cbn. split_and!; try lia; [|done].
  intros Hpos. match goal with H : (0 <? _) && _ = false |- _ => apply andb_false_iff in H as [H|H] end;
    fits_facts; lia.
Qed.

End pe_safe2.

(** ** The bytes that are hashed *)

(** The bytes [offset .. offset + len) of the file. *)
Definition range (d : list byte) (offset len : Z) : list byte :=
  take (Z.to_nat len) (drop (Z.to_nat offset) d).

Definition section_bytes (d : list byte) (l : list SectionRange) : list byte :=
  mjoin ((fun s => range d (s_offset s) (s_length s)) <$> l).

Lemma section_bytes_concat d l : section_bytes d l = concat (map (fun s => range d (s_offset s) (s_length s)) l).
Proof. unfold section_bytes. induction l as [|s l IH]; [done|]. cbn. by rewrite <- IH. Qed.

(** The end of the headers and of every section. *)
Definition sections_end (start : Z) (l : list SectionRange) : Z :=
  foldl (fun e s => Z.max e (s_offset s + s_length s)) start l.

Definition extra_end (l : pe_layout) (size : Z) : Z :=
  if 0 <? cert_table_size l then cert_table_offset l else size.

Definition hashed_bytes (d : list byte) (size : Z) (l : pe_layout) (sorted : list SectionRange) :
    list byte :=
  let start := sections_end (size_of_headers l) sorted in
  range d 0 (checksum_offset l) ++
  range d (checksum_offset l + 4) (security_dir_entry_offset l - (checksum_offset l + 4)) ++
  range d (security_dir_entry_offset l + 8) (size_of_headers l - (security_dir_entry_offset l + 8)) ++
  section_bytes d sorted ++
  range d start (extra_end l size - start).

Lemma range_split d a b c : 0 <= a <= b -> b <= c -> range d a (b - a) ++ range d b (c - b) = range d a (c - a).
Proof.
  intros Ha Hc. unfold range. replace (Z.to_nat b) with (Z.to_nat a + Z.to_nat (b - a))%nat by lia.
  rewrite <- drop_drop. replace (Z.to_nat (c - a)) with (Z.to_nat (b - a) + Z.to_nat (c - b))%nat by lia.
  apply take_take_drop.
Qed.

Lemma range_nil d a len : len <= 0 -> range d a len = [].
Proof. intros. unfold range. by replace (Z.to_nat len) with 0%nat by lia. Qed.

Lemma range_app d t a len :
  0 <= a -> 0 <= len -> a + len <= Z.of_nat (length d) -> range (d ++ t) a len = range d a len.
Proof.
  intros. unfold range. rewrite drop_app_le, take_app_le by (rewrite ?length_drop; lia). done.
Qed.

Lemma slice_range d a len :
  0 <= a -> 0 <= len -> a + len <= Z.of_nat (length d) -> slice (Some d) a len = Val (range d a len).
Proof.
  intros. unfold slice, range. by rewrite !(proj2 (Z.leb_le _ _)) by lia.
Qed.

Section pe_hash_value.
Context (d : list byte) (size : Z) (Hsize : size <= Z.of_nat (length d)).

#[local] Opaque update256 finalize256.

Lemma hash_range_value c m a len :
  c = update256 reset256 m -> 0 <= a -> 0 <= len -> a + len <= size ->
  hash_range (Some d) c a len = Val (update256 reset256 (m ++ range d a len)).
Proof using Hsize.
  intros -> Ha Hl He. unfold hash_range. rewrite slice_range by lia. cbn [mem_bind].
  by rewrite (stream_app (StreamHash := sha256_stream)).
Qed.

Lemma hash_sections_value m start l :
  Forall (range_ok size) l ->
  hash_sections (Some d) (update256 reset256 m) start l =
  Val (update256 reset256 (m ++ section_bytes d l), sections_end start l).
Proof using Hsize.
  intros Hl. revert m start. induction Hl as [|s l (H1 & H2 & H3) Hl IH]; intros m start;
    cbn [hash_sections].
  - unfold section_bytes. cbn. by rewrite app_nil_r.
  - rewrite (hash_range_value _ m) by (done || lia). cbn [mem_bind]. rewrite IH. do 3 f_equal.
    unfold section_bytes. cbn. by rewrite <- app_assoc.
Qed.

Context (sort : (SectionRange -> SectionRange -> bool) -> list SectionRange -> list SectionRange)
  (Hsort : forall l, sort section_before l ≡ₚ l).

Lemma pe_hash_value :
  compute_authenticode_pe_hash_sha256 sort (Some d) size =
  opt_bind (pe_layout_of (Some d) size)
    (fun l => Val (Some (sha256_digest (hashed_bytes d size l (sort section_before (section_ranges l)))))).
Proof using Hsize Hsort.
  unfold compute_authenticode_pe_hash_sha256.
  pose proof (pe_layout_safe d size Hsize) as Hl.
  destruct (pe_layout_of (Some d) size) as [[l|]|]; [|done|done].
  destruct (Hl l eq_refl) as (H1 & H2 & H3 & H4 & H5 & H6 & H7 & H8). cbn [opt_bind mem_bind].
  rewrite (hash_range_value _ []) by ((by rewrite (stream_nil (StreamHash := sha256_stream))) || lia).
  cbn [mem_bind app]. rewrite (hash_range_value _ _ _ _ eq_refl) by lia. cbn [mem_bind].
  rewrite (hash_range_value _ _ _ _ eq_refl) by lia. cbn [mem_bind].
  assert (Hs : Forall (range_ok size) (sort section_before (section_ranges l))) by (by rewrite Hsort).
  rewrite hash_sections_value by done. cbn [mem_bind]. cbv zeta.
  fold (extra_end l size). unfold hashed_bytes, sha256_digest. cbv zeta.
  set (start := sections_end _ _).
  assert (Hend : extra_end l size <= size).
  { unfold extra_end. destruct (Z.ltb_spec 0 (cert_table_size l)); lia. }
  assert (Hstart : 0 <= start).
  { unfold start. assert (forall e, 0 <= e -> 0 <= sections_end e (sort section_before (section_ranges l))) as Hx;
      [|apply Hx; lia].
    clear start. generalize (sort section_before (section_ranges l)). intros ss. unfold sections_end.
    induction ss as [|x ss IH]; intros e He; [done|]. cbn. apply IH. lia. }
  destruct (Z.ltb_spec start (extra_end l size)).
  - rewrite (proj2 (Z.ltb_ge _ _)) by lia. rewrite (hash_range_value _ _ _ _ eq_refl) by lia.
    cbn [mem_bind]. by rewrite <- !app_assoc.
  - rewrite (range_nil _ start) by lia. by rewrite app_nil_r, <- !app_assoc.
Qed.
End pe_hash_value.

(** ** Appending bytes to the file *)

(** What succeeds on the shorter buffer succeeds on the longer one, with the same
    value. *)
Definition extends {A} (m m' : mem (option A)) : Prop := forall a, m = Val (Some a) -> m' = Val (Some a).
Definition extends_mem {A} (m m' : mem A) : Prop := forall a, m = Val a -> m' = Val a.

Lemma extends_none {A} (m' : mem (option A)) : extends (Val None) m'.
Proof. intros a. discriminate. Qed.

Lemma extends_refl {A} (m : mem (option A)) : extends m m.
Proof. by intros a. Qed.

Lemma extends_bind {A B} (m m' : mem A) (k k' : A -> mem (option B)) :
  extends_mem m m' -> (forall a, extends (k a) (k' a)) -> extends (mem_bind m k) (mem_bind m' k').
Proof. intros Hm Hk b. destruct m as [a|]; [|discriminate]. cbn. rewrite (Hm a eq_refl). apply Hk. Qed.

Lemma extends_opt_bind {A B} (m m' : mem (option A)) (k k' : A -> mem (option B)) :
  extends m m' -> (forall a, extends (k a) (k' a)) -> extends (opt_bind m k) (opt_bind m' k').
Proof.
  intros Hm Hk b. destruct m as [[a|]|]; [|discriminate..]. cbn. rewrite (Hm a eq_refl). apply Hk.
Qed.

Lemma extends_guard {A} (b b' : bool) (k k' : mem (option A)) :
  (b = false -> b' = false) -> extends k k' ->
  extends (if b then Val None else k) (if b' then Val None else k').
Proof. intros Hb Hk. destruct b; [apply extends_none|]. by rewrite Hb. Qed.

Lemma extends_if {A} (b : bool) (k1 k1' k2 k2' : mem (option A)) :
  extends k1 k1' -> extends k2 k2' -> extends (if b then k1 else k2) (if b then k1' else k2').
Proof. by destruct b. Qed.

Lemma extends_mem_bind {A B} (m m' : mem A) (k k' : A -> mem B) :
  extends_mem m m' -> (forall a, extends_mem (k a) (k' a)) -> extends_mem (mem_bind m k) (mem_bind m' k').
Proof. intros Hm Hk b. destruct m as [a|]; [|discriminate]. cbn. rewrite (Hm a eq_refl). apply Hk. Qed.

Section append.
Context (d t : list byte) (size size' : Z) (Hsize : size <= size').

Lemma rd_extends i : extends_mem (rd (Some d) i) (rd (Some (d ++ t)) i).
Proof using d t.
  clear Hsize. intros b. unfold rd. destruct (_ && _) eqn:E; [|discriminate]. bool_facts.
  rewrite (proj2 (Z.leb_le _ _)), (proj2 (Z.ltb_lt _ _)) by (rewrite ?length_app; lia). cbn [andb].
  by rewrite lookup_app_l by lia.
Qed.

Lemma read_u16_extends o : extends_mem (read_u16 (Some d) o) (read_u16 (Some (d ++ t)) o).
Proof using d t. do 2 (apply extends_mem_bind; [apply rd_extends|]; intros). by intros v. Qed.

Lemma read_u32_extends o : extends_mem (read_u32 (Some d) o) (read_u32 (Some (d ++ t)) o).
Proof using d t. do 4 (apply extends_mem_bind; [apply rd_extends|]; intros). by intros v. Qed.

Lemma fits_extends o n : negb (fits size o n) = false -> negb (fits size' o n) = false.
Proof using Hsize. rewrite !negb_false_iff, !fits_spec. lia. Qed.

Lemma cert_fits_extends b o n : b && negb (fits size o n) = false -> b && negb (fits size' o n) = false.
Proof using Hsize. destruct b; [apply fits_extends|done]. Qed.

Ltac extend_step :=
  match goal with
  | |- extends (Val None) _ => apply extends_none
  | |- extends ?m ?m => apply extends_refl
  | |- extends (mem_bind _ _) _ =>
      apply extends_bind; [first [apply rd_extends | apply read_u16_extends | apply read_u32_extends] | intros]
  | |- extends (if negb (fits _ _ _) then _ else _) _ => apply extends_guard; [apply fits_extends|]
  | |- extends (if _ && negb (fits _ _ _) then _ else _) _ => apply extends_guard; [apply cert_fits_extends|]
  | |- extends (if _ then _ else _) _ => apply extends_if
  end.

Lemma pe_header_extends : extends (pe_header_of (Some d) size) (pe_header_of (Some (d ++ t)) size').
Proof using Hsize.
  unfold pe_header_of. cbn [null orb]. cbv zeta. apply extends_guard; [lia|]. repeat extend_step.
Qed.

Lemma sections_extends table n i l :
  extends (sections_loop (Some d) size table n i l) (sections_loop (Some (d ++ t)) size' table n i l).
Proof using Hsize.
  revert i l. induction n as [|n IH]; intros i l; cbn [sections_loop]; cbv zeta; repeat extend_step; apply IH.
Qed.

Lemma pe_layout_extends : extends (pe_layout_of (Some d) size) (pe_layout_of (Some (d ++ t)) size').
Proof using Hsize.
  unfold pe_layout_of. cbv zeta. apply extends_opt_bind; [apply pe_header_extends|]. intros h.
  repeat extend_step. apply extends_opt_bind; [apply sections_extends|]. intros l. apply extends_refl.
Qed.
End append.

Lemma hashed_bytes_app d t l sorted :
  layout_ok (Z.of_nat (length d)) l -> Forall (range_ok (Z.of_nat (length d))) sorted ->
  0 < cert_table_size l ->
  hashed_bytes (d ++ t) (Z.of_nat (length (d ++ t))) l sorted =
  hashed_bytes d (Z.of_nat (length d)) l sorted.
Proof.
  intros (H1 & H2 & H3 & H4 & H5 & H6 & H7 & H8) Hs Hc. unfold hashed_bytes. cbv zeta.
  rewrite !range_app by lia. do 4 f_equal.
  - unfold section_bytes. f_equal. induction Hs as [|s l' (G1 & G2 & G3) Hs IH]; [done|].
    cbn. rewrite IH. by rewrite range_app by lia.
  - unfold extra_end. rewrite (proj2 (Z.ltb_lt _ _) Hc). specialize (H7 Hc).
    set (start := sections_end _ _).
    assert (Hst : size_of_headers l <= start).
    { unfold start. generalize (size_of_headers l). clear. intros e. unfold sections_end. revert e.
      induction sorted as [|s l' IH]; intros e; cbn; [lia|]. specialize (IH (Z.max e (s_offset s + s_length s))). lia. }
    destruct (Z.le_gt_cases (cert_table_offset l - start) 0).
    + by rewrite !range_nil by lia.
    + by rewrite range_app by lia.
Qed.

(** ** The usual layout *)

(** The sections follow one another from [start] on. *)
Fixpoint contiguous (start : Z) (l : list SectionRange) : Prop :=
  match l with
  | [] => True
  | s :: l => s_offset s = start /\ contiguous (start + s_length s) l
  end.

Lemma contiguous_bytes d size start l :
  0 <= start -> Forall (range_ok size) l -> contiguous start l ->
  section_bytes d l = range d start (sections_end start l - start) /\ start <= sections_end start l.
Proof.
  intros Hst Hl. revert start Hst. induction Hl as [|s l (H1 & H2 & H3) Hl IH]; intros start Hst Hc.
  - unfold sections_end. cbn. rewrite range_nil by lia. split; [done|lia].
  - destruct Hc as [Eo Hc].
    assert (He : sections_end start (s :: l) = sections_end (start + s_length s) l).
    { unfold sections_end. cbn [foldl]. f_equal. lia. }
    destruct (IH (start + s_length s) ltac:(lia) Hc) as [IHb IHe]. rewrite He. split; [|lia].
    change (section_bytes d (s :: l)) with (range d (s_offset s) (s_length s) ++ section_bytes d l).
    rewrite IHb, Eo. rewrite <- (range_split d start (start + s_length s)) by lia.
    do 2 f_equal. lia.
Qed.

Lemma hashed_bytes_usual d l sorted :
  layout_ok (Z.of_nat (length d)) l -> Forall (range_ok (Z.of_nat (length d))) sorted ->
  contiguous (size_of_headers l) sorted ->
  sections_end (size_of_headers l) sorted <= extra_end l (Z.of_nat (length d)) ->
  hashed_bytes d (Z.of_nat (length d)) l sorted =
  range d 0 (checksum_offset l) ++
  range d (checksum_offset l + 4) (security_dir_entry_offset l - (checksum_offset l + 4)) ++
  range d (security_dir_entry_offset l + 8)
    (extra_end l (Z.of_nat (length d)) - (security_dir_entry_offset l + 8)).
Proof.
  intros (H1 & H2 & H3 & H4 & H5 & H6 & H7 & H8) Hs Hc He. unfold hashed_bytes. cbv zeta.
  destruct (contiguous_bytes d _ (size_of_headers l) sorted ltac:(lia) Hs Hc) as [-> Hle].
  do 2 f_equal. rewrite range_split by lia. apply range_split; lia.
Qed.

(** ** The embedded signature *)

Lemma extract_safe d size :
  size <= Z.of_nat (length d) ->
  safe_opt (extract_authenticode_signature (Some d) size) (fun l => infix_of l d).
Proof.
  intros Hsize. unfold extract_authenticode_signature.
  eapply safe_opt_bind; [by apply pe_header_safe|]. intros h (H1 & H2 & H3 & H4 & H5). cbv zeta.
  repeat pe_step.
  match goal with H : _ = take _ _ /\ _ |- _ => destruct H as [-> _] end. apply infix_take_drop.
Qed.

Lemma layout_certificate d size l :
  pe_layout_of (Some d) size = Val (Some l) ->
  exists h, pe_header_of (Some d) size = Val (Some h) /\
    read_u32 (Some d) (opt_header_offset h + data_dir_base h + 4 * 8) = Val (cert_table_offset l) /\
    read_u32 (Some d) (opt_header_offset h + data_dir_base h + 4 * 8 + 4) = Val (cert_table_size l).
Proof.
  intros H. unfold pe_layout_of in H. cbv zeta in H. mem_inv H. subst l. by exists r.
Qed.

Lemma extract_certificate d l bytes :
  Z.of_nat (length d) < 2 ^ 32 ->
  pe_layout_of (Some d) (Z.of_nat (length d)) = Val (Some l) ->
  extract_authenticode_signature (Some d) (Z.of_nat (length d)) = Val (Some bytes) ->
  exists n, 0 <= n <= cert_table_size l - 8 /\ bytes = range d (cert_table_offset l + 8) n /\
    cert_table_offset l + cert_table_size l <= Z.of_nat (length d).
Proof.
  intros Hd Hl He.
  assert (layout_ok (Z.of_nat (length d)) l) as (H1 & H2 & H3 & H4 & H5 & H6 & H7 & H8).
  { eapply safe_opt_some_inv; [|exact Hl]. by apply pe_layout_safe. }
  destruct (layout_certificate _ _ _ Hl) as (h & Hh & Hoff & Hsz).
  unfold extract_authenticode_signature in He. rewrite Hh in He. cbn [opt_bind mem_bind] in He.
  cbv zeta in He. rewrite Hoff, Hsz in He. cbn [mem_bind] in He. mem_inv He. subst.
  fits_facts. assert (Hcs : cert_table_offset l + cert_table_size l <= Z.of_nat (length d)) by lia.
  match goal with H : slice _ _ _ = Val _ |- _ => rename H into Hs end.
  rewrite u32_small in * by lia. rewrite slice_range in Hs by lia. injection Hs as <-.
  eexists. split; [|split; [reflexivity|done]]. lia.
Qed.

(** ** Properties *)

Lemma section_before_weak l : strict_weak_on section_before l.
Proof. unfold section_before. split; [intros x y _ _|intros x y z _ _ _]; rewrite ?Z.ltb_lt, ?Z.ltb_ge; lia. Qed.

(** C24: [compute_authenticode_pe_hash_sha256] is total and memory safe on every file, and
    has a result exactly when the headers are well formed.  The result is the hash of the
    headers without the CheckSum field and without the certificate directory entry, then of
    every section with raw data in order of their offsets, then of the bytes behind the
    headers and the sections up to the certificate table, or to the end of the file when
    there is no table.  So the table and whatever follows it are left out, and when the
    sections follow one another behind the headers, the bytes hashed are those before the
    table or the end of the file, less the two fields. *)
Theorem pe_hash_covers (sort : (SectionRange -> SectionRange -> bool) -> list SectionRange -> list SectionRange) (d : list byte) :
  std_sort sort ->
  let size := Z.of_nat (length d) in
  exists layout, pe_layout_of (Some d) size = Val layout /\
    match layout with
    | None => compute_authenticode_pe_hash_sha256 sort (Some d) size = Val None
    | Some l => exists sections,
        sections ≡ₚ section_ranges l /\ StronglySorted (fun a b => s_offset a <= s_offset b) sections /\
        Forall (fun s => 0 <= s_offset s /\ 0 < s_length s /\ s_offset s + s_length s <= size) sections /\
        let check_sum := checksum_offset l in
        let entry := security_dir_entry_offset l in
        let start := foldl (fun e s => Z.max e (s_offset s + s_length s)) (size_of_headers l) sections in
        let stop := if 0 <? cert_table_size l then cert_table_offset l else size in
        64 <= check_sum /\ check_sum + 4 <= entry /\ entry + 8 <= size_of_headers l <= size /\ 0 <= stop <= size /\
        (exists hashed, compute_authenticode_pe_hash_sha256 sort (Some d) size = Val (Some (sha256_digest hashed)) /\
          hashed =
            take (Z.to_nat check_sum) d ++
            range d (check_sum + 4) (entry - (check_sum + 4)) ++
            range d (entry + 8) (size_of_headers l - (entry + 8)) ++
            concat (map (fun s => range d (s_offset s) (s_length s)) sections) ++
            range d start (stop - start) /\
          (contiguous (size_of_headers l) sections -> start <= stop ->
           hashed =
             take (Z.to_nat check_sum) d ++
             range d (check_sum + 4) (entry - (check_sum + 4)) ++
             range d (entry + 8) (stop - (entry + 8))))
    end.
Proof.
  intros Hstd size. set (Hsort := fun l => proj1 (Hstd section_before l (section_before_weak l))).
  rewrite pe_hash_value by done.
  destruct (safe_inv _ _ (pe_layout_safe d size ltac:(done))) as ([l|] & -> & Hok); (eexists; split; [reflexivity|]); [|done].
  specialize (Hok l eq_refl). pose proof Hok as (H1 & H2 & H3 & H4 & H5 & H6 & H7 & H8). cbn [opt_bind mem_bind].
  exists (sort section_before (section_ranges l)).
  assert (Hs : Forall (range_ok size) (sort section_before (section_ranges l))) by by rewrite Hsort.
  split; [apply Hsort|]. split.
  { generalize (proj2 (Hstd section_before _ (section_before_weak (section_ranges l)))). generalize (sort section_before (section_ranges l)). clear.
    induction 1 as [|a k Hk IH Ha]; constructor; [done|]. eapply Forall_impl; [exact Ha|]. intros b. unfold section_before. cbn. lia. }
  split; [exact Hs|]. cbv zeta. fold (extra_end l size). fold (sections_end (size_of_headers l) (sort section_before (section_ranges l))).
  split_and!; [lia..| | |].
  1-2: unfold extra_end; destruct (Z.ltb_spec 0 (cert_table_size l)); lia.
  eexists. split; [reflexivity|]. change (take (Z.to_nat (checksum_offset l)) d) with (range d 0 (checksum_offset l)). split.
  - unfold hashed_bytes. cbv zeta. by rewrite section_bytes_concat.
  - intros Hc He. by apply hashed_bytes_usual.
Qed.

(** The smallest signed image: PE32 headers of 224 bytes, no section, and a
    certificate table of ten bytes behind them. *)
Definition le32 (z : Z) : list byte := [byte_of z; byte_of (z / 256); byte_of (z / 65536); byte_of (z / 16777216)].

Definition tiny_pe : list byte :=
  [x4d; x5a] ++ replicate 58 x00 ++ le32 64 ++ [x50; x45; x00; x00] ++ replicate 16 x00 ++
  [byte_of 136; x00; x00; x00; x0b; x01] ++ replicate 58 x00 ++ le32 224 ++ replicate 64 x00 ++
  le32 224 ++ le32 10 ++ le32 10 ++ [x00; x02; x02; x00; xaa; xbb].

Lemma pe_hash_covers_witness :
  exists h, compute_authenticode_pe_hash_sha256 insert_sort (Some tiny_pe) 234 = Val (Some h).
Proof.
  destruct (pe_hash_covers insert_sort tiny_pe insert_sort_std) as (layout & Hl & Hc).
  change (Z.of_nat (length tiny_pe)) with 234 in *.
  assert (Hs : pe_layout_of (Some tiny_pe) 234 = Val (Some (Layout 152 216 224 224 10 [])))
    by (vm_compute; reflexivity).
  rewrite Hs in Hl. injection Hl as <-. destruct Hc as (sections & _ & _ & _ & _ & _ & _ & _ & hashed & Hc & _). eexists. exact Hc.
Defined.

(** bytes appended behind a signed file are not covered by the hash: when the
    headers name a certificate table, the file followed by any bytes has the same
    Authenticode hash as the file. *)
Theorem pe_hash_ignores_trailing_bytes (sort : (SectionRange -> SectionRange -> bool) -> list SectionRange -> list SectionRange)
    (d t : list byte) (l : pe_layout) :
  (forall l, sort section_before l ≡ₚ l) ->
  pe_layout_of (Some d) (Z.of_nat (length d)) = Val (Some l) -> 0 < cert_table_size l ->
  compute_authenticode_pe_hash_sha256 sort (Some (d ++ t)) (Z.of_nat (length (d ++ t))) =
  compute_authenticode_pe_hash_sha256 sort (Some d) (Z.of_nat (length d)).
Proof.
  intros Hsort Hl Hc. rewrite !pe_hash_value by done.
  rewrite (pe_layout_extends d t (Z.of_nat (length d)) (Z.of_nat (length (d ++ t))) ltac:(rewrite length_app; lia) l Hl).
  rewrite Hl. cbn [opt_bind mem_bind].
  assert (Hok : layout_ok (Z.of_nat (length d)) l).
  { eapply safe_opt_some_inv; [|exact Hl]. by apply pe_layout_safe. }
  rewrite hashed_bytes_app; [done|done| |done]. rewrite Hsort. apply Hok.
Qed.

Lemma pe_hash_ignores_trailing_bytes_witness :
  compute_authenticode_pe_hash_sha256 insert_sort (Some (tiny_pe ++ [xde; xad])) 236 =
  compute_authenticode_pe_hash_sha256 insert_sort (Some tiny_pe) 234.
Proof.
  apply (pe_hash_ignores_trailing_bytes insert_sort tiny_pe [xde; xad] (Layout 152 216 224 224 10 []));
    [apply (insert_sort_perm section_before) | vm_compute; reflexivity | reflexivity].
Defined.

(** [extract_authenticode_signature] is total and memory safe, and the bytes it
    returns are the payload of the certificate entry at the start of the
    certificate table: they lie inside the table the hash leaves out. *)
Theorem extracted_signature_in_certificate_table (d : list byte) :
  Z.of_nat (length d) < 2 ^ 32 ->
  exists r, extract_authenticode_signature (Some d) (Z.of_nat (length d)) = Val r /\
    forall bytes l, r = Some bytes -> pe_layout_of (Some d) (Z.of_nat (length d)) = Val (Some l) ->
      exists n, 0 <= n <= cert_table_size l - 8 /\ bytes = range d (cert_table_offset l + 8) n /\
        cert_table_offset l + cert_table_size l <= Z.of_nat (length d).
Proof.
  intros Hd. destruct (safe_inv _ _ (extract_safe d _ ltac:(done))) as (r & Hr & _).
  exists r. split; [done|]. intros bytes l -> Hl. by eapply extract_certificate.
Qed.

Lemma extracted_signature_in_certificate_table_witness :
  exists r, extract_authenticode_signature (Some tiny_pe) 234 = Val r /\ r = Some [xaa; xbb].
Proof.
  destruct (extracted_signature_in_certificate_table tiny_pe) as (r & Hr & _); [reflexivity|].
  exists r. split; [exact Hr|]. change (Z.of_nat (length tiny_pe)) with 234 in Hr.
  assert (He : extract_authenticode_signature (Some tiny_pe) 234 = Val (Some [xaa; xbb]))
    by (vm_compute; reflexivity).
  rewrite He in Hr. by injection Hr.
Defined.
