(* ===== verification/TrustAnchors.v ===== *)
(** * TrustAnchors: the compiled-in root certificates

    Models src/src/security/trust_anchors.cpp: the five DER tables, byte for byte,
    the parse of all of them, and the lookup by subject name. *)
From S2P Require Import Prelude Sha2 Asn1 X509.

#[local] Open Scope mem_scope.

(** ** The tables *)

Definition kDigiCertTrustedRootG4Der : list byte := [
  x30; x82; x05; x90; x30; x82; x03; x78; xa0; x03; x02; x01;
  x02; x02; x10; x05; x9b; x1b; x57; x9e; x8e; x21; x32; xe2;
  x39; x07; xbd; xa7; x77; x75; x5c; x30; x0d; x06; x09; x2a;
  x86; x48; x86; xf7; x0d; x01; x01; x0c; x05; x00; x30; x62;
  x31; x0b; x30; x09; x06; x03; x55; x04; x06; x13; x02; x55;
  x53; x31; x15; x30; x13; x06; x03; x55; x04; x0a; x13; x0c;
  x44; x69; x67; x69; x43; x65; x72; x74; x20; x49; x6e; x63;
  x31; x19; x30; x17; x06; x03; x55; x04; x0b; x13; x10; x77;
  x77; x77; x2e; x64; x69; x67; x69; x63; x65; x72; x74; x2e;
  x63; x6f; x6d; x31; x21; x30; x1f; x06; x03; x55; x04; x03;
  x13; x18; x44; x69; x67; x69; x43; x65; x72; x74; x20; x54;
  x72; x75; x73; x74; x65; x64; x20; x52; x6f; x6f; x74; x20;
  x47; x34; x30; x1e; x17; x0d; x31; x33; x30; x38; x30; x31;
  x31; x32; x30; x30; x30; x30; x5a; x17; x0d; x33; x38; x30;
  x31; x31; x35; x31; x32; x30; x30; x30; x30; x5a; x30; x62;
  x31; x0b; x30; x09; x06; x03; x55; x04; x06; x13; x02; x55;
  x53; x31; x15; x30; x13; x06; x03; x55; x04; x0a; x13; x0c;
  x44; x69; x67; x69; x43; x65; x72; x74; x20; x49; x6e; x63;
  x31; x19; x30; x17; x06; x03; x55; x04; x0b; x13; x10; x77;
  x77; x77; x2e; x64; x69; x67; x69; x63; x65; x72; x74; x2e;
  x63; x6f; x6d; x31; x21; x30; x1f; x06; x03; x55; x04; x03;
  x13; x18; x44; x69; x67; x69; x43; x65; x72; x74; x20; x54;
  x72; x75; x73; x74; x65; x64; x20; x52; x6f; x6f; x74; x20;
  x47; x34; x30; x82; x02; x22; x30; x0d; x06; x09; x2a; x86;
  x48; x86; xf7; x0d; x01; x01; x01; x05; x00; x03; x82; x02;
  x0f; x00; x30; x82; x02; x0a; x02; x82; x02; x01; x00; xbf;
  xe6; x90; x73; x68; xde; xbb; xe4; x5d; x4a; x3c; x30; x22;
  x30; x69; x33; xec; xc2; xa7; x25; x2e; xc9; x21; x3d; xf2;
  x8a; xd8; x59; xc2; xe1; x29; xa7; x3d; x58; xab; x76; x9a;
  xcd; xae; x7b; x1b; x84; x0d; xc4; x30; x1f; xf3; x1b; xa4;
  x38; x16; xeb; x56; xc6; x97; x6d; x1d; xab; xb2; x79; xf2;
  xca; x11; xd2; xe4; x5f; xd6; x05; x3c; x52; x0f; x52; x1f;
  xc6; x9e; x15; xa5; x7e; xbe; x9f; xa9; x57; x16; x59; x55;
  x72; xaf; x68; x93; x70; xc2; xb2; xba; x75; x99; x6a; x73;
  x32; x94; xd1; x10; x44; x10; x2e; xdf; x82; xf3; x07; x84;
  xe6; x74; x3b; x6d; x71; xe2; x2d; x0c; x1b; xee; x20; xd5;
  xc9; x20; x1d; x63; x29; x2d; xce; xec; x5e; x4e; xc8; x93;
  xf8; x21; x61; x9b; x34; xeb; x05; xc6; x5e; xec; x5b; x1a;
  xbc; xeb; xc9; xcf; xcd; xac; x34; x40; x5f; xb1; x7a; x66;
  xee; x77; xc8; x48; xa8; x66; x57; x57; x9f; x54; x58; x8e;
  x0c; x2b; xb7; x4f; xa7; x30; xd9; x56; xee; xca; x7b; x5d;
  xe3; xad; xc9; x4f; x5e; xe5; x35; xe7; x31; xcb; xda; x93;
  x5e; xdc; x8e; x8f; x80; xda; xb6; x91; x98; x40; x90; x79;
  xc3; x78; xc7; xb6; xb1; xc4; xb5; x6a; x18; x38; x03; x10;
  x8d; xd8; xd4; x37; xa4; x2e; x05; x7d; x88; xf5; x82; x3e;
  x10; x91; x70; xab; x55; x82; x41; x32; xd7; xdb; x04; x73;
  x2a; x6e; x91; x01; x7c; x21; x4c; xd4; xbc; xae; x1b; x03;
  x75; x5d; x78; x66; xd9; x3a; x31; x44; x9a; x33; x40; xbf;
  x08; xd7; x5a; x49; xa4; xc2; xe6; xa9; xa0; x67; xdd; xa4;
  x27; xbc; xa1; x4f; x39; xb5; x11; x58; x17; xf7; x24; x5c;
  x46; x8f; x64; xf7; xc1; x69; x88; x76; x98; x76; x3d; x59;
  x5d; x42; x76; x87; x89; x97; x69; x7a; x48; xf0; xe0; xa2;
  x12; x1b; x66; x9a; x74; xca; xde; x4b; x1e; xe7; x0e; x63;
  xae; xe6; xd4; xef; x92; x92; x3a; x9e; x3d; xdc; x00; xe4;
  x45; x25; x89; xb6; x9a; x44; x19; x2b; x7e; xc0; x94; xb4;
  xd2; x61; x6d; xeb; x33; xd9; xc5; xdf; x4b; x04; x00; xcc;
  x7d; x1c; x95; xc3; x8f; xf7; x21; xb2; xb2; x11; xb7; xbb;
  x7f; xf2; xd5; x8c; x70; x2c; x41; x60; xaa; xb1; x63; x18;
  x44; x95; x1a; x76; x62; x7e; xf6; x80; xb0; xfb; xe8; x64;
  xa6; x33; xd1; x89; x07; xe1; xbd; xb7; xe6; x43; xa4; x18;
  xb8; xa6; x77; x01; xe1; x0f; x94; x0c; x21; x1d; xb2; x54;
  x29; x25; x89; x6c; xe5; x0e; x52; x51; x47; x74; xbe; x26;
  xac; xb6; x41; x75; xde; x7a; xac; x5f; x8d; x3f; xc9; xbc;
  xd3; x41; x11; x12; x5b; xe5; x10; x50; xeb; x31; xc5; xca;
  x72; x16; x22; x09; xdf; x7c; x4c; x75; x3f; x63; xec; x21;
  x5f; xc4; x20; x51; x6b; x6f; xb1; xab; x86; x8b; x4f; xc2;
  xd6; x45; x5f; x9d; x20; xfc; xa1; x1e; xc5; xc0; x8f; xa2;
  xb1; x7e; x0a; x26; x99; xf5; xe4; x69; x2f; x98; x1d; x2d;
  xf5; xd9; xa9; xb2; x1d; xe5; x1b; x02; x03; x01; x00; x01;
  xa3; x42; x30; x40; x30; x0f; x06; x03; x55; x1d; x13; x01;
  x01; xff; x04; x05; x30; x03; x01; x01; xff; x30; x0e; x06;
  x03; x55; x1d; x0f; x01; x01; xff; x04; x04; x03; x02; x01;
  x86; x30; x1d; x06; x03; x55; x1d; x0e; x04; x16; x04; x14;
  xec; xd7; xe3; x82; xd2; x71; x5d; x64; x4c; xdf; x2e; x67;
  x3f; xe7; xba; x98; xae; x1c; x0f; x4f; x30; x0d; x06; x09;
  x2a; x86; x48; x86; xf7; x0d; x01; x01; x0c; x05; x00; x03;
  x82; x02; x01; x00; xbb; x61; xd9; x7d; xa9; x6c; xbe; x17;
  xc4; x91; x1b; xc3; xa1; xa2; x00; x8d; xe3; x64; x68; x0f;
  x56; xcf; x77; xae; x70; xf9; xfd; x9a; x4a; x99; xb9; xc9;
  x78; x5c; x0c; x0c; x5f; xe4; xe6; x14; x29; x56; x0b; x36;
  x49; x5d; x44; x63; xe0; xad; x9c; x96; x18; x66; x1b; x23;
  x0d; x3d; x79; xe9; x6d; x6b; xd6; x54; xf8; xd2; x3c; xc1;
  x43; x40; xae; x1d; x50; xf5; x52; xfc; x90; x3b; xbb; x98;
  x99; x69; x6b; xc7; xc1; xa7; xa8; x68; xa4; x27; xdc; x9d;
  xf9; x27; xae; x30; x85; xb9; xf6; x67; x4d; x3a; x3e; x8f;
  x59; x39; x22; x53; x44; xeb; xc8; x5d; x03; xca; xed; x50;
  x7a; x7d; x62; x21; x0a; x80; xc8; x73; x66; xd1; xa0; x05;
  x60; x5f; xe8; xa5; xb4; xa7; xaf; xa8; xf7; x6d; x35; x9c;
  x7c; x5a; x8a; xd6; xa2; x38; x99; xf3; x78; x8b; xf4; x4d;
  xd2; x20; x0b; xde; x04; xee; x8c; x9b; x47; x81; x72; x0d;
  xc0; x14; x32; xef; x30; x59; x2e; xae; xe0; x71; xf2; x56;
  xe4; x6a; x97; x6f; x92; x50; x6d; x96; x8d; x68; x7a; x9a;
  xb2; x36; x14; x7a; x06; xf2; x24; xb9; x09; x11; x50; xd7;
  x08; xb1; xb8; x89; x7a; x84; x23; x61; x42; x29; xe5; xa3;
  xcd; xa2; x20; x41; xd7; xd1; x9c; x64; xd9; xea; x26; xa1;
  x8b; x14; xd7; x4c; x19; xb2; x50; x41; x71; x3d; x3f; x4d;
  x70; x23; x86; x0c; x4a; xdc; x81; xd2; xcc; x32; x94; x84;
  x0d; x08; x09; x97; x1c; x4f; xc0; xee; x6b; x20; x74; x30;
  xd2; xe0; x39; x34; x10; x85; x21; x15; x01; x08; xe8; x55;
  x32; xde; x71; x49; xd9; x28; x17; x50; x4d; xe6; xbe; x4d;
  xd1; x75; xac; xd0; xca; xfb; x41; xb8; x43; xa5; xaa; xd3;
  xc3; x05; x44; x4f; x2c; x36; x9b; xe2; xfa; xe2; x45; xb8;
  x23; x53; x6c; x06; x6f; x67; x55; x7f; x46; xb5; x4c; x3f;
  x6e; x28; x5a; x79; x26; xd2; xa4; xa8; x62; x97; xd2; x1e;
  xe2; xed; x4a; x8b; xbc; x1b; xfd; x47; x4a; x0d; xdf; x67;
  x66; x7e; xb2; x5b; x41; xd0; x3b; xe4; xf4; x3b; xf4; x04;
  x63; xe9; xef; xc2; x54; x00; x51; xa0; x8a; x2a; xc9; xce;
  x78; xcc; xd5; xea; x87; x04; x18; xb3; xce; xaf; x49; x88;
  xaf; xf3; x92; x99; xb6; xb3; xe6; x61; x0f; xd2; x85; x00;
  xe7; x50; x1a; xe4; x1b; x95; x9d; x19; xa1; xb9; x9c; xb1;
  x9b; xb1; x00; x1e; xef; xd0; x0f; x4f; x42; x6c; xc9; x0a;
  xbc; xee; x43; xfa; x3a; x71; xa5; xc8; x4d; x26; xa5; x35;
  xfd; x89; x5d; xbc; x85; x62; x1d; x32; xd2; xa0; x2b; x54;
  xed; x9a; x57; xc1; xdb; xfa; x10; xcf; x19; xb7; x8b; x4a;
  x1b; x8f; x01; xb6; x27; x95; x53; xe8; xb6; x89; x6d; x5b;
  xbc; x68; xd4; x23; xe8; x8b; x51; xa2; x56; xf9; xf0; xa6;
  x80; xa0; xd6; x1e; xb3; xbc; x0f; x0f; x53; x75; x29; xaa;
  xea; x13; x77; xe4; xde; x8c; x81; x21; xad; x07; x10; x47;
  x11; xad; x87; x3d; x07; xd1; x75; xbc; xcf; xf3; x66; x7e].

Definition kDigiCertGlobalRootG2Der : list byte := [
  x30; x82; x03; x8e; x30; x82; x02; x76; xa0; x03; x02; x01;
  x02; x02; x10; x03; x3a; xf1; xe6; xa7; x11; xa9; xa0; xbb;
  x28; x64; xb1; x1d; x09; xfa; xe5; x30; x0d; x06; x09; x2a;
  x86; x48; x86; xf7; x0d; x01; x01; x0b; x05; x00; x30; x61;
  x31; x0b; x30; x09; x06; x03; x55; x04; x06; x13; x02; x55;
  x53; x31; x15; x30; x13; x06; x03; x55; x04; x0a; x13; x0c;
  x44; x69; x67; x69; x43; x65; x72; x74; x20; x49; x6e; x63;
  x31; x19; x30; x17; x06; x03; x55; x04; x0b; x13; x10; x77;
  x77; x77; x2e; x64; x69; x67; x69; x63; x65; x72; x74; x2e;
  x63; x6f; x6d; x31; x20; x30; x1e; x06; x03; x55; x04; x03;
  x13; x17; x44; x69; x67; x69; x43; x65; x72; x74; x20; x47;
  x6c; x6f; x62; x61; x6c; x20; x52; x6f; x6f; x74; x20; x47;
  x32; x30; x1e; x17; x0d; x31; x33; x30; x38; x30; x31; x31;
  x32; x30; x30; x30; x30; x5a; x17; x0d; x33; x38; x30; x31;
  x31; x35; x31; x32; x30; x30; x30; x30; x5a; x30; x61; x31;
  x0b; x30; x09; x06; x03; x55; x04; x06; x13; x02; x55; x53;
  x31; x15; x30; x13; x06; x03; x55; x04; x0a; x13; x0c; x44;
  x69; x67; x69; x43; x65; x72; x74; x20; x49; x6e; x63; x31;
  x19; x30; x17; x06; x03; x55; x04; x0b; x13; x10; x77; x77;
  x77; x2e; x64; x69; x67; x69; x63; x65; x72; x74; x2e; x63;
  x6f; x6d; x31; x20; x30; x1e; x06; x03; x55; x04; x03; x13;
  x17; x44; x69; x67; x69; x43; x65; x72; x74; x20; x47; x6c;
  x6f; x62; x61; x6c; x20; x52; x6f; x6f; x74; x20; x47; x32;
  x30; x82; x01; x22; x30; x0d; x06; x09; x2a; x86; x48; x86;
  xf7; x0d; x01; x01; x01; x05; x00; x03; x82; x01; x0f; x00;
  x30; x82; x01; x0a; x02; x82; x01; x01; x00; xbb; x37; xcd;
  x34; xdc; x7b; x6b; xc9; xb2; x68; x90; xad; x4a; x75; xff;
  x46; xba; x21; x0a; x08; x8d; xf5; x19; x54; xc9; xfb; x88;
  xdb; xf3; xae; xf2; x3a; x89; x91; x3c; x7a; xe6; xab; x06;
  x1a; x6b; xcf; xac; x2d; xe8; x5e; x09; x24; x44; xba; x62;
  x9a; x7e; xd6; xa3; xa8; x7e; xe0; x54; x75; x20; x05; xac;
  x50; xb7; x9c; x63; x1a; x6c; x30; xdc; xda; x1f; x19; xb1;
  xd7; x1e; xde; xfd; xd7; xe0; xcb; x94; x83; x37; xae; xec;
  x1f; x43; x4e; xdd; x7b; x2c; xd2; xbd; x2e; xa5; x2f; xe4;
  xa9; xb8; xad; x3a; xd4; x99; xa4; xb6; x25; xe9; x9b; x6b;
  x00; x60; x92; x60; xff; x4f; x21; x49; x18; xf7; x67; x90;
  xab; x61; x06; x9c; x8f; xf2; xba; xe9; xb4; xe9; x92; x32;
  x6b; xb5; xf3; x57; xe8; x5d; x1b; xcd; x8c; x1d; xab; x95;
  x04; x95; x49; xf3; x35; x2d; x96; xe3; x49; x6d; xdd; x77;
  xe3; xfb; x49; x4b; xb4; xac; x55; x07; xa9; x8f; x95; xb3;
  xb4; x23; xbb; x4c; x6d; x45; xf0; xf6; xa9; xb2; x95; x30;
  xb4; xfd; x4c; x55; x8c; x27; x4a; x57; x14; x7c; x82; x9d;
  xcd; x73; x92; xd3; x16; x4a; x06; x0c; x8c; x50; xd1; x8f;
  x1e; x09; xbe; x17; xa1; xe6; x21; xca; xfd; x83; xe5; x10;
  xbc; x83; xa5; x0a; xc4; x67; x28; xf6; x73; x14; x14; x3d;
  x46; x76; xc3; x87; x14; x89; x21; x34; x4d; xaf; x0f; x45;
  x0c; xa6; x49; xa1; xba; xbb; x9c; xc5; xb1; x33; x83; x29;
  x85; x02; x03; x01; x00; x01; xa3; x42; x30; x40; x30; x0f;
  x06; x03; x55; x1d; x13; x01; x01; xff; x04; x05; x30; x03;
  x01; x01; xff; x30; x0e; x06; x03; x55; x1d; x0f; x01; x01;
  xff; x04; x04; x03; x02; x01; x86; x30; x1d; x06; x03; x55;
  x1d; x0e; x04; x16; x04; x14; x4e; x22; x54; x20; x18; x95;
  xe6; xe3; x6e; xe6; x0f; xfa; xfa; xb9; x12; xed; x06; x17;
  x8f; x39; x30; x0d; x06; x09; x2a; x86; x48; x86; xf7; x0d;
  x01; x01; x0b; x05; x00; x03; x82; x01; x01; x00; x60; x67;
  x28; x94; x6f; x0e; x48; x63; xeb; x31; xdd; xea; x67; x18;
  xd5; x89; x7d; x3c; xc5; x8b; x4a; x7f; xe9; xbe; xdb; x2b;
  x17; xdf; xb0; x5f; x73; x77; x2a; x32; x13; x39; x81; x67;
  x42; x84; x23; xf2; x45; x67; x35; xec; x88; xbf; xf8; x8f;
  xb0; x61; x0c; x34; xa4; xae; x20; x4c; x84; xc6; xdb; xf8;
  x35; xe1; x76; xd9; xdf; xa6; x42; xbb; xc7; x44; x08; x86;
  x7f; x36; x74; x24; x5a; xda; x6c; x0d; x14; x59; x35; xbd;
  xf2; x49; xdd; xb6; x1f; xc9; xb3; x0d; x47; x2a; x3d; x99;
  x2f; xbb; x5c; xbb; xb5; xd4; x20; xe1; x99; x5f; x53; x46;
  x15; xdb; x68; x9b; xf0; xf3; x30; xd5; x3e; x31; xe2; x8d;
  x84; x9e; xe3; x8a; xda; xda; x96; x3e; x35; x13; xa5; x5f;
  xf0; xf9; x70; x50; x70; x47; x41; x11; x57; x19; x4e; xc0;
  x8f; xae; x06; xc4; x95; x13; x17; x2f; x1b; x25; x9f; x75;
  xf2; xb1; x8e; x99; xa1; x6f; x13; xb1; x41; x71; xfe; x88;
  x2a; xc8; x4f; x10; x20; x55; xd7; xf3; x14; x45; xe5; xe0;
  x44; xf4; xea; x87; x95; x32; x93; x0e; xfe; x53; x46; xfa;
  x2c; x9d; xff; x8b; x22; xb9; x4b; xd9; x09; x45; xa4; xde;
  xa4; xb8; x9a; x58; xdd; x1b; x7d; x52; x9f; x8e; x59; x43;
  x88; x81; xa4; x9e; x26; xd5; x6f; xad; xdd; x0d; xc6; x37;
  x7d; xed; x03; x92; x1b; xe5; x77; x5f; x76; xee; x3c; x8d;
  xc4; x5d; x56; x5b; xa2; xd9; x66; x6e; xb3; x35; x37; xe5;
  x32; xb6].

Definition kMicrosoftRoot2011Der : list byte := [
  x30; x82; x05; xed; x30; x82; x03; xd5; xa0; x03; x02; x01;
  x02; x02; x10; x3f; x8b; xc8; xb5; xfc; x9f; xb2; x96; x43;
  xb5; x69; xd6; x6c; x42; xe1; x44; x30; x0d; x06; x09; x2a;
  x86; x48; x86; xf7; x0d; x01; x01; x0b; x05; x00; x30; x81;
  x88; x31; x0b; x30; x09; x06; x03; x55; x04; x06; x13; x02;
  x55; x53; x31; x13; x30; x11; x06; x03; x55; x04; x08; x13;
  x0a; x57; x61; x73; x68; x69; x6e; x67; x74; x6f; x6e; x31;
  x10; x30; x0e; x06; x03; x55; x04; x07; x13; x07; x52; x65;
  x64; x6d; x6f; x6e; x64; x31; x1e; x30; x1c; x06; x03; x55;
  x04; x0a; x13; x15; x4d; x69; x63; x72; x6f; x73; x6f; x66;
  x74; x20; x43; x6f; x72; x70; x6f; x72; x61; x74; x69; x6f;
  x6e; x31; x32; x30; x30; x06; x03; x55; x04; x03; x13; x29;
  x4d; x69; x63; x72; x6f; x73; x6f; x66; x74; x20; x52; x6f;
  x6f; x74; x20; x43; x65; x72; x74; x69; x66; x69; x63; x61;
  x74; x65; x20; x41; x75; x74; x68; x6f; x72; x69; x74; x79;
  x20; x32; x30; x31; x31; x30; x1e; x17; x0d; x31; x31; x30;
  x33; x32; x32; x32; x32; x30; x35; x32; x38; x5a; x17; x0d;
  x33; x36; x30; x33; x32; x32; x32; x32; x31; x33; x30; x34;
  x5a; x30; x81; x88; x31; x0b; x30; x09; x06; x03; x55; x04;
  x06; x13; x02; x55; x53; x31; x13; x30; x11; x06; x03; x55;
  x04; x08; x13; x0a; x57; x61; x73; x68; x69; x6e; x67; x74;
  x6f; x6e; x31; x10; x30; x0e; x06; x03; x55; x04; x07; x13;
  x07; x52; x65; x64; x6d; x6f; x6e; x64; x31; x1e; x30; x1c;
  x06; x03; x55; x04; x0a; x13; x15; x4d; x69; x63; x72; x6f;
  x73; x6f; x66; x74; x20; x43; x6f; x72; x70; x6f; x72; x61;
  x74; x69; x6f; x6e; x31; x32; x30; x30; x06; x03; x55; x04;
  x03; x13; x29; x4d; x69; x63; x72; x6f; x73; x6f; x66; x74;
  x20; x52; x6f; x6f; x74; x20; x43; x65; x72; x74; x69; x66;
  x69; x63; x61; x74; x65; x20; x41; x75; x74; x68; x6f; x72;
  x69; x74; x79; x20; x32; x30; x31; x31; x30; x82; x02; x22;
  x30; x0d; x06; x09; x2a; x86; x48; x86; xf7; x0d; x01; x01;
  x01; x05; x00; x03; x82; x02; x0f; x00; x30; x82; x02; x0a;
  x02; x82; x02; x01; x00; xb2; x80; x41; xaa; x35; x38; x4d;
  x13; x72; x32; x68; x22; x4d; xb8; xb2; xf1; xff; xd5; x52;
  xbc; x6c; xc7; xf5; xd2; x4a; x8c; x36; xee; xd1; xc2; x5c;
  x7e; x8c; x8a; xae; xaf; x13; x28; x6f; xc0; x73; xe3; x3a;
  xce; xd0; x25; xa8; x5a; x3a; x6d; xef; xa8; xb8; x59; xab;
  x13; x23; x68; xcd; x0c; x29; x87; xd1; x6f; x80; x5c; x8f;
  x44; x7f; x5d; x90; x01; x52; x58; xac; x51; xc5; x5f; x2a;
  x87; xdc; xdc; xd8; x0a; x1d; xc1; x03; xb9; x7b; xb0; x56;
  xe8; xa3; xde; x64; x61; xc2; x9e; xf8; xf3; x7c; xb9; xec;
  x0d; xb5; x54; xfe; x4c; xb6; x65; x4f; x88; xf0; x9c; x48;
  x99; x0c; x42; x0b; x09; x7c; x31; x59; x17; x79; x06; x78;
  x28; x8d; x89; x3a; x4c; x03; x25; xbe; x71; x6a; x5c; x0b;
  xe7; x84; x60; xa4; x99; x22; xe3; xd2; xaf; x84; xa4; xa7;
  xfb; xd1; x98; xed; x0c; xa9; xde; x94; x89; xe1; x0e; xa0;
  xdc; xc0; xce; x99; x3d; xea; x08; x52; xbb; x56; x79; xe4;
  x1f; x84; xba; x1e; xb8; xb4; xc4; x49; x5c; x4f; x31; x4b;
  x87; xdd; xdd; x05; x67; x26; x99; x80; xe0; x71; x11; xa3;
  xb8; xa5; x41; xe2; xa4; x53; xb9; xf7; x32; x29; x83; x0c;
  x13; xbf; x36; x5e; x04; xb3; x4b; x43; x47; x2f; x6b; xe2;
  x91; x1e; xd3; x98; x4f; xdd; x42; x07; xc8; xe8; x1d; x12;
  xfc; x99; xa9; x6b; x3e; x92; x7e; xc8; xd6; x69; x3a; xfc;
  x64; xbd; xb6; x09; x9d; xca; xfd; x0c; x0b; xa2; x9b; x77;
  x60; x4b; x03; x94; xa4; x30; x69; x12; xd6; x42; x2d; xc1;
  x41; x4c; xca; xdc; xaa; xfd; x8f; x5b; x83; x46; x9a; xd9;
  xfc; xb1; xd1; xe3; xb3; xc9; x7f; x48; x7a; xcd; x24; xf0;
  x41; x8f; x5c; x74; xd0; xac; xb0; x10; x20; x06; x49; xb7;
  xc7; x2d; x21; xc8; x57; xe3; xd0; x86; xf3; x03; x68; xfb;
  xd0; xce; x71; xc1; x89; x99; x4a; x64; x01; x6c; xfd; xec;
  x30; x91; xcf; x41; x3c; x92; xc7; xe5; xba; x86; x1d; x61;
  x84; xc7; x5f; x83; x39; x62; xae; xb4; x92; x2f; x47; xf3;
  x0b; xf8; x55; xeb; xa0; x1f; x59; xd0; xbb; x74; x9b; x1e;
  xd0; x76; xe6; xf2; xe9; x06; xd7; x10; xe8; xfa; x64; xde;
  x69; xc6; x35; x96; x88; x02; xf0; x46; xb8; x3f; x27; x99;
  x6f; xcb; x71; x89; x29; x35; xf7; x48; x16; x02; x35; x8f;
  xd5; x79; x7c; x4d; x02; xcf; x5f; xeb; x8a; x83; x4f; x45;
  x71; x88; xf9; xa9; x0d; x4e; x72; xe9; xc2; x9c; x07; xcf;
  x49; x1b; x4e; x04; x0e; x63; x51; x8c; x5e; xd8; x00; xc1;
  x55; x2c; xb6; xc6; xe0; xc2; x65; x4e; xc9; x34; x39; xf5;
  x9c; xb3; xc4; x7e; xe8; x61; x6e; x13; x5f; x15; xc4; x5f;
  xd9; x7e; xed; x1d; xce; xee; x44; xec; xcb; x2e; x86; xb1;
  xec; x38; xf6; x70; xed; xab; x5c; x13; xc1; xd9; x0f; x0d;
  xc7; x80; xb2; x55; xed; x34; xf7; xac; x9b; xe4; xc3; xda;
  xe7; x47; x3c; xa6; xb5; x8f; x31; xdf; xc5; x4b; xaf; xeb;
  xf1; x02; x03; x01; x00; x01; xa3; x51; x30; x4f; x30; x0b;
  x06; x03; x55; x1d; x0f; x04; x04; x03; x02; x01; x86; x30;
  x0f; x06; x03; x55; x1d; x13; x01; x01; xff; x04; x05; x30;
  x03; x01; x01; xff; x30; x1d; x06; x03; x55; x1d; x0e; x04;
  x16; x04; x14; x72; x2d; x3a; x02; x31; x90; x43; xb9; x14;
  x05; x4e; xe1; xea; xa7; xc7; x31; xd1; x23; x89; x34; x30;
  x10; x06; x09; x2b; x06; x01; x04; x01; x82; x37; x15; x01;
  x04; x03; x02; x01; x00; x30; x0d; x06; x09; x2a; x86; x48;
  x86; xf7; x0d; x01; x01; x0b; x05; x00; x03; x82; x02; x01;
  x00; x7f; x72; xcf; x0f; xb7; xc5; x15; xdb; x9b; xc0; x49;
  xca; x26; x5b; xfe; x9e; x13; xe6; xd3; xf0; xd2; xdb; x97;
  x5f; xf2; x4b; x3f; x4d; xb3; xae; x19; xae; xed; xd7; x97;
  xa0; xac; xef; xa9; x3a; xa3; xc2; x41; xb0; xe5; xb8; x91;
  x9e; x13; x81; x24; x03; xe6; x09; xfd; x3f; x57; x40; x39;
  x21; x24; x56; xd1; x10; x2f; x4b; x40; xa9; x36; x86; x4b;
  xb4; x53; x57; x9a; xfb; xf1; x7e; x89; x8f; x11; xfe; x18;
  x6c; x51; xaa; xe8; xed; x09; x95; xb5; xe5; x71; xc9; xa1;
  xe9; x87; x75; xa6; x15; x7f; xc9; x7e; x37; x54; x5e; x74;
  x93; xc5; xc3; x67; xcc; x0d; x4f; x6b; xa8; x17; x0c; x6d;
  x08; x92; x7e; x8b; xdd; x81; xaa; x2d; x70; x21; xc3; x3d;
  x06; x14; xbb; xbf; x24; x5e; xa7; x84; xd7; x3f; x0f; x21;
  x22; xbd; x4b; x00; x06; xdb; x97; x1c; xd8; x5e; xd4; xc5;
  x0b; x5c; x87; x6e; x50; xa4; xe8; xc3; x38; xa4; xfb; xcb;
  x2c; xc5; x92; x66; x9b; x85; x5e; xcb; x7a; x6c; x93; x7c;
  x80; x29; x58; x5b; x57; xb5; x40; x69; xba; x08; x79; xa6;
  x64; x62; x15; x9d; x87; x96; x45; xb5; x66; x23; x20; x03;
  x8b; x1c; x73; xa0; xd3; xa2; x79; x33; xe0; x50; x59; x86;
  xdb; x2f; xe5; x02; x25; xea; x73; x2a; x9f; x00; x14; xc8;
  x36; xc7; x92; x3b; xe9; x4e; x00; xec; xd8; x56; x09; xb9;
  x33; x49; x12; xd2; x54; x0b; x01; xab; xac; x47; xb6; x91;
  x29; x7d; x4c; xb4; x75; x80; x52; x01; xe8; xca; x82; xf6;
  x9f; xcc; xac; x9c; x8f; x17; xea; x2f; x26; xb0; xab; x72;
  xac; x0b; xfe; x9e; x51; x1e; xc7; x43; x55; x67; x4f; x51;
  xb3; x57; xd6; xb6; xec; xee; x52; xb7; x3a; xe9; x4e; xe1;
  xd7; x81; x88; xbc; x4f; x8e; x75; xbb; x4b; xa8; xf0; x35;
  xaa; x26; xd4; x67; x67; x49; xb2; x70; x4c; x3b; x93; xdc;
  x1d; xdf; x78; x90; x86; x72; xb2; x38; xa4; xd1; xdc; x92;
  x4d; xc9; x58; xeb; x2b; x12; x5c; xd4; x3b; xae; x8c; x6b;
  xb0; x83; xe5; x01; x3f; xf8; x09; x32; xf6; x93; x35; x34;
  x22; xaf; xdd; x37; x0d; x77; x09; x80; x2b; xcd; x48; x00;
  xf1; x8c; x99; x19; x47; x05; x01; xe9; xd1; xbf; xd1; x4e;
  xd0; xe6; x28; x43; x37; x99; xa4; x0a; x4a; x08; xd9; x9a;
  x71; x73; xd2; xaa; xcd; x31; x13; x63; x76; xa1; x37; x6f;
  x92; x38; x1e; x7d; x12; x3c; x66; x32; xe7; xcb; x6d; xe1;
  xfc; x52; x89; xdd; xca; xd6; x66; x05; x9a; x96; x61; xbe;
  xa2; x28; xc7; x1c; xa3; xa7; x36; x50; x3c; x3a; xa4; xdf;
  x4a; x6e; xe6; x87; x3b; xce; xeb; xf0; xe0; x81; x37; x9d;
  x13; x3c; x52; x8e; xbd; xb9; x1d; x34; xc6; x1d; xd5; x0a;
  x6a; x3d; x98; x29; x70; x8c; x89; x2a; xd1; xab; x82; x10;
  x48; x1f; xdc; xf4; xef; xa5; xc5; xbb; x55; x1a; x38; x63;
  x84; x4e; xb7; x6c; xad; x95; x54; xec; x65; x22; x10; x49;
  x17; xb8; xc0; x1e; xc7; x0f; xac; x54; x47].

Definition kUserTrustRsaRootDer : list byte := [
  x30; x82; x05; xde; x30; x82; x03; xc6; xa0; x03; x02; x01;
  x02; x02; x10; x01; xfd; x6d; x30; xfc; xa3; xca; x51; xa8;
  x1b; xbc; x64; x0e; x35; x03; x2d; x30; x0d; x06; x09; x2a;
  x86; x48; x86; xf7; x0d; x01; x01; x0c; x05; x00; x30; x81;
  x88; x31; x0b; x30; x09; x06; x03; x55; x04; x06; x13; x02;
  x55; x53; x31; x13; x30; x11; x06; x03; x55; x04; x08; x13;
  x0a; x4e; x65; x77; x20; x4a; x65; x72; x73; x65; x79; x31;
  x14; x30; x12; x06; x03; x55; x04; x07; x13; x0b; x4a; x65;
  x72; x73; x65; x79; x20; x43; x69; x74; x79; x31; x1e; x30;
  x1c; x06; x03; x55; x04; x0a; x13; x15; x54; x68; x65; x20;
  x55; x53; x45; x52; x54; x52; x55; x53; x54; x20; x4e; x65;
  x74; x77; x6f; x72; x6b; x31; x2e; x30; x2c; x06; x03; x55;
  x04; x03; x13; x25; x55; x53; x45; x52; x54; x72; x75; x73;
  x74; x20; x52; x53; x41; x20; x43; x65; x72; x74; x69; x66;
  x69; x63; x61; x74; x69; x6f; x6e; x20; x41; x75; x74; x68;
  x6f; x72; x69; x74; x79; x30; x1e; x17; x0d; x31; x30; x30;
  x32; x30; x31; x30; x30; x30; x30; x30; x30; x5a; x17; x0d;
  x33; x38; x30; x31; x31; x38; x32; x33; x35; x39; x35; x39;
  x5a; x30; x81; x88; x31; x0b; x30; x09; x06; x03; x55; x04;
  x06; x13; x02; x55; x53; x31; x13; x30; x11; x06; x03; x55;
  x04; x08; x13; x0a; x4e; x65; x77; x20; x4a; x65; x72; x73;
  x65; x79; x31; x14; x30; x12; x06; x03; x55; x04; x07; x13;
  x0b; x4a; x65; x72; x73; x65; x79; x20; x43; x69; x74; x79;
  x31; x1e; x30; x1c; x06; x03; x55; x04; x0a; x13; x15; x54;
  x68; x65; x20; x55; x53; x45; x52; x54; x52; x55; x53; x54;
  x20; x4e; x65; x74; x77; x6f; x72; x6b; x31; x2e; x30; x2c;
  x06; x03; x55; x04; x03; x13; x25; x55; x53; x45; x52; x54;
  x72; x75; x73; x74; x20; x52; x53; x41; x20; x43; x65; x72;
  x74; x69; x66; x69; x63; x61; x74; x69; x6f; x6e; x20; x41;
  x75; x74; x68; x6f; x72; x69; x74; x79; x30; x82; x02; x22;
  x30; x0d; x06; x09; x2a; x86; x48; x86; xf7; x0d; x01; x01;
  x01; x05; x00; x03; x82; x02; x0f; x00; x30; x82; x02; x0a;
  x02; x82; x02; x01; x00; x80; x12; x65; x17; x36; x0e; xc3;
  xdb; x08; xb3; xd0; xac; x57; x0d; x76; xed; xcd; x27; xd3;
  x4c; xad; x50; x83; x61; xe2; xaa; x20; x4d; x09; x2d; x64;
  x09; xdc; xce; x89; x9f; xcc; x3d; xa9; xec; xf6; xcf; xc1;
  xdc; xf1; xd3; xb1; xd6; x7b; x37; x28; x11; x2b; x47; xda;
  x39; xc6; xbc; x3a; x19; xb4; x5f; xa6; xbd; x7d; x9d; xa3;
  x63; x42; xb6; x76; xf2; xa9; x3b; x2b; x91; xf8; xe2; x6f;
  xd0; xec; x16; x20; x90; x09; x3e; xe2; xe8; x74; xc9; x18;
  xb4; x91; xd4; x62; x64; xdb; x7f; xa3; x06; xf1; x88; x18;
  x6a; x90; x22; x3c; xbc; xfe; x13; xf0; x87; x14; x7b; xf6;
  xe4; x1f; x8e; xd4; xe4; x51; xc6; x11; x67; x46; x08; x51;
  xcb; x86; x14; x54; x3f; xbc; x33; xfe; x7e; x6c; x9c; xff;
  x16; x9d; x18; xbd; x51; x8e; x35; xa6; xa7; x66; xc8; x72;
  x67; xdb; x21; x66; xb1; xd4; x9b; x78; x03; xc0; x50; x3a;
  xe8; xcc; xf0; xdc; xbc; x9e; x4c; xfe; xaf; x05; x96; x35;
  x1f; x57; x5a; xb7; xff; xce; xf9; x3d; xb7; x2c; xb6; xf6;
  x54; xdd; xc8; xe7; x12; x3a; x4d; xae; x4c; x8a; xb7; x5c;
  x9a; xb4; xb7; x20; x3d; xca; x7f; x22; x34; xae; x7e; x3b;
  x68; x66; x01; x44; xe7; x01; x4e; x46; x53; x9b; x33; x60;
  xf7; x94; xbe; x53; x37; x90; x73; x43; xf3; x32; xc3; x53;
  xef; xdb; xaa; xfe; x74; x4e; x69; xc7; x6b; x8c; x60; x93;
  xde; xc4; xc7; x0c; xdf; xe1; x32; xae; xcc; x93; x3b; x51;
  x78; x95; x67; x8b; xee; x3d; x56; xfe; x0c; xd0; x69; x0f;
  x1b; x0f; xf3; x25; x26; x6b; x33; x6d; xf7; x6e; x47; xfa;
  x73; x43; xe5; x7e; x0e; xa5; x66; xb1; x29; x7c; x32; x84;
  x63; x55; x89; xc4; x0d; xc1; x93; x54; x30; x19; x13; xac;
  xd3; x7d; x37; xa7; xeb; x5d; x3a; x6c; x35; x5c; xdb; x41;
  xd7; x12; xda; xa9; x49; x0b; xdf; xd8; x80; x8a; x09; x93;
  x62; x8e; xb5; x66; xcf; x25; x88; xcd; x84; xb8; xb1; x3f;
  xa4; x39; x0f; xd9; x02; x9e; xeb; x12; x4c; x95; x7c; xf3;
  x6b; x05; xa9; x5e; x16; x83; xcc; xb8; x67; xe2; xe8; x13;
  x9d; xcc; x5b; x82; xd3; x4c; xb3; xed; x5b; xff; xde; xe5;
  x73; xac; x23; x3b; x2d; x00; xbf; x35; x55; x74; x09; x49;
  xd8; x49; x58; x1a; x7f; x92; x36; xe6; x51; x92; x0e; xf3;
  x26; x7d; x1c; x4d; x17; xbc; xc9; xec; x43; x26; xd0; xbf;
  x41; x5f; x40; xa9; x44; x44; xf4; x99; xe7; x57; x87; x9e;
  x50; x1f; x57; x54; xa8; x3e; xfd; x74; x63; x2f; xb1; x50;
  x65; x09; xe6; x58; x42; x2e; x43; x1a; x4c; xb4; xf0; x25;
  x47; x59; xfa; x04; x1e; x93; xd4; x26; x46; x4a; x50; x81;
  xb2; xde; xbe; x78; xb7; xfc; x67; x15; xe1; xc9; x57; x84;
  x1e; x0f; x63; xd6; xe9; x62; xba; xd6; x5f; x55; x2e; xea;
  x5c; xc6; x28; x08; x04; x25; x39; xb8; x0e; x2b; xa9; xf2;
  x4c; x97; x1c; x07; x3f; x0d; x52; xf5; xed; xef; x2f; x82;
  x0f; x02; x03; x01; x00; x01; xa3; x42; x30; x40; x30; x1d;
  x06; x03; x55; x1d; x0e; x04; x16; x04; x14; x53; x79; xbf;
  x5a; xaa; x2b; x4a; xcf; x54; x80; xe1; xd8; x9b; xc0; x9d;
  xf2; xb2; x03; x66; xcb; x30; x0e; x06; x03; x55; x1d; x0f;
  x01; x01; xff; x04; x04; x03; x02; x01; x06; x30; x0f; x06;
  x03; x55; x1d; x13; x01; x01; xff; x04; x05; x30; x03; x01;
  x01; xff; x30; x0d; x06; x09; x2a; x86; x48; x86; xf7; x0d;
  x01; x01; x0c; x05; x00; x03; x82; x02; x01; x00; x5c; xd4;
  x7c; x0d; xcf; xf7; x01; x7d; x41; x99; x65; x0c; x73; xc5;
  x52; x9f; xcb; xf8; xcf; x99; x06; x7f; x1b; xda; x43; x15;
  x9f; x9e; x02; x55; x57; x96; x14; xf1; x52; x3c; x27; x87;
  x94; x28; xed; x1f; x3a; x01; x37; xa2; x76; xfc; x53; x50;
  xc0; x84; x9b; xc6; x6b; x4e; xba; x8c; x21; x4f; xa2; x8e;
  x55; x62; x91; xf3; x69; x15; xd8; xbc; x88; xe3; xc4; xaa;
  x0b; xfd; xef; xa8; xe9; x4b; x55; x2a; x06; x20; x6d; x55;
  x78; x29; x19; xee; x5f; x30; x5c; x4b; x24; x11; x55; xff;
  x24; x9a; x6e; x5e; x2a; x2b; xee; x0b; x4d; x9f; x7f; xf7;
  x01; x38; x94; x14; x95; x43; x07; x09; xfb; x60; xa9; xee;
  x1c; xab; x12; x8c; xa0; x9a; x5e; xa7; x98; x6a; x59; x6d;
  x8b; x3f; x08; xfb; xc8; xd1; x45; xaf; x18; x15; x64; x90;
  x12; x0f; x73; x28; x2e; xc5; xe2; x24; x4e; xfc; x58; xec;
  xf0; xf4; x45; xfe; x22; xb3; xeb; x2f; x8e; xd2; xd9; x45;
  x61; x05; xc1; x97; x6f; xa8; x76; x72; x8f; x8b; x8c; x36;
  xaf; xbf; x0d; x05; xce; x71; x8d; xe6; xa6; x6f; x1f; x6c;
  xa6; x71; x62; xc5; xd8; xd0; x83; x72; x0c; xf1; x67; x11;
  x89; x0c; x9c; x13; x4c; x72; x34; xdf; xbc; xd5; x71; xdf;
  xaa; x71; xdd; xe1; xb9; x6c; x8c; x3c; x12; x5d; x65; xda;
  xbd; x57; x12; xb6; x43; x6b; xff; xe5; xde; x4d; x66; x11;
  x51; xcf; x99; xae; xec; x17; xb6; xe8; x71; x91; x8c; xde;
  x49; xfe; xdd; x35; x71; xa2; x15; x27; x94; x1c; xcf; x61;
  xe3; x26; xbb; x6f; xa3; x67; x25; x21; x5d; xe6; xdd; x1d;
  x0b; x2e; x68; x1b; x3b; x82; xaf; xec; x83; x67; x85; xd4;
  x98; x51; x74; xb1; xb9; x99; x80; x89; xff; x7f; x78; x19;
  x5c; x79; x4a; x60; x2e; x92; x40; xae; x4c; x37; x2a; x2c;
  xc9; xc7; x62; xc8; x0e; x5d; xf7; x36; x5b; xca; xe0; x25;
  x25; x01; xb4; xdd; x1a; x07; x9c; x77; x00; x3f; xd0; xdc;
  xd5; xec; x3d; xd4; xfa; xbb; x3f; xcc; x85; xd6; x6f; x7f;
  xa9; x2d; xdf; xb9; x02; xf7; xf5; x97; x9a; xb5; x35; xda;
  xc3; x67; xb0; x87; x4a; xa9; x28; x9e; x23; x8e; xff; x5c;
  x27; x6b; xe1; xb0; x4f; xf3; x07; xee; x00; x2e; xd4; x59;
  x87; xcb; x52; x41; x95; xea; xf4; x47; xd7; xee; x64; x41;
  x55; x7c; x8d; x59; x02; x95; xdd; x62; x9d; xc2; xb9; xee;
  x5a; x28; x74; x84; xa5; x9b; xb7; x90; xc7; x0c; x07; xdf;
  xf5; x89; x36; x74; x32; xd6; x28; xc1; xb0; xb0; x0b; xe0;
  x9c; x4c; xc3; x1c; xd6; xfc; xe3; x69; xb5; x47; x46; x81;
  x2f; xa2; x82; xab; xd3; x63; x44; x70; xc4; x8d; xff; x2d;
  x33; xba; xad; x8f; x7b; xb5; x70; x88; xae; x3e; x19; xcf;
  x40; x28; xd8; xfc; xc8; x90; xbb; x5d; x99; x22; xf5; x52;
  xe6; x58; xc5; x1f; x88; x31; x43; xee; x88; x1d; xd7; xc6;
  x8e; x3c; x43; x6a; x1d; xa7; x18; xde; x7d; x3d; x16; xf1;
  x62; xf9; xca; x90; xa8; xfd].

Definition kGlobalSignRootR3Der : list byte := [
  x30; x82; x03; x5f; x30; x82; x02; x47; xa0; x03; x02; x01;
  x02; x02; x0b; x04; x00; x00; x00; x00; x01; x21; x58; x53;
  x08; xa2; x30; x0d; x06; x09; x2a; x86; x48; x86; xf7; x0d;
  x01; x01; x0b; x05; x00; x30; x4c; x31; x20; x30; x1e; x06;
  x03; x55; x04; x0b; x13; x17; x47; x6c; x6f; x62; x61; x6c;
  x53; x69; x67; x6e; x20; x52; x6f; x6f; x74; x20; x43; x41;
  x20; x2d; x20; x52; x33; x31; x13; x30; x11; x06; x03; x55;
  x04; x0a; x13; x0a; x47; x6c; x6f; x62; x61; x6c; x53; x69;
  x67; x6e; x31; x13; x30; x11; x06; x03; x55; x04; x03; x13;
  x0a; x47; x6c; x6f; x62; x61; x6c; x53; x69; x67; x6e; x30;
  x1e; x17; x0d; x30; x39; x30; x33; x31; x38; x31; x30; x30;
  x30; x30; x30; x5a; x17; x0d; x32; x39; x30; x33; x31; x38;
  x31; x30; x30; x30; x30; x30; x5a; x30; x4c; x31; x20; x30;
  x1e; x06; x03; x55; x04; x0b; x13; x17; x47; x6c; x6f; x62;
  x61; x6c; x53; x69; x67; x6e; x20; x52; x6f; x6f; x74; x20;
  x43; x41; x20; x2d; x20; x52; x33; x31; x13; x30; x11; x06;
  x03; x55; x04; x0a; x13; x0a; x47; x6c; x6f; x62; x61; x6c;
  x53; x69; x67; x6e; x31; x13; x30; x11; x06; x03; x55; x04;
  x03; x13; x0a; x47; x6c; x6f; x62; x61; x6c; x53; x69; x67;
  x6e; x30; x82; x01; x22; x30; x0d; x06; x09; x2a; x86; x48;
  x86; xf7; x0d; x01; x01; x01; x05; x00; x03; x82; x01; x0f;
  x00; x30; x82; x01; x0a; x02; x82; x01; x01; x00; xcc; x25;
  x76; x90; x79; x06; x78; x22; x16; xf5; xc0; x83; xb6; x84;
  xca; x28; x9e; xfd; x05; x76; x11; xc5; xad; x88; x72; xfc;
  x46; x02; x43; xc7; xb2; x8a; x9d; x04; x5f; x24; xcb; x2e;
  x4b; xe1; x60; x82; x46; xe1; x52; xab; x0c; x81; x47; x70;
  x6c; xdd; x64; xd1; xeb; xf5; x2c; xa3; x0f; x82; x3d; x0c;
  x2b; xae; x97; xd7; xb6; x14; x86; x10; x79; xbb; x3b; x13;
  x80; x77; x8c; x08; xe1; x49; xd2; x6a; x62; x2f; x1f; x5e;
  xfa; x96; x68; xdf; x89; x27; x95; x38; x9f; x06; xd7; x3e;
  xc9; xcb; x26; x59; x0d; x73; xde; xb0; xc8; xe9; x26; x0e;
  x83; x15; xc6; xef; x5b; x8b; xd2; x04; x60; xca; x49; xa6;
  x28; xf6; x69; x3b; xf6; xcb; xc8; x28; x91; xe5; x9d; x8a;
  x61; x57; x37; xac; x74; x14; xdc; x74; xe0; x3a; xee; x72;
  x2f; x2e; x9c; xfb; xd0; xbb; xbf; xf5; x3d; x00; xe1; x06;
  x33; xe8; x82; x2b; xae; x53; xa6; x3a; x16; x73; x8c; xdd;
  x41; x0e; x20; x3a; xc0; xb4; xa7; xa1; xe9; xb2; x4f; x90;
  x2e; x32; x60; xe9; x57; xcb; xb9; x04; x92; x68; x68; xe5;
  x38; x26; x60; x75; xb2; x9f; x77; xff; x91; x14; xef; xae;
  x20; x49; xfc; xad; x40; x15; x48; xd1; x02; x31; x61; x19;
  x5e; xb8; x97; xef; xad; x77; xb7; x64; x9a; x7a; xbf; x5f;
  xc1; x13; xef; x9b; x62; xfb; x0d; x6c; xe0; x54; x69; x16;
  xa9; x03; xda; x6e; xe9; x83; x93; x71; x76; xc6; x69; x85;
  x82; x17; x02; x03; x01; x00; x01; xa3; x42; x30; x40; x30;
  x0e; x06; x03; x55; x1d; x0f; x01; x01; xff; x04; x04; x03;
  x02; x01; x06; x30; x0f; x06; x03; x55; x1d; x13; x01; x01;
  xff; x04; x05; x30; x03; x01; x01; xff; x30; x1d; x06; x03;
  x55; x1d; x0e; x04; x16; x04; x14; x8f; xf0; x4b; x7f; xa8;
  x2e; x45; x24; xae; x4d; x50; xfa; x63; x9a; x8b; xde; xe2;
  xdd; x1b; xbc; x30; x0d; x06; x09; x2a; x86; x48; x86; xf7;
  x0d; x01; x01; x0b; x05; x00; x03; x82; x01; x01; x00; x4b;
  x40; xdb; xc0; x50; xaa; xfe; xc8; x0c; xef; xf7; x96; x54;
  x45; x49; xbb; x96; x00; x09; x41; xac; xb3; x13; x86; x86;
  x28; x07; x33; xca; x6b; xe6; x74; xb9; xba; x00; x2d; xae;
  xa4; x0a; xd3; xf5; xf1; xf1; x0f; x8a; xbf; x73; x67; x4a;
  x83; xc7; x44; x7b; x78; xe0; xaf; x6e; x6c; x6f; x03; x29;
  x8e; x33; x39; x45; xc3; x8e; xe4; xb9; x57; x6c; xaa; xfc;
  x12; x96; xec; x53; xc6; x2d; xe4; x24; x6c; xb9; x94; x63;
  xfb; xdc; x53; x68; x67; x56; x3e; x83; xb8; xcf; x35; x21;
  xc3; xc9; x68; xfe; xce; xda; xc2; x53; xaa; xcc; x90; x8a;
  xe9; xf0; x5d; x46; x8c; x95; xdd; x7a; x58; x28; x1a; x2f;
  x1d; xde; xcd; x00; x37; x41; x8f; xed; x44; x6d; xd7; x53;
  x28; x97; x7e; xf3; x67; x04; x1e; x15; xd7; x8a; x96; xb4;
  xd3; xde; x4c; x27; xa4; x4c; x1b; x73; x73; x76; xf4; x17;
  x99; xc2; x1f; x7a; x0e; xe3; x2d; x08; xad; x0a; x1c; x2c;
  xff; x3c; xab; x55; x0e; x0f; x91; x7e; x36; xeb; xc3; x57;
  x49; xbe; xe1; x2e; x2d; x7c; x60; x8b; xc3; x41; x51; x13;
  x23; x9d; xce; xf7; x32; x6b; x94; x01; xa8; x99; xe7; x2c;
  x33; x1f; x3a; x3b; x25; xd2; x86; x40; xce; x3b; x2c; x86;
  x78; xc9; x61; x2f; x14; xba; xee; xdb; x55; x6f; xdf; x84;
  xee; x05; x09; x4d; xbd; x28; xd8; x72; xce; xd3; x62; x50;
  x65; x1e; xeb; x92; x97; x83; x31; xd9; xb3; xb5; xca; x47;
  x58; x3f; x5f].

(** ** Parsing and lookup *)

(** The loop of [parse_all_roots]: a table that does not parse is skipped. *)
Fixpoint parse_roots (ders : list (list byte)) (roots : list X509Certificate) :
    mem (list X509Certificate) :=
  match ders with
  | [] => Val roots
  | der :: ders =>
      let* cert := x509_parse der in
      parse_roots ders (match cert with Some c => roots ++ [c] | None => roots end)
  end.

Definition parse_all_roots : mem (list X509Certificate) :=
  parse_roots [kDigiCertTrustedRootG4Der; kDigiCertGlobalRootG2Der; kMicrosoftRoot2011Der;
               kUserTrustRsaRootDer; kGlobalSignRootR3Der] [].

(** The function-local static, initialised on first use. *)
Definition trusted_root_certificates : list X509Certificate :=
  match parse_all_roots with Val roots => roots | OOB => [] end.

(** The first root with this subject; every caller only reads through the pointer. *)
Fixpoint find_by_subject (roots : list X509Certificate) (subject : list byte) : option X509Certificate :=
  match roots with
  | [] => None
  | root :: roots =>
      if bool_decide (subject_der root = subject) then Some root else find_by_subject roots subject
  end.

Definition find_trust_anchor_by_subject (subject : list byte) : option X509Certificate :=
  find_by_subject trusted_root_certificates subject.

(** ** Facts about the tables *)

(** What the chain walk needs of a root, without its thumbprint. *)
Definition root_summary (c : X509Certificate) : string * string * bool * option (nat * list byte) :=
  (subject_common_name c, not_after c, bool_decide (issuer_der c = subject_der c),
   (fun k => (length (modulus k), exponent k)) <$> rsa_public_key c).

Lemma roots_computed :
  (root_summary <$> trusted_root_certificates,
   bool_decide (NoDup (subject_der <$> trusted_root_certificates))) =
  ([("DigiCert Trusted Root G4", "380115120000Z", true, Some (512%nat, [x01; x00; x01]));
    ("DigiCert Global Root G2", "380115120000Z", true, Some (256%nat, [x01; x00; x01]));
    ("Microsoft Root Certificate Authority 2011", "360322221304Z", true, Some (512%nat, [x01; x00; x01]));
    ("USERTrust RSA Certification Authority", "380118235959Z", true, Some (512%nat, [x01; x00; x01]));
    ("GlobalSign", "290318100000Z", true, Some (256%nat, [x01; x00; x01]))]%string, true).
Proof. vm_compute. reflexivity. Qed.

Lemma parse_roots_safe ders roots :
  Forall (fun c => cert_ok (raw c) c) roots ->
  safe (parse_roots ders roots) (Forall (fun c => cert_ok (raw c) c)).
Proof.
  revert roots. induction ders as [|der ders IH]; intros roots Hr; cbn [parse_roots]; [done|].
  eapply safe_bind; [apply x509_parse_safe|]. intros [c|] Hc; apply IH; [|done].
  apply Forall_app. split; [done|]. constructor; [|done]. specialize (Hc c eq_refl).
  by rewrite (ok_raw _ _ Hc).
Qed.

Lemma trusted_roots_ok :
  parse_all_roots = Val trusted_root_certificates /\
  Forall (fun c => cert_ok (raw c) c) trusted_root_certificates.
Proof.
  unfold trusted_root_certificates.
  assert (H : safe parse_all_roots (Forall (fun c => cert_ok (raw c) c))) by (apply parse_roots_safe; constructor).
  destruct parse_all_roots as [roots|]; [|destruct H]. split; [reflexivity|exact H].
Qed.

Lemma find_by_subject_spec roots s :
  match find_by_subject roots s with
  | Some r => In r roots /\ subject_der r = s
  | None => forall r, In r roots -> subject_der r <> s
  end.
Proof.
  induction roots as [|r roots IH]; cbn [find_by_subject]; [by intros r|].
  case_bool_decide as E.
  - split; [by left|done].
  - destruct (find_by_subject roots s).
    + split; [right|]; apply IH.
    + intros r' [<-|Hin]; [done|by apply IH].
Qed.

#[global] Opaque trusted_root_certificates parse_all_roots.

(** ** Properties *)

(** the five compiled-in tables are well-formed certificates: all of them
    parse, they are self-issued RSA roots with 2048- or 4096-bit keys, exponent
    65537, the names and expiry dates the comments give and pairwise distinct
    subjects; a lookup returns the root with that subject, and nothing when none
    of the five has it. *)
Theorem trust_anchors_parse_and_lookup :
  parse_all_roots = Val trusted_root_certificates /\
  (fun c => (subject_common_name c, not_after c)) <$> trusted_root_certificates =
    [("DigiCert Trusted Root G4", "380115120000Z"); ("DigiCert Global Root G2", "380115120000Z");
     ("Microsoft Root Certificate Authority 2011", "360322221304Z");
     ("USERTrust RSA Certification Authority", "380118235959Z");
     ("GlobalSign", "290318100000Z")]%string /\
  (forall r, In r trusted_root_certificates ->
     issuer_der r = subject_der r /\
     exists k, rsa_public_key r = Some k /\ exponent k = [x01; x00; x01] /\
       (length (modulus k) = 256%nat \/ length (modulus k) = 512%nat) /\
     find_trust_anchor_by_subject (subject_der r) = Some r) /\
  (forall s, match find_trust_anchor_by_subject s with
             | Some r => In r trusted_root_certificates /\ subject_der r = s
             | None => forall r, In r trusted_root_certificates -> subject_der r <> s
             end).
Proof.
  destruct (proj1 (pair_equal_spec _ _ _ _) roots_computed) as [Hsum Hnd]. apply bool_decide_eq_true_1 in Hnd.
  split; [apply trusted_roots_ok|]. split.
  { apply (f_equal (fmap (fun x : string * string * bool * option (nat * list byte) => x.1.1))) in Hsum.
    rewrite <- list_fmap_compose in Hsum. exact Hsum. }
  split; [|intros s; apply find_by_subject_spec].
  intros r Hr. assert (Hin : In (root_summary r) (root_summary <$> trusted_root_certificates)).
  { by apply in_map. }
  rewrite Hsum in Hin. split.
  - apply (bool_decide_eq_true_1 (issuer_der r = subject_der r)).
    clear Hsum Hnd Hr. repeat (destruct Hin as [Hin|Hin]; [exact (f_equal (fun x => x.1.2) (eq_sym Hin))|]).
    destruct Hin.
  - assert (Hk : exists k, rsa_public_key r = Some k /\ exponent k = [x01; x00; x01] /\
      (length (modulus k) = 256%nat \/ length (modulus k) = 512%nat)).
    { clear Hsum Hnd Hr. repeat (destruct Hin as [Hin|Hin];
        [injection Hin as _ _ _ Hk; destruct (rsa_public_key r) as [k|]; [|discriminate Hk];
         injection Hk as Hl He; exists k; rewrite <- Hl, <- He; auto|]). destruct Hin. }
    destruct Hk as (k & H1 & H2 & H3). exists k. split_and!; [done..|].
    unfold find_trust_anchor_by_subject.
    pose proof (find_by_subject_spec trusted_root_certificates (subject_der r)) as Hf.
    destruct (find_by_subject _ _) as [r'|]; [|destruct (Hf r Hr eq_refl)].
    destruct Hf as [Hr' Hs]. f_equal.
    apply list_elem_of_In, list_elem_of_lookup in Hr, Hr'.
    destruct Hr as [i Hi], Hr' as [j Hj].
    assert (i = j) as ->; [|congruence].
    eapply (NoDup_lookup _ _ _ (subject_der r) Hnd); rewrite list_lookup_fmap.
    + by rewrite Hi.
    + rewrite Hj. cbn. by rewrite Hs.
Qed.
