(* ===== verification/Authenticode.v ===== *)
(** * Authenticode: signature and certificate chain verification

    Models src/src/security/authenticode.cpp.  The chain walk compares pointers
    into the certificate vector; here a certificate comes with its place: [Some i]
    when it is element [i] of the vector walked, [None] otherwise. *)
From S2P Require Import Prelude Sha2 Asn1 X509 RsaPkcs1 Pkcs7 PeHash TrustAnchors.

#[local] Open Scope mem_scope.

Definition kSha256DigestOid : string := "2.16.840.1.101.3.4.2.1".
Definition kSha256WithRsaOid : string := "1.2.840.113549.1.1.11".
Definition kSha384WithRsaOid : string := "1.2.840.113549.1.1.12".
Definition kMaxChainDepth : nat := 6.

Inductive AuthenticodeVerdict :=
  | TRUSTED | VALID_UNTRUSTED_ROOT | HASH_MISMATCH | SIGNATURE_INVALID | CHAIN_INVALID | MALFORMED.

#[export] Instance AuthenticodeVerdict_eq_decision : EqDecision AuthenticodeVerdict.
Proof. solve_decision. Defined.

Record AuthenticodeResult := Result {
  verdict : AuthenticodeVerdict;
  signer_subject_cn : string;
  signer_sha256_thumbprint : string;
}.

(** ** The claimed hash *)

Definition extract_spc_pe_hash (content : list byte) : mem (option (list byte)) :=
  let data := Some content in
  let* children := parse_sequence_children data 0 (Z.of_nat (length content)) in
  match children with
  | [_; di] =>
      if negb (is_universal di SEQUENCE) then Val None
      else
        let* digest_info := parse_sequence_children data (content_offset di) (content_length di) in
        match digest_info with
        | [alg_el; digest_el] =>
            if negb (is_universal alg_el SEQUENCE) || negb (is_universal digest_el OCTET_STRING)
            then Val None
            else
              let* alg := parse_sequence_children data (content_offset alg_el) (content_length alg_el) in
              let? alg0 := field alg 0 OBJECT_IDENTIFIER in
              let* oid := oid_to_string data alg0 in
              if negb (String.eqb oid kSha256DigestOid) then Val None
              else if negb (content_length digest_el =? 32) then Val None
              else
                let* h := slice data (content_offset digest_el) (content_length digest_el) in
                Val (Some h)
        | _ => Val None
        end
  | _ => Val None
  end.

(** ** The certificate chain *)

Definition verify_cert_signed_by (subject issuer : X509Certificate) : bool :=
  match rsa_public_key issuer with
  | None => false
  | Some key =>
      if String.eqb (signature_algorithm_oid subject) kSha256WithRsaOid then
        verify_pkcs1v15_sha256 (signature_value subject) key (sha256_digest (tbs_certificate subject))
      else if String.eqb (signature_algorithm_oid subject) kSha384WithRsaOid then
        verify_pkcs1v15_sha384 (signature_value subject) key (sha384_digest (tbs_certificate subject))
      else false
  end.

(** The candidate loop, from element [j] on: the first other certificate with the
    wanted subject. *)
Fixpoint find_issuer (current_at : option nat) (wanted : list byte)
    (candidates : list X509Certificate) (j : nat) : option (nat * X509Certificate) :=
  match candidates with
  | [] => None
  | c :: candidates =>
      if bool_decide (current_at = Some j) then find_issuer current_at wanted candidates (S j)
      else if bool_decide (subject_der c = wanted) then Some (j, c)
      else find_issuer current_at wanted candidates (S j)
  end.

(** The chain walk with [depth] iterations left. *)
Fixpoint chain_loop (available : list X509Certificate) (depth : nat)
    (current : X509Certificate) (current_at : option nat) : AuthenticodeVerdict :=
  match depth with
  | O => VALID_UNTRUSTED_ROOT
  | S depth =>
      match find_trust_anchor_by_subject (issuer_der current) with
      | Some anchor => if verify_cert_signed_by current anchor then TRUSTED else CHAIN_INVALID
      | None =>
          match find_issuer current_at (issuer_der current) available 0 with
          | None => VALID_UNTRUSTED_ROOT
          | Some (j, issuer) =>
              if negb (verify_cert_signed_by current issuer) then CHAIN_INVALID
              else chain_loop available depth issuer (Some j)
          end
      end
  end.

Definition verify_certificate_chain (leaf : X509Certificate) (leaf_at : option nat)
    (available_issuers : list X509Certificate) : AuthenticodeVerdict :=
  chain_loop available_issuers kMaxChainDepth leaf leaf_at.

(** ** The whole verification *)

Section verify.
Context (sort : (SectionRange -> SectionRange -> bool) -> list SectionRange -> list SectionRange).

(** The messageDigest attribute, when there is one, is not the content's hash. *)
Definition digest_mismatch (sd : SignedData) (signer : SignerInfo) : bool :=
  match message_digest signer with
  | Some md => negb (bool_decide (sha256_digest (content sd) = md))
  | None => false
  end.

(** Everything after the parse, on the first signer. *)
Definition verify_signed_data (pe_bytes : list byte) (sd : SignedData) (signer : SignerInfo) :
    mem AuthenticodeResult :=
  let result := Result MALFORMED EmptyString EmptyString in
  match find_signer_certificate sd signer with
  | None => Val result
  | Some leaf_at =>
      match certificates sd !! leaf_at with
      | None => Val result
      | Some leaf =>
          match rsa_public_key leaf with
          | None => Val result
          | Some key =>
              let with_verdict v := Result v (subject_common_name leaf) (sha256_thumbprint leaf) in
              if negb (String.eqb (digest_algorithm_oid signer) kSha256DigestOid)
              then Val (with_verdict MALFORMED)
              else if negb (verify_pkcs1v15_sha256 (signature signer) key
                              (sha256_digest (der_encode_set (signed_attrs_content signer))))
              then Val (with_verdict SIGNATURE_INVALID)
              else if digest_mismatch sd signer
              then Val (with_verdict MALFORMED)
              else
                let* claimed := extract_spc_pe_hash (content sd) in
                match claimed with
                | None => Val (with_verdict MALFORMED)
                | Some claimed_pe_hash =>
                    let* actual := compute_authenticode_pe_hash_sha256 sort (Some pe_bytes)
                                     (Z.of_nat (length pe_bytes)) in
                    match actual with
                    | None => Val (with_verdict MALFORMED)
                    | Some actual_pe_hash =>
                        if negb (bool_decide (claimed_pe_hash = actual_pe_hash))
                        then Val (with_verdict HASH_MISMATCH)
                        else Val (with_verdict
                                    (verify_certificate_chain leaf (Some leaf_at) (certificates sd)))
                    end
                end
          end
      end
  end.

Definition verify_authenticode (pe_bytes pkcs7_der : list byte) : mem AuthenticodeResult :=
  let* sd := pkcs7_parse pkcs7_der in
  match sd with
  | None => Val (Result MALFORMED EmptyString EmptyString)
  | Some sd =>
      match signer_infos sd with
      | [] => Val (Result MALFORMED EmptyString EmptyString)
      | signer :: _ => verify_signed_data pe_bytes sd signer
      end
  end.
End verify.

(** ** Certificate signatures *)

(** [c] carries a PKCS#1 signature by the key of [issuer] over its TBS part. *)
Definition signed_by (c issuer : X509Certificate) : Prop :=
  exists key, rsa_public_key issuer = Some key /\
    ((signature_algorithm_oid c = kSha256WithRsaOid /\
      rsassa_verifies (signature_value c) key
        (kSha256DigestInfoPrefix ++ sha256_digest (tbs_certificate c))) \/
     (signature_algorithm_oid c = kSha384WithRsaOid /\
      rsassa_verifies (signature_value c) key
        (kSha384DigestInfoPrefix ++ sha384_digest (tbs_certificate c)))).

Lemma verify_cert_signed_by_spec c issuer : verify_cert_signed_by c issuer = true <-> signed_by c issuer.
Proof.
  unfold verify_cert_signed_by, signed_by. destruct (rsa_public_key issuer) as [key|].
  2:{ split; [done|]. by intros (k & [=] & _). }
  destruct (String.eqb_spec (signature_algorithm_oid c) kSha256WithRsaOid) as [E|E].
  - unfold verify_pkcs1v15_sha256. rewrite verify_spec. split.
    + intros H. exists key. split; [done|]. by left.
    + intros (k & [= <-] & [[_ H]|[H _]]); [done|]. rewrite E in H. discriminate H.
  - destruct (String.eqb_spec (signature_algorithm_oid c) kSha384WithRsaOid) as [E'|E'].
    + unfold verify_pkcs1v15_sha384. rewrite verify_spec. split.
      * intros H. exists key. split; [done|]. by right.
      * intros (k & [= <-] & [[H _]|[_ H]]); done.
    + split; [done|]. intros (k & _ & [[H _]|[H _]]); done.
Qed.

Lemma verify_cert_signed_by_false c issuer :
  verify_cert_signed_by c issuer = false -> ~ signed_by c issuer.
Proof. rewrite <- verify_cert_signed_by_spec. by intros ->. Qed.

(** ** The walk *)

Lemma find_issuer_spec at_ wanted l j :
  match find_issuer at_ wanted l j with
  | Some (i, c) => In c l /\ subject_der c = wanted
  | None => forall k c, l !! k = Some c -> at_ <> Some (j + k)%nat -> subject_der c <> wanted
  end.
Proof.
  revert j. induction l as [|c l IH]; intros j; cbn [find_issuer]; [done|].
  assert (Hskip : match find_issuer at_ wanted l (S j) with
                  | Some (i, c') => In c' (c :: l) /\ subject_der c' = wanted
                  | None => forall k c', l !! k = Some c' -> at_ <> Some (j + S k)%nat ->
                      subject_der c' <> wanted
                  end).
  { specialize (IH (S j)). destruct (find_issuer at_ wanted l (S j)) as [[i c']|].
    - split; [right|]; apply IH.
    - intros k c' Hk. rewrite Nat.add_succ_r. by apply (IH k). }
  case_bool_decide as Eat.
  - destruct (find_issuer at_ wanted l (S j)) as [[i c']|]; [done|].
    intros [|k] c' Hk Hne; [by rewrite Nat.add_0_r in Hne|by apply (Hskip k)].
  - case_bool_decide as Es; [by split; [left|]|].
    destruct (find_issuer at_ wanted l (S j)) as [[i c']|]; [done|].
    intros [|k] c' Hk Hne; [by injection Hk as <-|by apply (Hskip k)].
Qed.

(** A verified link of a chain: [y] is one of the available certificates, its
    subject is the issuer of [x], and it signed [x]. *)
Definition link (available : list X509Certificate) (x y : X509Certificate) : Prop :=
  In y available /\ subject_der y = issuer_der x /\ signed_by x y.

Section walk.
Context (available : list X509Certificate).

(** What a verdict says about the chain it was reached on. *)
Definition verdict_justified (depth : nat) (c : X509Certificate) (v : AuthenticodeVerdict) : Prop :=
  match v with
  | TRUSTED => exists n x a, (n < depth)%nat /\ nsteps (link available) n c x /\
      In a trusted_root_certificates /\ subject_der a = issuer_der x /\ signed_by x a
  | CHAIN_INVALID => exists n x y, (n < depth)%nat /\ nsteps (link available) n c x /\
      (In y trusted_root_certificates \/ In y available) /\ subject_der y = issuer_der x /\
      ~ signed_by x y
  | VALID_UNTRUSTED_ROOT => exists n x, nsteps (link available) n c x /\
      (n = depth \/
       (n < depth)%nat /\ (forall a, In a trusted_root_certificates -> subject_der a <> issuer_der x) /\
       forall y, In y available -> y <> x -> subject_der y <> issuer_der x)
  | _ => False
  end.

Lemma verdict_step depth c y v :
  link available c y -> verdict_justified depth y v -> verdict_justified (S depth) c v.
Proof.
  intros Hl. unfold verdict_justified. destruct v; try done.
  - intros (n & x & a & Hn & Hs & Ha). exists (S n), x, a. split; [lia|]. split; [exact (nsteps_l _ _ _ _ _ Hl Hs)|exact Ha].
  - intros (n & x & Hs & Hend). exists (S n), x. split; [exact (nsteps_l _ _ _ _ _ Hl Hs)|].
    destruct Hend as [->|(Hn & Hend)]; [by left|right]. split; [lia|exact Hend].
  - intros (n & x & z & Hn & Hs & Hz). exists (S n), x, z. split; [lia|]. split; [exact (nsteps_l _ _ _ _ _ Hl Hs)|exact Hz].
Qed.

Lemma chain_loop_justified depth c at_ :
  (forall i, at_ = Some i -> available !! i = Some c) ->
  verdict_justified depth c (chain_loop available depth c at_).
Proof.
  revert c at_. induction depth as [|depth IH]; intros c at_ Hat; cbn [chain_loop].
  - exists 0%nat, c. split; [apply nsteps_O|by left].
  - pose proof (find_by_subject_spec trusted_root_certificates (issuer_der c)) as Ha.
    fold (find_trust_anchor_by_subject (issuer_der c)) in Ha.
    destruct (find_trust_anchor_by_subject (issuer_der c)) as [a|].
    { destruct Ha as [Ha Hs]. destruct (verify_cert_signed_by c a) eqn:E.
      - exists 0%nat, c, a. split; [lia|]. split; [apply nsteps_O|].
        split; [exact Ha|]. split; [exact Hs|by apply verify_cert_signed_by_spec].
      - exists 0%nat, c, a. split; [lia|]. split; [apply nsteps_O|].
        split; [left; exact Ha|]. split; [exact Hs|by apply verify_cert_signed_by_false]. }
    pose proof (find_issuer_spec at_ (issuer_der c) available 0) as Hf.
    destruct (find_issuer at_ (issuer_der c) available 0) as [[j y]|] eqn:Ef.
    + destruct Hf as [Hy Hs]. destruct (verify_cert_signed_by c y) eqn:E; cbn [negb].
      * apply (verdict_step _ _ y).
        { split; [exact Hy|]. split; [exact Hs|by apply verify_cert_signed_by_spec]. }
        apply IH. intros i [= <-]. revert Ef. clear.
        assert (H : forall l k, find_issuer at_ (issuer_der c) l k = Some (j, y) ->
          (k <= j)%nat /\ l !! (j - k)%nat = Some y).
        { induction l as [|z l IHl]; intros k; cbn [find_issuer]; [done|].
          assert (Hrec : find_issuer at_ (issuer_der c) l (S k) = Some (j, y) ->
            (k <= j)%nat /\ (z :: l) !! (j - k)%nat = Some y).
          { intros Hl. destruct (IHl _ Hl) as [Hle Hlk]. split; [lia|].
            replace (j - k)%nat with (S (j - S k)) by lia. done. }
          do 2 (case_bool_decide; [try done|]); [|done].
          intros [= <- <-]. by rewrite Nat.sub_diag. }
        intros Ef. destruct (H _ _ Ef) as [_ Hl]. by rewrite Nat.sub_0_r in Hl.
      * exists 0%nat, c, y. split; [lia|]. split; [apply nsteps_O|].
        split; [right; exact Hy|]. split; [exact Hs|by apply verify_cert_signed_by_false].
    + exists 0%nat, c. split; [apply nsteps_O|]. right. split; [lia|]. split; [exact Ha|].
      intros y Hy Hne. apply list_elem_of_In, list_elem_of_lookup in Hy as [k Hk].
      apply (Hf k _ Hk). cbn. intros E. rewrite (Hat _ E) in Hk. by injection Hk as ->.
Qed.
End walk.

(** ** The whole verification *)

Lemma extract_spc_pe_hash_safe content :
  safe_opt (extract_spc_pe_hash content) (fun h => length h = 32%nat).
Proof.
  unfold extract_spc_pe_hash. safe_step. destruct a as [|x [|di [|]]]; none_case. forall_split.
  safe_auto. destruct a as [|alg [|dg [|]]]; none_case. forall_split.
  match goal with H : in_buf _ dg |- _ => destruct H as (G1 & G2 & G3 & G4) end.
  safe_auto. match goal with H : _ = take _ _ /\ _ |- _ => destruct H as [_ H] end. lia.
Qed.

Section verify_spec.
Context (sort : (SectionRange -> SectionRange -> bool) -> list SectionRange -> list SectionRange) (Hsort : forall l, sort section_before l ≡ₚ l).

(** The signer of a message and the certificate that answers for it. *)
Record signer_of (sd : SignedData) (signer : SignerInfo) (i : nat) (leaf : X509Certificate)
    (key : RsaPublicKey) : Prop := {
  so_found : find_signer_certificate sd signer = Some i;
  so_leaf : certificates sd !! i = Some leaf;
  so_key : rsa_public_key leaf = Some key;
}.

(** The signer's RSA signature covers the re-encoded attribute set. *)
Definition signature_ok (signer : SignerInfo) (key : RsaPublicKey) : Prop :=
  rsassa_verifies (signature signer) key
    (kSha256DigestInfoPrefix ++ sha256_digest (der_tlv x31 (signed_attrs_content signer))).

Definition digest_ok (sd : SignedData) (signer : SignerInfo) : Prop :=
  forall md, message_digest signer = Some md -> md = sha256_digest (content sd).

(** The verdict on a signed message whose signer has a certificate with a key. *)
Definition verdict_spec (pe : list byte) (sd : SignedData) (signer : SignerInfo) (i : nat)
    (leaf : X509Certificate) (key : RsaPublicKey) (v : AuthenticodeVerdict) : Prop :=
  let hashes claimed actual :=
    extract_spc_pe_hash (content sd) = Val (Some claimed) /\
    compute_authenticode_pe_hash_sha256 sort (Some pe) (Z.of_nat (length pe)) = Val (Some actual) in
  if String.eqb (digest_algorithm_oid signer) kSha256DigestOid then
    (~ signature_ok signer key /\ v = SIGNATURE_INVALID) \/
    (signature_ok signer key /\ digest_ok sd signer /\
       (exists claimed actual, hashes claimed actual /\ claimed <> actual /\ v = HASH_MISMATCH)) \/
    (signature_ok signer key /\ digest_ok sd signer /\
       (exists h, hashes h h /\ v = verify_certificate_chain leaf (Some i) (certificates sd))) \/
    (signature_ok signer key /\ v = MALFORMED /\
       (~ digest_ok sd signer \/ (forall claimed actual, ~ hashes claimed actual)))
  else v = MALFORMED.

Lemma signature_ok_spec signer key :
  verify_pkcs1v15_sha256 (signature signer) key
    (sha256_digest (der_encode_set (signed_attrs_content signer))) = true <-> signature_ok signer key.
Proof using Type. unfold verify_pkcs1v15_sha256, signature_ok. by rewrite verify_spec, der_encode_set_tlv. Qed.

Lemma digest_ok_spec sd signer :
  digest_mismatch sd signer = false <-> digest_ok sd signer.
Proof using Type.
  unfold digest_mismatch, digest_ok. destruct (message_digest signer) as [md|]; [|by split].
  rewrite negb_false_iff, bool_decide_eq_true. split.
  - by intros <- md' [= <-].
  - intros H. symmetry. by apply H.
Qed.

Lemma verify_signed_data_spec pe sd signer i leaf key :
  signer_of sd signer i leaf key ->
  exists v, verify_signed_data sort pe sd signer =
      Val (Result v (subject_common_name leaf) (sha256_thumbprint leaf)) /\
    verdict_spec pe sd signer i leaf key v.
Proof using Hsort.
  intros [Hi Hl Hk]. unfold verify_signed_data, verdict_spec. rewrite Hi, Hl, Hk. cbv zeta.
  destruct (String.eqb (digest_algorithm_oid signer) kSha256DigestOid); cbn [negb]; [|by eexists].
  pose proof (signature_ok_spec signer key) as Hsig.
  destruct (verify_pkcs1v15_sha256 _ _ _); cbn [negb].
  2:{ eexists. split; [reflexivity|]. left. split; [|done]. intros H. by apply Hsig in H. }
  apply proj1 in Hsig. specialize (Hsig eq_refl).
  pose proof (digest_ok_spec sd signer) as Hdig. destruct (digest_mismatch sd signer).
  { eexists. split; [reflexivity|]. do 3 right. split_and!; [done..|]. left. intros H. by apply Hdig in H. }
  apply proj1 in Hdig. specialize (Hdig eq_refl).
  destruct (safe_inv _ _ (extract_spc_pe_hash_safe (content sd))) as ([claimed|] & -> & _); cbn [mem_bind].
  2:{ eexists. split; [reflexivity|]. do 3 right. split_and!; [done..|]. right. by intros ? ? [[=] _]. }
  rewrite pe_hash_value by done.
  destruct (safe_inv _ _ (pe_layout_safe pe (Z.of_nat (length pe)) ltac:(done))) as ([l|] & -> & _);
    cbn [opt_bind mem_bind].
  2:{ eexists. split; [reflexivity|]. do 3 right. split_and!; [done..|]. right. by intros ? ? [_ [=]]. }
  set (actual := sha256_digest _). clearbody actual. case_bool_decide as E; cbn [negb].
  - eexists. split; [reflexivity|]. do 2 right. left. split_and!; [done..|]. exists actual. rewrite E. split; [split; reflexivity|reflexivity].
  - eexists. split; [reflexivity|]. right. left. split_and!; [done..|]. by exists claimed, actual.
Qed.
End verify_spec.

(** The message has a signer with a certificate and a key. *)
Definition resolved (der : list byte) (sd : SignedData) (signer : SignerInfo) (i : nat)
    (leaf : X509Certificate) (key : RsaPublicKey) : Prop :=
  pkcs7_parse der = Val (Some sd) /\ head (signer_infos sd) = Some signer /\
  signer_of sd signer i leaf key.

Lemma verify_authenticode_spec sort pe der :
  (forall l, sort section_before l ≡ₚ l) ->
  exists r, verify_authenticode sort pe der = Val r /\
    ((exists sd signer i leaf key, resolved der sd signer i leaf key /\
        verdict_spec sort pe sd signer i leaf key (verdict r) /\
        signer_subject_cn r = subject_common_name leaf /\
        signer_sha256_thumbprint r = sha256_thumbprint leaf) \/
     ((forall sd signer i leaf key, ~ resolved der sd signer i leaf key) /\
        r = Result MALFORMED EmptyString EmptyString)).
Proof.
  intros Hsort. unfold verify_authenticode, resolved.
  destruct (safe_inv _ _ (pkcs7_parse_safe der)) as ([sd|] & -> & Hok); cbn [mem_bind].
  2:{ eexists. split; [reflexivity|]. right. split; [|done]. by intros ? ? ? ? ? ([=] & _). }
  destruct (signer_infos sd) as [|signer rest] eqn:Esi.
  { eexists. split; [reflexivity|]. right. split; [|done].
    intros ? ? ? ? ? ([= <-] & H & _). by rewrite Esi in H. }
  assert (Hnone : forall r, verify_signed_data sort pe sd signer = Val r ->
    (forall i leaf key, ~ signer_of sd signer i leaf key) ->
    r = Result MALFORMED EmptyString EmptyString ->
    exists r, verify_signed_data sort pe sd signer = Val r /\
      ((exists sd' signer' i leaf key, (Val (Some sd) = Val (Some sd') /\ head (signer_infos sd') = Some signer' /\
          signer_of sd' signer' i leaf key) /\ verdict_spec sort pe sd' signer' i leaf key (verdict r) /\
          signer_subject_cn r = subject_common_name leaf /\
          signer_sha256_thumbprint r = sha256_thumbprint leaf) \/
       ((forall sd' signer' i leaf key, ~ (Val (Some sd) = Val (Some sd') /\ head (signer_infos sd') = Some signer' /\
          signer_of sd' signer' i leaf key)) /\ r = Result MALFORMED EmptyString EmptyString))).
  { intros r Hr Hno ->. eexists. split; [exact Hr|]. right. split; [|done].
    intros sd' signer' i leaf key ([= <-] & Hh & Hs). rewrite Esi in Hh. injection Hh as <-. by eapply Hno. }
  destruct (find_signer_certificate sd signer) as [i|] eqn:Ei.
  2:{ eapply Hnone; [unfold verify_signed_data; by rewrite Ei| |done]. intros ? ? ? [H _ _]. congruence. }
  destruct (certificates sd !! i) as [leaf|] eqn:El.
  2:{ eapply Hnone; [unfold verify_signed_data; by rewrite Ei, El| |done]. intros ? ? ? [H H' _]. congruence. }
  destruct (rsa_public_key leaf) as [key|] eqn:Ek.
  2:{ eapply Hnone; [unfold verify_signed_data; by rewrite Ei, El, Ek| |done]. intros ? ? ? [H H' H'']. congruence. }
  destruct (verify_signed_data_spec sort Hsort pe sd signer i leaf key) as (v & Hv & Hspec); [by split|].
  eexists. split; [exact Hv|]. left. exists sd, signer, i, leaf, key. split_and!; try done. by rewrite Esi.
Qed.

(** Without a messageDigest attribute nothing ties the content to the signature. *)
Lemma content_unbound sort pe pe' sd signer i leaf key h' c' :
  (forall l, sort section_before l ≡ₚ l) -> signer_of sd signer i leaf key ->
  message_digest signer = None ->
  verify_signed_data sort pe sd signer = Val (Result TRUSTED (subject_common_name leaf) (sha256_thumbprint leaf)) ->
  extract_spc_pe_hash c' = Val (Some h') ->
  compute_authenticode_pe_hash_sha256 sort (Some pe') (Z.of_nat (length pe')) = Val (Some h') ->
  verify_signed_data sort pe' (Signed (content_type sd) c' (certificates sd) (signer_infos sd)) signer =
  Val (Result TRUSTED (subject_common_name leaf) (sha256_thumbprint leaf)).
Proof.
  intros Hsort Hso Hmd Hv Hc' Hpe'.
  destruct (verify_signed_data_spec sort Hsort pe sd signer i leaf key Hso) as (v & Hv' & Hspec).
  rewrite Hv in Hv'. injection Hv' as <-. destruct Hso as [Hi Hl Hk]. unfold verdict_spec in Hspec. cbv zeta in Hspec.
  unfold verify_signed_data. cbv zeta.
  change (find_signer_certificate (Signed (content_type sd) c' (certificates sd) (signer_infos sd)) signer)
    with (find_signer_certificate sd signer).
  rewrite Hi. cbn [certificates content]. rewrite Hl, Hk.
  destruct (String.eqb (digest_algorithm_oid signer) kSha256DigestOid); [|discriminate Hspec]. cbn [negb].
  destruct Hspec as [[_ [=]]|[(_ & _ & ? & ? & _ & _ & [=])|[(Hs & _ & h & _ & Ht)|(_ & [=] & _)]]].
  rewrite (proj2 (signature_ok_spec signer key) Hs). cbn [negb].
  unfold digest_mismatch. rewrite Hmd, Hc'. cbn [mem_bind]. rewrite Hpe'. cbn [mem_bind].
  rewrite bool_decide_eq_true_2 by reflexivity. cbn [negb]. rewrite <- Ht. reflexivity.
Qed.

(** What the specification of a verdict comes to, verdict by verdict. *)
Definition verdict_means (sort : (SectionRange -> SectionRange -> bool) -> list SectionRange -> list SectionRange)
    (pe : list byte) (sd : SignedData) (signer : SignerInfo) (leaf : X509Certificate) (key : RsaPublicKey) (v : AuthenticodeVerdict) : Prop :=
  let named := digest_algorithm_oid signer = kSha256DigestOid in
  let genuine := named /\ signature_ok signer key /\ digest_ok sd signer in
  let claimed := extract_spc_pe_hash (content sd) in
  let actual := compute_authenticode_pe_hash_sha256 sort (Some pe) (Z.of_nat (length pe)) in
  match v with
  | TRUSTED | VALID_UNTRUSTED_ROOT | CHAIN_INVALID =>
      genuine /\ (exists h, claimed = Val (Some h) /\ actual = Val (Some h)) /\ verdict_justified (certificates sd) 6 leaf v
  | HASH_MISMATCH => genuine /\ exists h h', claimed = Val (Some h) /\ actual = Val (Some h') /\ h <> h'
  | SIGNATURE_INVALID => named /\ ~ signature_ok signer key
  | MALFORMED => ~ named \/ signature_ok signer key /\ ~ digest_ok sd signer \/
      signature_ok signer key /\ digest_ok sd signer /\ (claimed = Val None \/ actual = Val None)
  end.

Lemma verdict_explained sort (Hsort : forall l, sort section_before l ≡ₚ l) pe sd signer i leaf key v :
  certificates sd !! i = Some leaf -> verdict_spec sort pe sd signer i leaf key v -> verdict_means sort pe sd signer leaf key v.
Proof.
  intros Hl. unfold verdict_spec, verdict_means. cbv zeta.
  destruct (String.eqb_spec (digest_algorithm_oid signer) kSha256DigestOid) as [Ho|Ho]; [|intros ->; left; exact Ho].
  intros [[Hns ->]|[(Hs & Hd & c & a & [Hc Ha] & Hne & ->)|[(Hs & Hd & h & [Hc Ha] & ->)|(Hs & -> & Hm)]]].
  - exact (conj Ho Hns).
  - split; [exact (conj Ho (conj Hs Hd))|]. exact (ex_intro _ c (ex_intro _ a (conj Hc (conj Ha Hne)))).
  - pose proof (chain_loop_justified (certificates sd) 6 leaf (Some i) ltac:(by intros j [= <-])) as Hj.
    unfold verify_certificate_chain. change kMaxChainDepth with 6%nat.
    assert (Hf : exists h, extract_spc_pe_hash (content sd) = Val (Some h) /\
      compute_authenticode_pe_hash_sha256 sort (Some pe) (Z.of_nat (length pe)) = Val (Some h)) by exact (ex_intro _ h (conj Hc Ha)).
    revert Hj. generalize (chain_loop (certificates sd) 6 leaf (Some i)). intros v Hj. destruct v; [..|exact (False_ind _ Hj)]; try exact (False_ind _ Hj); exact (conj (conj Ho (conj Hs Hd)) (conj Hf Hj)).
  - right. destruct Hm as [Hm|Hm]; [by left|]. pose proof (digest_ok_spec sd signer) as Hd. destruct (digest_mismatch sd signer).
    { left. split; [exact Hs|]. intros H. apply Hd in H. discriminate H. }
    right. split; [exact Hs|]. split; [apply Hd; reflexivity|].
    destruct (safe_inv _ _ (extract_spc_pe_hash_safe (content sd))) as ([c|] & Ec & _); [right|by left].
    rewrite pe_hash_value by done.
    destruct (safe_inv _ _ (pe_layout_safe pe (Z.of_nat (length pe)) ltac:(done))) as ([l|] & El & _); rewrite El; [exfalso|done].
    eapply (Hm c). split; [done|]. rewrite pe_hash_value by done. rewrite El. reflexivity.
Qed.

(** ** Properties *)

(** C1: soundness of the verdicts of [verify_authenticode], which always returns one.
    "Resolved" is that the message parses and the first signer's certificate is embedded and
    has an RSA key; "signed", that this key verifies the signature over the re-encoded signed
    attributes, with SHA-256 named as the digest algorithm; "bound", that a messageDigest
    attribute, if there is one, is the hash of the content.

    TRUSTED, VALID_UNTRUSTED_ROOT and CHAIN_INVALID mean resolved, signed and bound, that the
    hash in the content is the hash of this file, and that certificates of the message lead
    from the signer, each signed by the next, for TRUSTED in at most five steps to one that a
    compiled-in root signed, for CHAIN_INVALID in at most five steps to one that a certificate
    with its issuer's name, compiled in or embedded, did not sign, and for
    VALID_UNTRUSTED_ROOT to one whose issuer is neither compiled in nor among the other
    certificates, or through six steps.  HASH_MISMATCH means resolved, signed and bound with
    another hash than the file's, SIGNATURE_INVALID resolved with SHA-256 named but not
    signed, and MALFORMED that nothing is resolved, another algorithm is named, or the message is
    signed but not bound, or carries no hash, or the file has none.  The names in the result
    are those of the signer's certificate, and empty when nothing is resolved. *)
Theorem authenticode_verdict_sound (sort : (SectionRange -> SectionRange -> bool) -> list SectionRange -> list SectionRange)
    (pe der : list byte) :
  (forall l, sort section_before l ≡ₚ l) ->
  let is_resolved sd signer i leaf key :=
    pkcs7_parse der = Val (Some sd) /\ head (signer_infos sd) = Some signer /\
    find_signer_certificate sd signer = Some i /\ certificates sd !! i = Some leaf /\
    rsa_public_key leaf = Some key in
  let is_signed signer key :=
    rsassa_verifies (signature signer) key
      (kSha256DigestInfoPrefix ++ sha256_digest (der_tlv x31 (signed_attrs_content signer))) in
  let is_bound sd signer := forall md, message_digest signer = Some md -> md = sha256_digest (content sd) in
  let sha256_named signer := digest_algorithm_oid signer = "2.16.840.1.101.3.4.2.1"%string in
  let claimed sd := extract_spc_pe_hash (content sd) in
  let actual := compute_authenticode_pe_hash_sha256 sort (Some pe) (Z.of_nat (length pe)) in
  let genuine sd signer i leaf key :=
    is_resolved sd signer i leaf key /\ sha256_named signer /\ is_signed signer key /\ is_bound sd signer in
  let same_file sd := exists h, claimed sd = Val (Some h) /\ actual = Val (Some h) in
  exists r, verify_authenticode sort pe der = Val r /\
    match verdict r with
    | TRUSTED => exists sd signer i leaf key n x a, genuine sd signer i leaf key /\ same_file sd /\
        (n < 6)%nat /\ nsteps (link (certificates sd)) n leaf x /\
        In a trusted_root_certificates /\ subject_der a = issuer_der x /\ signed_by x a
    | VALID_UNTRUSTED_ROOT => exists sd signer i leaf key n x, genuine sd signer i leaf key /\ same_file sd /\
        nsteps (link (certificates sd)) n leaf x /\
        (n = 6%nat \/
         (n < 6)%nat /\ (forall a, In a trusted_root_certificates -> subject_der a <> issuer_der x) /\
         forall y, In y (certificates sd) -> y <> x -> subject_der y <> issuer_der x)
    | CHAIN_INVALID => exists sd signer i leaf key n x y, genuine sd signer i leaf key /\ same_file sd /\
        (n < 6)%nat /\ nsteps (link (certificates sd)) n leaf x /\
        (In y trusted_root_certificates \/ In y (certificates sd)) /\ subject_der y = issuer_der x /\ ~ signed_by x y
    | HASH_MISMATCH => exists sd signer i leaf key h h', genuine sd signer i leaf key /\
        claimed sd = Val (Some h) /\ actual = Val (Some h') /\ h <> h'
    | SIGNATURE_INVALID => exists sd signer i leaf key,
        is_resolved sd signer i leaf key /\ sha256_named signer /\ ~ is_signed signer key
    | MALFORMED =>
        (forall sd signer i leaf key, ~ is_resolved sd signer i leaf key) \/
        (exists sd signer i leaf key, is_resolved sd signer i leaf key /\
           (~ sha256_named signer \/
            is_signed signer key /\ ~ is_bound sd signer \/
            is_signed signer key /\ is_bound sd signer /\ (claimed sd = Val None \/ actual = Val None)))
    end /\
    ((forall sd signer i leaf key, ~ is_resolved sd signer i leaf key) /\ r = Result MALFORMED EmptyString EmptyString \/
     exists sd signer i leaf key, is_resolved sd signer i leaf key /\
       signer_subject_cn r = subject_common_name leaf /\ signer_sha256_thumbprint r = sha256_thumbprint leaf).
Proof.
  intros Hsort is_resolved is_signed is_bound sha256_named claimed actual genuine same_file.
  destruct (verify_authenticode_spec sort pe der Hsort) as (r & Hr & Hcases).
  assert (Hres : forall sd signer i leaf key, is_resolved sd signer i leaf key <-> resolved der sd signer i leaf key).
  { intros. unfold is_resolved, resolved. split; [intros (? & ? & ? & ? & ?); by split_and!|intros (? & ? & [? ? ?]); by split_and!]. }
  exists r. split; [exact Hr|]. destruct Hcases as [(sd & signer & i & leaf & key & Hrs & Hspec & Hnames)|[Hno ->]].
  2: { assert (Hn : forall sd signer i leaf key, ~ is_resolved sd signer i leaf key) by (intros *; rewrite Hres; apply Hno). split; left; done. }
  apply Hres in Hrs. split; [|right; by exists sd, signer, i, leaf, key].
  pose proof (verdict_explained sort Hsort pe sd signer i leaf key (verdict r) (so_leaf _ _ _ _ _ (proj2 (proj2 (proj1 (Hres _ _ _ _ _) Hrs)))) Hspec) as He.
  assert (Hg : sha256_named signer /\ signature_ok signer key /\ digest_ok sd signer -> genuine sd signer i leaf key) by (intros (? & ? & ?); by split_and!).
  destruct (verdict r); cbn [verdict_means] in He.
  - destruct He as (G & Hf & n & x & a & He). exists sd, signer, i, leaf, key, n, x, a. split; [by apply Hg|]. split; [exact Hf|exact He].
  - destruct He as (G & Hf & n & x & He). exists sd, signer, i, leaf, key, n, x. split; [by apply Hg|]. split; [exact Hf|exact He].
  - destruct He as (G & h & h' & He). exists sd, signer, i, leaf, key, h, h'. split; [by apply Hg|exact He].
  - destruct He as (Ho & Hs). by exists sd, signer, i, leaf, key.
  - destruct He as (G & Hf & n & x & y & He). exists sd, signer, i, leaf, key, n, x, y. split; [by apply Hg|]. split; [exact Hf|exact He].
  - right. exists sd, signer, i, leaf, key. split; [exact Hrs|]. exact He.
Qed.

(** C2: soundness of [verify_certificate_chain], a walk of at most six steps that
    always ends: TRUSTED comes with a chain of verified links from the leaf to a
    certificate signed by a compiled-in root, CHAIN_INVALID with a chain of
    verified links to a certificate whose issuer is known but did not sign it,
    and VALID_UNTRUSTED_ROOT with a chain of verified links to a certificate
    without a known issuer, or with six verified links. *)
Theorem certificate_chain_verdict_sound (available : list X509Certificate) (i : nat)
    (leaf : X509Certificate) :
  available !! i = Some leaf ->
  match verify_certificate_chain leaf (Some i) available with
  | TRUSTED => exists n x a, (n < 6)%nat /\ nsteps (link available) n leaf x /\
      In a trusted_root_certificates /\ subject_der a = issuer_der x /\ signed_by x a
  | CHAIN_INVALID => exists n x y, (n < 6)%nat /\ nsteps (link available) n leaf x /\
      (In y trusted_root_certificates \/ In y available) /\ subject_der y = issuer_der x /\
      ~ signed_by x y
  | VALID_UNTRUSTED_ROOT => exists n x, nsteps (link available) n leaf x /\
      (n = 6%nat \/
       (n < 6)%nat /\ (forall a, In a trusted_root_certificates -> subject_der a <> issuer_der x) /\
       forall y, In y available -> y <> x -> subject_der y <> issuer_der x)
  | _ => False
  end.
Proof.
  intros Hl. apply (chain_loop_justified available 6 leaf (Some i)). intros j Hj. injection Hj as <-. exact Hl.
Qed.

(** A certificate without a key, issued by nobody. *)
Definition bare_cert : X509Certificate :=
  Cert [] [] [] [x01] [x02] EmptyString EmptyString EmptyString EmptyString EmptyString None
    EmptyString [] EmptyString.

Lemma certificate_chain_verdict_sound_witness :
  verdict_justified [bare_cert] 6 bare_cert (verify_certificate_chain bare_cert (Some 0%nat) [bare_cert]).
Proof. apply (certificate_chain_verdict_sound [bare_cert] 0 bare_cert). reflexivity. Defined.

(** when the signer has no messageDigest attribute, a TRUSTED verdict on one file
    carries over to any other: put the hash of the other file into the unsigned
    content and the same signature is TRUSTED for it. *)
Theorem missing_message_digest_unbinds_content (sort : (SectionRange -> SectionRange -> bool) -> list SectionRange -> list SectionRange)
    (pe pe' : list byte) (sd : SignedData) (signer : SignerInfo) (i : nat) (leaf : X509Certificate)
    (key : RsaPublicKey) (h' c' : list byte) :
  (forall l, sort section_before l ≡ₚ l) -> signer_of sd signer i leaf key -> message_digest signer = None ->
  extract_spc_pe_hash c' = Val (Some h') ->
  compute_authenticode_pe_hash_sha256 sort (Some pe') (Z.of_nat (length pe')) = Val (Some h') ->
  let trusted := Result TRUSTED (subject_common_name leaf) (sha256_thumbprint leaf) in
  let other := Signed (content_type sd) c' (certificates sd) (signer_infos sd) in
  verify_signed_data sort pe sd signer <> Val trusted \/
  verify_signed_data sort pe' other signer = Val trusted.
Proof.
  intros Hsort Hso Hmd Hc' Hpe' trusted other.
  destruct (verify_signed_data_spec sort Hsort pe sd signer i leaf key Hso) as (v & Hv & _).
  destruct (decide (v = TRUSTED)) as [->|Hne].
  - right. by apply (content_unbound sort pe pe' sd signer i leaf key h' c').
  - left. rewrite Hv. intros E. apply Hne. by injection E.
Qed.

(** ** A signed file, end to end

    A toy signer whose public exponent is 1, so that a signature is the encoded
    message itself, over the smallest signed image. *)
Definition toy_cert : cert_parts :=
  Parts None [x05] [] [[Attr 2 5 [4; 3] x0c [x42]]] (x17, [x31]) (x17, [x32])
    [[Attr 2 5 [4; 3] x0c [x41]]] [] (x00 :: replicate 64 xff) [x01] [] 1 2 [840; 113549; 1; 1; 11] [] [x00].

(** SpcIndirectDataContent with the given PE hash. *)
Definition toy_content (hash : list byte) : list byte :=
  tlvs [(x30, []); (x30, tlvs [(x30, tlvs [(x06, oid_content 2 16 [840; 1; 101; 3; 4; 2; 1])]); (x04, hash)])].

(** The messageDigest attribute. *)
Definition toy_attrs (content : list byte) : list byte :=
  tlvs [(x30, tlvs [(x06, oid_content 1 2 [840; 113549; 1; 9; 4]); (x31, tlvs [(x04, sha256_digest content)])])].

Definition toy_signer (attrs : list byte) : list byte :=
  tlvs [(x02, [x01]); (x30, tlvs [(x30, name_content (p_issuer toy_cert)); (x02, [x05])]);
        (x30, tlvs [(x06, oid_content 2 16 [840; 1; 101; 3; 4; 2; 1])]); (xa0, attrs);
        (x30, tlvs [(x06, oid_content 1 2 [840; 113549; 1; 1; 1])]);
        (x04, emsa_pkcs1 64 (kSha256DigestInfoPrefix ++ sha256_digest (der_tlv x31 attrs)))].

Definition toy_pkcs7 (content attrs : list byte) : list byte :=
  der_tlv x30 (tlvs [(x06, oid_content 1 2 [840; 113549; 1; 7; 2]);
    (xa0, tlvs [(x30, tlvs [(x02, [x01]); (x31, []);
      (x30, tlvs [(x06, oid_content 1 3 [6; 1; 4; 1; 311; 2; 1; 4]); (xa0, tlvs [(x30, content)])]);
      (xa0, tlvs [(x30, tlvs (cert_fields toy_cert))]); (x31, tlvs [(x30, toy_signer attrs)])])])]).

Definition tiny_pe_hash : list byte :=
  match compute_authenticode_pe_hash_sha256 insert_sort (Some tiny_pe) 234 with
  | Val (Some h) => h
  | _ => []
  end.

Definition toy_signature : list byte :=
  let content := toy_content tiny_pe_hash in toy_pkcs7 content (toy_attrs content).

(** The verdicts on the signed file, on a changed file, with a messageDigest of another
    content, and with a changed signature. *)
Example toy_verdicts :
  (fun args => match verify_authenticode insert_sort args.1 args.2 with
               | Val r => Some (verdict r, signer_subject_cn r) | OOB => None end) <$>
    (let content := toy_content tiny_pe_hash in
     [(tiny_pe, toy_signature); (<[40%nat := xff]> tiny_pe, toy_signature);
      (tiny_pe, toy_pkcs7 content (toy_attrs []));
      (tiny_pe, removelast toy_signature ++ [xee])]) =
  [Some (VALID_UNTRUSTED_ROOT, "A"%string); Some (HASH_MISMATCH, "A"%string);
   Some (MALFORMED, "A"%string); Some (SIGNATURE_INVALID, "A"%string)].
Proof. vm_compute. reflexivity. Qed.

Lemma authenticode_verdict_sound_witness :
  exists r, verify_authenticode insert_sort tiny_pe toy_signature = Val r /\
    verdict r = VALID_UNTRUSTED_ROOT.
Proof.
  destruct (authenticode_verdict_sound insert_sort tiny_pe toy_signature (insert_sort_perm section_before))
    as (r & Hr & _ & _).
  exists r. split; [exact Hr|].
  pose proof (f_equal head toy_verdicts) as H. cbn [head fmap list_fmap fst snd] in H. rewrite Hr in H.
  injection H as Hv _. exact Hv.
Defined.

Lemma tiny_pe_hash_computed :
  compute_authenticode_pe_hash_sha256 insert_sort (Some tiny_pe) (Z.of_nat (length tiny_pe)) =
    Val (Some tiny_pe_hash) /\
  extract_spc_pe_hash (toy_content tiny_pe_hash) = Val (Some tiny_pe_hash).
Proof. split; vm_compute; reflexivity. Qed.

(** A certificate with a key, and a signer it answers for. *)
Definition keyed_cert : X509Certificate :=
  Cert [] [] [] [x01] [x02] EmptyString EmptyString EmptyString EmptyString EmptyString
    (Some (RsaKey [xff] [x01])) EmptyString [] EmptyString.

Definition keyed_signer : SignerInfo := Signer [x01] [] EmptyString [] None None EmptyString [].

Lemma missing_message_digest_unbinds_content_witness :
  verify_signed_data insert_sort [] (Signed EmptyString [] [keyed_cert] [keyed_signer]) keyed_signer <>
    Val (Result TRUSTED EmptyString EmptyString) \/
  verify_signed_data insert_sort tiny_pe
    (Signed EmptyString (toy_content tiny_pe_hash) [keyed_cert] [keyed_signer]) keyed_signer =
    Val (Result TRUSTED EmptyString EmptyString).
Proof.
  apply (missing_message_digest_unbinds_content insert_sort [] tiny_pe
    (Signed EmptyString [] [keyed_cert] [keyed_signer]) keyed_signer 0 keyed_cert (RsaKey [xff] [x01])
    tiny_pe_hash (toy_content tiny_pe_hash)).
  - exact (insert_sort_perm section_before).
  - split; reflexivity.
  - reflexivity.
  - exact (proj2 tiny_pe_hash_computed).
  - exact (proj1 tiny_pe_hash_computed).
Defined.

(** Two certificates that signed each other. *)
Definition cycle_cert (issuer subject : list byte) : X509Certificate :=
  Cert [] [] [] issuer subject EmptyString EmptyString EmptyString EmptyString EmptyString
    (Some (RsaKey (replicate 64 xff) [x01])) kSha256WithRsaOid
    (emsa_pkcs1 64 (kSha256DigestInfoPrefix ++ sha256_digest [])) EmptyString.

(** a cyclic certificate set does not fail closed with CHAIN_INVALID: two
    certificates that issued and signed each other, neither issued by a
    compiled-in root, exhaust the depth and are reported VALID_UNTRUSTED_ROOT. *)
Theorem cyclic_chain_is_untrusted_root (a b : X509Certificate) :
  subject_der b = issuer_der a -> subject_der a = issuer_der b -> subject_der a <> subject_der b ->
  signed_by a b -> signed_by b a ->
  find_trust_anchor_by_subject (issuer_der a) = None ->
  find_trust_anchor_by_subject (issuer_der b) = None ->
  verify_certificate_chain a (Some 0%nat) [a; b] = VALID_UNTRUSTED_ROOT.
Proof.
  intros Hab Hba Hne Sa Sb Na Nb. apply verify_cert_signed_by_spec in Sa, Sb.
  assert (Ha : forall n, chain_loop [a; b] (S n) a (Some 0%nat) = chain_loop [a; b] n b (Some 1%nat)).
  { intros n. cbn [chain_loop]. rewrite Na. cbn [find_issuer].
    rewrite (bool_decide_eq_true_2 (Some 0%nat = Some 0%nat)) by reflexivity.
    rewrite (bool_decide_eq_false_2 (Some 0%nat = Some 1%nat)) by discriminate.
    rewrite (bool_decide_eq_true_2 (subject_der b = issuer_der a)) by exact Hab. rewrite Sa. reflexivity. }
  assert (Hb : forall n, chain_loop [a; b] (S n) b (Some 1%nat) = chain_loop [a; b] n a (Some 0%nat)).
  { intros n. cbn [chain_loop]. rewrite Nb. cbn [find_issuer].
    rewrite (bool_decide_eq_false_2 (Some 1%nat = Some 0%nat)) by discriminate.
    rewrite (bool_decide_eq_true_2 (subject_der a = issuer_der b)) by exact Hba. rewrite Sb. reflexivity. }
  unfold verify_certificate_chain, kMaxChainDepth. rewrite Ha, Hb, Ha, Hb, Ha, Hb. reflexivity.
Qed.

Lemma cyclic_chain_is_untrusted_root_witness :
  verify_certificate_chain (cycle_cert [x01] [x02]) (Some 0%nat) [cycle_cert [x01] [x02]; cycle_cert [x02] [x01]] =
  VALID_UNTRUSTED_ROOT.
Proof.
  assert (H : verify_cert_signed_by (cycle_cert [x01] [x02]) (cycle_cert [x02] [x01]) = true /\
              verify_cert_signed_by (cycle_cert [x02] [x01]) (cycle_cert [x01] [x02]) = true /\
              find_trust_anchor_by_subject [x01] = None /\ find_trust_anchor_by_subject [x02] = None)
    by (vm_compute; split_and!; reflexivity).
  destruct H as (H1 & H2 & H3 & H4).
  apply (cyclic_chain_is_untrusted_root (cycle_cert [x01] [x02]) (cycle_cert [x02] [x01]));
    [reflexivity | reflexivity | discriminate | exact (proj1 (verify_cert_signed_by_spec _ _) H1)
     | exact (proj1 (verify_cert_signed_by_spec _ _) H2) | exact H3 | exact H4].
Defined.
