(* ===== verification/Float64.v ===== *)
(** * Float64: the [double] arithmetic the scores use

    A [double] is a binary64 number of the Standard Library's specification of
    IEEE 754 (precision 53, largest exponent 1024, round to nearest even).  A
    decimal literal is the correctly rounded quotient of two integers.
    [std::lround] rounds half away from zero. *)
From S2P Require Import Prelude.
From Stdlib Require Export SpecFloat.

Definition double : Type := spec_float.

#[export] Instance double_eq_decision : EqDecision double.
Proof. solve_decision. Defined.

Definition dmul : double -> double -> double := SFmul 53 1024.
Definition ddiv : double -> double -> double := SFdiv 53 1024.
Definition dadd : double -> double -> double := SFadd 53 1024.
Definition dle : double -> double -> bool := SFleb.
Definition dlt : double -> double -> bool := SFltb.
Definition dz (n : Z) : double := binary_normalize 53 1024 n 0 false.

(** The literal [num / den]. *)
Definition dlit (num den : Z) : double := ddiv (dz num) (dz den).

(** Adding a weight given in percent, as the scores do for each sign they see. *)
Definition add_percent (score : double) (p : Z) : double := if p =? 0 then score else dadd score (dlit p 100).

Definition is_finite (x : double) : bool :=
  match x with S754_zero _ | S754_finite _ _ _ => true | _ => false end.

(** A value a machine can hold. *)
Definition is_double (x : double) : bool := valid_binary 53 1024 x.

(** [std::max], [std::min] and [std::clamp]. *)
Definition dmax (a b : double) : double := if dlt a b then b else a.
Definition dmin (a b : double) : double := if dlt b a then b else a.
Definition dclamp (x lo hi : double) : double := if dlt x lo then lo else if dlt hi x then hi else x.

(** [static_cast<int>] of a value in the range of [int]: towards zero. *)
Definition dtrunc (x : double) : Z :=
  match x with
  | S754_finite s m e =>
      let a := if 0 <=? e then Z.pos m * 2 ^ e else Z.pos m / 2 ^ (- e) in
      if s then - a else a
  | _ => 0
  end.

(** [std::lround]; its value on infinities and NaN is unspecified, and no caller
    reaches them. *)
Definition lround (x : double) : Z :=
  match x with
  | S754_finite s m e =>
      let a := if 0 <=? e then Z.pos m * 2 ^ e else (2 * Z.pos m + 2 ^ (- e)) / 2 ^ (1 - e) in
      if s then - a else a
  | _ => 0
  end.

(** ** Rounding stays below an integer bound *)

Lemma iter_pos_nat {A} (f : A -> A) p x : iter_pos f p x = Nat.iter (Pos.to_nat p) f x.
Proof.
  revert x. induction p as [p IH|p IH|]; intros x; cbn [iter_pos]; [| |done].
  - rewrite !IH, Pos2Nat.inj_xI, <- Nat.iter_succ_r, <- Nat.iter_add. f_equal. lia.
  - rewrite !IH, Pos2Nat.inj_xO, <- Nat.iter_add. f_equal. lia.
Qed.

Definition inexact (r : shr_record) : bool := shr_r r || shr_s r.

Lemma shr_1_spec r :
  0 <= shr_m r -> shr_m (shr_1 r) = shr_m r / 2 /\ inexact (shr_1 r) = Z.odd (shr_m r) || inexact r.
Proof.
  destruct r as [m b s]. unfold inexact. cbn [shr_m shr_r shr_s]. intros Hm.
  destruct m as [|[p|p|]|p]; cbn; try lia.
  - by destruct b.
  - split; [|by destruct b]. change (Z.pos p~1) with (2 * Z.pos p + 1).
    apply (Z.div_unique_pos _ _ _ 1); lia.
  - split; [|by destruct b]. change (Z.pos p~0) with (2 * Z.pos p).
    apply (Z.div_unique_pos _ _ _ 0); lia.
  - by destruct b.
Qed.

Lemma shr_iter_spec n m :
  0 <= m ->
  let r := Nat.iter n shr_1 (Build_shr_record m false false) in
  shr_m r = m / 2 ^ Z.of_nat n /\ inexact r = negb (m mod 2 ^ Z.of_nat n =? 0).
Proof.
  intros Hm. induction n as [|n IH]; cbv zeta.
  - cbn. rewrite Z.div_1_r, Z.mod_1_r. done.
  - cbv zeta in IH. change (Nat.iter (S n) shr_1 (Build_shr_record m false false))
      with (shr_1 (Nat.iter n shr_1 (Build_shr_record m false false))).
    set (r := Nat.iter n shr_1 _) in *. destruct IH as [IHm IHe].
    assert (Hp : 0 < 2 ^ Z.of_nat n) by (apply Z.pow_pos_nonneg; lia).
    assert (Hr : 0 <= shr_m r) by (rewrite IHm; apply Z.div_pos; lia).
    destruct (shr_1_spec r Hr) as [E1 E2].
    rewrite E1, E2, IHe, IHm, Nat2Z.inj_succ, Z.pow_succ_r, (Z.mul_comm 2), <- Z.div_div by lia.
    split; [done|]. rewrite Z.rem_mul_r by lia.
    pose proof (Z.mod_pos_bound m (2 ^ Z.of_nat n) Hp).
    rewrite (Zmod_odd (m / 2 ^ Z.of_nat n)). destruct (Z.odd (m / 2 ^ Z.of_nat n)); cbn [orb].
    + symmetry. apply negb_true_iff, Z.eqb_neq. lia.
    + f_equal. f_equal. lia.
Qed.

(** Shifting by [k] rounds down and keeps track of exactness. *)
Lemma shr_spec m e k :
  0 <= m ->
  let '(r, e') := shr (Build_shr_record m false false) e k in
  e' = e + Z.max 0 k /\ shr_m r = m / 2 ^ Z.max 0 k /\
  inexact r = negb (m mod 2 ^ Z.max 0 k =? 0).
Proof.
  intros Hm. unfold shr. destruct k as [|p|p]; cbn [Z.max Z.compare].
  - change (2 ^ 0) with 1. rewrite Z.div_1_r, Z.add_0_r, Z.mod_1_r. done.
  - destruct (shr_iter_spec (Pos.to_nat p) m Hm) as [E1 E2].
    rewrite positive_nat_Z in *. rewrite iter_pos_nat. done.
  - change (2 ^ 0) with 1. rewrite Z.div_1_r, Z.add_0_r, Z.mod_1_r. done.
Qed.

Lemma digits_lower p : 2 ^ (Z.pos (digits2_pos p) - 1) <= Z.pos p.
Proof.
  induction p as [p IH|p IH|]; cbn [digits2_pos]; [| |done].
  - rewrite Pos2Z.inj_succ. replace (Z.succ (Z.pos (digits2_pos p)) - 1)
      with (Z.succ (Z.pos (digits2_pos p) - 1)) by lia.
    rewrite Z.pow_succ_r by lia. lia.
  - rewrite Pos2Z.inj_succ. replace (Z.succ (Z.pos (digits2_pos p)) - 1)
      with (Z.succ (Z.pos (digits2_pos p) - 1)) by lia.
    rewrite Z.pow_succ_r by lia. lia.
Qed.

Lemma digits_upper p : Z.pos p < 2 ^ Z.pos (digits2_pos p).
Proof.
  induction p as [p IH|p IH|]; cbn [digits2_pos]; [| |done].
  - rewrite Pos2Z.inj_succ, Z.pow_succ_r by lia. lia.
  - rewrite Pos2Z.inj_succ, Z.pow_succ_r by lia. lia.
Qed.

Section bounded_product.
Context (B : Z) (HB : 0 < B < 2 ^ 20).

#[local] Abbreviation fe := (fexp 53 1024).

(** A number below [B] has few digits before the point. *)
Lemma fexp_small M E : E < 0 -> 0 < M <= B * 2 ^ (- E) -> fe (Zdigits2 M + E) < 0.
Proof using HB.
  intros HE HM. destruct M as [|p|p]; [lia| |lia]. cbn [Zdigits2].
  pose proof (digits_lower p) as Hd. unfold fexp, emin.
  assert (Z.pos (digits2_pos p) + E - 53 < 0); [|lia].
  destruct (Z.lt_ge_cases (Z.pos (digits2_pos p) + E - 53) 0) as [|Hge]; [done|]. exfalso.
  assert (2 ^ (20 - E) <= 2 ^ (Z.pos (digits2_pos p) - 1)) by (apply Z.pow_le_mono_r; lia).
  assert (Hp : 2 ^ (20 - E) = 2 ^ 20 * 2 ^ (- E)) by (rewrite <- Z.pow_add_r by lia; f_equal; lia).
  assert (0 < 2 ^ (- E)) by (apply Z.pow_pos_nonneg; lia). nia.
Qed.

(** One rounding step keeps the value below [B], and its exponent negative. *)
Lemma shr_fexp_bound M E :
  E < 0 -> 0 < M <= B * 2 ^ (- E) ->
  let '(r, E') := shr_fexp 53 1024 M E loc_Exact in
  let M' := round_nearest_even (shr_m r) (loc_of_shr_record r) in
  E' < 0 /\ 0 <= shr_m r <= M' /\ M' <= B * 2 ^ (- E').
Proof using HB.
  intros HE HM. unfold shr_fexp. cbn [shr_record_of_loc].
  pose proof (fexp_small M E HE HM) as Hfe. set (k := fe (Zdigits2 M + E) - E).
  pose proof (shr_spec M E k ltac:(lia)) as Hs.
  destruct (shr (Build_shr_record M false false) E k) as [r E'].
  destruct Hs as (-> & Em & Ex). set (K := Z.max 0 k) in *.
  assert (HE' : E + K < 0) by (unfold K, k; lia).
  assert (HK : 0 < 2 ^ K) by (apply Z.pow_pos_nonneg; lia).
  assert (HN : B * 2 ^ (- E) = B * 2 ^ (- (E + K)) * 2 ^ K).
  { rewrite <- Z.mul_assoc, <- Z.pow_add_r by lia. do 2 f_equal. lia. }
  set (N := B * 2 ^ (- (E + K))) in *.
  assert (Hle : shr_m r <= N) by (rewrite Em; apply Z.div_le_upper_bound; lia).
  assert (H0 : 0 <= shr_m r) by (rewrite Em; apply Z.div_pos; lia).
  assert (Hlt : inexact r = true -> shr_m r + 1 <= N).
  { intros Hi. destruct (Z.eq_dec (shr_m r) N) as [E1|]; [|lia]. exfalso.
    assert (Hmod : M mod 2 ^ K = 0).
    { pose proof (Z.div_mod M (2 ^ K) ltac:(lia)). pose proof (Z.mod_pos_bound M (2 ^ K) HK). nia. }
    rewrite Hi, Hmod in Ex. discriminate Ex. }
  split; [done|].
  destruct r as [m rb rs]. cbn [shr_m] in *. unfold inexact in *. cbn [shr_r shr_s orb] in *.
  destruct rb, rs; cbn [loc_of_shr_record round_nearest_even orb] in *; try (specialize (Hlt eq_refl); lia); try lia.
  destruct (Z.even m); specialize (Hlt eq_refl); lia.
Qed.
Lemma lround_bound M E :
  E < 0 -> 0 < M <= B * 2 ^ (- E) ->
  0 <= lround (binary_round_aux 53 1024 false M E loc_Exact) <= B.
Proof using HB.
  intros HE HM. unfold binary_round_aux.
  pose proof (shr_fexp_bound M E HE HM) as H1.
  destruct (shr_fexp 53 1024 M E loc_Exact) as [r1 E1]. cbv zeta in H1.
  set (M1 := round_nearest_even _ _) in *. destruct H1 as (HE1 & Hr1 & HM1).
  destruct (Z.eq_dec M1 0) as [E0|Hne].
  { rewrite E0. unfold shr_fexp. cbn [shr_record_of_loc].
    pose proof (shr_spec 0 E1 (fe (Zdigits2 0 + E1) - E1) ltac:(lia)) as Hs.
    destruct (shr _ _ _) as [r2 E2]. destruct Hs as (_ & Em & _). rewrite Z.div_0_l in Em by lia.
    rewrite Em. cbn. lia. }
  pose proof (shr_fexp_bound M1 E1 HE1 ltac:(lia)) as H2.
  destruct (shr_fexp 53 1024 M1 E1 loc_Exact) as [r2 E2]. cbv zeta in H2.
  destruct H2 as (HE2 & Hr2 & HM2). destruct (shr_m r2) as [|p|p]; [cbn; lia| |lia].
  rewrite (proj2 (Z.leb_le E2 (1024 - 53))) by lia. unfold lround.
  rewrite (proj2 (Z.leb_gt 0 E2)) by lia.
  assert (Hp : 0 < 2 ^ (- E2)) by (apply Z.pow_pos_nonneg; lia).
  replace (1 - E2) with (Z.succ (- E2)) by lia. rewrite Z.pow_succ_r by lia. split.
  - apply Z.div_pos; lia.
  - apply Z.lt_succ_r, Z.div_lt_upper_bound; [lia|]. nia.
Qed.
End bounded_product.

(** A probability is a double in [0, 1]. *)
Definition unit_interval (x : double) : bool := is_finite x && dle (dz 0) x && dle x (dz 1).

Lemma unit_mantissa s m e :
  is_double (S754_finite s m e) = true -> unit_interval (S754_finite s m e) = true ->
  s = false /\ e < 0 /\ Z.pos m <= 2 ^ (- e).
Proof.
  unfold is_double, unit_interval, valid_binary, bounded, canonical_mantissa.
  intros Hb Hu. bool_facts. destruct s.
  - exfalso. match goal with H : dle (dz 0) _ = true |- _ => discriminate H end.
  - match goal with H : dle _ (dz 1) = true |- _ => revert H end.
    change (dz 1) with (S754_finite false 4503599627370496 (-52)).
    unfold dle, SFleb, SFcompare. pose proof (digits_upper m) as Hd.
    match goal with H : fexp 53 1024 _ = e |- _ => unfold fexp, emin in H; rename H into Hf end.
    destruct (Z.compare_spec e (-52)) as [->|Hlt|Hgt]; [| |done].
    + intros Hc. split; [done|]. split; [lia|]. clear Hf Hd.
      change (2 ^ (- (-52))) with 4503599627370496.
      revert Hc. generalize 4503599627370496%positive. clear. intros X Hc.
      destruct (Z.le_gt_cases (Z.pos m) (Z.pos X)) as [|Hgt]; [done|]. exfalso.
      apply Z.gt_lt_iff in Hgt. unfold Z.gt in Hgt. cbn [Z.compare] in Hgt. unfold Pos.compare in Hgt.
      rewrite Hgt in Hc. discriminate Hc.
    + intros _. split; [done|]. split; [lia|].
      assert (Hm : Z.pos m < 2 ^ 53).
      { eapply Z.lt_le_trans; [apply Hd|]. apply Z.pow_le_mono_r; lia. }
      assert (2 ^ 53 <= 2 ^ (- e)) by (apply Z.pow_le_mono_r; lia). lia.
Qed.

(** [std::lround(c * n)] of a probability and a small literal stays within [0, n]. *)
Lemma lround_unit c n p e :
  dz n = S754_finite false p e -> e < 0 -> Z.pos p = n * 2 ^ (- e) -> 0 < n < 2 ^ 20 ->
  is_double c = true -> unit_interval c = true -> 0 <= lround (dmul c (dz n)) <= n.
Proof.
  intros Hn He Hp Hrange Hd Hu. rewrite Hn. destruct c as [s|s| |s m ec].
  - destruct s; cbn; lia.
  - discriminate Hu.
  - discriminate Hu.
  - destruct (unit_mantissa _ _ _ Hd Hu) as (-> & Hec & Hm). cbn [dmul SFmul xorb].
    unfold dmul, SFmul. cbn [xorb]. apply lround_bound; [done|lia|].
    rewrite Pos2Z.inj_mul, Hp. split; [nia|].
    replace (- (ec + e)) with (- ec + - e) by lia. rewrite Z.pow_add_r by lia.
    assert (0 < 2 ^ (- e)) by (apply Z.pow_pos_nonneg; lia). nia.
Qed.

(** ** Scores of all combinations of signs *)

Definition percent (l : list Z) : Z := foldl Z.add 0 l.

Lemma add_if2 (c : bool) s p : (p =? 0) = false -> (if c then dadd s (dlit p 100) else s) = add_percent s (if c then p else 0).
Proof. intros H. unfold add_percent. destruct c; [by rewrite H|done]. Qed.

Lemma add_if3 (c : bool) s p r q : (p =? 0) = false -> r = add_percent s q ->
  (if c then dadd s (dlit p 100) else r) = add_percent s (if c then p else q).
Proof. intros H ->. unfold add_percent. destruct c; [by rewrite H|done]. Qed.

(** The test holds of every sum that takes one weight of each list. *)
Fixpoint all_scores (test : list Z -> double -> bool) (score : double) (path : list Z) (options : list (list Z)) : bool :=
  match options with
  | [] => test (reverse path) score
  | xs :: options => forallb (fun x => all_scores test (add_percent score x) (x :: path) options) xs
  end.

Lemma all_scores_spec test options l : Forall2 (fun x xs => In x xs) l options -> forall score path,
  all_scores test score path options = true -> test (reverse path ++ l) (foldl add_percent score l) = true.
Proof.
  induction 1 as [|x xs l options Hx Hl IH]; intros score path H; cbn [all_scores foldl] in *; [by rewrite app_nil_r|].
  apply (proj1 (forallb_forall _ _) H), IH in Hx. rewrite reverse_cons, <- app_assoc in Hx. exact Hx.
Qed.
