(* ===== verification/Entropy.v ===== *)
(** * Entropy: byte statistics

    Models [shannon_entropy] and [chi_squared] of src/include/gcad/common.hpp on doubles;
    [std::log2] is an argument, because the standard does not fix its rounding. *)
From S2P Require Import Prelude Float64.

Definition dsub : double -> double -> double := SFsub 53 1024.

Section entropy.
Context (log2 : double -> double).

(** The counts of the byte values. *)
Definition frequencies (l : list byte) : list Z :=
  foldl (fun freq b => alter Z.succ (Z.to_nat (bval b)) freq) (replicate 256 0) l.

Definition entropy_step (total : double) (entropy : double) (count : Z) : double :=
  if 0 <? count then let p := ddiv (dz count) total in dsub entropy (dmul p (log2 p)) else entropy.

(** The bytes are those at a pointer that is not null. *)
Definition shannon_entropy (l : list byte) : double :=
  match l with
  | [] => dz 0
  | _ => foldl (entropy_step (dz (Z.of_nat (length l)))) (dz 0) (frequencies l)
  end.
End entropy.

Definition chi_step (expected chi2 : double) (count : Z) : double :=
  let diff := dsub (dz count) expected in dadd chi2 (ddiv (dmul diff diff) expected).

Definition chi_squared (l : list byte) : double :=
  match l with
  | [] => dz 0
  | _ =>
      let expected := ddiv (dz (Z.of_nat (length l))) (dz 256) in
      foldl (chi_step expected) (dz 0) (frequencies l)
  end.

Lemma frequencies_length l : length (frequencies l) = 256%nat.
Proof.
  unfold frequencies. assert (H : forall (l : list byte) f, length (foldl (fun freq b => alter Z.succ (Z.to_nat (bval b)) freq) f l) = length f).
  { clear l. induction l as [|b l IH]; intros f; cbn [foldl]; [done|]. by rewrite IH, length_alter. }
  rewrite H. apply length_replicate.
Qed.

(** The counts add up to the length. *)
Lemma frequencies_total l : foldr Z.add 0 (frequencies l) = Z.of_nat (length l).
Proof.
  assert (Hsum : forall (f : list Z) i, (i < length f)%nat -> foldr Z.add 0 (alter Z.succ i f) = foldr Z.add 0 f + 1).
  { induction f as [|x f IH]; intros i Hi; cbn in Hi; [lia|]. destruct i as [|i]; cbn; [lia|]. rewrite IH by lia. lia. }
  assert (H : forall (l : list byte) f, (256 <= length f)%nat ->
    foldr Z.add 0 (foldl (fun freq b => alter Z.succ (Z.to_nat (bval b)) freq) f l) = foldr Z.add 0 f + Z.of_nat (length l)).
  { clear l. induction l as [|b l IH]; intros f Hf; cbn [foldl length]; [lia|].
    rewrite IH by (by rewrite length_alter). rewrite Hsum by (pose proof (bval_range b); lia). lia. }
  unfold frequencies. rewrite H by (by rewrite length_replicate). done.
Qed.
