(* ===== verification/Observation.v ===== *)
(** * Observation: the data the security components exchange

    Models the enumerations of src/include/gcad/common.hpp the pipeline uses and
    observation.hpp.  Time points are nanoseconds, confidences are doubles,
    strings are byte strings; [std::tolower] is that of the C locale. *)
From S2P Require Import Prelude Float64 Asn1.

(** ** Enumerations *)

Inductive ErrorCode :=
  | OK | ERR_NOMEM | ERR_INIT_FAIL | ERR_ENGINE_START | ERR_ENGINE_STOP | ERR_SCAN_IO
  | ERR_SCAN_ACCESS | ERR_SCAN_CORRUPT | ERR_NET_SOCKET | ERR_NET_BIND | ERR_NET_RECV
  | ERR_CRYPTO_HASH | ERR_QUARANTINE_FULL | ERR_ROLLBACK_FAIL | ERR_NOT_FOUND
  | ERR_INVALID_TRANSITION | ERR_QUARANTINE_DENIED | ERR_SHRED_FAIL | ERR_PLATFORM
  | ERR_SELF_DEFENSE.

#[export] Instance ErrorCode_eq_decision : EqDecision ErrorCode.
Proof. solve_decision. Defined.

Inductive ThreatLevel := SAFE | LOW | MEDIUM | HIGH | CRITICAL.

#[export] Instance ThreatLevel_eq_decision : EqDecision ThreatLevel.
Proof. solve_decision. Defined.

Definition level_value (l : ThreatLevel) : Z :=
  match l with SAFE => 0 | LOW => 1 | MEDIUM => 2 | HIGH => 3 | CRITICAL => 4 end.

Inductive ObservationKind :=
  | ARTIFACT_SIGNATURE | ARTIFACT_STRUCTURE | ARTIFACT_TRUST | INVALID_PE
  | UNSIGNED_RISKY_LOCATION | INVALID_SIGNATURE | HIGH_ENTROPY | PROCESS_MEMORY
  | PROCESS_LINEAGE | NETWORK_CONNECTION | REGISTRY_PERSISTENCE | FILE_INTEGRITY
  | DNS_ANOMALY | YARA_MATCH | LEGACY_ENGINE.

#[export] Instance ObservationKind_eq_decision : EqDecision ObservationKind.
Proof. solve_decision. Defined.

(** [static_cast<unsigned>(kind)] *)
Definition kind_value (k : ObservationKind) : Z :=
  match k with
  | ARTIFACT_SIGNATURE => 0 | ARTIFACT_STRUCTURE => 1 | ARTIFACT_TRUST => 2 | INVALID_PE => 3
  | UNSIGNED_RISKY_LOCATION => 4 | INVALID_SIGNATURE => 5 | HIGH_ENTROPY => 6
  | PROCESS_MEMORY => 7 | PROCESS_LINEAGE => 8 | NETWORK_CONNECTION => 9
  | REGISTRY_PERSISTENCE => 10 | FILE_INTEGRITY => 11 | DNS_ANOMALY => 12 | YARA_MATCH => 13
  | LEGACY_ENGINE => 14
  end.

(** ** Observations *)

Record SecurityObservation := Obs {
  source_id : string;
  kind : ObservationKind;
  timestamp : Z;
  suggested_level : ThreatLevel;
  confidence : double;
  deterministic : bool;
  process_id : Z;
  process_name : string;
  file_path : string;
  sha256 : string;
  evidence : string;
}.

Definition empty_string (s : string) : bool := String.eqb s EmptyString.

Definition valid (o : SecurityObservation) : bool :=
  negb (empty_string (source_id o)) && negb (empty_string (evidence o)) &&
  is_finite (confidence o) && dle (dz 0) (confidence o) && dle (confidence o) (dz 1) &&
  negb (bool_decide (suggested_level o = SAFE)).

Definition char_value (c : Ascii.ascii) : Z := Z.of_N (Ascii.N_of_ascii c).
Definition char_of (z : Z) : Ascii.ascii := Ascii.ascii_of_N (Z.to_N z).

(** [std::tolower] on an [unsigned char]. *)
Definition tolower (c : Ascii.ascii) : Ascii.ascii :=
  let v := char_value c in
  if (65 <=? v) && (v <=? 90) then char_of (v + 32) else c.

Fixpoint string_map (f : Ascii.ascii -> Ascii.ascii) (s : string) : string :=
  match s with
  | EmptyString => EmptyString
  | String.String c s => String.String (f c) (string_map f s)
  end.

Definition slash (c : Ascii.ascii) : Ascii.ascii := if char_value c =? 92 then char_of 47 else c.

(** The local function [normalize] of [correlation_key]. *)
Definition normalize (value : string) : string := string_map tolower (string_map slash value).

Definition identity_of (o : SecurityObservation) : string :=
  if negb (empty_string (sha256 o)) then normalize (sha256 o)
  else if negb (empty_string (file_path o)) then normalize (file_path o)
  else if negb (process_id o =? 0) then "pid:" +:+ to_string (process_id o)
  else normalize (process_name o).

Definition correlation_key (o : SecurityObservation) : string :=
  to_string (kind_value (kind o)) +:+ ":" +:+ identity_of o.

(** ** Lemmas *)

Lemma level_value_inj a b : level_value a = level_value b -> a = b.
Proof. by destruct a, b. Qed.

Lemma string_map_map f g s : string_map f (string_map g s) = string_map (fun c => f (g c)) s.
Proof. induction s as [|c s IH]; [done|]. cbn. by rewrite IH. Qed.

Lemma string_map_ext f g s : (forall c, f c = g c) -> string_map f s = string_map g s.
Proof. intros H. induction s as [|c s IH]; [done|]. cbn. by rewrite H, IH. Qed.

Lemma normalize_char_idem c : tolower (slash (tolower (slash c))) = tolower (slash c).
Proof. destruct c as [[] [] [] [] [] [] [] []]; vm_compute; reflexivity. Qed.

Lemma normalize_idem s : normalize (normalize s) = normalize s.
Proof.
  unfold normalize. rewrite !string_map_map. apply string_map_ext, normalize_char_idem.
Qed.

Lemma empty_string_spec s : empty_string s = true <-> s = EmptyString.
Proof. apply String.eqb_eq. Qed.

(** The confidence of a valid observation is a probability. *)
Lemma valid_unit o : valid o = true -> unit_interval (confidence o) = true.
Proof.
  unfold valid, unit_interval. rewrite !andb_true_iff. intros [[[[_ Hf] H0] H1] _]. by rewrite Hf, H0, H1.
Qed.

(** The digits of a number hold no colon, so the kind can be read off a key. *)
Definition colon : Ascii.ascii := Ascii.Ascii false true false true true true false false.

Fixpoint has_char (c : Ascii.ascii) (s : string) : bool :=
  match s with
  | EmptyString => false
  | String.String a s => bool_decide (a = c) || has_char c s
  end.

Lemma split_at_char c a b a' b' :
  has_char c a = false -> has_char c a' = false ->
  a +:+ String.String c b = a' +:+ String.String c b' -> a = a' /\ b = b'.
Proof.
  revert a'. induction a as [|x a IH]; intros [|x' a'] Ha Ha' E; cbn in *.
  - by injection E as ->.
  - injection E as -> _. by rewrite bool_decide_eq_true_2 in Ha'.
  - injection E as -> _. by rewrite bool_decide_eq_true_2 in Ha.
  - injection E as -> E. apply orb_false_iff in Ha as [_ Ha], Ha' as [_ Ha'].
    destruct (IH a' Ha Ha' E) as [-> ->]. done.
Qed.

Lemma kind_value_inj k k' : kind_value k = kind_value k' -> k = k'.
Proof. by destruct k, k'. Qed.

Lemma kind_text_plain k : has_char colon (to_string (kind_value k)) = false.
Proof. destruct k; vm_compute; reflexivity. Qed.

Lemma kind_text_inj k k' : to_string (kind_value k) = to_string (kind_value k') -> k = k'.
Proof. destruct k, k'; vm_compute; done. Qed.

(** Keys separate kinds: a finding never mixes observations of two kinds. *)
Lemma correlation_key_inj o o' :
  correlation_key o = correlation_key o' -> kind o = kind o' /\ identity_of o = identity_of o'.
Proof.
  unfold correlation_key. intros E.
  change (to_string (kind_value (kind o)) +:+ String.String colon (identity_of o) =
          to_string (kind_value (kind o')) +:+ String.String colon (identity_of o')) in E.
  apply (split_at_char colon) in E as [Ek Ei]; [|apply kind_text_plain..].
  split; [by apply kind_text_inj|done].
Qed.

(** ** Properties *)

(** correlation keys group observations of one kind about one artefact: equal
    keys mean the same kind and the same identity; the identity is the hash when
    there is one, else the path, else the process id, else the process name; and
    spelling a path or a hash in another case, or a path with the other
    separator, does not change the key. *)
Theorem correlation_key_identity (o o' : SecurityObservation) :
  (correlation_key o = correlation_key o' -> kind o = kind o' /\ identity_of o = identity_of o') /\
  identity_of o =
    (if bool_decide (sha256 o <> EmptyString) then normalize (sha256 o)
     else if bool_decide (file_path o <> EmptyString) then normalize (file_path o)
     else if bool_decide (process_id o <> 0) then "pid:" +:+ to_string (process_id o)
     else normalize (process_name o)) /\
  (forall s, normalize (string_map slash s) = normalize s /\ normalize (string_map tolower s) = normalize s /\
     normalize (normalize s) = normalize s).
Proof.
  split; [apply correlation_key_inj|]. split.
  - unfold identity_of, empty_string.
    destruct (String.eqb_spec (sha256 o) EmptyString); [rewrite bool_decide_eq_false_2 by tauto|by rewrite bool_decide_eq_true_2].
    destruct (String.eqb_spec (file_path o) EmptyString); [rewrite bool_decide_eq_false_2 by tauto|by rewrite bool_decide_eq_true_2].
    destruct (Z.eqb_spec (process_id o) 0); [by rewrite bool_decide_eq_false_2 by tauto|by rewrite bool_decide_eq_true_2].
  - intros s. split_and!; [| |apply normalize_idem]; unfold normalize; rewrite !string_map_map;
      apply string_map_ext; intros [[] [] [] [] [] [] [] []]; vm_compute; reflexivity.
Qed.

Lemma correlation_key_identity_witness :
  kind (Obs "s" YARA_MATCH 0 HIGH (dz 1) true 0 EmptyString "C:\A.exe" EmptyString "e") = YARA_MATCH.
Proof.
  apply (correlation_key_identity (Obs "s" YARA_MATCH 0 HIGH (dz 1) true 0 EmptyString "C:\A.exe" EmptyString "e")
    (Obs "t" YARA_MATCH 1 LOW (dz 1) false 7 EmptyString "c:/a.EXE" EmptyString "f")). vm_compute. reflexivity.
Defined.
