(* ===== verification/Text.v ===== *)
(** * Text: the string operations of the engines

    The searches and cuts of [std::string] that the detection engines use, over byte
    strings; a position that is [npos] is [None]. *)
From S2P Require Import Prelude Float64 Asn1 Observation.

(** The byte of a [char]. *)
Definition byte_of_char (c : Ascii.ascii) : byte := byte_of (char_value c).

Fixpoint bytes_of_string (s : string) : list byte :=
  match s with
  | EmptyString => []
  | String.String c s => byte_of_char c :: bytes_of_string s
  end.

(** A [std::string] built from bytes. *)
Definition char_of_byte (b : byte) : Ascii.ascii := char_of (bval b).

Fixpoint string_of_bytes (l : list byte) : string :=
  match l with
  | [] => EmptyString
  | b :: l => String.String (char_of_byte b) (string_of_bytes l)
  end.

Fixpoint find_idx (f : Ascii.ascii -> bool) (s : string) : option nat :=
  match s with
  | EmptyString => None
  | String.String c s => if f c then Some 0%nat else S <$> find_idx f s
  end.

(** [find_last_of] and [rfind] of a character. *)
Fixpoint find_last (f : Ascii.ascii -> bool) (s : string) : option nat :=
  match s with
  | EmptyString => None
  | String.String c s =>
      match find_last f s with Some i => Some (S i) | None => if f c then Some 0%nat else None end
  end.

Fixpoint str_drop (n : nat) (s : string) : string :=
  match n, s with
  | S n, String.String _ s => str_drop n s
  | _, _ => s
  end.

(** [find_first_of] and its relatives from a position on. *)
Definition find_from (f : Ascii.ascii -> bool) (s : string) (pos : nat) : option nat :=
  (fun i => (pos + i)%nat) <$> find_idx f (str_drop pos s).

(** [find] of a non-empty string from a position on. *)
Fixpoint find_sub (needle s : string) : bool :=
  String.prefix needle s || match s with EmptyString => false | String.String _ s => find_sub needle s end.

(** The position [find] returns. *)
Fixpoint find_pos (needle s : string) : option nat :=
  if String.prefix needle s then Some 0%nat
  else match s with EmptyString => None | String.String _ s => S <$> find_pos needle s end.

Definition find_str (needle s : string) (pos : nat) : bool := find_sub needle (str_drop pos s).

Definition one_of (chars : list Z) (c : Ascii.ascii) : bool := existsb (Z.eqb (char_value c)) chars.
Definition none_of (chars : list Z) (c : Ascii.ascii) : bool := negb (one_of chars c).

(** " \t\r\n" *)
Definition white : list Z := [32; 9; 13; 10].

Definition trim (line : string) : option string :=
  match find_from (none_of white) line 0, find_last (none_of white) line with
  | Some start, Some last => Some (String.substring start (last - start + 1) line)
  | _, _ => None
  end.

Definition bar : Ascii.ascii := char_of 124.

(** The text before the next bar and behind it. *)
Fixpoint cut_bar (s : string) : option (string * string) :=
  match s with
  | EmptyString => None
  | String.String c s =>
      if char_value c =? 124 then Some (EmptyString, s)
      else match cut_bar s with Some (a, b) => Some (String.String c a, b) | None => None end
  end.

(** [std::getline] up to the next bar on a string stream: what it extracts, [None] when it
    fails, and the rest of the stream, [None] at its end. *)
Definition getline_bar (stream : option string) : option string * option string :=
  match stream with
  | None => (None, None)
  | Some s =>
      match cut_bar s with
      | Some (field, rest) => (Some field, Some rest)
      | None => (if empty_string s then None else Some s, None)
      end
  end.

(** The dash the messages use, in UTF-8. *)
Definition em_dash : string := string_of_bytes (byte_of <$> [0xE2; 0x80; 0x94]).

(** [std::toupper] on an [unsigned char]. *)
Definition toupper (c : Ascii.ascii) : Ascii.ascii :=
  let v := char_value c in if (97 <=? v) && (v <=? 122) then char_of (v - 32) else c.

(** ** Paths *)

(** [path.extension()] as built for Windows: the part of the file name from its last dot on, when another
    character is before that dot. *)
Definition file_name (path : string) : string :=
  match find_last (one_of [47; 92]) path with None => path | Some p => str_drop (S p) path end.

Definition extension (path : string) : string :=
  let name := file_name path in
  if String.eqb name ".." then EmptyString
  else
    match find_last (one_of [46]) name with
    | None | Some O => EmptyString
    | Some p => str_drop p name
    end.

(** [path.stem()]: the file name without its extension. *)
Definition stem (path : string) : string :=
  let name := file_name path in String.substring 0 (String.length name - String.length (extension path)) name.

(** ** Lines and numbers *)

Definition newline : Ascii.ascii := char_of 10.
(** The lines [std::getline] returns; [line] holds the characters read so far. *)
Fixpoint lines_of (text line : string) (started : bool) : list string :=
  match text with
  | EmptyString => if started then [line] else []
  | String.String c text =>
      if bool_decide (c = newline) then line :: lines_of text EmptyString false
      else lines_of text (line +:+ String.String c EmptyString) true
  end.

Definition get_lines (text : string) : list string := lines_of text EmptyString false.

Definition is_space (c : Ascii.ascii) : bool :=
  let v := char_value c in (v =? 32) || ((9 <=? v) && (v <=? 13)).

(** [std::isalnum] of the C locale. *)
Definition is_alnum (c : Ascii.ascii) : bool :=
  let v := char_value c in ((48 <=? v) && (v <=? 57)) || ((65 <=? v) && (v <=? 90)) || ((97 <=? v) && (v <=? 122)).

Definition digit_value (c : Ascii.ascii) : option Z :=
  let v := char_value c in if (48 <=? v) && (v <=? 57) then Some (v - 48) else None.

Fixpoint skip_space (s : string) : string :=
  match s with
  | String.String c s' => if is_space c then skip_space s' else s
  | EmptyString => s
  end.

(** The value of the leading digits, [None] when there is none. *)
Fixpoint read_digits (s : string) (acc : option Z) : option Z :=
  match s with
  | String.String c s =>
      match digit_value c with
      | Some d => read_digits s (Some (default 0 acc * 10 + d))
      | None => acc
      end
  | EmptyString => acc
  end.

(** The sign and the digits of the conversions; [None] is [std::invalid_argument]. *)
Definition read_signed (s : string) : option (bool * Z) :=
  let s := skip_space s in
  let '(negative, s) :=
    match s with
    | String.String c s' =>
        if char_value c =? 45 then (true, s') else if char_value c =? 43 then (false, s') else (false, s)
    | EmptyString => (false, s)
    end in
  match read_digits s None with
  | None => None
  | Some v => Some (negative, v)
  end.

(** The conversions to signed and unsigned integers of [w] bits; [None] is one of the two
    exceptions.  The unsigned one negates modulo [2 ^ w]. *)
Definition sto_signed (w : Z) (s : string) : option Z :=
  match read_signed s with
  | None => None
  | Some (negative, v) =>
      let v := if negative : bool then - v else v in
      if (- 2 ^ (w - 1) <=? v) && (v <? 2 ^ (w - 1)) then Some v else None
  end.

Definition sto_unsigned (w : Z) (s : string) : option Z :=
  match read_signed s with
  | None => None
  | Some (negative, v) => if v <? 2 ^ w then Some (if negative : bool then (- v) mod 2 ^ w else v) else None
  end.

Definition stoi : string -> option Z := sto_signed 32.
Definition stoll : string -> option Z := sto_signed 64.
Definition stoull : string -> option Z := sto_unsigned 64.

(** [operator<<] and [std::to_string] of an integer. *)
Definition print_int (z : Z) : string :=
  if z <? 0 then "-" +:+ to_string (- z) else to_string z.

(** ** Reading back a number *)

Lemma string_app_assoc (a b c : string) : a +:+ (b +:+ c) = (a +:+ b) +:+ c.
Proof. induction a as [|x a IH]; [done|]. exact (f_equal (String.String x) IH). Qed.

Lemma string_app_nil (a : string) : a +:+ EmptyString = a.
Proof. induction a as [|x a IH]; [done|]. exact (f_equal (String.String x) IH). Qed.

Lemma string_app_cons a c b : (a +:+ String.String c EmptyString) +:+ b = a +:+ String.String c b.
Proof. by rewrite <- string_app_assoc. Qed.

Lemma string_map_length f s : String.length (string_map f s) = String.length s.
Proof. induction s as [|c s IH]; [done|]. cbn. by rewrite IH. Qed.

Lemma string_app_length s t : String.length (s +:+ t) = (String.length s + String.length t)%nat.
Proof. induction s as [|c s IH]; [done|]. exact (f_equal S IH). Qed.

Lemma str_drop_len n s : (String.length (str_drop n s) <= String.length s)%nat.
Proof. revert s. induction n as [|n IH]; intros [|c s]; cbn; try lia. etransitivity; [apply IH|lia]. Qed.

Lemma str_drop_app (a b : string) : str_drop (String.length a) (a +:+ b) = b.
Proof. induction a as [|c a IH]; [by destruct b|exact IH]. Qed.

Lemma substring_app (a b : string) : String.substring 0 (String.length a) (a +:+ b) = a.
Proof.
  induction a as [|c a IH]; [by destruct b|].
  change (String.String c (String.substring 0 (String.length a) (a +:+ b)) = String.String c a). by rewrite IH.
Qed.

Lemma string_app_l_inj (s a b : string) : s +:+ a = s +:+ b -> a = b.
Proof. induction s as [|c s IH]; [done|]. intros [= E]. by apply IH. Qed.

Lemma digit_value_pretty x :
  (x < 10)%N -> digit_value (pretty_N_char x) = Some (Z.of_N x).
Proof.
  intros Hx.
  assert (Hin : x = 0%N \/ x = 1%N \/ x = 2%N \/ x = 3%N \/ x = 4%N \/ x = 5%N \/ x = 6%N \/ x = 7%N \/
          x = 8%N \/ x = 9%N) by lia.
  repeat destruct Hin as [->|Hin]; try subst x; vm_compute; reflexivity.
Qed.

Lemma pretty_N_go_head x s :
  (0 < x)%N -> exists c r, pretty_N_go x s = String.String c r /\ is_Some (digit_value c).
Proof.
  revert s. induction (N.lt_wf_0 x) as [x _ IH]. intros s Hx.
  rewrite pretty_N_go_step by done.
  destruct (N.eq_0_gt_0_cases (x / 10)) as [->|Hd].
  - rewrite pretty_N_go_0. eexists _, _. split; [done|].
    rewrite digit_value_pretty by (apply N.mod_lt; lia). eauto.
  - apply IH; [apply N.div_lt; lia|done].
Qed.

Lemma read_digits_pretty x s :
  (0 < x)%N -> read_digits (pretty_N_go x s) None = read_digits s (Some (Z.of_N x)).
Proof.
  revert s. induction (N.lt_wf_0 x) as [x _ IH]. intros s Hx.
  rewrite pretty_N_go_step by done.
  pose proof (N.mod_lt x 10 ltac:(lia)) as Hm. pose proof (N.div_mod x 10 ltac:(lia)) as Hdm.
  destruct (N.eq_0_gt_0_cases (x / 10)) as [E|Hd].
  - rewrite E, pretty_N_go_0. cbn [read_digits]. rewrite digit_value_pretty by done. cbn [from_option].
    by replace (0 * 10 + Z.of_N (x mod 10)) with (Z.of_N x) by lia.
  - rewrite IH by (try apply N.div_lt; lia). cbn [read_digits].
    rewrite digit_value_pretty by done. cbn [from_option id].
    by replace (Z.of_N (x / 10) * 10 + Z.of_N (x mod 10)) with (Z.of_N x) by lia.
Qed.

Lemma digit_char c d : digit_value c = Some d -> 48 <= char_value c <= 57.
Proof.
  unfold digit_value. destruct (_ && _) eqn:E; [|done]. intros _. bool_facts. lia.
Qed.

Lemma pretty_head x :
  exists c r, pretty (x : N) = String.String c r /\ 48 <= char_value c <= 57 /\
    read_digits (String.String c r) None = Some (Z.of_N x).
Proof.
  unfold pretty, pretty_N. case_decide as Hx; [subst; by repeat eexists|].
  destruct (pretty_N_go_head x EmptyString ltac:(lia)) as (c & r & E & [d Hd]).
  exists c, r. split; [done|]. split; [by eapply digit_char|].
  rewrite <- E. by apply read_digits_pretty; lia.
Qed.

Lemma not_space c : 45 <= char_value c -> is_space c = false.
Proof.
  intros H. unfold is_space. rewrite (proj2 (Z.eqb_neq _ _)), (proj2 (Z.leb_gt (char_value c) 13)) by lia.
  by rewrite andb_false_r.
Qed.

(** What the saver writes is read back. *)
Lemma read_signed_print z : read_signed (print_int z) = Some (z <? 0, Z.abs z).
Proof.
  unfold print_int, to_string. destruct (Z.ltb_spec z 0) as [Hz|Hz].
  - destruct (pretty_head (Z.to_N (- z))) as (c & r & -> & _ & Hr).
    change (match read_digits (String.String c r) None with None => None | Some v => Some (true, v) end = Some (true, Z.abs z)).
    rewrite Hr. do 2 f_equal. lia.
  - destruct (pretty_head (Z.to_N z)) as (c & r & -> & Hc & Hr).
    unfold read_signed. cbn [skip_space]. rewrite not_space by lia.
    rewrite !(proj2 (Z.eqb_neq _ _)) by lia. rewrite Hr. do 2 f_equal. lia.
Qed.

Lemma sto_signed_print w z :
  sto_signed w (print_int z) = if (- 2 ^ (w - 1) <=? z) && (z <? 2 ^ (w - 1)) then Some z else None.
Proof.
  unfold sto_signed. rewrite read_signed_print.
  by replace (if z <? 0 then - Z.abs z else Z.abs z) with z by (destruct (Z.ltb_spec z 0); lia).
Qed.

Lemma sto_unsigned_print w z : 0 <= z < 2 ^ w -> sto_unsigned w (print_int z) = Some z.
Proof.
  intros Hz. unfold sto_unsigned. rewrite read_signed_print, Z.abs_eq by lia.
  by rewrite (proj2 (Z.ltb_lt z (2 ^ w))), (proj2 (Z.ltb_ge z 0)) by lia.
Qed.

(** The range test of [std::stoi]. *)
Definition as_int (v : Z) : option Z := if (- 2 ^ 31 <=? v) && (v <? 2 ^ 31) then Some v else None.

Lemma stoi_print z : stoi (print_int z) = as_int z.
Proof. exact (sto_signed_print 32 z). Qed.

Lemma has_char_app c s t : has_char c (s +:+ t) = has_char c s || has_char c t.
Proof.
  induction s as [|x s IH]; [done|]. change (String.String x s +:+ t) with (String.String x (s +:+ t)).
  cbn [has_char]. by rewrite IH, orb_assoc.
Qed.

Lemma lines_of_app s rest line started :
  has_char newline s = false ->
  lines_of (s +:+ String.String newline rest) line started = (line +:+ s) :: get_lines rest.
Proof.
  revert line started. induction s as [|c s IH]; intros line started Hs.
  - change (lines_of (String.String newline rest) line started = (line +:+ EmptyString) :: get_lines rest).
    cbn [lines_of]. by rewrite bool_decide_eq_true_2, string_app_nil.
  - cbn [has_char] in Hs. apply orb_false_iff in Hs as [Hc Hs].
    change (lines_of (String.String c (s +:+ String.String newline rest)) line started =
            (line +:+ String.String c s) :: get_lines rest).
    cbn [lines_of]. rewrite Hc, IH by done. by rewrite string_app_cons.
Qed.

Lemma get_lines_cons s rest :
  has_char newline s = false -> get_lines (s +:+ String.String newline rest) = s :: get_lines rest.
Proof. intros Hs. exact (lines_of_app s rest EmptyString false Hs). Qed.

Lemma has_char_pretty_go c x s :
  digit_value c = None -> has_char c (pretty_N_go x s) = has_char c s.
Proof.
  intros Hc. revert s. induction (N.lt_wf_0 x) as [x _ IH]. intros s.
  destruct (N.eq_0_gt_0_cases x) as [->|Hx]; [by rewrite pretty_N_go_0|].
  rewrite pretty_N_go_step by done. rewrite IH by (apply N.div_lt; lia). cbn [has_char].
  rewrite bool_decide_eq_false_2; [done|]. intros E.
  pose proof (digit_value_pretty (x mod 10) ltac:(apply N.mod_lt; lia)) as Hd. by rewrite E, Hc in Hd.
Qed.

Lemma has_char_pretty c (x : N) : digit_value c = None -> has_char c (pretty x) = false.
Proof.
  intros Hc. unfold pretty, pretty_N. case_decide.
  - cbn. rewrite bool_decide_eq_false_2; [done|]. by intros <-.
  - rewrite has_char_pretty_go by done. reflexivity.
Qed.

Lemma print_int_inj a b : print_int a = print_int b -> a = b.
Proof.
  intros E. pose proof (f_equal read_signed E) as H. rewrite !read_signed_print in H. injection H as H1 H2.
  destruct (Z.ltb_spec a 0), (Z.ltb_spec b 0); lia || discriminate.
Qed.

Lemma print_int_plain c z : digit_value c = None -> char_value c <> 45 -> has_char c (print_int z) = false.
Proof.
  intros Hc Hm. unfold print_int, to_string. destruct (z <? 0).
  - rewrite has_char_app, has_char_pretty by done. rewrite orb_false_r. unfold has_char.
    rewrite bool_decide_eq_false_2; [done|]. by intros <-.
  - by apply has_char_pretty.
Qed.

(** ** Text as bytes *)

Lemma char_of_byte_of_char c : char_of_byte (byte_of_char c) = c.
Proof. destruct c as [[] [] [] [] [] [] [] []]; reflexivity. Qed.

Lemma string_of_bytes_of_string s : string_of_bytes (bytes_of_string s) = s.
Proof. induction s as [|c s IH]; [done|]. cbn [bytes_of_string string_of_bytes]. by rewrite char_of_byte_of_char, IH. Qed.

Lemma string_of_bytes_app l k : string_of_bytes (l ++ k) = string_of_bytes l +:+ string_of_bytes k.
Proof. induction l as [|b l IH]; [done|]. exact (f_equal (String.String (char_of_byte b)) IH). Qed.

(** ** Cutting at bars *)

Lemma char_value_inj c d : char_value c = char_value d -> c = d.
Proof.
  unfold char_value. intros E%N2Z.inj. by rewrite <- (Ascii.ascii_N_embedding c), <- (Ascii.ascii_N_embedding d), E.
Qed.

Lemma cut_bar_app (f rest : string) :
  has_char bar f = false -> cut_bar (f +:+ String.String bar rest) = Some (f, rest).
Proof.
  induction f as [|c f IH]; intros Hf; [reflexivity|]. cbn [has_char] in Hf. apply orb_false_iff in Hf as [Hc Hf].
  change (cut_bar (String.String c (f +:+ String.String bar rest)) = Some (String.String c f, rest)).
  cbn [cut_bar]. destruct (Z.eqb_spec (char_value c) 124) as [E|_]; [|by rewrite IH].
  apply bool_decide_eq_false in Hc. destruct Hc. by apply char_value_inj.
Qed.

Lemma cut_bar_plain (f : string) : has_char bar f = false -> cut_bar f = None.
Proof.
  induction f as [|c f IH]; intros Hf; [reflexivity|]. cbn [has_char] in Hf. apply orb_false_iff in Hf as [Hc Hf].
  cbn [cut_bar]. destruct (Z.eqb_spec (char_value c) 124) as [E|_]; [|by rewrite IH].
  apply bool_decide_eq_false in Hc. destruct Hc. by apply char_value_inj.
Qed.

(** Text that a field of a line can hold. *)
Definition plain (s : string) : Prop := has_char bar s = false /\ has_char newline s = false.

Lemma getline_bar_app f rest : has_char bar f = false -> getline_bar (Some (f +:+ String.String bar rest)) = (Some f, Some rest).
Proof. intros H. unfold getline_bar. by rewrite cut_bar_app. Qed.

Lemma getline_bar_last f : has_char bar f = false -> from_option id EmptyString (fst (getline_bar (Some f))) = f.
Proof.
  intros H. unfold getline_bar. rewrite cut_bar_plain by done. destruct (empty_string f) eqn:E; cbn; [|done].
  symmetry. by apply empty_string_spec.
Qed.

Lemma app_bar_app f r nl : (f +:+ String.String bar r) +:+ nl = f +:+ String.String bar (r +:+ nl).
Proof. by rewrite <- string_app_assoc. Qed.

Lemma has_char_bar_app f r : has_char newline (f +:+ String.String bar r) = has_char newline f || has_char newline r.
Proof. by rewrite has_char_app. Qed.

(** ** Searching *)

Lemma prefix_spec (p s : string) : String.prefix p s = true <-> exists rest, s = p +:+ rest.
Proof.
  revert s. induction p as [|c p IH]; intros s; [split; [by exists s|by destruct s]|].
  destruct s as [|d s]; [split; [done|by intros [? [=]]]|]. cbn [String.prefix].
  destruct (Ascii.ascii_dec c d) as [-> |Hn].
  - rewrite IH. split; intros [rest E]; exists rest; [by rewrite E|by injection E].
  - split; [done|]. intros [rest [=]]. congruence.
Qed.

Lemma find_sub_spec (needle s : string) : find_sub needle s = true <-> exists before after, s = before +:+ needle +:+ after.
Proof.
  split.
  - induction s as [|c s IH]; cbn [find_sub]; intros H; apply orb_true_iff in H as [H|H]; try discriminate H.
    + apply prefix_spec in H as [rest E]. by exists EmptyString, rest.
    + apply prefix_spec in H as [rest E]. by exists EmptyString, rest.
    + destruct (IH H) as (before & after & ->). by exists (String.String c before), after.
  - intros (before & after & ->). induction before as [|c before IH].
    + change (EmptyString +:+ needle +:+ after) with (needle +:+ after).
      assert (H : String.prefix needle (needle +:+ after) = true) by (apply prefix_spec; by exists after).
      destruct (needle +:+ after); cbn [find_sub]; by rewrite H.
    + change (String.String c before +:+ needle +:+ after) with (String.String c (before +:+ needle +:+ after)). cbn [find_sub]. by rewrite IH, orb_true_r.
Qed.

Lemma find_sub_padded needle a s b : find_sub needle s = true -> find_sub needle (a +:+ s +:+ b) = true.
Proof.
  rewrite !find_sub_spec. intros (before & after & ->). exists (a +:+ before), (after +:+ b). by rewrite !string_app_assoc.
Qed.

Lemma string_map_app f a b : string_map f (a +:+ b) = string_map f a +:+ string_map f b.
Proof. induction a as [|c a IH]; [done|]. exact (f_equal (String.String (f c)) IH). Qed.
