(* ===== verification/FileSystem.v ===== *)
(** * FileSystem: a file system that may refuse

    The part of [std::filesystem] and of the file streams the components use: a state
    monad over files by path and over the replies of the system, which may refuse a
    request, or stop a write after some bytes.  Paths are compared as text, directories
    need not be created, copying over a directory or a symbolic link is refused, and a
    read gives the whole content. *)
From S2P Require Import Prelude Float64 Asn1 Sha2 Observation Text.

Inductive node := Regular (content : list byte) | Symlink (target : string) | Directory.

Inductive reply := Works | Refused | Short (n : nat).

Record world := World { files : gmap string node; replies : list reply }.

Definition io (A : Type) : Type := world -> A * world.

Definition io_ret {A} (a : A) : io A := fun w => (a, w).
Definition io_bind {A B} (m : io A) (k : A -> io B) : io B := fun w => let '(a, w) := m w in k a w.

Declare Scope io_scope.
Delimit Scope io_scope with io.
Notation "'let*' x := m 'in' k" := (io_bind m (fun x => k))
  (at level 10, x pattern, m at level 100, k at level 200) : io_scope.

#[local] Open Scope io_scope.

(** The reply to the next request; a system that was not told otherwise complies. *)
Definition next_reply : io reply :=
  fun w => match replies w with [] => (Works, w) | r :: rs => (r, World (files w) rs) end.

Definition works (r : reply) : bool := match r with Works => true | _ => false end.

Definition get_files : io (gmap string node) := fun w => (files w, w).
Definition put_files (m : gmap string node) : io unit := fun w => (tt, World m (replies w)).

(** Links are followed forty times. *)
Fixpoint follow (fuel : nat) (m : gmap string node) (p : string) : option node :=
  match m !! p with
  | Some (Symlink t) => match fuel with O => None | S fuel => follow fuel m t end
  | n => n
  end.

Definition status (m : gmap string node) (p : string) : option node := follow 40 m p.

#[global] Arguments status : simpl never.

(** A request that reads: [None] sets the error code. *)
Definition query {A} (f : gmap string node -> option A) : io (option A) :=
  let* r := next_reply in
  let* m := get_files in
  io_ret (if works r then f m else None).

Definition is_symlink (p : string) : io (option bool) :=
  query (fun m => match m !! p with Some (Symlink _) => Some true | Some _ => Some false | None => None end).

Definition is_regular_file (p : string) : io (option bool) :=
  query (fun m => match status m p with Some (Regular _) => Some true | Some _ => Some false | None => None end).

Definition file_size (p : string) : io (option Z) :=
  query (fun m => match status m p with Some (Regular c) => Some (Z.of_nat (length c)) | _ => None end).

Definition exists_file (p : string) : io (option bool) :=
  query (fun m => Some (match status m p with Some _ => true | None => false end)).

(** The content a stream opened for reading gives. *)
Definition read_file (p : string) : io (option (list byte)) :=
  query (fun m => match status m p with Some (Regular c) => Some c | _ => None end).

Definition hash_of (p : string) : io string :=
  let* c := read_file p in io_ret (hash_file c).

(** [rename]: the result is [true] when the error code is set. *)
Definition rename (p q : string) : io bool :=
  let* r := next_reply in
  let* m := get_files in
  match works r, m !! p, m !! q with
  | false, _, _ | _, None, _ | _, _, Some Directory => io_ret true
  | true, Some n, _ => let* _ := put_files (<[q := n]> (delete p m)) in io_ret false
  end.

Definition copy_file (overwrite : bool) (p q : string) : io bool :=
  let* r := next_reply in
  let* m := get_files in
  match status m p, m !! q with
  | Some (Regular c), (None | Some (Regular _)) =>
      if negb overwrite && bool_decide (is_Some (m !! q)) then io_ret true
      else
        match r with
        | Works => let* _ := put_files (<[q := Regular c]> m) in io_ret false
        | Refused => io_ret true
        | Short n => let* _ := put_files (<[q := Regular (take n c)]> m) in io_ret true
        end
  | _, _ => io_ret true
  end.

Definition remove (p : string) : io bool :=
  let* r := next_reply in
  let* m := get_files in
  match works r, m !! p with
  | false, _ | _, Some Directory => io_ret true
  | true, _ => let* _ := put_files (delete p m) in io_ret false
  end.

(** A stream that writes [bytes] behind the [kept] part of the file; the result is
    [false] when the stream does not open.  Whether the write is complete is not told. *)
Definition write_file (kept : list byte -> list byte) (p : string) (bytes : list byte) : io bool :=
  let* r := next_reply in
  let* m := get_files in
  match m !! p with
  | None | Some (Regular _) =>
      let old := match m !! p with Some (Regular c) => kept c | _ => [] end in
      match r with
      | Works => let* _ := put_files (<[p := Regular (old ++ bytes)]> m) in io_ret true
      | Refused => io_ret false
      | Short n => let* _ := put_files (<[p := Regular (old ++ take n bytes)]> m) in io_ret true
      end
  | _ => io_ret false
  end.

(** [std::ios::app] and [std::ios::trunc]. *)
Definition append_file : string -> list byte -> io bool := write_file (fun c => c).
Definition create_file : string -> list byte -> io bool := write_file (fun _ => []).

(** [operator/] of a directory and a name. *)
Fixpoint ends_with_slash (s : string) : bool :=
  match s with
  | EmptyString => true
  | String.String c EmptyString => char_value c =? 47
  | String.String _ s => ends_with_slash s
  end.

Definition slash_join (dir name : string) : string :=
  (if ends_with_slash dir then dir else dir +:+ "/") +:+ name.

(** ** What a computation leaves alone *)

(** [m] changes no file outside [P]. *)
Definition touches {A} (P : string -> Prop) (m : io A) : Prop :=
  forall w p, ~ P p -> files (m w).2 !! p = files w !! p.

Lemma touches_ret {A} P (a : A) : touches P (io_ret a).
Proof. done. Qed.

Lemma touches_bind {A B} P (m : io A) (k : A -> io B) :
  touches P m -> (forall a, touches P (k a)) -> touches P (io_bind m k).
Proof.
  intros Hm Hk w p Hp. unfold io_bind. pose proof (Hm w p Hp) as E.
  destruct (m w) as [a w']. cbn in E. by rewrite (Hk a w' p Hp).
Qed.

Lemma touches_mono {A} (P Q : string -> Prop) (m : io A) : (forall p, P p -> Q p) -> touches P m -> touches Q m.
Proof. intros H Hm w p Hp. apply Hm. naive_solver. Qed.

Lemma touches_reply P : touches P next_reply.
Proof. intros w p _. unfold next_reply. by destruct (replies w). Qed.

Lemma touches_get P : touches P get_files.
Proof. done. Qed.

Create HintDb io_db.
#[export] Hint Resolve touches_ret touches_reply touches_get : io_db.

Lemma touches_query {A} P (f : gmap string node -> option A) : touches P (query f).
Proof. apply touches_bind; [auto with io_db|]. intros r. by apply touches_bind. Qed.

(** A bind that reads the files and then puts others. *)
Lemma touches_update {A} (P : string -> Prop) (k : reply -> gmap string node -> io A) :
  (forall r m w p, ~ P p -> files w = m -> files (k r m w).2 !! p = m !! p) ->
  touches P (let* r := next_reply in let* m := get_files in k r m).
Proof.
  intros H w p Hp. unfold io_bind, get_files.
  pose proof (touches_reply P w p Hp) as E. destruct (next_reply w) as [r w']. cbn in E |- *.
  by rewrite (H r (files w') w' p Hp eq_refl).
Qed.

(** The files a request leaves alone, by its cases. *)
Ltac touch_cases :=
  apply touches_update; intros r m w p' Hp <-; repeat case_match; try done; cbn;
  try (rewrite lookup_insert_ne by naive_solver); try (rewrite lookup_delete_ne by naive_solver); done.

Lemma touches_rename p q : touches (fun x => x = p \/ x = q) (rename p q).
Proof. touch_cases. Qed.

Lemma touches_copy o p q : touches (fun x => x = q) (copy_file o p q).
Proof. touch_cases. Qed.

Lemma touches_remove p : touches (fun x => x = p) (remove p).
Proof. touch_cases. Qed.

Lemma touches_write k p l : touches (fun x => x = p) (write_file k p l).
Proof. touch_cases. Qed.

(** ** What each request does *)

(** Running [m] from [w] ends in [Q]. *)
Definition post {A} (m : io A) (w : world) (Q : A -> world -> Prop) : Prop := let '(a, w') := m w in Q a w'.

Lemma post_ret {A} (a : A) w (Q : A -> world -> Prop) : Q a w -> post (io_ret a) w Q.
Proof. done. Qed.

Lemma post_bind {A B} (m : io A) (k : A -> io B) w Q :
  post m w (fun a w' => post (k a) w' Q) -> post (io_bind m k) w Q.
Proof. unfold post, io_bind. by destruct (m w). Qed.

Lemma post_mono {A} (m : io A) w (Q R : A -> world -> Prop) :
  post m w Q -> (forall a w', Q a w' -> R a w') -> post m w R.
Proof. unfold post. destruct (m w). auto. Qed.

Lemma post_and {A} (m : io A) w (Q R : A -> world -> Prop) :
  post m w Q -> post m w R -> post m w (fun a w' => Q a w' /\ R a w').
Proof. unfold post. by destruct (m w). Qed.

Lemma post_touches {A} (m : io A) w P : touches P m -> post m w (fun _ w' => forall p, ~ P p -> files w' !! p = files w !! p).
Proof. intros H. unfold post. pose proof (H w) as Hw. by destruct (m w). Qed.

Lemma next_reply_files w : files (next_reply w).2 = files w.
Proof. unfold next_reply. by destruct (replies w). Qed.

Lemma status_regular m p c : m !! p = Some (Regular c) -> status m p = Some (Regular c).
Proof. intros H. unfold status. cbn [follow]. by rewrite H. Qed.

(** Running a request: its reply is one of the three, the files are those before. *)
Ltac run_request :=
  unfold post, io_bind, get_files, put_files, io_ret;
  match goal with |- context [next_reply ?w] =>
    let r := fresh "r" in let w' := fresh "w'" in let E := fresh "E" in
    pose proof (next_reply_files w) as E; destruct (next_reply w) as [r w']; cbn in E |- *; rewrite ?E end.

Lemma query_post {A} (f : gmap string node -> option A) w :
  post (query f) w (fun a w' => files w' = files w /\ (a = None \/ a = f (files w))).
Proof. unfold query. run_request. split; [done|]. destruct (works r); eauto. Qed.

Lemma rename_post p q w :
  post (rename p q) w (fun ec w' =>
    if ec : bool then files w' = files w
    else exists n, files w !! p = Some n /\ files w' = <[q := n]> (delete p (files w))).
Proof. unfold rename. run_request. repeat case_match; simplify_eq/=; eauto. Qed.

Lemma copy_post o p q w :
  post (copy_file o p q) w (fun ec w' =>
    (ec = true /\ files w' = files w) \/
    exists c n, status (files w) p = Some (Regular c) /\ (o = false -> files w !! q = None) /\
      files w' = <[q := Regular (take n c)]> (files w) /\ (ec = false -> take n c = c)).
Proof.
  unfold copy_file. run_request. destruct (status (files w) p) as [[c| |]|] eqn:Hp; cbn; try (by left).
  destruct (files w !! q) as [[c'| |]|] eqn:Hq; cbn; try (by left).
  - destruct (negb o && _) eqn:Eo; cbn; [by left|]. rewrite andb_true_r in Eo.
    destruct r; cbn; [right|by left|right]; exists c; [exists (length c)|exists n]; rewrite ?firstn_all; by destruct o.
  - rewrite andb_false_r. destruct r; cbn; [right|by left|right]; exists c; [exists (length c)|exists n]; by rewrite ?firstn_all.
Qed.

Lemma remove_post p w :
  post (remove p) w (fun ec w' => if ec : bool then files w' = files w else files w' = delete p (files w)).
Proof. unfold remove. run_request. repeat case_match; by simplify_eq/=. Qed.

(** A system that was not told otherwise keeps complying. *)
Definition complies (w : world) : Prop := replies w = [].

Lemma complies_reply w : complies w -> next_reply w = (Works, w).
Proof. intros H. unfold next_reply. by rewrite H. Qed.

(** Every operation leaves a complying system complying. *)
Definition keeps_complying {A} (m : io A) : Prop := forall w, complies w -> complies (m w).2.

Lemma keeps_ret {A} (a : A) : keeps_complying (io_ret a).
Proof. intros w Hw. exact Hw. Qed.

Lemma keeps_bind {A B} (m : io A) (k : A -> io B) :
  keeps_complying m -> (forall a, keeps_complying (k a)) -> keeps_complying (io_bind m k).
Proof.
  intros Hm Hk w Hw. unfold io_bind. specialize (Hm w Hw). destruct (m w) as [a w']. by apply Hk.
Qed.

Lemma keeps_reply : keeps_complying next_reply.
Proof. intros w Hw. by rewrite complies_reply. Qed.

Lemma keeps_get : keeps_complying get_files.
Proof. intros w Hw. exact Hw. Qed.

Lemma keeps_put m : keeps_complying (put_files m).
Proof. intros w Hw. exact Hw. Qed.

Ltac solve_keeps :=
  repeat first
    [ apply keeps_ret | apply keeps_reply | apply keeps_get | apply keeps_put | solve [auto with io_db]
    | apply keeps_bind; [|intros ?] | case_match ].

Lemma keeps_query {A} (f : gmap string node -> option A) : keeps_complying (query f).
Proof. unfold query. solve_keeps. Qed.

Lemma keeps_rename p q : keeps_complying (rename p q).
Proof. unfold rename. solve_keeps. Qed.

Lemma keeps_copy o p q : keeps_complying (copy_file o p q).
Proof. unfold copy_file. solve_keeps. Qed.

Lemma keeps_remove p : keeps_complying (remove p).
Proof. unfold remove. solve_keeps. Qed.

Lemma keeps_write k p l : keeps_complying (write_file k p l).
Proof. unfold write_file. solve_keeps. Qed.

#[export] Hint Resolve keeps_ret keeps_reply keeps_get keeps_put keeps_query keeps_rename keeps_copy keeps_remove keeps_write : io_db.

Lemma post_complies {A} (m : io A) w : keeps_complying m -> complies w -> post m w (fun _ w' => complies w').
Proof. intros H Hw. specialize (H w Hw). unfold post. by destruct (m w). Qed.

(** The requests of a complying system. *)
Lemma query_works {A} (f : gmap string node -> option A) w : complies w -> query f w = (f (files w), w).
Proof. intros H. unfold query, io_bind. by rewrite complies_reply. Qed.

Lemma rename_works p q n w : complies w -> files w !! p = Some n -> files w !! q <> Some Directory ->
  rename p q w = (false, World (<[q := n]> (delete p (files w))) (replies w)).
Proof.
  intros H Hp Hq. unfold rename, io_bind, get_files, put_files, io_ret. rewrite complies_reply by done. cbn. rewrite Hp.
  by destruct (files w !! q) as [[]|].
Qed.

Lemma remove_works p w : complies w -> files w !! p <> Some Directory ->
  remove p w = (false, World (delete p (files w)) (replies w)).
Proof.
  intros H Hp. unfold remove, io_bind, get_files, put_files, io_ret. rewrite complies_reply by done. cbn.
  by destruct (files w !! p) as [[]|].
Qed.

Lemma create_works p l w : complies w -> (forall t, files w !! p <> Some (Symlink t)) -> files w !! p <> Some Directory ->
  create_file p l w = (true, World (<[p := Regular l]> (files w)) (replies w)).
Proof.
  intros H Ht Hd. unfold create_file, write_file, io_bind, get_files, put_files, io_ret. rewrite complies_reply by done. cbn.
  destruct (files w !! p) as [[]|]; try done. by destruct (Ht target).
Qed.

Lemma status_none m p : m !! p = None -> status m p = None.
Proof. intros H. unfold status. cbn [follow]. by rewrite H. Qed.

(** The hash of a file that is read is that of its content. *)
Lemma hash_file_bytes content : hash_file (Some content) = hash_bytes256 content.
Proof. unfold hash_file, hash_bytes256, sha256_digest. by rewrite hash_file_loop_update by lia. Qed.

Lemma io_bind_eq {A B} (m : io A) (k : A -> io B) w : io_bind m k w = let '(a, w') := m w in k a w'.
Proof. done. Qed.
