(* ===== verification/TelemetryBus.v ===== *)
(** * TelemetryBus: the bounded observation queue

    Models src/src/security/telemetry_bus.cpp.  Every operation holds the bus mutex
    for its whole body, so the threads' calls are a sequence of steps: an
    interleaving is a list of operations.  [wait_pop] is the step its waiter takes
    when it returns: woken with the queue not empty, or empty because the bus was
    closed or the time ran out. *)
From S2P Require Import Prelude Float64 Observation.

Inductive PublishResult := ACCEPTED | DROPPED_FULL | REJECTED_INVALID | CLOSED.

#[export] Instance PublishResult_eq_decision : EqDecision PublishResult.
Proof. solve_decision. Defined.

Record TelemetryMetrics := Metrics {
  accepted : Z;
  dropped_full : Z;
  rejected_invalid : Z;
  rejected_closed : Z;
}.

Record TelemetryBus := Bus {
  capacity_ : Z;
  queue_ : list SecurityObservation;
  closed_ : bool;
  metrics_ : TelemetryMetrics;
}.

(** [TelemetryBus(size_t capacity)] *)
Definition new_bus (capacity : Z) : TelemetryBus := Bus (Z.max 1 capacity) [] false (Metrics 0 0 0 0).

(** The counters are [uint64_t]. *)
Definition count_accepted (m : TelemetryMetrics) : TelemetryMetrics :=
  Metrics (u64 (accepted m + 1)) (dropped_full m) (rejected_invalid m) (rejected_closed m).
Definition count_full (m : TelemetryMetrics) : TelemetryMetrics :=
  Metrics (accepted m) (u64 (dropped_full m + 1)) (rejected_invalid m) (rejected_closed m).
Definition count_invalid (m : TelemetryMetrics) : TelemetryMetrics :=
  Metrics (accepted m) (dropped_full m) (u64 (rejected_invalid m + 1)) (rejected_closed m).
Definition count_closed (m : TelemetryMetrics) : TelemetryMetrics :=
  Metrics (accepted m) (dropped_full m) (rejected_invalid m) (u64 (rejected_closed m + 1)).

Definition with_metrics (b : TelemetryBus) (m : TelemetryMetrics) : TelemetryBus :=
  Bus (capacity_ b) (queue_ b) (closed_ b) m.

Definition publish (b : TelemetryBus) (o : SecurityObservation) : TelemetryBus * PublishResult :=
  if negb (valid o) then (with_metrics b (count_invalid (metrics_ b)), REJECTED_INVALID)
  else if closed_ b then (with_metrics b (count_closed (metrics_ b)), CLOSED)
  else if capacity_ b <=? Z.of_nat (length (queue_ b))
  then (with_metrics b (count_full (metrics_ b)), DROPPED_FULL)
  else (Bus (capacity_ b) (queue_ b ++ [o]) (closed_ b) (count_accepted (metrics_ b)), ACCEPTED).

Definition try_pop (b : TelemetryBus) : TelemetryBus * option SecurityObservation :=
  match queue_ b with
  | [] => (b, None)
  | o :: rest => (Bus (capacity_ b) rest (closed_ b) (metrics_ b), Some o)
  end.

(** After the wait, the body is that of [try_pop]. *)
Definition wait_pop (b : TelemetryBus) : TelemetryBus * option SecurityObservation := try_pop b.

Definition close (b : TelemetryBus) : TelemetryBus :=
  Bus (capacity_ b) (queue_ b) true (metrics_ b).

(** ** Runs *)

Inductive bus_op := Publish (o : SecurityObservation) | TryPop | WaitPop | Close.

(** What a step showed to its caller. *)
Inductive bus_event :=
  | Published (o : SecurityObservation) (r : PublishResult)
  | Popped (o : option SecurityObservation)
  | ClosedBus.

Definition bus_step (b : TelemetryBus) (op : bus_op) : TelemetryBus * bus_event :=
  match op with
  | Publish o => let '(b, r) := publish b o in (b, Published o r)
  | TryPop => let '(b, r) := try_pop b in (b, Popped r)
  | WaitPop => let '(b, r) := wait_pop b in (b, Popped r)
  | Close => (close b, ClosedBus)
  end.

Fixpoint bus_run (b : TelemetryBus) (ops : list bus_op) : TelemetryBus * list bus_event :=
  match ops with
  | [] => (b, [])
  | op :: ops =>
      let '(b, e) := bus_step b op in
      let '(b, es) := bus_run b ops in
      (b, e :: es)
  end.

(** The observations accepted, and those delivered, in order. *)
Definition accepted_of (es : list bus_event) : list SecurityObservation :=
  omap (fun e => match e with Published o ACCEPTED => Some o | _ => None end) es.

Definition delivered_of (es : list bus_event) : list SecurityObservation :=
  omap (fun e => match e with Popped r => r | _ => None end) es.

(** How many calls of [publish] ended with [r]. *)
Definition outcomes (r : PublishResult) (es : list bus_event) : Z :=
  Z.of_nat (length (omap (fun e => match e with
    | Published _ r' => if bool_decide (r' = r) then Some tt else None
    | _ => None end) es)).

(** ** What a run keeps *)

(** The bus [b] is in the state the events [es] lead to from an empty bus. *)
Record bus_inv (capacity : Z) (b : TelemetryBus) (es : list bus_event) : Prop := {
  bi_capacity : capacity_ b = Z.max 1 capacity;
  bi_fifo : accepted_of es = delivered_of es ++ queue_ b;
  bi_bound : Z.of_nat (length (queue_ b)) <= Z.max 1 capacity;
  bi_valid : Forall (fun o => valid o = true) (accepted_of es);
  bi_metrics : metrics_ b = Metrics (u64 (outcomes ACCEPTED es)) (u64 (outcomes DROPPED_FULL es))
                              (u64 (outcomes REJECTED_INVALID es)) (u64 (outcomes CLOSED es));
}.

Lemma accepted_of_app es es' : accepted_of (es ++ es') = accepted_of es ++ accepted_of es'.
Proof. apply omap_app. Qed.

Lemma delivered_of_app es es' : delivered_of (es ++ es') = delivered_of es ++ delivered_of es'.
Proof. apply omap_app. Qed.

Lemma outcomes_app r es es' : outcomes r (es ++ es') = outcomes r es + outcomes r es'.
Proof. unfold outcomes. rewrite omap_app, length_app. lia. Qed.

Lemma u64_succ z : u64 (u64 z + 1) = u64 (z + 1).
Proof. unfold u64. by rewrite Z.add_mod_idemp_l by lia. Qed.

Lemma outcomes_self r o : outcomes r [Published o r] = 1.
Proof. unfold outcomes. cbn. by rewrite bool_decide_eq_true_2. Qed.

(** Splits the invariant of a run with one more event into its fields. *)
Ltac bus_fields Hm :=
  split; cbn -[outcomes];
  rewrite ?accepted_of_app, ?delivered_of_app, ?outcomes_app, ?Hm; cbn;
  unfold count_accepted, count_full, count_invalid, count_closed; cbn -[outcomes];
  rewrite ?outcomes_self, ?u64_succ, ?Z.add_0_r, ?app_nil_r; try done; try lia.

Lemma pop_inv capacity b es b' r :
  bus_inv capacity b es -> try_pop b = (b', r) -> bus_inv capacity b' (es ++ [Popped r]).
Proof.
  intros [Hc Hf Hb Hv Hm] Hp. unfold try_pop in Hp.
  destruct (queue_ b) as [|o rest] eqn:Eq; injection Hp as <- <-; bus_fields Hm.
  - by rewrite Hf, Eq.
  - by rewrite Eq.
  - by rewrite Hf, <- app_assoc.
  - cbn in Hb. lia.
Qed.

Lemma bus_step_inv capacity b es op b' e :
  bus_inv capacity b es -> bus_step b op = (b', e) -> bus_inv capacity b' (es ++ [e]).
Proof.
  intros Hi Hstep. destruct op as [o| | |]; cbn [bus_step] in Hstep.
  - destruct Hi as [Hc Hf Hb Hv Hm]. unfold publish in Hstep.
    destruct (valid o) eqn:Eo; cbn [negb] in Hstep; [|injection Hstep as <- <-; bus_fields Hm].
    destruct (closed_ b); [injection Hstep as <- <-; bus_fields Hm|].
    destruct (Z.leb_spec (capacity_ b) (Z.of_nat (length (queue_ b)))); injection Hstep as <- <-; bus_fields Hm.
    + by rewrite Hf, <- app_assoc.
    + rewrite length_app. cbn. lia.
    + apply Forall_app. split; [done|]. by constructor.
  - destruct (try_pop b) as [b1 r] eqn:E. injection Hstep as <- <-. by eapply pop_inv.
  - unfold wait_pop in Hstep. destruct (try_pop b) as [b1 r] eqn:E. injection Hstep as <- <-. by eapply pop_inv.
  - destruct Hi as [Hc Hf Hb Hv Hm]. injection Hstep as <- <-; bus_fields Hm.
Qed.

Lemma bus_run_inv capacity b es ops :
  bus_inv capacity b es ->
  let '(b', es') := bus_run b ops in bus_inv capacity b' (es ++ es').
Proof.
  revert b es. induction ops as [|op ops IH]; intros b es Hi; cbn [bus_run].
  - by rewrite app_nil_r.
  - destruct (bus_step b op) as [b1 e] eqn:E1. specialize (IH b1 (es ++ [e]) (bus_step_inv _ _ _ _ _ _ Hi E1)).
    destruct (bus_run b1 ops) as [b2 es2]. by rewrite <- app_assoc in IH.
Qed.

Lemma new_bus_inv capacity : bus_inv capacity (new_bus capacity) [].
Proof. split; cbn; try done. lia. Qed.

(** ** Closing *)

Lemma closed_step b op b' e :
  closed_ b = true -> bus_step b op = (b', e) ->
  closed_ b' = true /\ accepted_of [e] = [].
Proof.
  intros Hc Hstep. destruct op as [o| | |]; cbn [bus_step] in Hstep.
  - unfold publish in Hstep. rewrite Hc in Hstep. destruct (valid o); cbn [negb] in Hstep; by injection Hstep as <- <-.
  - unfold try_pop in Hstep. destruct (queue_ b); by injection Hstep as <- <-.
  - unfold wait_pop, try_pop in Hstep. destruct (queue_ b); by injection Hstep as <- <-.
  - by injection Hstep as <- <-.
Qed.

Lemma closed_run b ops :
  closed_ b = true -> let '(b', es) := bus_run b ops in closed_ b' = true /\ accepted_of es = [].
Proof.
  revert b. induction ops as [|op ops IH]; intros b Hc; cbn [bus_run]; [done|].
  destruct (bus_step b op) as [b1 e] eqn:E1. destruct (closed_step _ _ _ _ Hc E1) as [Hc1 Ha].
  specialize (IH b1 Hc1). destruct (bus_run b1 ops) as [b2 es]. destruct IH as [H1 H2]. split; [done|].
  change (e :: es) with ([e] ++ es). by rewrite accepted_of_app, Ha, H2.
Qed.

(** Popping until the queue is empty delivers it in order. *)
Lemma drain b :
  bus_run b (replicate (length (queue_ b)) WaitPop) =
  (Bus (capacity_ b) [] (closed_ b) (metrics_ b), (fun o => Popped (Some o)) <$> queue_ b).
Proof.
  destruct b as [c q cl m]. cbn [queue_ capacity_ closed_ metrics_].
  induction q as [|o q IH]; [done|]. cbn [length replicate bus_run bus_step].
  unfold wait_pop, try_pop at 1. cbn [queue_ capacity_ closed_ metrics_]. by rewrite IH.
Qed.

(** ** Properties *)

(** the bus is a bounded FIFO channel without loss, duplication or reordering:
    in every interleaving of [publish], [try_pop], [wait_pop] and [close] on a new
    bus, the accepted observations are the delivered ones followed by those still
    queued, all of them valid and never more than the capacity (at least one)
    queued; the counters count the calls by outcome modulo 2^64; and after
    [close] nothing more is accepted, while everything queued can still be
    popped. *)
Theorem bus_is_bounded_fifo (capacity : Z) (ops ops' : list bus_op) :
  let '(b, es) := bus_run (new_bus capacity) ops in
  accepted_of es = delivered_of es ++ queue_ b /\
  Z.of_nat (length (queue_ b)) <= Z.max 1 capacity /\
  Forall (fun o => valid o = true) (accepted_of es) /\
  metrics_ b = Metrics (u64 (outcomes ACCEPTED es)) (u64 (outcomes DROPPED_FULL es))
                 (u64 (outcomes REJECTED_INVALID es)) (u64 (outcomes CLOSED es)) /\
  (let '(b', es') := bus_run (close b) ops' in closed_ b' = true /\ accepted_of es' = []) /\
  delivered_of (bus_run (close b) (replicate (length (queue_ b)) WaitPop)).2 = queue_ b.
Proof.
  pose proof (bus_run_inv capacity _ [] ops (new_bus_inv capacity)) as Hi.
  destruct (bus_run (new_bus capacity) ops) as [b es]. destruct Hi as [Hc Hf Hb Hv Hm].
  do 4 (split; [assumption|]). split; [by apply closed_run|].
  pose proof (drain (close b)) as Hd. change (queue_ (close b)) with (queue_ b) in Hd.
  rewrite Hd. cbn [snd]. unfold delivered_of. clear.
  induction (queue_ b) as [|o q IH]; [done|]. cbn. by f_equal.
Qed.
