(* ===== verification/Policy.v ===== *)
(** * Policy: the local response policy

    Models src/src/security/policy.cpp and policy.hpp: findings, remediation
    candidates, the policy and its decision. *)
From S2P Require Import Prelude Float64 Observation Text.

Inductive ResponseAction := REPORT_ONLY | QUARANTINE_CANDIDATE.
Inductive CandidateApprovalState := PENDING_APPROVAL | APPROVED | REJECTED.

#[export] Instance ResponseAction_eq_decision : EqDecision ResponseAction.
Proof. solve_decision. Defined.
#[export] Instance CandidateApprovalState_eq_decision : EqDecision CandidateApprovalState.
Proof. solve_decision. Defined.

Record SecurityFinding := Finding {
  f_id : Z;
  f_timestamp : Z;
  f_level : ThreatLevel;
  f_risk_score : Z;
  f_deterministic_signature : bool;
  f_correlation_key : string;
  f_file_path : string;
  f_sha256 : string;
  f_rationale : string;
  f_contributing_sources : list string;
  f_observation_ids : list Z;
}.

Record RemediationCandidate := Candidate {
  c_finding_id : Z;
  c_requested_action : ResponseAction;
  c_approval_state : CandidateApprovalState;
  c_target_path : string;
  c_expected_sha256 : string;
  c_rationale : string;
}.

Record LocalSecurityPolicy := LocalPolicy {
  critical_threshold : Z;
  finding_window : Z;
  protected_path_prefixes : list string;
}.

Definition default_policy : LocalSecurityPolicy :=
  LocalPolicy 90 5 ["c:/windows/"; "c:/program files/"]%string.

Definition ascii_lower (c : Ascii.ascii) : Ascii.ascii :=
  let v := char_value c in
  if (65 <=? v) && (v <=? 90) then char_of (v - 65 + 97) else c.

(** [path[i] == '\\' ? '/' : ascii_lower(path[i])] *)
Definition path_char (c : Ascii.ascii) : Ascii.ascii :=
  if char_value c =? 92 then char_of 47 else ascii_lower c.

(** The comparison loop; the size test comes first. *)
Fixpoint same_prefix (path prefix : string) : bool :=
  match prefix, path with
  | EmptyString, _ => true
  | String.String q prefix, String.String p path =>
      if negb (bool_decide (path_char p = path_char q)) then false else same_prefix path prefix
  | String.String _ _, EmptyString => false
  end.

Definition path_starts_with (path prefix : string) : bool :=
  if Nat.ltb (String.length path) (String.length prefix) then false else same_prefix path prefix.

Definition is_protected_path (path : string) (policy : LocalSecurityPolicy) : bool :=
  existsb (path_starts_with path) (protected_path_prefixes policy).

(** [PolicyEngine::decide] *)
Definition policy_decide (finding : SecurityFinding) (policy : LocalSecurityPolicy) : ResponseAction :=
  if negb (f_deterministic_signature finding) || negb (bool_decide (f_level finding = CRITICAL)) ||
     (f_risk_score finding <? critical_threshold policy) || empty_string (f_file_path finding) ||
     is_protected_path (f_file_path finding) policy
  then REPORT_ONLY else QUARANTINE_CANDIDATE.

Definition candidate_for (finding : SecurityFinding) (policy : LocalSecurityPolicy) :
    option RemediationCandidate :=
  if negb (bool_decide (policy_decide finding policy = QUARANTINE_CANDIDATE)) then None
  else
    Some (Candidate (f_id finding) QUARANTINE_CANDIDATE PENDING_APPROVAL (f_file_path finding)
            (f_sha256 finding) (f_rationale finding)).

(** ** Lemmas *)

(** The spelling the path test compares. *)
Definition path_norm (s : string) : string := string_map path_char s.

Lemma same_prefix_spec path prefix :
  same_prefix path prefix = true <-> exists rest, path_norm path = path_norm prefix +:+ rest.
Proof.
  revert path. induction prefix as [|q prefix IH]; intros path.
  - split; [|by destruct path]. intros _. by exists (path_norm path).
  - destruct path as [|p path]; cbn; [split; [done|by intros [? [=]]]|].
    case_bool_decide as E; cbn [negb].
    + rewrite IH. unfold path_norm. cbn. rewrite E. split; intros [rest H]; exists rest.
      * by rewrite H.
      * by injection H.
    + split; [done|]. intros [rest [= H _]]. done.
Qed.

Lemma path_starts_with_spec path prefix :
  path_starts_with path prefix = true <-> exists rest, path_norm path = path_norm prefix +:+ rest.
Proof.
  unfold path_starts_with. destruct (Nat.ltb_spec (String.length path) (String.length prefix)) as [Hl|];
    [|apply same_prefix_spec].
  split; [done|]. intros [rest H]. apply (f_equal String.length) in H. unfold path_norm in H.
  rewrite string_app_length, !string_map_length in H. lia.
Qed.

Lemma is_protected_path_spec path policy :
  is_protected_path path policy = true <->
  exists prefix rest, In prefix (protected_path_prefixes policy) /\
    path_norm path = path_norm prefix +:+ rest.
Proof.
  unfold is_protected_path. rewrite existsb_exists. split.
  - intros (prefix & Hin & [rest H]%path_starts_with_spec). by exists prefix, rest.
  - intros (prefix & rest & Hin & H). exists prefix. split; [done|]. apply path_starts_with_spec. by exists rest.
Qed.

Lemma policy_decide_spec finding policy :
  policy_decide finding policy = QUARANTINE_CANDIDATE <->
  f_deterministic_signature finding = true /\ f_level finding = CRITICAL /\
  critical_threshold policy <= f_risk_score finding /\ f_file_path finding <> EmptyString /\
  is_protected_path (f_file_path finding) policy = false.
Proof.
  unfold policy_decide. destruct (_ || _) eqn:E; cbn.
  - split; [done|]. intros (H1 & H2 & H3 & H4 & H5). rewrite H1, H5, bool_decide_eq_true_2 in E by done.
    unfold empty_string in E. rewrite (proj2 (String.eqb_neq _ _) H4), (proj2 (Z.ltb_ge _ _) H3) in E. done.
  - split; [|done]. intros _. unfold empty_string in E. bool_facts. done.
Qed.

(** ** Properties *)

(** [PolicyEngine::decide] proposes quarantine exactly for a deterministic
    CRITICAL finding at or above the threshold with a path outside every protected
    prefix, compared without regard to case or to the kind of slash; and
    [candidate_for] then builds a candidate that still needs approval and carries
    the finding's id, path and hash. *)
Theorem policy_decision (finding : SecurityFinding) (policy : LocalSecurityPolicy) :
  (policy_decide finding policy = QUARANTINE_CANDIDATE <->
     f_deterministic_signature finding = true /\ f_level finding = CRITICAL /\
     critical_threshold policy <= f_risk_score finding /\ f_file_path finding <> EmptyString /\
     ~ exists prefix rest, In prefix (protected_path_prefixes policy) /\
         path_norm (f_file_path finding) = path_norm prefix +:+ rest) /\
  candidate_for finding policy =
    match policy_decide finding policy with
    | QUARANTINE_CANDIDATE =>
        Some (Candidate (f_id finding) QUARANTINE_CANDIDATE PENDING_APPROVAL (f_file_path finding)
                (f_sha256 finding) (f_rationale finding))
    | REPORT_ONLY => None
    end.
Proof.
  split.
  - rewrite policy_decide_spec, <- is_protected_path_spec, not_true_iff_false. done.
  - unfold candidate_for. by destruct (policy_decide finding policy).
Qed.

(** Spellings of a protected path. *)
Example protected_spellings :
  (fun p => is_protected_path p default_policy) <$>
    ["C:\Windows\System32\a.dll"; "c:/PROGRAM FILES/x"; "c:/windows"; "d:/windows/a"]%string =
  [true; true; false; false].
Proof. reflexivity. Qed.
