(* ===== verification/PolicyStore.v ===== *)
(** * PolicyStore: the policy file

    Models src/src/security/policy_store.cpp.  A file is its text after newline
    translation, [None] when it cannot be opened.  [std::stoi] is modelled with
    its whitespace, sign, trailing characters and its two exceptions, both caught
    by the loader. *)
From S2P Require Import Prelude Float64 Asn1 Observation Text Policy.

Definition MAX_FINDING_WINDOW_MINUTES : Z := 24 * 60.

Definition equals_sign : Ascii.ascii := char_of 61.

(** ** Loading *)

(** [line.find('=')] with the parts before and behind it. *)
Fixpoint split_eq (line : string) : option (string * string) :=
  match line with
  | EmptyString => None
  | String.String c line =>
      if bool_decide (c = equals_sign) then Some (EmptyString, line)
      else match split_eq line with Some (k, v) => Some (String.String c k, v) | None => None end
  end.

(** The policy so far, and the prefixes seen. *)
Record load_state := Loading { l_policy : LocalSecurityPolicy; l_prefixes : list string }.

Definition is_comment (line : string) : bool :=
  match line with String.String c _ => char_value c =? 35 | EmptyString => true end.

Definition load_field (st : load_state) (key value : string) : load_state :=
  let p := l_policy st in
  if String.eqb key "critical_threshold" then
    match stoi value with
    | Some v =>
        if (0 <=? v) && (v <=? 100)
        then Loading (LocalPolicy (u8 v) (finding_window p) (protected_path_prefixes p)) (l_prefixes st)
        else st
    | None => st
    end
  else if String.eqb key "finding_window_minutes" then
    match stoi value with
    | Some v =>
        if (0 <? v) && (v <=? MAX_FINDING_WINDOW_MINUTES)
        then Loading (LocalPolicy (critical_threshold p) v (protected_path_prefixes p)) (l_prefixes st)
        else st
    | None => st
    end
  else if String.eqb key "protected_path_prefix" then
    if negb (empty_string value) then Loading p (l_prefixes st ++ [value]) else st
  else st.

Definition load_line (st : load_state) (line : string) : load_state :=
  if is_comment line then st
  else
    match split_eq line with
    | None => st
    | Some (key, value) => if empty_string key then st else load_field st key value
    end.

Definition load_policy (file : option string) : LocalSecurityPolicy :=
  match file with
  | None => default_policy
  | Some text =>
      let st := foldl load_line (Loading default_policy []) (get_lines text) in
      match l_prefixes st with
      | [] => l_policy st
      | prefixes =>
          LocalPolicy (critical_threshold (l_policy st)) (finding_window (l_policy st)) prefixes
      end
  end.

(** ** Saving *)

Definition policy_line (key value : string) : string :=
  key +:+ String.String equals_sign (value +:+ String.String newline EmptyString).

Definition policy_text (policy : LocalSecurityPolicy) : string :=
  policy_line "critical_threshold" (print_int (critical_threshold policy)) +:+
  policy_line "finding_window_minutes" (print_int (finding_window policy)) +:+
  String.concat EmptyString (policy_line "protected_path_prefix" <$> protected_path_prefixes policy).

(** [save] with the two outcomes of the file system: whether the file opens for
    writing, and whether the stream is still good at the end. *)
Definition save_policy (opens good : bool) (policy : LocalSecurityPolicy) :
    ErrorCode * option string :=
  if negb opens then (ERR_SCAN_IO, None)
  else (if good then OK else ERR_SCAN_IO, if good then Some (policy_text policy) else None).

(** ** Reading back a line *)

Lemma split_eq_line key value :
  has_char equals_sign key = false -> split_eq (key +:+ String.String equals_sign value) = Some (key, value).
Proof.
  induction key as [|c key IH]; intros Hk.
  - change (split_eq (String.String equals_sign value) = Some (EmptyString, value)).
    cbn [split_eq]. by rewrite bool_decide_eq_true_2.
  - cbn [has_char] in Hk. apply orb_false_iff in Hk as [Hc Hk].
    change (split_eq (String.String c (key +:+ String.String equals_sign value)) =
            Some (String.String c key, value)).
    cbn [split_eq]. by rewrite Hc, IH.
Qed.

(** The loader on a file that starts with one of the saver's lines. *)
Lemma load_policy_line st key value rest :
  has_char newline (key +:+ String.String equals_sign value) = false ->
  is_comment key = false -> has_char equals_sign key = false ->
  foldl load_line st (get_lines (policy_line key value +:+ rest)) =
  foldl load_line (load_field st key value) (get_lines rest).
Proof.
  intros Hn Hc He. unfold policy_line.
  replace ((key +:+ _) +:+ rest)
    with ((key +:+ String.String equals_sign value) +:+ String.String newline rest).
  2: { rewrite <- !string_app_assoc. f_equal. change (String.String equals_sign (value +:+ String.String newline rest) = String.String equals_sign ((value +:+ String.String newline EmptyString) +:+ rest)). by rewrite string_app_cons. }
  rewrite get_lines_cons by done. cbn [foldl]. f_equal. unfold load_line.
  rewrite split_eq_line by done. destruct key as [|c key]; [done|].
  change (is_comment (String.String c key +:+ _)) with (is_comment (String.String c key)). by rewrite Hc.
Qed.

Lemma has_newline_print z : has_char newline (print_int z) = false.
Proof.
  unfold print_int, to_string. destruct (z <? 0).
  - rewrite has_char_app, has_char_pretty; reflexivity.
  - apply has_char_pretty. reflexivity.
Qed.

(** Every line leaves a usable policy and usable prefixes. *)
Definition policy_fields_ok (p : LocalSecurityPolicy) : Prop :=
  0 <= critical_threshold p <= 100 /\ 1 <= finding_window p <= MAX_FINDING_WINDOW_MINUTES.

Definition load_ok (st : load_state) : Prop :=
  policy_fields_ok (l_policy st) /\ protected_path_prefixes (l_policy st) = protected_path_prefixes default_policy /\
  Forall (fun p => p <> EmptyString) (l_prefixes st).

Lemma load_field_ok st key value : load_ok st -> load_ok (load_field st key value).
Proof.
  intros ((Ht & Hw) & Hp & Hf). unfold load_field.
  destruct (String.eqb key _); [|destruct (String.eqb key _); [|destruct (String.eqb key _)]].
  - destruct (stoi value) as [v|]; [|done]. destruct (_ && _) eqn:E; [|done].
    bool_facts. split; [|done]. split; [|done]. cbn [critical_threshold l_policy].
    unfold u8. rewrite Z.mod_small; lia.
  - destruct (stoi value) as [v|]; [|done]. destruct (_ && _) eqn:E; [|done].
    bool_facts. split; [|done]. split; [done|]. cbn [finding_window l_policy]. lia.
  - destruct (empty_string value) eqn:E; [done|]. cbn [negb]. split_and!; cbn; try done.
    apply Forall_app. split; [done|]. constructor; [|done]. by apply String.eqb_neq.
  - done.
Qed.

Lemma load_lines_ok st lines : load_ok st -> load_ok (foldl load_line st lines).
Proof.
  revert st. induction lines as [|line lines IH]; intros st Hst; [done|]. cbn [foldl]. apply IH.
  unfold load_line. destruct (is_comment line); [done|].
  destruct (split_eq line) as [[key value]|]; [|done]. destruct (empty_string key); [done|].
  by apply load_field_ok.
Qed.

Lemma load_prefix_lines st prefixes :
  Forall (fun p => has_char newline p = false) prefixes ->
  foldl load_line st (get_lines (String.concat EmptyString (policy_line "protected_path_prefix" <$> prefixes))) =
  Loading (l_policy st) (l_prefixes st ++ filter (fun p => empty_string p = false) prefixes).
Proof.
  intros Hp. revert st. induction Hp as [|p prefixes Hn Hp IH]; intros st.
  - cbn. rewrite app_nil_r. by destruct st.
  - assert (E : String.concat EmptyString (policy_line "protected_path_prefix" <$> p :: prefixes) =
      policy_line "protected_path_prefix" p +:+
        String.concat EmptyString (policy_line "protected_path_prefix" <$> prefixes)).
    { cbn [fmap list_fmap String.concat]. destruct prefixes; [|done]. cbn [fmap list_fmap String.concat]. symmetry. apply string_app_nil. }
    rewrite E, load_policy_line; [|by rewrite has_char_app; cbn [has_char]; rewrite Hn|done..].
    rewrite IH. unfold load_field. change (String.eqb "protected_path_prefix" "critical_threshold") with false.
    change (String.eqb "protected_path_prefix" "finding_window_minutes") with false.
    rewrite String.eqb_refl. destruct (empty_string p) eqn:Ep; cbn [negb l_policy l_prefixes].
    + by rewrite filter_cons_False by (rewrite Ep; done).
    + rewrite filter_cons_True by done. by rewrite <- app_assoc.
Qed.

Lemma load_number_line st key z rest :
  is_comment key = false -> has_char equals_sign key = false -> has_char newline key = false ->
  foldl load_line st (get_lines (policy_line key (print_int z) +:+ rest)) =
  foldl load_line (load_field st key (print_int z)) (get_lines rest).
Proof.
  intros. apply load_policy_line; [|done..].
  rewrite has_char_app. cbn [has_char]. by rewrite has_newline_print, orb_false_r.
Qed.

(** What the loader keeps of a policy that was saved. *)
Definition kept_number (z low high default : Z) : Z := if (low <=? z) && (z <=? high) then z else default.

Definition kept_policy (p : LocalSecurityPolicy) : LocalSecurityPolicy :=
  LocalPolicy (kept_number (critical_threshold p) 0 100 (critical_threshold default_policy))
    (kept_number (finding_window p) 1 MAX_FINDING_WINDOW_MINUTES (finding_window default_policy))
    match filter (fun s => empty_string s = false) (protected_path_prefixes p) with
    | [] => protected_path_prefixes default_policy
    | prefixes => prefixes
    end.

Lemma load_threshold st z :
  load_field st "critical_threshold" (print_int z) =
  Loading (LocalPolicy (kept_number z 0 100 (critical_threshold (l_policy st)))
             (finding_window (l_policy st)) (protected_path_prefixes (l_policy st))) (l_prefixes st).
Proof.
  unfold load_field. rewrite String.eqb_refl, stoi_print. unfold as_int, kept_number.
  destruct st as [[t w ps] pre]. cbn [l_policy critical_threshold finding_window protected_path_prefixes l_prefixes].
  destruct (Z.leb_spec 0 z), (Z.leb_spec z 100); cbn [andb].
  - rewrite (proj2 (Z.leb_le _ _)), (proj2 (Z.ltb_lt _ _)) by lia. cbn [andb].
    rewrite !(proj2 (Z.leb_le _ _)) by lia. unfold u8. by rewrite Z.mod_small by lia.
  - destruct (_ && _); [|done]. by rewrite (proj2 (Z.leb_gt z 100)), andb_false_r by lia.
  - destruct (_ && _); [|done]. by rewrite (proj2 (Z.leb_gt 0 z)) by lia.
  - lia.
Qed.

Lemma load_window st z :
  load_field st "finding_window_minutes" (print_int z) =
  Loading (LocalPolicy (critical_threshold (l_policy st))
             (kept_number z 1 MAX_FINDING_WINDOW_MINUTES (finding_window (l_policy st)))
             (protected_path_prefixes (l_policy st))) (l_prefixes st).
Proof.
  unfold load_field. change (String.eqb "finding_window_minutes" "critical_threshold") with false.
  rewrite String.eqb_refl, stoi_print. unfold as_int, kept_number, MAX_FINDING_WINDOW_MINUTES.
  destruct st as [[t w ps] pre]. cbn [l_policy critical_threshold finding_window protected_path_prefixes l_prefixes].
  destruct (Z.leb_spec 1 z), (Z.leb_spec z (24 * 60)); cbn [andb].
  - rewrite (proj2 (Z.leb_le _ _)), (proj2 (Z.ltb_lt _ _)) by lia. cbn [andb].
    by rewrite (proj2 (Z.ltb_lt _ _)), (proj2 (Z.leb_le _ _)) by lia.
  - destruct (_ && _); [|done]. by rewrite (proj2 (Z.leb_gt z _)), andb_false_r by lia.
  - destruct (_ && _); [|done]. by rewrite (proj2 (Z.ltb_ge 0 z)) by lia.
  - lia.
Qed.

Lemma load_save p :
  Forall (fun s => has_char newline s = false) (protected_path_prefixes p) ->
  load_policy (Some (policy_text p)) = kept_policy p.
Proof.
  intros Hp. unfold load_policy, policy_text.
  rewrite !load_number_line, load_threshold, load_window, load_prefix_lines by done.
  unfold kept_policy. cbn [l_policy l_prefixes app critical_threshold finding_window protected_path_prefixes default_policy].
  by destruct (filter _ _).
Qed.

(** ** Properties *)

(** whatever the policy file holds, or when there is none, the loaded policy
    is usable: the threshold is between 0 and 100, the window between one minute
    and a day, and there is at least one protected prefix, none of them empty. *)
Theorem load_policy_usable (file : option string) :
  0 <= critical_threshold (load_policy file) <= 100 /\
  1 <= finding_window (load_policy file) <= 24 * 60 /\
  protected_path_prefixes (load_policy file) <> [] /\
  Forall (fun s => s <> EmptyString) (protected_path_prefixes (load_policy file)).
Proof.
  assert (Hd : policy_fields_ok default_policy) by (by split).
  assert (Hf : Forall (fun s => s <> EmptyString) (protected_path_prefixes default_policy)) by (by repeat constructor).
  destruct file as [text|]; [|destruct Hd as [Ht Hw]; split; [exact Ht|split; [exact Hw|by split]]]. unfold load_policy.
  assert (H0 : load_ok (Loading default_policy [])) by (by split_and!).
  pose proof (load_lines_ok _ (get_lines text) H0) as ((Ht & Hw) & Hp & Hpre).
  destruct (l_prefixes _) as [|s l].
  - rewrite Hp. split; [exact Ht|]. split; [exact Hw|]. by split.
  - split; [exact Ht|]. split; [exact Hw|]. by split.
Qed.

(** saving a policy and loading the file gives the policy back: a threshold
    and a window in their ranges are kept (the loader's default replaces any other),
    and so are the prefixes, the empty ones dropped; and nothing is written when
    the file does not open. *)
Theorem policy_file_roundtrip (p : LocalSecurityPolicy)
    (Hlines : Forall (fun s => has_char newline s = false) (protected_path_prefixes p)) :
  save_policy true true p = (OK, Some (policy_text p)) /\
  load_policy (Some (policy_text p)) = kept_policy p /\
  (policy_fields_ok p -> protected_path_prefixes p <> [] ->
     Forall (fun s => s <> EmptyString) (protected_path_prefixes p) ->
     load_policy (Some (policy_text p)) = p) /\
  save_policy false true p = (ERR_SCAN_IO, None).
Proof.
  split; [done|]. split; [by apply load_save|]. split; [|done].
  intros [Ht Hw] Hne Hall. rewrite load_save by done. unfold kept_policy, kept_number.
  unfold MAX_FINDING_WINDOW_MINUTES in *. rewrite !(proj2 (Z.leb_le _ _)) by lia. cbn [andb].
  assert (E : filter (fun s => empty_string s = false) (protected_path_prefixes p) = protected_path_prefixes p).
  { clear -Hall. induction Hall as [|s l Hs Hl IH]; [done|].
    rewrite filter_cons_True by (by apply String.eqb_neq). by rewrite IH. }
  rewrite E. destruct p as [t w [|s l]]; [done|]. done.
Qed.

Lemma policy_file_roundtrip_witness :
  load_policy (Some (policy_text (LocalPolicy 75 1440 ["d:/vault/"; "a=b#"]%string))) =
  LocalPolicy 75 1440 ["d:/vault/"; "a=b#"]%string.
Proof.
  apply (policy_file_roundtrip (LocalPolicy 75 1440 ["d:/vault/"; "a=b#"]%string)).
  - repeat constructor.
  - by split.
  - discriminate.
  - repeat constructor; discriminate.
Defined.

(** Corrupt lines are skipped, one field at a time. *)
Example load_corrupt_file :
  load_policy (Some (String.concat (String.String newline EmptyString)
    ["# policy"; "critical_threshold= 42x"; "finding_window_minutes=nope"; "=7"; "critical_threshold=101";
     "finding_window_minutes=99999999999"; "protected_path_prefix="; "protected_path_prefix=e:/"]%string)) =
  LocalPolicy 42 5 ["e:/"]%string.
Proof. vm_compute. reflexivity. Qed.
