(* ===== verification/Quarantine.v ===== *)
(** * Quarantine: the quarantine executor and its ledger

    Models src/src/security/quarantine_executor.cpp over the file system of
    FileSystem.v.  Times are nanoseconds.  Here a call is a computation that nothing
    interrupts; VaultRuns.v has the calls as sequences of requests that others come between. *)
From S2P Require Import Prelude Float64 Asn1 Sha2 Observation Text Policy FileSystem.

#[local] Open Scope io_scope.

Record QuarantineRecord := QRecord {
  q_id : Z;
  q_finding_id : Z;
  q_original_path : string;
  q_vault_path : string;
  q_sha256 : string;
  q_quarantined_at : Z;
  q_restored : bool;
  q_shredded : bool;
}.

Record QuarantineExecutor := Executor {
  vault_dir_ : string;
  ledger_path_ : string;
  qe_policy : LocalSecurityPolicy;
  ledger_ : list QuarantineRecord;
  next_id_ : Z;
}.

Definition MAX_QUARANTINE_BYTES : Z := 200 * 1024 * 1024.
Definition MAX_LEDGER_RECORDS : Z := 5000.
Definition CHUNK_SIZE : Z := 64 * 1024.

Definition set_ledger (e : QuarantineExecutor) (l : list QuarantineRecord) : QuarantineExecutor :=
  Executor (vault_dir_ e) (ledger_path_ e) (qe_policy e) l (next_id_ e).

(** ** The ledger *)

Definition bar_join (fields : list string) : string := String.concat "|" fields.

(** [duration_cast] truncates toward zero. *)
Definition ledger_line (record : QuarantineRecord) : string :=
  let epoch := Z.quot (q_quarantined_at record) (10 ^ 9) in
  bar_join [print_int (q_id record); print_int (q_finding_id record); q_original_path record; q_vault_path record;
            q_sha256 record; print_int epoch; if q_restored record then "1" else "0";
            if q_shredded record then "1" else "0"]%string.

Definition has_unsafe_delimiter (value : string) : bool := has_char bar value || has_char newline value.

(** The loop that splits a line at its bars. *)
Fixpoint split_bar (line : string) : list string :=
  match line with
  | EmptyString => [EmptyString]
  | String.String c line =>
      if bool_decide (c = bar) then EmptyString :: split_bar line
      else match split_bar line with f :: fs => String.String c f :: fs | [] => [] end
  end.

(** The seconds as nanoseconds of a 64-bit count. *)
Definition s64 (z : Z) : Z := (z + 2 ^ 63) mod 2 ^ 64 - 2 ^ 63.

(** The fields of a line; [None] skips it. *)
Definition parse_record (line : string) : option QuarantineRecord :=
  let fields := split_bar line in
  let n := length fields in
  let field i := fields !!! (i : nat) in
  if negb (Nat.eqb n 7) && negb (Nat.eqb n 8) then None
  else
    match stoull (field 0%nat), stoull (field 1%nat), stoll (field 5%nat) with
    | Some id, Some finding_id, Some epoch =>
        Some (QRecord id finding_id (field 2%nat) (field 3%nat) (field 4%nat) (s64 (epoch * 10 ^ 9))
                (String.eqb (field 6%nat) "1") (Nat.leb 8 n && String.eqb (field 7%nat) "1"))
    | _, _, _ => None
    end.

Definition load_record (st : list QuarantineRecord * Z) (line : string) : list QuarantineRecord * Z :=
  if empty_string line then st
  else
    match parse_record line with
    | None => st
    | Some record =>
        let '(ledger, next_id) := st in
        (ledger ++ [record], if next_id <=? q_id record then u64 (q_id record + 1) else next_id)
    end.

Definition load_ledger (text : string) : list QuarantineRecord * Z := foldl load_record ([], 1) (get_lines text).

(** The constructor. *)
Definition open_executor (vault_dir : string) (policy : LocalSecurityPolicy) : io QuarantineExecutor :=
  let ledger_path := slash_join vault_dir "ledger.txt" in
  let* file := read_file ledger_path in
  let '(ledger, next_id) := match file with None => ([], 1) | Some c => load_ledger (string_of_bytes c) end in
  io_ret (Executor vault_dir ledger_path policy ledger next_id).

Definition line_bytes (record : QuarantineRecord) : list byte :=
  bytes_of_string (ledger_line record +:+ String.String newline EmptyString).

Definition append_ledger (e : QuarantineExecutor) (record : QuarantineRecord) : io unit :=
  let* _ := append_file (ledger_path_ e) (line_bytes record) in io_ret tt.

Definition rewrite_ledger (e : QuarantineExecutor) : io unit :=
  let tmp_path := (ledger_path_ e +:+ ".tmp")%string in
  let* opened := create_file tmp_path (mjoin (line_bytes <$> ledger_ e)) in
  if negb opened then io_ret tt
  else
    let* ec := rename tmp_path (ledger_path_ e) in
    if ec : bool then
      let* _ := copy_file true tmp_path (ledger_path_ e) in
      let* _ := remove tmp_path in
      io_ret tt
    else io_ret tt.

(** ** Quarantine *)

Definition vault_name (id : Z) : string := "q_" +:+ (print_int id +:+ ".gcadq").

Definition vault_path_of (e : QuarantineExecutor) (id : Z) : string := slash_join (vault_dir_ e) (vault_name id).

(** The rename with its fallback; the result tells whether the target has moved. *)
Definition move_to_vault (target vault_path : string) : io bool :=
  let* ec := rename target vault_path in
  if ec : bool then
    let* ec := copy_file false target vault_path in
    if ec : bool then io_ret false
    else
      let* ec := remove target in
      if ec : bool then let* _ := remove vault_path in io_ret false
      else io_ret true
  else io_ret true.

(** From the mutex on. *)
Definition quarantine_locked (e : QuarantineExecutor) (candidate : RemediationCandidate) (current_hash : string)
    (now : Z) : io (ErrorCode * option QuarantineRecord * QuarantineExecutor) :=
  if MAX_LEDGER_RECORDS <=? Z.of_nat (length (ledger_ e)) then io_ret (ERR_QUARANTINE_FULL, None, e)
  else
    let id := next_id_ e in
    let e := Executor (vault_dir_ e) (ledger_path_ e) (qe_policy e) (ledger_ e) (u64 (next_id_ e + 1)) in
    let vault_path := vault_path_of e id in
    let* moved := move_to_vault (c_target_path candidate) vault_path in
    if negb moved then io_ret (ERR_QUARANTINE_DENIED, None, e)
    else
      let record := QRecord id (c_finding_id candidate) (c_target_path candidate) vault_path current_hash now false false in
      let e := set_ledger e (ledger_ e ++ [record]) in
      let* _ := append_ledger e record in
      io_ret (OK, Some record, e).

(** The checks that touch the file: the hash of an acceptable one. *)
Definition probe_target (candidate : RemediationCandidate) : io (option string) :=
  let target := c_target_path candidate in
  let* link := is_symlink target in
  if negb (bool_decide (link = Some false)) then io_ret None
  else
    let* regular := is_regular_file target in
    if negb (bool_decide (regular = Some true)) then io_ret None
    else
      let* size := file_size target in
      match size with
      | None => io_ret None
      | Some size =>
          if (size =? 0) || (MAX_QUARANTINE_BYTES <? size) then io_ret None
          else
            let* current_hash := hash_of target in
            if empty_string current_hash then io_ret None
            else if negb (empty_string (c_expected_sha256 candidate)) &&
                    negb (String.eqb current_hash (c_expected_sha256 candidate)) then io_ret None
            else io_ret (Some current_hash)
      end.

Definition quarantine (e : QuarantineExecutor) (candidate : RemediationCandidate) (now : Z) :
    io (ErrorCode * option QuarantineRecord * QuarantineExecutor) :=
  if negb (bool_decide (c_approval_state candidate = APPROVED)) then io_ret (ERR_QUARANTINE_DENIED, None, e)
  else if empty_string (c_target_path candidate) then io_ret (ERR_QUARANTINE_DENIED, None, e)
  else if has_unsafe_delimiter (c_target_path candidate) then io_ret (ERR_QUARANTINE_DENIED, None, e)
  else if is_protected_path (c_target_path candidate) (qe_policy e) then io_ret (ERR_QUARANTINE_DENIED, None, e)
  else
    let* hash := probe_target candidate in
    match hash with
    | None => io_ret (ERR_QUARANTINE_DENIED, None, e)
    | Some current_hash => quarantine_locked e candidate current_hash now
    end.

(** ** Restore and shred *)

(** The first record with an id. *)
Fixpoint find_record (record_id : Z) (l : list QuarantineRecord) : option (nat * QuarantineRecord) :=
  match l with
  | [] => None
  | r :: l => if q_id r =? record_id then Some (0%nat, r) else prod_map S id <$> find_record record_id l
  end.

Definition mark_restored (r : QuarantineRecord) : QuarantineRecord :=
  QRecord (q_id r) (q_finding_id r) (q_original_path r) (q_vault_path r) (q_sha256 r) (q_quarantined_at r) true (q_shredded r).

Definition mark_shredded (r : QuarantineRecord) : QuarantineRecord :=
  QRecord (q_id r) (q_finding_id r) (q_original_path r) (q_vault_path r) (q_sha256 r) (q_quarantined_at r) (q_restored r) true.

(** The move back; the result tells whether it failed. *)
Definition move_back (vault_path original : string) : io bool :=
  let* ec := rename vault_path original in
  if ec : bool then
    let* ec := copy_file false vault_path original in
    if ec : bool then io_ret true
    else let* _ := remove vault_path in io_ret false
  else io_ret false.

Definition restore (e : QuarantineExecutor) (record_id : Z) : io (ErrorCode * QuarantineExecutor) :=
  match find_record record_id (ledger_ e) with
  | None => io_ret (ERR_NOT_FOUND, e)
  | Some (i, record) =>
      if q_shredded record then io_ret (ERR_ROLLBACK_FAIL, e)
      else if q_restored record then io_ret (OK, e)
      else
        let original := q_original_path record in
        let* there := exists_file original in
        if bool_decide (there = Some true) then io_ret (ERR_ROLLBACK_FAIL, e)
        else
          let vault_path := q_vault_path record in
          let* there := exists_file vault_path in
          if negb (bool_decide (there = Some true)) then io_ret (ERR_ROLLBACK_FAIL, e)
          else
            let* failed := move_back vault_path original in
            if failed : bool then io_ret (ERR_ROLLBACK_FAIL, e)
            else
              let e := set_ledger e (<[i := mark_restored record]> (ledger_ e)) in
              let* _ := rewrite_ledger e in
              io_ret (OK, e)
  end.

(** The loop that writes zeros over [content] from [pos] on; the stream fails once the
    bytes it may write, [budget], are used up. *)
Fixpoint zero_loop (fuel : nat) (budget : option Z) (pos remaining : Z) (content : list byte) : list byte :=
  match fuel with
  | O => content
  | S fuel =>
      if remaining <=? 0 then content
      else
        let to_write := Z.min remaining CHUNK_SIZE in
        let written := match budget with None => to_write | Some b => Z.min b to_write end in
        let content := take (Z.to_nat pos) content ++ replicate (Z.to_nat written) x00 ++
                       drop (Z.to_nat (pos + written)) content in
        if written <? to_write then content
        else zero_loop fuel ((fun b => b - written) <$> budget) (pos + to_write) (remaining - to_write) content
  end.

Definition overwrite_zeros (vault_path : string) (size : Z) : io unit :=
  let* r := next_reply in
  let* m := get_files in
  match m !! vault_path, r with
  | Some (Regular c), Works =>
      put_files (<[vault_path := Regular (zero_loop (Z.to_nat (size + 1)) None 0 size c)]> m)
  | Some (Regular c), Short n =>
      put_files (<[vault_path := Regular (zero_loop (Z.to_nat (size + 1)) (Some (Z.of_nat n)) 0 size c)]> m)
  | _, _ => io_ret tt
  end.

Definition shred (e : QuarantineExecutor) (record_id : Z) : io (ErrorCode * QuarantineExecutor) :=
  match find_record record_id (ledger_ e) with
  | None => io_ret (ERR_NOT_FOUND, e)
  | Some (i, record) =>
      if q_shredded record then io_ret (OK, e)
      else if q_restored record then io_ret (ERR_NOT_FOUND, e)
      else
        let vault_path := q_vault_path record in
        let* there := exists_file vault_path in
        let* _ :=
          if bool_decide (there = Some true) then
            let* size := file_size vault_path in
            let* _ := match size with
                      | Some size => if 0 <? size then overwrite_zeros vault_path size else io_ret tt
                      | None => io_ret tt
                      end in
            let* _ := remove vault_path in
            io_ret tt
          else io_ret tt in
        let e := set_ledger e (<[i := mark_shredded record]> (ledger_ e)) in
        let* _ := rewrite_ledger e in
        io_ret (OK, e)
  end.

Definition records (e : QuarantineExecutor) (count : Z) : list QuarantineRecord :=
  let n := Z.of_nat (length (ledger_ e)) in
  let start := if count <? n then n - count else 0 in
  drop (Z.to_nat start) (ledger_ e).

(** ** Paths of the vault *)

Definition in_vault (e : QuarantineExecutor) (p : string) : Prop := exists name, p = slash_join (vault_dir_ e) name.

Lemma slash_join_inj dir a b : slash_join dir a = slash_join dir b -> a = b.
Proof. apply string_app_l_inj. Qed.

Lemma vault_path_inj e i j : 0 <= i -> 0 <= j -> vault_path_of e i = vault_path_of e j -> i = j.
Proof.
  intros Hi Hj E%slash_join_inj. unfold vault_name in E. apply string_app_l_inj in E.
  apply print_int_inj. eapply split_at_char in E as [E _]; [done|by apply print_int_plain..].
Qed.

Lemma vault_path_not_ledger e i : ledger_path_ e = slash_join (vault_dir_ e) "ledger.txt" ->
  vault_path_of e i <> ledger_path_ e /\ vault_path_of e i <> (ledger_path_ e +:+ ".tmp")%string.
Proof.
  intros ->. split; [by intros E%slash_join_inj|]. unfold vault_path_of, slash_join. rewrite <- string_app_assoc.
  by intros E%string_app_l_inj.
Qed.

Lemma vault_path_in e i : in_vault e (vault_path_of e i).
Proof. by eexists. Qed.

Lemma ledger_path_in e : ledger_path_ e = slash_join (vault_dir_ e) "ledger.txt" ->
  in_vault e (ledger_path_ e) /\ in_vault e (ledger_path_ e +:+ ".tmp")%string.
Proof.
  intros ->. split; [by eexists|]. exists ("ledger.txt" +:+ ".tmp")%string. unfold slash_join. by rewrite <- string_app_assoc.
Qed.

(** ** Which files an operation changes *)

Definition ledger_files (e : QuarantineExecutor) (p : string) : Prop :=
  p = ledger_path_ e \/ p = (ledger_path_ e +:+ ".tmp")%string.

Ltac touch_step :=
  match goal with
  | |- touches _ (io_bind _ _) => apply touches_bind; [|intros ?]
  | |- touches _ (query _) => apply touches_query
  | |- touches _ (io_ret _) => apply touches_ret
  | |- touches _ (rename _ _) => eapply touches_mono; [|apply touches_rename]; cbn; intros ?; try tauto
  | |- touches _ (copy_file _ _ _) => eapply touches_mono; [|apply touches_copy]; cbn; intros ?; try tauto
  | |- touches _ (remove _) => eapply touches_mono; [|apply touches_remove]; cbn; intros ?; try tauto
  | |- touches _ (write_file _ _ _) => eapply touches_mono; [|apply touches_write]; cbn; intros ?; try tauto
  | |- touches _ (if ?b then _ else _) => destruct b
  end.
Ltac solve_touches := repeat touch_step.

Lemma touches_move t v : touches (fun p => p = t \/ p = v) (move_to_vault t v).
Proof. unfold move_to_vault. solve_touches. Qed.

Lemma touches_append e r : touches (fun p => p = ledger_path_ e) (append_ledger e r).
Proof. unfold append_ledger, append_file. solve_touches. Qed.

Lemma touches_rewrite e : touches (ledger_files e) (rewrite_ledger e).
Proof. unfold rewrite_ledger, create_file, ledger_files. solve_touches. Qed.

Lemma touches_overwrite v size : touches (fun p => p = v) (overwrite_zeros v size).
Proof.
  apply touches_update. intros r m w p Hp <-. destruct (files w !! v) as [[]|], r; cbn; try done;
  by rewrite lookup_insert_ne by (intros ->; tauto).
Qed.

(** ** The outcome of a call *)

Lemma move_to_vault_post t v c w : t <> v -> files w !! t = Some (Regular c) ->
  post (move_to_vault t v) w (fun moved w' =>
    if moved : bool then files w' !! t = None /\ files w' !! v = Some (Regular c)
    else files w' !! t = Some (Regular c)).
Proof.
  intros Hne Ht. apply post_bind. eapply post_mono; [apply rename_post|]. intros [] w1 H1.
  2: { destruct H1 as (n & E & E'). apply post_ret. rewrite E', lookup_insert_ne by done. by simplify_map_eq. }
  apply post_bind. eapply post_mono; [apply copy_post|]. intros ec w2 [[-> E2]|(c' & n & Hs & _ & E2 & Hn)].
  { apply post_ret. by rewrite E2, H1. }
  rewrite H1, (status_regular _ _ c) in Hs by done. injection Hs as <-.
  assert (Hw2 : files w2 !! t = Some (Regular c)) by by rewrite E2, H1, lookup_insert_ne.
  destruct ec; [by apply post_ret|]. rewrite (Hn eq_refl) in E2.
  apply post_bind. eapply post_mono; [apply remove_post|]. intros [] w3 H3.
  - apply post_bind. eapply post_mono; [apply remove_post|]. intros [] w4 H4; apply post_ret; rewrite H4, ?H3; [done|].
    by rewrite lookup_delete_ne by done.
  - apply post_ret. rewrite H3, lookup_delete_eq, lookup_delete_ne, E2 by done. by simplify_map_eq.
Qed.

(** What the checks of a call establish of the target. *)
Definition acceptable (candidate : RemediationCandidate) (m : gmap string node) (content : list byte) : Prop :=
  m !! c_target_path candidate = Some (Regular content) /\
  0 < Z.of_nat (length content) <= MAX_QUARANTINE_BYTES /\
  (c_expected_sha256 candidate = EmptyString \/ c_expected_sha256 candidate = hash_bytes256 content).

#[local] Opaque hash_bytes256.

Lemma probe_target_post candidate w :
  post (probe_target candidate) w (fun r w' => files w' = files w /\
    match r with
    | Some h => exists content, acceptable candidate (files w) content /\ h = hash_bytes256 content
    | None => True
    end).
Proof.
  unfold probe_target, is_symlink, is_regular_file, file_size, hash_of, read_file, acceptable.
  set (t := c_target_path candidate).
  apply post_bind. eapply post_mono; [apply query_post|]. intros link w1 [E1 H1].
  destruct (bool_decide_reflect (link = Some false)) as [->|]; cbn [negb]; [|by apply post_ret].
  apply post_bind. eapply post_mono; [apply query_post|]. intros regular w2 [E2 H2].
  destruct (bool_decide_reflect (regular = Some true)) as [->|]; cbn [negb]; [|apply post_ret; by rewrite E2].
  apply post_bind. eapply post_mono; [apply query_post|]. intros size w3 [E3 H3].
  destruct size as [size|]; [|apply post_ret; by rewrite E3, E2].
  destruct ((size =? 0) || _) eqn:Hsize; [apply post_ret; by rewrite E3, E2|].
  apply orb_false_iff in Hsize as [Hz Hm]. apply Z.eqb_neq in Hz. apply Z.ltb_ge in Hm.
  assert (Hc : exists content, files w !! t = Some (Regular content) /\ size = Z.of_nat (length content)).
  { destruct H1 as [|H1]; [done|]. destruct H2 as [|H2]; [done|]. destruct H3 as [|H3]; [done|].
    rewrite E1 in H2. rewrite E2, E1 in H3. destruct (files w !! t) as [[c| |]|] eqn:Ht; try done.
    - rewrite (status_regular _ _ c) in H3 by done. injection H3 as ->. eauto.
    - unfold status in H2. cbn [follow] in H2. by rewrite Ht in H2. }
  destruct Hc as (content & Ht & ->).
  apply post_bind. apply post_bind. eapply post_mono; [apply query_post|]. intros c w4 [E4 H4]. apply post_ret.
  assert (E : files w4 = files w) by by rewrite E4, E3, E2.
  destruct H4 as [-> | ->]; [by apply post_ret|].
  rewrite E3, E2, E1, (status_regular _ _ content), hash_file_bytes by done.
  destruct (empty_string (hash_bytes256 content)); [by apply post_ret|].
  destruct (negb (empty_string _) && _) eqn:Hx; [by apply post_ret|]. apply post_ret. split; [done|].
  exists content. split; [|done]. split; [done|]. split; [lia|].
  apply andb_false_iff in Hx as [Hx|Hx]; apply negb_false_iff in Hx.
  - left. by apply empty_string_spec.
  - right. symmetry. by apply String.eqb_eq.
Qed.

(** What a call of [quarantine] did: it moved the acceptable target of an approved
    candidate and recorded it, or it left the target and the ledger alone. *)
Definition quarantined (e : QuarantineExecutor) (candidate : RemediationCandidate) (now : Z) (w : world)
    (res : ErrorCode * option QuarantineRecord * QuarantineExecutor) (w' : world) : Prop :=
  let '(code, r, e') := res in
  let target := c_target_path candidate in
  let vault_path := vault_path_of e (next_id_ e) in
  (forall p, p <> target -> p <> vault_path -> p <> ledger_path_ e -> files w' !! p = files w !! p) /\
  match r with
  | Some record =>
      code = OK /\ c_approval_state candidate = APPROVED /\ is_protected_path target (qe_policy e) = false /\
      has_unsafe_delimiter target = false /\ Z.of_nat (length (ledger_ e)) < MAX_LEDGER_RECORDS /\
      e' = Executor (vault_dir_ e) (ledger_path_ e) (qe_policy e) (ledger_ e ++ [record]) (u64 (next_id_ e + 1)) /\
      exists content, acceptable candidate (files w) content /\
        record = QRecord (next_id_ e) (c_finding_id candidate) target vault_path (hash_bytes256 content) now false false /\
        files w' !! target = None /\ files w' !! vault_path = Some (Regular content)
  | None =>
      (code = ERR_QUARANTINE_DENIED \/ code = ERR_QUARANTINE_FULL) /\
      (e' = e \/ e' = Executor (vault_dir_ e) (ledger_path_ e) (qe_policy e) (ledger_ e) (u64 (next_id_ e + 1))) /\
      files w' !! target = files w !! target /\ files w' !! ledger_path_ e = files w !! ledger_path_ e
  end.

Lemma refused e candidate now w w' code :
  code = ERR_QUARANTINE_DENIED \/ code = ERR_QUARANTINE_FULL -> files w' = files w ->
  quarantined e candidate now w (code, None, e) w'.
Proof. intros Hc E. unfold quarantined. rewrite E. repeat split; auto. Qed.

Lemma quarantine_locked_post e candidate content now w :
  ledger_path_ e = slash_join (vault_dir_ e) "ledger.txt" -> ~ in_vault e (c_target_path candidate) ->
  c_approval_state candidate = APPROVED -> is_protected_path (c_target_path candidate) (qe_policy e) = false ->
  has_unsafe_delimiter (c_target_path candidate) = false -> acceptable candidate (files w) content ->
  post (quarantine_locked e candidate (hash_bytes256 content) now) w (quarantined e candidate now w).
Proof.
  intros Hl Hout Ha Hp Hu Hacc. pose proof Hacc as [Ht _]. unfold quarantine_locked.
  set (t := c_target_path candidate) in *. set (v := vault_path_of e (next_id_ e)).
  assert (Htv : t <> v) by (intros ->; by apply Hout, vault_path_in).
  assert (Htl : t <> ledger_path_ e) by (intros E; apply Hout; rewrite E; by apply ledger_path_in).
  destruct (vault_path_not_ledger e (next_id_ e) Hl) as [Hvl _]. fold v in Hvl.
  destruct (Z.leb_spec MAX_LEDGER_RECORDS (Z.of_nat (length (ledger_ e)))); [apply post_ret, refused; auto|].
  cbv zeta. change (vault_path_of (Executor _ _ _ _ _) _) with v.
  apply post_bind. eapply post_mono; [apply post_and; [by apply (move_to_vault_post t v content)|apply post_touches, touches_move]|].
  intros [] w1 [H1 Hf1]; cbn [negb].
  - destruct H1 as [H1 H2]. apply post_bind. eapply post_mono; [apply post_touches, touches_append|].
    cbn beta. intros _ w2 Hf2. apply post_ret. cbn [ledger_path_ set_ledger] in Hf2.
    unfold quarantined. fold t v. split; [intros p Hpt Hpv Hpl; rewrite Hf2, Hf1 by tauto; done|].
    do 6 (split; [done|]). exists content. split; [done|]. split; [done|]. by rewrite !Hf2 by done.
  - apply post_ret. unfold quarantined. fold t v. split; [intros p Hpt Hpv _; apply Hf1; tauto|].
    split; [by left|]. split; [by right|]. rewrite H1. split; [done|]. apply Hf1. intros [E|E]; congruence.
Qed.

Lemma quarantine_post e candidate now w :
  ledger_path_ e = slash_join (vault_dir_ e) "ledger.txt" -> ~ in_vault e (c_target_path candidate) ->
  post (quarantine e candidate now) w (quarantined e candidate now w).
Proof.
  intros Hl Hout. unfold quarantine.
  destruct (bool_decide_reflect (c_approval_state candidate = APPROVED)) as [Ha|]; cbn [negb]; [|apply post_ret, refused; auto].
  destruct (empty_string (c_target_path candidate)); [apply post_ret, refused; auto|].
  destruct (has_unsafe_delimiter (c_target_path candidate)) eqn:Hu; [apply post_ret, refused; auto|].
  destruct (is_protected_path (c_target_path candidate) (qe_policy e)) eqn:Hp; [apply post_ret, refused; auto|].
  apply post_bind. eapply post_mono; [apply probe_target_post|]. intros [h|] w1 [E1 H1]; [|apply post_ret, refused; auto].
  destruct H1 as (content & Hacc & ->). eapply post_mono.
  - apply quarantine_locked_post; try done. destruct Hacc as [Ht Hr]. split; [by rewrite E1|done].
  - intros [[code r] e'] w2. unfold quarantined, acceptable. by rewrite E1.
Qed.

(** ** Finding a record *)

Lemma find_record_spec record_id l :
  match find_record record_id l with
  | Some (i, r) => l !! i = Some r /\ q_id r = record_id
  | None => Forall (fun r => q_id r <> record_id) l
  end.
Proof.
  induction l as [|r l IH]; cbn; [done|]. destruct (Z.eqb_spec (q_id r) record_id); [done|].
  destruct (find_record record_id l) as [[i r']|]; cbn; [done|by constructor].
Qed.

(** ** What the vault keeps *)

Record vault_ok (e : QuarantineExecutor) (w : world) : Prop := {
  vo_path : ledger_path_ e = slash_join (vault_dir_ e) "ledger.txt";
  vo_next : 0 <= next_id_ e;
  vo_ids : forall i r, ledger_ e !! i = Some r -> 0 <= q_id r < next_id_ e;
  vo_nodup : NoDup (q_id <$> ledger_ e);
  vo_vault : forall i r, ledger_ e !! i = Some r -> q_vault_path r = vault_path_of e (q_id r) /\ ~ in_vault e (q_original_path r);
  vo_count : Z.of_nat (length (ledger_ e)) <= MAX_LEDGER_RECORDS;
  vo_kept : forall i r, ledger_ e !! i = Some r -> q_restored r = false -> q_shredded r = false ->
    exists content, files w !! q_vault_path r = Some (Regular content) /\ content <> [] /\ q_sha256 r = hash_bytes256 content;
}.

Lemma u64_next e : 0 <= next_id_ e -> next_id_ e + 1 < 2 ^ 64 -> u64 (next_id_ e + 1) = next_id_ e + 1.
Proof. intros. apply u64_small. lia. Qed.

(** ** Runs *)

Inductive request :=
  | Quarantine (candidate : RemediationCandidate) (now : Z)
  | Restore (record_id : Z)
  | Shred (record_id : Z)
  | Outside (p : string) (n : option node).

(** Somebody else creates, changes or removes a file. *)
Definition change_file (p : string) (n : option node) : io unit :=
  let* m := get_files in put_files (match n with Some n => <[p := n]> m | None => delete p m end).

Definition perform (e : QuarantineExecutor) (a : request) : io QuarantineExecutor :=
  match a with
  | Quarantine candidate now => let* r := quarantine e candidate now in io_ret r.2
  | Restore record_id => let* r := restore e record_id in io_ret r.2
  | Shred record_id => let* r := shred e record_id in io_ret r.2
  | Outside p n => let* _ := change_file p n in io_ret e
  end.

Fixpoint perform_all (e : QuarantineExecutor) (l : list request) : io QuarantineExecutor :=
  match l with
  | [] => io_ret e
  | a :: l => let* e := perform e a in perform_all e l
  end.

Lemma touches_change p n : touches (fun x => x = p) (change_file p n).
Proof.
  intros w p' Hp. unfold change_file, io_bind, get_files, put_files. cbn. destruct n.
  - by rewrite lookup_insert_ne by (intros ->; tauto).
  - by rewrite lookup_delete_ne by (intros ->; tauto).
Qed.

(** ** Moving back what was moved *)

Lemma find_record_last l r : (forall i s, l !! i = Some s -> q_id s <> q_id r) ->
  find_record (q_id r) (l ++ [r]) = Some (length l, r).
Proof.
  induction l as [|s l IH]; intros H; cbn; [by rewrite Z.eqb_refl|].
  rewrite (proj2 (Z.eqb_neq (q_id s) (q_id r))) by exact (H 0%nat s eq_refl).
  rewrite IH; [done|]. intros i s' Hi. exact (H (S i) s' Hi).
Qed.

Lemma find_record_marked l r mark : (forall i s, l !! i = Some s -> q_id s <> q_id r) -> q_id (mark r) = q_id r ->
  find_record (q_id r) (<[length l := mark r]> (l ++ [r])) = Some (length l, mark r).
Proof.
  intros H Hm. rewrite insert_app_r_alt, Nat.sub_diag by lia. cbn [list_insert]. rewrite <- Hm. apply find_record_last.
  intros i s Hi. rewrite Hm. by eapply H.
Qed.

Lemma keeps_quarantine e candidate now : keeps_complying (quarantine e candidate now).
Proof.
  unfold quarantine, probe_target, quarantine_locked, move_to_vault, append_ledger, append_file, is_symlink,
    is_regular_file, file_size, hash_of, read_file.
  solve_keeps.
Qed.

Lemma status_regular_there m p c : m !! p = Some (Regular c) ->
  match status m p with Some _ => true | None => false end = true.
Proof. intros H. by rewrite (status_regular _ _ c). Qed.

Lemma restore_moves_back e r l content w :
  complies w -> ledger_ e = l ++ [r] -> (forall i s, l !! i = Some s -> q_id s <> q_id r) ->
  q_restored r = false -> q_shredded r = false -> ~ ledger_files e (q_original_path r) -> ~ ledger_files e (q_vault_path r) ->
  q_vault_path r <> q_original_path r ->
  files w !! q_original_path r = None -> files w !! q_vault_path r = Some (Regular content) ->
  post (restore e (q_id r)) w (fun res w' =>
    res = (OK, set_ledger e (l ++ [mark_restored r])) /\ complies w' /\
    files w' !! q_original_path r = Some (Regular content) /\ files w' !! q_vault_path r = None /\
    forall p, p <> q_original_path r -> p <> q_vault_path r -> ~ ledger_files e p -> files w' !! p = files w !! p).
Proof.
  intros Hw Hl Hfresh Hr Hs Hno Hnv Hne Ho Hv. unfold restore. rewrite Hl, find_record_last, Hs, Hr by done.
  cbv zeta. unfold exists_file. unfold post, io_bind at 1. rewrite query_works, (status_none _ _ Ho) by done.
  cbn [bool_decide]. rewrite bool_decide_eq_false_2 by done. unfold io_bind at 1.
  rewrite query_works, (status_regular_there _ _ content) by done. rewrite bool_decide_eq_true_2 by done. cbn [negb].
  unfold move_back. unfold io_bind at 1 2. rewrite (rename_works _ _ (Regular content)) by (try done; by rewrite Ho).
  cbn [io_ret]. set (w1 := World _ _). change (post (io_bind (rewrite_ledger
    (set_ledger e (<[length l := mark_restored r]> (l ++ [r])))) (fun _ => io_ret (OK, set_ledger e (<[length l := mark_restored r]> (l ++ [r]))))) w1
    (fun res w' => res = (OK, set_ledger e (l ++ [mark_restored r])) /\ complies w' /\
    files w' !! q_original_path r = Some (Regular content) /\ files w' !! q_vault_path r = None /\
    forall p, p <> q_original_path r -> p <> q_vault_path r -> ~ ledger_files e p -> files w' !! p = files w !! p)).
  rewrite insert_app_r_alt, Nat.sub_diag by lia. cbn [list_insert].
  apply post_bind. eapply post_mono.
  - apply post_and; [apply post_touches, touches_rewrite|apply (post_complies _ w1); [|exact Hw]].
    unfold rewrite_ledger, create_file. solve_keeps.
  - intros [] w2 [Hf Hw2]. apply post_ret. split; [done|]. split; [done|].
    change (forall p, ~ ledger_files e p -> files w2 !! p = files w1 !! p) in Hf.
    rewrite !Hf by done. unfold w1. cbn [files]. split; [by simplify_map_eq|].
    split; [rewrite lookup_insert_ne by done; by simplify_map_eq|].
    intros p Hp1 Hp2 Hp3. rewrite Hf by done. unfold w1. cbn [files].
    by rewrite lookup_insert_ne, lookup_delete_ne by done.
Qed.

Lemma shred_removes e r l content w :
  complies w -> ledger_ e = l ++ [r] -> (forall i s, l !! i = Some s -> q_id s <> q_id r) ->
  q_restored r = false -> q_shredded r = false -> ~ ledger_files e (q_vault_path r) ->
  files w !! q_vault_path r = Some (Regular content) ->
  post (shred e (q_id r)) w (fun res w' =>
    res = (OK, set_ledger e (l ++ [mark_shredded r])) /\ complies w' /\ files w' !! q_vault_path r = None /\
    forall p, p <> q_vault_path r -> ~ ledger_files e p -> files w' !! p = files w !! p).
Proof.
  intros Hw Hl Hfresh Hr Hs Hnv Hv. unfold shred. rewrite Hl, find_record_last, Hs, Hr by done. cbv zeta.
  rewrite insert_app_r_alt, Nat.sub_diag by lia. cbn [list_insert].
  unfold exists_file. unfold post, io_bind at 1. rewrite query_works, (status_regular_there _ _ content) by done.
  rewrite bool_decide_eq_true_2 by done. unfold file_size.
  apply post_bind. apply post_bind. unfold post at 1. rewrite query_works by done. apply post_bind.
  eapply (post_mono _ _ (fun _ w1 => complies w1 /\ (exists c, files w1 !! q_vault_path r = Some (Regular c)) /\
    forall p, p <> q_vault_path r -> files w1 !! p = files w !! p)).
  { rewrite (status_regular _ _ content) by done. destruct (0 <? _); [|by apply post_ret; eauto].
    unfold overwrite_zeros. apply post_bind. unfold post at 1. rewrite complies_reply by done. apply post_bind.
    unfold post at 1, get_files. rewrite Hv. unfold post, put_files. split; [exact Hw|]. cbn [files].
    split; [eexists; by simplify_map_eq|]. intros p Hp. by rewrite lookup_insert_ne. }
  intros _ w1 (Hw1 & [c Hc] & Hf1). apply post_bind. unfold post at 1. rewrite remove_works by (try done; by rewrite Hc).
  apply post_ret. set (w2 := World _ _). apply post_bind. eapply post_mono.
  - apply post_and; [apply post_touches, touches_rewrite|apply (post_complies _ w2); [|exact Hw1]].
    unfold rewrite_ledger, create_file. solve_keeps.
  - cbn beta. intros [] w3 [Hf Hw3]. apply post_ret. split; [done|]. split; [done|].
    change (forall p, ~ ledger_files e p -> files w3 !! p = files w2 !! p) in Hf.
    split; [rewrite Hf by done; unfold w2; cbn [files]; by simplify_map_eq|].
    intros p Hp1 Hp3. rewrite Hf by done. unfold w2. cbn [files]. by rewrite lookup_delete_ne, Hf1 by done.
Qed.

(** ** Properties *)

(** C37: a call of [quarantine] either moves the file and says so, or refuses and leaves
    the target and the ledger as they were, whatever the file system refuses or cuts
    short.  It moves only the target of an APPROVED candidate that is not protected, has
    no ledger delimiter, is a regular file of 1 byte to 200 MiB and has the expected hash;
    the record holds the hash of the bytes moved; no other file is touched than the
    target, the new vault file and the ledger. *)
Theorem quarantine_moves_or_refuses e candidate now w
    (Hledger : ledger_path_ e = slash_join (vault_dir_ e) "ledger.txt")
    (Hout : ~ in_vault e (c_target_path candidate)) :
  let '((code, r, e'), w') := quarantine e candidate now w in
  let target := c_target_path candidate in
  let vault_path := vault_path_of e (next_id_ e) in
  (forall p, p <> target -> p <> vault_path -> p <> ledger_path_ e -> files w' !! p = files w !! p) /\
  match r with
  | Some record =>
      code = OK /\ c_approval_state candidate = APPROVED /\ is_protected_path target (qe_policy e) = false /\
      has_unsafe_delimiter target = false /\ Z.of_nat (length (ledger_ e)) < MAX_LEDGER_RECORDS /\
      e' = Executor (vault_dir_ e) (ledger_path_ e) (qe_policy e) (ledger_ e ++ [record]) (u64 (next_id_ e + 1)) /\
      exists content, acceptable candidate (files w) content /\
        record = QRecord (next_id_ e) (c_finding_id candidate) target vault_path (hash_bytes256 content) now false false /\
        files w' !! target = None /\ files w' !! vault_path = Some (Regular content)
  | None =>
      (code = ERR_QUARANTINE_DENIED \/ code = ERR_QUARANTINE_FULL) /\
      (e' = e \/ e' = Executor (vault_dir_ e) (ledger_path_ e) (qe_policy e) (ledger_ e) (u64 (next_id_ e + 1))) /\
      files w' !! target = files w !! target /\ files w' !! ledger_path_ e = files w !! ledger_path_ e
  end.
Proof.
  pose proof (quarantine_post e candidate now w Hledger Hout) as H. unfold post in H.
  destruct (quarantine e candidate now w) as [[[code r] e'] w']. exact H.
Qed.

Definition fresh_executor (dir : string) (policy : LocalSecurityPolicy) : QuarantineExecutor :=
  Executor dir (slash_join dir "ledger.txt") policy [] 1.

(** on a file system that complies, a quarantined file is restored to what it was:
    [restore] of its id puts the same bytes back at the same path, takes them out of the
    vault and leaves every other file outside the vault as it was before the quarantine,
    and a second call changes nothing; [shred] of its id takes the file out of the vault
    without putting it back, after which [restore] fails and changes nothing. *)
Theorem quarantine_restore_roundtrip e candidate now w r e' w1 content
    (Hok : vault_ok e w) (Hw : complies w) (Hn : next_id_ e + 1 < 2 ^ 64)
    (Hout : ~ in_vault e (c_target_path candidate))
    (Hc : files w !! c_target_path candidate = Some (Regular content))
    (Hq : quarantine e candidate now w = ((OK, Some r, e'), w1)) :
  (let '((code, e2), w2) := restore e' (q_id r) w1 in
   code = OK /\ files w2 !! q_vault_path r = None /\
   (forall p, ~ in_vault e p -> files w2 !! p = files w !! p) /\
   restore e2 (q_id r) w2 = ((OK, e2), w2)) /\
  (let '((code, e2), w2) := shred e' (q_id r) w1 in
   code = OK /\ files w2 !! q_vault_path r = None /\ files w2 !! c_target_path candidate = None /\
   restore e2 (q_id r) w2 = ((ERR_ROLLBACK_FAIL, e2), w2)).
Proof.
  pose proof (quarantine_post e candidate now w (vo_path _ _ Hok) Hout) as H. unfold post in H. rewrite Hq in H.
  assert (Hw1 : complies w1) by (pose proof (keeps_quarantine e candidate now w Hw) as H1; by rewrite Hq in H1).
  destruct H as (Hf & _ & _ & _ & _ & _ & -> & content' & [Ht _] & Er & Ht1 & Hv1).
  rewrite Hc in Ht. injection Ht as <-.
  assert (Hfresh : forall i s, ledger_ e !! i = Some s -> q_id s <> q_id r).
  { intros i s Hi. pose proof (vo_ids _ _ Hok i s Hi). rewrite Er. cbn. lia. }
  assert (Hvp : q_vault_path r = vault_path_of e (next_id_ e)) by by rewrite Er.
  assert (Hop : q_original_path r = c_target_path candidate) by by rewrite Er.
  assert (Hst : q_restored r = false /\ q_shredded r = false) by by rewrite Er.
  destruct Hst as [Hr Hs]. destruct (ledger_path_in e (vo_path _ _ Hok)) as [Hin1 Hin2].
  set (e1 := Executor _ _ _ _ _).
  assert (Hnl : forall p, ~ in_vault e p -> ~ ledger_files e1 p) by (intros p Hp [-> | ->]; by apply Hp).
  assert (Hnv : ~ ledger_files e1 (q_vault_path r)).
  { rewrite Hvp. destruct (vault_path_not_ledger e (next_id_ e) (vo_path _ _ Hok)). by intros [|]. }
  assert (Hvo : forall p, ~ in_vault e p -> p <> q_vault_path r)
    by (intros p Hp ->; apply Hp; rewrite Hvp; apply vault_path_in).
  rewrite <- Hvp in Hv1. rewrite <- Hop in Ht1, Hout, Hc, Hf |- *. split.
  - pose proof (restore_moves_back e1 r (ledger_ e) content w1 Hw1 eq_refl Hfresh Hr Hs
      (Hnl _ Hout) Hnv (not_eq_sym (Hvo _ Hout)) Ht1 Hv1) as H. unfold post in H.
    destruct (restore e1 (q_id r) w1) as [[code e2] w2]. destruct H as ([= -> ->] & Hw2 & Ho2 & Hv2 & Hf2).
    split; [done|]. split; [done|]. split.
    + intros p Hp. destruct (decide (p = q_original_path r)) as [->|Hne]; [by rewrite Ho2|].
      rewrite Hf2 by auto. apply Hf; [done|by rewrite <- Hvp; auto|]. intros ->. by apply Hp.
    + unfold restore at 1. cbn [ledger_ set_ledger]. pose proof (find_record_last (ledger_ e) (mark_restored r) Hfresh) as E.
      change (q_id (mark_restored r)) with (q_id r) in E. rewrite E. cbn [q_shredded q_restored mark_restored]. by rewrite Hs.
  - pose proof (shred_removes e1 r (ledger_ e) content w1 Hw1 eq_refl Hfresh Hr Hs Hnv Hv1) as H. unfold post in H.
    destruct (shred e1 (q_id r) w1) as [[code e2] w2]. destruct H as ([= -> ->] & Hw2 & Hv2 & Hf2).
    split; [done|]. split; [done|]. split; [by rewrite Hf2 by auto|].
    unfold restore. cbn [ledger_ set_ledger]. pose proof (find_record_last (ledger_ e) (mark_shredded r) Hfresh) as E.
    change (q_id (mark_shredded r)) with (q_id r) in E. by rewrite E.
Qed.

(** ** A small vault *)

#[export] Instance node_eq_decision : EqDecision node.
Proof. solve_decision. Defined.

Definition sample_candidate (p : string) : RemediationCandidate :=
  Candidate 7 QUARANTINE_CANDIDATE APPROVED p EmptyString EmptyString.

Definition sample_world (l : list reply) : world :=
  World (list_to_map [("/t/a"%string, Regular [x61]); ("/t/b"%string, Regular [x62])]) l.

Definition sample_executor : QuarantineExecutor := fresh_executor "/v" default_policy.

Lemma outside_sample p : String.prefix "/v/" p = false -> ~ exists name, p = slash_join "/v" name.
Proof. intros H [name ->]. cbn in H. by destruct name. Qed.

Lemma quarantine_moves_or_refuses_witness :
  let '((code, r, e'), w') := quarantine sample_executor (sample_candidate "/t/a") 5 (sample_world []) in
  code = OK /\ files w' !! "/v/q_1.gcadq"%string = Some (Regular [x61]) /\ files w' !! "/t/b"%string = Some (Regular [x62]).
Proof.
  pose proof (quarantine_moves_or_refuses sample_executor (sample_candidate "/t/a") 5 (sample_world []) eq_refl
    (outside_sample "/t/a" eq_refl)) as H.
  assert (E : is_Some (quarantine sample_executor (sample_candidate "/t/a") 5 (sample_world [])).1.1.2)
    by (vm_compute; by eexists).
  destruct (quarantine _ _ _ _) as [[[code r] e'] w']. destruct E as [record E]. cbn in E. rewrite E in H.
  destruct H as [Hf (-> & _ & _ & _ & _ & _ & content & [Hc _] & _ & _ & Hv)]. split; [done|]. split.
  - assert (Hx : Some (Regular [x61]) = Some (Regular content)) by exact Hc. injection Hx as <-. exact Hv.
  - rewrite Hf; [reflexivity|done..].
Defined.

Lemma sample_vault_ok l : vault_ok sample_executor (sample_world l).
Proof. split; cbn; try done; apply NoDup_nil_2. Qed.

Lemma quarantine_restore_roundtrip_witness :
  let '((code, r, e'), w1) := quarantine sample_executor (sample_candidate "/t/a") 5 (sample_world []) in
  exists record, code = OK /\ r = Some record /\
    (let '((code, e2), w2) := restore e' (q_id record) w1 in code = OK /\ files w2 !! "/t/a"%string = Some (Regular [x61])).
Proof.
  assert (E : (quarantine sample_executor (sample_candidate "/t/a") 5 (sample_world [])).1.1.1 = OK /\
    is_Some (quarantine sample_executor (sample_candidate "/t/a") 5 (sample_world [])).1.1.2)
    by (vm_compute; split; [done|by eexists]).
  destruct (quarantine _ _ _ _) as [[[code r] e'] w1] eqn:Eq. destruct E as [E1 [record E2]]. cbn in E1, E2.
  rewrite E1, E2 in Eq |- *. exists record. split; [done|]. split; [done|].
  pose proof (quarantine_restore_roundtrip sample_executor (sample_candidate "/t/a") 5 (sample_world []) record e' w1 [x61] (sample_vault_ok []) eq_refl eq_refl
    (outside_sample "/t/a" eq_refl) eq_refl Eq) as [H _].
  destruct (restore _ _ _) as [[code2 e2] w2]. destruct H as (-> & _ & H & _). split; [done|].
  rewrite (H "/t/a"%string (outside_sample "/t/a" eq_refl)). reflexivity.
Defined.

(** The bytes are in no file. *)
Definition nowhere (c : list byte) (w : world) : bool :=
  negb (existsb (fun '(_, n) => bool_decide (n = Regular c)) (map_to_list (files w))).

(** A restart between two requests. *)
Definition restart_with (e : QuarantineExecutor) (a : request) : io QuarantineExecutor :=
  let* e := open_executor (vault_dir_ e) (qe_policy e) in perform e a.

(** What a refused or short write costs.  When the line of a record cannot be
    appended to the ledger, the file is still moved and OK returned; after a restart its
    id is given again, and the next file quarantined replaces it in the vault: its bytes
    are nowhere left.  When rewriting the ledger is cut short, the short ledger replaces
    the old one, and after a restart no record is left.  When a file in the vault can be
    neither overwritten nor removed, [shred] still returns OK and marks it shredded. *)
Theorem unchecked_writes_lose_files :
  (let '((code, r, e), w) := quarantine sample_executor (sample_candidate "/t/a") 5
                               (sample_world [Works; Works; Works; Works; Works; Refused]) in
   code = OK /\ nowhere [x61] w = false /\
   (let '(e', w') := restart_with e (Quarantine (sample_candidate "/t/b") 6) w in
    q_original_path <$> ledger_ e' = ["/t/b"%string] /\ nowhere [x61] w' = true)) /\
  (let '(e, w) := perform_all sample_executor
                    [Quarantine (sample_candidate "/t/a") 5; Quarantine (sample_candidate "/t/b") 6]
                    (sample_world []) in
   let '((code, e'), w') := restore e 2 (World (files w) [Works; Works; Works; Short 0]) in
   code = OK /\ length (ledger_ e') = 2%nat /\ nowhere [x61] w' = false /\
   (let '(e2, w2) := open_executor "/v" default_policy w' in ledger_ e2 = [])) /\
  (let '(e, w) := perform sample_executor (Quarantine (sample_candidate "/t/a") 5) (sample_world []) in
   let '((code, e'), w') := shred e 1 (World (files w) [Works; Works; Refused; Refused]) in
   code = OK /\ q_shredded <$> ledger_ e' = [true] /\ nowhere [x61] w' = false).
Proof. vm_compute. repeat split. Qed.

(** ** The ledger across a restart *)

Lemma split_bar_plain f : has_char bar f = false -> split_bar f = [f].
Proof.
  induction f as [|c f IH]; [done|]. cbn [has_char split_bar]. intros [Hc Hf]%orb_false_iff. by rewrite Hc, IH.
Qed.

Lemma split_bar_cons f rest : has_char bar f = false -> split_bar (f +:+ String.String bar rest) = f :: split_bar rest.
Proof.
  induction f as [|c f IH]; intros Hf; [done|]. cbn [has_char] in Hf. apply orb_false_iff in Hf as [Hc Hf].
  change (split_bar (String.String c (f +:+ String.String bar rest)) = String.String c f :: split_bar rest).
  cbn [split_bar]. by rewrite Hc, IH.
Qed.

Lemma split_bar_join fields : fields <> [] -> Forall (fun f => has_char bar f = false) fields ->
  split_bar (bar_join fields) = fields.
Proof.
  intros Hne H. induction H as [|f fields Hf H IH]; [done|]. destruct fields as [|f' fields]; [by apply split_bar_plain|].
  change (bar_join (f :: f' :: fields)) with (f +:+ String.String bar (bar_join (f' :: fields))).
  rewrite split_bar_cons by done. by rewrite IH.
Qed.

Lemma has_char_join c fields : c <> bar -> Forall (fun f => has_char c f = false) fields -> has_char c (bar_join fields) = false.
Proof.
  intros Hc H. induction H as [|f fields Hf H IH]; [done|]. destruct fields as [|f' fields]; [done|].
  change (bar_join (f :: f' :: fields)) with (f +:+ String.String bar (bar_join (f' :: fields))).
  rewrite has_char_app, Hf. cbn [has_char]. rewrite bool_decide_eq_false_2 by done. exact IH.
Qed.

(** A record a ledger line can hold. *)
Record storable (r : QuarantineRecord) : Prop := {
  st_id : 0 <= q_id r < 2 ^ 64;
  st_finding : 0 <= q_finding_id r < 2 ^ 64;
  st_time : - 2 ^ 63 <= q_quarantined_at r < 2 ^ 63;
  st_original : has_unsafe_delimiter (q_original_path r) = false;
  st_vault : has_unsafe_delimiter (q_vault_path r) = false;
  st_hash : has_unsafe_delimiter (q_sha256 r) = false;
}.

(** The record a restart knows: its time is cut to the second. *)
Definition to_the_second (r : QuarantineRecord) : QuarantineRecord :=
  QRecord (q_id r) (q_finding_id r) (q_original_path r) (q_vault_path r) (q_sha256 r)
    (Z.quot (q_quarantined_at r) (10 ^ 9) * 10 ^ 9) (q_restored r) (q_shredded r).

Lemma delimiter_free s : has_unsafe_delimiter s = false -> has_char bar s = false /\ has_char newline s = false.
Proof. apply orb_false_iff. Qed.

Lemma line_fields_plain c r : storable r -> digit_value c = None -> char_value c <> 45 -> (c = bar \/ c = newline) ->
  Forall (fun f => has_char c f = false)
    [print_int (q_id r); print_int (q_finding_id r); q_original_path r; q_vault_path r; q_sha256 r;
     print_int (Z.quot (q_quarantined_at r) (10 ^ 9)); if q_restored r then "1" else "0"; if q_shredded r then "1" else "0"]%string.
Proof.
  intros [_ _ _ [Ho Ho']%delimiter_free [Hv Hv']%delimiter_free [Hh Hh']%delimiter_free] Hd Hm Hc.
  repeat apply List.Forall_cons; try (by apply print_int_plain); try (by destruct Hc as [-> | ->]);
    try apply List.Forall_nil; destruct Hc as [-> | ->]; [destruct (q_restored r)..|destruct (q_shredded r)|destruct (q_shredded r)]; done.
Qed.

Lemma epoch_range t : - 2 ^ 63 <= t < 2 ^ 63 ->
  - 2 ^ 63 <= Z.quot t (10 ^ 9) < 2 ^ 63 /\ s64 (Z.quot t (10 ^ 9) * 10 ^ 9) = Z.quot t (10 ^ 9) * 10 ^ 9.
Proof.
  intros Ht. pose proof (Z.quot_rem' t (10 ^ 9)) as Hq.
  assert (H : - 2 ^ 63 <= Z.quot t (10 ^ 9) * 10 ^ 9 < 2 ^ 63).
  { destruct (Z.le_ge_cases 0 t).
    - pose proof (Z.rem_nonneg t (10 ^ 9) ltac:(lia) ltac:(lia)). pose proof (Z.quot_pos t (10 ^ 9) ltac:(lia) ltac:(lia)). lia.
    - pose proof (Z.rem_nonpos t (10 ^ 9) ltac:(lia) ltac:(lia)).
      pose proof (Z.quot_pos (- t) (10 ^ 9) ltac:(lia) ltac:(lia)) as Hp. rewrite Z.quot_opp_l in Hp by lia. lia. }
  split; [lia|]. unfold s64. rewrite Z.mod_small by lia. lia.
Qed.

Lemma parse_ledger_line r : storable r -> parse_record (ledger_line r) = Some (to_the_second r).
Proof.
  intros H. pose proof H as [Hid Hfi Ht _ _ _]. destruct (epoch_range _ Ht) as [He Hs].
  unfold parse_record, ledger_line. cbv zeta.
  rewrite split_bar_join by (try done; apply line_fields_plain; auto). cbn [length Nat.eqb negb andb lookup_total list_lookup_total Nat.leb].
  unfold stoull, stoll. rewrite !sto_unsigned_print, sto_signed_print by done.
  rewrite (proj2 (Z.leb_le (- 2 ^ (64 - 1)) _)), (proj2 (Z.ltb_lt _ (2 ^ (64 - 1)))) by lia. cbn [andb].
  rewrite Hs. unfold to_the_second. by destruct (q_restored r), (q_shredded r).
Qed.

Definition ledger_text (l : list QuarantineRecord) : string :=
  foldr (fun r text => ledger_line r +:+ String.String newline text) EmptyString l.

Lemma ledger_bytes_text l : string_of_bytes (mjoin (line_bytes <$> l)) = ledger_text l.
Proof.
  induction l as [|r l IH]; [done|]. change (mjoin (line_bytes <$> r :: l)) with (line_bytes r ++ mjoin (line_bytes <$> l)).
  rewrite string_of_bytes_app, IH. unfold line_bytes. rewrite string_of_bytes_of_string, string_app_cons. done.
Qed.

Lemma ledger_lines l : Forall storable l -> get_lines (ledger_text l) = ledger_line <$> l.
Proof.
  intros H. induction H as [|r l Hr H IH]; [done|]. cbn [ledger_text foldr fmap list_fmap].
  rewrite get_lines_cons; [by rewrite <- IH|]. apply has_char_join; [done|]. apply line_fields_plain; auto.
Qed.

Definition next_after (next_id : Z) (r : QuarantineRecord) : Z := if next_id <=? q_id r then u64 (q_id r + 1) else next_id.

Lemma load_records l st n : Forall storable l ->
  foldl load_record (st, n) (ledger_line <$> l) = (st ++ (to_the_second <$> l), foldl next_after n l).
Proof.
  intros H. revert st n. induction H as [|r l Hr H IH]; intros st n; cbn [fmap list_fmap foldl]; [by rewrite app_nil_r|].
  unfold load_record at 2. rewrite parse_ledger_line by done.
  replace (empty_string (ledger_line r)) with false.
  2: { unfold ledger_line, bar_join. cbn [String.concat]. by destruct (print_int (q_id r)). }
  rewrite IH. by rewrite <- app_assoc.
Qed.

Lemma next_after_ge l n : Forall (fun r => 0 <= q_id r < 2 ^ 64 - 1) l -> 0 <= n ->
  n <= foldl next_after n l /\ Forall (fun r => q_id r < foldl next_after n l) l.
Proof.
  intros H. revert n. induction H as [|r l Hr H IH]; intros n Hn; cbn [foldl]; [done|].
  assert (Hna : n <= next_after n r /\ q_id r < next_after n r).
  { unfold next_after. rewrite u64_small by lia. destruct (Z.leb_spec n (q_id r)); lia. }
  destruct (IH (next_after n r) ltac:(lia)) as [H1 H2]. split; [lia|]. constructor; [lia|done].
Qed.

Lemma load_ledger_text l : Forall storable l ->
  load_ledger (ledger_text l) = (to_the_second <$> l, foldl next_after 1 l).
Proof. intros H. unfold load_ledger. by rewrite ledger_lines, load_records by done. Qed.

(** The ledger file holds the ledger. *)
Definition ledger_kept (e : QuarantineExecutor) (w : world) : Prop :=
  files w !! ledger_path_ e = Some (Regular (mjoin (line_bytes <$> ledger_ e))).

Lemma open_kept e w policy : complies w -> ledger_path_ e = slash_join (vault_dir_ e) "ledger.txt" -> ledger_kept e w ->
  Forall storable (ledger_ e) -> Forall (fun r => q_id r <> 2 ^ 64 - 1) (ledger_ e) ->
  let '(e', w') := open_executor (vault_dir_ e) policy w in
  ledger_ e' = to_the_second <$> ledger_ e /\ Forall (fun r => q_id r < next_id_ e') (ledger_ e') /\ w' = w.
Proof.
  intros Hw Hl Hk Hst Hid. unfold open_executor, read_file, io_bind at 1. rewrite query_works by done.
  rewrite <- Hl, (status_regular _ _ _ Hk), ledger_bytes_text, load_ledger_text by done. cbn [io_ret ledger_ next_id_].
  split; [done|]. split; [|done]. apply Forall_fmap.
  assert (Hr : Forall (fun r => 0 <= q_id r < 2 ^ 64 - 1) (ledger_ e)).
  { eapply Forall_impl; [apply Forall_and; split; [exact Hst|exact Hid]|].
    intros r [[H1 _ _ _ _ _] H2]. lia. }
  exact (proj2 (next_after_ge _ 1 Hr ltac:(lia))).
Qed.

Lemma kept_after_rewrite e w : complies w -> (forall p, ledger_files e p -> exists c, files w !! p = None \/ files w !! p = Some (Regular c)) ->
  let '(_, w') := rewrite_ledger e w in ledger_kept e w' /\ complies w'.
Proof.
  intros Hw Hf. destruct (Hf (ledger_path_ e) (or_introl eq_refl)) as [c1 H1].
  destruct (Hf (ledger_path_ e +:+ ".tmp")%string (or_intror eq_refl)) as [c2 H2].
  unfold rewrite_ledger. cbv zeta. set (tmp := (ledger_path_ e +:+ ".tmp")%string) in *.
  unfold io_bind at 1. rewrite create_works by (try done; destruct H2 as [-> | ->]; done). cbn [negb].
  set (m := World _ _). unfold io_bind at 1.
  assert (Hne : ledger_path_ e <> tmp).
  { intros E. apply (f_equal String.length) in E. unfold tmp in E. rewrite string_app_length in E. cbn in E. lia. }
  rewrite (rename_works _ _ (Regular (mjoin (line_bytes <$> ledger_ e)))).
  - split; [unfold ledger_kept; cbn; by simplify_map_eq|exact Hw].
  - exact Hw.
  - unfold m. cbn. by simplify_map_eq.
  - unfold m. cbn [files]. rewrite lookup_insert_ne by done. by destruct H1 as [-> | ->].
Qed.

(** on a file system that complies, a restart knows the ledger: the executor opened
    after a rewrite of the ledger file, or after a record was appended to one that held
    the ledger, has the same records in the same order with their times cut to the second,
    and gives out only ids above all of theirs.  Paths without a bar or a line break,
    64-bit numbers and ids other than the last are what a line holds. *)
Theorem ledger_survives_restart e w r (policy : LocalSecurityPolicy)
    (Hw : complies w) (Hpath : ledger_path_ e = slash_join (vault_dir_ e) "ledger.txt")
    (Hfiles : forall p, ledger_files e p -> exists c, files w !! p = None \/ files w !! p = Some (Regular c))
    (Hst : Forall storable (r :: ledger_ e)) (Hid : Forall (fun r => q_id r <> 2 ^ 64 - 1) (r :: ledger_ e)) :
  (let '(_, w1) := rewrite_ledger e w in
   let '(e', w2) := open_executor (vault_dir_ e) policy w1 in
   ledger_ e' = to_the_second <$> ledger_ e /\ Forall (fun r => q_id r < next_id_ e') (ledger_ e') /\ w2 = w1) /\
  (ledger_kept e w ->
   let '(_, w1) := append_ledger e r w in
   let '(e', w2) := open_executor (vault_dir_ e) policy w1 in
   ledger_ e' = to_the_second <$> ledger_ e ++ [r] /\ Forall (fun r => q_id r < next_id_ e') (ledger_ e') /\ w2 = w1).
Proof.
  inversion Hst as [|? ? Hr Hst']. inversion Hid as [|? ? Hri Hid']. subst. split.
  - pose proof (kept_after_rewrite e w Hw Hfiles) as H. destruct (rewrite_ledger e w) as [[] w1]. destruct H as [Hk Hw1].
    by apply open_kept.
  - intros Hk. pose proof Hk as Hk'. unfold ledger_kept in Hk'.
    unfold append_ledger, append_file, write_file, io_bind, get_files, put_files, io_ret.
    rewrite complies_reply by done. cbn [fst snd]. rewrite Hk'.
    apply (open_kept (set_ledger e (ledger_ e ++ [r]))); [exact Hw|exact Hpath|..]; cbn [set_ledger ledger_].
    + unfold ledger_kept. cbn [files ledger_path_ set_ledger ledger_]. rewrite lookup_insert_eq.
      rewrite fmap_app, join_app. cbn. by rewrite app_nil_r.
    + apply Forall_app. by split; [|constructor].
    + apply Forall_app. by split; [|constructor].
Qed.

Lemma ledger_survives_restart_witness :
  let r := QRecord 1 7 "/t/a" "/v/q_1.gcadq" "ab" (3 * 10 ^ 9 + 5) false true in
  let '(_, w1) := rewrite_ledger (set_ledger sample_executor [r]) (sample_world []) in
  let '(e', w2) := open_executor "/v" default_policy w1 in
  ledger_ e' = [QRecord 1 7 "/t/a" "/v/q_1.gcadq" "ab" (3 * 10 ^ 9) false true].
Proof.
  cbv zeta. set (r := QRecord _ _ _ _ _ _ _ _).
  assert (Hr : storable r) by (split; [vm_compute; by split; [|done]..|reflexivity|reflexivity|reflexivity]).
  pose proof (ledger_survives_restart (set_ledger sample_executor [r]) (sample_world []) r default_policy eq_refl eq_refl) as H.
  destruct H as [H _].
  - intros p [-> | ->]; exists []; by left.
  - by repeat constructor.
  - by repeat constructor.
  - change (vault_dir_ (set_ledger sample_executor [r])) with "/v"%string in H.
    destruct (rewrite_ledger _ _) as [u w1]. destruct (open_executor _ _ _) as [e' w2]. exact (proj1 H).
Defined.
