(* ===== verification/VaultRuns.v ===== *)
(** * VaultRuns: calls of the quarantine executor that overlap

    The calls of Quarantine.v as sequences of their requests to the file system, so that other
    threads and programs act between any two of them.  [quarantine] probes and hashes its target
    without the mutex; from the move on, and all through [restore] and [shred], the mutex keeps
    other calls out, but not other programs.  [alone] runs a sequence without anybody in between:
    it is then the call of Quarantine.v. *)
From S2P Require Import Prelude Float64 Asn1 Sha2 Observation Text Policy FileSystem Quarantine.

(** ** Programs of requests *)

Inductive prog (A : Type) : Type :=
  | Ret (a : A)
  | Ask (B : Type) (op : io B) (k : B -> prog A).
Arguments Ret {A} a.
Arguments Ask {A B} op k.

Fixpoint prog_bind {A B} (p : prog A) (k : A -> prog B) : prog B :=
  match p with Ret a => k a | Ask op k' => Ask op (fun b => prog_bind (k' b) k) end.

Definition ask {B} (op : io B) : prog B := Ask op Ret.

Declare Scope prog_scope.
Notation "'do*' x := p 'in' k" := (prog_bind p (fun x => k))
  (at level 10, x pattern, p at level 100, k at level 200) : prog_scope.
#[local] Open Scope prog_scope.

(** Without anybody in between. *)
Fixpoint alone {A} (p : prog A) : io A :=
  match p with Ret a => io_ret a | Ask op k => io_bind op (fun b => alone (k b)) end.

(** One request. *)
Definition ask_next {A} (p : prog A) (w : world) : prog A * world :=
  match p with Ret a => (p, w) | Ask op k => let '(b, w) := op w in (k b, w) end.

(** ** The calls *)

(** The checks that need no file. *)
Definition admitted (e : QuarantineExecutor) (candidate : RemediationCandidate) : bool :=
  bool_decide (c_approval_state candidate = APPROVED) && negb (empty_string (c_target_path candidate)) &&
  negb (has_unsafe_delimiter (c_target_path candidate)) && negb (is_protected_path (c_target_path candidate) (qe_policy e)).

Definition probe_steps (candidate : RemediationCandidate) : prog (option string) :=
  let target := c_target_path candidate in
  do* link := ask (is_symlink target) in
  if negb (bool_decide (link = Some false)) then Ret None
  else
    do* regular := ask (is_regular_file target) in
    if negb (bool_decide (regular = Some true)) then Ret None
    else
      do* size := ask (file_size target) in
      match size with
      | None => Ret None
      | Some size =>
          if (size =? 0) || (MAX_QUARANTINE_BYTES <? size) then Ret None
          else
            do* current_hash := ask (hash_of target) in
            if empty_string current_hash then Ret None
            else if negb (empty_string (c_expected_sha256 candidate)) &&
                    negb (String.eqb current_hash (c_expected_sha256 candidate)) then Ret None
            else Ret (Some current_hash)
      end.

Definition move_steps (target vault_path : string) : prog bool :=
  do* ec := ask (rename target vault_path) in
  if ec : bool then
    do* ec := ask (copy_file false target vault_path) in
    if ec : bool then Ret false
    else
      do* ec := ask (remove target) in
      if ec : bool then do* _ := ask (remove vault_path) in Ret false
      else Ret true
  else Ret true.

Definition locked_steps (e : QuarantineExecutor) (candidate : RemediationCandidate) (current_hash : string) (now : Z) :
    prog (ErrorCode * option QuarantineRecord * QuarantineExecutor) :=
  if MAX_LEDGER_RECORDS <=? Z.of_nat (length (ledger_ e)) then Ret (ERR_QUARANTINE_FULL, None, e)
  else
    let id := next_id_ e in
    let e := Executor (vault_dir_ e) (ledger_path_ e) (qe_policy e) (ledger_ e) (u64 (next_id_ e + 1)) in
    let vault_path := vault_path_of e id in
    do* moved := move_steps (c_target_path candidate) vault_path in
    if negb moved then Ret (ERR_QUARANTINE_DENIED, None, e)
    else
      let record := QRecord id (c_finding_id candidate) (c_target_path candidate) vault_path current_hash now false false in
      let e := set_ledger e (ledger_ e ++ [record]) in
      do* _ := ask (append_ledger e record) in
      Ret (OK, Some record, e).

Definition rewrite_steps (e : QuarantineExecutor) : prog unit :=
  let tmp_path := (ledger_path_ e +:+ ".tmp")%string in
  do* opened := ask (create_file tmp_path (mjoin (line_bytes <$> ledger_ e))) in
  if negb opened then Ret tt
  else
    do* ec := ask (rename tmp_path (ledger_path_ e)) in
    if ec : bool then
      do* _ := ask (copy_file true tmp_path (ledger_path_ e)) in
      do* _ := ask (remove tmp_path) in
      Ret tt
    else Ret tt.

Definition move_back_steps (vault_path original : string) : prog bool :=
  do* ec := ask (rename vault_path original) in
  if ec : bool then
    do* ec := ask (copy_file false vault_path original) in
    if ec : bool then Ret true
    else do* _ := ask (remove vault_path) in Ret false
  else Ret false.

Definition restore_steps (e : QuarantineExecutor) (record_id : Z) : prog (ErrorCode * QuarantineExecutor) :=
  match find_record record_id (ledger_ e) with
  | None => Ret (ERR_NOT_FOUND, e)
  | Some (i, record) =>
      if q_shredded record then Ret (ERR_ROLLBACK_FAIL, e)
      else if q_restored record then Ret (OK, e)
      else
        let original := q_original_path record in
        do* there := ask (exists_file original) in
        if bool_decide (there = Some true) then Ret (ERR_ROLLBACK_FAIL, e)
        else
          let vault_path := q_vault_path record in
          do* there := ask (exists_file vault_path) in
          if negb (bool_decide (there = Some true)) then Ret (ERR_ROLLBACK_FAIL, e)
          else
            do* failed := move_back_steps vault_path original in
            if failed : bool then Ret (ERR_ROLLBACK_FAIL, e)
            else
              let e := set_ledger e (<[i := mark_restored record]> (ledger_ e)) in
              do* _ := rewrite_steps e in
              Ret (OK, e)
  end.

(** Overwriting and removing the file in the vault. *)
Definition wipe_steps (vault_path : string) : prog unit :=
  do* there := ask (exists_file vault_path) in
  if bool_decide (there = Some true) then
    do* size := ask (file_size vault_path) in
    do* _ := match size with
             | Some size => if 0 <? size then ask (overwrite_zeros vault_path size) else Ret tt
             | None => Ret tt
             end in
    do* _ := ask (remove vault_path) in
    Ret tt
  else Ret tt.

Definition shred_steps (e : QuarantineExecutor) (record_id : Z) : prog (ErrorCode * QuarantineExecutor) :=
  match find_record record_id (ledger_ e) with
  | None => Ret (ERR_NOT_FOUND, e)
  | Some (i, record) =>
      if q_shredded record then Ret (OK, e)
      else if q_restored record then Ret (ERR_NOT_FOUND, e)
      else
        do* _ := wipe_steps (q_vault_path record) in
        let e := set_ledger e (<[i := mark_shredded record]> (ledger_ e)) in
        do* _ := rewrite_steps e in
        Ret (OK, e)
  end.

(** ** The threads *)

(** A call of [quarantine] before its mutex: the requests left, and whether its target was changed
    by somebody since it began. *)
Record checking := Checking {
  ck_candidate : RemediationCandidate;
  ck_rest : prog (option string);
  ck_changed : bool;
}.

(** Who holds the mutex, with the requests left. *)
Inductive section :=
  | Nobody
  | Moving (candidate : RemediationCandidate) (rest : prog (ErrorCode * option QuarantineRecord * QuarantineExecutor)) (changed : bool)
  | Settling (rest : prog (ErrorCode * QuarantineExecutor)).

(** [disturbed]: the records whose target was changed by others while their call ran. *)
Record vault := Vault {
  executor : QuarantineExecutor;
  checks : list checking;
  holder : section;
  storage : world;
  disturbed : list Z;
}.

Inductive label :=
  | Begins (candidate : RemediationCandidate)
  | Probes (i : nat)
  | Enters (i : nat) (now : Z)
  | Restores (record_id : Z)
  | Shreds (record_id : Z)
  | Proceeds
  | Leaves
  | Others (p : string) (n : option node).

Definition differs (m m' : gmap string node) (candidate : RemediationCandidate) : bool :=
  negb (bool_decide (m' !! c_target_path candidate = m !! c_target_path candidate)).

Definition notice (m m' : gmap string node) (c : checking) : checking :=
  Checking (ck_candidate c) (ck_rest c) (ck_changed c || differs m m' (ck_candidate c)).

(** The disk changes: the calls that still check are told. *)
Definition on_disk (st : vault) (h : section) (w : world) : vault :=
  Vault (executor st) (notice (files (storage st)) (files w) <$> checks st) h w (disturbed st).

Definition with_holder (st : vault) (h : section) : vault := Vault (executor st) (checks st) h (storage st) (disturbed st).

Definition enters (st : vault) (i : nat) (now : Z) : vault :=
  match holder st, checks st !! i with
  | Nobody, Some (Checking candidate (Ret hash) changed) =>
      Vault (executor st) (delete i (checks st))
        match hash with Some h => Moving candidate (locked_steps (executor st) candidate h now) changed | None => Nobody end
        (storage st) (disturbed st)
  | _, _ => st
  end.

Definition leaves (st : vault) : vault :=
  match holder st with
  | Moving _ (Ret (_, Some record, e)) true => Vault e (checks st) Nobody (storage st) (q_id record :: disturbed st)
  | Moving _ (Ret (_, _, e)) _ | Settling (Ret (_, e)) => Vault e (checks st) Nobody (storage st) (disturbed st)
  | _ => st
  end.

Definition others (st : vault) (p : string) (n : option node) : vault :=
  let '(_, w) := change_file p n (storage st) in
  on_disk st match holder st with
             | Moving candidate rest changed => Moving candidate rest (changed || differs (files (storage st)) (files w) candidate)
             | h => h
             end w.

(** A label that cannot be taken changes nothing. *)
Definition vault_step (st : vault) (l : label) : vault :=
  match l with
  | Begins candidate =>
      if admitted (executor st) candidate
      then Vault (executor st) (checks st ++ [Checking candidate (probe_steps candidate) false]) (holder st) (storage st) (disturbed st)
      else st
  | Probes i =>
      match checks st !! i with
      | Some c => let '(rest, w) := ask_next (ck_rest c) (storage st) in
                  Vault (executor st) (<[i := Checking (ck_candidate c) rest (ck_changed c)]> (checks st)) (holder st) w (disturbed st)
      | None => st
      end
  | Enters i now => enters st i now
  | Restores id => match holder st with Nobody => with_holder st (Settling (restore_steps (executor st) id)) | _ => st end
  | Shreds id => match holder st with Nobody => with_holder st (Settling (shred_steps (executor st) id)) | _ => st end
  | Proceeds =>
      match holder st with
      | Moving candidate rest changed => let '(rest, w) := ask_next rest (storage st) in on_disk st (Moving candidate rest changed) w
      | Settling rest => let '(rest, w) := ask_next rest (storage st) in on_disk st (Settling rest) w
      | Nobody => st
      end
  | Leaves => leaves st
  | Others p n => others st p n
  end.

Definition vault_run (st : vault) (labels : list label) : vault := foldl vault_step st labels.

Definition at_rest (e : QuarantineExecutor) (w : world) : vault := Vault e [] Nobody w [].

(** ** Alone, the sequences are the calls *)

Lemma alone_bind {A B} (p : prog A) (k : A -> prog B) w : alone (prog_bind p k) w = let '(a, w') := alone p w in alone (k a) w'.
Proof.
  revert w. induction p as [a|C op k' IH]; intros w; [done|]. cbn [prog_bind alone]. unfold io_bind. destruct (op w) as [b w']. apply IH.
Qed.

Lemma alone_ask {B C} (op : io B) (k : B -> prog C) w : alone (do* x := ask op in k x) w = let '(b, w') := op w in alone (k b) w'.
Proof. done. Qed.

(** Both sides take the same way. *)
Ltac same_way :=
  repeat (rewrite ?alone_ask, ?alone_bind, ?io_bind_eq;
          match goal with
          | |- (let '(_, _) := ?m in _) = _ => destruct m
          | |- alone (if ?b then _ else _) _ = _ => destruct b
          | |- alone (match ?x with _ => _ end) _ = _ => destruct x
          end); try done.

Lemma alone_probe candidate w : alone (probe_steps candidate) w = probe_target candidate w.
Proof. unfold probe_steps, probe_target. cbv zeta. same_way. Qed.

Lemma alone_move t v w : alone (move_steps t v) w = move_to_vault t v w.
Proof. unfold move_steps, move_to_vault. same_way. Qed.

Lemma alone_locked e candidate hash now w : alone (locked_steps e candidate hash now) w = quarantine_locked e candidate hash now w.
Proof.
  unfold locked_steps, quarantine_locked. destruct (_ <=? _); [done|]. cbv zeta. rewrite alone_bind, alone_move, io_bind_eq.
  destruct (move_to_vault _ _ _) as [moved w1]. same_way.
Qed.

Lemma alone_rewrite e w : alone (rewrite_steps e) w = rewrite_ledger e w.
Proof. unfold rewrite_steps, rewrite_ledger. cbv zeta. same_way. Qed.

Lemma alone_move_back v o w : alone (move_back_steps v o) w = move_back v o w.
Proof. unfold move_back_steps, move_back. same_way. Qed.

Lemma alone_restore e id w : alone (restore_steps e id) w = restore e id w.
Proof.
  unfold restore_steps, restore. destruct (find_record _ _) as [[i r]|]; [|done]. destruct (q_shredded r); [done|]. destruct (q_restored r); [done|]. cbv zeta.
  rewrite alone_ask, io_bind_eq. destruct (exists_file _ w) as [there w1]. destruct (bool_decide _); [done|].
  rewrite alone_ask, io_bind_eq. destruct (exists_file _ w1) as [there2 w2]. destruct (negb _); [done|].
  rewrite alone_bind, alone_move_back, io_bind_eq. destruct (move_back _ _ _) as [[] w3]; [done|].
  rewrite alone_bind, alone_rewrite, io_bind_eq. by destruct (rewrite_ledger _ _).
Qed.

Lemma alone_shred e id w : alone (shred_steps e id) w = shred e id w.
Proof.
  unfold shred_steps, shred, wipe_steps. destruct (find_record _ _) as [[i r]|]; [|done]. destruct (q_shredded r); [done|]. destruct (q_restored r); [done|]. cbv zeta.
  rewrite alone_bind, alone_ask, io_bind_eq. destruct (exists_file _ w) as [there w1]. rewrite io_bind_eq. destruct (bool_decide _).
  - rewrite alone_ask, io_bind_eq. destruct (file_size _ w1) as [size w2]. rewrite alone_bind, io_bind_eq.
    destruct size as [z|]; [destruct (0 <? z)|].
    + change (alone (ask (overwrite_zeros (q_vault_path r) z)) w2) with (io_bind (overwrite_zeros (q_vault_path r) z) io_ret w2). rewrite io_bind_eq.
      destruct (overwrite_zeros _ _ _) as [u w3]. unfold io_ret at 1. rewrite alone_ask, io_bind_eq. destruct (remove _ w3) as [b w4]. cbn [alone]. unfold io_ret at 1 2. 
      rewrite alone_bind, alone_rewrite, io_bind_eq. by destruct (rewrite_ledger _ _).
    + cbn [alone]. unfold io_ret at 1 2. rewrite alone_ask, io_bind_eq. destruct (remove _ w2) as [b w4]. cbn [alone]. unfold io_ret at 1 2.
      rewrite alone_bind, alone_rewrite, io_bind_eq. by destruct (rewrite_ledger _ _).
    + cbn [alone]. unfold io_ret at 1 2. rewrite alone_ask, io_bind_eq. destruct (remove _ w2) as [b w4]. cbn [alone]. unfold io_ret at 1 2.
      rewrite alone_bind, alone_rewrite, io_bind_eq. by destruct (rewrite_ledger _ _).
  - cbn [alone]. unfold io_ret at 1 2. rewrite alone_bind, alone_rewrite, io_bind_eq. by destruct (rewrite_ledger _ _).
Qed.

(** Nothing but the mutex lies between the two parts of a call. *)
Lemma quarantine_parts e candidate now w :
  quarantine e candidate now w =
    if admitted e candidate
    then let '(hash, w) := alone (probe_steps candidate) w in
         match hash with Some h => alone (locked_steps e candidate h now) w | None => ((ERR_QUARANTINE_DENIED, None, e), w) end
    else ((ERR_QUARANTINE_DENIED, None, e), w).
Proof.
  unfold quarantine, admitted. destruct (bool_decide _); [|done]. destruct (empty_string _); [done|]. destruct (has_unsafe_delimiter _); [done|].
  destruct (is_protected_path _ _); [done|]. cbn [negb andb]. rewrite alone_probe, io_bind_eq. destruct (probe_target _ _) as [[h|] w1]; [|done]. by rewrite alone_locked.
Qed.

(** The requests of a holder whom nobody disturbs, one after another. *)
Lemma proceeds_alone {A} (p : prog A) w : exists n, Nat.iter n (fun s => ask_next (fst s) (snd s)) (p, w) = (let '(a, w') := alone p w in (Ret a, w')).
Proof.
  revert w. induction p as [a|B op k IH]; intros w; [by exists 0%nat|]. cbn [alone]. rewrite io_bind_eq. destruct (op w) as [b w'] eqn:E.
  destruct (IH b w') as [n Hn]. exists (S n). rewrite Nat.iter_succ_r. cbn [fst snd ask_next]. by rewrite E.
Qed.

(** ** What holds whatever others do in between *)

Definition inside (dir p : string) : Prop := exists name, p = slash_join dir name.

#[local] Opaque hash_bytes256.

Section rely.
Context (dir t : string).

(** Others change nothing inside the vault; a change of the target is noticed. *)
Record may (c : bool) (w : world) (c' : bool) (w' : world) : Prop := {
  may_vault : forall p, inside dir p -> files w' !! p = files w !! p;
  may_target : c' = false -> c = false /\ files w' !! t = files w !! t;
}.

Lemma may_refl c w : may c w c w.
Proof. by split. Qed.

Lemma may_trans c1 w1 c2 w2 c3 w3 : may c1 w1 c2 w2 -> may c2 w2 c3 w3 -> may c1 w1 c3 w3.
Proof.
  intros [H1 H2] [H3 H4]. split; [intros p Hp; by rewrite H3, H1|]. intros E. destruct (H4 E) as [E' ->]. by apply H2.
Qed.

(** However others interfere, the sequence ends in [Q]. *)
Fixpoint held {A} (p : prog A) (c : bool) (w : world) (Q : A -> bool -> world -> Prop) : Prop :=
  forall c' w', may c w c' w' ->
    match p with
    | Ret a => Q a c' w'
    | Ask op k => let '(b, w2) := op w' in held (k b) c' w2 Q
    end.

Lemma held_eq {A B} (op : io B) (k : B -> prog A) c w Q :
  held (Ask op k) c w Q <-> forall c' w', may c w c' w' -> post op w' (fun b w2 => held (k b) c' w2 Q).
Proof. done. Qed.

Lemma held_stable {A} (p : prog A) c w c' w' Q : may c w c' w' -> held p c w Q -> held p c' w' Q.
Proof. intros H Hp. destruct p; intros c2 w2 H2; apply Hp; by eapply may_trans. Qed.

Lemma held_mono {A} (p : prog A) c w (Q R : A -> bool -> world -> Prop) : (forall a c w, Q a c w -> R a c w) -> held p c w Q -> held p c w R.
Proof.
  intros HQ. revert c w. induction p as [a|B op k IH]; intros c w H; [intros c' w' Hm; by apply HQ, H|].
  apply held_eq. intros c' w' Hm. eapply post_mono; [exact (proj1 (held_eq op k c w Q) H c' w' Hm)|]. intros b w2. apply IH.
Qed.

Lemma held_bind {A B} (p : prog A) (k : A -> prog B) c w Q : held p c w (fun a c w => held (k a) c w Q) -> held (prog_bind p k) c w Q.
Proof.
  revert c w. induction p as [a|C op k' IH]; intros c w H; cbn [prog_bind]; [exact (H c w (may_refl c w))|].
  apply held_eq. intros c' w' Hm. eapply post_mono; [exact (proj1 (held_eq op k' c w _) H c' w' Hm)|]. intros b w2. apply IH.
Qed.

(** Kept by whatever others do. *)
Definition stable (P : bool -> world -> Prop) : Prop := forall c w c' w', P c w -> may c w c' w' -> P c' w'.

Lemma held_ret {A} (a : A) c w (P : bool -> world -> Prop) Q : stable P -> (forall c w, P c w -> Q a c w) -> P c w -> held (Ret a) c w Q.
Proof. intros Hs HQ HP c' w' Hm. apply HQ. by eapply Hs. Qed.

Lemma held_ask {A B} (op : io B) (k : B -> prog A) c w (P : bool -> world -> Prop) (R : B -> bool -> world -> Prop) Q :
  stable P -> (forall c w, P c w -> post op w (fun b w' => R b c w')) -> (forall b c w, R b c w -> held (k b) c w Q) -> P c w ->
  held (prog_bind (ask op) k) c w Q.
Proof.
  intros Hs Hop Hk HP. apply held_eq. intros c' w' Hm. eapply post_mono; [exact (Hop c' w' (Hs _ _ _ _ HP Hm))|]. intros b w2. apply Hk.
Qed.

(** Every request of the sequence changes files of [T] only. *)
Fixpoint touching {A} (T : string -> Prop) (p : prog A) : Prop :=
  match p with Ret _ => True | Ask op k => touches T op /\ forall b, touching T (k b) end.

Lemma touching_bind {A B} T (p : prog A) (k : A -> prog B) : touching T p -> (forall a, touching T (k a)) -> touching T (prog_bind p k).
Proof. intros H Hk. induction p as [a|C op k' IH]; [apply Hk|]. destruct H as [H1 H2]. split; [done|]. intros b. by apply IH. Qed.

Lemma held_touching {A} (p : prog A) (T : string -> Prop) (P : bool -> world -> Prop) c w :
  stable P -> (forall c w w', P c w -> (forall q, ~ T q -> files w' !! q = files w !! q) -> P c w') -> touching T p -> P c w ->
  held p c w (fun _ => P).
Proof.
  intros Hs HT. revert c w. induction p as [a|B op k IH]; intros c w Hp HP; [by apply (held_ret a c w P)|].
  destruct Hp as [H1 H2]. apply held_eq. intros c' w' Hm. eapply post_mono; [exact (post_touches op w' T H1)|]. intros b w2 Hf.
  apply IH; [done|]. eapply HT; [by eapply Hs|exact Hf].
Qed.
End rely.

Lemma touching_rewrite e : touching (ledger_files e) (rewrite_steps e).
Proof.
  unfold rewrite_steps, create_file. cbv zeta. apply touching_bind; [split; [|done]; unfold ledger_files; solve_touches|]. intros opened. destruct (negb opened); [done|].
  apply touching_bind; [split; [|done]; unfold ledger_files; solve_touches|]. intros ec. destruct ec; [|done].
  apply touching_bind; [split; [|done]; unfold ledger_files; solve_touches|]. intros _. apply touching_bind; [split; [|done]; unfold ledger_files; solve_touches|]. done.
Qed.

Lemma touching_wipe v : touching (fun p => p = v) (wipe_steps v).
Proof.
  unfold wipe_steps, exists_file, file_size. apply touching_bind; [split; [apply touches_query|done]|]. intros there. destruct (bool_decide _); [|done].
  apply touching_bind; [split; [apply touches_query|done]|]. intros size. apply touching_bind.
  - destruct size as [z|]; [|done]. destruct (0 <? z); [|done]. split; [apply touches_overwrite|done].
  - intros _. apply touching_bind; [split; [apply touches_remove|done]|]. done.
Qed.

(** ** What the probes establish *)

(** The node is a file, not empty, with the hash. *)
Definition hashed (h : string) (n : option node) : Prop :=
  exists content, n = Some (Regular content) /\ content <> [] /\ h = hash_bytes256 content.

(** The sequence changes nothing. *)
Fixpoint reads {A} (p : prog A) : Prop :=
  match p with Ret _ => True | Ask op k => (forall w, files (op w).2 = files w) /\ forall b, reads (k b) end.

(** While the target is [n], the result is in [Q]. *)
Fixpoint sees {A} (t : string) (n : option node) (p : prog A) (Q : A -> Prop) : Prop :=
  match p with
  | Ret a => Q a
  | Ask op k => forall w, files w !! t = n -> let '(b, _) := op w in sees t n (k b) Q
  end.

Definition hash_seen (n : option node) (r : option string) : Prop := match r with Some h => hashed h n | None => True end.

Lemma query_reads {A} (f : gmap string node -> option A) w : files (query f w).2 = files w.
Proof. pose proof (query_post f w) as H. unfold post in H. destruct (query f w) as [a w']. apply H. Qed.

Lemma query_sees {A B} t n (f : gmap string node -> option B) (k : option B -> prog A) (Q : A -> Prop) :
  (forall w b, files w !! t = n -> b = None \/ b = f (files w) -> sees t n (k b) Q) -> sees t n (do* x := ask (query f) in k x) Q.
Proof.
  intros H w Hw. pose proof (query_post f w) as Hq. unfold post in Hq. destruct (query f w) as [b w']. by apply (H w), Hq.
Qed.

Lemma hash_of_query t : hash_of t = io_bind (query (fun m => match status m t with Some (Regular c) => Some c | _ => None end)) (fun c => io_ret (hash_file c)).
Proof. done. Qed.

Lemma reads_ask {A B} (op : io B) (k : B -> prog A) : (forall w, files (op w).2 = files w) -> (forall b, reads (k b)) -> reads (do* x := ask op in k x).
Proof. by split. Qed.

Lemma hash_reads t w : files (hash_of t w).2 = files w.
Proof.
  rewrite hash_of_query, io_bind_eq. pose proof (query_reads (fun m => match status m t with Some (Regular c) => Some c | _ => None end) w) as H. by destruct (query _ w).
Qed.

Lemma probe_reads candidate : reads (probe_steps candidate).
Proof.
  unfold probe_steps, is_symlink, is_regular_file, file_size. cbv zeta. apply reads_ask; [intros w; apply query_reads|]. intros link. destruct (negb _); [done|].
  apply reads_ask; [intros w; apply query_reads|]. intros regular. destruct (negb _); [done|]. apply reads_ask; [intros w; apply query_reads|]. intros [size|]; [|done].
  destruct (_ || _); [done|]. apply reads_ask; [intros w; apply hash_reads|]. intros h. destruct (empty_string h); [done|]. by destruct (_ && _).
Qed.

Lemma status_no_link m t n : m !! t = Some n -> (forall l, n <> Symlink l) -> status m t = Some n.
Proof. intros H Hn. unfold status. cbn [follow]. rewrite H. destruct n; try done. by destruct (Hn target). Qed.

Lemma probe_sees candidate n : sees (c_target_path candidate) n (probe_steps candidate) (hash_seen n).
Proof.
  unfold probe_steps, is_symlink, is_regular_file, file_size. set (t := c_target_path candidate). cbv zeta. apply query_sees. intros w link Hw Hlink.
  destruct (bool_decide_reflect (link = Some false)) as [->|]; cbn [negb]; [|done]. destruct Hlink as [|Hlink]; [done|]. rewrite Hw in Hlink.
  destruct n as [n|]; [|done]. assert (Hn : forall l, n <> Symlink l) by by intros l ->. clear w Hw Hlink.
  apply query_sees. intros w regular Hw Hreg. destruct (bool_decide_reflect (regular = Some true)) as [->|]; cbn [negb]; [|done].
  destruct Hreg as [|Hreg]; [done|]. rewrite (status_no_link _ _ _ Hw Hn) in Hreg. destruct n as [content| |]; [|done..]. clear w Hw Hreg.
  apply query_sees. intros w size Hw Hsize. destruct size as [size|]; [|done]. destruct Hsize as [|Hsize]; [done|].
  rewrite (status_regular _ _ _ Hw) in Hsize. injection Hsize as ->. destruct ((_ =? 0) || _) eqn:Hz; [done|].
  apply orb_false_iff in Hz as [Hz _]. apply Z.eqb_neq in Hz. clear w Hw.
  intros w Hw. rewrite hash_of_query, io_bind_eq.
  pose proof (query_post (fun m => match status m t with Some (Regular c) => Some c | _ => None end) w) as Hq. unfold post in Hq.
  destruct (query _ w) as [c w']. destruct Hq as [_ Hq]. rewrite (status_regular _ _ _ Hw) in Hq. unfold io_ret. cbn [prog_bind].
  destruct Hq as [-> | ->]; [done|]. rewrite hash_file_bytes. destruct (empty_string _); [done|]. destruct (_ && _); [done|].
  exists content. split_and!; [done| |done]. intros ->. cbn in Hz. lia.
Qed.

(** ** What the vault keeps *)

(** A record whose file must be there; the hash of a disturbed one says nothing. *)
Definition file_kept (D : list Z) (w : world) (r : QuarantineRecord) : Prop :=
  exists n, files w !! q_vault_path r = Some n /\ (~ In (q_id r) D -> hashed (q_sha256 r) (Some n)).

Record vault_kept (D : list Z) (e : QuarantineExecutor) (w : world) : Prop := {
  vk_path : ledger_path_ e = slash_join (vault_dir_ e) "ledger.txt";
  vk_next : 0 <= next_id_ e;
  vk_ids : forall i r, ledger_ e !! i = Some r -> 0 <= q_id r < next_id_ e;
  vk_nodup : NoDup (q_id <$> ledger_ e);
  vk_vault : forall i r, ledger_ e !! i = Some r -> q_vault_path r = vault_path_of e (q_id r) /\ ~ inside (vault_dir_ e) (q_original_path r);
  vk_count : Z.of_nat (length (ledger_ e)) <= MAX_LEDGER_RECORDS;
  vk_kept : forall i r, ledger_ e !! i = Some r -> q_restored r = false -> q_shredded r = false -> file_kept D w r;
}.

Lemma vault_ok_kept e w : vault_ok e w -> vault_kept [] e w.
Proof.
  intros []. split; try assumption. intros i r Hi Hr Hs. destruct (vo_kept i r Hi Hr Hs) as (content & H1 & H2 & H3). exists (Regular content). split; [done|].
  intros _. by exists content.
Qed.

Lemma kept_frame D e w w' : (forall i r, ledger_ e !! i = Some r -> files w' !! q_vault_path r = files w !! q_vault_path r) -> vault_kept D e w -> vault_kept D e w'.
Proof. intros Hf []. split; try assumption. intros i r Hi Hr Hs. unfold file_kept. rewrite (Hf i r Hi). by eapply vk_kept0. Qed.

Lemma kept_inside D e w i r : vault_kept D e w -> ledger_ e !! i = Some r -> inside (vault_dir_ e) (q_vault_path r).
Proof. intros H Hi. destruct (vk_vault _ _ _ H i r Hi) as [-> _]. by eexists. Qed.

Lemma kept_stable D e t : stable (vault_dir_ e) t (fun _ => vault_kept D e).
Proof. intros c w c' w' Hk [Hm _]. eapply kept_frame; [|exact Hk]. intros i r Hi. apply Hm. by eapply kept_inside. Qed.

Lemma kept_not_ledger D e w i r : vault_kept D e w -> ledger_ e !! i = Some r -> ~ ledger_files e (q_vault_path r).
Proof.
  intros Hk Hi. destruct (vk_vault _ _ _ Hk i r Hi) as [-> _]. destruct (vault_path_not_ledger e (q_id r) (vk_path _ _ _ Hk)). by intros [|].
Qed.

Lemma kept_other D e w i r j : vault_kept D e w -> ledger_ e !! i = Some r -> 0 <= j -> j <> q_id r -> q_vault_path r <> vault_path_of e j.
Proof.
  intros Hk Hi Hj Hne. destruct (vk_vault _ _ _ Hk i r Hi) as [-> _]. intros E%vault_path_inj; [done| |done]. by destruct (vk_ids _ _ _ Hk i r Hi).
Qed.

Lemma kept_distinct D e w i j r s : vault_kept D e w -> ledger_ e !! i = Some r -> ledger_ e !! j = Some s -> i <> j -> q_vault_path s <> q_vault_path r.
Proof.
  intros Hk Hi Hj Hij. destruct (vk_vault _ _ _ Hk i r Hi) as [-> _]. eapply kept_other; [exact Hk|exact Hj|by apply (vk_ids _ _ _ Hk i)|].
  intros E. apply Hij. eapply (NoDup_lookup (q_id <$> ledger_ e)); [apply (vk_nodup _ _ _ Hk)|..]; rewrite list_lookup_fmap; [by rewrite Hi|]. by rewrite Hj, E.
Qed.

(** The files of the vault but one and those of the ledger are as in [w0]. *)
Definition rest_kept (e : QuarantineExecutor) (v : string) (w0 w : world) : Prop :=
  forall p, inside (vault_dir_ e) p -> p <> v -> ~ ledger_files e p -> files w !! p = files w0 !! p.

Lemma rest_stable e v w0 t : stable (vault_dir_ e) t (fun _ => rest_kept e v w0).
Proof. intros c w c' w' Hr [Hm _] p Hp Hv Hl. rewrite Hm by done. by apply Hr. Qed.

Lemma rest_touched e v w0 w w' (T : string -> Prop) : (forall p, T p -> inside (vault_dir_ e) p -> p = v \/ ledger_files e p) ->
  rest_kept e v w0 w -> (forall p, ~ T p -> files w' !! p = files w !! p) -> rest_kept e v w0 w'.
Proof. intros HT Hr Hf p Hp Hv Hl. rewrite Hf; [by apply Hr|]. intros H. by destruct (HT p H Hp). Qed.

(** ** The section of [quarantine] *)

Section moving.
Context (D : list Z) (e : QuarantineExecutor) (w0 : world) (candidate : RemediationCandidate) (h : string).
Hypothesis Hout : ~ inside (vault_dir_ e) (c_target_path candidate).

#[local] Notation t := (c_target_path candidate).
#[local] Notation v := (vault_path_of e (next_id_ e)).

Definition before_move (c : bool) (w : world) : Prop := rest_kept e v w0 w /\ (c = false -> hashed h (files w !! t)).

Definition after_move (c : bool) (w : world) : Prop :=
  rest_kept e v w0 w /\ exists n, files w !! v = Some n /\ (c = false -> hashed h (Some n)).

Lemma before_stable : stable (vault_dir_ e) t before_move.
Proof.
  intros c w c' w' [H1 H2] Hm. split; [by apply (rest_stable e v w0 t c w c' w')|]. intros E. destruct (may_target _ _ _ _ _ _ Hm E) as [E' ->]. by apply H2.
Qed.

Lemma after_stable : stable (vault_dir_ e) t after_move.
Proof.
  intros c w c' w' [H1 (n & H2 & H3)] Hm. split; [by apply (rest_stable e v w0 t c w c' w')|]. exists n. split.
  - rewrite (may_vault _ _ _ _ _ _ Hm); [done|]. by eexists.
  - intros E. destruct (may_target _ _ _ _ _ _ Hm E) as [E' _]. by apply H3.
Qed.

Lemma target_not_vault : v <> t.
Proof using Hout. intros E. apply Hout. rewrite <- E. by eexists. Qed.

Lemma rename_moves c w : before_move c w -> post (rename t v) w (fun ec w' => if ec : bool then before_move c w' else after_move c w').
Proof using Hout.
  intros [Hr Hh]. eapply post_mono; [apply post_and; [apply rename_post|apply post_touches, touches_rename]|]. intros [] w' [H Hf].
  - unfold before_move, rest_kept. by rewrite H.
  - destruct H as (n & Hn & E). split.
    + eapply rest_touched; [|exact Hr|exact Hf]. intros p [-> | ->] Hp; [done|by left].
    + exists n. split; [rewrite E; apply lookup_insert_eq|]. rewrite <- Hn. exact Hh.
Qed.

Lemma copy_moves c w : before_move c w ->
  post (copy_file false t v) w (fun ec w' => if ec : bool then rest_kept e v w0 w' else after_move c w').
Proof.
  intros [Hr Hh]. eapply post_mono; [apply post_and; [apply copy_post|apply post_touches, touches_copy]|]. intros ec w' [H Hf].
  assert (Hr' : rest_kept e v w0 w') by (eapply rest_touched; [|exact Hr|exact Hf]; intros p -> _; by left).
  destruct H as [[-> _]|(content & n & Hs & _ & E & Hn)]; [done|]. destruct ec; [done|]. split; [done|].
  exists (Regular (take n content)). split; [rewrite E; apply lookup_insert_eq|]. rewrite (Hn eq_refl). intros Hc. destruct (Hh Hc) as (content' & Ht & Hrest).
  rewrite (status_regular _ _ _ Ht) in Hs. injection Hs as <-. by exists content'.
Qed.

Lemma remove_moves c w : after_move c w -> post (remove t) w (fun ec w' => after_move c w').
Proof using Hout.
  intros [Hr (n & Hv & Hn)]. eapply post_mono; [apply post_touches, touches_remove|]. intros ec w' Hf. split.
  - eapply rest_touched; [|exact Hr|exact Hf]. by intros p ->.
  - exists n. split; [|done]. rewrite Hf; [done|]. exact target_not_vault.
Qed.

Lemma move_held c w (k : bool -> prog (ErrorCode * option QuarantineRecord * QuarantineExecutor)) R :
  (forall moved c w, (if moved : bool then after_move c w else rest_kept e v w0 w) -> held (vault_dir_ e) t (k moved) c w R) ->
  before_move c w -> held (vault_dir_ e) t (prog_bind (move_steps t v) k) c w R.
Proof using Hout.
  intros Hk Hb. apply held_bind. unfold move_steps.
  assert (Hend : forall (moved : bool) c w, (if moved then after_move c w else rest_kept e v w0 w) ->
            held (vault_dir_ e) t (Ret moved) c w (fun a c w => held (vault_dir_ e) t (k a) c w R)).
  { intros moved c1 w1 H1. apply (held_ret _ _ moved c1 w1 (fun c w => if moved then after_move c w else rest_kept e v w0 w)); [|intros c2 w2; apply Hk|exact H1].
    destruct moved; [exact after_stable|apply rest_stable]. }
  eapply held_ask; [exact before_stable|exact rename_moves| |exact Hb]. intros [] c1 w1 H1; [|by apply Hend].
  eapply held_ask; [exact before_stable|exact copy_moves| |exact H1]. intros [] c2 w2 H2; [by apply Hend|].
  eapply held_ask; [exact after_stable|exact remove_moves| |exact H2]. intros [] c3 w3 H3; [|by apply Hend].
  eapply (held_ask _ _ _ _ _ _ after_move (fun _ _ => rest_kept e v w0)); [exact after_stable| |intros b c4 w4 H4; by apply Hend|exact H3].
  intros c4 w4 [Hr _]. eapply post_mono; [apply post_touches, touches_remove|]. intros b w5 Hf. eapply rest_touched; [|exact Hr|exact Hf]. intros p -> _. by left.
Qed.
End moving.

(** What a section of [quarantine] leaves; its record is disturbed where the target was changed. *)
Definition moved_result (D : list Z) (dir : string) (bound : Z) (res : ErrorCode * option QuarantineRecord * QuarantineExecutor) (c : bool) (w : world) : Prop :=
  let '(_, r, e) := res in
  vault_kept match r with Some r => if c then q_id r :: D else D | None => D end e w /\ vault_dir_ e = dir /\ next_id_ e <= bound.

Lemma more_disturbed D id e w : vault_kept D e w -> vault_kept (id :: D) e w.
Proof.
  intros []. split; try assumption. intros i r Hi Hr Hs. destruct (vk_kept0 i r Hi Hr Hs) as (n & H1 & H2). exists n. split; [done|]. intros Hin. apply H2. intros H. apply Hin. by right.
Qed.

Lemma kept_skip D e w : vault_kept D e w -> next_id_ e + 1 < 2 ^ 64 ->
  vault_kept D (Executor (vault_dir_ e) (ledger_path_ e) (qe_policy e) (ledger_ e) (u64 (next_id_ e + 1))) w.
Proof.
  intros [] Hn. rewrite u64_next by done. split; cbn [ledger_path_ vault_dir_ ledger_ next_id_]; try assumption; [lia|]. intros i r Hi. specialize (vk_ids0 i r Hi). lia.
Qed.

Lemma kept_rest D e w0 w : vault_kept D e w0 -> rest_kept e (vault_path_of e (next_id_ e)) w0 w -> vault_kept D e w.
Proof.
  intros Hk Hr. eapply kept_frame; [|exact Hk]. intros i r Hi. apply Hr; [by eapply kept_inside| |by eapply kept_not_ledger].
  eapply kept_other; [done..|apply (vk_next _ _ _ Hk)|]. pose proof (vk_ids _ _ _ Hk i r Hi). lia.
Qed.

(** The new record. *)
Lemma kept_moved D e w candidate h now (c : bool) :
  vault_kept D e w -> ~ inside (vault_dir_ e) (c_target_path candidate) -> next_id_ e + 1 < 2 ^ 64 -> Z.of_nat (length (ledger_ e)) < MAX_LEDGER_RECORDS ->
  (exists n, files w !! vault_path_of e (next_id_ e) = Some n /\ (c = false -> hashed h (Some n))) ->
  vault_kept (if c then next_id_ e :: D else D)
    (Executor (vault_dir_ e) (ledger_path_ e) (qe_policy e)
       (ledger_ e ++ [QRecord (next_id_ e) (c_finding_id candidate) (c_target_path candidate) (vault_path_of e (next_id_ e)) h now false false]) (u64 (next_id_ e + 1))) w.
Proof.
  intros Hk Hout Hn Hlen (n & Hv & Hh). rewrite u64_next by (done || apply (vk_next _ _ _ Hk)). pose proof (vk_next _ _ _ Hk) as H0.
  assert (Hk' : vault_kept (if c then next_id_ e :: D else D) e w) by (destruct c; [by apply more_disturbed|done]).
  destruct Hk' as [Hp _ Hids Hnd Hva Hc Hkept]. split; cbn [ledger_path_ vault_dir_ ledger_ next_id_]; [exact Hp|lia|..].
  - intros i s [Hi|[_ Hi]]%lookup_app_Some; [specialize (Hids i s Hi); lia|]. apply list_lookup_singleton_Some in Hi as [_ <-]. cbn. lia.
  - rewrite fmap_app. apply NoDup_app. split; [done|]. split; [|apply NoDup_singleton].
    intros x Hx Hs. apply list_elem_of_singleton in Hs. subst x. apply list_elem_of_fmap in Hx as (s & E & Hin).
    apply list_elem_of_lookup in Hin as [i Hi]. pose proof (Hids i s Hi). cbn in E. lia.
  - intros i s [Hi|[_ Hi]]%lookup_app_Some; [by eapply Hva|]. by apply list_lookup_singleton_Some in Hi as [_ <-].
  - rewrite length_app. cbn. lia.
  - intros i s [Hi|[_ Hi]]%lookup_app_Some; [by eapply Hkept|]. apply list_lookup_singleton_Some in Hi as [_ <-]. cbn. intros _ _.
    exists n. split; [exact Hv|]. intros Hin. apply Hh. destruct c; [|done]. exfalso. apply Hin. by left.
Qed.

Lemma locked_held D e w candidate h now c :
  vault_kept D e w -> ~ inside (vault_dir_ e) (c_target_path candidate) -> next_id_ e + 1 < 2 ^ 64 -> (c = false -> hashed h (files w !! c_target_path candidate)) ->
  held (vault_dir_ e) (c_target_path candidate) (locked_steps e candidate h now) c w (moved_result D (vault_dir_ e) (next_id_ e + 1)).
Proof.
  intros Hk Hout Hn Hh. unfold locked_steps. destruct (Z.leb_spec MAX_LEDGER_RECORDS (Z.of_nat (length (ledger_ e)))).
  { eapply held_ret; [apply (kept_stable D e)| |exact Hk]. intros c1 w1 H1. split; [done|]. split; [done|lia]. }
  cbv zeta. change (vault_path_of (Executor _ _ _ _ _) _) with (vault_path_of e (next_id_ e)).
  apply (move_held e w candidate h Hout); [|by split]. pose proof (vk_next _ _ _ Hk) as H0. intros moved c1 w1 H1. destruct moved; cbn [negb].
  - eapply (held_ask _ _ _ _ _ _ _ (fun _ => after_move e w h)); [apply after_stable| | |exact H1].
    + intros c2 w2 [Hr (n & Hv & Hc)]. eapply post_mono; [apply post_touches, touches_append|]. intros u w3 Hf. cbn [ledger_path_ set_ledger] in Hf. split.
      * eapply rest_touched; [|exact Hr|exact Hf]. intros p -> _. right. by left.
      * exists n. split; [|done]. rewrite Hf; [done|]. apply (vault_path_not_ledger e (next_id_ e) (vk_path _ _ _ Hk)).
    + intros _ c2 w2 H2. eapply held_ret; [apply after_stable| |exact H2]. intros c3 w3 [Hr Hv]. cbn [moved_result]. split; [|split; [done|cbn; rewrite u64_next by done; lia]].
      exact (kept_moved D e w3 candidate h now c3 (kept_rest D e w w3 Hk Hr) Hout Hn H Hv).
  - eapply (held_ret _ _ _ _ _ (fun _ => rest_kept e (vault_path_of e (next_id_ e)) w)); [apply rest_stable| |exact H1]. intros c2 w2 H2. cbn [moved_result].
    split; [|split; [done|cbn; rewrite u64_next by done; lia]]. apply kept_skip; [|done]. by eapply kept_rest.
Qed.

(** ** The sections of [restore] and [shred] *)

Definition settled_result (D : list Z) (dir : string) (bound : Z) (res : ErrorCode * QuarantineExecutor) (c : bool) (w : world) : Prop :=
  vault_kept D res.2 w /\ vault_dir_ res.2 = dir /\ next_id_ res.2 <= bound.

Section settling.
Context (D : list Z) (e : QuarantineExecutor) (t : string) (i : nat) (r : QuarantineRecord) (w0 : world).
Hypothesis (Hk0 : vault_kept D e w0) (Hi : ledger_ e !! i = Some r).

#[local] Notation v := (q_vault_path r).

Lemma kept_marked mark w :
  q_id (mark r) = q_id r /\ q_vault_path (mark r) = v /\ q_original_path (mark r) = q_original_path r /\ (q_restored (mark r) = true \/ q_shredded (mark r) = true) ->
  rest_kept e v w0 w -> vault_kept D (set_ledger e (<[i := mark r]> (ledger_ e))) w.
Proof using Hk0 Hi.
  intros (Hid & Hvp & Hop & Hm) Hrest.
  assert (Hl : forall j s, <[i := mark r]> (ledger_ e) !! j = Some s -> (j = i /\ s = mark r) \/ (j <> i /\ ledger_ e !! j = Some s)).
  { intros j s. rewrite list_lookup_insert_Some. intros [(<- & <- & _)|[]]; [by left|right; by split]. }
  pose proof Hk0 as [Hp Hn Hids Hnd Hva Hc Hk]. split; cbn [set_ledger ledger_path_ vault_dir_ ledger_ next_id_]; [exact Hp|exact Hn|..].
  - intros j s [[-> ->]|[_ Hj]]%Hl; [rewrite Hid; by eapply Hids|by eapply Hids].
  - rewrite list_fmap_insert, list_insert_id; [done|]. by rewrite list_lookup_fmap, Hi, Hid.
  - intros j s [[-> ->]|[_ Hj]]%Hl; [rewrite Hid, Hvp, Hop; by eapply Hva|by eapply Hva].
  - by rewrite length_insert.
  - intros j s [[-> ->]|[Hij Hj]]%Hl Hsr Hss; [destruct Hm; congruence|]. unfold file_kept.
    rewrite Hrest; [by eapply Hk|by eapply kept_inside|by eapply (kept_distinct D e w0 i j)|by eapply kept_not_ledger].
Qed.

Lemma settled_same_held (code : ErrorCode) c w : vault_kept D e w -> held (vault_dir_ e) t (Ret (code, e)) c w (settled_result D (vault_dir_ e) (next_id_ e)).
Proof. intros Hk. eapply held_ret; [apply (kept_stable D e)| |exact Hk]. intros c1 w1 H1. split; [done|]. split; [done|]. cbn. lia. Qed.

(** The mark is set, and the ledger written anew. *)
Lemma marked_held mark c w :
  q_id (mark r) = q_id r /\ q_vault_path (mark r) = v /\ q_original_path (mark r) = q_original_path r /\ (q_restored (mark r) = true \/ q_shredded (mark r) = true) ->
  rest_kept e v w0 w ->
  held (vault_dir_ e) t (do* _ := rewrite_steps (set_ledger e (<[i := mark r]> (ledger_ e))) in Ret (OK, set_ledger e (<[i := mark r]> (ledger_ e)))) c w
    (settled_result D (vault_dir_ e) (next_id_ e)).
Proof using Hk0 Hi.
  intros Hmark Hr. apply held_bind. eapply held_mono.
  2: { eapply (held_touching _ _ _ _ (fun _ => rest_kept e v w0)); [apply rest_stable| |apply touching_rewrite|exact Hr].
       intros _ w1 w2 H1 Hf. eapply rest_touched; [|exact H1|exact Hf]. intros p Hp _. right. exact Hp. }
  intros [] c1 w1 H1. eapply (held_ret _ _ _ _ _ (fun _ => rest_kept e v w0)); [apply rest_stable| |exact H1]. intros c2 w2 H2. split; [by apply kept_marked|]. split; [done|]. cbn. lia.
Qed.

End settling.

Lemma restored_mark r : q_id (mark_restored r) = q_id r /\ q_vault_path (mark_restored r) = q_vault_path r /\
  q_original_path (mark_restored r) = q_original_path r /\ (q_restored (mark_restored r) = true \/ q_shredded (mark_restored r) = true).
Proof. repeat split. by left. Qed.

Lemma shredded_mark r : q_id (mark_shredded r) = q_id r /\ q_vault_path (mark_shredded r) = q_vault_path r /\
  q_original_path (mark_shredded r) = q_original_path r /\ (q_restored (mark_shredded r) = true \/ q_shredded (mark_shredded r) = true).
Proof. repeat split. by right. Qed.

Lemma exists_keeps {P : world -> Prop} p w : (forall w', files w' = files w -> P w') -> post (exists_file p) w (fun _ w' => P w').
Proof. intros H. unfold exists_file. eapply post_mono; [apply query_post|]. intros b w' [E _]. by apply H. Qed.

Lemma kept_files D e w w' : files w' = files w -> vault_kept D e w -> vault_kept D e w'.
Proof. intros E. apply kept_frame. intros i r _. by rewrite E. Qed.

Lemma kept_and_rest_stable D e v w0 t : stable (vault_dir_ e) t (fun _ w => vault_kept D e w /\ rest_kept e v w0 w).
Proof. intros c w c' w' [H1 H2] Hm. split; [by apply (kept_stable D e t c w c')|by apply (rest_stable e v w0 t c w c')]. Qed.

Lemma move_back_held {A} D e t i r w0 c w (k : bool -> prog A) R :
  vault_kept D e w0 -> ledger_ e !! i = Some r -> vault_kept D e w -> rest_kept e (q_vault_path r) w0 w ->
  (forall (failed : bool) c w, (if failed then vault_kept D e w else rest_kept e (q_vault_path r) w0 w) -> held (vault_dir_ e) t (k failed) c w R) ->
  held (vault_dir_ e) t (prog_bind (move_back_steps (q_vault_path r) (q_original_path r)) k) c w R.
Proof.
  intros Hk0 Hi Hk Hr Hend. set (v := q_vault_path r) in *. set (o := q_original_path r). apply held_bind. unfold move_back_steps.
  destruct (vk_vault _ _ _ Hk0 i r Hi) as [_ Ho]. fold o in Ho.
  assert (Hret : forall (failed : bool) c w, (if failed then vault_kept D e w else rest_kept e v w0 w) ->
            held (vault_dir_ e) t (Ret failed) c w (fun a c w => held (vault_dir_ e) t (k a) c w R)).
  { intros failed c1 w1 H1. apply (held_ret _ _ failed c1 w1 (fun _ w => if failed then vault_kept D e w else rest_kept e v w0 w)); [|intros c2 w2; apply Hend|exact H1].
    destruct failed; [apply kept_stable|apply rest_stable]. }
  eapply (held_ask _ _ _ _ _ _ (fun _ w => vault_kept D e w /\ rest_kept e v w0 w)
            (fun (ec : bool) _ w => if ec then vault_kept D e w /\ rest_kept e v w0 w else rest_kept e v w0 w)); [apply kept_and_rest_stable| | |by split].
  { intros c1 w1 [H1 H2]. eapply post_mono; [apply post_and; [apply rename_post|apply post_touches, touches_rename]|]. intros [] w2 [E Hf].
    - split; [by eapply kept_files|]. intros p Hp Hv Hl. rewrite E. by apply H2.
    - eapply rest_touched; [|exact H2|exact Hf]. intros p [-> | ->] Hp; [by left|done]. }
  intros [] c1 w1 H1; [|by apply Hret].
  eapply (held_ask _ _ _ _ _ _ (fun _ w => vault_kept D e w /\ rest_kept e v w0 w) (fun _ _ w => vault_kept D e w /\ rest_kept e v w0 w)); [apply kept_and_rest_stable| | |exact H1].
  { intros c2 w2 [H2 H3]. eapply post_mono; [apply post_touches, touches_copy|]. intros ec w3 Hf. split.
    - eapply kept_frame; [|exact H2]. intros j s Hj. apply Hf. intros E. apply Ho. fold o. rewrite <- E. by eapply kept_inside.
    - eapply rest_touched; [|exact H3|exact Hf]. by intros p ->. }
  intros [] c2 w2 [H2 H3]; [by apply Hret|].
  eapply (held_ask _ _ _ _ _ _ (fun _ => rest_kept e v w0) (fun _ _ => rest_kept e v w0)); [apply rest_stable| |intros b c3 w3 H4; by apply Hret|exact H3].
  intros c3 w3 H4. eapply post_mono; [apply post_touches, touches_remove|]. intros b w4 Hf. eapply rest_touched; [|exact H4|exact Hf]. intros p -> _. by left.
Qed.

Lemma restore_held D e t id c w : vault_kept D e w ->
  held (vault_dir_ e) t (restore_steps e id) c w (settled_result D (vault_dir_ e) (next_id_ e)).
Proof.
  intros Hk. unfold restore_steps. pose proof (find_record_spec id (ledger_ e)) as Hf. destruct (find_record id (ledger_ e)) as [[i r]|]; [|by apply settled_same_held].
  destruct Hf as [Hi _]. destruct (q_shredded r); [by apply settled_same_held|]. destruct (q_restored r); [by apply settled_same_held|]. cbv zeta.
  set (P := fun (_ : bool) w1 => vault_kept D e w1 /\ rest_kept e (q_vault_path r) w w1).
  assert (Hquery : forall p (k : option bool -> prog (ErrorCode * QuarantineExecutor)) c1 w1 R, (forall b c2 w2, P c2 w2 -> held (vault_dir_ e) t (k b) c2 w2 R) -> P c1 w1 ->
            held (vault_dir_ e) t (do* x := ask (exists_file p) in k x) c1 w1 R).
  { intros p k c1 w1 R Hb H1. eapply (held_ask _ _ _ _ _ _ P (fun _ => P)); [apply kept_and_rest_stable| |exact Hb|exact H1].
    intros c2 w2 [H2 H3]. apply exists_keeps. intros w3 E. split; [by eapply kept_files|]. intros q Hq Hv Hl. rewrite E. by apply H3. }
  apply Hquery; [|by split]. intros there c1 w1 H1. destruct (bool_decide _); [apply settled_same_held, H1|].
  apply Hquery; [|exact H1]. intros there2 c2 w2 H2. destruct (negb _); [apply settled_same_held, H2|].
  apply (move_back_held D e t i r w); [done|done|apply H2|apply H2|]. intros [] c3 w3 H3; [by apply settled_same_held|].
  apply (marked_held D e t i r w Hk Hi mark_restored); [apply restored_mark|done].
Qed.

Lemma shred_held D e t id c w : vault_kept D e w ->
  held (vault_dir_ e) t (shred_steps e id) c w (settled_result D (vault_dir_ e) (next_id_ e)).
Proof.
  intros Hk. unfold shred_steps. pose proof (find_record_spec id (ledger_ e)) as Hf. destruct (find_record id (ledger_ e)) as [[i r]|]; [|by apply settled_same_held].
  destruct Hf as [Hi _]. destruct (q_shredded r); [by apply settled_same_held|]. destruct (q_restored r); [by apply settled_same_held|]. cbv zeta.
  apply held_bind. eapply held_mono.
  2: { eapply (held_touching _ _ _ _ (fun _ => rest_kept e (q_vault_path r) w)); [apply rest_stable| |apply touching_wipe|].
       - intros _ w1 w2 H1 Hf. eapply rest_touched; [|exact H1|exact Hf]. intros p -> _. by left.
       - done. }
  intros [] c1 w1 H1. apply (marked_held D e t i r w Hk Hi mark_shredded); [apply shredded_mark|done].
Qed.

(** ** Every step *)

Definition call_ok (dir : string) (m : gmap string node) (c : checking) : Prop :=
  ~ inside dir (c_target_path (ck_candidate c)) /\ reads (ck_rest c) /\
  (ck_changed c = false -> sees (c_target_path (ck_candidate c)) (m !! c_target_path (ck_candidate c)) (ck_rest c) (hash_seen (m !! c_target_path (ck_candidate c)))).

Definition holder_ok (dir : string) (bound : Z) (st : vault) : Prop :=
  match holder st with
  | Nobody => vault_kept (disturbed st) (executor st) (storage st) /\ vault_dir_ (executor st) = dir /\ next_id_ (executor st) <= bound
  | Moving candidate rest changed => held dir (c_target_path candidate) rest changed (storage st) (moved_result (disturbed st) dir bound)
  | Settling rest => held dir EmptyString rest true (storage st) (settled_result (disturbed st) dir bound)
  end.

Record runs_ok (dir : string) (bound : Z) (st : vault) : Prop := {
  rk_calls : Forall (call_ok dir (files (storage st))) (checks st);
  rk_holder : holder_ok dir bound st;
}.

(** The targets of the calls, and the files others change, are outside the vault. *)
Definition names_outside (dir : string) (l : label) : Prop :=
  match l with
  | Begins candidate => ~ inside dir (c_target_path candidate)
  | Others p _ => ~ inside dir p
  | _ => True
  end.

Lemma moved_bound D dir b b' res c w : b <= b' -> moved_result D dir b res c w -> moved_result D dir b' res c w.
Proof. destruct res as [[code r] e]. intros Hb (H1 & H2 & H3). split; [done|]. split; [done|lia]. Qed.

Lemma settled_bound D dir b b' res c w : b <= b' -> settled_result D dir b res c w -> settled_result D dir b' res c w.
Proof. intros Hb (H1 & H2 & H3). split; [done|]. split; [done|lia]. Qed.

Lemma holder_bound dir b b' st : b <= b' -> holder_ok dir b st -> holder_ok dir b' st.
Proof.
  intros Hb. unfold holder_ok. destruct (holder st) as [|candidate rest changed|rest].
  - intros (H1 & H2 & H3). split_and!; [done..|lia].
  - apply held_mono. intros a c w. by apply moved_bound.
  - apply held_mono. intros a c w. by apply settled_bound.
Qed.

Lemma call_noticed dir m m' c : call_ok dir m c -> call_ok dir m' (notice m m' c).
Proof.
  intros (H1 & H2 & H3). split; [done|]. split; [done|]. cbn [notice ck_changed ck_candidate ck_rest]. intros [Hc Hd]%orb_false_iff.
  unfold differs in Hd. apply negb_false_iff, bool_decide_eq_true in Hd. rewrite Hd. by apply H3.
Qed.

Lemma calls_noticed dir m m' l : Forall (call_ok dir m) l -> Forall (call_ok dir m') (notice m m' <$> l).
Proof. intros H. apply Forall_fmap. eapply Forall_impl; [exact H|]. intros c. apply call_noticed. Qed.

(** A request of a call that checks. *)
Lemma call_asks dir w c : call_ok dir (files w) c ->
  let '(rest, w') := ask_next (ck_rest c) w in files w' = files w /\ call_ok dir (files w) (Checking (ck_candidate c) rest (ck_changed c)).
Proof.
  intros (H1 & H2 & H3). unfold call_ok. cbn [ck_candidate ck_rest ck_changed]. destruct (ck_rest c) as [a|B op k]; [by split|]. cbn [ask_next].
  destruct H2 as [Hop Hk]. specialize (Hop w). destruct (op w) as [b w'] eqn:E. cbn in Hop. split; [done|]. split; [done|]. split; [apply Hk|].
  intros Hc. specialize (H3 Hc w eq_refl). by rewrite E in H3.
Qed.

(** A request of the holder. *)
Lemma held_asks {A} dir t (p : prog A) c w Q : held dir t p c w Q -> let '(p', w') := ask_next p w in held dir t p' c w' Q.
Proof.
  destruct p as [a|B op k]; [done|]. intros H. pose proof (proj1 (held_eq dir t op k c w Q) H c w (may_refl dir t c w)) as H'. unfold post in H'. cbn [ask_next].
  by destruct (op w).
Qed.

Lemma others_may dir t p n c w : ~ inside dir p ->
  let '(_, w') := change_file p n w in may dir t c w (c || negb (bool_decide (files w' !! t = files w !! t))) w'.
Proof.
  intros Hp. pose proof (touches_change p n w) as H. destruct (change_file p n w) as [u w']. cbn in H. split.
  - intros q Hq. apply H. by intros ->.
  - intros [E1 E2]%orb_false_iff. split; [done|]. by apply negb_false_iff, bool_decide_eq_true in E2.
Qed.

Lemma enters_ok dir bound st i now : runs_ok dir bound st -> bound + 1 < 2 ^ 64 -> runs_ok dir (bound + 1) (enters st i now).
Proof.
  intros [Hc Hh] Hb. assert (Hsame : runs_ok dir (bound + 1) st) by (split; [done|]; eapply holder_bound; [|exact Hh]; lia).
  unfold enters. unfold holder_ok in Hh. destruct (holder st) eqn:Eh; [|done..]. destruct (checks st !! i) as [[candidate [hash|] changed]|] eqn:Ei; [|done..].
  destruct Hh as (Hk & Hdir & Hn). pose proof Hc as Hall. rewrite Forall_forall in Hall.
  destruct (Hall (Checking candidate (Ret hash) changed) (list_elem_of_lookup_2 _ _ _ Ei)) as (Hout & _ & Hs). cbn [ck_candidate ck_rest ck_changed] in *.
  split; cbn [checks holder storage].
  - by apply Forall_delete.
  - unfold holder_ok. cbn [holder executor storage disturbed]. destruct hash as [h|]; [|split_and!; [done..|lia]]. subst dir.
    eapply held_mono; [|apply locked_held; [exact Hk|exact Hout|lia|]]; [intros a c w; apply moved_bound; lia|]. intros Hch. exact (Hs Hch).
Qed.

Lemma leaves_ok dir bound st : runs_ok dir bound st -> runs_ok dir bound (leaves st).
Proof.
  intros [Hc Hh]. unfold leaves. unfold holder_ok in Hh.
  destruct (holder st) as [|candidate [[[code [r|]] e]|] changed|[[code e]|]] eqn:Eh; try (split; [done|unfold holder_ok; by rewrite Eh]).
  - specialize (Hh changed (storage st) (may_refl _ _ _ _)). destruct changed; (split; [done|]; exact Hh).
  - specialize (Hh changed (storage st) (may_refl _ _ _ _)). split; [by destruct changed|]. destruct changed; exact Hh.
  - specialize (Hh true (storage st) (may_refl _ _ _ _)). by split.
Qed.

Lemma vault_step_ok dir bound st l : runs_ok dir bound st -> names_outside dir l -> bound + 1 < 2 ^ 64 -> runs_ok dir (bound + 1) (vault_step st l).
Proof.
  intros Hok Hl Hb. pose proof Hok as [Hc Hh]. assert (Hsame : runs_ok dir (bound + 1) st) by (split; [done|]; eapply holder_bound; [|exact Hh]; lia).
  pose proof (rk_holder _ _ _ Hsame) as Hh'. destruct l as [candidate|i|i now|id|id| | |p n]; cbn [vault_step].
  - destruct (admitted _ _); [|done]. split; [|exact Hh']. cbn [checks storage]. apply Forall_app. split; [done|]. apply Forall_singleton.
    split; [done|]. split; [apply probe_reads|]. intros _. apply probe_sees.
  - destruct (checks st !! i) as [c|] eqn:Ei; [|done]. pose proof Hc as Hall. rewrite Forall_forall in Hall.
    pose proof (call_asks dir (storage st) c (Hall c (list_elem_of_lookup_2 _ _ _ Ei))) as Ha. destruct (ask_next _ _) as [rest w']. destruct Ha as [E Ha].
    split; cbn [checks storage].
    + rewrite E. by apply Forall_insert.
    + assert (Hm : forall t c, may dir t c (storage st) c w') by (intros t c'; split; [intros q _; by rewrite E|by rewrite E]).
      unfold holder_ok in *. cbn [holder executor storage disturbed]. destruct (holder st).
      * destruct Hh' as (H1 & H2 & H3). split_and!; [by eapply kept_files|done|done].
      * eapply held_stable; [apply Hm|exact Hh'].
      * eapply held_stable; [apply Hm|exact Hh'].
  - by apply enters_ok.
  - unfold holder_ok in Hh'. destruct (holder st) eqn:Eh; [|done..]. split; [done|]. destruct Hh' as (H1 & <- & H3). unfold holder_ok. cbn [holder with_holder storage disturbed executor].
    eapply held_mono; [|apply restore_held; exact H1]. intros a c w. by apply settled_bound.
  - unfold holder_ok in Hh'. destruct (holder st) eqn:Eh; [|done..]. split; [done|]. destruct Hh' as (H1 & <- & H3). unfold holder_ok. cbn [holder with_holder storage disturbed executor].
    eapply held_mono; [|apply shred_held; exact H1]. intros a c w. by apply settled_bound.
  - unfold holder_ok in Hh'. destruct (holder st) eqn:Eh; [done|..].
    + pose proof (held_asks _ _ _ _ _ _ Hh') as Ha. destruct (ask_next rest (storage st)) as [rest' w']. split; [by apply calls_noticed|exact Ha].
    + pose proof (held_asks _ _ _ _ _ _ Hh') as Ha. destruct (ask_next rest (storage st)) as [rest' w']. split; [by apply calls_noticed|exact Ha].
  - apply leaves_ok. exact Hsame.
  - unfold others. pose proof (fun t c => others_may dir t p n c (storage st) Hl) as Hm. destruct (change_file p n (storage st)) as [u w'].
    split; [by apply calls_noticed|]. unfold holder_ok in *. cbn [on_disk holder executor storage disturbed]. destruct (holder st).
    + destruct Hh' as (H1 & H2 & H3). split_and!; [|done|done]. subst dir. eapply (kept_stable _ _ EmptyString); [exact H1|apply (Hm EmptyString true)].
    + eapply held_stable; [apply Hm|exact Hh'].
    + eapply held_stable; [apply (Hm EmptyString true)|exact Hh'].
Qed.

Lemma run_kept dir labels bound st : runs_ok dir bound st -> Forall (names_outside dir) labels -> bound + Z.of_nat (length labels) < 2 ^ 64 ->
  runs_ok dir (bound + Z.of_nat (length labels)) (vault_run st labels).
Proof.
  revert bound st. induction labels as [|l labels IH]; intros bound st Hok Hl Hb; cbn [vault_run foldl length] in *; [by rewrite Z.add_0_r|].
  apply List.Forall_cons_iff in Hl as [Hl Hls]. replace (bound + Z.of_nat (S (length labels))) with (bound + 1 + Z.of_nat (length labels)) by lia.
  apply IH; [apply vault_step_ok; [done|done|lia]|done|lia].
Qed.

(** ** Properties *)

(** C6: calls of [quarantine], [restore] and [shred] may overlap in every way, each request to the
    file system may be refused or cut short, and between any two requests others may change any
    file outside the vault, the targets included.  When nobody holds the mutex, the ids of the
    records are distinct, there are at most 5000, and every record that was neither restored nor
    shredded has its file in the vault under its path: not empty and with the hash of its record,
    unless somebody else changed the target while the call that quarantined it ran.  The executor
    may have begun with any ledger whose files are in the vault; no call names a target inside the
    vault. *)
Theorem vault_keeps_its_files (e : QuarantineExecutor) (w : world) (labels : list label) :
  vault_ok e w -> Forall (names_outside (vault_dir_ e)) labels -> next_id_ e + Z.of_nat (length labels) < 2 ^ 64 ->
  let st := vault_run (at_rest e w) labels in
  holder st = Nobody ->
  NoDup (q_id <$> ledger_ (executor st)) /\ Z.of_nat (length (ledger_ (executor st))) <= 5000 /\
  forall i r, ledger_ (executor st) !! i = Some r -> q_restored r = false -> q_shredded r = false ->
    exists n, files (storage st) !! q_vault_path r = Some n /\
      (~ In (q_id r) (disturbed st) -> exists content, n = Regular content /\ content <> [] /\ q_sha256 r = hash_bytes256 content).
Proof.
  intros Hok Hl Hn st Hst. assert (Hinit : runs_ok (vault_dir_ e) (next_id_ e) (at_rest e w)) by (split; [constructor|]; split; [by apply vault_ok_kept|done]).
  pose proof (run_kept (vault_dir_ e) labels (next_id_ e) _ Hinit Hl Hn) as [_ Hh]. fold st in Hh. unfold holder_ok in Hh. rewrite Hst in Hh. destruct Hh as ([_ _ _ Hnd _ Hc Hk] & _).
  split_and!; [done|done|]. intros i r Hi Hr Hs. destruct (Hk i r Hi Hr Hs) as (n & H1 & H2). exists n. split; [done|]. intros Hin.
  destruct (H2 Hin) as (content & E & H3 & H4). exists content. split; [congruence|done].
Qed.

(** ** Runs *)

(** A call by itself: four probes, the section with its rename and the line of the ledger. *)
Definition whole_call (p : string) (now : Z) : list label :=
  [Begins (sample_candidate p); Probes 0; Probes 0; Probes 0; Probes 0; Enters 0 now; Proceeds; Proceeds; Leaves].

Definition a_then_b : list label :=
  whole_call "/t/a" 5 ++
  [Begins (sample_candidate "/t/b"); Others "/t/c" (Some (Regular [x63])); Probes 0; Probes 0; Probes 0; Probes 0; Restores 1; Enters 0 6] ++
  repeat Proceeds 5 ++ [Leaves; Enters 0 6; Proceeds; Proceeds; Leaves].

Example a_then_b_runs :
  let st := vault_run (at_rest sample_executor (sample_world [])) a_then_b in
  (fun r => (q_id r, q_restored r)) <$> ledger_ (executor st) = [(1, true); (2, false)] /\ disturbed st = [] /\
  files (storage st) !! "/t/a"%string = Some (Regular [x61]) /\ files (storage st) !! "/v/q_2.gcadq"%string = Some (Regular [x62]).
Proof. vm_compute. repeat split. Qed.

Lemma vault_keeps_its_files_witness :
  let st := vault_run (at_rest sample_executor (sample_world [])) a_then_b in
  exists r content, ledger_ (executor st) !! 1%nat = Some r /\ files (storage st) !! q_vault_path r = Some (Regular content) /\ q_sha256 r = hash_bytes256 content.
Proof.
  intros st.
  assert (Ho : Forall (names_outside "/v") a_then_b).
  { repeat apply List.Forall_cons; try exact I; [apply outside_sample; reflexivity..|apply List.Forall_nil]. }
  assert (Hh : holder st = Nobody) by (vm_compute; reflexivity). assert (Hd : disturbed st = []) by (vm_compute; reflexivity).
  pose proof (vault_keeps_its_files sample_executor (sample_world []) a_then_b (sample_vault_ok []) Ho eq_refl Hh) as (_ & _ & H). fold st in H.
  assert (Hr : exists r, ledger_ (executor st) !! 1%nat = Some r /\ q_restored r = false /\ q_shredded r = false) by (vm_compute; eexists; repeat split).
  destruct Hr as (r & Hr & H1 & H2). destruct (H 1%nat r Hr H1 H2) as (n & Hn & Hc). rewrite Hd in Hc. destruct (Hc (in_nil (a := q_id r))) as (content & -> & _ & Hh').
  exists r, content. exact (conj Hr (conj Hn Hh')).
Defined.

(** A file replaced between its hash and its move is quarantined under the hash of the old one. *)
Example replaced_before_the_move :
  let st := vault_run (at_rest sample_executor (sample_world []))
    [Begins (sample_candidate "/t/a"); Probes 0; Probes 0; Probes 0; Probes 0; Others "/t/a" (Some (Regular [x62])); Enters 0 5; Proceeds; Proceeds; Leaves] in
  disturbed st = [1] /\ (fun r => String.eqb (q_sha256 r) (hash_bytes256 [x61])) <$> ledger_ (executor st) = [true] /\
  files (storage st) !! "/v/q_1.gcadq"%string = Some (Regular [x62]).
Proof. vm_compute. repeat split. Qed.

(** A target inside the vault is not refused: its own record loses its file to the new one. *)
Example vault_file_quarantined :
  let st := vault_run (at_rest sample_executor (sample_world [])) (whole_call "/t/a" 5 ++ whole_call "/v/q_1.gcadq" 6) in
  (fun r => (q_id r, q_restored r, q_shredded r, q_vault_path r)) <$> ledger_ (executor st) =
    [(1, false, false, "/v/q_1.gcadq"%string); (2, false, false, "/v/q_2.gcadq"%string)] /\
  files (storage st) !! "/v/q_1.gcadq"%string = None.
Proof. vm_compute. repeat split. Qed.
