(* ===== verification/ArtifactTrust.v ===== *)
(** * ArtifactTrust: what one file says about itself

    Models src/src/security/artifact_trust_engine.cpp as built for Windows, over the file
    system of FileSystem.v.  [std::sort] and [std::log2] are arguments. *)
From S2P Require Import Prelude Float64 Entropy Asn1 Sha2 Observation Text PeHash Authenticode FileSystem.

Definition MAX_INSPECTION_BYTES : Z := 4 * 1024 * 1024.
Definition MAX_SIGNATURE_CHECK_BYTES : Z := 512 * 1024 * 1024.

(** [generic_string] writes slashes. *)
Definition generic_string (path : string) : string := string_map slash path.

Definition normalized_path (path : string) : string := string_map tolower (generic_string path).

(** ** Invalid headers *)

Section invalid_pe.
#[local] Open Scope mem_scope.

Definition looks_like_invalid_pe (bytes : list byte) : mem bool :=
  let data := Some bytes in
  let size := Z.of_nat (length bytes) in
  if size <? 2 then Val false
  else
    let* m := rd data 0 in
    let* z := rd data 1 in
    if negb (bval m =? 77) || negb (bval z =? 90) then Val false
    else if size <? 64 then Val true
    else
      let* pe_offset := read_u32 data 60 in
      if (size <? pe_offset) || (size - pe_offset <? 4) then Val true
      else
        let* p := rd data pe_offset in
        let* e := rd data (u32 (pe_offset + 1)) in
        let* b2 := rd data (u32 (pe_offset + 2)) in
        let* b3 := rd data (u32 (pe_offset + 3)) in
        Val (negb (bval p =? 80) || negb (bval e =? 69) || negb (bval b2 =? 0) || negb (bval b3 =? 0)).
End invalid_pe.

Definition is_risky_location (path : string) : bool :=
  let value := normalized_path path in
  find_sub "/appdata/local/temp/" value || find_sub "/downloads/" value || String.prefix "c:/temp/" value.

Definition observation_for (now : Z) (kind : ObservationKind) (level : ThreatLevel) (confidence : double)
    (path hash evidence : string) : SecurityObservation :=
  Obs "artifact-trust" kind now level confidence (bool_decide (kind = INVALID_PE)) 0 EmptyString
    (generic_string path) hash evidence.

(** ** Inspection *)

Section inspect.
Context (log2 : double -> double) (sort : (SectionRange -> SectionRange -> bool) -> list SectionRange -> list SectionRange).
#[local] Open Scope io_scope.

(** The verdict on the bytes of a whole file. *)
Definition signature_trusted (bytes : list byte) : mem bool :=
  (let* pkcs7 := extract_authenticode_signature (Some bytes) (Z.of_nat (length bytes)) in
   match pkcs7 with
   | None => Val false
   | Some pkcs7 =>
       let* r := verify_authenticode sort bytes pkcs7 in
       Val (match verdict r with TRUSTED => true | _ => false end)
   end)%mem.

Definition has_valid_offline_signature (path : string) : io (mem bool) :=
  let* file_size := file_size path in
  match file_size with
  | None => io_ret (Val false)
  | Some file_size =>
      if (file_size =? 0) || (MAX_SIGNATURE_CHECK_BYTES <? file_size) then io_ret (Val false)
      else
        let* input := read_file path in
        match input with
        | None => io_ret (Val false)
        | Some content =>
            let bytes := take (Z.to_nat file_size) content in
            if negb (Z.of_nat (length bytes) =? file_size) then io_ret (Val false)
            else io_ret (signature_trusted bytes)
        end
  end.

Definition executable_extension (path : string) : bool :=
  let extension := normalized_path (extension path) in
  String.eqb extension ".exe" || String.eqb extension ".dll" || String.eqb extension ".sys".

(** From the header check on; [bytes] is the inspected prefix. *)
Definition inspect_bytes (now : Z) (path hash : string) (bytes : list byte) : io (mem (list SecurityObservation)) :=
  match looks_like_invalid_pe bytes with
  | OOB => io_ret OOB
  | Val true =>
      io_ret (Val [observation_for now INVALID_PE HIGH (dlit 95 100) path hash "MZ executable has an invalid PE header"])
  | Val false =>
      if negb (executable_extension path) then io_ret (Val [])
      else
        let entropy :=
          if (4096 <? Z.of_nat (length bytes)) && dlt (dlit 78 10) (shannon_entropy log2 bytes)
          then [observation_for now HIGH_ENTROPY MEDIUM (dlit 60 100) path hash
                  "Executable inspection bytes have high entropy"]
          else [] in
        let* signed := has_valid_offline_signature path in
        match signed with
        | OOB => io_ret OOB
        | Val signed =>
            io_ret (Val (entropy ++
              if negb signed && is_risky_location path
              then [observation_for now UNSIGNED_RISKY_LOCATION MEDIUM (dlit 55 100) path hash
                      "Unsigned executable in a risky user-writable location"]
              else []))
        end
  end.

Definition inspect (now : Z) (path : string) : io (mem (list SecurityObservation)) :=
  let* regular := is_regular_file path in
  if negb (bool_decide (regular = Some true)) then io_ret (Val [])
  else
    let* file_size := file_size path in
    match file_size with
    | None => io_ret (Val [])
    | Some file_size =>
        let read_size := Z.min file_size MAX_INSPECTION_BYTES in
        let* input := read_file path in
        match input with
        | None => io_ret (Val [])
        | Some content =>
            let bytes := take (Z.to_nat read_size) content in
            let* hash := hash_of path in
            inspect_bytes now path hash bytes
        end
    end.
End inspect.

(** ** Every read is in bounds *)

Lemma looks_like_invalid_pe_safe bytes : safe (looks_like_invalid_pe bytes) (fun _ => True).
Proof.
  unfold looks_like_invalid_pe. cbv zeta. set (size := Z.of_nat (length bytes)).
  destruct (Z.ltb_spec size 2); [done|].
  eapply safe_bind; [apply rd_safe; unfold size in *; lia|]. intros m _.
  eapply safe_bind; [apply rd_safe; unfold size in *; lia|]. intros z _.
  destruct (_ || _); [done|]. destruct (Z.ltb_spec size 64); [done|].
  eapply safe_bind; [apply (read_u32_safe bytes size); unfold size in *; lia|]. intros off Hoff. cbv beta in Hoff.
  destruct (_ || _) eqn:E; [done|]. apply orb_false_iff in E as [E1 E2]. apply Z.ltb_ge in E1, E2.
  pose proof (u32_le (off + 1) ltac:(lia)). pose proof (u32_le (off + 2) ltac:(lia)). pose proof (u32_le (off + 3) ltac:(lia)).
  pose proof (u32_range (off + 1)). pose proof (u32_range (off + 2)). pose proof (u32_range (off + 3)).
  do 4 (eapply safe_bind; [apply rd_safe; unfold size in *; lia|]; intros ? _). done.
Qed.

(** A file carries a signature [verify_authenticode] trusts. *)
Definition carries_trusted_signature (sort : (SectionRange -> SectionRange -> bool) -> list SectionRange -> list SectionRange) (bytes : list byte) : Prop :=
  exists der r, extract_authenticode_signature (Some bytes) (Z.of_nat (length bytes)) = Val (Some der) /\
    verify_authenticode sort bytes der = Val r /\ verdict r = TRUSTED.

Lemma signature_trusted_spec sort bytes (Hsort : forall l, sort section_before l ≡ₚ l) :
  exists b, signature_trusted sort bytes = Val b /\ (b = true <-> carries_trusted_signature sort bytes).
Proof.
  unfold signature_trusted, carries_trusted_signature.
  pose proof (extract_safe bytes (Z.of_nat (length bytes)) ltac:(lia)) as H.
  destruct (extract_authenticode_signature _ _) as [[der|]|]; [| |by destruct H]; cbn [mem_bind].
  - destruct (verify_authenticode_spec sort bytes der Hsort) as (r & Hr & _). rewrite Hr. cbn [mem_bind].
    eexists. split; [done|]. split.
    + intros Hv. exists der, r. split; [done|]. split; [done|]. by destruct (verdict r).
    + intros (der' & r' & [= <-] & E & Hv). rewrite Hr in E. injection E as <-. by rewrite Hv.
  - exists false. split; [done|]. split; [done|]. by intros (der & r & [=] & _).
Qed.

Lemma Val_inj {A} (a b : A) : Val a = Val b -> a = b.
Proof. by intros [=]. Qed.

(** What every observation of an inspection is. *)
Definition inspection_ok (path hash : string) (o : SecurityObservation) : Prop :=
  valid o = true /\ file_path o = generic_string path /\ sha256 o = hash /\ (deterministic o = true <-> kind o = INVALID_PE).

Section inspection.
Context (log2 : double -> double) (sort : (SectionRange -> SectionRange -> bool) -> list SectionRange -> list SectionRange) (Hsort : forall l, sort section_before l ≡ₚ l).

Lemma has_valid_offline_signature_post path w :
  post (has_valid_offline_signature sort path) w (fun r w' => files w' = files w /\ exists b, r = Val b).
Proof using Hsort.
  unfold has_valid_offline_signature, file_size, read_file.
  apply post_bind. eapply post_mono; [apply query_post|]. intros [size|] w1 [E1 _]; [|apply post_ret; split; [done|by eexists]].
  destruct (_ || _); [apply post_ret; split; [done|by eexists]|].
  apply post_bind. eapply post_mono; [apply query_post|]. intros [c|] w2 [E2 _]; [|apply post_ret; split; [by rewrite E2|by eexists]].
  cbv zeta. destruct (negb _); [apply post_ret; split; [by rewrite E2|by eexists]|].
  destruct (signature_trusted_spec sort (take (Z.to_nat size) c) Hsort) as (b & -> & _).
  apply post_ret. split; [by rewrite E2|by eexists].
Qed.

Lemma inspect_bytes_post now path hash bytes w :
  post (inspect_bytes log2 sort now path hash bytes) w (fun r w' => files w' = files w /\
    exists obs, r = Val obs /\ Forall (inspection_ok path hash) obs).
Proof using Hsort.
  unfold inspect_bytes. pose proof (looks_like_invalid_pe_safe bytes) as Hl.
  destruct (looks_like_invalid_pe bytes) as [[]|]; [| |done].
  { apply post_ret. split; [done|]. eexists. split; [done|]. by constructor; [|constructor]. }
  destruct (negb _); [apply post_ret; split; [done|by exists []]|]. cbv zeta.
  apply post_bind. eapply post_mono; [apply has_valid_offline_signature_post|]. intros r w1 [E1 [b ->]].
  apply post_ret. split; [done|]. eexists. split; [done|]. apply Forall_app. split.
  - destruct (_ && _); [|done]. by constructor; [|constructor].
  - destruct (_ && _); [|done]. by constructor; [|constructor].
Qed.

Lemma inspect_post now path w :
  post (inspect log2 sort now path) w (fun r w' => files w' = files w /\
    exists obs hash, r = Val obs /\ Forall (inspection_ok path hash) obs).
Proof using Hsort.
  unfold inspect, is_regular_file, file_size, read_file, hash_of, read_file.
  assert (Hnil : forall w', files w' = files w -> files w' = files w /\
    exists (obs : list SecurityObservation) hash, Val (A:=list SecurityObservation) [] = Val obs /\ Forall (inspection_ok path hash) obs)
    by (intros w' E; split; [done|by exists [], EmptyString]).
  apply post_bind. eapply post_mono; [apply query_post|]. intros reg w1 [E1 _].
  destruct (negb _); [by apply post_ret, Hnil|].
  apply post_bind. eapply post_mono; [apply query_post|]. intros [size|] w2 [E2 _]; [|apply post_ret, Hnil; by rewrite E2].
  apply post_bind. eapply post_mono; [apply query_post|]. intros [c|] w3 [E3 _]; [|apply post_ret, Hnil; by rewrite E3, E2].
  cbv zeta. apply post_bind, post_bind. eapply post_mono; [apply query_post|]. intros c' w4 [E4 _]. apply post_ret.
  eapply post_mono; [apply inspect_bytes_post|]. intros r w5 [E5 (obs & -> & Ho)].
  split; [by rewrite E5, E4, E3, E2|]. by exists obs, (hash_file c').
Qed.

Lemma has_valid_offline_signature_works path content w :
  complies w -> files w !! path = Some (Regular content) ->
  exists b, has_valid_offline_signature sort path w = (Val b, w) /\
    (b = true <-> 0 < Z.of_nat (length content) <= MAX_SIGNATURE_CHECK_BYTES /\ carries_trusted_signature sort content).
Proof using Hsort.
  intros Hw Hf. unfold has_valid_offline_signature, file_size, read_file. rewrite io_bind_eq, query_works by done.
  rewrite (status_regular _ _ content) by done.
  destruct (Z.eqb_spec (Z.of_nat (length content)) 0); cbn [orb].
  { exists false. split; [done|]. split; [done|lia]. }
  destruct (Z.ltb_spec MAX_SIGNATURE_CHECK_BYTES (Z.of_nat (length content))).
  { exists false. split; [done|]. split; [done|lia]. }
  rewrite io_bind_eq, query_works by done. rewrite (status_regular _ _ content) by done. cbv zeta.
  rewrite Nat2Z.id, firstn_all, Z.eqb_refl. cbn [negb].
  destruct (signature_trusted_spec sort content Hsort) as (b & -> & Hb). exists b. split; [done|]. rewrite Hb.
  split; [intros; split; [lia|done]|by intros [_ ?]].
Qed.

Lemma inspect_works now path content w :
  complies w -> files w !! path = Some (Regular content) ->
  inspect log2 sort now path w =
    inspect_bytes log2 sort now path (hash_bytes256 content) (take (Z.to_nat MAX_INSPECTION_BYTES) content) w.
Proof.
  intros Hw Hf. unfold inspect, is_regular_file, file_size, hash_of, read_file.
  rewrite io_bind_eq, query_works, (status_regular _ _ content) by done.
  rewrite bool_decide_eq_true_2 by done. cbn [negb].
  rewrite io_bind_eq, query_works, (status_regular _ _ content) by done.
  rewrite io_bind_eq, query_works, (status_regular _ _ content) by done. cbv zeta.
  rewrite !io_bind_eq, query_works, (status_regular _ _ content) by done. cbn [io_ret]. rewrite hash_file_bytes.
  replace (take (Z.to_nat (Z.min (Z.of_nat (length content)) MAX_INSPECTION_BYTES)) content)
    with (take (Z.to_nat MAX_INSPECTION_BYTES) content); [done|].
  destruct (Z.min_spec (Z.of_nat (length content)) MAX_INSPECTION_BYTES) as [[H ->]|[H ->]]; [|done].
  rewrite !firstn_all2 by lia. done.
Qed.

Lemma inspect_executable now path hash bytes content w :
  complies w -> files w !! path = Some (Regular content) ->
  looks_like_invalid_pe bytes = Val false -> executable_extension path = true ->
  exists obs, inspect_bytes log2 sort now path hash bytes w = (Val obs, w) /\
    (In UNSIGNED_RISKY_LOCATION (kind <$> obs) <->
       is_risky_location path = true /\
       ~ (0 < Z.of_nat (length content) <= MAX_SIGNATURE_CHECK_BYTES /\ carries_trusted_signature sort content)).
Proof using Hsort.
  intros Hw Hf Hl Hx. unfold inspect_bytes. rewrite Hl, Hx. cbn [negb]. cbv zeta.
  set (entropy := if _ && _ then [observation_for now HIGH_ENTROPY _ _ _ _ _] else []).
  destruct (has_valid_offline_signature_works path content w Hw Hf) as (b & Hb & Hbt).
  rewrite io_bind_eq, Hb. eexists. split; [reflexivity|]. rewrite <- Hbt, fmap_app, in_app_iff.
  assert (He : ~ In UNSIGNED_RISKY_LOCATION (kind <$> entropy)) by (unfold entropy; destruct (_ && _); cbn; [by intros [|]|by intros []]).
  clearbody entropy. destruct b, (is_risky_location path); cbn [negb andb fmap list_fmap In observation_for kind]; split; try tauto.
  all: try (intros [?|[]]; done). all: try (by intros [? ?]).
Qed.
End inspection.

Lemma inspect_cases log2 sort (Hsort : forall l, sort section_before l ≡ₚ l) now path bytes content w :
  complies w -> files w !! path = Some (Regular content) ->
  exists obs, inspect_bytes log2 sort now path (hash_bytes256 content) bytes w = (Val obs, w) /\
    Forall (inspection_ok path (hash_bytes256 content)) obs /\
    (looks_like_invalid_pe bytes = Val true -> kind <$> obs = [INVALID_PE]) /\
    (looks_like_invalid_pe bytes = Val false -> executable_extension path = false -> obs = []) /\
    (looks_like_invalid_pe bytes = Val false -> executable_extension path = true ->
       (In UNSIGNED_RISKY_LOCATION (kind <$> obs) <->
          is_risky_location path = true /\
          ~ (0 < Z.of_nat (length content) <= MAX_SIGNATURE_CHECK_BYTES /\ carries_trusted_signature sort content))).
Proof.
  intros Hw Hf.
  pose proof (inspect_bytes_post log2 sort Hsort now path (hash_bytes256 content) bytes w) as Hp. unfold post in Hp.
  destruct (looks_like_invalid_pe bytes) as [[]|] eqn:Hl.
  - unfold inspect_bytes in Hp |- *. rewrite Hl in Hp |- *. destruct Hp as (_ & o & E & Ho). apply Val_inj in E. subst o.
    eexists. split; [reflexivity|]. split; [exact Ho|]. by split_and!.
  - destruct (executable_extension path) eqn:Hx.
    + destruct (inspect_executable log2 sort Hsort now path (hash_bytes256 content) bytes content w Hw Hf Hl Hx) as (obs & E & Hi).
      rewrite E in Hp |- *. destruct Hp as (_ & o & Eo & Ho). apply Val_inj in Eo. subst o.
      exists obs. split; [reflexivity|]. split; [exact Ho|]. by split_and!.
    + unfold inspect_bytes. rewrite Hl, Hx. exists []. split; [reflexivity|]. split; [constructor|]. by split_and!.
  - pose proof (looks_like_invalid_pe_safe bytes) as H. by rewrite Hl in H.
Qed.

(** C40: [inspect] of a file on a complying system, whatever its bytes: it always returns,
    reading in bounds; what it returns are observations the telemetry bus accepts, about
    this path and with the hash of the whole content, deterministic exactly for an
    invalid header.  A file with an invalid header gives that observation alone; a file
    that is no executable by its name gives none; an executable in a risky location is
    reported as unsigned exactly when [verify_authenticode] does not find its bytes
    TRUSTED (or it is empty or above 512 MiB).  On a system that refuses some of the
    requests the same holds of what is returned, and no file is changed. *)
Theorem inspection_sound (log2 : double -> double) (sort : (SectionRange -> SectionRange -> bool) -> list SectionRange -> list SectionRange)
    (Hsort : forall l, sort section_before l ≡ₚ l) (now : Z) (path : string) (w : world) :
  (exists obs hash w', inspect log2 sort now path w = (Val obs, w') /\ files w' = files w /\
     Forall (inspection_ok path hash) obs) /\
  forall content, complies w -> files w !! path = Some (Regular content) ->
    let bytes := take (Z.to_nat MAX_INSPECTION_BYTES) content in
    exists obs, inspect log2 sort now path w = (Val obs, w) /\
      Forall (inspection_ok path (hash_bytes256 content)) obs /\
      (looks_like_invalid_pe bytes = Val true -> kind <$> obs = [INVALID_PE]) /\
      (looks_like_invalid_pe bytes = Val false -> executable_extension path = false -> obs = []) /\
      (looks_like_invalid_pe bytes = Val false -> executable_extension path = true ->
         (In UNSIGNED_RISKY_LOCATION (kind <$> obs) <->
            is_risky_location path = true /\
            ~ (0 < Z.of_nat (length content) <= MAX_SIGNATURE_CHECK_BYTES /\ carries_trusted_signature sort content))).
Proof.
  split.
  { pose proof (inspect_post log2 sort Hsort now path w) as H. unfold post in H.
    destruct (inspect log2 sort now path w) as [r w']. destruct H as (Ew & obs & hash & -> & Ho). by exists obs, hash, w'. }
  intros content Hw Hf. cbv zeta.
  rewrite (inspect_works log2 sort now path content w Hw Hf). by apply inspect_cases.
Qed.

Lemma inspection_sound_witness :
  let w := World {["c:/temp/a.exe"%string := Regular [x4d; x5a]]} [] in
  exists obs, inspect (fun _ => dz 0) (fun _ l => l) 5 "c:/temp/a.exe" w = (Val obs, w) /\ kind <$> obs = [INVALID_PE].
Proof.
  cbv zeta. set (w := World _ _).
  destruct (inspection_sound (fun _ => dz 0) (fun _ l => l) (fun l => Permutation_refl l) 5 "c:/temp/a.exe" w) as [_ H].
  destruct (H [x4d; x5a] eq_refl eq_refl) as (obs & E & _ & Hk & _). exists obs. split; [exact E|].
  apply Hk. rewrite firstn_all2 by (unfold MAX_INSPECTION_BYTES; cbn [length]; lia). reflexivity.
Defined.
