(* ===== verification/Correlation.v ===== *)
(** * Correlation: from observations to findings

    Models src/src/security/correlation_engine.cpp.  Time points and durations are
    nanoseconds.  The maps keyed by strings are finite maps; where the code walks
    [active_] and the walk's order shows (ties of the eviction), the order is an
    argument, as [std::unordered_map] leaves it open. *)
From S2P Require Import Prelude Float64 Asn1 Observation Policy.

Record SourceState := Source {
  s_confidence : double;
  s_suggested_level : ThreatLevel;
  s_deterministic : bool;
  s_last_seen : Z;
}.

Record ActiveState := Active {
  a_last_seen : Z;
  a_sources : gmap string SourceState;
  a_file_path : string;
  a_sha256 : string;
  a_rationale : string;
  last_reported_score : Z;
  last_reported_level : ThreatLevel;
}.

Record CorrelationEngine := Engine {
  policy_ : LocalSecurityPolicy;
  active_ : gmap string ActiveState;
  findings_ : list SecurityFinding;
  next_finding_id_ : Z;
}.

Definition new_engine (policy : LocalSecurityPolicy) : CorrelationEngine := Engine policy ∅ [] 1.

Definition new_state : ActiveState := Active 0 ∅ EmptyString EmptyString EmptyString 0 SAFE.

Definition MAX_ACTIVE_KEYS : Z := 4096.
Definition MAX_FINDINGS : Z := 2000.
Definition seconds (n : Z) : Z := n * 10 ^ 9.
Definition minutes (n : Z) : Z := seconds (60 * n).
Definition DUPLICATE_WINDOW : Z := seconds 30.

(** ** Scores *)

Definition source_score (s : SourceState) : Z := u32 (lround (dmul (s_confidence s) (dz 50))).

(** The sum wraps in [unsigned], so the order of the walk does not show. *)
Definition sum_scores (sources : gmap string SourceState) : Z :=
  map_fold (fun _ source score => u32 (score + source_score source)) 0 sources.

Definition score_for (state : ActiveState) : Z :=
  let score := sum_scores (a_sources state) in
  let score := if 2 <=? Z.of_nat (size (a_sources state)) then u32 (score + 20) else score in
  u8 (Z.min score 100).

Definition any_source_deterministic (state : ActiveState) : bool :=
  existsb (fun p => s_deterministic p.2) (map_to_list (a_sources state)).

Definition level_for (score : Z) : ThreatLevel :=
  if 90 <=? score then CRITICAL
  else if 75 <=? score then HIGH
  else if 50 <=? score then MEDIUM
  else if 25 <=? score then LOW
  else SAFE.

(** [std::sort] of the source names. *)
Definition string_le (a b : string) : Prop := String.leb a b = true.

#[export] Instance string_le_dec : RelDecision string_le.
Proof. intros a b. unfold string_le. apply _. Defined.

Definition sorted_names (sources : gmap string SourceState) : list string :=
  merge_sort string_le (map_to_list sources).*1.

(** ** Operations *)

Definition with_active (e : CorrelationEngine) (m : gmap string ActiveState) : CorrelationEngine :=
  Engine (policy_ e) m (findings_ e) (next_finding_id_ e).

(** The test under which [expire] erases an entry. *)
Definition stale (window now last_seen : Z) : bool :=
  (last_seen <=? now) && (window <? now - last_seen).

Definition expire (e : CorrelationEngine) (now : Z) : CorrelationEngine :=
  let window := minutes (finding_window (policy_ e)) in
  with_active e (filter (fun p => stale window now (a_last_seen p.2) = false) (active_ e)).

Definition recent (e : CorrelationEngine) (count : Z) : list SecurityFinding :=
  let n := Z.of_nat (length (findings_ e)) in
  drop (Z.to_nat (if count <? n then n - count else 0)) (findings_ e).

(** The loop of [evict_oldest_locked]. *)
Fixpoint oldest_of (oldest : string * ActiveState) (rest : list (string * ActiveState)) : string * ActiveState :=
  match rest with
  | [] => oldest
  | it :: rest => oldest_of (if a_last_seen it.2 <? a_last_seen oldest.2 then it else oldest) rest
  end.

(** [state.last_seen = now] up to the rationale. *)
Definition record_observation (state : ActiveState) (o : SecurityObservation) (now : Z) : ActiveState :=
  Active now
    (<[source_id o := Source (confidence o) (suggested_level o) (deterministic o) now]> (a_sources state))
    (if empty_string (a_file_path state) && negb (empty_string (file_path o)) then file_path o else a_file_path state)
    (if empty_string (a_sha256 state) && negb (empty_string (sha256 o)) then sha256 o else a_sha256 state)
    (if empty_string (a_rationale state) then evidence o else a_rationale state)
    (last_reported_score state) (last_reported_level state).

Definition reported (state : ActiveState) (score : Z) (level : ThreatLevel) : ActiveState :=
  Active (a_last_seen state) (a_sources state) (a_file_path state) (a_sha256 state) (a_rationale state) score level.

(** [source_it] is a source seen within the duplicate window. *)
Definition duplicate (state : ActiveState) (o : SecurityObservation) (now : Z) : bool :=
  match a_sources state !! source_id o with
  | Some s => (s_last_seen s <=? now) && (now - s_last_seen s <? DUPLICATE_WINDOW)
  | None => false
  end.

(** The finding for a state. *)
Definition finding_of (id now : Z) (key : string) (state : ActiveState) (score : Z) (level : ThreatLevel) :
    SecurityFinding :=
  Finding id now level score (any_source_deterministic state) key (a_file_path state) (a_sha256 state)
    (a_rationale state) (sorted_names (a_sources state)) [].

Definition push_finding (findings : list SecurityFinding) (f : SecurityFinding) : list SecurityFinding :=
  let findings := findings ++ [f] in
  if MAX_FINDINGS <? Z.of_nat (length findings) then tail findings else findings.

(** The part of [ingest] behind the duplicate test. *)
Definition update_state (e : CorrelationEngine) (key : string) (state : ActiveState)
    (o : SecurityObservation) (now : Z) : CorrelationEngine * option SecurityFinding :=
  let state := record_observation state o now in
  let score := score_for state in
  let level := level_for score in
  if (score <=? last_reported_score state) && (level_value level <=? level_value (last_reported_level state))
  then (with_active e (<[key := state]> (active_ e)), None)
  else
    let state := reported state score level in
    let f := finding_of (next_finding_id_ e) now key state score level in
    (Engine (policy_ e) (<[key := state]> (active_ e)) (push_finding (findings_ e) f)
       (u64 (next_finding_id_ e + 1)), Some f).

Section eviction_order.
(** The order in which an iteration of [active_] visits its entries. *)
Context (order : gmap string ActiveState -> list (string * ActiveState)).

Definition evict_oldest (e : CorrelationEngine) : CorrelationEngine :=
  if Z.of_nat (size (active_ e)) <? MAX_ACTIVE_KEYS then e
  else
    match order (active_ e) with
    | [] => e
    | first :: rest => with_active e (delete (oldest_of first rest).1 (active_ e))
    end.

(** [active_.find(key)] or a new entry. *)
Definition find_or_emplace (e : CorrelationEngine) (key : string) : CorrelationEngine * ActiveState :=
  match active_ e !! key with
  | Some state => (e, state)
  | None =>
      let e := evict_oldest e in
      (with_active e (<[key := new_state]> (active_ e)), new_state)
  end.

(** The critical section of [ingest]. *)
Definition ingest_locked (e : CorrelationEngine) (o : SecurityObservation) (now : Z) :
    CorrelationEngine * option SecurityFinding :=
  let key := correlation_key o in
  let '(e, state) := find_or_emplace e key in
  if duplicate state o now then (e, None) else update_state e key state o now.

Definition ingest (e : CorrelationEngine) (o : SecurityObservation) (now : Z) :
    CorrelationEngine * option SecurityFinding :=
  if negb (valid o) then (e, None) else ingest_locked (expire e now) o now.

(** The critical sections as atomic steps: [ingest] takes the lock twice, in
    [expire] and for its own section, so calls on other threads may run between
    the two.  [Locked] stands behind the validity test. *)
Inductive corr_op := Expire (now : Z) | Locked (o : SecurityObservation) (now : Z).

Definition corr_step (e : CorrelationEngine) (op : corr_op) : CorrelationEngine * option SecurityFinding :=
  match op with
  | Expire now => (expire e now, None)
  | Locked o now => if negb (valid o) then (e, None) else ingest_locked e o now
  end.

(** A run, with the findings it returned. *)
Fixpoint corr_run (e : CorrelationEngine) (ops : list corr_op) : CorrelationEngine * list SecurityFinding :=
  match ops with
  | [] => (e, [])
  | op :: ops =>
      let '(e, r) := corr_step e op in
      let '(e, rs) := corr_run e ops in
      (e, match r with Some f => f :: rs | None => rs end)
  end.
End eviction_order.

(** ** Sorted names *)

#[export] Instance string_le_trans : Transitive string_le.
Proof.
  unfold string_le, String.leb. intros a. induction a as [|x a IH]; intros [|y b] [|z c]; cbn; try done.
  unfold Ascii.compare. specialize (IH b c).
  destruct (N.compare_spec (Ascii.N_of_ascii x) (Ascii.N_of_ascii y)),
    (N.compare_spec (Ascii.N_of_ascii y) (Ascii.N_of_ascii z)),
    (N.compare_spec (Ascii.N_of_ascii x) (Ascii.N_of_ascii z)); try done; lia.
Qed.

#[export] Instance string_le_total : Total string_le.
Proof. intros a b. apply String.leb_total. Qed.

Lemma sorted_names_spec sources :
  StronglySorted string_le (sorted_names sources) /\ NoDup (sorted_names sources) /\
  length (sorted_names sources) = size sources /\
  (forall name, In name (sorted_names sources) <-> is_Some (sources !! name)).
Proof.
  unfold sorted_names. pose proof (merge_sort_Permutation string_le (map_to_list sources).*1) as Hp.
  split; [apply StronglySorted_merge_sort; apply _|]. split.
  { rewrite Hp. apply NoDup_fst_map_to_list. } split.
  { rewrite Hp, length_fmap. apply length_map_to_list. }
  intros name. rewrite <- list_elem_of_In, Hp, list_elem_of_fmap. split.
  - intros [[k s] [-> Hin]]. apply elem_of_map_to_list in Hin. by exists s.
  - intros [s Hs]. exists (name, s). split; [done|]. by apply elem_of_map_to_list.
Qed.

(** ** Scores *)

(** What holds of every recorded source: a value of type [double] in [0, 1]. *)
Definition source_ok (s : SourceState) : Prop :=
  is_double (s_confidence s) = true /\ unit_interval (s_confidence s) = true.

Lemma source_score_range s : source_ok s -> 0 <= source_score s <= 50.
Proof.
  intros [Hd Hu]. unfold source_score.
  assert (H : 0 <= lround (dmul (s_confidence s) (dz 50)) <= 50).
  { eapply lround_unit; [vm_compute; reflexivity|lia|reflexivity|lia|done|done]. }
  rewrite u32_small; lia.
Qed.

Lemma sum_scores_range sources :
  map_Forall (fun _ s => source_ok s) sources -> 0 <= sum_scores sources <= 50 * Z.of_nat (size sources).
Proof.
  unfold sum_scores. apply (map_fold_weak_ind (fun r m =>
    map_Forall (fun _ s => source_ok s) m -> 0 <= r <= 50 * Z.of_nat (size m))).
  - rewrite map_size_empty. lia.
  - intros i s m r Hi IH Hok. apply map_Forall_insert in Hok as [Hs Hm]; [|done].
    specialize (IH Hm). rewrite map_size_insert_None by done.
    pose proof (source_score_range s Hs). pose proof (u32_le (r + source_score s) ltac:(lia)). lia.
Qed.

Lemma sum_scores_nonneg sources : 0 <= sum_scores sources.
Proof.
  unfold sum_scores. apply (map_fold_weak_ind (fun r _ => 0 <= r)); [lia|].
  intros. apply u32_range.
Qed.

Lemma score_for_range state : 0 <= score_for state <= 100.
Proof.
  unfold score_for. pose proof (sum_scores_nonneg (a_sources state)).
  destruct (2 <=? _); cbv zeta.
  - pose proof (u32_range (sum_scores (a_sources state) + 20)). unfold u8. rewrite Z.mod_small; lia.
  - unfold u8. rewrite Z.mod_small; lia.
Qed.

(** One source is worth at most half of the scale. *)
Lemma score_for_single state :
  map_Forall (fun _ s => source_ok s) (a_sources state) -> (size (a_sources state) < 2)%nat ->
  score_for state <= 50.
Proof.
  intros Hok Hs. unfold score_for. rewrite (proj2 (Z.leb_gt _ _)) by lia. cbv zeta.
  pose proof (sum_scores_range _ Hok). unfold u8. rewrite Z.mod_small; lia.
Qed.

Lemma level_for_mono s t : s <= t -> level_value (level_for s) <= level_value (level_for t).
Proof.
  intros H. unfold level_for.
  repeat match goal with |- context [?a <=? ?b] => destruct (Z.leb_spec a b) end; cbn; lia.
Qed.

Lemma any_source_deterministic_spec state :
  any_source_deterministic state = true <->
  exists name s, a_sources state !! name = Some s /\ s_deterministic s = true.
Proof.
  unfold any_source_deterministic. rewrite existsb_exists. split.
  - intros [[name s] [Hin Hd]]. apply list_elem_of_In, elem_of_map_to_list in Hin. by exists name, s.
  - intros (name & s & Hs & Hd). exists (name, s). split; [|done].
    by apply list_elem_of_In, elem_of_map_to_list.
Qed.

(** The score in integers, wrapped once. *)
Lemma sum_scores_total sources :
  sum_scores sources = foldr (fun p sum => lround (dmul (s_confidence p.2) (dz 50)) + sum) 0 (map_to_list sources) mod 2 ^ 32.
Proof.
  unfold sum_scores. rewrite map_fold_foldr. induction (map_to_list sources) as [|[name s] l IH]; [done|]. cbn [foldr snd]. unfold uncurry at 1.
  rewrite IH. unfold source_score, u32. rewrite <- Zplus_mod. f_equal. lia.
Qed.

Lemma score_for_total state :
  score_for state = Z.min 100 ((foldr (fun p sum => lround (dmul (s_confidence p.2) (dz 50)) + sum) 0 (map_to_list (a_sources state)) +
    if bool_decide (2 <= size (a_sources state))%nat then 20 else 0) mod 2 ^ 32).
Proof.
  unfold score_for. rewrite sum_scores_total. cbv zeta. generalize (foldr (fun p sum => lround (dmul (s_confidence p.2) (dz 50)) + sum) 0 (map_to_list (a_sources state))). intros t.
  assert (Hm : forall x, u8 (Z.min (x mod 2 ^ 32) 100) = Z.min 100 (x mod 2 ^ 32)).
  { intros x. pose proof (Z.mod_pos_bound x (2 ^ 32) ltac:(lia)). unfold u8. rewrite Z.mod_small by lia. lia. }
  case_bool_decide as Hs.
  - rewrite (proj2 (Z.leb_le _ _)) by lia. unfold u32. rewrite Zplus_mod_idemp_l. apply Hm.
  - rewrite (proj2 (Z.leb_gt _ _)) by lia. rewrite Z.add_0_r. apply Hm.
Qed.

Lemma first_nonempty a b : (if empty_string a && negb (empty_string b) then b else a) = (if String.eqb a EmptyString then b else a).
Proof.
  unfold empty_string. destruct (String.eqb_spec a EmptyString) as [->|]; [|done]. cbn [andb]. by destruct (String.eqb_spec b EmptyString) as [->|].
Qed.

Lemma duplicate_spec state o now :
  duplicate state o now = true <-> exists s, a_sources state !! source_id o = Some s /\ s_last_seen s <= now < s_last_seen s + 30 * 10 ^ 9.
Proof.
  unfold duplicate, DUPLICATE_WINDOW, seconds. destruct (a_sources state !! source_id o) as [s|].
  - rewrite andb_true_iff, Z.leb_le, Z.ltb_lt. split; [intros H; exists s; split; [done|lia]|intros (s' & [= <-] & H); lia].
  - split; [done|by intros (s & [=] & _)].
Qed.

(** ** Expiry and eviction *)

Lemma expire_lookup e now key state :
  active_ (expire e now) !! key = Some state <->
  active_ e !! key = Some state /\
  ~ (a_last_seen state <= now /\ minutes (finding_window (policy_ e)) < now - a_last_seen state).
Proof.
  unfold expire. cbn [active_ with_active]. rewrite map_lookup_filter_Some. cbn [snd]. unfold stale.
  rewrite andb_false_iff, Z.leb_gt, Z.ltb_ge. split; intros [H1 H2]; (split; [done|lia]).
Qed.

Lemma oldest_of_spec first rest :
  In (oldest_of first rest) (first :: rest) /\
  Forall (fun p => a_last_seen (oldest_of first rest).2 <= a_last_seen p.2) (first :: rest).
Proof.
  revert first. induction rest as [|it rest IH]; intros first; cbn [oldest_of].
  - split; [by left|]. by repeat constructor.
  - destruct (Z.ltb_spec (a_last_seen it.2) (a_last_seen first.2)) as [Hlt|Hge].
    + destruct (IH it) as [Hin Hall]. split; [by right|]. constructor; [|done].
      apply Forall_cons in Hall as [H _]. lia.
    + destruct (IH first) as [Hin Hall]. apply Forall_cons in Hall as [Hf Hr].
      split; [destruct Hin as [<-|]; [by left|by right; right]|]. constructor; [done|]. constructor; [lia|done].
Qed.

Section eviction.
Context (order : gmap string ActiveState -> list (string * ActiveState)).
Context (Horder : forall m, order m ≡ₚ map_to_list m).

(** Eviction makes room by dropping an entry that was seen no later than any. *)
Lemma evict_oldest_spec e :
  let e' := evict_oldest order e in
  (Z.of_nat (size (active_ e)) <= MAX_ACTIVE_KEYS -> Z.of_nat (size (active_ e')) < MAX_ACTIVE_KEYS) /\
  (e' = e \/
   MAX_ACTIVE_KEYS <= Z.of_nat (size (active_ e)) /\
   exists victim state, active_ e !! victim = Some state /\ e' = with_active e (delete victim (active_ e)) /\
     map_Forall (fun _ s => a_last_seen state <= a_last_seen s) (active_ e)).
Proof.
  cbv zeta. unfold evict_oldest.
  destruct (Z.ltb_spec (Z.of_nat (size (active_ e))) MAX_ACTIVE_KEYS) as [Hlt|Hge].
  - split; [done|by left].
  - pose proof (Horder (active_ e)) as Hp. destruct (order (active_ e)) as [|first rest].
    { symmetry in Hp. apply Permutation_nil_r, map_to_list_empty_iff in Hp.
      unfold MAX_ACTIVE_KEYS in Hge. rewrite Hp, map_size_empty in Hge. lia. }
    destruct (oldest_of_spec first rest) as [Hin Hall].
    destruct (oldest_of first rest) as [victim state]. cbn [fst snd] in *.
    assert (Hv : active_ e !! victim = Some state).
    { apply elem_of_map_to_list. rewrite <- Hp. by apply list_elem_of_In. }
    split; [|right; split; [done|]; exists victim, state; split_and!; try done].
    + intros Hm. cbn [active_ with_active]. rewrite map_size_delete_Some by eauto. unfold MAX_ACTIVE_KEYS in *. lia.
    + intros k s Hk. apply elem_of_map_to_list in Hk. rewrite <- Hp in Hk.
      rewrite Forall_forall in Hall. exact (Hall _ Hk).
Qed.

Lemma evict_oldest_subset e key state :
  active_ (evict_oldest order e) !! key = Some state -> active_ e !! key = Some state.
Proof.
  destruct (evict_oldest_spec e) as [_ [->|(_ & victim & s & _ & -> & _)]]; [done|].
  cbn [active_ with_active]. rewrite lookup_delete_Some. tauto.
Qed.

Lemma evict_oldest_rest e :
  policy_ (evict_oldest order e) = policy_ e /\ findings_ (evict_oldest order e) = findings_ e /\
  next_finding_id_ (evict_oldest order e) = next_finding_id_ e.
Proof. destruct (evict_oldest_spec e) as [_ [->|(_ & victim & s & _ & -> & _)]]; done. Qed.
End eviction.

(** ** What holds of every entry and of every finding *)

Record state_ok (state : ActiveState) : Prop := {
  so_sources : map_Forall (fun _ s => source_ok s) (a_sources state);
  so_score : 0 <= last_reported_score state <= 100;
  so_level : last_reported_level state = level_for (last_reported_score state);
}.

Record finding_ok (f : SecurityFinding) : Prop := {
  fo_score : 0 <= f_risk_score f <= 100;
  fo_level : f_level f = level_for (f_risk_score f);
  fo_single : (length (f_contributing_sources f) < 2)%nat -> f_risk_score f <= 50;
  fo_sources : StronglySorted string_le (f_contributing_sources f) /\ NoDup (f_contributing_sources f);
  fo_rationale : f_rationale f <> EmptyString;
}.

Lemma new_state_ok : state_ok new_state.
Proof. split; [apply map_Forall_empty|cbn; lia|done]. Qed.

Lemma valid_source_ok o :
  valid o = true -> is_double (confidence o) = true ->
  source_ok (Source (confidence o) (suggested_level o) (deterministic o) 0).
Proof. intros Hv Hd. split; [done|]. by apply valid_unit. Qed.

Lemma record_observation_ok state o now :
  valid o = true -> is_double (confidence o) = true -> state_ok state -> state_ok (record_observation state o now).
Proof.
  intros Hv Hd [Hs Hsc Hl]. split; [|done|done]. cbn [a_sources record_observation].
  apply map_Forall_insert_2; [|done]. exact (valid_source_ok o Hv Hd).
Qed.

Lemma record_observation_rationale state o now :
  valid o = true -> a_rationale (record_observation state o now) <> EmptyString.
Proof.
  intros Hv. cbn [a_rationale record_observation]. destruct (empty_string (a_rationale state)) eqn:E.
  - unfold valid in Hv. bool_facts. by apply String.eqb_neq.
  - by apply String.eqb_neq.
Qed.

(** A finding is returned exactly when the score rises above the last reported one. *)
Lemma update_state_spec e key state o now :
  last_reported_level state = level_for (last_reported_score state) ->
  let state' := record_observation state o now in
  update_state e key state o now =
    if last_reported_score state <? score_for state'
    then
      let state'' := reported state' (score_for state') (level_for (score_for state')) in
      let f := finding_of (next_finding_id_ e) now key state'' (score_for state') (level_for (score_for state')) in
      (Engine (policy_ e) (<[key := state'']> (active_ e)) (push_finding (findings_ e) f)
         (u64 (next_finding_id_ e + 1)), Some f)
    else (with_active e (<[key := state']> (active_ e)), None).
Proof.
  intros Hl. cbv zeta. unfold update_state.
  change (last_reported_score (record_observation state o now)) with (last_reported_score state).
  change (last_reported_level (record_observation state o now)) with (last_reported_level state).
  destruct (Z.ltb_spec (last_reported_score state) (score_for (record_observation state o now))) as [Hlt|Hge].
  - by rewrite (proj2 (Z.leb_gt _ _)) by lia.
  - rewrite (proj2 (Z.leb_le _ _)) by lia. rewrite Hl. rewrite (proj2 (Z.leb_le _ _)) by (apply level_for_mono; lia).
    done.
Qed.

Lemma finding_of_ok id now key state :
  state_ok state -> a_rationale state <> EmptyString ->
  finding_ok (finding_of id now key state (score_for state) (level_for (score_for state))).
Proof.
  intros [Hs _ _] Hr. destruct (sorted_names_spec (a_sources state)) as (H1 & H2 & H3 & _).
  split; cbn; [apply score_for_range|done| |done|done].
  rewrite H3. intros Hlt. by apply score_for_single.
Qed.

(** ** Runs *)

(** The confidence of an observation is a value of type [double]. *)
Definition op_typed (op : corr_op) : Prop :=
  match op with Expire _ => True | Locked o _ => is_double (confidence o) = true end.

Definition nth_id (i : nat) : Z := u64 (1 + Z.of_nat i).

Record corr_inv (policy : LocalSecurityPolicy) (e : CorrelationEngine) (fs : list SecurityFinding) : Prop := {
  ci_policy : policy_ e = policy;
  ci_size : Z.of_nat (size (active_ e)) <= MAX_ACTIVE_KEYS;
  ci_findings : findings_ e = drop (length fs - Z.to_nat MAX_FINDINGS) fs;
  ci_ids : f_id <$> fs = nth_id <$> seq 0 (length fs);
  ci_next : next_finding_id_ e = nth_id (length fs);
  ci_active : map_Forall (fun _ => state_ok) (active_ e);
  ci_ok : Forall finding_ok fs;
}.

Lemma new_engine_inv policy : corr_inv policy (new_engine policy) [].
Proof. split; try done. Qed.

Lemma push_last fs f :
  push_finding (drop (length fs - Z.to_nat MAX_FINDINGS) fs) f =
  drop (length (fs ++ [f]) - Z.to_nat MAX_FINDINGS) (fs ++ [f]).
Proof.
  unfold push_finding. cbv zeta. rewrite !length_app, length_drop. cbn [length].
  destruct (Z.ltb_spec MAX_FINDINGS (Z.of_nat (length fs - (length fs - Z.to_nat MAX_FINDINGS) + 1))) as [Hlt|Hge].
  - unfold MAX_FINDINGS in *.
    rewrite drop_app_le by lia. remember (length fs - Z.to_nat 2000)%nat as n eqn:En.
    replace (length fs + 1 - Z.to_nat 2000)%nat with (S n) by lia.
    assert (Hn : (n < length fs)%nat) by lia. apply lookup_lt_is_Some in Hn as [x Hx].
    rewrite (drop_S fs x n Hx) by done. done.
  - unfold MAX_FINDINGS in *. replace (length fs - Z.to_nat 2000)%nat with 0%nat by lia.
    by replace (length fs + 1 - Z.to_nat 2000)%nat with 0%nat by lia.
Qed.

Lemma push_finding_last findings f : (length findings <= 2000)%nat ->
  push_finding findings f = drop (length findings + 1 - 2000) (findings ++ [f]).
Proof.
  intros H. unfold push_finding, MAX_FINDINGS. cbv zeta. rewrite length_app. cbn [length].
  destruct (Z.ltb_spec 2000 (Z.of_nat (length findings + 1))).
  - by replace (length findings + 1 - 2000)%nat with 1%nat by lia.
  - by replace (length findings + 1 - 2000)%nat with 0%nat by lia.
Qed.

Section runs.
Context (order : gmap string ActiveState -> list (string * ActiveState)).
Context (Horder : forall m, order m ≡ₚ map_to_list m).

Lemma expire_inv policy e fs now : corr_inv policy e fs -> corr_inv policy (expire e now) fs.
Proof.
  intros [Hp Hs Hf Hi Hn Ha Ho]. split; try done.
  - unfold expire. cbn [active_ with_active]. etrans; [|exact Hs]. apply inj_le, map_size_filter.
  - intros k s Hk. apply expire_lookup in Hk as [Hk _]. exact (Ha k s Hk).
Qed.

(** The entry the critical section works on. *)
Lemma find_or_emplace_spec policy e fs key :
  corr_inv policy e fs ->
  let '(e', state) := find_or_emplace order e key in
  corr_inv policy e' fs /\ active_ e' !! key = Some state /\ state = default new_state (active_ e !! key) /\
  state_ok state.
Proof.
  intros Hi. pose proof Hi as [Hp Hs Hf Hids Hn Ha Ho]. unfold find_or_emplace.
  destruct (active_ e !! key) as [state|] eqn:E; [split; [done|]; split; [done|]; split; [done|by eapply Ha]|].
  destruct (evict_oldest_spec order Horder e) as [Hsize _].
  destruct (evict_oldest_rest order Horder e) as (E1 & E2 & E3).
  cbn [active_ with_active]. split; [|split; [by rewrite lookup_insert_eq|split; [done|apply new_state_ok]]].
  split; cbn [policy_ active_ findings_ next_finding_id_ with_active]; try congruence; try done.
  - specialize (Hsize Hs). pose proof (map_size_insert key new_state (active_ (evict_oldest order e))) as Hm.
    destruct (active_ (evict_oldest order e) !! key); cbn in Hm; rewrite Hm; lia.
  - apply map_Forall_insert_2; [apply new_state_ok|]. intros k s Hk.
    apply (Ha k). by apply (evict_oldest_subset order Horder).
Qed.

Lemma find_or_emplace_others e key :
  let e' := (find_or_emplace order e key).1 in
  next_finding_id_ e' = next_finding_id_ e /\
  (forall k s, k <> key -> active_ e' !! k = Some s -> active_ e !! k = Some s) /\
  (forall k s, k <> key -> active_ e !! k = Some s ->
     active_ e' !! k = Some s \/
     MAX_ACTIVE_KEYS <= Z.of_nat (size (active_ e)) /\
     map_Forall (fun _ s' => a_last_seen s <= a_last_seen s') (active_ e)).
Proof.
  cbv zeta. unfold find_or_emplace. destruct (active_ e !! key) as [state|] eqn:E; cbn [fst].
  { split; [done|]. split; [done|]. intros k s _ Hk. by left. }
  destruct (evict_oldest_rest order Horder e) as (_ & _ & E3).
  cbn [active_ with_active next_finding_id_]. split; [done|]. split.
  - intros k s Hne Hk. rewrite lookup_insert_ne in Hk by done. by apply (evict_oldest_subset order Horder).
  - intros k s Hne Hk. rewrite lookup_insert_ne by done.
    destruct (evict_oldest_spec order Horder e) as [_ [->|(Hmax & victim & v & Hv & -> & Hold)]]; [by left|].
    cbn [active_ with_active]. destruct (decide (victim = k)) as [->|Hd]; [|left; by rewrite lookup_delete_ne].
    right. split; [done|]. rewrite Hk in Hv. by injection Hv as ->.
Qed.

Lemma find_or_emplace_findings e key : findings_ (find_or_emplace order e key).1 = findings_ e.
Proof using Horder. unfold find_or_emplace. destruct (active_ e !! key); [done|]. apply (evict_oldest_rest order Horder e). Qed.

Lemma ingest_locked_duplicate e o now :
  duplicate (default new_state (active_ e !! correlation_key o)) o now = true ->
  ingest_locked order e o now = (e, None).
Proof.
  intros Hd. unfold ingest_locked, find_or_emplace.
  destruct (active_ e !! correlation_key o) as [state|]; [|discriminate Hd].
  cbn [from_option id] in Hd. by rewrite Hd.
Qed.

Lemma ingest_locked_update policy e fs o now :
  corr_inv policy e fs ->
  let key := correlation_key o in
  let state := default new_state (active_ e !! key) in
  let state' := record_observation state o now in
  let raised := last_reported_score state <? score_for state' in
  let e' := (ingest_locked order e o now).1 in
  duplicate state o now = false ->
  active_ e' !! key =
    Some (if raised then reported state' (score_for state') (level_for (score_for state')) else state') /\
  (ingest_locked order e o now).2 =
    (if raised
     then Some (finding_of (next_finding_id_ e) now key state' (score_for state') (level_for (score_for state')))
     else None) /\
  findings_ e' =
    (if raised
     then push_finding (findings_ e) (finding_of (next_finding_id_ e) now key state' (score_for state') (level_for (score_for state')))
     else findings_ e) /\
  next_finding_id_ e' = (if raised then u64 (next_finding_id_ e + 1) else next_finding_id_ e) /\
  (forall k s, k <> key -> active_ e' !! k = Some s -> active_ e !! k = Some s) /\
  (forall k s, k <> key -> active_ e !! k = Some s ->
     active_ e' !! k = Some s \/
     MAX_ACTIVE_KEYS <= Z.of_nat (size (active_ e)) /\
     map_Forall (fun _ s' => a_last_seen s <= a_last_seen s') (active_ e)).
Proof.
  intros Hi. cbv zeta. intros Hdup. unfold ingest_locked. set (key := correlation_key o) in *.
  pose proof (find_or_emplace_spec policy e fs key Hi) as Hfe.
  destruct (find_or_emplace_others e key) as (Eid & Hsub & Hsup). pose proof (find_or_emplace_findings e key) as Ef.
  destruct (find_or_emplace order e key) as [e1 state]. destruct Hfe as (_ & Hk & Est & Hst).
  cbn [fst] in *. rewrite <- Est in *. rewrite Hdup, update_state_spec by apply Hst. cbv zeta. rewrite Eid, Ef.
  destruct (_ <? _); cbn [fst snd active_ findings_ next_finding_id_ with_active].
  all: split; [by rewrite lookup_insert_eq|]; split; [done|]; split; [done|]; split; [done|]; split.
  all: intros k s Hne; rewrite lookup_insert_ne by done; auto.
Qed.

Lemma update_state_inv policy e fs key state o now :
  corr_inv policy e fs -> active_ e !! key = Some state -> state_ok state ->
  valid o = true -> is_double (confidence o) = true ->
  let '(e', r) := update_state e key state o now in
  corr_inv policy e' (fs ++ match r with Some f => [f] | None => [] end).
Proof.
  intros [Hp Hs Hf Hi Hn Ha Ho] Hk Hst Hv Hd.
  pose proof (record_observation_ok state o now Hv Hd Hst) as Hst'.
  pose proof (record_observation_rationale state o now Hv) as Hr.
  rewrite update_state_spec by apply Hst. cbv zeta.
  set (state' := record_observation state o now) in *.
  assert (Hsize : forall s, Z.of_nat (size (<[key := s]> (active_ e))) <= MAX_ACTIVE_KEYS).
  { intros s. by rewrite map_size_insert_Some by eauto. }
  destruct (_ <? _) eqn:Escore.
  - split; cbn [policy_ active_ findings_ next_finding_id_]; try done.
    + by rewrite Hf, push_last.
    + rewrite fmap_app, Hi, length_app. cbn [length]. rewrite Nat.add_1_r, seq_S, fmap_app. cbn. by rewrite Hn.
    + rewrite Hn, length_app. unfold nth_id, u64. cbn [length]. rewrite Zplus_mod_idemp_l. f_equal. lia.
    + apply map_Forall_insert_2; [|done]. split; [apply Hst'|apply score_for_range|done].
    + apply Forall_app. split; [done|]. constructor; [|done].
      apply (finding_of_ok _ _ _ (reported state' (score_for state') (level_for (score_for state')))); [|done].
      split; [apply Hst'|apply score_for_range|done].
  - rewrite app_nil_r. split; cbn [policy_ active_ findings_ next_finding_id_ with_active]; try done.
    by apply map_Forall_insert_2.
Qed.

Lemma corr_step_inv policy e fs op :
  corr_inv policy e fs -> op_typed op ->
  let '(e', r) := corr_step order e op in
  corr_inv policy e' (fs ++ match r with Some f => [f] | None => [] end).
Proof.
  intros Hi Ht. destruct op as [now|o now]; cbn [corr_step].
  - rewrite app_nil_r. by apply expire_inv.
  - destruct (valid o) eqn:Hv; cbn [negb]; [|by rewrite app_nil_r]. unfold ingest_locked.
    pose proof (find_or_emplace_spec policy e fs (correlation_key o) Hi) as Hfe.
    destruct (find_or_emplace order e (correlation_key o)) as [e' state].
    destruct Hfe as (Hi' & Hk & _ & Hst).
    destruct (duplicate state o now); [by rewrite app_nil_r|by apply update_state_inv].
Qed.

Lemma ingest_inv policy e fs o now :
  corr_inv policy e fs -> is_double (confidence o) = true ->
  let '(e', r) := ingest order e o now in
  corr_inv policy e' (fs ++ match r with Some f => [f] | None => [] end).
Proof.
  intros Hi Hd. unfold ingest. destruct (valid o) eqn:Hv; cbn [negb]; [|by rewrite app_nil_r].
  pose proof (corr_step_inv policy _ fs (Locked o now) (expire_inv policy e fs now Hi) Hd) as H.
  cbn [corr_step] in H. by rewrite Hv in H.
Qed.

Lemma corr_run_inv policy e fs ops :
  corr_inv policy e fs -> Forall op_typed ops ->
  let '(e', fs') := corr_run order e ops in corr_inv policy e' (fs ++ fs').
Proof.
  intros Hi Ht. revert e fs Hi. induction Ht as [|op ops Hop Ht IH]; intros e fs Hi; cbn [corr_run].
  - by rewrite app_nil_r.
  - pose proof (corr_step_inv policy e fs op Hi Hop) as Hs. destruct (corr_step order e op) as [e1 r].
    specialize (IH e1 _ Hs). destruct (corr_run order e1 ops) as [e2 rs].
    destruct r; [by rewrite <- app_assoc in IH|by rewrite app_nil_r in IH].
Qed.
End runs.

(** ** Properties *)

(** [ingest] of a valid observation is the two critical sections one after the other. *)
Lemma ingest_two_steps order e o now :
  valid o = true -> ingest order e o now = corr_step order (corr_step order e (Expire now)).1 (Locked o now).
Proof. intros Hv. unfold ingest. cbn [corr_step fst]. by rewrite Hv. Qed.

(** whatever the order in which threads reach the engine's critical sections and
    in which its map is walked, at most 4096 keys are tracked, the deque holds the last
    2000 of the findings returned, their ids count up from one, and [recent] returns
    the newest ones asked for. *)
Theorem correlation_run_log (order : gmap string ActiveState -> list (string * ActiveState))
    (Horder : forall m, order m ≡ₚ map_to_list m)
    (policy : LocalSecurityPolicy) (ops : list corr_op) (Htyped : Forall op_typed ops) :
  let '(e, fs) := corr_run order (new_engine policy) ops in
  policy_ e = policy /\
  Z.of_nat (size (active_ e)) <= 4096 /\
  findings_ e = drop (length fs - 2000) fs /\
  f_id <$> fs = (fun i => u64 (1 + Z.of_nat i)) <$> seq 0 (length fs) /\
  (forall count, 0 <= count -> recent e count = drop (length fs - Z.to_nat (Z.min count 2000)) fs).
Proof.
  pose proof (corr_run_inv order Horder policy _ [] ops (new_engine_inv policy) Htyped) as Hi.
  destruct (corr_run _ _ _) as [e fs]. cbn [app] in Hi. destruct Hi as [Hp Hs Hf Hi _ _ _].
  split; [done|]. split; [done|]. split; [exact Hf|]. split; [exact Hi|].
  intros count Hc. unfold recent. cbv zeta. rewrite Hf, length_drop, drop_drop. unfold MAX_FINDINGS.
  f_equal. destruct (Z.ltb_spec count (Z.of_nat (length fs - (length fs - Z.to_nat 2000)))); lia.
Qed.

(** C3: a single source never raises more than MEDIUM: a finding of level HIGH or
    CRITICAL names at least two distinct sources, in order, its level is that of its
    score, the score is between 0 and 100, and the rationale is not empty. *)
Theorem high_findings_are_corroborated
    (order : gmap string ActiveState -> list (string * ActiveState))
    (Horder : forall m, order m ≡ₚ map_to_list m)
    (policy : LocalSecurityPolicy) (ops : list corr_op) (Htyped : Forall op_typed ops) :
  Forall (fun f =>
    (75 <= f_risk_score f \/ f_level f = HIGH \/ f_level f = CRITICAL ->
       (2 <= length (f_contributing_sources f))%nat) /\
    NoDup (f_contributing_sources f) /\ StronglySorted string_le (f_contributing_sources f) /\
    f_level f = level_for (f_risk_score f) /\ 0 <= f_risk_score f <= 100 /\ f_rationale f <> EmptyString)
    (corr_run order (new_engine policy) ops).2.
Proof.
  pose proof (corr_run_inv order Horder policy _ [] ops (new_engine_inv policy) Htyped) as Hi.
  destruct (corr_run _ _ _) as [e fs]. cbn [app snd] in *. eapply Forall_impl; [exact (ci_ok _ _ _ Hi)|].
  intros f [Hs Hl H1 [Hsort Hnd] Hr]. split; [|done].
  intros Hh. destruct (Nat.le_gt_cases 2 (length (f_contributing_sources f))) as [|Hlt]; [done|]. exfalso.
  specialize (H1 Hlt). rewrite Hl in Hh. unfold level_for in Hh.
  rewrite (proj2 (Z.leb_gt 90 _)), (proj2 (Z.leb_gt 75 _)) in Hh by lia.
  destruct Hh as [|[Hh|Hh]]; [lia|..]; destruct (_ <=? _) in Hh; try discriminate; destruct (_ <=? _) in Hh; discriminate.
Qed.

(** C5: [ingest], branch by branch, from any state a run reaches.  An invalid observation
    changes nothing.  Otherwise exactly the entries go that were not seen within the window,
    and a source that was recorded under the same key less than 30 seconds before changes
    nothing more.  Any other observation is recorded under its key: the times of the entry and
    of the source are renewed, the first path, hash and rationale are kept, and the score is
    the sum of half the rounded percentages of its sources, 20 more from two sources on, cut
    at 100.  A finding is returned and logged exactly when that score is above the one last
    reported, with its level by the thresholds 25, 50, 75 and 90, the next id, the entry's
    data and its sources in order.  Among the other entries only one may go, when 4096 are
    tracked, and it is one that was seen no later than any. *)
Theorem ingest_behaviour (order : gmap string ActiveState -> list (string * ActiveState))
    (Horder : forall m, order m ≡ₚ map_to_list m)
    (policy : LocalSecurityPolicy) (ops : list corr_op) (Htyped : Forall op_typed ops)
    (o : SecurityObservation) (now : Z) :
  let e := (corr_run order (new_engine policy) ops).1 in
  let e1 := expire e now in
  let key := correlation_key o in
  let before := default (Active 0 ∅ EmptyString EmptyString EmptyString 0 SAFE) (active_ e1 !! key) in
  let '(e2, result) := ingest order e o now in
  let repeated := exists s, a_sources before !! source_id o = Some s /\ s_last_seen s <= now < s_last_seen s + 30 * 10 ^ 9 in
  let points sources :=
    Z.min 100 ((foldr (fun p sum => lround (dmul (s_confidence p.2) (dz 50)) + sum) 0 (map_to_list sources) +
                if bool_decide (2 <= size sources)%nat then 20 else 0) mod 2 ^ 32) in
  let graded score :=
    if 90 <=? score then CRITICAL else if 75 <=? score then HIGH else if 50 <=? score then MEDIUM else if 25 <=? score then LOW else SAFE in
  let first_of (a b : string) := if String.eqb a EmptyString then b else a in
  (forall k s, active_ e1 !! k = Some s <->
     active_ e !! k = Some s /\
     ~ (a_last_seen s <= now /\ finding_window policy * 60 * 10 ^ 9 < now - a_last_seen s)) /\
  (policy_ e1 = policy_ e /\ findings_ e1 = findings_ e /\ next_finding_id_ e1 = next_finding_id_ e) /\
  (valid o = false -> e2 = e /\ result = None) /\
  (valid o = true -> repeated -> e2 = e1 /\ result = None) /\
  (valid o = true -> ~ repeated -> exists after,
     active_ e2 !! key = Some after /\ a_last_seen after = now /\
     a_sources after = <[source_id o := Source (confidence o) (suggested_level o) (deterministic o) now]> (a_sources before) /\
     a_file_path after = first_of (a_file_path before) (file_path o) /\
     a_sha256 after = first_of (a_sha256 before) (sha256 o) /\
     a_rationale after = first_of (a_rationale before) (evidence o) /\
     let score := points (a_sources after) in
     (score <= last_reported_score before ->
        result = None /\ findings_ e2 = findings_ e /\ next_finding_id_ e2 = next_finding_id_ e /\
        last_reported_score after = last_reported_score before /\ last_reported_level after = last_reported_level before) /\
     (last_reported_score before < score -> exists f,
        result = Some f /\ findings_ e2 = drop (length (findings_ e) + 1 - 2000) (findings_ e ++ [f]) /\
        next_finding_id_ e2 = (next_finding_id_ e + 1) mod 2 ^ 64 /\
        last_reported_score after = score /\ last_reported_level after = graded score /\
        f_id f = next_finding_id_ e /\ f_timestamp f = now /\ f_level f = graded score /\ f_risk_score f = score /\
        (f_deterministic_signature f = true <-> exists name s, a_sources after !! name = Some s /\ s_deterministic s = true) /\
        f_correlation_key f = key /\ f_file_path f = a_file_path after /\ f_sha256 f = a_sha256 after /\ f_rationale f = a_rationale after /\
        StronglySorted string_le (f_contributing_sources f) /\ NoDup (f_contributing_sources f) /\
        (forall name, In name (f_contributing_sources f) <-> is_Some (a_sources after !! name)) /\
        f_observation_ids f = []) /\
     (forall k s, k <> key -> active_ e2 !! k = Some s -> active_ e1 !! k = Some s) /\
     (forall k s, k <> key -> active_ e1 !! k = Some s ->
        active_ e2 !! k = Some s \/
        4096 <= Z.of_nat (size (active_ e1)) /\
        map_Forall (fun _ s' => a_last_seen s <= a_last_seen s') (active_ e1))).
Proof.
  cbv beta zeta. pose proof (corr_run_inv order Horder policy _ [] ops (new_engine_inv policy) Htyped) as Hi.
  destruct (corr_run _ _ _) as [e fs]. cbn [app fst] in *. destruct (ingest order e o now) as [e2 result] eqn:Ei.
  split. { intros k s. rewrite expire_lookup, (ci_policy _ _ _ Hi). unfold minutes, seconds. by replace (60 * finding_window policy * 10 ^ 9) with (finding_window policy * 60 * 10 ^ 9) by lia. }
  split; [done|]. unfold ingest in Ei. split; [intros Hv; rewrite Hv in Ei; by injection Ei|].
  pose proof (expire_inv policy e fs now Hi) as Hi1.
  assert (Ee : findings_ (expire e now) = findings_ e /\ next_finding_id_ (expire e now) = next_finding_id_ e) by done.
  set (e1 := expire e now) in *. clearbody e1. destruct Ee as [<- <-]. clear Hi. fold new_state. rewrite <- duplicate_spec. split; intros Hv Hdup; rewrite Hv in Ei; cbn [negb] in Ei.
  { rewrite ingest_locked_duplicate in Ei by done. by injection Ei. }
  apply not_true_is_false in Hdup. pose proof (ingest_locked_update order Horder policy e1 fs o now Hi1) as Hu. cbv zeta in Hu.
  rewrite Ei in Hu. cbn [fst snd] in Hu. destruct (Hu Hdup) as (H1 & H2 & H3 & H4 & H5 & H6). clear Hu.
  rewrite push_finding_last in H3 by (rewrite (ci_findings _ _ _ Hi1), length_drop; unfold MAX_FINDINGS; lia).
  set (before := default new_state (active_ e1 !! correlation_key o)) in *. set (after := record_observation before o now) in *.
  exists (if last_reported_score before <? score_for after then reported after (score_for after) (level_for (score_for after)) else after).
  split; [exact H1|]. rewrite <- (first_nonempty (a_file_path before)), <- (first_nonempty (a_sha256 before)).
  rewrite score_for_total in *. set (score := Z.min 100 _) in *.
  destruct (Z.ltb_spec (last_reported_score before) score) as [Hlt|Hge]; (do 5 (split; [done|])).
  - change (a_sources (reported after score (level_for score))) with (a_sources after). fold score.
    split; [intros Hc; lia|]. split; [|by split]. intros _. exists (finding_of (next_finding_id_ e1) now (correlation_key o) after score (level_for score)).
    destruct (sorted_names_spec (a_sources after)) as (S1 & S2 & _ & S4).
    do 9 (split; [done|]). split; [apply any_source_deterministic_spec|]. by split_and!.
  - split; [done|]. split; [intros Hc; lia|by split].
Qed.

(** Two sources on one file. *)
Definition two_sources : list corr_op :=
  [Locked (Obs "yara" YARA_MATCH 0 HIGH (dlit 9 10) true 0 EmptyString "C:\a.exe" EmptyString "rule hit") 0;
   Locked (Obs "scan" YARA_MATCH 0 HIGH (dlit 9 10) false 0 EmptyString "c:/A.EXE" EmptyString "packed") (seconds 1);
   Locked (Obs "scan" YARA_MATCH 0 HIGH (dlit 9 10) false 0 EmptyString "c:/A.EXE" EmptyString "packed") (seconds 2);
   Expire (minutes 5 + seconds 3)].

Lemma two_sources_typed : Forall op_typed two_sources.
Proof. repeat constructor; vm_compute; reflexivity. Qed.

Example two_sources_findings :
  let '(e, fs) := corr_run map_to_list (new_engine default_policy) two_sources in
  (fun f => (f_id f, f_risk_score f, f_level f, f_contributing_sources f, f_file_path f)) <$> fs =
    [(1, 45, LOW, ["yara"]%string, "C:\a.exe"%string);
     (2, 100, CRITICAL, ["scan"; "yara"]%string, "C:\a.exe"%string)] /\
  size (active_ e) = 0%nat.
Proof. vm_compute. split; reflexivity. Qed.

Lemma correlation_run_log_witness :
  findings_ (corr_run map_to_list (new_engine default_policy) two_sources).1 =
  (corr_run map_to_list (new_engine default_policy) two_sources).2.
Proof.
  pose proof (correlation_run_log map_to_list (fun m => reflexivity _) default_policy two_sources two_sources_typed) as H.
  vm_compute in H. vm_compute. apply H.
Defined.

Lemma high_findings_are_corroborated_witness :
  Forall (fun f => 75 <= f_risk_score f -> (2 <= length (f_contributing_sources f))%nat)
    (corr_run map_to_list (new_engine default_policy) two_sources).2.
Proof.
  eapply Forall_impl; [exact (high_findings_are_corroborated map_to_list (fun m => reflexivity _)
    default_policy two_sources two_sources_typed)|].
  intros f [H _] Hs. apply H. by left.
Defined.

Lemma ingest_behaviour_witness :
  let e := (corr_run map_to_list (new_engine default_policy) (take 1 two_sources)).1 in
  let o := Obs "yara" YARA_MATCH 0 HIGH (dlit 9 10) true 0 EmptyString "C:\a.exe" EmptyString "rule hit" in
  (ingest map_to_list e o (seconds 29)).2 = None /\ (ingest map_to_list e o (seconds 29)).1 = expire e (seconds 29).
Proof.
  pose proof (ingest_behaviour map_to_list (fun m => reflexivity _) default_policy (take 1 two_sources) (Forall_take _ 1 _ two_sources_typed)
    (Obs "yara" YARA_MATCH 0 HIGH (dlit 9 10) true 0 EmptyString "C:\a.exe" EmptyString "rule hit") (seconds 29)) as H.
  cbv zeta in *. destruct (ingest _ _ _ _) as [e2 result]. destruct H as (_ & _ & _ & H & _). cbn [fst snd].
  destruct H as [H1 H2]; [vm_compute; reflexivity| |split; [exact H2|exact H1]].
  eexists. split; [vm_compute; reflexivity|]. vm_compute. split; [discriminate|reflexivity].
Defined.
