(* ===== verification/Pipeline.v ===== *)
(** * Pipeline: the security pipeline as concurrent steps

    Models src/src/security/security_pipeline.cpp.  Publishers, the worker thread and
    the owner of the pipeline run concurrently; a step is what one of them does
    between two points where another may run.  [publish] reads [running_] and then
    enters the bus; the worker's loop is split at the return of [wait_pop], at the
    test of [closed] and at the two locks of [process]; [stop] returns when its join
    does.  [start] and [stop] are called by the owner, one after the other. *)
From S2P Require Import Prelude Float64 Asn1 Observation TelemetryBus Policy Correlation.

Definition MAX_CANDIDATES : Z := 2000.

(** ** Candidates and their approval *)

Definition push_candidate (candidates : list RemediationCandidate) (c : RemediationCandidate) :
    list RemediationCandidate :=
  let candidates := candidates ++ [c] in
  if MAX_CANDIDATES <? Z.of_nat (length candidates) then tail candidates else candidates.

Definition with_state (c : RemediationCandidate) (s : CandidateApprovalState) : RemediationCandidate :=
  Candidate (c_finding_id c) (c_requested_action c) s (c_target_path c) (c_expected_sha256 c) (c_rationale c).

Fixpoint transition_candidate (candidates : list RemediationCandidate) (finding_id : Z)
    (target : CandidateApprovalState) : list RemediationCandidate * ErrorCode :=
  match candidates with
  | [] => ([], ERR_NOT_FOUND)
  | c :: rest =>
      if negb (c_finding_id c =? finding_id) then
        let '(rest, code) := transition_candidate rest finding_id target in (c :: rest, code)
      else if bool_decide (c_approval_state c = target) then (c :: rest, OK)
      else if negb (bool_decide (c_approval_state c = PENDING_APPROVAL)) then (c :: rest, ERR_INVALID_TRANSITION)
      else (with_state c target :: rest, OK)
  end.

Definition approve_candidate (candidates : list RemediationCandidate) (finding_id : Z) :=
  transition_candidate candidates finding_id APPROVED.

Definition reject_candidate (candidates : list RemediationCandidate) (finding_id : Z) :=
  transition_candidate candidates finding_id REJECTED.

Fixpoint find_candidate (candidates : list RemediationCandidate) (finding_id : Z) : option RemediationCandidate :=
  match candidates with
  | [] => None
  | c :: rest => if c_finding_id c =? finding_id then Some c else find_candidate rest finding_id
  end.

Definition recent_candidates (candidates : list RemediationCandidate) (count : Z) : list RemediationCandidate :=
  let n := Z.of_nat (length candidates) in
  drop (Z.to_nat (if count <? n then n - count else 0)) candidates.

(** ** The pipeline *)

(** Where the worker thread is. *)
Inductive worker :=
  | NoThread                        (** not started *)
  | Waiting                         (** in [wait_pop] *)
  | TimedOut                        (** [wait_pop] has returned [false] *)
  | Processing (o : SecurityObservation)
  | Deciding (f : SecurityFinding)  (** [ingest] has returned a finding *)
  | Exited.

Record SecurityPipeline := Pipeline {
  pp_policy : LocalSecurityPolicy;
  pp_bus : TelemetryBus;
  pp_correlation : CorrelationEngine;
  pp_running : bool;
  pp_worker : worker;
  pp_stopping : bool;                          (** [stop] is at its join *)
  pp_inflight : list SecurityObservation;      (** calls of [publish] that read [running_] *)
  pp_candidates : list RemediationCandidate;
}.

Definition new_pipeline (queue_capacity : Z) (policy : LocalSecurityPolicy) : SecurityPipeline :=
  Pipeline policy (new_bus queue_capacity) (new_engine policy) false NoThread false [] [].

Definition set_bus (p : SecurityPipeline) (b : TelemetryBus) : SecurityPipeline :=
  Pipeline (pp_policy p) b (pp_correlation p) (pp_running p) (pp_worker p) (pp_stopping p) (pp_inflight p) (pp_candidates p).
Definition set_worker (p : SecurityPipeline) (w : worker) : SecurityPipeline :=
  Pipeline (pp_policy p) (pp_bus p) (pp_correlation p) (pp_running p) w (pp_stopping p) (pp_inflight p) (pp_candidates p).
Definition set_correlation (p : SecurityPipeline) (e : CorrelationEngine) : SecurityPipeline :=
  Pipeline (pp_policy p) (pp_bus p) e (pp_running p) (pp_worker p) (pp_stopping p) (pp_inflight p) (pp_candidates p).
Definition set_running (p : SecurityPipeline) (running stopping : bool) : SecurityPipeline :=
  Pipeline (pp_policy p) (pp_bus p) (pp_correlation p) running (pp_worker p) stopping (pp_inflight p) (pp_candidates p).
Definition set_inflight (p : SecurityPipeline) (l : list SecurityObservation) : SecurityPipeline :=
  Pipeline (pp_policy p) (pp_bus p) (pp_correlation p) (pp_running p) (pp_worker p) (pp_stopping p) l (pp_candidates p).
Definition set_candidates (p : SecurityPipeline) (l : list RemediationCandidate) : SecurityPipeline :=
  Pipeline (pp_policy p) (pp_bus p) (pp_correlation p) (pp_running p) (pp_worker p) (pp_stopping p) (pp_inflight p) l.

(** What a step shows. *)
Inductive event :=
  | Started (code : ErrorCode)
  | Stopped (code : ErrorCode)
  | Returned (o : SecurityObservation) (r : PublishResult)
  | Processed (o : SecurityObservation)
  | Found (f : SecurityFinding)
  | Decided (finding_id : Z) (target : CandidateApprovalState) (code : ErrorCode).

Inductive action :=
  | CallStart (thread_ok : bool)
  | CallStop
  | Join
  | PublishCheck (o : SecurityObservation)
  | PublishBus (i : nat)
  | WorkerWait
  | WorkerClosedTest
  | WorkerIngest (now : Z)
  | WorkerDecide
  | Transition (finding_id : Z) (target : CandidateApprovalState).

(** [start]; [thread_ok] tells whether the thread could be created. *)
Definition start (p : SecurityPipeline) (thread_ok : bool) : SecurityPipeline * ErrorCode :=
  if pp_running p then (p, OK)
  else if closed_ (pp_bus p) then (p, ERR_ENGINE_START)
  else if thread_ok then (set_worker (set_running p true (pp_stopping p)) Waiting, OK)
  else (p, ERR_ENGINE_START).

(** [stop] up to its join; a second call returns at once. *)
Definition stop (p : SecurityPipeline) : SecurityPipeline * list event :=
  if negb (pp_running p) then (p, [Stopped OK])
  else (set_bus (set_running p false true) (close (pp_bus p)), []).

(** [wait_pop] in the worker's loop. *)
Definition worker_wait (p : SecurityPipeline) : SecurityPipeline :=
  let '(b, r) := wait_pop (pp_bus p) in
  set_worker (set_bus p b) match r with Some o => Processing o | None => TimedOut end.

Definition worker_closed_test (p : SecurityPipeline) : SecurityPipeline :=
  set_worker p (if closed_ (pp_bus p) then Exited else Waiting).

Section eviction_order.
Context (order : gmap string ActiveState -> list (string * ActiveState)).

(** [process] up to the finding. *)
Definition process_ingest (p : SecurityPipeline) (o : SecurityObservation) (now : Z) :
    SecurityPipeline * list event :=
  let '(e, r) := ingest order (pp_correlation p) o now in
  let p := set_correlation p e in
  match r with
  | None => (set_worker p Waiting, [Processed o])
  | Some f => (set_worker p (Deciding f), [Processed o; Found f])
  end.

(** The rest of [process]. *)
Definition process_decide (p : SecurityPipeline) (f : SecurityFinding) : SecurityPipeline :=
  let p := set_worker p Waiting in
  match candidate_for f (pp_policy p) with
  | None => p
  | Some c => set_candidates p (push_candidate (pp_candidates p) c)
  end.

(** One atomic step; [None] when its thread is not at that point. *)
Definition pipe_step (p : SecurityPipeline) (a : action) : option (SecurityPipeline * list event) :=
  match a with
  | CallStart thread_ok => let '(p, code) := start p thread_ok in Some (p, [Started code])
  | CallStop => Some (stop p)
  | Join =>
      match pp_stopping p, pp_worker p with
      | true, Exited => Some (set_running p (pp_running p) false, [Stopped OK])
      | _, _ => None
      end
  | PublishCheck o =>
      if negb (pp_running p) then Some (p, [Returned o CLOSED])
      else Some (set_inflight p (pp_inflight p ++ [o]), [])
  | PublishBus i =>
      match pp_inflight p !! i with
      | Some o =>
          let '(b, r) := publish (pp_bus p) o in
          Some (set_inflight (set_bus p b) (delete i (pp_inflight p)), [Returned o r])
      | None => None
      end
  | WorkerWait => match pp_worker p with Waiting => Some (worker_wait p, []) | _ => None end
  | WorkerClosedTest => match pp_worker p with TimedOut => Some (worker_closed_test p, []) | _ => None end
  | WorkerIngest now => match pp_worker p with Processing o => Some (process_ingest p o now) | _ => None end
  | WorkerDecide => match pp_worker p with Deciding f => Some (process_decide p f, []) | _ => None end
  | Transition finding_id target =>
      let '(l, code) := transition_candidate (pp_candidates p) finding_id target in
      Some (set_candidates p l, [Decided finding_id target code])
  end.

(** The confidence an observation carries is a value of type [double]. *)
Definition action_typed (a : action) : Prop :=
  match a with PublishCheck o => is_double (confidence o) = true | _ => True end.

(** The states of a pipeline, each with what has been seen on the way. *)
Inductive reachable (queue_capacity : Z) (policy : LocalSecurityPolicy) : SecurityPipeline -> list event -> Prop :=
  | reach_new : reachable queue_capacity policy (new_pipeline queue_capacity policy) []
  | reach_step p es a p' es' :
      reachable queue_capacity policy p es -> action_typed a -> pipe_step p a = Some (p', es') ->
      reachable queue_capacity policy p' (es ++ es').

Fixpoint pipe_run (p : SecurityPipeline) (actions : list action) : option (SecurityPipeline * list event) :=
  match actions with
  | [] => Some (p, [])
  | a :: actions =>
      match pipe_step p a with
      | None => None
      | Some (p, es) =>
          match pipe_run p actions with
          | None => None
          | Some (p, es') => Some (p, es ++ es')
          end
      end
  end.
End eviction_order.

(** What has been accepted, processed and found, in order. *)
Definition accepted_in (es : list event) : list SecurityObservation :=
  omap (fun e => match e with Returned o ACCEPTED => Some o | _ => None end) es.
Definition processed_in (es : list event) : list SecurityObservation :=
  omap (fun e => match e with Processed o => Some o | _ => None end) es.
Definition found_in (es : list event) : list SecurityFinding :=
  omap (fun e => match e with Found f => Some f | _ => None end) es.

(** ** Control: who may be where *)

Record control_inv (p : SecurityPipeline) : Prop := {
  ct_running : pp_running p = true -> closed_ (pp_bus p) = false /\ pp_worker p <> NoThread;
  ct_stopping : pp_stopping p = true -> closed_ (pp_bus p) = true /\ pp_worker p <> NoThread;
  ct_idle : pp_running p = false -> closed_ (pp_bus p) = false -> pp_worker p = NoThread;
  ct_exited : pp_worker p = Exited -> closed_ (pp_bus p) = true;
}.

Lemma publish_closed b o : closed_ (publish b o).1 = closed_ b.
Proof. unfold publish. by repeat case_match. Qed.

Lemma wait_pop_closed b : closed_ (wait_pop b).1 = closed_ b.
Proof. unfold wait_pop, try_pop. by destruct (queue_ b). Qed.

(** Takes a successful step apart: one goal for each way the action can end. *)
Ltac step_cases H :=
  lazymatch type of H with pipe_step _ ?p ?a = Some (?p', ?es') =>
    destruct a; cbn [pipe_step] in H; unfold start, stop, process_ingest, process_decide in H;
    repeat first [ case_match; simplify_eq/= | simplify_eq/= ]
  end.

Lemma control_step order p a p' es' :
  control_inv p -> pipe_step order p a = Some (p', es') -> control_inv p'.
Proof.
  intros Hi Hs. step_cases Hs; try done; destruct Hi as [Cr Cs Ci Ce].
  all: try (split; cbn; intuition congruence).
  - apply negb_false_iff in H. split; cbn; intuition congruence.
  - match goal with E : publish ?b ?o = _ |- _ => pose proof (publish_closed b o) as Hp; rewrite E in Hp end.
    cbn in Hp. split; cbn; rewrite Hp; intuition congruence.
  - pose proof (wait_pop_closed (pp_bus p)) as Hw. unfold worker_wait.
    destruct (wait_pop (pp_bus p)) as [b [o|]]; cbn in Hw; split; cbn; rewrite ?Hw; intuition congruence.
  - unfold worker_closed_test. destruct (closed_ (pp_bus p)) eqn:E; split; cbn; intuition congruence.
Qed.

(** ** Flow: every accepted observation is in one place *)

Definition holding (w : worker) : list SecurityObservation :=
  match w with Processing o => [o] | _ => [] end.

Definition typed (o : SecurityObservation) : Prop := is_double (confidence o) = true.

Record flow_inv (queue_capacity : Z) (p : SecurityPipeline) (es : list event) : Prop := {
  fl_flow : accepted_in es = processed_in es ++ holding (pp_worker p) ++ queue_ (pp_bus p);
  fl_bound : Z.of_nat (length (queue_ (pp_bus p))) <= capacity_ (pp_bus p);
  fl_capacity : capacity_ (pp_bus p) = Z.max 1 queue_capacity;
  fl_typed : Forall typed (holding (pp_worker p) ++ queue_ (pp_bus p) ++ pp_inflight p);
}.

Lemma accepted_in_app es es' : accepted_in (es ++ es') = accepted_in es ++ accepted_in es'.
Proof. apply omap_app. Qed.
Lemma processed_in_app es es' : processed_in (es ++ es') = processed_in es ++ processed_in es'.
Proof. apply omap_app. Qed.
Lemma found_in_app es es' : found_in (es ++ es') = found_in es ++ found_in es'.
Proof. apply omap_app. Qed.

Lemma publish_flow b o b' r :
  publish b o = (b', r) -> Z.of_nat (length (queue_ b)) <= capacity_ b ->
  queue_ b' = queue_ b ++ accepted_in [Returned o r] /\ capacity_ b' = capacity_ b /\
  Z.of_nat (length (queue_ b')) <= capacity_ b.
Proof.
  unfold publish. intros H Hb. repeat case_match; simplify_eq/=; rewrite ?app_nil_r; try done.
  bool_facts. rewrite length_app. cbn. split_and!; try done. lia.
Qed.

Lemma flow_step queue_capacity order p es a p' es' :
  control_inv p -> flow_inv queue_capacity p es -> action_typed a -> pipe_step order p a = Some (p', es') ->
  flow_inv queue_capacity p' (es ++ es').
Proof.
  intros Ctl Hi Ha Hs. step_cases Hs; destruct Hi as [Hf Hb Hc Ht].
  all: try match goal with E : pp_worker ?q = _ |- _ => rewrite E in Hf, Ht; rename E into Ew end.
  all: try (split; cbn; try rewrite Ew; rewrite ?accepted_in_app, ?processed_in_app; cbn;
              rewrite ?app_nil_r, <- ?app_assoc; done).
  - rewrite (ct_idle p Ctl) in Hf, Ht by done.
    split; cbn; rewrite ?accepted_in_app, ?processed_in_app; cbn; by rewrite ?app_nil_r.
  - split; cbn; rewrite ?app_nil_r; try done. rewrite !app_assoc. apply Forall_app. rewrite <- app_assoc. by split; [|constructor].
  - match goal with E : publish _ _ = _ |- _ => destruct (publish_flow _ _ _ _ E Hb) as (Eq & Ec & El) end.
    split; cbn; rewrite ?accepted_in_app, ?processed_in_app; cbn; rewrite ?app_nil_r, ?Eq, ?Ec; try done.
    + by rewrite Hf, !app_assoc.
    + rewrite <- Eq. done.
    + apply Forall_app in Ht as [Hh Ht]. apply Forall_app in Ht as [Hq Hin].
      rewrite !Forall_app. split_and!; try done; [|by apply Forall_delete].
      assert (typed s) by (eapply Forall_lookup_1; done). destruct p0; by repeat constructor.
  - unfold worker_wait, wait_pop, try_pop. destruct (queue_ (pp_bus p)) as [|o q] eqn:Eq;
      cbn in *; rewrite ?app_nil_r; split; cbn; rewrite ?Eq; cbn; try done; try lia.
  - unfold worker_closed_test. destruct (closed_ _); split; cbn; rewrite ?app_nil_r; done.
  - apply Forall_cons in Ht as [_ Ht]. split; cbn; rewrite ?accepted_in_app, ?processed_in_app; cbn;
      rewrite ?app_nil_r, <- ?app_assoc; done.
  - apply Forall_cons in Ht as [_ Ht]. split; cbn; rewrite ?accepted_in_app, ?processed_in_app; cbn;
      rewrite ?app_nil_r, <- ?app_assoc; done.
Qed.

(** ** Findings and candidates *)

Definition deciding (w : worker) : list SecurityFinding := match w with Deciding f => [f] | _ => [] end.

(** [c] was made from a finding of the run that the policy lets through, and it has
    left its first state only by a successful call for its id. *)
Definition candidate_ok (policy : LocalSecurityPolicy) (es : list event) (c : RemediationCandidate) : Prop :=
  (exists f, In f (found_in es) /\ candidate_for f policy = Some (with_state c PENDING_APPROVAL)) /\
  (c_approval_state c = PENDING_APPROVAL \/ In (Decided (c_finding_id c) (c_approval_state c) OK) es).

Record report_inv (policy : LocalSecurityPolicy) (p : SecurityPipeline) (es : list event) : Prop := {
  rp_policy : pp_policy p = policy;
  rp_correlation : corr_inv policy (pp_correlation p) (found_in es);
  rp_bound : Z.of_nat (length (pp_candidates p)) <= MAX_CANDIDATES;
  rp_candidates : Forall (candidate_ok policy es) (pp_candidates p);
  rp_ids : exists settled, found_in es = settled ++ deciding (pp_worker p) /\
             (c_finding_id <$> pp_candidates p) `sublist_of` (f_id <$> settled);
}.

Lemma candidate_ok_mono policy es es' c : candidate_ok policy es c -> candidate_ok policy (es ++ es') c.
Proof.
  intros [(f & Hf & Hc) Ha]. split.
  - exists f. rewrite found_in_app. split; [apply in_app_iff; by left|done].
  - destruct Ha; [by left|right]. apply in_app_iff. by left.
Qed.

Lemma candidate_for_fields f policy c :
  candidate_for f policy = Some c ->
  c_finding_id c = f_id f /\ c_approval_state c = PENDING_APPROVAL /\ with_state c PENDING_APPROVAL = c.
Proof.
  unfold candidate_for. destruct (negb _); [done|]. intros [= <-]. done.
Qed.

Lemma push_candidate_spec l c :
  Z.of_nat (length l) <= MAX_CANDIDATES ->
  Z.of_nat (length (push_candidate l c)) <= MAX_CANDIDATES /\ push_candidate l c `sublist_of` l ++ [c].
Proof.
  intros Hl. unfold push_candidate. cbv zeta. rewrite length_app. cbn [length].
  destruct (Z.ltb_spec MAX_CANDIDATES (Z.of_nat (length l + 1))) as [H|H].
  - destruct l as [|x l]; [cbn in H; unfold MAX_CANDIDATES in H; lia|].
    cbn [app tail]. rewrite length_app. cbn [length] in *. split; [lia|]. by apply sublist_cons.
  - split; [rewrite length_app; cbn; lia|done].
Qed.

(** What a transition does: the first candidate with the id changes state, and only
    when it was pending. *)
Lemma transition_spec l id target l' code :
  transition_candidate l id target = (l', code) ->
  (code = ERR_NOT_FOUND /\ l' = l /\ Forall (fun c => c_finding_id c <> id) l) \/
  exists pre c post, l = pre ++ c :: post /\ Forall (fun c => c_finding_id c <> id) pre /\ c_finding_id c = id /\
    ((c_approval_state c = target /\ l' = l /\ code = OK) \/
     (c_approval_state c <> target /\ c_approval_state c <> PENDING_APPROVAL /\ l' = l /\ code = ERR_INVALID_TRANSITION) \/
     (c_approval_state c <> target /\ c_approval_state c = PENDING_APPROVAL /\
      l' = pre ++ with_state c target :: post /\ code = OK)).
Proof.
  revert l' code. induction l as [|c l IH]; intros l' code H; cbn [transition_candidate] in H.
  { simplify_eq. by left. }
  destruct (Z.eqb_spec (c_finding_id c) id) as [E|E]; cbn [negb] in H.
  - right. exists [], c, l. repeat case_bool_decide; simplify_eq/=; split_and!; try done; tauto.
  - destruct (transition_candidate l id target) as [l1 code1]. simplify_eq.
    destruct (IH _ _ eq_refl) as [(-> & -> & Hall)|(pre & c' & post & -> & Hpre & Hid & Hcase)].
    + left. split_and!; [done..|]. by constructor.
    + right. exists (c :: pre), c', post. split; [done|]. split; [by constructor|]. split; [done|].
      destruct Hcase as [(? & -> & ?)|[(? & ? & -> & ?)|(? & ? & -> & ?)]]; tauto.
Qed.

Lemma sublist_Forall {A} (P : A -> Prop) l k : Forall P k -> l `sublist_of` k -> Forall P l.
Proof. rewrite !Forall_forall. intros Hk Hs x Hx. by eapply Hk, elem_of_sublist. Qed.

Section steps.
Context (order : gmap string ActiveState -> list (string * ActiveState)).
Context (Horder : forall m, order m ≡ₚ map_to_list m).

(** A step that leaves the correlation engine, the candidates and the finding under
    decision alone. *)
Lemma report_frame policy p es p' es' :
  report_inv policy p es -> found_in es' = [] -> pp_policy p' = pp_policy p ->
  pp_correlation p' = pp_correlation p -> pp_candidates p' = pp_candidates p ->
  deciding (pp_worker p') = deciding (pp_worker p) -> report_inv policy p' (es ++ es').
Proof.
  intros [Hp Hc Hb Ho Hi] Hf Ep Ec Ed Ew.
  assert (Efound : found_in (es ++ es') = found_in es) by (by rewrite found_in_app, Hf, app_nil_r).
  split; rewrite ?Ep, ?Ec, ?Ed, ?Ew, ?Efound; try done.
  eapply Forall_impl; [exact Ho|]. intros c. apply candidate_ok_mono.
Qed.

Lemma report_ingest policy p es o now p' es' :
  report_inv policy p es -> pp_worker p = Processing o -> typed o ->
  process_ingest order p o now = (p', es') -> report_inv policy p' (es ++ es').
Proof.
  intros [Hp Hc Hb Ho (settled & Es & Hsub)] Ew Ht H.
  rewrite Ew, app_nil_r in Es. cbn [deciding] in Es. unfold process_ingest in H.
  pose proof (ingest_inv order Horder policy _ _ o now Hc Ht) as Hi.
  destruct (ingest order (pp_correlation p) o now) as [e [f|]]; simplify_eq; split; cbn; try done.
  all: rewrite ?found_in_app; try done.
  all: try (eapply Forall_impl; [exact Ho|]; intros c; apply candidate_ok_mono).
  - exists (found_in es). done.
  - exists (found_in es). done.
Qed.

Lemma report_decide policy p es f :
  report_inv policy p es -> pp_worker p = Deciding f -> report_inv policy (process_decide p f) es.
Proof.
  intros [Hp Hc Hb Ho (settled & Es & Hsub)] Ew. rewrite Ew in Es. cbn [deciding] in Es. unfold process_decide.
  change (pp_policy (set_worker p Waiting)) with (pp_policy p). rewrite Hp.
  destruct (candidate_for f policy) as [c|] eqn:Ec.
  - destruct (candidate_for_fields _ _ _ Ec) as (Eid & Est & Eself).
    destruct (push_candidate_spec (pp_candidates p) c Hb) as [Hlen Hpush].
    split; cbn; try done.
    + eapply sublist_Forall; [|exact Hpush]. apply Forall_app. split; [done|]. constructor; [|done].
      split; [exists f; split; [rewrite Es; apply in_app_iff; right; by left|by rewrite Eself]|by left].
    + exists (found_in es). split; [by rewrite app_nil_r|].
      etrans; [eapply fmap_sublist, Hpush|]. rewrite Es, !fmap_app. cbn. rewrite Eid.
      by apply sublist_app.
  - split; cbn; try done. exists (found_in es). split; [by rewrite app_nil_r|].
    rewrite Es, fmap_app. etrans; [exact Hsub|]. by apply sublist_inserts_r.
Qed.

Lemma report_transition policy p es id target l code :
  report_inv policy p es -> transition_candidate (pp_candidates p) id target = (l, code) ->
  report_inv policy (set_candidates p l) (es ++ [Decided id target code]).
Proof.
  intros Hi H. pose proof Hi as [Hp Hc Hb Ho (settled & Es & Hsub)].
  destruct (transition_spec _ _ _ _ _ H) as [(-> & -> & _)|(pre & c & post & El & _ & Eid & Hcase)].
  { by apply (report_frame policy p). }
  destruct Hcase as [(_ & -> & ->)|[(_ & _ & -> & ->)|(_ & Ep & -> & ->)]]; [by apply (report_frame policy p)..|].
  split; cbn; rewrite ?found_in_app, ?app_nil_r; try done.
  - rewrite El in Hb. rewrite length_app in *. exact Hb.
  - rewrite El in Ho. apply Forall_app in Ho as [Ho1 Ho2]. apply Forall_cons in Ho2 as [Ho Ho2].
    apply Forall_app; split; [|constructor].
    1,3: eapply Forall_impl; [eassumption|]; intros x; apply candidate_ok_mono.
    destruct Ho as [(f & Hf & Hcf) _]. split.
    + exists f. rewrite found_in_app. split; [apply in_app_iff; by left|done].
    + right. cbn. rewrite Eid. apply in_app_iff. right. by left.
  - exists settled. split; [done|]. rewrite El in Hsub. rewrite !fmap_app in *. exact Hsub.
Qed.

Lemma report_step policy p es a p' es' queue_capacity :
  control_inv p -> flow_inv queue_capacity p es -> report_inv policy p es -> action_typed a ->
  pipe_step order p a = Some (p', es') -> report_inv policy p' (es ++ es').
Proof.
  intros Ctl Hfl Hi Ha Hs. destruct a; cbn [pipe_step] in Hs.
  all: try (unfold stop in Hs; repeat case_match; simplify_eq/=; by eapply report_frame).
  - unfold start in Hs. repeat case_match; simplify_eq/=; try (by eapply report_frame).
    eapply report_frame; [exact Hi|done..|]. cbn. by rewrite (ct_idle p Ctl).
  - destruct (pp_worker p) eqn:Ew; simplify_eq. unfold worker_wait.
    destruct (wait_pop _) as [b r]. apply (report_frame policy p); try done. rewrite Ew. by destruct r.
  - destruct (pp_worker p) eqn:Ew; simplify_eq. unfold worker_closed_test.
    apply (report_frame policy p); try done. rewrite Ew. cbn. by destruct (closed_ _).
  - destruct (pp_worker p) eqn:Ew; simplify_eq. pose proof (fl_typed _ _ _ Hfl) as Ht. rewrite Ew in Ht.
    apply Forall_cons in Ht as [Ht _]. by apply (report_ingest policy p es o now).
  - destruct (pp_worker p) eqn:Ew; simplify_eq. rewrite app_nil_r. by apply report_decide.
  - destruct (transition_candidate _ _ _) eqn:Et; simplify_eq. by apply report_transition.
Qed.

Lemma reachable_inv queue_capacity policy p es :
  reachable order queue_capacity policy p es ->
  control_inv p /\ flow_inv queue_capacity p es /\ report_inv policy p es.
Proof.
  induction 1 as [|p es a p' es' _ (Hc & Hf & Hr) Ha Hs].
  - split_and!.
    + by split.
    + split; cbn; try done. lia.
    + split; [done|apply new_engine_inv|done|constructor|by exists []].
  - split_and!; [by eapply control_step|by eapply flow_step|by eapply report_step].
Qed.
End steps.

(** ** The worker on its own *)

Section worker_loop.
Context (order : gmap string ActiveState -> list (string * ActiveState)).
Context (Horder : forall m, order m ≡ₚ map_to_list m).

(** [worker_loop] run to its end while nobody else takes a step, with the clock's
    readings; [None] when the fuel runs out or there is no thread. *)
Fixpoint worker_loop (fuel : nat) (clock : nat -> Z) (p : SecurityPipeline) :
    option (SecurityPipeline * list event) :=
  match fuel with
  | O => None
  | S fuel =>
      let continue r :=
        match r with
        | Some (p, es) =>
            match worker_loop fuel clock p with Some (p, es') => Some (p, es ++ es') | None => None end
        | None => None
        end in
      match pp_worker p with
      | NoThread => None
      | Exited => Some (p, [])
      | Waiting => continue (pipe_step order p WorkerWait)
      | TimedOut => continue (pipe_step order p WorkerClosedTest)
      | Processing _ => continue (pipe_step order p (WorkerIngest (clock fuel)))
      | Deciding _ => continue (pipe_step order p WorkerDecide)
      end
  end.

(** The steps left when the bus is closed. *)
Definition worker_measure (p : SecurityPipeline) : nat :=
  let n := (3 * length (queue_ (pp_bus p)))%nat in
  match pp_worker p with
  | Waiting => n + 2 | Processing _ => n + 4 | Deciding _ => n + 3 | TimedOut => 1 | NoThread | Exited => 0
  end.

(** Will the worker look at the queue again before it ends? *)
Definition looks_again (p : SecurityPipeline) : bool :=
  match pp_worker p with Waiting | Processing _ | Deciding _ => true | _ => false end.

Definition will_drain (p : SecurityPipeline) : Prop := looks_again p = true \/ queue_ (pp_bus p) = [].

Lemma process_ingest_bus p o now p' es :
  process_ingest order p o now = (p', es) ->
  pp_bus p' = pp_bus p /\ (pp_worker p' = Waiting \/ exists f, pp_worker p' = Deciding f).
Proof.
  unfold process_ingest. destruct (ingest _ _ _ _) as [e [f|]]; intros [= <- <-]; cbn; eauto.
Qed.

Lemma process_decide_bus p f :
  pp_bus (process_decide p f) = pp_bus p /\ pp_worker (process_decide p f) = Waiting.
Proof. unfold process_decide. by destruct (candidate_for _ _). Qed.

(** One step of the worker comes closer to the end, and leaves the queue empty or
    will look at it again. *)
Lemma worker_progress p now :
  closed_ (pp_bus p) = true -> pp_worker p <> NoThread -> pp_worker p <> Exited ->
  exists a p' es, pipe_step order p a = Some (p', es) /\ action_typed a /\
    (forall fuel clock, clock fuel = now -> worker_loop (S fuel) clock p =
       match worker_loop fuel clock p' with Some (q, es') => Some (q, es ++ es') | None => None end) /\
    closed_ (pp_bus p') = true /\ pp_worker p' <> NoThread /\ (worker_measure p' < worker_measure p)%nat /\
    (will_drain p -> will_drain p').
Proof.
  intros Hc Hn Hx. destruct (pp_worker p) as [| | |o|f|] eqn:Ew; [done| | | | |done].
  - exists WorkerWait, (worker_wait p), []. cbn [pipe_step worker_loop]. rewrite Ew.
    split; [done|]. split; [done|]. split; [done|].
    unfold worker_wait, wait_pop, try_pop, worker_measure, will_drain, looks_again. rewrite Ew.
    destruct (queue_ (pp_bus p)) as [|o q] eqn:Eq; cbn -[Nat.mul]; rewrite ?Eq; cbn -[Nat.mul];
      (split; [done|]; split; [done|]; split; [lia|]; intros _; by auto).
  - exists WorkerClosedTest, (worker_closed_test p), []. cbn [pipe_step worker_loop]. rewrite Ew.
    split; [done|]. split; [done|]. split; [done|].
    unfold worker_closed_test, worker_measure, will_drain, looks_again. rewrite Hc, Ew. cbn.
    split; [done|]; split; [done|]; split; [lia|done].
  - destruct (process_ingest order p o now) as [p' es] eqn:E.
    exists (WorkerIngest now), p', es. cbn [pipe_step worker_loop]. rewrite Ew, E.
    split; [done|]. split; [done|]. split; [intros fuel clock ->; by rewrite E|].
    destruct (process_ingest_bus _ _ _ _ _ E) as [Eb Ewk]. unfold worker_measure, will_drain, looks_again. rewrite Eb, Ew.
    destruct Ewk as [-> | [f ->]]; (split; [done|]; split; [done|]; split; [lia|by left]).
  - exists WorkerDecide, (process_decide p f), []. cbn [pipe_step worker_loop]. rewrite Ew.
    split; [done|]. split; [done|]. split; [done|].
    destruct (process_decide_bus p f) as [Eb Ewk]. unfold worker_measure, will_drain, looks_again. rewrite Eb, Ewk, Ew.
    split; [done|]. split; [done|]. split; [lia|by left].
Qed.

Lemma worker_loop_drains queue_capacity policy clock fuel p es :
  reachable order queue_capacity policy p es -> closed_ (pp_bus p) = true -> pp_worker p <> NoThread ->
  (worker_measure p < fuel)%nat ->
  exists p' es', worker_loop fuel clock p = Some (p', es') /\
    reachable order queue_capacity policy p' (es ++ es') /\ pp_worker p' = Exited /\
    (will_drain p -> queue_ (pp_bus p') = []).
Proof.
  revert p es. induction fuel as [|fuel IH]; intros p es Hr Hc Hn Hm; [lia|].
  assert (Hdone : pp_worker p = Exited \/ pp_worker p <> Exited) by (destruct (pp_worker p); auto).
  destruct Hdone as [Ew|Hx].
  { exists p, []. cbn [worker_loop]. rewrite Ew, app_nil_r. split; [done|]. split; [done|]. split; [done|].
    unfold will_drain, looks_again. rewrite Ew. by intros [|]. }
  destruct (worker_progress p (clock fuel) Hc Hn Hx) as (a & p1 & es1 & Hs & Ht & Hl & Hc1 & Hn1 & Hm1 & Hk).
  pose proof (reach_step order _ _ _ _ _ _ _ Hr Ht Hs) as Hr1.
  destruct (IH p1 (es ++ es1) Hr1 Hc1 Hn1 ltac:(lia)) as (p' & es' & Hrun & Hr' & Hex & Hq).
  exists p', (es1 ++ es'). rewrite (Hl fuel clock eq_refl), Hrun, app_assoc. split; [done|]. split; [done|].
  split; [done|]. intros Hw. by apply Hq, Hk.
Qed.
End worker_loop.

(** ** Sequences of approval calls *)

Definition decide_all (l : list RemediationCandidate) (calls : list (Z * CandidateApprovalState)) :
    list RemediationCandidate :=
  foldl (fun l call => (transition_candidate l call.1 call.2).1) l calls.

Lemma find_candidate_app pre c post id :
  Forall (fun c => c_finding_id c <> id) pre ->
  find_candidate (pre ++ c :: post) id = if c_finding_id c =? id then Some c else find_candidate post id.
Proof.
  induction 1 as [|x pre Hx Hpre IH]; [done|]. cbn. by rewrite (proj2 (Z.eqb_neq _ _)) by done.
Qed.

Lemma find_candidate_none l id : Forall (fun c => c_finding_id c <> id) l -> find_candidate l id = None.
Proof. induction 1 as [|x l Hx Hl IH]; [done|]. cbn. by rewrite (proj2 (Z.eqb_neq _ _)) by done. Qed.

Lemma find_candidate_other pre c s post id :
  c_finding_id c <> id ->
  find_candidate (pre ++ with_state c s :: post) id = find_candidate (pre ++ c :: post) id.
Proof.
  intros Hne. induction pre as [|x pre IH]; cbn; [|by rewrite IH].
  by rewrite (proj2 (Z.eqb_neq _ _)) by done.
Qed.

(** What one call does to the candidate it names and to the others. *)
Lemma transition_find l id target :
  let '(l', code) := transition_candidate l id target in
  (match find_candidate l id with
   | None => l' = l /\ code = ERR_NOT_FOUND
   | Some c =>
       if bool_decide (c_approval_state c = target) then l' = l /\ code = OK
       else if bool_decide (c_approval_state c = PENDING_APPROVAL)
       then find_candidate l' id = Some (with_state c target) /\ code = OK
       else l' = l /\ code = ERR_INVALID_TRANSITION
   end) /\
  (forall id', id' <> id -> find_candidate l' id' = find_candidate l id') /\
  c_finding_id <$> l' = c_finding_id <$> l.
Proof.
  destruct (transition_candidate l id target) as [l' code] eqn:H.
  destruct (transition_spec _ _ _ _ _ H) as [(-> & -> & Hall)|(pre & c & post & -> & Hpre & Hid & Hcase)].
  { by rewrite find_candidate_none. }
  rewrite find_candidate_app, Hid, Z.eqb_refl by done.
  destruct Hcase as [(Et & -> & ->)|[(Et & Ep & -> & ->)|(Et & Ep & -> & ->)]].
  - by rewrite bool_decide_eq_true_2.
  - by rewrite !bool_decide_eq_false_2.
  - rewrite bool_decide_eq_false_2, bool_decide_eq_true_2 by done. split.
    + rewrite find_candidate_app by done. cbn. by rewrite Hid, Z.eqb_refl.
    + split; [|by rewrite !fmap_app]. intros id' Hne. apply find_candidate_other. congruence.
Qed.

Lemma decided_is_final l calls id c :
  find_candidate l id = Some c -> c_approval_state c <> PENDING_APPROVAL ->
  Forall (fun call => call.2 <> PENDING_APPROVAL) calls ->
  find_candidate (decide_all l calls) id = Some c.
Proof.
  intros Hf Hs Hc. revert l Hf. induction Hc as [|[id' target] calls Ht Hc IH]; intros l Hf; [done|].
  unfold decide_all. cbn [foldl]. apply IH. pose proof (transition_find l id' target) as H.
  cbn [fst snd] in *. destruct (transition_candidate l id' target) as [l' code]. cbn [fst].
  destruct H as (H & Hother & _). destruct (decide (id' = id)) as [->|Hne]; [|by rewrite Hother].
  rewrite Hf in H. rewrite (bool_decide_eq_false_2 (_ = PENDING_APPROVAL)) in H by done.
  case_bool_decide; by destruct H as [-> _].
Qed.

Lemma nth_id_nodup n : Z.of_nat n < 2 ^ 64 -> NoDup (nth_id <$> seq 0 n).
Proof.
  intros Hn. apply NoDup_fmap_2_strong; [|apply NoDup_seq].
  intros i j Hi Hj E. rewrite elem_of_seq in Hi, Hj. unfold nth_id, u64 in E.
  destruct (Nat.eq_dec i j) as [|Hne]; [done|]. exfalso.
  rewrite (Z.add_comm 1), (Z.add_comm 1 (Z.of_nat j)) in E.
  assert (Hm : (Z.of_nat i - Z.of_nat j) mod 2 ^ 64 = 0).
  { replace (Z.of_nat i - Z.of_nat j) with ((Z.of_nat i + 1) - (Z.of_nat j + 1)) by lia.
    rewrite Zminus_mod, E, Z.sub_diag. done. }
  apply Z.mod_divide in Hm as [k Hk]; [|lia]. nia.
Qed.

(** What a proposal says of its finding: two sources follow from its level. *)
Lemma earned_facts policy e findings f c :
  corr_inv policy e findings -> In f findings -> candidate_for f policy = Some (with_state c PENDING_APPROVAL) ->
  f_deterministic_signature f = true /\ f_level f = CRITICAL /\ critical_threshold policy <= f_risk_score f /\
  (2 <= length (f_contributing_sources f))%nat /\ f_file_path f <> EmptyString /\
  is_protected_path (f_file_path f) policy = false /\
  c_finding_id c = f_id f /\ c_target_path c = f_file_path f /\ c_expected_sha256 c = f_sha256 f.
Proof.
  intros Hc Hf Hcand. unfold candidate_for in Hcand.
  destruct (bool_decide _) eqn:Ed in Hcand; [|done]. apply bool_decide_eq_true in Ed.
  apply policy_decide_spec in Ed as (Hd & Hl & Ht & Hp & Hprot). cbn [negb] in Hcand. injection Hcand as E1 _ E3 E4 _.
  split_and!; try done.
  pose proof (ci_ok _ _ _ Hc) as Hok. rewrite Forall_forall in Hok. apply list_elem_of_In in Hf.
  destruct (Hok f Hf) as [_ Hlev Hsingle _ _].
  destruct (Nat.le_gt_cases 2 (length (f_contributing_sources f))) as [|Hlt]; [done|].
  specialize (Hsingle Hlt). rewrite Hl in Hlev. unfold level_for in Hlev.
  rewrite (proj2 (Z.leb_gt 90 _)) in Hlev by lia. by repeat case_match.
Qed.

(** ** Properties *)

(** C9: whatever the threads do and in whatever order, at most 2000 candidates are
    kept, and each was proposed for a finding of the run that is deterministic,
    CRITICAL, at the policy's threshold, corroborated by two sources and about a path
    that is not empty and not protected; it carries that finding's id, path and hash;
    it left its first state only by a call that named its id and returned OK; and no
    two candidates have one id. *)
Theorem candidates_are_earned (order : gmap string ActiveState -> list (string * ActiveState))
    (Horder : forall m, order m ≡ₚ map_to_list m)
    (queue_capacity : Z) (policy : LocalSecurityPolicy) (p : SecurityPipeline) (es : list event)
    (Hreach : reachable order queue_capacity policy p es) :
  Z.of_nat (length (pp_candidates p)) <= 2000 /\
  Forall (fun c =>
    (exists f, In f (found_in es) /\ f_deterministic_signature f = true /\ f_level f = CRITICAL /\
       critical_threshold policy <= f_risk_score f /\ (2 <= length (f_contributing_sources f))%nat /\
       f_file_path f <> EmptyString /\ is_protected_path (f_file_path f) policy = false /\
       c_finding_id c = f_id f /\ c_target_path c = f_file_path f /\ c_expected_sha256 c = f_sha256 f) /\
    (c_approval_state c = PENDING_APPROVAL \/ In (Decided (c_finding_id c) (c_approval_state c) OK) es))
    (pp_candidates p) /\
  (Z.of_nat (length (found_in es)) < 2 ^ 64 -> NoDup (c_finding_id <$> pp_candidates p)).
Proof.
  destruct (reachable_inv order Horder _ _ _ _ Hreach) as (_ & _ & [_ Hc Hb Ho (settled & Es & Hsub)]).
  split; [exact Hb|]. split.
  - eapply Forall_impl; [exact Ho|]. intros c [(f & Hf & Hcand) Hst]. split; [|exact Hst].
    exists f. split; [done|]. exact (earned_facts _ _ _ _ _ Hc Hf Hcand).
  - intros Hlt. eapply sublist_NoDup; [|exact Hsub]. apply (sublist_NoDup _ (f_id <$> found_in es)).
    + rewrite (ci_ids _ _ _ Hc). by apply nth_id_nodup.
    + rewrite Es, fmap_app. by apply sublist_inserts_r.
Qed.

(** C15: [stop] ends and drains: from any state in which the bus has been closed, the
    worker alone reaches its end within three steps for each queued observation and
    four more, whatever the clock reads; and unless the worker stood between a timed
    out wait and its test of [closed] with something queued, every observation that
    was ever accepted has then been processed, in order. *)
Theorem stop_drains (order : gmap string ActiveState -> list (string * ActiveState))
    (Horder : forall m, order m ≡ₚ map_to_list m)
    (queue_capacity : Z) (policy : LocalSecurityPolicy) (p : SecurityPipeline) (es : list event)
    (clock : nat -> Z) (Hreach : reachable order queue_capacity policy p es)
    (Hclosed : closed_ (pp_bus p) = true) (Hstarted : pp_worker p <> NoThread) :
  exists p' es', worker_loop order (3 * length (queue_ (pp_bus p)) + 5) clock p = Some (p', es') /\
    pp_worker p' = Exited /\
    (pp_stopping p' = true -> exists p'', pipe_step order p' Join = Some (p'', [Stopped OK])) /\
    (pp_worker p <> TimedOut /\ pp_worker p <> Exited \/ queue_ (pp_bus p) = [] ->
       processed_in (es ++ es') = accepted_in (es ++ es')).
Proof.
  assert (Hm : (worker_measure p < 3 * length (queue_ (pp_bus p)) + 5)%nat)
    by (unfold worker_measure; destruct (pp_worker p); lia).
  destruct (worker_loop_drains order queue_capacity policy clock _ p es Hreach Hclosed Hstarted Hm)
    as (p' & es' & Hrun & Hr' & Hex & Hq).
  exists p', es'. split; [done|]. split; [done|]. split.
  - intros Hs. cbn [pipe_step]. rewrite Hs, Hex. by eexists.
  - intros Hw. destruct (reachable_inv order Horder _ _ _ _ Hr') as (_ & [Hf _ _ _] & _).
    rewrite Hf, Hex, Hq; [by rewrite !app_nil_r|]. unfold will_drain, looks_again.
    destruct Hw as [[H1 H2]|]; [|by right]. by destruct (pp_worker p); auto.
Qed.

(** The observation of the examples. *)
Definition sample (source : string) : SecurityObservation :=
  Obs source YARA_MATCH 0 CRITICAL (dlit 9 10) true 0 EmptyString "d:/a.exe" EmptyString "rule hit".

(** an observation the bus accepted can be lost at shutdown: when the worker's wait
    has timed out, an observation is accepted and the bus closed before the worker
    tests [closed], it ends with the observation still queued, and [stop] returns OK. *)
Theorem stop_can_lose_an_observation :
  exists p, pipe_run map_to_list (new_pipeline 8 default_policy)
      [CallStart true; WorkerWait; PublishCheck (sample "yara"); PublishBus 0; CallStop; WorkerClosedTest; Join] =
    Some (p, [Started OK; Returned (sample "yara") ACCEPTED; Stopped OK]) /\
  pp_worker p = Exited /\ queue_ (pp_bus p) = [sample "yara"].
Proof. eexists. split; [vm_compute; reflexivity|]. vm_compute. by split. Qed.

(** approval is a one-way state machine: a call answers NOT_FOUND for an id that
    names no candidate, moves a pending candidate to the state asked for, answers OK
    for the state it already has and INVALID_TRANSITION for the other final state;
    it touches no other candidate; and once decided, a candidate stays as it is under
    any sequence of approvals and rejections. *)
Theorem approval_is_final (l : list RemediationCandidate) (id : Z) (target : CandidateApprovalState)
    (calls : list (Z * CandidateApprovalState)) :
  let '(l', code) := transition_candidate l id target in
  (match find_candidate l id with
   | None => l' = l /\ code = ERR_NOT_FOUND
   | Some c =>
       if bool_decide (c_approval_state c = target) then l' = l /\ code = OK
       else if bool_decide (c_approval_state c = PENDING_APPROVAL)
       then find_candidate l' id = Some (with_state c target) /\ code = OK
       else l' = l /\ code = ERR_INVALID_TRANSITION
   end) /\
  (forall id', id' <> id -> find_candidate l' id' = find_candidate l id') /\
  (c_finding_id <$> l' = c_finding_id <$> l) /\
  (forall c, find_candidate l id = Some c -> c_approval_state c <> PENDING_APPROVAL ->
     Forall (fun call => call.2 <> PENDING_APPROVAL) calls ->
     find_candidate (decide_all l calls) id = Some c).
Proof.
  pose proof (transition_find l id target) as H.
  destruct (transition_candidate l id target) as [l' code]. destruct H as (H1 & H2 & H3).
  split; [exact H1|]. split; [exact H2|]. split; [exact H3|]. intros c. apply decided_is_final.
Qed.

Lemma run_reachable order queue_capacity policy p es actions p' es' :
  reachable order queue_capacity policy p es -> Forall action_typed actions ->
  pipe_run order p actions = Some (p', es') -> reachable order queue_capacity policy p' (es ++ es').
Proof.
  intros Hr Ht. revert p es Hr p' es'. induction Ht as [|a actions Ha Ht IH]; intros p es Hr p' es' H; cbn in H.
  - simplify_eq. by rewrite app_nil_r.
  - destruct (pipe_step order p a) as [[p1 es1]|] eqn:Hs; [|done].
    destruct (pipe_run order p1 actions) as [[p2 es2]|] eqn:Hrun; [|done]. simplify_eq. rewrite app_assoc.
    eapply IH; [by eapply reach_step|done].
Qed.

Lemma run_new_reachable order queue_capacity policy actions r :
  Forall action_typed actions -> pipe_run order (new_pipeline queue_capacity policy) actions = Some r ->
  reachable order queue_capacity policy r.1 r.2.
Proof. destruct r. intros Ht Hr. exact (run_reachable order _ _ _ [] actions _ _ (reach_new _ _ _) Ht Hr). Qed.

(** Two sources, a proposal, its approval, and an observation still queued. *)
Definition sample_run : list action :=
  [CallStart true; PublishCheck (sample "yara"); PublishBus 0; PublishCheck (sample "scan"); PublishBus 0;
   WorkerWait; WorkerIngest 0; WorkerDecide; WorkerWait; WorkerIngest (seconds 1); WorkerDecide;
   Transition 2 APPROVED; PublishCheck (sample "yara"); PublishBus 0; CallStop].

Definition sample_state : SecurityPipeline * list event :=
  default (new_pipeline 8 default_policy, []) (pipe_run map_to_list (new_pipeline 8 default_policy) sample_run).

Example sample_candidates :
  (fun c => (c_finding_id c, c_target_path c, c_approval_state c)) <$> pp_candidates sample_state.1 =
  [(2, "d:/a.exe"%string, APPROVED)].
Proof. vm_compute. reflexivity. Qed.

Lemma sample_reachable : reachable map_to_list 8 default_policy sample_state.1 sample_state.2.
Proof.
  assert (Ht : Forall action_typed sample_run) by (repeat constructor; vm_compute; reflexivity).
  assert (Hr : pipe_run map_to_list (new_pipeline 8 default_policy) sample_run = Some sample_state)
    by (vm_compute; reflexivity).
  exact (run_new_reachable map_to_list 8 default_policy sample_run sample_state Ht Hr).
Qed.

Lemma candidates_are_earned_witness : NoDup (c_finding_id <$> pp_candidates sample_state.1).
Proof.
  assert (Hn : Z.of_nat (length (found_in sample_state.2)) < 2 ^ 64) by (vm_compute; reflexivity).
  exact (proj2 (proj2 (candidates_are_earned map_to_list (fun m => reflexivity _) 8 default_policy
    sample_state.1 sample_state.2 sample_reachable)) Hn).
Defined.

Lemma stop_drains_witness :
  exists p' es', worker_loop map_to_list 8 (fun _ => seconds 2) sample_state.1 = Some (p', es') /\
    processed_in (sample_state.2 ++ es') = [sample "yara"; sample "scan"; sample "yara"].
Proof.
  assert (Hc : closed_ (pp_bus sample_state.1) = true) by (vm_compute; reflexivity).
  assert (Hw : pp_worker sample_state.1 = Waiting) by (vm_compute; reflexivity).
  assert (Hn : pp_worker sample_state.1 <> NoThread) by (rewrite Hw; discriminate).
  destruct (stop_drains map_to_list (fun m => reflexivity _) 8 default_policy sample_state.1 sample_state.2
    (fun _ => seconds 2) sample_reachable Hc Hn) as (p' & es' & Hrun & _ & _ & Hall).
  assert (Hlen : length (queue_ (pp_bus sample_state.1)) = 1%nat) by (vm_compute; reflexivity).
  rewrite Hlen in Hrun. exists p', es'. split; [exact Hrun|].
  rewrite Hall by (left; rewrite Hw; split; discriminate). clear Hall.
  assert (He : (snd <$> worker_loop map_to_list 8 (fun _ => seconds 2) sample_state.1) = Some [Processed (sample "yara")])
    by (vm_compute; reflexivity).
  change (3 * 1 + 5)%nat with 8%nat in Hrun. rewrite Hrun in He. injection He as ->.
  rewrite accepted_in_app. vm_compute. reflexivity.
Defined.

Lemma approval_is_final_witness :
  find_candidate (decide_all (pp_candidates sample_state.1) [(2, REJECTED); (2, APPROVED); (7, REJECTED)]) 2 =
  find_candidate (pp_candidates sample_state.1) 2.
Proof.
  pose proof (approval_is_final (pp_candidates sample_state.1) 2 REJECTED
    [(2, REJECTED); (2, APPROVED); (7, REJECTED)]) as H.
  destruct (transition_candidate _ _ _) as [l' code]. destruct H as (_ & _ & _ & H).
  assert (Hf : exists c, find_candidate (pp_candidates sample_state.1) 2 = Some c /\ c_approval_state c = APPROVED)
    by (eexists; split; vm_compute; reflexivity).
  destruct Hf as (c & Hf & Ha). rewrite (H c Hf); [by rewrite Hf|by rewrite Ha|repeat constructor; done].
Defined.
