(* ===== verification/Threat.v ===== *)
(** * Threat: the engines' common event

    Models the threat categories and the event of src/include/gcad/common.hpp that
    every detection engine reports. *)
From S2P Require Import Prelude Observation.

Inductive ThreatCategory :=
    | NONE | MEMORY_INJECTION | PROCESS_HOLLOW | DLL_INJECTION | APC_INJECTION
    | REFLECTIVE_LOAD | SHELLCODE | NETWORK_SCAN | SYN_FLOOD | UDP_FLOOD | DNS_TUNNEL
    | ARP_POISON | ICMP_COVERT | RAW_SOCKET_PROBE | RANSOMWARE | FILE_ENCRYPT
    | REGISTRY_TAMPER | BACKDOOR_ACCOUNT | EVASION_AMSI | EVASION_ETW | EVASION_UNHOOK
    | DIRECT_SYSCALL | PPID_SPOOF | KERBEROS_ATTACK | NTLM_COERCE | CREDENTIAL_DUMP
    | ENTROPY_ANOMALY | SUSPICIOUS_BINARY | FILELESS_EXEC | ANTI_FORENSIC | DGA_DOMAIN
    | C2_BEACON | FILE_INTEGRITY_VIOLATION | YARA_RULE_MATCH | DEVICE_POLICY | KERNEL_ATTACK
    | LOLBIN_EXECUTION | MALWARE_PACKER | PERSISTENCE_HIJACK.

#[export] Instance ThreatCategory_eq_decision : EqDecision ThreatCategory.
Proof. solve_decision. Defined.

(** [static_cast<unsigned>(category)] *)
Definition category_value (c : ThreatCategory) : Z :=
  match c with
    | NONE => 0x0000 | MEMORY_INJECTION => 0x0100 | PROCESS_HOLLOW => 0x0101
    | DLL_INJECTION => 0x0102 | APC_INJECTION => 0x0103 | REFLECTIVE_LOAD => 0x0104
    | SHELLCODE => 0x0105 | NETWORK_SCAN => 0x0200 | SYN_FLOOD => 0x0201
    | UDP_FLOOD => 0x0202 | DNS_TUNNEL => 0x0203 | ARP_POISON => 0x0204
    | ICMP_COVERT => 0x0205 | RAW_SOCKET_PROBE => 0x0206 | RANSOMWARE => 0x0300
    | FILE_ENCRYPT => 0x0301 | REGISTRY_TAMPER => 0x0302 | BACKDOOR_ACCOUNT => 0x0303
    | EVASION_AMSI => 0x0400 | EVASION_ETW => 0x0401 | EVASION_UNHOOK => 0x0402
    | DIRECT_SYSCALL => 0x0403 | PPID_SPOOF => 0x0404 | KERBEROS_ATTACK => 0x0500
    | NTLM_COERCE => 0x0501 | CREDENTIAL_DUMP => 0x0502 | ENTROPY_ANOMALY => 0x0600
    | SUSPICIOUS_BINARY => 0x0700 | FILELESS_EXEC => 0x0800 | ANTI_FORENSIC => 0x0900
    | DGA_DOMAIN => 0x0207 | C2_BEACON => 0x0208 | FILE_INTEGRITY_VIOLATION => 0x0A00
    | YARA_RULE_MATCH => 0x0B00 | DEVICE_POLICY => 0x0C00 | KERNEL_ATTACK => 0x0D00
    | LOLBIN_EXECUTION => 0x0E00 | MALWARE_PACKER => 0x0701 | PERSISTENCE_HIJACK => 0x0702
  end.

Record ThreatEvent := Event {
  ev_id : Z;
  ev_timestamp : Z;
  ev_level : ThreatLevel;
  ev_category : ThreatCategory;
  ev_process_id : Z;
  ev_process_name : string;
  ev_file_path : string;
  ev_description : string;
  ev_source_ip : string;
  ev_source_port : Z;
  ev_quarantined : bool;
  ev_rolled_back : bool;
}.

(** [std::max] of two levels. *)
Definition max_level (a b : ThreatLevel) : ThreatLevel := if level_value a <? level_value b then b else a.

(** What reaches the callbacks of an engine. *)
Inductive output := Threat (ev : ThreatEvent) | Observed (o : SecurityObservation).

Definition all_categories : list ThreatCategory :=
  [NONE; MEMORY_INJECTION; PROCESS_HOLLOW; DLL_INJECTION; APC_INJECTION; REFLECTIVE_LOAD
   ; SHELLCODE; NETWORK_SCAN; SYN_FLOOD; UDP_FLOOD; DNS_TUNNEL; ARP_POISON; ICMP_COVERT
   ; RAW_SOCKET_PROBE; RANSOMWARE; FILE_ENCRYPT; REGISTRY_TAMPER; BACKDOOR_ACCOUNT
   ; EVASION_AMSI; EVASION_ETW; EVASION_UNHOOK; DIRECT_SYSCALL; PPID_SPOOF; KERBEROS_ATTACK
   ; NTLM_COERCE; CREDENTIAL_DUMP; ENTROPY_ANOMALY; SUSPICIOUS_BINARY; FILELESS_EXEC
   ; ANTI_FORENSIC; DGA_DOMAIN; C2_BEACON; FILE_INTEGRITY_VIOLATION; YARA_RULE_MATCH
   ; DEVICE_POLICY; KERNEL_ATTACK; LOLBIN_EXECUTION; MALWARE_PACKER; PERSISTENCE_HIJACK].

Lemma category_value_inj c c' : category_value c = category_value c' -> c = c'.
Proof.
  assert (H : NoDup (category_value <$> all_categories)) by (apply (bool_decide_eq_true_1 _); vm_compute; reflexivity).
  assert (Hin : forall x, x ∈ all_categories) by (intros x; apply (bool_decide_eq_true_1 _); destruct x; vm_compute; reflexivity).
  intros E. destruct (list_elem_of_lookup_1 _ _ (Hin c)) as [i Hi], (list_elem_of_lookup_1 _ _ (Hin c')) as [j Hj].
  assert (i = j).
  { eapply (NoDup_lookup _ i j (category_value c) H); rewrite list_lookup_fmap; [by rewrite Hi|by rewrite Hj, E]. }
  congruence.
Qed.
