(* ===== verification/EventLog.v ===== *)
(** * EventLog: the events the engines reported

    Models the event log of src/src/engine_manager.cpp: what [push_event] appends and
    evicts, and the queries over the log.  Times are nanoseconds; the ties that
    [std::sort] may order either way are left open. *)
From stdpp Require Import sorting.
From S2P Require Import Prelude Float64 Asn1 Observation Threat.

Definition EVENT_LOG_MAX : Z := 10000.
Definition EVENT_LOG_DROP : Z := 5000.

(** The locked part of [push_event]. *)
Definition log_event (event_log : list ThreatEvent) (ev : ThreatEvent) : list ThreatEvent :=
  let event_log := event_log ++ [ev] in
  if EVENT_LOG_MAX <? Z.of_nat (length event_log) then drop (Z.to_nat EVENT_LOG_DROP) event_log else event_log.

(** The fields [push_event] sets before it. *)
Definition stamp (ev : ThreatEvent) (id now : Z) : ThreatEvent :=
  Event id now (ev_level ev) (ev_category ev) (ev_process_id ev) (ev_process_name ev) (ev_file_path ev)
    (ev_description ev) (ev_source_ip ev) (ev_source_port ev) (ev_quarantined ev) (ev_rolled_back ev).

Definition recent_events (event_log : list ThreatEvent) (n : Z) : list ThreatEvent :=
  let size := Z.of_nat (length event_log) in
  drop (Z.to_nat (if n <? size then size - n else 0)) event_log.

Definition total_threats (event_log : list ThreatEvent) : Z := Z.of_nat (length event_log).

(** [duration_cast<minutes>(now - timestamp).count()] *)
Definition age_minutes (now : Z) (ev : ThreatEvent) : Z := Z.quot (now - ev_timestamp ev) (60 * 10 ^ 9).

(** The loop of [current_threat_level], newest event first. *)
Fixpoint threat_level_loop (now : Z) (events : list ThreatEvent) (level : ThreatLevel) : ThreatLevel :=
  match events with
  | [] => level
  | ev :: events =>
      if 10 <? age_minutes now ev then level
      else threat_level_loop now events (max_level level (ev_level ev))
  end.

Definition current_threat_level (event_log : list ThreatEvent) (now : Z) : ThreatLevel :=
  match event_log with [] => SAFE | _ => threat_level_loop now (rev event_log) SAFE end.

(** [++h[i]], which does nothing past the end. *)
Definition bump (h : list Z) (i : Z) : list Z := alter (fun c => c + 1) (Z.to_nat i) h.

Definition severity_histogram (event_log : list ThreatEvent) : list Z :=
  foldl (fun h ev => bump h (level_value (ev_level ev))) (replicate 5 0) event_log.

(** [++counts[category]] on a [std::map], whose keys are in the order of their values. *)
Fixpoint count_category (counts : list (ThreatCategory * Z)) (c : ThreatCategory) : list (ThreatCategory * Z) :=
  match counts with
  | [] => [(c, 1)]
  | (c', n) :: rest =>
      if category_value c <? category_value c' then (c, 1) :: counts
      else if bool_decide (c = c') then (c', n + 1) :: rest
      else (c', n) :: count_category rest c
  end.

Definition category_counts (event_log : list ThreatEvent) : list (ThreatCategory * Z) :=
  foldl (fun counts ev => count_category counts (ev_category ev)) [] event_log.

(** [std::sort] puts the larger counts first; [sort] is the library's. *)
Definition by_count (a b : ThreatCategory * Z) : Prop := b.2 <= a.2.

Definition category_histogram (sort : list (ThreatCategory * Z) -> list (ThreatCategory * Z))
    (event_log : list ThreatEvent) : list (ThreatCategory * Z) := sort (category_counts event_log).

(** ** The log over time *)

Definition log_events (log : list ThreatEvent) (events : list ThreatEvent) : list ThreatEvent :=
  foldl log_event log events.

(** The log is the end of what was logged, and never short of its last 5001 events. *)
Definition log_of (history log : list ThreatEvent) : Prop :=
  Z.of_nat (length log) <= EVENT_LOG_MAX /\
  exists evicted, history = evicted ++ log /\ 
    (evicted = [] \/ EVENT_LOG_MAX - EVENT_LOG_DROP < Z.of_nat (length log) /\ EVENT_LOG_MAX < Z.of_nat (length history)).

Lemma log_of_nil : log_of [] [].
Proof. split; [done|]. exists []. split; [done|by left]. Qed.

Lemma log_event_of history log ev : log_of history log -> log_of (history ++ [ev]) (log_event log ev).
Proof.
  intros [Hlen (evicted & -> & He)]. unfold log_event. cbv zeta.
  destruct (Z.ltb_spec EVENT_LOG_MAX (Z.of_nat (length (log ++ [ev])))) as [H|H].
  - rewrite length_app in H. cbn [length] in H.
    split; [rewrite length_drop, length_app; cbn [length]; unfold EVENT_LOG_MAX, EVENT_LOG_DROP in *; lia|].
    exists (evicted ++ take (Z.to_nat EVENT_LOG_DROP) (log ++ [ev])). split.
    + by rewrite <- (app_assoc evicted (take _ _)), take_drop, <- app_assoc.
    + right. rewrite length_drop, !length_app in *. cbn [length] in *. unfold EVENT_LOG_MAX, EVENT_LOG_DROP in *. lia.
  - split; [exact H|]. exists evicted. split; [by rewrite <- app_assoc|].
    destruct He as [->|He]; [by left|right]. rewrite !length_app in *. cbn. lia.
Qed.

Lemma log_events_of history log events : log_of history log -> log_of (history ++ events) (log_events log events).
Proof.
  revert history log. induction events as [|ev events IH]; intros history log H; cbn; [by rewrite app_nil_r|].
  replace (history ++ ev :: events) with ((history ++ [ev]) ++ events) by (by rewrite <- app_assoc).
  apply IH. by apply log_event_of.
Qed.

(** ** The threat level *)

Definition level_le (a b : ThreatLevel) : Prop := level_value a <= level_value b.

Lemma max_level_spec a b :
  level_le a (max_level a b) /\ level_le b (max_level a b) /\ (max_level a b = a \/ max_level a b = b).
Proof. unfold max_level, level_le. destruct (Z.ltb_spec (level_value a) (level_value b)); split_and!; auto; lia. Qed.

(** [level] is the largest of [levels], or [SAFE]. *)
Definition is_max (levels : list ThreatLevel) (level : ThreatLevel) : Prop :=
  Forall (fun l => level_le l level) levels /\ (level = SAFE \/ In level levels).

Lemma is_max_add levels level l : is_max levels level -> is_max (levels ++ [l]) (max_level level l).
Proof.
  intros [Hall Hin]. destruct (max_level_spec level l) as (H1 & H2 & H3). split.
  - apply Forall_app. split; [|by constructor]. eapply Forall_impl; [exact Hall|]. unfold level_le in *. intros; lia.
  - rewrite in_app_iff. destruct H3 as [-> | ->]; [|right; right; by left]. tauto.
Qed.

(** Is [ev] young enough at [now]? *)
Definition is_recent (now : Z) (ev : ThreatEvent) : bool := negb (10 <? age_minutes now ev).

(** The events the loop looks at. *)
Fixpoint recent_prefix (now : Z) (events : list ThreatEvent) : list ThreatEvent :=
  match events with
  | [] => []
  | ev :: events => if is_recent now ev then ev :: recent_prefix now events else []
  end.

Lemma threat_level_loop_max now events levels level :
  is_max levels level ->
  is_max (levels ++ (ev_level <$> recent_prefix now events)) (threat_level_loop now events level).
Proof.
  revert levels level. induction events as [|ev events IH]; intros levels level H; cbn; [by rewrite app_nil_r|].
  unfold is_recent. destruct (10 <? age_minutes now ev); cbn [negb]; [by rewrite app_nil_r|].
  cbn [fmap list_fmap]. rewrite cons_middle, app_assoc. apply IH. by apply is_max_add.
Qed.

Lemma recent_mono now ev ev' :
  ev_timestamp ev <= ev_timestamp ev' -> is_recent now ev = true -> is_recent now ev' = true.
Proof.
  unfold is_recent, age_minutes. intros Ht H. bool_facts.
  apply negb_true_iff, Z.ltb_ge. etrans; [|exact H]. apply Z.quot_le_mono; lia.
Qed.

(** With timestamps in order, those are all the recent ones. *)
Lemma recent_prefix_filter now events :
  StronglySorted (fun a b => ev_timestamp b <= ev_timestamp a) events ->
  recent_prefix now events = List.filter (is_recent now) events.
Proof.
  induction 1 as [|ev events Hs IH Hall]; [done|]. cbn. destruct (is_recent now ev) eqn:E; [by rewrite IH|].
  assert (Hno : Forall (fun e => is_recent now e = false) events).
  { eapply Forall_impl; [exact Hall|]. cbn. intros e He. destruct (is_recent now e) eqn:E'; [|done].
    rewrite (recent_mono now e ev He E') in E. done. }
  clear -Hno. induction Hno as [|e events He _ IH]; [done|]. cbn. by rewrite He.
Qed.

Lemma sorted_rev {A} (R : A -> A -> Prop) l : StronglySorted R l -> StronglySorted (fun a b => R b a) (rev l).
Proof.
  induction 1 as [|a l Hs IH Hall]; cbn; [constructor|]. apply StronglySorted_app_2; [|done|repeat constructor].
  intros x y Hx Hy. apply list_elem_of_singleton in Hy as ->. rewrite Forall_forall in Hall. apply Hall.
  apply list_elem_of_In. apply list_elem_of_In in Hx. by apply in_rev.
Qed.

(** ** The histograms *)

Definition count_where (f : ThreatEvent -> bool) (event_log : list ThreatEvent) : Z :=
  Z.of_nat (length (List.filter f event_log)).

Lemma count_where_snoc f log ev : count_where f (log ++ [ev]) = count_where f log + if f ev then 1 else 0.
Proof. unfold count_where. rewrite List.filter_app, length_app. cbn. destruct (f ev); cbn; lia. Qed.

Lemma count_where_cons f ev log : count_where f (ev :: log) = (if f ev then 1 else 0) + count_where f log.
Proof. unfold count_where. cbn. destruct (f ev); cbn; lia. Qed.

Definition of_level (l : ThreatLevel) (ev : ThreatEvent) : bool := bool_decide (ev_level ev = l).
Definition of_category (c : ThreatCategory) (ev : ThreatEvent) : bool := bool_decide (ev_category ev = c).

Lemma severity_counts log :
  severity_histogram log = (fun l => count_where (of_level l) log) <$> [SAFE; LOW; MEDIUM; HIGH; CRITICAL].
Proof.
  induction log as [|ev log IH] using rev_ind; [done|]. unfold severity_histogram in *. rewrite foldl_app, IH.
  cbn [foldl fmap list_fmap]. rewrite !count_where_snoc. unfold of_level. by destruct (ev_level ev); cbn; rewrite !Z.add_0_r.
Qed.

Lemma severity_sum log : foldl Z.add 0 (severity_histogram log) = total_threats log.
Proof.
  rewrite severity_counts. unfold total_threats. cbn [fmap list_fmap foldl].
  induction log as [|ev log IH]; [done|]. rewrite !count_where_cons.
  assert (H : (if of_level SAFE ev then 1 else 0) + (if of_level LOW ev then 1 else 0) + (if of_level MEDIUM ev then 1 else 0) +
              (if of_level HIGH ev then 1 else 0) + (if of_level CRITICAL ev then 1 else 0) = 1)
    by (unfold of_level; by destruct (ev_level ev)).
  cbn [length]. lia.
Qed.

Fixpoint assoc (counts : list (ThreatCategory * Z)) (c : ThreatCategory) : Z :=
  match counts with
  | [] => 0
  | (c', n) :: rest => if bool_decide (c = c') then n else assoc rest c
  end.

Definition key_lt (a b : ThreatCategory * Z) : Prop := category_value a.1 < category_value b.1.

Record counts_ok (counts : list (ThreatCategory * Z)) : Prop := {
  co_sorted : StronglySorted key_lt counts;
  co_positive : Forall (fun p => 0 < p.2) counts;
}.

Lemma key_lt_ne a b : key_lt a b -> a.1 <> b.1.
Proof. unfold key_lt. intros H E. rewrite E in H. lia. Qed.

Lemma count_category_keys counts c p : In p (count_category counts c) -> p.1 = c \/ exists n, In (p.1, n) counts.
Proof.
  induction counts as [|[c' n] rest IH]; cbn; [intros [<-|[]]; by left|].
  destruct (Z.ltb_spec (category_value c) (category_value c')).
  - intros [<-|[<-|H']]; [by left|right; exists n; by left|right; exists p.2; right; by destruct p].
  - destruct (bool_decide_reflect (c = c')) as [->|Hne].
    + intros [<-|H']; [by left|right; exists p.2; right; by destruct p].
    + intros [<-|H']; [right; exists n; by left|]. destruct (IH H') as [?|[m Hm]]; [by left|right; exists m; by right].
Qed.

Lemma count_category_ok counts c : counts_ok counts -> counts_ok (count_category counts c).
Proof.
  intros [Hs Hp]. induction counts as [|[c' n] rest IH]; cbn.
  { split; repeat constructor. }
  inversion Hs as [|? ? Hs' Hall]; subst. inversion Hp as [|? ? Hn Hp']; subst. cbn in Hn.
  destruct (Z.ltb_spec (category_value c) (category_value c')) as [Hlt|Hge].
  - split; [|by repeat constructor]. constructor; [done|]. constructor; [exact Hlt|].
    eapply Forall_impl; [exact Hall|]. unfold key_lt. cbn. intros; lia.
  - destruct (bool_decide_reflect (c = c')) as [->|Hne].
    + split; [|constructor; [cbn; lia|done]]. constructor; [done|]. exact Hall.
    + destruct (IH Hs' Hp') as [Hs2 Hp2]. split; [|by constructor]. constructor; [done|].
      apply List.Forall_forall. intros p Hin. unfold key_lt. cbn.
      destruct (count_category_keys _ _ _ Hin) as [->|[m Hm]].
      * assert (category_value c <> category_value c') by (by intros ?%category_value_inj). lia.
      * rewrite List.Forall_forall in Hall. exact (Hall _ Hm).
Qed.

Lemma assoc_below counts c : Forall (fun p => category_value c < category_value p.1) counts -> assoc counts c = 0.
Proof.
  induction 1 as [|[c' n] rest H _ IH]; [done|]. cbn in *. by rewrite bool_decide_eq_false_2 by (intros ->; lia).
Qed.

Lemma count_category_assoc counts c c' : counts_ok counts ->
  assoc (count_category counts c) c' = assoc counts c' + if bool_decide (c = c') then 1 else 0.
Proof.
  intros [Hs Hp]. induction counts as [|[c1 n] rest IH]; cbn.
  { destruct (decide (c = c')) as [->|Hne]; [by rewrite !bool_decide_eq_true_2|].
    by rewrite !bool_decide_eq_false_2 by congruence. }
  inversion Hs as [|? ? Hs' Hall]; subst. inversion Hp as [|? ? Hn Hp']; subst.
  destruct (Z.ltb_spec (category_value c) (category_value c1)) as [Hlt|Hge].
  - cbn. destruct (decide (c = c')) as [->|Hne].
    + rewrite !(bool_decide_eq_true_2 (c' = c')), (bool_decide_eq_false_2 (c' = c1)) by (try done; intros ->; lia).
      rewrite assoc_below; [done|]. eapply Forall_impl; [exact Hall|]. unfold key_lt. cbn. intros; lia.
    + rewrite (bool_decide_eq_false_2 (c' = c)), (bool_decide_eq_false_2 (c = c')) by congruence. lia.
  - destruct (decide (c = c1)) as [->|Hne].
    + rewrite (bool_decide_eq_true_2 (c1 = c1)) by done. cbn. destruct (decide (c' = c1)) as [->|Hne'].
      * by rewrite !bool_decide_eq_true_2.
      * rewrite !(bool_decide_eq_false_2 (_ = _)) by congruence. lia.
    + rewrite (bool_decide_eq_false_2 (c = c1)) by done. cbn. rewrite IH by done.
      destruct (decide (c' = c1)) as [->|Hne']; [|by rewrite (bool_decide_eq_false_2 (c' = c1))].
      rewrite (bool_decide_eq_true_2 (c1 = c1)), (bool_decide_eq_false_2 (c = c1)) by done. lia.
Qed.

Lemma category_counts_spec log :
  counts_ok (category_counts log) /\ forall c, assoc (category_counts log) c = count_where (of_category c) log.
Proof.
  induction log as [|ev log [Hok IH]] using rev_ind; [split; [split; constructor|done]|].
  unfold category_counts in *. rewrite foldl_app. cbn [foldl]. split; [by apply count_category_ok|].
  intros c. by rewrite count_category_assoc, IH, count_where_snoc.
Qed.

Lemma assoc_in counts c n : counts_ok counts -> In (c, n) counts <-> assoc counts c = n /\ 0 < n.
Proof.
  intros [Hs Hp]. induction counts as [|[c' n'] rest IH]; cbn; [split; [done|lia]|].
  inversion Hs as [|? ? Hs' Hall]; subst. inversion Hp as [|? ? Hn Hp']; subst. cbn in Hn.
  destruct (bool_decide_reflect (c = c')) as [->|Hne].
  - split; [|intros [-> _]; by left]. intros [[= ->]|Hin]; [done|]. exfalso.
    rewrite List.Forall_forall in Hall. by apply (key_lt_ne _ _ (Hall _ Hin)).
  - rewrite <- IH by done. split; [intros [[= -> _]|?]; done|by right].
Qed.

Lemma counts_nodup counts : counts_ok counts -> NoDup (counts.*1).
Proof.
  intros [Hs _]. induction Hs as [|p rest Hs IH Hall]; cbn; [constructor|]. constructor; [|done].
  intros Hin. apply list_elem_of_fmap in Hin as (q & E & Hq). rewrite Forall_forall in Hall.
  by apply (key_lt_ne _ _ (Hall _ Hq)).
Qed.

(** ** Properties *)

(** the log is bounded and loses only its oldest events: after any sequence of
    events it holds at most 10000, it is the end of that sequence, and nothing has been
    evicted as long as 10000 events or fewer came; when something has, the last 5001
    are still there; and [recent_events] gives the last [n] of the log. *)
Theorem event_log_keeps_the_latest (events : list ThreatEvent) (n : Z) :
  let log := log_events [] events in
  Z.of_nat (length log) <= 10000 /\
  (exists evicted, events = evicted ++ log /\
     (evicted = [] \/ 5001 <= Z.of_nat (length log) /\ 10000 < Z.of_nat (length events))) /\
  (exists before, log = before ++ recent_events log n /\
     Z.of_nat (length (recent_events log n)) = Z.min (Z.max 0 n) (Z.of_nat (length log))).
Proof.
  cbv zeta. destruct (log_events_of [] [] events log_of_nil) as [Hlen (evicted & E & He)]. cbn [app] in E, He.
  set (log := log_events [] events) in *. split; [exact Hlen|]. split.
  - exists evicted. split; [exact E|]. destruct He as [->|[H1 H2]]; [by left|right].
    unfold EVENT_LOG_MAX, EVENT_LOG_DROP in *. lia.
  - unfold recent_events. set (k := Z.to_nat _). exists (take k log). split; [by rewrite take_drop|].
    rewrite length_drop. subst k. destruct (Z.ltb_spec n (Z.of_nat (length log))); lia.
Qed.

(** the current threat level is the highest level among the events of the last ten
    minutes (ages cut to whole minutes), SAFE when there is none, provided the log is in
    the order of its times; in any other order it is the highest among the events newer
    than the newest one that is too old. *)
Theorem threat_level_of_recent_events (log : list ThreatEvent) (now : Z) :
  is_max (ev_level <$> recent_prefix now (rev log)) (current_threat_level log now) /\
  (StronglySorted (fun a b => ev_timestamp a <= ev_timestamp b) log ->
   (forall ev, In ev log -> is_recent now ev = true -> level_le (ev_level ev) (current_threat_level log now)) /\
   (current_threat_level log now = SAFE \/
    exists ev, In ev log /\ is_recent now ev = true /\ ev_level ev = current_threat_level log now)).
Proof.
  assert (Hmax : is_max (ev_level <$> recent_prefix now (rev log)) (current_threat_level log now)).
  { replace (current_threat_level log now) with (threat_level_loop now (rev log) SAFE) by (by destruct log).
    apply (threat_level_loop_max now (rev log) [] SAFE). split; [constructor|by left]. }
  split; [exact Hmax|]. intros Hs. rewrite recent_prefix_filter in Hmax by exact (sorted_rev _ _ Hs).
  destruct Hmax as [Hall Hin]. split.
  - intros ev Hev Hr. rewrite List.Forall_forall in Hall. apply Hall, (in_map ev_level), List.filter_In.
    split; [by apply in_rev in Hev|done].
  - destruct Hin as [->|Hin]; [by left|right]. apply in_map_iff in Hin as (ev & E & Hin).
    apply List.filter_In in Hin as [Hin Hr]. exists ev. by rewrite in_rev.
Qed.

(** the histograms count: the severity histogram has for each level the number of
    its events, so that its sum is the number of events; the category histogram, however
    the library's sort breaks ties, lists every category that occurs, once, with the
    number of its events, the larger numbers first. *)
Theorem histograms_count (sort : list (ThreatCategory * Z) -> list (ThreatCategory * Z))
    (Hperm : forall l, sort l ≡ₚ l) (Hsorted : forall l, Sorted by_count (sort l)) (log : list ThreatEvent) :
  severity_histogram log = (fun l => count_where (of_level l) log) <$> [SAFE; LOW; MEDIUM; HIGH; CRITICAL] /\
  foldl Z.add 0 (severity_histogram log) = total_threats log /\
  Sorted by_count (category_histogram sort log) /\ NoDup ((category_histogram sort log).*1) /\
  (forall c n, In (c, n) (category_histogram sort log) <-> n = count_where (of_category c) log /\ 0 < n).
Proof.
  destruct (category_counts_spec log) as [Hok Hc]. split; [apply severity_counts|]. split; [apply severity_sum|].
  split; [apply Hsorted|]. unfold category_histogram. split.
  - rewrite (Hperm (category_counts log)). by apply counts_nodup.
  - intros c n. rewrite <- Hc, <- list_elem_of_In, (Hperm (category_counts log)), list_elem_of_In, assoc_in by done.
    split; intros [? ?]; by split.
Qed.

Definition sample_log : list ThreatEvent :=
  let ev id now l c := stamp (Event 0 0 l c 7 "p.exe" EmptyString "d" EmptyString 0 false false) id now in
  [ev 1 0 CRITICAL RANSOMWARE; ev 2 (700 * 10 ^ 9) MEDIUM DGA_DOMAIN; ev 3 (800 * 10 ^ 9) LOW RANSOMWARE].

Lemma threat_level_of_recent_events_witness :
  current_threat_level sample_log (1000 * 10 ^ 9) = MEDIUM /\
  exists ev, In ev sample_log /\ ev_level ev = current_threat_level sample_log (1000 * 10 ^ 9).
Proof.
  split; [vm_compute; reflexivity|].
  assert (Hs : StronglySorted (fun a b => ev_timestamp a <= ev_timestamp b) sample_log) by (repeat constructor; cbn; lia).
  destruct (threat_level_of_recent_events sample_log (1000 * 10 ^ 9)) as [_ H].
  assert (Hne : current_threat_level sample_log (1000 * 10 ^ 9) <> SAFE) by (vm_compute; discriminate).
  destruct (H Hs) as [_ [E|(ev & Hin & _ & E)]]; [contradiction (Hne E)|].
  exists ev. split; [exact Hin|exact E].
Defined.

#[local] Instance by_count_dec : RelDecision by_count.
Proof. intros a b. unfold by_count. apply _. Defined.
#[local] Instance by_count_total : Total by_count.
Proof. intros a b. unfold by_count. lia. Qed.

Lemma histograms_count_witness :
  category_histogram (merge_sort by_count) sample_log = [(RANSOMWARE, 2); (DGA_DOMAIN, 1)] /\
  NoDup ((category_histogram (merge_sort by_count) sample_log).*1).
Proof.
  split; [vm_compute; reflexivity|].
  exact (proj1 (proj2 (proj2 (proj2 (histograms_count (merge_sort by_count) (merge_sort_Permutation by_count)
    (Sorted_merge_sort by_count) sample_log))))).
Defined.
