(* ===== verification/LegacyAdapter.v ===== *)
(** * LegacyAdapter: engine events as observations

    Models src/src/security/legacy_adapter.cpp.  The decimal confidences of the source
    are the doubles their literals denote. *)
From S2P Require Import Prelude Float64 Asn1 Observation Threat.

Record ConfidenceRule := ConfRule {
  cr_engine_name : string;
  cr_category : ThreatCategory;
  cr_confidence : double;
  cr_deterministic : bool;
}.

Definition kRules : list ConfidenceRule :=
  [ConfRule "PMSR" MEMORY_INJECTION (dlit 92 100) true;
   ConfRule "SelfDefense" EVASION_UNHOOK (dlit 88 100) true;
   ConfRule "SelfDefense" MEMORY_INJECTION (dlit 90 100) true;
   ConfRule "SelfDefense" DLL_INJECTION (dlit 75 100) true;
   ConfRule "SyscallGuard" EVASION_UNHOOK (dlit 92 100) true;
   ConfRule "SyscallGuard" DIRECT_SYSCALL (dlit 80 100) true;
   ConfRule "ARHS" RANSOMWARE (dlit 55 100) false;
   ConfRule "ARHS" FILE_ENCRYPT (dlit 60 100) false;
   ConfRule "ETG-RI" ENTROPY_ANOMALY (dlit 45 100) false;
   ConfRule "ETG-RI" RAW_SOCKET_PROBE (dlit 45 100) false;
   ConfRule "ETG-RI" SYN_FLOOD (dlit 65 100) false;
   ConfRule "ZRGP" NETWORK_SCAN (dlit 85 100) true;
   ConfRule "KernelMon" EVASION_AMSI (dlit 90 100) true;
   ConfRule "KernelMon" EVASION_ETW (dlit 85 100) true;
   ConfRule "KernelMon" PPID_SPOOF (dlit 90 100) true;
   ConfRule "KernelMon" SUSPICIOUS_BINARY (dlit 50 100) false;
   ConfRule "RegMon" REGISTRY_TAMPER (dlit 85 100) true;
   ConfRule "FIM" FILE_INTEGRITY_VIOLATION (dlit 95 100) true;
   ConfRule "DnsMon" DNS_TUNNEL (dlit 90 100) true;
   ConfRule "DnsMon" DGA_DOMAIN (dlit 65 100) false;
   ConfRule "YARA" YARA_RULE_MATCH (dlit 88 100) true].

Definition confidence_for_level (level : ThreatLevel) : double :=
  match level with
  | LOW => dlit 30 100
  | MEDIUM => dlit 50 100
  | HIGH => dlit 70 100
  | CRITICAL => dlit 90 100
  | SAFE => dz 0
  end.

(** [rule.engine_name == engine_name && rule.category == event.category] *)
Definition rule_applies (event : ThreatEvent) (engine_name : string) (rule : ConfidenceRule) : bool :=
  String.eqb (cr_engine_name rule) engine_name && bool_decide (cr_category rule = ev_category event).

(** The observation of an event with the fields the two branches set. *)
Definition observe (event : ThreatEvent) (source : string) (confidence : double) (deterministic : bool) :
    SecurityObservation :=
  Obs source LEGACY_ENGINE (ev_timestamp event) (ev_level event) confidence deterministic
    (ev_process_id event) (ev_process_name event) (ev_file_path event) EmptyString
    (if empty_string (ev_description event) then "Legacy engine event" else ev_description event).

Definition adapt_legacy_event (event : ThreatEvent) (engine_name : string) : SecurityObservation :=
  match find (rule_applies event engine_name) kRules with
  | Some rule => observe event engine_name (cr_confidence rule) (cr_deterministic rule)
  | None =>
      observe event
        (if empty_string engine_name then "legacy:" +:+ to_string (category_value (ev_category event)) else engine_name)
        (confidence_for_level (ev_level event)) false
  end.

(** ** Lemmas *)

Definition confidence_ok (c : double) : bool := is_double c && unit_interval c.

Lemma rules_confidence : forallb (fun r => confidence_ok (cr_confidence r) && negb (empty_string (cr_engine_name r))) kRules = true.
Proof. vm_compute. reflexivity. Qed.

Lemma level_confidence l : confidence_ok (confidence_for_level l) = true.
Proof. destruct l; vm_compute; reflexivity. Qed.

Lemma rules_functional r r' :
  In r kRules -> In r' kRules -> cr_engine_name r = cr_engine_name r' -> cr_category r = cr_category r' -> r = r'.
Proof.
  assert (H : NoDup ((fun r => (cr_engine_name r, category_value (cr_category r))) <$> kRules))
    by (apply (bool_decide_eq_true_1 _); vm_compute; reflexivity).
  intros Hr Hr' E1 E2. apply list_elem_of_In, list_elem_of_lookup in Hr as [i Hi].
  apply list_elem_of_In, list_elem_of_lookup in Hr' as [j Hj].
  assert (i = j).
  { eapply (NoDup_lookup _ i j _ H); rewrite list_lookup_fmap; [by rewrite Hi|].
    rewrite Hj. cbn [fmap option_fmap option_map]. by rewrite E1, E2. }
  congruence.
Qed.

Lemma observe_valid event source c det :
  source <> EmptyString -> confidence_ok c = true ->
  valid (observe event source c det) = negb (bool_decide (ev_level event = SAFE)).
Proof.
  intros Hs Hc. unfold confidence_ok, unit_interval in Hc. bool_facts. unfold valid, observe. cbn [source_id evidence confidence suggested_level].
  unfold empty_string at 1. rewrite (proj2 (String.eqb_neq _ _) Hs). cbn [negb andb].
  assert (He : empty_string (if empty_string (ev_description event) then "Legacy engine event"%string else ev_description event) = false).
  { destruct (empty_string (ev_description event)) eqn:E; [done|exact E]. }
  rewrite He. cbn [negb andb].
  repeat match goal with H : _ = true |- _ => rewrite H end. done.
Qed.

(** What the pipeline asks of a published observation. *)
Lemma adapt_typed event engine_name : is_double (confidence (adapt_legacy_event event engine_name)) = true.
Proof.
  unfold adapt_legacy_event. destruct (find _ kRules) as [rule|] eqn:E; cbn [confidence observe].
  - apply find_some in E as [Hin _]. pose proof rules_confidence as Hall. rewrite forallb_forall in Hall.
    specialize (Hall _ Hin). apply andb_true_iff in Hall as [Hc _]. by apply andb_true_iff in Hc as [Hc _].
  - pose proof (level_confidence (ev_level event)) as Hc. by apply andb_true_iff in Hc as [Hc _].
Qed.

(** ** Properties *)

(** every event that is not SAFE becomes a valid observation, whatever engine it
    comes from, with a confidence that is a probability; the table decides when it has
    the pair of engine and category, and it has one entry for a pair at most; any other
    pair is never deterministic and gets the confidence of its level; and the source is
    the engine's name whenever there is one, so that one engine is one source. *)
Theorem adapted_events_are_valid (event : ThreatEvent) (engine_name : string) :
  let o := adapt_legacy_event event engine_name in
  valid o = negb (bool_decide (ev_level event = SAFE)) /\
  is_double (confidence o) = true /\ unit_interval (confidence o) = true /\
  (forall rule, In rule kRules -> cr_engine_name rule = engine_name -> cr_category rule = ev_category event ->
     confidence o = cr_confidence rule /\ deterministic o = cr_deterministic rule) /\
  ((forall rule, In rule kRules -> cr_engine_name rule = engine_name -> cr_category rule <> ev_category event) ->
     confidence o = confidence_for_level (ev_level event) /\ deterministic o = false) /\
  (source_id o = if bool_decide (engine_name = EmptyString)
                 then "legacy:" +:+ to_string (category_value (ev_category event)) else engine_name) /\
  kind o = LEGACY_ENGINE /\ suggested_level o = ev_level event /\ file_path o = ev_file_path event.
Proof.
  cbv zeta. unfold adapt_legacy_event. destruct (find _ kRules) as [rule|] eqn:E.
  - apply find_some in E as [Hin Happ]. unfold rule_applies in Happ. apply andb_true_iff in Happ as [En Ec].
    apply String.eqb_eq in En. apply bool_decide_eq_true in Ec.
    pose proof rules_confidence as Hall. rewrite forallb_forall in Hall. specialize (Hall _ Hin).
    apply andb_true_iff in Hall as [Hc Hne]. apply negb_true_iff, String.eqb_neq in Hne. rewrite En in Hne.
    pose proof Hc as Hc'. unfold confidence_ok in Hc'. apply andb_true_iff in Hc' as [Hd Hu].
    split; [by apply observe_valid|]. split; [exact Hd|]. split; [exact Hu|]. split; [|split; [|split; [|done]]].
    + intros rule' Hin' En' Ec'. by rewrite (rules_functional rule' rule) by congruence.
    + intros Hno. exfalso. by apply (Hno rule).
    + by rewrite bool_decide_eq_false_2.
  - pose proof (level_confidence (ev_level event)) as Hc.
    pose proof Hc as Hc'. unfold confidence_ok in Hc'. apply andb_true_iff in Hc' as [Hd Hu].
    assert (Hsrc : (if empty_string engine_name then "legacy:" +:+ to_string (category_value (ev_category event)) else engine_name)
              <> EmptyString).
    { destruct (empty_string engine_name) eqn:Ee; [done|]. by apply String.eqb_neq. }
    split; [by apply observe_valid|]. split; [exact Hd|]. split; [exact Hu|]. split; [|split; [done|split; [|done]]].
    + intros rule Hin En Ec. exfalso. apply (find_none _ _ E) in Hin. unfold rule_applies in Hin.
      by rewrite En, String.eqb_refl, bool_decide_eq_true_2 in Hin.
    + unfold observe. cbn [source_id]. unfold empty_string.
      destruct (String.eqb_spec engine_name EmptyString); [by rewrite bool_decide_eq_true_2|by rewrite bool_decide_eq_false_2].
Qed.

Definition sample_event (level : ThreatLevel) (category : ThreatCategory) : ThreatEvent :=
  Event 1 0 level category 42 "a.exe" "c:/a.exe" EmptyString EmptyString 0 false false.

Lemma adapted_events_are_valid_witness :
  deterministic (adapt_legacy_event (sample_event HIGH EVASION_AMSI) "KernelMon") = true.
Proof.
  destruct (adapted_events_are_valid (sample_event HIGH EVASION_AMSI) "KernelMon") as (_ & _ & _ & H & _).
  refine (proj2 (H (ConfRule "KernelMon" EVASION_AMSI (dlit 90 100) true) _ eq_refl eq_refl)).
  do 12 right. by left.
Defined.
