(* ===== verification/EngineManager.v ===== *)
(** * EngineManager: the engines, the pipeline and the quarantine together

    Models src/src/engine_manager.cpp: the steps of [push_event] between its locks, the
    two steps of [execute_quarantine], the calls it forwards to the pipeline and to the
    quarantine executor, and the sampling of process inspections.  The engines' own work,
    the timeline and the callbacks of the user interface are outside. *)
From S2P Require Import Prelude Float64 Asn1 Sha2 Observation Text FileSystem TelemetryBus Policy Quarantine Correlation Pipeline Threat LegacyAdapter EventLog.

(** ** The manager's state *)

Record EngineManager := Manager {
  em_pipeline : SecurityPipeline;
  em_log : list ThreatEvent;
  em_next_id : Z;
  em_pushing : list (ThreatEvent * string);    (** calls of [push_event] that have their id *)
  em_publishing : list (ThreatEvent * string); (** calls of [push_event] that have logged *)
  em_executing : list RemediationCandidate;    (** calls of [execute_quarantine] with their copy *)
  em_quarantine : QuarantineExecutor;
}.

Definition PIPELINE_CAPACITY : Z := 1024.

(** The constructor, after the policy file was read for each part and the ledger loaded. *)
Definition new_manager (policy : LocalSecurityPolicy) (executor : QuarantineExecutor) : EngineManager :=
  Manager (new_pipeline PIPELINE_CAPACITY policy) [] 1 [] [] [] executor.

(** What a step shows. *)
Inductive shown :=
  | Pipe (e : event)
  | Stamped (ev : ThreatEvent)                          (** a call of [push_event] has its id *)
  | Logged (ev : ThreatEvent) (engine_source : string)
  | Offered (ev : ThreatEvent) (engine_source : string)  (** it enters [publish] *)
  | Executed (finding_id : Z) (code : ErrorCode) (record : option QuarantineRecord)
  | Settled (record_id : Z) (code : ErrorCode).

Inductive call :=
  | PipelineCall (a : action)  (** the pipeline's threads, [publish_observation], approvals, start and stop *)
  | PushStamp (ev : ThreatEvent) (engine_source : string) (now : Z)
  | PushLog (i : nat)
  | PushPublish (i : nat)
  | ExecuteFind (finding_id : Z)
  | ExecuteMove (i : nat) (now : Z)
  | RestoreQuarantine (record_id : Z)
  | ShredQuarantine (record_id : Z)
  | Elsewhere (p : string) (n : option node).  (** another program changes a file *)

Section manager.
Context (order : gmap string ActiveState -> list (string * ActiveState)).

Definition set_pipeline (m : EngineManager) (p : SecurityPipeline) : EngineManager :=
  Manager p (em_log m) (em_next_id m) (em_pushing m) (em_publishing m) (em_executing m) (em_quarantine m).

Definition set_executing (m : EngineManager) (l : list RemediationCandidate) : EngineManager :=
  Manager (em_pipeline m) (em_log m) (em_next_id m) (em_pushing m) (em_publishing m) l (em_quarantine m).

Definition set_quarantine (m : EngineManager) (e : QuarantineExecutor) : EngineManager :=
  Manager (em_pipeline m) (em_log m) (em_next_id m) (em_pushing m) (em_publishing m) (em_executing m) e.

(** [push_event] up to the log. *)
Definition push_stamped (m : EngineManager) (ev : ThreatEvent) (engine_source : string) : EngineManager :=
  Manager (em_pipeline m) (em_log m) (u64 (em_next_id m + 1))
    (em_pushing m ++ [(ev, engine_source)]) (em_publishing m) (em_executing m) (em_quarantine m).

Definition push_log (m : EngineManager) (i : nat) (ev : ThreatEvent) (engine_source : string) : EngineManager :=
  Manager (em_pipeline m) (log_event (em_log m) ev) (em_next_id m) (delete i (em_pushing m))
    (em_publishing m ++ [(ev, engine_source)]) (em_executing m) (em_quarantine m).

Definition push_published (m : EngineManager) (i : nat) : EngineManager :=
  Manager (em_pipeline m) (em_log m) (em_next_id m) (em_pushing m) (delete i (em_publishing m)) (em_executing m) (em_quarantine m).

Definition pipeline_call (m : EngineManager) (a : action) : option (EngineManager * list shown) :=
  match pipe_step order (em_pipeline m) a with
  | Some (p, es) => Some (set_pipeline m p, Pipe <$> es)
  | None => None
  end.

(** [execute_quarantine] up to the executor. *)
Definition execute_find (m : EngineManager) (finding_id : Z) : EngineManager * list shown :=
  match find_candidate (pp_candidates (em_pipeline m)) finding_id with
  | None => (m, [Executed finding_id ERR_NOT_FOUND None])
  | Some candidate => (set_executing m (em_executing m ++ [candidate]), [])
  end.

(** One step, with the files; [None] when no call is at that point. *)
Definition manager_step (m : EngineManager) (w : world) (c : call) : option (EngineManager * list shown * world) :=
  match c with
  | PipelineCall a =>
      match pipeline_call m a with Some (m, es) => Some (m, es, w) | None => None end
  | PushStamp ev engine_source now => 
      let ev := stamp ev (em_next_id m) now in Some (push_stamped m ev engine_source, [Stamped ev], w)
  | PushLog i =>
      match em_pushing m !! i with
      | Some (ev, engine_source) => Some (push_log m i ev engine_source, [Logged ev engine_source], w)
      | None => None
      end
  | PushPublish i =>
      match em_publishing m !! i with
      | Some (ev, engine_source) =>
          match pipeline_call (push_published m i) (PublishCheck (adapt_legacy_event ev engine_source)) with
          | Some (m, es) => Some (m, Offered ev engine_source :: es, w)
          | None => None
          end
      | None => None
      end
  | ExecuteFind finding_id => let '(m, es) := execute_find m finding_id in Some (m, es, w)
  | ExecuteMove i now =>
      match em_executing m !! i with
      | Some candidate =>
          let '((code, record, e), w) := quarantine (em_quarantine m) candidate now w in
          Some (set_quarantine (set_executing m (delete i (em_executing m))) e,
                [Executed (c_finding_id candidate) code record], w)
      | None => None
      end
  | RestoreQuarantine record_id =>
      let '((code, e), w) := restore (em_quarantine m) record_id w in Some (set_quarantine m e, [Settled record_id code], w)
  | ShredQuarantine record_id =>
      let '((code, e), w) := shred (em_quarantine m) record_id w in Some (set_quarantine m e, [Settled record_id code], w)
  | Elsewhere p n => let '(_, w) := change_file p n w in Some (m, [], w)
  end.

(** The confidences of published observations are doubles. *)
Definition call_typed (c : call) : Prop := match c with PipelineCall a => action_typed a | _ => True end.

Inductive managed_run (policy : LocalSecurityPolicy) (executor : QuarantineExecutor) :
    EngineManager -> world -> list shown -> Prop :=
  | run_new w : managed_run policy executor (new_manager policy executor) w []
  | run_step m w es c m' es' w' :
      managed_run policy executor m w es -> call_typed c -> manager_step m w c = Some (m', es', w') ->
      managed_run policy executor m' w' (es ++ es').
End manager.

(** What the pipeline showed, and what became of the events. *)
Definition pipe_in (es : list shown) : list event := omap (fun s => match s with Pipe e => Some e | _ => None end) es.
Definition stamped_in (es : list shown) : list ThreatEvent :=
  omap (fun s => match s with Stamped ev => Some ev | _ => None end) es.
Definition logged_in (es : list shown) : list (ThreatEvent * string) :=
  omap (fun s => match s with Logged ev source => Some (ev, source) | _ => None end) es.
Definition offered_in (es : list shown) : list (ThreatEvent * string) :=
  omap (fun s => match s with Offered ev source => Some (ev, source) | _ => None end) es.

Lemma pipe_in_app es es' : pipe_in (es ++ es') = pipe_in es ++ pipe_in es'.
Proof. apply omap_app. Qed.
Lemma stamped_in_app es es' : stamped_in (es ++ es') = stamped_in es ++ stamped_in es'.
Proof. apply omap_app. Qed.
Lemma logged_in_app es es' : logged_in (es ++ es') = logged_in es ++ logged_in es'.
Proof. apply omap_app. Qed.
Lemma offered_in_app es es' : offered_in (es ++ es') = offered_in es ++ offered_in es'.
Proof. apply omap_app. Qed.

Lemma pipe_only es :
  pipe_in (Pipe <$> es) = es /\ stamped_in (Pipe <$> es) = [] /\ logged_in (Pipe <$> es) = [] /\ offered_in (Pipe <$> es) = [].
Proof. induction es as [|e es (IH & ? & ? & ?)]; [done|]. cbn. split_and!; try done. by f_equal. Qed.

(** ** What the executor promises the manager *)

Lemma post_any {A} (m : io A) w : post m w (fun _ _ => True).
Proof. unfold post. by destruct (m w). Qed.

Ltac skip_step := apply post_bind; eapply post_mono; [apply post_any|]; cbn beta; intros ? ? _.

#[local] Opaque hash_bytes256.

(** A record differs from the one that was made only in what became of the file. *)
Definition same_record (r r0 : QuarantineRecord) : Prop :=
  q_id r = q_id r0 /\ q_finding_id r = q_finding_id r0 /\ q_original_path r = q_original_path r0 /\
  q_vault_path r = q_vault_path r0 /\ q_sha256 r = q_sha256 r0 /\ q_quarantined_at r = q_quarantined_at r0.

(** What a call of [quarantine] adds to the ledger. *)
Definition ledger_grows (e : QuarantineExecutor) (c : RemediationCandidate) (w : world)
    (res : ErrorCode * option QuarantineRecord * QuarantineExecutor) : Prop :=
  let '(code, record, e') := res in
  qe_policy e' = qe_policy e /\
  match record with
  | None => ledger_ e' = ledger_ e
  | Some r =>
      code = OK /\ ledger_ e' = ledger_ e ++ [r] /\ c_approval_state c = APPROVED /\
      is_protected_path (c_target_path c) (qe_policy e) = false /\
      q_finding_id r = c_finding_id c /\ q_original_path r = c_target_path c /\
      (c_expected_sha256 c = EmptyString \/ c_expected_sha256 c = q_sha256 r) /\
      exists content, files w !! q_original_path r = Some (Regular content) /\ q_sha256 r = hash_bytes256 content
  end.

Lemma quarantine_ledger e c now w : post (quarantine e c now) w (fun res _ => ledger_grows e c w res).
Proof.
  unfold quarantine.
  destruct (bool_decide_reflect (c_approval_state c = APPROVED)) as [Ha|]; cbn [negb]; [|by apply post_ret].
  destruct (empty_string (c_target_path c)); [by apply post_ret|].
  destruct (has_unsafe_delimiter (c_target_path c)); [by apply post_ret|].
  destruct (is_protected_path (c_target_path c) (qe_policy e)) eqn:Hp; [by apply post_ret|].
  apply post_bind. eapply post_mono; [apply probe_target_post|]. intros [h|] w1 [_ H1]; [|by apply post_ret].
  destruct H1 as (content & (Ht & _ & Hh) & ->). unfold quarantine_locked.
  destruct (MAX_LEDGER_RECORDS <=? _); [by apply post_ret|]. cbv zeta. skip_step.
  destruct a; cbn [negb]; [|by apply post_ret]. skip_step. apply post_ret.
  cbn [ledger_grows qe_policy set_ledger ledger_ q_finding_id q_original_path q_sha256].
  split; [done|]. do 6 (split; [done|]). split; [exact Hh|]. exists content. by split.
Qed.

(** Restoring and shredding change at most the marks of one record. *)
Definition ledger_marks (e e' : QuarantineExecutor) : Prop :=
  qe_policy e' = qe_policy e /\ forall r, In r (ledger_ e') -> exists r0, In r0 (ledger_ e) /\ same_record r r0.

Lemma same_record_refl r : same_record r r.
Proof. done. Qed.

Lemma ledger_marks_refl e : ledger_marks e e.
Proof. split; [done|]. intros r Hr. by exists r. Qed.

Lemma ledger_marks_insert e i r r' : ledger_ e !! i = Some r -> same_record r' r ->
  ledger_marks e (set_ledger e (<[i := r']> (ledger_ e))).
Proof.
  intros Hi Hs. split; [done|]. cbn [set_ledger ledger_]. intros x Hx.
  apply list_elem_of_In, list_elem_of_lookup in Hx as [j Hj]. apply list_lookup_insert_Some in Hj as [(_ & <- & _)|[_ Hj]].
  - exists r. split; [|done]. by eapply list_elem_of_In, list_elem_of_lookup_2.
  - exists x. split; [|done]. by eapply list_elem_of_In, list_elem_of_lookup_2.
Qed.

Lemma restore_ledger e id w : post (restore e id) w (fun res _ => ledger_marks e res.2).
Proof.
  unfold restore. pose proof (find_record_spec id (ledger_ e)) as Hf.
  destruct (find_record id (ledger_ e)) as [[i r]|]; [|apply post_ret, ledger_marks_refl].
  destruct Hf as [Hi _]. destruct (q_shredded r); [apply post_ret, ledger_marks_refl|].
  destruct (q_restored r); [apply post_ret, ledger_marks_refl|]. cbv zeta. skip_step.
  case_match; [apply post_ret, ledger_marks_refl|]. skip_step. case_match; [apply post_ret, ledger_marks_refl|].
  skip_step. destruct a1; [apply post_ret, ledger_marks_refl|]. skip_step. apply post_ret.
  by apply (ledger_marks_insert e i r).
Qed.

Lemma shred_ledger e id w : post (shred e id) w (fun res _ => ledger_marks e res.2).
Proof.
  unfold shred. pose proof (find_record_spec id (ledger_ e)) as Hf.
  destruct (find_record id (ledger_ e)) as [[i r]|]; [|apply post_ret, ledger_marks_refl].
  destruct Hf as [Hi _]. destruct (q_shredded r); [apply post_ret, ledger_marks_refl|].
  destruct (q_restored r); [apply post_ret, ledger_marks_refl|]. cbv zeta. do 3 skip_step. apply post_ret.
  by apply (ledger_marks_insert e i r).
Qed.

(** ** The invariant *)

(** [r] was made by a call that named an approved finding the policy lets through. *)
Definition earned (policy executor_policy : LocalSecurityPolicy) (es : list shown) (r : QuarantineRecord) : Prop :=
  exists before after r0 f,
    es = before ++ Executed (q_finding_id r) OK (Some r0) :: after /\ same_record r r0 /\
    In (Decided (q_finding_id r) APPROVED OK) (pipe_in before) /\ In f (found_in (pipe_in before)) /\
    f_id f = q_finding_id r /\ f_deterministic_signature f = true /\ f_level f = CRITICAL /\
    critical_threshold policy <= f_risk_score f /\ (2 <= length (f_contributing_sources f))%nat /\
    f_file_path f <> EmptyString /\ is_protected_path (f_file_path f) policy = false /\
    is_protected_path (f_file_path f) executor_policy = false /\ q_original_path r = f_file_path f /\
    (f_sha256 f = EmptyString \/ f_sha256 f = q_sha256 r).

Lemma earned_mono policy executor_policy es es' r :
  earned policy executor_policy es r -> earned policy executor_policy (es ++ es') r.
Proof.
  intros (before & after & r0 & f & -> & H). exists before, (after ++ es'), r0, f. by rewrite <- app_assoc.
Qed.

Lemma earned_same policy executor_policy es r r' :
  same_record r' r -> earned policy executor_policy es r -> earned policy executor_policy es r'.
Proof.
  intros (E1 & E2 & E3 & E4 & E5 & E6) (before & after & r0 & f & Hes & (F1 & F2 & F3 & F4 & F5 & F6) & H).
  exists before, after, r0, f. rewrite E2, E3, E5. split; [done|]. split; [|exact H]. unfold same_record. by rewrite E1, E2, E3, E4, E5, E6.
Qed.

Section invariant.
Context (order : gmap string ActiveState -> list (string * ActiveState)).
Context (Horder : forall m, order m ≡ₚ map_to_list m).
Context (policy : LocalSecurityPolicy) (executor : QuarantineExecutor).

Definition from_before (es : list shown) (r : QuarantineRecord) : Prop :=
  (exists r0, In r0 (ledger_ executor) /\ same_record r r0) \/ earned policy (qe_policy executor) es r.

Record manager_inv (m : EngineManager) (es : list shown) : Prop := {
  mi_pipeline : reachable order PIPELINE_CAPACITY policy (em_pipeline m) (pipe_in es);
  mi_executing : Forall (candidate_ok policy (pipe_in es)) (em_executing m);
  mi_policy : qe_policy (em_quarantine m) = qe_policy executor;
  mi_ledger : forall r, In r (ledger_ (em_quarantine m)) -> from_before es r;
}.

(** Every event is in one place. *)
Record events_inv (m : EngineManager) (es : list shown) : Prop := {
  mf_ids : ev_id <$> stamped_in es = nth_id <$> seq 0 (length (stamped_in es));
  mf_next : em_next_id m = nth_id (length (stamped_in es));
  mf_stamped : stamped_in es ≡ₚ (logged_in es).*1 ++ (em_pushing m).*1;
  mf_logged : logged_in es ≡ₚ offered_in es ++ em_publishing m;
  mf_log : log_of ((logged_in es).*1) (em_log m);
}.

Lemma pipeline_call_inv m a m' es' es :
  manager_inv m es -> action_typed a -> pipeline_call order m a = Some (m', es') -> manager_inv m' (es ++ es').
Proof.
  intros [Hp He Hq Hl] Ha. unfold pipeline_call.
  destruct (pipe_step order (em_pipeline m) a) as [[p' l]|] eqn:Hs; [|done]. intros [= <- <-].
  destruct (pipe_only l) as (Epipe & _).
  split; cbn [set_pipeline em_pipeline em_executing em_quarantine]; rewrite ?pipe_in_app, ?Epipe; [..|done|].
  - by eapply reach_step.
  - eapply Forall_impl; [exact He|]. intros c. apply candidate_ok_mono.
  - intros r Hr. destruct (Hl r Hr) as [|Hr']; [by left|right]. by apply earned_mono.
Qed.

(** A step that leaves the pipeline and the quarantine alone, and shows none of their events. *)
Lemma manager_frame m m' es es' :
  manager_inv m es -> em_pipeline m' = em_pipeline m -> pipe_in es' = [] ->
  em_executing m' = em_executing m -> em_quarantine m' = em_quarantine m -> manager_inv m' (es ++ es').
Proof.
  intros [Hp He Hq Hl] Ep Es Ee Eq. split; rewrite ?Ep, ?Ee, ?Eq, ?pipe_in_app, ?Es, ?app_nil_r; [done..|].
  intros r Hr. destruct (Hl r Hr) as [|Hr']; [by left|right]. by apply earned_mono.
Qed.

Lemma find_candidate_in l id c : find_candidate l id = Some c -> In c l /\ c_finding_id c = id.
Proof.
  induction l as [|x l IH]; [done|]. cbn. destruct (Z.eqb_spec (c_finding_id x) id) as [E|E].
  - intros [= ->]. split; [by left|done].
  - intros H. destruct (IH H). split; [by right|done].
Qed.

Lemma execute_find_inv m id m' es' es :
  manager_inv m es -> execute_find m id = (m', es') -> manager_inv m' (es ++ es').
Proof.
  intros Hi. unfold execute_find. destruct (find_candidate _ id) as [c|] eqn:Hf; intros [= <- <-].
  - rewrite app_nil_r. pose proof Hi as [Hp He Hq Hl]. split; cbn [set_executing em_pipeline em_executing em_quarantine]; [done| |done..].
    apply Forall_app. split; [done|]. constructor; [|done]. apply find_candidate_in in Hf as [Hin _].
    destruct (reachable_inv order Horder _ _ _ _ Hp) as (_ & _ & [_ _ _ Ho _]). rewrite List.Forall_forall in Ho. by apply Ho.
  - by apply (manager_frame m).
Qed.

Lemma execute_move_inv m i now c w es :
  manager_inv m es -> em_executing m !! i = Some c ->
  let '((code, record, e), _) := quarantine (em_quarantine m) c now w in
  manager_inv (set_quarantine (set_executing m (delete i (em_executing m))) e)
    (es ++ [Executed (c_finding_id c) code record]).
Proof.
  intros Hi Hc. pose proof Hi as [Hp He Hq Hl]. pose proof (quarantine_ledger (em_quarantine m) c now w) as H. unfold post in H.
  destruct (quarantine _ c now w) as [[[code record] e] w']. destruct H as [Epol H].
  assert (Hkeep : forall r, In r (ledger_ (em_quarantine m)) -> from_before (es ++ [Executed (c_finding_id c) code record]) r).
  { intros r Hr. destruct (Hl r Hr) as [|Hr']; [by left|right]. by apply earned_mono. }
  split; cbn [set_executing set_quarantine em_pipeline em_executing em_quarantine]; rewrite ?pipe_in_app, ?app_nil_r.
  - done.
  - by apply Forall_delete.
  - by rewrite Epol.
  - destruct record as [r|]; [|by rewrite H].
    destruct H as (-> & -> & Happ & Hprot & Eid & Epath & Ehash & _). intros x Hx. apply in_app_iff in Hx as [Hx|[<-|[]]]; [by apply Hkeep|].
    right. rewrite Forall_forall in He. destruct (He c (list_elem_of_lookup_2 _ _ _ Hc)) as [(f & Hf & Hcand) Hst].
    destruct (reachable_inv order Horder _ _ _ _ Hp) as (_ & _ & [_ Hcorr _ _ _]).
    destruct (earned_facts _ _ _ _ _ Hcorr Hf Hcand) as (F1 & F2 & F3 & F4 & F5 & F6 & F7 & F8 & F9).
    rewrite Hq in Hprot. rewrite Happ in Hst. destruct Hst as [|Hst]; [done|].
    exists es, [], r, f. rewrite Eid, Epath, F8, <- F9. rewrite F8 in Hprot. by split_and!.
Qed.

Lemma marks_inv m e es s :
  manager_inv m es -> ledger_marks (em_quarantine m) e -> pipe_in [s] = [] -> manager_inv (set_quarantine m e) (es ++ [s]).
Proof.
  intros [Hp He Hq Hl] [Epol Hm] Es. split; cbn [set_quarantine em_pipeline em_executing em_quarantine];
    rewrite ?pipe_in_app, ?Es, ?app_nil_r; [done|done|by rewrite Epol|].
  intros r Hr. destruct (Hm r Hr) as (r0 & Hr0 & Hs). destruct (Hl r0 Hr0) as [(r1 & Hr1 & Hs1)|H].
  - left. exists r1. split; [done|]. unfold same_record in *. intuition congruence.
  - right. apply earned_mono. by eapply earned_same.
Qed.

Lemma manager_step_inv m w c m' es' w' es :
  manager_inv m es -> call_typed c -> manager_step order m w c = Some (m', es', w') -> manager_inv m' (es ++ es').
Proof.
  intros Hi Hc Hs. destruct c as [a|ev source now|i|i|id|i now|id|id|p n]; cbn [manager_step] in Hs.
  - destruct (pipeline_call order m a) as [[m1 es1]|] eqn:E; [|done]. simplify_eq. by eapply pipeline_call_inv.
  - simplify_eq. by apply (manager_frame m).
  - destruct (em_pushing m !! i) as [[ev source]|]; [|done]. simplify_eq. by apply (manager_frame m).
  - destruct (em_publishing m !! i) as [[ev source]|]; [|done].
    destruct (pipeline_call order _ _) as [[m1 es1]|] eqn:E; [|done]. simplify_eq.
    rewrite (cons_middle _ es es1), app_assoc. eapply (pipeline_call_inv _ (PublishCheck _)); [|exact (adapt_typed ev source)|exact E].
    by apply (manager_frame m).
  - destruct (execute_find m id) as [m1 es1] eqn:E. simplify_eq. by eapply execute_find_inv.
  - destruct (em_executing m !! i) as [c|] eqn:Hi'; [|done].
    pose proof (execute_move_inv m i now c w es Hi Hi') as H.
    destruct (quarantine _ c now w) as [[[code record] e] w1]. by simplify_eq.
  - pose proof (restore_ledger (em_quarantine m) id w) as H. unfold post in H.
    destruct (restore _ id w) as [[code e] w1]. simplify_eq. by apply marks_inv.
  - pose proof (shred_ledger (em_quarantine m) id w) as H. unfold post in H.
    destruct (shred _ id w) as [[code e] w1]. simplify_eq. by apply marks_inv.
  - destruct (change_file p n w) as [u w1]. simplify_eq. by apply (manager_frame m').
Qed.

(** A step that pushes, logs and offers nothing. *)
Lemma events_frame m m' es es' :
  events_inv m es -> stamped_in es' = [] -> logged_in es' = [] -> offered_in es' = [] ->
  em_log m' = em_log m -> em_next_id m' = em_next_id m -> em_pushing m' = em_pushing m ->
  em_publishing m' = em_publishing m -> events_inv m' (es ++ es').
Proof.
  intros [] E1 E2 E3 F1 F2 F3 F4.
  by split; rewrite ?F1, ?F2, ?F3, ?F4, ?stamped_in_app, ?logged_in_app, ?offered_in_app, ?E1, ?E2, ?E3, ?app_nil_r.
Qed.

Lemma pipeline_call_fields m a m' es' :
  pipeline_call order m a = Some (m', es') ->
  (stamped_in es' = [] /\ logged_in es' = [] /\ offered_in es' = []) /\ em_log m' = em_log m /\
  em_next_id m' = em_next_id m /\ em_pushing m' = em_pushing m /\ em_publishing m' = em_publishing m.
Proof.
  unfold pipeline_call. destruct (pipe_step _ _ _) as [[p l]|]; [|done]. intros [= <- <-].
  destruct (pipe_only l) as (_ & ? & ? & ?). by split.
Qed.

Lemma push_stamp_events m ev source now es :
  events_inv m es -> let ev := stamp ev (em_next_id m) now in
  events_inv (push_stamped m ev source) (es ++ [Stamped ev]).
Proof.
  intros [H1 H2 H3 H4 H5]. cbv zeta. set (ev' := stamp ev (em_next_id m) now).
  assert (Ev : ev_id ev' = nth_id (length (stamped_in es))) by (rewrite <- H2; done).
  split; cbn [push_stamped em_log em_next_id em_pushing em_publishing];
    rewrite ?stamped_in_app, ?logged_in_app, ?offered_in_app, ?app_nil_r; try done.
  - rewrite fmap_app, H1, length_app, seq_app, fmap_app.
    change (stamped_in [Stamped ev']) with [ev']. cbn [fmap list_fmap length seq]. by rewrite Ev.
  - rewrite H2, length_app. unfold nth_id, u64. cbn [length stamped_in omap list_omap]. rewrite Zplus_mod_idemp_l. f_equal. lia.
  - rewrite fmap_app, app_assoc, <- H3. done.
Qed.

Lemma push_log_events m i ev source es :
  events_inv m es -> em_pushing m !! i = Some (ev, source) ->
  events_inv (push_log m i ev source) (es ++ [Logged ev source]).
Proof.
  intros [H1 H2 H3 H4 H5] Hi. apply delete_Permutation in Hi.
  split; cbn [push_log em_log em_next_id em_pushing em_publishing];
    rewrite ?stamped_in_app, ?logged_in_app, ?offered_in_app, ?app_nil_r, ?fmap_app; try done.
  - apply (fmap_Permutation fst) in Hi. rewrite H3. etrans; [apply Permutation_app_head, Hi|]. cbn. by rewrite <- app_assoc.
  - by rewrite H4, app_assoc.
  - by apply log_event_of.
Qed.

Lemma push_offer_events m i ev source es :
  events_inv m es -> em_publishing m !! i = Some (ev, source) ->
  events_inv (push_published m i) (es ++ [Offered ev source]).
Proof.
  intros [H1 H2 H3 H4 H5] Hi. apply delete_Permutation in Hi.
  split; cbn [push_published em_log em_next_id em_pushing em_publishing];
    rewrite ?stamped_in_app, ?logged_in_app, ?offered_in_app, ?app_nil_r; try done.
  rewrite H4. etrans; [apply Permutation_app_head, Hi|]. by rewrite <- app_assoc.
Qed.

Lemma manager_step_events m w c m' es' w' es :
  events_inv m es -> manager_step order m w c = Some (m', es', w') -> events_inv m' (es ++ es').
Proof.
  intros Hi Hs. destruct c as [a|ev source now|i|i|id|i now|id|id|p n]; cbn [manager_step] in Hs.
  - destruct (pipeline_call order m a) as [[m1 es1]|] eqn:E; [|done]. simplify_eq.
    destruct (pipeline_call_fields _ _ _ _ E) as ((? & ? & ?) & ? & ? & ? & ?). by apply (events_frame m).
  - simplify_eq. by apply push_stamp_events.
  - destruct (em_pushing m !! i) as [[ev source]|] eqn:Ei; [|done]. simplify_eq. by apply push_log_events.
  - destruct (em_publishing m !! i) as [[ev source]|] eqn:Ei; [|done].
    destruct (pipeline_call order _ _) as [[m1 es1]|] eqn:E; [|done]. simplify_eq.
    destruct (pipeline_call_fields _ _ _ _ E) as ((? & ? & ?) & ? & ? & ? & ?).
    rewrite (cons_middle _ es es1), app_assoc. eapply events_frame; [by apply (push_offer_events m i ev source)|done..].
  - unfold execute_find in Hs. destruct (find_candidate _ id); simplify_eq; by eapply events_frame.
  - destruct (em_executing m !! i) as [c|]; [|done].
    destruct (quarantine _ c now w) as [[[code record] e] w1]. simplify_eq. by apply (events_frame m).
  - destruct (restore _ id w) as [[code e] w1]. simplify_eq. by apply (events_frame m).
  - destruct (shred _ id w) as [[code e] w1]. simplify_eq. by apply (events_frame m).
  - destruct (change_file p n w) as [u w1]. simplify_eq. by apply (events_frame m').
Qed.

Lemma managed_run_events m w es : managed_run order policy executor m w es -> events_inv m es.
Proof.
  induction 1 as [w|m w es c m' es' w' _ IH Hc Hs]; [|by eapply manager_step_events].
  split; cbn; try done. apply log_of_nil.
Qed.

Lemma managed_run_inv m w es : managed_run order policy executor m w es -> manager_inv m es.
Proof.
  induction 1 as [w|m w es c m' es' w' _ IH Hc Hs].
  - split; cbn; [constructor|constructor|done|]. intros r Hr. left. by exists r.
  - by eapply manager_step_inv.
Qed.
End invariant.

(** ** Properties *)

(** C4: no file is quarantined that was not earned and approved: whatever the engines
    report, in whatever order the threads move and whatever the file system does, every
    record of the ledger was there when the program started, or was made by a call of
    [execute_quarantine] that came after an approval of its finding, for a finding of the
    pipeline that is deterministic, CRITICAL, at the policy's threshold and corroborated by
    two sources; the path is the finding's, protected by neither policy, and the hash of
    the file that was moved is the finding's when it names one. *)
Theorem quarantined_files_are_earned (order : gmap string ActiveState -> list (string * ActiveState))
    (Horder : forall m, order m ≡ₚ map_to_list m)
    (policy : LocalSecurityPolicy) (executor : QuarantineExecutor) (m : EngineManager) (w : world) (es : list shown)
    (Hrun : managed_run order policy executor m w es) (r : QuarantineRecord)
    (Hin : In r (ledger_ (em_quarantine m))) :
  (exists r0, In r0 (ledger_ executor) /\ same_record r r0) \/
  exists before after r0 f,
    es = before ++ Executed (q_finding_id r) OK (Some r0) :: after /\ same_record r r0 /\
    In (Decided (q_finding_id r) APPROVED OK) (pipe_in before) /\ In f (found_in (pipe_in before)) /\
    f_id f = q_finding_id r /\ f_deterministic_signature f = true /\ f_level f = CRITICAL /\
    critical_threshold policy <= f_risk_score f /\ (2 <= length (f_contributing_sources f))%nat /\
    f_file_path f <> EmptyString /\ is_protected_path (f_file_path f) policy = false /\
    is_protected_path (f_file_path f) (qe_policy executor) = false /\ q_original_path r = f_file_path f /\
    (f_sha256 f = EmptyString \/ f_sha256 f = q_sha256 r).
Proof. exact (mi_ledger _ _ _ _ _ (managed_run_inv order Horder policy executor m w es Hrun) r Hin). Qed.

(** an event that an engine pushes gets an id no other has, is logged once and is
    offered to the pipeline once, however the calls of [push_event] interleave: those
    stamped are those logged and those still waiting for the lock, those logged are those
    offered, as observations of their engine, and those about to be; and the log is the
    end of the sequence logged, of at most 10000 events. *)
Theorem pushed_events_are_logged_once (order : gmap string ActiveState -> list (string * ActiveState))
    (policy : LocalSecurityPolicy) (executor : QuarantineExecutor) (m : EngineManager) (w : world) (es : list shown)
    (Hrun : managed_run order policy executor m w es) :
  (Z.of_nat (length (stamped_in es)) < 2 ^ 64 -> NoDup (ev_id <$> stamped_in es)) /\
  stamped_in es ≡ₚ (logged_in es).*1 ++ (em_pushing m).*1 /\
  logged_in es ≡ₚ offered_in es ++ em_publishing m /\
  Z.of_nat (length (em_log m)) <= 10000 /\
  exists evicted, (logged_in es).*1 = evicted ++ em_log m /\
    (evicted = [] \/ 5000 < Z.of_nat (length (em_log m)) /\ 10000 < Z.of_nat (length (logged_in es).*1)).
Proof.
  destruct (managed_run_events order policy executor m w es Hrun) as [H1 _ H3 H4 [Hlen (evicted & E & He)]].
  split; [intros Hn; rewrite H1; by apply nth_id_nodup|]. split; [done|]. split; [done|]. split; [exact Hlen|].
  exists evicted. split; [exact E|]. destruct He as [He|[He1 He2]]; [by left|right]. by split.
Qed.

(** ** A run that quarantines *)

Fixpoint run_calls (order : gmap string ActiveState -> list (string * ActiveState)) (m : EngineManager) (w : world)
    (calls : list call) : option (EngineManager * list shown * world) :=
  match calls with
  | [] => Some (m, [], w)
  | c :: calls =>
      match manager_step order m w c with
      | None => None
      | Some (m, es, w) =>
          match run_calls order m w calls with
          | None => None
          | Some (m, es', w) => Some (m, es ++ es', w)
          end
      end
  end.

Lemma run_calls_managed order policy executor calls : forall m w es m' es' w',
  managed_run order policy executor m w es -> Forall call_typed calls ->
  run_calls order m w calls = Some (m', es', w') -> managed_run order policy executor m' w' (es ++ es').
Proof.
  induction calls as [|c calls IH]; intros m w es m' es' w' Hm Ht Hr; cbn in Hr; [simplify_eq; by rewrite app_nil_r|].
  apply Forall_cons in Ht as [Hc Ht].
  destruct (manager_step order m w c) as [[[m1 es1] w1]|] eqn:Hs; [|done].
  destruct (run_calls order m1 w1 calls) as [[[m2 es2] w2]|] eqn:Hr2; [|done]. simplify_eq. rewrite app_assoc.
  eapply IH; [by eapply run_step|done|done].
Qed.

Definition sample_calls : list call :=
  let ev := Event 0 0 CRITICAL YARA_RULE_MATCH 0 EmptyString "d:/a.exe" "rule hit" EmptyString 0 false false in
  [PushStamp ev "YARA" 0] ++ (PipelineCall <$> sample_run) ++
  [PushLog 0; ExecuteFind 2; ExecuteMove 0 5; PushPublish 0; RestoreQuarantine 9].

Definition manager_executor : QuarantineExecutor := Executor "/v" "/v/ledger.txt" default_policy [] 1.
Definition manager_world : world := World {["d:/a.exe"%string := Regular [x61]]} [].

Definition sample_end : EngineManager * list shown * world :=
  default (new_manager default_policy manager_executor, [], manager_world)
    (run_calls map_to_list (new_manager default_policy manager_executor) manager_world sample_calls).

Example sample_end_ledger :
  (fun r => (q_finding_id r, q_original_path r)) <$> ledger_ (em_quarantine sample_end.1.1) = [(2, "d:/a.exe"%string)] /\
  (fun ev => ev_id ev) <$> em_log sample_end.1.1 = [1].
Proof. split; vm_compute; reflexivity. Qed.

Lemma sample_managed_run :
  managed_run map_to_list default_policy manager_executor sample_end.1.1 sample_end.2 sample_end.1.2.
Proof.
  assert (Ht : Forall call_typed sample_calls) by (repeat constructor; vm_compute; reflexivity).
  assert (Hn : is_Some (run_calls map_to_list (new_manager default_policy manager_executor) manager_world sample_calls))
    by (vm_compute; by eexists).
  unfold sample_end. destruct (run_calls _ _ _ _) as [[[m es] w]|] eqn:Hr; [|by destruct Hn].
  exact (run_calls_managed _ _ _ _ _ _ [] _ _ _ (run_new _ _ _ _) Ht Hr).
Qed.

Lemma quarantined_files_are_earned_witness :
  exists r f, In r (ledger_ (em_quarantine sample_end.1.1)) /\ f_id f = q_finding_id r /\
    f_deterministic_signature f = true /\ f_level f = CRITICAL.
Proof.
  assert (Hr : exists r, In r (ledger_ (em_quarantine sample_end.1.1))) by (vm_compute; eexists; by left).
  destruct Hr as [r Hr]. exists r.
  destruct (quarantined_files_are_earned map_to_list (fun m => reflexivity _) default_policy manager_executor
    sample_end.1.1 sample_end.2 sample_end.1.2 sample_managed_run r Hr) as [(r0 & [] & _)|(b & a & r0 & f & _ & _ & _ & _ & H1 & H2 & H3 & _)].
  exists f. exact (conj Hr (conj H1 (conj H2 H3))).
Defined.

Lemma pushed_events_are_logged_once_witness :
  Z.of_nat (length (em_log sample_end.1.1)) <= 10000 /\ NoDup (ev_id <$> stamped_in sample_end.1.2).
Proof.
  destruct (pushed_events_are_logged_once map_to_list default_policy manager_executor
    sample_end.1.1 sample_end.2 sample_end.1.2 sample_managed_run) as (H1 & _ & _ & H2 & _).
  split; [exact H2|]. apply H1. vm_compute. reflexivity.
Defined.
