(* ===== verification/EtwProcess.v ===== *)
(** * EtwProcess: the kernel process events

    Models src/src/security/etw_kernel_process_engine.cpp: the decoding of event payloads,
    the text conversion, the table of creation times, the observations made of events, and
    the opening and closing of the session as sequences of calls to the system.  What the
    system answers is an argument.  Creation times are FILETIME counts. *)
From S2P Require Import Prelude Float64 Asn1 Observation Text PeHash.

#[local] Open Scope mem_scope.
#[local] Open Scope word_scope.

Definition kProcessStartFixedPrefixSize : Z := 4 + 8 + 8 + 4 + 8 + 4 + 4.

Definition read_u32le (data : ptr) (offset : Z) : mem Z := read_u32 data offset.

Definition read_u64le (data : ptr) (offset : Z) : mem Z :=
  let* lo := read_u32 data offset in
  let* hi := read_u32 data (offset + 4) in
  Val (lo .| (hi <<< 32)).

(** ** Text *)

(** The bytes appended for a code point. *)
Definition utf8_bytes (cp : Z) : list Z :=
  if cp <=? 0x7F then [cp]
  else if cp <=? 0x7FF then [0xC0 .| (cp >>> 6); 0x80 .| (cp .& 0x3F)]
  else if cp <=? 0xFFFF then [0xE0 .| (cp >>> 12); 0x80 .| ((cp >>> 6) .& 0x3F); 0x80 .| (cp .& 0x3F)]
  else [0xF0 .| (cp >>> 18); 0x80 .| ((cp >>> 12) .& 0x3F); 0x80 .| ((cp >>> 6) .& 0x3F); 0x80 .| (cp .& 0x3F)].

Definition read_unit (data : ptr) (offset : Z) : mem Z := read_u16 data offset.

(** The code point at [i] and the index behind it; [base] is where the text starts. *)
Definition next_code_point (data : ptr) (base byte_len i unit : Z) : mem (Z * Z) :=
  if (0xD800 <=? unit) && (unit <=? 0xDBFF) && (i + 1 <? byte_len) then
    let* low := read_unit data (base + i) in
    if (0xDC00 <=? low) && (low <=? 0xDFFF)
    then Val (0x10000 + ((unit - 0xD800) <<< 10) + (low - 0xDC00), i + 2)
    else Val (unit, i)
  else Val (unit, i).

(** The loop of [utf16le_to_utf8]; each turn consumes two bytes, so the length is fuel
    enough. *)
Fixpoint utf16_loop (fuel : nat) (data : ptr) (base byte_len i : Z) : mem (list Z) :=
  match fuel with
  | O => OOB
  | S fuel =>
      if i + 1 <? byte_len then
        let* unit := read_unit data (base + i) in
        let i := i + 2 in
        if unit =? 0 then Val []
        else
          let* next := next_code_point data base byte_len i unit in
          let '(cp, i) := next in
          let* rest := utf16_loop fuel data base byte_len i in
          Val (utf8_bytes cp ++ rest)
      else Val []
  end.

Definition string_of_values (l : list Z) : string := string_of_bytes (byte_of <$> l).

Definition utf16le_to_utf8 (data : ptr) (base byte_len : Z) : mem string :=
  let* out := utf16_loop (S (Z.to_nat byte_len)) data base byte_len 0 in
  Val (string_of_values out).

(** ** Payloads *)

Record DecodedProcessStart := ProcStart {
  d_pid : Z;
  d_parent_pid : Z;
  d_create_time : Z;
  d_image_name : string;
}.

Definition decode_process_start (data : ptr) (size : Z) : mem (option DecodedProcessStart) :=
  if null data || (size <? kProcessStartFixedPrefixSize) then Val None
  else
    let* pid := read_u32le data 0 in
    let* create_time := read_u64le data 12 in
    let* parent_pid := read_u32le data 20 in
    if pid =? 0 then Val None
    else
      let* image_name :=
        if kProcessStartFixedPrefixSize <? size
        then utf16le_to_utf8 data kProcessStartFixedPrefixSize (size - kProcessStartFixedPrefixSize)
        else Val EmptyString in
      Val (Some (ProcStart pid parent_pid create_time image_name)).

Definition decode_process_stop_pid (data : ptr) (size : Z) : mem (option Z) :=
  if null data || (size <? 4) then Val None
  else
    let* pid := read_u32le data 0 in
    Val (if pid =? 0 then None else Some pid).

(** The target process and the thread. *)
Definition decode_thread_start (data : ptr) (size : Z) : mem (option (Z * Z)) :=
  if null data || (size <? 8) then Val None
  else
    let* target_pid := read_u32le data 0 in
    let* thread_id := read_u32le data 4 in
    Val (if target_pid =? 0 then None else Some (target_pid, thread_id)).

(** ** Observations *)

Definition is_impossible_parent_order (child_created parent_created : Z) : bool :=
  negb (child_created =? 0) && negb (parent_created =? 0) && (child_created <? parent_created).

Definition is_remote_thread (creator_pid target_pid : Z) : bool :=
  negb (creator_pid =? 0) && negb (target_pid =? 0) && negb (creator_pid =? target_pid).

Definition make_lineage_observation (now pid parent_pid : Z) (image_name : string) : SecurityObservation :=
  Obs "etw-kernel-process" PROCESS_LINEAGE now HIGH (dlit 90 100) true pid image_name image_name EmptyString
    ("Kernel-Process ETW reported live parent PID " +:+ to_string parent_pid +:+
     " created after this process (CreateTime order violation)").

Definition make_remote_thread_observation (now creator_pid target_pid thread_id : Z) : SecurityObservation :=
  Obs "etw-kernel-process" PROCESS_MEMORY now CRITICAL (dlit 95 100) true target_pid EmptyString EmptyString EmptyString
    ("Kernel-Process ETW detected remote thread injection: Creator PID " +:+ to_string creator_pid +:+
     " injected thread ID " +:+ to_string thread_id +:+ " into Target PID " +:+ to_string target_pid).

(** ** Events *)

Definition kEventProcessStart : Z := 1.
Definition kEventProcessStop : Z := 2.
Definition kEventThreadStart : Z := 3.
Definition MAX_KNOWN_CREATE_TIMES : Z := 8192.
Definition kValidationSampleCount : Z := 5.

Record EtwState := Etw {
  known_create_times : gmap Z Z;
  validation_samples : Z;
  validation_failures : Z;
}.

(** What the engine hands to its callbacks. *)
Inductive dispatched :=
  | Observed (o : SecurityObservation)
  | ProcessStarted (pid : Z) (image_name : string)
  | RemoteThread (creator_pid target_pid thread_id : Z).

(** What the system answers: the creation time of a process that opens, and the image
    name of a process that opens, if it can be told. *)
Record etw_system := System {
  creation_time_of : Z -> option Z;
  image_name_of : Z -> option (option string);
}.

(** The part behind the last separator. *)
Definition last_sep (s : string) : string :=
  match find_last (one_of [92; 47]) s with None => s | Some p => str_drop (S p) s end.

Definition lo (c : Ascii.ascii) : Ascii.ascii :=
  let v := char_value c in if (65 <=? v) && (v <=? 90) then char_of (v - 65 + 97) else c.

(** The comparison loop, on strings of one length. *)
Fixpoint same_file (a b : string) : bool :=
  match a, b with
  | String.String x a, String.String y b => if negb (bool_decide (lo x = lo y)) then false else same_file a b
  | _, _ => true
  end.

Definition names_match (decoded_name os_name : string) : bool :=
  let decoded_file := last_sep decoded_name in
  let os_file := last_sep os_name in
  if Nat.eqb (String.length decoded_file) (String.length os_file) then same_file decoded_file os_file else false.

Definition validate_decoded_event (sys : etw_system) (st : EtwState) (decoded : DecodedProcessStart) : EtwState :=
  if kValidationSampleCount <=? validation_samples st then st
  else
    let st := Etw (known_create_times st) (validation_samples st + 1) (validation_failures st) in
    match image_name_of sys (d_pid decoded) with
    | None => st
    | Some image =>
        let name_ok :=
          if negb (empty_string (d_image_name decoded)) then
            match image with
            | Some os_name => if Nat.ltb 0 (String.length os_name) then names_match (d_image_name decoded) os_name else true
            | None => true
            end
          else true in
        if negb name_ok then Etw (known_create_times st) (validation_samples st) (validation_failures st + 1) else st
    end.

(** The branch of a start event. *)
Definition handle_process_start (sys : etw_system) (now : Z) (st : EtwState) (pid parent_pid create_time : Z)
    (image_name : string) : EtwState * list dispatched :=
  let known := known_create_times st in
  let known := if MAX_KNOWN_CREATE_TIMES <=? Z.of_nat (size known) then ∅ else known in
  let known := <[pid := create_time]> known in
  let lineage :=
    if negb (parent_pid =? 0) && negb (parent_pid =? pid) then
      let parent_created := default 0 (known !! parent_pid) in
      let parent_created := if parent_created =? 0 then default 0 (creation_time_of sys parent_pid) else parent_created in
      if is_impossible_parent_order create_time parent_created
      then [Observed (make_lineage_observation now pid parent_pid image_name)] else []
    else [] in
  (Etw known (validation_samples st) (validation_failures st), lineage ++ [ProcessStarted pid image_name]).

Definition handle_process_event (sys : etw_system) (now : Z) (st : EtwState) (event_id pid parent_pid create_time : Z)
    (image_name : string) : EtwState * list dispatched :=
  if event_id =? kEventProcessStart then handle_process_start sys now st pid parent_pid create_time image_name
  else if event_id =? kEventProcessStop then
    (Etw (delete pid (known_create_times st)) (validation_samples st) (validation_failures st), [])
  else (st, []).

Record event_record := EventRecord {
  er_ours : bool; (** the provider is the kernel process provider *)
  er_id : Z;
  er_process_id : Z;
  er_payload : ptr;
  er_size : Z;
}.

Definition on_event_record (sys : etw_system) (now : Z) (st : EtwState) (record : event_record) :
    mem (EtwState * list dispatched) :=
  if negb (er_ours record) then Val (st, [])
  else
    let event_id := er_id record in
    let payload := er_payload record in
    let payload_size := er_size record in
    if event_id =? kEventProcessStart then
      let* decoded := decode_process_start payload payload_size in
      match decoded with
      | None => Val (st, [])
      | Some decoded =>
          let st := validate_decoded_event sys st decoded in
          Val (handle_process_event sys now st event_id (d_pid decoded) (d_parent_pid decoded)
                 (d_create_time decoded) (d_image_name decoded))
      end
    else if event_id =? kEventProcessStop then
      let* pid := decode_process_stop_pid payload payload_size in
      match pid with
      | None => Val (st, [])
      | Some pid => Val (handle_process_event sys now st event_id pid 0 0 EmptyString)
      end
    else if event_id =? kEventThreadStart then
      let* decoded := decode_thread_start payload payload_size in
      match decoded with
      | None => Val (st, [])
      | Some (target_pid, thread_id) =>
          let creator_pid := er_process_id record in
          Val (st, if is_remote_thread creator_pid target_pid
                   then [Observed (make_remote_thread_observation now creator_pid target_pid thread_id);
                         RemoteThread creator_pid target_pid thread_id]
                   else [])
      end
    else Val (st, []).

(** ** The session *)

(** The calls to the system, with what they opened. *)
Inductive api_call := StartTrace (ok : bool) | StopStaleTrace | EnableTrace | OpenTrace (ok : bool) | CloseTrace | StopTrace.

(** What the system answers to [start]: the first [StartTraceW] succeeds, finds the
    session of an earlier run, or fails. *)
Inductive start_reply := Started_ | AlreadyExists | StartFailed.

Record session_replies := Replies {
  first_start : start_reply;
  second_start : bool;
  enables : bool;
  opens_ : bool;
  thread_starts : bool;
}.

Record Session := Sess { session_started : bool; consumer_opened : bool }.

Record etw_engine := EtwEngine {
  ee_running : bool;
  ee_session : option Session;
  ee_state : EtwState;
}.

Definition close_session (session : option Session) : list api_call :=
  match session with
  | None => []
  | Some s => (if consumer_opened s then [CloseTrace] else []) ++ (if session_started s then [StopTrace] else [])
  end.

Definition open_session (r : session_replies) : option Session * list api_call :=
  let '(ok, calls) :=
    match first_start r with
    | Started_ => (true, [StartTrace true])
    | AlreadyExists => (second_start r, [StartTrace false; StopStaleTrace; StartTrace (second_start r)])
    | StartFailed => (false, [StartTrace false])
    end in
  if negb ok then (None, calls)
  else
    let calls := calls ++ [EnableTrace] in
    if negb (enables r) then (None, calls ++ close_session (Some (Sess true false)))
    else
      let calls := calls ++ [OpenTrace (opens_ r)] in
      if negb (opens_ r) then (None, calls ++ close_session (Some (Sess true false)))
      else (Some (Sess true true), calls).

Definition etw_start (r : session_replies) (e : etw_engine) : etw_engine * ErrorCode * list api_call :=
  if ee_running e then (e, OK, [])
  else
    match open_session r with
    | (None, calls) => (EtwEngine false None (ee_state e), ERR_ENGINE_START, calls)
    | (Some s, calls) =>
        if thread_starts r then (EtwEngine true (Some s) (ee_state e), OK, calls)
        else (EtwEngine false None (ee_state e), ERR_ENGINE_START, calls ++ close_session (Some s))
    end.

Definition etw_stop (e : etw_engine) : etw_engine * ErrorCode * list api_call :=
  if negb (ee_running e) then (e, OK, [])
  else
    (EtwEngine false None (Etw ∅ (validation_samples (ee_state e)) (validation_failures (ee_state e))), OK,
     close_session (ee_session e)).

(** ** Reference definitions: little-endian words, UTF-16LE and UTF-8 *)

Fixpoint le_word (n : nat) (z : Z) : list byte :=
  match n with O => [] | S n => byte_of z :: le_word n (z / 256) end.

Definition scalar (cp : Z) : Prop := 0 < cp < 0xD800 \/ 0xE000 <= cp < 0x110000.

Definition utf16_units (cp : Z) : list Z :=
  if cp <? 0x10000 then [cp] else [0xD800 + (cp - 0x10000) / 1024; 0xDC00 + (cp - 0x10000) mod 1024].

Definition utf16_bytes (cps : list Z) : list byte := mjoin (le_word 2 <$> mjoin (utf16_units <$> cps)).

(** The table of RFC 3629. *)
Definition utf8_spec (cp : Z) : list Z :=
  if cp <? 0x80 then [cp]
  else if cp <? 0x800 then [192 + cp / 64; 128 + cp mod 64]
  else if cp <? 0x10000 then [224 + cp / 4096; 128 + cp / 64 mod 64; 128 + cp mod 64]
  else [240 + cp / 262144; 128 + cp / 4096 mod 64; 128 + cp / 64 mod 64; 128 + cp mod 64].

(** ** Reading words *)

Lemma le_word_length n z : length (le_word n z) = n.
Proof. revert z. induction n as [|n IH]; intros z; cbn; [done|by rewrite IH]. Qed.

Lemma rd_at pre l k b : l !! Z.to_nat k = Some b -> 0 <= k -> rd (Some (pre ++ l)) (Z.of_nat (length pre) + k) = Val b.
Proof.
  intros H Hk. replace (Z.of_nat (length pre) + k) with (Z.of_nat (length pre + Z.to_nat k)) by lia.
  apply rd_lookup. rewrite lookup_app_r by lia. by rewrite Nat.add_comm, Nat.add_sub.
Qed.

Lemma bytes_sum a b c d : 0 <= a < 256 -> 0 <= b < 256 -> 0 <= c < 256 ->
  a .| (b <<< 8) .| (c <<< 16) .| (d <<< 24) = a + b * 256 + c * 65536 + d * 16777216.
Proof. intros. rewrite (lor_shiftl_add a b 8), (lor_shiftl_add _ c 16), (lor_shiftl_add _ d 24) by lia. lia. Qed.

Lemma read_u16_word pre z post : 0 <= z < 2 ^ 16 -> read_u16 (Some (pre ++ le_word 2 z ++ post)) (Z.of_nat (length pre)) = Val z.
Proof.
  intros Hz. unfold read_u16.
  pose proof (rd_at pre (le_word 2 z ++ post) 0 _ eq_refl ltac:(lia)) as H0. rewrite Z.add_0_r in H0. rewrite H0. cbn [mem_bind].
  rewrite (rd_at pre (le_word 2 z ++ post) 1 _ eq_refl ltac:(lia)). cbn [mem_bind]. rewrite !bval_byte_of, lor_shiftl_add by (try apply Z.mod_pos_bound; lia).
  f_equal. Z.div_mod_to_equations. lia.
Qed.

Lemma read_u32_word pre z post : 0 <= z < 2 ^ 32 -> read_u32 (Some (pre ++ le_word 4 z ++ post)) (Z.of_nat (length pre)) = Val z.
Proof.
  intros Hz. unfold read_u32.
  pose proof (rd_at pre (le_word 4 z ++ post) 0 _ eq_refl ltac:(lia)) as H0. rewrite Z.add_0_r in H0. rewrite H0. cbn [mem_bind].
  rewrite (rd_at pre (le_word 4 z ++ post) 1 _ eq_refl ltac:(lia)). cbn [mem_bind].
  rewrite (rd_at pre (le_word 4 z ++ post) 2 _ eq_refl ltac:(lia)). cbn [mem_bind].
  rewrite (rd_at pre (le_word 4 z ++ post) 3 _ eq_refl ltac:(lia)). cbn [mem_bind].
  rewrite !bval_byte_of, bytes_sum by (apply Z.mod_pos_bound; lia). f_equal. Z.div_mod_to_equations. lia.
Qed.

Lemma le_word_app n m z : 0 <= z -> le_word (n + m) z = le_word n z ++ le_word m (z / 256 ^ Z.of_nat n).
Proof.
  revert z. induction n as [|n IH]; intros z Hz; cbn [Nat.add le_word app]; [by rewrite Z.div_1_r|].
  rewrite IH by (apply Z.div_pos; lia). rewrite Z.div_div by lia. do 4 f_equal.
  rewrite Nat2Z.inj_succ, Z.pow_succ_r by lia. done.
Qed.

Lemma le_word_mod n z : 0 <= z -> le_word n (z mod 256 ^ Z.of_nat n) = le_word n z.
Proof.
  revert z. induction n as [|n IH]; intros z Hz; [done|]. cbn [le_word].
  rewrite Nat2Z.inj_succ, Z.pow_succ_r by lia.
  rewrite Z.rem_mul_r by lia. f_equal.
  - unfold byte_of. rewrite (Z.mul_comm 256), Z_mod_plus_full, Z.mod_mod by lia. done.
  - rewrite (Z.mul_comm 256), Z.div_add by lia. rewrite Z.div_small by (apply Z.mod_pos_bound; lia).
    rewrite Z.add_0_l. apply IH. apply Z.div_pos; lia.
Qed.

Lemma read_u64_word pre z post : 0 <= z < 2 ^ 64 -> read_u64le (Some (pre ++ le_word 8 z ++ post)) (Z.of_nat (length pre)) = Val z.
Proof.
  intros Hz. unfold read_u64le. rewrite (le_word_app 4 4) by lia. rewrite <- (le_word_mod 4 z) by lia.
  rewrite <- app_assoc, read_u32_word by (apply Z.mod_pos_bound; lia). cbn [mem_bind].
  pose proof (read_u32_word (pre ++ le_word 4 (z mod 256 ^ Z.of_nat 4)) (z / 256 ^ Z.of_nat 4) post ltac:(Z.div_mod_to_equations; lia)) as H.
  rewrite length_app, le_word_length, <- app_assoc, Nat2Z.inj_add in H.
  change (Z.of_nat (length pre) + Z.of_nat 4) with (Z.of_nat (length pre) + 4) in H. rewrite H. cbn [mem_bind].
  rewrite lor_shiftl_add by (try apply Z.mod_pos_bound; lia). f_equal. Z.div_mod_to_equations. lia.
Qed.

(** ** The conversion of text *)

Lemma low_bits x : 0x80 .| (x .& 0x3F) = 128 + x mod 64.
Proof.
  change 0x3F with (2 ^ 6 - 1). rewrite (land_ones_mod x 6) by lia. rewrite Z.lor_comm. change 0x80 with (2 <<< 6) at 1.
  rewrite lor_shiftl_add by (try apply Z.mod_pos_bound; lia). change (2 ^ 6) with 64. lia.
Qed.

Lemma high_bits k h n x : 0 <= n -> h = (k <<< n) -> 0 <= x < 2 ^ n -> h .| x = h + x.
Proof. intros Hn -> Hx. rewrite Z.lor_comm, lor_shiftl_add by done. rewrite Z.shiftl_mul_pow2 by lia. lia. Qed.

Lemma utf8_bytes_spec cp : 0 <= cp < 0x110000 -> utf8_bytes cp = utf8_spec cp.
Proof.
  intros Hcp. unfold utf8_bytes, utf8_spec. rewrite !low_bits, !Z.shiftr_div_pow2 by lia.
  destruct (Z.leb_spec cp 0x7F); [by rewrite (proj2 (Z.ltb_lt cp 0x80)) by lia|].
  rewrite (proj2 (Z.ltb_ge cp 0x80)) by lia.
  destruct (Z.leb_spec cp 0x7FF).
  { rewrite (proj2 (Z.ltb_lt cp 0x800)) by lia. by rewrite (high_bits 6 0xC0 5) by (try done; Z.div_mod_to_equations; lia). }
  rewrite (proj2 (Z.ltb_ge cp 0x800)) by lia.
  destruct (Z.leb_spec cp 0xFFFF).
  { rewrite (proj2 (Z.ltb_lt cp 0x10000)) by lia. by rewrite (high_bits 14 0xE0 4) by (try done; Z.div_mod_to_equations; lia). }
  rewrite (proj2 (Z.ltb_ge cp 0x10000)) by lia.
  by rewrite (high_bits 30 0xF0 3) by (try done; Z.div_mod_to_equations; lia).
Qed.

Lemma next_code_point_plain data base byte_len i unit :
  ~ (0xD800 <= unit <= 0xDBFF) -> next_code_point data base byte_len i unit = Val (unit, i).
Proof.
  intros H. unfold next_code_point.
  destruct (Z.leb_spec 0xD800 unit), (Z.leb_spec unit 0xDBFF); cbn [andb]; try done. lia.
Qed.

Lemma utf16_loop_text cps fuel pre post base byte_len i :
  Forall scalar cps -> base + i = Z.of_nat (length pre) -> byte_len - i < Z.of_nat fuel ->
  (byte_len = i + Z.of_nat (length (utf16_bytes cps)) \/
   (exists post', post = [x00; x00] ++ post') /\ i + Z.of_nat (length (utf16_bytes cps)) + 2 <= byte_len) ->
  utf16_loop fuel (Some (pre ++ utf16_bytes cps ++ post)) base byte_len i = Val (mjoin (utf8_spec <$> cps)).
Proof.
  intros Hs. revert fuel pre i. induction Hs as [|cp cps Hcp Hs IH]; intros fuel pre i Hb Hf Hend.
  - destruct fuel as [|fuel]; [destruct Hend as [->|[_ ?]]; cbn in *; lia|]. cbn [utf16_loop].
    destruct Hend as [->|[[post' ->] Hlen]]; [cbn; by rewrite (proj2 (Z.ltb_ge _ _)) by lia|].
    rewrite (proj2 (Z.ltb_lt _ _)) by (cbn in Hlen; lia). unfold read_unit. rewrite Hb.
    pose proof (read_u16_word pre 0 post' ltac:(lia)) as H. change (utf16_bytes [] ++ [x00; x00] ++ post') with (le_word 2 0 ++ post').
    rewrite H. done.
  - change (utf16_bytes (cp :: cps)) with (mjoin (le_word 2 <$> utf16_units cp ++ mjoin (utf16_units <$> cps))) in *.
    rewrite fmap_app, join_app in *. fold (utf16_bytes cps) in *. rewrite length_app in Hend.
    change (mjoin (utf8_spec <$> cp :: cps)) with (utf8_spec cp ++ mjoin (utf8_spec <$> cps)).
    rewrite <- utf8_bytes_spec by (destruct Hcp; lia).
    destruct fuel as [|fuel]; [destruct Hend as [Hend|[_ Hend]]; lia|]. cbn [utf16_loop].
    unfold utf16_units in *. destruct (Z.ltb_spec cp 0x10000).
    + cbn [fmap list_fmap mjoin list_join] in *. rewrite app_nil_r in *. rewrite le_word_length in Hend.
      rewrite (proj2 (Z.ltb_lt _ _)) by (destruct Hend as [Hend|[_ Hend]]; lia).
      unfold read_unit at 1. rewrite Hb, <- !app_assoc, read_u16_word by (destruct Hcp; lia). cbn [mem_bind].
      rewrite (proj2 (Z.eqb_neq cp 0)) by (destruct Hcp; lia). rewrite next_code_point_plain by (destruct Hcp; lia).
      cbn [mem_bind]. rewrite app_assoc, IH; [done|rewrite length_app, le_word_length; lia|lia|].
      destruct Hend as [Hend|[Hp Hend]]; [left|right; split; [done|]]; lia.
    + set (hi := 0xD800 + (cp - 0x10000) / 1024) in *. set (lo_ := 0xDC00 + (cp - 0x10000) mod 1024) in *.
      assert (Hhi : 0xD800 <= hi <= 0xDBFF) by (unfold hi; destruct Hcp; Z.div_mod_to_equations; lia).
      assert (Hlo : 0xDC00 <= lo_ <= 0xDFFF) by (unfold lo_; Z.div_mod_to_equations; lia).
      cbn [fmap list_fmap mjoin list_join] in *. rewrite app_nil_r in *. rewrite length_app, !le_word_length in Hend.
      rewrite (proj2 (Z.ltb_lt _ _)) by (destruct Hend as [Hend|[_ Hend]]; lia).
      unfold read_unit at 1. rewrite Hb, <- !app_assoc, read_u16_word by lia. cbn [mem_bind].
      rewrite (proj2 (Z.eqb_neq hi 0)) by lia. unfold next_code_point at 1.
      rewrite (proj2 (Z.leb_le 0xD800 hi)), (proj2 (Z.leb_le hi 0xDBFF)), (proj2 (Z.ltb_lt (i + 2 + 1) byte_len))
        by (try lia; destruct Hend as [Hend|[_ Hend]]; lia). cbn [andb]. unfold read_unit at 1.
      replace (base + (i + 2)) with (Z.of_nat (length (pre ++ le_word 2 hi))) by (rewrite length_app, le_word_length; lia).
      rewrite app_assoc, read_u16_word by lia. cbn [mem_bind].
      rewrite (proj2 (Z.leb_le 0xDC00 lo_)), (proj2 (Z.leb_le lo_ 0xDFFF)) by lia. cbn [andb].
      replace (0x10000 + ((hi - 0xD800) <<< 10) + (lo_ - 0xDC00)) with cp.
      2: { unfold hi, lo_. rewrite Z.shiftl_mul_pow2 by lia. Z.div_mod_to_equations. lia. }
      cbn [mem_bind]. rewrite app_assoc, IH; [done|rewrite !length_app, !le_word_length; lia|lia|].
      destruct Hend as [Hend|[Hp Hend]]; [left|right; split; [done|]]; lia.
Qed.

(** ** Every read is in bounds *)

Section etw_safe.
Context (d : list byte) (size : Z) (Hsize : size <= Z.of_nat (length d)).

Lemma read_u64le_safe offset : 0 <= offset -> offset + 8 <= size -> safe (read_u64le (Some d) offset) (fun _ => True).
Proof using Hsize.
  intros Ho Hs. unfold read_u64le. eapply safe_bind; [apply (read_u32_safe d size); [done|lia..]|]. intros a _.
  eapply safe_bind; [apply (read_u32_safe d size); [done|lia..]|]. done.
Qed.

Lemma utf16_loop_safe fuel base byte_len i :
  0 <= base -> base + byte_len <= size -> 0 <= i <= byte_len -> byte_len - i < Z.of_nat fuel ->
  safe (utf16_loop fuel (Some d) base byte_len i) (fun _ => True).
Proof using Hsize.
  intros Hb Hs. revert i. induction fuel as [|fuel IH]; intros i Hi Hf; cbn [utf16_loop]; [lia|].
  destruct (Z.ltb_spec (i + 1) byte_len); [|done].
  - eapply safe_bind; [apply (read_u16_safe d size); [done|lia..]|]. intros unit _. cbv zeta.
    destruct (unit =? 0); [done|].
    eapply (safe_bind _ _ (fun '(_, j) => i + 2 <= j <= byte_len)).
    + unfold next_code_point. destruct (_ && _ && _) eqn:E; [|cbn; lia]. apply andb_true_iff in E as [_ E]. apply Z.ltb_lt in E.
      eapply safe_bind; [apply (read_u16_safe d size); [done|lia..]|]. intros low _. destruct (_ && _); cbn; lia.
    + intros [cp j] Hj. eapply safe_bind; [apply IH; lia|]. done.
Qed.

Lemma utf16le_to_utf8_safe base byte_len : 0 <= base -> 0 <= byte_len -> base + byte_len <= size ->
  safe (utf16le_to_utf8 (Some d) base byte_len) (fun _ => True).
Proof using Hsize. intros. unfold utf16le_to_utf8. eapply safe_bind; [apply utf16_loop_safe; lia|]. done. Qed.

Lemma decode_process_start_safe :
  safe (decode_process_start (Some d) size) (fun r => forall s, r = Some s -> 40 <= size /\ d_pid s <> 0).
Proof using Hsize.
  unfold decode_process_start, read_u32le, kProcessStartFixedPrefixSize. cbn [null orb].
  destruct (Z.ltb_spec size (4 + 8 + 8 + 4 + 8 + 4 + 4)); [done|].
  eapply safe_bind; [apply (read_u32_safe d size); [done|lia..]|]. intros pid _.
  eapply safe_bind; [apply read_u64le_safe; lia|]. intros ct _.
  eapply safe_bind; [apply (read_u32_safe d size); [done|lia..]|]. intros ppid _.
  destruct (Z.eqb_spec pid 0); [done|]. eapply (safe_bind _ _ (fun _ => True)).
  - destruct (Z.ltb_spec (4 + 8 + 8 + 4 + 8 + 4 + 4) size); [apply utf16le_to_utf8_safe; lia|done].
  - intros name _ s [= <-]. cbn. lia.
Qed.

Lemma decode_process_stop_safe : safe (decode_process_stop_pid (Some d) size) (fun _ => True).
Proof using Hsize.
  unfold decode_process_stop_pid, read_u32le. cbn [null orb]. destruct (Z.ltb_spec size 4); [done|].
  eapply safe_bind; [apply (read_u32_safe d size); [done|lia..]|]. done.
Qed.

Lemma decode_thread_start_safe :
  safe (decode_thread_start (Some d) size) (fun r => forall t, r = Some t -> t.1 <> 0).
Proof using Hsize.
  unfold decode_thread_start, read_u32le. cbn [null orb]. destruct (Z.ltb_spec size 8); [done|].
  eapply safe_bind; [apply (read_u32_safe d size); [done|lia..]|]. intros t _.
  eapply safe_bind; [apply (read_u32_safe d size); [done|lia..]|]. intros th _.
  destruct (Z.eqb_spec t 0); [done|]. by intros ? [= <-].
Qed.
End etw_safe.

(** ** Runs of events *)

Definition etw_new : EtwState := Etw ∅ 0 0.

Fixpoint etw_run (sys : etw_system) (st : EtwState) (l : list (Z * event_record)) : mem (EtwState * list dispatched) :=
  match l with
  | [] => Val (st, [])
  | (now, record) :: l =>
      let* r := on_event_record sys now st record in
      let '(st, out) := r in
      let* r := etw_run sys st l in
      let '(st, rest) := r in
      Val (st, out ++ rest)
  end.

(** The system passes a payload with its size. *)
Definition sized (record : event_record) : Prop :=
  match er_payload record with None => True | Some d => er_size record = Z.of_nat (length d) end.

Definition state_ok (st : EtwState) : Prop :=
  Z.of_nat (size (known_create_times st)) <= MAX_KNOWN_CREATE_TIMES /\
  0 <= validation_failures st <= validation_samples st /\ validation_samples st <= kValidationSampleCount.

(** What may be handed on: an observation the telemetry bus accepts, deterministic and of
    one of the two kinds; a thread of one process in another. *)
Definition dispatched_ok (x : dispatched) : Prop :=
  match x with
  | Observed o =>
      valid o = true /\ deterministic o = true /\
      ((kind o = PROCESS_LINEAGE /\ suggested_level o = HIGH) \/ (kind o = PROCESS_MEMORY /\ suggested_level o = CRITICAL))
  | ProcessStarted pid _ => pid <> 0
  | RemoteThread creator target _ => creator <> 0 /\ target <> 0 /\ creator <> target
  end.

Lemma lineage_valid now pid parent_pid name : valid (make_lineage_observation now pid parent_pid name) = true.
Proof. reflexivity. Qed.

Lemma remote_thread_valid now c t th : valid (make_remote_thread_observation now c t th) = true.
Proof. reflexivity. Qed.

Lemma validate_ok sys st decoded : state_ok st ->
  state_ok (validate_decoded_event sys st decoded) /\
  known_create_times (validate_decoded_event sys st decoded) = known_create_times st.
Proof.
  intros (Hk & Hf & Hs). unfold validate_decoded_event, kValidationSampleCount in *.
  destruct (Z.leb_spec 5 (validation_samples st)); [done|]. cbv zeta.
  destruct (image_name_of sys (d_pid decoded)); [|split; [|done]; split; [done|]; cbn; unfold kValidationSampleCount; lia].
  destruct (negb _); (split; [|done]); (split; [done|]); cbn; unfold kValidationSampleCount; lia.
Qed.

Lemma known_insert_bound (m : gmap Z Z) pid t : Z.of_nat (size m) <= MAX_KNOWN_CREATE_TIMES ->
  Z.of_nat (size (<[pid := t]> (if MAX_KNOWN_CREATE_TIMES <=? Z.of_nat (size m) then ∅ else m))) <= MAX_KNOWN_CREATE_TIMES.
Proof.
  unfold MAX_KNOWN_CREATE_TIMES. intros H. destruct (Z.leb_spec 8192 (Z.of_nat (size m))).
  - rewrite map_size_insert, lookup_empty, map_size_empty. lia.
  - rewrite map_size_insert. destruct (m !! pid); unfold id; lia.
Qed.

Lemma handle_process_ok sys now st eid pid ppid ct name : state_ok st -> pid <> 0 ->
  state_ok (handle_process_event sys now st eid pid ppid ct name).1 /\
  Forall dispatched_ok (handle_process_event sys now st eid pid ppid ct name).2.
Proof.
  intros (Hk & Hs) Hp. unfold handle_process_event. destruct (eid =? _); [|destruct (eid =? _); [|done]].
  - unfold handle_process_start. cbn [fst snd]. split; [split; [by apply known_insert_bound|done]|].
    apply Forall_app. split; [|by constructor]. destruct (_ && _); [|done].
    destruct (is_impossible_parent_order _ _); [|done]. constructor; [|done]. split; [apply lineage_valid|]. split; [done|by left].
  - split; [|done]. split; [|done]. cbn. rewrite map_size_delete. destruct (known_create_times st !! pid); unfold id; lia.
Qed.

Lemma on_event_record_ok sys now st record : state_ok st -> sized record ->
  safe (on_event_record sys now st record) (fun '(st', out) => state_ok st' /\ Forall dispatched_ok out).
Proof.
  intros Hst Hsz. unfold on_event_record. destruct (negb _); [done|]. cbv zeta. unfold sized in Hsz.
  destruct (er_payload record) as [d|] eqn:Hd; cycle 1.
  { destruct (er_id record =? _); [done|]. destruct (er_id record =? _); [done|]. by destruct (er_id record =? _). }
  destruct (er_id record =? _).
  { eapply safe_bind; [apply decode_process_start_safe; lia|]. intros [s|] Hs; [|done].
    destruct (Hs s eq_refl) as [_ Hpid]. destruct (validate_ok sys st s Hst) as [Hv _].
    destruct (handle_process_ok sys now _ (er_id record) (d_pid s) (d_parent_pid s) (d_create_time s) (d_image_name s) Hv Hpid).
    cbn. by destruct (handle_process_event _ _ _ _ _ _ _ _). }
  destruct (er_id record =? _).
  { eapply (safe_bind _ _ (fun r => forall p, r = Some p -> p <> 0)).
    - unfold decode_process_stop_pid, read_u32le. cbn [null orb]. destruct (Z.ltb_spec (er_size record) 4); [done|].
      eapply safe_bind; [apply (read_u32_safe d (er_size record)); lia|]. intros p _. destruct (Z.eqb_spec p 0); [done|].
      by intros ? [= <-].
    - intros [p|] Hp; [|done].
      destruct (handle_process_ok sys now st (er_id record) p 0 0 EmptyString Hst (Hp p eq_refl)).
      cbn. by destruct (handle_process_event _ _ _ _ _ _ _ _). }
  destruct (er_id record =? _); [|done].
  eapply safe_bind; [apply decode_thread_start_safe; lia|]. intros [[target thread]|] Ht; [|done].
  split; [done|]. destruct (is_remote_thread _ _) eqn:E; [|done].
  unfold is_remote_thread in E. apply andb_true_iff in E as [E1 E3]. apply andb_true_iff in E1 as [E1 E2].
  rewrite negb_true_iff, Z.eqb_neq in E1, E2, E3.
  apply List.Forall_cons; [split; [apply remote_thread_valid|split; [done|by right]]|].
  apply List.Forall_cons; [done|apply List.Forall_nil].
Qed.

Lemma etw_run_ok sys l st : state_ok st -> Forall (fun x => sized x.2) l ->
  safe (etw_run sys st l) (fun '(st', out) => state_ok st' /\ Forall dispatched_ok out).
Proof.
  intros Hst H. revert st Hst. induction H as [|[now record] l Hr H IH]; intros st Hst; cbn [etw_run]; [done|].
  eapply safe_bind; [by apply on_event_record_ok|]. intros [st1 out1] [H1 H2].
  eapply safe_bind; [by apply IH|]. intros [st2 out2] [H3 H4]. split; [done|]. by apply Forall_app.
Qed.

Lemma etw_new_ok : state_ok etw_new.
Proof. split; [|split; [split|]]; vm_compute; discriminate. Qed.

(** ** Histories of processes *)

Inductive proc_event :=
  | PStart (pid parent_pid create_time : Z) (image_name : string)
  | PStop (pid : Z).

Definition feed (sys : etw_system) (now : Z) (st : EtwState) (ev : proc_event) : EtwState * list dispatched :=
  match ev with
  | PStart pid parent_pid ct name => handle_process_event sys now st kEventProcessStart pid parent_pid ct name
  | PStop pid => handle_process_event sys now st kEventProcessStop pid 0 0 EmptyString
  end.

(** The creation time of the last start of [p] that no stop followed. *)
Definition created (h : list proc_event) (p : Z) : option Z :=
  foldl (fun acc ev =>
    match ev with
    | PStart pid _ ct _ => if p =? pid then Some ct else acc
    | PStop pid => if p =? pid then None else acc
    end) None h.

Lemma feed_known sys now h st p : Z.of_nat (length h) <= 8192 -> st = foldl (fun st ev => (feed sys now st ev).1) etw_new h ->
  known_create_times st !! p = created h p /\ (size (known_create_times st) <= length h)%nat.
Proof.
  intros Hn ->. induction h as [|ev h IH] using rev_ind; [by split|].
  rewrite length_app in Hn |- *. cbn [length] in Hn |- *. destruct (IH ltac:(lia)) as [IH1 IH2].
  unfold created. rewrite !foldl_app. cbn [foldl]. set (st := foldl _ etw_new h) in *.
  fold (created h p). destruct ev as [pid ppid ct name|pid]; cbn [feed].
  - change (known_create_times (handle_process_event sys now st kEventProcessStart pid ppid ct name).1)
      with (<[pid := ct]> (if MAX_KNOWN_CREATE_TIMES <=? Z.of_nat (size (known_create_times st)) then ∅ else known_create_times st)).
    rewrite (proj2 (Z.leb_gt MAX_KNOWN_CREATE_TIMES _)) by (unfold MAX_KNOWN_CREATE_TIMES; lia). split.
    + destruct (Z.eqb_spec p pid) as [->|Hne]; [by rewrite lookup_insert_eq|by rewrite lookup_insert_ne].
    + rewrite map_size_insert. destruct (known_create_times st !! pid); unfold id; lia.
  - change (known_create_times (handle_process_event sys now st kEventProcessStop pid 0 0 EmptyString).1)
      with (delete pid (known_create_times st)). split.
    + destruct (Z.eqb_spec p pid) as [->|Hne]; [by rewrite lookup_delete_eq|by rewrite lookup_delete_ne].
    + rewrite map_size_delete. destruct (known_create_times st !! pid); unfold id; lia.
Qed.

(** ** Sessions *)

Definition count_calls (f : api_call -> Z) (l : list api_call) : Z := foldr (fun c n => f c + n) 0 l.

(** Trace sessions and consumers left open by calls. *)
Definition sessions_open : list api_call -> Z :=
  count_calls (fun c => match c with StartTrace true => 1 | StopTrace => -1 | _ => 0 end).
Definition consumers_open : list api_call -> Z :=
  count_calls (fun c => match c with OpenTrace true => 1 | CloseTrace => -1 | _ => 0 end).

Lemma count_calls_app f a b : count_calls f (a ++ b) = count_calls f a + count_calls f b.
Proof. unfold count_calls. induction a as [|c a IH]; cbn; [done|]. rewrite IH. lia. Qed.

Definition new_etw_engine : etw_engine := EtwEngine false None etw_new.

(** Calls of [start], with what the system answers, and of [stop]. *)
Fixpoint session_run (e : etw_engine) (l : list (option session_replies)) : etw_engine * list api_call :=
  match l with
  | [] => (e, [])
  | c :: l =>
      let '(e, _, calls) := match c with Some r => etw_start r e | None => etw_stop e end in
      let '(e, rest) := session_run e l in
      (e, calls ++ rest)
  end.

Definition engine_ok (e : etw_engine) : Prop := ee_session e = if ee_running e then Some (Sess true true) else None.
Definition engine_weight (e : etw_engine) : Z := if ee_running e then 1 else 0.

Lemma open_session_spec r :
  match open_session r with
  | (Some s, calls) => s = Sess true true /\ sessions_open calls = 1 /\ consumers_open calls = 1
  | (None, calls) => sessions_open calls = 0 /\ consumers_open calls = 0
  end.
Proof. by destruct r as [[] [] [] [] []]. Qed.

Lemma session_step e c :
  engine_ok e ->
  let '(e', code, calls) := match c with Some r => etw_start r e | None => etw_stop e end in
  engine_ok e' /\ (c <> None -> (code = OK <-> ee_running e' = true)) /\
  engine_weight e + sessions_open calls = engine_weight e' /\ engine_weight e + consumers_open calls = engine_weight e'.
Proof.
  intros He. unfold engine_ok, engine_weight in *. destruct c as [r|].
  - unfold etw_start. destruct (ee_running e) eqn:E; [by rewrite E|].
    pose proof (open_session_spec r) as H. destruct (open_session r) as [[s|] calls].
    + destruct H as (-> & H1 & H2). destruct (thread_starts r); cbn; [by rewrite H1, H2|].
      unfold sessions_open, consumers_open in *. rewrite !count_calls_app, H1, H2. by cbn.
    + destruct H as [H1 H2]. cbn. by rewrite H1, H2.
  - unfold etw_stop. destruct (ee_running e) eqn:E; cbn; [by rewrite He|by rewrite E].
Qed.

(** ** Properties *)

(** [decode_process_start] of the bytes the manifest lays out gives back the process,
    its parent, its creation time and its name: the UTF-8 form (RFC 3629) of the UTF-16
    text, surrogate pairs included, up to its terminating zero, whatever follows. *)
Theorem process_start_decoded (pid seq ct ppid pseq session flags : Z) (cps : list Z) (rest : list byte)
    (Hpid : 0 < pid < 2 ^ 32) (Hct : 0 <= ct < 2 ^ 64) (Hppid : 0 <= ppid < 2 ^ 32) (Hcps : Forall scalar cps) :
  let payload := le_word 4 pid ++ le_word 8 seq ++ le_word 8 ct ++ le_word 4 ppid ++ le_word 8 pseq ++
                 le_word 4 session ++ le_word 4 flags ++ utf16_bytes cps ++ [x00; x00] ++ rest in
  decode_process_start (Some payload) (Z.of_nat (length payload)) =
    Val (Some (ProcStart pid ppid ct (string_of_values (mjoin (utf8_spec <$> cps))))).
Proof.
  cbv zeta. set (text := utf16_bytes cps ++ [x00; x00] ++ rest).
  set (payload := le_word 4 pid ++ _). unfold decode_process_start, kProcessStartFixedPrefixSize, read_u32le. cbn [null orb].
  assert (Hlen : Z.of_nat (length payload) = 40 + Z.of_nat (length text))
    by (unfold payload; rewrite !length_app, !le_word_length; lia).
  assert (Htext : Z.of_nat (length text) = Z.of_nat (length (utf16_bytes cps)) + 2 + Z.of_nat (length rest))
    by (unfold text; rewrite !length_app; cbn; lia).
  rewrite (proj2 (Z.ltb_ge _ _)) by lia.
  pose proof (read_u32_word [] pid (le_word 8 seq ++ le_word 8 ct ++ le_word 4 ppid ++ le_word 8 pseq ++
    le_word 4 session ++ le_word 4 flags ++ text) ltac:(lia)) as H1.
  pose proof (read_u64_word (le_word 4 pid ++ le_word 8 seq) ct (le_word 4 ppid ++ le_word 8 pseq ++
    le_word 4 session ++ le_word 4 flags ++ text) ltac:(lia)) as H2.
  pose proof (read_u32_word (le_word 4 pid ++ le_word 8 seq ++ le_word 8 ct) ppid (le_word 8 pseq ++
    le_word 4 session ++ le_word 4 flags ++ text) ltac:(lia)) as H3.
  rewrite !length_app, !le_word_length, <- !app_assoc in H2, H3.
  change (read_u32 (Some payload) 0 = Val pid) in H1. rewrite H1. cbn [mem_bind].
  change (read_u64le (Some payload) 12 = Val ct) in H2. rewrite H2. cbn [mem_bind].
  change (read_u32 (Some payload) 20 = Val ppid) in H3. rewrite H3. cbn [mem_bind].
  rewrite (proj2 (Z.eqb_neq pid 0)), (proj2 (Z.ltb_lt _ (Z.of_nat (length payload)))) by lia.
  unfold utf16le_to_utf8.
  pose proof (utf16_loop_text cps (S (Z.to_nat (Z.of_nat (length payload) - 40)))
    (le_word 4 pid ++ le_word 8 seq ++ le_word 8 ct ++ le_word 4 ppid ++ le_word 8 pseq ++ le_word 4 session ++ le_word 4 flags)
    ([x00; x00] ++ rest) 40 (Z.of_nat (length payload) - 40) 0 Hcps) as H.
  rewrite !length_app, !le_word_length, <- !app_assoc in H.
  fold text in H. fold payload in H. change (4 + 8 + 8 + 4 + 8 + 4 + 4) with 40.
  rewrite H; [done|done|lia|]. right. split; [by eexists|lia].
Qed.

Lemma process_start_decoded_witness :
  let payload := le_word 4 7 ++ le_word 8 1 ++ le_word 8 5 ++ le_word 4 4 ++ le_word 8 2 ++ le_word 4 0 ++ le_word 4 0 ++
                 utf16_bytes [0x61; 0xE9; 0x20AC; 0x1F600] ++ [x00; x00] ++ [x41] in
  decode_process_start (Some payload) (Z.of_nat (length payload)) =
    Val (Some (ProcStart 7 4 5 (string_of_values [0x61; 0xC3; 0xA9; 0xE2; 0x82; 0xAC; 0xF0; 0x9F; 0x98; 0x80]))).
Proof.
  apply (process_start_decoded 7 1 5 4 2 0 0 [0x61; 0xE9; 0x20AC; 0x1F600] [x41]); [lia..|].
  repeat (apply List.Forall_cons; [unfold scalar; lia|]). apply List.Forall_nil.
Defined.

(** however many events arrive, whatever their payloads and whatever the system
    answers: every read is in bounds and the decoding loops end; at most 8192 creation
    times are kept and at most five events are validated; every observation handed on is
    one the telemetry bus accepts, deterministic, and of the level of its kind; and a
    remote thread is only reported between two different processes. *)
Theorem etw_events_bounded (sys : etw_system) (events : list (Z * event_record))
    (Hsized : Forall (fun x => sized x.2) events) :
  exists st out, etw_run sys etw_new events = Val (st, out) /\
    Z.of_nat (size (known_create_times st)) <= 8192 /\
    0 <= validation_failures st <= validation_samples st /\ validation_samples st <= 5 /\
    Forall dispatched_ok out.
Proof.
  pose proof (etw_run_ok sys events etw_new) as H. destruct (etw_run sys etw_new events) as [[st out]|]; cbn in H.
  - destruct (H etw_new_ok Hsized) as [(H1 & H2 & H3) H4]. by exists st, out.
  - by destruct (H etw_new_ok Hsized).
Qed.

Lemma etw_events_bounded_witness :
  let payload := le_word 4 7 ++ le_word 4 9 in
  exists st out, etw_run (System (fun _ => None) (fun _ => None)) etw_new [(0, EventRecord true 3 8 (Some payload) 8)] = Val (st, out) /\
    Forall dispatched_ok out.
Proof.
  cbv zeta.
  destruct (etw_events_bounded (System (fun _ => None) (fun _ => None))
    [(0, EventRecord true 3 8 (Some (le_word 4 7 ++ le_word 4 9)) 8)]) as (st & out & H & _ & _ & _ & Ho).
  - by apply List.Forall_cons; [|apply List.Forall_nil].
  - by exists st, out.
Defined.

(** after any history of fewer than 8192 process events, a start is reported as
    impossible lineage exactly when it names another process as its parent whose creation
    time, known from the last start of that process that no stop followed, or else asked
    of the system, is not zero and later than its own, which is not zero; every start is
    handed on once, after the observation. *)
Theorem lineage_follows_history (sys : etw_system) (now : Z) (h : list proc_event) (pid ppid ct : Z) (name : string)
    (Hlen : Z.of_nat (length h) < 8192) :
  let st := foldl (fun st ev => (feed sys now st ev).1) etw_new h in
  let parent_created :=
    match created h ppid with
    | Some t => if t =? 0 then default 0 (creation_time_of sys ppid) else t
    | None => default 0 (creation_time_of sys ppid)
    end in
  (feed sys now st (PStart pid ppid ct name)).2 =
    (if bool_decide (ppid <> 0 /\ ppid <> pid /\ ct <> 0 /\ parent_created <> 0 /\ ct < parent_created)
     then [Observed (make_lineage_observation now pid ppid name)] else []) ++ [ProcessStarted pid name].
Proof.
  cbv zeta. set (st := foldl _ etw_new h).
  destruct (feed_known sys now h st ppid ltac:(lia) eq_refl) as [Hk Hs].
  change ((feed sys now st (PStart pid ppid ct name)).2) with (handle_process_start sys now st pid ppid ct name).2.
  unfold handle_process_start. cbn [snd]. f_equal.
  rewrite (proj2 (Z.leb_gt MAX_KNOWN_CREATE_TIMES _)) by (unfold MAX_KNOWN_CREATE_TIMES; lia).
  destruct (Z.eqb_spec ppid 0) as [->|H0]; cbn [negb andb]; [by rewrite bool_decide_eq_false_2 by tauto|].
  destruct (Z.eqb_spec ppid pid) as [->|H1]; cbn [negb]; [by rewrite bool_decide_eq_false_2 by tauto|].
  rewrite lookup_insert_ne, Hk by done. unfold is_impossible_parent_order.
  assert (E : forall t, negb (ct =? 0) && negb (t =? 0) && (ct <? t) =
    bool_decide (ppid <> 0 /\ ppid <> pid /\ ct <> 0 /\ t <> 0 /\ ct < t)).
  { intros t. destruct (Z.eqb_spec ct 0), (Z.eqb_spec t 0), (Z.ltb_spec ct t); cbn [negb andb];
      symmetry; first [apply bool_decide_eq_true_2; tauto|apply bool_decide_eq_false_2; lia|
                       apply bool_decide_eq_false_2; tauto]. }
  rewrite E. destruct (created h ppid) as [t|]; cbn [default from_option id]; [|done]. done.
Qed.

Lemma lineage_follows_history_witness :
  (feed (System (fun _ => None) (fun _ => None)) 0
     (foldl (fun st ev => (feed (System (fun _ => None) (fun _ => None)) 0 st ev).1) etw_new
        [PStart 4 1 90 "a"; PStart 9 1 95 "b"; PStop 4]) (PStart 7 9 50 "c")).2 =
    [Observed (make_lineage_observation 0 7 9 "c"); ProcessStarted 7 "c"].
Proof.
  rewrite (lineage_follows_history (System (fun _ => None) (fun _ => None)) 0 [PStart 4 1 90 "a"; PStart 9 1 95 "b"; PStop 4]
    7 9 50 "c" ltac:(cbn; lia)). reflexivity.
Defined.

(** whatever the system answers to calls of [start] and [stop], in any order: the
    trace session and its consumer are open exactly when the engine runs; a call of
    [start] that fails has closed all it opened, and one that returns OK leaves the engine
    running. *)
Theorem etw_sessions_balanced (calls : list (option session_replies)) (c : option session_replies) :
  let '(e, api) := session_run new_etw_engine calls in
  sessions_open api = (if ee_running e then 1 else 0) /\ consumers_open api = (if ee_running e then 1 else 0) /\
  (let '(e', code, api') := match c with Some r => etw_start r e | None => etw_stop e end in
   (c <> None -> (code = OK <-> ee_running e' = true)) /\ (c = None -> ee_running e' = false) /\
   sessions_open (api ++ api') = (if ee_running e' then 1 else 0) /\
   consumers_open (api ++ api') = (if ee_running e' then 1 else 0)).
Proof.
  assert (Hrun : forall l e, engine_ok e -> let '(e', api) := session_run e l in
    engine_ok e' /\ engine_weight e + sessions_open api = engine_weight e' /\ engine_weight e + consumers_open api = engine_weight e').
  { induction l as [|x l IH]; intros e He; cbn [session_run]; [split; [done|]; unfold sessions_open, consumers_open; cbn; lia|].
    pose proof (session_step e x He) as H.
    destruct (match x with Some r => etw_start r e | None => etw_stop e end) as [[e1 code] a1].
    destruct H as (H1 & _ & H2 & H3). specialize (IH e1 H1). destruct (session_run e1 l) as [e2 a2].
    destruct IH as (H4 & H5 & H6). split; [done|]. unfold sessions_open, consumers_open in *. rewrite !count_calls_app. lia. }
  specialize (Hrun calls new_etw_engine eq_refl). destruct (session_run new_etw_engine calls) as [e api].
  destruct Hrun as (He & H1 & H2). pose proof (session_step e c He) as H. unfold engine_weight in *. cbn [ee_running new_etw_engine] in *.
  split; [lia|]. split; [lia|].
  assert (Hstop : c = None -> ee_running (match c with Some r => etw_start r e | None => etw_stop e end).1.1 = false).
  { intros ->. unfold etw_stop. by destruct (ee_running e) eqn:E. }
  destruct (match c with Some r => etw_start r e | None => etw_stop e end) as [[e1 code] a1].
  destruct H as (_ & H3 & H4 & H5). split; [done|]. split; [done|].
  unfold sessions_open, consumers_open in *. rewrite !count_calls_app. lia.
Qed.
