(* ===== verification/Lifecycle.v ===== *)
(** * Lifecycle: starting and stopping everything

    Models [start_all] and [stop_all] of src/src/engine_manager.cpp over the engines'
    common interface, the queries that report which engine runs, and, as an
    implementation of the interface, the [start] and [stop] the engines with one
    monitor thread share.  The manager is started and stopped by its owner, one call
    after the other. *)
From S2P Require Import Prelude Float64 Asn1 Observation TelemetryBus Policy Correlation Pipeline EtwProcess.

(** ** The interface *)

(** What a virtual call of [start] does: it returns, or an exception leaves it. *)
Inductive outcome := Returns (code : ErrorCode) | Throws.

(** [ISecurityEngine], with what every engine promises: its name stays, an engine whose
    start returned OK reports running, one that was stopped does not. *)
Class ISecurityEngine (E : Type) := {
  e_name : E -> string;
  e_running : E -> bool;
  e_start : E -> E * outcome;
  e_stop : E -> E;
  e_events : E -> Z;
  e_start_name e : e_name (e_start e).1 = e_name e;
  e_stop_name e : e_name (e_stop e) = e_name e;
  e_start_ok e : (e_start e).2 = Returns OK -> e_running (e_start e).1 = true;
  e_stop_stops e : e_running (e_stop e) = false;
}.

Section engines.
Context {E : Type} `{ISecurityEngine E}.

(** The loops of [start_all] and [stop_all]. *)
Definition start_engines (engines : list E) : list E := (fun e => (e_start e).1) <$> engines.

Definition stop_engines (engines : list E) : list E :=
  (fun e => if e_running e then e_stop e else e) <$> engines.

Definition all_running (engines : list E) : bool :=
  forallb e_running engines && negb (match engines with [] => true | _ => false end).

Definition stopped_engines (engines : list E) : list string :=
  e_name <$> List.filter (fun e => negb (e_running e)) engines.

Definition engine (engines : list E) (name : string) : option E :=
  List.find (fun e => String.eqb (e_name e) name) engines.

Definition total_engine_events (engines : list E) : Z :=
  foldl (fun sum e => u64 (sum + e_events e)) 0 engines.

(** ** The manager *)

Record managed := Managed {
  mg_engines : list E;
  mg_pipeline : SecurityPipeline;
  mg_sensor : etw_engine;
  mg_sensor_running : bool;  (** what [etw_kernel_process_active] reports *)
  mg_polling : bool;         (** the polling thread is there, and joinable *)
}.

(** [start_all]; [thread_ok] tells whether the pipeline's thread could be created.
    [None] is [std::terminate], which a thread assigned to a joinable one calls. *)
Definition start_all (m : managed) (thread_ok : bool) (r : session_replies) : option (managed * ErrorCode) :=
  let '(p, code) := start (mg_pipeline m) thread_ok in
  if negb (bool_decide (code = OK)) then
    Some (Managed (mg_engines m) p (mg_sensor m) (mg_sensor_running m) (mg_polling m), ERR_ENGINE_START)
  else
    let '(sensor, etw_rc, _) := etw_start r (mg_sensor m) in
    let sensor_running := bool_decide (etw_rc = OK) && ee_running sensor in
    if bool_decide (etw_rc = OK) then
      Some (Managed (start_engines (mg_engines m)) p sensor sensor_running (mg_polling m), OK)
    else if mg_polling m then None
    else Some (Managed (start_engines (mg_engines m)) p sensor sensor_running true, OK).

(** [stop_all] up to the join of the pipeline's worker. *)
Definition stop_all (m : managed) : managed * list event :=
  let '(sensor, _, _) := etw_stop (mg_sensor m) in
  let '(p, es) := stop (mg_pipeline m) in
  (Managed (stop_engines (mg_engines m)) p sensor false false, es).

(** ** Lemmas *)

Lemma start_engines_names engines : e_name <$> start_engines engines = e_name <$> engines.
Proof. unfold start_engines. rewrite <- list_fmap_compose. apply list_fmap_ext. intros i e _. apply e_start_name. Qed.

Lemma stop_engines_names engines : e_name <$> stop_engines engines = e_name <$> engines.
Proof.
  unfold stop_engines. rewrite <- list_fmap_compose. apply list_fmap_ext. intros i e _. cbn.
  destruct (e_running e); [apply e_stop_name|done].
Qed.

Lemma stop_engines_running engines : Forall (fun e => e_running e = false) (stop_engines engines).
Proof.
  unfold stop_engines. apply Forall_fmap, Forall_forall. intros e _. cbn.
  destruct (e_running e) eqn:He; [apply e_stop_stops|done].
Qed.

Lemma stopped_all engines : Forall (fun e => e_running e = false) engines -> stopped_engines engines = e_name <$> engines.
Proof. unfold stopped_engines. induction 1 as [|e engines He _ IH]; [done|]. cbn. rewrite He. cbn. by f_equal. Qed.

Lemma stopped_nil engines : engines <> [] -> stopped_engines engines = [] <-> all_running engines = true.
Proof.
  intros Hne. unfold all_running. destruct engines as [|e0 engines0] eqn:E0; [done|]. rewrite <- E0, andb_true_r. clear.
  unfold stopped_engines. induction engines as [|e engines IH]; [done|]. cbn. destruct (e_running e); cbn; [exact IH|done].
Qed.

Lemma engine_first engines name e :
  engine engines name = Some e <->
  exists pre post, engines = pre ++ e :: post /\ e_name e = name /\ Forall (fun x => e_name x <> name) pre.
Proof.
  unfold engine. split.
  - induction engines as [|x engines IH]; [done|]. cbn. destruct (String.eqb_spec (e_name x) name) as [Hx|Hx].
    + intros [= ->]. by exists [], engines.
    + intros He. destruct (IH He) as (pre & post & -> & Hn & Hpre). exists (x :: pre), post. split; [done|].
      split; [done|by constructor].
  - intros (pre & post & -> & Hn & Hpre). induction Hpre as [|x pre Hx _ IH]; cbn.
    + by rewrite (proj2 (String.eqb_eq _ _) Hn).
    + by rewrite (proj2 (String.eqb_neq _ _) Hx).
Qed.

(** A pipeline whose bus was closed stays so, and does not start again. *)
Definition spent (p : SecurityPipeline) : Prop := closed_ (pp_bus p) = true /\ pp_running p = false.

Lemma spent_step order p a p' es : spent p -> pipe_step order p a = Some (p', es) -> spent p'.
Proof.
  intros [Hc Hr] Hs. unfold spent. step_cases Hs; try done; try congruence.
  - match goal with E : publish ?b ?o = _ |- _ => pose proof (publish_closed b o) as Hp; rewrite E in Hp end.
    cbn in Hp. by rewrite Hp.
  - unfold worker_wait. pose proof (wait_pop_closed (pp_bus p)) as Hw.
    destruct (wait_pop (pp_bus p)) as [b [o|]]; cbn in Hw |- *; by rewrite Hw.
Qed.

Lemma spent_run order actions : forall p p' es, spent p -> pipe_run order p actions = Some (p', es) -> spent p'.
Proof.
  induction actions as [|a actions IH]; intros p p' es Hp Hr; cbn in Hr; [by simplify_eq|].
  destruct (pipe_step order p a) as [[p1 es1]|] eqn:Hs; [|done].
  destruct (pipe_run order p1 actions) as [[p2 es2]|] eqn:Hr2; [|done]. simplify_eq.
  eapply IH; [|exact Hr2]. by eapply spent_step.
Qed.

Lemma spent_start p thread_ok : spent p -> start p thread_ok = (p, ERR_ENGINE_START).
Proof. intros [Hc Hr]. unfold start. by rewrite Hr, Hc. Qed.

Lemma stop_spent p : pp_running p = true -> spent (stop p).1.
Proof. intros Hr. unfold stop. rewrite Hr. by split. Qed.

Lemma start_runs p thread_ok p' : start p thread_ok = (p', OK) -> pp_running p' = true.
Proof. unfold start. intros H1. repeat case_match; by simplify_eq/=. Qed.
End engines.
#[global] Arguments managed E : clear implicits.

(** The sensor runs exactly when its start returned OK. *)
Lemma etw_start_code r e : let '(e', code, _) := etw_start r e in ee_running e' = bool_decide (code = OK).
Proof. unfold etw_start. destruct (ee_running e) eqn:Er; [by rewrite Er|]. destruct (open_session r) as [[s|] calls]; cbn; [by destruct (thread_starts r)|done]. Qed.

Lemma etw_stop_stopped e : let '(e', _, _) := etw_stop e in ee_running e' = false.
Proof. unfold etw_stop. by destruct (ee_running e) eqn:Er. Qed.

(** What a call of [start_all] that returned OK did. *)
Lemma start_all_ok {E : Type} {Hengine : ISecurityEngine E} (m m' : managed E) thread_ok r :
  start_all m thread_ok r = Some (m', OK) ->
  mg_engines m' = start_engines (mg_engines m) /\ pp_running (mg_pipeline m') = true /\
  mg_sensor m' = (etw_start r (mg_sensor m)).1.1 /\
  mg_sensor_running m' = ee_running (mg_sensor m') /\ (mg_sensor_running m' = false -> mg_polling m' = true).
Proof.
  unfold start_all. destruct (start (mg_pipeline m) thread_ok) as [p code] eqn:Ep.
  destruct (bool_decide_reflect (code = OK)) as [->|]; cbn [negb]; [|done].
  pose proof (start_runs _ _ _ Ep) as Hp. pose proof (etw_start_code r (mg_sensor m)) as Hs.
  destruct (etw_start r (mg_sensor m)) as [[sensor rc] calls]. cbn [fst].
  destruct (bool_decide (rc = OK)) eqn:Erc; [|destruct (mg_polling m); [done|]]; intros [= <-]; cbn; by rewrite Hs.
Qed.

(** ** An implementation: an engine with one monitor thread *)

Record ThreadEngine := ThreadEng {
  te_name : string;
  te_running : bool;
  te_events : Z;
  te_thread_ok : bool;  (** will the system create its thread? *)
}.

(** [DnsMonitorEngine::start]: the flag is set before the thread is created, and the
    exception of a failed creation leaves the function. *)
Definition thread_engine_start (e : ThreadEngine) : ThreadEngine * outcome :=
  if te_running e then (e, Returns OK)
  else (ThreadEng (te_name e) true (te_events e) (te_thread_ok e), if te_thread_ok e then Returns OK else Throws).

Definition thread_engine_stop (e : ThreadEngine) : ThreadEngine :=
  if negb (te_running e) then e else ThreadEng (te_name e) false (te_events e) (te_thread_ok e).

#[export] Instance thread_engine : ISecurityEngine ThreadEngine.
Proof.
  refine {| e_name := te_name; e_running := te_running; e_start := thread_engine_start;
            e_stop := thread_engine_stop; e_events := te_events |}.
  - intros e. unfold thread_engine_start. by destruct (te_running e).
  - intros e. unfold thread_engine_stop. by destruct (te_running e).
  - intros e. unfold thread_engine_start. by destruct (te_running e) eqn:H.
  - intros e. unfold thread_engine_stop. by destruct (te_running e) eqn:H.
Defined.

(** ** Properties *)

(** when [start_all] returns OK, every engine was asked to start, whatever became of
    the others, and none was renamed: an engine is reported stopped exactly when it does
    not run, one whose start returned OK is not reported, and the report is empty exactly
    when [all_running] holds; the real-time sensor is reported active exactly when its
    session runs, and otherwise the polling thread is there.  [stop_all] then stops every
    engine, the sensor, the polling and the pipeline. *)
Theorem engines_start_and_stop {E : Type} {Hengine : ISecurityEngine E} (m m' : managed E) (thread_ok : bool)
    (r : session_replies) (Hstart : start_all m thread_ok r = Some (m', OK)) :
  (forall i e, mg_engines m !! i = Some e -> mg_engines m' !! i = Some (e_start e).1) /\
  e_name <$> mg_engines m' = e_name <$> mg_engines m /\
  pp_running (mg_pipeline m') = true /\
  mg_sensor_running m' = ee_running (mg_sensor m') /\ (mg_sensor_running m' = false -> mg_polling m' = true) /\
  (forall name, In name (stopped_engines (mg_engines m')) <->
     exists e, In e (mg_engines m') /\ e_name e = name /\ e_running e = false) /\
  (mg_engines m <> [] -> stopped_engines (mg_engines m') = [] <-> all_running (mg_engines m') = true) /\
  (forall i e, mg_engines m !! i = Some e -> (e_start e).2 = Returns OK ->
     exists e', mg_engines m' !! i = Some e' /\ e_running e' = true) /\
  let '(stopped, _) := stop_all m' in
  Forall (fun e => e_running e = false) (mg_engines stopped) /\
  stopped_engines (mg_engines stopped) = e_name <$> mg_engines m /\
  mg_polling stopped = false /\ ee_running (mg_sensor stopped) = false /\ mg_sensor_running stopped = false /\
  spent (mg_pipeline stopped).
Proof.
  destruct (start_all_ok _ _ _ _ Hstart) as (He & Hp & _ & Hs & Hpoll). unfold stop_all.
  pose proof (etw_stop_stopped (mg_sensor m')) as Hsensor. destruct (etw_stop (mg_sensor m')) as [[sensor code] calls].
  pose proof (stop_spent _ Hp) as Hspent. destruct (stop (mg_pipeline m')) as [p es].
  cbn [mg_engines mg_pipeline mg_sensor mg_sensor_running mg_polling].
  assert (Hnames : e_name <$> mg_engines m' = e_name <$> mg_engines m) by (rewrite He; apply start_engines_names).
  split_and!; try done.
  - intros i e Hi. rewrite He. unfold start_engines. by rewrite list_lookup_fmap, Hi.
  - intros name. unfold stopped_engines. rewrite in_map_iff. setoid_rewrite List.filter_In.
    setoid_rewrite negb_true_iff. firstorder.
  - intros Hne. apply stopped_nil. rewrite He. by destruct (mg_engines m).
  - intros i e Hi Hok. exists (e_start e).1. rewrite He. unfold start_engines. rewrite list_lookup_fmap, Hi.
    split; [done|]. by apply e_start_ok.
  - apply stop_engines_running.
  - rewrite stopped_all by apply stop_engines_running. by rewrite stop_engines_names.
Qed.

(** C23: protection that was stopped cannot be started again: after a [stop_all] every
    later [start_all] of the same manager answers ERR_ENGINE_START and starts no engine,
    whatever steps the pipeline's threads took in between.  And a second [start_all]
    without a stop in between ends the program, as soon as the real-time sensor can be
    opened in neither. *)
Theorem restart_fails {E : Type} {Hengine : ISecurityEngine E} (m m1 : managed E) (thread_ok : bool)
    (r : session_replies) (Hstart : start_all m thread_ok r = Some (m1, OK)) :
  (forall order actions p es thread_ok' r', let '(m2, _) := stop_all m1 in
     pipe_run order (mg_pipeline m2) actions = Some (p, es) ->
     start_all (Managed (mg_engines m2) p (mg_sensor m2) (mg_sensor_running m2) (mg_polling m2)) thread_ok' r' =
       Some (Managed (mg_engines m2) p (mg_sensor m2) (mg_sensor_running m2) (mg_polling m2), ERR_ENGINE_START) /\
     Forall (fun e => e_running e = false) (mg_engines m2)) /\
  (forall thread_ok' r', ee_running (etw_start r (mg_sensor m)).1.1 = false ->
     (etw_start r' (mg_sensor m1)).1.2 <> OK -> start_all m1 thread_ok' r' = None).
Proof.
  destruct (start_all_ok _ _ _ _ Hstart) as (He & Hp & Esensor & Hs & Hpoll). split.
  - intros order actions p es thread_ok' r'. unfold stop_all.
    pose proof (stop_spent _ Hp) as Hspent. destruct (etw_stop (mg_sensor m1)) as [[sensor code] calls].
    destruct (stop (mg_pipeline m1)) as [p1 es1]. cbn [mg_engines mg_pipeline mg_sensor mg_sensor_running mg_polling].
    intros Hrun. split; [|apply stop_engines_running]. unfold start_all. cbn [mg_pipeline].
    by rewrite (spent_start p) by (by eapply spent_run).
  - intros thread_ok' r' Hdown Hfail. unfold start_all, start. rewrite Hp. cbn [negb].
    rewrite (bool_decide_eq_true_2 (OK = OK)) by done. cbn [negb].
    destruct (etw_start r' (mg_sensor m1)) as [[sensor rc] calls]. cbn [fst snd] in Hfail.
    rewrite bool_decide_eq_false_2 by done. rewrite Hpoll; [done|]. by rewrite Hs, Esensor.
Qed.

(** an engine whose thread the system refuses to create throws out of its start and
    is reported running all the same; [start_all] returns OK and [all_running] holds with
    no monitor at work. *)
Theorem failed_thread_looks_running :
  let e := ThreadEng "DnsMon" false 0 false in
  (thread_engine_start e).2 = Throws /\
  (forall p sensor r thread_ok m', start_all (Managed [e] p sensor false false) thread_ok r = Some (m', OK) ->
     all_running (mg_engines m') = true /\ stopped_engines (mg_engines m') = []).
Proof.
  cbv zeta. split; [done|]. intros p sensor r thread_ok m' Hstart.
  destruct (start_all_ok _ _ _ _ Hstart) as (-> & _). by split.
Qed.

(** Three engines, one of which cannot start its thread, without the right to open a session. *)
Definition sample_managed : managed ThreadEngine :=
  Managed [ThreadEng "DnsMon" false 0 true; ThreadEng "WmiBits" false 0 false; ThreadEng "YARA" true 3 true]
    (new_pipeline 1024 default_policy) new_etw_engine false false.
Definition no_session : session_replies := Replies StartFailed false false false false.

Definition sample_started : managed ThreadEngine :=
  from_option fst sample_managed (start_all sample_managed true no_session).

Lemma engines_start_and_stop_witness :
  stopped_engines (mg_engines sample_started) = [] /\
  stopped_engines (mg_engines (stop_all sample_started).1) = ["DnsMon"%string; "WmiBits"%string; "YARA"%string].
Proof.
  assert (Hstart : start_all sample_managed true no_session = Some (sample_started, OK)) by reflexivity.
  pose proof (engines_start_and_stop sample_managed sample_started true no_session Hstart) as H.
  split; [reflexivity|]. exact (proj1 (proj2 (proj2 (proj2 (proj2 (proj2 (proj2 (proj2 (proj2 (proj2 H)))))))))).
Defined.

Lemma restart_fails_witness :
  start_all sample_started true no_session = None /\
  exists m, start_all (stop_all sample_started).1 true no_session = Some (m, ERR_ENGINE_START).
Proof.
  assert (Hstart : start_all sample_managed true no_session = Some (sample_started, OK)) by reflexivity.
  destruct (restart_fails sample_managed sample_started true no_session Hstart) as [H1 H2]. split.
  - apply H2; [reflexivity|discriminate].
  - specialize (H1 map_to_list [] (mg_pipeline (stop_all sample_started).1) [] true no_session).
    destruct (H1 eq_refl) as [H _]. eexists. exact H.
Defined.

Lemma failed_thread_looks_running_witness :
  all_running (mg_engines sample_started) = true.
Proof.
  destruct failed_thread_looks_running as [_ H].
  assert (Hs : start_all (Managed [ThreadEng "DnsMon" false 0 false] (new_pipeline 1024 default_policy) new_etw_engine false false)
      true no_session = Some (from_option fst sample_managed (start_all (Managed [ThreadEng "DnsMon" false 0 false]
        (new_pipeline 1024 default_policy) new_etw_engine false false) true no_session), OK)) by reflexivity.
  destruct (H _ _ _ _ _ Hs) as [_ _]. reflexivity.
Defined.
