(* ===== verification/ProcessBehavior.v ===== *)
(** * ProcessBehavior: what a running process shows

    Models src/src/security/process_behavior_engine.cpp as built for 64-bit Windows.  What
    the system answers to the queries is an argument; the flag values are those the
    Windows headers document. *)
From S2P Require Import Prelude Float64 Asn1 Observation Text.

#[local] Open Scope word_scope.

(** The fields of [MEMORY_BASIC_INFORMATION] the engine reads. *)
Record memory_info := MemInfo {
  BaseAddress : Z;
  RegionSize : Z;
  State : Z;
  Protect : Z;
}.

Definition MEM_COMMIT : Z := 0x1000.
Definition PAGE_NOACCESS : Z := 0x01.
Definition PAGE_EXECUTE_READWRITE : Z := 0x40.
Definition PAGE_EXECUTE_WRITECOPY : Z := 0x80.
Definition PAGE_GUARD : Z := 0x100.

(** What the system answers. *)
Record process_system := ProcSystem {
  opens_process : Z -> bool;
  image_of : Z -> string;
  query_region : Z -> Z -> option memory_info; (** [VirtualQueryEx] of a process at an address *)
  snapshot : option (list (Z * Z)); (** process and parent ids, in the order of the snapshot *)
  creation_time : Z -> Z; (** zero when it cannot be told *)
}.

Definition max_regions : nat := Z.to_nat 4096.

Definition writable_executable (memory : memory_info) : bool :=
  (State memory =? MEM_COMMIT) && negb (Protect memory .& (PAGE_EXECUTE_READWRITE .| PAGE_EXECUTE_WRITECOPY) =? 0) &&
  (Protect memory .& (PAGE_GUARD .| PAGE_NOACCESS) =? 0).

(** The loop over regions: the base of the first one that is writable and executable. *)
Fixpoint region_loop (query : Z -> option memory_info) (n : nat) (address : Z) : option Z :=
  match n with
  | O => None
  | S n =>
      match query address with
      | None => None
      | Some memory =>
          let base := BaseAddress memory in
          let next := u64 (base + RegionSize memory) in
          if next <=? address then None
          else if writable_executable memory then Some base
          else region_loop query n next
      end
  end.

(** The parent of the first entry with the id. *)
Definition parent_pid (sys : process_system) (pid : Z) : option Z :=
  match snapshot sys with
  | None => None
  | Some entries => snd <$> List.find (fun entry => fst entry =? pid) entries
  end.

(** [std::format] with [{:x}] of a 64-bit value. *)
Fixpoint hex_digits (n : nat) (z : Z) (acc : string) : string :=
  match n with
  | O => acc
  | S n =>
      let d := z mod 16 in
      let acc := String.String (char_of (if d <? 10 then 48 + d else 87 + d)) acc in
      if z / 16 =? 0 then acc else hex_digits n (z / 16) acc
  end.

Definition format_x (z : Z) : string := hex_digits 16 z EmptyString.

Definition make_observation (now : Z) (kind : ObservationKind) (level : ThreatLevel) (confidence : double) (pid : Z)
    (image evidence : string) : SecurityObservation :=
  Obs "process-behavior" kind now level confidence (bool_decide (kind = PROCESS_LINEAGE)) pid image image EmptyString evidence.

(** The two halves of [inspect_pid]. *)
Definition memory_of (sys : process_system) (now pid : Z) : list SecurityObservation :=
  match region_loop (query_region sys pid) max_regions 0 with
  | Some base =>
      [make_observation now PROCESS_MEMORY HIGH (dlit 65 100) pid (image_of sys pid)
         ("Committed executable-writable memory region observed at 0x" +:+ format_x base)]
  | None => []
  end.

Definition lineage_of (sys : process_system) (now pid : Z) : list SecurityObservation :=
  match parent_pid sys pid with
  | Some parent =>
      if negb (parent =? 0) && negb (parent =? pid) then
        let child_created := creation_time sys pid in
        let parent_created := creation_time sys parent in
        if negb (child_created =? 0) && negb (parent_created =? 0) && (child_created <? parent_created)
        then [make_observation now PROCESS_LINEAGE LOW (dlit 30 100) pid (image_of sys pid)
                ("Process parent PID " +:+ to_string parent +:+ " was recycled after original parent exited")]
        else []
      else []
  | None => []
  end.

Definition inspect_pid (sys : process_system) (now pid : Z) : list SecurityObservation :=
  if negb (opens_process sys pid) then [] else memory_of sys now pid ++ lineage_of sys now pid.

(** ** The walk over the address space *)

(** [address], with the region there, is [k] regions after [start]; the regions passed are
    not writable and executable, and each ends above its start. *)
Inductive walk (query : Z -> option memory_info) (start : Z) : nat -> Z -> memory_info -> Prop :=
  | from_start memory : query start = Some memory -> start < u64 (BaseAddress memory + RegionSize memory) ->
      walk query start 0 start memory
  | from_step k address memory first :
      query start = Some first -> start < u64 (BaseAddress first + RegionSize first) -> writable_executable first = false ->
      walk query (u64 (BaseAddress first + RegionSize first)) k address memory ->
      walk query start (S k) address memory.

Lemma region_loop_spec query n start base :
  region_loop query n start = Some base <->
  exists k address memory, (k < n)%nat /\ walk query start k address memory /\
    writable_executable memory = true /\ BaseAddress memory = base.
Proof.
  revert start. induction n as [|n IH]; intros start; cbn [region_loop]; [split; [done|intros (k & ? & ? & ? & _); lia]|].
  destruct (query start) as [m|] eqn:Hq.
  2: { split; [done|]. intros (k & a & m & _ & H & _). by inversion H; simplify_eq. }
  cbv zeta. destruct (Z.leb_spec (u64 (BaseAddress m + RegionSize m)) start).
  { split; [done|]. intros (k & a & m' & _ & Hw & _). inversion Hw; simplify_eq; lia. }
  destruct (writable_executable m) eqn:Hwx.
  - split.
    + intros [= <-]. exists 0%nat, start, m. split; [lia|]. split; [by constructor|done].
    + intros (k & a & m' & _ & Hw & Hx & <-). inversion Hw; simplify_eq; [done|congruence].
  - rewrite IH. split.
    + intros (k & a & m' & Hk & Hw & Hx & Hb). exists (S k), a, m'. split; [lia|]. split; [by econstructor|done].
    + intros (k & a & m' & Hk & Hw & Hx & Hb). inversion Hw as [|k' ? ? first E1 E2 E3 E4]; simplify_eq; [congruence|].
      exists k', a, m'. split; [lia|done].
Qed.

Lemma walk_increases query start k address memory :
  walk query start k address memory -> start + Z.of_nat k <= address < u64 (BaseAddress memory + RegionSize memory).
Proof. intros H. induction H as [start memory Hq Hn|start k address memory first Hq Hn Hf H IH]; lia. Qed.

Lemma memory_reports sys now pid :
  (exists base, region_loop (query_region sys pid) max_regions 0 = Some base /\
     memory_of sys now pid = [make_observation now PROCESS_MEMORY HIGH (dlit 65 100) pid (image_of sys pid)
         ("Committed executable-writable memory region observed at 0x" +:+ format_x base)]) \/
  (region_loop (query_region sys pid) max_regions 0 = None /\ memory_of sys now pid = []).
Proof. unfold memory_of. destruct (region_loop _ _ _) as [base|]; [left; by exists base|by right]. Qed.

Definition recycled (sys : process_system) (pid parent : Z) : Prop :=
  parent_pid sys pid = Some parent /\ parent <> 0 /\ parent <> pid /\ creation_time sys pid <> 0 /\
  creation_time sys parent <> 0 /\ creation_time sys pid < creation_time sys parent.

Lemma lineage_reports sys now pid :
  (exists parent, recycled sys pid parent /\
     lineage_of sys now pid = [make_observation now PROCESS_LINEAGE LOW (dlit 30 100) pid (image_of sys pid)
                ("Process parent PID " +:+ to_string parent +:+ " was recycled after original parent exited")]) \/
  (~ (exists parent, recycled sys pid parent) /\ lineage_of sys now pid = []).
Proof.
  unfold lineage_of, recycled. destruct (parent_pid sys pid) as [parent|]; [|right; split; [|done]; by intros (? & [=] & _)].
  destruct (Z.eqb_spec parent 0) as [H0|H0]; cbn [negb andb]; [right; split; [|done]; intros (? & [= <-] & H & _); lia|].
  destruct (Z.eqb_spec parent pid) as [H1|H1]; cbn [negb andb]; [right; split; [|done]; intros (? & [= <-] & _ & H & _); lia|].
  cbv zeta. destruct (Z.eqb_spec (creation_time sys pid) 0) as [H2|H2]; cbn [negb andb];
    [right; split; [|done]; intros (? & [= <-] & _ & _ & H & _); lia|].
  destruct (Z.eqb_spec (creation_time sys parent) 0) as [H3|H3]; cbn [negb andb];
    [right; split; [|done]; intros (? & [= <-] & _ & _ & _ & H & _); lia|].
  destruct (Z.ltb_spec (creation_time sys pid) (creation_time sys parent));
    [left; by exists parent|right; split; [|done]; intros (? & [= <-] & _ & _ & _ & _ & H'); lia].
Qed.

(** ** Properties *)

(** [inspect_pid] of a process that opens reports at most one memory region and at most
    one parent, in observations the telemetry bus accepts.  It reports memory exactly when
    the walk over the address space, whose addresses strictly increase, meets a committed,
    writable and executable region that is not guarded within 4096 regions, and then the
    first such; and it reports a parent exactly when the first entry of the snapshot with
    the id names another process as parent that was created later, both times being
    known.  The report about the parent is marked deterministic, although the code says
    that it is not. *)
Theorem process_inspection (sys : process_system) (now pid : Z) (Hopens : opens_process sys pid = true) :
  let obs := inspect_pid sys now pid in
  let first_wx k address memory :=
    Z.of_nat k < 4096 /\ walk (query_region sys pid) 0 k address memory /\ writable_executable memory = true in
  Forall (fun o => valid o = true /\ process_id o = pid /\ process_name o = image_of sys pid) obs /\
  (In PROCESS_MEMORY (kind <$> obs) <-> exists k address memory, first_wx k address memory) /\
  (forall k address memory, first_wx k address memory -> Z.of_nat k <= address /\
     In ("Committed executable-writable memory region observed at 0x" +:+ format_x (BaseAddress memory)) (evidence <$> obs)) /\
  (In PROCESS_LINEAGE (kind <$> obs) <->
     exists parent, parent_pid sys pid = Some parent /\ parent <> 0 /\ parent <> pid /\ creation_time sys pid <> 0 /\
       creation_time sys parent <> 0 /\ creation_time sys pid < creation_time sys parent) /\
  (forall o, In o obs -> kind o = PROCESS_LINEAGE -> deterministic o = true /\ suggested_level o = LOW) /\
  (length obs <= 2)%nat.
Proof.
  cbv zeta. unfold inspect_pid. rewrite Hopens. cbn [negb].
  assert (Hwx : (exists base, region_loop (query_region sys pid) max_regions 0 = Some base) <->
    exists k address memory, Z.of_nat k < 4096 /\ walk (query_region sys pid) 0 k address memory /\ writable_executable memory = true).
  { split.
    - intros [base H]. apply region_loop_spec in H as (k & a & m & Hk & Hw & Hx & _). exists k, a, m.
      split; [unfold max_regions in Hk; lia|done].
    - intros (k & a & m & Hk & Hw & Hx). exists (BaseAddress m). apply region_loop_spec. exists k, a, m.
      split; [unfold max_regions; lia|done]. }
  assert (Hfirst : forall k a m, Z.of_nat k < 4096 /\ walk (query_region sys pid) 0 k a m /\ writable_executable m = true ->
    Z.of_nat k <= a /\ region_loop (query_region sys pid) max_regions 0 = Some (BaseAddress m)).
  { intros k a m (Hk & Hw & Hx). split; [apply walk_increases in Hw; lia|]. apply region_loop_spec. exists k, a, m.
    split; [unfold max_regions; lia|done]. }
  rewrite <- Hwx. fold (recycled sys pid).
  destruct (memory_reports sys now pid) as [(base & Hb & ->)|[Hb ->]], (lineage_reports sys now pid) as [(parent & Hp & ->)|[Hp ->]];
    rewrite Hb in *; cbn [app fmap list_fmap In make_observation kind evidence length].
  all: split; [repeat (apply List.Forall_cons; [done|]); apply List.Forall_nil|].
  all: split; [split; [try (intros _; by eexists); try (by intros [|]); by intros []|try (by left); by intros [? [=]]]|].
  all: split; [intros k a m [H1 H2]%Hfirst; first [by injection H2 as <-; split; [|left]|done]|].
  all: split; [first [split; [intros _; by eexists|by auto] | split; [intros H; exfalso; by repeat destruct H as [H|H]|done]]|].
  all: split; [|lia].
  all: intros o Ho; repeat destruct Ho as [<-|Ho]; try done.
Qed.

Lemma process_inspection_witness :
  let sys := ProcSystem (fun _ => true) (fun _ => "a.exe"%string)
    (fun _ a => if a =? 0 then Some (MemInfo 0 4096 0 0) else Some (MemInfo 4096 4096 0x1000 0x40))
    (Some [(7, 4)]) (fun p => if p =? 7 then 50 else 60) in
  In PROCESS_LINEAGE (kind <$> inspect_pid sys 0 7) /\
  (forall o, In o (inspect_pid sys 0 7) -> kind o = PROCESS_LINEAGE -> deterministic o = true /\ suggested_level o = LOW).
Proof.
  cbv zeta. set (sys := ProcSystem _ _ _ _ _).
  destruct (process_inspection sys 0 7 eq_refl) as (_ & _ & _ & Hl & Hd & _). split; [|exact Hd].
  apply Hl. exists 4. by repeat split.
Defined.
