(* ===== verification/Inspection.v ===== *)
(** * Inspection: which new processes are inspected

    Models the sampling of process inspections in src/src/engine_manager.cpp: the
    callback on a process start and the polling loop that replaces the sensor.  Times
    are milliseconds of the steady clock. *)
From S2P Require Import Prelude Float64 Asn1 Observation ProcessBehavior.

Definition INSPECTION_INTERVAL_MS : Z := 250.

(** The test and the update before a task is queued: the new time of the last
    inspection, and whether this process is inspected. *)
Definition sample_inspection (last now : Z) : Z * bool :=
  if now - last <? INSPECTION_INTERVAL_MS then (last, false) else (now, true).

(** The callback on process starts, over the starts with their times: the process ids
    whose inspection is queued, with the times. *)
Fixpoint on_process_starts (last : Z) (starts : list (Z * Z)) : Z * list (Z * Z) :=
  match starts with
  | [] => (last, [])
  | (now, pid) :: starts =>
      let '(last, inspected) := sample_inspection last now in
      let '(last, rest) := on_process_starts last starts in
      (last, if inspected then (now, pid) :: rest else rest)
  end.

(** The loop over the processes of one round, in the order of the set's iteration;
    [clock i] is the reading for the process at [i]. *)
Fixpoint poll_processes (known : gset Z) (clock : nat -> Z) (i : nat) (last : Z) (current : list Z) : Z * list (Z * Z) :=
  match current with
  | [] => (last, [])
  | pid :: current =>
      if bool_decide (pid ∈ known) then poll_processes known clock (S i) last current
      else
        let '(last, inspected) := sample_inspection last (clock i) in
        let '(last, rest) := poll_processes known clock (S i) last current in
        (last, if inspected then (clock i, pid) :: rest else rest)
  end.

(** One round: what [enumerate_processes] listed becomes known. *)
Definition poll_round (iteration : gset Z -> list Z) (clock : nat -> Z) (st : gset Z * Z) (processes : list Z) :
    gset Z * Z * list (Z * Z) :=
  let '(known, last) := st in
  let current := list_to_set processes : gset Z in
  let '(last, inspected) := poll_processes known clock 0 last (iteration current) in
  (current, last, inspected).

Fixpoint poll_rounds (iteration : gset Z -> list Z) (st : gset Z * Z) (rounds : list ((nat -> Z) * list Z)) :
    gset Z * Z * list (Z * Z) :=
  match rounds with
  | [] => (st, [])
  | (clock, processes) :: rounds =>
      let '(st, inspected) := poll_round iteration clock st processes in
      let '(st, rest) := poll_rounds iteration st rounds in
      (st, inspected ++ rest)
  end.

(** The task: what it finds goes to the pipeline. *)
Definition inspection_task (sys : process_system) (now pid : Z) : list SecurityObservation := inspect_pid sys now pid.

(** ** Lemmas *)

(** Times of inspections, each at least the interval after the one before. *)
Fixpoint spaced (last : Z) (l : list (Z * Z)) : Prop :=
  match l with
  | [] => True
  | (now, _) :: l => last + INSPECTION_INTERVAL_MS <= now /\ spaced now l
  end.

Lemma spaced_count last l : spaced last l -> l <> [] ->
  exists now pid, In (now, pid) l /\ last + INSPECTION_INTERVAL_MS * Z.of_nat (length l) <= now.
Proof.
  revert last. induction l as [|[now pid] l IH]; intros last Hs Hne; [done|]. destruct Hs as [H1 H2]. cbn [length].
  destruct l as [|x l]; [exists now, pid; split; [by left|cbn; lia]|].
  destruct (IH now H2 ltac:(done)) as (now' & pid' & Hin & Hle). exists now', pid'. split; [by right|].
  cbn [length] in *. unfold INSPECTION_INTERVAL_MS in *. lia.
Qed.

(** The time of the last one. *)
Fixpoint last_time (last : Z) (l : list (Z * Z)) : Z :=
  match l with [] => last | (now, _) :: l => last_time now l end.

Lemma last_time_app last l k : last_time last (l ++ k) = last_time (last_time last l) k.
Proof. revert last. induction l as [|[now pid] l IH]; intros last; [done|]. apply IH. Qed.

Lemma spaced_app last l k : spaced last l -> spaced (last_time last l) k -> spaced last (l ++ k).
Proof.
  revert last. induction l as [|[now pid] l IH]; intros last Hs Hk; [done|]. destruct Hs as [H1 H2]. split; [done|].
  by apply IH.
Qed.

Lemma starts_spaced last starts :
  let '(last', l) := on_process_starts last starts in spaced last l /\ last' = last_time last l /\ sublist l starts.
Proof.
  revert last. induction starts as [|[now pid] starts IH]; intros last; cbn; [by split_and!|].
  unfold sample_inspection. destruct (Z.ltb_spec (now - last) INSPECTION_INTERVAL_MS) as [H|H].
  - specialize (IH last). destruct (on_process_starts last starts) as [last' l]. destruct IH as (H1 & H2 & H3).
    split; [done|]. split; [done|]. by apply sublist_cons.
  - specialize (IH now). destruct (on_process_starts now starts) as [last' l]. destruct IH as (H1 & -> & H3).
    split; [split; [lia|done]|]. split; [done|by apply sublist_skip].
Qed.

Lemma poll_spaced known clock current : forall i last,
  let '(last', l) := poll_processes known clock i last current in
  spaced last l /\ last' = last_time last l /\ sublist (l.*2) current /\ Forall (fun p => p.2 ∉ known) l.
Proof.
  induction current as [|pid current IH]; intros i last; cbn; [by split_and!|].
  destruct (bool_decide_reflect (pid ∈ known)) as [Hk|Hk].
  - specialize (IH (S i) last). destruct (poll_processes known clock (S i) last current) as [last' l].
    destruct IH as (H1 & H2 & H3 & H4). split_and!; try done. by apply sublist_cons.
  - unfold sample_inspection. destruct (Z.ltb_spec (clock i - last) INSPECTION_INTERVAL_MS) as [H|H].
    + specialize (IH (S i) last). destruct (poll_processes known clock (S i) last current) as [last' l].
      destruct IH as (H1 & H2 & H3 & H4). split_and!; try done. by apply sublist_cons.
    + specialize (IH (S i) (clock i)). destruct (poll_processes known clock (S i) (clock i) current) as [last' l].
      destruct IH as (H1 & -> & H3 & H4). split; [split; [lia|done]|]. split; [done|].
      split; [by apply sublist_skip|by constructor].
Qed.

Lemma rounds_spaced iteration rounds (Hit : forall s, iteration s ≡ₚ elements s) : forall st,
  let '(_, last', l) := poll_rounds iteration st rounds in
  spaced st.2 l /\ last' = last_time st.2 l /\
  forall pid, pid ∈ st.1 -> Forall (fun r => pid ∈ r.2) rounds -> Forall (fun p => p.2 <> pid) l.
Proof.
  induction rounds as [|[clock processes] rounds IH]; intros [known last]; cbn; [by split_and!|].
  pose proof (poll_spaced known clock (iteration (list_to_set processes)) 0 last) as H.
  destruct (poll_processes known clock 0 last _) as [last1 l1]. destruct H as (H1 & -> & _ & H4).
  specialize (IH (list_to_set processes, last_time last l1)). cbn in IH.
  destruct (poll_rounds iteration (list_to_set processes, last_time last l1) rounds) as [[known2 last2] l2].
  destruct IH as (H5 & -> & H6). split; [by apply spaced_app|]. split.
  - by rewrite last_time_app.
  - intros pid Hk Hall. apply Forall_cons in Hall as [Hp Hall]. apply Forall_app. split.
    + eapply Forall_impl; [exact H4|]. intros p Hn E. apply Hn. by rewrite E.
    + apply H6; [|done]. by apply elem_of_list_to_set.
Qed.

(** ** Properties *)

(** inspections are sampled: whatever the rate of process starts, and in the polling
    fallback whatever the rounds list, two queued inspections are at least 250 ms apart,
    so that their number is bounded by the time that passes; a process that is listed in
    every round since it became known is never inspected (again), which includes one the
    sampling skipped when it was new. *)
Theorem inspections_are_sampled (iteration : gset Z -> list Z) (Hit : forall s, iteration s ≡ₚ elements s)
    (last : Z) (starts : list (Z * Z)) (known : gset Z) (rounds : list ((nat -> Z) * list Z)) :
  (let '(last', l) := on_process_starts last starts in
   spaced last l /\ last' = last_time last l /\ sublist l starts /\
   (l <> [] -> exists now pid, In (now, pid) l /\ last + 250 * Z.of_nat (length l) <= now)) /\
  (let '(_, last', l) := poll_rounds iteration (known, last) rounds in
   spaced last l /\ last' = last_time last l /\
   (l <> [] -> exists now pid, In (now, pid) l /\ last + 250 * Z.of_nat (length l) <= now) /\
   forall pid, pid ∈ known -> Forall (fun r => pid ∈ r.2) rounds -> Forall (fun p => p.2 <> pid) l).
Proof.
  split.
  - pose proof (starts_spaced last starts) as H. destruct (on_process_starts last starts) as [last' l].
    destruct H as (H1 & H2 & H3). split_and!; try done. by apply spaced_count.
  - pose proof (rounds_spaced iteration rounds Hit (known, last)) as H. cbn in H.
    destruct (poll_rounds iteration (known, last) rounds) as [[known' last'] l]. destruct H as (H1 & H2 & H3).
    split_and!; try done. by apply spaced_count.
Qed.

Lemma inspections_are_sampled_witness :
  (poll_rounds elements (∅, 0) [((fun i => 1000), [4; 5]); ((fun i => 5000), [4; 5])]).2 = [(1000, 5)] /\
  spaced 0 (poll_rounds elements (∅, 0) [((fun i => 1000), [4; 5]); ((fun i => 5000), [4; 5])]).2.
Proof.
  split; [vm_compute; reflexivity|].
  pose proof (inspections_are_sampled elements (fun s => reflexivity _) 0 [] ∅
    [((fun i => 1000), [4; 5]); ((fun i => 5000), [4; 5])]) as [_ H].
  destruct (poll_rounds _ _ _) as [[known last'] l]. exact (proj1 H).
Defined.
