(* ===== verification/Yara.v ===== *)
(** * Yara: pattern search and rules

    Models src/src/engines/yara_engine.cpp and its header: hex and text patterns, the
    two searches of [find_pattern], conditions and scans, the rule language, the
    built-in rules.  Buffers are read through the memory model of the prelude.  The
    rules' mutex makes each operation one step, so operations are functions. *)
From S2P Require Import Prelude Float64 Asn1 Observation Policy PolicyStore Text.

Record YaraString := YString {
  identifier : string;
  pattern : list byte;
  mask : list byte;
  is_hex : bool;
  nocase : bool;
  wide : bool;
  ascii : bool;
}.

Inductive ConditionOp := ALL_OF_THEM | ANY_OF_THEM | COUNT_GE.

Record YaraRule := Rule {
  r_name : string;
  r_description : string;
  r_tags : list string;
  r_strings : list YaraString;
  r_condition : ConditionOp;
  r_condition_count : Z;
  r_threat_level : ThreatLevel;
}.

Record YaraMatch := Match {
  m_rule_name : string;
  m_string_id : string;
  m_offset : Z;
  m_length : Z;
}.

Definition empty_yara_string : YaraString := YString EmptyString [] [] false false false true.
Definition empty_rule : YaraRule := Rule EmptyString EmptyString [] [] ANY_OF_THEM 1 HIGH.

(** ** Patterns *)

Definition text_to_pattern (text : string) (wide : bool) : list byte :=
  if wide then mjoin ((fun b => [b; x00]) <$> bytes_of_string text) else bytes_of_string text.

Definition hex_val (c : Ascii.ascii) : Z :=
  let v := char_value c in
  if (48 <=? v) && (v <=? 57) then v - 48
  else if (97 <=? v) && (v <=? 102) then v - 97 + 10
  else if (65 <=? v) && (v <=? 70) then v - 65 + 10
  else -1.

(** The loop of [parse_hex_pattern]; [None] is [return false]. *)
Fixpoint hex_loop (s : string) : option (list (byte * byte)) :=
  match s with
  | EmptyString => Some []
  | String.String c s' =>
      let v := char_value c in
      if (v =? 32) || (v =? 123) || (v =? 125) then hex_loop s'
      else if v =? 63 then
        match s' with
        | String.String c2 s'' =>
            if char_value c2 =? 63 then cons (x00, x00) <$> hex_loop s'' else cons (x00, x00) <$> hex_loop s'
        | EmptyString => Some [(x00, x00)]
        end
      else
        match s' with
        | EmptyString => None
        | String.String c2 s'' =>
            let h := hex_val c in
            let l := hex_val c2 in
            if (h <? 0) || (l <? 0) then None
            else cons (byte_of (Z.lor (Z.shiftl h 4) l), xff) <$> hex_loop s''
        end
  end.

(** Pattern and mask; [None] is the failure, which also covers the empty pattern. *)
Definition parse_hex_pattern (hex_str : string) : option (list byte * list byte) :=
  match hex_loop hex_str with
  | Some [] | None => None
  | Some l => Some (l.*1, l.*2)
  end.

(** ** The search *)

Definition lower_byte (b : byte) : byte :=
  if (65 <=? bval b) && (bval b <=? 90) then byte_of (bval b - 65 + 97) else b.
Definition upper_byte (b : byte) : byte :=
  if (97 <=? bval b) && (bval b <=? 122) then byte_of (bval b - 97 + 65) else b.

(** [str.nocase && !str.is_hex] *)
Definition folds (s : YaraString) : bool := nocase s && negb (is_hex s).

Definition has_wildcards (s : YaraString) : bool := existsb (fun m => negb (bval m =? 255)) (mask s).

Definition pat_len (s : YaraString) : Z := Z.of_nat (length (pattern s)).

(** [shift[lo] = shift[hi] = v], or [shift[p] = v]. *)
Definition set_shift (s : YaraString) (shift : list Z) (p : byte) (v : Z) : list Z :=
  if folds s
  then <[Z.to_nat (bval (upper_byte p)) := v]> (<[Z.to_nat (bval (lower_byte p)) := v]> shift)
  else <[Z.to_nat (bval p) := v]> shift.

(** The loop that fills the table, from index [j] for [n] more. *)
Fixpoint fill_shift (s : YaraString) (shift : list Z) (j n : nat) : mem (list Z) :=
  match n with
  | O => Val shift
  | S n =>
      (let* p := rd (Some (pattern s)) (Z.of_nat j) in
       fill_shift s (set_shift s shift p (pat_len s - 1 - Z.of_nat j)) (S j) n)%mem
  end.

Definition shift_table (s : YaraString) : mem (list Z) :=
  fill_shift s (replicate 256 (pat_len s)) 0 (length (pattern s) - 1).

(** The backward comparison at [i]; [n] indices are left. *)
Fixpoint match_back (data : ptr) (s : YaraString) (i : Z) (n : nat) : mem bool :=
  match n with
  | O => Val true
  | S j =>
      (let* d := rd data (i + Z.of_nat j) in
       let* p := rd (Some (pattern s)) (Z.of_nat j) in
       let '(d, p) := if folds s then (lower_byte d, lower_byte p) else (d, p) in
       if negb (bool_decide (d = p)) then Val false else match_back data s i j)%mem
  end.

(** Boyer-Moore-Horspool from [i]. *)
Fixpoint bmh_loop (fuel : nat) (data : ptr) (s : YaraString) (shift : list Z) (last_pos i : Z) : mem (list Z) :=
  match fuel with
  | O => OOB
  | S fuel =>
      if i <=? last_pos then
        (let* m := match_back data s i (length (pattern s)) in
         if m : bool then
           let* rest := bmh_loop fuel data s shift last_pos (i + 1) in
           Val (i :: rest)
         else
           let* last := rd data (i + pat_len s - 1) in
           let last := if folds s then lower_byte last else last in
           match shift !! Z.to_nat (bval last) with
           | Some step => bmh_loop fuel data s shift last_pos (i + step)
           | None => OOB
           end)%mem
      else Val []
  end.

(** The mask of index [j]. *)
Definition mask_at (s : YaraString) (j : nat) : byte := default xff (mask s !! j).

Definition byte_ok (s : YaraString) (j : nat) (d p : byte) : bool :=
  let m := bval (mask_at s j) in
  let '(d, p) := if nocase s && (m =? 255) && negb (is_hex s) then (lower_byte d, lower_byte p) else (d, p) in
  Z.land (bval d) m =? Z.land (bval p) m.

(** The forward comparison at [i] from index [j] for [n] more. *)
Fixpoint match_forward (data : ptr) (s : YaraString) (i : Z) (j n : nat) : mem bool :=
  match n with
  | O => Val true
  | S n =>
      (let* d := rd data (i + Z.of_nat j) in
       let* p := rd (Some (pattern s)) (Z.of_nat j) in
       if negb (byte_ok s j d p) then Val false else match_forward data s i (S j) n)%mem
  end.

(** Positions [i .. i + n - 1]. *)
Fixpoint naive_loop (data : ptr) (s : YaraString) (i : Z) (n : nat) : mem (list Z) :=
  match n with
  | O => Val []
  | S n =>
      (let* m := match_forward data s i 0 (length (pattern s)) in
       let* rest := naive_loop data s (i + 1) n in
       Val (if m : bool then i :: rest else rest))%mem
  end.

(** [data_len] is the length of the buffer [data] points to. *)
Definition find_pattern (data : ptr) (data_len : Z) (s : YaraString) : mem (list Z) :=
  if (pat_len s =? 0) || (data_len <? pat_len s) then Val []
  else
    let last_pos := data_len - pat_len s in
    if (4 <=? pat_len s) && negb (has_wildcards s) then
      (let* shift := shift_table s in
       bmh_loop (Z.to_nat (last_pos + 2)) data s shift last_pos 0)%mem
    else naive_loop data s 0 (Z.to_nat (last_pos + 1)).

(** ** Conditions and scans *)

(** [it != matches.end() && !it->second.empty()] *)
Definition matched (matches : gmap string (list Z)) (s : YaraString) : bool :=
  match matches !! identifier s with
  | Some (_ :: _) => true
  | _ => false
  end.

Definition evaluate_condition (rule : YaraRule) (matches : gmap string (list Z)) : bool :=
  match r_condition rule with
  | ALL_OF_THEM => forallb (matched matches) (r_strings rule)
  | ANY_OF_THEM => existsb (matched matches) (r_strings rule)
  | COUNT_GE => r_condition_count rule <=? Z.of_nat (length (filter (fun s => matched matches s = true) (r_strings rule)))
  end.

(** The loop over [rule.strings]. *)
Fixpoint collect_matches (data : ptr) (len : Z) (strings : list YaraString) (matches : gmap string (list Z)) :
    mem (gmap string (list Z)) :=
  match strings with
  | [] => Val matches
  | s :: strings =>
      (let* offsets := find_pattern data len s in
       collect_matches data len strings
         (match offsets with [] => matches | _ => <[identifier s := offsets]> matches end))%mem
  end.

(** [std::find_if] by identifier. *)
Definition string_of_id (strings : list YaraString) (id : string) : option YaraString :=
  find (fun s => String.eqb (identifier s) id) strings.

(** The matches of one rule, [string_matches] in the order it is walked. *)
Fixpoint rule_results (rule : YaraRule) (walk : list (string * list Z)) : mem (list YaraMatch) :=
  match walk with
  | [] => Val []
  | (id, offs) :: walk =>
      match string_of_id (r_strings rule) id with
      | None => OOB
      | Some s =>
          (let* rest := rule_results rule walk in
           Val (((fun off => Match (r_name rule) id off (pat_len s)) <$> offs) ++ rest))%mem
      end
  end.

Section walk_order.
(** The order in which [string_matches] is walked. *)
Context (order : gmap string (list Z) -> list (string * list Z)).

Definition scan_rule (data : ptr) (len : Z) (rule : YaraRule) : mem (list YaraMatch) :=
  (let* matches := collect_matches data len (r_strings rule) ∅ in
   if evaluate_condition rule matches then rule_results rule (order matches) else Val [])%mem.

Fixpoint scan_buffer (data : ptr) (len : Z) (rules : list YaraRule) : mem (list YaraMatch) :=
  match rules with
  | [] => Val []
  | rule :: rules =>
      (let* here := scan_rule data len rule in
       let* rest := scan_buffer data len rules in
       Val (here ++ rest))%mem
  end.

(** [scan_file]; [file_size] is [None] on an error, [content] is [None] when the file
    does not open or reads short. *)
Definition scan_file (file_size : option Z) (content : option (list byte)) (rules : list YaraRule) :
    mem (list YaraMatch) :=
  match file_size with
  | None => Val []
  | Some size =>
      if (size =? 0) || (64 * 1024 * 1024 <? size) then Val []
      else
        match content with
        | None => Val []
        | Some buf => scan_buffer (Some buf) size rules
        end
  end.
End walk_order.

(** ** The rule language *)

(** The rules added so far and the locals of [add_rule_from_string]. *)
Record rule_parser := RP {
  rp_rules : list YaraRule;
  rp_current : YaraRule;
  rp_in_rule : bool;
  rp_added_any : bool;
}.

Definition add_rule (rules : list YaraRule) (rule : YaraRule) : list YaraRule := rules ++ [rule].
Definition rule_count (rules : list YaraRule) : Z := Z.of_nat (length rules).

Definition set_name (r : YaraRule) (name : string) : YaraRule :=
  Rule name (r_description r) (r_tags r) (r_strings r) (r_condition r) (r_condition_count r) (r_threat_level r).
Definition set_level (r : YaraRule) (l : ThreatLevel) : YaraRule :=
  Rule (r_name r) (r_description r) (r_tags r) (r_strings r) (r_condition r) (r_condition_count r) l.
Definition set_condition (r : YaraRule) (c : ConditionOp) : YaraRule :=
  Rule (r_name r) (r_description r) (r_tags r) (r_strings r) c (r_condition_count r) (r_threat_level r).
Definition push_string (r : YaraRule) (s : YaraString) : YaraRule :=
  Rule (r_name r) (r_description r) (r_tags r) (r_strings r ++ [s]) (r_condition r) (r_condition_count r) (r_threat_level r).

(** The name on a header line; [None] leaves the name alone. *)
Definition header_name (trimmed : string) : option string :=
  match find_from (one_of [32; 9; 58]) trimmed 4 with
  | None => None
  | Some p =>
      match find_from (none_of [32; 9; 58; 123]) trimmed p with
      | None => None
      | Some name_start =>
          Some (match find_from (one_of [32; 9; 58; 123]) trimmed name_start with
                | None => str_drop name_start trimmed
                | Some name_end => String.substring name_start (name_end - name_start) trimmed
                end)
      end
  end.

(** A line that starts a rule. *)
Definition rule_header (st : rule_parser) (trimmed : string) : rule_parser :=
  let st :=
    if rp_in_rule st && negb (bool_decide (r_strings (rp_current st) = []))
    then RP (add_rule (rp_rules st) (rp_current st)) empty_rule (rp_in_rule st) true
    else st in
  let current := match header_name trimmed with Some n => set_name (rp_current st) n | None => rp_current st end in
  let current :=
    if empty_string (r_name current)
    then set_name current ("CustomRule_" +:+ to_string (rule_count (rp_rules st) + 1)) else current in
  RP (rp_rules st) current true (rp_added_any st).

Definition level_line (trimmed : string) (r : YaraRule) : YaraRule :=
  if find_str "CRITICAL" trimmed 0 then set_level r CRITICAL
  else if find_str "HIGH" trimmed 0 then set_level r HIGH
  else if find_str "MEDIUM" trimmed 0 then set_level r MEDIUM
  else r.

Definition is_char (v : Z) (c : Ascii.ascii) : bool := char_value c =? v.

(** A quoted string with its modifiers. *)
Definition text_string (id rest : string) (quote_start : nat) : option YaraString :=
  match find_last (is_char 34) rest with
  | None => None
  | Some quote_end =>
      if Nat.ltb quote_start quote_end then
        let literal := String.substring (quote_start + 1) (quote_end - quote_start - 1) rest in
        let nocase := find_str "nocase" rest quote_end in
        let wide := find_str "wide" rest quote_end in
        let pattern := text_to_pattern literal wide in
        Some (YString id pattern (replicate (length pattern) xff) false nocase wide (negb wide))
      else None
  end.

(** A hex string. *)
Definition hex_string (id rest : string) (hex_start : nat) : option YaraString :=
  match find_last (is_char 125) rest with
  | None => None
  | Some hex_end =>
      if Nat.ltb hex_start hex_end then
        match parse_hex_pattern (String.substring (hex_start + 1) (hex_end - hex_start - 1) rest) with
        | Some (pat, msk) => Some (YString id pat msk true false false true)
        | None => None
        end
      else None
  end.

(** A line that starts with a dollar sign. *)
Definition string_line (trimmed : string) : option YaraString :=
  match find_from (is_char 61) trimmed 0 with
  | None => None
  | Some eq_pos =>
      let id :=
        match find_from (one_of [32; 9; 61]) trimmed 0 with
        | Some n => String.substring 0 n trimmed
        | None => trimmed
        end in
      let rest := str_drop (eq_pos + 1) trimmed in
      match find_from (is_char 34) rest 0, find_from (is_char 123) rest 0 with
      | Some quote_start, _ => text_string id rest quote_start
      | None, Some hex_start => hex_string id rest hex_start
      | None, None => None
      end
  end.

(** A line inside a rule. *)
Definition body_line (trimmed : string) (r : YaraRule) : YaraRule :=
  let r := level_line trimmed r in
  let r :=
    match trimmed with
    | String.String c _ =>
        if is_char 36 c then match string_line trimmed with Some s => push_string r s | None => r end else r
    | EmptyString => r
    end in
  if find_str "all of them" trimmed 0 then set_condition r ALL_OF_THEM
  else if find_str "any of them" trimmed 0 then set_condition r ANY_OF_THEM
  else r.

Definition skipped_line (trimmed : string) : bool :=
  match trimmed with
  | EmptyString => true
  | String.String c _ => is_char 35 c || String.prefix "//" trimmed
  end.

Definition parse_line (st : rule_parser) (line : string) : rule_parser :=
  match trim line with
  | None => st
  | Some trimmed =>
      if skipped_line trimmed then st
      else if String.prefix "rule " trimmed || String.prefix "rule:" trimmed then rule_header st trimmed
      else if negb (rp_in_rule st) then st
      else RP (rp_rules st) (body_line trimmed (rp_current st)) (rp_in_rule st) (rp_added_any st)
  end.

Definition add_rule_from_string (rules : list YaraRule) (rule_text : string) : list YaraRule * bool :=
  let st := foldl parse_line (RP rules empty_rule false false) (get_lines rule_text) in
  if rp_in_rule st && negb (bool_decide (r_strings (rp_current st) = []))
  then (add_rule (rp_rules st) (rp_current st), true)
  else (rp_rules st, rp_added_any st).

(** A regular file of a rule directory: its extension, and its text when it opens. *)
Definition load_rule_file (acc : list YaraRule * Z) (file : string * option string) : list YaraRule * Z :=
  let '(rules, loaded) := acc in
  let '(ext, content) := file in
  if String.eqb ext ".yar" || String.eqb ext ".yara" || String.eqb ext ".txt" then
    match content with
    | None => acc
    | Some text =>
        let '(rules, added) := add_rule_from_string rules text in
        (rules, if added : bool then loaded + 1 else loaded)
    end
  else acc.

(** [None] when the path is no directory. *)
Definition load_rules_from_directory (rules : list YaraRule) (dir : option (list (string * option string))) :
    list YaraRule * Z :=
  match dir with
  | None => (rules, 0)
  | Some files => foldl load_rule_file (rules, 0) files
  end.

(** ** The built-in rules *)

(** A text string as the built-in rules make it, without a mask. *)
Definition builtin_text (id text : string) (nocase : bool) : YaraString :=
  YString id (text_to_pattern text false) [] false nocase false true.

Definition builtin_mz : YaraRule :=
  Rule "GCAD_MZ_Header" "Detects PE executables" ["pe"; "executable"]%string
    [YString "$mz" [x4d; x5a] [xff; xff] true false false true] ANY_OF_THEM 1 LOW.

Definition builtin_powershell : YaraRule :=
  Rule "GCAD_Suspicious_PowerShell" "Detects obfuscated PowerShell patterns" ["powershell"; "obfuscation"]%string
    [builtin_text "$enc_cmd" "-EncodedCommand" true;
     builtin_text "$bypass" "-ExecutionPolicy Bypass" true;
     builtin_text "$hidden" "-WindowStyle Hidden" true;
     builtin_text "$iex" "IEX(New-Object" true] COUNT_GE 2 HIGH.

Definition builtin_cobalt_strike : YaraRule :=
  Rule "GCAD_Cobalt_Strike_Beacon" "Detects Cobalt Strike beacon patterns" ["apt"; "c2"; "cobalt_strike"]%string
    [builtin_text "$pipe" "\\.\pipe\msagent_" false;
     (let '(p, m) := default ([], []) (parse_hex_pattern "00 01 00 01 00 02 ?? ?? 00 02 00 01 00 02 ?? ??") in
      YString "$config" p m true false false true);
     builtin_text "$sleep_mask" "beacon.dll" false] COUNT_GE 2 CRITICAL.

Definition builtin_mimikatz : YaraRule :=
  Rule "GCAD_Mimikatz_Strings" "Detects Mimikatz credential dumper" ["credential"; "mimikatz"]%string
    [builtin_text "$sekurlsa" "sekurlsa::logonpasswords" true;
     builtin_text "$gentilkiwi" "gentilkiwi" false;
     builtin_text "$lsadump" "lsadump::sam" true] ANY_OF_THEM 1 CRITICAL.

Definition builtin_ransom_note : YaraRule :=
  Rule "GCAD_Ransomware_Note" "Detects common ransomware note patterns" ["ransomware"; "ransom_note"]%string
    [builtin_text "$encrypted" "Your files have been encrypted" true;
     builtin_text "$bitcoin" "bitcoin wallet" true;
     builtin_text "$decrypt_tool" "decryption tool" true;
     builtin_text "$pay_ransom" "pay the ransom" true] COUNT_GE 2 CRITICAL.

Definition builtin_nop_sled : YaraRule :=
  Rule "GCAD_Shellcode_NOP_Sled" "Detects NOP sled patterns common in shellcode" ["shellcode"; "exploit"]%string
    [YString "$nop_sled" (replicate 16 x90) (replicate 16 xff) true false false true] ANY_OF_THEM 1 HIGH.

Definition builtin_rules : list YaraRule :=
  [builtin_mz; builtin_powershell; builtin_cobalt_strike; builtin_mimikatz; builtin_ransom_note; builtin_nop_sled].

Definition load_builtin_rules (rules : list YaraRule) : list YaraRule := foldl add_rule rules builtin_rules.

Definition reload_rules (dir : option (option (list (string * option string)))) : list YaraRule * Z :=
  let rules := load_builtin_rules [] in
  let rules := match dir with None => rules | Some dir => (load_rules_from_directory rules dir).1 end in
  (rules, rule_count rules).

(** The engine's own state: whether it runs, and its rules. *)
Definition yara_start (running : bool) (rules : list YaraRule) : bool * list YaraRule :=
  if running then (true, rules) else (true, if bool_decide (length rules = 0%nat) then load_builtin_rules rules else rules).

(** ** What the search finds *)

(** The string occurs at [i]: every byte of the pattern agrees with the data, under
    its mask and, for case-insensitive text, up to the case of letters. *)
Definition occurs_at (d : list byte) (s : YaraString) (i : Z) : Prop :=
  0 <= i /\
  forall j p, pattern s !! j = Some p ->
    exists b, d !! (Z.to_nat i + j)%nat = Some b /\ byte_ok s j b p = true.

(** The reference search: compare at every position. *)
Definition occurs_b (d : list byte) (s : YaraString) (i : Z) : bool :=
  forallb (fun j => match pattern s !! j, d !! (Z.to_nat i + j)%nat with
    | Some p, Some b => byte_ok s j b p
    | _, _ => false
    end) (seq 0 (length (pattern s))).

Definition occurrences (d : list byte) (s : YaraString) (i : Z) (n : nat) : list Z :=
  filter (fun i => occurs_b d s i = true) (seqZ i (Z.of_nat n)).

Lemma occurs_b_spec d s i : 0 <= i -> occurs_b d s i = true <-> occurs_at d s i.
Proof.
  intros Hi. unfold occurs_b, occurs_at. rewrite forallb_forall. split.
  - intros H. split; [done|]. intros j p Hp.
    specialize (H j ltac:(apply in_seq; apply lookup_lt_Some in Hp; lia)). rewrite Hp in H.
    destruct (d !! (Z.to_nat i + j)%nat) as [b|]; [by exists b|done].
  - intros [_ H] j Hj. apply in_seq in Hj.
    destruct (lookup_lt_is_Some_2 (pattern s) j ltac:(lia)) as [p Hp].
    destruct (H j p Hp) as (b & -> & Hb). by rewrite Hp.
Qed.

Lemma occurrences_S d s i n :
  occurrences d s i (S n) = (if occurs_b d s i then [i] else []) ++ occurrences d s (i + 1) n.
Proof.
  unfold occurrences. rewrite (seqZ_cons i) by lia.
  replace (Z.pred (Z.of_nat (S n))) with (Z.of_nat n) by lia. rewrite Z.add_1_r.
  destruct (occurs_b d s i) eqn:E.
  - by rewrite filter_cons_True.
  - by rewrite filter_cons_False by (by rewrite E).
Qed.

(** Positions without an occurrence can be skipped. *)
Lemma occurrences_skip d s i k n :
  (k <= n)%nat -> (forall x, i <= x < i + Z.of_nat k -> occurs_b d s x = false) ->
  occurrences d s i n = occurrences d s (i + Z.of_nat k) (n - k).
Proof.
  revert i n. induction k as [|k IH]; intros i n Hk H.
  - rewrite Z.add_0_r. f_equal. lia.
  - destruct n as [|n]; [lia|]. rewrite occurrences_S, (H i ltac:(lia)). cbn [app Nat.sub].
    rewrite (IH (i + 1) n ltac:(lia)) by (intros x Hx; apply H; lia). f_equal. lia.
Qed.

Section search.
Context (d : list byte) (s : YaraString).

#[local] Abbreviation len := (Z.of_nat (length d)).

Lemma rd_val i b : 0 <= i -> d !! Z.to_nat i = Some b -> rd (Some d) i = Val b.
Proof. intros Hi Hb. rewrite <- (Z2Nat.id i) by done. by apply rd_lookup. Qed.

Lemma match_forward_spec i j n :
  0 <= i -> i + Z.of_nat (j + n) <= len -> (j + n <= length (pattern s))%nat ->
  match_forward (Some d) s i j n =
  Val (forallb (fun j => match pattern s !! j, d !! (Z.to_nat i + j)%nat with
    | Some p, Some b => byte_ok s j b p
    | _, _ => false
    end) (seq j n)).
Proof.
  intros Hi. revert j. induction n as [|n IH]; intros j Hl Hp; [done|]. cbn [match_forward seq forallb].
  destruct (lookup_lt_is_Some_2 d (Z.to_nat i + j) ltac:(lia)) as [b Hb].
  destruct (lookup_lt_is_Some_2 (pattern s) j ltac:(lia)) as [p Hpj].
  rewrite (rd_val (i + Z.of_nat j) b) by first [lia | by replace (Z.to_nat (i + Z.of_nat j)) with (Z.to_nat i + j)%nat by lia].
  cbn [mem_bind]. rewrite (rd_lookup _ j p Hpj). cbn [mem_bind]. rewrite Hpj, Hb.
  destruct (byte_ok s j b p); [|done]. cbn [negb andb]. apply IH; lia.
Qed.

Lemma naive_loop_spec i n :
  0 <= i -> i + Z.of_nat n + pat_len s <= len + 1 ->
  naive_loop (Some d) s i n = Val (occurrences d s i n).
Proof.
  revert i. induction n as [|n IH]; intros i Hi Hl; [done|]. cbn [naive_loop].
  unfold pat_len in *. rewrite match_forward_spec by lia. cbn [mem_bind]. rewrite IH by lia. cbn [mem_bind].
  rewrite occurrences_S. fold (occurs_b d s i). by destruct (occurs_b d s i).
Qed.

(** The spelling two bytes are compared in. *)
Definition norm (b : byte) : byte := if folds s then lower_byte b else b.

Lemma byte_ok_norm j b p : mask_at s j = xff -> byte_ok s j b p = bool_decide (norm b = norm p).
Proof.
  intros Hm. unfold byte_ok, norm, folds. rewrite Hm. change (bval xff) with 255. cbn [Z.eqb].
  assert (Hland : forall x, Z.land (bval x) 255 = bval x).
  { intros x. change 255 with (Z.ones 8). rewrite Z.land_ones by lia. apply Z.mod_small, bval_range. }
  change (255 =? 255) with true. rewrite andb_true_r.
  destruct (nocase s && negb (is_hex s)); by rewrite !Hland, bval_eqb.
Qed.

Lemma no_wildcards j : has_wildcards s = false -> mask_at s j = xff.
Proof.
  unfold has_wildcards, mask_at. intros H. destruct (mask s !! j) as [m|] eqn:E; [|done]. cbn [from_option id default].
  rewrite <- not_true_iff_false, existsb_exists in H.
  destruct (Z.eq_dec (bval m) 255) as [Ez|Hne]; [by apply (inj bval)|]. exfalso. apply H. exists m. split.
  - apply list_elem_of_In. by eapply list_elem_of_lookup_2.
  - by apply negb_true_iff, Z.eqb_neq.
Qed.

Lemma match_back_spec i n :
  has_wildcards s = false -> 0 <= i -> i + Z.of_nat n <= len -> (n <= length (pattern s))%nat ->
  match_back (Some d) s i n =
  Val (forallb (fun j => match pattern s !! j, d !! (Z.to_nat i + j)%nat with
    | Some p, Some b => byte_ok s j b p
    | _, _ => false
    end) (seq 0 n)).
Proof.
  intros Hw Hi. induction n as [|n IH]; intros Hl Hp; [done|]. cbn [match_back].
  destruct (lookup_lt_is_Some_2 d (Z.to_nat i + n) ltac:(lia)) as [b Hb].
  destruct (lookup_lt_is_Some_2 (pattern s) n ltac:(lia)) as [p Hpn].
  rewrite (rd_val (i + Z.of_nat n) b) by first [lia | by replace (Z.to_nat (i + Z.of_nat n)) with (Z.to_nat i + n)%nat by lia].
  cbn [mem_bind]. rewrite (rd_lookup _ n p Hpn). cbn [mem_bind].
  rewrite seq_S, forallb_app. cbn [forallb Nat.add]. rewrite Hpn, Hb, byte_ok_norm, andb_true_r by (by apply no_wildcards).
  unfold norm. rewrite IH by lia. destruct (folds s); case_bool_decide; cbn [negb]; by rewrite ?andb_true_r, ?andb_false_r.
Qed.

(** The table after the first [j] indices. *)
Record shift_ok (shift : list Z) (j : nat) : Prop := {
  sh_length : length shift = 256%nat;
  sh_range : Forall (fun v => pat_len s - Z.of_nat j <= v <= pat_len s) shift;
  sh_skip : forall k p v, (k < j)%nat -> pattern s !! k = Some p ->
              shift !! Z.to_nat (bval (norm p)) = Some v -> v <= pat_len s - 1 - Z.of_nat k;
}.

Lemma bval_nat_lt b : (Z.to_nat (bval b) < 256)%nat.
Proof. pose proof (bval_range b). lia. Qed.

Lemma lower_lower b : lower_byte (lower_byte b) = lower_byte b.
Proof. by destruct b. Qed.

Lemma set_shift_ok shift j p :
  shift_ok shift j -> pattern s !! j = Some p ->
  shift_ok (set_shift s shift p (pat_len s - 1 - Z.of_nat j)) (S j).
Proof.
  intros [Hl Hr Hs] Hp. pose proof (lookup_lt_Some _ _ _ Hp) as Hj. unfold pat_len in *.
  set (v := Z.of_nat (length (pattern s)) - 1 - Z.of_nat j).
  assert (Hr' : Forall (fun v => Z.of_nat (length (pattern s)) - Z.of_nat (S j) <= v <= Z.of_nat (length (pattern s))) shift)
    by (eapply Forall_impl; [exact Hr|]; cbv beta; lia).
  assert (Hone : forall l i, length l = 256%nat -> length (<[i := v]> l) = 256%nat) by (intros; by rewrite length_insert).
  split; unfold set_shift, norm, pat_len in *.
  - destruct (folds s); by rewrite ?length_insert.
  - assert (Hv : Z.of_nat (length (pattern s)) - Z.of_nat (S j) <= v <= Z.of_nat (length (pattern s))) by (unfold v; lia).
    destruct (folds s); by repeat apply Forall_insert.
  - intros k q w Hk Hq Hw. destruct (folds s).
    + apply list_lookup_insert_Some in Hw as [(_ & <- & _)|[_ Hw]]; [unfold v; lia|].
      apply list_lookup_insert_Some in Hw as [(_ & <- & _)|[Hne Hw]]; [unfold v; lia|].
      destruct (decide (k = j)) as [->|]; [|apply (Hs k q w); [lia|done|done]].
      rewrite Hp in Hq. injection Hq as <-. congruence.
    + apply list_lookup_insert_Some in Hw as [(_ & <- & _)|[Hne Hw]]; [unfold v; lia|].
      destruct (decide (k = j)) as [->|]; [|apply (Hs k q w); [lia|done|done]].
      rewrite Hp in Hq. injection Hq as <-. congruence.
Qed.

Lemma fill_shift_ok shift j n :
  shift_ok shift j -> (j + n <= length (pattern s))%nat ->
  exists shift', fill_shift s shift j n = Val shift' /\ shift_ok shift' (j + n).
Proof.
  revert shift j. induction n as [|n IH]; intros shift j Hok Hn.
  - exists shift. by rewrite Nat.add_0_r.
  - destruct (lookup_lt_is_Some_2 (pattern s) j ltac:(lia)) as [p Hp]. cbn [fill_shift].
    rewrite (rd_lookup _ j p Hp). cbn [mem_bind].
    destruct (IH _ (S j) (set_shift_ok _ _ _ Hok Hp) ltac:(lia)) as (shift' & E & Hok').
    exists shift'. split; [done|]. by replace (j + S n)%nat with (S j + n)%nat by lia.
Qed.

Lemma shift_table_ok :
  (0 < length (pattern s))%nat -> exists shift, shift_table s = Val shift /\ shift_ok shift (length (pattern s) - 1).
Proof.
  intros Hp. apply (fill_shift_ok _ 0); [|lia]. split.
  - apply length_replicate.
  - apply Forall_replicate. lia.
  - intros k p v Hk. lia.
Qed.
End search.

(** ** The fast search finds what the reference finds *)

Section horspool.
Context (d : list byte) (s : YaraString) (shift : list Z).
Context (Hw : has_wildcards s = false) (Hne : (0 < length (pattern s))%nat).
Context (Hshift : shift_ok s shift (length (pattern s) - 1)).

(** No occurrence lies within the distance the table gives for the last byte. *)
Lemma shift_safe i b step x :
  0 <= i -> d !! Z.to_nat (i + pat_len s - 1) = Some b ->
  shift !! Z.to_nat (bval (norm s b)) = Some step -> i < x < i + step -> occurs_b d s x = false.
Proof.
  intros Hi Hb Hstep Hx. apply not_true_iff_false. rewrite occurs_b_spec by lia. intros [_ Hocc].
  pose proof (sh_range _ _ _ Hshift) as Hr. rewrite Forall_lookup in Hr. specialize (Hr _ _ Hstep).
  unfold pat_len in *. set (k := (length (pattern s) - 1 - Z.to_nat (x - i))%nat).
  destruct (lookup_lt_is_Some_2 (pattern s) k ltac:(lia)) as [p Hp].
  destruct (Hocc k p Hp) as (b' & Hb' & Hok).
  replace (Z.to_nat x + k)%nat with (Z.to_nat (i + Z.of_nat (length (pattern s)) - 1)) in Hb' by lia.
  rewrite Hb in Hb'. injection Hb' as <-. rewrite byte_ok_norm in Hok by (by apply no_wildcards).
  apply bool_decide_eq_true in Hok. rewrite Hok in Hstep.
  pose proof (sh_skip _ _ _ Hshift k p step ltac:(lia) Hp Hstep) as Hs. unfold pat_len in Hs. lia.
Qed.

Lemma bmh_loop_spec fuel i :
  0 <= i -> Z.max 0 (Z.of_nat (length d) - pat_len s - i + 1) < Z.of_nat fuel ->
  bmh_loop fuel (Some d) s shift (Z.of_nat (length d) - pat_len s) i =
  Val (occurrences d s i (Z.to_nat (Z.of_nat (length d) - pat_len s - i + 1))).
Proof.
  revert i. induction fuel as [|fuel IH]; intros i Hi Hf.
  { lia. }
  cbn [bmh_loop]. destruct (Z.leb_spec i (Z.of_nat (length d) - pat_len s)) as [Hle|Hgt].
  2: { by replace (Z.to_nat _) with 0%nat by lia. }
  assert (Hpl : pat_len s = Z.of_nat (length (pattern s))) by done.
  rewrite match_back_spec by (first [done|lia]). fold (occurs_b d s i). cbn [mem_bind].
  destruct (occurs_b d s i) eqn:E.
  - rewrite IH by lia. cbn [mem_bind].
    replace (Z.to_nat (Z.of_nat (length d) - pat_len s - i + 1))
      with (S (Z.to_nat (Z.of_nat (length d) - pat_len s - (i + 1) + 1))) by lia.
    by rewrite occurrences_S, E.
  - destruct (lookup_lt_is_Some_2 d (Z.to_nat (i + pat_len s - 1)) ltac:(lia)) as [b Hb].
    rewrite (rd_val d (i + pat_len s - 1) b) by (first [done|lia]). cbn [mem_bind]. fold (norm s b).
    destruct (lookup_lt_is_Some_2 shift (Z.to_nat (bval (norm s b)))) as [step Hstep].
    { rewrite (sh_length _ _ _ Hshift). apply bval_nat_lt. }
    rewrite Hstep. pose proof (sh_range _ _ _ Hshift) as Hr. rewrite Forall_lookup in Hr. specialize (Hr _ _ Hstep).
    rewrite IH by lia.
    destruct (Z.le_gt_cases (i + step) (Z.of_nat (length d) - pat_len s + 1)) as [Hin|Hout].
    + rewrite (occurrences_skip d s i (Z.to_nat step)); [do 2 f_equal; lia|lia|].
      intros x Hx. destruct (Z.eq_dec x i) as [->|]; [done|]. apply (shift_safe i b step); [done..|lia].
    + replace (Z.to_nat (Z.of_nat (length d) - pat_len s - (i + step) + 1)) with 0%nat by lia.
      rewrite (occurrences_skip d s i (Z.to_nat (Z.of_nat (length d) - pat_len s - i + 1))); [|lia|].
      * by rewrite Nat.sub_diag.
      * intros x Hx. destruct (Z.eq_dec x i) as [->|]; [done|]. apply (shift_safe i b step); [done..|lia].
Qed.
End horspool.

Lemma find_pattern_occurrences d s :
  find_pattern (Some d) (Z.of_nat (length d)) s =
  Val (if (0 <? pat_len s) && (pat_len s <=? Z.of_nat (length d))
       then occurrences d s 0 (Z.to_nat (Z.of_nat (length d) - pat_len s + 1)) else []).
Proof.
  unfold find_pattern. assert (Hpl : 0 <= pat_len s) by (unfold pat_len; lia).
  destruct (Z.eqb_spec (pat_len s) 0) as [E|E]; cbn [orb]; [by rewrite E|].
  rewrite (proj2 (Z.ltb_lt 0 _)) by lia. cbn [andb].
  destruct (Z.ltb_spec (Z.of_nat (length d)) (pat_len s)) as [Hlt|Hge]; [by rewrite (proj2 (Z.leb_gt _ _)) by lia|].
  rewrite (proj2 (Z.leb_le (pat_len s) (Z.of_nat (length d)))) by lia. cbv zeta. destruct ((4 <=? pat_len s) && negb (has_wildcards s)) eqn:Ef.
  - bool_facts. destruct (shift_table_ok s ltac:(unfold pat_len in *; lia)) as (shift & -> & Hok). cbn [mem_bind].
    rewrite bmh_loop_spec; [by rewrite Z.sub_0_r|done|unfold pat_len in *; lia|done|done|lia].
  - rewrite naive_loop_spec; [done|done|lia].
Qed.

(** ** What a scan reports *)

(** The string occurs somewhere. *)
Definition found_in_data (d : list byte) (s : YaraString) (i : Z) : Prop := pattern s <> [] /\ occurs_at d s i.

Lemma found_bound d s i : found_in_data d s i -> 0 <= i <= Z.of_nat (length d) - pat_len s.
Proof.
  intros [Hne [Hi H]]. split; [done|]. unfold pat_len.
  destruct (pattern s) as [|p0 ps] eqn:Ep; [done|]. cbn [length].
  destruct (lookup_lt_is_Some_2 (pattern s) (length ps) ltac:(rewrite Ep; cbn; lia)) as [p Hp].
  rewrite <- Ep in H. destruct (H _ _ Hp) as (b & Hb & _). apply lookup_lt_Some in Hb. lia.
Qed.

Lemma occurrences_sorted d s i n : StronglySorted Z.lt (occurrences d s i n).
Proof.
  revert i. induction n as [|n IH]; intros i; [constructor|]. rewrite occurrences_S.
  destruct (occurs_b d s i); cbn [app]; [|apply IH]. constructor; [apply IH|].
  apply Forall_forall. intros x Hx. unfold occurrences in Hx.
  apply list_elem_of_filter in Hx as [_ Hx]. apply elem_of_seqZ in Hx. lia.
Qed.

Lemma find_pattern_spec d s :
  exists offs, find_pattern (Some d) (Z.of_nat (length d)) s = Val offs /\
    StronglySorted Z.lt offs /\ (forall i, In i offs <-> found_in_data d s i).
Proof.
  rewrite find_pattern_occurrences. eexists. split; [done|].
  destruct ((0 <? pat_len s) && (pat_len s <=? Z.of_nat (length d))) eqn:E.
  - bool_facts. assert (Hne : pattern s <> []) by (intros Ep; unfold pat_len in *; rewrite Ep in *; cbn in *; lia).
    split.
    + apply occurrences_sorted.
    + intros i. unfold occurrences. rewrite <- list_elem_of_In, list_elem_of_filter, elem_of_seqZ. split.
      * intros [Ho Hr]. split; [done|]. apply occurs_b_spec; [lia|done].
      * intros Hf. pose proof (found_bound _ _ _ Hf). destruct Hf as [_ Ho].
        split; [apply occurs_b_spec; [lia|done]|lia].
  - split; [constructor|]. intros i. split; [done|]. intros Hf. pose proof (found_bound _ _ _ Hf).
    destruct Hf as [Hne _]. exfalso. apply andb_false_iff in E as [E|E].
    + apply Z.ltb_ge in E. unfold pat_len in E. destruct (pattern s); [done|cbn in E; lia].
    + apply Z.leb_gt in E. lia.
Qed.

Definition offsets_of (d : list byte) (s : YaraString) (offs : list Z) : Prop :=
  offs <> [] /\ find_pattern (Some d) (Z.of_nat (length d)) s = Val offs.

Lemma offsets_of_found d s offs i : offsets_of d s offs -> In i offs <-> found_in_data d s i.
Proof. intros [_ H]. destruct (find_pattern_spec d s) as (o & E & _ & Ho). rewrite H in E. injection E as ->. apply Ho. Qed.

(** A string occurs somewhere. *)
Definition occurs_somewhere (d : list byte) (s : YaraString) : Prop := exists i, found_in_data d s i.

(** Of the strings of one name, the last that occurs, and the first of all.  The identifiers of
    a rule need not be distinct. *)
Definition last_found (d : list byte) (strings : list YaraString) (k : string) (s : YaraString) : Prop :=
  exists l1 l2, strings = l1 ++ s :: l2 /\ identifier s = k /\ occurs_somewhere d s /\
    forall t, In t l2 -> identifier t = k -> ~ occurs_somewhere d t.

Definition first_named (strings : list YaraString) (k : string) (s : YaraString) : Prop :=
  exists l1 l2, strings = l1 ++ s :: l2 /\ identifier s = k /\ forall t, In t l1 -> identifier t <> k.

(** Some string of the name occurs. *)
Definition name_found (d : list byte) (strings : list YaraString) (k : string) : Prop :=
  exists t, In t strings /\ identifier t = k /\ occurs_somewhere d t.

(** The condition of a rule over a property of its strings. *)
Definition condition_met (found : YaraString -> Prop) (rule : YaraRule) : Prop :=
  match r_condition rule with
  | ALL_OF_THEM => forall s, In s (r_strings rule) -> found s
  | ANY_OF_THEM => exists s, In s (r_strings rule) /\ found s
  | COUNT_GE => exists l, l `sublist_of` r_strings rule /\ r_condition_count rule <= Z.of_nat (length l) /\ Forall found l
  end.

Lemma offsets_of_occurs d s offs : offsets_of d s offs -> occurs_somewhere d s.
Proof. intros H. destruct offs as [|i offs]; [by destruct H|]. exists i. apply (offsets_of_found _ _ _ _ H). by left. Qed.

Lemma occurs_offsets d s : (exists offs, offsets_of d s offs) \/ (find_pattern (Some d) (Z.of_nat (length d)) s = Val [] /\ ~ occurs_somewhere d s).
Proof.
  destruct (find_pattern_spec d s) as (offs & E & _ & H). destruct offs as [|i offs]; [right|left; by exists (i :: offs)].
  split; [done|]. intros [i Hi]. by apply H in Hi.
Qed.

Lemma last_found_cons d t strings k s :
  last_found d (t :: strings) k s <-> last_found d strings k s \/ (s = t /\ identifier t = k /\ occurs_somewhere d t /\ ~ name_found d strings k).
Proof.
  unfold last_found, name_found. split.
  - intros ([|x l1] & l2 & E & Hk & Ho & Hl); cbn in E; injection E as -> ->; [right|left; by exists l1, l2].
    split_and!; [done..|]. intros (u & Hu & Hid & Hu'). by apply (Hl u).
  - intros [(l1 & l2 & -> & Hk & Ho & Hl)|(-> & Hk & Ho & Hn)]; [by exists (t :: l1), l2|]. exists [], strings. split_and!; [done..|].
    intros u Hu Hid Hu'. apply Hn. by exists u.
Qed.

Lemma name_found_cons d t strings k : name_found d (t :: strings) k <-> (identifier t = k /\ occurs_somewhere d t) \/ name_found d strings k.
Proof.
  unfold name_found. split; [intros (u & [->|Hu] & H); [by left|right; by exists u]|intros [H|(u & Hu & H)]; [exists t; by split; [left|]|exists u; by split; [right|]]].
Qed.

Lemma last_found_exists d strings k : name_found d strings k -> exists s, last_found d strings k s.
Proof.
  induction strings as [|t strings IH]; [by intros (? & [] & _)|]. rewrite name_found_cons. setoid_rewrite last_found_cons. intros H.
  assert (Hdec : name_found d strings k \/ ~ name_found d strings k).
  { clear. induction strings as [|t strings IH]; [right; by intros (? & [] & _)|]. rewrite name_found_cons.
    destruct IH as [IH|IH]; [tauto|]. destruct (occurs_offsets d t) as [[offs Ho]|[_ Hn]]; [|tauto]. apply offsets_of_occurs in Ho.
    destruct (decide (identifier t = k)); tauto. }
  destruct Hdec as [Hn|Hn]; [destruct (IH Hn) as [s Hs]; exists s; by left|]. destruct H as [[Hk Ho]|H]; [exists t; by right|done].
Qed.

Lemma last_found_name d strings k s : last_found d strings k s -> name_found d strings k.
Proof. intros (l1 & l2 & -> & Hk & Ho & _). exists s. split; [apply in_app_iff; right; by left|done]. Qed.

Lemma collect_matches_spec d strings matches :
  exists m, collect_matches (Some d) (Z.of_nat (length d)) strings matches = Val m /\
    forall k offs, m !! k = Some offs <->
      (exists s, last_found d strings k s /\ offsets_of d s offs) \/ (~ name_found d strings k /\ matches !! k = Some offs).
Proof.
  revert matches. induction strings as [|t strings IH]; intros matches; cbn [collect_matches].
  { exists matches. split; [done|]. intros k offs. split; [right; split; [by intros (? & [] & _)|done]|].
    intros [(s & (l1 & l2 & E & _) & _)|[_ H]]; [by destruct l1|done]. }
  destruct (find_pattern_spec d t) as (offs0 & E & _). rewrite E. cbn [mem_bind].
  set (matches1 := match offs0 with [] => matches | _ => <[identifier t := offs0]> matches end).
  assert (H1 : forall k offs, matches1 !! k = Some offs <->
    (identifier t = k /\ offsets_of d t offs) \/ (~ (identifier t = k /\ occurs_somewhere d t) /\ matches !! k = Some offs)).
  { intros k offs. destruct (occurs_offsets d t) as [[offs1 Ho]|[E1 Hn]].
    - assert (offs1 = offs0) as -> by (destruct Ho as [_ Ho]; rewrite E in Ho; by injection Ho). pose proof (offsets_of_occurs _ _ _ Ho) as Hocc.
      assert (Hm : matches1 = <[identifier t := offs0]> matches) by (unfold matches1; destruct offs0; [by destruct Ho|done]). rewrite Hm, lookup_insert_Some. split.
      + intros [[Hk <-]|[Hk ?]]; [by left|right]. split; [by intros [? _]|done].
      + intros [[Hk [_ Ho']]|[Hk ?]]; [left; rewrite E in Ho'; split; [done|by injection Ho']|right]. split; [intros Hk'; by apply Hk|done].
    - rewrite E in E1. injection E1 as ->. unfold matches1. split; [intros H; right; split; [by intros [_ ?]|done]|].
      intros [[_ [Hne Ho]]|[_ H]]; [|done]. rewrite E in Ho. injection Ho as <-. done. }
  destruct (IH matches1) as (m & Em & Hm). exists m. split; [done|]. intros k offs. rewrite Hm, H1. setoid_rewrite last_found_cons. rewrite name_found_cons. split.
  - intros [(s & Hs & Ho)|[Hn [[Hk Ho]|[Hk Hmt]]]]; [left; exists s; by split; [left|]|left; exists t|right; tauto].
    split; [right; pose proof (offsets_of_occurs _ _ _ Ho); by split_and!|done].
  - intros [(s & [Hs|(-> & Hk & Hoc & Hn)] & Ho)|[Hn Hmt]]; [left; by exists s|right; split; [done|left; done]|right; tauto].
Qed.

Lemma filter_sublist {A} (P : A -> Prop) `{!forall x, Decision (P x)} (l k : list A) :
  l `sublist_of` k -> filter P l `sublist_of` filter P k.
Proof.
  induction 1 as [|x l k _ IH|x l k _ IH]; [done| |].
  - destruct (decide (P x)); [rewrite !filter_cons_True by done; by constructor|by rewrite !filter_cons_False].
  - destruct (decide (P x)); [rewrite filter_cons_True by done; by constructor|by rewrite filter_cons_False].
Qed.

Lemma identifier_inj strings s s' :
  NoDup (identifier <$> strings) -> In s strings -> In s' strings -> identifier s = identifier s' -> s = s'.
Proof.
  induction strings as [|x strings IH]; intros Hnd Hs Hs' E; [done|].
  cbn in Hnd. apply NoDup_cons in Hnd as [Hx Hnd].
  destruct Hs as [<-|Hs], Hs' as [<-|Hs']; [done| | |by apply IH].
  - exfalso. apply Hx. rewrite E. apply list_elem_of_fmap_2. by apply list_elem_of_In.
  - exfalso. apply Hx. rewrite <- E. apply list_elem_of_fmap_2. by apply list_elem_of_In.
Qed.

Section scan.
Context (d : list byte) (rule : YaraRule) (m : gmap string (list Z)) (found : YaraString -> Prop).
Context (Hm : forall s, In s (r_strings rule) -> matched m s = true <-> found s).

Lemma evaluate_condition_spec : evaluate_condition rule m = true <-> condition_met found rule.
Proof using Hm.
  unfold evaluate_condition, condition_met. destruct (r_condition rule).
  - rewrite forallb_forall. split; intros H s Hs; by apply Hm, H.
  - rewrite existsb_exists. split; intros (s & Hs & H); exists s; (split; [done|]); by apply Hm.
  - rewrite Z.leb_le. split.
    + intros H. exists (filter (fun s => matched m s = true) (r_strings rule)).
      split; [apply sublist_filter|]. split; [done|].
      apply Forall_forall. intros s [Hs Hin]%list_elem_of_filter. apply list_elem_of_In in Hin. by apply Hm.
    + intros (l & Hl & Hn & Hall). etrans; [exact Hn|]. apply inj_le.
      assert (Hf : filter (fun s => matched m s = true) l = l).
      { assert (Hin : forall s, In s l -> In s (r_strings rule)).
        { intros s Hs. apply list_elem_of_In. apply list_elem_of_In in Hs. by eapply elem_of_sublist. }
        clear Hl Hn. induction Hall as [|s l Hs Hall IH]; [done|].
        rewrite filter_cons_True by (by apply Hm; [apply Hin; left|]).
        f_equal. apply IH. intros s' Hs'. apply Hin. by right. }
      rewrite <- Hf at 1. by apply sublist_length, filter_sublist.
Qed.
End scan.

Lemma string_of_id_spec d strings k : name_found d strings k -> exists s, string_of_id strings k = Some s /\ first_named strings k s.
Proof.
  intros (t & Ht & Hk & _). unfold string_of_id. induction strings as [|x strings IH]; [done|]. cbn [find].
  destruct (String.eqb_spec (identifier x) k) as [E|E]; [exists x; split; [done|]; by exists [], strings|].
  destruct Ht as [->|Ht]; [done|]. destruct (IH Ht) as (s & -> & l1 & l2 & -> & Hs & Hl). exists s. split; [done|].
  exists (x :: l1), l2. split_and!; [done..|]. intros u [<-|Hu]; [done|by apply Hl].
Qed.

(** The matches reported for one name: the offsets of the last of its strings that occurs, each
    once and in order, with the length of the first string of the name. *)
Definition block_of (d : list byte) (rule : YaraRule) (k : string) (block : list YaraMatch) : Prop :=
  exists first source offs, first_named (r_strings rule) k first /\ last_found d (r_strings rule) k source /\
    StronglySorted Z.lt offs /\ (forall i, In i offs <-> found_in_data d source i) /\
    block = map (fun off => Match (r_name rule) k off (pat_len first)) offs.

(** What a scan reports for one rule: nothing, or a block for every name with an occurrence, when the
    condition holds of the strings whose names have one. *)
Definition rule_reported (d : list byte) (rule : YaraRule) (ms : list YaraMatch) : Prop :=
  let fires := condition_met (fun s => name_found d (r_strings rule) (identifier s)) rule in
  (~ fires /\ ms = []) \/
  (fires /\ exists names blocks, NoDup names /\ (forall k, In k names <-> name_found d (r_strings rule) k) /\
     Forall2 (block_of d rule) names blocks /\ ms = concat blocks).

Lemma rule_results_spec d rule walk :
  Forall (fun p => exists s, last_found d (r_strings rule) p.1 s /\ offsets_of d s p.2) walk ->
  exists blocks, rule_results rule walk = Val (concat blocks) /\ Forall2 (block_of d rule) (walk.*1) blocks.
Proof.
  induction 1 as [|[k offs] walk (s & Hs & Ho) Hwalk IH]; cbn [rule_results]; [by exists []|]. cbn [fst snd] in *.
  destruct (string_of_id_spec d _ k (last_found_name _ _ _ _ Hs)) as (first & -> & Hf). destruct IH as (blocks & -> & Hb). cbn [mem_bind].
  exists (map (fun off => Match (r_name rule) k off (pat_len first)) offs :: blocks). split; [done|]. constructor; [|done].
  exists first, s, offs. split_and!; [done|done| | |done].
  - destruct Ho as [_ Ho]. destruct (find_pattern_spec d s) as (o & E & Hso & _). rewrite Ho in E. by injection E as ->.
  - intros i. by apply offsets_of_found.
Qed.

(** The matches of a rule whose names are distinct. *)
Definition match_of (d : list byte) (rule : YaraRule) (x : YaraMatch) : Prop :=
  exists s off, In s (r_strings rule) /\ found_in_data d s off /\
    x = Match (r_name rule) (identifier s) off (pat_len s).

Lemma distinct_name_found d rule s : NoDup (identifier <$> r_strings rule) -> In s (r_strings rule) ->
  name_found d (r_strings rule) (identifier s) <-> occurs_somewhere d s.
Proof.
  intros Hnd Hs. split; [|intros Ho; by exists s]. intros (t & Ht & Hid & Ho). by rewrite <- (identifier_inj _ t s Hnd Ht Hs Hid).
Qed.

Lemma condition_met_ext (P Q : YaraString -> Prop) rule : (forall s, In s (r_strings rule) -> P s <-> Q s) -> condition_met P rule <-> condition_met Q rule.
Proof.
  intros H. unfold condition_met. destruct (r_condition rule).
  - split; intros Hc s Hs; by apply H, Hc.
  - split; intros (s & Hs & Hp); exists s; (split; [done|]); by apply H.
  - assert (Hsub : forall l, l `sublist_of` r_strings rule -> forall s, s ∈ l -> In s (r_strings rule)) by (intros l Hl s Hs; apply list_elem_of_In; by eapply elem_of_sublist).
    split; intros (l & Hl & Hn & Hp); exists l; (split; [done|]; split; [done|]); rewrite Forall_forall in *; intros s Hs; by apply H, Hp; [apply (Hsub l)|].
Qed.

Lemma reported_distinct d rule ms : NoDup (identifier <$> r_strings rule) -> rule_reported d rule ms ->
  forall x, In x ms <-> condition_met (occurs_somewhere d) rule /\ match_of d rule x.
Proof.
  intros Hnd Hr x. pose proof (condition_met_ext _ _ rule (fun s => distinct_name_found d rule s Hnd)) as Hc. unfold rule_reported in Hr. cbv zeta in Hr.
  destruct Hr as [[Hn ->]|[Hf (names & blocks & _ & Hnames & Hb & ->)]]; [split; [done|intros [H _]; by apply Hc in H]|].
  rewrite in_concat. split.
  - intros (block & Hin & Hx). split; [by apply Hc|]. apply list_elem_of_In, list_elem_of_lookup in Hin as [j Hj].
    destruct (Forall2_lookup_r _ _ _ _ _ Hb Hj) as (k & _ & first & source & offs & (a1 & a2 & Ea & Hka & _) & (b1 & b2 & Eb & Hkb & _) & _ & Ho & ->).
    apply in_map_iff in Hx as (off & <- & Hoff). apply Ho in Hoff. exists source, off.
    assert (Hs : In source (r_strings rule)) by (rewrite Eb; apply in_app_iff; right; by left).
    assert (Hs' : In first (r_strings rule)) by (rewrite Ea; apply in_app_iff; right; by left).
    rewrite (identifier_inj _ first source Hnd Hs' Hs) by congruence. by rewrite Hkb.
  - intros [_ (s & off & Hs & Hfound & ->)]. assert (Hk : In (identifier s) names) by (apply Hnames; exists s; split_and!; [done..|by exists off]).
    apply list_elem_of_In, list_elem_of_lookup in Hk as [j Hj]. destruct (Forall2_lookup_l _ _ _ _ _ Hb Hj) as (block & Hblock & Hbl).
    exists block. split; [apply list_elem_of_In; by eapply list_elem_of_lookup_2|].
    destruct Hbl as (first & source & offs & (a1 & a2 & Ea & Hka & _) & (b1 & b2 & Eb & Hkb & _) & _ & Ho & ->).
    assert (Hs1 : In source (r_strings rule)) by (rewrite Eb; apply in_app_iff; right; by left).
    assert (Hs2 : In first (r_strings rule)) by (rewrite Ea; apply in_app_iff; right; by left).
    rewrite (identifier_inj _ first s Hnd Hs2 Hs) by done. rewrite (identifier_inj _ source s Hnd Hs1 Hs) in Ho by done.
    apply in_map_iff. exists off. split; [done|]. by apply Ho.
Qed.

Section scans.
Context (order : gmap string (list Z) -> list (string * list Z)).
Context (Horder : forall m, order m ≡ₚ map_to_list m).

Lemma scan_rule_spec d rule :
  exists ms, scan_rule order (Some d) (Z.of_nat (length d)) rule = Val ms /\ rule_reported d rule ms.
Proof using Horder.
  unfold scan_rule, rule_reported. cbv zeta. destruct (collect_matches_spec d (r_strings rule) ∅) as (m & -> & Hm). cbn [mem_bind].
  assert (Hm' : forall k offs, m !! k = Some offs <-> exists s, last_found d (r_strings rule) k s /\ offsets_of d s offs).
  { intros k offs. rewrite Hm, lookup_empty. split; [by intros [|[_ ?]]|by left]. }
  assert (Hmatched : forall s, In s (r_strings rule) -> matched m s = true <-> name_found d (r_strings rule) (identifier s)).
  { intros s _. unfold matched. split.
    - destruct (m !! identifier s) as [[|i offs]|] eqn:E; [done| |done]. intros _. apply Hm' in E as (t & Ht & _). by apply last_found_name in Ht.
    - intros H. destruct (last_found_exists _ _ _ H) as [t Ht]. destruct (occurs_offsets d t) as [[offs Ho]|[_ Hno]].
      + rewrite (proj2 (Hm' (identifier s) offs)) by (by exists t). destruct offs; [by destruct Ho|done].
      + exfalso. destruct Ht as (l1 & l2 & _ & _ & Hocc & _). by apply Hno. }
  pose proof (evaluate_condition_spec rule m _ Hmatched) as Hc. destruct (evaluate_condition rule m).
  2: { exists []. split; [done|]. left. split; [|done]. intros Hf. by apply Hc in Hf. }
  assert (Hin : forall k offs, (k, offs) ∈ order m <-> m !! k = Some offs) by (intros k offs; rewrite Horder; apply elem_of_map_to_list).
  destruct (rule_results_spec d rule (order m)) as (blocks & E & Hb).
  { apply Forall_forall. intros [k offs] Hk. apply Hin, Hm' in Hk. exact Hk. }
  exists (concat blocks). split; [exact E|]. right. split; [by apply Hc|]. exists (order m).*1, blocks. split_and!; [|intros k|done|done].
  - rewrite Horder. apply NoDup_fst_map_to_list.
  - rewrite <- list_elem_of_In, list_elem_of_fmap. split.
    + intros ([k' offs] & -> & Hk). apply Hin, Hm' in Hk as (s & Hs & _). by apply last_found_name in Hs.
    + intros H. destruct (last_found_exists _ _ _ H) as [t Ht]. destruct (occurs_offsets d t) as [[offs Ho]|[_ Hno]].
      * exists (k, offs). split; [done|]. apply Hin, Hm'. by exists t.
      * exfalso. destruct Ht as (l1 & l2 & _ & _ & Hocc & _). by apply Hno.
Qed.

Lemma scan_buffer_spec d rules :
  exists per_rule, scan_buffer order (Some d) (Z.of_nat (length d)) rules = Val (concat per_rule) /\
    Forall2 (rule_reported d) rules per_rule.
Proof using Horder.
  induction rules as [|rule rules IH]; cbn [scan_buffer]; [by exists []|].
  destruct (scan_rule_spec d rule) as (here & -> & Hhere). destruct IH as (rest & -> & Hrest). cbn [mem_bind].
  exists (here :: rest). split; [done|]. by constructor.
Qed.
End scans.

(** ** Hex patterns read back *)

(** A byte of a hex pattern: a value or a wildcard. *)
Definition hex_char (v : Z) : Ascii.ascii := char_of (if v <? 10 then 48 + v else 55 + v).

Definition print_hex_byte (b : option byte) (rest : string) : string :=
  match b with
  | None => String.String (char_of 63) (String.String (char_of 63) (String.String (char_of 32) rest))
  | Some b =>
      String.String (hex_char (Z.shiftr (bval b) 4))
        (String.String (hex_char (Z.land (bval b) 15)) (String.String (char_of 32) rest))
  end.

Definition print_hex (l : list (option byte)) : string := foldr print_hex_byte EmptyString l.

Definition hex_entry (b : option byte) : byte * byte :=
  match b with None => (x00, x00) | Some b => (b, xff) end.

Lemma hex_loop_print b rest : hex_loop (print_hex_byte b rest) = cons (hex_entry b) <$> hex_loop rest.
Proof.
  destruct b as [b|]; [|done]. cbn [print_hex_byte].
  assert (Hc : forallb (fun b =>
            let c := hex_char (Z.shiftr (bval b) 4) in let c2 := hex_char (Z.land (bval b) 15) in
            negb ((char_value c =? 32) || (char_value c =? 123) || (char_value c =? 125)) &&
            negb (char_value c =? 63) && negb ((hex_val c <? 0) || (hex_val c2 <? 0)) &&
            bool_decide (byte_of (Z.lor (Z.shiftl (hex_val c) 4) (hex_val c2)) = b))
          (byte_of <$> seqZ 0 256) = true) by (vm_compute; reflexivity).
  rewrite forallb_forall in Hc. specialize (Hc b). cbv zeta in Hc.
  assert (Hin : In b (byte_of <$> seqZ 0 256)).
  { apply list_elem_of_In, list_elem_of_fmap. exists (bval b). rewrite byte_of_bval. split; [done|].
    apply elem_of_seqZ. pose proof (bval_range b). lia. }
  specialize (Hc Hin). apply andb_true_iff in Hc as [Hc Hb]. apply andb_true_iff in Hc as [Hc Hv].
  apply andb_true_iff in Hc as [Hs Hq]. apply negb_true_iff in Hs, Hq, Hv. apply bool_decide_eq_true in Hb.
  cbn [hex_loop]. rewrite Hs, Hq. cbv zeta. rewrite Hv, Hb. done.
Qed.

Lemma hex_loop_print_all l : hex_loop (print_hex l) = Some (hex_entry <$> l).
Proof. induction l as [|b l IH]; [done|]. cbn [print_hex foldr]. rewrite hex_loop_print. fold (print_hex l). by rewrite IH. Qed.

(** ** Properties *)

(** C19: [find_pattern] reads only inside the buffer and returns, in increasing order,
    exactly the positions where the pattern occurs, whichever search it takes: the
    Boyer-Moore-Horspool search, with its shift table and its folding of case,
    skips no occurrence and always ends, and a pattern with wildcards or under four
    bytes is compared at every position. *)
Theorem find_pattern_correct (d : list byte) (s : YaraString) :
  exists offs, find_pattern (Some d) (Z.of_nat (length d)) s = Val offs /\
    StronglySorted Z.lt offs /\
    (forall i, In i offs <->
       pattern s <> [] /\ 0 <= i /\
       forall j p, pattern s !! j = Some p ->
         exists b, d !! (Z.to_nat i + j)%nat = Some b /\
           (let m := bval (default xff (mask s !! j)) in
            if nocase s && negb (is_hex s) && (m =? 255) then lower_byte b = lower_byte p
            else Z.land (bval b) m = Z.land (bval p) m)).
Proof.
  destruct (find_pattern_spec d s) as (offs & E & Hs & Hin). exists offs. split; [exact E|]. split; [exact Hs|].
  intros i. rewrite Hin. unfold found_in_data, occurs_at.
  assert (Hb : forall j b p, byte_ok s j b p = true <->
     (let m := bval (default xff (mask s !! j)) in
      if nocase s && negb (is_hex s) && (m =? 255) then lower_byte b = lower_byte p
      else Z.land (bval b) m = Z.land (bval p) m)).
  { intros j b p. unfold byte_ok, mask_at. cbv zeta. set (m := bval _).
    destruct (nocase s), (is_hex s), (Z.eqb_spec m 255) as [Em|]; cbn [negb andb]; rewrite Z.eqb_eq; try done.
    rewrite Em. change 255 with (Z.ones 8). rewrite !Z.land_ones, !Z.mod_small by (first [lia|apply bval_range]).
    split; [apply (inj bval)|by intros ->]. }
  split; intros (Hne & Hi & H); (split; [done|]; split; [done|]); intros j p Hp; destruct (H j p Hp) as (b & Hd & Hok);
    exists b; (split; [done|]); by apply Hb.
Qed.

(** C22: a scan of any buffer by any rules reads in bounds and ends, and reports the rules one
    after the other.  A rule fires when all of its strings, when one, or when at least the
    counted number of them have a name that occurs, where a name occurs when some string of
    the rule that bears it does (nothing keeps the names of a rule distinct).  A rule that
    does not fire reports nothing; one that fires reports every name that occurs once, with
    the offsets of the last of its strings that occurs, all of them, rising and without
    repetition, and the length of the first string of that name.  So for rules whose string
    names are distinct a match is reported exactly for the occurrences of the strings of the
    rules whose condition the occurring strings meet. *)
Theorem scan_buffer_correct (order : gmap string (list Z) -> list (string * list Z))
    (Horder : forall m, order m ≡ₚ map_to_list m) (d : list byte) (rules : list YaraRule) :
  exists per_rule, scan_buffer order (Some d) (Z.of_nat (length d)) rules = Val (concat per_rule) /\
    Forall2 (fun rule ms =>
      let fires := condition_met (fun s => name_found d (r_strings rule) (identifier s)) rule in
      (~ fires /\ ms = []) \/
      (fires /\ exists names blocks, NoDup names /\ (forall k, In k names <-> name_found d (r_strings rule) k) /\
         Forall2 (fun k block => exists first source offs,
           first_named (r_strings rule) k first /\ last_found d (r_strings rule) k source /\
           StronglySorted Z.lt offs /\ (forall i, In i offs <-> found_in_data d source i) /\
           block = map (fun off => Match (r_name rule) k off (pat_len first)) offs) names blocks /\
         ms = concat blocks)) rules per_rule /\
    (Forall (fun rule => NoDup (identifier <$> r_strings rule)) rules ->
     forall x, In x (concat per_rule) <->
       exists rule s off, In rule rules /\ condition_met (occurs_somewhere d) rule /\ In s (r_strings rule) /\
         found_in_data d s off /\ x = Match (r_name rule) (identifier s) off (pat_len s)).
Proof.
  destruct (scan_buffer_spec order Horder d rules) as (per_rule & E & H). exists per_rule. split; [exact E|]. split; [exact H|].
  clear E. intros Hnd x. induction H as [|rule ms rules per_rule Hr _ IH]; cbn [concat].
  { split; [done|]. by intros (? & ? & ? & [] & _). }
  apply Forall_cons in Hnd as [Hn Hnd]. rewrite in_app_iff, (reported_distinct _ _ _ Hn Hr), (IH Hnd). split.
  - intros [[Hf (s & off & Hs)]|(r & s & off & Hr' & Hs)]; [exists rule, s, off; by split; [left|]|exists r, s, off; by split; [right|]].
  - intros (r & s & off & [<-|Hr'] & Hf & Hs); [left; split; [done|]; by exists s, off|right; by exists r, s, off].
Qed.

Definition sample_script : list byte :=
  bytes_of_string "powershell -windowstyle hidden -encodedcommand AAAA".

Lemma builtin_names_distinct : Forall (fun rule => NoDup (identifier <$> r_strings rule)) (load_builtin_rules []).
Proof. apply (bool_decide_eq_true_1 _). vm_compute. reflexivity. Qed.

Example sample_scan :
  scan_buffer map_to_list (Some sample_script) (Z.of_nat (length sample_script)) (load_builtin_rules []) =
  Val [Match "GCAD_Suspicious_PowerShell" "$enc_cmd" 31 15; Match "GCAD_Suspicious_PowerShell" "$hidden" 11 19].
Proof. vm_compute. reflexivity. Qed.

Lemma scan_buffer_correct_witness :
  exists rule s, In rule (load_builtin_rules []) /\ condition_met (occurs_somewhere sample_script) rule /\ In s (r_strings rule) /\
    found_in_data sample_script s 31.
Proof.
  destruct (scan_buffer_correct map_to_list (fun m => reflexivity _) sample_script (load_builtin_rules []))
    as (per_rule & E & _ & H).
  pose proof sample_scan as Es. rewrite E in Es. injection Es as Er.
  assert (Hr : In (Match "GCAD_Suspicious_PowerShell" "$enc_cmd" 31 15) (concat per_rule)) by (rewrite Er; by left).
  destruct (proj1 (H builtin_names_distinct _) Hr) as (rule & s & off & H1 & H2 & H3 & H4 & Em).
  apply (f_equal m_offset) in Em. cbn [m_offset] in Em. subst off. exists rule, s. by split_and!.
Defined.

(** a hex pattern reads back: printing bytes and wildcards in the notation of the
    rules and parsing gives each byte with a full mask and each wildcard with an empty
    one, and only the empty pattern is refused. *)
Theorem hex_pattern_roundtrip (l : list (option byte)) :
  parse_hex_pattern (print_hex l) =
  match l with
  | [] => None
  | _ => Some (default x00 <$> l, (fun b => match b with Some _ => xff | None => x00 end) <$> l)
  end.
Proof.
  unfold parse_hex_pattern. rewrite hex_loop_print_all. destruct l as [|b l]; [done|].
  cbn [fmap list_fmap]. f_equal. rewrite <- !list_fmap_compose. f_equal; f_equal; try (by destruct b);
    apply list_fmap_ext; by intros ? [].
Qed.

(** Two strings of one name: all of them are found when one is. *)
Example duplicate_names_confuse :
  scan_buffer map_to_list (Some [x41; x42]) 2
    [Rule "r" EmptyString [] [builtin_text "$a" "AB" false; builtin_text "$a" "XY" false] ALL_OF_THEM 1 HIGH] =
  Val [Match "r" "$a" 0 2].
Proof. vm_compute. reflexivity. Qed.

(** The lines of a rule file. *)
Definition text_of (lines : list string) : string := String.concat (String.String newline EmptyString) lines.

Definition quoted (s : string) : string := String.String (char_of 34) (s +:+ String.String (char_of 34) EmptyString).

(** A rule without strings leaks its level and its condition into the next one. *)
Example empty_rule_leaks :
  (fun r => (r_name r, r_condition r, r_threat_level r)) <$>
    (add_rule_from_string [] (text_of ["rule First {"; "  severity = CRITICAL"; "  condition: all of them"; "}";
       "rule Second {"; "  $a = " +:+ quoted "abcd"; "}"]%string)).1 =
  [("Second"%string, ALL_OF_THEM, CRITICAL)].
Proof. vm_compute. reflexivity. Qed.

(** A rule of the language. *)
Example parsed_rule :
  add_rule_from_string [] (text_of ["// sample"; "rule Demo : tag {"; " strings:"; "  $s = " +:+ quoted "Hi" +:+ " wide nocase";
      "  $h = { 4D ?? 90 }"; " condition:"; "  all of them"; "}"]%string) =
  ([Rule "Demo" EmptyString []
      [YString "$s" [x48; x00; x69; x00] [xff; xff; xff; xff] false true true false;
       YString "$h" [x4d; x00; x90] [xff; x00; xff] true false false true] ALL_OF_THEM 1 HIGH], true).
Proof. vm_compute. reflexivity. Qed.
