(* ===== verification/Md5.v ===== *)
(** * Md5: the MD5 context of the static analysis engine

    Models the class Md5Context of src/src/engines/pe_static_analysis_engine.cpp, with
    its buffer and its bit counter.  Lengths and indices are naturals: they are
    bounded by the length of a buffer in memory. *)
From S2P Require Import Prelude Sha2.

#[local] Open Scope word_scope.

Record md5_ctx := Md5 {
  state_ : list Z;
  count_ : Z;
  buffer_ : list byte;
}.

Definition md5_initial : list Z := [0x67452301; 0xefcdab89; 0x98badcfe; 0x10325476].

Definition md5_reset : md5_ctx := Md5 md5_initial 0 (replicate 64 x00).

(** ** The compression function *)

Definition F (x y z : Z) : Z := (x .& y) .| (u32 (Z.lnot x) .& z).
Definition G (x y z : Z) : Z := (x .& z) .| (y .& u32 (Z.lnot z)).
Definition H (x y z : Z) : Z := x .^ y .^ z.
Definition I (x y z : Z) : Z := y .^ (x .| u32 (Z.lnot z)).

Definition rotl (x n : Z) : Z := u32 (x <<< n) .| (x >>> (32 - n)).

(** [read_u32(block, i * 4)] *)
Definition block_word (block : list byte) (i : nat) : Z := le_val (take 4 (drop (i * 4) block)).

(** Index, shift and constant of the steps of each round; the code's arguments rotate
    through [a, d, c, b], which [md5_step] does with the registers. *)
Definition round1_steps : list (nat * Z * Z) :=
  [(0%nat, 7, 0xd76aa478); (1%nat, 12, 0xe8c7b756); (2%nat, 17, 0x242070db); (3%nat, 22, 0xc1bdceee);
   (4%nat, 7, 0xf57c0faf); (5%nat, 12, 0x4787c62a); (6%nat, 17, 0xa8304613); (7%nat, 22, 0xfd469501);
   (8%nat, 7, 0x698098d8); (9%nat, 12, 0x8b44f7af); (10%nat, 17, 0xffff5bb1); (11%nat, 22, 0x895cd7be);
   (12%nat, 7, 0x6b901122); (13%nat, 12, 0xfd987193); (14%nat, 17, 0xa679438e); (15%nat, 22, 0x49b40821)].

Definition round2_steps : list (nat * Z * Z) :=
  [(1%nat, 5, 0xf61e2562); (6%nat, 9, 0xc040b340); (11%nat, 14, 0x265e5a51); (0%nat, 20, 0xe9b6c7aa);
   (5%nat, 5, 0xd62f105d); (10%nat, 9, 0x02441453); (15%nat, 14, 0xd8a1e681); (4%nat, 20, 0xe7d3fbc8);
   (9%nat, 5, 0x21e1cde6); (14%nat, 9, 0xc33707d6); (3%nat, 14, 0xf4d50d87); (8%nat, 20, 0x455a14ed);
   (13%nat, 5, 0xa9e3e905); (2%nat, 9, 0xfcefa3f8); (7%nat, 14, 0x676f02d9); (12%nat, 20, 0x8d2a4c8a)].

Definition round3_steps : list (nat * Z * Z) :=
  [(5%nat, 4, 0xfffa3942); (8%nat, 11, 0x8771f681); (11%nat, 16, 0x6d9d6122); (14%nat, 23, 0xfde5380c);
   (1%nat, 4, 0xa4beea44); (4%nat, 11, 0x4bdecfa9); (7%nat, 16, 0xf6bb4b60); (10%nat, 23, 0xbebfbc70);
   (13%nat, 4, 0x289b7ec6); (0%nat, 11, 0xeaa127fa); (3%nat, 16, 0xd4ef3085); (6%nat, 23, 0x04881d05);
   (9%nat, 4, 0xd9d4d039); (12%nat, 11, 0xe6db99e5); (15%nat, 16, 0x1fa27cf8); (2%nat, 23, 0xc4ac5665)].

Definition round4_steps : list (nat * Z * Z) :=
  [(0%nat, 6, 0xf4292244); (7%nat, 10, 0x432aff97); (14%nat, 15, 0xab9423a7); (5%nat, 21, 0xfc93a039);
   (12%nat, 6, 0x655b59c3); (3%nat, 10, 0x8f0ccc92); (10%nat, 15, 0xffeff47d); (1%nat, 21, 0x85845dd1);
   (8%nat, 6, 0x6fa87e4f); (15%nat, 10, 0xfe2ce6e0); (6%nat, 15, 0xa3014314); (13%nat, 21, 0x4e0811a1);
   (4%nat, 6, 0xf7537e82); (11%nat, 10, 0xbd3af235); (2%nat, 15, 0x2ad7d2bb); (9%nat, 21, 0xeb86d391)].

Record regs := Regs { ra : Z; rb : Z; rc : Z; rd_ : Z }.

(** [a = b + rotl(a + f(b, c, d) + x[k] + t, s)]; the next step has [d] for [a]. *)
Definition md5_step (f : Z -> Z -> Z -> Z) (block : list byte) (r : regs) (step : nat * Z * Z) : regs :=
  let '(k, s, t) := step in
  let a := u32 (rb r + rotl (u32 (ra r + f (rb r) (rc r) (rd_ r) + block_word block k + t)) s) in
  Regs (rd_ r) a (rb r) (rc r).

Definition regs_of (state : list Z) : regs :=
  Regs (nth 0 state 0) (nth 1 state 0) (nth 2 state 0) (nth 3 state 0).

Definition md5_transform (state : list Z) (block : list byte) : list Z :=
  let r := regs_of state in
  let r := foldl (md5_step F block) r round1_steps in
  let r := foldl (md5_step G block) r round2_steps in
  let r := foldl (md5_step H block) r round3_steps in
  let r := foldl (md5_step I block) r round4_steps in
  let s := regs_of state in
  [u32 (ra s + ra r); u32 (rb s + rb r); u32 (rc s + rc r); u32 (rd_ s + rd_ r)].

(** ** The stream *)

(** [memcpy(&buf[index], input, ...)] *)
Definition copy_at (buf : list byte) (index : nat) (input : list byte) : list byte :=
  take index buf ++ input ++ drop (index + length input) buf.

(** [(count_ >> 3) & 0x3F] *)
Definition md5_index (count : Z) : nat := Z.to_nat ((count >>> 3) .& 63).

(** The loop over whole blocks from [i]. *)
Fixpoint md5_blocks (fuel : nat) (state : list Z) (input : list byte) (i : nat) : list Z * nat :=
  match fuel with
  | O => (state, i)
  | S fuel =>
      if Nat.ltb (i + 63) (length input)
      then md5_blocks fuel (md5_transform state (take 64 (drop i input))) input (i + 64)
      else (state, i)
  end.

Definition md5_update (c : md5_ctx) (input : list byte) : md5_ctx :=
  let index := md5_index (count_ c) in
  let count := u64 (count_ c + u64 (Z.of_nat (length input) <<< 3)) in
  let part_len := (64 - index)%nat in
  if Nat.leb part_len (length input) then
    let buf := copy_at (buffer_ c) index (take part_len input) in
    let '(state, i) := md5_blocks (length input) (md5_transform (state_ c) buf) input part_len in
    Md5 state count (if Nat.ltb i (length input) then copy_at buf 0 (drop i input) else buf)
  else
    Md5 (state_ c) count
      (if Nat.ltb 0 (length input) then copy_at (buffer_ c) index input else buffer_ c).

(** [static_cast<uint8_t>(w >> (8 * i))] for the first [n] indices. *)
Definition le_bytes (n : nat) (w : Z) : list byte := (fun i => byte_of (w >>> (8 * Z.of_nat i))) <$> seq 0 n.

Definition padding : list byte := x80 :: replicate 63 x00.

Definition md5_finalize (c : md5_ctx) : list byte :=
  let bits := le_bytes 8 (count_ c) in
  let index := md5_index (count_ c) in
  let pad_len := if Nat.ltb index 56 then (56 - index)%nat else (120 - index)%nat in
  let c := md5_update c (take pad_len padding) in
  let c := md5_update c bits in
  mjoin (le_bytes 4 <$> state_ c).

Definition md5_to_hex (digest : list byte) : string :=
  foldr (fun b s => String.String (hex_digit (bval b >>> 4 .& 15)) (String.String (hex_digit (bval b .& 15)) s))
    EmptyString digest.

(** [calculate_md5]; the data pointer is null only when it is absent. *)
Definition calculate_md5 (data : ptr) : string :=
  match data with
  | None => md5_to_hex (md5_finalize md5_reset)
  | Some d => md5_to_hex (md5_finalize (if Nat.ltb 0 (length d) then md5_update md5_reset d else md5_reset))
  end.

(** Test vectors of RFC 1321. *)
Example md5_empty : calculate_md5 (Some []) = "d41d8cd98f00b204e9800998ecf8427e"%string.
Proof. vm_compute. reflexivity. Qed.
Example md5_abc : calculate_md5 (Some [x61; x62; x63]) = "900150983cd24fb0d6963f7d28e17f72"%string.
Proof. vm_compute. reflexivity. Qed.

(** ** The hash of RFC 1321 *)

Fixpoint absorb (n : nat) (state : list Z) (m : list byte) : list Z :=
  match n with
  | O => state
  | S n => absorb n (md5_transform state (take 64 m)) (drop 64 m)
  end.

(** The message, a one bit, zeros up to 56 modulo 64, and the length in bits modulo
    2^64, in 64-byte blocks. *)
Definition md5_padded (m : list byte) : list byte :=
  m ++ [x80] ++ replicate (Z.to_nat ((55 - Z.of_nat (length m)) mod 64)) x00 ++
  le_bytes 8 (u64 (8 * Z.of_nat (length m))).

Definition md5_spec (m : list byte) : list byte :=
  mjoin (le_bytes 4 <$> absorb (length (md5_padded m) / 64) md5_initial (md5_padded m)).

(** ** The context after a message *)

Lemma absorb_app n k state (x y : list byte) :
  length x = (64 * n)%nat -> absorb (n + k) state (x ++ y) = absorb k (absorb n state x) y.
Proof.
  revert state x. induction n as [|n IH]; intros state x Hx; cbn [absorb Nat.add].
  - by apply nil_length_inv in Hx as ->.
  - rewrite take_app_le, drop_app_le by lia. apply IH. rewrite length_drop. lia.
Qed.

Lemma absorb_take n state (x : list byte) : absorb n state x = absorb n state (take (64 * n) x).
Proof.
  revert state x. induction n as [|n IH]; intros state x; [done|]. cbn [absorb].
  rewrite take_take, Nat.min_l by lia. rewrite IH. symmetry. rewrite IH. f_equal.
  rewrite skipn_firstn_comm, take_take. f_equal. lia.
Qed.

Lemma md5_blocks_absorb fuel state (input : list byte) i :
  (length input <= i + 64 * fuel)%nat -> (i <= length input)%nat ->
  md5_blocks fuel state input i =
  let n := ((length input - i) / 64)%nat in (absorb n state (drop i input), (i + 64 * n)%nat).
Proof.
  revert state i. induction fuel as [|fuel IH]; intros state i Hf Hi; cbn [md5_blocks]; cbv zeta.
  - replace (length input - i)%nat with 0%nat by lia. cbn. f_equal. lia.
  - destruct (Nat.ltb_spec (i + 63) (length input)) as [Hlt|Hge].
    + rewrite IH by lia. cbv zeta.
      assert (E : ((length input - i) / 64 = S ((length input - (i + 64)) / 64))%nat).
      { replace (length input - i)%nat with ((length input - (i + 64)) + 1 * 64)%nat by lia.
        rewrite Nat.div_add by lia. lia. }
      rewrite E. cbn [absorb]. rewrite drop_drop. f_equal. lia.
    + rewrite Nat.div_small by lia. cbn [absorb]. f_equal. lia.
Qed.

(** The context [c] has read [m]. *)
Record md5_has (m : list byte) (c : md5_ctx) : Prop := {
  mh_state : state_ c = absorb (length m / 64) md5_initial m;
  mh_count : count_ c = u64 (8 * Z.of_nat (length m));
  mh_buffer : take (length m mod 64) (buffer_ c) = drop (64 * (length m / 64)) m;
  mh_length : length (buffer_ c) = 64%nat;
}.

Lemma md5_index_count (m : list byte) : md5_index (u64 (8 * Z.of_nat (length m))) = (length m mod 64)%nat.
Proof.
  unfold md5_index. change 63 with (2 ^ 6 - 1). rewrite land_ones_mod by lia.
  rewrite Z.shiftr_div_pow2 by lia. unfold u64. change (2 ^ 3) with 8.
  apply Nat2Z.inj. rewrite Z2Nat.id by (apply Z.mod_pos_bound; lia). rewrite Nat2Z.inj_mod.
  change (2 ^ 64) with (8 * 2 ^ 61). rewrite Zmult_mod_distr_l, Z.mul_comm, Z.div_mul by lia.
  change (2 ^ 6) with 64. change (Z.of_nat 64) with 64.
  rewrite Z.mod_mod_divide; [done|]. exists (2 ^ 55). reflexivity.
Qed.

Lemma md5_count_add (m input : list byte) :
  u64 (u64 (8 * Z.of_nat (length m)) + u64 (Z.of_nat (length input) <<< 3)) =
  u64 (8 * Z.of_nat (length (m ++ input))).
Proof.
  unfold u64. rewrite Z.shiftl_mul_pow2 by lia. rewrite <- Zplus_mod, length_app. f_equal. lia.
Qed.

Lemma copy_at_length (buf : list byte) index input :
  length buf = 64%nat -> (index + length input <= 64)%nat -> length (copy_at buf index input) = 64%nat.
Proof. intros Hb Hi. unfold copy_at. rewrite !length_app, length_take, length_drop. lia. Qed.

Lemma take_copy_at (buf : list byte) index input :
  (index <= length buf)%nat -> take (index + length input) (copy_at buf index input) = take index buf ++ input.
Proof.
  intros Hi. unfold copy_at. rewrite app_assoc. apply take_app_length'. rewrite length_app, length_take. lia.
Qed.

Lemma md5_update_has m c input : md5_has m c -> md5_has (m ++ input) (md5_update c input).
Proof.
  intros [Hs Hc Hb Hl]. unfold md5_update. cbv zeta. rewrite Hc, md5_index_count, md5_count_add.
  set (q := (length m / 64)%nat) in *. set (r := (length m mod 64)%nat) in *.
  assert (Hm : (length m = 64 * q + r)%nat) by (apply Nat.div_mod; lia).
  assert (Hr : (r < 64)%nat) by (apply Nat.mod_upper_bound; lia).
  assert (Hsplit : m = take (64 * q) m ++ take r (buffer_ c)) by (rewrite Hb; symmetry; apply take_drop).
  assert (Hx : length (take (64 * q) m) = (64 * q)%nat) by (rewrite length_take; lia).
  assert (Hst : state_ c = absorb q md5_initial (take (64 * q) m)) by (rewrite Hs; apply absorb_take).
  destruct (Nat.leb_spec (64 - r) (length input)) as [Hge|Hlt].
  - set (part := (64 - r)%nat) in *. set (buf := copy_at (buffer_ c) r (take part input)).
    assert (Hbuf : buf = take r (buffer_ c) ++ take part input).
    { unfold buf, copy_at. rewrite length_take, Nat.min_l, (drop_ge (buffer_ c)), app_nil_r by lia. done. }
    rewrite md5_blocks_absorb by lia. cbv zeta. set (n := ((length input - part) / 64)%nat).
    pose proof (Nat.div_mod (length input - part) 64 ltac:(lia)) as Hdiv. fold n in Hdiv.
    pose proof (Nat.mod_upper_bound (length input - part) 64 ltac:(lia)) as Hmod.
    assert (Hlen : length (m ++ input) = (64 * (q + S n) + (length input - part) mod 64)%nat)
      by (rewrite length_app; lia).
    assert (Hq : (length (m ++ input) / 64 = q + S n)%nat)
      by (rewrite Hlen, Nat.mul_comm, Nat.div_add_l, Nat.div_small by lia; lia).
    assert (Hrr : (length (m ++ input) mod 64 = (length input - part) mod 64)%nat)
      by (rewrite Hlen, Nat.add_comm, Nat.mul_comm, Nat.Div0.mod_add, Nat.mod_small by lia; done).
    assert (Hall : m ++ input = take (64 * q) m ++ buf ++ drop part input).
    { rewrite Hsplit at 1. rewrite Hbuf, <- !app_assoc, take_drop. done. }
    assert (Hbl : length buf = 64%nat) by (rewrite Hbuf, length_app, !length_take; lia).
    split; cbn [state_ count_ buffer_].
    + rewrite Hq, Hall, (absorb_app q (S n)) by done. rewrite <- Hst. cbn [absorb].
      by rewrite take_app_length', drop_app_length'.
    + done.
    + rewrite Hrr, Hq, Hall. rewrite drop_app_ge by (rewrite Hx; lia). rewrite Hx.
      replace (64 * (q + S n) - 64 * q)%nat with (64 + 64 * n)%nat by lia.
      rewrite drop_app_ge, Hbl, drop_drop by (rewrite Hbl; lia).
      replace (part + (64 + 64 * n - 64))%nat with (part + 64 * n)%nat by lia.
      destruct (Nat.ltb_spec (part + 64 * n) (length input)) as [Hrest|Hnone].
      * set (rest := drop (part + 64 * n) input).
        assert (Hrl : length rest = ((length input - part) mod 64)%nat) by (unfold rest; rewrite length_drop; lia).
        rewrite <- Hrl. apply (take_copy_at buf 0 rest). lia.
      * rewrite drop_ge by lia. by replace ((length input - part) mod 64)%nat with 0%nat by lia.
    + destruct (Nat.ltb_spec (part + 64 * n) (length input)); [|done].
      apply copy_at_length; [done|]. rewrite length_drop. lia.
  - assert (Hlen : length (m ++ input) = (64 * q + (r + length input))%nat) by (rewrite length_app; lia).
    assert (Hq : (length (m ++ input) / 64 = q)%nat)
      by (rewrite Hlen, Nat.mul_comm, Nat.div_add_l, Nat.div_small by lia; lia).
    assert (Hrr : (length (m ++ input) mod 64 = r + length input)%nat)
      by (rewrite Hlen, Nat.add_comm, Nat.mul_comm, Nat.Div0.mod_add, Nat.mod_small by lia; done).
    assert (Ebuf : (if Nat.ltb 0 (length input) then copy_at (buffer_ c) r input else buffer_ c) =
                   copy_at (buffer_ c) r input).
    { destruct input; [|done]. unfold copy_at. cbn. by rewrite Nat.add_0_r, take_drop. }
    rewrite Ebuf. split; cbn [state_ count_ buffer_].
    + rewrite Hq, Hst. rewrite (absorb_take q _ (m ++ input)), take_app_le by lia. done.
    + done.
    + rewrite Hrr, Hq, take_copy_at by lia. rewrite drop_app_le by lia. by rewrite Hb.
    + apply copy_at_length; [done|lia].
Qed.

Lemma md5_reset_has : md5_has [] md5_reset.
Proof. split; done. Qed.

Lemma md5_updates_has chunks m c : md5_has m c -> md5_has (m ++ mjoin chunks) (foldl md5_update c chunks).
Proof.
  revert m c. induction chunks as [|x chunks IH]; intros m c Hc; cbn [foldl mjoin list_join].
  - by rewrite app_nil_r.
  - rewrite app_assoc. by apply IH, md5_update_has.
Qed.

Lemma md5_padding (m : list byte) :
  let index := (length m mod 64)%nat in
  take (if Nat.ltb index 56 then 56 - index else 120 - index) padding =
  x80 :: replicate (Z.to_nat ((55 - Z.of_nat (length m)) mod 64)) x00.
Proof.
  cbv zeta. pose proof (Nat.mod_upper_bound (length m) 64 ltac:(lia)) as Hr.
  assert (E : Z.to_nat ((55 - Z.of_nat (length m)) mod 64) =
    ((if Nat.ltb (length m mod 64) 56 then 56 - length m mod 64 else 120 - length m mod 64) - 1)%nat).
  { rewrite Zminus_mod. replace (Z.of_nat (length m) mod 64) with (Z.of_nat (length m mod 64)) by
      (rewrite Nat2Z.inj_mod; done).
    set (r := (length m mod 64)%nat) in *. change (55 mod 64) with 55.
    destruct (Nat.ltb_spec r 56).
    - rewrite Z.mod_small by lia. lia.
    - rewrite <- (Z.mod_unique (55 - Z.of_nat r) 64 (-1) (55 - Z.of_nat r + 64)); lia. }
  rewrite E. set (n := if Nat.ltb _ _ then _ else _).
  assert (Hn : (1 <= n <= 64)%nat) by (unfold n; destruct (Nat.ltb_spec (length m mod 64) 56); lia).
  destruct n as [|n]; [lia|]. unfold padding. rewrite firstn_cons, take_replicate. do 2 f_equal. lia.
Qed.

Lemma digest_bytes_length n w : length (le_bytes n w) = n.
Proof. unfold le_bytes. by rewrite length_fmap, length_seq. Qed.

Lemma md5_padded_length (m : list byte) : (length (md5_padded m) mod 64 = 0)%nat.
Proof.
  unfold md5_padded. rewrite !length_app, digest_bytes_length, length_replicate. cbn [length].
  apply Nat2Z.inj. rewrite Nat2Z.inj_mod. pose proof (Z.mod_pos_bound (55 - Z.of_nat (length m)) 64 ltac:(lia)).
  pose proof (Z.div_mod (55 - Z.of_nat (length m)) 64 ltac:(lia)) as Hdiv.
  apply Z.mod_divide; [done|]. exists (1 - (55 - Z.of_nat (length m)) / 64). lia.
Qed.

Lemma md5_finalize_spec m c : md5_has m c -> md5_finalize c = md5_spec m.
Proof.
  intros Hc. unfold md5_finalize. cbv zeta. rewrite (mh_count _ _ Hc), md5_index_count, md5_padding.
  pose proof (md5_update_has m c (x80 :: replicate (Z.to_nat ((55 - Z.of_nat (length m)) mod 64)) x00) Hc) as H1.
  pose proof (md5_update_has _ _ (le_bytes 8 (u64 (8 * Z.of_nat (length m)))) H1) as H2.
  rewrite <- app_assoc in H2. change (m ++ _) with (md5_padded m) in H2.
  by rewrite (mh_state _ _ H2).
Qed.

(** ** Properties *)

(** the context computes the MD5 of RFC 1321: however the input is cut into
    updates, [finalize] gives the padded message's hash, for messages of any length
    (the bit counter wraps at 2^64 as the standard says), and [calculate_md5] prints
    it for a whole buffer. *)
Theorem md5_stream_is_rfc1321 (chunks : list (list byte)) (d : list byte) :
  md5_finalize (foldl md5_update md5_reset chunks) = md5_spec (mjoin chunks) /\
  calculate_md5 (Some d) = md5_to_hex (md5_spec d) /\
  (length (md5_padded d) mod 64 = 0)%nat.
Proof.
  split; [|split; [|apply md5_padded_length]].
  - apply md5_finalize_spec. exact (md5_updates_has chunks [] _ md5_reset_has).
  - unfold calculate_md5. f_equal. destruct (Nat.ltb_spec 0 (length d)).
    + apply md5_finalize_spec. exact (md5_update_has [] _ d md5_reset_has).
    + destruct d; [|cbn in *; lia]. apply md5_finalize_spec, md5_reset_has.
Qed.
