(* ===== verification/PeStatic.v ===== *)
(** * PeStatic: the static analysis of executables

    Models src/src/engines/pe_static_analysis_engine.cpp without its MD5 context (see
    Md5.v) and its counters.  Buffers are read through the memory model of the prelude,
    the pointer and the size of a buffer agree, offsets are [size_t], and 32-bit sums
    wrap.  [std::log2] is an argument: the standard does not fix its rounding. *)
From S2P Require Import Prelude Float64 Asn1 Observation Policy PeHash Text Entropy Threat Md5.

#[local] Open Scope mem_scope.

(** ** Sections *)

Record PeSectionInfo := PeSec {
  sec_name : string;
  virtual_address : Z;
  virtual_size : Z;
  raw_data_offset : Z;
  raw_data_size : Z;
  characteristics : Z;
  sec_entropy : double;
  is_executable : bool;
  is_writable : bool;
  is_wx : bool;
}.

Definition read_u64 (data : ptr) (offset : Z) : mem Z :=
  let* lo := read_u32 data offset in
  let* hi := read_u32 data (offset + 4) in
  Val (Z.lor lo (Z.shiftl hi 32)).

Definition to_lower_ascii (s : string) : string := string_map tolower s.

Definition strip_dll_ext (dll_name : string) : string :=
  let s := to_lower_ascii dll_name in
  let n := String.length s in
  if Nat.ltb 4 n && String.eqb (str_drop (n - 4) s) ".dll" then String.substring 0 (n - 4) s else s.

(** The end of a section wraps at 32 bits, and so does the file offset. *)
Definition in_section (rva : Z) (sec : PeSectionInfo) : bool :=
  let sec_size := Z.max (virtual_size sec) (raw_data_size sec) in
  (virtual_address sec <=? rva) && (rva <? u32 (virtual_address sec + sec_size)).

Fixpoint rva_to_offset (rva : Z) (sections : list PeSectionInfo) : option Z :=
  match sections with
  | [] => None
  | sec :: rest =>
      if in_section rva sec then
        let diff := rva - virtual_address sec in
        if diff <? raw_data_size sec then Some (u32 (raw_data_offset sec + diff)) else rva_to_offset rva rest
      else rva_to_offset rva rest
  end.

(** [read_ascii_string]; [n] characters may still be appended. *)
Fixpoint read_ascii (data : ptr) (size offset : Z) (n : nat) : mem string :=
  match n with
  | O => Val EmptyString
  | S n =>
      if offset <? size then
        let* b := rd data offset in
        let v := bval b in
        if (v =? 0) || negb ((32 <=? v) && (v <=? 126)) then Val EmptyString
        else
          let* rest := read_ascii data size (offset + 1) n in
          Val (String.String (char_of_byte b) rest)
      else Val EmptyString
  end.

Definition read_ascii_string (data : ptr) (size offset : Z) : mem string := read_ascii data size offset 256.

#[global] Arguments read_ascii_string : simpl never.

(** A C string in a buffer of eight bytes. *)
Fixpoint c_string (l : list byte) : string :=
  match l with
  | [] => EmptyString
  | b :: l => if bval b =? 0 then EmptyString else String.String (char_of_byte b) (c_string l)
  end.

(** The packer a section name gives away. *)
Definition packer_of (lower_sec : string) : option string :=
  if find_sub "upx" lower_sec then Some "UPX"
  else if find_sub "aspack" lower_sec || find_sub ".adata" lower_sec then Some "ASPack"
  else if find_sub "themida" lower_sec then Some "Themida"
  else if find_sub "vmp" lower_sec then Some "VMProtect"
  else if find_sub "mpress" lower_sec then Some "Mpress"
  else if find_sub "enigma" lower_sec then Some "Enigma"
  else None.

(** ** Reports *)

Record PeAnalysisReport := Report {
  is_valid_pe : bool;
  is_64bit : bool;
  entry_point : Z;
  entry_point_section : string;
  entry_point_anomaly : bool;
  overall_entropy : double;
  is_packed : bool;
  detected_packer : string;
  sections : list PeSectionInfo;
  imported_dlls : list string;
  imported_functions : list string;
  dangerous_apis : list string;
  dangerous_api_score : Z;
  imphash : string;
  has_tls_callbacks : bool;
  tls_callback_count : Z;
  assessed_level : ThreatLevel;
  threat_reasons : list string;
}.

(** A report filled up to the magic number. *)
Definition header_report (valid : bool) (entropy : double) (is64 : bool) : PeAnalysisReport :=
  Report valid is64 0 EmptyString false entropy false EmptyString [] [] [] [] 0 EmptyString false 0 SAFE [].

(** What the section loop has found. *)
Record section_scan := Scan {
  sc_sections : list PeSectionInfo;
  sc_ep_section : string;
  sc_ep_found : bool;
  sc_ep_anomaly : bool;
  sc_packer : option string;
}.

(** What the import loops have found. *)
Record import_scan := Imports {
  im_dlls : list string;
  im_functions : list string;
  im_items : list string;
}.

(** ** The import table *)

(** One thunk: [None] ends the list; otherwise the ordinal flag and the number or the
    address of the name. *)
Definition read_thunk (data : ptr) (is64 : bool) (off : Z) : mem (option (bool * Z)) :=
  if is64 then
    let* val := read_u64 data off in
    Val (if val =? 0 then None
         else if negb (Z.land val 0x8000000000000000 =? 0) then Some (true, Z.land val 0xFFFF)
         else Some (false, Z.land val 0xFFFFFFFF))
  else
    let* val := read_u32 data off in
    Val (if val =? 0 then None
         else if negb (Z.land val 0x80000000 =? 0) then Some (true, Z.land val 0xFFFF)
         else Some (false, val)).

Definition function_name (data : ptr) (size : Z) (secs : list PeSectionInfo) (thunk : bool * Z) : mem string :=
  let '(is_ordinal, v) := thunk in
  if is_ordinal then Val ("ord" +:+ to_string v)
  else if negb (v =? 0) then
    match rva_to_offset v secs with
    | Some off => if fits size (off + 2) 2 then read_ascii_string data size (off + 2) else Val EmptyString
    | None => Val EmptyString
    end
  else Val EmptyString.

(** The loop over thunks from [curr]; out of fuel it is [OOB], so that a value shows
    that the fuel was enough. *)
Fixpoint thunk_loop (fuel : nat) (data : ptr) (size : Z) (is64 : bool) (secs : list PeSectionInfo)
    (mod_prefix : string) (curr : Z) (im : import_scan) : mem import_scan :=
  match fuel with
  | O => OOB
  | S fuel =>
      let step := if is64 then 8 else 4 in
      if fits size curr step then
        let* t := read_thunk data is64 curr in
        match t with
        | None => Val im
        | Some thunk =>
            let* func_name := function_name data size secs thunk in
            let im :=
              if empty_string func_name then im
              else Imports (im_dlls im) (im_functions im ++ [func_name])
                     (im_items im ++ [mod_prefix +:+ "." +:+ to_lower_ascii func_name]) in
            thunk_loop fuel data size is64 secs mod_prefix (curr + step) im
        end
      else Val im
  end.

(** The loop over import descriptors. *)
Fixpoint descriptor_loop (fuel : nat) (data : ptr) (size : Z) (is64 : bool) (secs : list PeSectionInfo)
    (desc_offset : Z) (im : import_scan) : mem import_scan :=
  match fuel with
  | O => OOB
  | S fuel =>
      if fits size desc_offset 20 then
        let* original_first_thunk := read_u32 data desc_offset in
        let* name_rva := read_u32 data (desc_offset + 12) in
        let* first_thunk := read_u32 data (desc_offset + 16) in
        if (name_rva =? 0) && (first_thunk =? 0) then Val im
        else
          let* dll_name :=
            match rva_to_offset name_rva secs with
            | Some off => read_ascii_string data size off
            | None => Val EmptyString
            end in
          let im := if empty_string dll_name then im
                    else Imports (im_dlls im ++ [dll_name]) (im_functions im) (im_items im) in
          let thunk_rva := if negb (original_first_thunk =? 0) then original_first_thunk else first_thunk in
          let* im :=
            match rva_to_offset thunk_rva secs with
            | Some off =>
                if empty_string dll_name then Val im
                else thunk_loop (Z.to_nat (size + 1)) data size is64 secs (strip_dll_ext dll_name) off im
            | None => Val im
            end in
          descriptor_loop fuel data size is64 secs (desc_offset + 20) im
      else Val im
  end.

Definition read_imports (data : ptr) (size : Z) (is64 : bool) (secs : list PeSectionInfo)
    (import_rva import_size : Z) : mem import_scan :=
  if negb (import_rva =? 0) && (0 <? import_size) then
    match rva_to_offset import_rva secs with
    | Some off =>
        if fits size off 20 then descriptor_loop (Z.to_nat (size + 1)) data size is64 secs off (Imports [] [] [])
        else Val (Imports [] [] [])
    | None => Val (Imports [] [] [])
    end
  else Val (Imports [] [] []).

(** The items joined by commas, hashed. *)
Definition imphash_of (items : list string) : string :=
  match items with
  | [] => EmptyString
  | _ => calculate_md5 (Some (bytes_of_string (String.concat "," items)))
  end.

Definition dangerous_list : list string :=
  ["virtualalloc"; "virtualallocex"; "virtualprotect"; "virtualprotectex";
   "writeprocessmemory"; "createremotethread"; "ntcreatethreadex";
   "queueuserapc"; "setthreadcontext"; "resumethread";
   "ntunmapviewofsection"; "zwunmapviewofsection";
   "minidumpwritedump"; "openprocesstoken"; "adjusttokenprivileges";
   "isdebuggerpresent"; "checkremotedebuggerpresent"; "ntqueryinformationprocess";
   "loadlibrarya"; "loadlibraryw"; "getprocaddress"; "ldrloaddll"]%string.

Definition dangerous (func : string) : bool := existsb (String.eqb (to_lower_ascii func)) dangerous_list.

Definition read_tls (size : Z) (is64 : bool) (secs : list PeSectionInfo) (tls_rva : Z) : bool :=
  if negb (tls_rva =? 0) then
    match rva_to_offset tls_rva secs with
    | Some off => fits size (off + (if is64 then 24 else 12)) (if is64 then 8 else 4)
    | None => false
    end
  else false.

(** ** Assessment *)

(** [std::fixed << std::setprecision(2)] of a finite, non-negative value: the exact
    value rounded to hundredths, ties to even. *)
Definition hundredths (x : double) : Z :=
  match x with
  | S754_finite _ m e =>
      if 0 <=? e then 100 * Z.pos m * 2 ^ e
      else
        let n := 100 * Z.pos m in
        let d := 2 ^ (- e) in
        let q := n / d in
        let r := 2 * (n mod d) in
        if (d <? r) || ((r =? d) && Z.odd q) then q + 1 else q
  | _ => 0
  end.

Definition fixed2 (x : double) : string :=
  let h := hundredths x in
  to_string (h / 100) +:+ "." +:+ to_string (h mod 100 / 10) +:+ to_string (h mod 10).

Definition wx_reason (sec : PeSectionInfo) : list string * Z :=
  if is_wx sec
  then (["Section '" +:+ sec_name sec +:+ "' is both Writable and Executable (W^X violation)"]%string, 40) else ([], 0).

(** The reasons with the points they add, in the order of the code. *)
Definition assessment (r : PeAnalysisReport) : list (list string * Z) :=
  (wx_reason <$> sections r) ++
  [(if is_packed r then (["Packer detected: " +:+ detected_packer r]%string, 35) else ([], 0));
   (if entry_point_anomaly r
    then (["Entry point anomaly: EP located in unusual section ('" +:+ entry_point_section r +:+ "')"]%string, 25)
    else ([], 0));
   (if dle (dlit 72 10) (overall_entropy r)
    then (["High overall Shannon entropy: " +:+ fixed2 (overall_entropy r)]%string, 20) else ([], 0));
   (if 30 <=? dangerous_api_score r
    then (["Dangerous injection/evasion API cluster detected (" +:+ to_string (Z.of_nat (length (dangerous_apis r))) +:+ " APIs)"]%string, 30)
    else if 10 <=? dangerous_api_score r then ([], 10) else ([], 0));
   (if has_tls_callbacks r && (is_packed r || dle (dlit 68 10) (overall_entropy r))
    then (["TLS callbacks detected with high-entropy/packed payload"]%string, 15) else ([], 0))].

(** [risk_score] is a [uint32_t]. *)
Definition risk_score (r : PeAnalysisReport) : Z := foldl (fun score p => u32 (score + p.2)) 0 (assessment r).

Definition pe_level (risk : Z) : ThreatLevel :=
  if 60 <=? risk then CRITICAL
  else if 35 <=? risk then HIGH
  else if 15 <=? risk then MEDIUM
  else if 0 <? risk then LOW
  else SAFE.

Definition assess_threat (r : PeAnalysisReport) : PeAnalysisReport :=
  Report (is_valid_pe r) (is_64bit r) (entry_point r) (entry_point_section r) (entry_point_anomaly r)
    (overall_entropy r) (is_packed r) (detected_packer r) (sections r) (imported_dlls r) (imported_functions r)
    (dangerous_apis r) (dangerous_api_score r) (imphash r) (has_tls_callbacks r) (tls_callback_count r)
    (pe_level (risk_score r)) (threat_reasons r ++ mjoin (fst <$> assessment r)).

(** ** The analysis *)

Section analysis.
Context (log2 : double -> double).

(** [calculate_entropy] of the bytes at a pointer that is not null. *)
Definition calculate_entropy (l : list byte) : double :=
  match l with
  | [] => dz 0
  | _ => foldl (entropy_step log2 (dz (Z.of_nat (length l)))) (dz 0) (frequencies l)
  end.

(** The body of the section loop. *)
Definition read_section (data : ptr) (size sec_offset : Z) : mem PeSectionInfo :=
  let* name := slice data sec_offset 8 in
  let* vsize := read_u32 data (sec_offset + 8) in
  let* vaddr := read_u32 data (sec_offset + 12) in
  let* raw_size := read_u32 data (sec_offset + 16) in
  let* raw_offset := read_u32 data (sec_offset + 20) in
  let* flags := read_u32 data (sec_offset + 36) in
  let executable := negb (Z.land flags 0x20000000 =? 0) in
  let writable := negb (Z.land flags 0x80000000 =? 0) in
  let* entropy :=
    if (0 <? raw_size) && fits size raw_offset raw_size then
      let* raw := slice data raw_offset raw_size in Val (calculate_entropy raw)
    else Val (dz 0) in
  Val (PeSec (c_string name) vaddr vsize raw_offset raw_size flags entropy executable writable (executable && writable)).

(** What one section adds to the scan; [last] is [i == num_sections - 1 && num_sections > 1]. *)
Definition scan_section (entry : Z) (last : bool) (sc : section_scan) (sec : PeSectionInfo) : section_scan :=
  let hit := in_section entry sec in
  Scan (sc_sections sc ++ [sec])
    (if hit then sec_name sec else sc_ep_section sc)
    (hit || sc_ep_found sc)
    ((hit && last) || sc_ep_anomaly sc)
    (match packer_of (to_lower_ascii (sec_name sec)) with Some p => Some p | None => sc_packer sc end).

(** Sections [i ..], [n] of them left. *)
Fixpoint section_loop (data : ptr) (size table num entry : Z) (n : nat) (i : Z) (sc : section_scan) : mem section_scan :=
  match n with
  | O => Val sc
  | S n =>
      let sec_offset := table + i * 40 in
      if negb (fits size sec_offset 40) then Val sc
      else
        let* sec := read_section data size sec_offset in
        section_loop data size table num entry n (i + 1)
          (scan_section entry ((i =? num - 1) && (1 <? num)) sc sec)
  end.

Definition generic_packer (entropy : double) (secs : list PeSectionInfo) : bool :=
  dle (dlit 72 10) entropy &&
  existsb (fun sec => (is_executable sec && dle (dlit 71 10) (sec_entropy sec)) || is_wx sec) secs.

(** From the magic number on. *)
Definition analyze_image (data : ptr) (size opt_header_offset opt_header_size num_sections : Z)
    (entropy : double) (is64 : bool) : mem PeAnalysisReport :=
  if negb (fits size (opt_header_offset + 16) 4) then Val (header_report true entropy is64)
  else
    let* entry := read_u32 data (opt_header_offset + 16) in
    let data_dir_offset := opt_header_offset + (if is64 then 112 else 96) in
    let* import_rva := if fits size (data_dir_offset + 8) 8 then read_u32 data (data_dir_offset + 8) else Val 0 in
    let* import_size := if fits size (data_dir_offset + 8) 8 then read_u32 data (data_dir_offset + 12) else Val 0 in
    let* tls_rva := if fits size (data_dir_offset + 72) 8 then read_u32 data (data_dir_offset + 72) else Val 0 in
    let* sc := section_loop data size (opt_header_offset + opt_header_size) num_sections entry
                 (Z.to_nat num_sections) 0 (Scan [] EmptyString false false None) in
    let secs := sc_sections sc in
    let anomaly := sc_ep_anomaly sc || (negb (sc_ep_found sc) && negb (entry =? 0)) in
    let packer :=
      match sc_packer sc with
      | Some p => Some p
      | None => if generic_packer entropy secs then Some "Generic High-Entropy Packer"%string else None
      end in
    let* im := read_imports data size is64 secs import_rva import_size in
    let apis := filter (fun f => dangerous f = true) (im_functions im) in
    let tls := read_tls size is64 secs tls_rva in
    Val (assess_threat
           (Report true is64 entry (sc_ep_section sc) anomaly entropy
              (match packer with Some _ => true | None => false end) (default EmptyString packer)
              secs (im_dlls im) (im_functions im) apis (u32 (10 * Z.of_nat (length apis)))
              (imphash_of (im_items im)) tls (if tls then 1 else 0) SAFE [])).

Definition analyze_buffer (data : ptr) (size : Z) : mem PeAnalysisReport :=
  if null data || (size <? 64) then Val (header_report false (dz 0) false)
  else
    let* m := rd data 0 in
    let* z := rd data 1 in
    if negb ((bval m =? 77) && (bval z =? 90)) then Val (header_report false (dz 0) false)
    else
      let* pe_offset := read_u32 data 0x3C in
      if negb (fits size pe_offset 4) then Val (header_report false (dz 0) false)
      else
        let* p0 := rd data pe_offset in
        let* p1 := rd data (u32 (pe_offset + 1)) in
        let* p2 := rd data (u32 (pe_offset + 2)) in
        let* p3 := rd data (u32 (pe_offset + 3)) in
        if negb ((bval p0 =? 80) && (bval p1 =? 69) && (bval p2 =? 0) && (bval p3 =? 0)) then Val (header_report false (dz 0) false)
        else
          let* all := slice data 0 size in
          let entropy := calculate_entropy all in
          let file_header_offset := u32 (pe_offset + 4) in
          if negb (fits size file_header_offset 20) then Val (header_report true entropy false)
          else
            let* num_sections := read_u16 data (file_header_offset + 2) in
            let* opt_header_size := read_u16 data (file_header_offset + 16) in
            let opt_header_offset := file_header_offset + 20 in
            if negb (fits size opt_header_offset opt_header_size) || (opt_header_size <? 2)
            then Val (header_report true entropy false)
            else
              let* magic := read_u16 data opt_header_offset in
              if magic =? 0x10B then
                analyze_image data size opt_header_offset opt_header_size num_sections entropy false
              else if magic =? 0x20B then
                analyze_image data size opt_header_offset opt_header_size num_sections entropy true
              else Val (header_report true entropy false).

(** [analyze_file]: [None] is a file that does not open; the event is reported when the
    engine runs. *)
Definition analyze_file (running : bool) (file : option (list byte)) : mem (PeAnalysisReport * bool) :=
  match file with
  | None => Val (header_report false (dz 0) false, false)
  | Some buffer =>
      let fsize := Z.of_nat (length buffer) in
      if (fsize <=? 0) || (100 * 1024 * 1024 <? fsize) then Val (header_report false (dz 0) false, false)
      else
        let* report := analyze_buffer (Some buffer) fsize in
        Val (report, (level_value HIGH <=? level_value (assessed_level report)) && running)
  end.
End analysis.

(** The event [emit_threat] reports; its id is the counter after the increment. *)
Definition pe_threat_event (id now : Z) (target : string) (report : PeAnalysisReport) : ThreatEvent :=
  Event id now (assessed_level report) (if is_packed report then ENTROPY_ANOMALY else SUSPICIOUS_BINARY) 0
    EmptyString target ("PE Static Analysis Threat: " +:+ String.concat "; " (threat_reasons report))
    EmptyString 0 false false.

(** ** Every read is in bounds, and every loop ends *)

Section pe_static_safe.
Context (d : list byte) (size : Z) (Hsize : size <= Z.of_nat (length d)).

Lemma rva_to_offset_nonneg rva secs off : rva_to_offset rva secs = Some off -> 0 <= off.
Proof.
  induction secs as [|sec secs IH]; cbn; [done|]. repeat case_match; try done.
  intros [= <-]. apply u32_range.
Qed.

Lemma read_u64_safe offset :
  0 <= offset -> offset + 8 <= size -> safe (read_u64 (Some d) offset) (fun _ => True).
Proof using Hsize. intros Ho Hs. unfold read_u64. safe_auto. done. Qed.

Lemma read_ascii_safe offset n : 0 <= offset -> safe (read_ascii (Some d) size offset n) (fun _ => True).
Proof using Hsize.
  revert offset. induction n as [|n IH]; intros offset Ho; cbn [read_ascii]; [done|].
  safe_if; [|done]. eapply safe_bind; [apply rd_safe; lia|]. intros b _. cbv zeta. safe_if; [done|].
  eapply safe_bind; [apply IH; lia|]. done.
Qed.

Lemma read_ascii_string_safe offset : 0 <= offset -> safe (read_ascii_string (Some d) size offset) (fun _ => True).
Proof using Hsize. apply read_ascii_safe. Qed.

Lemma function_name_safe secs thunk : safe (function_name (Some d) size secs thunk) (fun _ => True).
Proof using Hsize.
  destruct thunk as [is_ordinal v]. unfold function_name. destruct is_ordinal; [done|]. destruct (v =? 0); cbn [negb]; [done|].
  destruct (rva_to_offset v secs) as [off|] eqn:E; [|done]. apply rva_to_offset_nonneg in E.
  destruct (fits _ _ _); [apply read_ascii_string_safe; lia|done].
Qed.

Lemma read_thunk_safe (is64 : bool) off :
  0 <= off -> off + (if is64 then 8 else 4) <= size -> safe (read_thunk (Some d) is64 off) (fun _ => True).
Proof using Hsize.
  intros Ho Hs. unfold read_thunk. destruct is64.
  - eapply safe_bind; [by apply read_u64_safe|]. done.
  - eapply safe_bind; [apply (read_u32_safe d size); [done|lia..]|]. done.
Qed.

Lemma thunk_loop_safe fuel is64 secs mod_prefix curr im :
  0 <= curr -> size - curr < Z.of_nat fuel -> (0 < fuel)%nat ->
  safe (thunk_loop fuel (Some d) size is64 secs mod_prefix curr im) (fun _ => True).
Proof using Hsize.
  revert curr im. induction fuel as [|fuel IH]; intros curr im Hc Hf Hp; [lia|]. cbn [thunk_loop]. cbv zeta.
  destruct (fits size curr (if is64 then 8 else 4)) eqn:E; [|done]. apply fits_spec in E.
  eapply safe_bind; [apply read_thunk_safe; destruct is64; lia|]. intros [thunk|] _; [|done].
  eapply safe_bind; [apply function_name_safe|]. intros name _.
  apply IH; destruct is64; lia.
Qed.

Lemma descriptor_loop_safe fuel is64 secs desc im :
  0 <= desc -> size - desc < Z.of_nat fuel -> (0 < fuel)%nat ->
  safe (descriptor_loop fuel (Some d) size is64 secs desc im) (fun _ => True).
Proof using Hsize.
  revert desc im. induction fuel as [|fuel IH]; intros desc im Hc Hf Hp; [lia|]. cbn [descriptor_loop].
  destruct (fits size desc 20) eqn:E; [|done]. apply fits_spec in E.
  eapply safe_bind; [apply (read_u32_safe d size); [done|lia..]|]. intros original _.
  eapply safe_bind; [apply (read_u32_safe d size); [done|lia..]|]. intros name_rva _.
  eapply safe_bind; [apply (read_u32_safe d size); [done|lia..]|]. intros first _.
  destruct (_ && _); [done|].
  eapply (safe_bind _ _ (fun _ => True)).
  { destruct (rva_to_offset name_rva secs) as [off|] eqn:Er; [|done]. apply rva_to_offset_nonneg in Er.
    by apply read_ascii_string_safe. }
  intros dll _. cbv zeta. eapply (safe_bind _ _ (fun _ => True)).
  { destruct (rva_to_offset _ secs) as [off|] eqn:Er; [|done]. apply rva_to_offset_nonneg in Er.
    destruct (empty_string dll); [done|]. apply thunk_loop_safe; lia. }
  intros im' _. apply IH; lia.
Qed.

Lemma read_imports_safe is64 secs import_rva import_size :
  safe (read_imports (Some d) size is64 secs import_rva import_size) (fun _ => True).
Proof using Hsize.
  unfold read_imports. destruct (_ && _); [|done].
  destruct (rva_to_offset _ _) as [off|] eqn:E; [|done]. apply rva_to_offset_nonneg in E.
  destruct (fits _ _ _) eqn:Ef; [|done]. apply fits_spec in Ef. apply descriptor_loop_safe; lia.
Qed.

(** What holds of every section a scan returns. *)
Definition sec_ok (sec : PeSectionInfo) : Prop :=
  is_executable sec = negb (Z.land (characteristics sec) 0x20000000 =? 0) /\
  is_writable sec = negb (Z.land (characteristics sec) 0x80000000 =? 0) /\
  is_wx sec = is_executable sec && is_writable sec.

Lemma read_section_safe log2 off :
  0 <= off -> off + 40 <= size -> safe (read_section log2 (Some d) size off) sec_ok.
Proof using Hsize.
  intros Ho Hs. unfold read_section.
  eapply safe_bind; [apply slice_safe; lia|]. intros name _.
  eapply safe_bind; [apply (read_u32_safe d size); [done|lia..]|]. intros vsize _.
  eapply safe_bind; [apply (read_u32_safe d size); [done|lia..]|]. intros vaddr _.
  eapply safe_bind; [apply (read_u32_safe d size); [done|lia..]|]. intros raw_size Hrs. cbv beta in Hrs.
  eapply safe_bind; [apply (read_u32_safe d size); [done|lia..]|]. intros raw_off Hro. cbv beta in Hro.
  eapply safe_bind; [apply (read_u32_safe d size); [done|lia..]|]. intros flags _. cbv zeta.
  eapply (safe_bind _ _ (fun _ => True)); [|done].
  destruct (_ && _) eqn:E; [|done]. apply andb_true_iff in E as [_ E]. apply fits_spec in E.
  eapply safe_bind; [apply slice_safe; lia|]. done.
Qed.

Lemma section_loop_safe log2 table num entry n i sc :
  0 <= table -> 0 <= i -> Forall sec_ok (sc_sections sc) ->
  safe (section_loop log2 (Some d) size table num entry n i sc)
    (fun sc' => Forall sec_ok (sc_sections sc') /\ (length (sc_sections sc') <= length (sc_sections sc) + n)%nat).
Proof using Hsize.
  revert i sc. induction n as [|n IH]; intros i sc Ht Hi Hok; cbn [section_loop].
  - cbn. split; [done|lia].
  - cbv zeta. destruct (fits size (table + i * 40) 40) eqn:E; cbn [negb]; [|split; [done|lia]].
    apply fits_spec in E. eapply safe_bind; [apply read_section_safe; lia|]. intros sec Hsec. cbv beta in Hsec.
    eapply safe_mono; [apply IH; [done|lia|]|].
    + cbn. apply Forall_app. by split; [|constructor].
    + intros sc' [H1 H2]. split; [done|]. cbn in H2. rewrite length_app in H2. cbn in H2. lia.
Qed.
End pe_static_safe.

(** A report of a whole analysis. *)
Record report_ok (r : PeAnalysisReport) : Prop := {
  ro_valid : is_valid_pe r = true;
  ro_level : assessed_level r = pe_level (risk_score r);
  ro_reasons : threat_reasons r = mjoin (fst <$> assessment r);
  ro_sections : Forall sec_ok (sections r);
  ro_count : Z.of_nat (length (sections r)) < 65536;
  ro_apis : dangerous_apis r = filter (fun f => dangerous f = true) (imported_functions r);
  ro_api_score : dangerous_api_score r = u32 (10 * Z.of_nat (length (dangerous_apis r)));
}.

(** What an analysis returns: a report cut short at the headers, or a whole one. *)
Definition analysis_ok (r : PeAnalysisReport) : Prop :=
  (exists valid entropy is64, r = header_report valid entropy is64) \/ report_ok r.

Lemma header_report_ok valid entropy is64 : safe (Val (header_report valid entropy is64)) analysis_ok.
Proof. left. by eexists _, _, _. Qed.

Section pe_static_analysis.
Context (log2 : double -> double) (d : list byte) (size : Z) (Hsize : size <= Z.of_nat (length d)).

Lemma analyze_image_safe opt_off opt_size num entropy is64 :
  0 <= opt_off -> 0 <= opt_size -> 0 <= num < 65536 ->
  safe (analyze_image log2 (Some d) size opt_off opt_size num entropy is64) analysis_ok.
Proof using Hsize.
  intros Ho Hs Hn. unfold analyze_image. destruct (fits size (opt_off + 16) 4) eqn:E; cbn [negb]; [|apply header_report_ok].
  apply fits_spec in E. eapply safe_bind; [apply (read_u32_safe d size); [done|lia..]|]. intros entry _. cbv zeta.
  set (dir := opt_off + (if is64 then 112 else 96)).
  assert (Hdir : 0 <= dir) by (unfold dir; destruct is64; lia).
  eapply (safe_bind _ _ (fun _ => True)).
  { destruct (fits _ _ _) eqn:E1; [|done]. apply fits_spec in E1. eapply safe_mono; [apply (read_u32_safe d size); [done|lia..]|done]. }
  intros import_rva _. eapply (safe_bind _ _ (fun _ => True)).
  { destruct (fits size (dir + 8) 8) eqn:E1; [|done]. apply fits_spec in E1. eapply safe_mono; [apply (read_u32_safe d size); [done|lia..]|done]. }
  intros import_size _. eapply (safe_bind _ _ (fun _ => True)).
  { destruct (fits size (dir + 72) 8) eqn:E1; [|done]. apply fits_spec in E1. eapply safe_mono; [apply (read_u32_safe d size); [done|lia..]|done]. }
  intros tls_rva _. eapply safe_bind; [apply section_loop_safe; [done|lia|lia|constructor]|].
  intros sc [Hok Hlen]. cbn [sc_sections length] in Hlen. cbv zeta.
  eapply safe_bind; [by apply read_imports_safe|]. intros im _. right.
  split; try done. cbn. lia.
Qed.

Lemma analyze_buffer_safe : safe (analyze_buffer log2 (Some d) size) analysis_ok.
Proof using Hsize.
  unfold analyze_buffer. cbn [null orb]. destruct (Z.ltb_spec size 64) as [|H64]; [apply header_report_ok|].
  eapply safe_bind; [apply rd_safe; lia|]. intros m _. eapply safe_bind; [apply rd_safe; lia|]. intros z _.
  destruct (negb _); [apply header_report_ok|].
  eapply safe_bind; [apply (read_u32_safe d size); [done|lia..]|]. intros pe Hpe. cbv beta in Hpe.
  destruct (fits size pe 4) eqn:E; cbn [negb]; [|apply header_report_ok]. apply fits_spec in E.
  pose proof (u32_le (pe + 1) ltac:(lia)). pose proof (u32_le (pe + 2) ltac:(lia)). pose proof (u32_le (pe + 3) ltac:(lia)).
  pose proof (u32_le (pe + 4) ltac:(lia)).
  do 4 (eapply safe_bind; [apply rd_safe; lia|]; intros ? _).
  destruct (negb _); [apply header_report_ok|].
  eapply safe_bind; [apply slice_safe; lia|]. intros all _. cbv zeta.
  destruct (fits size (u32 (pe + 4)) 20) eqn:E2; cbn [negb]; [|apply header_report_ok]. apply fits_spec in E2.
  eapply safe_bind; [apply (read_u16_safe d size); [done|lia..]|]. intros num Hnum. cbv beta in Hnum.
  eapply safe_bind; [apply (read_u16_safe d size); [done|lia..]|]. intros opt Hopt. cbv beta in Hopt.
  destruct (negb (fits _ _ _) || _) eqn:E3; [apply header_report_ok|].
  apply orb_false_iff in E3 as [E3 E4]. apply negb_false_iff, fits_spec in E3. apply Z.ltb_ge in E4.
  eapply safe_bind; [apply (read_u16_safe d size); [done|lia..]|]. intros magic _.
  destruct (magic =? _); [apply analyze_image_safe; lia|].
  destruct (magic =? _); [apply analyze_image_safe; lia|apply header_report_ok].
Qed.
End pe_static_analysis.

(** ** Scores *)

Definition points (r : PeAnalysisReport) : Z :=
  40 * Z.of_nat (length (filter (fun sec => is_wx sec = true) (sections r))) +
  (if is_packed r then 35 else 0) + (if entry_point_anomaly r then 25 else 0) +
  (if dle (dlit 72 10) (overall_entropy r) then 20 else 0) +
  (if 30 <=? dangerous_api_score r then 30 else if 10 <=? dangerous_api_score r then 10 else 0) +
  (if has_tls_callbacks r && (is_packed r || dle (dlit 68 10) (overall_entropy r)) then 15 else 0).

Lemma u32_sum {A} (f : A -> Z) (l : list A) s :
  foldl (fun s x => u32 (s + f x)) (u32 s) l = u32 (s + foldr (fun x t => f x + t) 0 l).
Proof.
  revert s. induction l as [|x l IH]; intros s; cbn; [by rewrite Z.add_0_r|].
  assert (E : u32 (u32 s + f x) = u32 (s + f x)) by (unfold u32; by rewrite Zplus_mod_idemp_l).
  rewrite E, IH. f_equal. lia.
Qed.

Lemma wx_points secs :
  foldr (fun p t => snd p + t) 0 (wx_reason <$> secs) =
  40 * Z.of_nat (length (filter (fun sec => is_wx sec = true) secs)).
Proof.
  induction secs as [|sec secs IH]; [done|]. cbn [fmap list_fmap foldr]. rewrite IH. unfold wx_reason.
  destruct (is_wx sec) eqn:E.
  - rewrite filter_cons_True by done. cbn [snd length]. lia.
  - rewrite filter_cons_False by (by rewrite E). cbn [snd]. lia.
Qed.

Lemma risk_score_points r : Z.of_nat (length (sections r)) < 65536 -> risk_score r = points r.
Proof.
  intros Hn. unfold risk_score. change 0 with (u32 0) at 1. rewrite (u32_sum snd). rewrite Z.add_0_l.
  assert (E : foldr (fun p t => snd p + t) 0 (assessment r) = points r).
  { unfold assessment. rewrite foldr_app. unfold points. set (t := foldr _ 0 _).
    assert (Hacc : forall l a, foldr (fun (p : list string * Z) t => snd p + t) a l = foldr (fun p t => snd p + t) 0 l + a).
    { induction l as [|x l IH]; intros a; cbn; [done|]. rewrite IH. lia. }
    rewrite Hacc, wx_points. unfold t. cbn [foldr].
    destruct (is_packed r), (entry_point_anomaly r), (dle (dlit 72 10) (overall_entropy r)),
      (30 <=? dangerous_api_score r), (10 <=? dangerous_api_score r), (has_tls_callbacks r && _);
      cbn [snd]; lia. }
  rewrite E. apply u32_small. unfold points.
  assert (Hf : (length (filter (fun sec => is_wx sec = true) (sections r)) <= length (sections r))%nat)
    by apply length_filter.
  destruct (is_packed r), (entry_point_anomaly r), (dle (dlit 72 10) (overall_entropy r)),
    (30 <=? dangerous_api_score r), (10 <=? dangerous_api_score r), (has_tls_callbacks r && _); lia.
Qed.

(** No sign of the assessment is present. *)
Definition no_sign (r : PeAnalysisReport) : Prop :=
  Forall (fun sec => is_wx sec = false) (sections r) /\ is_packed r = false /\ entry_point_anomaly r = false /\
  dle (dlit 72 10) (overall_entropy r) = false /\ dangerous_api_score r < 10 /\
  (has_tls_callbacks r && dle (dlit 68 10) (overall_entropy r) = false).

Lemma pe_level_safe n : 0 <= n -> pe_level n = SAFE <-> n = 0.
Proof.
  intros Hn. unfold pe_level.
  destruct (Z.leb_spec 60 n), (Z.leb_spec 35 n), (Z.leb_spec 15 n), (Z.ltb_spec 0 n); split; try done; lia.
Qed.

Lemma wx_none secs :
  length (filter (fun sec => is_wx sec = true) secs) = 0%nat <-> Forall (fun sec => is_wx sec = false) secs.
Proof.
  split.
  - intros H%nil_length_inv. apply Forall_forall. intros sec Hin. destruct (is_wx sec) eqn:E; [|done].
    exfalso. assert (Hf : sec ∈ filter (fun sec => is_wx sec = true) secs) by by apply list_elem_of_filter.
    rewrite H in Hf. by apply elem_of_nil in Hf.
  - intros H. induction H as [|sec secs Hs _ IH]; [done|]. rewrite filter_cons_False by (by rewrite Hs). done.
Qed.

Lemma points_nonneg r : 0 <= points r.
Proof. unfold points. repeat case_match; lia. Qed.

Lemma points_zero r : points r = 0 <-> no_sign r.
Proof.
  unfold points, no_sign. rewrite <- wx_none.
  destruct (Z.leb_spec 30 (dangerous_api_score r)), (Z.leb_spec 10 (dangerous_api_score r)),
    (is_packed r), (entry_point_anomaly r), (dle (dlit 72 10) (overall_entropy r)), (has_tls_callbacks r),
    (dle (dlit 68 10) (overall_entropy r)); cbn [andb orb]; (split; [intros ?; split_and!; first [done|lia]|intros (?&?&?&?&?&?); first [done|lia]]).
Qed.

Lemma pe_level_mono m n : m <= n -> level_value (pe_level m) <= level_value (pe_level n).
Proof. intros H. unfold pe_level. repeat case_match; cbn; lia. Qed.

Lemma level_critical l : level_value CRITICAL <= level_value l -> l = CRITICAL.
Proof. destruct l; cbn; [lia..|done]. Qed.

Lemma wx_some secs i sec : secs !! i = Some sec -> is_wx sec = true ->
  (1 <= length (filter (fun sec => is_wx sec = true) secs))%nat.
Proof.
  intros Hi Hw. apply list_elem_of_lookup_2 in Hi.
  assert (Hf : sec ∈ filter (fun sec => is_wx sec = true) secs) by by apply list_elem_of_filter.
  destruct (filter _ secs); [by apply elem_of_nil in Hf|cbn; lia].
Qed.

Lemma wx_two secs i j s1 s2 : (i < j)%nat -> secs !! i = Some s1 -> secs !! j = Some s2 ->
  is_wx s1 = true -> is_wx s2 = true -> (2 <= length (filter (fun sec => is_wx sec = true) secs))%nat.
Proof.
  intros Hij H1 H2 W1 W2. rewrite <- (take_drop (S i) secs), filter_app, length_app.
  pose proof (wx_some (take (S i) secs) i s1 ltac:(by rewrite lookup_take_lt by lia) W1).
  pose proof (wx_some (drop (S i) secs) (j - S i) s2 ltac:(rewrite lookup_drop; by replace (S i + (j - S i))%nat with j by lia) W2).
  lia.
Qed.

(** The points a sign is worth at least. *)
Lemma points_from r : points r >= 40 * Z.of_nat (length (filter (fun sec => is_wx sec = true) (sections r))) +
  (if is_packed r then 35 else 0) + (if entry_point_anomaly r then 25 else 0) +
  (if dle (dlit 72 10) (overall_entropy r) then 20 else 0).
Proof. unfold points. repeat case_match; lia. Qed.

(** C17: [analyze_buffer] of any buffer with its own length returns: no read is out of
    bounds, no address computation wraps into one and the section, import and thunk loops
    end. It returns a report cut short at the headers, whose level is SAFE and whose lists
    are empty, or a whole one, whose level and reasons are those of [assess_threat], whose
    sections are well formed, and whose dangerous functions are those of its imports that
    the list names, ten points for each. *)
Theorem analyze_buffer_reports (log2 : double -> double) (d : list byte) :
  exists r, analyze_buffer log2 (Some d) (Z.of_nat (length d)) = Val r /\
    ((assessed_level r = SAFE /\ sections r = [] /\ imported_functions r = [] /\ threat_reasons r = []) \/ report_ok r).
Proof.
  pose proof (analyze_buffer_safe log2 d (Z.of_nat (length d)) ltac:(lia)) as H.
  destruct (analyze_buffer log2 (Some d) _) as [r|]; [|done]. exists r. split; [done|].
  destruct H as [(valid & entropy & is64 & ->)|H]; [by left|by right].
Qed.

(** The level of a whole report is decided by its points, and the [uint32_t] sum of
    the points does not wrap for any file: the report is SAFE exactly when no sign is
    present; one section both writable and executable makes it at least HIGH, two make it
    CRITICAL; a packed file is at least HIGH, and a packed file whose entropy is at least
    7.2 and whose entry point is anomalous is CRITICAL. *)
Theorem pe_level_by_signs (log2 : double -> double) (d : list byte) r
    (Hr : analyze_buffer log2 (Some d) (Z.of_nat (length d)) = Val r) (Hs : sections r <> []) :
  risk_score r = points r /\
  (assessed_level r = SAFE <-> no_sign r) /\
  (forall i sec, sections r !! i = Some sec -> is_wx sec = true -> level_value HIGH <= level_value (assessed_level r)) /\
  (forall i j s1 s2, i <> j -> sections r !! i = Some s1 -> sections r !! j = Some s2 ->
     is_wx s1 = true -> is_wx s2 = true -> assessed_level r = CRITICAL) /\
  (is_packed r = true -> level_value HIGH <= level_value (assessed_level r)) /\
  (is_packed r = true -> entry_point_anomaly r = true -> dle (dlit 72 10) (overall_entropy r) = true ->
     assessed_level r = CRITICAL).
Proof.
  pose proof (analyze_buffer_safe log2 d (Z.of_nat (length d)) ltac:(lia)) as H. rewrite Hr in H.
  destruct H as [(valid & entropy & is64 & ->)|[_ Hlevel _ _ Hcount _ _]]; [done|].
  pose proof (risk_score_points r Hcount) as Hp. rewrite Hlevel, Hp. pose proof (points_from r) as Hge.
  pose proof (points_nonneg r). split; [done|].
  assert (Hhigh : 35 <= points r -> level_value HIGH <= level_value (pe_level (points r)))
    by (intros; apply (pe_level_mono 35); lia).
  assert (Hcrit : 60 <= points r -> pe_level (points r) = CRITICAL)
    by (intros; apply level_critical, (pe_level_mono 60); lia).
  split; [by rewrite pe_level_safe, points_zero by done|].
  split; [intros i sec Hi Hw; apply Hhigh; pose proof (wx_some _ _ _ Hi Hw); repeat case_match; lia|].
  split.
  { intros i j s1 s2 Hij H1 H2 W1 W2. apply Hcrit.
    assert (2 <= length (filter (fun sec => is_wx sec = true) (sections r)))%nat.
    { destruct (Nat.lt_total i j) as [|[|]]; [|done|]; by eapply wx_two. }
    repeat case_match; lia. }
  split; [intros E; apply Hhigh; rewrite E in Hge; repeat case_match; lia|].
  intros E1 E2 E3. apply Hcrit. rewrite E1, E2, E3 in Hge. lia.
Qed.

(** A 32-bit image with one section, named after UPX, writable and executable. *)
Definition wx_image : list byte :=
  byte_of <$> ([77; 90] ++ replicate 58 0 ++ [64; 0; 0; 0] ++ [80; 69; 0; 0] ++ [0; 0; 1; 0] ++ replicate 12 0 ++ [20; 0; 0; 0] ++
   [0x0B; 1] ++ replicate 18 0 ++ [0x55; 0x50; 0x58; 0x30; 0; 0; 0; 0] ++ replicate 31 0 ++ [0xA0]).

Lemma pe_level_by_signs_witness :
  exists r, analyze_buffer (fun _ => dz 0) (Some wx_image) (Z.of_nat (length wx_image)) = Val r /\
    sections r <> [] /\ risk_score r = points r /\ assessed_level r = CRITICAL.
Proof.
  eexists. split; [vm_compute; reflexivity|]. split; [done|].
  match goal with |- risk_score ?r = _ /\ _ =>
    assert (Hr : analyze_buffer (fun _ => dz 0) (Some wx_image) (Z.of_nat (length wx_image)) = Val r) by (vm_compute; reflexivity);
    exact (conj (proj1 (pe_level_by_signs (fun _ => dz 0) wx_image r Hr ltac:(done))) eq_refl) end.
Defined.
