(* ===== verification/Firewall.v ===== *)
(** * Firewall: the rule list and the traffic statistics

    Models src/src/engines/firewall_engine.cpp and its header.  IPv4 addresses are 32-bit
    integers; the iteration order of the hash maps and the ties of [std::sort] are left
    open. *)
From S2P Require Import Prelude Float64 Asn1 Observation Text Threat.

#[local] Open Scope word_scope.

Inductive FirewallDirection := INBOUND | OUTBOUND.
Inductive FirewallAction := ALLOW | DENY.
Inductive FirewallProto := ANY | TCP | UDP | ICMP.

#[export] Instance FirewallDirection_eq_decision : EqDecision FirewallDirection.
Proof. solve_decision. Defined.
#[export] Instance FirewallAction_eq_decision : EqDecision FirewallAction.
Proof. solve_decision. Defined.
#[export] Instance FirewallProto_eq_decision : EqDecision FirewallProto.
Proof. solve_decision. Defined.

Record FirewallRule := FwRule {
  r_id : Z;
  r_label : string;
  r_direction : FirewallDirection;
  r_action : FirewallAction;
  r_protocol : FirewallProto;
  r_src_ip : Z;
  r_src_mask : Z;
  r_dst_ip : Z;
  r_dst_mask : Z;
  r_port_min : Z;
  r_port_max : Z;
  r_enabled : bool;
  r_priority : Z;
}.

Record ConnectionLog := Conn {
  cn_timestamp : Z;
  cn_src_ip : Z;
  cn_dst_ip : Z;
  cn_src_port : Z;
  cn_dst_port : Z;
  cn_direction : FirewallDirection;
  cn_action_taken : FirewallAction;
}.

Record SuspiciousTraffic := Suspicious {
  st_ip : Z;
  st_connection_count : Z;
  st_denied_count : Z;
  st_suspected_category : ThreatCategory;
  st_reason : string;
}.

Definition MAX_CONNECTION_LOG : Z := 10000.
Definition FLOOD_THRESHOLD : Z := 200.
Definition DENY_RATIO_THRESH : Z := 5.

Record FirewallEngine := Firewall {
  fw_rules : list FirewallRule;
  fw_next_rule_id : Z;
  fw_conn_log : list ConnectionLog;
  fw_events_processed : Z;
  fw_total_allowed : Z;
  fw_total_denied : Z;
}.

Definition new_firewall : FirewallEngine := Firewall [] 1 [] 0 0 0.

Definition set_rules (fw : FirewallEngine) (rules : list FirewallRule) (next : Z) : FirewallEngine :=
  Firewall rules next (fw_conn_log fw) (fw_events_processed fw) (fw_total_allowed fw) (fw_total_denied fw).

(** ** Rules *)

(** [std::stable_sort] by priority: a rule goes before those of its priority or a larger one
    that came after it. *)
Fixpoint insert_rule (r : FirewallRule) (rules : list FirewallRule) : list FirewallRule :=
  match rules with
  | [] => [r]
  | r' :: rest => if r_priority r <=? r_priority r' then r :: rules else r' :: insert_rule r rest
  end.

Definition stable_sort (rules : list FirewallRule) : list FirewallRule := foldr insert_rule [] rules.

Definition with_id (r : FirewallRule) (id : Z) : FirewallRule :=
  FwRule id (r_label r) (r_direction r) (r_action r) (r_protocol r) (r_src_ip r) (r_src_mask r) (r_dst_ip r)
    (r_dst_mask r) (r_port_min r) (r_port_max r) (r_enabled r) (r_priority r).

Definition with_enabled (r : FirewallRule) (enabled : bool) : FirewallRule :=
  FwRule (r_id r) (r_label r) (r_direction r) (r_action r) (r_protocol r) (r_src_ip r) (r_src_mask r) (r_dst_ip r)
    (r_dst_mask r) (r_port_min r) (r_port_max r) enabled (r_priority r).

(** [rules_.back().id], of a list that is not empty. *)
Definition back_id (rules : list FirewallRule) : Z := from_option r_id 0 (last rules).

Definition add_rule (fw : FirewallEngine) (rule : FirewallRule) : FirewallEngine * Z :=
  let rules := stable_sort (fw_rules fw ++ [with_id rule (fw_next_rule_id fw)]) in
  (set_rules fw rules (u32 (fw_next_rule_id fw + 1)), back_id rules).

Fixpoint remove_first (rule_id : Z) (rules : list FirewallRule) : option (list FirewallRule) :=
  match rules with
  | [] => None
  | r :: rest => if r_id r =? rule_id then Some rest else cons r <$> remove_first rule_id rest
  end.

Definition remove_rule (fw : FirewallEngine) (rule_id : Z) : FirewallEngine * bool :=
  match remove_first rule_id (fw_rules fw) with
  | None => (fw, false)
  | Some rules => (set_rules fw rules (fw_next_rule_id fw), true)
  end.

Fixpoint enable_first (rule_id : Z) (enabled : bool) (rules : list FirewallRule) : option (list FirewallRule) :=
  match rules with
  | [] => None
  | r :: rest =>
      if r_id r =? rule_id then Some (with_enabled r enabled :: rest) else cons r <$> enable_first rule_id enabled rest
  end.

Definition enable_rule (fw : FirewallEngine) (rule_id : Z) (enabled : bool) : FirewallEngine * bool :=
  match enable_first rule_id enabled (fw_rules fw) with
  | None => (fw, false)
  | Some rules => (set_rules fw rules (fw_next_rule_id fw), true)
  end.

(** The rules of [install_default_rules], in the order of the source. *)
Definition default_rule (id : Z) (label : string) (dir : FirewallDirection) (act : FirewallAction) (proto : FirewallProto)
    (pmin pmax prio : Z) : FirewallRule :=
  FwRule id label dir act proto 0 0 0 0 pmin pmax true prio.

Definition default_rules (id : Z) : list FirewallRule :=
  [default_rule id "Allow DNS out" OUTBOUND ALLOW UDP 53 53 10;
   default_rule (id + 1) "Allow HTTP out" OUTBOUND ALLOW TCP 80 80 10;
   default_rule (id + 2) "Allow HTTPS out" OUTBOUND ALLOW TCP 443 443 10;
   default_rule (id + 3) "Allow DHCP out" OUTBOUND ALLOW UDP 67 68 10;
   default_rule (id + 4) "Allow loopback in" INBOUND ALLOW ANY 0 65535 5;
   default_rule (id + 5) "Deny known bad ports in" INBOUND DENY TCP 4444 4444 20;
   default_rule (id + 6) "Deny Telnet in" INBOUND DENY TCP 23 23 20;
   default_rule (id + 7) "Deny RDP brute in" INBOUND DENY TCP 3389 3389 30].

Definition install_default_rules (fw : FirewallEngine) : FirewallEngine :=
  match fw_rules fw with
  | [] => set_rules fw (stable_sort (default_rules (fw_next_rule_id fw))) (u32 (fw_next_rule_id fw + 8))
  | _ => fw
  end.

(** ** Evaluation *)

Record Packet := Pkt {
  pk_dir : FirewallDirection;
  pk_proto : FirewallProto;
  pk_src_ip : Z;
  pk_dst_ip : Z;
  pk_src_port : Z;
  pk_dst_port : Z;
}.

(** No test of the loop skips the rule. *)
Definition applies (p : Packet) (r : FirewallRule) : bool :=
  r_enabled r && bool_decide (r_direction r = pk_dir p) &&
  (bool_decide (r_protocol r = ANY) || bool_decide (r_protocol r = pk_proto p)) &&
  negb (negb (r_src_ip r =? 0) && negb (pk_src_ip p .& r_src_mask r =? r_src_ip r .& r_src_mask r)) &&
  negb (negb (r_dst_ip r =? 0) && negb (pk_dst_ip p .& r_dst_mask r =? r_dst_ip r .& r_dst_mask r)) &&
  let check_port := match pk_dir p with INBOUND => pk_dst_port p | OUTBOUND => pk_src_port p end in
  negb ((negb (r_port_min r =? 0) || negb (r_port_max r =? 65535)) &&
        ((check_port <? r_port_min r) || (r_port_max r <? check_port))).

Definition count_action (fw : FirewallEngine) (a : FirewallAction) : FirewallEngine :=
  Firewall (fw_rules fw) (fw_next_rule_id fw) (fw_conn_log fw) (u64 (fw_events_processed fw + 1))
    (match a with ALLOW => u64 (fw_total_allowed fw + 1) | DENY => fw_total_allowed fw end)
    (match a with DENY => u64 (fw_total_denied fw + 1) | ALLOW => fw_total_denied fw end).

Fixpoint evaluate_rules (p : Packet) (rules : list FirewallRule) : FirewallAction :=
  match rules with
  | [] => ALLOW
  | r :: rules => if applies p r then r_action r else evaluate_rules p rules
  end.

Definition evaluate (fw : FirewallEngine) (p : Packet) : FirewallEngine * FirewallAction :=
  let a := evaluate_rules p (fw_rules fw) in (count_action fw a, a).

(** ** Connections *)

Definition log_connection (fw : FirewallEngine) (entry : ConnectionLog) : FirewallEngine :=
  let log := fw_conn_log fw ++ [entry] in
  Firewall (fw_rules fw) (fw_next_rule_id fw)
    (drop (length log - Z.to_nat MAX_CONNECTION_LOG) log)
    (fw_events_processed fw) (fw_total_allowed fw) (fw_total_denied fw).

Definition recent_connections (fw : FirewallEngine) (n : Z) : list ConnectionLog :=
  let count := Z.min n (Z.of_nat (length (fw_conn_log fw))) in
  drop (length (fw_conn_log fw) - Z.to_nat count) (fw_conn_log fw).

Definition remote_ip (c : ConnectionLog) : Z :=
  match cn_direction c with INBOUND => cn_src_ip c | OUTBOUND => cn_dst_ip c end.

Record IpStats := Stats { s_total : Z; s_denied : Z; s_ports : gset Z }.

Definition count_connection (stats : gmap Z IpStats) (c : ConnectionLog) : gmap Z IpStats :=
  let s := default (Stats 0 0 ∅) (stats !! remote_ip c) in
  <[remote_ip c := Stats (s_total s + 1) (s_denied s + match cn_action_taken c with DENY => 1 | ALLOW => 0 end)
                     ({[cn_dst_port c]} ∪ s_ports s)]> stats.

Definition ip_stats (log : list ConnectionLog) : gmap Z IpStats := foldl count_connection ∅ log.

(** The tests of the second loop; [None] is not suspicious. *)
Definition suspicious (entry : Z * IpStats) : option SuspiciousTraffic :=
  let '(ip, s) := entry in
  if FLOOD_THRESHOLD <=? s_total s then
    Some (Suspicious ip (s_total s) (s_denied s) SYN_FLOOD
            ("High connection volume (" +:+ print_int (s_total s) +:+ " connections)"))
  else if (DENY_RATIO_THRESH <=? s_denied s) && (s_total s <? s_denied s * 2) then
    Some (Suspicious ip (s_total s) (s_denied s) NETWORK_SCAN
            ("High deny ratio (" +:+ print_int (s_denied s) +:+ "/" +:+ print_int (s_total s) +:+ ")"))
  else if 20 <=? Z.of_nat (size (s_ports s)) then
    Some (Suspicious ip (s_total s) (s_denied s) NETWORK_SCAN
            ("Port scan detected (" +:+ print_int (Z.of_nat (size (s_ports s))) +:+ " unique ports)"))
  else None.

Definition suspicious_candidates (iteration : gmap Z IpStats -> list (Z * IpStats))
    (sort : list SuspiciousTraffic -> list SuspiciousTraffic) (fw : FirewallEngine) : list SuspiciousTraffic :=
  sort (omap suspicious (iteration (ip_stats (fw_conn_log fw)))).

(** The newest entries of the last five minutes, by address. *)
Fixpoint recent_counts (window_start : Z) (newest_first : list ConnectionLog) (counts : gmap Z Z) : gmap Z Z :=
  match newest_first with
  | [] => counts
  | c :: rest =>
      if cn_timestamp c <? window_start then counts
      else recent_counts window_start rest (<[remote_ip c := default 0 (counts !! remote_ip c) + 1]> counts)
  end.

Definition analyze_traffic (fw : FirewallEngine) (now : Z) : FirewallEngine :=
  let counts := recent_counts (now - 5 * 60 * 10 ^ 9) (rev (fw_conn_log fw)) ∅ in
  let flooded := Z.of_nat (size (filter (fun p => FLOOD_THRESHOLD <= p.2) counts)) in
  Firewall (fw_rules fw) (fw_next_rule_id fw) (fw_conn_log fw) (u64 (fw_events_processed fw + flooded))
    (fw_total_allowed fw) (fw_total_denied fw).

(** The pace of the monitor loop after a round. *)
Definition next_poll (st : Z * Z) (any_suspect : bool) : Z * Z :=
  let '(poll_ms, quiet_ticks) := st in
  if any_suspect then (5000, 0)
  else
    let quiet_ticks := quiet_ticks + 1 in
    (if (5 <=? quiet_ticks) && (poll_ms <? 30000) then Z.min (poll_ms * 2) 30000 else poll_ms, quiet_ticks).

(** ** Addresses *)

(** [std::from_chars] into a 32-bit unsigned integer: the value of the leading digits; [None]
    when there is none or it does not fit. *)
Definition from_chars_u32 (s : string) : option Z :=
  match read_digits s None with
  | Some v => if v <? 2 ^ 32 then Some v else None
  | None => None
  end.

(** The loop, from its position on: [sub] is the text since the last dot. *)
Fixpoint ipv4_loop (rest sub : string) (octets : list Z) : list Z + Z :=
  if Nat.leb 4 (length octets) then inl octets
  else
    match rest with
    | EmptyString =>
        match from_chars_u32 sub with
        | Some v => if 255 <? v then inr 0 else inl (octets ++ [v])
        | None => inr 0
        end
    | String.String c rest =>
        if char_value c =? 46 then
          match from_chars_u32 sub with
          | Some v => if 255 <? v then inr 0 else ipv4_loop rest EmptyString (octets ++ [v])
          | None => inr 0
          end
        else ipv4_loop rest (sub +:+ String.String c EmptyString) octets
    end.

Definition parse_ipv4 (s : string) : Z :=
  match ipv4_loop s EmptyString [] with
  | inr z => z
  | inl [a; b; c; d] => (a <<< 24) .| (b <<< 16) .| (c <<< 8) .| d
  | inl _ => 0
  end.

Definition octet (ip k : Z) : Z := (ip >>> k) .& 0xFF.

Definition ip_to_string (ip : Z) : string :=
  print_int (octet ip 24) +:+ ("." +:+ (print_int (octet ip 16) +:+ ("." +:+ (print_int (octet ip 8) +:+ ("." +:+ print_int (octet ip 0)))))).

Definition cidr_to_mask (prefix_len : Z) : Z :=
  if prefix_len =? 0 then 0
  else if 32 <=? prefix_len then 0xFFFFFFFF
  else u32 (Z.lnot ((1 <<< (32 - prefix_len)) - 1)).

(** ** The order of the rules *)

(** The rule that is looked at first: the smaller priority, and the older of equal ones. *)
Definition rule_lt (a b : FirewallRule) : Prop :=
  r_priority a < r_priority b \/ r_priority a = r_priority b /\ r_id a < r_id b.

(** Of equal priority, the first is the older. *)
Definition older (a b : FirewallRule) : Prop := r_priority a = r_priority b -> r_id a < r_id b.

Lemma insert_rule_perm r rules : insert_rule r rules ≡ₚ r :: rules.
Proof.
  induction rules as [|r' rules IH]; [done|]. cbn. destruct (_ <=? _); [done|]. rewrite IH. apply Permutation_swap.
Qed.

Lemma stable_sort_perm rules : stable_sort rules ≡ₚ rules.
Proof. induction rules as [|r rules IH]; [done|]. cbn. by rewrite insert_rule_perm, IH. Qed.

Lemma insert_rule_sorted r rules :
  StronglySorted rule_lt rules -> Forall (older r) rules -> StronglySorted rule_lt (insert_rule r rules).
Proof.
  induction 1 as [|r' rules Hs IH Hall]; intros Hr; cbn; [repeat constructor|].
  apply Forall_cons in Hr as [Hr' Hr]. destruct (Z.leb_spec (r_priority r) (r_priority r')) as [Hle|Hgt].
  - assert (Hlt : rule_lt r r') by (unfold rule_lt, older in *; lia).
    constructor; [by constructor|]. constructor; [done|].
    eapply Forall_impl; [exact Hall|]. unfold rule_lt in *. intros; lia.
  - constructor; [by apply IH|]. rewrite insert_rule_perm. constructor; [left; lia|done].
Qed.

Lemma stable_sort_sorted rules : StronglySorted older rules -> StronglySorted rule_lt (stable_sort rules).
Proof.
  induction 1 as [|r rules Hs IH Hall]; [constructor|]. cbn. apply insert_rule_sorted; [done|].
  by rewrite stable_sort_perm.
Qed.

Lemma sorted_older rules : StronglySorted rule_lt rules -> StronglySorted older rules.
Proof.
  induction 1 as [|r rules Hs IH Hall]; constructor; [done|]. eapply Forall_impl; [exact Hall|].
  unfold rule_lt, older. intros; lia.
Qed.

Lemma sorted_sublist {A} (R : A -> A -> Prop) l k : sublist k l -> StronglySorted R l -> StronglySorted R k.
Proof.
  induction 1 as [|x l k Hk IH|x l k Hk IH]; intros Hs; [done| |].
  - inversion Hs; subst. constructor; [by apply IH|]. rewrite Forall_forall in *. intros y Hy.
    match goal with H : forall z, z ∈ _ -> R x z |- _ => apply H end. by eapply elem_of_sublist.
  - inversion Hs; subst. by apply IH.
Qed.

Record fw_ok (fw : FirewallEngine) : Prop := {
  fo_sorted : StronglySorted rule_lt (fw_rules fw);
  fo_ids : Forall (fun r => 0 < r_id r < fw_next_rule_id fw) (fw_rules fw);
  fo_next : 0 < fw_next_rule_id fw;
  fo_nodup : NoDup (r_id <$> fw_rules fw);
  fo_log : Z.of_nat (length (fw_conn_log fw)) <= MAX_CONNECTION_LOG;
}.

Lemma add_rule_ok fw rule : fw_ok fw -> fw_next_rule_id fw + 1 < 2 ^ 32 -> fw_ok (add_rule fw rule).1.
Proof.
  intros [Hs Hi Hn Hd Hl] Hw. unfold add_rule. cbn [fst set_rules].
  assert (Hu : u32 (fw_next_rule_id fw + 1) = fw_next_rule_id fw + 1) by (apply u32_small; lia).
  split; cbn [fw_rules fw_next_rule_id fw_conn_log set_rules]; rewrite ?Hu; try done; [..|lia|].
  - apply stable_sort_sorted, sorted_snoc; [by apply sorted_older|].
    eapply Forall_impl; [exact Hi|]. unfold older. cbn. intros; lia.
  - rewrite stable_sort_perm. apply Forall_app. split; [|constructor; [cbn; lia|done]].
    eapply Forall_impl; [exact Hi|]. cbn. intros; lia.
  - rewrite stable_sort_perm, fmap_app. apply NoDup_app. split; [done|]. split; [|apply NoDup_singleton].
    intros id Hid Hnew. apply list_elem_of_singleton in Hnew. cbn in Hnew. subst id.
    apply list_elem_of_fmap in Hid as (r & E & Hr). rewrite Forall_forall in Hi. specialize (Hi r Hr). lia.
Qed.

Lemma remove_first_sublist id rules rules' : remove_first id rules = Some rules' -> sublist rules' rules.
Proof.
  revert rules'. induction rules as [|r rules IH]; intros rules' H; [done|]. cbn in H.
  destruct (r_id r =? id); [simplify_eq; by apply sublist_cons|].
  destruct (remove_first id rules) as [k|]; [|done]. cbn in H. simplify_eq. by apply sublist_skip, IH.
Qed.

Lemma enable_first_map id b rules rules' : enable_first id b rules = Some rules' ->
  Forall2 (fun r' r => r_id r' = r_id r /\ r_priority r' = r_priority r) rules' rules.
Proof.
  revert rules'. induction rules as [|r rules IH]; intros rules' H; [done|]. cbn in H.
  destruct (r_id r =? id).
  - simplify_eq. constructor; [done|]. apply Forall2_same_length_lookup_2; [done|]. intros i x y Hx Hy. by simplify_eq.
  - destruct (enable_first id b rules) as [k|]; [|done]. cbn in H. simplify_eq. constructor; [done|]. by apply IH.
Qed.

Lemma same_keys_sorted rules rules' :
  Forall2 (fun r' r => r_id r' = r_id r /\ r_priority r' = r_priority r) rules' rules ->
  StronglySorted rule_lt rules -> StronglySorted rule_lt rules'.
Proof.
  induction 1 as [|r' r rules' rules [E1 E2] H IH]; intros Hs; [constructor|]. inversion Hs as [|? ? Hs' Hall]; subst.
  constructor; [by apply IH|]. clear -E1 E2 H Hall. induction H as [|x' x rules' rules [F1 F2] _ IH]; [constructor|].
  apply Forall_cons in Hall as [Hx Hall]. constructor; [|by apply IH]. unfold rule_lt in *. lia.
Qed.

Lemma same_keys_ids (P : Z -> Prop) rules rules' :
  Forall2 (fun r' r => r_id r' = r_id r /\ r_priority r' = r_priority r) rules' rules ->
  Forall (fun r => P (r_id r)) rules -> Forall (fun r => P (r_id r)) rules'.
Proof.
  induction 1 as [|r' r rules' rules [E1 E2] H IH]; intros Ha; [constructor|].
  apply Forall_cons in Ha as [Hx Ha]. constructor; [by rewrite E1|by apply IH].
Qed.

Lemma same_keys_fmap rules rules' :
  Forall2 (fun r' r => r_id r' = r_id r /\ r_priority r' = r_priority r) rules' rules -> r_id <$> rules' = r_id <$> rules.
Proof. induction 1 as [|r' r rules' rules [E _] _ IH]; [done|]. cbn. by rewrite E, IH. Qed.

Lemma set_rules_ok fw rules : fw_ok fw -> StronglySorted rule_lt rules ->
  Forall (fun r => 0 < r_id r < fw_next_rule_id fw) rules -> NoDup (r_id <$> rules) -> fw_ok (set_rules fw rules (fw_next_rule_id fw)).
Proof. intros [] Hs Hi Hd. by split. Qed.

Lemma remove_rule_ok fw id : fw_ok fw -> fw_ok (remove_rule fw id).1.
Proof.
  intros Hok. unfold remove_rule. destruct (remove_first id _) as [rules|] eqn:E; [|done]. cbn [fst].
  apply remove_first_sublist in E. apply set_rules_ok; [done|..].
  - by eapply sorted_sublist, fo_sorted.
  - pose proof (fo_ids _ Hok) as Hi. rewrite Forall_forall in *. intros r Hr. by eapply Hi, elem_of_sublist.
  - eapply sublist_NoDup; [|by eapply fmap_sublist]. apply Hok.
Qed.

Lemma enable_rule_ok fw id b : fw_ok fw -> fw_ok (enable_rule fw id b).1.
Proof.
  intros Hok. unfold enable_rule. destruct (enable_first id b _) as [rules|] eqn:E; [|done]. cbn [fst].
  apply enable_first_map in E. apply set_rules_ok; [done|..].
  - by eapply same_keys_sorted, fo_sorted.
  - by eapply (same_keys_ids (fun z => 0 < z < fw_next_rule_id fw)), fo_ids.
  - rewrite (same_keys_fmap _ _ E). apply Hok.
Qed.

Lemma install_ok fw : fw_ok fw -> fw_next_rule_id fw + 8 < 2 ^ 32 -> fw_ok (install_default_rules fw).
Proof.
  intros [Hs Hi Hn Hd Hl] Hw. unfold install_default_rules. destruct (fw_rules fw) as [|r rules] eqn:E; [|by split; rewrite ?E].
  assert (Hu : u32 (fw_next_rule_id fw + 8) = fw_next_rule_id fw + 8) by (apply u32_small; lia).
  split; cbn [fw_rules fw_next_rule_id fw_conn_log set_rules]; rewrite ?Hu; [..|lia| |done].
  - apply stable_sort_sorted. unfold default_rules. repeat constructor; unfold older; cbn; lia.
  - rewrite stable_sort_perm. unfold default_rules. repeat constructor; cbn; lia.
  - rewrite stable_sort_perm.
    assert (Eids : r_id <$> default_rules (fw_next_rule_id fw) = Z.add (fw_next_rule_id fw) <$> [0; 1; 2; 3; 4; 5; 6; 7])
      by (cbn; by rewrite Z.add_0_r).
    rewrite Eids. apply NoDup_fmap_2; [intros x y; lia|]. by apply (bool_decide_eq_true_1 _).
Qed.

Lemma log_connection_ok fw c : fw_ok fw -> fw_ok (log_connection fw c).
Proof. intros []. split; cbn; try done. rewrite length_drop. unfold MAX_CONNECTION_LOG. lia. Qed.

(** ** Sequences of calls *)

Inductive fw_call :=
  | AddRule (r : FirewallRule)
  | RemoveRule (id : Z)
  | EnableRule (id : Z) (enabled : bool)
  | InstallDefaults
  | Evaluate (p : Packet)
  | LogConnection (c : ConnectionLog)
  | AnalyzeTraffic (now : Z).

Definition fw_do (fw : FirewallEngine) (c : fw_call) : FirewallEngine :=
  match c with
  | AddRule r => (add_rule fw r).1
  | RemoveRule id => (remove_rule fw id).1
  | EnableRule id b => (enable_rule fw id b).1
  | InstallDefaults => install_default_rules fw
  | Evaluate p => (evaluate fw p).1
  | LogConnection c => log_connection fw c
  | AnalyzeTraffic now => analyze_traffic fw now
  end.

Definition fw_run (calls : list fw_call) : FirewallEngine := foldl fw_do new_firewall calls.

Lemma fw_do_ok fw c : fw_ok fw -> fw_next_rule_id fw + 8 < 2 ^ 32 ->
  fw_ok (fw_do fw c) /\ fw_next_rule_id (fw_do fw c) <= fw_next_rule_id fw + 8.
Proof.
  intros Hok Hw. pose proof (fo_next _ Hok) as Hn. destruct c as [r|id|id b| |p|c|now]; cbn [fw_do].
  - split; [apply add_rule_ok; [done|lia]|]. cbn. rewrite u32_small by lia. lia.
  - split; [by apply remove_rule_ok|]. unfold remove_rule. destruct (remove_first _ _); cbn; lia.
  - split; [by apply enable_rule_ok|]. unfold enable_rule. destruct (enable_first _ _ _); cbn; lia.
  - split; [by apply install_ok|]. unfold install_default_rules. destruct (fw_rules fw); cbn; [rewrite u32_small by lia|]; lia.
  - split; [|cbn; lia]. destruct Hok. by split.
  - split; [by apply log_connection_ok|cbn; lia].
  - split; [|cbn; lia]. destruct Hok. by split.
Qed.

Lemma fw_run_ok calls : 1 + 8 * Z.of_nat (length calls) < 2 ^ 32 -> fw_ok (fw_run calls).
Proof.
  intros Hl. enough (fw_ok (fw_run calls) /\ fw_next_rule_id (fw_run calls) <= 1 + 8 * Z.of_nat (length calls)) by tauto.
  unfold fw_run. induction calls as [|c calls IH] using rev_ind.
  - split; [split; cbn; try done; constructor|done].
  - rewrite length_app in Hl. cbn [length] in Hl. rewrite foldl_app. cbn [foldl].
    destruct IH as [Hok Hn]; [lia|]. destruct (fw_do_ok _ c Hok ltac:(lia)) as [H1 H2].
    split; [done|]. rewrite length_app. cbn [length]. lia.
Qed.

(** The first rule that applies is the least of those that do. *)
Lemma evaluate_first p rules : StronglySorted rule_lt rules ->
  (exists r, In r rules /\ applies p r = true /\ evaluate_rules p rules = r_action r /\
     forall r', In r' rules -> applies p r' = true -> r' = r \/ rule_lt r r') \/
  (Forall (fun r => applies p r = false) rules /\ evaluate_rules p rules = ALLOW).
Proof.
  induction 1 as [|r rules Hs IH Hall]; [right; by split|]. cbn. destruct (applies p r) eqn:E.
  - left. exists r. split; [by left|]. split; [done|]. split; [done|]. intros r' [->|Hin] _; [by left|right].
    rewrite List.Forall_forall in Hall. by apply Hall.
  - destruct IH as [(r0 & Hin & Ha & He & Hmin)|[Hno He]]; [left|right].
    + exists r0. split; [by right|]. split; [done|]. split; [done|]. intros r' [->|Hin'] Ha'; [congruence|by apply Hmin].
    + split; [by constructor|done].
Qed.

(** ** Addresses as text *)

Lemma from_chars_print v : 0 <= v < 2 ^ 32 -> from_chars_u32 (print_int v) = Some v.
Proof.
  intros Hv. unfold from_chars_u32, print_int, to_string. rewrite (proj2 (Z.ltb_ge v 0)) by lia.
  destruct (pretty_head (Z.to_N v)) as (c & r & -> & _ & Hr). rewrite Hr, Z2N.id by lia.
  by rewrite (proj2 (Z.ltb_lt _ _)) by lia.
Qed.

Definition dot : Ascii.ascii := char_of 46.

Lemma ipv4_loop_skip s : forall rest sub octets, (length octets < 4)%nat -> has_char dot s = false ->
  ipv4_loop (s +:+ rest) sub octets = ipv4_loop rest (sub +:+ s) octets.
Proof.
  induction s as [|c s IH]; intros rest sub octets Ho Hs; [by rewrite string_app_nil|].
  cbn [has_char] in Hs. apply orb_false_iff in Hs as [Hc Hs]. apply bool_decide_eq_false in Hc.
  change (String.String c s +:+ rest) with (String.String c (s +:+ rest)). cbn [ipv4_loop].
  rewrite (proj2 (Nat.leb_gt 4 _)) by lia. rewrite (proj2 (Z.eqb_neq _ 46)).
  2: { intros E. apply Hc. rewrite <- (char_of_byte_of_char c). unfold dot. by destruct c as [[] [] [] [] [] [] [] []]. }
  rewrite IH by done. by rewrite string_app_cons.
Qed.

Lemma print_no_dot v : has_char dot (print_int v) = false.
Proof. by apply print_int_plain. Qed.

Lemma ipv4_loop_octet v rest octets : (length octets < 4)%nat -> 0 <= v < 256 ->
  ipv4_loop (print_int v +:+ String.String dot rest) EmptyString octets = ipv4_loop rest EmptyString (octets ++ [v]).
Proof.
  intros Ho Hv. rewrite ipv4_loop_skip by (done || apply print_no_dot). cbn [ipv4_loop].
  rewrite (proj2 (Nat.leb_gt 4 _)) by lia. change (char_value dot =? 46) with true.
  change (EmptyString +:+ print_int v) with (print_int v). rewrite from_chars_print by lia.
  by rewrite (proj2 (Z.ltb_ge 255 v)) by lia.
Qed.

Lemma ipv4_loop_last v octets : (length octets < 4)%nat -> 0 <= v < 256 ->
  ipv4_loop (print_int v) EmptyString octets = inl (octets ++ [v]).
Proof.
  intros Ho Hv. rewrite <- (string_app_nil (print_int v)), ipv4_loop_skip by (done || apply print_no_dot). cbn [ipv4_loop].
  rewrite (proj2 (Nat.leb_gt 4 _)) by lia. change (EmptyString +:+ print_int v) with (print_int v).
  rewrite from_chars_print by lia. by rewrite (proj2 (Z.ltb_ge 255 v)) by lia.
Qed.

(** The text of four octets. *)
Definition dotted (a b c d : Z) : string :=
  print_int a +:+ ("." +:+ (print_int b +:+ ("." +:+ (print_int c +:+ ("." +:+ print_int d))))).

Lemma parse_dotted a b c d : 0 <= a < 256 -> 0 <= b < 256 -> 0 <= c < 256 -> 0 <= d < 256 ->
  parse_ipv4 (dotted a b c d) = a * 2 ^ 24 + b * 2 ^ 16 + c * 2 ^ 8 + d.
Proof.
  intros Ha Hb Hc Hd. unfold parse_ipv4, dotted.
  change ("." +:+ print_int d) with (String.String dot (print_int d)).
  change ("." +:+ (print_int c +:+ ?x)) with (String.String dot (print_int c +:+ x)).
  change ("." +:+ (print_int b +:+ ?x)) with (String.String dot (print_int b +:+ x)).
  rewrite !ipv4_loop_octet by (cbn; lia). rewrite ipv4_loop_last by (cbn; lia). cbn [app].
  assert (Hor : forall x y k, 0 <= k -> 0 <= y < 2 ^ k -> Z.lor (Z.shiftl x k) y = x * 2 ^ k + y)
    by (intros x y k Hk Hy; rewrite Z.lor_comm, lor_shiftl_add by done; lia).
  replace (Z.shiftl b 16) with (Z.shiftl (Z.shiftl b 8) 8) by (by rewrite Z.shiftl_shiftl by lia).
  replace (Z.shiftl a 24) with (Z.shiftl (Z.shiftl (Z.shiftl a 8) 8) 8) by (by rewrite !Z.shiftl_shiftl by lia).
  rewrite <- !Z.shiftl_lor, !Hor by lia. lia.
Qed.

Lemma octet_range ip k : 0 <= octet ip k < 256.
Proof. unfold octet. change 0xFF with (2 ^ 8 - 1). rewrite land_ones_mod by lia. apply Z.mod_pos_bound. lia. Qed.

Lemma octet_div ip k : 0 <= k -> octet ip k = ip / 2 ^ k mod 256.
Proof. intros. unfold octet. change 0xFF with (2 ^ 8 - 1). by rewrite land_ones_mod, Z.shiftr_div_pow2 by lia. Qed.

Lemma octets_sum ip : 0 <= ip < 2 ^ 32 ->
  octet ip 24 * 2 ^ 24 + octet ip 16 * 2 ^ 16 + octet ip 8 * 2 ^ 8 + octet ip 0 = ip.
Proof. intros H. rewrite !octet_div by lia. Z.div_mod_to_equations. lia. Qed.

(** A mask of a prefix length compares the prefixes. *)
Lemma land_mask ip n : 0 <= n <= 32 -> 0 <= ip < 2 ^ 32 ->
  Z.land ip (cidr_to_mask n) = ip / 2 ^ (32 - n) * 2 ^ (32 - n).
Proof.
  intros Hn Hip. unfold cidr_to_mask. destruct (Z.eqb_spec n 0) as [->|H0].
  { rewrite Z.land_0_r, Z.div_small by lia. done. }
  destruct (Z.leb_spec 32 n).
  { replace n with 32 by lia. change 0xFFFFFFFF with (2 ^ 32 - 1). rewrite land_ones_mod, Z.mod_small by lia.
    change (2 ^ (32 - 32)) with 1. rewrite Z.div_1_r. lia. }
  rewrite <- Z.shiftr_div_pow2, <- Z.shiftl_mul_pow2 by lia. apply Z.bits_inj'. intros i Hi.
  rewrite Z.land_spec. unfold u32. rewrite Z.shiftl_1_l.
  replace (2 ^ (32 - n) - 1) with (Z.ones (32 - n)) by (rewrite Z.ones_equiv; lia).
  destruct (Z.lt_ge_cases i (32 - n)) as [Hlt|Hge].
  - rewrite Z.shiftl_spec_low by lia. rewrite Z.mod_pow2_bits_low, Z.lnot_spec, Z.ones_spec_low by lia. apply andb_false_r.
  - rewrite Z.shiftl_spec, Z.shiftr_spec by lia. replace (i - (32 - n) + (32 - n)) with i by lia.
    destruct (Z.lt_ge_cases i 32).
    + rewrite Z.mod_pow2_bits_low, Z.lnot_spec, Z.ones_spec_high by lia. apply andb_true_r.
    + rewrite Z.mod_pow2_bits_high by lia. rewrite andb_false_r, <- (Z.mod_small ip (2 ^ 32)) by done.
      by rewrite Z.mod_pow2_bits_high by lia.
Qed.

(** ** Statistics *)

Definition about (ip : Z) (c : ConnectionLog) : bool := remote_ip c =? ip.

(** The statistics of the connections of one address. *)
Definition stats_list (l : list ConnectionLog) : IpStats :=
  Stats (Z.of_nat (length l)) (Z.of_nat (length (List.filter (fun c => bool_decide (cn_action_taken c = DENY)) l)))
    (list_to_set (cn_dst_port <$> l)).

Definition stats_of (log : list ConnectionLog) (ip : Z) : option IpStats :=
  match List.filter (about ip) log with [] => None | l => Some (stats_list l) end.

Lemma stats_list_snoc l c :
  stats_list (l ++ [c]) =
  Stats (s_total (stats_list l) + 1) (s_denied (stats_list l) + match cn_action_taken c with DENY => 1 | ALLOW => 0 end)
    ({[cn_dst_port c]} ∪ s_ports (stats_list l)).
Proof.
  unfold stats_list. cbn [s_total s_denied s_ports]. rewrite List.filter_app, !length_app, fmap_app. f_equal.
  - cbn. lia.
  - rewrite Nat2Z.inj_add. f_equal. cbn. by destruct (cn_action_taken c).
  - rewrite list_to_set_app_L. cbn. rewrite union_empty_r_L. apply (comm_L _).
Qed.

Lemma stats_default log ip : default (Stats 0 0 ∅) (stats_of log ip) = stats_list (List.filter (about ip) log).
Proof. unfold stats_of. by destruct (List.filter (about ip) log). Qed.

Lemma stats_snoc log c :
  stats_of (log ++ [c]) (remote_ip c) = Some (stats_list (List.filter (about (remote_ip c)) log ++ [c])).
Proof.
  unfold stats_of. rewrite List.filter_app. cbn [List.filter]. unfold about at 2. rewrite Z.eqb_refl.
  by destruct (List.filter (about (remote_ip c)) log).
Qed.

Lemma ip_stats_spec log ip : ip_stats log !! ip = stats_of log ip.
Proof.
  induction log as [|c log IH] using rev_ind; [done|]. unfold ip_stats. rewrite foldl_app. cbn [foldl].
  fold (ip_stats log). unfold count_connection. destruct (decide (remote_ip c = ip)) as [<-|Hne].
  - rewrite lookup_insert_eq, IH, stats_default, stats_snoc. by rewrite stats_list_snoc.
  - rewrite lookup_insert_ne, IH by done. unfold stats_of. rewrite List.filter_app. cbn [List.filter].
    change (about ip c) with (remote_ip c =? ip). rewrite (proj2 (Z.eqb_neq _ _)) by done. by rewrite app_nil_r.
Qed.

(** What the tests report of an address with statistics. *)
Lemma suspicious_spec ip s :
  match suspicious (ip, s) with
  | Some t => st_ip t = ip /\ st_connection_count t = s_total s /\ st_denied_count t = s_denied s /\
      (200 <= s_total s \/ 5 <= s_denied s /\ s_total s < s_denied s * 2 \/ 20 <= Z.of_nat (size (s_ports s)))
  | None => ~ (200 <= s_total s \/ 5 <= s_denied s /\ s_total s < s_denied s * 2 \/ 20 <= Z.of_nat (size (s_ports s)))
  end.
Proof.
  unfold suspicious, FLOOD_THRESHOLD, DENY_RATIO_THRESH.
  destruct (Z.leb_spec 200 (s_total s)); [cbn; auto|].
  destruct (Z.leb_spec 5 (s_denied s)), (Z.ltb_spec (s_total s) (s_denied s * 2)); cbn [andb];
    [cbn; auto|..]; (destruct (Z.leb_spec 20 (Z.of_nat (size (s_ports s)))); [cbn; auto 6|lia]).
Qed.

Lemma omap_fst {A} (f : Z * A -> option SuspiciousTraffic) (l : list (Z * A)) :
  (forall p t, f p = Some t -> st_ip t = p.1) -> sublist (st_ip <$> omap f l) (l.*1).
Proof.
  intros Hf. induction l as [|p l IH]; [done|]. cbn. destruct (f p) as [t|] eqn:E; cbn.
  - rewrite (Hf _ _ E). by apply sublist_skip.
  - by apply sublist_cons.
Qed.

Lemma sorted_last {A} (R : A -> A -> Prop) l x : StronglySorted R l -> last l = Some x -> forall y, y ∈ l -> y = x \/ R y x.
Proof.
  induction 1 as [|a l Hs IH Hall]; [done|]. intros Hl y Hy. destruct l as [|b l].
  - cbn in Hl. simplify_eq. apply list_elem_of_singleton in Hy. by left.
  - change (last (b :: l) = Some x) in Hl. apply elem_of_cons in Hy as [->|Hy]; [|by apply IH].
    right. rewrite Forall_forall in Hall. apply Hall. by eapply last_Some_elem_of.
Qed.

Lemma fw_run_next calls : 1 + 8 * Z.of_nat (length calls) < 2 ^ 32 ->
  fw_next_rule_id (fw_run calls) <= 1 + 8 * Z.of_nat (length calls).
Proof.
  unfold fw_run. induction calls as [|c calls IH] using rev_ind; [done|]. rewrite length_app. cbn [length]. intros Hl.
  pose proof (fw_run_ok calls ltac:(lia)) as Hok. rewrite foldl_app. cbn [foldl].
  destruct (fw_do_ok _ c Hok) as [_ H]; [specialize (IH ltac:(lia)); unfold fw_run; lia|].
  unfold fw_run in H. specialize (IH ltac:(lia)). lia.
Qed.

Lemma print_octet_length v : 0 <= v < 256 -> (String.length (print_int v) <= 3)%nat.
Proof.
  intros Hv. assert (H : forallb (fun n => Nat.leb (String.length (print_int (Z.of_nat n))) 3) (seq 0 256) = true)
    by (vm_compute; reflexivity).
  rewrite forallb_forall in H. specialize (H (Z.to_nat v) ltac:(apply in_seq; lia)).
  apply Nat.leb_le in H. by rewrite Z2Nat.id in H by lia.
Qed.

(** ** Properties *)

(** the firewall decides by its best rule: after any sequence of calls short of
    2^29 the rules are in the order of priority and age, and a packet gets the action of
    the enabled rule that applies to it with the smallest priority, the oldest of equal
    ones, or ALLOW when none applies; deciding changes no rule, counts the packet once, and
    at most 10000 connections are logged. *)
Theorem firewall_first_match (calls : list fw_call) (p : Packet) (Hlen : 1 + 8 * Z.of_nat (length calls) < 2 ^ 32) :
  let fw := fw_run calls in
  let '(fw', a) := evaluate fw p in
  ((exists r, In r (fw_rules fw) /\ applies p r = true /\ a = r_action r /\
      forall r', In r' (fw_rules fw) -> applies p r' = true ->
        r' = r \/ r_priority r < r_priority r' \/ r_priority r = r_priority r' /\ r_id r < r_id r') \/
   (Forall (fun r => applies p r = false) (fw_rules fw) /\ a = ALLOW)) /\
  fw_rules fw' = fw_rules fw /\
  (fw_total_allowed fw', fw_total_denied fw') =
    match a with
    | ALLOW => (u64 (fw_total_allowed fw + 1), fw_total_denied fw)
    | DENY => (fw_total_allowed fw, u64 (fw_total_denied fw + 1))
    end /\
  NoDup (r_id <$> fw_rules fw) /\ Z.of_nat (length (fw_conn_log fw)) <= 10000.
Proof.
  cbv zeta. pose proof (fw_run_ok calls Hlen) as Hok. unfold evaluate.
  split; [exact (evaluate_first p _ (fo_sorted _ Hok))|]. split; [done|]. split; [by destruct (evaluate_rules _ _)|].
  split; [exact (fo_nodup _ Hok)|exact (fo_log _ Hok)].
Qed.

(** the rules a firewall starts with deny nothing: the rule labelled for the loopback
    has no address, applies to every inbound packet, and is looked at before every rule
    that denies; so every packet is allowed, telnet and port 4444 included. *)
Theorem default_rules_deny_nothing (p : Packet) :
  (evaluate (install_default_rules new_firewall) p).2 = ALLOW /\
  exists r, In r (fw_rules (install_default_rules new_firewall)) /\ r_action r = DENY /\ r_enabled r = true.
Proof.
  split; [|by exists (default_rule 7 "Deny Telnet in" INBOUND DENY TCP 23 23 20); vm_compute; auto 10].
  unfold evaluate, install_default_rules. cbn [fw_rules new_firewall snd set_rules].
  assert (E : stable_sort (default_rules 1) =
    [default_rule 5 "Allow loopback in" INBOUND ALLOW ANY 0 65535 5;
     default_rule 1 "Allow DNS out" OUTBOUND ALLOW UDP 53 53 10; default_rule 2 "Allow HTTP out" OUTBOUND ALLOW TCP 80 80 10;
     default_rule 3 "Allow HTTPS out" OUTBOUND ALLOW TCP 443 443 10; default_rule 4 "Allow DHCP out" OUTBOUND ALLOW UDP 67 68 10;
     default_rule 6 "Deny known bad ports in" INBOUND DENY TCP 4444 4444 20;
     default_rule 7 "Deny Telnet in" INBOUND DENY TCP 23 23 20; default_rule 8 "Deny RDP brute in" INBOUND DENY TCP 3389 3389 30])
    by (vm_compute; reflexivity).
  change (fw_next_rule_id new_firewall) with 1. rewrite E. clear E. destruct p as [[] proto sip dip sp dp]; [done|].
  cbn [evaluate_rules]. repeat (case_match; [done|]). done.
Qed.

(** the id [add_rule] returns is the one it gave only when no rule has a larger
    priority; otherwise it names the last rule, so that a caller that disables or removes
    what it added changes another rule. *)
Theorem add_rule_returns_last (calls : list fw_call) (rule : FirewallRule)
    (Hlen : 1 + 8 * Z.of_nat (length (calls ++ [AddRule rule])) < 2 ^ 32) :
  let fw := fw_run calls in
  let '(fw', id) := add_rule fw rule in
  fw_rules fw' ≡ₚ with_id rule (fw_next_rule_id fw) :: fw_rules fw /\
  Some id = r_id <$> last (fw_rules fw') /\
  (id = fw_next_rule_id fw <-> Forall (fun r => r_priority r <= r_priority rule) (fw_rules fw)).
Proof.
  cbv zeta. rewrite length_app in Hlen. cbn [length] in Hlen.
  pose proof (fw_run_ok calls ltac:(lia)) as Hok. pose proof (fw_run_next calls ltac:(lia)) as Hnext.
  set (fw := fw_run calls) in *. pose proof (add_rule_ok fw rule Hok ltac:(lia)) as Hok'. revert Hok'.
  unfold add_rule, back_id. cbn [fst fw_rules set_rules]. set (new := with_id rule (fw_next_rule_id fw)).
  set (rules := stable_sort (fw_rules fw ++ [new])). intros Hok'.
  assert (Hp : rules ≡ₚ new :: fw_rules fw) by (unfold rules; by rewrite stable_sort_perm, (comm (++))).
  split; [exact Hp|]. destruct (last rules) as [r|] eqn:El.
  2: { apply last_None in El. rewrite El in Hp. by apply Permutation_nil_cons in Hp. }
  split; [done|]. cbn [from_option].
  assert (Hlast : forall y, y ∈ rules -> y = r \/ rule_lt y r) by exact (sorted_last _ _ _ (fo_sorted _ Hok') El).
  assert (Hr : r = new \/ r ∈ fw_rules fw).
  { assert (H : r ∈ rules) by by eapply last_Some_elem_of. rewrite Hp in H. by apply elem_of_cons in H. }
  pose proof (fo_ids _ Hok) as Hi. rewrite Forall_forall in Hi. rewrite Forall_forall. split.
  - intros E r' Hr'. destruct Hr as [->|Hr]; [|specialize (Hi r Hr); lia].
    destruct (Hlast r') as [->|Hlt]; [rewrite Hp; by right|done|]. unfold rule_lt in Hlt. cbn in Hlt. lia.
  - intros Hall. destruct Hr as [->|Hr]; [done|]. specialize (Hi r Hr). specialize (Hall r Hr).
    destruct (Hlast new) as [<-|Hlt]; [rewrite Hp; by left|done|]. unfold rule_lt in Hlt. cbn in Hlt. lia.
Qed.

(** addresses: every address is read back from its text, of at most 15 characters; and
    the mask of a prefix length makes a rule apply exactly to the addresses with the
    prefix of its own. *)
Theorem ipv4_roundtrip (ip net n : Z) (Hip : 0 <= ip < 2 ^ 32) (Hnet : 0 <= net < 2 ^ 32) (Hn : 0 <= n <= 32) :
  parse_ipv4 (ip_to_string ip) = ip /\ (String.length (ip_to_string ip) <= 15)%nat /\
  (Z.land ip (cidr_to_mask n) = Z.land net (cidr_to_mask n) <-> ip / 2 ^ (32 - n) = net / 2 ^ (32 - n)).
Proof.
  split; [|split].
  - change (ip_to_string ip) with (dotted (octet ip 24) (octet ip 16) (octet ip 8) (octet ip 0)).
    rewrite parse_dotted by apply octet_range. by apply octets_sum.
  - unfold ip_to_string. rewrite !string_app_length.
    pose proof (fun k => print_octet_length _ (octet_range ip k)) as H.
    pose proof (H 24). pose proof (H 16). pose proof (H 8). pose proof (H 0). cbn [String.length]. lia.
  - rewrite !land_mask by done. assert (0 < 2 ^ (32 - n)) by lia. nia.
Qed.

(** what is suspicious: an address is reported exactly when the log has 200 connections
    or more of it, or at least five denied ones that are the majority, or 20 different
    destination ports; it is reported once, with its counts, and those with the most
    connections come first, in whatever order the map is iterated and ties are sorted. *)
Theorem suspicious_are_counted (iteration : gmap Z IpStats -> list (Z * IpStats))
    (sort : list SuspiciousTraffic -> list SuspiciousTraffic)
    (Hit : forall m, iteration m ≡ₚ map_to_list m) (Hperm : forall l, sort l ≡ₚ l)
    (Hsorted : forall l, Sorted (fun a b => st_connection_count b <= st_connection_count a) (sort l)) (fw : FirewallEngine) :
  let reported := suspicious_candidates iteration sort fw in
  NoDup (st_ip <$> reported) /\ Sorted (fun a b => st_connection_count b <= st_connection_count a) reported /\
  Forall (fun s => let l := List.filter (about (st_ip s)) (fw_conn_log fw) in
    st_connection_count s = Z.of_nat (length l) /\
    st_denied_count s = Z.of_nat (length (List.filter (fun c => bool_decide (cn_action_taken c = DENY)) l))) reported /\
  forall ip, ip ∈ st_ip <$> reported <->
    let l := List.filter (about ip) (fw_conn_log fw) in
    let denied := Z.of_nat (length (List.filter (fun c => bool_decide (cn_action_taken c = DENY)) l)) in
    200 <= Z.of_nat (length l) \/ 5 <= denied /\ Z.of_nat (length l) < denied * 2 \/
    20 <= Z.of_nat (size (list_to_set (cn_dst_port <$> l) : gset Z)).
Proof.
  cbv zeta. unfold suspicious_candidates. set (entries := iteration (ip_stats (fw_conn_log fw))).
  assert (Hin : forall ip s, (ip, s) ∈ entries <-> stats_of (fw_conn_log fw) ip = Some s).
  { intros ip s. unfold entries. by rewrite (Hit _), elem_of_map_to_list, ip_stats_spec. }
  assert (Hsub : sublist (st_ip <$> omap suspicious entries) (entries.*1)).
  { apply omap_fst. intros [ip s] t E. pose proof (suspicious_spec ip s) as H. rewrite E in H. by destruct H. }
  split; [|split; [apply Hsorted|split]].
  - rewrite (Hperm (omap suspicious entries)). eapply sublist_NoDup; [|exact Hsub].
    unfold entries. rewrite (Hit _). apply NoDup_fst_map_to_list.
  - rewrite (Hperm (omap suspicious entries)). apply Forall_forall. intros t Ht.
    apply list_elem_of_omap in Ht as ([ip s] & Hp & E). apply Hin in Hp.
    pose proof (suspicious_spec ip s) as H. rewrite E in H. destruct H as (-> & -> & -> & _).
    unfold stats_of in Hp. destruct (List.filter (about ip) (fw_conn_log fw)) eqn:El; [done|]. by injection Hp as <-.
  - intros ip. rewrite (Hperm (omap suspicious entries)). rewrite list_elem_of_fmap.
    setoid_rewrite list_elem_of_omap. set (l := List.filter (about ip) (fw_conn_log fw)).
    assert (Hl : stats_of (fw_conn_log fw) ip = match l with [] => None | _ => Some (stats_list l) end)
      by (unfold stats_of; fold l; by destruct l).
    split.
    + intros (t & -> & [ip' s] & Hp & E). apply Hin in Hp. pose proof (suspicious_spec ip' s) as H. rewrite E in H.
      destruct H as (Eip & _ & _ & H). subst ip'. rewrite Hl in Hp. destruct l; [done|]. by injection Hp as <-.
    + intros H. destruct l as [|c l'] eqn:El.
      { exfalso. cbn in H. rewrite size_empty in H. lia. }
      exists (default (Suspicious ip 0 0 NONE EmptyString) (suspicious (ip, stats_list (c :: l')))).
      pose proof (suspicious_spec ip (stats_list (c :: l'))) as Hs.
      destruct (suspicious (ip, stats_list (c :: l'))) as [t|] eqn:E; [|by exfalso; apply Hs].
      cbn [from_option id]. destruct Hs as (-> & _). split; [done|]. exists (ip, stats_list (c :: l')). split; [|done].
      by apply Hin.
Qed.

Definition sample_packet : Packet := Pkt INBOUND TCP 0x0A000001 0 1000 23.
Definition deny_telnet : FirewallRule := FwRule 0 "no telnet" INBOUND DENY TCP 0 0 0 0 23 23 true 1.

Lemma firewall_first_match_witness :
  (evaluate (fw_run [InstallDefaults; AddRule deny_telnet]) sample_packet).2 = DENY /\
  NoDup (r_id <$> fw_rules (fw_run [InstallDefaults; AddRule deny_telnet])).
Proof.
  split; [vm_compute; reflexivity|].
  pose proof (firewall_first_match [InstallDefaults; AddRule deny_telnet] sample_packet eq_refl) as H. cbv zeta in H.
  destruct (evaluate (fw_run [InstallDefaults; AddRule deny_telnet]) sample_packet) as [fw' a]. exact (proj1 (proj2 (proj2 (proj2 H)))).
Defined.

Lemma add_rule_returns_last_witness :
  (add_rule (fw_run [InstallDefaults]) deny_telnet).2 = 8 /\ (add_rule (fw_run [InstallDefaults]) deny_telnet).2 <> 9.
Proof.
  assert (E : (add_rule (fw_run [InstallDefaults]) deny_telnet).2 = 8) by (vm_compute; reflexivity).
  split; [exact E|].
  pose proof (add_rule_returns_last [InstallDefaults] deny_telnet eq_refl) as H.
  assert (Hf : ~ Forall (fun r => r_priority r <= r_priority deny_telnet) (fw_rules (fw_run [InstallDefaults]))).
  { apply (bool_decide_eq_false_1 _). vm_compute. reflexivity. }
  assert (Hn : fw_next_rule_id (fw_run [InstallDefaults]) = 9) by (vm_compute; reflexivity).
  cbv zeta in H. destruct (add_rule (fw_run [InstallDefaults]) deny_telnet) as [fw' id]. destruct H as (_ & _ & H). cbn [snd] in *. rewrite Hn in H.
  intros E'. exact (Hf (proj1 H E')).
Defined.

Lemma ipv4_roundtrip_witness :
  ip_to_string 0xC0A80102 = "192.168.1.2"%string /\ parse_ipv4 (ip_to_string 0xC0A80102) = 0xC0A80102.
Proof.
  split; [vm_compute; reflexivity|].
  assert (H1 : 0 <= 0xC0A80102 < 2 ^ 32) by (split; [discriminate|reflexivity]).
  assert (H2 : 0 <= 24 <= 32) by (split; discriminate).
  exact (proj1 (ipv4_roundtrip 0xC0A80102 0xC0A80102 24 H1 H1 H2)).
Defined.

(** What is no address is read as one all the same. *)
Example lenient_addresses :
  parse_ipv4 "1.2.3.4.5.6" = 0x01020304 /\ parse_ipv4 "1x.2y.3z.4" = 0x01020304 /\ parse_ipv4 "1.2.3" = 0 /\
  parse_ipv4 "1.2.3.256" = 0 /\ parse_ipv4 EmptyString = 0.
Proof. vm_compute. split_and!; reflexivity. Qed.

#[local] Instance more_connections_dec : RelDecision (fun a b => st_connection_count b <= st_connection_count a).
Proof. intros a b. apply _. Defined.
#[local] Instance more_connections_total : Total (fun a b => st_connection_count b <= st_connection_count a).
Proof. intros a b. lia. Qed.

Definition sample_connections : list fw_call :=
  replicate 5 (LogConnection (Conn 0 7 9 1000 22 INBOUND DENY)) ++ [LogConnection (Conn 0 8 9 1000 22 INBOUND ALLOW)].

Lemma suspicious_are_counted_witness :
  let sort := merge_sort (fun a b => st_connection_count b <= st_connection_count a) in
  st_ip <$> suspicious_candidates map_to_list sort (fw_run sample_connections) = [7] /\
  NoDup (st_ip <$> suspicious_candidates map_to_list sort (fw_run sample_connections)).
Proof.
  cbv zeta. split; [vm_compute; reflexivity|].
  exact (proj1 (suspicious_are_counted map_to_list _ (fun m => reflexivity _)
    (merge_sort_Permutation (fun a b => st_connection_count b <= st_connection_count a))
    (Sorted_merge_sort (fun a b => st_connection_count b <= st_connection_count a)) (fw_run sample_connections))).
Defined.
