(* ===== verification/DnsMonitor.v ===== *)
(** * DnsMonitor: DNS queries

    Models src/src/engines/dns_monitor_engine.cpp: the parser of queries, the score of a
    name, and the analysis of a name with its mutex, which is not recursive: a call that
    locks it while it holds it blocks for good, and the mutex stays locked.  [std::log2]
    and the format of the score are arguments; both callbacks are set. *)
From S2P Require Import Prelude Float64 Entropy Asn1 Observation Text Threat.

#[local] Open Scope word_scope.

(** ** The parser *)

(** The loop over labels: the offset behind them and the name; [None] returns false. *)
Fixpoint label_loop (fuel : nat) (data : ptr) (len offset : Z) (domain : string) : mem (option (Z * string)) :=
  match fuel with
  | O => Val None
  | S fuel =>
      if negb (offset <? len) then Val (Some (offset, domain))
      else
        (let* b := rd data offset in
         let label_len := bval b in
         let offset := offset + 1 in
         if label_len =? 0 then Val (Some (offset, domain))
         else if label_len .& 0xC0 =? 0xC0 then Val None
         else if len <? offset + label_len then Val None
         else
           let* label := slice data offset label_len in
           let domain := if empty_string domain then domain else domain +:+ "." in
           label_loop fuel data len (offset + label_len) (domain +:+ string_of_bytes label))%mem
  end.

#[global] Arguments label_loop : simpl never.

(** The name and the type of the first question; what a call that returns false leaves in
    its arguments is not modelled. *)
Definition parse_dns_query (data : ptr) (len : Z) : mem (option (string * Z)) :=
  if len <? 12 then Val None
  else
    (let* b4 := rd data 4 in
     let* b5 := rd data 5 in
     let qdcount := (bval b4 <<< 8) .| bval b5 in
     if qdcount =? 0 then Val None
     else
       let? (offset, domain) := label_loop (Z.to_nat len) data len 12 EmptyString in
       if len <? offset + 4 then Val None
       else
         let* hi := rd data offset in
         let* lo := rd data (offset + 1) in
         Val (if empty_string domain then None else Some (domain, (bval hi <<< 8) .| bval lo)))%mem.

(** ** The score of a name *)

Fixpoint str_take (n : nat) (s : string) : string :=
  match n, s with
  | S n, String.String c s => String.String c (str_take n s)
  | _, _ => EmptyString
  end.

Definition is_dot (c : Ascii.ascii) : bool := char_value c =? 46.

(** The label before the last dot. *)
Definition scored_label (domain : string) : string :=
  let size := Z.of_nat (String.length domain) in
  let dot := match find_last is_dot domain with Some i => Z.of_nat i | None => size end in
  let upto := if 0 <? dot then dot - 1 else 0 in
  match find_last is_dot (str_take (Z.to_nat (upto + 1)) domain) with
  | Some i => str_take (Z.to_nat (u64 (dot - Z.of_nat i - 1))) (str_drop (S i) domain)
  | None => str_take (Z.to_nat dot) domain
  end.

Definition is_vowel (c : Ascii.ascii) : bool := one_of [97; 101; 105; 111; 117] c.
Definition is_lower (c : Ascii.ascii) : bool := (97 <=? char_value c) && (char_value c <=? 122).
Definition is_digit (c : Ascii.ascii) : bool := (48 <=? char_value c) && (char_value c <=? 57).

(** Consonants, vowels and digits of the label. *)
Definition count_char (st : Z * Z * Z) (c : Ascii.ascii) : Z * Z * Z :=
  let '(consonants, vowels, digits) := st in
  let lo := tolower c in
  if is_digit lo then (consonants, vowels, digits + 1)
  else if is_vowel lo then (consonants, vowels + 1, digits)
  else if is_lower lo then (consonants + 1, vowels, digits)
  else (consonants, vowels, digits).

(** The longest run of consonants: the maximum, the run and whether the last was one. *)
Definition run_char (st : Z * Z * bool) (c : Ascii.ascii) : Z * Z * bool :=
  let '(max_consecutive, current_run, last_was_consonant) := st in
  let lo := tolower c in
  if is_lower lo && negb (is_vowel lo) then
    let current_run := if last_was_consonant : bool then current_run + 1 else 1 in
    (if max_consecutive <? current_run then current_run else max_consecutive, current_run, true)
  else (max_consecutive, 0, false).

Definition dga_score (log2 : double -> double) (domain : string) : double :=
  let label := scored_label domain in
  let size := Z.of_nat (String.length label) in
  if size <? 4 then dz 0
  else
    let normalized_entropy := ddiv (shannon_entropy log2 (bytes_of_string label)) (dlit 47 10) in
    let '(consonants, vowels, digits) := foldl count_char (0, 0, 0) (String.list_ascii_of_string label) in
    let total_alpha := dz (consonants + vowels) in
    let consonant_ratio := if dlt (dz 0) total_alpha then ddiv (dz consonants) total_alpha else dz 0 in
    let digit_ratio := ddiv (dz digits) (dz size) in
    let '(max_consecutive, _, _) := foldl run_char (0, 0, false) (String.list_ascii_of_string label) in
    let length_factor := if 15 <? size then dlit 15 100 else dz 0 in
    let consecutive_factor :=
      if 4 <=? max_consecutive then dlit 15 100 else if 3 <=? max_consecutive then dlit 5 100 else dz 0 in
    let score :=
      dadd (dadd (dadd (dadd (dmul normalized_entropy (dlit 35 100)) (dmul consonant_ratio (dlit 20 100)))
                   (dmul digit_ratio (dlit 15 100))) consecutive_factor) length_factor in
    dmin (dz 1) (dmax (dz 0) score).

(** ** Analysis *)

Record DnsQueryRecord := DnsQuery {
  dq_domain : string;
  dq_timestamp : Z;
  dq_dga_score : double;
  dq_blocked : bool;
}.

Definition MAX_QUERY_LOG : Z := 5000.
Definition DGA_THRESHOLD : double := dlit 70 100.

(** [init_blocklist] *)
Definition blocklist : list string :=
  ["malware-c2.com"; "evil-payload.net"; "darkside-ransomware.net";
   "cobalt-strike-c2.com"; "mimikatz-download.xyz"; "emotet-dropper.club";
   "trickbot-panel.top"; "ryuk-payment.onion.ws"; "conti-leak.cc";
   "lockbit-blog.xyz"; "blackcat-ransomware.net"; "revil-payment.cc";
   "lazarus-apt.top"; "apt28-implant.net"; "apt29-beacon.xyz";
   "cobaltstrike.github.io.evil.com"; "havoc-c2-framework.net";
   "sliver-implant.club"; "bruteratel-c4.top"; "nighthawk-c2.xyz"]%string.

Record DnsState := Dns {
  dn_query_log : list DnsQueryRecord;
  dn_seen_domains : gset string;
  dn_events_processed : Z;
  dn_threats_detected : Z;
  dn_locked : bool;  (** the mutex is held by a call that waits for it *)
}.

Definition new_dns : DnsState := Dns [] ∅ 0 0 false.

Inductive progress := Returns | Blocks.

Definition dns_threat (cat : ThreatCategory) (desc : string) : ThreatEvent :=
  Event 0 0 HIGH cat 0 EmptyString EmptyString desc EmptyString 0 false false.

(** [emit_threat], of a call that holds the mutex or not: it counts and then locks. *)
Definition emit_threat (st : DnsState) (holds : bool) (cat : ThreatCategory) (desc : string) :
    DnsState * list output * progress :=
  let st := Dns (dn_query_log st) (dn_seen_domains st) (dn_events_processed st) (u64 (dn_threats_detected st + 1)) (dn_locked st) in
  if holds || dn_locked st
  then (Dns (dn_query_log st) (dn_seen_domains st) (dn_events_processed st) (dn_threats_detected st) true, [], Blocks)
  else (st, [Threat (dns_threat cat desc)], Returns).

Definition dns_observation (now : Z) (level : ThreatLevel) (confidence : double) (evidence : string) : SecurityObservation :=
  Obs "dns-monitor" DNS_ANOMALY now level confidence (dlt (dlit 9 10) confidence) 0 EmptyString EmptyString EmptyString evidence.

Definition emit_observation (st : DnsState) (holds : bool) (now : Z) (level : ThreatLevel) (confidence : double)
    (evidence : string) : DnsState * list output * progress :=
  if holds || dn_locked st
  then (Dns (dn_query_log st) (dn_seen_domains st) (dn_events_processed st) (dn_threats_detected st) true, [], Blocks)
  else (st, [Observed (dns_observation now level confidence evidence)], Returns).

(** One call after the other, as long as they return. *)
Definition then_ (r : DnsState * list output * progress) (k : DnsState -> DnsState * list output * progress) :
    DnsState * list output * progress :=
  let '(st, out, p) := r in
  match p with
  | Blocks => r
  | Returns => let '(st, out', p) := k st in (st, out ++ out', p)
  end.

Section analysis.
Context (log2 : double -> double) (format2 : double -> string).

Definition push_query (st : DnsState) (r : DnsQueryRecord) : DnsState :=
  let log := dn_query_log st ++ [r] in
  Dns (if MAX_QUERY_LOG <? Z.of_nat (length log) then tail log else log)
    (dn_seen_domains st) (dn_events_processed st) (dn_threats_detected st) (dn_locked st).

Definition analyze_domain (st : DnsState) (now : Z) (domain : string) : DnsState * list output * progress :=
  let st := Dns (dn_query_log st) (dn_seen_domains st) (u64 (dn_events_processed st + 1)) (dn_threats_detected st) (dn_locked st) in
  let score := dga_score log2 domain in
  let is_blocked := existsb (String.eqb domain) blocklist in
  if dn_locked st then (st, [], Blocks)
  else
    let st := push_query st (DnsQuery domain now score is_blocked) in
    if is_blocked then
      then_ (emit_threat st false DNS_TUNNEL ("Blocked malicious domain query: " +:+ domain)) (fun st =>
      emit_observation st false now CRITICAL (dlit 95 100) ("Query to known malicious domain: " +:+ domain))
    else if dle DGA_THRESHOLD score then
      (* the lock is taken here, and held by the calls below *)
      if bool_decide (domain ∈ dn_seen_domains st) then (st, [], Returns)
      else
        let st := Dns (dn_query_log st) ({[domain]} ∪ dn_seen_domains st) (dn_events_processed st) (dn_threats_detected st) (dn_locked st) in
        then_ (emit_threat st true DGA_DOMAIN
                 ("Suspected DGA domain (score=" +:+ (format2 score +:+ ("): " +:+ domain)))) (fun st =>
        emit_observation st true now HIGH score ("Suspected DGA domain: " +:+ domain))
    else (st, [], Returns).

Fixpoint dns_run (st : DnsState) (queries : list (Z * string)) : DnsState * list (list output * progress) :=
  match queries with
  | [] => (st, [])
  | (now, domain) :: queries =>
      let '(st, out, p) := analyze_domain st now domain in
      let '(st, rest) := dns_run st queries in
      (st, (out, p) :: rest)
  end.
End analysis.

Definition recent_queries (st : DnsState) (n : Z) : list DnsQueryRecord :=
  let size := Z.of_nat (length (dn_query_log st)) in
  drop (Z.to_nat (if n <? size then size - n else 0)) (dn_query_log st).

(** ** Queries on the wire *)

(** A label is written behind its length. *)
Definition wire (labels : list (list byte)) : list byte :=
  mjoin ((fun l => byte_of (Z.of_nat (length l)) :: l) <$> labels).

(** What the parser takes for a label: the two high bits are not both set. *)
Definition label_ok (l : list byte) : Prop := 0 < Z.of_nat (length l) < 192.

Definition join (domain : string) (labels : list (list byte)) : string :=
  foldl (fun d l => (if empty_string d then d else d +:+ ".") +:+ string_of_bytes l) domain labels.

Lemma label_loop_S fuel data len offset domain :
  label_loop (S fuel) data len offset domain =
  if negb (offset <? len) then Val (Some (offset, domain))
  else
    (let* b := rd data offset in
     if bval b =? 0 then Val (Some (offset + 1, domain))
     else if Z.land (bval b) 0xC0 =? 0xC0 then Val None
     else if len <? offset + 1 + bval b then Val None
     else
       let* label := slice data (offset + 1) (bval b) in
       label_loop fuel data len (offset + 1 + bval b)
         ((if empty_string domain then domain else domain +:+ ".") +:+ string_of_bytes label))%mem.
Proof. reflexivity. Qed.

Lemma label_high_bits v : 0 <= v < 256 -> (Z.land v 0xC0 =? 0xC0) = (192 <=? v).
Proof.
  intros Hv. assert (H : forallb (fun n => Bool.eqb (Z.land (Z.of_nat n) 0xC0 =? 0xC0) (192 <=? Z.of_nat n)) (seq 0 256) = true)
    by (vm_compute; reflexivity).
  rewrite forallb_forall in H. specialize (H (Z.to_nat v) ltac:(apply in_seq; lia)).
  apply Bool.eqb_prop in H. by rewrite Z2Nat.id in H by lia.
Qed.

(** What the loop does at [offset] of a buffer. *)
Lemma label_loop_spec fuel d : forall offset domain, 0 <= offset <= Z.of_nat (length d) ->
  safe_opt (label_loop fuel (Some d) (Z.of_nat (length d)) offset domain) (fun r =>
    exists labels, Forall label_ok labels /\ r.2 = join domain labels /\ offset <= r.1 <= Z.of_nat (length d) /\
      (r.1 = Z.of_nat (length d) \/
       drop (Z.to_nat offset) d = wire labels ++ x00 :: drop (Z.to_nat r.1) d)).
Proof.
  induction fuel as [|fuel IH]; intros offset domain Ho; [apply safe_opt_none|]. rewrite label_loop_S.
  destruct (Z.ltb_spec offset (Z.of_nat (length d))) as [Hlt|Hge]; cbn [negb].
  2: { apply safe_opt_some. exists []. split; [constructor|]. split; [done|]. split; [cbn; lia|]. left. cbn. lia. }
  eapply safe_opt_bind_mem; [apply rd_safe; lia|]. intros b Hb. pose proof (bval_range b) as Hr.
  assert (Hd : drop (Z.to_nat offset) d = b :: drop (Z.to_nat (offset + 1)) d).
  { rewrite (drop_S _ _ _ Hb). f_equal. f_equal. lia. }
  destruct (Z.eqb_spec (bval b) 0) as [E0|E0].
  { apply safe_opt_some. exists []. split; [constructor|]. split; [done|]. cbn [fst]. split; [lia|]. right.
    rewrite Hd. cbn. f_equal. rewrite <- (byte_of_bval b), E0. reflexivity. }
  rewrite label_high_bits by done. destruct (Z.leb_spec 192 (bval b)) as [|H192]; [apply safe_opt_none|].
  destruct (Z.ltb_spec (Z.of_nat (length d)) (offset + 1 + bval b)) as [|Hfit]; [apply safe_opt_none|].
  eapply safe_opt_bind_mem; [apply slice_safe; lia|]. intros label [El Hll].
  eapply safe_opt_mono; [apply IH; lia|]. intros [off dom] (labels & Hok & Hdom & Hoff & Hend). cbn [fst snd] in *.
  exists (label :: labels). split; [constructor; [unfold label_ok; lia|done]|]. split; [exact Hdom|]. split; [lia|].
  destruct Hend as [Hend|Hend]; [by left|right]. rewrite Hd.
  change (wire (label :: labels)) with ((byte_of (Z.of_nat (length label)) :: label) ++ wire labels).
  rewrite Hll, byte_of_bval. cbn [app]. f_equal. rewrite <- app_assoc, <- Hend, El.
  replace (Z.to_nat (offset + 1 + bval b)) with (Z.to_nat (offset + 1) + Z.to_nat (bval b))%nat by lia.
  rewrite <- drop_drop. by rewrite take_drop.
Qed.

Lemma label_loop_complete labels : forall d fuel offset domain rest, Forall label_ok labels -> 0 <= offset ->
  drop (Z.to_nat offset) d = wire labels ++ x00 :: rest -> (length labels < fuel)%nat ->
  label_loop fuel (Some d) (Z.of_nat (length d)) offset domain =
    Val (Some (offset + Z.of_nat (length (wire labels)) + 1, join domain labels)).
Proof.
  induction labels as [|label labels IH]; intros d fuel offset domain rest Hok Ho Hd Hf.
  all: destruct fuel as [|fuel]; [cbn in Hf; lia|]; rewrite label_loop_S.
  all: assert (Hlen : (Z.to_nat offset < length d)%nat)
         by (destruct (Nat.lt_ge_cases (Z.to_nat offset) (length d)) as [|Hge]; [done|];
             rewrite drop_ge in Hd by done; symmetry in Hd; by apply app_nil in Hd as [_ ?]).
  all: rewrite (proj2 (Z.ltb_lt _ _)) by lia; cbn [negb].
  - cbn [wire app mjoin list_join fmap list_fmap] in Hd.
    assert (Hb : d !! Z.to_nat offset = Some x00) by (by rewrite <- (Nat.add_0_r (Z.to_nat offset)), <- lookup_drop, Hd).
    pose proof (rd_lookup d (Z.to_nat offset) x00 Hb) as Hr. rewrite Z2Nat.id in Hr by done. rewrite Hr.
    cbn [mem_bind]. change (bval x00 =? 0) with true. cbn [length wire mjoin list_join fmap list_fmap join foldl].
    do 3 f_equal. lia.
  - apply Forall_cons in Hok as [Hl Hok]. unfold label_ok in Hl.
    change (wire (label :: labels)) with ((byte_of (Z.of_nat (length label)) :: label) ++ wire labels) in *.
    set (b := byte_of (Z.of_nat (length label))) in *. assert (Hbv : bval b = Z.of_nat (length label)) by (apply bval_byte_of_small; lia).
    cbn [app] in Hd. rewrite <- app_assoc in Hd.
    assert (Hb : d !! Z.to_nat offset = Some b) by (by rewrite <- (Nat.add_0_r (Z.to_nat offset)), <- lookup_drop, Hd).
    pose proof (rd_lookup d (Z.to_nat offset) b Hb) as Hr. rewrite Z2Nat.id in Hr by done. rewrite Hr.
    cbn [mem_bind]. rewrite Hbv, label_high_bits by lia. rewrite (proj2 (Z.eqb_neq _ 0)), (proj2 (Z.leb_gt 192 _)) by lia.
    pose proof (f_equal length Hd) as Hdl. rewrite length_drop in Hdl. cbn [length] in Hdl. rewrite !length_app in Hdl. cbn [length] in Hdl.
    rewrite (proj2 (Z.ltb_ge _ _)) by lia.
    assert (Hd2 : d = (take (Z.to_nat offset) d ++ [b]) ++ label ++ wire labels ++ x00 :: rest).
    { rewrite <- (take_drop (Z.to_nat offset) d) at 1. by rewrite Hd, <- app_assoc. }
    assert (Hs : slice (Some d) (offset + 1) (Z.of_nat (length label)) = Val label).
    { rewrite Hd2 at 1. replace (offset + 1) with (Z.of_nat (length (take (Z.to_nat offset) d ++ [b])))
        by (rewrite length_app, length_take; cbn; lia). apply slice_app. }
    rewrite Hs. cbn [mem_bind].
    rewrite (IH d fuel (offset + 1 + Z.of_nat (length label)) _ rest); [|done|lia| |cbn in Hf; lia].
    + cbn [join foldl]. do 3 f_equal. cbn [app length]. rewrite length_app. lia.
    + rewrite Hd2 at 1. rewrite app_assoc.
      replace (Z.to_nat (offset + 1 + Z.of_nat (length label))) with (length ((take (Z.to_nat offset) d ++ [b]) ++ label))
        by (rewrite !length_app, length_take; cbn; lia). apply drop_app_length.
Qed.

Lemma word_value hi lo : Z.lor (Z.shiftl (bval hi) 8) (bval lo) = bval hi * 256 + bval lo.
Proof. pose proof (bval_range lo). rewrite Z.lor_comm, lor_shiftl_add by lia. change (2 ^ 8) with 256. lia. Qed.

Lemma string_of_bytes_nonempty l : 0 < Z.of_nat (length l) -> empty_string (string_of_bytes l) = false.
Proof. by destruct l. Qed.

Lemma empty_string_app a b : empty_string (a +:+ b) = empty_string a && empty_string b.
Proof. by destruct a. Qed.

Lemma join_nonempty labels domain : Forall label_ok labels -> labels <> [] \/ empty_string domain = false ->
  empty_string (join domain labels) = false.
Proof.
  intros Hok. revert domain. induction Hok as [|l labels Hl Hok IH]; intros domain H; [by destruct H|].
  cbn [join foldl]. apply IH. right. rewrite empty_string_app, string_of_bytes_nonempty by (unfold label_ok in Hl; lia).
  apply andb_false_r.
Qed.

(** A query that the parser accepts: the header counts a question, and there is one. *)
Record query_of (d : list byte) (domain : string) (qtype : Z) : Prop := {
  qo_layout : exists header labels hi lo class rest,
    d = header ++ wire labels ++ x00 :: hi :: lo :: class ++ rest /\ length header = 12%nat /\ length class = 2%nat /\
    (header !! 4%nat <> Some x00 \/ header !! 5%nat <> Some x00) /\
    labels <> [] /\ Forall label_ok labels /\ domain = join EmptyString labels /\ qtype = bval hi * 256 + bval lo;
}.

Lemma bval_zero b : bval b = 0 -> b = x00.
Proof. intros E. by rewrite <- (byte_of_bval b), E. Qed.

Lemma parse_query_sound d :
  safe_opt (parse_dns_query (Some d) (Z.of_nat (length d))) (fun r => query_of d r.1 r.2).
Proof.
  unfold parse_dns_query. destruct (Z.ltb_spec (Z.of_nat (length d)) 12) as [|Hl]; [apply safe_opt_none|].
  eapply safe_opt_bind_mem; [apply rd_safe; lia|]. intros b4 H4.
  eapply safe_opt_bind_mem; [apply rd_safe; lia|]. intros b5 H5. rewrite word_value.
  destruct (Z.eqb_spec (bval b4 * 256 + bval b5) 0) as [|Hq]; [apply safe_opt_none|].
  eapply safe_opt_bind; [apply label_loop_spec; lia|]. intros [off dom] (labels & Hok & Hdom & Hoff & Hend). cbn [fst snd] in *.
  destruct (Z.ltb_spec (Z.of_nat (length d)) (off + 4)) as [|Hfit]; [apply safe_opt_none|].
  destruct Hend as [|Hend]; [lia|].
  eapply safe_opt_bind_mem; [apply rd_safe; lia|]. intros hi Hhi.
  eapply safe_opt_bind_mem; [apply rd_safe; lia|]. intros lo Hlo. rewrite word_value.
  destruct (empty_string dom) eqn:Ed; [apply safe_opt_none|]. apply safe_opt_some. cbn [fst snd].
  assert (Hdrop : drop (Z.to_nat off) d = hi :: lo :: drop (Z.to_nat (off + 2)) d).
  { rewrite (drop_S _ _ _ Hhi). f_equal. replace (S (Z.to_nat off)) with (Z.to_nat (off + 1)) by lia.
    rewrite (drop_S _ _ _ Hlo). do 2 f_equal. lia. }
  split. exists (take 12 d), labels, hi, lo, (take 2 (drop (Z.to_nat (off + 2)) d)), (drop 2 (drop (Z.to_nat (off + 2)) d)).
  split; [by rewrite take_drop, <- Hdrop, <- Hend, take_drop|]. rewrite !length_take, length_drop.
  split; [lia|]. split; [lia|]. split; [|split; [|by split_and!]].
  - rewrite !lookup_take_lt by lia. change (Z.to_nat 4) with 4%nat in H4. change (Z.to_nat 5) with 5%nat in H5. rewrite H4, H5.
    destruct (decide (b4 = x00)) as [->|]; [right|left; congruence]. intros [= ->]. by apply Hq.
  - intros ->. by rewrite Hdom in Ed.
Qed.

Lemma parse_query_complete d domain qtype :
  query_of d domain qtype -> parse_dns_query (Some d) (Z.of_nat (length d)) = Val (Some (domain, qtype)).
Proof.
  intros [(header & labels & hi & lo & class & rest & -> & Hh & Hc & Hq & Hne & Hok & -> & ->)].
  set (tail := wire labels ++ x00 :: hi :: lo :: class ++ rest).
  assert (Hlen : Z.of_nat (length (header ++ tail)) = 12 + Z.of_nat (length (wire labels)) + 5 + Z.of_nat (length rest)).
  { unfold tail. rewrite !length_app. cbn [length]. rewrite length_app. lia. }
  unfold parse_dns_query. rewrite (proj2 (Z.ltb_ge _ 12)) by lia.
  destruct (lookup_lt_is_Some_2 header 4) as [b4 H4]; [lia|]. destruct (lookup_lt_is_Some_2 header 5) as [b5 H5]; [lia|].
  assert (R4 : rd (Some (header ++ tail)) 4 = Val b4) by (apply (rd_lookup _ 4); by rewrite lookup_app_l by lia).
  assert (R5 : rd (Some (header ++ tail)) 5 = Val b5) by (apply (rd_lookup _ 5); by rewrite lookup_app_l by lia).
  rewrite R4, R5.
  cbn [mem_bind]. rewrite word_value. pose proof (bval_range b4). pose proof (bval_range b5).
  rewrite (proj2 (Z.eqb_neq (bval b4 * 256 + bval b5) 0)).
  2: { intros E. rewrite H4, H5 in Hq. destruct Hq as [Hq|Hq]; apply Hq; f_equal; apply bval_zero; lia. }
  assert (Hwire : (length labels <= length (wire labels))%nat).
  { clear. induction labels as [|l labels IH]; [done|].
    change (wire (l :: labels)) with ((byte_of (Z.of_nat (length l)) :: l) ++ wire labels). rewrite length_app. cbn [length]. lia. }
  rewrite (label_loop_complete labels _ _ 12 EmptyString (hi :: lo :: class ++ rest)); [|done|lia| |lia].
  2: { change (Z.to_nat 12) with 12%nat. rewrite <- Hh. apply drop_app_length. }
  cbn [opt_bind mem_bind]. set (off := 12 + Z.of_nat (length (wire labels)) + 1).
  rewrite (proj2 (Z.ltb_ge _ _)) by lia.
  assert (Hd : header ++ tail = (header ++ wire labels ++ [x00]) ++ hi :: lo :: class ++ rest).
  { unfold tail. rewrite <- !app_assoc. done. }
  assert (Hoff : off = Z.of_nat (length (header ++ wire labels ++ [x00]))) by (rewrite !length_app; cbn; lia).
  rewrite Hd at 1. rewrite Hoff at 1. rewrite rd_app. cbn [mem_bind].
  replace ((header ++ wire labels ++ [x00]) ++ hi :: lo :: class ++ rest)
    with (((header ++ wire labels ++ [x00]) ++ [hi]) ++ lo :: class ++ rest) in Hd by (by rewrite <- app_assoc).
  rewrite Hd. replace (off + 1) with (Z.of_nat (length ((header ++ wire labels ++ [x00]) ++ [hi])))
    by (rewrite length_app; cbn; lia). rewrite rd_app. cbn [mem_bind].
  rewrite word_value. rewrite join_nonempty; [done|done|by left].
Qed.

(** ** The score *)

Lemma dlt_dle x y : dlt x y = true -> dle x y = true.
Proof. unfold dlt, dle, SFltb, SFleb. destruct (SFcompare x y) as [[]|]; done. Qed.

(** Clamping to a probability, whatever the argument. *)
Lemma dga_clamped x : unit_interval (dmin (dz 1) (dmax (dz 0) x)) = true.
Proof.
  unfold dmin, dmax. destruct (dlt (dz 0) x) eqn:E0.
  - destruct (dlt x (dz 1)) eqn:E1; [|by vm_compute]. unfold unit_interval.
    rewrite (dlt_dle _ _ E0), (dlt_dle _ _ E1). destruct x as [| [] | |]; done.
  - by vm_compute.
Qed.

Lemma dga_score_unit log2 domain : unit_interval (dga_score log2 domain) = true.
Proof.
  unfold dga_score. destruct (_ <? 4); [by vm_compute|]. destruct (foldl count_char _ _) as [[consonants vowels] digits].
  destruct (foldl run_char _ _) as [[max_consecutive current_run] last]. apply dga_clamped.
Qed.

(** ** A locked monitor *)

#[local] Opaque dga_score blocklist DGA_THRESHOLD dle.

Lemma dns_run_locked log2 format2 st queries :
  dn_locked st = true -> Forall (fun r => r = ([], Blocks)) (dns_run log2 format2 st queries).2.
Proof.
  revert st. induction queries as [|[now domain] queries IH]; intros st Hl; [constructor|]. cbn [dns_run].
  unfold analyze_domain. cbn [dn_locked]. rewrite Hl.
  specialize (IH (Dns (dn_query_log st) (dn_seen_domains st) (u64 (dn_events_processed st + 1)) (dn_threats_detected st) (dn_locked st)) Hl).
  rewrite Hl in IH. destruct (dns_run _ _ _ queries) as [st' rest]. by constructor.
Qed.

(** ** Properties *)

(** the parser of queries reads in bounds for any buffer, its loop ends, and it
    accepts exactly the buffers that start with a header that counts a question, labels of
    1 to 191 bytes each behind its length, a zero, a type and a class; it returns the
    labels joined by dots, and the type. *)
Theorem dns_query_accepted (d : list byte) :
  (exists r, parse_dns_query (Some d) (Z.of_nat (length d)) = Val r) /\
  (forall domain qtype, parse_dns_query (Some d) (Z.of_nat (length d)) = Val (Some (domain, qtype)) <->
    exists header labels hi lo class rest,
      d = header ++ wire labels ++ x00 :: hi :: lo :: class ++ rest /\ length header = 12%nat /\ length class = 2%nat /\
      (header !! 4%nat <> Some x00 \/ header !! 5%nat <> Some x00) /\
      labels <> [] /\ Forall (fun l => 0 < Z.of_nat (length l) < 192) labels /\
      domain = join EmptyString labels /\ qtype = bval hi * 256 + bval lo).
Proof.
  pose proof (parse_query_sound d) as H. split.
  - destruct (safe_inv _ _ H) as (r & E & _). by exists r.
  - intros domain qtype. split.
    + intros E. destruct (safe_opt_some_inv _ _ _ H E) as [Hq]. exact Hq.
    + intros Hq. by apply parse_query_complete.
Qed.

(** the analysis of a name, by the branches of the code: a name of the blocklist is
    reported as a HIGH threat and as a valid deterministic CRITICAL observation; a name
    whose score is below the threshold, or that was reported before, is only logged; and a
    new name at the threshold blocks: the call locks the mutex it holds, nothing is
    reported, and no later call of any thread returns or reports anything. *)
Theorem dga_names_block_the_monitor (log2 : double -> double) (format2 : double -> string) (st : DnsState) (now : Z)
    (domain : string) (Hfree : dn_locked st = false) :
  let score := dga_score log2 domain in
  let '(st', out, p) := analyze_domain log2 format2 st now domain in
  unit_interval score = true /\
  (In domain blocklist -> p = Returns /\ dn_locked st' = false /\
     exists o, out = [Threat (dns_threat DNS_TUNNEL ("Blocked malicious domain query: " +:+ domain)); Observed o] /\
       valid o = true /\ deterministic o = true /\ suggested_level o = CRITICAL) /\
  (~ In domain blocklist -> dle DGA_THRESHOLD score = false \/ domain ∈ dn_seen_domains st ->
     p = Returns /\ dn_locked st' = false /\ out = []) /\
  (~ In domain blocklist -> dle DGA_THRESHOLD score = true -> domain ∉ dn_seen_domains st ->
     p = Blocks /\ out = [] /\
     forall queries, Forall (fun r => r = ([], Blocks)) (dns_run log2 format2 st' queries).2).
Proof.
  cbv zeta. unfold analyze_domain. cbn [dn_locked dn_query_log dn_seen_domains]. rewrite Hfree.
  set (score := dga_score log2 domain).
  assert (Hb : existsb (String.eqb domain) blocklist = true <-> In domain blocklist).
  { rewrite existsb_exists. split; [intros (x & Hx & E); by apply String.eqb_eq in E as ->|].
    intros Hx. exists domain. by rewrite String.eqb_refl. }
  destruct (existsb (String.eqb domain) blocklist) eqn:Eb.
  - clear Hfree. cbn. split; [apply dga_score_unit|]. split; [|split; intros Hn; by exfalso; apply Hn, Hb].
    intros _. split; [reflexivity|]. split; [reflexivity|]. eexists. split; [reflexivity|].
    split; [|split; [by vm_compute|reflexivity]]. by vm_compute.
  - assert (Hno : ~ In domain blocklist) by (rewrite <- Hb; discriminate).
    destruct (dle DGA_THRESHOLD score) eqn:Es; [case_bool_decide as Hseen|].
    + split; [apply dga_score_unit|]. split; [tauto|]. split; [by split|]. tauto.
    + cbn. split; [apply dga_score_unit|]. split; [tauto|]. split; [intros _ [E|E]; [discriminate E|tauto]|]. intros _ _ _.
      split; [reflexivity|]. split; [reflexivity|]. intros queries. by apply dns_run_locked.
    + split; [apply dga_score_unit|]. split; [tauto|]. split; [by split|]. intros _ E. discriminate E.
Qed.

(** Calls and answers of the examples: [log2] is right where the example asks it. *)
Definition sample_log2 (x : double) : double := if bool_decide (x = dlit 1 16) then dz (-4) else dz 0.
Definition sample_domain : string := "bcdfghjklmnpqrst.com".

Lemma dga_names_block_the_monitor_witness :
  (analyze_domain sample_log2 (fun _ => "0.80"%string) new_dns 0 sample_domain).2 = Blocks.
Proof.
  pose proof (dga_names_block_the_monitor sample_log2 (fun _ => "0.80"%string) new_dns 0 sample_domain eq_refl) as H.
  cbv zeta in H.
  assert (Hs : dle DGA_THRESHOLD (dga_score sample_log2 sample_domain) = true) by (vm_compute; reflexivity).
  assert (Hn : ~ In sample_domain blocklist).
  { intros Hin. apply list_elem_of_In in Hin. revert Hin. apply (bool_decide_eq_false_1 _). vm_compute. reflexivity. }
  assert (Hf : sample_domain ∉ dn_seen_domains new_dns) by (apply not_elem_of_empty).
  destruct (analyze_domain _ _ _ _ _) as [[st' out] p]. destruct H as (_ & _ & _ & H).
  exact (proj1 (H Hn Hs Hf)).
Defined.

Definition bytes_of_values (l : list Z) : list byte := byte_of <$> l.

Lemma dns_query_accepted_witness :
  let d := bytes_of_values [18; 52; 1; 0; 0; 1; 0; 0; 0; 0; 0; 0; 6; 103; 111; 111; 103; 108; 101; 3; 99; 111; 109; 0; 0; 1; 0; 1] in
  parse_dns_query (Some d) (Z.of_nat (length d)) = Val (Some ("google.com"%string, 1)).
Proof.
  cbv zeta. apply (dns_query_accepted (bytes_of_values _)).
  exists (bytes_of_values [18; 52; 1; 0; 0; 1; 0; 0; 0; 0; 0; 0]), [bytes_of_values [103; 111; 111; 103; 108; 101]; bytes_of_values [99; 111; 109]],
    x00, (byte_of 1), (bytes_of_values [0; 1]), [].
  split; [vm_compute; reflexivity|]. split; [reflexivity|]. split; [reflexivity|].
  split; [right; discriminate|]. split; [discriminate|]. split; [|split; vm_compute; reflexivity].
  repeat constructor.
Defined.
