(* ===== verification/SignatureDb.v ===== *)
(** * SignatureDb: the scanner's byte signatures

    Models src/src/scanner/signature_db.cpp.  A level is kept as its byte, because the
    loader stores any value. *)
From S2P Require Import Prelude Float64 Asn1 Observation Text Threat.

Record Signature := Sig {
  sg_name : string;
  sg_level : Z;
  sg_category : ThreatCategory;
  sg_pattern : list byte;
  sg_mask : list byte;
  sg_offset : Z;
  sg_description : string;
}.

Definition builtin_signatures : list Signature :=
  [Sig "msfvenom_x86_shikata" (level_value CRITICAL) SHELLCODE (byte_of <$> [0xd9; 0x74; 0x24; 0xf4]) [] (-1)
     "Metasploit shikata_ga_nai encoder stub";
   Sig "msfvenom_x64_shell" (level_value CRITICAL) SHELLCODE (byte_of <$> [0x48; 0x31; 0xc9; 0x48; 0x81; 0xe9]) [] (-1)
     "x64 shellcode: xor rcx, sub rcx pattern";
   Sig "inject_VirtualAllocEx" (level_value HIGH) MEMORY_INJECTION (bytes_of_string "VirtualAllocEx") [] (-1)
     ("VirtualAllocEx import " +:+ (em_dash +:+ " potential process injection"));
   Sig "inject_WriteProcessMemory" (level_value HIGH) MEMORY_INJECTION (bytes_of_string "WriteProcessMemory") [] (-1)
     ("WriteProcessMemory import " +:+ (em_dash +:+ " memory injection"));
   Sig "inject_NtMapViewOfSection" (level_value HIGH) PROCESS_HOLLOW (bytes_of_string "NtMapViewOfSection") [] (-1)
     ("NtMapViewOfSection " +:+ (em_dash +:+ " process hollowing indicator"));
   Sig "inject_QueueUserAPC" (level_value HIGH) APC_INJECTION (bytes_of_string "QueueUserAPC") [] (-1)
     ("QueueUserAPC import " +:+ (em_dash +:+ " APC injection"));
   Sig "reflective_loader" (level_value CRITICAL) REFLECTIVE_LOAD (byte_of <$> [0x4D; 0x5A; 0x52; 0x45]) [] 0
     "MZ header at non-standard offset (reflective load)";
   Sig "mimikatz_str" (level_value CRITICAL) CREDENTIAL_DUMP (bytes_of_string "sekurlsa::logonpasswords") [] (-1)
     "Mimikatz credential dump command string";
   Sig "amsi_patch" (level_value CRITICAL) EVASION_AMSI (bytes_of_string "AmsiScanBuffer") [] (-1)
     ("AmsiScanBuffer reference " +:+ (em_dash +:+ " possible AMSI bypass"));
   Sig "etw_patch" (level_value HIGH) EVASION_ETW (bytes_of_string "EtwEventWrite") [] (-1)
     ("EtwEventWrite reference " +:+ (em_dash +:+ " possible ETW bypass"));
   Sig "syscall_stub_x64" (level_value CRITICAL) DIRECT_SYSCALL (byte_of <$> [0x4C; 0x8B; 0xD1; 0xB8]) [] (-1)
     ("mov r10, rcx; mov eax " +:+ (em_dash +:+ " direct syscall stub"));
   Sig "ransom_note_1" (level_value CRITICAL) RANSOMWARE (bytes_of_string "Your files have been encrypted") [] (-1)
     "Ransomware note pattern";
   Sig "arp_reply_spoof" (level_value HIGH) ARP_POISON (byte_of <$> [0x00; 0x02]) [] 6
     ("ARP reply opcode at L2 " +:+ (em_dash +:+ " potential ARP poisoning"));
   Sig "cs_beacon_cfg" (level_value CRITICAL) FILELESS_EXEC (byte_of <$> [0x00; 0x00; 0x00; 0x00; 0x00; 0x00; 0xBE; 0xEF]) [] (-1)
     "Cobalt Strike beacon configuration marker";
   Sig "ppid_spoof_api" (level_value HIGH) PPID_SPOOF (bytes_of_string "UpdateProcThreadAttribute") [] (-1)
     ("UpdateProcThreadAttribute " +:+ (em_dash +:+ " possible PPID spoofing"))]%string.

(** ** Scanning *)

(** The loop over the pattern, with the data at [pos] and the mask from the same place on. *)
Fixpoint match_at (data : ptr) (pos : Z) (mask pattern : list byte) : mem bool :=
  match pattern with
  | [] => Val true
  | p :: pattern =>
      if match mask with m :: _ => bval m =? 0 | [] => false end then match_at data (pos + 1) (tail mask) pattern
      else
        (let* b := rd data pos in
         if bool_decide (b = p) then match_at data (pos + 1) (tail mask) pattern else Val false)%mem
  end.

(** The loop over [n] positions from [i] on: the first one that matches. *)
Fixpoint position_loop (n : nat) (data : ptr) (i : Z) (sig : Signature) : mem (option Z) :=
  match n with
  | O => Val None
  | S n =>
      (let* m := match_at data i (sg_mask sig) (sg_pattern sig) in
       if m : bool then Val (Some i) else position_loop n data (i + 1) sig)%mem
  end.

Definition pattern_size (sig : Signature) : Z := Z.of_nat (length (sg_pattern sig)).

(** The body of the loop of [scan]: the position of a match. *)
Definition scan_signature (data : ptr) (len : Z) (sig : Signature) : mem (option Z) :=
  let size := pattern_size sig in
  if (size =? 0) || (len <? size) then Val None
  else if 0 <=? sg_offset sig then
    if len <? sg_offset sig + size then Val None
    else
      (let* found := slice data (sg_offset sig) size in
       Val (if bool_decide (found = sg_pattern sig) then Some (sg_offset sig) else None))%mem
  else position_loop (Z.to_nat (len - size + 1)) data 0 sig.

Fixpoint scan (data : ptr) (len : Z) (signatures : list Signature) : mem (option (Signature * Z)) :=
  match signatures with
  | [] => Val None
  | sig :: signatures =>
      (let* r := scan_signature data len sig in
       match r with
       | Some i => Val (Some (sig, i))
       | None => scan data len signatures
       end)%mem
  end.

(** The body of the loop of [scan_all]. *)
Definition scan_signature_all (data : ptr) (len : Z) (sig : Signature) : mem (option Z) :=
  let size := pattern_size sig in
  if (size =? 0) || (len <? size) then Val None
  else if 0 <=? sg_offset sig then
    if len <? sg_offset sig + size then Val None else position_loop 1 data (sg_offset sig) sig
  else position_loop (Z.to_nat (len - size + 1)) data 0 sig.

Fixpoint scan_all (data : ptr) (len : Z) (signatures : list Signature) : mem (list (Signature * Z)) :=
  match signatures with
  | [] => Val []
  | sig :: signatures =>
      (let* r := scan_signature_all data len sig in
       let* rest := scan_all data len signatures in
       Val (match r with Some i => (sig, i) :: rest | None => rest end))%mem
  end.

(** ** Loading *)

Definition hex_value (c : Ascii.ascii) : option Z :=
  let v := char_value (tolower c) in
  if (48 <=? v) && (v <=? 57) then Some (v - 48)
  else if (97 <=? v) && (v <=? 102) then Some (v - 87)
  else None.

(** [std::stoul] in base 16 of two characters, narrowed to a byte; [None] throws. *)
Definition hex_pair (c1 c2 : Ascii.ascii) : option Z :=
  match hex_value c1 with
  | Some a => match hex_value c2 with Some b => Some (16 * a + b) | None => Some a end
  | None =>
      if is_space c1 || (char_value c1 =? 43) then hex_value c2
      else if char_value c1 =? 45 then (fun b => (- b) mod 256) <$> hex_value c2
      else None
  end.

Fixpoint hex_bytes (hex : string) : option (list byte) :=
  match hex with
  | String.String c1 (String.String c2 hex) =>
      match hex_pair c1 c2 with
      | Some v => cons (byte_of v) <$> hex_bytes hex
      | None => None
      end
  | _ => Some []
  end.

Inductive line_result := Skipped | Loaded (sig : Signature) | LineThrows.

Definition parse_line (line : string) : line_result :=
  match line with
  | EmptyString => Skipped
  | String.String c _ =>
      if char_value c =? 35 then Skipped
      else
        match cut_bar line with
        | None => Skipped
        | Some (name, rest) =>
            match cut_bar rest with
            | None => Skipped
            | Some (level, rest) =>
                match cut_bar rest with
                | None => Skipped
                | Some (hex, description) =>
                    match stoi level, hex_bytes hex with
                    | Some level, Some pattern =>
                        Loaded (Sig name (u8 level) SUSPICIOUS_BINARY pattern [] (-1) description)
                    | _, _ => LineThrows
                    end
                end
            end
        end
  end.

(** [load_from_file] over the lines of the file: the signatures, and whether an exception left it. *)
Fixpoint load_lines (signatures : list Signature) (lines : list string) : list Signature * bool :=
  match lines with
  | [] => (signatures, false)
  | line :: lines =>
      match parse_line line with
      | Skipped => load_lines signatures lines
      | Loaded sig => load_lines (signatures ++ [sig]) lines
      | LineThrows => (signatures, true)
      end
  end.

Definition load_from_file (signatures : list Signature) (file : option string) : list Signature * bool :=
  match file with None => (signatures, false) | Some text => load_lines signatures (get_lines text) end.

(** ** Reference: where a signature occurs *)

(** The pattern occurs at [i], under the mask. *)
Definition occurs (d : list byte) (mask : list byte) (sig : Signature) (i : Z) : Prop :=
  0 <= i /\ i + pattern_size sig <= Z.of_nat (length d) /\
  forall j p, sg_pattern sig !! j = Some p -> mask !! j = Some x00 \/ d !! (Z.to_nat i + j)%nat = Some p.

(** The signature is found at [i]: there, and where its offset wants it. *)
Definition hit (d mask : list byte) (sig : Signature) (i : Z) : Prop :=
  sg_pattern sig <> [] /\ (0 <= sg_offset sig -> i = sg_offset sig) /\ occurs d mask sig i.

(** [scan] does not look at the mask of a signature with an offset. *)
Definition scan_mask (sig : Signature) : list byte := if 0 <=? sg_offset sig then [] else sg_mask sig.

(** [r] is the first place in [a .. b - 1] with the property. *)
Definition first_in (P : Z -> Prop) (a b : Z) (r : option Z) : Prop :=
  match r with
  | Some k => a <= k < b /\ P k /\ forall k', a <= k' < k -> ~ P k'
  | None => forall k, a <= k < b -> ~ P k
  end.

Section on_buffer.
Context (d : list byte).

Lemma match_at_spec pattern : forall pos mask, 0 <= pos -> pos + Z.of_nat (length pattern) <= Z.of_nat (length d) ->
  exists b, match_at (Some d) pos mask pattern = Val b /\
    (b = true <-> forall j p, pattern !! j = Some p -> mask !! j = Some x00 \/ d !! (Z.to_nat pos + j)%nat = Some p).
Proof.
  induction pattern as [|p pattern IH]; intros pos mask Hp Hl; cbn [match_at]; [by exists true|].
  cbn [length] in Hl. destruct (IH (pos + 1) (tail mask) ltac:(lia) ltac:(lia)) as (b & E & Hb).
  assert (Htail : forall j, tail mask !! j = mask !! S j) by (intros j; by destruct mask).
  assert (Hn : forall j, (Z.to_nat (pos + 1) + j)%nat = (Z.to_nat pos + S j)%nat) by lia.
  assert (Hrest : b = true <-> forall j q, pattern !! j = Some q -> mask !! S j = Some x00 \/ d !! (Z.to_nat pos + S j)%nat = Some q).
  { rewrite Hb. by setoid_rewrite Htail; setoid_rewrite Hn. }
  set (masked := match mask with m :: _ => bval m =? 0 | [] => false end).
  assert (Hm : masked = true <-> mask !! 0%nat = Some x00).
  { unfold masked. destruct mask as [|m mask']; [done|]. cbn. rewrite Z.eqb_eq. split; [|by intros [= ->]].
    intros E0. f_equal. by rewrite <- (byte_of_bval m), E0. }
  destruct masked.
  - exists b. split; [exact E|]. rewrite Hrest. split.
    + intros H [|j] q Hq; [left; by apply Hm|by apply H].
    + intros H j q Hq. by apply (H (S j)).
  - destruct (lookup_lt_is_Some_2 d (Z.to_nat pos)) as [x Hx]; [lia|].
    pose proof (rd_lookup d (Z.to_nat pos) x Hx) as Hr. rewrite Z2Nat.id in Hr by done. rewrite Hr. cbn [mem_bind].
    destruct (bool_decide_reflect (x = p)) as [->|Hne].
    + exists b. split; [exact E|]. rewrite Hrest. split.
      * intros H [|j] q Hq; [cbn in Hq; simplify_eq; right; by rewrite Nat.add_0_r|by apply H].
      * intros H j q Hq. by apply (H (S j)).
    + exists false. split; [done|]. split; [done|]. intros H. exfalso.
      destruct (H 0%nat p eq_refl) as [H0|H0]; [by apply Hm in H0|].
      rewrite Nat.add_0_r, Hx in H0. by injection H0.
Qed.

Lemma position_loop_spec sig n : forall i, 0 <= i -> i + Z.of_nat n - 1 + pattern_size sig <= Z.of_nat (length d) ->
  exists r, position_loop n (Some d) i sig = Val r /\ first_in (occurs d (sg_mask sig) sig) i (i + Z.of_nat n) r.
Proof.
  induction n as [|n IH]; intros i Hi Hl; cbn [position_loop]; [exists None; split; [done|cbn; lia]|].
  unfold pattern_size in *.
  destruct (match_at_spec (sg_pattern sig) i (sg_mask sig) Hi ltac:(lia)) as (b & E & Hb). rewrite E. cbn [mem_bind].
  destruct b.
  - exists (Some i). split; [done|]. cbn. split; [lia|]. split; [|lia]. split; [lia|]. unfold pattern_size. split; [lia|].
    by apply Hb.
  - assert (Hno : ~ occurs d (sg_mask sig) sig i) by (intros (_ & _ & H); by apply Hb in H).
    destruct (IH (i + 1) ltac:(lia) ltac:(lia)) as (r & Er & Hr). exists r. split; [exact Er|].
    destruct r as [k|]; cbn in *.
    + destruct Hr as (Hk & Hok & Hmin). split; [lia|]. split; [done|]. intros k' Hk'.
      destruct (Z.eq_dec k' i) as [->|]; [done|]. apply Hmin. lia.
    + intros k Hk. destruct (Z.eq_dec k i) as [->|]; [done|]. apply Hr. lia.
Qed.

(** What the body of each loop finds: the first hit, if any. *)
Definition first_hit (mask : list byte) (sig : Signature) (r : option Z) : Prop :=
  match r with
  | Some k => hit d mask sig k /\ forall k', hit d mask sig k' -> k <= k'
  | None => forall k, ~ hit d mask sig k
  end.

Lemma no_hit_short mask sig : pattern_size sig = 0 \/ Z.of_nat (length d) < pattern_size sig -> first_hit mask sig None.
Proof.
  unfold pattern_size. intros [H|H] k (Hne & _ & Hk & Hl & _).
  - by destruct (sg_pattern sig).
  - unfold pattern_size in Hl. lia.
Qed.

Lemma position_hit sig : pattern_size sig <> 0 -> pattern_size sig <= Z.of_nat (length d) -> sg_offset sig < 0 ->
  exists r, position_loop (Z.to_nat (Z.of_nat (length d) - pattern_size sig + 1)) (Some d) 0 sig = Val r /\
    first_hit (sg_mask sig) sig r.
Proof.
  intros H0 Hl Ho. destruct (position_loop_spec sig (Z.to_nat (Z.of_nat (length d) - pattern_size sig + 1)) 0 ltac:(lia) ltac:(lia))
    as (r & E & Hr). exists r. split; [exact E|].
  assert (Hne : sg_pattern sig <> []) by (intros E0; apply H0; unfold pattern_size; by rewrite E0).
  destruct r as [k|]; cbn in *.
  - destruct Hr as (Hk & Hok & Hmin). split; [by split_and!; [|lia|]|]. intros k' (_ & _ & Hk').
    destruct (Z.le_gt_cases k k') as [|Hgt]; [done|]. exfalso. apply (Hmin k'); [|done]. split; [apply Hk'|done].
  - intros k (_ & _ & Hk). apply (Hr k); [|done]. destruct Hk as (H1 & H2 & _). lia.
Qed.

Lemma scan_signature_spec sig :
  exists r, scan_signature (Some d) (Z.of_nat (length d)) sig = Val r /\ first_hit (scan_mask sig) sig r.
Proof.
  unfold scan_signature, scan_mask. destruct (Z.eqb_spec (pattern_size sig) 0) as [E0|H0]; cbn [orb].
  { exists None. split; [done|]. apply no_hit_short. by left. }
  destruct (Z.ltb_spec (Z.of_nat (length d)) (pattern_size sig)) as [Hs|Hs].
  { exists None. split; [done|]. apply no_hit_short. by right. }
  destruct (Z.leb_spec 0 (sg_offset sig)) as [Ho|Ho]; [|by apply position_hit].
  destruct (Z.ltb_spec (Z.of_nat (length d)) (sg_offset sig + pattern_size sig)) as [Hf|Hf].
  { exists None. split; [done|]. intros k (_ & Hk & _ & Hl & _). specialize (Hk Ho). lia. }
  destruct (safe_inv _ _ (slice_safe d (sg_offset sig) (pattern_size sig) Ho ltac:(unfold pattern_size; lia) Hf)) as (l & -> & -> & Hl).
  cbn [mem_bind]. eexists. split; [done|].
  assert (Hne : sg_pattern sig <> []) by (intros E0; apply H0; unfold pattern_size; by rewrite E0).
  unfold pattern_size in *. rewrite Nat2Z.id in *. set (f := take _ _) in *.
  destruct (bool_decide_reflect (f = sg_pattern sig)) as [E|Hneq].
  - split; [|intros k' (_ & Hk' & _); by rewrite Hk'].
    split; [done|]. split; [done|]. split; [done|]. split; [done|]. intros j p Hj. right.
    rewrite <- E in Hj. unfold f in Hj. apply lookup_take_Some in Hj as [Hj _]. by rewrite lookup_drop in Hj.
  - intros k (_ & Hk & Hocc). specialize (Hk Ho). subst k. destruct Hocc as (_ & _ & Hocc). apply Hneq.
    apply list_eq_same_length with (n := length (sg_pattern sig)); [done|lia|]. intros j x y Hj Hx Hy.
    destruct (Hocc j y Hy) as [|Hd]; [done|]. unfold f in Hx. apply lookup_take_Some in Hx as [Hx _].
    rewrite lookup_drop in Hx. congruence.
Qed.

Lemma scan_signature_all_spec sig :
  exists r, scan_signature_all (Some d) (Z.of_nat (length d)) sig = Val r /\ first_hit (sg_mask sig) sig r.
Proof.
  unfold scan_signature_all. destruct (Z.eqb_spec (pattern_size sig) 0) as [E0|H0]; cbn [orb].
  { exists None. split; [done|]. apply no_hit_short. by left. }
  destruct (Z.ltb_spec (Z.of_nat (length d)) (pattern_size sig)) as [Hs|Hs].
  { exists None. split; [done|]. apply no_hit_short. by right. }
  destruct (Z.leb_spec 0 (sg_offset sig)) as [Ho|Ho]; [|by apply position_hit].
  destruct (Z.ltb_spec (Z.of_nat (length d)) (sg_offset sig + pattern_size sig)) as [Hf|Hf].
  { exists None. split; [done|]. intros k (_ & Hk & _ & Hl & _). specialize (Hk Ho). lia. }
  destruct (position_loop_spec sig 1 (sg_offset sig) Ho ltac:(lia)) as (r & E & Hr). exists r. split; [exact E|].
  assert (Hne : sg_pattern sig <> []) by (intros E0; apply H0; unfold pattern_size; by rewrite E0).
  destruct r as [k|]; cbn in *.
  - destruct Hr as (Hk & Hok & _). assert (k = sg_offset sig) as -> by lia. split; [by split_and!|].
    intros k' (_ & Hk' & _). by rewrite Hk'.
  - intros k (_ & Hk & Hocc). specialize (Hk Ho). subst k. by apply (Hr (sg_offset sig) ltac:(lia)).
Qed.

Lemma first_hit_unique mask sig r r' : first_hit mask sig r -> first_hit mask sig r' -> r = r'.
Proof.
  destruct r as [k|], r' as [k'|]; cbn; intros H H'; try done.
  - destruct H as [H1 H2], H' as [H3 H4]. f_equal. specialize (H2 k' H3). specialize (H4 k H1). lia.
  - by destruct (H' k), H.
  - by destruct (H k'), H'.
Qed.
End on_buffer.

(** ** Properties *)

(** the scan reads in bounds for any buffer and any signatures, and reports the first
    signature of the database that occurs, at its first place: where the offset wants it,
    or anywhere under the mask; none is reported exactly when none occurs. *)
Theorem scan_finds_the_first (d : list byte) (signatures : list Signature) :
  exists r, scan (Some d) (Z.of_nat (length d)) signatures = Val r /\
  match r with
  | Some (sig, i) =>
      exists before after, signatures = before ++ sig :: after /\
        hit d (scan_mask sig) sig i /\ (forall k, hit d (scan_mask sig) sig k -> i <= k) /\
        Forall (fun s => forall k, ~ hit d (scan_mask s) s k) before
  | None => Forall (fun s => forall k, ~ hit d (scan_mask s) s k) signatures
  end.
Proof.
  induction signatures as [|sig signatures (r & E & Hr)]; cbn [scan]; [by exists None|].
  destruct (scan_signature_spec d sig) as ([i|] & -> & Hi); cbn [mem_bind].
  - exists (Some (sig, i)). split; [done|]. exists [], signatures. split; [done|]. destruct Hi. by split_and!.
  - exists r. split; [exact E|]. destruct r as [[sig' i]|]; [|by constructor].
    destruct Hr as (before & after & -> & H1 & H2 & H3). exists (sig :: before), after. split_and!; try done. by constructor.
Qed.

(** [scan_all] reads in bounds and reports every signature that occurs, in the order of
    the database, each once and at its first place; and [scan] reports the first of them,
    provided no signature has both an offset and a mask. *)
Theorem scan_all_finds_each (d : list byte) (signatures : list Signature) :
  exists all, scan_all (Some d) (Z.of_nat (length d)) signatures = Val all /\
  sublist (all.*1) signatures /\
  Forall (fun r => hit d (sg_mask r.1) r.1 r.2 /\ forall k, hit d (sg_mask r.1) r.1 k -> r.2 <= k) all /\
  (forall sig k, In sig signatures -> hit d (sg_mask sig) sig k -> In sig (all.*1)) /\
  (Forall (fun sig => sg_offset sig < 0 \/ sg_mask sig = []) signatures ->
   scan (Some d) (Z.of_nat (length d)) signatures = Val (head all)).
Proof.
  induction signatures as [|sig signatures (all & E & H1 & H2 & H3 & H4)]; cbn [scan_all scan].
  { exists []. by split_and!. }
  destruct (scan_signature_all_spec d sig) as (r & -> & Hr). cbn [mem_bind]. rewrite E. cbn [mem_bind].
  destruct (scan_signature_spec d sig) as (r' & -> & Hr'). cbn [mem_bind].
  assert (Hsame : sg_offset sig < 0 \/ sg_mask sig = [] -> r' = r).
  { intros Hp. eapply first_hit_unique; [|exact Hr]. unfold scan_mask in Hr'.
    destruct (Z.leb_spec 0 (sg_offset sig)); [|exact Hr']. destruct Hp as [|Hp]; [lia|]. by rewrite Hp. }
  eexists. split; [done|]. destruct r as [i|]; cbn [fmap list_fmap head].
  - split; [by apply sublist_skip|]. split; [by constructor|]. split.
    + intros s k [<-|Hs] Hk; [by left|right]. by eapply H3.
    + intros Ha. apply Forall_cons in Ha as [Ha _]. by rewrite (Hsame Ha).
  - split; [by apply sublist_cons|]. split; [done|]. split.
    + intros s k [<-|Hs] Hk; [by destruct (Hr k)|]. by eapply H3.
    + intros Ha. apply Forall_cons in Ha as [Ha Hb]. rewrite (Hsame Ha). by apply H4.
Qed.

Definition masked_signature : Signature :=
  Sig "m" 4 SHELLCODE (byte_of <$> [1; 2; 3]) (byte_of <$> [1; 0; 1]) 1 "masked".

(** A signature with an offset and a mask is found by one and not by the other. *)
Example masks_are_ignored_at_offsets :
  let d := byte_of <$> [0; 1; 9; 3] in
  scan (Some d) 4 [masked_signature] = Val None /\ scan_all (Some d) 4 [masked_signature] = Val [(masked_signature, 1)].
Proof. vm_compute. by split. Qed.

Lemma scan_all_finds_each_witness :
  let d := bytes_of_string "xxAmsiScanBufferEtwEventWrite" in
  match scan (Some d) (Z.of_nat (length d)) builtin_signatures with
  | Val (Some (sig, i)) => sg_name sig = "amsi_patch"%string /\ i = 2
  | _ => False
  end.
Proof.
  cbv zeta. set (d := bytes_of_string "xxAmsiScanBufferEtwEventWrite").
  assert (Hb : Forall (fun sig => sg_offset sig < 0 \/ sg_mask sig = []) builtin_signatures)
    by (repeat constructor; by right).
  assert (Ha : match scan_all (Some d) (Z.of_nat (length d)) builtin_signatures with
    | Val ((sig, i) :: _) => sg_name sig = "amsi_patch"%string /\ i = 2 | _ => False end) by (vm_compute; by split).
  destruct (scan_all_finds_each d builtin_signatures) as (all & E & _ & _ & _ & H).
  rewrite (H Hb). rewrite E in Ha. destruct all as [|[sig i] all]; [destruct Ha|]. exact Ha.
Defined.
