(* ===== verification/ThreatIntel.v ===== *)
(** * ThreatIntel: the store of indicators

    Models src/src/engines/threat_intel_engine.cpp: the entries and their three indices,
    the file and directory formats, the checks and the lookup.  [add_ioc], [remove_ioc],
    [clear_iocs] and [install_default_iocs] hold the mutex for their whole body and are
    the atomic steps; the loaders are sequences of them.  [clock id] is the time the
    system clock shows while the entry [id] is made. *)
From S2P Require Import Prelude BoundedLog Float64 Asn1 Observation Text.

Inductive IocType := SHA256_HASH | MD5_HASH | IPV4_ADDRESS | DOMAIN | URL | FILE_NAME.

#[export] Instance IocType_eq_decision : EqDecision IocType.
Proof. solve_decision. Defined.

Record IocEntry := Ioc {
  ioc_id : Z;
  ioc_type : IocType;
  ioc_value : string;
  ioc_source : string;
  ioc_description : string;
  ioc_severity : ThreatLevel;
  ioc_tags : string;
  ioc_added_at : Z;
  ioc_active : bool;
}.

Record IocMatch := IocM {
  im_ioc : IocEntry;
  im_matched_against : string;
  im_context : string;
  im_matched_at : Z;
}.

Definition MAX_MATCHES : Z := 5000.

Record Intel := MkIntel {
  next_ioc_id : Z;
  iocs_ : list IocEntry;
  hash_index_ : gset string;
  ip_index_ : gset string;
  domain_index_ : gset string;
  match_log_ : list IocMatch;
}.

Definition new_intel : Intel := MkIntel 1 [] ∅ ∅ ∅ [].

(** ** Normal forms and types *)

Definition normalize_hash (hash : string) : string := string_map tolower hash.

(** The loop of [pop_back]. *)
Fixpoint strip_dots (s : string) : string :=
  match s with
  | EmptyString => EmptyString
  | String.String c s =>
      match strip_dots s with
      | EmptyString => if char_value c =? 46 then EmptyString else String.String c EmptyString
      | s => String.String c s
      end
  end.

Definition normalize_domain (domain : string) : string := strip_dots (string_map tolower domain).

Fixpoint all_chars (f : Ascii.ascii -> bool) (s : string) : bool :=
  match s with EmptyString => true | String.String c s => f c && all_chars f s end.

Fixpoint count_chars (f : Ascii.ascii -> bool) (s : string) : Z :=
  match s with EmptyString => 0 | String.String c s => (if f c then 1 else 0) + count_chars f s end.

Definition is_digit_char (c : Ascii.ascii) : bool := match digit_value c with Some _ => true | None => false end.
Definition is_dot_char (c : Ascii.ascii) : bool := char_value c =? 46.
Definition is_xdigit (c : Ascii.ascii) : bool :=
  is_digit_char c || (let v := char_value (tolower c) in (97 <=? v) && (v <=? 102)).

Definition detect_type (value : string) : IocType :=
  let size := Z.of_nat (String.length value) in
  if (size =? 64) && all_chars is_xdigit value then SHA256_HASH
  else if (size =? 32) && all_chars is_xdigit value then MD5_HASH
  else
    let dots := count_chars is_dot_char value in
    if (dots =? 3) && all_chars (fun c => is_dot_char c || is_digit_char c) value then IPV4_ADDRESS
    else if String.prefix "http://" value || String.prefix "https://" value then URL
    else if 1 <=? dots then DOMAIN
    else FILE_NAME.

(** ** The store *)

Definition index_entry (st : Intel) (e : IocEntry) : Intel :=
  if negb (ioc_active e) then st
  else
    match ioc_type e with
    | SHA256_HASH | MD5_HASH =>
        MkIntel (next_ioc_id st) (iocs_ st) ({[ioc_value e]} ∪ hash_index_ st) (ip_index_ st) (domain_index_ st) (match_log_ st)
    | IPV4_ADDRESS =>
        MkIntel (next_ioc_id st) (iocs_ st) (hash_index_ st) ({[ioc_value e]} ∪ ip_index_ st) (domain_index_ st) (match_log_ st)
    | DOMAIN =>
        MkIntel (next_ioc_id st) (iocs_ st) (hash_index_ st) (ip_index_ st) ({[ioc_value e]} ∪ domain_index_ st) (match_log_ st)
    | URL | FILE_NAME => st
    end.

Definition rebuild_indices (st : Intel) : Intel :=
  foldl index_entry (MkIntel (next_ioc_id st) (iocs_ st) ∅ ∅ ∅ (match_log_ st)) (iocs_ st).

Definition set_iocs (st : Intel) (iocs : list IocEntry) : Intel :=
  MkIntel (next_ioc_id st) iocs (hash_index_ st) (ip_index_ st) (domain_index_ st) (match_log_ st).

(** [next_id_.fetch_add(1)] *)
Definition bump_id (st : Intel) : Intel :=
  MkIntel (u64 (next_ioc_id st + 1)) (iocs_ st) (hash_index_ st) (ip_index_ st) (domain_index_ st) (match_log_ st).

Definition normal_value (type : IocType) (value : string) : string :=
  match type with
  | SHA256_HASH | MD5_HASH => normalize_hash value
  | DOMAIN => normalize_domain value
  | _ => value
  end.

Definition remove_ioc (st : Intel) (id : Z) : bool * Intel :=
  match list_find (fun e => ioc_id e = id) (iocs_ st) with
  | None => (false, st)
  | Some (i, _) => (true, rebuild_indices (set_iocs st (delete i (iocs_ st))))
  end.

Definition clear_iocs (st : Intel) : Intel := MkIntel (next_ioc_id st) [] ∅ ∅ ∅ (match_log_ st).

Definition default_iocs : list (IocType * string * ThreatLevel * string) :=
  [(DOMAIN, "malware-c2.example.com", CRITICAL, "Known C2 domain");
   (DOMAIN, "phishing-site.example.net", HIGH, "Known phishing domain");
   (DOMAIN, "cryptominer-pool.example.org", HIGH, "Cryptominer pool");
   (IPV4_ADDRESS, "198.51.100.1", CRITICAL, "Known C2 server");
   (IPV4_ADDRESS, "203.0.113.50", HIGH, "Known scanner");
   (SHA256_HASH, "e3b0c44298fc1c149afbf4c8996fb92427ae41e4649b934ca495991b7852b855", LOW,
      "Empty file hash (suspicious if unexpected)");
   (FILE_NAME, "mimikatz.exe", CRITICAL, "Credential dumping tool");
   (FILE_NAME, "lazagne.exe", HIGH, "Password recovery tool");
   (FILE_NAME, "psexec.exe", MEDIUM, "Remote execution tool")]%string.

Section at_time.
Context (clock : Z -> Z).

Definition add_ioc (st : Intel) (entry : IocEntry) : Z * Intel :=
  let id := next_ioc_id st in
  let e := Ioc id (ioc_type entry) (normal_value (ioc_type entry) (ioc_value entry)) (ioc_source entry)
             (ioc_description entry) (ioc_severity entry) (ioc_tags entry)
             (if ioc_added_at entry =? 0 then clock id else ioc_added_at entry) (ioc_active entry) in
  (id, rebuild_indices (set_iocs (bump_id st) (iocs_ st ++ [e]))).

(** The lambda of [install_default_iocs]. *)
Definition add_default (st : Intel) (d : IocType * string * ThreatLevel * string) : Intel :=
  let '(type, value, severity, description) := d in
  let id := next_ioc_id st in
  set_iocs (bump_id st)
    (iocs_ st ++ [Ioc id type value "GCAD-default" description severity EmptyString (clock id) true]).

Definition install_default_iocs (st : Intel) : Intel :=
  match iocs_ st with
  | _ :: _ => st
  | [] => rebuild_indices (foldl add_default st default_iocs)
  end.

(** ** The text format *)

Definition type_of_name (name : string) : option IocType :=
  if String.eqb name "sha256" then Some SHA256_HASH
  else if String.eqb name "md5" then Some MD5_HASH
  else if String.eqb name "ip" then Some IPV4_ADDRESS
  else if String.eqb name "domain" then Some DOMAIN
  else if String.eqb name "url" then Some URL
  else if String.eqb name "filename" then Some FILE_NAME
  else None.

(** The level starts at HIGH and keeps it when no name fits. *)
Definition severity_of_name (name : string) : ThreatLevel :=
  if String.eqb name "critical" then CRITICAL
  else if String.eqb name "high" then HIGH
  else if String.eqb name "medium" then MEDIUM
  else if String.eqb name "low" then LOW
  else HIGH.

(** The fields of a line as a stream with [std::getline] up to the next bar; [None] when
    the stream has no type, no value or an unknown type. *)
Definition parse_fields (line : string) (default_source : string) : option IocEntry :=
  let '(type_str, stream) := getline_bar (Some line) in
  match type_str with
  | None => None
  | Some type_str =>
      let '(value, stream) := getline_bar stream in
      match value with
      | None => None
      | Some value =>
          let '(severity_str, stream) := getline_bar stream in
          let '(source, stream) := getline_bar stream in
          let '(desc, _) := getline_bar stream in
          let source := from_option id EmptyString source in
          match type_of_name type_str with
          | None => None
          | Some type =>
              Some (Ioc 0 type value (if empty_string source then default_source else source)
                      (from_option id EmptyString desc)
                      (severity_of_name (from_option id EmptyString severity_str)) EmptyString 0 true)
          end
      end
  end.

Definition skipped (line : string) : bool :=
  match line with EmptyString => true | String.String c _ => char_value c =? 35 end.

Definition parse_ioc_line (line : string) : option IocEntry := if skipped line then None else parse_fields line EmptyString.

Definition parse_import_line (default_source line : string) : option IocEntry :=
  match trim line with
  | None => None
  | Some trimmed => if skipped trimmed then None else parse_fields trimmed default_source
  end.

(** The loops of the two loaders: the entries added and their number. *)
Fixpoint add_lines (parse : string -> option IocEntry) (st : Intel) (lines : list string) : Z * Intel :=
  match lines with
  | [] => (0, st)
  | line :: lines =>
      match parse line with
      | None => add_lines parse st lines
      | Some e => let '(count, st) := add_lines parse (snd (add_ioc st e)) lines in (1 + count, st)
      end
  end.

Definition load_from_file (st : Intel) (file : option string) : Z * Intel :=
  match file with None => (0, st) | Some text => add_lines parse_ioc_line st (get_lines text) end.

Definition import_iocs_from_string (st : Intel) (content default_source : string) : Z * Intel :=
  add_lines (parse_import_line default_source) st (get_lines content).

(** A directory entry: its path, whether it is a regular file, and its text when it opens. *)
Record dir_entry := Entry { de_path : string; de_regular : bool; de_text : option string }.

Definition ioc_extension (ext : string) : bool :=
  String.eqb ext ".ioc" || String.eqb ext ".txt" || String.eqb ext ".csv".

Fixpoint load_entries (st : Intel) (entries : list dir_entry) : Z * Intel :=
  match entries with
  | [] => (0, st)
  | entry :: entries =>
      if negb (de_regular entry) || negb (ioc_extension (extension (de_path entry))) then load_entries st entries
      else
        let '(n, st) := load_from_file st (de_text entry) in
        let '(m, st) := load_entries st entries in (n + m, st)
  end.

(** [None] when the directory does not exist or is none. *)
Definition reload_from_directory (st : Intel) (dir : option (list dir_entry)) : Z * Intel :=
  match dir with None => (0, st) | Some entries => load_entries st entries end.

Definition ioc_count (st : Intel) : Z := Z.of_nat (length (iocs_ st)).

(** No directory when the path is empty. *)
Definition reload_all (st : Intel) (dir : option (list dir_entry)) : Z * Intel :=
  let st := install_default_iocs (clear_iocs st) in
  let st := snd (reload_from_directory st dir) in
  (ioc_count st, st).
End at_time.

Definition type_name (type : IocType) : string :=
  match type with
  | SHA256_HASH => "sha256" | MD5_HASH => "md5" | IPV4_ADDRESS => "ip"
  | DOMAIN => "domain" | URL => "url" | FILE_NAME => "filename"
  end.

Definition severity_name (level : ThreatLevel) : string :=
  match level with
  | CRITICAL => "critical" | HIGH => "high" | MEDIUM => "medium" | LOW => "low" | SAFE => "high"
  end.

Definition ioc_line (e : IocEntry) : string :=
  type_name (ioc_type e) +:+ "|" +:+ ioc_value e +:+ "|" +:+ severity_name (ioc_severity e) +:+ "|" +:+
  ioc_source e +:+ "|" +:+ ioc_description e +:+ String.String newline EmptyString.

Definition ioc_header : string :=
  ("# GCAD Threat Intelligence IOC Database" +:+ String.String newline EmptyString) +:+
  ("# Format: type|value|severity|source|description" +:+ String.String newline EmptyString).

(** The loop of [save_to_file]: the text and the count. *)
Fixpoint save_loop (iocs : list IocEntry) : string * Z :=
  match iocs with
  | [] => (EmptyString, 0)
  | e :: iocs =>
      let '(text, count) := save_loop iocs in
      if negb (ioc_active e) then (text, count) else (ioc_line e +:+ text, 1 + count)
  end.

(** The count that is returned and the text of the file, when it opens. *)
Definition save_to_file (st : Intel) (opens : bool) : Z * option string :=
  if negb opens then (0, None)
  else let '(text, count) := save_loop (iocs_ st) in (count, Some (ioc_header +:+ text)).

(** ** The queries *)

Definition check_hash (st : Intel) (hash : string) : bool := bool_decide (normalize_hash hash ∈ hash_index_ st).
Definition check_ip (st : Intel) (ip : string) : bool := bool_decide (ip ∈ ip_index_ st).
Definition check_domain (st : Intel) (domain : string) : bool := bool_decide (normalize_domain domain ∈ domain_index_ st).

Definition ioc_matches (value : string) (e : IocEntry) : bool :=
  let norm_hash := normalize_hash value in
  let norm_domain := normalize_domain value in
  ioc_active e &&
  match ioc_type e with
  | SHA256_HASH | MD5_HASH => String.eqb (ioc_value e) norm_hash
  | IPV4_ADDRESS | URL | FILE_NAME => String.eqb (ioc_value e) value
  | DOMAIN => String.eqb (ioc_value e) norm_domain
  end.

(** [now i] is the clock at the [i]-th match. *)
Definition lookup_iocs (st : Intel) (now : nat -> Z) (value : string) : list IocMatch :=
  imap (fun i e => IocM e value EmptyString (now i)) (filter (fun e => ioc_matches value e = true) (iocs_ st)).

Definition recent_matches (st : Intel) (n : Z) : list IocMatch :=
  latest n (match_log_ st).

(** No caller of [record_match] exists. *)
Definition record_match (st : Intel) (ioc : IocEntry) (against ctx : string) (now : Z) : Intel :=
  MkIntel (next_ioc_id st) (iocs_ st) (hash_index_ st) (ip_index_ st) (domain_index_ st)
    (push_bounded MAX_MATCHES (match_log_ st) (IocM ioc against ctx now)).

(** ** What the indices hold *)

Definition is_hash_type (t : IocType) : Prop := t = SHA256_HASH \/ t = MD5_HASH.

(** The store agrees with its indices, its values are in normal form, and nothing was
    matched. *)
Record intel_ok (st : Intel) : Prop := {
  ok_hash v : v ∈ hash_index_ st <->
    exists e, In e (iocs_ st) /\ ioc_active e = true /\ is_hash_type (ioc_type e) /\ ioc_value e = v;
  ok_ip v : v ∈ ip_index_ st <->
    exists e, In e (iocs_ st) /\ ioc_active e = true /\ ioc_type e = IPV4_ADDRESS /\ ioc_value e = v;
  ok_domain v : v ∈ domain_index_ st <->
    exists e, In e (iocs_ st) /\ ioc_active e = true /\ ioc_type e = DOMAIN /\ ioc_value e = v;
  ok_normal : Forall (fun e => normal_value (ioc_type e) (ioc_value e) = ioc_value e) (iocs_ st);
  ok_log : match_log_ st = [];
}.

Lemma index_all (es : list IocEntry) : forall st,
  let st' := foldl index_entry st es in
  iocs_ st' = iocs_ st /\ match_log_ st' = match_log_ st /\ next_ioc_id st' = next_ioc_id st /\
  (forall v, v ∈ hash_index_ st' <-> v ∈ hash_index_ st \/
    exists e, In e es /\ ioc_active e = true /\ is_hash_type (ioc_type e) /\ ioc_value e = v) /\
  (forall v, v ∈ ip_index_ st' <-> v ∈ ip_index_ st \/
    exists e, In e es /\ ioc_active e = true /\ ioc_type e = IPV4_ADDRESS /\ ioc_value e = v) /\
  (forall v, v ∈ domain_index_ st' <-> v ∈ domain_index_ st \/
    exists e, In e es /\ ioc_active e = true /\ ioc_type e = DOMAIN /\ ioc_value e = v).
Proof.
  induction es as [|e es IH]; intros st; cbv zeta; cbn [foldl].
  { split_and!; try done; intros v; (split; [by left|]); intros [H|(e & [] & _)]; exact H. }
  destruct (IH (index_entry st e)) as (-> & -> & -> & Hh & Hi & Hd).
  unfold is_hash_type in *.
  split_and!; try (unfold index_entry; destruct (ioc_active e), (ioc_type e); reflexivity).
  all: intros v; first [rewrite Hh|rewrite Hi|rewrite Hd]; unfold index_entry; clear Hh Hi Hd IH.
  all: destruct (ioc_active e) eqn:Ea, (ioc_type e) eqn:Et; cbn [negb hash_index_ ip_index_ domain_index_].
  all: rewrite ?elem_of_union, ?elem_of_singleton; split.
  all: try (intros [H|(e' & Hin & H)]; [|right; exists e'; split; [by right|exact H]]).
  all: try (intros [H|(e' & [<-|Hin] & Ha & Ht & Hv)]; [by auto| |right; by exists e']).
  all: try by left.
  all: try (destruct H as [->|H]; [|by left]; right; exists e; split; [by left|]; rewrite Ea, Et; by auto).
  all: try congruence.
  all: try (destruct Ht as [Ht|Ht]; congruence).
  all: try (by left; left).
Qed.

Lemma rebuild_ok st : match_log_ st = [] -> Forall (fun e => normal_value (ioc_type e) (ioc_value e) = ioc_value e) (iocs_ st) ->
  intel_ok (rebuild_indices st) /\ iocs_ (rebuild_indices st) = iocs_ st /\ next_ioc_id (rebuild_indices st) = next_ioc_id st.
Proof.
  intros Hl Hn. unfold rebuild_indices.
  destruct (index_all (iocs_ st) (MkIntel (next_ioc_id st) (iocs_ st) ∅ ∅ ∅ (match_log_ st))) as (E1 & E2 & E3 & Hh & Hi & Hd).
  split; [|by rewrite E1, E3]. split; rewrite ?E1, ?E2; try done; intros v.
  - rewrite Hh. split; [intros [H|H]; [by apply elem_of_empty in H|done]|by right].
  - rewrite Hi. split; [intros [H|H]; [by apply elem_of_empty in H|done]|by right].
  - rewrite Hd. split; [intros [H|H]; [by apply elem_of_empty in H|done]|by right].
Qed.

Lemma tolower_idem c : tolower (tolower c) = tolower c.
Proof. destruct c as [[] [] [] [] [] [] [] []]; reflexivity. Qed.

Lemma normalize_hash_idem s : normalize_hash (normalize_hash s) = normalize_hash s.
Proof. unfold normalize_hash. rewrite string_map_map. apply string_map_ext, tolower_idem. Qed.

Lemma strip_dots_cons c s : strip_dots (String.String c s) =
  if empty_string (strip_dots s) && (char_value c =? 46) then EmptyString else String.String c (strip_dots s).
Proof. cbn [strip_dots]. destruct (strip_dots s) as [|d r]; cbn; [by destruct (_ =? _)|reflexivity]. Qed.

Lemma tolower_dot c : (char_value (tolower c) =? 46) = (char_value c =? 46).
Proof. destruct c as [[] [] [] [] [] [] [] []]; reflexivity. Qed.

Lemma strip_lower s : strip_dots (string_map tolower s) = string_map tolower (strip_dots s).
Proof.
  induction s as [|c s IH]; [done|]. change (string_map tolower (String.String c s)) with (String.String (tolower c) (string_map tolower s)).
  rewrite !strip_dots_cons, IH, tolower_dot.
  replace (empty_string (string_map tolower (strip_dots s))) with (empty_string (strip_dots s)) by (by destruct (strip_dots s)).
  by destruct (_ && _).
Qed.

Lemma strip_dots_idem s : strip_dots (strip_dots s) = strip_dots s.
Proof.
  induction s as [|c s IH]; [done|]. rewrite strip_dots_cons. destruct (_ && _) eqn:E; [done|]. by rewrite strip_dots_cons, IH, E.
Qed.

Lemma normalize_domain_idem s : normalize_domain (normalize_domain s) = normalize_domain s.
Proof.
  unfold normalize_domain. rewrite <- strip_lower, string_map_map, strip_dots_idem. f_equal.
  apply string_map_ext, tolower_idem.
Qed.

Lemma normal_value_idem t v : normal_value t (normal_value t v) = normal_value t v.
Proof. destruct t; cbn [normal_value]; by rewrite ?normalize_hash_idem, ?normalize_domain_idem. Qed.

(** ** The atomic steps *)

Inductive intel_call :=
| CallAdd (entry : IocEntry)
| CallRemove (id : Z)
| CallClear
| CallInstall.

Section calls.
Context (clock : Z -> Z).

Definition intel_step (st : Intel) (c : intel_call) : Intel :=
  match c with
  | CallAdd entry => snd (add_ioc clock st entry)
  | CallRemove id => snd (remove_ioc st id)
  | CallClear => clear_iocs st
  | CallInstall => install_default_iocs clock st
  end.

Definition intel_run (calls : list intel_call) : Intel := foldl intel_step new_intel calls.

(** The entry [add_ioc] stores. *)
Definition stored_entry (id : Z) (entry : IocEntry) : IocEntry :=
  Ioc id (ioc_type entry) (normal_value (ioc_type entry) (ioc_value entry)) (ioc_source entry) (ioc_description entry)
    (ioc_severity entry) (ioc_tags entry) (if ioc_added_at entry =? 0 then clock id else ioc_added_at entry) (ioc_active entry).

Lemma add_ioc_spec st entry : intel_ok st ->
  let st' := snd (add_ioc clock st entry) in
  intel_ok st' /\ iocs_ st' = iocs_ st ++ [stored_entry (next_ioc_id st) entry] /\ next_ioc_id st' = u64 (next_ioc_id st + 1).
Proof.
  intros H. unfold add_ioc. cbn [snd]. apply rebuild_ok; cbn; [by destruct H|].
  apply Forall_app. split; [by destruct H|]. constructor; [|done]. apply normal_value_idem.
Qed.

Lemma remove_ioc_spec st id : intel_ok st ->
  let r := remove_ioc st id in
  intel_ok (snd r) /\ next_ioc_id (snd r) = next_ioc_id st /\
  if fst r then exists before e after, iocs_ st = before ++ e :: after /\ ioc_id e = id /\
                Forall (fun e => ioc_id e <> id) before /\ iocs_ (snd r) = before ++ after
  else Forall (fun e => ioc_id e <> id) (iocs_ st) /\ snd r = st.
Proof.
  intros H. unfold remove_ioc. destruct (list_find _ _) as [[i e]|] eqn:E; cbn [fst snd].
  - apply list_find_Some in E as (Hi & He & Hb).
    destruct (rebuild_ok (set_iocs st (delete i (iocs_ st)))) as (H1 & H2 & H3).
    + cbn. by destruct H.
    + cbn. destruct H as [_ _ _ Hn _]. rewrite delete_take_drop. apply Forall_app. split; [by apply Forall_take|by apply Forall_drop].
    + split; [done|]. split; [done|]. exists (take i (iocs_ st)), e, (drop (S i) (iocs_ st)).
      split_and!; [by rewrite take_drop_middle|done| |by rewrite H2; cbn; rewrite delete_take_drop].
      apply Forall_lookup. intros j x Hj. apply lookup_take_Some in Hj as [Hj Hlt].
      by eapply Hb.
  - apply list_find_None in E. by split_and!.
Qed.

Lemma clear_ok st : intel_ok st -> intel_ok (clear_iocs st).
Proof.
  intros H. split; cbn; try done; try (by destruct H).
  all: intros v; split; [intros Hv; by apply elem_of_empty in Hv|by intros (e & [] & _)].
Qed.

Lemma default_values_normal :
  Forall (fun d : IocType * string * ThreatLevel * string => normal_value d.1.1.1 d.1.1.2 = d.1.1.2) default_iocs.
Proof. repeat constructor. Qed.

Lemma add_defaults ds : forall st, Forall (fun d : IocType * string * ThreatLevel * string => normal_value d.1.1.1 d.1.1.2 = d.1.1.2) ds ->
  Forall (fun e => normal_value (ioc_type e) (ioc_value e) = ioc_value e) (iocs_ st) ->
  let st' := foldl (add_default clock) st ds in
  match_log_ st' = match_log_ st /\ Forall (fun e => normal_value (ioc_type e) (ioc_value e) = ioc_value e) (iocs_ st').
Proof.
  induction ds as [|[[[type value] severity] description] ds IH]; intros st Hd Hst; [done|]. cbv zeta. cbn [foldl].
  apply Forall_cons in Hd as [Hd Hds]. destruct (IH (add_default clock st (type, value, severity, description)) Hds) as [-> H]; [|done].
  cbn. apply Forall_app. split; [done|]. by constructor.
Qed.

Lemma intel_install_ok st : intel_ok st -> intel_ok (install_default_iocs clock st).
Proof.
  intros H. unfold install_default_iocs. destruct (iocs_ st) eqn:E; [|done].
  destruct (add_defaults default_iocs st default_values_normal) as [Hl Hn]; [by destruct H|].
  apply rebuild_ok; [|exact Hn]. rewrite Hl. by destruct H.
Qed.

Lemma new_intel_ok : intel_ok new_intel.
Proof.
  split; try done. all: intros v; (split; [intros Hv; by apply elem_of_empty in Hv|by intros (e & [] & _)]).
Qed.

Lemma step_ok st c : intel_ok st -> intel_ok (intel_step st c).
Proof.
  intros H. destruct c; cbn [intel_step]; auto using clear_ok, intel_install_ok.
  - by apply add_ioc_spec.
  - by apply remove_ioc_spec.
Qed.

Lemma run_ok calls : intel_ok (intel_run calls).
Proof.
  unfold intel_run. assert (H : forall st, intel_ok st -> intel_ok (foldl intel_step st calls)); [|apply H, new_intel_ok].
  induction calls as [|c calls IH]; intros st Hst; [done|]. cbn [foldl]. by apply IH, step_ok.
Qed.
End calls.

(** ** The queries *)

Lemma ioc_matches_normal v e : ioc_matches v e = ioc_active e && String.eqb (ioc_value e) (normal_value (ioc_type e) v).
Proof. unfold ioc_matches. by destruct (ioc_type e). Qed.

Lemma lookup_ioc st now v : im_ioc <$> lookup_iocs st now v = filter (fun e => ioc_matches v e = true) (iocs_ st).
Proof.
  apply list_eq. intros i. unfold lookup_iocs. rewrite list_lookup_fmap, list_lookup_imap.
  by destruct (filter _ _ !! i).
Qed.

Lemma lookup_has st now v (P : IocEntry -> Prop) :
  (exists m, In m (lookup_iocs st now v) /\ P (im_ioc m)) <-> exists e, In e (iocs_ st) /\ ioc_matches v e = true /\ P e.
Proof.
  split.
  - intros (m & Hm & HP). exists (im_ioc m).
    assert (Hin : im_ioc m ∈ im_ioc <$> lookup_iocs st now v) by (apply list_elem_of_fmap; exists m; by rewrite list_elem_of_In).
    rewrite lookup_ioc, list_elem_of_filter, list_elem_of_In in Hin. tauto.
  - intros (e & Hin & Hm & HP).
    assert (He : e ∈ im_ioc <$> lookup_iocs st now v) by (by rewrite lookup_ioc, list_elem_of_filter, list_elem_of_In).
    apply list_elem_of_fmap in He as (m & -> & Hm'). exists m. by rewrite <- list_elem_of_In.
Qed.

(** What a saved entry keeps. *)
Definition saved_severity (l : ThreatLevel) : ThreatLevel := match l with SAFE => HIGH | _ => l end.

Definition content (e : IocEntry) : IocType * string * string * string * ThreatLevel :=
  (ioc_type e, ioc_value e, ioc_source e, ioc_description e, saved_severity (ioc_severity e)).

Definition active_content (iocs : list IocEntry) := content <$> filter (fun e => ioc_active e = true) iocs.

Lemma in_active_content iocs c : In c (active_content iocs) <-> exists e, In e iocs /\ ioc_active e = true /\ c = content e.
Proof.
  unfold active_content. rewrite <- list_elem_of_In, list_elem_of_fmap. setoid_rewrite list_elem_of_filter.
  setoid_rewrite list_elem_of_In. split; [intros (e & -> & ? & ?); by exists e|intros (e & ? & ? & ->); by exists e].
Qed.

Lemma check_by_content st st' : intel_ok st -> intel_ok st' -> active_content (iocs_ st) = active_content (iocs_ st') ->
  forall v, check_hash st v = check_hash st' v /\ check_ip st v = check_ip st' v /\ check_domain st v = check_domain st' v.
Proof.
  intros H H' E v.
  assert (Hsame : forall (P : IocType -> Prop) w,
    (exists e, In e (iocs_ st) /\ ioc_active e = true /\ P (ioc_type e) /\ ioc_value e = w) <->
    (exists e, In e (iocs_ st') /\ ioc_active e = true /\ P (ioc_type e) /\ ioc_value e = w)).
  { assert (Hc : forall iocs (P : IocType -> Prop) w, (exists e, In e iocs /\ ioc_active e = true /\ P (ioc_type e) /\ ioc_value e = w) <->
      exists c, In c (active_content iocs) /\ P c.1.1.1.1 /\ c.1.1.1.2 = w).
    { intros iocs P w. setoid_rewrite in_active_content. split; [intros (e & ? & ? & ? & ?); exists (content e); split; [by exists e|done]|].
      intros (c & (e & ? & ? & ->) & ? & ?). by exists e. }
    intros P w. by rewrite !Hc, E. }
  unfold check_hash, check_ip, check_domain. split_and!; apply bool_decide_ext.
  - rewrite (ok_hash st H), (ok_hash st' H'). apply Hsame.
  - rewrite (ok_ip st H), (ok_ip st' H'). apply (Hsame (fun t => t = IPV4_ADDRESS)).
  - rewrite (ok_domain st H), (ok_domain st' H'). apply (Hsame (fun t => t = DOMAIN)).
Qed.

(** ** The file *)

(** An entry a line can hold. *)
Definition plain_ioc (e : IocEntry) : Prop := plain (ioc_value e) /\ plain (ioc_source e) /\ plain (ioc_description e).

Lemma type_name_read t : type_of_name (type_name t) = Some t /\ plain (type_name t).
Proof. by destruct t. Qed.

Lemma severity_name_read l : severity_of_name (severity_name l) = saved_severity l /\ plain (severity_name l).
Proof. by destruct l. Qed.

(** A line of the file without its newline. *)
Definition ioc_text (e : IocEntry) : string :=
  type_name (ioc_type e) +:+ String.String bar (ioc_value e +:+ String.String bar
    (severity_name (ioc_severity e) +:+ String.String bar (ioc_source e +:+ String.String bar (ioc_description e)))).

Lemma ioc_line_text e : ioc_line e = ioc_text e +:+ String.String newline EmptyString.
Proof.
  unfold ioc_text. by rewrite !app_bar_app.
Qed.

Lemma ioc_text_plain e : plain_ioc e -> has_char newline (ioc_text e) = false.
Proof.
  intros ((_ & Hv) & (_ & Hs) & (_ & Hd)). unfold ioc_text.
  rewrite !has_char_bar_app, Hv, Hs, Hd.
  destruct (type_name_read (ioc_type e)) as (_ & _ & ->), (severity_name_read (ioc_severity e)) as (_ & _ & ->). done.
Qed.

(** The entry read back from a line. *)
Definition read_entry (e : IocEntry) : IocEntry :=
  Ioc 0 (ioc_type e) (ioc_value e) (ioc_source e) (ioc_description e) (saved_severity (ioc_severity e)) EmptyString 0 true.

Lemma parse_ioc_text e : plain_ioc e -> parse_ioc_line (ioc_text e) = Some (read_entry e).
Proof.
  intros ((Hv & _) & (Hs & _) & (Hd & _)). unfold parse_ioc_line.
  replace (skipped (ioc_text e)) with false by (unfold ioc_text; by destruct (ioc_type e)).
  unfold parse_fields, ioc_text.
  destruct (type_name_read (ioc_type e)) as (Ht & Htb & _), (severity_name_read (ioc_severity e)) as (Hl & Hlb & _).
  rewrite getline_bar_app by done. rewrite getline_bar_app by done. rewrite getline_bar_app by done.
  rewrite getline_bar_app by done. pose proof (getline_bar_last (ioc_description e) Hd) as Hlast.
  destruct (getline_bar (Some (ioc_description e))) as [desc rest]. cbn [fst] in Hlast. rewrite Ht, Hlast.
  cbn [from_option id]. rewrite Hl. unfold read_entry. do 2 f_equal.
  destruct (empty_string (ioc_source e)) eqn:E; [|done]. symmetry. by apply empty_string_spec.
Qed.

Section loading.
Context (clock : Z -> Z).

(** A loader adds the entries its lines parse to, one atomic step each. *)
Lemma add_lines_run parse lines : forall st,
  add_lines clock parse st lines =
    (Z.of_nat (length (omap parse lines)), foldl (intel_step clock) st (CallAdd <$> omap parse lines)).
Proof.
  induction lines as [|line lines IH]; intros st; [done|]. cbn [add_lines].
  destruct (parse line) as [e|] eqn:E; cbn [omap list_omap]; rewrite E; [|apply IH].
  rewrite IH. cbn [length fmap list_fmap foldl intel_step]. f_equal. lia.
Qed.

Lemma adds_content es : forall st, intel_ok st -> Forall (fun e => ioc_active e = true) es ->
  Forall (fun e => normal_value (ioc_type e) (ioc_value e) = ioc_value e) es ->
  let st' := foldl (intel_step clock) st (CallAdd <$> es) in
  intel_ok st' /\ active_content (iocs_ st') = active_content (iocs_ st) ++ (content <$> es) /\
  length (iocs_ st') = (length (iocs_ st) + length es)%nat.
Proof.
  induction es as [|e es IH]; intros st Hst Ha Hn; cbv zeta; cbn [fmap list_fmap foldl].
  { rewrite app_nil_r. split; [done|]. split; [done|]. cbn [length]. lia. }
  apply Forall_cons in Ha as [Ha Has]. apply Forall_cons in Hn as [Hn Hns].
  destruct (add_ioc_spec clock st e Hst) as (H1 & H2 & _). cbn [intel_step].
  destruct (IH (snd (add_ioc clock st e)) H1 Has Hns) as (H3 & H4 & H5). split; [exact H3|].
  rewrite H4, H5, H2. unfold active_content. rewrite filter_app, fmap_app, length_app.
  rewrite (filter_cons_True _ (stored_entry clock (next_ioc_id st) e) []) by exact Ha.
  cbn [filter list_filter fmap list_fmap length]. split; [|lia].
  rewrite <- app_assoc. cbn [app]. do 2 f_equal. unfold content, stored_entry. cbn. by rewrite Hn.
Qed.

Lemma saved_lines iocs : Forall plain_ioc iocs ->
  let '(text, count) := save_loop iocs in
  get_lines text = ioc_text <$> filter (fun e => ioc_active e = true) iocs /\
  count = Z.of_nat (length (filter (fun e => ioc_active e = true) iocs)).
Proof.
  induction 1 as [|e iocs He H IH]; [done|]. cbn [save_loop]. destruct (save_loop iocs) as [text count].
  destruct IH as [IH1 IH2]. destruct (ioc_active e) eqn:Ea; cbn [negb].
  - rewrite filter_cons_True by done. cbn [fmap list_fmap length]. split; [|lia].
    rewrite ioc_line_text. rewrite <- string_app_assoc. change (String.String newline EmptyString +:+ text) with (String.String newline text).
    rewrite get_lines_cons by (by apply ioc_text_plain). by rewrite IH1.
  - rewrite filter_cons_False by (rewrite Ea; done). by split.
Qed.

Lemma load_saved text :
  load_from_file clock new_intel (Some (ioc_header +:+ text)) = add_lines clock parse_ioc_line new_intel (get_lines text).
Proof. reflexivity. Qed.
End loading.

(** ** Properties *)

(** after any sequence of calls the three indices, which the checks consult, agree with
    the walk over the entries, which the lookup does: a hash, address or domain is known
    exactly when the lookup of the same value returns an active entry of that kind; case
    and the dots at the end of a domain do not matter; and no call ever records a match. *)
Theorem checks_agree_with_lookup (clock : Z -> Z) (calls : list intel_call) (now : nat -> Z) (v : string) (n : Z) :
  let st := intel_run clock calls in
  (check_hash st v = true <-> exists m, In m (lookup_iocs st now v) /\ is_hash_type (ioc_type (im_ioc m))) /\
  (check_ip st v = true <-> exists m, In m (lookup_iocs st now v) /\ ioc_type (im_ioc m) = IPV4_ADDRESS) /\
  (check_domain st v = true <-> exists m, In m (lookup_iocs st now v) /\ ioc_type (im_ioc m) = DOMAIN) /\
  check_hash st (string_map tolower v) = check_hash st v /\
  check_domain st (strip_dots (string_map tolower v)) = check_domain st v /\
  recent_matches st n = [].
Proof.
  intros st. pose proof (run_ok clock calls) as H. fold st in H. clearbody st.
  assert (Hkind : forall (P : IocType -> Prop) (w : string),
    (forall t, P t -> w = normal_value t v) ->
    (exists e, In e (iocs_ st) /\ ioc_active e = true /\ P (ioc_type e) /\ ioc_value e = w) <->
    (exists m, In m (lookup_iocs st now v) /\ P (ioc_type (im_ioc m)))).
  { intros P w Hw. rewrite (lookup_has st now v (fun e => P (ioc_type e))).
    split; intros (e & Hin & H1 & H2); exists e; (split; [done|]).
    - destruct H2 as [H2 E]. split; [|done]. rewrite ioc_matches_normal, H1, E, (Hw _ H2). apply String.eqb_refl.
    - rewrite ioc_matches_normal in H1. apply andb_true_iff in H1 as [H1 E%String.eqb_eq].
      split; [done|]. split; [done|]. by rewrite (Hw _ H2). }
  unfold check_hash, check_ip, check_domain. split_and!.
  - rewrite bool_decide_eq_true, (ok_hash st H). apply Hkind. by intros t [-> | ->].
  - rewrite bool_decide_eq_true, (ok_ip st H). apply (Hkind (fun t => t = IPV4_ADDRESS)). by intros t ->.
  - rewrite bool_decide_eq_true, (ok_domain st H). apply (Hkind (fun t => t = DOMAIN)). by intros t ->.
  - apply bool_decide_ext. by rewrite (normalize_hash_idem v : normalize_hash (string_map tolower v) = _).
  - apply bool_decide_ext. by rewrite (normalize_domain_idem v : normalize_domain (strip_dots (string_map tolower v)) = _).
  - unfold recent_matches. by rewrite (ok_log st H).
Qed.

(** adding an entry adds it to exactly the lookups its normal form answers and changes
    no other; removing an id removes the first entry of that id, from every lookup, and
    says whether there was one; an equal value under another id stays known. *)
Theorem lookup_after_add_and_remove (clock : Z -> Z) (calls : list intel_call) (entry : IocEntry) (id : Z)
    (now : nat -> Z) (v : string) :
  let st := intel_run clock calls in
  let known st := im_ioc <$> lookup_iocs st now v in
  let e := stored_entry clock (next_ioc_id st) entry in
  known (snd (add_ioc clock st entry)) = known st ++ (if ioc_matches v e then [e] else []) /\
  (if fst (remove_ioc st id) then
     exists before e' after, iocs_ st = before ++ e' :: after /\ ioc_id e' = id /\ Forall (fun e => ioc_id e <> id) before /\
       known st = filter (fun e => ioc_matches v e = true) before ++ (if ioc_matches v e' then [e'] else []) ++
                  filter (fun e => ioc_matches v e = true) after /\
       known (snd (remove_ioc st id)) = filter (fun e => ioc_matches v e = true) before ++
                  filter (fun e => ioc_matches v e = true) after
   else Forall (fun e => ioc_id e <> id) (iocs_ st) /\ snd (remove_ioc st id) = st).
Proof.
  intros st known e. pose proof (run_ok clock calls) as H. fold st in H. clearbody st. unfold known. rewrite !lookup_ioc.
  assert (Hone : forall x l, filter (fun e => ioc_matches v e = true) (x :: l) =
    (if ioc_matches v x then [x] else []) ++ filter (fun e => ioc_matches v e = true) l).
  { intros x l. destruct (ioc_matches v x) eqn:E; [by rewrite filter_cons_True|by rewrite filter_cons_False by (by rewrite E)]. }
  destruct (add_ioc_spec clock st entry H) as (_ & -> & _). rewrite filter_app, Hone.
  replace (filter (fun e => ioc_matches v e = true) ([] : list IocEntry)) with ([] : list IocEntry) by done.
  rewrite app_nil_r. split; [done|].
  pose proof (remove_ioc_spec st id H) as Hr. cbv zeta in Hr. destruct (remove_ioc st id) as [[|] st']; cbn [fst snd] in *; [|tauto].
  destruct Hr as (_ & _ & before & e' & after & E1 & E2 & E3 & E4). exists before, e', after. split_and!; try done.
  - by rewrite E1, filter_app, Hone.
  - by rewrite E4, filter_app.
Qed.

(** what [save_to_file] writes of any reachable store without bars and newlines in its
    texts, [load_from_file] reads back: the counts agree, the loaded entries are the active
    ones with their texts, and every check of the loaded engine answers as before; a level
    SAFE comes back as HIGH. *)
Theorem intel_file_roundtrip (clock clock' : Z -> Z) (calls : list intel_call) (v : string) :
  let st := intel_run clock calls in
  let '(saved, file) := save_to_file st true in
  let '(loaded, st') := load_from_file clock' new_intel file in
  Forall plain_ioc (iocs_ st) ->
  loaded = saved /\ ioc_count st' = saved /\ Forall (fun e => ioc_active e = true) (iocs_ st') /\
  (content <$> iocs_ st') = active_content (iocs_ st) /\
  check_hash st' v = check_hash st v /\ check_ip st' v = check_ip st v /\ check_domain st' v = check_domain st v.
Proof.
  intros st. unfold save_to_file. cbn [negb].
  destruct (save_loop (iocs_ st)) as [text count] eqn:E. rewrite load_saved, add_lines_run. intros Hp.
  pose proof (run_ok clock calls) as H. fold st in H.
  pose proof (saved_lines (iocs_ st) Hp) as Hs. rewrite E in Hs. destruct Hs as [-> ->].
  set (active := filter (fun e => ioc_active e = true) (iocs_ st)).
  assert (Hact : Forall (fun e => plain_ioc e /\ normal_value (ioc_type e) (ioc_value e) = ioc_value e) active).
  { destruct H as [_ _ _ Hn _]. apply Forall_forall. intros e [_ He]%list_elem_of_filter.
    split; [by apply (proj1 (Forall_forall _ _) Hp)|by apply (proj1 (Forall_forall _ _) Hn)]. }
  assert (Eo : omap parse_ioc_line (ioc_text <$> active) = read_entry <$> active).
  { clear -Hact. induction Hact as [|e l [He _] _ IH]; [done|]. cbn [fmap list_fmap omap list_omap]. by rewrite parse_ioc_text, IH. }
  rewrite Eo, length_fmap.
  destruct (adds_content clock' (read_entry <$> active) new_intel new_intel_ok) as (H1 & H2 & H3).
  { apply Forall_fmap. by apply Forall_true. }
  { apply Forall_fmap. by eapply Forall_impl; [exact Hact|]; intros e [_ ?]. }
  set (st' := foldl _ _ _) in *.
  assert (Ec : content <$> (read_entry <$> active) = active_content (iocs_ st)).
  { rewrite <- list_fmap_compose. unfold active_content. fold active. apply list_fmap_ext. intros i e _.
    unfold content, read_entry. cbn. by destruct (ioc_severity e). }
  rewrite Ec in H2. cbn [app] in H2. change (active_content (iocs_ new_intel)) with (@nil (IocType * string * string * string * ThreatLevel)) in H2.
  rewrite app_nil_l in H2.
  assert (Hall : Forall (fun e => ioc_active e = true) (iocs_ st')).
  { assert (Hlen : length (filter (fun e => ioc_active e = true) (iocs_ st')) = length (iocs_ st')).
    { apply (f_equal length) in H2. unfold active_content in H2. rewrite !length_fmap in H2.
      rewrite H2, H3, length_fmap. reflexivity. }
    clear -Hlen. induction (iocs_ st') as [|e l IH]; [done|]. pose proof (length_filter (fun e => ioc_active e = true) l) as Hle.
    destruct (ioc_active e) eqn:Ea.
    - rewrite filter_cons_True in Hlen by done. constructor; [done|]. apply IH. cbn [length] in Hlen. lia.
    - rewrite filter_cons_False in Hlen by (by rewrite Ea). cbn [length] in Hlen. lia. }
  split; [done|]. split; [unfold ioc_count; by rewrite H3, length_fmap|]. split; [exact Hall|]. split.
  - rewrite <- H2. unfold active_content. f_equal. clear -Hall. induction Hall as [|e l He _ IH]; [done|].
    by rewrite filter_cons_True, <- IH.
  - by apply check_by_content.
Qed.

Definition sample_ioc (type : IocType) (value description : string) (severity : ThreatLevel) : IocEntry :=
  Ioc 0 type value "feed" description severity EmptyString 0 true.

Lemma intel_file_roundtrip_witness :
  let clock := fun id : Z => 1000 + id in
  let calls := [CallInstall; CallAdd (sample_ioc DOMAIN "Evil.Example.ORG.." "c2" CRITICAL);
                CallAdd (sample_ioc URL "http://a/b" "drop" SAFE); CallRemove 5] in
  let '(saved, file) := save_to_file (intel_run clock calls) true in
  let '(loaded, st') := load_from_file clock new_intel file in
  loaded = saved /\ check_domain st' "evil.example.org" = true /\ check_ip st' "203.0.113.50" = false.
Proof.
  cbv zeta. set (clock := fun id : Z => 1000 + id). set (calls := _ :: _).
  pose proof (intel_file_roundtrip clock clock calls "evil.example.org") as H1.
  pose proof (intel_file_roundtrip clock clock calls "203.0.113.50") as H2. cbv zeta in H1, H2.
  assert (Hp : Forall plain_ioc (iocs_ (intel_run clock calls))).
  { vm_compute. by repeat constructor. }
  assert (Hd : check_domain (intel_run clock calls) "evil.example.org" = true) by (vm_compute; reflexivity).
  assert (Hi : check_ip (intel_run clock calls) "203.0.113.50" = false) by (vm_compute; reflexivity).
  destruct (save_to_file (intel_run clock calls) true) as [saved file].
  destruct (load_from_file clock new_intel file) as [loaded st'].
  destruct (H1 Hp) as (E1 & _ & _ & _ & _ & _ & E2). destruct (H2 Hp) as (_ & _ & _ & _ & _ & E3 & _).
  rewrite E2, E3. by split_and!.
Defined.

(** The texts are written as they are: a value with a bar comes back cut and with another
    level, and a newline in a description adds an indicator nobody entered. *)
Example saved_texts_are_not_escaped :
  let st := intel_run Z.abs [CallAdd (sample_ioc URL "http://a/?q=x|low" "d" CRITICAL);
                             CallAdd (sample_ioc FILE_NAME "a.exe" (String.String newline "ip|10.0.0.1") HIGH)] in
  let st' := snd (load_from_file Z.abs new_intel (snd (save_to_file st true))) in
  (ioc_count st, ioc_count st') = (2, 3) /\ check_ip st' "10.0.0.1" = true /\
  ((fun e => (ioc_value e, ioc_severity e)) <$> take 1 (iocs_ st')) = [("http://a/?q=x"%string, LOW)].
Proof. vm_compute. by split_and!. Qed.

(** [reload_all] clears and installs under two locks: an indicator that another thread adds
    between them keeps the defaults out. *)
Example reload_can_lose_the_defaults :
  let e := sample_ioc FILE_NAME "a.exe" "d" HIGH in
  let before := [CallInstall; CallClear] in
  ioc_count (intel_run Z.abs (before ++ [CallInstall])) = 9 /\
  ioc_count (intel_run Z.abs (before ++ [CallAdd e; CallInstall])) = 1.
Proof. vm_compute. by split. Qed.

(** Three dots make an address of any digits, none included. *)
Example detect_type_samples :
  detect_type "..." = IPV4_ADDRESS /\ detect_type "999.1.2.3" = IPV4_ADDRESS /\ detect_type "a.b" = DOMAIN /\
  detect_type "https://a" = URL /\ detect_type "a" = FILE_NAME.
Proof. vm_compute. by split_and!. Qed.
