(* ===== verification/DeviceControl.v ===== *)
(** * DeviceControl: rules over attached devices

    Models src/src/engines/device_control_engine.cpp and its header.  The mutex makes each
    operation one step, except [report_device_event], which reads the policy under one lock
    and records the event under another: [record_event] is the second step, for whatever
    policy the first one read.  The scan of drives takes what Windows answers. *)
From S2P Require Import Prelude BoundedLog Float64 Asn1 Observation Text Threat.

Inductive DeviceType :=
| DEV_USB_STORAGE | DEV_USB_HID | DEV_USB_NETWORK | DEV_USB_OTHER | DEV_CDROM | DEV_FLOPPY | DEV_MTP | DEV_BLUETOOTH.
Inductive DeviceAction := ACT_CONNECTED | ACT_DISCONNECTED | ACT_READ | ACT_WRITE | ACT_EXECUTE | ACT_BLOCKED.
Inductive DevicePolicy := POL_ALLOW | POL_READ_ONLY | POL_BLOCK | POL_AUDIT.

#[export] Instance DeviceType_eq_decision : EqDecision DeviceType.
Proof. solve_decision. Defined.
#[export] Instance DeviceAction_eq_decision : EqDecision DeviceAction.
Proof. solve_decision. Defined.
#[export] Instance DevicePolicy_eq_decision : EqDecision DevicePolicy.
Proof. solve_decision. Defined.

Record DeviceInfo := Device {
  dv_device_id : string;
  dv_friendly_name : string;
  dv_vendor_id : string;
  dv_product_id : string;
  dv_serial_number : string;
  dv_type : DeviceType;
  dv_drive_letter : string;
}.

Record DeviceEvent := DevEvent {
  de_id : Z;
  de_timestamp : Z;
  de_device : DeviceInfo;
  de_action : DeviceAction;
  de_file_path : string;
  de_detail : string;
  de_policy_violation : bool;
}.

Record DeviceRule := DevRule {
  dr_rule_id : string;
  dr_vendor_id : string;
  dr_product_id : string;
  dr_serial_number : string;
  dr_device_type : DeviceType;
  dr_policy : DevicePolicy;
  dr_description : string;
}.

Definition MAX_DEVICE_EVENTS : Z := 5000.
Definition MAX_DEVICE_RULES : Z := 1000.

Record DeviceControl := DevControl {
  dc_events_processed : Z;
  dc_threats_detected : Z;
  dc_next_id : Z;
  dc_default_policy : DevicePolicy;
  dc_events : list DeviceEvent;
  dc_rules : list DeviceRule;
  dc_whitelist : gset string;
  dc_blacklist : gset string;
  dc_connected : gmap string DeviceInfo;
}.

Definition new_device_control : DeviceControl := DevControl 0 0 1 POL_AUDIT [] [] ∅ ∅ ∅.

Definition device_type_name (type : DeviceType) : string :=
  match type with
  | DEV_USB_STORAGE => "USB Storage" | DEV_USB_HID => "USB HID" | DEV_USB_NETWORK => "USB Network"
  | DEV_USB_OTHER => "USB Other" | DEV_CDROM => "CD-ROM" | DEV_FLOPPY => "Floppy" | DEV_MTP => "MTP"
  | DEV_BLUETOOTH => "Bluetooth"
  end.

Definition action_name (action : DeviceAction) : string :=
  match action with
  | ACT_CONNECTED => "Connected" | ACT_DISCONNECTED => "Disconnected" | ACT_READ => "Read" | ACT_WRITE => "Write"
  | ACT_EXECUTE => "Execute" | ACT_BLOCKED => "Blocked"
  end.

Definition policy_name (policy : DevicePolicy) : string :=
  match policy with
  | POL_ALLOW => "Allow" | POL_READ_ONLY => "Read-Only" | POL_BLOCK => "Block" | POL_AUDIT => "Audit"
  end.

Definition hid_vendors : list string := ["046D"; "045E"; "04F2"; "1532"]%string.
Definition network_vendors : list string := ["0BDA"; "148F"; "0CF3"; "2357"]%string.

Definition classify_device (vendor_id product_id : string) : DeviceType :=
  if empty_string vendor_id then DEV_USB_OTHER
  else
    let upper := string_map toupper vendor_id in
    if bool_decide (upper ∈ hid_vendors) then DEV_USB_HID
    else if bool_decide (upper ∈ network_vendors) then DEV_USB_NETWORK
    else DEV_USB_STORAGE.

(** ** The policy of a device *)

Definition rule_matches (device : DeviceInfo) (rule : DeviceRule) : bool :=
  let type_match := bool_decide (dr_device_type rule = dv_type device) in
  let vendor_match := empty_string (dr_vendor_id rule) || String.eqb (dr_vendor_id rule) (dv_vendor_id device) in
  let product_match := empty_string (dr_product_id rule) || String.eqb (dr_product_id rule) (dv_product_id device) in
  let serial_match := empty_string (dr_serial_number rule) || String.eqb (dr_serial_number rule) (dv_serial_number device) in
  type_match && vendor_match && product_match && serial_match.

Fixpoint first_policy (device : DeviceInfo) (rules : list DeviceRule) (default_policy : DevicePolicy) : DevicePolicy :=
  match rules with
  | [] => default_policy
  | rule :: rules => if rule_matches device rule then dr_policy rule else first_policy device rules default_policy
  end.

Definition evaluate_policy (st : DeviceControl) (device : DeviceInfo) : DevicePolicy :=
  let serial := dv_serial_number device in
  if negb (empty_string serial) && bool_decide (serial ∈ dc_blacklist st) then POL_BLOCK
  else if negb (empty_string serial) && bool_decide (serial ∈ dc_whitelist st) then POL_ALLOW
  else first_policy device (dc_rules st) (dc_default_policy st).

(** ** Events *)

Definition is_violation (policy : DevicePolicy) (action : DeviceAction) : bool :=
  if bool_decide (policy = POL_BLOCK) && negb (bool_decide (action = ACT_DISCONNECTED)) then true
  else bool_decide (policy = POL_READ_ONLY) &&
       (bool_decide (action = ACT_WRITE) || bool_decide (action = ACT_EXECUTE)).

Definition device_threat (policy : DevicePolicy) (device : DeviceInfo) (action : DeviceAction) (file_path : string)
    (now : Z) : ThreatEvent :=
  Event 0 now (if bool_decide (policy = POL_BLOCK) then HIGH else MEDIUM) DEVICE_POLICY 0 EmptyString file_path
    ("Device policy violation: " +:+ device_type_name (dv_type device) +:+ " '" +:+ dv_friendly_name device +:+ "' " +:+
     action_name action +:+ " blocked (policy: " +:+ policy_name policy +:+ ")") EmptyString 0 false false.

Definition device_observation (device : DeviceInfo) (action : DeviceAction) (file_path : string) (now : Z) :
    SecurityObservation :=
  Obs "DeviceControl" FILE_INTEGRITY now LOW (dlit 3 10) false 0 EmptyString file_path EmptyString
    ("Device activity: " +:+ device_type_name (dv_type device) +:+ " '" +:+ dv_friendly_name device +:+ "' " +:+ action_name action).

Definition count_event (st : DeviceControl) : DeviceControl :=
  DevControl (u64 (dc_events_processed st + 1)) (dc_threats_detected st) (dc_next_id st) (dc_default_policy st)
    (dc_events st) (dc_rules st) (dc_whitelist st) (dc_blacklist st) (dc_connected st).

Definition count_threat (st : DeviceControl) : DeviceControl :=
  DevControl (dc_events_processed st) (u64 (dc_threats_detected st + 1)) (dc_next_id st) (dc_default_policy st)
    (dc_events st) (dc_rules st) (dc_whitelist st) (dc_blacklist st) (dc_connected st).

(** The event under the second lock, both callbacks set. *)
Definition record_event (st : DeviceControl) (policy : DevicePolicy) (device : DeviceInfo) (action : DeviceAction)
    (file_path : string) (now : Z) : DeviceControl * list output :=
  let violation := is_violation policy action in
  let ev := DevEvent (dc_next_id st) now device (if violation then ACT_BLOCKED else action) file_path
    (device_type_name (dv_type device) +:+ " " +:+ action_name action +:+ " " +:+ em_dash +:+ " policy: " +:+ policy_name policy)
    violation in
  let connected :=
    match action with
    | ACT_CONNECTED => <[dv_device_id device := device]> (dc_connected st)
    | ACT_DISCONNECTED => delete (dv_device_id device) (dc_connected st)
    | _ => dc_connected st
    end in
  let st := DevControl (dc_events_processed st) (dc_threats_detected st) (u64 (dc_next_id st + 1)) (dc_default_policy st)
    (push_bounded MAX_DEVICE_EVENTS (dc_events st) ev) (dc_rules st) (dc_whitelist st) (dc_blacklist st) connected in
  if violation then (count_threat st, [Threat (device_threat policy device action file_path now)])
  else if bool_decide (policy = POL_AUDIT) then (st, [Observed (device_observation device action file_path now)])
  else (st, []).

Definition report_device_event (st : DeviceControl) (device : DeviceInfo) (action : DeviceAction) (file_path : string)
    (now : Z) : DeviceControl * list output :=
  let st := count_event st in
  record_event st (evaluate_policy st device) device action file_path now.

(** ** The other operations *)

Definition set_lists (st : DeviceControl) (rules : list DeviceRule) (whitelist blacklist : gset string) : DeviceControl :=
  DevControl (dc_events_processed st) (dc_threats_detected st) (dc_next_id st) (dc_default_policy st) (dc_events st)
    rules whitelist blacklist (dc_connected st).

Definition add_rule (st : DeviceControl) (rule : DeviceRule) : DeviceControl :=
  set_lists st (push_bounded MAX_DEVICE_RULES (dc_rules st) rule) (dc_whitelist st) (dc_blacklist st).

Definition remove_rule (st : DeviceControl) (rule_id : string) : DeviceControl :=
  set_lists st (filter (fun r => String.eqb (dr_rule_id r) rule_id = false) (dc_rules st)) (dc_whitelist st) (dc_blacklist st).

Definition whitelist_device (st : DeviceControl) (serial_number : string) : DeviceControl :=
  set_lists st (dc_rules st) ({[serial_number]} ∪ dc_whitelist st) (dc_blacklist st ∖ {[serial_number]}).

Definition blacklist_device (st : DeviceControl) (serial_number : string) : DeviceControl :=
  set_lists st (dc_rules st) (dc_whitelist st ∖ {[serial_number]}) ({[serial_number]} ∪ dc_blacklist st).

Definition recent_events (st : DeviceControl) (n : Z) : list DeviceEvent := latest n (dc_events st).

(** The order is that of the hash map. *)
Definition connected_devices (order : gmap string DeviceInfo -> list (string * DeviceInfo)) (st : DeviceControl) :
    list DeviceInfo :=
  snd <$> order (dc_connected st).

Definition set_default_policy (st : DeviceControl) (policy : DevicePolicy) : DeviceControl :=
  DevControl (dc_events_processed st) (dc_threats_detected st) (dc_next_id st) policy (dc_events st)
    (dc_rules st) (dc_whitelist st) (dc_blacklist st) (dc_connected st).

(** ** The scan of drives *)

(** What Windows says of a drive: the code keeps the first two. *)
Inductive drive_kind := DRIVE_REMOVABLE | DRIVE_CDROM | DRIVE_OTHER.

Definition drive_info (p : string) (removable : bool) : DeviceInfo :=
  Device p ((if removable then "Removable " else "CD-ROM ") +:+ p) EmptyString EmptyString EmptyString
    (if removable then DEV_USB_STORAGE else DEV_CDROM) p.

Definition kept_drive (d : string * drive_kind) : option DeviceInfo :=
  match d.2 with
  | DRIVE_REMOVABLE => Some (drive_info d.1 true)
  | DRIVE_CDROM => Some (drive_info d.1 false)
  | DRIVE_OTHER => None
  end.

Definition set_connected (st : DeviceControl) (connected : gmap string DeviceInfo) : DeviceControl :=
  DevControl (dc_events_processed st) (dc_threats_detected st) (dc_next_id st) (dc_default_policy st) (dc_events st)
    (dc_rules st) (dc_whitelist st) (dc_blacklist st) connected.

(** The first loop: the map with the new devices, and these. *)
Fixpoint find_new (connected : gmap string DeviceInfo) (devices : list DeviceInfo) : gmap string DeviceInfo * list DeviceInfo :=
  match devices with
  | [] => (connected, [])
  | info :: devices =>
      match connected !! dv_device_id info with
      | Some _ => find_new connected devices
      | None =>
          let '(connected, new) := find_new (<[dv_device_id info := info]> connected) devices in
          (connected, info :: new)
      end
  end.

Fixpoint report_all (st : DeviceControl) (action : DeviceAction) (devices : list DeviceInfo) (now : Z) : DeviceControl * list output :=
  match devices with
  | [] => (st, [])
  | dev :: devices =>
      let '(st, out) := report_device_event st dev action EmptyString now in
      let '(st, rest) := report_all st action devices now in
      (st, out ++ rest)
  end.

(** [drives] is [None] when the list of drives cannot be read. *)
Definition scan_connected_devices (order : gmap string DeviceInfo -> list (string * DeviceInfo)) (st : DeviceControl)
    (drives : option (list (string * drive_kind))) (now : Z) : DeviceControl * list output :=
  match drives with
  | None => (st, [])
  | Some drives =>
      let current := omap kept_drive drives in
      let '(connected, new_devices) := find_new (dc_connected st) current in
      let gone := fun x : string * DeviceInfo => x.1 ∉ (dv_device_id <$> current) in
      let removed_devices := snd <$> filter gone (order connected) in
      let st := set_connected st (filter (fun x => ~ gone x) connected) in
      let '(st, out) := report_all st ACT_CONNECTED new_devices now in
      let '(st, out') := report_all st ACT_DISCONNECTED removed_devices now in
      (st, out ++ out')
  end.

(** ** Runs *)

Inductive device_call :=
| DcReport (device : DeviceInfo) (action : DeviceAction) (file_path : string) (now : Z)
| DcAddRule (rule : DeviceRule)
| DcRemoveRule (rule_id : string)
| DcWhitelist (serial : string)
| DcBlacklist (serial : string)
| DcDefault (policy : DevicePolicy)
| DcScan (drives : option (list (string * drive_kind))) (now : Z).

Section runs.
Context (order : gmap string DeviceInfo -> list (string * DeviceInfo)) (Horder : forall m, order m ≡ₚ map_to_list m).

Definition device_step (st : DeviceControl) (c : device_call) : DeviceControl :=
  match c with
  | DcReport device action file_path now => (report_device_event st device action file_path now).1
  | DcAddRule rule => add_rule st rule
  | DcRemoveRule rule_id => remove_rule st rule_id
  | DcWhitelist serial => whitelist_device st serial
  | DcBlacklist serial => blacklist_device st serial
  | DcDefault policy => set_default_policy st policy
  | DcScan drives now => (scan_connected_devices order st drives now).1
  end.

Definition device_run (st : DeviceControl) (calls : list device_call) : DeviceControl := foldl device_step st calls.

(** What a report leaves alone, and what it does to the connected devices. *)
Lemma device_report_frame st device action file_path now :
  let st' := (report_device_event st device action file_path now).1 in
  dc_rules st' = dc_rules st /\ dc_whitelist st' = dc_whitelist st /\ dc_blacklist st' = dc_blacklist st /\
  dc_default_policy st' = dc_default_policy st /\
  dc_connected st' = match action with
                     | ACT_CONNECTED => <[dv_device_id device := device]> (dc_connected st)
                     | ACT_DISCONNECTED => delete (dv_device_id device) (dc_connected st)
                     | _ => dc_connected st
                     end.
Proof.
  unfold report_device_event, record_event. destruct (is_violation _ _); [by destruct action|].
  destruct (bool_decide _); by destruct action.
Qed.

Lemma report_all_frame action devices now : forall st,
  let st' := (report_all st action devices now).1 in
  dc_rules st' = dc_rules st /\ dc_whitelist st' = dc_whitelist st /\ dc_blacklist st' = dc_blacklist st /\
  dc_default_policy st' = dc_default_policy st.
Proof.
  induction devices as [|dev devices IH]; intros st; [done|]. cbn [report_all].
  pose proof (device_report_frame st dev action EmptyString now) as H.
  destruct (report_device_event st dev action EmptyString now) as [st1 out]. specialize (IH st1).
  destruct (report_all st1 action devices now) as [st2 rest]. cbn in *.
  destruct H as (-> & -> & -> & -> & _) in IH. exact IH.
Qed.

Lemma scan_frame st drives now :
  let st' := (scan_connected_devices order st drives now).1 in
  dc_rules st' = dc_rules st /\ dc_whitelist st' = dc_whitelist st /\ dc_blacklist st' = dc_blacklist st /\
  dc_default_policy st' = dc_default_policy st.
Proof.
  unfold scan_connected_devices. destruct drives as [drives|]; [|done].
  destruct (find_new (dc_connected st) (omap kept_drive drives)) as [connected new].
  match goal with |- context[report_all ?s ACT_CONNECTED _ _] => set (st0 := s) end.
  pose proof (report_all_frame ACT_CONNECTED new now st0) as H1.
  destruct (report_all st0 ACT_CONNECTED new now) as [st1 out].
  match goal with |- context[report_all st1 ACT_DISCONNECTED ?l _] => set (removed := l) end.
  pose proof (report_all_frame ACT_DISCONNECTED removed now st1) as H2.
  destruct (report_all st1 ACT_DISCONNECTED removed now) as [st2 out']. cbn in *.
  destruct H1 as (-> & -> & -> & ->) in H2. exact H2.
Qed.

(** Every call but the two that set the lists leaves them alone. *)
Lemma step_lists st c :
  dc_whitelist (device_step st c) = match c with
    | DcWhitelist s => {[s]} ∪ dc_whitelist st | DcBlacklist s => dc_whitelist st ∖ {[s]} | _ => dc_whitelist st end /\
  dc_blacklist (device_step st c) = match c with
    | DcWhitelist s => dc_blacklist st ∖ {[s]} | DcBlacklist s => {[s]} ∪ dc_blacklist st | _ => dc_blacklist st end.
Proof.
  destruct c; cbn [device_step]; try done.
  - destruct (device_report_frame st device action file_path now) as (_ & H1 & H2 & _). by split.
  - destruct (scan_frame st drives now) as (_ & H1 & H2 & _). by split.
Qed.

Lemma run_keeps_block s calls : forall st, s ∈ dc_blacklist st -> ~ In (DcWhitelist s) calls -> s ∈ dc_blacklist (device_run st calls).
Proof.
  induction calls as [|c calls IH]; intros st Hs Hn; [done|]. cbn [device_run foldl]. apply IH; [|intros H; apply Hn; by right].
  destruct (step_lists st c) as [_ ->]. destruct c; try done.
  - apply elem_of_difference. split; [done|]. intros ->%elem_of_singleton. apply Hn. by left.
  - apply elem_of_union. by right.
Qed.

Lemma run_keeps_allow s calls : forall st, s ∈ dc_whitelist st -> s ∉ dc_blacklist st -> ~ In (DcBlacklist s) calls ->
  s ∈ dc_whitelist (device_run st calls) /\ s ∉ dc_blacklist (device_run st calls).
Proof.
  induction calls as [|c calls IH]; intros st Hs Hb Hn; [done|]. cbn [device_run foldl].
  apply IH; [| |intros H; apply Hn; by right]; destruct (step_lists st c) as [Hw Hbl].
  - rewrite Hw. destruct c; try done.
    + apply elem_of_union. by right.
    + apply elem_of_difference. split; [done|]. intros ->%elem_of_singleton. apply Hn. by left.
  - rewrite Hbl. destruct c; try done.
    + rewrite elem_of_difference. tauto.
    + rewrite elem_of_union, elem_of_singleton. intros [->|?]; [|done]. apply Hn. by left.
Qed.

(** ** The scan *)

(** Every device is kept under its own id. *)
Definition keyed (m : gmap string DeviceInfo) : Prop := forall k d, m !! k = Some d -> dv_device_id d = k.

Lemma keyed_insert m d : keyed m -> keyed (<[dv_device_id d := d]> m).
Proof.
  intros H k d'. rewrite lookup_insert_Some. intros [[<- <-]|[_ Hk]]; [done|by apply H].
Qed.

Lemma keyed_delete m k : keyed m -> keyed (delete k m).
Proof. intros H k' d'. rewrite lookup_delete_Some. intros [_ Hk]. by apply H. Qed.

Lemma find_new_spec devices : forall m, keyed m ->
  let '(m', new) := find_new m devices in
  keyed m' /\ (forall k, is_Some (m' !! k) <-> is_Some (m !! k) \/ In k (dv_device_id <$> devices)) /\
  (forall d, In d new -> In d devices /\ m !! dv_device_id d = None) /\
  (forall k, In k (dv_device_id <$> devices) -> m !! k = None -> In k (dv_device_id <$> new)) /\
  NoDup (dv_device_id <$> new).
Proof.
  induction devices as [|d devices IH]; intros m Hm; cbn [find_new].
  { split; [done|]. split; [intros k; cbn; tauto|]. split; [done|]. split; [done|constructor]. }
  destruct (m !! dv_device_id d) as [d'|] eqn:E.
  - specialize (IH m Hm). destruct (find_new m devices) as [m' new]. destruct IH as (H1 & H2 & H3 & H4 & H5).
    split_and!; try done.
    + intros k. rewrite H2. cbn. split; [tauto|]. intros [H|[<-|H]]; [by left|left; by eexists|by right].
    + intros x Hx. destruct (H3 x Hx). split; [by right|done].
    + intros k [<-|Hk] Hn; [congruence|by apply H4].
  - specialize (IH (<[dv_device_id d := d]> m) (keyed_insert m d Hm)).
    destruct (find_new (<[dv_device_id d := d]> m) devices) as [m' new]. destruct IH as (H1 & H2 & H3 & H4 & H5).
    split_and!; try done.
    + intros k. rewrite H2. cbn. rewrite lookup_insert_is_Some'. split; [intros [[->|H]|H]; auto|intros [H|[->|H]]; auto].
    + intros x [<-|Hx]; [split; [by left|done]|]. destruct (H3 x Hx) as [Hin Hn]. split; [by right|].
      apply lookup_insert_None in Hn. tauto.
    + intros k [<-|Hk] Hn; [by left|]. cbn. destruct (decide (dv_device_id d = k)) as [->|Hne]; [by left|right].
      apply H4; [done|]. by rewrite lookup_insert_ne.
    + cbn [fmap list_fmap]. constructor; [|done]. intros (x & Ex & Hx)%list_elem_of_fmap. apply list_elem_of_In in Hx.
      destruct (H3 x Hx) as [_ Hn]. rewrite Ex in Hn. rewrite <- Ex, lookup_insert_eq in Hn. congruence.
Qed.

Lemma report_connects devices now : forall st, keyed (dc_connected st) ->
  let st' := (report_all st ACT_CONNECTED devices now).1 in
  keyed (dc_connected st') /\
  forall k, is_Some (dc_connected st' !! k) <-> is_Some (dc_connected st !! k) \/ In k (dv_device_id <$> devices).
Proof.
  induction devices as [|d devices IH]; intros st Hst; cbn [report_all]; [split; [done|cbn; tauto]|].
  destruct (device_report_frame st d ACT_CONNECTED EmptyString now) as (_ & _ & _ & _ & Hc).
  destruct (report_device_event st d ACT_CONNECTED EmptyString now) as [st1 out]. cbn [fst] in Hc.
  specialize (IH st1). rewrite Hc in IH. destruct (report_all st1 ACT_CONNECTED devices now) as [st2 rest]. cbn [fst] in *.
  destruct (IH (keyed_insert _ d Hst)) as [H1 H2]. split; [exact H1|]. intros k. rewrite H2. cbn.
  rewrite lookup_insert_is_Some'. split; [intros [[->|H]|H]; auto|intros [H|[->|H]]; auto].
Qed.

Lemma report_disconnects devices now : forall st, keyed (dc_connected st) ->
  let st' := (report_all st ACT_DISCONNECTED devices now).1 in
  keyed (dc_connected st') /\
  forall k, is_Some (dc_connected st' !! k) <-> is_Some (dc_connected st !! k) /\ ~ In k (dv_device_id <$> devices).
Proof.
  induction devices as [|d devices IH]; intros st Hst; cbn [report_all]; [split; [done|cbn; tauto]|].
  destruct (device_report_frame st d ACT_DISCONNECTED EmptyString now) as (_ & _ & _ & _ & Hc).
  destruct (report_device_event st d ACT_DISCONNECTED EmptyString now) as [st1 out]. cbn [fst] in Hc.
  specialize (IH st1). rewrite Hc in IH. destruct (report_all st1 ACT_DISCONNECTED devices now) as [st2 rest]. cbn [fst] in *.
  destruct (IH (keyed_delete _ _ Hst)) as [H1 H2]. split; [exact H1|]. intros k. rewrite H2. cbn.
  rewrite lookup_delete_is_Some. split.
  - intros [[Hne H] Hn]. split; [done|]. by intros [E|?].
  - intros [H Hn]. split; [split; [intros E; apply Hn; by left|done]|]. intros ?. apply Hn. by right.
Qed.

Lemma step_keyed st c : keyed (dc_connected st) -> keyed (dc_connected (device_step st c)).
Proof.
  intros H. destruct c; cbn [device_step]; try done.
  - destruct (device_report_frame st device action file_path now) as (_ & _ & _ & _ & ->).
    destruct action; auto using keyed_insert, keyed_delete.
  - unfold scan_connected_devices. destruct drives as [drives|]; [|done].
    pose proof (find_new_spec (omap kept_drive drives) (dc_connected st) H) as Hf.
    destruct (find_new (dc_connected st) (omap kept_drive drives)) as [connected new]. destruct Hf as (Hk & _).
    match goal with |- context[report_all ?s ACT_CONNECTED _ _] => set (st0 := s) end.
    assert (H0 : keyed (dc_connected st0)) by (intros k d; cbn; rewrite map_lookup_filter_Some; intros [Hd _]; by apply Hk).
    destruct (report_connects new now st0 H0) as [H1 _].
    destruct (report_all st0 ACT_CONNECTED new now) as [st1 out].
    match goal with |- context[report_all st1 ACT_DISCONNECTED ?l _] => destruct (report_disconnects l now st1 H1) as [H2 _] end.
    destruct (report_all st1 ACT_DISCONNECTED _ now) as [st2 out']. exact H2.
Qed.

Lemma run_keyed calls : forall st, keyed (dc_connected st) -> keyed (dc_connected (device_run st calls)).
Proof. induction calls as [|c calls IH]; intros st H; [done|]. cbn [device_run foldl]. by apply IH, step_keyed. Qed.

Lemma scan_connected st drives now : keyed (dc_connected st) -> forall k,
  is_Some (dc_connected (scan_connected_devices order st (Some drives) now).1 !! k) <->
  In k (dv_device_id <$> omap kept_drive drives).
Proof.
  intros H k. unfold scan_connected_devices. set (current := omap kept_drive drives).
  pose proof (find_new_spec current (dc_connected st) H) as Hf.
  destruct (find_new (dc_connected st) current) as [connected new]. destruct Hf as (Hk & Hdom & Hnew & _ & _).
  set (gone := fun x : string * DeviceInfo => x.1 ∉ (dv_device_id <$> current)).
  match goal with |- context[report_all ?s ACT_CONNECTED _ _] => set (st0 := s) end.
  assert (Hst0 : forall k, is_Some (dc_connected st0 !! k) <-> is_Some (connected !! k) /\ In k (dv_device_id <$> current)).
  { intros j. cbn. split.
    - intros [d Hd]. apply map_lookup_filter_Some in Hd as [Hd Hg]. split; [by eexists|].
      apply list_elem_of_In. destruct (decide (j ∈ dv_device_id <$> current)); [done|]. by destruct Hg.
    - intros [[d Hd] Hin%list_elem_of_In]. exists d. apply map_lookup_filter_Some. split; [done|]. intros Hg. by apply Hg. }
  assert (H0 : keyed (dc_connected st0)) by (intros j d; cbn; rewrite map_lookup_filter_Some; intros [Hd _]; by apply Hk).
  destruct (report_connects new now st0 H0) as [H1 H1'].
  destruct (report_all st0 ACT_CONNECTED new now) as [st1 out]. cbn [fst] in *.
  set (removed := snd <$> filter gone (order connected)).
  destruct (report_disconnects removed now st1 H1) as [_ H2].
  destruct (report_all st1 ACT_DISCONNECTED removed now) as [st2 out']. cbn [fst] in *.
  assert (Hrem : forall j, In j (dv_device_id <$> removed) -> ~ In j (dv_device_id <$> current)).
  { intros j Hj. apply list_elem_of_In, list_elem_of_fmap in Hj as (d & -> & Hd). unfold removed in Hd.
    apply list_elem_of_fmap in Hd as ([i d'] & -> & Hd). apply list_elem_of_filter in Hd as [Hg Hd].
    rewrite Horder in Hd. apply elem_of_map_to_list in Hd. cbn in *. rewrite (Hk i d' Hd). by rewrite <- list_elem_of_In. }
  rewrite H2, H1', Hst0, Hdom. split.
  - intros [[[_ ?]|Hn] _]; [done|]. apply list_elem_of_In, list_elem_of_fmap in Hn as (d & -> & Hd%list_elem_of_In).
    destruct (Hnew d Hd) as [Hin _]. apply list_elem_of_In, list_elem_of_fmap. exists d. by rewrite list_elem_of_In.
  - intros Hin. split; [left; split; [by right|done]|]. intros Hr. by apply (Hrem k).
Qed.

(** The rules a drive can meet: those without vendor, product and serial. *)
Definition bare_rule (rule : DeviceRule) : bool :=
  empty_string (dr_vendor_id rule) && empty_string (dr_product_id rule) && empty_string (dr_serial_number rule).

Lemma drive_policy st p removable :
  evaluate_policy st (drive_info p removable) =
  default (dc_default_policy st) (head (dr_policy <$> filter (fun r => bare_rule r = true /\ dr_device_type r = if removable then DEV_USB_STORAGE else DEV_CDROM) (dc_rules st))).
Proof.
  unfold evaluate_policy. cbn [dv_serial_number drive_info empty_string String.eqb negb andb].
  induction (dc_rules st) as [|r rules IH]; [done|]. cbn [first_policy].
  assert (E : rule_matches (drive_info p removable) r = true <-> bare_rule r = true /\ dr_device_type r = if removable then DEV_USB_STORAGE else DEV_CDROM).
  { unfold rule_matches, bare_rule, drive_info, empty_string. cbn [dv_type dv_vendor_id dv_product_id dv_serial_number].
    rewrite !andb_true_iff, !orb_true_iff, bool_decide_eq_true. tauto. }
  destruct (rule_matches (drive_info p removable) r) eqn:Er.
  - rewrite filter_cons_True by (by apply E). done.
  - rewrite filter_cons_False by (intros H; apply E in H; congruence). exact IH.
Qed.
End runs.

(** ** Properties *)

(** the latest word on a serial number wins: after [blacklist_device] every device of
    that number is blocked, and after [whitelist_device] it is allowed, whatever rules,
    defaults, scans and reports come before and after, until the other call for the same
    number; an empty number is never looked up. *)
Theorem latest_list_wins (order : gmap string DeviceInfo -> list (string * DeviceInfo))
    (before after : list device_call) (device : DeviceInfo) :
  let s := dv_serial_number device in
  let st c := device_run order new_device_control (before ++ c :: after) in
  s <> EmptyString ->
  (~ In (DcWhitelist s) after -> evaluate_policy (st (DcBlacklist s)) device = POL_BLOCK) /\
  (~ In (DcBlacklist s) after -> evaluate_policy (st (DcWhitelist s)) device = POL_ALLOW).
Proof.
  intros s st Hs. unfold evaluate_policy. fold s.
  replace (empty_string s) with false by (symmetry; unfold empty_string; by apply String.eqb_neq). cbn [negb andb].
  unfold st, device_run. split; intros Hn; rewrite foldl_app; cbn [foldl].
  - rewrite bool_decide_eq_true_2; [done|]. apply (run_keeps_block order); [|done]. cbn. apply elem_of_union. left. by apply elem_of_singleton.
  - destruct (run_keeps_allow order s after (whitelist_device (foldl (device_step order) new_device_control before) s)) as [H1 H2]; try done.
    + cbn. apply elem_of_union. left. by apply elem_of_singleton.
    + cbn. rewrite elem_of_difference, elem_of_singleton. tauto.
    + cbn [device_step]. rewrite bool_decide_eq_false_2, bool_decide_eq_true_2 by assumption. done.
Qed.

(** after any calls, a scan leaves exactly the removable and CD-ROM drives Windows
    names connected, in whatever order the hash map is walked; and the policy of such a
    drive is that of the first rule for its type without vendor, product and serial number,
    or the default: neither list nor any other rule ever applies to it. *)
Theorem scan_tracks_drives (order : gmap string DeviceInfo -> list (string * DeviceInfo))
    (Horder : forall m, order m ≡ₚ map_to_list m)
    (calls : list device_call) (drives : list (string * drive_kind)) (now : Z) (p : string) (removable : bool) :
  let st := device_run order new_device_control (calls ++ [DcScan (Some drives) now]) in
  (forall k, is_Some (dc_connected st !! k) <-> In k (dv_device_id <$> omap kept_drive drives)) /\
  evaluate_policy st (drive_info p removable) =
    default (dc_default_policy st) (head (dr_policy <$>
      filter (fun r => bare_rule r = true /\ dr_device_type r = if removable then DEV_USB_STORAGE else DEV_CDROM) (dc_rules st))).
Proof.
  intros st. split; [|apply drive_policy]. unfold st, device_run. rewrite foldl_app. cbn [foldl device_step].
  apply scan_connected; [done|]. apply (run_keyed order). by intros k d.
Qed.

Definition usb (serial : string) : DeviceInfo := Device "E" "stick" "1234" "1" serial DEV_USB_STORAGE "E:".

Lemma latest_list_wins_witness :
  "S1"%string <> EmptyString /\ evaluate_policy (device_run map_to_list new_device_control [DcBlacklist "S1"; DcWhitelist "S1"; DcDefault POL_BLOCK]) (usb "S1") = POL_ALLOW.
Proof.
  split; [done|]. refine (proj2 (latest_list_wins map_to_list [DcBlacklist "S1"] [DcDefault POL_BLOCK] (usb "S1") _) _); [done|].
  intros [H|[]]. discriminate H.
Defined.

Lemma scan_tracks_drives_witness :
  let drives := [("E:\"%string, DRIVE_REMOVABLE); ("C:\"%string, DRIVE_OTHER)] in
  let st := device_run map_to_list new_device_control ([DcBlacklist EmptyString] ++ [DcScan (Some drives) 5]) in
  is_Some (dc_connected st !! "E:\"%string) /\ ~ is_Some (dc_connected st !! "C:\"%string).
Proof.
  cbv zeta. split.
  - apply (proj1 (scan_tracks_drives map_to_list (fun m => reflexivity _) [DcBlacklist EmptyString]
      [("E:\"%string, DRIVE_REMOVABLE); ("C:\"%string, DRIVE_OTHER)] 5 EmptyString true)). by left.
  - intros H. apply (proj1 (scan_tracks_drives map_to_list (fun m => reflexivity _) [DcBlacklist EmptyString]
      [("E:\"%string, DRIVE_REMOVABLE); ("C:\"%string, DRIVE_OTHER)] 5 EmptyString true)) in H. destruct H as [H|[]]. discriminate H.
Defined.

(** A device whose connection was refused is listed as connected. *)
Example blocked_devices_are_connected :
  let st := device_run map_to_list new_device_control [DcBlacklist "S1"; DcReport (usb "S1") ACT_CONNECTED EmptyString 7] in
  (de_action <$> dc_events st) = [ACT_BLOCKED] /\ connected_devices map_to_list st = [usb "S1"].
Proof. vm_compute. by split. Qed.

Lemma rules_after_adds rules : forall st, dc_rules (foldl add_rule st rules) = foldl (push_bounded MAX_DEVICE_RULES) (dc_rules st) rules.
Proof. induction rules as [|r rules IH]; intros st; [done|]. cbn [foldl]. by rewrite IH. Qed.

(** The list of rules is cut at its front, where the rules of highest precedence are: after
    a thousand others no rule of before decides anything. *)
Lemma oldest_rules_are_dropped (st : DeviceControl) (rules : list DeviceRule) (device : DeviceInfo) :
  Z.of_nat (length (dc_rules st)) <= MAX_DEVICE_RULES -> Z.of_nat (length rules) = MAX_DEVICE_RULES ->
  first_policy device (dc_rules (foldl add_rule st rules)) (dc_default_policy st) = first_policy device rules (dc_default_policy st).
Proof.
  intros Hst Hl. rewrite rules_after_adds. rewrite <- (last_n_all MAX_DEVICE_RULES (dc_rules st) Hst), push_bounded_from by done.
  rewrite last_n_app, Hl by lia. f_equal. unfold last_n.
  by rewrite Z.sub_diag, Nat.sub_0_r, drop_all.
Qed.
