(* ===== verification/ForensicTimeline.v ===== *)
(** * ForensicTimeline: events, causal chains and the kill chain

    Models src/src/engines/forensic_timeline_engine.cpp and its header.  An ingestion takes
    its id and then three locks in turn (link, push, update), between which other threads
    may run: it is four steps of [timeline_step].  Times are nanoseconds. *)
From S2P Require Import Prelude BoundedLog Float64 Asn1 Observation Text Threat.

Inductive KillChainStage :=
| UNKNOWN | RECONNAISSANCE | WEAPONIZATION | DELIVERY | EXPLOITATION | INSTALLATION | COMMAND_CONTROL | ACTIONS_ON_OBJ.
Inductive TimelineEventType :=
| PROCESS | NETWORK | FILE_ACCESS | REGISTRY | MEMORY | DNS | CREDENTIAL | EVASION.

#[export] Instance KillChainStage_eq_decision : EqDecision KillChainStage.
Proof. solve_decision. Defined.

Definition stage_value (s : KillChainStage) : Z :=
  match s with
  | UNKNOWN => 0 | RECONNAISSANCE => 1 | WEAPONIZATION => 2 | DELIVERY => 3 | EXPLOITATION => 4 | INSTALLATION => 5
  | COMMAND_CONTROL => 6 | ACTIONS_ON_OBJ => 7
  end.

Record TimelineEvent := TlEvent {
  te_id : Z;
  te_timestamp : Z;
  te_type : TimelineEventType;
  te_stage : KillChainStage;
  te_level : ThreatLevel;
  te_category : ThreatCategory;
  te_process_id : Z;
  te_process_name : string;
  te_file_path : string;
  te_source_ip : string;
  te_description : string;
  te_evidence : string;
  te_causal_parent : Z;
  te_confidence : double;
}.

Record CausalChain := Chain {
  ch_id : Z;
  ch_event_ids : list Z;
  ch_max_stage : KillChainStage;
  ch_max_level : ThreatLevel;
  ch_summary : string;
}.

Record KillChainProgress := Progress {
  kp_stage_counts : list Z;
  kp_furthest : KillChainStage;
  kp_total_events : Z;
  kp_multi_stage_detected : bool;
}.

Definition MAX_TIMELINE_EVENTS : Z := 5000.
Definition MAX_CHAINS : Z := 200.

Record Timeline := MkTimeline {
  ft_events_processed : Z;
  ft_threats_detected : Z;
  ft_next_id : Z;
  ft_next_chain_id : Z;
  ft_events : list TimelineEvent;
  ft_chains : list CausalChain;
}.

Definition new_timeline : Timeline := MkTimeline 0 0 1 1 [] [].

(** ** Maps between enumerations *)

Definition stage_name (stage : KillChainStage) : string :=
  match stage with
  | RECONNAISSANCE => "Reconnaissance" | WEAPONIZATION => "Weaponization" | DELIVERY => "Delivery"
  | EXPLOITATION => "Exploitation" | INSTALLATION => "Installation" | COMMAND_CONTROL => "Command & Control"
  | ACTIONS_ON_OBJ => "Actions on Objectives" | UNKNOWN => "Unknown"
  end.

Definition map_category_to_stage (cat : ThreatCategory) : KillChainStage :=
  match cat with
  | NETWORK_SCAN | RAW_SOCKET_PROBE => RECONNAISSANCE
  | ENTROPY_ANOMALY | SUSPICIOUS_BINARY => WEAPONIZATION
  | SYN_FLOOD | UDP_FLOOD | ARP_POISON => DELIVERY
  | MEMORY_INJECTION | PROCESS_HOLLOW | DLL_INJECTION | APC_INJECTION | SHELLCODE | REFLECTIVE_LOAD
  | DIRECT_SYSCALL | KERBEROS_ATTACK | NTLM_COERCE | CREDENTIAL_DUMP => EXPLOITATION
  | BACKDOOR_ACCOUNT | REGISTRY_TAMPER | FILELESS_EXEC | YARA_RULE_MATCH => INSTALLATION
  | DNS_TUNNEL | ICMP_COVERT | DGA_DOMAIN => COMMAND_CONTROL
  | RANSOMWARE | FILE_ENCRYPT | ANTI_FORENSIC | FILE_INTEGRITY_VIOLATION => ACTIONS_ON_OBJ
  | EVASION_AMSI | EVASION_ETW | EVASION_UNHOOK | PPID_SPOOF => EXPLOITATION
  | _ => UNKNOWN
  end.

Definition map_observation_to_stage (kind : ObservationKind) : KillChainStage :=
  match kind with
  | NETWORK_CONNECTION | DNS_ANOMALY => COMMAND_CONTROL
  | PROCESS_MEMORY | PROCESS_LINEAGE => EXPLOITATION
  | REGISTRY_PERSISTENCE => INSTALLATION
  | FILE_INTEGRITY => ACTIONS_ON_OBJ
  | ARTIFACT_SIGNATURE | ARTIFACT_STRUCTURE | ARTIFACT_TRUST | INVALID_PE | UNSIGNED_RISKY_LOCATION
  | INVALID_SIGNATURE => WEAPONIZATION
  | HIGH_ENTROPY => WEAPONIZATION
  | YARA_MATCH => INSTALLATION
  | _ => UNKNOWN
  end.

Definition map_category_to_type (cat : ThreatCategory) : TimelineEventType :=
  match cat with
  | MEMORY_INJECTION | PROCESS_HOLLOW | DLL_INJECTION | APC_INJECTION | REFLECTIVE_LOAD | SHELLCODE => MEMORY
  | NETWORK_SCAN | SYN_FLOOD | UDP_FLOOD | ARP_POISON | ICMP_COVERT | RAW_SOCKET_PROBE => NETWORK
  | DNS_TUNNEL | DGA_DOMAIN => DNS
  | REGISTRY_TAMPER | BACKDOOR_ACCOUNT => REGISTRY
  | RANSOMWARE | FILE_ENCRYPT | FILE_INTEGRITY_VIOLATION | ANTI_FORENSIC => FILE_ACCESS
  | KERBEROS_ATTACK | NTLM_COERCE | CREDENTIAL_DUMP => CREDENTIAL
  | EVASION_AMSI | EVASION_ETW | EVASION_UNHOOK | PPID_SPOOF | DIRECT_SYSCALL => EVASION
  | _ => PROCESS
  end.

Definition map_observation_to_type (kind : ObservationKind) : TimelineEventType :=
  match kind with
  | NETWORK_CONNECTION => NETWORK
  | DNS_ANOMALY => DNS
  | PROCESS_MEMORY => MEMORY
  | PROCESS_LINEAGE => PROCESS
  | REGISTRY_PERSISTENCE => REGISTRY
  | FILE_INTEGRITY => FILE_ACCESS
  | _ => PROCESS
  end.

(** ** Ingestion *)

(** The timeline event of a threat and of an observation, before its parent is known. *)
Definition event_of_threat (id : Z) (ev : ThreatEvent) : TimelineEvent :=
  TlEvent id (ev_timestamp ev) (map_category_to_type (ev_category ev)) (map_category_to_stage (ev_category ev))
    (ev_level ev) (ev_category ev) (ev_process_id ev) (ev_process_name ev) (ev_file_path ev) (ev_source_ip ev)
    (ev_description ev) EmptyString 0 (dz 1).

Definition event_of_observation (id : Z) (obs : SecurityObservation) : TimelineEvent :=
  TlEvent id (timestamp obs) (map_observation_to_type (kind obs)) (map_observation_to_stage (kind obs))
    (suggested_level obs) NONE (process_id obs) (process_name obs) (file_path obs) EmptyString
    (evidence obs) (source_id obs) 0 (confidence obs).

Definition set_parent (ev : TimelineEvent) (parent : Z) : TimelineEvent :=
  TlEvent (te_id ev) (te_timestamp ev) (te_type ev) (te_stage ev) (te_level ev) (te_category ev) (te_process_id ev)
    (te_process_name ev) (te_file_path ev) (te_source_ip ev) (te_description ev) (te_evidence ev) parent (te_confidence ev).

(** The walk from the back: the latest other event of the process, unless one older than
    300 seconds comes first. *)
Fixpoint find_parent (ev : TimelineEvent) (events : list TimelineEvent) : option Z :=
  match events with
  | [] => None
  | it :: events =>
      if (te_process_id it =? te_process_id ev) && negb (te_id it =? te_id ev) then Some (te_id it)
      else if 300 <? Z.quot (te_timestamp ev - te_timestamp it) (10 ^ 9) then None
      else find_parent ev events
  end.

Definition link_causal (st : Timeline) (ev : TimelineEvent) : TimelineEvent :=
  if te_process_id ev =? 0 then ev
  else match find_parent ev (reverse (ft_events st)) with Some id => set_parent ev id | None => ev end.

Definition take_id (st : Timeline) : Timeline :=
  MkTimeline (ft_events_processed st) (ft_threats_detected st) (u64 (ft_next_id st + 1)) (ft_next_chain_id st)
    (ft_events st) (ft_chains st).

Definition push_event (st : Timeline) (ev : TimelineEvent) : Timeline :=
  MkTimeline (ft_events_processed st) (ft_threats_detected st) (ft_next_id st) (ft_next_chain_id st)
    (push_bounded MAX_TIMELINE_EVENTS (ft_events st) ev) (ft_chains st).

Definition max_stage (a b : KillChainStage) : KillChainStage := if stage_value a <? stage_value b then b else a.

Definition extend_chain (chain : CausalChain) (ev : TimelineEvent) : CausalChain :=
  Chain (ch_id chain) (ch_event_ids chain ++ [te_id ev]) (max_stage (ch_max_stage chain) (te_stage ev))
    (max_level (ch_max_level chain) (te_level ev)) (ch_summary chain).

(** The first chain that holds the parent, extended; [None] when none does. *)
Fixpoint extend_first (chains : list CausalChain) (ev : TimelineEvent) : option (list CausalChain) :=
  match chains with
  | [] => None
  | chain :: chains =>
      if bool_decide (te_causal_parent ev ∈ ch_event_ids chain) then Some (extend_chain chain ev :: chains)
      else cons chain <$> extend_first chains ev
  end.

Definition new_chain (id : Z) (ev : TimelineEvent) : CausalChain :=
  Chain id [te_id ev] (te_stage ev) (te_level ev) (stage_name (te_stage ev) +:+ ": " +:+ te_description ev).

Definition starts_chain (ev : TimelineEvent) : bool :=
  (level_value MEDIUM <=? level_value (te_level ev)) || negb (bool_decide (te_stage ev = UNKNOWN)).

Definition set_chains (st : Timeline) (next : Z) (chains : list CausalChain) : Timeline :=
  MkTimeline (ft_events_processed st) (ft_threats_detected st) (ft_next_id st) next (ft_events st) chains.

Definition update_chains (st : Timeline) (ev : TimelineEvent) : Timeline :=
  match (if te_causal_parent ev =? 0 then None else extend_first (ft_chains st) ev) with
  | Some chains => set_chains st (ft_next_chain_id st) chains
  | None =>
      if starts_chain ev then
        set_chains st (u64 (ft_next_chain_id st + 1))
          (push_bounded MAX_CHAINS (ft_chains st) (new_chain (ft_next_chain_id st) ev))
      else st
  end.

Definition count_events (st : Timeline) (threat : bool) : Timeline :=
  MkTimeline (u64 (ft_events_processed st + 1)) (if threat then u64 (ft_threats_detected st + 1) else ft_threats_detected st)
    (ft_next_id st) (ft_next_chain_id st) (ft_events st) (ft_chains st).

(** An ingestion that no other thread interrupts. *)
Definition ingest_threat (st : Timeline) (ev : ThreatEvent) : Timeline :=
  let te := event_of_threat (ft_next_id st) ev in
  let st := take_id st in
  let te := link_causal st te in
  let st := update_chains (push_event st te) te in
  count_events st (level_value HIGH <=? level_value (te_level te)).

Definition ingest_observation (st : Timeline) (obs : SecurityObservation) : Timeline :=
  let te := event_of_observation (ft_next_id st) obs in
  let st := take_id st in
  let te := link_causal st te in
  let st := update_chains (push_event st te) te in
  count_events st false.

(** ** Attacks of several stages *)

Definition multi_marker : string := "[MULTI-STAGE]".

Definition event_by_id (events : list TimelineEvent) (eid : Z) : option TimelineEvent :=
  find (fun ev => te_id ev =? eid) events.

(** The array [stages] after the loops over the chain and the log. *)
Definition stages_seen (events : list TimelineEvent) (chain : CausalChain) : list bool :=
  foldl (fun stages eid =>
           match event_by_id events eid with
           | Some ev => <[Z.to_nat (stage_value (te_stage ev)) := true]> stages
           | None => stages
           end) (replicate 8 false) (ch_event_ids chain).

Definition distinct_stages (events : list TimelineEvent) (chain : CausalChain) : Z :=
  Z.of_nat (length (filter (fun b => b = true) (drop 1 (stages_seen events chain)))).

Definition multi_alert (distinct size now : Z) : ThreatEvent :=
  Event 0 now CRITICAL ANTI_FORENSIC 0 EmptyString EmptyString
    ("Multi-stage attack detected: " +:+ print_int distinct +:+ " kill chain stages observed across " +:+ print_int size +:+ " events")
    EmptyString 0 false false.

(** The body of the loop over the chains. *)
Definition detect_chain (events : list TimelineEvent) (now : Z) (chain : CausalChain) : CausalChain * list output :=
  let distinct := distinct_stages events chain in
  if (3 <=? distinct) && negb (find_sub multi_marker (ch_summary chain)) then
    (Chain (ch_id chain) (ch_event_ids chain) (ch_max_stage chain) (ch_max_level chain)
       ("[MULTI-STAGE] " +:+ ch_summary chain),
     [Threat (multi_alert distinct (Z.of_nat (length (ch_event_ids chain))) now)])
  else (chain, []).

(** [callback] says whether a threat callback is set. *)
Definition detect_multi_stage (callback : bool) (st : Timeline) (now : Z) : Timeline * list output :=
  if negb callback then (st, [])
  else
    let results := detect_chain (ft_events st) now <$> ft_chains st in
    (set_chains st (ft_next_chain_id st) (fst <$> results), mjoin (snd <$> results)).

(** ** Queries *)

Definition query_timeline (st : Timeline) (n : Z) : list TimelineEvent := latest n (ft_events st).

(** The walk from the back collects until there are [n]. *)
Fixpoint collect (f : TimelineEvent -> bool) (n : Z) (events result : list TimelineEvent) : list TimelineEvent :=
  match events with
  | [] => result
  | ev :: events =>
      if Z.of_nat (length result) <? n then collect f n events (if f ev then result ++ [ev] else result) else result
  end.

Definition query_by_pid (st : Timeline) (pid n : Z) : list TimelineEvent :=
  reverse (collect (fun ev => te_process_id ev =? pid) n (reverse (ft_events st)) []).

Definition query_by_stage (st : Timeline) (stage : KillChainStage) (n : Z) : list TimelineEvent :=
  reverse (collect (fun ev => bool_decide (te_stage ev = stage)) n (reverse (ft_events st)) []).

Definition query_time_range (st : Timeline) (from to : Z) : list TimelineEvent :=
  filter (fun ev => from <= te_timestamp ev /\ te_timestamp ev <= to) (ft_events st).

Definition causal_chains (st : Timeline) (n : Z) : list CausalChain := latest n (ft_chains st).

Definition progress_step (p : list Z * KillChainStage) (ev : TimelineEvent) : list Z * KillChainStage :=
  (alter Z.succ (Z.to_nat (stage_value (te_stage ev))) p.1, max_stage p.2 (te_stage ev)).

Definition kill_chain_progress (st : Timeline) : KillChainProgress :=
  let '(counts, furthest) := foldl progress_step (replicate 8 0, UNKNOWN) (ft_events st) in
  Progress counts furthest (Z.of_nat (length (ft_events st)))
    (3 <=? Z.of_nat (length (filter (fun c => 0 < c) (drop 1 counts)))).

(** ** Threads *)

(** An ingestion on its way: with its id, with its parent, and in the log. *)
Inductive flight := Linking (ev : TimelineEvent) | Pushing (ev : TimelineEvent) | Updating (ev : TimelineEvent).

(** The state, the ingestions under way, and, for the statements only, all events that were
    ever pushed. *)
Record timeline_system := Sys {
  s_timeline : Timeline;
  s_flights : list flight;
  s_history : list TimelineEvent;
}.

Definition new_system : timeline_system := Sys new_timeline [] [].

(** The event an ingestion of a threat or of an observation makes. *)
Definition made_event (source : ThreatEvent + SecurityObservation) (id : Z) : TimelineEvent :=
  match source with inl ev => event_of_threat id ev | inr obs => event_of_observation id obs end.

Inductive timeline_step : timeline_system -> timeline_system -> Prop :=
| step_link t fs fs' h ev : fs ≡ₚ Linking ev :: fs' ->
    timeline_step (Sys t fs h) (Sys t (Pushing (link_causal t ev) :: fs') h)
| step_push t fs fs' h ev : fs ≡ₚ Pushing ev :: fs' ->
    timeline_step (Sys t fs h) (Sys (push_event t ev) (Updating ev :: fs') (h ++ [ev]))
| step_update t fs fs' h ev threat : fs ≡ₚ Updating ev :: fs' ->
    timeline_step (Sys t fs h) (Sys (count_events (update_chains t ev) threat) fs' h)
| step_detect t fs h callback now :
    timeline_step (Sys t fs h) (Sys (fst (detect_multi_stage callback t now)) fs h).

(** The systems reachable while [n] ingestions began. *)
Inductive timeline_run : nat -> timeline_system -> Prop :=
| run_new : timeline_run 0 new_system
| run_take n t fs h source : timeline_run n (Sys t fs h) ->
    timeline_run (S n) (Sys (take_id t) (Linking (made_event source (ft_next_id t)) :: fs) h)
| run_step n s s' : timeline_run n s -> timeline_step s s' -> timeline_run n s'.

(** ** What a chain is *)

(** The events behind the ids of a chain: all were pushed and belong to one process, each
    but the first has its parent before it, and the stage and the level are the highest. *)
Record chain_of (h : list TimelineEvent) (c : CausalChain) (evs : list TimelineEvent) : Prop := {
  co_ids : ch_event_ids c = te_id <$> evs;
  co_first : evs <> [];
  co_pushed : forall e, In e evs -> In e h;
  co_process : forall e e', In e evs -> In e' evs -> te_process_id e = te_process_id e';
  co_parent : forall i e, evs !! S i = Some e -> exists j p, (j <= i)%nat /\ evs !! j = Some p /\ te_id p = te_causal_parent e;
  co_stage : forall e, In e evs -> stage_value (te_stage e) <= stage_value (ch_max_stage c);
  co_stage_in : exists e, In e evs /\ te_stage e = ch_max_stage c;
  co_level : forall e, In e evs -> level_value (te_level e) <= level_value (ch_max_level c);
  co_level_in : exists e, In e evs /\ te_level e = ch_max_level c;
}.

Definition chain_ok (h : list TimelineEvent) (c : CausalChain) : Prop := exists evs, chain_of h c evs.

(** A parent is an earlier event of the same process. *)
Definition parent_ok (h : list TimelineEvent) (ev : TimelineEvent) : Prop :=
  te_causal_parent ev = 0 \/ exists p, In p h /\ te_id p = te_causal_parent ev /\ te_process_id p = te_process_id ev.

Definition unpushed (fs : list flight) : list TimelineEvent :=
  omap (fun f => match f with Linking ev | Pushing ev => Some ev | Updating _ => None end) fs.
Definition updating (fs : list flight) : list TimelineEvent :=
  omap (fun f => match f with Updating ev => Some ev | _ => None end) fs.

Record timeline_inv (n : nat) (s : timeline_system) : Prop := {
  ti_next : ft_next_id (s_timeline s) = 1 + Z.of_nat n;
  ti_events : ft_events (s_timeline s) = last_n MAX_TIMELINE_EVENTS (s_history s);
  ti_ids : NoDup (te_id <$> (unpushed (s_flights s) ++ s_history s));
  ti_range : Forall (fun e => 1 <= te_id e <= Z.of_nat n) (unpushed (s_flights s) ++ s_history s);
  ti_linking : forall ev, In (Linking ev) (s_flights s) -> te_causal_parent ev = 0;
  ti_pushing : forall ev, In (Pushing ev) (s_flights s) -> parent_ok (s_history s) ev;
  ti_updating : forall ev, In ev (updating (s_flights s)) -> In ev (s_history s);
  ti_parents : Forall (parent_ok (s_history s)) (s_history s);
  ti_chains : Forall (chain_ok (s_history s)) (ft_chains (s_timeline s));
  ti_once : NoDup (mjoin (ch_event_ids <$> ft_chains (s_timeline s)) ++ (te_id <$> updating (s_flights s)));
}.

Lemma find_parent_spec ev events id : find_parent ev events = Some id ->
  exists p, In p events /\ te_id p = id /\ te_process_id p = te_process_id ev.
Proof.
  induction events as [|it events IH]; cbn [find_parent]; [done|].
  destruct (_ && _) eqn:E.
  - intros [= <-]. apply andb_true_iff in E as [E _]. exists it. split; [by left|]. split; [done|]. by apply Z.eqb_eq.
  - destruct (_ <? _); [done|]. intros H. destruct (IH H) as (p & Hp & H1). exists p. split; [by right|done].
Qed.

Lemma link_parent_ok t h ev : ft_events t = last_n MAX_TIMELINE_EVENTS h -> te_causal_parent ev = 0 ->
  parent_ok h (link_causal t ev) /\ te_id (link_causal t ev) = te_id ev.
Proof.
  intros Ht H0. unfold link_causal. destruct (te_process_id ev =? 0); [by split; [left|]|].
  destruct (find_parent ev _) as [id|] eqn:E; [|by split; [left|]]. split; [|done]. right.
  apply find_parent_spec in E as (p & Hp & Hid & Hpid). exists p. split; [|by split].
  apply list_elem_of_In in Hp. rewrite elem_of_reverse, Ht in Hp. apply list_elem_of_In in Hp. by eapply in_last_n.
Qed.

Lemma parent_ok_mono h h' ev : parent_ok h ev -> parent_ok (h ++ h') ev.
Proof. intros [H|(p & Hp & H)]; [by left|]. right. exists p. split; [|done]. apply in_or_app. by left. Qed.

Lemma chain_ok_mono h h' c : chain_ok h c -> chain_ok (h ++ h') c.
Proof.
  intros (evs & H). exists evs. destruct H. split; try done. intros e He. apply in_or_app. left. auto.
Qed.

Lemma max_stage_spec a b : stage_value a <= stage_value (max_stage a b) /\ stage_value b <= stage_value (max_stage a b) /\
  (max_stage a b = a \/ max_stage a b = b).
Proof. unfold max_stage. destruct (Z.ltb_spec (stage_value a) (stage_value b)); split_and!; auto; lia. Qed.

Lemma max_level_cases a b : level_value a <= level_value (max_level a b) /\ level_value b <= level_value (max_level a b) /\
  (max_level a b = a \/ max_level a b = b).
Proof. unfold max_level. destruct (Z.ltb_spec (level_value a) (level_value b)); split_and!; auto; lia. Qed.

Lemma new_chain_ok h id ev : In ev h -> chain_ok h (new_chain id ev).
Proof.
  intros Hev. exists [ev]. split; cbn; try done.
  - intros e [<-|[]]. done.
  - intros e e' [<-|[]] [<-|[]]. done.
  - intros e [<-|[]]. done.
  - exists ev. by split; [left|].
  - intros e [<-|[]]. done.
  - exists ev. by split; [left|].
Qed.

Lemma in_snoc {A} (l : list A) x y : In y (l ++ [x]) <-> In y l \/ y = x.
Proof. rewrite in_app_iff. cbn. split; [intros [H|[H|[]]]; auto|intros [H| ->]; auto]. Qed.

Lemma NoDup_fmap_elem {A B} (f : A -> B) l x y : NoDup (f <$> l) -> In x l -> In y l -> f x = f y -> x = y.
Proof.
  intros Hnd (i & Hi)%list_elem_of_In%list_elem_of_lookup (j & Hj)%list_elem_of_In%list_elem_of_lookup E.
  assert (i = j) as -> by (apply (NoDup_lookup _ i j (f x) Hnd); rewrite list_lookup_fmap; [by rewrite Hi|by rewrite Hj, E]).
  congruence.
Qed.

(** Extending a chain by an event whose parent it holds. *)
Lemma extend_chain_ok h c ev : NoDup (te_id <$> h) -> chain_ok h c -> In ev h -> parent_ok h ev ->
  te_causal_parent ev <> 0 -> te_causal_parent ev ∈ ch_event_ids c -> chain_ok h (extend_chain c ev).
Proof.
  intros Hnd (evs & H) Hev Hp H0 Hin. destruct H as [Hids Hne Hpushed Hproc Hpar Hs [es [Hes1 Hes2]] Hl [el [Hel1 Hel2]]].
  rewrite Hids in Hin. apply list_elem_of_fmap in Hin as (p & Hpid & Hpin%list_elem_of_In).
  assert (Hsame : te_process_id p = te_process_id ev).
  { destruct Hp as [|(q & Hq & Hqid & <-)]; [done|]. f_equal.
    apply (NoDup_fmap_elem te_id h); [done|by apply Hpushed|done|congruence]. }
  destruct (max_stage_spec (ch_max_stage c) (te_stage ev)) as (S1 & S2 & S3).
  destruct (max_level_cases (ch_max_level c) (te_level ev)) as (L1 & L2 & L3).
  exists (evs ++ [ev]). split; cbn.
  - by rewrite fmap_app, Hids.
  - by destruct evs.
  - intros e [He| ->]%in_snoc; auto.
  - assert (Ha : forall e, In e (evs ++ [ev]) -> te_process_id e = te_process_id p).
    { intros e [He| ->]%in_snoc; [by apply Hproc|done]. }
    intros e e' He He'. by rewrite (Ha e He), (Ha e' He').
  - intros i e He. apply lookup_app_Some in He as [He|[Hlen He]].
    + destruct (Hpar i e He) as (j & q & Hj & Hq & Hid). exists j, q. split_and!; try done. by apply lookup_app_l_Some.
    + apply list_elem_of_In, list_elem_of_lookup in Hpin as [j Hj]. pose proof (lookup_lt_Some _ _ _ Hj) as Hlt.
      assert (e = ev) as -> by (destruct (S i - length evs)%nat; by simplify_eq/=).
      exists j, p. split; [lia|]. split; [by apply lookup_app_l_Some|done].
  - intros e [He| ->]%in_snoc; [|done]. specialize (Hs e He). lia.
  - destruct S3 as [-> | ->]; [exists es; rewrite in_snoc; auto|exists ev; rewrite in_snoc; auto].
  - intros e [He| ->]%in_snoc; [|done]. specialize (Hl e He). lia.
  - destruct L3 as [-> | ->]; [exists el; rewrite in_snoc; auto|exists ev; rewrite in_snoc; auto].
Qed.

Lemma extend_first_spec ev chains chains' : extend_first chains ev = Some chains' ->
  exists l c r, chains = l ++ c :: r /\ te_causal_parent ev ∈ ch_event_ids c /\ chains' = l ++ extend_chain c ev :: r.
Proof.
  revert chains'. induction chains as [|c chains IH]; intros chains'; cbn [extend_first]; [done|].
  destruct (bool_decide_reflect (te_causal_parent ev ∈ ch_event_ids c)) as [Hin|_].
  - intros [= <-]. by exists [], c, chains.
  - destruct (extend_first chains ev) as [cs|]; [|done]. intros [= <-]. destruct (IH cs eq_refl) as (l & c' & r & -> & H & ->).
    by exists (c :: l), c', r.
Qed.

(** ** The invariant *)

Lemma in_updating fs ev : In ev (updating fs) <-> In (Updating ev) fs.
Proof.
  unfold updating. rewrite <- list_elem_of_In, list_elem_of_omap, <- list_elem_of_In. split.
  - by intros ([e|e|e] & H & [= ->]).
  - intros H. by exists (Updating ev).
Qed.

#[local] Instance unpushed_perm : Proper ((≡ₚ) ==> (≡ₚ)) unpushed.
Proof. intros fs fs' H. unfold unpushed. by rewrite H. Qed.
#[local] Instance updating_perm : Proper ((≡ₚ) ==> (≡ₚ)) updating.
Proof. intros fs fs' H. unfold updating. by rewrite H. Qed.

(** The ids the chains and the flights hold, up to their order. *)
Definition chain_ids (chains : list CausalChain) : list Z := mjoin (ch_event_ids <$> chains).

Lemma chain_ids_app l k : chain_ids (l ++ k) = chain_ids l ++ chain_ids k.
Proof. unfold chain_ids. by rewrite fmap_app, join_app. Qed.

Lemma chain_ids_cons c k : chain_ids (c :: k) = ch_event_ids c ++ chain_ids k.
Proof. done. Qed.

Lemma chain_ids_extend l c r ev : chain_ids (l ++ extend_chain c ev :: r) ≡ₚ te_id ev :: chain_ids (l ++ c :: r).
Proof.
  rewrite !chain_ids_app, !chain_ids_cons. cbn [extend_chain ch_event_ids].
  replace (chain_ids l ++ (ch_event_ids c ++ [te_id ev]) ++ chain_ids r)
    with ((chain_ids l ++ ch_event_ids c) ++ te_id ev :: chain_ids r) by (by rewrite <- !app_assoc).
  by rewrite <- Permutation_middle, app_assoc.
Qed.

Lemma chain_ids_pushed h chains id : Forall (chain_ok h) chains -> In id (chain_ids chains) -> In id (te_id <$> h).
Proof.
  intros H. induction H as [|c chains (evs & Hc) _ IH]; [done|]. rewrite chain_ids_cons.
  intros [Hid|Hid]%in_app_or; [|by apply IH]. rewrite (co_ids _ _ _ Hc) in Hid.
  apply list_elem_of_In, list_elem_of_fmap in Hid as (e & -> & He%list_elem_of_In).
  apply list_elem_of_In, list_elem_of_fmap. exists e. split; [done|]. apply list_elem_of_In. by apply (co_pushed _ _ _ Hc).
Qed.

Lemma detect_chains events now chains h : Forall (chain_ok h) chains ->
  Forall (chain_ok h) (fst <$> (detect_chain events now <$> chains)) /\
  chain_ids (fst <$> (detect_chain events now <$> chains)) = chain_ids chains.
Proof.
  intros H. induction H as [|c chains (evs & Hc) _ [IH1 IH2]]; [done|]. cbn [fmap list_fmap].
  assert (E : chain_ok h (detect_chain events now c).1 /\ ch_event_ids (detect_chain events now c).1 = ch_event_ids c).
  { unfold detect_chain. destruct (_ && _); (split; [|done]); exists evs; destruct Hc; by split. }
  destruct E as [E1 E2]. split; [by constructor|]. rewrite !chain_ids_cons. by rewrite E2, IH2.
Qed.

Lemma update_chains_ok t h ev (others : list Z) :
  NoDup (te_id <$> h) -> Forall (chain_ok h) (ft_chains t) -> In ev h -> parent_ok h ev ->
  NoDup (chain_ids (ft_chains t) ++ te_id ev :: others) ->
  let t' := update_chains t ev in
  Forall (chain_ok h) (ft_chains t') /\ NoDup (chain_ids (ft_chains t') ++ others) /\
  ft_events t' = ft_events t /\ ft_next_id t' = ft_next_id t.
Proof.
  intros Hnd Hch Hev Hp Hon. unfold update_chains.
  assert (Hdrop : NoDup (chain_ids (ft_chains t) ++ others)).
  { apply NoDup_app in Hon as (H1 & H2 & H3). apply NoDup_cons in H3 as [_ H3]. apply NoDup_app. split_and!; try done.
    intros x Hx Hy. apply (H2 x Hx). by right. }
  assert (Hadd : NoDup (te_id ev :: chain_ids (ft_chains t) ++ others)) by (by rewrite Permutation_middle).
  destruct (if te_causal_parent ev =? 0 then None else extend_first (ft_chains t) ev) as [chains|] eqn:E.
  - destruct (Z.eqb_spec (te_causal_parent ev) 0) as [|H0]; [done|].
    apply extend_first_spec in E as (l & c & r & Ech & Hin & ->). cbn [set_chains ft_chains ft_events ft_next_id]. rewrite Ech in Hch, Hadd.
    apply Forall_app in Hch as [Hl Hr]. apply Forall_cons in Hr as [Hc Hr]. split_and!; try done.
    + apply Forall_app. split; [done|]. constructor; [|done]. by apply extend_chain_ok.
    + by rewrite chain_ids_extend.
  - destruct (starts_chain ev); [|by split_and!]. cbn [set_chains ft_chains ft_events ft_next_id].
    destruct (last_n_suffix MAX_CHAINS (ft_chains t ++ [new_chain (ft_next_chain_id t) ev])) as [before Eb].
    fold (push_bounded MAX_CHAINS (ft_chains t) (new_chain (ft_next_chain_id t) ev)) in Eb.
    set (chains := push_bounded _ _ _) in *. split_and!; try done.
    + assert (Ha : Forall (chain_ok h) (ft_chains t ++ [new_chain (ft_next_chain_id t) ev])).
      { apply Forall_app. split; [done|]. constructor; [|done]. by apply new_chain_ok. }
      rewrite Eb in Ha. by apply Forall_app in Ha as [_ Ha].
    + assert (Ha : NoDup (chain_ids (ft_chains t ++ [new_chain (ft_next_chain_id t) ev]) ++ others)).
      { rewrite chain_ids_app, <- app_assoc. exact Hon. }
      rewrite Eb, chain_ids_app, <- app_assoc in Ha.
      by apply NoDup_app in Ha as (_ & _ & Ha).
Qed.

Lemma in_perm_cons (f g : flight) fs fs' : fs ≡ₚ g :: fs' -> In f fs' -> In f fs.
Proof. intros H Hf. apply (Permutation_in f (symmetry H)). by right. Qed.

Lemma link_id t ev : te_id (link_causal t ev) = te_id ev.
Proof. unfold link_causal. destruct (_ =? _); [done|]. by destruct (find_parent _ _). Qed.

Lemma inv_link n t fs fs' h ev : fs ≡ₚ Linking ev :: fs' -> timeline_inv n (Sys t fs h) ->
  timeline_inv n (Sys t (Pushing (link_causal t ev) :: fs') h).
Proof.
  intros Hfs [H1 H2 H3 H4 H5 H6 H7 H8 H9 H10]. cbn in *.
  assert (Hu : unpushed fs ≡ₚ ev :: unpushed fs') by (by rewrite Hfs).
  assert (Hup : updating fs ≡ₚ updating fs') by (by rewrite Hfs).
  assert (Hin : In (Linking ev) fs) by (apply (Permutation_in _ (symmetry Hfs)); by left).
  destruct (link_parent_ok t h ev H2 (H5 ev Hin)) as [Hp Hid].
  split; cbn; try done.
  - rewrite Hu in H3. cbn in *. by rewrite Hid.
  - rewrite Hu in H4. cbn in *. apply Forall_cons in H4 as [Hr H4]. constructor; [by rewrite Hid|done].
  - intros e [He|He]; [done|]. apply H5. by eapply in_perm_cons.
  - intros e [[= <-]|He]; [done|]. apply H6. by eapply in_perm_cons.
  - intros e He. apply H7. by apply (Permutation_in e (symmetry Hup)).
  - by rewrite <- Hup.
Qed.

Lemma inv_push n t fs fs' h ev : fs ≡ₚ Pushing ev :: fs' -> timeline_inv n (Sys t fs h) ->
  timeline_inv n (Sys (push_event t ev) (Updating ev :: fs') (h ++ [ev])).
Proof.
  intros Hfs [H1 H2 H3 H4 H5 H6 H7 H8 H9 H10]. cbn in *.
  assert (Hu : unpushed fs ≡ₚ ev :: unpushed fs') by (by rewrite Hfs).
  assert (Hup : updating fs ≡ₚ updating fs') by (by rewrite Hfs).
  assert (Hin : In (Pushing ev) fs) by (apply (Permutation_in _ (symmetry Hfs)); by left).
  assert (Hall : unpushed fs ++ h ≡ₚ unpushed fs' ++ h ++ [ev]).
  { rewrite Hu. cbn. by rewrite app_assoc, <- Permutation_cons_append. }
  assert (Hfresh : ~ In (te_id ev) (te_id <$> h)).
  { rewrite Hu in H3. cbn in H3. apply NoDup_cons in H3 as [H3 _]. intros H. apply H3.
    rewrite fmap_app. apply elem_of_app. right. by apply list_elem_of_In. }
  split; cbn; try done.
  - rewrite H2. by rewrite last_n_push.
  - by rewrite <- Hall.
  - by rewrite <- Hall.
  - intros e [He|He]; [done|]. apply H5. by eapply in_perm_cons.
  - intros e [He|He]; [done|]. apply parent_ok_mono, H6. by eapply in_perm_cons.
  - intros e [<-|He]; apply in_or_app; [right; by left|left]. apply H7. by apply (Permutation_in e (symmetry Hup)).
  - apply Forall_app. split; [|constructor; [|done]].
    + eapply Forall_impl; [exact H8|]. intros e. apply parent_ok_mono.
    + by apply parent_ok_mono, H6.
  - eapply Forall_impl; [exact H9|]. intros c. apply chain_ok_mono.
  - fold (chain_ids (ft_chains t)) in *. rewrite <- Permutation_middle. constructor.
    + rewrite elem_of_app. intros [Hc|Hc].
      * apply Hfresh, (chain_ids_pushed h (ft_chains t)); [done|by apply list_elem_of_In].
      * apply list_elem_of_fmap in Hc as (e & He & Hc%list_elem_of_In). apply Hfresh. rewrite He.
        apply list_elem_of_In, list_elem_of_fmap. exists e. split; [done|]. apply list_elem_of_In, H7.
        by apply (Permutation_in e (symmetry Hup)).
    + by rewrite <- Hup.
Qed.

Lemma inv_update n t fs fs' h ev threat : fs ≡ₚ Updating ev :: fs' -> timeline_inv n (Sys t fs h) ->
  timeline_inv n (Sys (count_events (update_chains t ev) threat) fs' h).
Proof.
  intros Hfs [H1 H2 H3 H4 H5 H6 H7 H8 H9 H10]. cbn in *.
  assert (Hu : unpushed fs ≡ₚ unpushed fs') by (by rewrite Hfs).
  assert (Hup : updating fs ≡ₚ ev :: updating fs') by (by rewrite Hfs).
  assert (Hev : In ev h) by (apply H7; apply (Permutation_in ev (symmetry Hup)); by left).
  destruct (update_chains_ok t h ev (te_id <$> updating fs')) as (E1 & E2 & E3 & E4); try done.
  - rewrite fmap_app in H3. by apply NoDup_app in H3 as (_ & _ & H3).
  - by apply (proj1 (List.Forall_forall _ _) H8).
  - by rewrite Hup in H10.
  - split; cbn; try done.
    + by rewrite E4.
    + by rewrite E3.
    + by rewrite <- Hu.
    + by rewrite <- Hu.
    + intros e He. apply H5. by eapply in_perm_cons.
    + intros e He. apply H6. by eapply in_perm_cons.
    + intros e He. apply H7. apply (Permutation_in e (symmetry Hup)). by right.
Qed.

Lemma inv_detect n t fs h callback now : timeline_inv n (Sys t fs h) ->
  timeline_inv n (Sys (fst (detect_multi_stage callback t now)) fs h).
Proof.
  intros H. unfold detect_multi_stage. destruct callback; [|done]. cbn [negb fst].
  destruct H as [H1 H2 H3 H4 H5 H6 H7 H8 H9 H10]. cbn in *.
  destruct (detect_chains (ft_events t) now (ft_chains t) h H9) as [D1 D2].
  split; cbn [s_timeline s_flights s_history set_chains ft_next_id ft_events ft_chains]; try done.
  fold (chain_ids (fst <$> (detect_chain (ft_events t) now <$> ft_chains t))). by rewrite D2.
Qed.

Lemma inv_take n t fs h source : Z.of_nat (S n) < 2 ^ 64 - 1 -> timeline_inv n (Sys t fs h) ->
  timeline_inv (S n) (Sys (take_id t) (Linking (made_event source (ft_next_id t)) :: fs) h).
Proof.
  intros Hn [H1 H2 H3 H4 H5 H6 H7 H8 H9 H10]. cbn in *.
  assert (Hid : te_id (made_event source (ft_next_id t)) = 1 + Z.of_nat n) by (by destruct source).
  split; cbn; try done.
  - rewrite H1. unfold u64. rewrite Z.mod_small by lia. lia.
  - constructor; [|done]. rewrite Hid. intros (e & He & Hin)%list_elem_of_fmap.
    pose proof (proj1 (Forall_forall _ _) H4 e Hin) as Hr. cbn in Hr. lia.
  - constructor; [rewrite Hid; lia|]. eapply Forall_impl; [exact H4|]. cbn. lia.
  - intros e [[= <-]|He]; [by destruct source|by apply H5].
  - intros e [He|He]; [done|by apply H6].
Qed.

Lemma run_inv n s : timeline_run n s -> Z.of_nat n < 2 ^ 64 - 1 -> timeline_inv n s.
Proof.
  induction 1 as [|n t fs h source Hrun IH|n s s' Hrun IH Hstep]; intros Hn.
  - split; cbn; try done; try constructor.
  - apply inv_take; [done|]. apply IH. lia.
  - specialize (IH Hn). destruct Hstep; eauto using inv_link, inv_push, inv_update, inv_detect.
Qed.

(** ** Properties *)

(** C18: whatever the interleaving of ingesting threads and of the detection, while fewer
    than 2^64 events came in: the log holds the latest 5000 events; the parent of an event
    is another event of the same process; every chain lists events of one process, each but
    the first behind its parent, with the highest stage and level of them; and no event is
    in two chains or twice in one. *)
Theorem chains_follow_processes (n : nat) (s : timeline_system) :
  timeline_run n s -> Z.of_nat n < 2 ^ 64 - 1 ->
  ft_events (s_timeline s) = last_n 5000 (s_history s) /\
  Forall (parent_ok (s_history s)) (s_history s) /\
  Forall (fun c => exists evs, chain_of (s_history s) c evs) (ft_chains (s_timeline s)) /\
  NoDup (mjoin (ch_event_ids <$> ft_chains (s_timeline s))).
Proof.
  intros Hrun Hn. destruct (run_inv n s Hrun Hn) as [_ He _ _ _ _ _ Hp Hc Ho]. split_and!; try done.
  by apply NoDup_app in Ho as (Ho & _).
Qed.

(** a detection raises one critical threat for each chain with three or more known
    stages among its events in the log whose summary has no marker yet, in order; it marks
    these and changes nothing else, so an immediate second detection raises none. *)
Theorem multi_stage_reported_once (st : Timeline) (now now' : Z) :
  let due c := (3 <=? distinct_stages (ft_events st) c) && negb (find_sub multi_marker (ch_summary c)) in
  let '(st1, out) := detect_multi_stage true st now in
  out = (fun c => Threat (multi_alert (distinct_stages (ft_events st) c) (Z.of_nat (length (ch_event_ids c))) now))
          <$> filter (fun c => due c = true) (ft_chains st) /\
  (ch_event_ids <$> ft_chains st1) = (ch_event_ids <$> ft_chains st) /\ ft_events st1 = ft_events st /\
  detect_multi_stage true st1 now' = (st1, []).
Proof.
  cbn zeta. set (due := fun c => _ && _). unfold detect_multi_stage. cbn [negb set_chains ft_chains ft_events].
  assert (Hone : forall c, detect_chain (ft_events st) now c =
    if due c then (Chain (ch_id c) (ch_event_ids c) (ch_max_stage c) (ch_max_level c) ("[MULTI-STAGE] " +:+ ch_summary c),
                   [Threat (multi_alert (distinct_stages (ft_events st) c) (Z.of_nat (length (ch_event_ids c))) now)])
    else (c, [])) by done.
  assert (Hids : forall c, ch_event_ids (detect_chain (ft_events st) now c).1 = ch_event_ids c).
  { intros c. rewrite Hone. by destruct (due c). }
  assert (Hagain : forall c, detect_chain (ft_events st) now' (detect_chain (ft_events st) now c).1 = ((detect_chain (ft_events st) now c).1, [])).
  { intros c. rewrite Hone. destruct (due c) eqn:Hd; cbn [fst]; unfold detect_chain.
    - cbn [ch_summary]. replace (find_sub multi_marker ("[MULTI-STAGE] " +:+ ch_summary c)) with true by (symmetry; reflexivity).
      cbn [negb]. by rewrite andb_false_r.
    - unfold due in Hd. by rewrite Hd. }
  set (f := detect_chain (ft_events st) now) in *. clearbody f. split_and!; try done.
  - induction (ft_chains st) as [|c cs IH]; [done|]. change (mjoin ((f <$> c :: cs).*2)) with ((f c).2 ++ mjoin ((f <$> cs).*2)). rewrite IH, Hone.
    destruct (due c) eqn:Hd; [by rewrite filter_cons_True|]. rewrite filter_cons_False by (by rewrite Hd). done.
  - rewrite <- !list_fmap_compose. apply list_fmap_ext. intros i c _. apply Hids.
  - f_equal.
    + unfold set_chains. cbn. f_equal. rewrite <- !list_fmap_compose. apply list_fmap_ext. intros i c _. cbn. by rewrite Hagain.
    + rewrite <- !list_fmap_compose. apply mjoin_fmap_nil. intros c. cbn. by rewrite Hagain.
Qed.

Lemma collect_spec f n events : forall result, Z.of_nat (length result) <= Z.max 0 n ->
  collect f n events result = result ++ take (Z.to_nat n - length result) (filter (fun ev => f ev = true) events).
Proof.
  induction events as [|ev events IH]; intros result Hr; cbn [collect]; [by rewrite filter_nil, take_nil, app_nil_r|].
  destruct (Z.ltb_spec (Z.of_nat (length result)) n) as [Hlt|Hge].
  - destruct (f ev) eqn:Ef.
    + rewrite IH by (rewrite length_app; cbn; lia). rewrite filter_cons_True by done. rewrite length_app. cbn [length].
      replace (Z.to_nat n - length result)%nat with (S (Z.to_nat n - (length result + 1))) by lia.
      cbn [take]. by rewrite <- app_assoc.
    + rewrite IH by lia. by rewrite filter_cons_False by (by rewrite Ef).
  - replace (Z.to_nat n - length result)%nat with 0%nat by lia. by rewrite app_nil_r.
Qed.

Lemma reverse_take_last (l : list TimelineEvent) n : reverse (take (Z.to_nat n) (reverse l)) = last_n n l.
Proof. unfold last_n. rewrite take_reverse, reverse_involutive. done. Qed.

Lemma filter_rev (P : TimelineEvent -> Prop) `{!forall x, Decision (P x)} (l : list TimelineEvent) :
  filter P (reverse l) = reverse (filter P l).
Proof.
  induction l as [|x l IH]; [done|]. rewrite reverse_cons, filter_app, IH.
  destruct (decide (P x)) as [Hx|Hx].
  - by rewrite !filter_cons_True, reverse_cons.
  - by rewrite !filter_cons_False, filter_nil, app_nil_r.
Qed.

(** the queries by process and by stage return the latest [n] of the matching events in
    the order of the log; the progress counts every event of the log under its stage, and
    its furthest stage is reached by an event and passed by none. *)
Theorem timeline_queries (st : Timeline) (pid n : Z) (stage : KillChainStage) :
  query_by_pid st pid n = last_n n (filter (fun ev => (te_process_id ev =? pid) = true) (ft_events st)) /\
  query_by_stage st stage n = last_n n (filter (fun ev => bool_decide (te_stage ev = stage) = true) (ft_events st)) /\
  let p := kill_chain_progress st in
  kp_stage_counts p !! Z.to_nat (stage_value stage) =
    Some (Z.of_nat (length (filter (fun ev => te_stage ev = stage) (ft_events st)))) /\
  Forall (fun ev => stage_value (te_stage ev) <= stage_value (kp_furthest p)) (ft_events st) /\
  (kp_furthest p = UNKNOWN \/ exists ev, In ev (ft_events st) /\ te_stage ev = kp_furthest p).
Proof.
  split; [|split].
  1-2: unfold query_by_pid, query_by_stage; rewrite collect_spec by (cbn; lia); cbn [app length];
       rewrite Nat.sub_0_r, filter_rev; apply reverse_take_last.
  unfold kill_chain_progress.
  assert (H : let '(counts, furthest) := foldl progress_step (replicate 8 0, UNKNOWN) (ft_events st) in
    length counts = 8%nat /\
    counts !! Z.to_nat (stage_value stage) = Some (Z.of_nat (length (filter (fun ev => te_stage ev = stage) (ft_events st)))) /\
    Forall (fun ev => stage_value (te_stage ev) <= stage_value furthest) (ft_events st) /\
    (furthest = UNKNOWN \/ exists ev, In ev (ft_events st) /\ te_stage ev = furthest)).
  { induction (ft_events st) as [|ev l IH] using rev_ind.
    { cbn [foldl]. split; [done|]. split; [by destruct stage|]. split; [constructor|by left]. }
    rewrite foldl_app. cbn [foldl]. destruct (foldl progress_step _ l) as [counts furthest]. unfold progress_step. cbn [fst snd].
    destruct IH as (Hlen & Hc & Hf & Hin). destruct (max_stage_spec furthest (te_stage ev)) as (S1 & S2 & S3).
    split; [by rewrite length_alter|]. split; [|split].
    - rewrite filter_app, length_app. destruct (decide (te_stage ev = stage)) as [E|Hne].
      + rewrite E, list_lookup_alter_eq, Hc, filter_cons_True by done. cbn. f_equal. lia.
      + rewrite list_lookup_alter_ne by (intros E; apply Hne; apply Z2Nat.inj in E; destruct (te_stage ev), stage; cbn in *; (done || lia)).
        rewrite filter_cons_False, Hc by done. cbn. f_equal. lia.
    - apply Forall_app. split; [|by constructor]. eapply Forall_impl; [exact Hf|]. cbn. lia.
    - destruct S3 as [-> | ->].
      + destruct Hin as [?|(e & He & ?)]; [by left|right]. exists e. split; [apply in_or_app; by left|done].
      + right. exists ev. split; [apply in_or_app; right; by left|done]. }
  destruct (foldl progress_step _ _) as [counts furthest]. cbn. tauto.
Qed.

Definition sample_threat (category : ThreatCategory) (pid now : Z) (description : string) : ThreatEvent :=
  Event 0 now HIGH category pid "p.exe" EmptyString description EmptyString 0 false false.

Definition first_event : TimelineEvent := event_of_threat 1 (sample_threat SHELLCODE 7 0 "first").
Definition second_event : TimelineEvent := set_parent (event_of_threat 2 (sample_threat REGISTRY_TAMPER 7 5 "second")) 1.

(** Both events of a process pushed, neither in a chain. *)
Definition two_pushed : timeline_system :=
  Sys (push_event (take_id (push_event (take_id new_timeline) first_event)) second_event)
    [Updating second_event; Updating first_event] [first_event; second_event].

Lemma run_two_pushed : timeline_run 2 two_pushed.
Proof.
  eapply run_step; [|apply (step_push _ [Pushing second_event; Updating first_event] [Updating first_event] [first_event] second_event); reflexivity].
  eapply run_step; [|apply (step_link (take_id (push_event (take_id new_timeline) first_event))
    [Linking (event_of_threat 2 (sample_threat REGISTRY_TAMPER 7 5 "second")); Updating first_event] [Updating first_event] [first_event]
    (event_of_threat 2 (sample_threat REGISTRY_TAMPER 7 5 "second"))); reflexivity].
  apply (run_take 1 (push_event (take_id new_timeline) first_event) [Updating first_event] [first_event] (inl (sample_threat REGISTRY_TAMPER 7 5 "second"))).
  eapply run_step; [|apply (step_push (take_id new_timeline) [Pushing first_event] [] [] first_event); reflexivity].
  eapply run_step; [|apply (step_link (take_id new_timeline) [Linking first_event] [] [] first_event); reflexivity].
  apply (run_take 0 new_timeline [] [] (inl (sample_threat SHELLCODE 7 0 "first"))), run_new.
Qed.

Lemma chains_follow_processes_witness :
  timeline_run 2 two_pushed /\ NoDup (mjoin (ch_event_ids <$> ft_chains (s_timeline two_pushed))).
Proof.
  split; [exact run_two_pushed|].
  destruct (chains_follow_processes 2 two_pushed run_two_pushed ltac:(lia)) as (_ & _ & _ & H). exact H.
Defined.

(** Two threads that report one process: the second updates the chains before the first
    did, finds no chain with its parent, and starts one of its own. *)
Lemma concurrent_events_split_a_chain :
  exists s, timeline_run 2 s /\ s_flights s = [] /\ s_history s = [first_event; second_event] /\
    te_causal_parent second_event = te_id first_event /\ (ch_event_ids <$> ft_chains (s_timeline s)) = [[2]; [1]].
Proof.
  eexists. split.
  - eapply run_step; [|apply (step_update (count_events (update_chains (s_timeline two_pushed) second_event) true) [Updating first_event] [] [first_event; second_event] first_event true); reflexivity].
    eapply run_step; [exact run_two_pushed|].
    apply (step_update (s_timeline two_pushed) [Updating second_event; Updating first_event] [Updating first_event] [first_event; second_event] second_event true). reflexivity.
  - cbn [s_flights s_history s_timeline]. split_and!; reflexivity.
Qed.

(** The marker is looked for in a text the attacker writes: a process whose first event
    mentions it is never reported. *)
Example marker_in_a_description_hides_the_attack :
  let st d := foldl ingest_threat new_timeline
    [sample_threat SHELLCODE 7 0 d; sample_threat REGISTRY_TAMPER 7 1 "b"; sample_threat RANSOMWARE 7 2 "c"] in
  length (snd (detect_multi_stage true (st "a"%string) 3)) = 1%nat /\
  snd (detect_multi_stage true (st "wrote \[MULTI-STAGE].txt"%string) 3) = [].
Proof. vm_compute. by split. Qed.

(** Beacons to a command server count for no stage. *)
Example beacons_have_no_stage : map_category_to_stage C2_BEACON = UNKNOWN /\ map_category_to_stage DNS_TUNNEL = COMMAND_CONTROL.
Proof. by split. Qed.
