(* ===== verification/RansomwareShield.v ===== *)
(** * RansomwareShield: signs of encryption per process

    Models src/src/engines/ransomware_shield_engine.cpp and its header.  Each operation
    holds the mutex while it changes the state and calls back behind it, so it is one step
    that returns what it reports; both callbacks are set unless an argument says otherwise.
    [size_t] counters are exact: they count events that came in one by one.  What the file
    system answers about a honeyfile, the order of the hash map and [std::sort] are
    arguments. *)
From S2P Require Import Prelude BoundedLog Float64 Asn1 Sha2 Observation Text Threat.

Inductive FileIOType := IO_WRITE | IO_RENAME | IO_DELETE | IO_CREATE.

Record FileIOEvent := IOEvent {
  io_id : Z;
  io_timestamp : Z;
  io_type : FileIOType;
  io_process_id : Z;
  io_process_name : string;
  io_file_path : string;
  io_new_path : string;
  io_bytes_written : Z;
  io_entropy : double;
}.

Record RansomwareIndicator := RwIndicator {
  ri_id : Z;
  ri_process_name : string;
  ri_process_id : Z;
  files_modified : Z;
  files_renamed : Z;
  ransomware_ext_renames : Z;
  files_deleted : Z;
  avg_entropy : double;
  shadow_copy_delete : bool;
  honeyfile_triggered : bool;
  ri_risk_score : double;
  ri_first_seen : Z;
  ri_last_seen : Z;
}.

Record HoneyFile := Honey { hf_path : string; hf_sha256 : string; hf_triggered : bool }.

Definition BURST_THRESHOLD : Z := 10.
Definition BURST_WINDOW_SECONDS : Z := 5.
Definition RW_HIGH_ENTROPY : double := dz 7.
Definition RW_SUSPICIOUS : double := dlit 40 100.
Definition RW_MALICIOUS : double := dlit 75 100.
Definition MAX_IO_EVENTS : Z := 5000.

Record RansomwareShield := Shield {
  rw_events_processed : Z;
  rw_threats_detected : Z;
  rw_next_id : Z;
  rw_next_indicator_id : Z;
  rw_io_events : list FileIOEvent;
  rw_indicators : gmap Z RansomwareIndicator;
  rw_honeyfiles : list HoneyFile;
}.

Definition new_shield : RansomwareShield := Shield 0 0 1 1 [] ∅ [].

Definition known_ransomware_extensions : list string :=
  [".encrypted"; ".locked"; ".crypt"; ".crypto"; ".enc"; ".locky"; ".zepto"; ".cerber"; ".cerber3"; ".wallet";
   ".onion"; ".zzzzz"; ".micro"; ".xxx"; ".ttt"; ".aaa"; ".abc"; ".xyz"; ".ecc"; ".ezz"; ".vvv"; ".exx"; ".wncry";
   ".wncryt"; ".wcry"; ".crinf"; ".r5a"; ".xrnt"; ".xtbl"; ".crypt1"; ".da_vinci_code"; ".no_more_ransom";
   ".cryptolocker"; ".petya"; ".gandcrab"; ".hermes"; ".ryuk"]%string.

Definition is_ransomware_extension (ext : string) : bool :=
  negb (empty_string ext) && bool_decide (string_map tolower ext ∈ known_ransomware_extensions).

(** ** The score *)

Definition score_indicator (ind : RansomwareIndicator) : double :=
  let score := dz 0 in
  let score := if shadow_copy_delete ind then dadd score (dlit 35 100) else score in
  let score := if honeyfile_triggered ind then dadd score (dlit 30 100) else score in
  let score :=
    if 50 <=? files_modified ind then dadd score (dlit 20 100)
    else if 20 <=? files_modified ind then dadd score (dlit 12 100)
    else if 5 <=? files_modified ind then dadd score (dlit 5 100) else score in
  let score :=
    if 20 <=? files_renamed ind then dadd score (dlit 15 100)
    else if 5 <=? files_renamed ind then dadd score (dlit 8 100) else score in
  let score :=
    if 3 <=? ransomware_ext_renames ind then dadd score (dlit 15 100)
    else if 1 <=? ransomware_ext_renames ind then dadd score (dlit 10 100) else score in
  let score :=
    if 10 <=? files_deleted ind then dadd score (dlit 10 100)
    else if 3 <=? files_deleted ind then dadd score (dlit 5 100) else score in
  let score :=
    if dle RW_HIGH_ENTROPY (avg_entropy ind) then dadd score (dlit 15 100)
    else if dle (dlit 65 10) (avg_entropy ind) then dadd score (dlit 8 100) else score in
  dclamp score (dz 0) (dz 1).

(** ** Events *)

(** The indicator of a process, made when it is first seen. *)
Definition indicator_for (st : RansomwareShield) (pid : Z) (name : string) (time : Z) : RansomwareIndicator * Z :=
  match rw_indicators st !! pid with
  | Some ind => (ind, rw_next_indicator_id st)
  | None =>
      (RwIndicator (rw_next_indicator_id st) name pid 0 0 0 0 (dz (-1)) false false (dz 0) time 0,
       u64 (rw_next_indicator_id st + 1))
  end.

Definition set_risk (ind : RansomwareIndicator) (risk : double) : RansomwareIndicator :=
  RwIndicator (ri_id ind) (ri_process_name ind) (ri_process_id ind) (files_modified ind) (files_renamed ind)
    (ransomware_ext_renames ind) (files_deleted ind) (avg_entropy ind) (shadow_copy_delete ind)
    (honeyfile_triggered ind) risk (ri_first_seen ind) (ri_last_seen ind).

Definition new_average (avg entropy : double) : double :=
  if dlt avg (dz 0) then entropy else dadd (dmul avg (dlit 9 10)) (dmul entropy (dlit 1 10)).

(** The time and the [switch] over the kind of the event. *)
Definition count_io (ind : RansomwareIndicator) (ev : FileIOEvent) : RansomwareIndicator :=
  let '(modified, renamed, ext, deleted, avg) :=
    match io_type ev with
    | IO_WRITE | IO_CREATE =>
        (files_modified ind + 1, files_renamed ind, ransomware_ext_renames ind, files_deleted ind,
         new_average (avg_entropy ind) (io_entropy ev))
    | IO_RENAME =>
        (files_modified ind, files_renamed ind + 1,
         (if is_ransomware_extension (extension (io_new_path ev)) then ransomware_ext_renames ind + 1 else ransomware_ext_renames ind),
         files_deleted ind, avg_entropy ind)
    | IO_DELETE =>
        (files_modified ind, files_renamed ind, ransomware_ext_renames ind, files_deleted ind + 1, avg_entropy ind)
    end in
  RwIndicator (ri_id ind) (ri_process_name ind) (ri_process_id ind) modified renamed ext deleted avg
    (shadow_copy_delete ind) (honeyfile_triggered ind) (ri_risk_score ind) (ri_first_seen ind) (io_timestamp ev).

Definition ransomware_threat (ev : FileIOEvent) (ind : RansomwareIndicator) (now : Z) : ThreatEvent :=
  Event 0 now CRITICAL RANSOMWARE (io_process_id ev) (io_process_name ev) (io_file_path ev)
    ("Ransomware behavior detected: " +:+ io_process_name ev +:+ " (PID " +:+ print_int (io_process_id ev) +:+ ") " +:+
     em_dash +:+ " " +:+ print_int (files_modified ind) +:+ " files modified, " +:+ print_int (files_renamed ind) +:+
     " renamed, risk=" +:+ print_int (dtrunc (dmul (ri_risk_score ind) (dz 100))) +:+ "%")
    EmptyString 0 false false.

Definition ransomware_observation (ev : FileIOEvent) (ind : RansomwareIndicator) (now : Z) : SecurityObservation :=
  Obs "RansomwareShield" FILE_INTEGRITY now MEDIUM (ri_risk_score ind) false (io_process_id ev) (io_process_name ev)
    (io_file_path ev) EmptyString
    ("Suspicious file activity: " +:+ io_process_name ev +:+ " " +:+ em_dash +:+ " " +:+ print_int (files_modified ind) +:+ " modifications").

Definition store_io (ev : FileIOEvent) (id : Z) : FileIOEvent :=
  IOEvent id (io_timestamp ev) (io_type ev) (io_process_id ev) (io_process_name ev) (io_file_path ev) (io_new_path ev)
    (io_bytes_written ev) (io_entropy ev).

Definition ingest_file_io (st : RansomwareShield) (ev : FileIOEvent) (now : Z) : RansomwareShield * list output :=
  let pid := io_process_id ev in
  let '(ind, next) := indicator_for st pid (io_process_name ev) (io_timestamp ev) in
  let ind := count_io ind ev in
  let ind := set_risk ind (score_indicator ind) in
  let st' threats :=
    Shield (u64 (rw_events_processed st + 1)) threats (u64 (rw_next_id st + 1)) next
      (push_bounded MAX_IO_EVENTS (rw_io_events st) (store_io ev (rw_next_id st)))
      (<[pid := ind]> (rw_indicators st)) (rw_honeyfiles st) in
  if dle RW_MALICIOUS (ri_risk_score ind) then
    (st' (u64 (rw_threats_detected st + 1)), [Threat (ransomware_threat ev ind now)])
  else if dle RW_SUSPICIOUS (ri_risk_score ind) then
    (st' (rw_threats_detected st), [Observed (ransomware_observation ev ind now)])
  else (st' (rw_threats_detected st), []).

Definition shadow_threat (pid : Z) (name : string) (now : Z) : ThreatEvent :=
  Event 0 now CRITICAL RANSOMWARE pid name EmptyString
    ("Shadow copy deletion detected by " +:+ name +:+ " (PID " +:+ print_int pid +:+ ")") EmptyString 0 false false.

Definition set_shadow (ind : RansomwareIndicator) (now : Z) : RansomwareIndicator :=
  RwIndicator (ri_id ind) (ri_process_name ind) (ri_process_id ind) (files_modified ind) (files_renamed ind)
    (ransomware_ext_renames ind) (files_deleted ind) (avg_entropy ind) true (honeyfile_triggered ind)
    (ri_risk_score ind) (ri_first_seen ind) now.

Definition report_shadow_copy_delete (st : RansomwareShield) (pid : Z) (name : string) (now : Z) : RansomwareShield * list output :=
  let '(ind, next) := indicator_for st pid name now in
  let ind := set_shadow ind now in
  let ind := set_risk ind (score_indicator ind) in
  (Shield (u64 (rw_events_processed st + 1)) (u64 (rw_threats_detected st + 1)) (rw_next_id st) next (rw_io_events st)
     (<[pid := ind]> (rw_indicators st)) (rw_honeyfiles st), [Threat (shadow_threat pid name now)]).

(** ** Honeyfiles *)

(** What the file system says of a path: nothing there, there but not readable, readable. *)
Inductive file_answer := Missing | Unreadable | Content (data : list byte).

Definition set_honeyfiles (st : RansomwareShield) (hfs : list HoneyFile) : RansomwareShield :=
  Shield (rw_events_processed st) (rw_threats_detected st) (rw_next_id st) (rw_next_indicator_id st) (rw_io_events st)
    (rw_indicators st) hfs.

Definition add_honeyfile (st : RansomwareShield) (path : string) (answer : file_answer) : RansomwareShield :=
  set_honeyfiles st (rw_honeyfiles st ++
    [Honey path (match answer with Content data => hash_bytes256 data | _ => EmptyString end) false]).

Definition honey_threat (text path : string) (now : Z) : ThreatEvent :=
  Event 0 now CRITICAL RANSOMWARE 0 EmptyString path (text +:+ path) EmptyString 0 false false.

(** The body of the loop of [check_honeyfiles]. *)
Definition check_honeyfile (answer : string -> file_answer) (now : Z) (hf : HoneyFile) : HoneyFile * list output :=
  let triggered := Honey (hf_path hf) (hf_sha256 hf) true in
  if hf_triggered hf then (hf, [])
  else
    match answer (hf_path hf) with
    | Missing => (triggered, [Threat (honey_threat "Honeyfile deleted: " (hf_path hf) now)])
    | Unreadable => (hf, [])
    | Content data =>
        if empty_string (hf_sha256 hf) then (hf, [])
        else if String.eqb (hash_bytes256 data) (hf_sha256 hf) then (hf, [])
        else (triggered, [Threat (honey_threat "Honeyfile tampered: " (hf_path hf) now)])
    end.

Definition check_honeyfiles (st : RansomwareShield) (answer : string -> file_answer) (now : Z) : RansomwareShield * list output :=
  let results := check_honeyfile answer now <$> rw_honeyfiles st in
  let out := mjoin (snd <$> results) in
  (Shield (u64 (rw_events_processed st + 1)) (u64 (rw_threats_detected st + Z.of_nat (length out))) (rw_next_id st)
     (rw_next_indicator_id st) (rw_io_events st) (rw_indicators st) (fst <$> results), out).

(** ** Bursts *)

(** The walk from the back of the log until an event before the window. *)
Fixpoint count_burst (window_start : Z) (events : list FileIOEvent) (counts : gmap Z Z) : gmap Z Z :=
  match events with
  | [] => counts
  | ev :: events =>
      if io_timestamp ev <? window_start then counts
      else count_burst window_start events (<[io_process_id ev := default 0 (counts !! io_process_id ev) + 1]> counts)
  end.

Definition burst_threat (pid count : Z) (ind : RansomwareIndicator) (now : Z) : ThreatEvent :=
  Event 0 now HIGH FILE_ENCRYPT pid (ri_process_name ind) EmptyString
    ("File I/O burst: " +:+ ri_process_name ind +:+ " " +:+ em_dash +:+ " " +:+ print_int count +:+ " operations in " +:+
     print_int BURST_WINDOW_SECONDS +:+ "s window") EmptyString 0 false false.

Definition burst_alert (st : RansomwareShield) (now : Z) (x : Z * Z) : option output :=
  let '(pid, count) := x in
  if count <? BURST_THRESHOLD then None
  else
    match rw_indicators st !! pid with
    | None => None
    | Some ind => if dlt (ri_risk_score ind) RW_SUSPICIOUS then None else Some (Threat (burst_threat pid count ind now))
    end.

Definition burst_counts (st : RansomwareShield) (now : Z) : gmap Z Z :=
  count_burst (now - BURST_WINDOW_SECONDS * 10 ^ 9) (reverse (rw_io_events st)) ∅.

(** [callback] says whether a threat callback is set. *)
Definition analyze_burst_patterns (callback : bool) (order : gmap Z Z -> list (Z * Z)) (st : RansomwareShield) (now : Z) :
    RansomwareShield * list output :=
  if negb callback || bool_decide (rw_io_events st = []) then (st, [])
  else
    let out := omap (burst_alert st now) (order (burst_counts st now)) in
    (Shield (rw_events_processed st) (u64 (rw_threats_detected st + Z.of_nat (length out))) (rw_next_id st)
       (rw_next_indicator_id st) (rw_io_events st) (rw_indicators st) (rw_honeyfiles st), out).

(** ** Queries *)

Definition active_indicators (sort : list RansomwareIndicator -> list RansomwareIndicator)
    (order : gmap Z RansomwareIndicator -> list (Z * RansomwareIndicator)) (st : RansomwareShield) (n : Z) :
    list RansomwareIndicator :=
  take (Z.to_nat n) (sort (snd <$> order (rw_indicators st))).


(** ** The score as a sum of percents *)

(** The weight each kind of sign contributes, in percent. *)
Definition signs (ind : RansomwareIndicator) : list Z :=
  [if shadow_copy_delete ind then 35 else 0;
   if honeyfile_triggered ind then 30 else 0;
   if 50 <=? files_modified ind then 20 else if 20 <=? files_modified ind then 12 else if 5 <=? files_modified ind then 5 else 0;
   if 20 <=? files_renamed ind then 15 else if 5 <=? files_renamed ind then 8 else 0;
   if 3 <=? ransomware_ext_renames ind then 15 else if 1 <=? ransomware_ext_renames ind then 10 else 0;
   if 10 <=? files_deleted ind then 10 else if 3 <=? files_deleted ind then 5 else 0;
   if dle RW_HIGH_ENTROPY (avg_entropy ind) then 15 else if dle (dlit 65 10) (avg_entropy ind) then 8 else 0].

Definition sign_options : list (list Z) :=
  [[35; 0]; [30; 0]; [20; 12; 5; 0]; [15; 8; 0]; [15; 10; 0]; [10; 5; 0]; [15; 8; 0]].

(** The sums of exactly 75 and 40 percent that the rounding of the additions takes below
    the thresholds. *)
Definition lost_malicious : list (list Z) :=
  [[35; 30; 0; 0; 10; 0; 0]; [35; 30; 0; 0; 0; 10; 0]; [35; 0; 12; 8; 10; 10; 0]; [35; 0; 12; 0; 10; 10; 8];
   [35; 0; 5; 15; 10; 10; 0]; [0; 30; 12; 15; 10; 0; 8]; [0; 30; 12; 15; 0; 10; 8]; [0; 30; 12; 0; 15; 10; 8]].
Definition lost_suspicious : list (list Z) :=
  [[35; 0; 5; 0; 0; 0; 0]; [35; 0; 0; 0; 0; 5; 0]; [0; 30; 5; 0; 0; 5; 0]; [0; 0; 20; 15; 0; 5; 0];
   [0; 0; 20; 0; 15; 5; 0]; [0; 0; 12; 8; 15; 5; 0]; [0; 0; 5; 15; 15; 5; 0]].

Definition verdict_ok (l : list Z) (score : double) : bool :=
  let s := dclamp score (dz 0) (dz 1) in
  unit_interval s &&
  Bool.eqb (dle RW_MALICIOUS s) ((75 <=? percent l) && negb (bool_decide (l ∈ lost_malicious))) &&
  Bool.eqb (dle RW_SUSPICIOUS s) ((40 <=? percent l) && negb (bool_decide (l ∈ lost_suspicious))).

Lemma score_of_signs ind : score_indicator ind = dclamp (foldl add_percent (dz 0) (signs ind)) (dz 0) (dz 1).
Proof.
  set (f1 s := if shadow_copy_delete ind then dadd s (dlit 35 100) else s).
  set (f2 s := if honeyfile_triggered ind then dadd s (dlit 30 100) else s).
  set (f3 s := if 50 <=? files_modified ind then dadd s (dlit 20 100)
               else if 20 <=? files_modified ind then dadd s (dlit 12 100)
               else if 5 <=? files_modified ind then dadd s (dlit 5 100) else s).
  set (f4 s := if 20 <=? files_renamed ind then dadd s (dlit 15 100)
               else if 5 <=? files_renamed ind then dadd s (dlit 8 100) else s).
  set (f5 s := if 3 <=? ransomware_ext_renames ind then dadd s (dlit 15 100)
               else if 1 <=? ransomware_ext_renames ind then dadd s (dlit 10 100) else s).
  set (f6 s := if 10 <=? files_deleted ind then dadd s (dlit 10 100)
               else if 3 <=? files_deleted ind then dadd s (dlit 5 100) else s).
  set (f7 s := if dle RW_HIGH_ENTROPY (avg_entropy ind) then dadd s (dlit 15 100)
               else if dle (dlit 65 10) (avg_entropy ind) then dadd s (dlit 8 100) else s).
  change (score_indicator ind) with (dclamp (f7 (f6 (f5 (f4 (f3 (f2 (f1 (dz 0)))))))) (dz 0) (dz 1)).
  unfold signs. cbn [foldl]. f_equal.
  unfold f7. etransitivity; [apply add_if3; [reflexivity|apply add_if2; reflexivity]|f_equal].
  unfold f6. etransitivity; [apply add_if3; [reflexivity|apply add_if2; reflexivity]|f_equal].
  unfold f5. etransitivity; [apply add_if3; [reflexivity|apply add_if2; reflexivity]|f_equal].
  unfold f4. etransitivity; [apply add_if3; [reflexivity|apply add_if2; reflexivity]|f_equal].
  unfold f3. etransitivity; [apply add_if3; [reflexivity|apply add_if3; [reflexivity|apply add_if2; reflexivity]]|f_equal].
  unfold f2. etransitivity; [apply add_if2; reflexivity|f_equal].
  unfold f1. etransitivity; [apply add_if2; reflexivity|f_equal].
Qed.

Lemma signs_options ind : Forall2 (fun x xs => In x xs) (signs ind) sign_options.
Proof.
  unfold signs, sign_options. repeat refine (List.Forall2_cons _ _ _ _); [..|apply List.Forall2_nil].
  all: repeat match goal with |- context[if ?c then _ else _] => destruct c end; cbn; auto 9.
Qed.

Lemma all_verdicts : all_scores verdict_ok (dz 0) [] sign_options = true.
Proof. vm_compute. reflexivity. Qed.

Lemma score_verdicts ind :
  unit_interval (score_indicator ind) = true /\
  dle RW_MALICIOUS (score_indicator ind) = (75 <=? percent (signs ind)) && negb (bool_decide (signs ind ∈ lost_malicious)) /\
  dle RW_SUSPICIOUS (score_indicator ind) = (40 <=? percent (signs ind)) && negb (bool_decide (signs ind ∈ lost_suspicious)).
Proof.
  pose proof (all_scores_spec _ _ _ (signs_options ind) (dz 0) [] all_verdicts) as H.
  rewrite reverse_nil, app_nil_l in H. unfold verdict_ok in H. rewrite <- score_of_signs in H.
  apply andb_true_iff in H as [H H3%Bool.eqb_prop]. apply andb_true_iff in H as [H1 H2%Bool.eqb_prop]. by split_and!.
Qed.

(** ** Histories *)

Inductive shield_call :=
| RwIo (ev : FileIOEvent) (now : Z)
| RwShadow (pid : Z) (name : string) (now : Z)
| RwHoney (path : string) (answer : file_answer)
| RwCheck (answer : string -> file_answer) (now : Z)
| RwBurst (callback : bool) (order : gmap Z Z -> list (Z * Z)) (now : Z).

Definition shield_step (st : RansomwareShield) (c : shield_call) : RansomwareShield :=
  match c with
  | RwIo ev now => fst (ingest_file_io st ev now)
  | RwShadow pid name now => fst (report_shadow_copy_delete st pid name now)
  | RwHoney path answer => add_honeyfile st path answer
  | RwCheck answer now => fst (check_honeyfiles st answer now)
  | RwBurst callback order now => fst (analyze_burst_patterns callback order st now)
  end.

Definition shield_run (calls : list shield_call) : RansomwareShield := foldl shield_step new_shield calls.

(** The events of a process, and whether it deleted shadow copies. *)
Definition events_of (pid : Z) (calls : list shield_call) : list FileIOEvent :=
  omap (fun c => match c with RwIo ev _ => if io_process_id ev =? pid then Some ev else None | _ => None end) calls.
Definition shadow_deleted (pid : Z) (calls : list shield_call) : bool :=
  existsb (fun c => match c with RwShadow pid' _ _ => pid' =? pid | _ => false end) calls.

Definition is_write (ev : FileIOEvent) : bool := match io_type ev with IO_WRITE | IO_CREATE => true | _ => false end.
Definition is_rename (ev : FileIOEvent) : bool := match io_type ev with IO_RENAME => true | _ => false end.
Definition is_ransom_rename (ev : FileIOEvent) : bool := is_rename ev && is_ransomware_extension (extension (io_new_path ev)).
Definition is_delete (ev : FileIOEvent) : bool := match io_type ev with IO_DELETE => true | _ => false end.
Definition number (f : FileIOEvent -> bool) (evs : list FileIOEvent) : Z := Z.of_nat (length (filter (fun ev => f ev = true) evs)).

(** The indicator counts what the process did since the start. *)
Record counts_history (pid : Z) (calls : list shield_call) (ind : RansomwareIndicator) : Prop := {
  hi_modified : files_modified ind = number is_write (events_of pid calls);
  hi_renamed : files_renamed ind = number is_rename (events_of pid calls);
  hi_ext : ransomware_ext_renames ind = number is_ransom_rename (events_of pid calls);
  hi_deleted : files_deleted ind = number is_delete (events_of pid calls);
  hi_average : avg_entropy ind =
    foldl new_average (dz (-1)) (io_entropy <$> filter (fun ev => is_write ev = true) (events_of pid calls));
  hi_shadow : shadow_copy_delete ind = shadow_deleted pid calls;
  hi_honey : honeyfile_triggered ind = false;
  hi_risk : ri_risk_score ind = score_indicator ind;
  hi_pid : ri_process_id ind = pid;
}.

Lemma number_snoc f evs ev : number f (evs ++ [ev]) = number f evs + (if f ev then 1 else 0).
Proof.
  unfold number. rewrite filter_app, length_app. destruct (f ev) eqn:E.
  - rewrite filter_cons_True by done. cbn. lia.
  - rewrite filter_cons_False by (by rewrite E). cbn. lia.
Qed.

Lemma events_snoc pid calls c : events_of pid (calls ++ [c]) = events_of pid calls ++
  match c with RwIo ev _ => if io_process_id ev =? pid then [ev] else [] | _ => [] end.
Proof. unfold events_of. rewrite omap_app. f_equal. destruct c; cbn; try done. by destruct (_ =? _). Qed.

Lemma shadow_snoc pid calls c : shadow_deleted pid (calls ++ [c]) =
  shadow_deleted pid calls || match c with RwShadow pid' _ _ => pid' =? pid | _ => false end.
Proof. unfold shadow_deleted. rewrite existsb_app. cbn. by rewrite orb_false_r. Qed.

(** A process without an indicator did nothing yet. *)
Definition history_ok (calls : list shield_call) (st : RansomwareShield) : Prop :=
  forall pid, match rw_indicators st !! pid with
              | Some ind => counts_history pid calls ind
              | None => events_of pid calls = [] /\ shadow_deleted pid calls = false
              end.

(** What [indicator_for] finds or makes counts the history so far, but for the score. *)
Lemma indicator_for_ok calls st pid name time : history_ok calls st ->
  exists ind, fst (indicator_for st pid name time) = ind /\
    exists risk, counts_history pid calls (set_risk ind risk).
Proof.
  intros H. specialize (H pid). unfold indicator_for. destruct (rw_indicators st !! pid) as [ind|]; cbn [fst].
  - exists ind. split; [done|]. exists (ri_risk_score ind). by destruct ind.
  - destruct H as [H1 H2]. eexists. split; [done|]. eexists (score_indicator _). split; rewrite ?H1, ?H2; try done.
Qed.

Lemma score_set_risk ind risk : score_indicator (set_risk ind risk) = score_indicator ind.
Proof. done. Qed.

Lemma io_history calls st ev now : history_ok calls st ->
  exists ind, rw_indicators (fst (ingest_file_io st ev now)) = <[io_process_id ev := ind]> (rw_indicators st) /\
    counts_history (io_process_id ev) (calls ++ [RwIo ev now]) ind /\
    snd (ingest_file_io st ev now) =
      if dle RW_MALICIOUS (score_indicator ind) then [Threat (ransomware_threat ev ind now)]
      else if dle RW_SUSPICIOUS (score_indicator ind) then [Observed (ransomware_observation ev ind now)] else [].
Proof.
  intros H. destruct (indicator_for_ok calls st (io_process_id ev) (io_process_name ev) (io_timestamp ev) H) as (ind & Hf & risk & Hi).
  unfold ingest_file_io. destruct (indicator_for _ _ _ _) as [ind' next]. cbn [fst] in Hf. subst ind'.
  set (ind1 := set_risk (count_io ind ev) (score_indicator (count_io ind ev))).
  exists ind1. change (score_indicator ind1) with (ri_risk_score ind1). split; [|split].
  - by destruct (dle RW_MALICIOUS (ri_risk_score ind1)), (dle RW_SUSPICIOUS (ri_risk_score ind1)).
  - destruct Hi as [H1 H2 H3 H4 H5 H6 H7 _ H9]. cbn in H1, H2, H3, H4, H5, H6, H7, H9.
    assert (Havg : foldl new_average (dz (-1)) (io_entropy <$> filter (fun ev => is_write ev = true) (events_of (io_process_id ev) calls ++ [ev])) =
      if is_write ev then new_average (avg_entropy ind) (io_entropy ev) else avg_entropy ind).
    { rewrite filter_app, H5. destruct (is_write ev) eqn:Ew.
      - by rewrite filter_cons_True, fmap_app, foldl_app.
      - by rewrite filter_cons_False, filter_nil, app_nil_r by (by rewrite Ew). }
    split; rewrite ?events_snoc, ?shadow_snoc, ?Z.eqb_refl, ?number_snoc, ?orb_false_r, ?Havg; try reflexivity.
    all: rewrite <- ?H1, <- ?H2, <- ?H3, <- ?H4.
    all: unfold ind1, count_io, set_risk, is_ransom_rename, is_rename, is_write, is_delete.
    all: destruct (io_type ev); cbn [files_modified files_renamed ransomware_ext_renames files_deleted avg_entropy shadow_copy_delete honeyfile_triggered ri_process_id andb].
    all: try assumption; try lia; try reflexivity.
    destruct (is_ransomware_extension _); lia.
  - by destruct (dle RW_MALICIOUS (ri_risk_score ind1)), (dle RW_SUSPICIOUS (ri_risk_score ind1)).
Qed.

Lemma shadow_history calls st pid name now : history_ok calls st ->
  exists ind, rw_indicators (fst (report_shadow_copy_delete st pid name now)) = <[pid := ind]> (rw_indicators st) /\
    counts_history pid (calls ++ [RwShadow pid name now]) ind.
Proof.
  intros H. destruct (indicator_for_ok calls st pid name now H) as (ind & Hf & risk & Hi).
  unfold report_shadow_copy_delete. destruct (indicator_for _ _ _ _) as [ind' next]. cbn [fst] in Hf. subst ind'.
  eexists. split; [reflexivity|]. destruct Hi as [H1 H2 H3 H4 H5 H6 H7 _ H9].
  split; rewrite ?events_snoc, ?shadow_snoc, ?Z.eqb_refl, ?app_nil_r, ?orb_true_r; try assumption; reflexivity.
Qed.

(** A call that is no event of the process leaves its history alone. *)
Lemma history_frame pid calls c ind : events_of pid [c] = [] -> shadow_deleted pid [c] = false ->
  counts_history pid calls ind -> counts_history pid (calls ++ [c]) ind.
Proof.
  intros He Hs [H1 H2 H3 H4 H5 H6 H7 H8 H9].
  assert (E : events_of pid (calls ++ [c]) = events_of pid calls) by (unfold events_of in *; by rewrite omap_app, He, app_nil_r).
  assert (Es : shadow_deleted pid (calls ++ [c]) = shadow_deleted pid calls) by (unfold shadow_deleted in *; by rewrite existsb_app, Hs, orb_false_r).
  split; by rewrite ?E, ?Es.
Qed.

Lemma history_insert calls c st pid ind m : rw_indicators st = <[pid := ind]> m -> counts_history pid (calls ++ [c]) ind ->
  (forall pid', pid' <> pid -> events_of pid' [c] = [] /\ shadow_deleted pid' [c] = false) ->
  (forall pid', match m !! pid' with
                | Some ind => counts_history pid' calls ind
                | None => events_of pid' calls = [] /\ shadow_deleted pid' calls = false end) ->
  history_ok (calls ++ [c]) st.
Proof.
  intros Est Hi Hc Hm pid'. rewrite Est. destruct (decide (pid = pid')) as [->|Hne]; [by rewrite lookup_insert_eq|].
  rewrite lookup_insert_ne by done. destruct (Hc pid' (fun E => Hne (eq_sym E))) as [He Hs]. specialize (Hm pid').
  destruct (m !! pid'); [by apply history_frame|]. destruct Hm as [H1 H2].
  unfold events_of, shadow_deleted in *. by rewrite omap_app, existsb_app, H1, H2, He, Hs.
Qed.

Lemma step_history calls st c : history_ok calls st -> history_ok (calls ++ [c]) (shield_step st c).
Proof.
  intros H. destruct c; cbn [shield_step].
  - destruct (io_history calls st ev now H) as (ind & E & Hi & _). eapply history_insert; [exact E|exact Hi| |exact H].
    intros pid' Hne. cbn. by rewrite (proj2 (Z.eqb_neq _ _)) by congruence.
  - destruct (shadow_history calls st pid name now H) as (ind & E & Hi). eapply history_insert; [exact E|exact Hi| |exact H].
    intros pid' Hne. cbn. by rewrite (proj2 (Z.eqb_neq _ _)) by congruence.
  - intros pid. specialize (H pid). cbn [add_honeyfile set_honeyfiles rw_indicators]. rewrite events_snoc, shadow_snoc, app_nil_r, orb_false_r.
    destruct (rw_indicators st !! pid); [by apply history_frame|done].
  - intros pid. specialize (H pid). cbn [check_honeyfiles fst rw_indicators]. rewrite events_snoc, shadow_snoc, app_nil_r, orb_false_r.
    destruct (rw_indicators st !! pid); [by apply history_frame|done].
  - intros pid. specialize (H pid). rewrite events_snoc, shadow_snoc, app_nil_r, orb_false_r.
    unfold analyze_burst_patterns. destruct (negb callback || _); cbn [fst rw_indicators];
      (destruct (rw_indicators st !! pid); [by apply history_frame|done]).
Qed.

Lemma run_history calls : history_ok calls (shield_run calls).
Proof.
  induction calls as [|c calls IH] using rev_ind; [by intros pid|]. unfold shield_run. rewrite foldl_app. by apply step_history.
Qed.

(** ** Properties *)

(** C27: an event of a process is answered by what the process did since the start, in any
    mix of calls: the indicator counts its writes, renames, deletions and shadow copy
    deletions, the signs weigh in percent, and from 75 percent on the event is reported as
    ransomware, from 40 on observed, and else nothing is said, but for eight and seven
    combinations that weigh exactly 75 and 40 and that the rounding of the additions takes
    below; the confidence of an observation lies between 0 and 1. *)
Theorem ransomware_verdict (calls : list shield_call) (ev : FileIOEvent) (now : Z) :
  let '(st, out) := ingest_file_io (shield_run calls) ev now in
  exists ind, rw_indicators st !! io_process_id ev = Some ind /\
    counts_history (io_process_id ev) (calls ++ [RwIo ev now]) ind /\
    out = (if (75 <=? percent (signs ind)) && negb (bool_decide (signs ind ∈ lost_malicious))
           then [Threat (ransomware_threat ev ind now)]
           else if (40 <=? percent (signs ind)) && negb (bool_decide (signs ind ∈ lost_suspicious))
           then [Observed (ransomware_observation ev ind now)] else []) /\
    unit_interval (ri_risk_score ind) = true.
Proof.
  destruct (io_history calls (shield_run calls) ev now (run_history calls)) as (ind & E & Hi & Hout).
  destruct (ingest_file_io (shield_run calls) ev now) as [st out]. cbn [fst snd] in *.
  exists ind. destruct (score_verdicts ind) as (H1 & H2 & H3). rewrite E, lookup_insert_eq, (hi_risk _ _ _ Hi).
  split; [reflexivity|]. split; [exact Hi|]. split; [|exact H1]. rewrite Hout, H2, H3. reflexivity.
Qed.

#[local] Opaque hash_bytes256.

(** What a check finds wrong with a honeyfile. *)
Definition honey_lost (answer : string -> file_answer) (hf : HoneyFile) : bool :=
  match answer (hf_path hf) with
  | Missing => true
  | Unreadable => false
  | Content data => negb (empty_string (hf_sha256 hf)) && negb (String.eqb (hash_bytes256 data) (hf_sha256 hf))
  end.

(** a check reports each honeyfile that is gone, or whose digest differs from the one of
    the day it was added, once: in order, exactly those not reported before; a file that
    could not be read when it was added is only missed when it is gone. *)
Theorem honeyfiles_reported_once (st : RansomwareShield) (answer : string -> file_answer) (now : Z) :
  let '(st', out) := check_honeyfiles st answer now in
  length out = length (filter (fun hf => hf_triggered hf = false /\ honey_lost answer hf = true) (rw_honeyfiles st)) /\
  rw_honeyfiles st' =
    ((fun hf => Honey (hf_path hf) (hf_sha256 hf) (hf_triggered hf || honey_lost answer hf)) <$> rw_honeyfiles st) /\
  snd (check_honeyfiles st' answer now) = [] /\
  Forall (fun o => exists hf text, In hf (rw_honeyfiles st) /\ o = Threat (honey_threat text (hf_path hf) now)) out.
Proof.
  unfold check_honeyfiles. cbn [rw_honeyfiles snd].
  assert (Hone : forall hf, (check_honeyfile answer now hf).1 = Honey (hf_path hf) (hf_sha256 hf) (hf_triggered hf || honey_lost answer hf) /\
    (if negb (hf_triggered hf) && honey_lost answer hf
     then exists text, (check_honeyfile answer now hf).2 = [Threat (honey_threat text (hf_path hf) now)]
     else (check_honeyfile answer now hf).2 = [])).
  { intros [path sha [|]]; unfold check_honeyfile, honey_lost; cbn [hf_triggered hf_path hf_sha256 negb andb orb]; [by split|].
    destruct (answer path) as [| |data]; cbn [negb andb orb]; [split; eauto|by split|].
    destruct (empty_string sha); cbn [negb andb]; [by split|]. destruct (String.eqb _ _); cbn [negb fst snd]; split; eauto. }
  assert (Hagain : forall hf, (check_honeyfile answer now (check_honeyfile answer now hf).1).2 = []).
  { intros hf. destruct (Hone hf) as [-> _].
    destruct (Hone (Honey (hf_path hf) (hf_sha256 hf) (hf_triggered hf || honey_lost answer hf))) as [_ H].
    change (honey_lost answer (Honey (hf_path hf) _ _)) with (honey_lost answer hf) in H. cbn [hf_triggered] in H.
    destruct (hf_triggered hf), (honey_lost answer hf); exact H. }
  set (f := check_honeyfile answer now) in *. clearbody f. split_and!.
  - induction (rw_honeyfiles st) as [|hf hfs IH]; [done|].
    change (mjoin (snd <$> (f <$> hf :: hfs))) with ((f hf).2 ++ mjoin (snd <$> (f <$> hfs))). rewrite length_app, IH.
    destruct (Hone hf) as [_ H]. destruct (negb (hf_triggered hf) && honey_lost answer hf) eqn:E.
    + destruct H as [text ->]. apply andb_true_iff in E as [E1%negb_true_iff E2]. by rewrite filter_cons_True.
    + rewrite H, filter_cons_False; [done|]. intros [E1 E2]. by rewrite E1, E2 in E.
  - rewrite <- list_fmap_compose. apply list_fmap_ext. intros i hf _. apply Hone.
  - rewrite <- !list_fmap_compose. apply mjoin_fmap_nil. intros hf. cbn. apply Hagain.
  - enough (Hall : forall hfs, (forall hf, In hf hfs -> In hf (rw_honeyfiles st)) ->
      Forall (fun o => exists hf text, In hf (rw_honeyfiles st) /\ o = Threat (honey_threat text (hf_path hf) now)) (mjoin (snd <$> (f <$> hfs)))).
    { apply Hall. intros hf H. exact H. }
    intros hfs. induction hfs as [|hf hfs IH]; intros Hin; [constructor|].
    change (mjoin (snd <$> (f <$> hf :: hfs))) with ((f hf).2 ++ mjoin (snd <$> (f <$> hfs))).
    apply Forall_app. split; [|apply IH; intros x Hx; apply Hin; by right].
    destruct (Hone hf) as [_ H]. destruct (negb (hf_triggered hf) && honey_lost answer hf); [|by rewrite H].
    destruct H as [text ->]. constructor; [|done]. exists hf, text. split; [apply Hin; by left|done].
Qed.

(** The leading elements a test holds of. *)
Fixpoint take_while {A} (f : A -> bool) (l : list A) : list A :=
  match l with [] => [] | x :: l => if f x then x :: take_while f l else [] end.

Lemma count_burst_spec start events : forall counts pid,
  default 0 (count_burst start events counts !! pid) = default 0 (counts !! pid) +
    Z.of_nat (length (filter (fun ev => io_process_id ev = pid) (take_while (fun ev => start <=? io_timestamp ev) events))).
Proof.
  induction events as [|ev events IH]; intros counts pid; cbn [count_burst take_while]; [rewrite filter_nil; cbn; lia|].
  rewrite Z.leb_antisym. destruct (Z.ltb_spec (io_timestamp ev) start); cbn [negb]; [rewrite filter_nil; cbn; lia|].
  rewrite IH. destruct (decide (io_process_id ev = pid)) as [<-|Hne].
  - rewrite lookup_insert_eq, filter_cons_True by done. cbn [default from_option id length]. lia.
  - rewrite lookup_insert_ne, filter_cons_False by done. done.
Qed.

(** Deleting shadow copies weighs 35 percent and five writes 5: together they fall short of
    the 40 percent of an observation. *)
Example shadow_and_writes_fall_short :
  let st := shield_run (RwShadow 7 "a" 0 :: repeat (RwIo (IOEvent 0 1 IO_WRITE 7 "a" "f" EmptyString 1 (dz 1)) 2) 4) in
  snd (ingest_file_io st (IOEvent 0 1 IO_WRITE 7 "a" "f" EmptyString 1 (dz 1)) 2) = [].
Proof. vm_compute. reflexivity. Qed.
