(* ===== verification/CredentialGuard.v ===== *)
(** * CredentialGuard: credential access per process

    Models src/src/engines/credential_guard_engine.cpp and its header.  Each operation holds
    the mutex while it changes the state and calls back behind it, so it is one step that
    returns what it reports; both callbacks are set.  The order of the hash map and
    [std::sort] are arguments of the query that uses them. *)
From S2P Require Import Prelude BoundedLog Float64 Observation Text Threat.

Inductive CredentialAttackType :=
| ATK_LSASS_ACCESS | ATK_TOKEN_IMPERSONATE | ATK_TOKEN_DUPLICATE | ATK_PASS_THE_HASH | ATK_PASS_THE_TICKET
| ATK_SAM_DUMP | ATK_DCSYNC | ATK_KERBEROASTING | ATK_GOLDEN_TICKET | ATK_SILVER_TICKET.

Record CredentialAccessEvent := CredEvent {
  ca_id : Z;
  ca_timestamp : Z;
  ca_type : CredentialAttackType;
  ca_source_pid : Z;
  ca_source_process : string;
  ca_target_pid : Z;
  ca_target_process : string;
  ca_access_mask : Z;
  ca_detail : string;
}.

Record CredentialThreatIndicator := CredIndicator {
  ci_id : Z;
  ci_pid : Z;
  ci_process_name : string;
  lsass_access_count : Z;
  token_manipulation_count : Z;
  lateral_movement_count : Z;
  sam_access_count : Z;
  ci_risk_score : double;
  known_tool : bool;
  ci_first_seen : Z;
  ci_last_seen : Z;
}.

Definition MASK_VM_READ : Z := 0x10.
Definition MASK_VM_WRITE : Z := 0x20.
Definition MASK_VM_OPERATION : Z := 0x8.
Definition MASK_ALL_ACCESS : Z := 0x1FFFFF.
Definition CRED_SUSPICIOUS : double := dlit 35 100.
Definition CRED_MALICIOUS : double := dlit 70 100.
Definition MAX_CRED_EVENTS : Z := 2000.

Record CredentialGuard := CredGuard {
  cg_events_processed : Z;
  cg_threats_detected : Z;
  cg_next_id : Z;
  cg_next_indicator_id : Z;
  cg_events : list CredentialAccessEvent;
  cg_indicators : gmap Z CredentialThreatIndicator;
}.

Definition new_credential_guard : CredentialGuard := CredGuard 0 0 1 1 [] ∅.

(** ** Classification *)

Definition known_dump_tools : list string :=
  ["mimikatz"; "procdump"; "procdump64"; "sqldumper"; "comsvcs"; "rundll32"; "task_manager_dump"; "processhacker";
   "processhacker2"; "nanodump"; "pypykatz"; "lsassy"; "secretsdump"; "lazagne"; "credentialfileview"; "ntdsutil";
   "fgdump"; "gsecdump"; "wce"; "pwdump"; "samdump2"]%string.

Definition is_known_dump_tool (process_name : string) : bool :=
  if empty_string process_name then false
  else existsb (String.eqb (stem (string_map tolower process_name))) known_dump_tools.

Definition is_suspicious_lsass_access (access_mask : Z) : bool :=
  negb ((access_mask .& (MASK_VM_READ .| MASK_VM_WRITE .| MASK_VM_OPERATION))%word =? 0) || (access_mask =? MASK_ALL_ACCESS).

Definition classify_attack (type : CredentialAttackType) : ThreatLevel :=
  match type with
  | ATK_GOLDEN_TICKET | ATK_DCSYNC | ATK_PASS_THE_HASH | ATK_PASS_THE_TICKET => CRITICAL
  | ATK_LSASS_ACCESS | ATK_SAM_DUMP | ATK_KERBEROASTING => HIGH
  | ATK_TOKEN_IMPERSONATE | ATK_TOKEN_DUPLICATE | ATK_SILVER_TICKET => HIGH
  end.

Definition map_to_category (type : CredentialAttackType) : ThreatCategory :=
  match type with
  | ATK_LSASS_ACCESS | ATK_SAM_DUMP | ATK_DCSYNC => CREDENTIAL_DUMP
  | ATK_PASS_THE_HASH | ATK_GOLDEN_TICKET | ATK_SILVER_TICKET | ATK_KERBEROASTING | ATK_PASS_THE_TICKET => KERBEROS_ATTACK
  | ATK_TOKEN_IMPERSONATE | ATK_TOKEN_DUPLICATE => NTLM_COERCE
  end.

Definition attack_type_name (type : CredentialAttackType) : string :=
  match type with
  | ATK_LSASS_ACCESS => "LSASS Access"
  | ATK_TOKEN_IMPERSONATE => "Token Impersonation"
  | ATK_TOKEN_DUPLICATE => "Token Duplication"
  | ATK_PASS_THE_HASH => "Pass-the-Hash"
  | ATK_PASS_THE_TICKET => "Pass-the-Ticket"
  | ATK_SAM_DUMP => "SAM Dump"
  | ATK_DCSYNC => "DCSync"
  | ATK_KERBEROASTING => "Kerberoasting"
  | ATK_GOLDEN_TICKET => "Golden Ticket"
  | ATK_SILVER_TICKET => "Silver Ticket"
  end.

Definition credential_score (ind : CredentialThreatIndicator) : double :=
  let score := dz 0 in
  let score := if known_tool ind then dadd score (dlit 50 100) else score in
  let score :=
    if 3 <=? lsass_access_count ind then dadd score (dlit 25 100)
    else if 1 <=? lsass_access_count ind then dadd score (dlit 15 100) else score in
  let score :=
    if 3 <=? token_manipulation_count ind then dadd score (dlit 20 100)
    else if 1 <=? token_manipulation_count ind then dadd score (dlit 10 100) else score in
  let score := if 1 <=? lateral_movement_count ind then dadd score (dlit 25 100) else score in
  let score := if 1 <=? sam_access_count ind then dadd score (dlit 20 100) else score in
  dclamp score (dz 0) (dz 1).

(** ** Ingestion *)

(** The indicator of the source process, made when it is first seen. *)
Definition credential_indicator (st : CredentialGuard) (ev : CredentialAccessEvent) : CredentialThreatIndicator * Z :=
  match cg_indicators st !! ca_source_pid ev with
  | Some ind => (ind, cg_next_indicator_id st)
  | None =>
      (CredIndicator (cg_next_indicator_id st) (ca_source_pid ev) (ca_source_process ev) 0 0 0 0 (dz 0)
         (is_known_dump_tool (ca_source_process ev)) (ca_timestamp ev) 0,
       u64 (cg_next_indicator_id st + 1))
  end.

(** The time, the [switch] over the attack and the new score. *)
Definition count_access (ind : CredentialThreatIndicator) (ev : CredentialAccessEvent) : CredentialThreatIndicator :=
  let '(lsass, token, lateral, sam) :=
    match ca_type ev with
    | ATK_LSASS_ACCESS =>
        (lsass_access_count ind + 1, token_manipulation_count ind, lateral_movement_count ind, sam_access_count ind)
    | ATK_TOKEN_IMPERSONATE | ATK_TOKEN_DUPLICATE =>
        (lsass_access_count ind, token_manipulation_count ind + 1, lateral_movement_count ind, sam_access_count ind)
    | ATK_PASS_THE_HASH | ATK_PASS_THE_TICKET | ATK_DCSYNC | ATK_KERBEROASTING | ATK_GOLDEN_TICKET | ATK_SILVER_TICKET =>
        (lsass_access_count ind, token_manipulation_count ind, lateral_movement_count ind + 1, sam_access_count ind)
    | ATK_SAM_DUMP =>
        (lsass_access_count ind, token_manipulation_count ind, lateral_movement_count ind, sam_access_count ind + 1)
    end in
  let with_risk risk :=
    CredIndicator (ci_id ind) (ci_pid ind) (ci_process_name ind) lsass token lateral sam risk (known_tool ind)
      (ci_first_seen ind) (ca_timestamp ev) in
  with_risk (credential_score (with_risk (ci_risk_score ind))).

Definition credential_threat (ev : CredentialAccessEvent) (now : Z) : ThreatEvent :=
  Event 0 now (max_level (classify_attack (ca_type ev)) HIGH) (map_to_category (ca_type ev)) (ca_source_pid ev)
    (ca_source_process ev) EmptyString
    (attack_type_name (ca_type ev) +:+ " by " +:+ ca_source_process ev +:+ " (PID " +:+ print_int (ca_source_pid ev) +:+ ")" +:+
     (if empty_string (ca_detail ev) then EmptyString else " " +:+ em_dash +:+ " " +:+ ca_detail ev))
    EmptyString 0 false false.

Definition credential_observation (ev : CredentialAccessEvent) (risk : double) (now : Z) : SecurityObservation :=
  Obs "CredentialGuard" PROCESS_MEMORY now MEDIUM risk false (ca_source_pid ev) (ca_source_process ev) EmptyString
    EmptyString ("Suspicious credential access: " +:+ attack_type_name (ca_type ev)).

Definition store_access (ev : CredentialAccessEvent) (id : Z) : CredentialAccessEvent :=
  CredEvent id (ca_timestamp ev) (ca_type ev) (ca_source_pid ev) (ca_source_process ev) (ca_target_pid ev)
    (ca_target_process ev) (ca_access_mask ev) (ca_detail ev).

Definition ingest_credential (st : CredentialGuard) (ev : CredentialAccessEvent) (now : Z) : CredentialGuard * list output :=
  let '(ind, next) := credential_indicator st ev in
  let ind := count_access ind ev in
  let st' threats :=
    CredGuard (u64 (cg_events_processed st + 1)) threats (u64 (cg_next_id st + 1)) next
      (push_bounded MAX_CRED_EVENTS (cg_events st) (store_access ev (cg_next_id st)))
      (<[ca_source_pid ev := ind]> (cg_indicators st)) in
  if dle CRED_MALICIOUS (ci_risk_score ind) || known_tool ind then
    (st' (u64 (cg_threats_detected st + 1)), [Threat (credential_threat ev now)])
  else if dle CRED_SUSPICIOUS (ci_risk_score ind) then
    (st' (cg_threats_detected st), [Observed (credential_observation ev (ci_risk_score ind) now)])
  else (st' (cg_threats_detected st), []).

(** [%08X] of a 32-bit mask. *)
Fixpoint hex_upper (digits : nat) (n : Z) (suffix : string) : string :=
  match digits with
  | O => suffix
  | S digits =>
      let d := n mod 16 in
      hex_upper digits (n / 16) (String (char_of (if d <? 10 then 48 + d else 55 + d)) suffix)
  end.

Definition access_event (type : CredentialAttackType) (pid : Z) (name : string) (mask : Z) (detail : string) (now : Z) :
    CredentialAccessEvent :=
  CredEvent 0 now type pid name 0 EmptyString mask detail.

(** The clock is read for the event and again for what is reported. *)
Definition report_lsass_access (st : CredentialGuard) (pid : Z) (name : string) (access_mask time now : Z) :
    CredentialGuard * list output :=
  if negb (is_suspicious_lsass_access access_mask) then (st, [])
  else
    ingest_credential st
      (access_event ATK_LSASS_ACCESS pid name access_mask ("access_mask=0x" +:+ hex_upper 8 access_mask EmptyString) time) now.

Definition report_token_manipulation (st : CredentialGuard) (pid : Z) (name : string) (type : CredentialAttackType) (time now : Z) :
    CredentialGuard * list output :=
  ingest_credential st (access_event type pid name 0 EmptyString time) now.

Definition report_sam_access (st : CredentialGuard) (pid : Z) (name : string) (time now : Z) : CredentialGuard * list output :=
  ingest_credential st (access_event ATK_SAM_DUMP pid name 0 "SAM registry hive access detected" time) now.

(** ** Decay and queries *)

Definition expired (now : Z) (ind : CredentialThreatIndicator) : bool :=
  (30 <? Z.quot (now - ci_last_seen ind) (60 * 10 ^ 9)) && dlt (ci_risk_score ind) CRED_SUSPICIOUS.

Definition decay_indicators (st : CredentialGuard) (now : Z) : CredentialGuard :=
  CredGuard (cg_events_processed st) (cg_threats_detected st) (cg_next_id st) (cg_next_indicator_id st) (cg_events st)
    (filter (fun x => expired now (snd x) = false) (cg_indicators st)).

Definition active_credentials (sort : list CredentialThreatIndicator -> list CredentialThreatIndicator)
    (order : gmap Z CredentialThreatIndicator -> list (Z * CredentialThreatIndicator)) (st : CredentialGuard) (n : Z) :
    list CredentialThreatIndicator :=
  take (Z.to_nat n) (sort (snd <$> order (cg_indicators st))).

Definition recent_accesses (st : CredentialGuard) (n : Z) : list CredentialAccessEvent := latest n (cg_events st).

(** ** What is known of a process: the accesses it was seen with *)

Definition is_token (ev : CredentialAccessEvent) : bool :=
  match ca_type ev with ATK_TOKEN_IMPERSONATE | ATK_TOKEN_DUPLICATE => true | _ => false end.
Definition is_lsass (ev : CredentialAccessEvent) : bool := match ca_type ev with ATK_LSASS_ACCESS => true | _ => false end.
Definition is_sam (ev : CredentialAccessEvent) : bool := match ca_type ev with ATK_SAM_DUMP => true | _ => false end.
Definition is_lateral (ev : CredentialAccessEvent) : bool := negb (is_token ev || is_lsass ev || is_sam ev).

Definition occurrences (f : CredentialAccessEvent -> bool) (evs : list CredentialAccessEvent) : Z :=
  Z.of_nat (length (filter (fun ev => f ev = true) evs)).

Definition used_tool (evs : list CredentialAccessEvent) : bool :=
  match head evs with Some ev => is_known_dump_tool (ca_source_process ev) | None => false end.

(** The weight of each kind of access, in percent. *)
Definition access_signs (evs : list CredentialAccessEvent) : list Z :=
  [if used_tool evs then 50 else 0;
   if 3 <=? occurrences is_lsass evs then 25 else if 1 <=? occurrences is_lsass evs then 15 else 0;
   if 3 <=? occurrences is_token evs then 20 else if 1 <=? occurrences is_token evs then 10 else 0;
   if 1 <=? occurrences is_lateral evs then 25 else 0;
   if 1 <=? occurrences is_sam evs then 20 else 0].

Definition access_options : list (list Z) := [[50; 0]; [25; 15; 0]; [20; 10; 0]; [25; 0]; [20; 0]].

Definition access_risk (evs : list CredentialAccessEvent) : double :=
  dclamp (foldl add_percent (dz 0) (access_signs evs)) (dz 0) (dz 1).

Definition access_test (l : list Z) (score : double) : bool :=
  let s := dclamp score (dz 0) (dz 1) in
  unit_interval s && Bool.eqb (dle CRED_MALICIOUS s) (70 <=? percent l) &&
  Bool.eqb (dle CRED_SUSPICIOUS s) (35 <=? percent l) && Bool.eqb (dlt s CRED_SUSPICIOUS) (percent l <? 35).

Lemma access_signs_options evs : Forall2 (fun x xs => In x xs) (access_signs evs) access_options.
Proof.
  unfold access_signs, access_options. repeat refine (List.Forall2_cons _ _ _ _); [..|apply List.Forall2_nil].
  all: repeat match goal with |- context[if ?c then _ else _] => destruct c end; cbn; auto 9.
Qed.

Lemma all_accesses : all_scores access_test (dz 0) [] access_options = true.
Proof. vm_compute. reflexivity. Qed.

Lemma access_risk_percent evs : unit_interval (access_risk evs) = true /\
  dle CRED_MALICIOUS (access_risk evs) = (70 <=? percent (access_signs evs)) /\
  dle CRED_SUSPICIOUS (access_risk evs) = (35 <=? percent (access_signs evs)) /\
  dlt (access_risk evs) CRED_SUSPICIOUS = (percent (access_signs evs) <? 35).
Proof.
  pose proof (all_scores_spec _ _ _ (access_signs_options evs) (dz 0) [] all_accesses) as H.
  rewrite reverse_nil, app_nil_l in H. unfold access_test in H. fold (access_risk evs) in H.
  apply andb_true_iff in H as [H H4%Bool.eqb_prop]. apply andb_true_iff in H as [H H3%Bool.eqb_prop].
  apply andb_true_iff in H as [H1 H2%Bool.eqb_prop]. by split_and!.
Qed.

(** The indicator says of a process what was seen of it. *)
Record describes (ind : CredentialThreatIndicator) (evs : list CredentialAccessEvent) : Prop := {
  de_lsass : lsass_access_count ind = occurrences is_lsass evs;
  de_token : token_manipulation_count ind = occurrences is_token evs;
  de_lateral : lateral_movement_count ind = occurrences is_lateral evs;
  de_sam : sam_access_count ind = occurrences is_sam evs;
  de_tool : known_tool ind = used_tool evs;
  de_risk : ci_risk_score ind = access_risk evs;
  de_last : Some (ci_last_seen ind) = ca_timestamp <$> last evs;
  de_first : Some (ci_first_seen ind) = ca_timestamp <$> head evs;
  de_name : Some (ci_process_name ind) = ca_source_process <$> head evs;
}.

Lemma credential_score_signs ind evs : lsass_access_count ind = occurrences is_lsass evs ->
  token_manipulation_count ind = occurrences is_token evs -> lateral_movement_count ind = occurrences is_lateral evs ->
  sam_access_count ind = occurrences is_sam evs -> known_tool ind = used_tool evs -> credential_score ind = access_risk evs.
Proof.
  intros H1 H2 H3 H4 H5. unfold access_risk, access_signs. rewrite <- H1, <- H2, <- H3, <- H4, <- H5.
  set (f1 s := if known_tool ind then dadd s (dlit 50 100) else s).
  set (f2 s := if 3 <=? lsass_access_count ind then dadd s (dlit 25 100)
               else if 1 <=? lsass_access_count ind then dadd s (dlit 15 100) else s).
  set (f3 s := if 3 <=? token_manipulation_count ind then dadd s (dlit 20 100)
               else if 1 <=? token_manipulation_count ind then dadd s (dlit 10 100) else s).
  set (f4 s := if 1 <=? lateral_movement_count ind then dadd s (dlit 25 100) else s).
  set (f5 s := if 1 <=? sam_access_count ind then dadd s (dlit 20 100) else s).
  change (credential_score ind) with (dclamp (f5 (f4 (f3 (f2 (f1 (dz 0)))))) (dz 0) (dz 1)).
  cbn [foldl]. f_equal.
  unfold f5. etransitivity; [apply add_if2; reflexivity|f_equal].
  unfold f4. etransitivity; [apply add_if2; reflexivity|f_equal].
  unfold f3. etransitivity; [apply add_if3; [reflexivity|apply add_if2; reflexivity]|f_equal].
  unfold f2. etransitivity; [apply add_if3; [reflexivity|apply add_if2; reflexivity]|f_equal].
  unfold f1. etransitivity; [apply add_if2; reflexivity|f_equal].
Qed.

(** ** The specification: a map from processes to what was seen of them *)

Inductive guard_call :=
| CgIngest (ev : CredentialAccessEvent) (now : Z)
| CgLsass (pid : Z) (name : string) (mask time now : Z)
| CgToken (pid : Z) (name : string) (type : CredentialAttackType) (time now : Z)
| CgSam (pid : Z) (name : string) (time now : Z)
| CgDecay (now : Z).

Definition guard_step (st : CredentialGuard) (c : guard_call) : CredentialGuard * list output :=
  match c with
  | CgIngest ev now => ingest_credential st ev now
  | CgLsass pid name mask time now => report_lsass_access st pid name mask time now
  | CgToken pid name type time now => report_token_manipulation st pid name type time now
  | CgSam pid name time now => report_sam_access st pid name time now
  | CgDecay now => (decay_indicators st now, [])
  end.


(** An access is a threat when the process bears the name of a dump tool or its accesses
    weigh 70 percent, and observed from 35 percent on. *)
Definition spec_ingest (seen : gmap Z (list CredentialAccessEvent)) (ev : CredentialAccessEvent) (now : Z) : gmap Z (list CredentialAccessEvent) * list output :=
  let evs := default [] (seen !! ca_source_pid ev) ++ [ev] in
  (<[ca_source_pid ev := evs]> seen,
   if used_tool evs || (70 <=? percent (access_signs evs)) then [Threat (credential_threat ev now)]
   else if 35 <=? percent (access_signs evs) then [Observed (credential_observation ev (access_risk evs) now)]
   else []).

(** A process is forgotten after thirty full minutes without an access when its accesses
    weigh less than 35 percent. *)
Definition forgotten (now : Z) (evs : list CredentialAccessEvent) : bool :=
  match last evs with
  | Some ev => (31 * 60 * 10 ^ 9 <=? now - ca_timestamp ev) && (percent (access_signs evs) <? 35)
  | None => false
  end.

Definition spec_step (seen : gmap Z (list CredentialAccessEvent)) (c : guard_call) : gmap Z (list CredentialAccessEvent) * list output :=
  match c with
  | CgIngest ev now => spec_ingest seen ev now
  | CgLsass pid name mask time now =>
      if Z.testbit mask 3 || Z.testbit mask 4 || Z.testbit mask 5
      then spec_ingest seen (access_event ATK_LSASS_ACCESS pid name mask ("access_mask=0x" +:+ hex_upper 8 mask EmptyString) time) now
      else (seen, [])
  | CgToken pid name type time now => spec_ingest seen (access_event type pid name 0 EmptyString time) now
  | CgSam pid name time now => spec_ingest seen (access_event ATK_SAM_DUMP pid name 0 "SAM registry hive access detected" time) now
  | CgDecay now => (filter (fun x => forgotten now (snd x) = false) seen, [])
  end.

(** Running calls one after the other, with all that was reported. *)
Fixpoint run_calls {S} (step : S -> guard_call -> S * list output) (st : S) (calls : list guard_call) : S * list output :=
  match calls with
  | [] => (st, [])
  | c :: calls =>
      let '(st, out) := step st c in
      let '(st, outs) := run_calls step st calls in (st, out ++ outs)
  end.

Definition implements (st : CredentialGuard) (seen : gmap Z (list CredentialAccessEvent)) : Prop :=
  forall pid, match cg_indicators st !! pid, seen !! pid with
              | Some ind, Some evs => describes ind evs
              | None, None => True
              | _, _ => False
              end.

Lemma occurrences_snoc f evs ev : occurrences f (evs ++ [ev]) = occurrences f evs + (if f ev then 1 else 0).
Proof.
  unfold occurrences. rewrite filter_app, length_app. destruct (f ev) eqn:E.
  - rewrite filter_cons_True by done. cbn. lia.
  - rewrite filter_cons_False by (by rewrite E). cbn. lia.
Qed.

Lemma head_snoc {A} (l : list A) x y : head l = Some y -> head (l ++ [x]) = Some y.
Proof. by destruct l. Qed.

Lemma used_tool_snoc evs ev y : head evs = Some y -> used_tool (evs ++ [ev]) = used_tool evs.
Proof. intros H. unfold used_tool. by rewrite (head_snoc _ _ _ H), H. Qed.

(** One more access: the counters, tool and times of the history grow in step. *)
Lemma count_access_describes ind evs ev :
  lsass_access_count ind = occurrences is_lsass evs -> token_manipulation_count ind = occurrences is_token evs ->
  lateral_movement_count ind = occurrences is_lateral evs -> sam_access_count ind = occurrences is_sam evs ->
  known_tool ind = used_tool (evs ++ [ev]) -> Some (ci_first_seen ind) = ca_timestamp <$> head (evs ++ [ev]) ->
  Some (ci_process_name ind) = ca_source_process <$> head (evs ++ [ev]) -> describes (count_access ind ev) (evs ++ [ev]).
Proof.
  intros H1 H2 H3 H4 H5 H6 H7. pose proof (last_snoc ev evs) as Hl.
  pose proof (occurrences_snoc is_lsass evs ev) as C1. pose proof (occurrences_snoc is_token evs ev) as C2.
  pose proof (occurrences_snoc is_lateral evs ev) as C3. pose proof (occurrences_snoc is_sam evs ev) as C4.
  assert (E1 : is_lsass ev = match ca_type ev with ATK_LSASS_ACCESS => true | _ => false end) by reflexivity.
  assert (E2 : is_token ev = match ca_type ev with ATK_TOKEN_IMPERSONATE | ATK_TOKEN_DUPLICATE => true | _ => false end) by reflexivity.
  assert (E4 : is_sam ev = match ca_type ev with ATK_SAM_DUMP => true | _ => false end) by reflexivity.
  assert (E3 : is_lateral ev = negb (is_token ev || is_lsass ev || is_sam ev)) by reflexivity.
  rewrite E3 in C3. rewrite E1 in C1, C3. rewrite E2 in C2, C3. rewrite E4 in C3, C4. clear E1 E2 E3 E4.
  unfold count_access. destruct (ca_type ev); cbn [negb orb] in C1, C2, C3, C4; split.
  all: cbn [lsass_access_count token_manipulation_count lateral_movement_count sam_access_count known_tool ci_risk_score
    ci_last_seen ci_first_seen ci_process_name]; rewrite ?Hl; try assumption; try reflexivity; try lia.
  all: apply credential_score_signs; cbn [lsass_access_count token_manipulation_count lateral_movement_count sam_access_count known_tool];
    try assumption; lia.
Qed.

Lemma describes_head ind evs : describes ind evs -> exists ev, head evs = Some ev.
Proof. intros [_ _ _ _ _ _ _ H _]. destruct (head evs); [eauto|discriminate]. Qed.

Lemma new_access_describes st ev evs ind : cg_indicators st !! ca_source_pid ev = Some ind -> describes ind evs ->
  describes (count_access (fst (credential_indicator st ev)) ev) (evs ++ [ev]).
Proof.
  intros E H. unfold credential_indicator. rewrite E. cbn [fst]. destruct (describes_head _ _ H) as [ev0 H0].
  destruct H as [H1 H2 H3 H4 H5 _ _ H7 H8].
  apply count_access_describes; rewrite ?(used_tool_snoc _ _ _ H0), ?(head_snoc _ _ _ H0), <- ?H0; assumption.
Qed.

Lemma first_access_describes st ev : cg_indicators st !! ca_source_pid ev = None ->
  describes (count_access (fst (credential_indicator st ev)) ev) [ev].
Proof. intros E. unfold credential_indicator. rewrite E. by apply (count_access_describes _ [] ev). Qed.

Lemma ingest_indicators st ev now :
  cg_indicators (fst (ingest_credential st ev now)) =
    <[ca_source_pid ev := count_access (fst (credential_indicator st ev)) ev]> (cg_indicators st).
Proof.
  unfold ingest_credential. destruct (credential_indicator st ev) as [ind next]. cbn [fst].
  by destruct (_ || known_tool _); [|destruct (dle CRED_SUSPICIOUS _)].
Qed.

Lemma ingest_output st ev now : let ind := count_access (fst (credential_indicator st ev)) ev in
  snd (ingest_credential st ev now) =
    if dle CRED_MALICIOUS (ci_risk_score ind) || known_tool ind then [Threat (credential_threat ev now)]
    else if dle CRED_SUSPICIOUS (ci_risk_score ind) then [Observed (credential_observation ev (ci_risk_score ind) now)] else [].
Proof.
  unfold ingest_credential. destruct (credential_indicator st ev) as [ind next]. cbn [fst].
  by destruct (_ || known_tool _); [|destruct (dle CRED_SUSPICIOUS _)].
Qed.

Lemma ingest_implements st seen ev now : implements st seen ->
  implements (fst (ingest_credential st ev now)) (fst (spec_ingest seen ev now)) /\
  snd (ingest_credential st ev now) = snd (spec_ingest seen ev now).
Proof.
  intros H. assert (D : describes (count_access (fst (credential_indicator st ev)) ev) (default [] (seen !! ca_source_pid ev) ++ [ev])).
  { specialize (H (ca_source_pid ev)). destruct (cg_indicators st !! ca_source_pid ev) eqn:E1, (seen !! ca_source_pid ev) eqn:E2; try done.
    - eapply new_access_describes; [exact E1|exact H].
    - apply first_access_describes. exact E1. }
  split.
  - intros pid. rewrite ingest_indicators. unfold spec_ingest. cbn [fst]. destruct (decide (ca_source_pid ev = pid)) as [<-|Hne].
    + rewrite (lookup_insert_eq (cg_indicators st)), (lookup_insert_eq seen). exact D.
    + rewrite (lookup_insert_ne (cg_indicators st)), (lookup_insert_ne seen) by exact Hne. apply H.
  - rewrite ingest_output. unfold spec_ingest. cbn [snd]. rewrite (de_risk _ _ D), (de_tool _ _ D).
    destruct (access_risk_percent (default [] (seen !! ca_source_pid ev) ++ [ev])) as (_ & -> & -> & _). by rewrite orb_comm.
Qed.

Lemma minutes_passed d : (30 <? Z.quot d (60 * 10 ^ 9)) = (31 * 60 * 10 ^ 9 <=? d).
Proof.
  destruct (Z.leb_spec (31 * 60 * 10 ^ 9) d) as [H|H].
  - apply Z.ltb_lt. apply (Z.lt_le_trans _ 31); [lia|]. apply Z.quot_le_lower_bound; lia.
  - apply Z.ltb_ge. destruct (Z.le_gt_cases 0 d).
    + apply Z.lt_succ_r. apply Z.quot_lt_upper_bound; lia.
    + assert (Hm : Z.quot d (60 * 10 ^ 9) <= Z.quot 0 (60 * 10 ^ 9)) by (apply Z.quot_le_mono; lia).
      rewrite Z.quot_0_l in Hm; lia.
Qed.

Lemma expired_forgotten now ind evs : describes ind evs -> expired now ind = forgotten now evs.
Proof.
  intros [_ _ _ _ _ H6 H7 _ _]. unfold expired, forgotten. destruct (last evs) as [ev|]; [|discriminate].
  injection H7 as H7. destruct (access_risk_percent evs) as (_ & _ & _ & H). by rewrite H6, H7, H, minutes_passed.
Qed.

Lemma decay_implements st seen now : implements st seen ->
  implements (decay_indicators st now) (filter (fun x => forgotten now (snd x) = false) seen).
Proof.
  intros H pid. specialize (H pid). cbn [decay_indicators cg_indicators]. rewrite !map_lookup_filter.
  destruct (cg_indicators st !! pid) as [ind|], (seen !! pid) as [evs|]; try contradiction; cbn [mbind option_bind snd]; [|exact I].
  rewrite (expired_forgotten now ind evs H). destruct (forgotten now evs); exact H || exact I.
Qed.

Lemma mask_bits mask : is_suspicious_lsass_access mask = Z.testbit mask 3 || Z.testbit mask 4 || Z.testbit mask 5.
Proof.
  unfold is_suspicious_lsass_access. destruct (Z.eqb_spec mask MASK_ALL_ACCESS) as [->|_]; [reflexivity|]. rewrite orb_false_r.
  change (Z.lor _ _) with 56. destruct (Z.eqb_spec (Z.land mask 56) 0) as [E|E]; cbn [negb]; symmetry.
  - assert (B : forall n, Z.testbit 56 n = true -> Z.testbit mask n = false).
    { intros n Hn. pose proof (f_equal (fun z => Z.testbit z n) E) as Hb. cbv beta in Hb.
      rewrite Z.land_spec, Hn, andb_true_r, Z.bits_0 in Hb. exact Hb. }
    by rewrite !B.
  - apply not_false_iff_true. intros [[B3 B4]%orb_false_iff B5]%orb_false_iff. apply E, Z.bits_inj'. intros n Hn.
    rewrite Z.land_spec, Z.bits_0. destruct (decide (n < 6)) as [Hn6|Hn6].
    + assert (n = 0 \/ n = 1 \/ n = 2 \/ n = 3 \/ n = 4 \/ n = 5) as Hc by lia.
      destruct Hc as [-> | [-> | [-> | [-> | [-> | ->]]]]]; rewrite ?B3, ?B4, ?B5; apply andb_false_r || reflexivity.
    + rewrite (Z.bits_above_log2 56 n) by (cbn; lia). apply andb_false_r.
Qed.

Lemma step_implements st seen c : implements st seen ->
  implements (fst (guard_step st c)) (fst (spec_step seen c)) /\ snd (guard_step st c) = snd (spec_step seen c).
Proof.
  intros H. destruct c as [ev now|pid name mask time now|pid name type time now|pid name time now|now]; cbn [guard_step spec_step].
  - by apply ingest_implements.
  - unfold report_lsass_access. rewrite mask_bits. destruct (_ || Z.testbit mask 5); cbn [negb]; [by apply ingest_implements|by split].
  - by apply ingest_implements.
  - by apply ingest_implements.
  - split; [by apply decay_implements|done].
Qed.

Lemma run_implements calls : forall st seen, implements st seen ->
  implements (fst (run_calls guard_step st calls)) (fst (run_calls spec_step seen calls)) /\
  snd (run_calls guard_step st calls) = snd (run_calls spec_step seen calls).
Proof.
  induction calls as [|c calls IH]; intros st seen H; cbn [run_calls]; [by split|].
  destruct (step_implements st seen c H) as [Hi Ho]. destruct (guard_step st c) as [st1 o1], (spec_step seen c) as [seen1 o2].
  cbn [fst snd] in Hi, Ho. destruct (IH st1 seen1 Hi) as [Hi' Ho'].
  destruct (run_calls guard_step st1 calls), (run_calls spec_step seen1 calls). cbn [fst snd] in *. by rewrite Ho, Ho'.
Qed.

(** ** Properties *)

(** C21: from a new engine on, any sequence of reports and decays answers exactly like the map
    from processes to the accesses seen of them: an access of a process that bears the name of
    a dump tool, or whose accesses weigh 70 percent, is a threat, one from 35 percent on an
    observation with its weight as confidence, a handle on lsass counts when its mask has one
    of the bits 3, 4 and 5, and a process is forgotten after 31 minutes without an access
    below 35 percent.  The indicator keeps the exact counts and times of those accesses. *)
Theorem credential_guard_refines (calls : list guard_call) :
  let '(st, outs) := run_calls guard_step new_credential_guard calls in
  let '(seen, spec_outs) := run_calls spec_step (∅ : gmap Z (list CredentialAccessEvent)) calls in
  outs = spec_outs /\
  forall pid, match cg_indicators st !! pid, seen !! pid with
              | Some ind, Some evs => describes ind evs /\ unit_interval (ci_risk_score ind) = true
              | None, None => True
              | _, _ => False
              end.
Proof.
  assert (H0 : implements new_credential_guard ∅) by (intros pid; cbn; by rewrite !lookup_empty).
  destruct (run_implements calls _ _ H0) as [H1 H2].
  destruct (run_calls guard_step _ calls) as [st outs], (run_calls spec_step _ calls) as [seen outs']. cbn [fst snd] in *.
  split; [exact H2|]. intros pid. specialize (H1 pid).
  destruct (cg_indicators st !! pid) as [ind|], (seen !! pid) as [evs|]; try done.
  split; [exact H1|]. rewrite (de_risk _ _ H1). apply access_risk_percent.
Qed.

(** A process that is seen before it bears the name of a dump tool is not recognised: the
    name is looked at when the indicator is made. *)
Example reused_pid_hides_the_tool :
  snd (run_calls guard_step new_credential_guard
    [CgToken 7 "svchost.exe" ATK_TOKEN_DUPLICATE 0 0; CgSam 7 "mimikatz.exe" 1 1]) = [] /\
  length (snd (run_calls guard_step new_credential_guard [CgSam 7 "mimikatz.exe" 1 1])) = 1%nat.
Proof. vm_compute. split; reflexivity. Qed.
