(* ===== verification/NetworkDpi.v ===== *)
(** * NetworkDpi: packets, alerts and beacons

    Models src/src/engines/network_dpi_engine.cpp and its header: the rules over the
    metadata of packets and the search for connections at regular intervals.  A packet is
    recorded in one critical section and each of its alerts in another; the model runs them
    one after the other.  Both callbacks are set unless an argument says otherwise; the
    order of the hash map and [std::sort] are arguments. *)
From S2P Require Import Prelude BoundedLog Float64 Entropy Observation Text Threat.

Inductive DpiProtocol :=
| PROTO_UNKNOWN | PROTO_HTTP | PROTO_HTTPS | PROTO_DNS | PROTO_SMTP | PROTO_FTP | PROTO_SSH | PROTO_RDP | PROTO_SMB
| PROTO_IRC | PROTO_RAW.

Inductive DpiVerdict := DPI_CLEAN | DPI_SUSPICIOUS | DPI_MALICIOUS | DPI_BLOCKED.

#[export] Instance DpiProtocol_eq_dec : EqDecision DpiProtocol.
Proof. solve_decision. Defined.

Record PacketMeta := Packet {
  pk_id : Z;
  pk_timestamp : Z;
  pk_protocol : DpiProtocol;
  pk_src_ip : string;
  pk_src_port : Z;
  pk_dst_ip : string;
  pk_dst_port : Z;
  pk_payload_size : Z;
  pk_payload_entropy : double;
  pk_hostname : string;
  pk_user_agent : string;
  pk_tls_issuer : string;
  pk_tls_subject : string;
  pk_tls_self_signed : bool;
  pk_tls_expired : bool;
  pk_http_status : Z;
  pk_http_method : string;
  pk_uri : string;
}.

Record BeaconPattern := Beacon {
  bp_dst_ip : string;
  bp_dst_port : Z;
  bp_connection_count : Z;
  bp_interval_mean_ms : double;
  bp_interval_stddev_ms : double;
  bp_jitter_ratio : double;
  bp_beacon_score : double;
}.

Record DpiAlert := DAlert {
  da_id : Z;
  da_verdict : DpiVerdict;
  da_level : ThreatLevel;
  da_rule_name : string;
  da_description : string;
  da_src_ip : string;
  da_dst_ip : string;
  da_dst_port : Z;
  da_protocol : DpiProtocol;
  da_timestamp : Z;
}.

Definition BEACON_MIN_CONNECTIONS : Z := 5.
Definition BEACON_SCORE_THRESHOLD : double := dlit 70 100.
Definition DPI_HIGH_ENTROPY : double := dlit 72 10.
Definition MAX_ALERTS : Z := 2000.
Definition MAX_PACKETS : Z := 10000.

Record ConnectionTimeline := Conn { tl_timestamps : list Z; tl_dst_ip : string; tl_dst_port : Z }.

Record NetworkDpi := Dpi {
  nd_events_processed : Z;
  nd_threats_detected : Z;
  nd_next_id : Z;
  nd_next_alert_id : Z;
  nd_packets : list PacketMeta;
  nd_alerts : list DpiAlert;
  nd_timelines : gmap string ConnectionTimeline;
  nd_reported : gset string;
}.

Definition new_dpi : NetworkDpi := Dpi 0 0 1 1 [] [] ∅ ∅.

(** ** Rules over one packet *)

Definition suspicious_agents : list string :=
  ["python-requests"; "go-http-client"; "wget"; "curl"; "powershell"; "certutil"; "bitsadmin"; "cobalt"; "beacon";
   "meterpreter"; "empire"; "covenant"; "sliver"]%string.

Definition suspicious_uri_patterns : list string :=
  ["/admin/upload"; "/shell"; "/cmd"; "/exec"; "/c2/"; "/beacon/"; "/implant/"; "..%2f"; "..%5c"; "%00";
   "/wp-admin/admin-ajax.php?action="; ".php?cmd="; ".asp?exec="; ".jsp?cmd="; "/cgi-bin/"; "eval("; "base64,"]%string.

Definition known_c2_ports : list Z :=
  [4444; 5555; 8443; 8888; 9999; 1337; 31337; 6666; 6667; 6668; 6669; 4443; 2222; 3333; 7777; 50050; 50051].

Definition classify_port (port : Z) : DpiProtocol :=
  if port =? 80 then PROTO_HTTP
  else if (port =? 443) || (port =? 8443) then PROTO_HTTPS
  else if port =? 53 then PROTO_DNS
  else if (port =? 25) || (port =? 587) || (port =? 465) then PROTO_SMTP
  else if port =? 21 then PROTO_FTP
  else if port =? 22 then PROTO_SSH
  else if port =? 3389 then PROTO_RDP
  else if (port =? 445) || (port =? 139) then PROTO_SMB
  else if (port =? 6667) || (port =? 6668) || (port =? 6669) then PROTO_IRC
  else PROTO_UNKNOWN.

Definition is_suspicious_user_agent (ua : string) : bool :=
  negb (empty_string ua) && existsb (fun s => find_sub s (string_map tolower ua)) suspicious_agents.

Definition is_suspicious_uri (uri : string) : bool :=
  negb (empty_string uri) && existsb (fun p => find_sub p (string_map tolower uri)) suspicious_uri_patterns.

Definition is_known_c2_port (port : Z) : bool := bool_decide (port ∈ known_c2_ports).

(** ** Recording *)

Definition conn_key (dst_ip : string) (dst_port : Z) : string := dst_ip +:+ ":" +:+ print_int dst_port.

Definition store_packet (pkt : PacketMeta) (id : Z) : PacketMeta :=
  Packet id (pk_timestamp pkt) (pk_protocol pkt) (pk_src_ip pkt) (pk_src_port pkt) (pk_dst_ip pkt) (pk_dst_port pkt)
    (pk_payload_size pkt) (pk_payload_entropy pkt) (pk_hostname pkt) (pk_user_agent pkt) (pk_tls_issuer pkt)
    (pk_tls_subject pkt) (pk_tls_self_signed pkt) (pk_tls_expired pkt) (pk_http_status pkt) (pk_http_method pkt) (pk_uri pkt).

Definition timeline_at (st : NetworkDpi) (key : string) : ConnectionTimeline :=
  default (Conn [] EmptyString 0) (nd_timelines st !! key).

Definition record_packet (st : NetworkDpi) (pkt : PacketMeta) : NetworkDpi :=
  let key := conn_key (pk_dst_ip pkt) (pk_dst_port pkt) in
  let timeline := Conn (push_bounded 200 (tl_timestamps (timeline_at st key)) (pk_timestamp pkt)) (pk_dst_ip pkt) (pk_dst_port pkt) in
  Dpi (u64 (nd_events_processed st + 1)) (nd_threats_detected st) (u64 (nd_next_id st + 1)) (nd_next_alert_id st)
    (push_bounded MAX_PACKETS (nd_packets st) (store_packet pkt (nd_next_id st))) (nd_alerts st)
    (<[key := timeline]> (nd_timelines st)) (nd_reported st).

Definition dpi_threat (level : ThreatLevel) (rule desc : string) (pkt : PacketMeta) (now : Z) : ThreatEvent :=
  Event 0 now level NETWORK_SCAN 0 EmptyString EmptyString ("[" +:+ rule +:+ "] " +:+ desc) (pk_src_ip pkt) (pk_src_port pkt)
    false false.

Definition dpi_observation (verdict : DpiVerdict) (level : ThreatLevel) (rule desc : string) (now : Z) : SecurityObservation :=
  Obs "NetworkDPI" NETWORK_CONNECTION now level (match verdict with DPI_MALICIOUS => dlit 9 10 | _ => dlit 6 10 end) false 0
    EmptyString EmptyString EmptyString ("[" +:+ rule +:+ "] " +:+ desc).

Definition add_alert (pkt : PacketMeta) (now : Z) (st : NetworkDpi) (verdict : DpiVerdict) (level : ThreatLevel) (rule desc : string) :
    NetworkDpi * list output :=
  let alert := DAlert (nd_next_alert_id st) verdict level rule desc (pk_src_ip pkt) (pk_dst_ip pkt) (pk_dst_port pkt) (pk_protocol pkt) now in
  let st' threats :=
    Dpi (nd_events_processed st) threats (nd_next_id st) (u64 (nd_next_alert_id st + 1)) (nd_packets st)
      (push_bounded MAX_ALERTS (nd_alerts st) alert) (nd_timelines st) (nd_reported st) in
  if level_value HIGH <=? level_value level then
    (st' (u64 (nd_threats_detected st + 1)), [Threat (dpi_threat level rule desc pkt now)])
  else (st' (nd_threats_detected st), [Observed (dpi_observation verdict level rule desc now)]).

(** A rule: when it holds, the alert it raises. *)
Definition dpi_rule : Type := bool * DpiVerdict * ThreatLevel * string * string.

Fixpoint raise_alerts (pkt : PacketMeta) (now : Z) (st : NetworkDpi) (rules : list dpi_rule) : NetworkDpi * list output :=
  match rules with
  | [] => (st, [])
  | (holds, verdict, level, rule, desc) :: rules =>
      if holds : bool then
        let '(st, out) := add_alert pkt now st verdict level rule desc in
        let '(st, outs) := raise_alerts pkt now st rules in (st, out ++ outs)
      else raise_alerts pkt now st rules
  end.

Definition check_protocol_anomalies (pkt : PacketMeta) : list dpi_rule :=
  [(negb (empty_string (pk_user_agent pkt)) && is_suspicious_user_agent (pk_user_agent pkt), DPI_SUSPICIOUS, MEDIUM,
    "SUSPICIOUS_USER_AGENT", "Suspicious User-Agent: " +:+ pk_user_agent pkt +:+ " connecting to " +:+ pk_dst_ip pkt);
   (negb (empty_string (pk_uri pkt)) && is_suspicious_uri (pk_uri pkt), DPI_MALICIOUS, HIGH,
    "SUSPICIOUS_URI", "Suspicious URI pattern: " +:+ pk_uri pkt +:+ " to " +:+ pk_dst_ip pkt);
   (bool_decide (pk_protocol pkt = PROTO_DNS) && (512 <? pk_payload_size pkt)%Z, DPI_SUSPICIOUS, MEDIUM,
    "DNS_LARGE_PAYLOAD", "Oversized DNS payload (" +:+ print_int (pk_payload_size pkt) +:+ " bytes) to " +:+ pk_dst_ip pkt);
   (bool_decide (pk_protocol pkt = PROTO_IRC), DPI_SUSPICIOUS, MEDIUM,
    "IRC_CONNECTION", "IRC connection to " +:+ pk_dst_ip pkt +:+ ":" +:+ print_int (pk_dst_port pkt) +:+ " (common C2 channel)")]%string.

Definition check_tls_anomalies (pkt : PacketMeta) : list dpi_rule :=
  [(pk_tls_self_signed pkt, DPI_SUSPICIOUS, MEDIUM,
    "TLS_SELF_SIGNED", "Self-signed TLS certificate from " +:+ pk_dst_ip pkt +:+ " (subject: " +:+ pk_tls_subject pkt +:+ ")");
   (pk_tls_expired pkt, DPI_SUSPICIOUS, LOW,
    "TLS_EXPIRED", "Expired TLS certificate from " +:+ pk_dst_ip pkt +:+ " (issuer: " +:+ pk_tls_issuer pkt +:+ ")")]%string.

Definition check_payload_and_port (pkt : PacketMeta) : list dpi_rule :=
  [(dle DPI_HIGH_ENTROPY (pk_payload_entropy pkt) && (256 <? pk_payload_size pkt)%Z, DPI_SUSPICIOUS, MEDIUM,
    "HIGH_ENTROPY_PAYLOAD", "High entropy payload (" +:+ print_int (Z.quot (dtrunc (dmul (pk_payload_entropy pkt) (dz 100))) 100) +:+
      " bits) to " +:+ pk_dst_ip pkt +:+ ":" +:+ print_int (pk_dst_port pkt));
   (is_known_c2_port (pk_dst_port pkt), DPI_SUSPICIOUS, MEDIUM,
    "KNOWN_C2_PORT", "Connection to known C2 port " +:+ pk_dst_ip pkt +:+ ":" +:+ print_int (pk_dst_port pkt))]%string.

Definition packet_rules (pkt : PacketMeta) : list dpi_rule :=
  check_protocol_anomalies pkt ++ check_tls_anomalies pkt ++ check_payload_and_port pkt.

Definition inspect_packet (st : NetworkDpi) (pkt : PacketMeta) (now : Z) : NetworkDpi * list output :=
  raise_alerts pkt now (record_packet st pkt) (packet_rules pkt).

(** ** Beacons *)

Definition compute_beacon_score (interval_mean_ms interval_stddev_ms : double) (count : Z) : double :=
  if (count <? BEACON_MIN_CONNECTIONS) || dle interval_mean_ms (dz 0) then dz 0
  else
    let jitter := if dlt (dz 0) interval_mean_ms then ddiv interval_stddev_ms interval_mean_ms else dz 1 in
    let regularity := dmax (dz 0) (dsub (dz 1) jitter) in
    let count_factor := dmin (dz 1) (ddiv (dz count) (dz 20)) in
    dclamp (dadd (dmul regularity (dlit 7 10)) (dmul count_factor (dlit 3 10))) (dz 0) (dz 1).

(** The milliseconds between connections. *)
Fixpoint intervals (timestamps : list Z) : list double :=
  match timestamps with
  | t :: ((t' :: _) as rest) => dz (Z.quot (t' - t) (10 ^ 6)) :: intervals rest
  | _ => []
  end.

Definition dsqrt : double -> double := SFsqrt 53 1024.

Definition mean_of (values : list double) : double := ddiv (foldl dadd (dz 0) values) (dz (Z.of_nat (length values))).

Definition stddev_of (values : list double) : double :=
  let mean := mean_of values in
  let sq_sum := foldl (fun sum v => dadd sum (dmul (dsub v mean) (dsub v mean))) (dz 0) values in
  dsqrt (ddiv sq_sum (dz (Z.of_nat (length values)))).

Definition connections (tl : ConnectionTimeline) : Z := Z.of_nat (length (tl_timestamps tl)).

(** The mean, the deviation and the score of a timeline; [None] when it is skipped. *)
Definition beacon_scores (tl : ConnectionTimeline) : option (double * double * double) :=
  if connections tl <? BEACON_MIN_CONNECTIONS then None
  else
    let values := intervals (tl_timestamps tl) in
    if bool_decide (values = []) then None
    else
      let mean := mean_of values in
      let stddev := stddev_of values in
      Some (mean, stddev, compute_beacon_score mean stddev (connections tl)).

Definition beacon_pattern (tl : ConnectionTimeline) (mean stddev score : double) : BeaconPattern :=
  Beacon (tl_dst_ip tl) (tl_dst_port tl) (connections tl) mean stddev (if dlt (dz 0) mean then ddiv stddev mean else dz 0) score.

(** The loop stops once [n] patterns are found. *)
Fixpoint beacons_loop (n : Z) (timelines : list (string * ConnectionTimeline)) (result : list BeaconPattern) : list BeaconPattern :=
  match timelines with
  | [] => result
  | (_, tl) :: timelines =>
      match beacon_scores tl with
      | Some (mean, stddev, score) =>
          if dle BEACON_SCORE_THRESHOLD score then
            let result := result ++ [beacon_pattern tl mean stddev score] in
            if n <=? Z.of_nat (length result) then result else beacons_loop n timelines result
          else beacons_loop n timelines result
      | None => beacons_loop n timelines result
      end
  end.

Definition detected_beacons (sort : list BeaconPattern -> list BeaconPattern)
    (order : gmap string ConnectionTimeline -> list (string * ConnectionTimeline)) (st : NetworkDpi) (n : Z) : list BeaconPattern :=
  sort (beacons_loop n (order (nd_timelines st)) []).

Definition beacon_threat (tl : ConnectionTimeline) (mean score : double) (now : Z) : ThreatEvent :=
  Event 0 now HIGH C2_BEACON 0 EmptyString EmptyString
    ("Beaconing detected to " +:+ tl_dst_ip tl +:+ ":" +:+ print_int (tl_dst_port tl) +:+ " " +:+ em_dash +:+ " " +:+
     print_int (connections tl) +:+ " connections, interval=" +:+ print_int (dtrunc mean) +:+ "ms, score=" +:+
     print_int (dtrunc (dmul score (dz 100))) +:+ "%")
    (tl_dst_ip tl) (tl_dst_port tl) false false.

(** The body of the loop of [analyze_beacons], over the set of reported keys. *)
Definition analyze_beacon (now : Z) (reported : gset string) (x : string * ConnectionTimeline) : gset string * list output :=
  let '(key, tl) := x in
  match beacon_scores tl with
  | None => (reported, [])
  | Some (mean, _, score) =>
      if dle BEACON_SCORE_THRESHOLD score then
        if bool_decide (key ∈ reported) then (reported, [])
        else ({[key]} ∪ reported, [Threat (beacon_threat tl mean score now)])
      else (reported ∖ {[key]}, [])
  end.

Fixpoint analyze_loop (now : Z) (reported : gset string) (timelines : list (string * ConnectionTimeline)) : gset string * list output :=
  match timelines with
  | [] => (reported, [])
  | x :: timelines =>
      let '(reported, out) := analyze_beacon now reported x in
      let '(reported, outs) := analyze_loop now reported timelines in (reported, out ++ outs)
  end.

(** [callback] says whether a threat callback is set. *)
Definition analyze_beacons (callback : bool) (order : gmap string ConnectionTimeline -> list (string * ConnectionTimeline))
    (st : NetworkDpi) (now : Z) : NetworkDpi * list output :=
  if negb callback then (st, [])
  else
    let '(reported, out) := analyze_loop now (nd_reported st) (order (nd_timelines st)) in
    (Dpi (nd_events_processed st) (u64 (nd_threats_detected st + Z.of_nat (length out))) (nd_next_id st) (nd_next_alert_id st)
       (nd_packets st) (nd_alerts st) (nd_timelines st) reported, out).

Definition recent_alerts (st : NetworkDpi) (n : Z) : list DpiAlert := latest n (nd_alerts st).

(** ** Keys of connections *)

Lemma app_last_inj (c : Ascii.ascii) (a b p q : string) : has_char c p = false -> has_char c q = false ->
  a +:+ String.String c p = b +:+ String.String c q -> a = b /\ p = q.
Proof.
  intros Hp Hq. revert b. induction a as [|x a IH]; intros [|y b] E.
  - cbn in E. by injection E as ->.
  - cbn in E. injection E as -> E. exfalso. rewrite E in Hp. rewrite has_char_app in Hp.
    cbn [has_char] in Hp. rewrite bool_decide_eq_true_2, orb_true_r in Hp by reflexivity. discriminate.
  - cbn in E. injection E as -> E. exfalso. rewrite <- E in Hq. rewrite has_char_app in Hq.
    cbn [has_char] in Hq. rewrite bool_decide_eq_true_2, orb_true_r in Hq by reflexivity. discriminate.
  - cbn in E. injection E as -> E. destruct (IH b E) as [-> ->]. done.
Qed.

Lemma conn_key_inj ip port ip' port' : conn_key ip port = conn_key ip' port' -> ip = ip' /\ port = port'.
Proof.
  unfold conn_key. change (":" +:+ print_int port)%string with (String.String (char_of 58) (print_int port)).
  change (":" +:+ print_int port')%string with (String.String (char_of 58) (print_int port')).
  intros E. apply app_last_inj in E as [-> E%print_int_inj]; [done|apply print_int_plain; vm_compute; done..].
Qed.

(** ** Histories *)

Inductive dpi_call :=
| DpiPacket (pkt : PacketMeta) (now : Z)
| DpiAnalyze (callback : bool) (order : gmap string ConnectionTimeline -> list (string * ConnectionTimeline)) (now : Z).

Definition dpi_step (st : NetworkDpi) (c : dpi_call) : NetworkDpi :=
  match c with
  | DpiPacket pkt now => fst (inspect_packet st pkt now)
  | DpiAnalyze callback order now => fst (analyze_beacons callback order st now)
  end.

Definition dpi_run (calls : list dpi_call) : NetworkDpi := foldl dpi_step new_dpi calls.

(** When packets went to an address. *)
Definition times_to (ip : string) (port : Z) (calls : list dpi_call) : list Z :=
  omap (fun c => match c with
                 | DpiPacket pkt _ => if String.eqb (pk_dst_ip pkt) ip && (pk_dst_port pkt =? port) then Some (pk_timestamp pkt) else None
                 | DpiAnalyze _ _ _ => None end) calls.

Lemma add_alert_frame pkt now st verdict level rule desc : let st' := fst (add_alert pkt now st verdict level rule desc) in
  nd_timelines st' = nd_timelines st /\ nd_reported st' = nd_reported st /\ nd_packets st' = nd_packets st /\
  nd_events_processed st' = nd_events_processed st.
Proof. unfold add_alert. by destruct (level_value HIGH <=? level_value level). Qed.

Lemma raise_alerts_frame pkt now rules : forall st, let st' := fst (raise_alerts pkt now st rules) in
  nd_timelines st' = nd_timelines st /\ nd_reported st' = nd_reported st /\ nd_packets st' = nd_packets st /\
  nd_events_processed st' = nd_events_processed st.
Proof.
  induction rules as [|[[[[holds verdict] level] rule] desc] rules IH]; intros st; cbn [raise_alerts]; [done|].
  destruct holds; [|apply IH]. pose proof (add_alert_frame pkt now st verdict level rule desc) as H.
  destruct (add_alert pkt now st verdict level rule desc) as [st1 out]. specialize (IH st1).
  destruct (raise_alerts pkt now st1 rules) as [st2 outs]. cbn [fst] in *.
  destruct H as (<- & <- & <- & <-). exact IH.
Qed.

Lemma times_snoc ip port calls c : times_to ip port (calls ++ [c]) = times_to ip port calls ++
  match c with
  | DpiPacket pkt _ => if String.eqb (pk_dst_ip pkt) ip && (pk_dst_port pkt =? port) then [pk_timestamp pkt] else []
  | DpiAnalyze _ _ _ => [] end.
Proof. unfold times_to. rewrite omap_app. f_equal. destruct c; cbn; [|done]. by destruct (_ && _). Qed.

Definition timelines_ok (calls : list dpi_call) (st : NetworkDpi) : Prop :=
  forall ip port, nd_timelines st !! conn_key ip port =
    match times_to ip port calls with
    | [] => None
    | times => Some (Conn (last_n 200 times) ip port)
    end.

Lemma analyze_timelines callback order st now : nd_timelines (fst (analyze_beacons callback order st now)) = nd_timelines st.
Proof. unfold analyze_beacons. destruct (negb callback); [done|]. by destruct (analyze_loop _ _ _). Qed.

Lemma step_timelines calls st c : timelines_ok calls st -> timelines_ok (calls ++ [c]) (dpi_step st c).
Proof.
  intros H ip port. rewrite times_snoc. destruct c as [pkt now|callback order now]; cbn [dpi_step].
  - unfold inspect_packet. destruct (raise_alerts_frame pkt now (packet_rules pkt) (record_packet st pkt)) as [-> _].
    cbn [record_packet nd_timelines]. destruct (String.eqb_spec (pk_dst_ip pkt) ip) as [<-|Hip].
    1: destruct (Z.eqb_spec (pk_dst_port pkt) port) as [<-|Hport]; cbn [andb].
    + rewrite lookup_insert_eq. unfold timeline_at. rewrite H.
      destruct (times_to (pk_dst_ip pkt) (pk_dst_port pkt) calls) as [|t ts]; cbn [app default from_option id tl_timestamps].
      * do 2 f_equal.
      * rewrite last_n_push by lia. reflexivity.
    + rewrite lookup_insert_ne by (intros [_ E]%conn_key_inj; congruence). rewrite app_nil_r. apply H.
    + cbn [andb]. rewrite lookup_insert_ne by (intros [E _]%conn_key_inj; congruence). rewrite app_nil_r. apply H.
  - rewrite analyze_timelines, app_nil_r. apply H.
Qed.

Lemma run_timelines calls : timelines_ok calls (dpi_run calls).
Proof.
  induction calls as [|c calls IH] using rev_ind; [intros ip port; apply lookup_empty|].
  unfold dpi_run. rewrite foldl_app. by apply step_timelines.
Qed.

(** ** Alerts *)

Definition holds (r : dpi_rule) : bool := let '(h, _, _, _, _) := r in h.

(** What a rule that holds reports, and the alert it leaves in the log. *)
Definition rule_report (pkt : PacketMeta) (now : Z) (r : dpi_rule) : output :=
  let '(_, verdict, level, rule, desc) := r in
  if level_value HIGH <=? level_value level then Threat (dpi_threat level rule desc pkt now)
  else Observed (dpi_observation verdict level rule desc now).

Definition rule_is_threat (r : dpi_rule) : bool := let '(_, _, level, _, _) := r in level_value HIGH <=? level_value level.

Definition alert_matches (pkt : PacketMeta) (now : Z) (r : dpi_rule) (a : DpiAlert) : Prop :=
  let '(_, verdict, level, rule, desc) := r in
  da_verdict a = verdict /\ da_level a = level /\ da_rule_name a = rule /\ da_description a = desc /\
  da_src_ip a = pk_src_ip pkt /\ da_dst_ip a = pk_dst_ip pkt /\ da_dst_port a = pk_dst_port pkt /\ da_timestamp a = now.

Lemma add_alert_spec pkt now st r verdict level rule desc : r = (true, verdict, level, rule, desc) ->
  exists a, alert_matches pkt now r a /\ snd (add_alert pkt now st verdict level rule desc) = [rule_report pkt now r] /\
    nd_alerts (fst (add_alert pkt now st verdict level rule desc)) = push_bounded MAX_ALERTS (nd_alerts st) a /\
    nd_threats_detected (fst (add_alert pkt now st verdict level rule desc)) =
      (if rule_is_threat r then u64 (nd_threats_detected st + 1) else nd_threats_detected st).
Proof.
  intros ->. eexists. split; [|split; [|split]]; cycle 1.
  - unfold add_alert, rule_report. by destruct (level_value HIGH <=? level_value level).
  - unfold add_alert. destruct (level_value HIGH <=? level_value level); reflexivity.
  - unfold add_alert, rule_is_threat. by destruct (level_value HIGH <=? level_value level).
  - by split_and!.
Qed.

Lemma raise_alerts_spec pkt now rules : forall st, exists alerts,
  Forall2 (alert_matches pkt now) (filter (fun r => holds r = true) rules) alerts /\
  snd (raise_alerts pkt now st rules) = rule_report pkt now <$> filter (fun r => holds r = true) rules /\
  nd_alerts (fst (raise_alerts pkt now st rules)) = foldl (push_bounded MAX_ALERTS) (nd_alerts st) alerts /\
  (nd_threats_detected (fst (raise_alerts pkt now st rules)) mod 2 ^ 64 =
    (nd_threats_detected st + Z.of_nat (length (filter (fun r => holds r = true /\ rule_is_threat r = true) rules))) mod 2 ^ 64).
Proof.
  induction rules as [|r rules IH]; intros st.
  - exists []. cbn [raise_alerts snd fst]. rewrite !filter_nil. split_and!; try done. cbn [length]. by rewrite Z.add_0_r.
  - destruct r as [[[[h verdict] level] rule] desc] eqn:Er. cbn [raise_alerts]. destruct h.
    + rewrite <- Er in *. destruct (add_alert_spec pkt now st r verdict level rule desc Er) as (a & Ha & Ho & Hl & Hc).
      destruct (add_alert pkt now st verdict level rule desc) as [st1 out]. cbn [fst snd] in *.
      destruct (IH st1) as (alerts & H1 & H2 & H3 & H4). destruct (raise_alerts pkt now st1 rules) as [st2 outs]. cbn [fst snd] in *.
      exists (a :: alerts). rewrite (filter_cons_True (fun r => holds r = true)) by (by rewrite Er). split_and!.
      * by constructor.
      * by rewrite Ho, H2.
      * by rewrite H3, Hl.
      * rewrite H4, Hc. destruct (rule_is_threat r) eqn:Et.
        -- rewrite filter_cons_True by (split; [by rewrite Er|exact Et]). cbn [length]. unfold u64.
           rewrite Zplus_mod_idemp_l. f_equal. lia.
        -- rewrite filter_cons_False; [done|]. intros [_ E]. congruence.
    + rewrite (filter_cons_False (fun r => holds r = true)) by (cbn; discriminate).
      rewrite filter_cons_False by (intros [E _]; discriminate E). apply IH.
Qed.

(** ** Analysis *)

Definition beacon_score_of (tl : ConnectionTimeline) : option double := snd <$> beacon_scores tl.
Definition is_beacon (tl : ConnectionTimeline) : bool :=
  match beacon_score_of tl with Some score => dle BEACON_SCORE_THRESHOLD score | None => false end.
Definition is_scored (tl : ConnectionTimeline) : bool := match beacon_score_of tl with Some _ => true | None => false end.

Definition beacon_report (now : Z) (tl : ConnectionTimeline) : output :=
  match beacon_scores tl with
  | Some (mean, _, score) => Threat (beacon_threat tl mean score now)
  | None => Threat (beacon_threat tl (dz 0) (dz 0) now)
  end.

Lemma analyze_beacon_spec now reported key tl :
  snd (analyze_beacon now reported (key, tl)) =
    (if is_beacon tl && negb (bool_decide (key ∈ reported)) then [beacon_report now tl] else []) /\
  forall k, k ∈ fst (analyze_beacon now reported (key, tl)) <->
    (if bool_decide (k = key) && is_scored tl then is_beacon tl = true else k ∈ reported).
Proof.
  unfold analyze_beacon, is_beacon, is_scored, beacon_score_of, beacon_report.
  destruct (beacon_scores tl) as [[[mean stddev] score]|]; cbn [fmap option_fmap option_map snd].
  - destruct (dle BEACON_SCORE_THRESHOLD score); cbn [andb].
    + case_bool_decide as Hin; cbn [negb fst snd]; (split; [done|]); intros k; case_bool_decide as Hk; cbn [andb];
        rewrite ?elem_of_union, ?elem_of_difference, ?elem_of_singleton; subst; intuition congruence.
    + cbn [fst snd]. split; [done|]. intros k. case_bool_decide as Hk; cbn [andb];
        rewrite ?elem_of_union, ?elem_of_difference, ?elem_of_singleton; subst; intuition congruence.
  - cbn [fst snd]. split; [done|]. intros k. by rewrite andb_false_r.
Qed.

Lemma analyze_loop_spec now timelines : NoDup (fst <$> timelines) -> forall reported,
  snd (analyze_loop now reported timelines) =
    (beacon_report now ∘ snd) <$> filter (fun x => is_beacon (snd x) = true /\ fst x ∉ reported) timelines /\
  forall k, k ∈ fst (analyze_loop now reported timelines) <->
    match list_find (fun x => fst x = k) timelines with
    | Some (_, (_, tl)) => if is_scored tl then is_beacon tl = true else k ∈ reported
    | None => k ∈ reported
    end.
Proof.
  induction timelines as [|[key tl] timelines IH]; intros Hnd reported; cbn [analyze_loop].
  - by rewrite filter_nil.
  - cbn [fmap list_fmap fst] in Hnd. apply NoDup_cons in Hnd as [Hkey Hnd].
    destruct (analyze_beacon_spec now reported key tl) as [Ho Hr]. destruct (analyze_beacon now reported (key, tl)) as [reported1 out].
    cbn [fst snd] in *. destruct (IH Hnd reported1) as [Hos Hrs]. destruct (analyze_loop now reported1 timelines) as [reported2 outs].
    cbn [fst snd] in *. split.
    + assert (Hf : filter (fun x => is_beacon (snd x) = true /\ fst x ∉ reported1) timelines =
                   filter (fun x => is_beacon (snd x) = true /\ fst x ∉ reported) timelines).
      { clear -Hkey Hr. induction timelines as [|[k t] l IHl]; [by rewrite !filter_nil|].
        cbn [fmap list_fmap fst] in Hkey. apply not_elem_of_cons in Hkey as [Hne Hkey].
        rewrite !filter_cons. cbn [fst snd]. rewrite (IHl Hkey). specialize (Hr k). rewrite bool_decide_eq_false_2 in Hr by congruence.
        cbn [andb] in Hr. do 2 case_decide; try done; exfalso; tauto. }
      rewrite Hos, Ho, Hf. destruct (is_beacon tl) eqn:Eb; cbn [andb]; [case_bool_decide as Hd|]; cbn [negb].
      * rewrite filter_cons_False; [done|]. intros [_ H]. by apply H.
      * rewrite filter_cons_True by done. done.
      * rewrite filter_cons_False; [done|]. intros [H _]. cbn in H. congruence.
    + intros k. rewrite Hrs. cbn [list_find fst]. destruct (decide (key = k)) as [->|Hne].
      * rewrite (proj2 (list_find_None _ _)); [|rewrite Forall_forall; intros x Hx E; apply Hkey; rewrite <- E; by apply list_elem_of_fmap_2].
        rewrite Hr, bool_decide_eq_true_2 by done. done.
      * specialize (Hr k). rewrite bool_decide_eq_false_2 in Hr by congruence. cbn [andb] in Hr.
        destruct (list_find (fun x => fst x = k) timelines) as [[i [k' t]]|]; cbn; [|done]. destruct (is_scored t); done.
Qed.

(** ** Properties *)

(** in any mix of packets and analyses, the timeline of an address and port holds the
    times of the last 200 packets that went there and no other: the text key never confuses
    two addresses.  An address no packet went to has no timeline. *)
Theorem timelines_are_exact (calls : list dpi_call) (ip : string) (port : Z) :
  nd_timelines (dpi_run calls) !! conn_key ip port =
    match times_to ip port calls with
    | [] => None
    | times => Some (Conn (last_n 200 times) ip port)
    end.
Proof. apply run_timelines. Qed.

(** the alerts of a packet are those of the rules that hold, in their order: each leaves
    one entry in the log of the last 2000 alerts, and is reported as a threat when its level
    is at least HIGH and else observed.  Among the rules only the one for URIs is a threat, so
    a packet is a threat exactly when its URI is suspicious. *)
Theorem packet_alerts (st : NetworkDpi) (pkt : PacketMeta) (now : Z) :
  let '(st', out) := inspect_packet st pkt now in
  let raised := filter (fun r => holds r = true) (packet_rules pkt) in
  out = rule_report pkt now <$> raised /\
  (exists alerts, Forall2 (alert_matches pkt now) raised alerts /\
    nd_alerts st' = foldl (push_bounded MAX_ALERTS) (nd_alerts st) alerts) /\
  ((exists ev, In (Threat ev) out) <-> is_suspicious_uri (pk_uri pkt) = true) /\
  nd_threats_detected st' mod 2 ^ 64 =
    (nd_threats_detected st + (if is_suspicious_uri (pk_uri pkt) then 1 else 0)) mod 2 ^ 64.
Proof.
  destruct (raise_alerts_spec pkt now (packet_rules pkt) (record_packet st pkt)) as (alerts & H1 & H2 & H3 & H4).
  unfold inspect_packet. destruct (raise_alerts _ _ _ _) as [st' out]. cbn [fst snd] in *.
  assert (Huri : forall r, In r (packet_rules pkt) -> rule_is_threat r = true -> holds r = is_suspicious_uri (pk_uri pkt)).
  { intros r Hr Ht. unfold packet_rules, check_protocol_anomalies, check_tls_anomalies, check_payload_and_port in Hr. cbn [app In] in Hr.
    repeat (destruct Hr as [<- | Hr]; [first [discriminate Ht|unfold holds, is_suspicious_uri; destruct (empty_string (pk_uri pkt)); reflexivity]|]).
    destruct Hr. }
  assert (Hn : length (filter (fun r => holds r = true /\ rule_is_threat r = true) (packet_rules pkt)) =
    if is_suspicious_uri (pk_uri pkt) then 1%nat else 0%nat).
  { replace (is_suspicious_uri (pk_uri pkt)) with (negb (empty_string (pk_uri pkt)) && is_suspicious_uri (pk_uri pkt))
      by (unfold is_suspicious_uri; by destruct (empty_string (pk_uri pkt))).
    unfold packet_rules, check_protocol_anomalies, check_tls_anomalies, check_payload_and_port. cbn [app].
    rewrite filter_cons_False by (intros [_ H]; discriminate H). rewrite filter_cons. case_decide as Hd.
    - destruct Hd as [Hd _]. cbn [holds] in Hd. rewrite Hd. cbn [length]. f_equal.
      do 6 rewrite filter_cons_False by (intros [_ H]; discriminate H). done.
    - do 6 rewrite filter_cons_False by (intros [_ H]; discriminate H).
      destruct (_ && is_suspicious_uri _) eqn:E; [|done]. exfalso. apply Hd. by split. }
  split; [exact H2|]. split; [by exists alerts|]. split.
  - rewrite H2. split.
    + intros [ev (r & Hr & Hin)%list_elem_of_In%list_elem_of_fmap]. apply list_elem_of_filter in Hin as [Hh Hin%list_elem_of_In].
      rewrite <- Hh. symmetry. apply Huri; [done|]. destruct r as [[[[h v] l] ru] d]. unfold rule_report, rule_is_threat in *.
      by destruct (level_value HIGH <=? level_value l).
    + intros Hs. rewrite Hs in Hn.
      destruct (filter (fun r => holds r = true /\ rule_is_threat r = true) (packet_rules pkt)) as [|r l] eqn:E; [discriminate|].
      assert (Hr : r ∈ filter (fun r => holds r = true /\ rule_is_threat r = true) (packet_rules pkt)) by (rewrite E; left).
      apply list_elem_of_filter in Hr as [[Hh Ht] Hr]. destruct r as [[[[h v] l'] ru] d].
      exists (dpi_threat l' ru d pkt now). apply list_elem_of_In, list_elem_of_fmap. eexists. split; [|by apply list_elem_of_filter].
      unfold rule_report, rule_is_threat in *. by rewrite Ht.
  - rewrite H4, Hn. cbn [record_packet nd_threats_detected]. by destruct (is_suspicious_uri _).
Qed.

(** an analysis raises one threat for each timeline whose score reaches the threshold and
    that is not already reported, keeps exactly the reported timelines that still do, and a
    second analysis with no packet in between raises nothing, whatever the order the hash map
    is walked in. *)
Theorem beacons_reported_once (order : gmap string ConnectionTimeline -> list (string * ConnectionTimeline)) (st : NetworkDpi) (now : Z) :
  (forall m, order m ≡ₚ map_to_list m) ->
  let '(st', out) := analyze_beacons true order st now in
  out ≡ₚ (beacon_report now ∘ snd) <$> filter (fun x => is_beacon (snd x) = true /\ fst x ∉ nd_reported st) (map_to_list (nd_timelines st)) /\
  (forall key, key ∈ nd_reported st' <->
    match nd_timelines st !! key with
    | Some tl => if is_scored tl then is_beacon tl = true else key ∈ nd_reported st
    | None => key ∈ nd_reported st
    end) /\
  (forall later, snd (analyze_beacons true order st' later) = []) /\
  snd (analyze_beacons false order st now) = [].
Proof.
  intros Horder. unfold analyze_beacons at 1. cbn [negb].
  assert (Hnd : NoDup (fst <$> order (nd_timelines st))) by (rewrite Horder; apply NoDup_fst_map_to_list).
  destruct (analyze_loop_spec now (order (nd_timelines st)) Hnd (nd_reported st)) as [Ho Hr].
  destruct (analyze_loop now (nd_reported st) (order (nd_timelines st))) as [reported out] eqn:El. cbn [fst snd nd_reported] in *.
  assert (Hkey : forall key, key ∈ reported <->
    match nd_timelines st !! key with
    | Some tl => if is_scored tl then is_beacon tl = true else key ∈ nd_reported st
    | None => key ∈ nd_reported st
    end).
  { intros key. rewrite Hr. destruct (list_find (fun x => fst x = key) (order (nd_timelines st))) as [[i [k tl]]|] eqn:Ef.
    - apply list_find_Some in Ef as (Hi & Hk & _). cbn [fst] in Hk. subst k. apply list_elem_of_lookup_2 in Hi.
      rewrite Horder in Hi. apply elem_of_map_to_list in Hi. by rewrite Hi.
    - destruct (nd_timelines st !! key) as [tl|] eqn:E; [|done]. exfalso. apply elem_of_map_to_list in E. rewrite <- Horder in E.
      apply list_find_None in Ef. rewrite Forall_forall in Ef. by apply (Ef _ E). }
  split; [|split; [exact Hkey|split; [|reflexivity]]].
  - rewrite Ho. by rewrite Horder.
  - intros later. unfold analyze_beacons. cbn [negb nd_reported nd_timelines].
    destruct (analyze_loop_spec later (order (nd_timelines st)) Hnd reported) as [Ho' _].
    destruct (analyze_loop later reported (order (nd_timelines st))) as [reported' out']. cbn [snd] in *. rewrite Ho'.
    clear Ho El. destruct (filter _ (order (nd_timelines st))) as [|[key tl] l] eqn:E; [reflexivity|]. exfalso.
    assert (Hx : (key, tl) ∈ filter (fun x => is_beacon (snd x) = true /\ fst x ∉ reported) (order (nd_timelines st))) by (rewrite E; left).
    apply list_elem_of_filter in Hx as [[Hb Hn] Hx]. cbn [fst snd] in Hb, Hn. apply Hn, Hkey.
    rewrite Horder in Hx. apply elem_of_map_to_list in Hx. rewrite Hx. destruct (is_scored tl) eqn:Es; [exact Hb|].
    exfalso. unfold is_beacon in Hb. unfold is_scored in Es. by destruct (beacon_score_of tl).
Qed.

Definition packet_to (ip : string) (port t : Z) : PacketMeta :=
  Packet 0 t PROTO_HTTPS "10.0.0.2" 50000 ip port 100 (dz 1) EmptyString EmptyString EmptyString EmptyString false false 0 EmptyString EmptyString.

(** Five connections a minute apart are a beacon. *)
Lemma beacons_reported_once_witness :
  let st := dpi_run ((fun k => DpiPacket (packet_to "1.2.3.4" 443 (k * 60 * 10 ^ 9)) 0) <$> [1; 2; 3; 4; 5]) in
  let '(st', out) := analyze_beacons true map_to_list st 7 in
  length out = 1%nat /\ (forall later, snd (analyze_beacons true map_to_list st' later) = []).
Proof.
  pose proof (beacons_reported_once map_to_list
    (dpi_run ((fun k => DpiPacket (packet_to "1.2.3.4" 443 (k * 60 * 10 ^ 9)) 0) <$> [1; 2; 3; 4; 5])) 7 (fun m => reflexivity _)) as H.
  cbv zeta. destruct (analyze_beacons true map_to_list _ 7) as [st' out] eqn:E. destruct H as (_ & _ & H & _).
  split; [|exact H]. apply (f_equal (fun x => length (snd x))) in E. cbn [snd] in E. rewrite <- E. vm_compute. reflexivity.
Defined.

(** A query for no beacons returns one, and a query for [n] the first [n] of the hash map,
    not the [n] of the highest score. *)
Example beacons_are_cut_before_sorting :
  let tl := Conn ((fun k => k * 60 * 10 ^ 9) <$> [1; 2; 3; 4; 5]) "1.2.3.4" 443 in
  let best := Conn ((fun k => Z.of_nat k * 60 * 10 ^ 9) <$> seq 0 20) "1.2.3.5" 443 in
  bp_dst_ip <$> beacons_loop 0 [("a"%string, tl); ("b"%string, best)] [] = ["1.2.3.4"%string] /\
  bp_dst_ip <$> beacons_loop 1 [("a"%string, tl); ("b"%string, best)] [] = ["1.2.3.4"%string] /\
  match beacon_score_of tl, beacon_score_of best with Some s, Some s' => dlt s s' = true | _, _ => False end.
Proof. vm_compute. split_and!; reflexivity. Qed.
