(* ===== verification/Lolbins.v ===== *)
(** * Lolbins: command lines of system binaries

    Models src/src/engines/lolbins_engine.cpp and its header: the normalisation of command
    lines, the decoder of base64 payloads, the rules over the binaries and the inspection of
    shortcut files.  The counters are atomic and there is no other state; a call is one step
    that returns what it reports, and the callback is set. *)
From S2P Require Import Prelude Observation Text Threat.

#[local] Open Scope word_scope.

Record LolbinExecution := Exec {
  le_pid : Z;
  le_binary_name : string;
  le_command_line : string;
  le_normalized : string;
  le_decoded_payload : string;
  le_is_malicious : bool;
  le_technique : string;
  le_reason : string;
  le_severity : ThreatLevel;
}.

Record LolbinsEngine := Lol { lb_running : bool; lb_evaluations : Z; lb_threats : Z }.

(** A [LolbinExecution] as it is declared. *)
Definition no_execution : LolbinExecution :=
  Exec 0 EmptyString EmptyString EmptyString EmptyString false EmptyString EmptyString SAFE.

Definition to_lower_ascii : string -> string := string_map tolower.

Definition get_filename_only (path : string) : string :=
  match find_last (one_of [47; 92]) path with Some p => str_drop (S p) path | None => path end.

(** ** Normalisation *)

Definition caret : Ascii.ascii := char_of 94.
Definition quote : Ascii.ascii := char_of 34.
Definition blank : Ascii.ascii := char_of 32.

Definition first_alnum (s : string) : bool := match s with String.String c _ => is_alnum c | EmptyString => false end.

(** The first loop; [prev] is whether the character before is a letter or a digit. *)
Fixpoint strip_escapes (prev : bool) (raw : string) : string :=
  match raw with
  | EmptyString => EmptyString
  | String.String c raw =>
      if Ascii.eqb c caret then strip_escapes (is_alnum c) raw
      else if Ascii.eqb c quote && (prev && first_alnum raw) then strip_escapes (is_alnum c) raw
      else String.String c (strip_escapes (is_alnum c) raw)
  end.

Fixpoint collapse_space (last_space : bool) (s : string) : string :=
  match s with
  | EmptyString => EmptyString
  | String.String c s =>
      if is_space c then if last_space then collapse_space true s else String.String blank (collapse_space true s)
      else String.String c (collapse_space false s)
  end.

Definition normalize_command_line (raw : string) : string := collapse_space false (strip_escapes false raw).

(** ** Base64 *)

Definition b64_table : list Z :=
  replicate 43 (-1) ++ [62] ++ replicate 3 (-1) ++ [63] ++ seqZ 52 10 ++ replicate 3 (-1) ++ [0] ++ replicate 3 (-1) ++
  seqZ 0 26 ++ replicate 6 (-1) ++ seqZ 26 26 ++ replicate 133 (-1).

Definition b64_digit (c : byte) : Z := nth (Z.to_nat (bval c)) b64_table (-1).

(** The loop over the text: the accumulator and the number of pending bits less eight. *)
Fixpoint b64_loop (b64 : list byte) (val bits : Z) : list byte :=
  match b64 with
  | [] => []
  | c :: b64 =>
      if bval c =? 61 then []
      else
        let d := b64_digit c in
        if d =? -1 then b64_loop b64 val bits
        else
          let val := u32 (val <<< 6) .| d in
          let bits := bits + 6 in
          if 0 <=? bits then byte_of ((val >>> bits) .& 0xFF) :: b64_loop b64 val (bits - 8)
          else b64_loop b64 val bits
  end.

Definition is_utf16le (raw : list byte) : bool :=
  match raw with _ :: b1 :: _ :: b3 :: _ => (bval b1 =? 0) && (bval b3 =? 0) | _ => false end.

Fixpoint utf16_text (raw : list byte) : list byte :=
  match raw with
  | lo :: hi :: raw =>
      let w := bval lo .| (bval hi <<< 8) in
      if (32 <=? w) && (w <=? 126) then byte_of w :: utf16_text raw
      else if (w =? 10) || (w =? 13) || (w =? 9) then byte_of w :: utf16_text raw
      else utf16_text raw
  | _ => []
  end.

Definition decode_base64 (b64 : string) : option string :=
  if empty_string b64 then None
  else
    match b64_loop (bytes_of_string b64) 0 (-8) with
    | [] => None
    | raw => Some (string_of_bytes (if is_utf16le raw then utf16_text raw else raw))
    end.

Definition enc_flags : list string :=
  ["-encodedcommand "; "/encodedcommand "; "-encoded "; "/encoded "; "-enc "; "/enc "; "-e "]%string.

(** The characters up to the next blank or quote. *)
Fixpoint token_of (s : string) : string :=
  match s with
  | EmptyString => EmptyString
  | String.String c s => if is_space c || Ascii.eqb c quote then EmptyString else String.String c (token_of s)
  end.

(** The loop over the flags; [lower] is the command line in lower case. *)
Fixpoint decode_after (flags : list string) (lower cmdline : string) : option string :=
  match flags with
  | [] => None
  | flag :: flags =>
      match find_pos flag lower with
      | None => decode_after flags lower cmdline
      | Some pos =>
          let token := token_of (skip_space (str_drop (pos + String.length flag) cmdline)) in
          if empty_string token then decode_after flags lower cmdline else decode_base64 token
      end
  end.

Definition extract_and_decode_encoded_command (cmdline : string) : option string :=
  decode_after enc_flags (to_lower_ascii cmdline) cmdline.

(** ** The rules *)

(** What a rule finds: technique, severity and reason. *)
Definition rule_hit : Type := string * ThreatLevel * string.

Definition any_of (needles : list string) (s : string) : bool := existsb (fun n => find_sub n s) needles.

Definition cradle_words : list string :=
  ["iex"; "invoke-expression"; "downloadstring"; "downloadfile"; "webclient"; "start-process"; "reflection.assembly"]%string.

(** The chain of tests over the name of the binary; the payload is the decoded one. *)
Definition lolbin_rules (bin_lower cmd_lower normalized : string) : option rule_hit * string :=
  if find_sub "certutil" bin_lower then
    (if any_of ["-urlcache"; "/urlcache"]%string cmd_lower then
       Some ("T1105", HIGH, "certutil.exe -urlcache file download abuse")%string
     else if any_of ["-decode"; "/decode"; "-decodehex"]%string cmd_lower then
       Some ("T1140", HIGH, "certutil.exe payload deobfuscation/decoding abuse")%string
     else None, EmptyString)
  else if find_sub "mshta" bin_lower then
    (if any_of ["javascript:"; "vbscript:"; "about:"; "http://"; "https://"]%string cmd_lower then
       Some ("T1218.005", CRITICAL, "mshta.exe inline or remote script execution")%string
     else None, EmptyString)
  else if find_sub "regsvr32" bin_lower then
    (if any_of ["/i:http:"; "/i:https:"; "scrobj.dll"]%string cmd_lower && any_of ["/s"; "-s"]%string cmd_lower then
       Some ("T1218.010", CRITICAL, "regsvr32.exe Squiblydoo remote scriptlet execution")%string
     else None, EmptyString)
  else if find_sub "rundll32" bin_lower then
    (if any_of ["javascript:"; "shell32.dll,control_rundll"; "\temp\"; "\appdata\"]%string cmd_lower then
       Some ("T1218.011", HIGH, "rundll32.exe suspicious DLL path or inline script execution")%string
     else None, EmptyString)
  else if find_sub "wmic" bin_lower then
    (if any_of ["process call create"; "/node:"]%string cmd_lower then
       Some ("T1047", HIGH, "wmic.exe process call create or remote node execution")%string
     else None, EmptyString)
  else if find_sub "bitsadmin" bin_lower then
    (if any_of ["/transfer"; "/create"]%string cmd_lower && any_of ["http://"; "https://"]%string cmd_lower then
       Some ("T1197", HIGH, "bitsadmin.exe remote file transfer abuse")%string
     else None, EmptyString)
  else if any_of ["powershell"; "pwsh"]%string bin_lower then
    match extract_and_decode_encoded_command normalized with
    | Some decoded =>
        (if any_of cradle_words (to_lower_ascii decoded) then
           Some ("T1059.001", CRITICAL, "PowerShell encoded download cradle / reflective loader execution")%string
         else None, decoded)
    | None =>
        (if any_of ["downloadstring"; "downloadfile"; "invoke-webrequest"]%string cmd_lower &&
            any_of ["iex"; "invoke-expression"]%string cmd_lower then
           Some ("T1059.001", CRITICAL, "PowerShell direct WebClient download cradle")%string
         else None, EmptyString)
    end
  else (None, EmptyString).

(** The record [evaluate_command_line] fills. *)
Definition evaluation (pid : Z) (binary_name cmdline : string) : LolbinExecution :=
  let bin := get_filename_only binary_name in
  let normalized := normalize_command_line cmdline in
  let '(hit, payload) := lolbin_rules (to_lower_ascii bin) (to_lower_ascii normalized) normalized in
  match hit with
  | Some (technique, severity, reason) => Exec pid bin cmdline normalized payload true technique reason severity
  | None => Exec pid bin cmdline normalized payload false EmptyString EmptyString SAFE
  end.

Definition lolbin_threat (exec : LolbinExecution) (id now : Z) : ThreatEvent :=
  Event id now (le_severity exec) SUSPICIOUS_BINARY (le_pid exec) (le_binary_name exec) EmptyString
    ("LOLBin Execution [" +:+ le_technique exec +:+ "]: " +:+ le_reason exec +:+ " (Cmd: " +:+ le_normalized exec +:+ ")")
    EmptyString 0 false false.

Definition evaluate_command_line (st : LolbinsEngine) (pid : Z) (binary_name cmdline : string) (now : Z) :
    LolbinsEngine * LolbinExecution * list output :=
  let exec := evaluation pid binary_name cmdline in
  let evaluations := u64 (lb_evaluations st + 1) in
  if le_is_malicious exec && lb_running st then
    let threats := u64 (lb_threats st + 1) in
    (Lol (lb_running st) evaluations threats, exec, [Threat (lolbin_threat exec threats now)])
  else (Lol (lb_running st) evaluations (lb_threats st), exec, []).

(** ** Shortcuts *)

(** The printable text of the file: other bytes are blanks, zeros are dropped. *)
Fixpoint lnk_text (buf : list byte) : string :=
  match buf with
  | [] => EmptyString
  | b :: buf =>
      if (32 <=? bval b) && (bval b <=? 126) then String.String (char_of_byte b) (lnk_text buf)
      else if bval b =? 0 then lnk_text buf
      else String.String blank (lnk_text buf)
  end.

Definition suspicious_bins : list (string * string) :=
  [("powershell", "powershell.exe"); ("cmd.exe", "cmd.exe"); ("mshta", "mshta.exe"); ("certutil", "certutil.exe");
   ("cscript", "cscript.exe"); ("wscript", "wscript.exe")]%string.

(** The loop over the binaries; [out_exec] is the argument the call fills. *)
Fixpoint lnk_loop (st : LolbinsEngine) (bins : list (string * string)) (lower text : string) (out_exec : LolbinExecution) (now : Z) :
    LolbinsEngine * bool * LolbinExecution * list output :=
  match bins with
  | [] => (st, false, out_exec, [])
  | (needle, bin_name) :: bins =>
      match find_pos needle lower with
      | None => lnk_loop st bins lower text out_exec now
      | Some pos =>
          let '(st, exec, out) := evaluate_command_line st 0 bin_name (String.substring pos 512 text) now in
          if le_is_malicious exec then
            (st, true,
             Exec (le_pid exec) (le_binary_name exec) (le_command_line exec) (le_normalized exec) (le_decoded_payload exec) true
               (le_technique exec) ("Weaponized LNK shortcut: " +:+ le_reason exec) (le_severity exec), out)
          else
            let '(st, found, exec, outs) := lnk_loop st bins lower text exec now in (st, found, exec, out ++ outs)
      end
  end.

(** [None] is a file that cannot be opened. *)
Definition inspect_lnk_file (st : LolbinsEngine) (file : option (list byte)) (out_exec : LolbinExecution) (now : Z) :
    LolbinsEngine * bool * LolbinExecution * list output :=
  match file with
  | None => (st, false, out_exec, [])
  | Some buf =>
      let fsize := Z.of_nat (length buf) in
      if (fsize <? 76) || (10 * 1024 * 1024 <? fsize) then (st, false, out_exec, [])
      else
        let text := lnk_text buf in
        lnk_loop st suspicious_bins (to_lower_ascii text) text out_exec now
  end.

(** ** The encoder of RFC 4648 *)

Definition b64_alphabet (d : Z) : byte :=
  byte_of (if d <? 26 then 65 + d else if d <? 52 then 71 + d else if d <? 62 then d - 4 else if d =? 62 then 43 else 47).

Definition b64_pad : byte := byte_of 61.

Fixpoint rfc4648 (bs : list byte) : list byte :=
  match bs with
  | [] => []
  | [a] => [b64_alphabet (bval a / 4); b64_alphabet (bval a mod 4 * 16); b64_pad; b64_pad]
  | [a; b] =>
      [b64_alphabet (bval a / 4); b64_alphabet (bval a mod 4 * 16 + bval b / 16); b64_alphabet (bval b mod 16 * 4); b64_pad]
  | a :: b :: c :: bs =>
      b64_alphabet (bval a / 4) :: b64_alphabet (bval a mod 4 * 16 + bval b / 16) ::
      b64_alphabet (bval b mod 16 * 4 + bval c / 64) :: b64_alphabet (bval c mod 64) :: rfc4648 bs
  end.

Lemma b64_digits : forallb (fun d => (b64_digit (b64_alphabet d) =? d) && negb (bval (b64_alphabet d) =? 61)) (seqZ 0 64) = true.
Proof. vm_compute. reflexivity. Qed.

Lemma b64_digit_alphabet d : 0 <= d < 64 -> b64_digit (b64_alphabet d) = d /\ bval (b64_alphabet d) <> 61.
Proof.
  intros Hd. pose proof (proj1 (forallb_forall _ _) b64_digits d) as H. cbv beta in H.
  assert (Hin : In d (seqZ 0 64)) by (apply list_elem_of_In, elem_of_seqZ; lia).
  specialize (H Hin). apply andb_true_iff in H as [H1%Z.eqb_eq H2%negb_true_iff%Z.eqb_neq]. done.
Qed.

(** The accumulator shifted by one digit. *)
Definition push_digit (val d : Z) : Z := u32 (64 * val + d).

Lemma push_digit_spec val d : 0 <= d < 64 -> u32 (val <<< 6) .| d = push_digit val d.
Proof.
  intros Hd. unfold u32, push_digit, u32. rewrite Z.shiftl_mul_pow2 by lia. rewrite Z.lor_comm.
  replace (val * 2 ^ 6 mod 2 ^ 32) with (Z.shiftl (val mod 2 ^ 26) 6).
  - rewrite lor_shiftl_add by lia. change (2 ^ 6) with 64. change (2 ^ 26) with 67108864. change (2 ^ 32) with 4294967296.
    Z.to_euclidean_division_equations. lia.
  - rewrite Z.shiftl_mul_pow2 by lia. change (2 ^ 32) with (2 ^ 26 * 2 ^ 6). by rewrite Z.mul_mod_distr_r by lia.
Qed.

Lemma b64_loop_digit d rest val bits : 0 <= d < 64 ->
  b64_loop (b64_alphabet d :: rest) val bits =
    if 0 <=? bits + 6 then byte_of (push_digit val d / 2 ^ (bits + 6)) :: b64_loop rest (push_digit val d) (bits + 6 - 8)
    else b64_loop rest (push_digit val d) (bits + 6).
Proof.
  intros Hd. destruct (b64_digit_alphabet d Hd) as [H1 H2]. cbn [b64_loop]. rewrite (proj2 (Z.eqb_neq _ _) H2), H1.
  rewrite (proj2 (Z.eqb_neq d (-1))) by lia. rewrite push_digit_spec by done. destruct (Z.leb_spec 0 (bits + 6)); [|done]. f_equal.
  change 255 with (2 ^ 8 - 1). rewrite land_ones_mod, Z.shiftr_div_pow2 by lia.
  rewrite <- (byte_of_bval (byte_of (push_digit val d / 2 ^ (bits + 6)))), bval_byte_of. done.
Qed.

Lemma byte_of_mod z b : z mod 256 = bval b -> byte_of z = b.
Proof. intros H. rewrite <- (byte_of_bval (byte_of z)), bval_byte_of, H. apply byte_of_bval. Qed.

Lemma first_byte a val lo : 0 <= lo < 16 ->
  byte_of (push_digit (push_digit val (bval a / 4)) (bval a mod 4 * 16 + lo) / 2 ^ 4) = a.
Proof.
  intros Hlo. apply byte_of_mod. pose proof (bval_range a). unfold push_digit, u32. change (2 ^ 32) with 4294967296. change (2 ^ 4) with 16.
  Z.to_euclidean_division_equations. lia.
Qed.

Lemma second_byte b val hi lo : 0 <= hi < 4 -> 0 <= lo < 4 ->
  byte_of (push_digit (push_digit val (hi * 16 + bval b / 16)) (bval b mod 16 * 4 + lo) / 2 ^ 2) = b.
Proof.
  intros Hhi Hlo. apply byte_of_mod. pose proof (bval_range b). unfold push_digit, u32. change (2 ^ 32) with 4294967296. change (2 ^ 2) with 4.
  Z.to_euclidean_division_equations. lia.
Qed.

Lemma third_byte c val hi : 0 <= hi < 16 ->
  byte_of (push_digit (push_digit val (hi * 4 + bval c / 64)) (bval c mod 64) / 2 ^ 0) = c.
Proof.
  intros Hhi. apply byte_of_mod. pose proof (bval_range c). unfold push_digit, u32. change (2 ^ 32) with 4294967296. change (2 ^ 0) with 1.
  Z.to_euclidean_division_equations. lia.
Qed.

Lemma b64_loop_pad rest val bits : b64_loop (b64_pad :: rest) val bits = [].
Proof. reflexivity. Qed.

Lemma b64_loop_rfc bs : forall val, b64_loop (rfc4648 bs) val (-8) = bs.
Proof.
  induction bs as [bs IH] using (induction_ltof1 _ (@length byte)). unfold ltof in IH. intros val.
  destruct bs as [|a [|b [|c bs]]]; cbn [rfc4648]; [reflexivity| | |].
  - pose proof (bval_range a). rewrite b64_loop_digit by (Z.to_euclidean_division_equations; lia). cbn [Z.add Z.leb Z.compare Z.pos_sub Pos.pred_double].
    change (-8 + 6) with (-2). change (0 <=? -2) with false. cbv iota. rewrite b64_loop_digit by (Z.to_euclidean_division_equations; lia).
    change (-2 + 6) with 4. change (0 <=? 4) with true. cbv iota. rewrite b64_loop_pad.
    rewrite <- (Z.add_0_r (bval a mod 4 * 16)), first_byte by lia. done.
  - pose proof (bval_range a). pose proof (bval_range b).
    rewrite b64_loop_digit by (Z.to_euclidean_division_equations; lia). change (-8 + 6) with (-2). change (0 <=? -2) with false. cbv iota.
    rewrite b64_loop_digit by (Z.to_euclidean_division_equations; lia). change (-2 + 6) with 4. change (0 <=? 4) with true. cbv iota.
    rewrite first_byte by (Z.to_euclidean_division_equations; lia). change (4 - 8) with (-4).
    rewrite b64_loop_digit by (Z.to_euclidean_division_equations; lia). change (-4 + 6) with 2. change (0 <=? 2) with true. cbv iota.
    rewrite <- (Z.add_0_r (bval b mod 16 * 4)), second_byte by (Z.to_euclidean_division_equations; lia). by rewrite b64_loop_pad.
  - pose proof (bval_range a). pose proof (bval_range b). pose proof (bval_range c).
    rewrite b64_loop_digit by (Z.to_euclidean_division_equations; lia). change (-8 + 6) with (-2). change (0 <=? -2) with false. cbv iota.
    rewrite b64_loop_digit by (Z.to_euclidean_division_equations; lia). change (-2 + 6) with 4. change (0 <=? 4) with true. cbv iota.
    rewrite first_byte by (Z.to_euclidean_division_equations; lia). change (4 - 8) with (-4).
    rewrite b64_loop_digit by (Z.to_euclidean_division_equations; lia). change (-4 + 6) with 2. change (0 <=? 2) with true. cbv iota.
    rewrite second_byte by (Z.to_euclidean_division_equations; lia). change (2 - 8) with (-6).
    rewrite b64_loop_digit by (Z.to_euclidean_division_equations; lia). change (-6 + 6) with 0. change (0 <=? 0) with true. cbv iota.
    rewrite third_byte by (Z.to_euclidean_division_equations; lia). change (0 - 8) with (-8). rewrite IH by (cbn; lia). done.
Qed.

Definition in_alphabet (c : byte) : bool := negb (b64_digit c =? -1).

Lemma b64_loop_filter l : forall val bits, b64_loop l val bits = b64_loop (filter (fun c => in_alphabet c = true) l) val bits.
Proof.
  induction l as [|c l IH]; intros val bits; [by rewrite filter_nil|]. destruct (in_alphabet c) eqn:E.
  - rewrite filter_cons_True by exact E. cbn [b64_loop]. unfold in_alphabet in E. apply negb_true_iff in E. rewrite E.
    destruct (bval c =? 61); [done|]. destruct (0 <=? bits + 6); [f_equal|]; apply IH.
  - rewrite filter_cons_False by congruence. cbn [b64_loop]. unfold in_alphabet in E. apply negb_false_iff in E. rewrite E.
    rewrite <- IH. destruct (Z.eqb_spec (bval c) 61) as [E'|_]; [|done].
    exfalso. unfold b64_digit in E. rewrite E' in E. vm_compute in E. discriminate.
Qed.

(** A character of printable text, which the UTF-16 branch keeps. *)
Definition keeps (c : byte) : bool := ((32 <=? bval c) && (bval c <=? 126)) || (bval c =? 10) || (bval c =? 13) || (bval c =? 9).

Definition utf16le (s : list byte) : list byte := mjoin ((fun c => [c; byte_of 0]) <$> s).

Lemma utf16_text_le s : Forall (fun c => keeps c = true) s -> utf16_text (utf16le s) = s.
Proof.
  induction 1 as [|c s Hc Hs IH]; [done|]. change (utf16le (c :: s)) with (c :: byte_of 0 :: utf16le s).
  cbn [utf16_text]. rewrite IH. change (bval (byte_of 0)) with 0. rewrite Z.shiftl_0_l, Z.lor_0_r, byte_of_bval.
  unfold keeps in Hc. destruct ((32 <=? bval c) && (bval c <=? 126)); [done|]. cbn [orb] in Hc. by rewrite Hc.
Qed.

Lemma bytes_of_string_nil s : bytes_of_string s <> [] -> empty_string s = false.
Proof. by destruct s. Qed.

(** C38: base64 as RFC 4648 writes it decodes to the bytes it came from, wherever blanks,
    line ends or other characters outside the alphabet stand between its characters; text in
    UTF-16LE, as PowerShell takes it, of at least two printable characters comes back as that
    text. *)
Theorem base64_roundtrip (text : string) (bs : list byte) :
  bs <> [] -> filter (fun c => in_alphabet c = true) (bytes_of_string text) = rfc4648 bs ->
  decode_base64 text = Some (string_of_bytes (if is_utf16le bs then utf16_text bs else bs)) /\
  (forall s, bs = utf16le s -> (2 <= length s)%nat -> Forall (fun c => keeps c = true) s -> decode_base64 text = Some (string_of_bytes s)).
Proof.
  intros Hne Ht. assert (H : decode_base64 text = Some (string_of_bytes (if is_utf16le bs then utf16_text bs else bs))).
  { unfold decode_base64. rewrite bytes_of_string_nil.
    - rewrite b64_loop_filter, Ht, b64_loop_rfc. by destruct bs.
    - intros E. rewrite E, filter_nil in Ht. by destruct bs as [|? [|? [|? ?]]]. }
  split; [exact H|]. intros s -> Hlen Hs. rewrite H.
  destruct s as [|a [|b s]]; [cbn in Hlen; lia..|]. rewrite utf16_text_le by exact Hs. reflexivity.
Qed.

(** The payload [iex x] in two lines. *)
Lemma base64_roundtrip_witness :
  let text := string_of_bytes (byte_of <$> [97; 81; 66; 108; 13; 10; 65; 72; 103; 65; 73; 65; 66; 52; 65; 65; 61; 61]) in
  decode_base64 text = Some "iex x"%string.
Proof.
  cbv zeta. refine (proj2 (base64_roundtrip _ (utf16le (bytes_of_string "iex x")) _ _) (bytes_of_string "iex x") eq_refl _ _).
  - discriminate.
  - vm_compute. reflexivity.
  - cbn. lia.
  - cbn [bytes_of_string]. repeat constructor.
Defined.

(** ** Escapes *)

Fixpoint drop_carets (s : string) : string :=
  match s with
  | EmptyString => EmptyString
  | String.String c s => if Ascii.eqb c caret then drop_carets s else String.String c (drop_carets s)
  end.

(** What a command line says to the rules when it has no quotes: no carets, one blank
    between words, lower case. *)
Definition canonical (cmdline : string) : string := to_lower_ascii (collapse_space false (drop_carets cmdline)).

Lemma strip_escapes_plain s : has_char quote s = false -> forall prev, strip_escapes prev s = drop_carets s.
Proof.
  induction s as [|c s IH]; intros H prev; [done|]. cbn [has_char] in H. apply orb_false_iff in H as [Hc Hs].
  cbn [strip_escapes drop_carets]. destruct (Ascii.eqb c caret); [by apply IH|].
  replace (Ascii.eqb c quote) with false; [cbn [andb]; by rewrite IH|].
  symmetry. apply Ascii.eqb_neq. intros ->. by rewrite bool_decide_eq_true_2 in Hc.
Qed.

Lemma normalized_canonical s : has_char quote s = false -> to_lower_ascii (normalize_command_line s) = canonical s.
Proof. intros H. unfold normalize_command_line, canonical. by rewrite strip_escapes_plain. Qed.

(** The command line itself only matters to the rule of PowerShell, which decodes it. *)
Lemma rules_without_payload bin cmd n n' : any_of ["powershell"; "pwsh"]%string bin = false ->
  lolbin_rules bin cmd n = lolbin_rules bin cmd n'.
Proof. intros H. unfold lolbin_rules. rewrite H. reflexivity. Qed.

(** The verdict of an evaluation. *)
Definition verdict (e : LolbinExecution) : option rule_hit :=
  if le_is_malicious e then Some (le_technique e, le_severity e, le_reason e) else None.

Lemma evaluation_verdict pid bin cmd : verdict (evaluation pid bin cmd) =
  fst (lolbin_rules (to_lower_ascii (get_filename_only bin)) (to_lower_ascii (normalize_command_line cmd)) (normalize_command_line cmd)).
Proof. unfold evaluation. by destruct (lolbin_rules _ _ _) as [[[[technique severity] reason]|] payload]. Qed.

Lemma rules_severity bin cmd n technique severity reason payload :
  lolbin_rules bin cmd n = (Some (technique, severity, reason), payload) -> severity = HIGH \/ severity = CRITICAL.
Proof.
  unfold lolbin_rules. intros H.
  repeat match type of H with
  | context[if ?c then _ else _] => destruct c
  | context[match extract_and_decode_encoded_command n with _ => _ end] => destruct (extract_and_decode_encoded_command n)
  end; injection H as <- <- <- <- || discriminate H; auto.
Qed.

(** two command lines of the same binary that say the same words, but for the case of
    letters, the carets of the shell and the amount and kind of white space, get the same
    verdict, technique, severity and reason, as long as they hold no quotes and the binary is
    not PowerShell, whose payload depends on case. *)
Theorem verdict_ignores_escapes (pid : Z) (binary a b : string) :
  any_of ["powershell"; "pwsh"]%string (to_lower_ascii (get_filename_only binary)) = false ->
  has_char quote a = false -> has_char quote b = false -> canonical a = canonical b ->
  verdict (evaluation pid binary a) = verdict (evaluation pid binary b).
Proof.
  intros Hbin Ha Hb E. rewrite !evaluation_verdict, !normalized_canonical by assumption. rewrite E. f_equal. by apply rules_without_payload.
Qed.

(** [certutil -urlcache] and an obfuscated form of it. *)
Lemma verdict_ignores_escapes_witness :
  verdict (evaluation 1 "C:\Windows\CertUtil.exe" "certutil  -U^RL^cache   x") =
  verdict (evaluation 1 "C:\Windows\CertUtil.exe" "certutil -urlcache x") /\
  verdict (evaluation 1 "C:\Windows\CertUtil.exe" "certutil -urlcache x") <> None.
Proof.
  split; [|vm_compute; discriminate].
  apply (verdict_ignores_escapes 1 "C:\Windows\CertUtil.exe" "certutil  -U^RL^cache   x" "certutil -urlcache x"); vm_compute; reflexivity.
Defined.

(** Two quotes in a row stand between the characters they separate, so neither is removed,
    although the shell drops them. *)
Example doubled_quotes_evade :
  let q := String.String quote (String.String quote EmptyString) in
  verdict (evaluation 1 "certutil.exe" ("certutil -url" +:+ q +:+ "cache http://x/y")) = None.
Proof. vm_compute. reflexivity. Qed.

(** ** Shortcuts *)

Definition lnk_hit (lower text : string) (x : string * string) : bool :=
  match find_pos (fst x) lower with
  | Some pos => le_is_malicious (evaluation 0 (snd x) (String.substring pos 512 text))
  | None => false
  end.

Lemma no_rule_for bin cmd : bin = "cmd.exe"%string \/ bin = "cscript.exe"%string \/ bin = "wscript.exe"%string ->
  le_is_malicious (evaluation 0 bin cmd) = false.
Proof. intros [-> | [-> | ->]]; reflexivity. Qed.

Lemma evaluate_exec st pid bin cmd now : snd (fst (evaluate_command_line st pid bin cmd now)) = evaluation pid bin cmd.
Proof. unfold evaluate_command_line. by destruct (_ && lb_running st). Qed.

Lemma evaluate_out st pid bin cmd now : snd (evaluate_command_line st pid bin cmd now) =
  if le_is_malicious (evaluation pid bin cmd) && lb_running st
  then [Threat (lolbin_threat (evaluation pid bin cmd) (u64 (lb_threats st + 1)) now)] else [].
Proof. unfold evaluate_command_line. by destruct (_ && lb_running st). Qed.

Lemma evaluate_state st pid bin cmd now : let st' := fst (fst (evaluate_command_line st pid bin cmd now)) in
  lb_running st' = lb_running st /\ (le_is_malicious (evaluation pid bin cmd) = false -> lb_threats st' = lb_threats st).
Proof. unfold evaluate_command_line. destruct (le_is_malicious _), (lb_running st) eqn:E; cbn; auto; discriminate || done. Qed.

Lemma lnk_loop_spec bins lower text now : forall st out_exec,
  let '(st', found, exec, outs) := lnk_loop st bins lower text out_exec now in
  found = existsb (lnk_hit lower text) bins /\
  (found = true -> exists x, In x bins /\ lnk_hit lower text x = true /\ le_is_malicious exec = true /\
     (le_severity exec = HIGH \/ le_severity exec = CRITICAL)) /\
  length outs = (if found && lb_running st then 1 else 0)%nat /\ lb_running st' = lb_running st.
Proof.
  induction bins as [|[needle bin] bins IH]; intros st out_exec; cbn [lnk_loop existsb]; [by split_and!|].
  unfold lnk_hit at 1 3. cbn [fst snd]. destruct (find_pos needle lower) as [pos|] eqn:Ef.
  2: { specialize (IH st out_exec). destruct (lnk_loop st bins lower text out_exec now) as [[[st' found] exec] outs].
       destruct IH as (H1 & H2 & H3 & H4). split_and!; auto. intros (x & Hx & H)%H2. exists x. split; [by right|exact H]. }
  pose proof (evaluate_exec st 0 bin (String.substring pos 512 text) now) as He.
  pose proof (evaluate_out st 0 bin (String.substring pos 512 text) now) as Ho.
  pose proof (evaluate_state st 0 bin (String.substring pos 512 text) now) as [Hr _].
  destruct (evaluate_command_line st 0 bin (String.substring pos 512 text) now) as [[st1 exec1] out1]. cbn [fst snd] in He, Ho, Hr. subst exec1.
  destruct (le_is_malicious (evaluation 0 bin (String.substring pos 512 text))) eqn:Em; cbn [orb andb] in *.
  - split_and!; [done| |by rewrite Ho; destruct (lb_running st)|exact Hr]. intros _. exists (needle, bin).
    split; [by left|]. unfold lnk_hit. cbn [fst snd]. rewrite Ef. split; [exact Em|]. split; [done|]. cbn [le_severity].
    unfold evaluation in *. destruct (lolbin_rules _ _ _) as [[[[technique severity] reason]|] payload] eqn:El; [|discriminate Em].
    cbn [le_severity]. by apply rules_severity in El.
  - specialize (IH st1 (evaluation 0 bin (String.substring pos 512 text))).
    destruct (lnk_loop st1 bins lower text _ now) as [[[st' found] exec] outs].
    destruct IH as (H1 & H2 & H3 & H4). subst out1. cbn [app]. rewrite Hr in H3, H4. split_and!; auto.
    intros (x & Hx & H)%H2. exists x. split; [by right|exact H].
Qed.

(** a shortcut file of 76 bytes to 10 MiB is found weaponised exactly when what follows
    the first mention of powershell, mshta or certutil in its printable text breaks a rule of
    that binary; the record returned is then malicious with severity HIGH or CRITICAL, and one
    threat is reported while the engine runs.  Mentions of cmd.exe, cscript and wscript are
    looked for but lead to no rule, and no other file is ever found. *)
Theorem lnk_found_spec (st : LolbinsEngine) (file : option (list byte)) (out_exec : LolbinExecution) (now : Z) :
  let '(_, found, exec, outs) := inspect_lnk_file st file out_exec now in
  found = match file with
          | None => false
          | Some buf =>
              let text := lnk_text buf in
              (76 <=? Z.of_nat (length buf)) && (Z.of_nat (length buf) <=? 10485760) &&
              existsb (lnk_hit (to_lower_ascii text) text)
                [("powershell", "powershell.exe"); ("mshta", "mshta.exe"); ("certutil", "certutil.exe")]%string
          end /\
  (found = true -> le_is_malicious exec = true /\ (le_severity exec = HIGH \/ le_severity exec = CRITICAL)) /\
  length outs = (if found && lb_running st then 1 else 0)%nat.
Proof.
  unfold inspect_lnk_file. destruct file as [buf|]; [|by split_and!].
  change (10 * 1024 * 1024) with 10485760. rewrite (Z.leb_antisym _ 76), (Z.leb_antisym 10485760).
  destruct (Z.of_nat (length buf) <? 76); cbn [orb negb andb]; [by split_and!|].
  destruct (10485760 <? Z.of_nat (length buf)); cbn [orb negb andb]; [by split_and!|].
  pose proof (lnk_loop_spec suspicious_bins (to_lower_ascii (lnk_text buf)) (lnk_text buf) now st out_exec) as H.
  destruct (lnk_loop st suspicious_bins _ _ out_exec now) as [[[st' found] exec] outs]. destruct H as (H1 & H2 & H3 & _).
  split_and!; [|intros Hf; destruct (H2 Hf) as (x & _ & _ & H); exact H|exact H3].
  assert (Hno : forall needle bin, bin = "cmd.exe"%string \/ bin = "cscript.exe"%string \/ bin = "wscript.exe"%string ->
    lnk_hit (to_lower_ascii (lnk_text buf)) (lnk_text buf) (needle, bin) = false).
  { intros needle bin Hb. unfold lnk_hit. cbn [fst snd]. destruct (find_pos _ _); [by apply no_rule_for|done]. }
  rewrite H1. unfold suspicious_bins. cbn [existsb]. rewrite (Hno "cmd.exe"%string), (Hno "cscript"%string), (Hno "wscript"%string) by auto.
  cbn [orb]. by rewrite !orb_false_r.
Qed.
