(* ===== verification/FilelessAst.v ===== *)
(** * FilelessAst: scripts in disguise

    Models src/src/engines/fileless_ast_engine.cpp and its header: the four passes that undo
    disguises of a PowerShell script, the rules over the result, and the judgement of COM
    servers of the user.  Where the code walks an index, the model walks the rest of the
    text; a pass runs on fuel, one unit for each character, which is enough because each
    turn consumes one.  What the registry holds is an argument; the callback is set. *)
From S2P Require Import Prelude Observation Text Threat Lolbins.

Record FilelessEvaluation := FEval {
  fe_original : string;
  fe_deobfuscated : string;
  fe_is_malicious : bool;
  fe_technique : string;
  fe_reason : string;
  fe_severity : ThreatLevel;
  fe_indicators : list string;
}.

Record ComHijackRecord := Hijack { ch_clsid : string; ch_path : string; ch_is_hijacked : bool; ch_reason : string }.

Record FilelessEngine := Fileless { fa_running : bool; fa_scripts : Z; fa_threats : Z }.

(** ** Passes *)

Definition backtick : Ascii.ascii := char_of 96.
Definition apostrophe : Ascii.ascii := char_of 39.
Definition plus : Ascii.ascii := char_of 43.

Fixpoint strip_backticks (s : string) : string :=
  match s with
  | EmptyString => EmptyString
  | String.String c s =>
      if Ascii.eqb c backtick && first_alnum s then strip_backticks s else String.String c (strip_backticks s)
  end.

(** The longest prefix a test holds of, and the rest. *)
Fixpoint span (f : Ascii.ascii -> bool) (s : string) : string * string :=
  match s with
  | EmptyString => (EmptyString, EmptyString)
  | String.String c s' => if f c then let '(a, b) := span f s' in (String.String c a, b) else (EmptyString, s)
  end.

Definition xdigit_value (c : Ascii.ascii) : option Z :=
  let v := char_value c in
  if (48 <=? v) && (v <=? 57) then Some (v - 48)
  else if (65 <=? v) && (v <=? 70) then Some (v - 55)
  else if (97 <=? v) && (v <=? 102) then Some (v - 87) else None.

Definition is_hex_digit (c : Ascii.ascii) : bool := match xdigit_value c with Some _ => true | None => false end.
Definition is_decimal_digit (c : Ascii.ascii) : bool := match digit_value c with Some _ => true | None => false end.

(** [std::stoi] of digits, where what overflows an [int] throws and is caught: the value is
    only used between 32 and 126. *)
Fixpoint number_of (base : Z) (s : string) (acc : Z) : Z :=
  match s with
  | EmptyString => acc
  | String.String c s => number_of base s (acc * base + default 0 (xdigit_value c))
  end.

(** The code after a cast and the rest behind it; [None] when there are no digits. *)
Definition cast_code (s : string) : option (Z * string) :=
  let '(_, s) := span (one_of [32; 40]) s in
  match s with
  | String.String z (String.String x ((String.String _ _) as digits)) =>
      if (char_value z =? 48) && ((char_value x =? 120) || (char_value x =? 88)) then
        let '(num, rest) := span is_hex_digit digits in Some (number_of 16 num 0, rest)
      else
        let '(num, rest) := span is_decimal_digit s in if empty_string num then None else Some (number_of 10 num 0, rest)
  | _ => let '(num, rest) := span is_decimal_digit s in if empty_string num then None else Some (number_of 10 num 0, rest)
  end.

Definition skip_paren (s : string) : string :=
  match s with String.String c rest => if char_value c =? 41 then rest else s | EmptyString => s end.

Fixpoint char_casts (fuel : nat) (s : string) : string :=
  match fuel, s with
  | S fuel, String.String c rest =>
      let plain := String.String c (char_casts fuel rest) in
      if Nat.ltb 6 (String.length s) && String.eqb (to_lower_ascii (String.substring 0 6 s)) "[char]" then
        match cast_code (str_drop 6 s) with
        | Some (val, after) =>
            if (32 <=? val) && (val <=? 126) then String.String (char_of val) (char_casts fuel (skip_paren after)) else plain
        | None => plain
        end
      else plain
  | _, _ => EmptyString
  end.

Definition deobfuscate_char_casts (s : string) : string := char_casts (String.length s) s.

Definition is_quote (c : Ascii.ascii) : bool := Ascii.eqb c apostrophe || Ascii.eqb c quote.

(** The quoted text at the front, and what follows the closing quote. *)
Definition quoted_front (s : string) : option (string * string) :=
  match s with
  | String.String q rest =>
      if is_quote q then
        match find_idx (Ascii.eqb q) rest with
        | Some n => Some (String.substring 0 n rest, str_drop (S n) rest)
        | None => None
        end
      else None
  | EmptyString => None
  end.

(** Two quoted texts with a plus between them. *)
Definition concat_front (s : string) : option (string * string) :=
  match quoted_front s with
  | Some (str1, after) =>
      match skip_space after with
      | String.String p rest =>
          if Ascii.eqb p plus then
            match quoted_front (skip_space rest) with
            | Some (str2, after2) => Some (str1 +:+ str2, after2)
            | None => None
            end
          else None
      | EmptyString => None
      end
  | None => None
  end.

Fixpoint concat_pass (fuel : nat) (s : string) : string :=
  match fuel, s with
  | S fuel, String.String c rest =>
      match concat_front s with
      | Some (str, after) => String.String apostrophe (str +:+ String.String apostrophe (concat_pass fuel after))
      | None => String.String c (concat_pass fuel rest)
      end
  | _, _ => EmptyString
  end.

Definition deobfuscate_string_concat (s : string) : string := concat_pass (String.length s) s.

Definition known_reversals : list (string * string) :=
  [("gnirtsdaolnwod", "downloadstring"); ("elifdaolnwod", "downloadfile"); ("ataddaolnwod", "downloaddata");
   ("noisserpxe-ekovni", "invoke-expression"); ("tpeccatrap", "partaccept"); ("xei", "iex")]%string.

(** The inner loop, over the text and its lower case side by side. *)
Fixpoint replace_all (fuel : nat) (rev orig lower out : string) : string * string :=
  match fuel with
  | O => (lower, out)
  | S fuel =>
      if String.prefix rev lower then
        let '(lower, out) := replace_all fuel rev orig (str_drop (String.length rev) lower) (str_drop (String.length rev) out) in
        (orig +:+ lower, orig +:+ out)
      else
        match lower, out with
        | String.String l lower, String.String o out =>
            let '(lower, out) := replace_all fuel rev orig lower out in (String.String l lower, String.String o out)
        | _, _ => (lower, out)
        end
  end.

Fixpoint reverse_loop (reversals : list (string * string)) (lower out : string) : string :=
  match reversals with
  | [] => out
  | (rev, orig) :: reversals =>
      let '(lower, out) := replace_all (S (String.length lower)) rev orig lower out in reverse_loop reversals lower out
  end.

Definition deobfuscate_reverse_patterns (s : string) : string := reverse_loop known_reversals (to_lower_ascii s) s.

Definition deobfuscate_powershell (script : string) : string :=
  let step1 := strip_backticks script in
  let step2 := deobfuscate_char_casts step1 in
  let step3 := deobfuscate_string_concat step2 in
  let step3 := deobfuscate_string_concat step3 in
  deobfuscate_reverse_patterns step3.

(** ** Rules *)

(** A rule of the first three: it sets technique, severity and reason. *)
Definition set_finding (e : FilelessEvaluation) (technique reason : string) (severity : ThreatLevel) (indicator : string) : FilelessEvaluation :=
  FEval (fe_original e) (fe_deobfuscated e) true technique reason severity (fe_indicators e ++ [indicator]).

Definition rule_reflection (lower : string) (e : FilelessEvaluation) : FilelessEvaluation :=
  if any_of ["reflection.assembly"; "system.reflection"]%string lower && find_sub "load" lower then
    set_finding e "T1059.001" "In-memory reflection assembly loading (Assembly::Load)" CRITICAL "Reflection.Assembly::Load"
  else e.

Definition rule_amsi (lower : string) (e : FilelessEvaluation) : FilelessEvaluation :=
  if any_of ["amsiutils"; "amsiinitfailed"; "amsiscanbuffer"]%string lower then
    set_finding e "T1562.001" "In-memory AMSI patch bypass tampering" CRITICAL "AmsiUtils tampering"
  else e.

Definition rule_cradle (lower : string) (e : FilelessEvaluation) : FilelessEvaluation :=
  if any_of ["downloadstring"; "downloadfile"; "downloaddata"]%string lower && any_of ["iex"; "invoke-expression"]%string lower then
    set_finding e "T1059.001" "Deobfuscated remote download & execute cradle (IEX + DownloadString)" CRITICAL
      "IEX + WebClient.DownloadString"
  else e.

Definition rule_compressed (lower : string) (e : FilelessEvaluation) : FilelessEvaluation :=
  if any_of ["deflatestream"; "gzipstream"]%string lower && any_of ["memorystream"; "frombase64string"]%string lower then
    FEval (fe_original e) (fe_deobfuscated e) true
      (if empty_string (fe_technique e) then "T1027" else fe_technique e)%string
      (if empty_string (fe_reason e) then "Compressed in-memory payload stream decompression" else fe_reason e)%string
      (if level_value (fe_severity e) <? level_value HIGH then HIGH else fe_severity e)
      (fe_indicators e ++ ["DeflateStream/GzipStream decompression"]%string)
  else e.

Definition rule_policy (lower : string) (e : FilelessEvaluation) : FilelessEvaluation :=
  if find_sub "set-executionpolicy" lower && any_of ["bypass"; "unrestricted"]%string lower then
    let low := level_value (fe_severity e) <? level_value MEDIUM in
    FEval (fe_original e) (fe_deobfuscated e) (fe_is_malicious e) (fe_technique e)
      (if low then "PowerShell execution policy bypass attempt" else fe_reason e)%string
      (if low then MEDIUM else fe_severity e) (fe_indicators e ++ ["Set-ExecutionPolicy Bypass"]%string)
  else e.

Definition judge_script (script : string) : FilelessEvaluation :=
  let deobfuscated := deobfuscate_powershell script in
  let lower := to_lower_ascii deobfuscated in
  let e := FEval script deobfuscated false EmptyString EmptyString SAFE [] in
  rule_policy lower (rule_compressed lower (rule_cradle lower (rule_amsi lower (rule_reflection lower e)))).

Definition fileless_threat (e : FilelessEvaluation) (id now : Z) : ThreatEvent :=
  Event id now (fe_severity e) FILELESS_EXEC 0 "powershell.exe" EmptyString
    ("Fileless Threat [" +:+ fe_technique e +:+ "]: " +:+ fe_reason e) EmptyString 0 false false.

Definition evaluate_script (st : FilelessEngine) (script : string) (now : Z) : FilelessEngine * FilelessEvaluation * list output :=
  let e := judge_script script in
  let scripts := u64 (fa_scripts st + 1) in
  if fe_is_malicious e && fa_running st then
    let threats := u64 (fa_threats st + 1) in
    (Fileless (fa_running st) scripts threats, e, [Threat (fileless_threat e threats now)])
  else (Fileless (fa_running st) scripts (fa_threats st), e, []).

(** ** COM servers of the user *)

(** Why the path of a server is suspicious. *)
Definition hijack_reason (dll_path : string) : option string :=
  let lower := to_lower_ascii dll_path in
  if any_of ["\temp\"; "\appdata\local\temp\"]%string lower then Some "InprocServer32 points to temporary directory"%string
  else if find_sub "\users\" lower && negb (find_sub "\system32\" lower) then
    Some "User-writable path InprocServer32 COM hijack"%string
  else None.

(** The keys of the user's classes, each with the default value of its InprocServer32 key,
    [None] when that key or value cannot be read. *)
Definition scan_com_hijacking (keys : list (string * option string)) : list ComHijackRecord :=
  omap (fun '(clsid, value) =>
    match value with
    | Some dll_path => match hijack_reason dll_path with Some reason => Some (Hijack clsid dll_path true reason) | None => None end
    | None => None
    end) keys.

(** ** Text and fuel *)

Lemma span_len f s : (String.length (snd (span f s)) <= String.length s)%nat.
Proof. induction s as [|c s IH]; cbn [span]; [cbn; lia|]. destruct (f c); [|cbn; lia]. destruct (span f s); cbn in *; lia. Qed.

(** A prefix the test holds of, in front of something it does not hold of. *)
Definition stops (f : Ascii.ascii -> bool) (s : string) : bool := match s with String.String c _ => negb (f c) | EmptyString => true end.

Fixpoint all_match (f : Ascii.ascii -> bool) (s : string) : bool :=
  match s with String.String c s => f c && all_match f s | EmptyString => true end.

Lemma span_app f a b : all_match f a = true -> stops f b = true -> span f (a +:+ b) = (a, b).
Proof.
  intros Ha Hb. induction a as [|c a IH].
  - destruct b as [|c b]; [done|]. cbn [stops] in Hb. change (EmptyString +:+ String.String c b) with (String.String c b).
    cbn [span]. apply negb_true_iff in Hb. by rewrite Hb.
  - cbn [all_match] in Ha. apply andb_true_iff in Ha as [Hc Ha].
    change (String.String c a +:+ b) with (String.String c (a +:+ b)). cbn [span]. by rewrite Hc, IH.
Qed.

Lemma cast_code_len s v after : cast_code s = Some (v, after) -> (String.length after <= String.length s)%nat.
Proof.
  unfold cast_code. pose proof (span_len (one_of [32; 40]) s) as Hs. destruct (span (one_of [32; 40]) s) as [sp t]. cbn [snd] in Hs. intros H.
  assert (Hd : forall u, (let '(num, rest) := span is_decimal_digit u in if empty_string num then None else Some (number_of 10 num 0, rest)) = Some (v, after) ->
    (String.length after <= String.length u)%nat).
  { intros u Hu. pose proof (span_len is_decimal_digit u) as Hl. destruct (span is_decimal_digit u) as [num rest]. cbn [snd] in Hl.
    destruct (empty_string num); [discriminate|]. by injection Hu as _ <-. }
  destruct t as [|z [|x [|d digits]]]; try (apply Hd in H; lia).
  destruct ((char_value z =? 48) && _); [|apply Hd in H; lia].
  pose proof (span_len is_hex_digit (String.String d digits)) as Hl. destruct (span is_hex_digit _) as [num rest]. cbn [snd] in Hl.
  injection H as _ <-. cbn in *. lia.
Qed.

Lemma skip_paren_len s : (String.length (skip_paren s) <= String.length s)%nat.
Proof. destruct s as [|c s]; [done|]. cbn [skip_paren]. destruct (_ =? 41); cbn; lia. Qed.

Lemma skip_space_len s : (String.length (skip_space s) <= String.length s)%nat.
Proof. induction s as [|c s IH]; [done|]. cbn [skip_space]. destruct (is_space c); cbn; lia. Qed.

Lemma char_casts_fuel n : forall m s, (String.length s <= n)%nat -> (String.length s <= m)%nat -> char_casts n s = char_casts m s.
Proof.
  induction n as [|n IH]; intros m s Hn Hm.
  - destruct s; [by destruct m|cbn in Hn; lia].
  - destruct s as [|c s]; [by destruct m|]. destruct m as [|m]; [cbn in Hm; lia|]. cbn [String.length] in Hn, Hm. cbn [char_casts].
    assert (E : char_casts n s = char_casts m s) by (apply IH; lia).
    destruct (_ && _) eqn:Eb; [|by rewrite E]. apply andb_true_iff in Eb as [Hl%Nat.ltb_lt _]. cbn [String.length] in Hl.
    destruct (cast_code _) as [[v after]|] eqn:Ec; [|by rewrite E].
    destruct (_ && _); [|by rewrite E]. f_equal. apply cast_code_len in Ec. change (str_drop 6 (String.String c s)) with (str_drop 5 s) in Ec.
    pose proof (str_drop_len 5 s). pose proof (skip_paren_len after). apply IH; lia.
Qed.

Lemma find_idx_len f s n : find_idx f s = Some n -> (n < String.length s)%nat.
Proof.
  revert n. induction s as [|c s IH]; intros n; cbn [find_idx]; [discriminate|]. destruct (f c); [intros [= <-]; cbn; lia|].
  destruct (find_idx f s) as [k|]; [|discriminate]. intros [= <-]. specialize (IH k eq_refl). cbn. lia.
Qed.

Lemma quoted_front_len s a b : quoted_front s = Some (a, b) -> (String.length b < String.length s)%nat.
Proof.
  destruct s as [|q s]; [discriminate|]. cbn [quoted_front]. destruct (is_quote q); [|discriminate].
  destruct (find_idx (Ascii.eqb q) s) as [n|]; [|discriminate]. intros H. assert (b = str_drop (S n) s) as -> by congruence.
  pose proof (str_drop_len (S n) s). cbn [String.length]. lia.
Qed.

Lemma concat_front_len s a b : concat_front s = Some (a, b) -> (String.length b < String.length s)%nat.
Proof.
  unfold concat_front. destruct (quoted_front s) as [[s1 after]|] eqn:E1; [|discriminate]. apply quoted_front_len in E1.
  pose proof (skip_space_len after) as Hs. destruct (skip_space after) as [|p rest]; [discriminate|].
  destruct (Ascii.eqb p plus); [|discriminate]. destruct (quoted_front (skip_space rest)) as [[s2 after2]|] eqn:E2; [|discriminate].
  apply quoted_front_len in E2. pose proof (skip_space_len rest). intros [= _ <-]. cbn [String.length] in *. lia.
Qed.

Lemma concat_pass_fuel n : forall m s, (String.length s <= n)%nat -> (String.length s <= m)%nat -> concat_pass n s = concat_pass m s.
Proof.
  induction n as [|n IH]; intros m s Hn Hm.
  - destruct s; [by destruct m|cbn in Hn; lia].
  - destruct s as [|c s]; [by destruct m|]. destruct m as [|m]; [cbn in Hm; lia|]. cbn [concat_pass].
    destruct (concat_front (String.String c s)) as [[a b]|] eqn:E.
    + apply concat_front_len in E. cbn [String.length] in *. do 3 f_equal. apply IH; lia.
    + f_equal. cbn [String.length] in *. apply IH; lia.
Qed.

(** ** Concatenations *)

Definition quoted (p : string) : string := String.String apostrophe (p +:+ String.String apostrophe EmptyString).

(** ['a'+'b'+'c'] *)
Fixpoint joined (ps : list string) : string :=
  match ps with
  | [] => EmptyString
  | [p] => quoted p
  | p :: ps => quoted p +:+ String.String plus (joined ps)
  end.

Fixpoint pair_up (ps : list string) : list string :=
  match ps with
  | p :: q :: ps => (p +:+ q) :: pair_up ps
  | _ => ps
  end.

Definition unquoted (p : string) : bool := all_match (fun c => negb (is_quote c)) p.

Lemma concat_equation c s : deobfuscate_string_concat (String.String c s) =
  match concat_front (String.String c s) with
  | Some (str, after) => String.String apostrophe (str +:+ String.String apostrophe (deobfuscate_string_concat after))
  | None => String.String c (deobfuscate_string_concat s)
  end.
Proof.
  unfold deobfuscate_string_concat. cbn [String.length concat_pass].
  destruct (concat_front (String.String c s)) as [[a b]|] eqn:E; [|done]. apply concat_front_len in E. cbn [String.length] in E.
  do 3 f_equal. apply concat_pass_fuel; lia.
Qed.

Lemma find_quote p rest : unquoted p = true -> find_idx (Ascii.eqb apostrophe) (p +:+ String.String apostrophe rest) = Some (String.length p).
Proof.
  unfold unquoted. induction p as [|c p IH]; [done|]. cbn [all_match]. intros [Hc Hp]%andb_true_iff.
  change (String.String c p +:+ String.String apostrophe rest) with (String.String c (p +:+ String.String apostrophe rest)).
  cbn [find_idx]. rewrite (IH Hp). destruct (Ascii.eqb_spec apostrophe c) as [<-|_]; [discriminate Hc|done].
Qed.

Lemma quoted_front_app p rest : unquoted p = true -> quoted_front (quoted p +:+ rest) = Some (p, rest).
Proof.
  intros Hp. unfold quoted.
  replace (String.String apostrophe (p +:+ String.String apostrophe EmptyString) +:+ rest)
    with (String.String apostrophe (p +:+ String.String apostrophe rest)).
  2: { rewrite <- (string_app_cons p apostrophe rest). reflexivity. }
  cbn [quoted_front]. change (is_quote apostrophe) with true. cbv iota. rewrite find_quote by exact Hp. rewrite substring_app.
  do 2 f_equal. rewrite <- (string_app_cons p apostrophe rest).
  replace (S (String.length p)) with (String.length (p +:+ String.String apostrophe EmptyString)) by (rewrite string_app_length; cbn; lia).
  apply str_drop_app.
Qed.

Lemma concat_front_pair p q rest : unquoted p = true -> unquoted q = true ->
  concat_front (quoted p +:+ String.String plus (quoted q +:+ rest)) = Some (p +:+ q, rest).
Proof.
  intros Hp Hq. unfold concat_front. rewrite quoted_front_app by exact Hp. cbn [skip_space].
  change (is_space plus) with false. cbv iota. change (Ascii.eqb plus plus) with true. cbv iota.
  change (skip_space (quoted q +:+ rest)) with (quoted q +:+ rest). by rewrite quoted_front_app.
Qed.

Lemma concat_unquoted p : unquoted p = true ->
  deobfuscate_string_concat (p +:+ String.String apostrophe EmptyString) = p +:+ String.String apostrophe EmptyString.
Proof.
  unfold unquoted. induction p as [|c p IH]; [done|]. cbn [all_match]. intros [Hc Hp]%andb_true_iff. apply negb_true_iff in Hc.
  change (String.String c p +:+ String.String apostrophe EmptyString) with (String.String c (p +:+ String.String apostrophe EmptyString)).
  rewrite concat_equation. unfold concat_front. cbn [quoted_front]. rewrite Hc. by rewrite IH.
Qed.

Lemma concat_single p : unquoted p = true -> deobfuscate_string_concat (quoted p) = quoted p.
Proof.
  intros Hp. unfold quoted at 1. rewrite concat_equation. fold (quoted p). unfold concat_front.
  rewrite <- (string_app_nil (quoted p)) at 1. rewrite quoted_front_app by exact Hp. cbn [skip_space]. by rewrite concat_unquoted.
Qed.

Lemma joined_cons p ps : ps <> [] -> joined (p :: ps) = quoted p +:+ String.String plus (joined ps).
Proof. by destruct ps. Qed.

Lemma concat_joined n : forall ps, (length ps <= n)%nat -> Forall (fun p => unquoted p = true) ps ->
  deobfuscate_string_concat (joined ps) = joined (pair_up ps).
Proof.
  induction n as [|n IH]; intros [|p [|q ps]] Hn Hps; try reflexivity; [cbn in Hn; lia..| |].
  - apply Forall_cons in Hps as [Hp _]. by apply concat_single.
  - apply Forall_cons in Hps as [Hp [Hq Hps]%Forall_cons]. destruct ps as [|r ps].
    + cbn [joined pair_up]. rewrite <- (string_app_nil (quoted q)). unfold quoted at 1.
      change (String.String apostrophe (p +:+ String.String apostrophe EmptyString) +:+ String.String plus (quoted q +:+ EmptyString))
        with (String.String apostrophe ((p +:+ String.String apostrophe EmptyString) +:+ String.String plus (quoted q +:+ EmptyString))).
      rewrite concat_equation.
      change (String.String apostrophe ((p +:+ String.String apostrophe EmptyString) +:+ String.String plus (quoted q +:+ EmptyString)))
        with (quoted p +:+ String.String plus (quoted q +:+ EmptyString)).
      by rewrite concat_front_pair.
    + assert (E : joined (p :: q :: r :: ps) = quoted p +:+ String.String plus (quoted q +:+ String.String plus (joined (r :: ps)))) by reflexivity.
      rewrite E. set (rest := String.String plus (joined (r :: ps))). unfold quoted at 1.
      change (String.String apostrophe (p +:+ String.String apostrophe EmptyString) +:+ String.String plus (quoted q +:+ rest))
        with (String.String apostrophe ((p +:+ String.String apostrophe EmptyString) +:+ String.String plus (quoted q +:+ rest))).
      rewrite concat_equation.
      change (String.String apostrophe ((p +:+ String.String apostrophe EmptyString) +:+ String.String plus (quoted q +:+ rest)))
        with (quoted p +:+ String.String plus (quoted q +:+ rest)).
      rewrite concat_front_pair by assumption. unfold rest. rewrite concat_equation.
      change (concat_front (String.String plus (joined (r :: ps)))) with (@None (string * string)). cbv iota.
      rewrite IH by (cbn in *; lia || assumption).
      change (pair_up (p :: q :: r :: ps)) with ((p +:+ q) :: pair_up (r :: ps)).
      rewrite (joined_cons (p +:+ q)) by (destruct ps as [|? ps]; discriminate).
      unfold quoted. rewrite <- (string_app_cons (p +:+ q)). reflexivity.
Qed.

Fixpoint merged (ps : list string) : string := match ps with [] => EmptyString | p :: ps => p +:+ merged ps end.

Lemma unquoted_app p q : unquoted (p +:+ q) = unquoted p && unquoted q.
Proof.
  unfold unquoted. induction p as [|c p IH]; [done|]. change (String.String c p +:+ q) with (String.String c (p +:+ q)).
  cbn [all_match]. by rewrite IH, andb_assoc.
Qed.

Lemma pair_up_spec n : forall ps, (length ps <= n)%nat -> Forall (fun p => unquoted p = true) ps ->
  Forall (fun p => unquoted p = true) (pair_up ps) /\ merged (pair_up ps) = merged ps /\ length (pair_up ps) = ((length ps + 1) / 2)%nat.
Proof.
  induction n as [|n IH]; intros [|p [|q ps]] Hn Hps; try (by split_and!); [cbn in Hn; lia..|].
  apply Forall_cons in Hps as [Hp [Hq Hps]%Forall_cons]. destruct (IH ps) as (H1 & H2 & H3); [cbn in Hn; lia|done|].
  cbn [pair_up merged length]. split_and!.
  - constructor; [by rewrite unquoted_app, Hp, Hq|done].
  - rewrite H2. symmetry. apply string_app_assoc.
  - rewrite H3. replace (S (S (length ps)) + 1)%nat with (length ps + 1 + 1 * 2)%nat by lia. rewrite Nat.div_add by lia. lia.
Qed.

(** ** Casts *)

Lemma char_of_value c : char_of (char_value c) = c.
Proof. unfold char_of, char_value. rewrite N2Z.id. apply Ascii.ascii_N_embedding. Qed.

Definition cast (c : Ascii.ascii) : string := "[char]" +:+ print_int (char_value c).

Fixpoint casts (s : string) : string :=
  match s with String.String c s => cast c +:+ casts s | EmptyString => EmptyString end.

Definition printable (c : Ascii.ascii) : bool := (32 <=? char_value c) && (char_value c <=? 126).

(** The decimal number of a printable character: digits, no leading zero, and its value. *)
Definition decimal_ok (v : Z) : bool :=
  let s := print_int v in
  all_match is_decimal_digit s && (number_of 10 s 0 =? v) &&
  match s with String.String z _ => negb (char_value z =? 48) && negb (one_of [32; 40] z) | EmptyString => false end.

Lemma decimals_ok : forallb decimal_ok (seqZ 32 95) = true.
Proof. vm_compute. reflexivity. Qed.

Lemma cast_code_decimal v rest : 32 <= v <= 126 -> stops is_decimal_digit rest = true -> cast_code (print_int v +:+ rest) = Some (v, rest).
Proof.
  intros Hv Hr. pose proof (proj1 (forallb_forall _ _) decimals_ok v) as H.
  assert (Hin : In v (seqZ 32 95)) by (apply list_elem_of_In, elem_of_seqZ; lia).
  specialize (H Hin). unfold decimal_ok in H. apply andb_true_iff in H as [H H3]. apply andb_true_iff in H as [H1 H2%Z.eqb_eq].
  destruct (print_int v) as [|z num] eqn:En; [discriminate|]. apply andb_true_iff in H3 as [Hz%negb_true_iff Hs%negb_true_iff].
  assert (Hspan : span is_decimal_digit (String.String z num +:+ rest) = (String.String z num, rest)) by (by apply span_app).
  unfold cast_code. change (String.String z num +:+ rest) with (String.String z (num +:+ rest)) in *. cbn [span]. rewrite Hs.
  assert (Hdec : (let '(n, r) := span is_decimal_digit (String.String z (num +:+ rest)) in
    if empty_string n then None else Some (number_of 10 n 0, r)) = Some (v, rest)) by (rewrite Hspan, H2; reflexivity).
  cbn [span] in Hdec. destruct (num +:+ rest) as [|x [|d digits]]; [exact Hdec..|]. rewrite Hz. cbn [andb]. exact Hdec.
Qed.

Lemma casts_equation c rest : printable c = true -> stops is_decimal_digit rest = true -> stops (one_of [41]) rest = true ->
  deobfuscate_char_casts (cast c +:+ rest) = String.String c (deobfuscate_char_casts rest).
Proof.
  intros Hc Hr Hp. unfold printable in Hc. apply andb_true_iff in Hc as Hv. destruct Hv as [Hlo%Z.leb_le Hhi%Z.leb_le].
  unfold deobfuscate_char_casts, cast. set (num := print_int (char_value c)).
  assert (Hne : (0 < String.length num)%nat).
  { unfold num. pose proof (proj1 (forallb_forall _ _) decimals_ok (char_value c)) as H.
    assert (Hin : In (char_value c) (seqZ 32 95)) by (apply list_elem_of_In, elem_of_seqZ; lia). specialize (H Hin).
    unfold decimal_ok in H. destruct (print_int (char_value c)); [by rewrite andb_false_r in H|cbn; lia]. }
  replace (("[char]" +:+ num) +:+ rest) with ("[char]" +:+ (num +:+ rest)) by apply string_app_assoc.
  change ("[char]" +:+ (num +:+ rest)) with (String.String (char_of 91) ("char]" +:+ (num +:+ rest))).
  cbn [String.length char_casts].
  replace (Nat.ltb 6 (S (String.length ("char]" +:+ (num +:+ rest))))) with true.
  2: { symmetry. apply Nat.ltb_lt. rewrite !string_app_length. cbn [String.length]. lia. }
  replace (to_lower_ascii (String.substring 0 6 (String.String (char_of 91) ("char]" +:+ (num +:+ rest))))) with "[char]"%string
    by (destruct (num +:+ rest); vm_compute; reflexivity).
  change (str_drop 6 (String.String (char_of 91) ("char]" +:+ (num +:+ rest)))) with (num +:+ rest).
  rewrite String.eqb_refl. cbn [andb]. unfold num at 1. rewrite cast_code_decimal by (done || lia). rewrite Hc.
  f_equal; [apply char_of_value|].
  replace (skip_paren rest) with rest.
  - apply char_casts_fuel; [rewrite !string_app_length; lia|lia].
  - destruct rest as [|x rest]; [done|]. cbn [stops one_of existsb] in Hp. cbn [skip_paren]. rewrite orb_false_r in Hp.
    apply negb_true_iff in Hp. by rewrite Hp.
Qed.

Lemma casts_stop s f : f (char_of 91) = false -> stops f (casts s) = true.
Proof. intros Hf. destruct s as [|c s]; [done|]. change (negb (f (char_of 91)) = true). by rewrite Hf. Qed.

(** ** Properties *)

(** Text with a backtick before some of its letters and digits. *)
Fixpoint ticked (bs : list bool) (s : string) : string :=
  match bs, s with
  | b :: bs, String.String c s =>
      if b && is_alnum c then String.String backtick (String.String c (ticked bs s)) else String.String c (ticked bs s)
  | _, _ => s
  end.

Lemma strip_plain s : has_char backtick s = false -> strip_backticks s = s.
Proof.
  induction s as [|c s IH]; [done|]. cbn [has_char]. intros [Hc Hs]%orb_false_iff. cbn [strip_backticks].
  replace (Ascii.eqb c backtick) with false; [cbn [andb]; by rewrite IH|].
  symmetry. apply Ascii.eqb_neq. intros ->. by rewrite bool_decide_eq_true_2 in Hc.
Qed.

(** the passes undo the disguises they are meant for.  Backticks put before any letters
    and digits of a text without backticks are removed.  A text of printable characters
    written as one cast of its code after the other is read back.  A pass over texts in
    quotes with a plus between them joins them in pairs, whatever their number. *)
Theorem disguises_undone (bs : list bool) (s t : string) (ps : list string) :
  has_char backtick s = false -> all_match printable t = true -> Forall (fun p => unquoted p = true) ps ->
  strip_backticks (ticked bs s) = s /\
  deobfuscate_char_casts (casts t) = t /\
  deobfuscate_string_concat (joined ps) = joined (pair_up ps).
Proof.
  intros Hs Ht Hps. split_and!.
  - clear -Hs. revert s Hs. induction bs as [|b bs IH]; intros s Hs; [by apply strip_plain|]. destruct s as [|c s]; [done|].
    cbn [has_char] in Hs. apply orb_false_iff in Hs as [Hc Hs]. cbn [ticked].
    assert (Hcc : Ascii.eqb c backtick = false) by (apply Ascii.eqb_neq; intros ->; by rewrite bool_decide_eq_true_2 in Hc).
    destruct (b && is_alnum c) eqn:Eb.
    + apply andb_true_iff in Eb as [_ Eb]. cbn [strip_backticks first_alnum]. rewrite Eb. change (Ascii.eqb backtick backtick) with true.
      cbn [andb]. rewrite Hcc. cbn [andb]. by rewrite IH.
    + cbn [strip_backticks]. rewrite Hcc. cbn [andb]. by rewrite IH.
  - clear -Ht. induction t as [|c t IH]; [done|]. cbn [all_match] in Ht. apply andb_true_iff in Ht as [Hc Ht].
    cbn [casts]. rewrite casts_equation by (done || by apply casts_stop). by rewrite IH.
  - by apply (concat_joined (length ps)).
Qed.

Lemma disguises_undone_witness :
  strip_backticks (ticked [true; false; true] "iex") = "iex"%string /\
  deobfuscate_char_casts (casts "iex") = "iex"%string /\
  deobfuscate_string_concat (joined ["i"; "e"; "x"]%string) = joined ["ie"; "x"]%string.
Proof. apply (disguises_undone [true; false; true] "iex" "iex" ["i"; "e"; "x"]%string); [reflexivity|reflexivity|repeat constructor]. Defined.

(** two passes put a text of at most four pieces together again, and leave more than one
    piece of a text of five or more: a word in five pieces stays hidden from the rules. *)
Theorem two_passes_join_four (ps : list string) :
  Forall (fun p => unquoted p = true) ps -> ps <> [] ->
  let twice := deobfuscate_string_concat (deobfuscate_string_concat (joined ps)) in
  ((length ps <= 4)%nat -> twice = quoted (merged ps)) /\
  ((5 <= length ps)%nat -> exists p q rest, twice = joined (p :: q :: rest)).
Proof.
  intros Hps Hne twice. destruct (pair_up_spec (length ps) ps (le_n _) Hps) as (H1 & H2 & H3).
  destruct (pair_up_spec _ (pair_up ps) (le_n _) H1) as (_ & H5 & H6).
  assert (E : twice = joined (pair_up (pair_up ps))).
  { unfold twice. rewrite (concat_joined (length ps)) by done. by apply (concat_joined (length (pair_up ps))). }
  rewrite E. rewrite H3 in H6. split; intros Hlen.
  - rewrite <- H2, <- H5. assert (H : length (pair_up (pair_up ps)) = 1%nat).
    { rewrite H6. destruct ps as [|? [|? [|? [|? [|? ?]]]]]; try done. cbn in Hlen. lia. }
    destruct (pair_up (pair_up ps)) as [|p [|? ?]]; try discriminate. cbn [joined merged]. by rewrite string_app_nil.
  - assert (H : (2 <= length (pair_up (pair_up ps)))%nat).
    { rewrite H6. assert (3 <= (length ps + 1) / 2)%nat by (apply Nat.div_le_lower_bound; lia). apply Nat.div_le_lower_bound; lia. }
    destruct (pair_up (pair_up ps)) as [|p [|q rest]]; cbn in H; [lia..|]. by exists p, q, rest.
Qed.

Lemma two_passes_join_four_witness :
  deobfuscate_string_concat (deobfuscate_string_concat (joined ["i"; "e"; "x"]%string)) = quoted "iex".
Proof. apply (two_passes_join_four ["i"; "e"; "x"]%string); [repeat constructor|discriminate|cbn; lia]. Defined.

(** A cradle whose [iex] comes in five pieces is not found. *)
Example five_pieces_evade :
  let script := "$c.DownloadString('u')|&(" +:+ joined ["in"; "vo"; "ke-ex"; "press"; "ion"]%string +:+ ")" in
  fe_is_malicious (judge_script script) = false /\
  fe_is_malicious (judge_script ("$c.DownloadString('u')|&(" +:+ joined ["invo"; "ke-ex"; "press"; "ion"]%string +:+ ")")) = true.
Proof. vm_compute. split; reflexivity. Qed.

(** What the rules leave, by which of them hold. *)
Lemma rules_by_cases (reflection amsi cradle compressed policy : bool) (e0 : FilelessEvaluation) :
  fe_is_malicious e0 = false -> fe_technique e0 = EmptyString -> fe_severity e0 = SAFE -> fe_indicators e0 = [] ->
  forall e1 e2 e3 e4 e5,
  e1 = (if reflection then set_finding e0 "T1059.001" "In-memory reflection assembly loading (Assembly::Load)" CRITICAL "Reflection.Assembly::Load" else e0) ->
  e2 = (if amsi then set_finding e1 "T1562.001" "In-memory AMSI patch bypass tampering" CRITICAL "AmsiUtils tampering" else e1) ->
  e3 = (if cradle then set_finding e2 "T1059.001" "Deobfuscated remote download & execute cradle (IEX + DownloadString)" CRITICAL
          "IEX + WebClient.DownloadString" else e2) ->
  e4 = (if compressed then
          FEval (fe_original e3) (fe_deobfuscated e3) true
            (if empty_string (fe_technique e3) then "T1027" else fe_technique e3)%string
            (if empty_string (fe_reason e3) then "Compressed in-memory payload stream decompression" else fe_reason e3)%string
            (if level_value (fe_severity e3) <? level_value HIGH then HIGH else fe_severity e3)
            (fe_indicators e3 ++ ["DeflateStream/GzipStream decompression"]%string)
        else e3) ->
  e5 = (if policy then
          FEval (fe_original e4) (fe_deobfuscated e4) (fe_is_malicious e4) (fe_technique e4)
            (if (level_value (fe_severity e4) <? level_value MEDIUM)%Z then "PowerShell execution policy bypass attempt" else fe_reason e4)%string
            (if level_value (fe_severity e4) <? level_value MEDIUM then MEDIUM else fe_severity e4)
            (fe_indicators e4 ++ ["Set-ExecutionPolicy Bypass"]%string)
        else e4) ->
  fe_is_malicious e5 = reflection || amsi || cradle || compressed /\
  fe_severity e5 = (if reflection || amsi || cradle then CRITICAL else if compressed then HIGH else if policy then MEDIUM else SAFE) /\
  fe_technique e5 = (if cradle then "T1059.001" else if amsi then "T1562.001" else if reflection then "T1059.001"
                     else if compressed then "T1027" else EmptyString)%string /\
  fe_indicators e5 =
    (if reflection then ["Reflection.Assembly::Load"] else []) ++ (if amsi then ["AmsiUtils tampering"] else []) ++
    (if cradle then ["IEX + WebClient.DownloadString"] else []) ++ (if compressed then ["DeflateStream/GzipStream decompression"] else []) ++
    (if policy then ["Set-ExecutionPolicy Bypass"] else [])%string.
Proof.
  destruct e0 as [o d m t r s i]. cbn [fe_is_malicious fe_technique fe_severity fe_indicators]. intros -> -> -> -> e1 e2 e3 e4 e5 E1 E2 E3 E4 E5.
  destruct reflection; cbn in E1; subst e1; destruct amsi; cbn in E2; subst e2; destruct cradle; cbn in E3; subst e3;
    destruct compressed; cbn in E4; subst e4; destruct policy; cbn in E5; subst e5; split_and!; reflexivity.
Qed.

Lemma evaluate_script_spec st script now : let '(st', e, out) := evaluate_script st script now in
  e = judge_script script /\ out = (if fe_is_malicious e && fa_running st then [Threat (fileless_threat e (fa_threats st') now)] else []) /\
  fa_scripts st' = u64 (fa_scripts st + 1).
Proof. unfold evaluate_script. by destruct (fe_is_malicious (judge_script script) && fa_running st) eqn:E; cbn [fa_scripts fa_threats]; rewrite ?E. Qed.

Lemma malicious_severity script : fe_is_malicious (judge_script script) = true ->
  fe_severity (judge_script script) = HIGH \/ fe_severity (judge_script script) = CRITICAL.
Proof.
  pose proof (rules_by_cases _ _ _ _ _ (FEval script (deobfuscate_powershell script) false EmptyString EmptyString SAFE [])
    eq_refl eq_refl eq_refl eq_refl _ _ _ _ (judge_script script) eq_refl eq_refl eq_refl eq_refl eq_refl) as (H1 & H2 & _).
  rewrite H1, H2. clear H1 H2. intros H.
  match type of H with ?hard || ?soft = true => destruct hard; [by right|]; destruct soft; [by left|discriminate H] end.
Qed.

(** the verdict over a script: it is malicious exactly when the text the passes leave, in
    lower case, loads an assembly by reflection, touches AMSI, holds a download cradle or
    unpacks a compressed payload; the first three are CRITICAL, the last alone is HIGH, a
    change of the execution policy alone is MEDIUM and not malicious; each rule that holds
    leaves its indicator in order.  A running engine reports one threat for each malicious
    script and counts every script. *)
Theorem script_verdict (st : FilelessEngine) (script : string) (now : Z) :
  let lower := to_lower_ascii (deobfuscate_powershell script) in
  let reflection := any_of ["reflection.assembly"; "system.reflection"]%string lower && find_sub "load" lower in
  let amsi := any_of ["amsiutils"; "amsiinitfailed"; "amsiscanbuffer"]%string lower in
  let cradle := any_of ["downloadstring"; "downloadfile"; "downloaddata"]%string lower && any_of ["iex"; "invoke-expression"]%string lower in
  let compressed := any_of ["deflatestream"; "gzipstream"]%string lower && any_of ["memorystream"; "frombase64string"]%string lower in
  let policy := find_sub "set-executionpolicy" lower && any_of ["bypass"; "unrestricted"]%string lower in
  let '(st', e, out) := evaluate_script st script now in
  fe_is_malicious e = reflection || amsi || cradle || compressed /\
  fe_severity e = (if reflection || amsi || cradle then CRITICAL else if compressed then HIGH else if policy then MEDIUM else SAFE) /\
  fe_technique e = (if cradle then "T1059.001" else if amsi then "T1562.001" else if reflection then "T1059.001"
                    else if compressed then "T1027" else EmptyString)%string /\
  fe_indicators e =
    (if reflection then ["Reflection.Assembly::Load"] else []) ++ (if amsi then ["AmsiUtils tampering"] else []) ++
    (if cradle then ["IEX + WebClient.DownloadString"] else []) ++ (if compressed then ["DeflateStream/GzipStream decompression"] else []) ++
    (if policy then ["Set-ExecutionPolicy Bypass"] else [])%string /\
  out = (if fe_is_malicious e && fa_running st then [Threat (fileless_threat e (fa_threats st') now)] else []) /\
  fa_scripts st' = u64 (fa_scripts st + 1).
Proof.
  intros lower reflection amsi cradle compressed policy. pose proof (evaluate_script_spec st script now) as H.
  destruct (evaluate_script st script now) as [[st' e] out]. destruct H as (He & Hout & Hcount).
  pose proof (rules_by_cases reflection amsi cradle compressed policy
    (FEval script (deobfuscate_powershell script) false EmptyString EmptyString SAFE [])
    eq_refl eq_refl eq_refl eq_refl _ _ _ _ (judge_script script) eq_refl eq_refl eq_refl eq_refl eq_refl) as (H1 & H2 & H3 & H4).
  rewrite <- He in H1, H2, H3, H4. by split_and!.
Qed.
