(* ===== verification/Heuristics.v ===== *)
(** * Heuristics: rules over the bytes of a binary

    Models src/src/scanner/heuristic_rules.cpp: the six rules over a binary, and those over
    the traffic of a host and the image of a process.  All reads are of bytes below the
    length, so a buffer is the list of its bytes.  [std::log2] and the [{:.2f}] format are
    arguments, and so is what the system says of the image of a process. *)
From S2P Require Import Prelude Float64 Entropy Observation Text Threat Lolbins.

Record HeuristicResult := Heuristic {
  hr_rule_name : string;
  hr_level : ThreatLevel;
  hr_category : ThreatCategory;
  hr_confidence : double;
  hr_description : string;
}.

(** The search of a text among the bytes. *)
Fixpoint starts_with (needle data : list byte) : bool :=
  match needle, data with
  | [], _ => true
  | n :: needle, d :: data => bool_decide (n = d) && starts_with needle data
  | _ :: _, [] => false
  end.

Fixpoint contains (needle data : list byte) : bool :=
  starts_with needle data || match data with [] => false | _ :: data => contains needle data end.

Definition mentions (data : list byte) (text : string) : bool := contains (bytes_of_string text) data.

Definition dangerous_apis : list string :=
  ["CreateRemoteThread"; "NtCreateThreadEx"; "RtlCreateUserThread"; "SetWindowsHookEx"; "VirtualProtectEx";
   "NtWriteVirtualMemory"; "NtAllocateVirtualMemory"; "ZwMapViewOfSection"]%string.

Definition anti_dbg : list string :=
  ["IsDebuggerPresent"; "CheckRemoteDebuggerPresent"; "NtQueryInformationProcess"; "OutputDebugString"; "GetTickCount";
   "QueryPerformanceCounter"]%string.

(** How many of the texts occur. *)
Definition count_mentions (texts : list string) (data : list byte) : Z :=
  foldl (fun count text => if mentions data text then count + 1 else count) 0 texts.

Definition check_suspicious_imports (data : list byte) : option HeuristicResult :=
  let count := count_mentions dangerous_apis data in
  if 3 <=? count then
    Some (Heuristic "suspicious_import_combo" HIGH MEMORY_INJECTION (ddiv (dz count) (dz 8))
      ("Multiple dangerous API imports detected (" +:+ print_int count +:+ ")"))
  else None.

Definition check_anti_debug (data : list byte) : option HeuristicResult :=
  let count := count_mentions anti_dbg data in
  if 3 <=? count then
    Some (Heuristic "anti_debug_techniques" MEDIUM EVASION_AMSI (ddiv (dz count) (dz 6))
      ("Multiple anti-debugging technique imports (" +:+ print_int count +:+ ")"))
  else None.

Definition check_process_injection_api (data : list byte) : option HeuristicResult :=
  let has_alloc := mentions data "VirtualAllocEx" || mentions data "NtAllocateVirtualMemory" in
  let has_write := mentions data "WriteProcessMemory" || mentions data "NtWriteVirtualMemory" in
  let has_exec := mentions data "CreateRemoteThread" || mentions data "NtCreateThreadEx" || mentions data "QueueUserAPC" in
  if has_alloc && has_write && has_exec then
    Some (Heuristic "classic_injection_triad" CRITICAL MEMORY_INJECTION (dlit 95 100) "Classic injection API triad: alloc+write+execute")
  else None.

(** The longest run of zero bytes; [zero_run] is the one in progress. *)
Fixpoint longest_zeros (data : list byte) (zero_run max_zero : Z) : Z :=
  match data with
  | [] => max_zero
  | b :: data =>
      if bval b =? 0 then
        let zero_run := zero_run + 1 in longest_zeros data zero_run (if max_zero <? zero_run then zero_run else max_zero)
      else longest_zeros data 0 max_zero
  end.

Definition check_code_cave (data : list byte) : option HeuristicResult :=
  let len := Z.of_nat (length data) in
  if len <? 512 then None
  else
    let max_zero := longest_zeros data 0 0 in
    if (4096 <? max_zero) && (max_zero <? len / 2) then
      Some (Heuristic "code_cave" LOW SUSPICIOUS_BINARY (dlit 5 10) ("Large zero-filled code cave (" +:+ print_int max_zero +:+ " bytes)"))
    else None.

Definition is_printable (b : byte) : bool := (0x20 <=? bval b) && (bval b <? 0x7F).

(** The runs of printable bytes that a byte of another kind ends: those of four or more, and all. *)
Fixpoint printable_runs (data : list byte) (current_run printable total : Z) : Z * Z :=
  match data with
  | [] => (printable, total)
  | b :: data =>
      if is_printable b then printable_runs data (current_run + 1) printable total
      else printable_runs data 0 (if 4 <=? current_run then printable + 1 else printable) (if 0 <? current_run then total + 1 else total)
  end.

Definition check_obfuscated_strings (data : list byte) : option HeuristicResult :=
  let len := Z.of_nat (length data) in
  if len <? 256 then None
  else
    let '(printable, total) := printable_runs data 0 0 0 in
    if (0 <? total) && (printable =? 0) && (4096 <? len) then
      Some (Heuristic "obfuscated_strings" MEDIUM SUSPICIOUS_BINARY (dlit 6 10)
        ("No readable strings in binary " +:+ em_dash +:+ " likely obfuscated"))
    else None.

(** The whole blocks of 4096 bytes. *)
Fixpoint blocks (n : nat) (data : list byte) : list (list byte) :=
  match n with
  | O => []
  | S n => take 4096 data :: blocks n (drop 4096 data)
  end.

Section heuristics.
Context (log2 : double -> double) (format2 : double -> string).

Definition check_packed_binary (data : list byte) : option HeuristicResult :=
  let len := Z.of_nat (length data) in
  if len <? 1024 then None
  else
    let section_count := len / 4096 in
    let total_entropy := foldl (fun total block => dadd total (shannon_entropy log2 block)) (dz 0) (blocks (Z.to_nat section_count) data) in
    if section_count =? 0 then None
    else
      let avg := ddiv total_entropy (dz section_count) in
      if dlt (dlit 72 10) avg then
        Some (Heuristic "packed_binary" MEDIUM SUSPICIOUS_BINARY (ddiv avg (dz 8))
          ("Binary appears packed/encrypted (avg entropy " +:+ format2 avg +:+ ")"))
      else None.

Definition analyze_binary (data : list byte) : list HeuristicResult :=
  omap (fun r => r)
    [check_packed_binary data; check_suspicious_imports data; check_code_cave data; check_anti_debug data;
     check_obfuscated_strings data; check_process_injection_api data].
End heuristics.

(** The path of the image of a process, [None] when the system does not tell. *)
Definition analyze_process (pid : Z) (image : option string) : list HeuristicResult :=
  if pid =? 0 then []
  else
    match image with
    | None => []
    | Some p =>
        let lower_p := to_lower_ascii p in
        (if find_sub "\temp\" lower_p || find_sub "\appdata\local\temp" lower_p then
           [Heuristic "temp_directory_execution" MEDIUM SUSPICIOUS_BINARY (dlit 70 100)
              ("Process executed from temporary directory: " +:+ p)] else []) ++
        (if find_sub "svchost.exe" lower_p && negb (find_sub "c:\windows\system32" lower_p) then
           [Heuristic "masquerading_system_binary" HIGH SUSPICIOUS_BINARY (dlit 90 100)
              ("Non-system path masquerading as svchost: " +:+ p)] else [])
    end.

Definition analyze_network_behavior (dst_port packet_count : Z) (avg_entropy : double) : list HeuristicResult :=
  (if (1000 <? packet_count) && (dst_port <? 1024) then
     [Heuristic "high_rate_to_privileged_port" HIGH SYN_FLOOD (dlit 85 100)
        ("High packet rate to privileged port " +:+ print_int dst_port)] else []) ++
  (if dlt (dlit 75 10) avg_entropy then
     [Heuristic "encrypted_exfil" HIGH DNS_TUNNEL (dlit 75 100) "High average entropy suggests encrypted C2/exfil channel"] else []).

(** ** Searches *)

Lemma starts_with_spec needle data : starts_with needle data = true <-> exists post, data = needle ++ post.
Proof.
  revert data. induction needle as [|n needle IH]; intros data; cbn [starts_with].
  - split; [|done]. intros _. by exists data.
  - destruct data as [|d data]; [split; [done|by intros [? ?]]|]. rewrite andb_true_iff, bool_decide_eq_true, IH.
    split; [intros [-> [post ->]]; by exists post|intros [post [= -> ->]]; split; [done|by exists post]].
Qed.

Lemma contains_spec needle data : contains needle data = true <-> infix_of needle data.
Proof.
  induction data as [|d data IH]; cbn [contains]; rewrite orb_true_iff, starts_with_spec.
  - split; [intros [[post ->]|[=]]; by exists [], post|]. intros (pre & post & E). left. destruct pre; [by exists post|discriminate].
  - rewrite IH. split.
    + intros [[post E]|(pre & post & ->)]; [by exists [], post|by exists (d :: pre), post].
    + intros ([|x pre] & post & E); [left; by exists post|]. injection E as -> ->. right. by exists pre, post.
Qed.

#[export] Instance infix_of_dec (needle data : list byte) : Decision (infix_of needle data).
Proof. refine (cast_if (decide (contains needle data = true))); by rewrite <- contains_spec. Defined.

Lemma count_mentions_spec texts data :
  count_mentions texts data = Z.of_nat (length (filter (fun t => infix_of (bytes_of_string t) data) texts)).
Proof.
  unfold count_mentions. enough (H : forall acc, foldl (fun count text => if mentions data text then count + 1 else count) acc texts =
    acc + Z.of_nat (length (filter (fun t => infix_of (bytes_of_string t) data) texts))) by (rewrite H; lia).
  induction texts as [|t texts IH]; intros acc; cbn [foldl]; [rewrite filter_nil; cbn; lia|]. rewrite IH.
  destruct (mentions data t) eqn:E; unfold mentions in E.
  - apply contains_spec in E. rewrite filter_cons_True by exact E. cbn [length]. lia.
  - rewrite filter_cons_False; [done|]. intros H. apply contains_spec in H. congruence.
Qed.

(** ** Runs of zeros *)

Definition zeros (n : Z) : list byte := replicate (Z.to_nat n) (byte_of 0).

Lemma zero_byte b : (bval b =? 0) = true <-> b = byte_of 0.
Proof.
  rewrite Z.eqb_eq. split; [|by intros ->]. intros H. by rewrite <- (byte_of_bval b), H.
Qed.

Lemma zeros_infix_cons_other n b data : 0 <= n -> b <> byte_of 0 -> infix_of (zeros n) (b :: data) <-> infix_of (zeros n) data.
Proof.
  intros Hn Hb. split.
  - intros ([|x pre] & post & E).
    + unfold zeros in *. destruct (Z.to_nat n) as [|k]; [by exists [], data|]. cbn in E. by injection E as -> _.
    + injection E as -> ->. by exists pre, post.
  - intros (pre & post & ->). by exists (b :: pre), post.
Qed.

(** What the loop knows: the longest run so far in [seen], which ends in [run] zeros. *)
Record zero_state (seen : list byte) (run max : Z) : Prop := {
  zs_run : 0 <= run <= max;
  zs_end : exists pre, seen = pre ++ zeros run;
  zs_start : (exists pre b, seen = pre ++ b :: zeros run /\ b <> byte_of 0) \/ seen = zeros run;
  zs_max : infix_of (zeros max) seen;
  zs_all : forall k, 0 <= k -> infix_of (zeros k) seen -> k <= max;
}.

Lemma zeros_snoc n : 0 <= n -> zeros n ++ [byte_of 0] = zeros (n + 1).
Proof. intros Hn. unfold zeros. rewrite Z2Nat.inj_add by lia. change (Z.to_nat 1) with 1%nat. by rewrite replicate_add. Qed.

Lemma infix_length (l d : list byte) : infix_of l d -> (length l <= length d)%nat.
Proof. intros (pre & post & ->). rewrite !length_app. lia. Qed.

(** A run in a list that ends in a given one is in the list before, or at the end. *)
Lemma infix_snoc (l d : list byte) x : infix_of l (d ++ [x]) -> infix_of l d \/ exists pre, d ++ [x] = pre ++ l.
Proof.
  intros (pre & post & E). destruct post as [|y post] using rev_ind.
  - right. exists pre. by rewrite app_nil_r in E.
  - left. rewrite !app_assoc in E. apply app_inj_tail in E as [E _]. exists pre, post. by rewrite E, app_assoc.
Qed.

Lemma zero_state_zero seen run max : zero_state seen run max ->
  zero_state (seen ++ [byte_of 0]) (run + 1) (if max <? run + 1 then run + 1 else max).
Proof.
  intros [Hr [pre Hend] Hstart Hmax Hall].
  assert (Hin : infix_of (zeros (run + 1)) (seen ++ [byte_of 0])).
  { exists pre, []. rewrite app_nil_r, Hend, <- app_assoc. by rewrite zeros_snoc by lia. }
  split.
  - destruct (Z.ltb_spec max (run + 1)); lia.
  - exists pre. by rewrite Hend, <- app_assoc, zeros_snoc by lia.
  - destruct Hstart as [(pre' & b & -> & Hb) | ->]; [left; exists pre', b; split; [|done]|right; apply zeros_snoc; lia].
    by rewrite <- app_assoc, <- app_comm_cons, zeros_snoc by lia.
  - destruct (Z.ltb_spec max (run + 1)); [exact Hin|]. destruct Hmax as (p & q & ->). exists p, (q ++ [byte_of 0]). by rewrite <- !app_assoc.
  - intros k Hk Hik. apply infix_snoc in Hik as [Hik | [p E]].
    + specialize (Hall k Hk Hik). destruct (Z.ltb_spec max (run + 1)); lia.
    + enough (k <= run + 1) by (destruct (Z.ltb_spec max (run + 1)); lia).
      destruct Hstart as [(pre' & b & -> & Hb) | ->].
      * rewrite <- app_assoc, <- app_comm_cons, zeros_snoc in E by lia.
        destruct (Z.le_gt_cases k (run + 1)) as [|Hgt]; [done|]. exfalso.
        assert (Hz : zeros k = zeros (k - (run + 1) - 1) ++ byte_of 0 :: zeros (run + 1)).
        { unfold zeros. rewrite <- replicate_S, <- replicate_add. f_equal. lia. }
        rewrite Hz, app_assoc in E. apply app_inj_2 in E as [_ E]; [|done]. by injection E.
      * rewrite zeros_snoc in E by lia. apply (f_equal length) in E. rewrite length_app in E. unfold zeros in E.
        rewrite !length_replicate in E. lia.
Qed.

Lemma zero_state_other seen run max b : zero_state seen run max -> b <> byte_of 0 -> zero_state (seen ++ [b]) 0 max.
Proof.
  intros [Hr _ _ Hmax Hall] Hb. split.
  - lia.
  - exists (seen ++ [b]). by rewrite app_nil_r.
  - left. by exists seen, b.
  - destruct Hmax as (p & q & ->). exists p, (q ++ [b]). by rewrite <- !app_assoc.
  - intros k Hk Hik. apply infix_snoc in Hik as [Hik | [p E]]; [by apply Hall|].
    destruct (Z.le_gt_cases k 0) as [|Hgt]; [lia|]. exfalso.
    assert (Hz : zeros k = zeros (k - 1) ++ [byte_of 0]) by (rewrite zeros_snoc by lia; f_equal; lia).
    rewrite Hz, app_assoc in E. apply app_inj_tail in E as [_ E]. done.
Qed.

Lemma longest_zeros_state data : forall seen run max, zero_state seen run max ->
  exists run', zero_state (seen ++ data) run' (longest_zeros data run max).
Proof.
  induction data as [|b data IH]; intros seen run max H; cbn [longest_zeros].
  - exists run. by rewrite app_nil_r.
  - destruct (bval b =? 0) eqn:E.
    + apply zero_byte in E as ->. destruct (IH _ _ _ (zero_state_zero _ _ _ H)) as [run' H']. exists run'. by rewrite <- app_assoc in H'.
    + assert (Hb : b <> byte_of 0) by (intros Hb; apply zero_byte in Hb; congruence).
      destruct (IH _ _ _ (zero_state_other _ _ _ _ H Hb)) as [run' H']. exists run'. by rewrite <- app_assoc in H'.
Qed.

Lemma longest_zeros_spec data : let n := longest_zeros data 0 0 in
  0 <= n /\ infix_of (zeros n) data /\ forall k, 0 <= k -> infix_of (zeros k) data -> k <= n.
Proof.
  assert (H0 : zero_state [] 0 0).
  { split; [lia|by exists []|by right|by exists [], []|]. intros k Hk Hi. apply infix_length in Hi. unfold zeros in Hi.
    rewrite length_replicate in Hi. cbn in Hi. lia. }
  destruct (longest_zeros_state data [] 0 0 H0) as [run [H1 _ _ H4 H5]]. cbv zeta. split_and!; [lia|done|done].
Qed.

(** ** Properties *)

(** The confidence the scanner asks for. *)
Definition alarming (r : HeuristicResult) : bool := dlt (dlit 7 10) (hr_confidence r).

(** How many of the texts stand somewhere among the bytes. *)
Definition occurring (texts : list string) (data : list byte) : nat :=
  length (filter (fun t => infix_of (bytes_of_string t) data) texts).

Definition occurs_in (data : list byte) (text : string) : bool := bool_decide (infix_of (bytes_of_string text) data).

Lemma mentions_occurs data text : mentions data text = occurs_in data text.
Proof. unfold mentions, occurs_in. apply eq_true_iff_eq. by rewrite bool_decide_eq_true, contains_spec. Qed.

Lemma import_confidence (n : nat) : (n <= 8)%nat -> dlt (dlit 7 10) (ddiv (dz (Z.of_nat n)) (dz 8)) = (6 <=? Z.of_nat n).
Proof. intros Hn. do 9 (destruct n as [|n]; [vm_compute; reflexivity|]). lia. Qed.

Lemma debug_confidence (n : nat) : (n <= 6)%nat -> dlt (dlit 7 10) (ddiv (dz (Z.of_nat n)) (dz 6)) = (5 <=? Z.of_nat n).
Proof. intros Hn. do 7 (destruct n as [|n]; [vm_compute; reflexivity|]). lia. Qed.

Lemma occurring_bound texts data : (occurring texts data <= length texts)%nat.
Proof. apply length_filter. Qed.

(** The names of the results of one rule that alarm. *)
Definition alarm_names (r : option HeuristicResult) : list string :=
  match r with Some r => if alarming r then [hr_rule_name r] else [] | None => [] end.

Lemma alarms_of_rules (rules : list (option HeuristicResult)) :
  hr_rule_name <$> filter (fun r => alarming r = true) (omap (fun r => r) rules) = mjoin (alarm_names <$> rules).
Proof.
  induction rules as [|[r|] rules IH]; [reflexivity| |exact IH].
  change (omap (fun r => r) (Some r :: rules)) with (r :: omap (fun r => r) rules).
  change (mjoin (alarm_names <$> Some r :: rules)) with (alarm_names (Some r) ++ mjoin (alarm_names <$> rules)). rewrite <- IH.
  unfold alarm_names. destruct (alarming r) eqn:E.
  - by rewrite filter_cons_True.
  - by rewrite filter_cons_False by congruence.
Qed.

(** of the six rules over a binary, the scanner ever reports four: a packed binary, at
    least six of the eight dangerous functions, at least five of the six functions against
    debuggers, and the classic injection triad, whose names must stand in the bytes.  A code
    cave and a lack of readable strings never reach the confidence it asks for. *)
Theorem heuristics_that_alarm (log2 : double -> double) (format2 : double -> string) (data : list byte) :
  hr_rule_name <$> filter (fun r => alarming r = true) (analyze_binary log2 format2 data) =
    alarm_names (check_packed_binary log2 format2 data) ++
    (if 6 <=? Z.of_nat (occurring dangerous_apis data) then ["suspicious_import_combo"%string] else []) ++
    (if 5 <=? Z.of_nat (occurring anti_dbg data) then ["anti_debug_techniques"%string] else []) ++
    (if (occurs_in data "VirtualAllocEx" || occurs_in data "NtAllocateVirtualMemory") &&
        (occurs_in data "WriteProcessMemory" || occurs_in data "NtWriteVirtualMemory") &&
        (occurs_in data "CreateRemoteThread" || occurs_in data "NtCreateThreadEx" || occurs_in data "QueueUserAPC")
     then ["classic_injection_triad"%string] else []).
Proof.
  unfold analyze_binary. rewrite alarms_of_rules.
  assert (Hcons : forall r l, mjoin (alarm_names <$> r :: l) = alarm_names r ++ mjoin (alarm_names <$> l)) by done.
  rewrite !Hcons. f_equal.
  assert (H1 : alarm_names (check_suspicious_imports data) =
    (if 6 <=? Z.of_nat (occurring dangerous_apis data) then ["suspicious_import_combo"%string] else [])).
  { unfold check_suspicious_imports. rewrite count_mentions_spec. fold (occurring dangerous_apis data).
    pose proof (occurring_bound dangerous_apis data) as Hb. change (length dangerous_apis) with 8%nat in Hb.
    destruct (Z.leb_spec 3 (Z.of_nat (occurring dangerous_apis data))) as [H3|H3].
    - unfold alarm_names, alarming. cbn [hr_confidence hr_rule_name]. by rewrite import_confidence.
    - cbn [alarm_names]. by rewrite (proj2 (Z.leb_gt _ _)) by lia. }
  assert (H2 : alarm_names (check_anti_debug data) =
    (if 5 <=? Z.of_nat (occurring anti_dbg data) then ["anti_debug_techniques"%string] else [])).
  { unfold check_anti_debug. rewrite count_mentions_spec. fold (occurring anti_dbg data).
    pose proof (occurring_bound anti_dbg data) as Hb. change (length anti_dbg) with 6%nat in Hb.
    destruct (Z.leb_spec 3 (Z.of_nat (occurring anti_dbg data))) as [H3|H3].
    - unfold alarm_names, alarming. cbn [hr_confidence hr_rule_name]. by rewrite debug_confidence.
    - cbn [alarm_names]. by rewrite (proj2 (Z.leb_gt _ _)) by lia. }
  assert (H5 : alarm_names (check_code_cave data) = []) by (unfold check_code_cave; destruct (_ <? 512); [done|]; by destruct (_ && _)).
  assert (H4 : alarm_names (check_obfuscated_strings data) = []).
  { unfold check_obfuscated_strings. destruct (_ <? 256); [done|]. destruct (printable_runs _ _ _ _) as [p t]. by destruct (_ && _). }
  rewrite H1, H2, H5, H4. f_equal. cbn [app]. f_equal.
  unfold check_process_injection_api. rewrite !mentions_occurs. by destruct (_ && _ && _).
Qed.

(** the code cave rule measures the longest run of zero bytes exactly: it holds of a
    binary of at least 512 bytes when that run is longer than 4096 bytes and shorter than
    half of it. *)
Theorem code_cave_spec (data : list byte) :
  check_code_cave data <> None <->
  512 <= Z.of_nat (length data) /\
  exists n, 4096 < n < Z.of_nat (length data) / 2 /\ infix_of (zeros n) data /\ forall k, 0 <= k -> infix_of (zeros k) data -> k <= n.
Proof.
  destruct (longest_zeros_spec data) as (H1 & H2 & H3). unfold check_code_cave.
  destruct (Z.ltb_spec (Z.of_nat (length data)) 512) as [Hl|Hl]; [split; [done|lia]|].
  destruct (_ && _) eqn:E.
  - apply andb_true_iff in E as [E1%Z.ltb_lt E2%Z.ltb_lt]. split; [|done]. intros _. split; [lia|].
    exists (longest_zeros data 0 0). by split_and!.
  - split; [done|]. intros (_ & n & Hn & Hin & Hmax). exfalso. apply andb_false_iff in E.
    assert (n <= longest_zeros data 0 0) by (apply H3; [lia|done]). assert (longest_zeros data 0 0 <= n) by (by apply Hmax).
    destruct E as [E%Z.ltb_ge|E%Z.ltb_ge]; lia.
Qed.

(** The run of printable bytes at the end of a binary is not counted: a binary with no other
    readable string is taken for one without. *)
Example trailing_string_not_counted :
  let data := byte_of 65 :: replicate 4100 (byte_of 1) ++ bytes_of_string "this is a readable string" in
  match check_obfuscated_strings data with Some r => hr_rule_name r = "obfuscated_strings"%string | None => False end.
Proof. vm_compute. reflexivity. Qed.
