(* ===== verification/DeepScanner.v ===== *)
(** * DeepScanner: files, memory and scans

    Models src/src/scanner/deep_scanner.cpp and its header: the checks over bytes, the
    verdict over a file and over a region of memory, the walk over directories, and a scan
    with its monitor thread and its workers.  Logarithms, formats and [std::sort] are
    arguments; a level is kept as its byte, because a signature may carry any. *)
From S2P Require Import Prelude Float64 Entropy Asn1 Sha2 Observation Text FileSystem Threat PeHash ArtifactTrust PeStatic SignatureDb Lolbins FilelessAst Heuristics.

Inductive ScanMode := QUICK | DEEP | MEMORY | CUSTOM.

#[export] Instance ScanMode_eq_dec : EqDecision ScanMode.
Proof. solve_decision. Defined.

Record ScanResult := Scanned {
  sr_file_path : string;
  sr_level : Z;
  sr_category : ThreatCategory;
  sr_signature_name : string;
  sr_entropy : double;
  sr_matched_bytes : list byte;
  sr_description : string;
}.

(** ** Checks over bytes *)

Definition check_signature_match (signatures : list Signature) (origin : string) (data : list byte) : mem (option ScanResult) :=
  (let* found := scan (Some data) (Z.of_nat (length data)) signatures in
   Val (match found with
        | Some (sig, offset) =>
            Some (Scanned origin (sg_level sig) (sg_category sig) (sg_name sig) (dz 0)
              (take (Nat.min (length (sg_pattern sig)) 32) (drop (Z.to_nat offset) data)) (sg_description sig))
        | None => None
        end))%mem.

Definition nop : byte := byte_of 0x90.

Fixpoint leading_nops (data : list byte) : nat :=
  match data with b :: data => if bool_decide (b = nop) then S (leading_nops data) else 0%nat | [] => 0%nat end.

Definition control_transfer (b : byte) : bool :=
  existsb (Z.eqb (bval b)) [0xCC; 0xEB; 0xE8; 0xE9; 0x68; 0x31].

(** The loop over positions: the offset and the length of the sled that control leaves; the
    bytes from position [i] on are [data].  Each turn drops a byte, so one unit of fuel for
    each is enough. *)
Fixpoint sled_loop (fuel : nat) (i : Z) (data : list byte) : option (Z * Z) :=
  match fuel with
  | O => None
  | S fuel =>
      if Nat.ltb (length data) 32 then None
      else if Nat.leb 32 (leading_nops data) then
        let sled := leading_nops data in
        let rest := drop sled data in
        match rest with
        | next :: after =>
            if Nat.ltb 4 (length rest) && control_transfer next then Some (i, Z.of_nat sled)
            else sled_loop fuel (i + Z.of_nat sled + 1) after
        | [] => None
        end
      else sled_loop fuel (i + 1) (drop 1 data)
  end.

Definition check_shellcode_patterns (origin : string) (data : list byte) : option ScanResult :=
  match sled_loop (S (length data)) 0 data with
  | Some (i, sled) =>
      Some (Scanned origin (level_value CRITICAL) SHELLCODE EmptyString (dz 0) []
        ("NOP sled (" +:+ print_int sled +:+ " bytes) followed by control transfer at offset " +:+ print_int i))
  | None => None
  end.

Section scanner.
Context (log2 : double -> double) (format2 format3 : double -> string) (signatures : list Signature).

Definition check_entropy_anomaly (origin : string) (data : list byte) : option ScanResult :=
  let ent := shannon_entropy log2 data in
  if dlt (dlit 78 10) ent && (4096 <? Z.of_nat (length data)) then
    Some (Scanned origin (level_value HIGH) ENTROPY_ANOMALY EmptyString ent []
      ("Extremely high entropy (" +:+ format3 ent +:+ ") " +:+ em_dash +:+ " packed/encrypted"))
  else None.

(** What a report of the static analysis of at least MEDIUM makes of the result. *)
Definition pe_result (origin : string) (report : PeAnalysisReport) : ScanResult :=
  let of_report := Scanned origin (level_value (assessed_level report)) in
  let no_packer := empty_string (detected_packer report) in
  if is_packed report then
    of_report MALWARE_PACKER ("PE.Packer." +:+ (if no_packer then "Generic" else detected_packer report)) (overall_entropy report) []
      ("Packed/Obfuscated PE binary (" +:+ (if no_packer then "High Entropy" else detected_packer report) +:+ ")")
  else if 100 <=? dangerous_api_score report then
    of_report MEMORY_INJECTION "PE.DangerousAPIs" (overall_entropy report) []
      ("PE with dangerous API cluster (Score: " +:+ print_int (dangerous_api_score report) +:+ ")")
  else
    of_report SUSPICIOUS_BINARY "PE.Anomaly" (overall_entropy report) []
      (match threat_reasons report with reason :: _ => reason | [] => "PE static structural anomaly" end)%string.

Definition heuristic_result (origin : string) (r : HeuristicResult) : ScanResult :=
  Scanned origin (level_value (hr_level r)) (hr_category r) EmptyString (dz 0) [] (hr_description r).

Definition check_pe_header (origin : string) (bytes : list byte) : mem (option ScanResult) :=
  let data := Some bytes in
  let size := Z.of_nat (length bytes) in
  if size <? 64 then Val None
  else
    (let* m := rd data 0 in
     let* z := rd data 1 in
     if negb (bval m =? 77) || negb (bval z =? 90) then Val None
     else
       let* pe_offset := read_u32 data 60 in
       if size <? pe_offset + 8 then Val None
       else
         let* p := rd data pe_offset in
         let* e := rd data (pe_offset + 1) in
         if negb (bval p =? 80) || negb (bval e =? 69) then Val None
         else
           let* num_sections := read_u16 data (pe_offset + 6) in
           if 96 <? num_sections then
             Val (Some (Scanned origin (level_value MEDIUM) SUSPICIOUS_BINARY EmptyString (dz 0) []
               ("PE with abnormal section count: " +:+ print_int num_sections)))
           else
             let* report := analyze_buffer log2 data size in
             if is_valid_pe report && (level_value MEDIUM <=? level_value (assessed_level report))
             then Val (Some (pe_result origin report))
             else
               Val (heuristic_result origin <$> head (filter (fun r => alarming r = true) (analyze_binary log2 format2 bytes))))%mem.

Definition check_elf_header (origin : string) (data : list byte) : option ScanResult :=
  if Z.of_nat (length data) <? 16 then None
  else if negb (starts_with (byte_of <$> [0x7F; 0x45; 0x4C; 0x46]) data) then None
  else if dlt (dlit 75 10) (shannon_entropy log2 (take 4096 data)) then
    Some (Scanned origin (level_value MEDIUM) SUSPICIOUS_BINARY EmptyString (dz 0) [] "ELF binary with high entropy header section")
  else None.

(** ** Memory and files *)

Definition scan_buffer (origin : string) (data : list byte) : mem (option ScanResult) :=
  (let* sig_res := check_signature_match signatures origin data in
   Val (match sig_res with
        | Some r => Some r
        | None => match check_shellcode_patterns origin data with Some r => Some r | None => check_entropy_anomaly origin data end
        end))%mem.

Definition lower_extension (path : string) : string := to_lower_ascii (extension path).

Definition script_extension (ext : string) : bool :=
  bool_decide (ext ∈ [".ps1"; ".vbs"; ".js"; ".bat"; ".cmd"; ".hta"]%string).

(** The result of a shortcut or a script.  The engines of the scanner are never started, so
    they report nothing themselves. *)
Definition check_by_extension (path : string) (data : list byte) (lnk : option (list byte)) (now : Z) : option ScanResult :=
  let ext := lower_extension path in
  if String.eqb ext ".lnk" then
    let '(_, found, le, _) := inspect_lnk_file (Lol false 0 0) lnk no_execution now in
    if found && le_is_malicious le then
      Some (Scanned path (level_value (le_severity le)) LOLBIN_EXECUTION "LNK.Weaponized" (dz 0) []
        ("Weaponized LNK shortcut: " +:+ le_reason le))
    else None
  else if script_extension ext then
    let '(_, fe, _) := evaluate_script (Fileless false 0 0) (string_of_bytes data) now in
    if fe_is_malicious fe then
      Some (Scanned path (level_value (fe_severity fe)) PERSISTENCE_HIJACK "Script.ObfuscatedAST" (dz 0) []
        ("Malicious fileless script: " +:+ fe_reason fe))
    else None
  else None.

(** The checks that follow when nothing was found yet. *)
Definition check_content (path : string) (data : list byte) : mem (option ScanResult) :=
  match check_shellcode_patterns path data with
  | Some r => Val (Some r)
  | None =>
      (let* pe := check_pe_header path data in
       Val (match pe with
            | Some r => Some r
            | None => match check_elf_header path data with Some r => Some r | None => check_entropy_anomaly path data end
            end))%mem
  end.

(** The verdict over a file; [lnk] is what a second stream reads of a shortcut. *)
Definition file_verdict (path : string) (data : list byte) (lnk : option (list byte)) (now : Z) : mem (option ScanResult) :=
  (let* sig_res := check_signature_match signatures path data in
   match sig_res with
   | Some r => Val (Some r)
   | None =>
       match check_by_extension path data lnk now with
       | Some r => Val (Some r)
       | None => check_content path data
       end
   end)%mem.

Definition MAX_SCAN_BYTES : Z := 256 * 1024 * 1024.

(** Whether the trust engine inspects the file. *)
Definition executable_name (path : string) : bool :=
  bool_decide (lower_extension path ∈ [".exe"; ".dll"; ".sys"]%string).

(** [std::vector<uint8_t> data(sz)] and a read into it. *)
Definition read_into (sz : Z) (content : list byte) : list byte :=
  let got := take (Z.to_nat sz) content in got ++ replicate (Z.to_nat sz - length got) (byte_of 0).

(** A file: its result when it is a threat, and what the trust engine observed; both
    callbacks are set. *)
Definition scan_file (sort : (SectionRange -> SectionRange -> bool) -> list SectionRange -> list SectionRange) (mode : ScanMode) (path : string) (now : Z) :
    io (mem (option ScanResult * list SecurityObservation)) :=
  (let* size := file_size path in
   match size with
   | None => io_ret (Val (None, []))
   | Some sz =>
       if (sz =? 0) || (MAX_SCAN_BYTES <? sz) then io_ret (Val (None, []))
       else
         let* input := read_file path in
         match input with
         | None => io_ret (Val (None, []))
         | Some content =>
             let data := read_into sz content in
             let unknown := match check_signature_match signatures path data with Val None => true | _ => false end in
         let* lnk := (if unknown && String.eqb (lower_extension path) ".lnk" then read_file path else io_ret None) in
             match file_verdict path data lnk now with
             | OOB => io_ret OOB
             | Val result =>
                 if bool_decide (mode ∈ [QUICK; CUSTOM]) && executable_name path then
                   let* observations := inspect log2 sort now path in
                   match observations with
                   | OOB => io_ret OOB
                   | Val observations => io_ret (Val (result, observations))
                   end
                 else io_ret (Val (result, []))
             end
         end
   end)%io.
End scanner.

(** ** NOP sleds *)

(** A run of at least 32 NOPs, not a part of a longer one, that a control transfer with four
    more bytes behind it follows: its offset and its length. *)
Definition sled_at (data : list byte) (i n : Z) : Prop :=
  32 <= n /\
  exists pre next after, data = pre ++ replicate (Z.to_nat n) nop ++ next :: after /\ i = Z.of_nat (length pre) /\
    last pre <> Some nop /\ control_transfer next = true /\ (4 <= length after)%nat.

Lemma leading_nops_split data : exists rest, data = replicate (leading_nops data) nop ++ rest /\ head rest <> Some nop.
Proof.
  induction data as [|b data (rest & E & H)]; [by exists []|]. cbn [leading_nops]. case_bool_decide as Hb.
  - subst b. exists rest. split; [|exact H]. cbn [replicate app]. by f_equal.
  - exists (b :: data). split; [done|]. cbn. congruence.
Qed.

Lemma leading_nops_app n next after : next <> nop -> leading_nops (replicate n nop ++ next :: after) = n.
Proof.
  intros H. induction n as [|n IH]; cbn [replicate app leading_nops].
  - by rewrite bool_decide_eq_false_2.
  - by rewrite bool_decide_eq_true_2, IH.
Qed.

Lemma control_not_nop next : control_transfer next = true -> next <> nop.
Proof. intros H ->. vm_compute in H. discriminate. Qed.

(** A sled in a list with one byte more in front. *)
Lemma sled_at_cons b data i n : sled_at (b :: data) i n ->
  (i = 0 /\ exists next after, b :: data = replicate (Z.to_nat n) nop ++ next :: after /\ control_transfer next = true /\ (4 <= length after)%nat) \/
  sled_at data (i - 1) n.
Proof.
  intros (Hn & pre & next & after & E & -> & Hp & Hc & Ha). destruct pre as [|x pre].
  - left. split; [done|]. by exists next, after.
  - right. split; [done|]. injection E as -> ->. exists pre, next, after. split_and!; try done; [cbn [length]; lia|].
    intros Hl. apply Hp. destruct pre; [discriminate|exact Hl].
Qed.

(** A sled behind the NOPs in front starts behind the byte that ends them. *)
Lemma sled_behind k x data i n : x <> nop -> sled_at (replicate k nop ++ x :: data) i n ->
  (i = 0 /\ n = Z.of_nat k /\ control_transfer x = true /\ (4 <= length data)%nat) \/ sled_at data (i - Z.of_nat k - 1) n.
Proof.
  intros Hx (Hn & pre & next & after & E & -> & Hp & Hc & Ha). pose proof (control_not_nop _ Hc) as Hnext.
  assert (Hcase : pre = [] \/ exists pre', pre = replicate k nop ++ x :: pre').
  { destruct pre as [|y pre] using rev_ind; [by left|]. right. clear IHpre. rewrite last_snoc in Hp.
    assert (Hy : y <> nop) by congruence. rewrite <- app_assoc in E. cbn [app] in E.
    assert (Hk : (k <= length pre)%nat).
    { destruct (Nat.le_gt_cases k (length pre)) as [|Hlt]; [done|]. exfalso.
      assert (Hlook : (replicate k nop ++ x :: data) !! length pre = Some nop) by (rewrite lookup_app_l, lookup_replicate by (rewrite ?length_replicate; lia); split; [done|lia]).
      rewrite E, lookup_app_r, Nat.sub_diag in Hlook by lia. by injection Hlook. }
    destruct (Nat.eq_dec k (length pre)) as [->|Hne].
    - apply app_inj_1 in E as [E1 E2]; [|by rewrite length_replicate]. injection E2 as -> _. exists []. by rewrite E1.
    - assert (E' : pre ++ y :: replicate (Z.to_nat n) nop ++ next :: after =
        take k pre ++ (drop k pre ++ y :: replicate (Z.to_nat n) nop ++ next :: after)) by (by rewrite app_assoc, take_drop).
      rewrite E' in E. apply app_inj_1 in E as [E1 E2]; [|rewrite length_replicate, length_take; lia].
      destruct (drop k pre) as [|z rest] eqn:Ed; [exfalso; apply (f_equal length) in Ed; rewrite length_drop in Ed; cbn in Ed; lia|].
      injection E2 as -> _. exists (rest ++ [y]). rewrite <- (take_drop k pre), Ed, E1, <- app_assoc. done. }
  destruct Hcase as [-> | [pre' ->]].
  - left. cbn [app] in E. pose proof (f_equal leading_nops E) as El. rewrite !leading_nops_app in El by assumption.
    subst k. apply app_inj_1 in E as [_ E]; [|done]. injection E as -> ->. split_and!; try done. lia.
  - right. rewrite <- app_assoc in E. apply app_inv_head in E. cbn [app] in E. injection E as E. split; [done|].
    exists pre', next, after. split_and!; try done.
    + rewrite length_app, length_replicate. cbn [length]. lia.
    + intros Hl. apply Hp. rewrite last_app_cons. destruct pre'; [discriminate|exact Hl].
Qed.

Lemma leading_nops_long n rest : (n <= leading_nops (replicate n nop ++ rest))%nat.
Proof. induction n as [|n IH]; [lia|]. cbn [replicate app leading_nops]. rewrite bool_decide_eq_true_2 by done. lia. Qed.

(** Without 32 NOPs in front, the first byte plays no part. *)
Lemma sled_tail b data i n : (leading_nops (b :: data) < 32)%nat -> sled_at (b :: data) i n <-> sled_at data (i - 1) n.
Proof.
  intros Hl. split.
  - intros H. apply sled_at_cons in H as H'. destruct H' as [(-> & next & after & E & _)|H']; [|exact H']. exfalso.
    destruct H as [Hn _]. pose proof (leading_nops_long (Z.to_nat n) (next :: after)) as Hk. rewrite <- E in Hk. lia.
  - intros (Hn & pre & next & after & -> & Hi & Hp & Hc & Ha). split; [done|]. exists (b :: pre), next, after.
    split_and!; try done; [cbn [length]; lia|]. destruct pre as [|x pre]; [|exact Hp]. cbn. intros Eb. injection Eb as ->.
    pose proof (leading_nops_long (S (Z.to_nat n)) (next :: after)) as Hk.
    change (replicate (S (Z.to_nat n)) nop ++ next :: after) with (nop :: replicate (Z.to_nat n) nop ++ next :: after) in Hk.
    cbn [app] in Hl. lia.
Qed.

Lemma no_sled_in_nops k i n : ~ sled_at (replicate k nop) i n.
Proof.
  intros (_ & pre & next & after & E & _ & _ & Hc & _). apply (control_not_nop _ Hc).
  assert (Hin : next ∈ replicate k nop) by (rewrite E; rewrite !elem_of_app, elem_of_cons; auto).
  by apply elem_of_replicate in Hin as [-> _].
Qed.

Lemma sled_front k x data : (32 <= k)%nat -> control_transfer x = true -> (4 <= length data)%nat ->
  sled_at (replicate k nop ++ x :: data) 0 (Z.of_nat k).
Proof.
  intros Hk Hc Ha. split; [lia|]. exists [], x, data. rewrite Nat2Z.id. by split_and!.
Qed.

Lemma sled_after k x data i n : x <> nop -> sled_at data i n -> sled_at (replicate k nop ++ x :: data) (i + Z.of_nat k + 1) n.
Proof.
  intros Hx (Hn & pre & next & after & -> & -> & Hp & Hc & Ha). split; [done|].
  exists (replicate k nop ++ x :: pre), next, after. split_and!; try done.
  - by rewrite <- app_assoc.
  - rewrite length_app, length_replicate. cbn [length]. lia.
  - rewrite last_app_cons. destruct pre as [|y pre]; [|exact Hp]. cbn. congruence.
Qed.

Lemma sled_nonneg data i n : sled_at data i n -> 0 <= i.
Proof. intros (_ & pre & ? & ? & _ & -> & _). lia. Qed.

Lemma sled_short data i n : (length data < 32)%nat -> ~ sled_at data i n.
Proof.
  intros Hl (Hn & pre & next & after & -> & _). rewrite !length_app, length_replicate in Hl. cbn [length] in Hl. lia.
Qed.

Lemma sled_loop_spec fuel : forall i data, (length data < fuel)%nat ->
  match sled_loop fuel i data with
  | Some (j, n) => sled_at data (j - i) n /\ forall j' n', sled_at data j' n' -> j - i <= j'
  | None => forall j n, ~ sled_at data j n
  end.
Proof.
  induction fuel as [|fuel IH]; intros i data Hf; [lia|]. cbn [sled_loop].
  destruct (Nat.ltb_spec (length data) 32) as [Hs|Hs]; [intros j n; by apply sled_short|].
  destruct (Nat.leb_spec 32 (leading_nops data)) as [Hk|Hk].
  - destruct (leading_nops_split data) as (rest & E & Hh). set (k := leading_nops data) in *. clearbody k.
    assert (Ed : drop k data = rest) by (rewrite E, drop_app_length'; [done|by rewrite length_replicate]). rewrite Ed.
    destruct rest as [|x after]; [intros j n; rewrite E, app_nil_r; apply no_sled_in_nops|].
    assert (Hx : x <> nop) by (cbn in Hh; congruence). subst data.
    destruct (Nat.ltb 4 (length (x :: after)) && control_transfer x) eqn:Ec.
    + apply andb_true_iff in Ec as [Hl%Nat.ltb_lt Hc]. cbn [length] in Hl. rewrite Z.sub_diag.
      split; [by apply sled_front; [|done|lia]|]. intros j' n' H'. by apply sled_nonneg in H'.
    + assert (Hback : forall j n, sled_at (replicate k nop ++ x :: after) j n -> sled_at after (j - Z.of_nat k - 1) n).
      { intros j n H. apply sled_behind in H as [(_ & _ & Hc & Ha)|H]; [|exact H|exact Hx]. exfalso.
        apply andb_false_iff in Ec as [Ec%Nat.ltb_ge|Ec]; [cbn [length] in Ec; lia|congruence]. }
      rewrite length_app, length_replicate in Hf. cbn [length] in Hf. specialize (IH (i + Z.of_nat k + 1) after ltac:(lia)).
      destruct (sled_loop fuel (i + Z.of_nat k + 1) after) as [[j n]|].
      * destruct IH as [H1 H2]. split.
        -- replace (j - i) with (j - (i + Z.of_nat k + 1) + Z.of_nat k + 1) by lia. by apply sled_after.
        -- intros j' n' H'. apply Hback, H2 in H'. lia.
      * intros j n H. apply Hback in H. by apply IH in H.
  - destruct data as [|b data]; [cbn in Hs; lia|]. change (drop 1 (b :: data)) with data. cbn [length] in Hf.
    pose proof (IH (i + 1) data ltac:(lia)) as IH'. clear IH. destruct (sled_loop fuel (i + 1) data) as [[j n]|].
    + destruct IH' as [H1 H2]. split.
      * apply sled_tail; [exact Hk|]. by replace (j - i - 1) with (j - (i + 1)) by lia.
      * intros j' n' H'. apply sled_tail in H'; [|exact Hk]. apply H2 in H'. lia.
    + intros j n H. apply sled_tail in H; [|exact Hk]. by apply IH' in H.
Qed.

(** ** Files *)

Lemma scan_total d sigs : exists r, scan (Some d) (Z.of_nat (length d)) sigs = Val r /\ match r with Some (sig, _) => In sig sigs | None => True end.
Proof.
  induction sigs as [|sig sigs (r & E & Hr)]; cbn [scan]; [by exists None|].
  destruct (scan_signature_spec d sig) as ([i|] & -> & _); cbn [mem_bind].
  - exists (Some (sig, i)). split; [done|by left].
  - exists r. split; [exact E|]. destruct r as [[sig' i]|]; [by right|done].
Qed.

(** What every result of a check but the signatures' promises. *)
Definition serious (origin : string) (r : ScanResult) : Prop := sr_file_path r = origin /\ level_value MEDIUM <= sr_level r.

Definition opt_all {A} (P : A -> Prop) (o : option A) : Prop := match o with Some a => P a | None => True end.

Lemma shellcode_serious origin data : opt_all (serious origin) (check_shellcode_patterns origin data).
Proof. unfold check_shellcode_patterns. destruct (sled_loop _ _ _) as [[i n]|]; [|done]. split; [done|cbn; lia]. Qed.

Section verdicts.
Context (log2 : double -> double) (format2 format3 : double -> string) (signatures : list Signature).

Lemma entropy_serious origin data : opt_all (serious origin) (check_entropy_anomaly log2 format3 origin data).
Proof. unfold check_entropy_anomaly. destruct (_ && _); [|done]. split; [done|cbn; lia]. Qed.

Lemma elf_serious origin data : opt_all (serious origin) (check_elf_header log2 origin data).
Proof.
  unfold check_elf_header. destruct (_ <? 16); [done|]. destruct (negb _); [done|]. destruct (dlt _ _); [|done]. split; [done|cbn; lia].
Qed.

Lemma heuristic_level data r : r ∈ analyze_binary log2 format2 data -> alarming r = true -> level_value MEDIUM <= level_value (hr_level r).
Proof.
  intros Hin Ha. unfold analyze_binary in Hin. apply list_elem_of_omap in Hin as (o & Ho & Hr). subst o.
  unfold check_packed_binary, check_suspicious_imports, check_code_cave, check_anti_debug, check_obfuscated_strings, check_process_injection_api in Ho.
  rewrite !elem_of_cons in Ho. destruct Ho as [Ho | [Ho | [Ho | [Ho | [Ho | [Ho | Ho]]]]]]; [| | | | | |by apply elem_of_nil in Ho].
  - destruct (_ <? 1024); [discriminate|]. destruct (_ =? 0); [discriminate|]. destruct (dlt _ _); [|discriminate]. injection Ho as ->. cbn. lia.
  - destruct (3 <=? _); [|discriminate]. injection Ho as ->. cbn. lia.
  - destruct (_ <? 512); [discriminate|]. destruct (_ && _); [|discriminate]. injection Ho as ->. vm_compute in Ha. discriminate.
  - destruct (3 <=? _); [|discriminate]. injection Ho as ->. cbn. lia.
  - destruct (_ <? 256); [discriminate|]. destruct (printable_runs _ _ _ _) as [p t]. destruct (_ && _); [|discriminate]. injection Ho as ->. cbn. lia.
  - destruct (_ && _); [|discriminate]. injection Ho as ->. cbn. lia.
Qed.

Lemma report_level_medium origin report : level_value MEDIUM <= level_value (assessed_level report) -> serious origin (pe_result origin report).
Proof. intros H. unfold pe_result. destruct (is_packed report); [|destruct (100 <=? _)]; split; done. Qed.

Lemma pe_serious origin bytes : safe (check_pe_header log2 format2 origin bytes) (opt_all (serious origin)).
Proof.
  unfold check_pe_header. remember (Z.of_nat (length bytes)) as size eqn:Hsize. destruct (Z.ltb_spec size 64) as [|H64]; [done|].
  eapply safe_bind; [apply rd_safe; lia|]. intros m _. eapply safe_bind; [apply rd_safe; lia|]. intros z _.
  destruct (_ || _); [done|].
  eapply safe_bind; [apply (read_u32_safe bytes size); lia|]. intros pe Hpe. cbv beta in Hpe.
  destruct (Z.ltb_spec size (pe + 8)) as [|Hsz]; [done|].
  eapply safe_bind; [apply rd_safe; lia|]. intros p _. eapply safe_bind; [apply rd_safe; lia|]. intros e _.
  destruct (_ || _); [done|].
  eapply safe_bind; [apply (read_u16_safe bytes size); lia|]. intros num _.
  destruct (96 <? num); [split; [done|cbn; lia]|].
  eapply safe_bind; [apply (analyze_buffer_safe log2 bytes size); lia|]. intros report _.
  destruct (is_valid_pe report && _) eqn:Er.
  - apply andb_true_iff in Er as [_ Hl%Z.leb_le]. by apply report_level_medium.
  - cbn [safe]. destruct (filter _ _) as [|r rs] eqn:Ef; [done|]. cbn [head fmap option_fmap option_map opt_all].
    assert (Hin : r ∈ filter (fun r => alarming r = true) (analyze_binary log2 format2 bytes)) by (rewrite Ef; left).
    apply list_elem_of_filter in Hin as [Ha Hin]. split; [done|]. by apply (heuristic_level bytes).
Qed.

Lemma content_serious path data : safe (check_content log2 format2 format3 path data) (opt_all (serious path)).
Proof.
  unfold check_content. pose proof (shellcode_serious path data) as Hs. destruct (check_shellcode_patterns path data); [exact Hs|].
  eapply safe_bind; [apply pe_serious|]. intros pe Hpe. cbn [safe]. destruct pe; [exact Hpe|].
  pose proof (elf_serious path data) as He. destruct (check_elf_header log2 path data); [exact He|]. apply entropy_serious.
Qed.

Lemma extension_serious path data lnk now : opt_all (serious path) (check_by_extension path data lnk now).
Proof.
  unfold check_by_extension. destruct (String.eqb _ _).
  - unfold inspect_lnk_file. destruct lnk as [buf|]; [|done]. destruct (_ || _); [done|].
    pose proof (lnk_loop_spec suspicious_bins (to_lower_ascii (lnk_text buf)) (lnk_text buf) now (Lol false 0 0) no_execution) as H.
    destruct (lnk_loop _ _ _ _ _ _) as [[[st' found] le] outs]. destruct H as (_ & H & _). destruct found; [|done]. cbn [andb].
    destruct (H eq_refl) as (x & _ & _ & -> & Hl). split; [done|]. cbn [sr_level]. destruct Hl as [-> | ->]; cbn; lia.
  - destruct (script_extension _); [|done]. pose proof (evaluate_script_spec (Fileless false 0 0) (string_of_bytes data) now) as H.
    destruct (evaluate_script _ _ _) as [[st' fe] out]. destruct H as [-> _].
    pose proof (malicious_severity (string_of_bytes data)) as Hl. destruct (fe_is_malicious (judge_script _)); [|done].
    split; [done|]. cbn [sr_level]. destruct (Hl eq_refl) as [-> | ->]; cbn; lia.
Qed.
End verdicts.

(** The checks one after the other give the first result there is. *)
Lemma first_serious path (a b c e f : option ScanResult) :
  opt_all (serious path) a -> opt_all (serious path) b -> opt_all (serious path) c -> opt_all (serious path) e ->
  opt_all (serious path) f ->
  exists r,
    match a with
    | Some r => Val (Some r)
    | None =>
        match b with
        | Some r => Val (Some r)
        | None => Val (match c with Some r => Some r | None => match e with Some r => Some r | None => f end end)
        end
    end = Val r /\
    r = head (omap (fun o => o) [None; a; b; c; e; f]) /\
    match r with Some r => sr_file_path r = path /\ ((None : option ScanResult) = None -> level_value MEDIUM <= sr_level r) | None => True end.
Proof.
  intros Ha Hb Hc He Hf. exists (head (omap (fun o => o) [a; b; c; e; f])).
  destruct a as [r|]; [by destruct Ha|]. destruct b as [r|]; [by destruct Hb|]. destruct c as [r|]; [by destruct Hc|].
  destruct e as [r|]; [by destruct He|]. destruct f as [r|]; [by destruct Hf|done].
Qed.

(** ** Properties *)

(** C25: a verdict over any bytes of any file reads in bounds, and the order of the checks is
    that of the code: a signature first, then the shortcut or script its extension tells,
    then NOP sleds, the PE header, the ELF header and the entropy.  A result bears the path
    of the file, and one that no signature gives has a level of at least MEDIUM. *)
Theorem file_verdict_in_order (log2 : double -> double) (format2 format3 : double -> string) (signatures : list Signature)
    (path : string) (data : list byte) (lnk : option (list byte)) (now : Z) :
  exists sig pe r,
    check_signature_match signatures path data = Val sig /\ check_pe_header log2 format2 path data = Val pe /\
    file_verdict log2 format2 format3 signatures path data lnk now = Val r /\
    r = head (omap (fun o => o) [sig; check_by_extension path data lnk now; check_shellcode_patterns path data; pe;
                                 check_elf_header log2 path data; check_entropy_anomaly log2 format3 path data]) /\
    match r with
    | Some r => sr_file_path r = path /\ (sig = None -> level_value MEDIUM <= sr_level r)
    | None => True
    end.
Proof.
  destruct (scan_total data signatures) as (found & Hscan & _).
  destruct (safe_inv _ _ (pe_serious log2 format2 path data)) as (pe & Hpe & Hpes).
  unfold file_verdict, check_signature_match. rewrite Hscan. cbn [mem_bind].
  destruct found as [[sig offset]|]; [by eexists _, pe, _|]. cbn [mem_bind].
  exists None, pe. unfold check_content. rewrite Hpe. cbn [mem_bind].
  pose proof (extension_serious path data lnk now) as H1. pose proof (shellcode_serious path data) as H2.
  pose proof (elf_serious log2 path data) as H3. pose proof (entropy_serious log2 format3 path data) as H4.
  destruct (first_serious path (check_by_extension path data lnk now) (check_shellcode_patterns path data) pe
    (check_elf_header log2 path data) (check_entropy_anomaly log2 format3 path data) H1 H2 Hpes H3 H4) as (r & Hr & Hf & Hok).
  exists r. split; [reflexivity|]. split; [reflexivity|]. split; [exact Hr|]. split; [exact Hf|exact Hok].
Qed.

(** the search for shellcode finds a sled exactly when there is one: a run of at least 32
    NOPs, not part of a longer one, that a control transfer with four more bytes behind it
    follows; it reports the first. *)
Theorem sleds_found (origin : string) (data : list byte) :
  match check_shellcode_patterns origin data with
  | Some r =>
      exists i n, sled_at data i n /\ (forall j m, sled_at data j m -> i <= j) /\
        r = Scanned origin (level_value CRITICAL) SHELLCODE EmptyString (dz 0) []
              ("NOP sled (" +:+ print_int n +:+ " bytes) followed by control transfer at offset " +:+ print_int i)
  | None => forall i n, ~ sled_at data i n
  end.
Proof.
  pose proof (sled_loop_spec (S (length data)) 0 data ltac:(lia)) as H. unfold check_shellcode_patterns.
  destruct (sled_loop (S (length data)) 0 data) as [[i n]|]; [|exact H].
  exists i, n. rewrite Z.sub_0_r in H. destruct H as [H1 H2]. by split_and!.
Qed.

(** ** The walk over directories *)

(** What stands in a directory: a file with its size ([None] when it cannot be told), a
    directory with the entries its iterator reads, one that does not open, a symbolic link,
    or something else. *)
Inductive entry :=
| EFile (size : option Z)
| EDir (children : entries)
| EClosed
| ELink
| EOther
with entries :=
| ENil
| ECons (name : string) (e : entry) (rest : entries).

(** The answers of [cancel_.load()], false when none is left. *)
Definition next_cancel (cancels : list bool) : bool * list bool :=
  match cancels with [] => (false, []) | c :: cancels => (c, cancels) end.

Definition wanted (size : option Z) : bool :=
  match size with Some sz => negb (sz =? 0) && (sz <=? MAX_SCAN_BYTES) | None => false end.

Definition full (max_files : Z) (out : list string) : bool := max_files <=? Z.of_nat (length out).

(** The loop over one directory: the paths and the stack behind it, and whether the whole
    walk returns. *)
Fixpoint read_directory (max_files : Z) (dir : string) (children : entries) (cancels : list bool)
    (out : list string) (stack : list (string * option entries)) :
    list string * list (string * option entries) * bool * list bool :=
  match children with
  | ENil => (out, stack, false, cancels)
  | ECons name e children =>
      let '(cancelled, cancels) := next_cancel cancels in
      if cancelled || full max_files out then (out, stack, true, cancels)
      else
        let path := slash_join dir name in
        match e with
        | ELink | EOther => read_directory max_files dir children cancels out stack
        | EDir sub => read_directory max_files dir children cancels out ((path, Some sub) :: stack)
        | EClosed => read_directory max_files dir children cancels out ((path, None) :: stack)
        | EFile size =>
            read_directory max_files dir children cancels (if wanted size then out ++ [path] else out) stack
        end
  end.

(** The loop over the stack; one unit of fuel for each directory is enough. *)
Fixpoint walk (fuel : nat) (max_files : Z) (cancels : list bool) (stack : list (string * option entries))
    (out : list string) : list string :=
  match fuel, stack with
  | S fuel, (dir, listing) :: stack =>
      let '(cancelled, cancels) := next_cancel cancels in
      if cancelled || full max_files out then out
      else
        match listing with
        | None => walk fuel max_files cancels stack out
        | Some children =>
            let '(out, stack, stopped, cancels) := read_directory max_files dir children cancels out stack in
            if stopped then out else walk fuel max_files cancels stack out
        end
  | _, _ => out
  end.

(** The number of directories, itself included. *)
Fixpoint directories (e : entry) : nat :=
  match e with EDir children => S (directories_in children) | EClosed => 1%nat | _ => 0%nat end
with directories_in (children : entries) : nat :=
  match children with ENil => 0%nat | ECons _ e rest => (directories e + directories_in rest)%nat end.

(** [root] is what the root path leads to, [None] when nothing is there. *)
Definition enumerate_files (root : string) (what : option entry) (cancels : list bool) (out : list string) (max_files : Z) : list string :=
  match what with
  | None => out
  | Some (EFile _) => out ++ [root]
  | Some e =>
      if full max_files out then out
      else match e with
           | EDir listing => walk (directories e) max_files cancels [(root, Some listing)] out
           | _ => out
           end
  end.

(** ** What a walk finds *)

(** The files of a directory itself. *)
Fixpoint direct_files (dir : string) (children : entries) : list string :=
  match children with
  | ENil => []
  | ECons name (EFile size) rest => (if wanted size then [slash_join dir name] else []) ++ direct_files dir rest
  | ECons _ _ rest => direct_files dir rest
  end.

(** The files below: first its own, then those of its directories, the last one first. *)
Fixpoint tree_files (dir : string) (e : entry) : list string :=
  match e with EDir children => direct_files dir children ++ sub_files dir children | _ => [] end
with sub_files (dir : string) (children : entries) : list string :=
  match children with
  | ENil => []
  | ECons name e rest => sub_files dir rest ++ tree_files (slash_join dir name) e
  end.

Definition listing_files (x : string * option entries) : list string :=
  match snd x with Some children => tree_files (fst x) (EDir children) | None => [] end.

Fixpoint stack_files (stack : list (string * option entries)) : list string :=
  match stack with [] => [] | x :: stack => listing_files x ++ stack_files stack end.

Definition listing_size (x : string * option entries) : nat :=
  match snd x with Some children => S (directories_in children) | None => 1%nat end.

Fixpoint stack_size (stack : list (string * option entries)) : nat :=
  match stack with [] => 0%nat | x :: stack => (listing_size x + stack_size stack)%nat end.

Section walks.
Context (max_files : Z).
Let M : nat := Z.to_nat max_files.

Lemma not_full out : 0 <= max_files -> full max_files out = false <-> (length out < M)%nat.
Proof. intros Hm. unfold full, M. rewrite Z.leb_gt. lia. Qed.

(** One directory: it is read to its end, or the walk stops at a prefix. *)
Lemma read_directory_spec dir children : 0 <= max_files -> forall cancels out stack, (length out <= M)%nat ->
  let '(out', stack', stopped, cancels') := read_directory max_files dir children cancels out stack in
  (length out' <= M)%nat /\ (cancels = [] -> cancels' = []) /\
  if stopped then out' `prefix_of` (out ++ direct_files dir children) /\ (cancels = [] -> length out' = M)
  else out' = out ++ direct_files dir children /\ stack_files stack' = sub_files dir children ++ stack_files stack /\
       stack_size stack' = (directories_in children + stack_size stack)%nat.
Proof.
  intros Hm. induction children as [|name e rest IH]; intros cancels out stack Hout; cbn [read_directory].
  { split_and!; try done. by rewrite app_nil_r. }
  destruct (next_cancel cancels) as [cancelled cancels1] eqn:Ec.
  assert (Hc : cancels = [] -> cancelled = false /\ cancels1 = []) by (intros ->; by injection Ec as <- <-).
  destruct (cancelled || full max_files out) eqn:Es.
  { split_and!; [done|intros E; by apply Hc|by apply prefix_app_r|]. intros E. destruct (Hc E) as [-> _]. cbn [orb] in Es.
    destruct (Nat.eq_dec (length out) M); [done|]. exfalso. assert (H : full max_files out = false) by (apply not_full; lia). congruence. }
  apply orb_false_iff in Es as [_ Hnf]. apply not_full in Hnf; [|exact Hm].
  destruct e as [size|sub| | |]; cbn [direct_files sub_files tree_files directories_in directories].
  - assert (Hout' : (length (if wanted size then out ++ [slash_join dir name] else out) <= M)%nat).
    { destruct (wanted size); [rewrite length_app; cbn; lia|lia]. }
    specialize (IH cancels1 _ stack Hout'). destruct (read_directory _ _ _ _ _ _) as [[[out' stack'] stopped] cancels'].
    destruct IH as (H1 & H2 & H3). split_and!; [done|intros E; apply H2, Hc, E|].
    assert (Ea : (if wanted size then out ++ [slash_join dir name] else out) ++ direct_files dir rest =
      out ++ (if wanted size then [slash_join dir name] else []) ++ direct_files dir rest).
    { destruct (wanted size); [by rewrite <- app_assoc|done]. }
    rewrite Ea in H3. destruct stopped; [destruct H3 as [H3 H4]; split; [done|intros E; by apply H4, Hc]|]. by rewrite app_nil_r.
  - specialize (IH cancels1 out ((slash_join dir name, Some sub) :: stack) Hout).
    destruct (read_directory _ _ _ _ _ _) as [[[out' stack'] stopped] cancels']. destruct IH as (H1 & H2 & H3).
    split_and!; [done|intros E; apply H2, Hc, E|]. destruct stopped; [destruct H3 as [H3 H4]; split; [done|intros E; by apply H4, Hc]|].
    destruct H3 as (E1 & E2 & E3). split_and!; [done| |].
    + rewrite E2. cbn [stack_files listing_files fst snd]. by rewrite <- app_assoc.
    + rewrite E3. cbn [stack_size listing_size snd]. lia.
  - specialize (IH cancels1 out ((slash_join dir name, None) :: stack) Hout).
    destruct (read_directory _ _ _ _ _ _) as [[[out' stack'] stopped] cancels']. destruct IH as (H1 & H2 & H3).
    split_and!; [done|intros E; apply H2, Hc, E|]. destruct stopped; [destruct H3 as [H3 H4]; split; [done|intros E; by apply H4, Hc]|].
    destruct H3 as (E1 & E2 & E3). split_and!; [done| |].
    + rewrite E2. cbn [stack_files listing_files fst snd app]. by rewrite app_nil_r.
    + rewrite E3. cbn [stack_size listing_size snd]. lia.
  - specialize (IH cancels1 out stack Hout). destruct (read_directory _ _ _ _ _ _) as [[[out' stack'] stopped] cancels'].
    destruct IH as (H1 & H2 & H3). split_and!; [done|intros E; apply H2, Hc, E|]. rewrite app_nil_r.
    destruct stopped; [destruct H3 as [H3 H4]; split; [done|intros E; by apply H4, Hc]|done].
  - specialize (IH cancels1 out stack Hout). destruct (read_directory _ _ _ _ _ _) as [[[out' stack'] stopped] cancels'].
    destruct IH as (H1 & H2 & H3). split_and!; [done|intros E; apply H2, Hc, E|]. rewrite app_nil_r.
    destruct stopped; [destruct H3 as [H3 H4]; split; [done|intros E; by apply H4, Hc]|done].
Qed.

Lemma prefix_is_take (l k : list string) : l `prefix_of` k -> l = take (length l) k.
Proof. intros [r ->]. by rewrite take_app_length. Qed.

Lemma walk_spec fuel : 0 <= max_files -> forall cancels stack out, (stack_size stack <= fuel)%nat -> (length out <= M)%nat ->
  let out' := walk fuel max_files cancels stack out in
  out' `prefix_of` (out ++ stack_files stack) /\ (length out' <= M)%nat /\
  (cancels = [] -> out' = take M (out ++ stack_files stack)).
Proof.
  intros Hm. induction fuel as [|fuel IH]; intros cancels [|[dir listing] stack] out Hf Hout; cbn [walk stack_files].
  1, 3: rewrite app_nil_r; split_and!; [done|done|]; intros _; symmetry; by apply take_ge.
  { cbn [stack_size] in Hf. destruct listing; cbn in Hf; lia. }
  destruct (next_cancel cancels) as [cancelled cancels1] eqn:Ec.
  assert (Hc : cancels = [] -> cancelled = false /\ cancels1 = []) by (intros ->; by injection Ec as <- <-).
  destruct (cancelled || full max_files out) eqn:Es.
  { split_and!; [by apply prefix_app_r|done|]. intros E. destruct (Hc E) as [-> _]. cbn [orb] in Es.
    assert (length out = M) as <-. { destruct (Nat.eq_dec (length out) M); [done|]. exfalso.
      assert (H : full max_files out = false) by (apply not_full; lia). congruence. }
    by rewrite take_app_length. }
  cbn [stack_size] in Hf. destruct listing as [children|]; cbn [listing_size listing_files fst snd tree_files] in *.
  2: { destruct (IH cancels1 stack out ltac:(lia) Hout) as (H1 & H2 & H3). cbn [app]. split_and!; [done|done|].
       intros E. apply H3, Hc, E. }
  pose proof (read_directory_spec dir children Hm cancels1 out stack Hout) as H.
  destruct (read_directory _ _ _ _ _ _) as [[[out' stack'] stopped] cancels']. destruct H as (Hl & Hcc & H). destruct stopped.
  - destruct H as [Hp Hlen]. assert (Hp' : out' `prefix_of` (out ++ (direct_files dir children ++ sub_files dir children) ++ stack_files stack)).
    { destruct Hp as [r E]. exists (r ++ sub_files dir children ++ stack_files stack). rewrite <- !app_assoc, (app_assoc out), E. by rewrite <- app_assoc. }
    split_and!; [done|done|]. intros E. rewrite <- (Hlen (proj2 (Hc E))). by apply prefix_is_take.
  - destruct H as (-> & E2 & E3). destruct (IH cancels' stack' (out ++ direct_files dir children) ltac:(lia) Hl) as (H1 & H2 & H3).
    rewrite E2, <- app_assoc in H1, H3. rewrite <- !app_assoc in *. split_and!; [done|done|]. intros E. apply H3, Hcc, Hc, E.
Qed.
End walks.

(** the walk from a directory returns within one turn for each directory, whatever hangs
    below it.  Undisturbed it adds, up to the limit, the regular files that are not empty
    and not above 256 MiB: those of a directory first, then those of its directories from
    the last to the first, and nothing behind a symbolic link or in a directory that does
    not open.  A cancelled walk adds a prefix of them. *)
Theorem enumeration_spec (root : string) (children : entries) (cancels : list bool) (out : list string) (max_files : Z) :
  0 <= max_files -> (length out <= Z.to_nat max_files)%nat ->
  let found := enumerate_files root (Some (EDir children)) cancels out max_files in
  let all := out ++ tree_files root (EDir children) in
  found `prefix_of` all /\ (length found <= Z.to_nat max_files)%nat /\ (cancels = [] -> found = take (Z.to_nat max_files) all).
Proof.
  intros Hm Hout found all. unfold found, enumerate_files. destruct (full max_files out) eqn:Ef.
  - assert (length out = Z.to_nat max_files) as <-. { unfold full in Ef. apply Z.leb_le in Ef. lia. }
    split_and!; [by apply prefix_app_r|lia|]. intros _. unfold all. by rewrite take_app_length.
  - destruct (walk_spec max_files (directories (EDir children)) Hm cancels [(root, Some children)] out) as (H1 & H2 & H3).
    + cbn [stack_size listing_size snd directories]. lia.
    + exact Hout.
    + cbn [stack_files listing_files fst snd] in H1, H3. rewrite app_nil_r in H1, H3. by split_and!.
Qed.

(** Two directories: the second is walked first, a link and an empty file are left out. *)
Lemma enumeration_spec_witness :
  let tree := ECons "a" (EDir (ECons "x" (EFile (Some 5)) ENil)) (ECons "l" ELink (ECons "e" (EFile (Some 0))
    (ECons "b" (EDir (ECons "y" (EFile (Some 7)) (ECons "z" (EFile None) ENil))) (ECons "f" (EFile (Some 1)) ENil)))) in
  enumerate_files "r" (Some (EDir tree)) [] [] 10 = ["r/f"; "r/b/y"; "r/a/x"]%string.
Proof.
  cbv zeta. etransitivity; [apply enumeration_spec; [lia|cbn; lia|reflexivity]|]. vm_compute. reflexivity.
Defined.

(** ** A scan: the monitor thread and the workers *)

(** A worker with a task: what it still reports, a threat counted but not yet in the list,
    or about to advance the progress. *)
Inductive worker :=
| Busy (rest : list ScanResult)
| Found (r : ScanResult) (rest : list ScanResult)
| Done.

Inductive monitor := Idle | Enumerating | Feeding | Waiting | Counting.

Record Scanner := Scan {
  ds_scanning : bool;
  ds_cancel : bool;
  ds_total : Z;
  ds_scanned : Z;
  ds_threats : Z;
  ds_results : list ScanResult;
  ds_lifetime_scanned : Z;
  ds_lifetime_threats : Z;
  ds_completed : Z;
  ds_monitor : monitor;
  ds_targets : list string;
  ds_waiting : list string;
  ds_queue : list string;
  ds_workers : list worker;
}.

Definition new_scanner : Scanner := Scan false false 0 0 0 [] 0 0 0 Idle [] [] [] [].

Section scans.
(** The pool size, and what scanning a target reports: at most one result for a file, one
    for each region for a process. *)
Context (pool : nat) (verdict : string -> list ScanResult).

Definition with_workers (st : Scanner) (scanned threats : Z) (results : list ScanResult) (queue : list string) (workers : list worker) : Scanner :=
  Scan (ds_scanning st) (ds_cancel st) (ds_total st) scanned threats results (ds_lifetime_scanned st) (ds_lifetime_threats st)
    (ds_completed st) (ds_monitor st) (ds_targets st) (ds_waiting st) queue workers.

Definition with_monitor (st : Scanner) (scanning : bool) (total : Z) (m : monitor) (waiting queue : list string) : Scanner :=
  Scan scanning (ds_cancel st) total (ds_scanned st) (ds_threats st) (ds_results st) (ds_lifetime_scanned st) (ds_lifetime_threats st)
    (ds_completed st) m (ds_targets st) waiting queue (ds_workers st).

(** [start_scan]: it has joined the last monitor, cleared the queue and waited for the pool;
    [targets] is what the enumeration will find. *)
Definition start_scan (st : Scanner) (targets : list string) : Scanner :=
  Scan true false 0 0 0 [] (ds_lifetime_scanned st) (ds_lifetime_threats st) (ds_completed st) Enumerating targets [] [] [].

Definition cancel_scan (st : Scanner) : Scanner :=
  Scan false true (ds_total st) (ds_scanned st) (ds_threats st) (ds_results st) (ds_lifetime_scanned st) (ds_lifetime_threats st)
    (ds_completed st) (ds_monitor st) (ds_targets st) (ds_waiting st) [] (ds_workers st).

(** What the monitor adds when its loop is over. *)
Definition count_scan (st : Scanner) : Scanner :=
  Scan (ds_scanning st) (ds_cancel st) (ds_total st) (ds_scanned st) (ds_threats st) (ds_results st)
    (ds_lifetime_scanned st + ds_scanned st) (ds_lifetime_threats st + ds_threats st)
    (if ds_cancel st then ds_completed st else ds_completed st + 1) Idle (ds_targets st) (ds_waiting st) (ds_queue st) (ds_workers st).

(** Steps of the monitor. *)
Inductive monitor_step (st : Scanner) : Scanner -> Prop :=
| MonitorCancelled : ds_monitor st = Enumerating -> ds_cancel st = true ->
    monitor_step st (with_monitor st false (ds_total st) Idle (ds_waiting st) (ds_queue st))
| MonitorEnumerated : ds_monitor st = Enumerating -> ds_cancel st = false ->
    monitor_step st (with_monitor st (ds_scanning st) (Z.of_nat (length (ds_targets st))) Feeding (ds_targets st) (ds_queue st))
| MonitorFeeds p ps : ds_monitor st = Feeding -> ds_cancel st = false -> ds_waiting st = p :: ps ->
    monitor_step st (with_monitor st (ds_scanning st) (ds_total st) Feeding ps (ds_queue st ++ [p]))
| MonitorFed : ds_monitor st = Feeding -> ds_cancel st = true \/ ds_waiting st = [] ->
    monitor_step st (with_monitor st (ds_scanning st) (ds_total st) Waiting (ds_waiting st) (ds_queue st))
| MonitorLeaves : ds_monitor st = Waiting -> ds_total st <= ds_scanned st \/ ds_cancel st = true ->
    monitor_step st (with_monitor st false (ds_total st) Counting (ds_waiting st) (ds_queue st))
| MonitorCounts : ds_monitor st = Counting -> monitor_step st (count_scan st).

(** Steps of the workers. *)
Inductive worker_step (st : Scanner) : Scanner -> Prop :=
| WorkerTakes p ps : ds_queue st = p :: ps -> (length (ds_workers st) < pool)%nat ->
    worker_step st (with_workers st (ds_scanned st) (ds_threats st) (ds_results st) ps
      ((if ds_cancel st then Done else Busy (verdict p)) :: ds_workers st))
| WorkerFinds ws r rest ws' : ds_workers st = ws ++ Busy (r :: rest) :: ws' ->
    worker_step st (with_workers st (ds_scanned st) (ds_threats st + 1) (ds_results st) (ds_queue st) (ws ++ Found r rest :: ws'))
| WorkerStores ws r rest ws' : ds_workers st = ws ++ Found r rest :: ws' ->
    worker_step st (with_workers st (ds_scanned st) (ds_threats st) (ds_results st ++ [r]) (ds_queue st) (ws ++ Busy rest :: ws'))
| WorkerEnds ws ws' : ds_workers st = ws ++ Busy [] :: ws' ->
    worker_step st (with_workers st (ds_scanned st) (ds_threats st) (ds_results st) (ds_queue st) (ws ++ Done :: ws'))
| WorkerAdvances ws ws' : ds_workers st = ws ++ Done :: ws' ->
    worker_step st (with_workers st (ds_scanned st + 1) (ds_threats st) (ds_results st) (ds_queue st) (ws ++ ws')).

(** Calls from outside. *)
Inductive caller_step (st : Scanner) : Scanner -> Prop :=
| CallerStarts targets : ds_scanning st = false -> ds_monitor st = Idle -> ds_workers st = [] -> caller_step st (start_scan st targets)
| CallerCancels : caller_step st (cancel_scan st).

Inductive scanner_reachable : Scanner -> Prop :=
| ReachNew : scanner_reachable new_scanner
| ReachStep st st' : scanner_reachable st -> monitor_step st st' \/ worker_step st st' \/ caller_step st st' -> scanner_reachable st'.

(** *** The invariant *)

Definition in_flight (w : worker) : list ScanResult :=
  match w with Busy rest => rest | Found r rest => r :: rest | Done => [] end.
Definition counted (w : worker) : nat := match w with Found _ _ => 1%nat | _ => 0%nat end.

Fixpoint flight (ws : list worker) : list ScanResult := match ws with [] => [] | w :: ws => in_flight w ++ flight ws end.
Fixpoint counts (ws : list worker) : nat := match ws with [] => 0%nat | w :: ws => (counted w + counts ws)%nat end.
Fixpoint verdicts (ps : list string) : list ScanResult := match ps with [] => [] | p :: ps => verdict p ++ verdicts ps end.

Lemma flight_app ws ws' : flight (ws ++ ws') = flight ws ++ flight ws'.
Proof. induction ws as [|w ws IH]; [done|]. cbn [app flight]. by rewrite IH, app_assoc. Qed.
Lemma counts_app ws ws' : counts (ws ++ ws') = (counts ws + counts ws')%nat.
Proof. induction ws as [|w ws IH]; [done|]. cbn [app counts]. rewrite IH. lia. Qed.
Lemma verdicts_app ps ps' : verdicts (ps ++ ps') = verdicts ps ++ verdicts ps'.
Proof. induction ps as [|p ps IH]; [done|]. cbn [app verdicts]. by rewrite IH, app_assoc. Qed.

(** Every target is waiting, queued, with a worker or done, and every result it reports is
    still to come or in the list. *)
Record balanced (st : Scanner) : Prop := {
  ba_total : ds_total st = Z.of_nat (length (ds_targets st));
  ba_progress : ds_scanned st + Z.of_nat (length (ds_workers st) + length (ds_queue st) + length (ds_waiting st)) = ds_total st;
  ba_results : ds_results st ++ flight (ds_workers st) ++ verdicts (ds_queue st) ++ verdicts (ds_waiting st) ≡ₚ verdicts (ds_targets st);
}.

Definition scan_phase (st : Scanner) : Prop :=
  match ds_monitor st with
  | Enumerating => ds_scanned st = 0 /\ ds_results st = [] /\ ds_workers st = [] /\ ds_queue st = []
  | Feeding => balanced st
  | Waiting => balanced st /\ ds_waiting st = []
  | Counting | Idle => balanced st /\ ds_waiting st = [] /\ ds_total st <= ds_scanned st
  end.

Record scanner_ok (st : Scanner) : Prop := {
  so_threats : ds_threats st = Z.of_nat (length (ds_results st) + counts (ds_workers st));
  so_scanning : ds_scanning st = true -> ds_cancel st = false /\ (ds_monitor st = Enumerating \/ ds_monitor st = Feeding \/ ds_monitor st = Waiting);
  so_phase : ds_cancel st = false -> scan_phase st;
}.

(** A step of a worker that moves results and tasks along keeps the balance. *)
Lemma balanced_move st scanned threats results queue workers :
  balanced st ->
  scanned + Z.of_nat (length workers + length queue) = ds_scanned st + Z.of_nat (length (ds_workers st) + length (ds_queue st)) ->
  results ++ flight workers ++ verdicts queue ≡ₚ ds_results st ++ flight (ds_workers st) ++ verdicts (ds_queue st) ->
  balanced (with_workers st scanned threats results queue workers).
Proof.
  intros [H1 H2 H3] Hn Hp. split; cbn; [done|lia|]. rewrite <- H3.
  assert (A : forall a b c d : list ScanResult, a ++ b ++ c ++ d = (a ++ b ++ c) ++ d) by (intros; by rewrite !app_assoc).
  by rewrite (A results), (A (ds_results st)), Hp.
Qed.

Lemma phase_move st scanned threats results queue workers :
  (ds_workers st <> [] \/ ds_queue st <> []) -> ds_scanned st <= scanned ->
  scanned + Z.of_nat (length workers + length queue) = ds_scanned st + Z.of_nat (length (ds_workers st) + length (ds_queue st)) ->
  results ++ flight workers ++ verdicts queue ≡ₚ ds_results st ++ flight (ds_workers st) ++ verdicts (ds_queue st) ->
  scan_phase st -> scan_phase (with_workers st scanned threats results queue workers).
Proof.
  intros Hne Hs Hn Hp. unfold scan_phase. cbn [ds_monitor with_workers]. destruct (ds_monitor st).
  - intros (H & Hw & Ht). split; [by apply balanced_move|]. cbn. split; [done|lia].
  - intros (_ & _ & Hw & Hq). destruct Hne; congruence.
  - intros H. by apply balanced_move.
  - intros (H & Hw). split; [by apply balanced_move|done].
  - intros (H & Hw & Ht). split; [by apply balanced_move|]. cbn. split; [done|lia].
Qed.

Lemma worker_step_ok st st' : worker_step st st' -> scanner_ok st -> scanner_ok st'.
Proof.
  intros Hs [H1 H2 H3]. destruct Hs as [p ps Hq Hl|ws r rest ws' Hw|ws r rest ws' Hw|ws ws' Hw|ws ws' Hw].
  - split; cbn; [|done|].
    + rewrite H1. by destruct (ds_cancel st).
    + intros Hc. rewrite Hc. apply phase_move; [right; congruence|lia|rewrite Hq; cbn; lia| |by apply H3].
      rewrite Hq. cbn [flight in_flight verdicts]. rewrite <- app_assoc. by rewrite (Permutation_app_swap_app (verdict p)).
  - split; cbn; [|done|].
    + rewrite H1, Hw, !counts_app. cbn [counts counted]. lia.
    + intros Hc. apply phase_move; [left; rewrite Hw; by destruct ws|lia|rewrite Hw, !length_app; cbn; lia| |by apply H3].
      rewrite Hw, !flight_app. done.
  - split; cbn; [|done|].
    + rewrite H1, Hw, !counts_app, length_app. cbn [counts counted length]. lia.
    + intros Hc. apply phase_move; [left; rewrite Hw; by destruct ws|lia|rewrite Hw, !length_app; cbn; lia| |by apply H3].
      rewrite Hw, !flight_app. cbn [flight in_flight]. rewrite <- !app_assoc. cbn [app]. by rewrite (Permutation_middle (flight ws)).
  - split; cbn; [|done|].
    + rewrite H1, Hw, !counts_app. cbn [counts counted]. lia.
    + intros Hc. apply phase_move; [left; rewrite Hw; by destruct ws|lia|rewrite Hw, !length_app; cbn; lia| |by apply H3].
      rewrite Hw, !flight_app. done.
  - split; cbn; [|done|].
    + rewrite H1, Hw, !counts_app. cbn [counts counted]. lia.
    + intros Hc. apply phase_move; [left; rewrite Hw; by destruct ws|lia|rewrite Hw, !length_app; cbn; lia| |by apply H3].
      rewrite Hw, !flight_app. done.
Qed.

Lemma monitor_step_ok st st' : monitor_step st st' -> scanner_ok st -> scanner_ok st'.
Proof.
  intros Hs [H1 H2 H3].
  destruct Hs as [Hm Hc|Hm Hc|p ps Hm Hc Hw|Hm Hc|Hm Hc|Hm]; (split; [exact H1| |]); cbn [with_monitor count_scan ds_scanning ds_cancel].
  - done.
  - congruence.
  - intros E. destruct (H2 E) as [Hc' _]. auto.
  - intros _. specialize (H3 Hc). unfold scan_phase in H3. rewrite Hm in H3. destruct H3 as (Hs & Hr & Hw & Hq).
    unfold scan_phase. cbn. split; cbn; [done|rewrite Hs, Hw, Hq; cbn; lia|by rewrite Hr, Hw, Hq].
  - intros E. destruct (H2 E) as [Hc' _]. auto.
  - intros _. specialize (H3 Hc). unfold scan_phase in H3. rewrite Hm in H3. destruct H3 as [Hb1 Hb2 Hb3].
    unfold scan_phase. cbn. split; cbn; [done|rewrite Hw in Hb2; rewrite length_app; cbn in *; lia|].
    rewrite <- Hb3, Hw, verdicts_app. cbn [verdicts]. by rewrite app_nil_r, <- !app_assoc.
  - intros E. destruct (H2 E) as [Hc' _]. auto.
  - intros E. destruct Hc as [Hc|Hc]; [congruence|]. specialize (H3 E). unfold scan_phase in *. rewrite Hm in H3. cbn. split; [|done].
    destruct H3 as [Hb1 Hb2 Hb3]. by split.
  - done.
  - intros E. destruct Hc as [Hc|Hc]; [|congruence]. specialize (H3 E). unfold scan_phase in *. rewrite Hm in H3. cbn.
    destruct H3 as [[Hb1 Hb2 Hb3] Hw]. by split.
  - intros E. destruct (H2 E) as [_ Hm']. rewrite Hm in Hm'. destruct Hm' as [Hm' | [Hm' | Hm']]; discriminate Hm'.
  - intros E. specialize (H3 E). unfold scan_phase in *. rewrite Hm in H3. cbn.
    destruct H3 as [[Hb1 Hb2 Hb3] Hw]. by split.
Qed.

Lemma caller_step_ok st st' : caller_step st st' -> scanner_ok st -> scanner_ok st'.
Proof.
  intros [targets Hs Hm Hw|] [H1 H2 H3].
  - split; cbn; [done|intros _; split; [done|by left]|intros _; by split_and!].
  - split; cbn; [exact H1|discriminate|discriminate].
Qed.

Lemma reachable_ok st : scanner_reachable st -> scanner_ok st.
Proof.
  induction 1 as [|st st' _ IH [H|[H|H]]].
  - by split; cbn.
  - by eapply monitor_step_ok.
  - by eapply worker_step_ok.
  - by eapply caller_step_ok.
Qed.

(** *** Termination *)

Definition worker_work (w : worker) : nat :=
  match w with Busy rest => (2 * length rest + 2)%nat | Found _ rest => (2 * length rest + 3)%nat | Done => 1%nat end.

Definition task_work (p : string) : nat := (2 * length (verdict p) + 3)%nat.

Fixpoint tasks_work (ps : list string) : nat := match ps with [] => 0%nat | p :: ps => (task_work p + tasks_work ps)%nat end.
Fixpoint workers_work (ws : list worker) : nat := match ws with [] => 0%nat | w :: ws => (worker_work w + workers_work ws)%nat end.

(** The steps that are left, at most. *)
Definition work_left (st : Scanner) : nat :=
  (workers_work (ds_workers st) + tasks_work (ds_queue st) +
   match ds_monitor st with
   | Idle => 0
   | Enumerating => tasks_work (ds_targets st) + length (ds_targets st) + 4
   | Feeding => tasks_work (ds_waiting st) + length (ds_waiting st) + 3
   | Waiting => 2
   | Counting => 1
   end)%nat.

Lemma workers_work_app ws ws' : workers_work (ws ++ ws') = (workers_work ws + workers_work ws')%nat.
Proof. induction ws as [|w ws IH]; [done|]. cbn [app workers_work]. rewrite IH. lia. Qed.
Lemma tasks_work_app ps ps' : tasks_work (ps ++ ps') = (tasks_work ps + tasks_work ps')%nat.
Proof. induction ps as [|p ps IH]; [done|]. cbn [app tasks_work]. rewrite IH. lia. Qed.

Lemma step_works st st' : monitor_step st st' \/ worker_step st st' -> (work_left st' < work_left st)%nat.
Proof.
  unfold work_left. intros [[Hm Hc|Hm Hc|p ps Hm Hc Hw|Hm Hc|Hm Hc|Hm]|[p ps Hq Hl|ws r rest ws' Hw|ws r rest ws' Hw|ws ws' Hw|ws ws' Hw]]; cbn.
  1-6: rewrite Hm; try lia.
  - rewrite Hw, tasks_work_app. cbn. lia.
  - rewrite Hq. destruct (ds_cancel st); cbn; unfold task_work; lia.
  - rewrite Hw, !workers_work_app. cbn. lia.
  - rewrite Hw, !workers_work_app. cbn. lia.
  - rewrite Hw, !workers_work_app. cbn. lia.
  - rewrite Hw, !workers_work_app. cbn. lia.
Qed.

(** A scanner in which nothing moves is idle. *)
Lemma stuck_is_idle st : scanner_ok st -> (0 < pool)%nat -> (forall st', ~ (monitor_step st st' \/ worker_step st st')) ->
  ds_monitor st = Idle /\ ds_workers st = [] /\ ds_queue st = [].
Proof.
  intros Hok Hpool Hstuck.
  assert (Hw : ds_workers st = []).
  { destruct (ds_workers st) as [|w ws] eqn:Ew; [done|]. exfalso. destruct w as [[|r rest]|r rest|].
    - eapply Hstuck. right. by apply (WorkerEnds st [] ws).
    - eapply Hstuck. right. by apply (WorkerFinds st [] r rest ws).
    - eapply Hstuck. right. by apply (WorkerStores st [] r rest ws).
    - eapply Hstuck. right. by apply (WorkerAdvances st [] ws). }
  assert (Hq : ds_queue st = []).
  { destruct (ds_queue st) as [|p ps] eqn:Eq; [done|]. exfalso. eapply Hstuck. right. eapply (WorkerTakes st p ps); [done|by rewrite Hw]. }
  split_and!; [|done|done]. destruct (ds_monitor st) eqn:Em; [done|exfalso..].
  - destruct (ds_cancel st) eqn:Ec; eapply Hstuck; left; [by apply MonitorCancelled|by apply MonitorEnumerated].
  - destruct (ds_cancel st) eqn:Ec; [eapply Hstuck; left; by apply MonitorFed; [|left]|].
    destruct (ds_waiting st) as [|p ps] eqn:Ewt; eapply Hstuck; left; [by apply MonitorFed; [|right]|by eapply MonitorFeeds].
  - destruct (ds_cancel st) eqn:Ec; [eapply Hstuck; left; by apply MonitorLeaves; [|right]|].
    pose proof (so_phase _ Hok Ec) as Hp. unfold scan_phase in Hp. rewrite Em in Hp. destruct Hp as [[_ Hp _] Hwt].
    rewrite Hw, Hq, Hwt in Hp. cbn in Hp. eapply Hstuck. left. apply MonitorLeaves; [done|]. left. lia.
  - eapply Hstuck. left. by apply MonitorCounts.
Qed.
End scans.

(** Runs of the monitor and the workers without calls from outside. *)
Inductive scan_run (pool : nat) (verdict : string -> list ScanResult) : Scanner -> nat -> Scanner -> Prop :=
| RunHere st : scan_run pool verdict st 0 st
| RunStep st st' n st'' : monitor_step st st' \/ worker_step pool verdict st st' -> scan_run pool verdict st' n st'' ->
    scan_run pool verdict st (S n) st''.

(** C8: every scan ends.  From any state the scanner can reach, with workers in the pool, the
    monitor and the workers take at most [work_left] steps between calls, in any order; and
    when nothing moves any more the monitor is idle, the queue is empty, no worker has a task
    and the scanner does not report a scan. *)
Theorem scans_terminate (pool : nat) (verdict : string -> list ScanResult) (st st' : Scanner) (n : nat) :
  (0 < pool)%nat -> scanner_reachable pool verdict st -> scan_run pool verdict st n st' ->
  (n <= work_left verdict st)%nat /\
  ((forall st'', ~ (monitor_step st' st'' \/ worker_step pool verdict st' st'')) ->
   ds_monitor st' = Idle /\ ds_workers st' = [] /\ ds_queue st' = [] /\ ds_scanning st' = false).
Proof.
  intros Hpool Hr Hrun. induction Hrun as [st|st st1 n st2 Hs Hrun IH].
  - split; [lia|]. intros Hstuck. pose proof (reachable_ok _ _ _ Hr) as Hok.
    destruct (stuck_is_idle _ _ _ Hok Hpool Hstuck) as (Hm & Hw & Hq). split_and!; try done.
    destruct (ds_scanning st) eqn:E; [|done]. exfalso. destruct (so_scanning _ _ Hok E) as [_ H]. rewrite Hm in H.
    destruct H as [H | [H | H]]; discriminate H.
  - assert (Hr1 : scanner_reachable pool verdict st1) by (eapply ReachStep; [exact Hr|tauto]).
    destruct (IH Hr1) as [Hn Hend]. split; [|exact Hend]. apply step_works in Hs. lia.
Qed.

(** C7: a scan that is not cancelled is complete.  Whenever the scanner rests without a cancel
    since the last start, in any interleaving of the monitor and the workers and after any
    earlier scans and cancels, it has scanned every target, its list holds exactly the results
    of all of them in some order, and the number of threats is the length of the list; while
    a scan runs, the progress never exceeds the total. *)
Theorem scan_is_complete (pool : nat) (verdict : string -> list ScanResult) (st : Scanner) :
  scanner_reachable pool verdict st -> ds_cancel st = false ->
  (ds_monitor st = Idle ->
     ds_scanned st = Z.of_nat (length (ds_targets st)) /\ ds_results st ≡ₚ verdicts verdict (ds_targets st) /\
     ds_threats st = Z.of_nat (length (ds_results st))) /\
  (ds_monitor st <> Enumerating -> ds_scanned st <= ds_total st).
Proof.
  intros Hr Hc. pose proof (reachable_ok _ _ _ Hr) as [H1 _ H3]. specialize (H3 Hc). unfold scan_phase in H3. split.
  - intros Hm. rewrite Hm in H3. destruct H3 as ([Hb1 Hb2 Hb3] & Hw & Ht). rewrite Hw in Hb2, Hb3.
    assert (Hwk : ds_workers st = []) by (destruct (ds_workers st); [done|cbn in Hb2; lia]).
    assert (Hq : ds_queue st = []) by (destruct (ds_queue st); [done|cbn in Hb2; lia]).
    rewrite Hwk, Hq in *. cbn in *. rewrite !app_nil_r in Hb3. split_and!; [lia|done|lia].
  - intros Hm. destruct (ds_monitor st).
    + destruct H3 as [[_ Hb _] _]. lia.
    + done.
    + destruct H3 as [_ Hb _]. lia.
    + destruct H3 as [[_ Hb _] _]. lia.
    + destruct H3 as [[_ Hb _] _]. lia.
Qed.

(** One worker and one file, which is a threat. *)
Definition one_threat : ScanResult := Scanned "a" 3 SHELLCODE EmptyString (dz 0) [] EmptyString.

Definition one_scan : Scanner := start_scan new_scanner ["a"%string].

Definition one_scan_done : Scanner := Scan false false 1 1 1 [one_threat] 1 1 1 Idle ["a"%string] [] [] [].

(** One step, after which the state is computed. *)
Ltac run_step tac :=
  eapply RunStep; [tac|match goal with |- scan_run _ _ ?st _ _ => let st' := eval cbv -[one_threat] in st in change st with st' end].

Lemma one_scan_runs : scan_run 1 (fun _ => [one_threat]) one_scan 10 one_scan_done.
Proof.
  run_step ltac:(left; by apply MonitorEnumerated). run_step ltac:(left; by eapply MonitorFeeds).
  run_step ltac:(left; apply MonitorFed; [done|by right]). run_step ltac:(right; eapply WorkerTakes; [done|cbn; lia]).
  run_step ltac:(right; by apply (WorkerFinds _ _ _ [] one_threat [] [])).
  run_step ltac:(right; by apply (WorkerStores _ _ _ [] one_threat [] [])).
  run_step ltac:(right; by apply (WorkerEnds _ _ _ [] [])). run_step ltac:(right; by apply (WorkerAdvances _ _ _ [] [])).
  run_step ltac:(left; apply MonitorLeaves; [done|left; cbn; lia]). run_step ltac:(left; by apply MonitorCounts).
  apply RunHere.
Qed.

Lemma scan_run_reachable pool verdict st n st' : scan_run pool verdict st n st' -> scanner_reachable pool verdict st -> scanner_reachable pool verdict st'.
Proof. induction 1 as [|st st1 n st2 Hs _ IH]; intros Hr; [done|]. apply IH. eapply ReachStep; [exact Hr|tauto]. Qed.

Lemma one_scan_reachable : scanner_reachable 1 (fun _ => [one_threat]) one_scan.
Proof. eapply ReachStep; [apply ReachNew|]. right. right. by apply CallerStarts. Qed.

Lemma scans_terminate_witness : (10 <= work_left (fun _ => [one_threat]) one_scan)%nat.
Proof. exact (proj1 (scans_terminate 1 (fun _ => [one_threat]) one_scan one_scan_done 10 ltac:(lia) one_scan_reachable one_scan_runs)). Defined.

Lemma scan_is_complete_witness : ds_results one_scan_done ≡ₚ [one_threat] /\ ds_threats one_scan_done = 1.
Proof.
  destruct (scan_is_complete 1 (fun _ => [one_threat]) one_scan_done
    (scan_run_reachable _ _ _ _ _ one_scan_runs one_scan_reachable) eq_refl) as [H _].
  destruct (H eq_refl) as (_ & H1 & _). split; [exact H1|reflexivity].
Defined.
