(* ===== verification/VulnScanner.v ===== *)
(** * VulnScanner: installed software against known vulnerabilities

    Models src/src/engines/vuln_scanner_engine.cpp: versions and their comparison, the
    match of a name, a scan, and the text file of the database.  The mutex is held over a
    whole scan, so the operations are atomic steps; threats are returned after it, as the
    code reports them with the mutex released.  [std::stod] and the default format of a
    [double] are arguments, and so is the clock: [detected id] and [reported id] are its
    readings for the match [id]. *)
From S2P Require Import Prelude BoundedLog Float64 Observation Text Threat.

Record SoftwareInfo := Software {
  sw_name : string;
  sw_vendor : string;
  sw_version : string;
  sw_install_path : string;
  sw_source : string;
}.

Record VulnEntry := Vuln {
  vuln_id : string;
  affected_software : string;
  affected_version_below : string;
  vuln_severity : string;
  vuln_cvss : double;
  vuln_description : string;
  vuln_remediation : string;
}.

Record VulnMatch := Match {
  vm_id : Z;
  vm_software : SoftwareInfo;
  vm_vuln : VulnEntry;
  vm_detected_at : Z;
}.

(** ** Versions *)

Definition dot : Ascii.ascii := char_of 46.

(** What [std::getline] up to the next dot extracts, one token after the other. *)
Fixpoint tokens_of (text token : string) (started : bool) : list string :=
  match text with
  | EmptyString => if started then [token] else []
  | String.String c text =>
      if bool_decide (c = dot) then token :: tokens_of text EmptyString false
      else tokens_of text (token +:+ String.String c EmptyString) true
  end.

(** A token that is no number, or none an [int] holds, counts as zero. *)
Definition parse_version (ver : string) : list Z := (fun token => from_option id 0 (stoi token)) <$> tokens_of ver EmptyString false.

(** The loop over two lists that [resize] has made as long as each other. *)
Fixpoint less_loop (a b : list Z) : bool :=
  match a, b with
  | x :: a, y :: b => if x <? y then true else if y <? x then false else less_loop a b
  | _, _ => false
  end.

(** [v.resize(len, 0)] *)
Definition resize_zero (len : nat) (v : list Z) : list Z := take len v ++ replicate (len - length v) 0.

Definition version_less_than (installed threshold : string) : bool :=
  if empty_string installed || empty_string threshold then false
  else
    let a := parse_version installed in
    let b := parse_version threshold in
    if bool_decide (a = []) || bool_decide (b = []) then false
    else if forallb (fun x => x =? 0) a then false
    else
      let len := Nat.max (length a) (length b) in
      less_loop (resize_zero len a) (resize_zero len b).

Definition severity_to_level (severity : string) (cvss : double) : ThreatLevel :=
  if String.eqb severity "CRITICAL" || dle (dz 9) cvss then CRITICAL
  else if String.eqb severity "HIGH" || dle (dz 7) cvss then HIGH
  else if String.eqb severity "MEDIUM" || dle (dz 4) cvss then MEDIUM
  else if String.eqb severity "LOW" || dle (dlit 1 10) cvss then LOW
  else SAFE.

(** ** Scans *)

Definition alnum_at (s : string) (i : nat) : bool := match String.get i s with Some c => is_alnum c | None => false end.

(** The term is looked for once, and must stand between characters that are no letters or digits. *)
Definition name_matches (name term : string) : bool :=
  let sw_lower := string_map tolower name in
  let vuln_lower := string_map tolower term in
  match find_pos vuln_lower sw_lower with
  | None => false
  | Some pos =>
      if (0 <? pos)%nat && alnum_at sw_lower (pos - 1) then false
      else
        let after := (pos + String.length vuln_lower)%nat in
        if (after <? String.length sw_lower)%nat && alnum_at sw_lower after then false else true
  end.

Definition affected (sw : SoftwareInfo) (v : VulnEntry) : bool :=
  name_matches (sw_name sw) (affected_software v) && version_less_than (sw_version sw) (affected_version_below v).

Definition MAX_MATCHES : Z := 500.

Record VulnScanner := Vulns {
  vuln_db_ : list VulnEntry;
  matches_ : list VulnMatch;
  next_id_ : Z;
  events_processed_ : Z;
  threats_detected_ : Z;
  has_callback : bool;
}.

Section scans.
Context (detected reported : Z -> Z).

Definition threat_of (id : Z) (sw : SoftwareInfo) (v : VulnEntry) : ThreatEvent :=
  Event 0 (reported id) (severity_to_level (vuln_severity v) (vuln_cvss v)) SUSPICIOUS_BINARY 0 EmptyString
    (sw_install_path sw)
    (vuln_id v +:+ ": " +:+ sw_name sw +:+ " " +:+ sw_version sw +:+ " " +:+ em_dash +:+ " " +:+ vuln_description v +:+
     " (fix: " +:+ vuln_remediation v +:+ ")") EmptyString 0 false false.

(** The results and deferred threats of a scan so far. *)
Definition scanned : Type := list VulnMatch * list ThreatEvent.

(** The body of the two loops. *)
Definition scan_pair (sw : SoftwareInfo) (x : VulnScanner * scanned) (v : VulnEntry) : VulnScanner * scanned :=
  if affected sw v then
    let '(st, (results, deferred)) := x in
    let id := next_id_ st in
    let m := Match id sw v (detected id) in
    (Vulns (vuln_db_ st) (push_bounded MAX_MATCHES (matches_ st) m) (u64 (id + 1)) (u64 (events_processed_ st + 1))
       (u64 (threats_detected_ st + 1)) (has_callback st),
     (results ++ [m], if has_callback st then deferred ++ [threat_of id sw v] else deferred))
  else x.

Definition scan_one (db : list VulnEntry) (x : VulnScanner * scanned) (sw : SoftwareInfo) : VulnScanner * scanned :=
  foldl (scan_pair sw) x db.

(** The state after a scan, its results, and the threats the callback then gets. *)
Definition scan_software (st : VulnScanner) (software : list SoftwareInfo) : VulnScanner * scanned :=
  foldl (scan_one (vuln_db_ st)) (st, ([], [])) software.
End scans.

Definition recent_matches (st : VulnScanner) (n : Z) : list VulnMatch := latest n (matches_ st).

Definition with_db (st : VulnScanner) (db : list VulnEntry) : VulnScanner :=
  Vulns db (matches_ st) (next_id_ st) (events_processed_ st) (threats_detected_ st) (has_callback st).

Definition add_vuln (st : VulnScanner) (v : VulnEntry) : VulnScanner := with_db st (vuln_db_ st ++ [v]).

Definition vuln_db_size (st : VulnScanner) : Z := Z.of_nat (length (vuln_db_ st)).

Definition builtin_vulns : list VulnEntry :=
  [Vuln "GCAD-2024-0001" "OpenSSL" "3.0.14" "CRITICAL" (dlit 98 10) "Heap buffer overflow in X.509 certificate verification" "Update to OpenSSL 3.0.14+";
   Vuln "GCAD-2024-0002" "curl" "8.6.0" "HIGH" (dlit 81 10) "HTTP/2 CONTINUATION flood leading to DoS" "Update to curl 8.6.0+";
   Vuln "GCAD-2024-0003" "Python" "3.12.4" "HIGH" (dlit 75 10) "Path traversal in zipfile module" "Update to Python 3.12.4+";
   Vuln "GCAD-2024-0004" "Node.js" "20.12.0" "HIGH" (dlit 78 10) "Privilege escalation via env variable injection" "Update to Node.js 20.12.0+";
   Vuln "GCAD-2024-0005" "Git" "2.44.1" "CRITICAL" (dlit 91 10) "Remote code execution via crafted clone URL" "Update to Git 2.44.1+";
   Vuln "GCAD-2024-0006" "7-Zip" "24.01" "HIGH" (dlit 73 10) "Integer overflow in LZMA decompression" "Update to 7-Zip 24.01+";
   Vuln "GCAD-2024-0007" "PuTTY" "0.81" "CRITICAL" (dlit 94 10) "ECDSA P521 private key recovery from nonce bias" "Update to PuTTY 0.81+";
   Vuln "GCAD-2024-0008" "WinRAR" "6.24" "HIGH" (dlit 75 10) "Arbitrary code execution via crafted RAR archive" "Update to WinRAR 6.24+";
   Vuln "GCAD-2024-0009" "VLC" "3.0.21" "MEDIUM" (dlit 63 10) "Buffer overflow in MKV demuxer" "Update to VLC 3.0.21+";
   Vuln "GCAD-2024-0010" "Notepad++" "8.6.5" "MEDIUM" (dlit 55 10) "DLL hijacking via search path" "Update to Notepad++ 8.6.5+";
   Vuln "GCAD-2024-0011" "Firefox" "124.0" "HIGH" (dlit 80 10) "Sandbox escape via IPC message" "Update to Firefox 124.0+";
   Vuln "GCAD-2024-0012" "Chrome" "123.0.6312.86" "CRITICAL" (dlit 96 10) "Type confusion in V8 JavaScript engine" "Update to Chrome 123.0.6312.86+"]%string.

Definition new_vuln_scanner (has_callback : bool) : VulnScanner := Vulns builtin_vulns [] 1 0 0 has_callback.

(** ** The text file *)

Section files.
Context (stod : string -> option double) (print_double : double -> string).

(** The fields before the last must all be there. *)
Definition parse_vuln_line (line : string) : option VulnEntry :=
  match line with
  | EmptyString => None
  | String.String c _ =>
      if char_value c =? 35 then None
      else
        let '(vid, ss) := getline_bar (Some line) in
        vid ← vid;
        let '(sw, ss) := getline_bar ss in
        sw ← sw;
        let '(ver, ss) := getline_bar ss in
        ver ← ver;
        let '(sev, ss) := getline_bar ss in
        sev ← sev;
        let '(cvss_str, ss) := getline_bar ss in
        cvss_str ← cvss_str;
        let '(desc, ss) := getline_bar ss in
        desc ← desc;
        let '(fix_text, _) := getline_bar ss in
        Some (Vuln vid sw ver sev (from_option id (dz 0) (stod cvss_str)) desc (from_option id EmptyString fix_text))
  end.

(** [text] is what the file holds, [None] when it does not open. *)
Definition load_vuln_db (st : VulnScanner) (text : option string) : VulnScanner :=
  match text with
  | None => st
  | Some text => with_db st (vuln_db_ st ++ omap parse_vuln_line (get_lines text))
  end.

Definition vuln_line (v : VulnEntry) : string :=
  vuln_id v +:+ "|" +:+ affected_software v +:+ "|" +:+ affected_version_below v +:+ "|" +:+ vuln_severity v +:+ "|" +:+
  print_double (vuln_cvss v) +:+ "|" +:+ vuln_description v +:+ "|" +:+ vuln_remediation v +:+ String.String newline EmptyString.

Definition save_vuln_db (st : VulnScanner) : string :=
  "# GCAD Vulnerability Database" +:+ String.String newline (foldr (fun v text => vuln_line v +:+ text) EmptyString (vuln_db_ st)).
End files.

(** ** The order of versions *)

(** At the first place where they differ, with zeros behind the shorter one, [a] is below [b]. *)
Definition older (a b : list Z) : Prop :=
  exists k, (forall j, (j < k)%nat -> nth j a 0 = nth j b 0) /\ nth k a 0 < nth k b 0.

#[export] Instance older_strict : StrictOrder older.
Proof.
  split.
  - intros a (k & _ & H). lia.
  - intros a b c (i & Hi & H1) (j & Hj & H2). destruct (Nat.lt_trichotomy i j) as [L | [-> | L]].
    + exists i. split; [|by rewrite <- Hj]. intros k Hk. rewrite Hi, Hj by lia. done.
    + exists j. split; [intros k Hk; by rewrite Hi, Hj|lia].
    + exists j. split; [|by rewrite Hi]. intros k Hk. rewrite Hi, Hj by lia. done.
Qed.

Lemma older_cons x y a b : older (x :: a) (y :: b) <-> x < y \/ (x = y /\ older a b).
Proof.
  split.
  - intros ([|k] & Hk & H); [left; exact H|right]. split; [exact (Hk 0%nat ltac:(lia))|].
    exists k. split; [|exact H]. intros j Hj. exact (Hk (S j) ltac:(lia)).
  - intros [H | (-> & k & Hk & H)]; [exists 0%nat; split; [lia|exact H]|]. exists (S k). split; [|exact H].
    intros [|j] Hj; [done|]. apply Hk. lia.
Qed.

Lemma less_loop_spec a b : length a = length b -> less_loop a b = true <-> older a b.
Proof.
  revert b. induction a as [|x a IH]; intros [|y b] L; [|done..|].
  - split; [done|]. intros (k & _ & H). destruct k; cbn in H; lia.
  - injection L as L. rewrite older_cons, <- (IH b L). cbn [less_loop].
    destruct (Z.ltb_spec x y) as [H|H]; [split; [by left|done]|]. destruct (Z.ltb_spec y x) as [H'|H'].
    + split; [done|]. intros [E | [-> _]]; lia.
    + split; [right; split; [lia|done]|]. intros [E | [_ E]]; [lia|done].
Qed.

Lemma nth_resize len v j : (length v <= len)%nat -> nth j (resize_zero len v) 0 = nth j v 0.
Proof.
  intros H. unfold resize_zero. rewrite take_ge by lia. destruct (Nat.lt_ge_cases j (length v)) as [L|L].
  - by rewrite app_nth1.
  - rewrite app_nth2, (nth_overflow v), nth_lookup by lia. destruct (replicate _ 0 !! _) eqn:E; [|done]. by apply lookup_replicate in E as [-> _].
Qed.

Lemma resize_length len v : (length v <= len)%nat -> length (resize_zero len v) = len.
Proof. intros H. unfold resize_zero. rewrite length_app, length_take, length_replicate. lia. Qed.

Lemma older_resize len a b : (length a <= len)%nat -> (length b <= len)%nat -> older (resize_zero len a) (resize_zero len b) <-> older a b.
Proof.
  intros Ha Hb. split; intros (k & Hk & H); exists k.
  - rewrite !nth_resize in H by done. split; [|done]. intros j Hj. specialize (Hk j Hj). by rewrite !nth_resize in Hk.
  - rewrite !nth_resize by done. split; [|done]. intros j Hj. rewrite !nth_resize by done. by apply Hk.
Qed.

Definition all_zero (v : list Z) : Prop := Forall (fun x => x = 0) v.

Lemma all_zero_spec v : forallb (fun x => x =? 0) v = true <-> all_zero v.
Proof. unfold all_zero. rewrite forallb_forall, Forall_forall. setoid_rewrite list_elem_of_In. by setoid_rewrite Z.eqb_eq. Qed.

Lemma tokens_of_started text token : tokens_of text token true <> [].
Proof. revert token. induction text as [|c text IH]; intros token; cbn [tokens_of]; [done|]. by destruct (bool_decide _). Qed.

Lemma parse_version_nonempty ver : ver <> EmptyString -> parse_version ver <> [].
Proof.
  unfold parse_version. destruct ver as [|c ver]; [done|]. intros _. cbn [tokens_of]. destruct (bool_decide _); [done|].
  pose proof (tokens_of_started ver (EmptyString +:+ String.String c EmptyString)) as H. by destruct (tokens_of _ _ _).
Qed.

Lemma version_less_spec installed threshold :
  version_less_than installed threshold = true <->
  installed <> EmptyString /\ threshold <> EmptyString /\ ~ all_zero (parse_version installed) /\
  older (parse_version installed) (parse_version threshold).
Proof.
  unfold version_less_than. destruct (empty_string installed) eqn:Ei; cbn [orb].
  { split; [done|]. intros [H _]. destruct H. by apply empty_string_spec. }
  destruct (empty_string threshold) eqn:Et.
  { split; [done|]. intros (_ & H & _). destruct H. by apply empty_string_spec. }
  assert (Hi : installed <> EmptyString) by (by intros ->). assert (Ht : threshold <> EmptyString) by (by intros ->).
  rewrite !bool_decide_eq_false_2 by (by apply parse_version_nonempty). cbn [orb].
  destruct (forallb _ _) eqn:Ez.
  - apply all_zero_spec in Ez. split; [done|]. by intros (_ & _ & H & _).
  - rewrite less_loop_spec by (rewrite !resize_length; lia). rewrite older_resize by lia. rewrite <- all_zero_spec, Ez.
    split; [by intros H|by intros (_ & _ & _ & H)].
Qed.

Lemma older_or_same a b : length a = length b -> a = b \/ older a b \/ older b a.
Proof.
  revert b. induction a as [|x a IH]; intros [|y b] L; [by left|done..|]. injection L as L. rewrite !older_cons.
  destruct (Z.lt_trichotomy x y) as [H | [-> | H]]; [by right; left; left| |by right; right; left].
  destruct (IH b L) as [-> | [H | H]]; [by left|right; left; by right|right; right; by right].
Qed.

Lemma older_total a b : (forall j, nth j a 0 = nth j b 0) \/ older a b \/ older b a.
Proof.
  set (len := Nat.max (length a) (length b)).
  assert (Ha : (length a <= len)%nat) by (unfold len; lia). assert (Hb : (length b <= len)%nat) by (unfold len; lia).
  destruct (older_or_same (resize_zero len a) (resize_zero len b)) as [H | [H | H]].
  - by rewrite !resize_length.
  - left. intros j. by rewrite <- (nth_resize len a j Ha), H, nth_resize.
  - right; left. by apply (older_resize len).
  - right; right. by apply (older_resize len).
Qed.

(** ** Names *)

(** The first character of a text and the last one. *)
Definition first_char (s : string) : option Ascii.ascii := String.get 0 s.
Definition last_char (s : string) : option Ascii.ascii := String.get (String.length s - 1) s.

Definition no_word (c : option Ascii.ascii) : Prop := match c with Some c => is_alnum c = false | None => True end.

Lemma find_pos_spec (needle s : string) i : find_pos needle s = Some i ->
  exists before after, s = before +:+ needle +:+ after /\ String.length before = i.
Proof.
  revert i. induction s as [|c s IH]; intros i; cbn [find_pos]; destruct (String.prefix needle _) eqn:Ep.
  1, 3: apply prefix_spec in Ep as [rest ->]; intros [= <-]; by exists EmptyString, rest.
  - done.
  - destruct (find_pos needle s) as [k|] eqn:E; [|done]. intros [= <-]. destruct (IH k eq_refl) as (before & after & -> & <-).
    by exists (String.String c before), after.
Qed.

Lemma find_pos_first (needle s before after : string) : s = before +:+ needle +:+ after ->
  exists i, find_pos needle s = Some i /\ (i <= String.length before)%nat.
Proof.
  revert s. induction before as [|c before IH]; intros s ->.
  - exists 0%nat. split; [|done]. assert (E : String.prefix needle (needle +:+ after) = true) by (apply prefix_spec; by exists after).
    change (EmptyString +:+ needle +:+ after) with (needle +:+ after). destruct (needle +:+ after); cbn [find_pos]; by rewrite E.
  - destruct (IH _ eq_refl) as (i & E & Hi). change (String.String c before +:+ needle +:+ after) with (String.String c (before +:+ needle +:+ after)).
    cbn [find_pos]. destruct (String.prefix _ _); [exists 0%nat; split; [done|lia]|]. rewrite E. exists (S i). cbn [String.length]. split; [done|lia].
Qed.

Lemma get_app_l (a b : string) i : (i < String.length a)%nat -> String.get i (a +:+ b) = String.get i a.
Proof. revert i. induction a as [|c a IH]; intros i H; [cbn in H; lia|]. destruct i as [|i]; [done|]. apply IH. cbn in H. lia. Qed.

Lemma get_app_r (a b : string) i : String.get (String.length a + i) (a +:+ b) = String.get i b.
Proof. induction a as [|c a IH]; [done|exact IH]. Qed.

(** The term occurs, and where it first occurs it stands alone. *)
Definition word_in (name term : string) : Prop :=
  exists before after,
    name = before +:+ term +:+ after /\ no_word (last_char before) /\ no_word (first_char after) /\
    forall before' after', name = before' +:+ term +:+ after' -> (String.length before <= String.length before')%nat.

Lemma alnum_at_before before rest : (0 <? String.length before)%nat && alnum_at (before +:+ rest) (String.length before - 1) = false <->
  no_word (last_char before).
Proof.
  unfold alnum_at, last_char. destruct before as [|c before]; [done|]. rewrite get_app_l by (cbn; lia).
  change (0 <? String.length (String.String c before))%nat with true. cbn [andb]. by destruct (String.get _ _).
Qed.

Lemma alnum_at_after front after :
  (String.length front <? String.length (front +:+ after))%nat && alnum_at (front +:+ after) (String.length front) = false <->
  no_word (first_char after).
Proof.
  unfold alnum_at, first_char. pose proof (get_app_r front after 0) as E. rewrite Nat.add_0_r in E. rewrite E, string_app_length.
  destruct after as [|c after]; [by rewrite andb_false_r|]. destruct (Nat.ltb_spec (String.length front) (String.length front + String.length (String.String c after))) as [_|L];
    [done|cbn in L; lia].
Qed.

Lemma name_matches_spec name term :
  name_matches name term = true <-> word_in (string_map tolower name) (string_map tolower term).
Proof.
  unfold name_matches, word_in. set (n := string_map tolower name). set (t := string_map tolower term).
  destruct (find_pos t n) as [pos|] eqn:E.
  - destruct (find_pos_spec _ _ _ E) as (before & after & En & Hp). split.
    + intros H. exists before, after. destruct ((0 <? pos)%nat && _) eqn:E1; [discriminate|]. destruct (_ && _) eqn:E2 in H; [discriminate|].
      split_and!; [done| | |].
      * rewrite <- Hp, En in E1. by apply alnum_at_before in E1.
      * rewrite <- Hp, <- string_app_length in E2. rewrite En, string_app_assoc in E2. by apply alnum_at_after in E2.
      * intros b' a' Hn. destruct (find_pos_first t n b' a' Hn) as (i & Ei & Hi). rewrite E in Ei. injection Ei as ->. lia.
    + intros (b & a & Hn & Hb & Ha & Hmin). assert (Hl : String.length b = String.length before).
      { specialize (Hmin before after En). destruct (find_pos_first t n b a Hn) as (i & Ei & Hi). rewrite E in Ei. injection Ei as ->. lia. }
      rewrite <- Hp, <- Hl, Hn. apply alnum_at_before with (rest := t +:+ a) in Hb. rewrite Hb.
      rewrite string_app_assoc, <- string_app_length. apply alnum_at_after with (front := b +:+ t) in Ha. by rewrite Ha.
  - split; [done|]. intros (b & a & Hn & _). destruct (find_pos_first t n b a Hn) as (i & Ei & _). congruence.
Qed.

(** ** Scans *)

(** The pairs of a program and an entry that affects it, in the order of the loops. *)
Definition affected_pairs (db : list VulnEntry) (software : list SoftwareInfo) : list (SoftwareInfo * VulnEntry) :=
  sw ← software; pair sw <$> filter (fun v => affected sw v = true) db.

Record vulns_ok (st : VulnScanner) : Prop := {
  vk_matches : Z.of_nat (length (matches_ st)) <= MAX_MATCHES;
  vk_id : 0 <= next_id_ st < 2 ^ 64;
  vk_events : 0 <= events_processed_ st < 2 ^ 64;
  vk_threats : 0 <= threats_detected_ st < 2 ^ 64;
}.

Lemma u64_step a n : u64 (u64 a + n) = u64 (a + n).
Proof. unfold u64. apply Z.add_mod_idemp_l. lia. Qed.

Section scan_results.
Context (detected reported : Z -> Z).

Definition match_of (first : Z) (i : nat) (p : SoftwareInfo * VulnEntry) : VulnMatch :=
  let id := u64 (first + Z.of_nat i) in Match id (fst p) (snd p) (detected id).

Definition event_of (first : Z) (i : nat) (p : SoftwareInfo * VulnEntry) : ThreatEvent :=
  threat_of reported (u64 (first + Z.of_nat i)) (fst p) (snd p).

(** What the pairs [ps], all affected, leave. *)
Definition after_pairs (st : VulnScanner) (ps : list (SoftwareInfo * VulnEntry)) : VulnScanner * scanned :=
  let n := Z.of_nat (length ps) in
  let results := imap (match_of (next_id_ st)) ps in
  (Vulns (vuln_db_ st) (last_n MAX_MATCHES (matches_ st ++ results)) (u64 (next_id_ st + n)) (u64 (events_processed_ st + n))
     (u64 (threats_detected_ st + n)) (has_callback st),
   (results, if has_callback st then imap (event_of (next_id_ st)) ps else [])).

Lemma after_none st : vulns_ok st -> after_pairs st [] = (st, ([], [])).
Proof.
  intros [H1 H2 H3 H4]. destruct st as [db ms id ev th cb]; cbn in *. unfold after_pairs. cbn [imap length Z.of_nat vuln_db_ matches_ next_id_ events_processed_ threats_detected_ has_callback].
  rewrite !Z.add_0_r, app_nil_r, last_n_all, !u64_small by done. by destruct cb.
Qed.

Lemma after_snoc st ps sw v : affected sw v = true ->
  scan_pair detected reported sw (after_pairs st ps) v = after_pairs st (ps ++ [(sw, v)]).
Proof.
  intros Ha. unfold scan_pair. rewrite Ha. unfold after_pairs. cbn [vuln_db_ matches_ next_id_ events_processed_ threats_detected_ has_callback].
  rewrite !imap_app, length_app. cbn [length imap]. rewrite !u64_step, !Nat2Z.inj_add, !Z.add_assoc.
  rewrite last_n_push, app_assoc by done. unfold match_of at 5, event_of at 2, compose. cbn [fst snd]. rewrite Nat.add_0_r.
  by destruct (has_callback st).
Qed.

Lemma scan_one_after st sw vs : forall ps,
  scan_one detected reported vs (after_pairs st ps) sw =
  after_pairs st (ps ++ (pair sw <$> filter (fun v => affected sw v = true) vs)).
Proof.
  induction vs as [|v vs IH]; intros ps; [by rewrite app_nil_r|]. unfold scan_one in *. cbn [foldl]. rewrite filter_cons.
  destruct (decide (affected sw v = true)) as [Ha|Ha].
  - rewrite after_snoc, IH by done. rewrite fmap_cons, <- app_assoc. done.
  - assert (E : scan_pair detected reported sw (after_pairs st ps) v = after_pairs st ps) by (unfold scan_pair; by apply not_true_is_false in Ha as ->).
    rewrite E. apply IH.
Qed.

Lemma scan_after st software : vulns_ok st ->
  scan_software detected reported st software = after_pairs st (affected_pairs (vuln_db_ st) software).
Proof.
  intros Hok. unfold scan_software. rewrite <- (after_none st Hok). unfold affected_pairs.
  change (after_pairs st (sw ← software; pair sw <$> filter (fun v => affected sw v = true) (vuln_db_ st)))
    with (after_pairs st ([] ++ (sw ← software; pair sw <$> filter (fun v => affected sw v = true) (vuln_db_ st)))).
  generalize (@nil (SoftwareInfo * VulnEntry)). induction software as [|sw software IH]; intros ps; [by rewrite app_nil_r|].
  cbn [foldl]. rewrite scan_one_after, IH. cbn [mbind list_bind]. by rewrite <- app_assoc.
Qed.
End scan_results.

Lemma scan_keeps_ok detected reported st software : vulns_ok st -> vulns_ok (fst (scan_software detected reported st software)).
Proof.
  intros H. rewrite scan_after by done. split; cbn; [|apply u64_range..]. rewrite last_n_length by done. unfold MAX_MATCHES. lia.
Qed.

Lemma new_vulns_ok cb : vulns_ok (new_vuln_scanner cb).
Proof. by split. Qed.

(** ** The text file *)

Definition plain_vuln (print_double : double -> string) (v : VulnEntry) : Prop :=
  plain (vuln_id v) /\ first_char (vuln_id v) <> Some (char_of 35) /\ plain (affected_software v) /\
  plain (affected_version_below v) /\ plain (vuln_severity v) /\ plain (print_double (vuln_cvss v)) /\
  plain (vuln_description v) /\ plain (vuln_remediation v).

Section files.
Context (stod : string -> option double) (print_double : double -> string).

(** The entry read back: its score is what [stod] makes of the digits the file holds. *)
Definition reread (v : VulnEntry) : VulnEntry :=
  Vuln (vuln_id v) (affected_software v) (affected_version_below v) (vuln_severity v)
    (from_option id (dz 0) (stod (print_double (vuln_cvss v)))) (vuln_description v) (vuln_remediation v).

(** A line without its newline. *)
Definition vuln_text (v : VulnEntry) : string :=
  vuln_id v +:+ String.String bar (affected_software v +:+ String.String bar (affected_version_below v +:+ String.String bar
    (vuln_severity v +:+ String.String bar (print_double (vuln_cvss v) +:+ String.String bar
      (vuln_description v +:+ String.String bar (vuln_remediation v)))))).

Lemma vuln_line_text v : vuln_line print_double v = vuln_text v +:+ String.String newline EmptyString.
Proof. unfold vuln_text. by rewrite !app_bar_app. Qed.

Lemma vuln_text_plain v : plain_vuln print_double v -> has_char newline (vuln_text v) = false.
Proof.
  intros ((_ & H1) & _ & (_ & H2) & (_ & H3) & (_ & H4) & (_ & H5) & (_ & H6) & (_ & H7)). unfold vuln_text.
  by rewrite !has_char_bar_app, H1, H2, H3, H4, H5, H6, H7.
Qed.

Lemma parse_vuln_text v : plain_vuln print_double v -> parse_vuln_line stod (vuln_text v) = Some (reread v).
Proof.
  intros ((H1 & _) & Hh & (H2 & _) & (H3 & _) & (H4 & _) & (H5 & _) & (H6 & _) & (H7 & _)). unfold parse_vuln_line.
  destruct (vuln_text v) as [|c line] eqn:E; [by unfold vuln_text in E; destruct (vuln_id v)|].
  destruct (Z.eqb_spec (char_value c) 35) as [E35|_].
  { exfalso. unfold vuln_text in E. destruct (vuln_id v) as [|d vid]; injection E as Ec _; subst c; [by vm_compute in E35|].
    apply Hh. cbn. f_equal. by apply char_value_inj. }
  rewrite <- E. unfold vuln_text. rewrite getline_bar_app by done. cbn [mbind option_bind].
  do 5 (rewrite getline_bar_app by done; cbn [mbind option_bind]).
  pose proof (getline_bar_last (vuln_remediation v) H7) as Hlast. destruct (getline_bar (Some (vuln_remediation v))) as [fix_text rest].
  cbn [fst] in Hlast. by rewrite Hlast.
Qed.

Lemma parse_saved db : Forall (plain_vuln print_double) db ->
  omap (parse_vuln_line stod) (get_lines (foldr (fun v text => vuln_line print_double v +:+ text) EmptyString db)) = reread <$> db.
Proof.
  induction 1 as [|v db Hv _ IH]; [done|]. cbn [foldr fmap list_fmap]. rewrite vuln_line_text, <- string_app_assoc.
  change (String.String newline EmptyString +:+ ?r) with (String.String newline r). rewrite get_lines_cons by by apply vuln_text_plain.
  cbn [omap list_omap]. rewrite parse_vuln_text by done. by rewrite IH.
Qed.
End files.

(** ** Properties *)

(** C34: versions are compared number by number with zeros behind the shorter one, so that
    "is below" is a strict order in which any two versions that are not all zero compare or
    are the same; an empty version is never below another, nor is one without any number
    but zero. *)
Theorem version_order :
  (forall installed threshold, version_less_than installed threshold = true <->
     installed <> EmptyString /\ threshold <> EmptyString /\ ~ all_zero (parse_version installed) /\
     older (parse_version installed) (parse_version threshold)) /\
  StrictOrder (fun a b => version_less_than a b = true) /\
  (forall a b, ~ all_zero (parse_version a) -> ~ all_zero (parse_version b) -> a <> EmptyString -> b <> EmptyString ->
     version_less_than a b = true \/ version_less_than b a = true \/ forall j, nth j (parse_version a) 0 = nth j (parse_version b) 0).
Proof.
  split; [exact version_less_spec|]. split; [split|].
  - intros a H. apply version_less_spec in H as (_ & _ & _ & H). by apply (irreflexivity older) in H.
  - intros a b c H1 H2. apply version_less_spec in H1 as (Ha & _ & Hz & H1), H2 as (_ & Hc & _ & H2). apply version_less_spec.
    split_and!; [done..|]. by transitivity (parse_version b).
  - intros a b Ha Hb Hae Hbe. rewrite !version_less_spec. destruct (older_total (parse_version a) (parse_version b)) as [H | [H | H]]; tauto.
Qed.

(** Patch levels, a missing part, a release against its candidate without a number, and a number no [int] holds. *)
Lemma version_order_witness :
  version_less_than "3.0.13" "3.0.14" = true /\ version_less_than "3.1" "3.0.14" = false /\ version_less_than "6.24" "6.24.0" = false /\
  version_less_than "v2.1" "2.44.1" = true /\ version_less_than "3.99999999999" "3.0.14" = true /\
  (version_less_than "2.9" "2.10" = true \/ version_less_than "2.10" "2.9" = true \/
   forall j, nth j (parse_version "2.9") 0 = nth j (parse_version "2.10") 0).
Proof.
  split_and!; [vm_compute; reflexivity..|].
  apply (proj2 (proj2 version_order)); [..|done|done]; intros H; apply all_zero_spec in H; vm_compute in H; discriminate H.
Defined.

(** C33: a scan reports exactly the pairs of a program and an entry that affects it, a program
    after the other and the entries in the order of the database, under consecutive numbers;
    it counts each once as an event and once as a threat, hands the callback one threat for
    each in the same order, keeps the database, and leaves the log with the latest 500 of
    the matches so far.  A program is affected when the name of the entry occurs in its own,
    whatever the case, where it first occurs stands alone as a word, and the version is below. *)
Theorem scan_software_spec (detected reported : Z -> Z) (st : VulnScanner) (software : list SoftwareInfo) :
  vulns_ok st ->
  let '(st', (results, threats)) := scan_software detected reported st software in
  let ps := affected_pairs (vuln_db_ st) software in
  results = imap (match_of detected (next_id_ st)) ps /\
  threats = (if has_callback st then imap (event_of reported (next_id_ st)) ps else []) /\
  matches_ st' = last_n MAX_MATCHES (matches_ st ++ results) /\ vuln_db_ st' = vuln_db_ st /\
  next_id_ st' = u64 (next_id_ st + Z.of_nat (length ps)) /\
  events_processed_ st' = u64 (events_processed_ st + Z.of_nat (length ps)) /\
  threats_detected_ st' = u64 (threats_detected_ st + Z.of_nat (length ps)) /\
  vulns_ok st' /\
  (forall sw v, (sw, v) ∈ ps <->
     sw ∈ software /\ v ∈ vuln_db_ st /\ word_in (string_map tolower (sw_name sw)) (string_map tolower (affected_software v)) /\
     version_less_than (sw_version sw) (affected_version_below v) = true).
Proof.
  intros Hok. pose proof (scan_keeps_ok detected reported st software Hok) as Hok'. rewrite scan_after in * by done.
  cbn [after_pairs matches_ vuln_db_ next_id_ events_processed_ threats_detected_ has_callback] in *. split_and!; try done.
  intros sw v. unfold affected_pairs. rewrite list_elem_of_bind. split.
  - intros (sw' & Hin & Hsw). apply list_elem_of_fmap in Hin as (v' & [= <- <-] & Hv). apply list_elem_of_filter in Hv as [Ha Hv].
    unfold affected in Ha. apply andb_true_iff in Ha as [Hn%name_matches_spec Hv'%version_less_spec]. rewrite version_less_spec. tauto.
  - intros (Hsw & Hv & Hn & Hl). exists sw. split; [|done]. apply list_elem_of_fmap. exists v. split; [done|].
    apply list_elem_of_filter. split; [|done]. unfold affected. apply name_matches_spec in Hn as ->. by rewrite Hl.
Qed.

Definition some_software : list SoftwareInfo :=
  [Software "Git version" EmptyString "2.43.0" "C:\Git" "registry"; Software "GitHub Desktop" EmptyString "1.0" EmptyString "registry";
   Software "Legit Git" EmptyString "2.0" EmptyString "registry"; Software "7-Zip 24.01 (x64)" EmptyString "24.01" EmptyString "registry"]%string.

(** One of four programs is reported; the third is missed, since "git" first occurs inside a word. *)
Lemma scan_software_spec_witness :
  (vm_id <$> fst (snd (scan_software (fun id => id) (fun id => id) (new_vuln_scanner true) some_software))) = [1] /\
  (sw_name <$> (vm_software <$> fst (snd (scan_software (fun id => id) (fun id => id) (new_vuln_scanner true) some_software)))) = ["Git version"%string].
Proof.
  pose proof (scan_software_spec (fun id => id) (fun id => id) (new_vuln_scanner true) some_software (new_vulns_ok true)) as H.
  destruct (scan_software _ _ _ _) as [st' [results threats]]. destruct H as (-> & _). vm_compute. split; reflexivity.
Defined.

(** the file of a database, read back, gives its entries in order, behind those the
    scanner has, provided no text of an entry holds a bar or a newline and no name starts as
    a comment; only the scores go through their digits. *)
Theorem vuln_db_roundtrip (stod : string -> option double) (print_double : double -> string) (st st' : VulnScanner) :
  Forall (plain_vuln print_double) (vuln_db_ st) ->
  load_vuln_db stod st' (Some (save_vuln_db print_double st)) = with_db st' (vuln_db_ st' ++ (reread stod print_double <$> vuln_db_ st)).
Proof.
  intros H. unfold load_vuln_db, save_vuln_db. rewrite get_lines_cons by (vm_compute; reflexivity). cbn [omap list_omap].
  replace (parse_vuln_line stod "# GCAD Vulnerability Database") with (@None VulnEntry) by reflexivity. by rewrite parse_saved.
Qed.

(** Saved and loaded by the same scanner, every entry is there twice. *)
Lemma vuln_db_roundtrip_witness :
  vuln_db_size (load_vuln_db (fun _ => None) (new_vuln_scanner true) (Some (save_vuln_db (fun _ => "1"%string) (new_vuln_scanner true)))) = 24.
Proof.
  rewrite vuln_db_roundtrip; [reflexivity|]. cbn [vuln_db_ new_vuln_scanner]. unfold builtin_vulns.
  repeat (apply Forall_cons; split; [by vm_compute|]). apply Forall_nil. exact I.
Defined.
