(* ===== verification/UpdateEngine.v ===== *)
(** * UpdateEngine: the data files of the engines and their checksums

    Models src/src/engines/update_engine.cpp: the version a file declares, loading a
    database against an expected checksum, the manifest and its text file, and the periodic
    check.  A file is opened again for each of its readings, so each reading has a disk of
    its own; the operations that change the state are steps under the mutex, and a threat is
    returned as what the callback gets.  Files are read without translation of line ends. *)
From S2P Require Import Prelude BoundedLog Sha2 Observation Text Threat.

#[local] Opaque hash_file.

(** What a path leads to: nothing, a file that does not open, or a content. *)
Definition disk : Type := string -> option (option (list byte)).

Definition exists_on (d : disk) (path : string) : bool := bool_decide (is_Some (d path)).

Definition open_on (d : disk) (path : string) : option (list byte) := from_option id None (d path).

Record UpdateManifest := Manifest {
  mf_db_name : string;
  mf_version : string;
  mf_sha256 : string;
  mf_file_path : string;
  mf_updated_at : Z;
}.

Inductive UpdateResult := SUCCESS | FILE_NOT_FOUND | CHECKSUM_MISMATCH | PARSE_ERROR | ALREADY_CURRENT.

#[export] Instance UpdateResult_eq_decision : EqDecision UpdateResult.
Proof. solve_decision. Defined.

Record UpdateRecord := Updated {
  ur_id : Z;
  ur_db_name : string;
  ur_old_version : string;
  ur_new_version : string;
  ur_result : UpdateResult;
  ur_timestamp : Z;
}.

Definition MAX_UPDATE_LOG : Z := 500.

Record UpdateEngine := Updates {
  ue_events : Z;
  ue_threats : Z;
  ue_next_id : Z;
  ue_manifests : list UpdateManifest;
  ue_log : list UpdateRecord;
  ue_callback : bool;
}.

Definition new_updates (callback : bool) : UpdateEngine := Updates 0 0 1 [] [] callback.

(** ** Files *)

(** The loop of reads is that of [hash_file]. *)
Definition compute_file_sha256 (d : disk) (path : string) : string := hash_file (open_on d path).

Definition verify_checksum (d : disk) (path expected : string) : bool :=
  if empty_string expected then true else String.eqb (compute_file_sha256 d path) (string_map tolower expected).

Fixpoint drop_front (chars : list Z) (s : string) : string :=
  match s with
  | String.String c rest => if one_of chars c then drop_front chars rest else s
  | EmptyString => EmptyString
  end.

Fixpoint drop_back (chars : list Z) (s : string) : string :=
  match s with
  | EmptyString => EmptyString
  | String.String c rest =>
      let rest := drop_back chars rest in
      if empty_string rest && one_of chars c then EmptyString else String.String c rest
  end.

(** The value of a header line, without blanks before it and blanks and line ends behind it. *)
Definition version_value (line : string) : option string :=
  let pos := match find_pos "version:" line with Some pos => Some pos | None => find_pos "Version:" line end in
  match pos with
  | None => None
  | Some pos =>
      let val := drop_back [32; 13; 10] (drop_front [32; 9] (str_drop (pos + 8) line)) in
      if empty_string val then None else Some val
  end.

Fixpoint version_loop (lines : list string) : string :=
  match lines with
  | [] => "1.0.0"%string
  | line :: lines =>
      match line with
      | EmptyString => "1.0.0"%string
      | String.String c _ =>
          if negb (char_value c =? 35) then "1.0.0"%string
          else match version_value line with Some val => val | None => version_loop lines end
      end
  end.

Definition parse_version_from_file (d : disk) (path : string) : string :=
  match open_on d path with
  | None => "0.0.0"%string
  | Some content => version_loop (get_lines (string_of_bytes content))
  end.

(** ** Loading a database *)

(** The loop over the manifests and the entry behind it; [None] when the file is the one
    the manifest knows. *)
Fixpoint update_manifest (manifests : list UpdateManifest) (db version sha path : string) (now : Z) : option (list UpdateManifest) :=
  match manifests with
  | [] => Some [Manifest db version sha path now]
  | m :: manifests =>
      if String.eqb (mf_db_name m) db then
        if String.eqb (mf_sha256 m) sha then None else Some (Manifest (mf_db_name m) version sha path now :: manifests)
      else cons m <$> update_manifest manifests db version sha path now
  end.

Definition with_manifests (st : UpdateEngine) (ms : list UpdateManifest) : UpdateEngine :=
  Updates (ue_events st) (ue_threats st) (ue_next_id st) ms (ue_log st) (ue_callback st).

(** The disks at the four readings of a load. *)
Record readings := Readings { at_exists : disk; at_verify : disk; at_version : disk; at_hash : disk }.

Definition validate_and_update (st : UpdateEngine) (db path expected : string) (r : readings) (now : Z) : UpdateResult * UpdateEngine :=
  if negb (exists_on (at_exists r) path) then (FILE_NOT_FOUND, st)
  else if negb (verify_checksum (at_verify r) path expected) then (CHECKSUM_MISMATCH, st)
  else
    let new_version := parse_version_from_file (at_version r) path in
    let sha := compute_file_sha256 (at_hash r) path in
    match update_manifest (ue_manifests st) db new_version sha path now with
    | None => (ALREADY_CURRENT, st)
    | Some ms => (SUCCESS, with_manifests st ms)
    end.

Definition integrity_threat (db : string) (now : Z) : ThreatEvent :=
  Event 0 now HIGH ANTI_FORENSIC 0 EmptyString EmptyString
    ("Update integrity check failed for " +:+ db +:+ " " +:+ em_dash +:+ " possible tampering") EmptyString 0 false false.

Definition push_record (st : UpdateEngine) (db old_ver new_ver : string) (result : UpdateResult) (now : Z) : UpdateEngine :=
  Updates (ue_events st) (ue_threats st) (u64 (ue_next_id st + 1)) (ue_manifests st)
    (push_bounded MAX_UPDATE_LOG (ue_log st) (Updated (ue_next_id st) db old_ver new_ver result now)) (ue_callback st).

Definition record_update (st : UpdateEngine) (db old_ver new_ver : string) (result : UpdateResult) (now : Z) : UpdateEngine * list output :=
  let st := push_record st db old_ver new_ver result now in
  if bool_decide (result = CHECKSUM_MISMATCH) then
    (Updates (ue_events st) (u64 (ue_threats st + 1)) (ue_next_id st) (ue_manifests st) (ue_log st) (ue_callback st),
     if ue_callback st then [Threat (integrity_threat db now)] else [])
  else (st, []).

Definition count_event (st : UpdateEngine) : UpdateEngine :=
  Updates (u64 (ue_events st + 1)) (ue_threats st) (ue_next_id st) (ue_manifests st) (ue_log st) (ue_callback st).

Fixpoint version_of (manifests : list UpdateManifest) (db : string) : string :=
  match manifests with
  | [] => EmptyString
  | m :: manifests => if String.eqb (mf_db_name m) db then mf_version m else version_of manifests db
  end.

(** The three loaders differ in the name only. *)
Definition load_db (db : string) (st : UpdateEngine) (path expected : string) (r : readings) (now : Z) : UpdateResult * UpdateEngine * list output :=
  let '(result, st) := validate_and_update st db path expected r now in
  let st := count_event st in
  let '(st, outs) := record_update st db EmptyString (version_of (ue_manifests st) db) result now in
  (result, st, outs).

Definition load_signature_db := load_db "signatures".
Definition load_ioc_db := load_db "ioc".
Definition load_yara_rules := load_db "yara".

(** ** The periodic check *)

(** The body of the loop: the disk when an entry is looked for and hashed, and when its
    version is read. *)
Definition check_entry (d d' : disk) (now : Z) (x : UpdateEngine * list UpdateManifest * Z) (m : UpdateManifest) : UpdateEngine * list UpdateManifest * Z :=
  let '(st, ms, changed) := x in
  if empty_string (mf_file_path m) || negb (exists_on d (mf_file_path m)) then (st, ms ++ [m], changed)
  else
    let current_sha := compute_file_sha256 d (mf_file_path m) in
    if String.eqb current_sha (mf_sha256 m) then (st, ms ++ [m], changed)
    else
      let new_ver := parse_version_from_file d' (mf_file_path m) in
      (push_record st (mf_db_name m) (mf_version m) new_ver SUCCESS now,
       ms ++ [Manifest (mf_db_name m) new_ver current_sha (mf_file_path m) now], changed + 1).

Definition check_for_updates (st : UpdateEngine) (d d' : disk) (now : Z) : UpdateEngine * Z :=
  let '(st, ms, changed) := foldl (check_entry d d' now) (st, [], 0) (ue_manifests st) in
  (count_event (with_manifests st ms), changed).

Definition current_versions (st : UpdateEngine) : list UpdateManifest := ue_manifests st.
Definition recent_updates (st : UpdateEngine) (n : Z) : list UpdateRecord := latest n (ue_log st).

(** ** The manifest file *)

Definition manifest_line (m : UpdateManifest) : string :=
  mf_db_name m +:+ "|" +:+ mf_version m +:+ "|" +:+ mf_sha256 m +:+ "|" +:+ mf_file_path m +:+ String.String newline EmptyString.

Definition write_manifest (st : UpdateEngine) : string :=
  "# GCAD Update Manifest" +:+ String.String newline (foldr (fun m text => manifest_line m +:+ text) EmptyString (ue_manifests st)).

(** The four fields of a line. *)
Definition parse_manifest_line (line : string) : option (string * string * string * string) :=
  match line with
  | EmptyString => None
  | String.String c _ =>
      if char_value c =? 35 then None
      else
        let '(db_name, ss) := getline_bar (Some line) in
        db_name ← db_name;
        let '(version, ss) := getline_bar ss in
        version ← version;
        let '(sha, ss) := getline_bar ss in
        let '(fpath, _) := getline_bar ss in
        Some (db_name, version, from_option id EmptyString sha, from_option id EmptyString fpath)
  end.

(** The first entry of the name takes the fields, or a new one with the epoch as its time. *)
Fixpoint merge_manifest (manifests : list UpdateManifest) (x : string * string * string * string) : list UpdateManifest :=
  let '(db_name, version, sha, fpath) := x in
  match manifests with
  | [] => [Manifest db_name version sha fpath 0]
  | m :: manifests =>
      if String.eqb (mf_db_name m) db_name then Manifest (mf_db_name m) version sha fpath (mf_updated_at m) :: manifests
      else m :: merge_manifest manifests x
  end.

Definition read_manifest (st : UpdateEngine) (text : option string) : bool * UpdateEngine :=
  match text with
  | None => (false, st)
  | Some text => (true, with_manifests st (foldl merge_manifest (ue_manifests st) (omap parse_manifest_line (get_lines text))))
  end.

(** ** Lemmas *)

Definition db_names (ms : list UpdateManifest) : list string := mf_db_name <$> ms.

Record updates_ok (st : UpdateEngine) : Prop := {
  uo_log : Z.of_nat (length (ue_log st)) <= MAX_UPDATE_LOG;
  uo_id : 0 <= ue_next_id st < 2 ^ 64;
  uo_names : NoDup (db_names (ue_manifests st));
}.

Lemma update_manifest_none ms db version sha path now : update_manifest ms db version sha path now = None ->
  exists m, m ∈ ms /\ mf_db_name m = db /\ mf_sha256 m = sha.
Proof.
  induction ms as [|m ms IH]; cbn [update_manifest]; [done|].
  destruct (String.eqb_spec (mf_db_name m) db) as [E|_].
  - destruct (String.eqb_spec (mf_sha256 m) sha) as [Es|_]; [|done]. intros _. exists m. split_and!; [left|done|done].
  - destruct (update_manifest ms _ _ _ _ _); [done|]. intros _. destruct (IH eq_refl) as (m' & Hin & H). exists m'. split; [by right|done].
Qed.

Lemma update_manifest_some ms ms' db version sha path now : update_manifest ms db version sha path now = Some ms' ->
  db_names ms' = (if bool_decide (db ∈ db_names ms) then db_names ms else db_names ms ++ [db]) /\
  Manifest db version sha path now ∈ ms' /\ (forall m, mf_db_name m <> db -> m ∈ ms' <-> m ∈ ms).
Proof.
  revert ms'. induction ms as [|m ms IH]; intros ms'; cbn [update_manifest].
  - intros [= <-]. rewrite bool_decide_eq_false_2 by (by intros ?%elem_of_nil). split_and!; [done|left|].
    intros m Hm. rewrite elem_of_cons, elem_of_nil. split; [|done]. intros [-> | []]. by destruct Hm.
  - destruct (String.eqb_spec (mf_db_name m) db) as [E|E].
    + destruct (String.eqb_spec (mf_sha256 m) sha) as [Es|_]; [done|]. intros [= <-].
      rewrite bool_decide_eq_true_2 by (rewrite <- E; left). split_and!; [done|rewrite E; left|].
      intros m' Hm'. rewrite !elem_of_cons. split; intros [-> | H]; [by destruct Hm'|by right|by destruct Hm'|by right].
    + destruct (update_manifest ms _ _ _ _ _) as [ms0|] eqn:E0; [|done]. intros [= <-]. destruct (IH _ eq_refl) as (H1 & H2 & H3).
      split_and!; [|by right|].
      * unfold db_names in *. cbn [fmap list_fmap]. rewrite H1.
        destruct (decide (db ∈ mf_db_name <$> ms)) as [Hin|Hn].
        -- rewrite !bool_decide_eq_true_2; [done|by right|done].
        -- rewrite !bool_decide_eq_false_2; [done| |done]. rewrite elem_of_cons. intros [H|H]; [by apply E|done].
      * intros m' Hm'. rewrite !elem_of_cons, H3 by done. done.
Qed.

Lemma update_names_distinct ms ms' db version sha path now : update_manifest ms db version sha path now = Some ms' ->
  NoDup (db_names ms) -> NoDup (db_names ms').
Proof.
  intros H Hnd. destruct (update_manifest_some _ _ _ _ _ _ _ H) as (-> & _). case_bool_decide as Hin; [done|].
  apply NoDup_app. split_and!; [done| |apply NoDup_singleton]. intros x Hx ->%list_elem_of_singleton. done.
Qed.

Lemma version_of_in ms m : NoDup (db_names ms) -> m ∈ ms -> version_of ms (mf_db_name m) = mf_version m.
Proof.
  induction ms as [|m' ms IH]; intros Hnd Hin; [by apply elem_of_nil in Hin|]. apply NoDup_cons in Hnd as [Hm' Hnd]. cbn [version_of].
  apply elem_of_cons in Hin as [-> | Hin]; [by rewrite String.eqb_refl|].
  destruct (String.eqb_spec (mf_db_name m') (mf_db_name m)) as [E|_]; [|by apply IH]. destruct Hm'. rewrite E. by apply list_elem_of_fmap_2.
Qed.

Lemma push_record_ok st db old_ver new_ver result now : updates_ok st -> updates_ok (push_record st db old_ver new_ver result now).
Proof.
  intros [H1 H2 H3]. split; cbn; [|apply u64_range|done]. unfold push_bounded. rewrite last_n_length by done. lia.
Qed.

(** What a load leaves: the record, whatever the result. *)
Lemma load_db_after db st path expected r now :
  let '(result, st1) := validate_and_update st db path expected r now in
  let '(result', st', outs) := load_db db st path expected r now in
  result' = result /\ ue_manifests st' = ue_manifests st1 /\
  ue_log st' = push_bounded MAX_UPDATE_LOG (ue_log st1) (Updated (ue_next_id st1) db EmptyString (version_of (ue_manifests st1) db) result now) /\
  ue_next_id st' = u64 (ue_next_id st1 + 1) /\ ue_callback st' = ue_callback st1 /\
  ue_threats st' = (if bool_decide (result = CHECKSUM_MISMATCH) then u64 (ue_threats st1 + 1) else ue_threats st1) /\
  outs = (if bool_decide (result = CHECKSUM_MISMATCH) && ue_callback st1 then [Threat (integrity_threat db now)] else []).
Proof.
  unfold load_db. destruct (validate_and_update st db path expected r now) as [result st1]. unfold record_update.
  destruct (bool_decide (result = CHECKSUM_MISMATCH)); by split_and!.
Qed.

(** *** The check *)

Definition stale (d : disk) (m : UpdateManifest) : bool :=
  negb (empty_string (mf_file_path m)) && exists_on d (mf_file_path m) &&
  negb (String.eqb (compute_file_sha256 d (mf_file_path m)) (mf_sha256 m)).

Definition refreshed (d d' : disk) (now : Z) (m : UpdateManifest) : UpdateManifest :=
  if stale d m then
    Manifest (mf_db_name m) (parse_version_from_file d' (mf_file_path m)) (compute_file_sha256 d (mf_file_path m)) (mf_file_path m) now
  else m.

Definition stale_ones (d : disk) (ms : list UpdateManifest) : list UpdateManifest := filter (fun m => stale d m = true) ms.

(** The record of the [i]-th change. *)
Definition change_record (d' : disk) (now first : Z) (i : nat) (m : UpdateManifest) : UpdateRecord :=
  Updated (u64 (first + Z.of_nat i)) (mf_db_name m) (mf_version m) (parse_version_from_file d' (mf_file_path m)) SUCCESS now.

Definition with_changes (st : UpdateEngine) (d' : disk) (now : Z) (ms : list UpdateManifest) : UpdateEngine :=
  Updates (ue_events st) (ue_threats st) (u64 (ue_next_id st + Z.of_nat (length ms))) (ue_manifests st)
    (last_n MAX_UPDATE_LOG (ue_log st ++ imap (change_record d' now (ue_next_id st)) ms)) (ue_callback st).

Lemma with_changes_snoc st d' now ms m :
  push_record (with_changes st d' now ms) (mf_db_name m) (mf_version m) (parse_version_from_file d' (mf_file_path m)) SUCCESS now =
  with_changes st d' now (ms ++ [m]).
Proof.
  unfold push_record, with_changes. cbn [ue_events ue_threats ue_next_id ue_manifests ue_log ue_callback].
  rewrite imap_app, length_app. cbn [imap length]. rewrite last_n_push, app_assoc by done. unfold change_record at 3, compose.
  rewrite Nat.add_0_r, Nat2Z.inj_add, Z.add_assoc. f_equal. unfold u64. apply Z.add_mod_idemp_l. lia.
Qed.

Lemma check_entry_stale d d' now st ms n m :
  check_entry d d' now (st, ms, n) m =
  (if stale d m then push_record st (mf_db_name m) (mf_version m) (parse_version_from_file d' (mf_file_path m)) SUCCESS now else st,
   ms ++ [refreshed d d' now m], if stale d m then n + 1 else n).
Proof.
  unfold check_entry, refreshed, stale. destruct (empty_string _); [done|]. destruct (exists_on _ _); [|done]. by destruct (String.eqb _ _).
Qed.

Lemma check_entry_run d d' now st ms : forall before done_ms n,
  foldl (check_entry d d' now) (with_changes st d' now before, done_ms, n) ms =
  (with_changes st d' now (before ++ stale_ones d ms), done_ms ++ (refreshed d d' now <$> ms), n + Z.of_nat (length (stale_ones d ms))).
Proof.
  induction ms as [|m ms IH]; intros before done_ms n; cbn [foldl fmap list_fmap]; [by rewrite !app_nil_r, Z.add_0_r|].
  rewrite check_entry_stale. unfold stale_ones. rewrite filter_cons. destruct (stale d m).
  - rewrite with_changes_snoc, IH, decide_True, <- !app_assoc by done. cbn [length app]. unfold stale_ones. f_equal. lia.
  - rewrite IH, decide_False, <- app_assoc by done. done.
Qed.

Lemma refreshed_fresh d d' now m : stale d (refreshed d d' now m) = false.
Proof.
  unfold refreshed. destruct (stale d m) eqn:E; [|done]. unfold stale. cbn [mf_file_path mf_sha256]. rewrite String.eqb_refl. by rewrite andb_false_r.
Qed.

Lemma refreshed_name d d' now m : mf_db_name (refreshed d d' now m) = mf_db_name m.
Proof. unfold refreshed. by destruct (stale d m). Qed.

Lemma with_changes_none st d' now : updates_ok st -> with_changes st d' now [] = st.
Proof.
  intros [H1 H2 _]. destruct st; cbn in *. unfold with_changes. cbn [ue_events ue_threats ue_next_id ue_manifests ue_log ue_callback imap length Z.of_nat].
  by rewrite Z.add_0_r, u64_small, app_nil_r, last_n_all.
Qed.

Lemma check_after st d d' now : updates_ok st ->
  check_for_updates st d d' now =
  (count_event (with_manifests (with_changes st d' now (stale_ones d (ue_manifests st))) (refreshed d d' now <$> ue_manifests st)),
   Z.of_nat (length (stale_ones d (ue_manifests st)))).
Proof. intros H. unfold check_for_updates. rewrite <- (with_changes_none st d' now H) at 1. by rewrite check_entry_run. Qed.

Lemma check_keeps_ok st d d' now : updates_ok st -> updates_ok (fst (check_for_updates st d d' now)).
Proof.
  intros H. rewrite check_after by done. destruct H as [H1 H2 H3]. split; cbn; [|apply u64_range|].
  - rewrite last_n_length by done. unfold MAX_UPDATE_LOG. lia.
  - unfold db_names. rewrite <- list_fmap_compose. rewrite (list_fmap_ext _ mf_db_name); [done|]. intros i m _. apply refreshed_name.
Qed.

(** *** The manifest file *)

Definition fields (m : UpdateManifest) : string * string * string * string := (mf_db_name m, mf_version m, mf_sha256 m, mf_file_path m).

Definition plain_manifest (m : UpdateManifest) : Prop :=
  plain (mf_db_name m) /\ String.get 0 (mf_db_name m) <> Some (char_of 35) /\ plain (mf_version m) /\ plain (mf_sha256 m) /\ plain (mf_file_path m).

Definition manifest_text (m : UpdateManifest) : string :=
  mf_db_name m +:+ String.String bar (mf_version m +:+ String.String bar (mf_sha256 m +:+ String.String bar (mf_file_path m))).

Lemma manifest_line_text m : manifest_line m = manifest_text m +:+ String.String newline EmptyString.
Proof.
  unfold manifest_text. by rewrite !app_bar_app.
Qed.

Lemma manifest_text_plain m : plain_manifest m -> has_char newline (manifest_text m) = false.
Proof.
  intros ((_ & H1) & _ & (_ & H2) & (_ & H3) & (_ & H4)). unfold manifest_text.
  by rewrite !has_char_bar_app, H1, H2, H3, H4.
Qed.

Lemma parse_manifest_text m : plain_manifest m -> parse_manifest_line (manifest_text m) = Some (fields m).
Proof.
  intros ((H1 & _) & Hh & (H2 & _) & (H3 & _) & (H4 & _)). unfold parse_manifest_line.
  destruct (manifest_text m) as [|c line] eqn:E; [by unfold manifest_text in E; destruct (mf_db_name m)|].
  destruct (Z.eqb_spec (char_value c) 35) as [E35|_].
  { exfalso. unfold manifest_text in E. destruct (mf_db_name m) as [|x name]; injection E as Ec _; subst c; [by vm_compute in E35|].
    apply Hh. cbn. f_equal. by apply char_value_inj. }
  rewrite <- E. unfold manifest_text. do 3 (rewrite getline_bar_app by done; cbn [mbind option_bind]).
  pose proof (getline_bar_last (mf_file_path m) H4) as Hlast. destruct (getline_bar (Some (mf_file_path m))) as [fpath rest].
  cbn [fst] in Hlast. by rewrite Hlast.
Qed.

Lemma parse_written ms : Forall plain_manifest ms ->
  omap parse_manifest_line (get_lines (foldr (fun m text => manifest_line m +:+ text) EmptyString ms)) = fields <$> ms.
Proof.
  induction 1 as [|m ms Hm _ IH]; [done|]. cbn [foldr fmap list_fmap]. rewrite manifest_line_text, <- string_app_assoc.
  change (String.String newline EmptyString +:+ ?r) with (String.String newline r). rewrite get_lines_cons by by apply manifest_text_plain.
  cbn [omap list_omap]. by rewrite parse_manifest_text, IH.
Qed.

Definition at_epoch (m : UpdateManifest) : UpdateManifest := Manifest (mf_db_name m) (mf_version m) (mf_sha256 m) (mf_file_path m) 0.

Lemma merge_new ms m : mf_db_name m ∉ db_names ms -> merge_manifest ms (fields m) = ms ++ [at_epoch m].
Proof.
  induction ms as [|m' ms IH]; intros H; [done|]. unfold db_names in H. cbn [fmap list_fmap] in H. apply not_elem_of_cons in H as [Hn H].
  cbn [merge_manifest fields]. destruct (String.eqb_spec (mf_db_name m') (mf_db_name m)) as [E|_]; [by destruct Hn|]. cbn [app]. f_equal. by apply IH.
Qed.

Lemma merge_all_new ms : forall acc, NoDup (db_names (acc ++ ms)) -> foldl merge_manifest acc (fields <$> ms) = acc ++ (at_epoch <$> ms).
Proof.
  induction ms as [|m ms IH]; intros acc H; cbn [fmap list_fmap foldl]; [by rewrite app_nil_r|].
  rewrite merge_new.
  - assert (E : db_names ((acc ++ [at_epoch m]) ++ ms) = db_names (acc ++ m :: ms)) by (unfold db_names; rewrite !fmap_app; cbn; by rewrite <- app_assoc).
    rewrite IH by by rewrite E. by rewrite <- app_assoc.
  - unfold db_names in *. rewrite fmap_app in H. cbn [fmap list_fmap] in H. apply NoDup_app in H as (_ & H & _). intros Hin. apply (H _ Hin). left.
Qed.

Lemma merge_known ms m : NoDup (db_names ms) -> m ∈ ms -> merge_manifest ms (fields m) = ms.
Proof.
  induction ms as [|m' ms IH]; intros Hnd Hin; [by apply elem_of_nil in Hin|]. apply NoDup_cons in Hnd as [Hm' Hnd]. cbn [merge_manifest fields].
  destruct (String.eqb_spec (mf_db_name m') (mf_db_name m)) as [E|E].
  - apply elem_of_cons in Hin as [-> | Hin]; [by destruct m'|]. destruct Hm'. rewrite E. by apply list_elem_of_fmap_2.
  - apply elem_of_cons in Hin as [-> | Hin]; [by destruct E|]. f_equal. by apply IH.
Qed.

Lemma merge_all_known all ms : NoDup (db_names all) -> ms ⊆ all -> foldl merge_manifest all (fields <$> ms) = all.
Proof.
  intros Hnd. induction ms as [|m ms IH]; intros H; [done|]. cbn [fmap list_fmap foldl].
  rewrite merge_known by (done || (apply H; left)). apply IH. intros x Hx. apply H. by right.
Qed.

(** ** Properties *)

(** C26: a load changes the manifest only for a file that exists and whose content, as it
    stood when it was checked, has the expected checksum; then the entry of the database has
    the version and the hash read afterwards, no other entry changes, and where one disk
    serves all readings that hash is the expected one.  A load that finds another checksum
    changes no entry and raises one threat of level HIGH; every load leaves one record with
    its result, and names stay distinct. *)
Theorem loads_check_integrity (db : string) (st : UpdateEngine) (path expected : string) (r : readings) (now : Z) :
  updates_ok st ->
  let '(result, st', outs) := load_db db st path expected r now in
  updates_ok st' /\
  ue_log st' = push_bounded MAX_UPDATE_LOG (ue_log st) (Updated (ue_next_id st) db EmptyString (version_of (ue_manifests st') db) result now) /\
  match result with
  | SUCCESS =>
      exists_on (at_exists r) path = true /\
      (expected <> EmptyString -> compute_file_sha256 (at_verify r) path = string_map tolower expected) /\
      Manifest db (parse_version_from_file (at_version r) path) (compute_file_sha256 (at_hash r) path) path now ∈ ue_manifests st' /\
      (forall m, mf_db_name m <> db -> m ∈ ue_manifests st' <-> m ∈ ue_manifests st) /\ outs = []
  | ALREADY_CURRENT =>
      ue_manifests st' = ue_manifests st /\ outs = [] /\
      exists m, m ∈ ue_manifests st /\ mf_db_name m = db /\ mf_sha256 m = compute_file_sha256 (at_hash r) path
  | FILE_NOT_FOUND => ue_manifests st' = ue_manifests st /\ exists_on (at_exists r) path = false /\ outs = []
  | CHECKSUM_MISMATCH =>
      ue_manifests st' = ue_manifests st /\ expected <> EmptyString /\
      compute_file_sha256 (at_verify r) path <> string_map tolower expected /\
      outs = (if ue_callback st then [Threat (integrity_threat db now)] else [])
  | PARSE_ERROR => False
  end /\
  (result = SUCCESS -> expected <> EmptyString -> at_hash r = at_verify r ->
     exists m, m ∈ ue_manifests st' /\ mf_db_name m = db /\ mf_sha256 m = string_map tolower expected).
Proof.
  intros Hok. pose proof (load_db_after db st path expected r now) as H. unfold validate_and_update, verify_checksum in H.
  destruct (load_db db st path expected r now) as [[result st'] outs].
  assert (Hpush : forall ms ver res, NoDup (db_names ms) -> ue_manifests st' = ms ->
    ue_log st' = push_bounded MAX_UPDATE_LOG (ue_log st) (Updated (ue_next_id st) db EmptyString ver res now) ->
    ue_next_id st' = u64 (ue_next_id st + 1) -> updates_ok st').
  { intros ms ver res Hms Em El Ei. destruct Hok as [H1 H2 _]. split; [rewrite El; unfold push_bounded; rewrite last_n_length by done; lia|rewrite Ei; apply u64_range|by rewrite Em]. }
  pose proof (uo_names _ Hok) as Hnd.
  destruct (exists_on (at_exists r) path) eqn:Ee; cbn [negb] in H.
  2: { destruct H as (-> & Em & El & Ei & _ & _ & ->). split_and!; [by eapply Hpush|by rewrite Em|done|done|done|done]. }
  destruct (empty_string expected) eqn:Ex; cbn [negb] in H.
  - destruct (update_manifest _ _ _ _ _ _) as [ms|] eqn:Eu.
    + destruct H as (-> & Em & El & Ei & _ & _ & ->). cbn [with_manifests ue_manifests ue_log ue_next_id] in *.
      destruct (update_manifest_some _ _ _ _ _ _ _ Eu) as (_ & Hin & Hothers). apply empty_string_spec in Ex as ->.
      split_and!; [eapply Hpush; [by eapply update_names_distinct|done|exact El|exact Ei]|by rewrite Em|done|done|by rewrite Em|by rewrite Em|done|done].
    + destruct H as (-> & Em & El & Ei & _ & _ & ->). split_and!; [by eapply Hpush|by rewrite Em|done|done|by apply update_manifest_none in Eu|done].
  - assert (Hx : expected <> EmptyString) by by intros ->.
    destruct (String.eqb_spec (compute_file_sha256 (at_verify r) path) (string_map tolower expected)) as [Ev|Ev]; cbn [negb] in H.
    + destruct (update_manifest _ _ _ _ _ _) as [ms|] eqn:Eu.
      * destruct H as (-> & Em & El & Ei & _ & _ & ->). cbn [with_manifests ue_manifests ue_log ue_next_id] in *.
        destruct (update_manifest_some _ _ _ _ _ _ _ Eu) as (_ & Hin & Hothers).
        split_and!; [eapply Hpush; [by eapply update_names_distinct|done|exact El|exact Ei]|by rewrite Em|done|done|by rewrite Em|by rewrite Em|done|].
        intros _ _ Ed. eexists. split_and!; [rewrite Em; exact Hin|done|]. cbn [mf_sha256]. by rewrite Ed.
      * destruct H as (-> & Em & El & Ei & _ & _ & ->). split_and!; [by eapply Hpush|by rewrite Em|done|done|by apply update_manifest_none in Eu|done].
    + destruct H as (-> & Em & El & Ei & _ & _ & ->). split_and!; [by eapply Hpush|by rewrite Em|done|done|done|done|done].
Qed.

Lemma new_updates_ok callback ms : NoDup (db_names ms) -> updates_ok (with_manifests (new_updates callback) ms).
Proof. intros H. by split. Qed.

(** A file that does not open has no checksum. *)
Lemma loads_check_integrity_witness :
  snd (load_db "ioc" (new_updates true) "f" "00" (Readings (fun _ => Some None) (fun _ => Some None) (fun _ => None) (fun _ => None)) 5) =
    [Threat (integrity_threat "ioc" 5)].
Proof.
  pose proof (loads_check_integrity "ioc" (new_updates true) "f" "00" (Readings (fun _ => Some None) (fun _ => Some None) (fun _ => None) (fun _ => None)) 5) as H.
  destruct (load_db _ _ _ _ _ _) as [[result st'] outs] eqn:E. destruct H as (_ & _ & H & _).
  - apply (new_updates_ok true []), NoDup_nil_2.
  - assert (Er : result = fst (fst (load_db "ioc" (new_updates true) "f" "00" (Readings (fun _ => Some None) (fun _ => Some None) (fun _ => None) (fun _ => None)) 5))) by by rewrite E.
    vm_compute in Er. subst result. destruct H as (_ & _ & _ & ->). reflexivity.
Defined.

(** the periodic check brings every entry whose file exists to the hash the file then has
    and leaves the others alone, keeps names, paths and order, reports the number of entries
    it changed and records each of them once, in order; nothing is left to find by a second
    check of the same disk.  It asks for no checksum and raises no threat. *)
Theorem check_finds_changes (st : UpdateEngine) (d d' : disk) (now : Z) :
  updates_ok st ->
  let '(st', changed) := check_for_updates st d d' now in
  ue_manifests st' = refreshed d d' now <$> ue_manifests st /\ changed = Z.of_nat (length (stale_ones d (ue_manifests st))) /\
  ue_log st' = last_n MAX_UPDATE_LOG (ue_log st ++ imap (change_record d' now (ue_next_id st)) (stale_ones d (ue_manifests st))) /\
  ue_threats st' = ue_threats st /\ updates_ok st' /\
  (forall m, m ∈ ue_manifests st' -> mf_file_path m <> EmptyString -> exists_on d (mf_file_path m) = true ->
     mf_sha256 m = compute_file_sha256 d (mf_file_path m)) /\
  (forall d'' now', snd (check_for_updates st' d d'' now') = 0).
Proof.
  intros Hok. pose proof (check_keeps_ok st d d' now Hok) as Hok'. rewrite check_after in * by done. cbn [fst] in Hok'.
  split_and!; try done.
  - intros m Hin Hp He. cbn [count_event with_manifests ue_manifests] in Hin. apply list_elem_of_fmap in Hin as (m0 & -> & _).
    pose proof (refreshed_fresh d d' now m0) as Hs. unfold stale in Hs. rewrite He in Hs.
    destruct (empty_string (mf_file_path _)) eqn:Ep; [by apply empty_string_spec in Ep|]. cbn [negb andb] in Hs.
    destruct (String.eqb_spec (compute_file_sha256 d (mf_file_path (refreshed d d' now m0))) (mf_sha256 (refreshed d d' now m0))) as [E|]; [done|discriminate].
  - intros d'' now'. rewrite check_after by done. cbn [snd count_event with_manifests ue_manifests].
    assert (E : stale_ones d (refreshed d d' now <$> ue_manifests st) = []); [|by rewrite E].
    unfold stale_ones. clear Hok'. induction (ue_manifests st) as [|m ms IH]; [done|]. cbn [fmap list_fmap]. rewrite filter_cons, refreshed_fresh, decide_False by done. exact IH.
Qed.

(** An entry whose file lost its content: taken over without a question. *)
Lemma check_finds_changes_witness :
  snd (check_for_updates (with_manifests (new_updates true) [Manifest "ioc" "1.2" "abc" "f" 0]) (fun _ => Some None) (fun _ => Some None) 7) = 1.
Proof.
  pose proof (check_finds_changes (with_manifests (new_updates true) [Manifest "ioc" "1.2" "abc" "f" 0]) (fun _ => Some None) (fun _ => Some None) 7) as H.
  destruct (check_for_updates _ _ _ _) as [st' changed]. destruct H as (_ & -> & _).
  - apply new_updates_ok, NoDup_singleton.
  - vm_compute. reflexivity.
Defined.

(** a manifest file read back gives the manifest: an engine that has none takes over every
    entry in order, only the time of its update is lost, and an engine that has them keeps
    them as they are; for names that are distinct and do not start as a comment, and fields
    without bars and newlines. *)
Theorem manifest_roundtrip (st st' : UpdateEngine) :
  NoDup (db_names (ue_manifests st)) -> Forall plain_manifest (ue_manifests st) -> ue_manifests st' = [] ->
  read_manifest st' (Some (write_manifest st)) = (true, with_manifests st' (at_epoch <$> ue_manifests st)) /\
  read_manifest st (Some (write_manifest st)) = (true, st).
Proof.
  intros Hnd Hp He. unfold read_manifest, write_manifest. rewrite get_lines_cons by (vm_compute; reflexivity). cbn [omap list_omap].
  replace (parse_manifest_line "# GCAD Update Manifest") with (@None (string * string * string * string)) by reflexivity.
  rewrite parse_written by done. rewrite He, merge_all_new by done. split; [done|]. rewrite merge_all_known by done. by destruct st.
Qed.

Lemma manifest_roundtrip_witness :
  let st := with_manifests (new_updates true) [Manifest "ioc" "1.2" "ab" "C:\f" 9; Manifest "yara" "3" EmptyString EmptyString 9]%string in
  read_manifest st (Some (write_manifest st)) = (true, st).
Proof.
  cbv zeta. eapply (manifest_roundtrip _ (new_updates true)).
  - apply NoDup_cons. split; [|apply NoDup_singleton]. intros H. vm_compute in H. inversion H as [|? ? ? H']. inversion H'.
  - repeat (apply Forall_cons; split; [by vm_compute|]). by apply Forall_nil.
  - reflexivity.
Defined.

(** A version with a bar, which a data file may declare, is read back as another version with another hash. *)
Lemma version_with_bar :
  let st := with_manifests (new_updates true) [Manifest "ioc" "1|00" "abcd" "f" 9]%string in
  ue_manifests (snd (read_manifest (new_updates true) (Some (write_manifest st)))) = [Manifest "ioc" "1" "00" "abcd" 0]%string.
Proof. vm_compute. reflexivity. Qed.
