(* ===== verification/ReflectiveInjection.v ===== *)
(** * ReflectiveInjection: images and code in the memory of a process

    Models src/src/engines/reflective_injection_engine.cpp: the tests on a region, on a new
    process and on a queued call, and the inspection of a region with what it reports.  The
    threshold of the image's offset is computed in 32 bits, as the code writes it. *)
From S2P Require Import Prelude Asn1 Observation Text PeHash Threat.

Inductive InjectionTechnique := NO_TECHNIQUE | PROCESS_HOLLOWING | EARLY_BIRD_APC | REFLECTIVE_DLL | THREAD_EXECUTION_HIJACK.

Record InjectionEvidence := Injection {
  ie_technique : InjectionTechnique;
  ie_target_pid : Z;
  ie_process_name : string;
  ie_base_address : Z;
  ie_region_size : Z;
  ie_detail : string;
  ie_severity : ThreatLevel;
}.

Record ReflectiveInjectionEngine := Reflective {
  ri_events : Z;
  ri_threats : Z;
  ri_callback : bool;
}.

(** The conjunction over the four bytes of the signature stops at the first that differs. *)
Definition pe_signature_at (memory : ptr) (pe_offset : Z) : mem bool :=
  (let* b0 := rd memory pe_offset in
   if negb (bval b0 =? 80) then Val false
   else
     let* b1 := rd memory (u32 (pe_offset + 1)) in
     if negb (bval b1 =? 69) then Val false
     else
       let* b2 := rd memory (u32 (pe_offset + 2)) in
       if negb (bval b2 =? 0) then Val false
       else
         let* b3 := rd memory (u32 (pe_offset + 3)) in
         Val (bval b3 =? 0))%mem.

Definition loader_named (data : list byte) : bool :=
  find_sub "ReflectiveLoader" (string_of_bytes data) || find_sub "_ReflectiveLoader@" (string_of_bytes data).

Definition is_rwx_reflective_pe (memory : ptr) (len : Z) : mem bool :=
  if null memory || (len <? 0x100) then Val false
  else
    (let* m := rd memory 0 in
     let* z := rd memory 1 in
     if negb (bval m =? 77) || negb (bval z =? 90) then Val false
     else
       let* pe_offset := read_u32 memory 0x3C in
       if len <? u32 (pe_offset + 4) then Val false
       else
         let* found := pe_signature_at memory pe_offset in
         if found : bool then Val true
         else
           let* data := slice memory 0 len in
           Val (loader_named data))%mem.

Definition evaluate_hollowing_anomaly (is_suspended unmapped_section : bool) (entry_point_rva : Z) : bool :=
  if negb is_suspended then false else if unmapped_section || (entry_point_rva =? 0) then true else false.

Definition evaluate_early_bird_apc (thread_created_suspended apc_queued_before_resume is_known_safe : bool) : bool :=
  if is_known_safe then false else thread_created_suspended && apc_queued_before_resume.

Definition evidence_threat (ev : InjectionEvidence) (now : Z) : ThreatEvent :=
  Event 0 now (ie_severity ev) MEMORY_INJECTION (ie_target_pid ev) (ie_process_name ev) EmptyString (ie_detail ev) EmptyString 0 false false.

Definition emit_threat (st : ReflectiveInjectionEngine) (ev : InjectionEvidence) (now : Z) : ReflectiveInjectionEngine * list output :=
  (Reflective (ri_events st) (u64 (ri_threats st + 1)) (ri_callback st), if ri_callback st then [Threat (evidence_threat ev now)] else []).

(** The loop over the first bytes. *)
Fixpoint nop_loop (n : nat) (buffer : ptr) (i count : Z) : mem Z :=
  match n with
  | O => Val count
  | S n =>
      (let* b := rd buffer i in
       nop_loop n buffer (i + 1) (if bval b =? 0x90 then count + 1 else count))%mem
  end.

(** What an inspection finds, before it reports. *)
Definition region_evidence (pid : Z) (proc_name : string) (base_addr : Z) (buffer : ptr) (size protect_flags : Z) : mem InjectionEvidence :=
  let nothing := Injection NO_TECHNIQUE pid proc_name base_addr size EmptyString HIGH in
  let is_rwx := negb (Z.land protect_flags 0x40 =? 0) in
  if negb (null buffer) && (0x40 <=? size) then
    (let* reflective := is_rwx_reflective_pe buffer size in
     if reflective : bool then
       Val (Injection REFLECTIVE_DLL pid proc_name base_addr size
              ("Reflective DLL injection detected: executable PE header located in memory region at 0x" +:+
               print_int base_addr +:+ " [" +:+ proc_name +:+ " PID:" +:+ print_int pid +:+ "]") CRITICAL)
     else if is_rwx && (32 <=? size) then
       let* nop_count := nop_loop (Z.to_nat (Z.min size 128)) buffer 0 0 in
       Val (if 32 <=? nop_count then
              Injection THREAD_EXECUTION_HIJACK pid proc_name base_addr size
                ("Shellcode NOP sled detected in RWX memory block at 0x" +:+ print_int base_addr +:+ " [" +:+ proc_name +:+ "]") HIGH
            else nothing)
     else Val nothing)%mem
  else Val nothing.

Definition found_technique (ev : InjectionEvidence) : bool := match ie_technique ev with NO_TECHNIQUE => false | _ => true end.

Definition inspect_memory_region (st : ReflectiveInjectionEngine) (pid : Z) (proc_name : string) (base_addr : Z) (buffer : ptr)
    (size protect_flags now : Z) : mem (InjectionEvidence * ReflectiveInjectionEngine * list output) :=
  let st := Reflective (u64 (ri_events st + 1)) (ri_threats st) (ri_callback st) in
  (let* ev := region_evidence pid proc_name base_addr buffer size protect_flags in
   if found_technique ev then let '(st, outs) := emit_threat st ev now in Val (ev, st, outs) else Val (ev, st, []))%mem.

(** ** Lemmas *)

(** The offset of the image header: the 32-bit word at 0x3C. *)
Definition header_word (d : list byte) : Z := match read_u32 (Some d) 0x3C with Val w => w | OOB => 0 end.

Definition has_mz (d : list byte) : Prop := exists rest, d = byte_of 77 :: byte_of 90 :: rest.

Definition pe_signature : list byte := byte_of <$> [80; 69; 0; 0].

Definition image_at (d : list byte) (offset : Z) : Prop := exists pre post, d = pre ++ pe_signature ++ post /\ Z.of_nat (length pre) = offset.

Lemma bval_is b v : 0 <= v < 256 -> (bval b =? v) = bool_decide (b = byte_of v).
Proof.
  intros Hv. apply Bool.eq_iff_eq_true. rewrite Z.eqb_eq, bool_decide_eq_true. split.
  - intros <-. symmetry. apply byte_of_bval.
  - intros ->. by apply bval_byte_of_small.
Qed.

Section one_region.
Context (d : list byte) (len : Z).
Hypothesis Hlen : len = Z.of_nat (length d).

Lemma header_word_read : 0x100 <= len -> read_u32 (Some d) 0x3C = Val (header_word d) /\ 0 <= header_word d < 2 ^ 32.
Proof using Hlen.
  intros H. destruct (safe_inv _ _ (read_u32_safe d len ltac:(lia) 0x3C ltac:(lia) ltac:(lia))) as (w & E & Hw). unfold header_word. by rewrite E.
Qed.

Lemma mz_read : 0x100 <= len -> exists m z,
  rd (Some d) 0 = Val m /\ rd (Some d) 1 = Val z /\ (has_mz d <-> m = byte_of 77 /\ z = byte_of 90).
Proof using Hlen.
  intros H. destruct d as [|m [|z rest]]; [cbn in Hlen; lia..|]. exists m, z. split_and!.
  - exact (rd_lookup (m :: z :: rest) 0 m eq_refl).
  - exact (rd_lookup (m :: z :: rest) 1 z eq_refl).
  - split; [intros (r & [=])|intros [-> ->]]; [by subst|by exists rest].
Qed.

(** Four bytes in bounds. *)
Lemma pe_signature_read offset : 0 <= offset -> offset + 4 <= len -> len < 2 ^ 32 ->
  exists b, pe_signature_at (Some d) offset = Val b /\ (b = true <-> image_at d offset).
Proof using Hlen.
  intros Ho Hl H32. set (i := Z.to_nat offset).
  assert (Hd : exists b0 b1 b2 b3, drop i d = b0 :: b1 :: b2 :: b3 :: drop (4 + i) d).
  { pose proof (length_drop d i) as L. replace (drop (4 + i) d) with (drop 4 (drop i d)) by (rewrite drop_drop; f_equal; lia). destruct (drop i d) as [|b0 [|b1 [|b2 [|b3 r]]]]; cbn [length] in L; try lia. by exists b0, b1, b2, b3. }
  destruct Hd as (b0 & b1 & b2 & b3 & Hd).
  assert (Hk : forall k b, (b0 :: b1 :: b2 :: b3 :: drop (4 + i) d) !! k = Some b -> rd (Some d) (offset + Z.of_nat k) = Val b).
  { intros k b Hb. rewrite <- Hd, lookup_drop in Hb. rewrite <- (rd_lookup d (i + k) b Hb). f_equal. unfold i. lia. }
  assert (Hiff : image_at d offset <-> b0 = byte_of 80 /\ b1 = byte_of 69 /\ b2 = byte_of 0 /\ b3 = byte_of 0).
  { split.
    - intros (pre & post & E & Hp). assert (Ei : i = length pre) by (unfold i; lia). rewrite E, Ei, drop_app_length in Hd. by injection Hd as <- <- <- <- _.
    - intros (-> & -> & -> & ->). exists (take i d), (drop (4 + i) d). split; [by rewrite <- (take_drop i d) at 1; rewrite Hd|]. rewrite length_take. lia. }
  pose proof (Hk 0%nat b0 eq_refl) as R0. pose proof (Hk 1%nat b1 eq_refl) as R1. pose proof (Hk 2%nat b2 eq_refl) as R2. pose proof (Hk 3%nat b3 eq_refl) as R3.
  rewrite Z.add_0_r in R0. change (Z.of_nat 1) with 1 in R1. change (Z.of_nat 2) with 2 in R2. change (Z.of_nat 3) with 3 in R3. unfold pe_signature_at.
  assert (E1 : u32 (offset + 1) = offset + 1) by (apply u32_small; lia). assert (E2 : u32 (offset + 2) = offset + 2) by (apply u32_small; lia).
  assert (E3 : u32 (offset + 3) = offset + 3) by (apply u32_small; lia). rewrite E1, E2, E3, R0, R1, R2, R3. cbn [mem_bind].
  rewrite (bval_is b0 80), (bval_is b1 69), (bval_is b2 0), (bval_is b3 0) by lia.
  repeat case_bool_decide; cbn [negb]; eexists; (split; [reflexivity|]); rewrite Hiff; split; intuition (congruence || done).
Qed.
End one_region.

(** The three outcomes of the test, by what it reads. *)
Lemma reflective_pe_cases (d : list byte) :
  Z.of_nat (length d) <= 2 ^ 32 - 4 ->
  let len := Z.of_nat (length d) in
  match is_rwx_reflective_pe (Some d) len with
  | Val b => (b = true <-> 0x100 <= len /\ has_mz d /\ header_word d + 4 <= len /\ (image_at d (header_word d) \/ loader_named d = true)) /\
             ~ (0x100 <= len /\ has_mz d /\ 2 ^ 32 - 4 <= header_word d)
  | OOB => 0x100 <= len /\ has_mz d /\ 2 ^ 32 - 4 <= header_word d
  end.
Proof.
  intros Hl len. unfold is_rwx_reflective_pe. cbn [null orb]. destruct (Z.ltb_spec len 0x100) as [Hs|Hs]; [split; [split; [done|lia]|lia]|].
  destruct (mz_read d len eq_refl Hs) as (m & z & Em & Ez & Hmz). rewrite Em, Ez. cbn [mem_bind]. rewrite !bval_is by lia.
  destruct (negb _ || negb _) eqn:En.
  { assert (Hm : ~ has_mz d) by (intros H; apply Hmz in H as [-> ->]; by rewrite !bool_decide_eq_true_2 in En). split; [split; [done|tauto]|tauto]. }
  apply orb_false_iff in En as [Em77%negb_false_iff Ez90%negb_false_iff]. apply bool_decide_eq_true in Em77, Ez90.
  assert (Hm : has_mz d) by by apply Hmz.
  destruct (header_word_read d len eq_refl Hs) as [-> Hw]. cbn [mem_bind].
  destruct (Z.le_gt_cases (2 ^ 32 - 4) (header_word d)) as [Hbig|Hsmall].
  - assert (Ew : u32 (header_word d + 4) = header_word d + 4 - 2 ^ 32).
    { unfold u32. symmetry. apply (Z.mod_unique_pos _ _ 1); lia. }
    rewrite Ew. destruct (Z.ltb_spec len (header_word d + 4 - 2 ^ 32)) as [H|_]; [lia|].
    assert (Er : rd (Some d) (header_word d) = OOB).
    { unfold rd. destruct (Z.ltb_spec (header_word d) (Z.of_nat (length d))) as [H|_]; [lia|]. by rewrite andb_false_r. }
    unfold pe_signature_at. rewrite Er. by split_and!.
  - assert (Hno : ~ (0x100 <= len /\ has_mz d /\ 2 ^ 32 - 4 <= header_word d)) by lia.
    rewrite u32_small by lia. destruct (Z.ltb_spec len (header_word d + 4)) as [H|H]; [split; [split; [done|lia]|done]|].
    destruct (pe_signature_read d len eq_refl (header_word d) ltac:(lia) ltac:(lia) ltac:(lia)) as (b & -> & Hb). cbn [mem_bind].
    destruct b; [split; [split; [intros _; split_and!; [done..|left; by apply Hb]|done]|done]|].
    assert (Hn : ~ image_at d (header_word d)) by (intros Hi; apply Hb in Hi; discriminate).
    destruct (safe_inv _ _ (slice_safe d 0 len ltac:(lia) ltac:(lia) ltac:(unfold len; lia))) as (l & -> & El & _). cbn [mem_bind].
    assert (E : l = d) by (rewrite El; unfold len; rewrite drop_0, Nat2Z.id; by apply take_ge). rewrite E. split; [|done]. split; [tauto|].
    intros (_ & _ & _ & [Hi | Hn']); [by destruct Hn|done].
Qed.

(** ** Properties *)

(** C10: on a region of at most 2^32 - 4 bytes, the test for an image says yes exactly for a
    region of 256 bytes or more that starts with MZ, whose header offset leaves room for the
    signature, and that has the signature there or the name of the loader anywhere.  It reads
    outside of the region exactly when such a region starts with MZ and declares an offset
    that the 32-bit sum with four wraps around; on every other region it says no. *)
Theorem reflective_pe_spec (d : list byte) :
  Z.of_nat (length d) <= 2 ^ 32 - 4 ->
  let len := Z.of_nat (length d) in
  let yes := 0x100 <= len /\ has_mz d /\ header_word d + 4 <= len /\ (image_at d (header_word d) \/ loader_named d = true) in
  let wraps := 0x100 <= len /\ has_mz d /\ 2 ^ 32 - 4 <= header_word d in
  (is_rwx_reflective_pe (Some d) len = Val true <-> yes) /\
  (is_rwx_reflective_pe (Some d) len = OOB <-> wraps) /\
  (is_rwx_reflective_pe (Some d) len = Val false <-> ~ yes /\ ~ wraps).
Proof.
  intros Hl len yes wraps. pose proof (reflective_pe_cases d Hl) as H. cbv zeta in H. fold len yes wraps in H.
  assert (Hex : yes -> ~ wraps) by (unfold yes, wraps, len; lia).
  destruct (is_rwx_reflective_pe (Some d) len) as [[]|]; [destruct H as [[H1 H2] Hw]..|].
  - specialize (H1 eq_refl). by intuition.
  - assert (Hn : ~ yes) by (intros Hy; discriminate (H2 Hy)). by intuition.
  - by intuition.
Qed.

(** A region of 256 bytes that claims its header at the end of the address space. *)
Definition wrapping_region : list byte := byte_of <$> ([77; 90] ++ replicate 58 0 ++ [0xFF; 0xFF; 0xFF; 0xFF] ++ replicate 192 0).

Lemma reflective_pe_spec_witness : is_rwx_reflective_pe (Some wrapping_region) 256 = OOB /\ 2 ^ 32 - 4 <= header_word wrapping_region.
Proof.
  assert (E : is_rwx_reflective_pe (Some wrapping_region) 256 = OOB) by (vm_compute; reflexivity). split; [exact E|].
  pose proof (reflective_pe_spec wrapping_region ltac:(vm_compute; discriminate)) as H. cbv zeta in H. change (Z.of_nat (length wrapping_region)) with 256 in H.
  destruct H as (_ & [Ho _] & _). apply (Ho E).
Defined.

Definition nops (l : list byte) : Z := Z.of_nat (length (filter (fun b => b = byte_of 0x90) l)).

Lemma nop_loop_spec n : forall (pre l : list byte) count, (n <= length l)%nat ->
  nop_loop n (Some (pre ++ l)) (Z.of_nat (length pre)) count = Val (count + nops (take n l)).
Proof.
  induction n as [|n IH]; intros pre l count Hn; cbn [nop_loop]; [by rewrite Z.add_0_r|]. destruct l as [|b l]; [cbn in Hn; lia|].
  rewrite rd_app. cbn [mem_bind]. replace (pre ++ b :: l) with ((pre ++ [b]) ++ l) by by rewrite <- app_assoc.
  replace (Z.of_nat (length pre) + 1) with (Z.of_nat (length (pre ++ [b]))) by (rewrite length_app; cbn; lia).
  rewrite IH by (cbn in Hn; lia). rewrite bval_is by lia. unfold nops. cbn [take]. rewrite filter_cons. f_equal.
  case_bool_decide as Hb; [rewrite decide_True by done; cbn [length]; lia|by rewrite decide_False].
Qed.

(** an inspection of a region that makes no wrapping claim reads in bounds, counts one
    event, and reports what it finds once: an image as CRITICAL whatever the protection, and
    otherwise 32 NOPs or more among the first 128 bytes of a writable and executable region
    as HIGH; nothing else is reported. *)
Theorem inspection_reports (st : ReflectiveInjectionEngine) (pid : Z) (proc_name : string) (base_addr : Z) (d : list byte) (protect_flags now : Z) :
  Z.of_nat (length d) <= 2 ^ 32 - 4 -> (has_mz d -> header_word d < 2 ^ 32 - 4) ->
  let len := Z.of_nat (length d) in
  let is_image := 0x100 <= len /\ has_mz d /\ header_word d + 4 <= len /\ (image_at d (header_word d) \/ loader_named d = true) in
  let is_sled := 0x40 <= len /\ Z.land protect_flags 0x40 <> 0 /\ 32 <= nops (take 128 d) in
  exists ev st' outs,
    inspect_memory_region st pid proc_name base_addr (Some d) len protect_flags now = Val (ev, st', outs) /\
    (ie_technique ev = REFLECTIVE_DLL <-> is_image) /\ (ie_technique ev = THREAD_EXECUTION_HIJACK <-> ~ is_image /\ is_sled) /\
    (ie_technique ev = REFLECTIVE_DLL -> ie_severity ev = CRITICAL) /\
    ri_events st' = u64 (ri_events st + 1) /\
    (if found_technique ev then ri_threats st' = u64 (ri_threats st + 1) /\ outs = if ri_callback st then [Threat (evidence_threat ev now)] else []
     else ri_threats st' = ri_threats st /\ outs = []).
Proof.
  intros Hl Hw len is_image is_sled. unfold inspect_memory_region.
  assert (Hev : exists ev, region_evidence pid proc_name base_addr (Some d) len protect_flags = Val ev /\
    (ie_technique ev = REFLECTIVE_DLL <-> is_image) /\ (ie_technique ev = THREAD_EXECUTION_HIJACK <-> ~ is_image /\ is_sled) /\
    (ie_technique ev = REFLECTIVE_DLL -> ie_severity ev = CRITICAL)).
  { unfold region_evidence. cbn [null negb andb]. destruct (Z.leb_spec 0x40 len) as [H40|H40].
    2: { eexists. split; [reflexivity|]. cbn. unfold is_image, is_sled. split_and!; try done; split; try done; lia. }
    pose proof (reflective_pe_cases d Hl) as Hspec. cbv zeta in Hspec. fold len in Hspec.
    destruct (is_rwx_reflective_pe (Some d) len) as [b|]; [|destruct Hspec as (_ & Hm & Hbig); specialize (Hw Hm); lia]. cbn [mem_bind].
    fold is_image in Hspec. destruct Hspec as [Hspec _]. destruct b.
    { assert (Hi : is_image) by by apply Hspec. eexists. split; [reflexivity|]. cbn. split_and!; [done|split; [done|tauto]|done]. }
    assert (Hn : ~ is_image) by (intros Hi; apply Hspec in Hi; discriminate).
    rewrite (proj2 (Z.leb_le 32 len)) by lia. rewrite andb_true_r. destruct (Z.eqb_spec (Z.land protect_flags 0x40) 0) as [Ep|Ep]; cbn [negb].
    { eexists. split; [reflexivity|]. cbn. unfold is_sled. split_and!; [done|split; [done|tauto]|done]. }
    pose proof (nop_loop_spec (Z.to_nat (Z.min len 128)) [] d 0 ltac:(unfold len; lia)) as En. change (Z.of_nat (length (@nil byte))) with 0 in En. cbn [app] in En. rewrite En. cbn [mem_bind].
    assert (Et : take (Z.to_nat (Z.min len 128)) d = take 128 d).
    { unfold len. destruct (Z.le_gt_cases (Z.of_nat (length d)) 128) as [L|L].
      - rewrite Z.min_l, Nat2Z.id, !take_ge by lia. done.
      - by rewrite Z.min_r by lia. }
    rewrite Et, Z.add_0_l. eexists. split; [reflexivity|]. unfold is_sled. destruct (Z.leb_spec 32 (nops (take 128 d))) as [H|H]; cbn.
    - split_and!; [done|done|done].
    - split_and!; [done|split; [done|lia]|done]. }
  destruct Hev as (ev & -> & H1 & H2 & H3). cbn [mem_bind]. destruct (found_technique ev) eqn:Ef; eexists ev, _, _; (split; [reflexivity|]); rewrite Ef; by split_and!.
Qed.

Lemma inspection_reports_witness : exists ev st' outs,
  inspect_memory_region (Reflective 0 0 true) 4 "a.exe" 4096 (Some (replicate 64 (byte_of 0x90))) 64 0x40 9 = Val (ev, st', outs) /\
  ie_technique ev = THREAD_EXECUTION_HIJACK /\ outs = [Threat (evidence_threat ev 9)].
Proof.
  destruct (inspection_reports (Reflective 0 0 true) 4 "a.exe" 4096 (replicate 64 (byte_of 0x90)) 0x40 9) as (ev & st' & outs & E & _ & H2 & _ & _ & H).
  - vm_compute. discriminate.
  - intros (rest & Hr). vm_compute in Hr. discriminate Hr.
  - assert (Ht : ie_technique ev = THREAD_EXECUTION_HIJACK).
    { apply H2. split; [intros (H0 & _); vm_compute in H0; congruence|]. split_and!; vm_compute; discriminate. }
    exists ev, st', outs. split; [exact E|]. split; [exact Ht|]. unfold found_technique in H. rewrite Ht in H. apply H.
Defined.

(** a process counts as hollowed exactly when it is suspended and its image is unmapped or
    its entry point zero, and a queued call as early exactly for an unknown program whose
    thread was created suspended and got the call before it was resumed. *)
Theorem process_anomalies (suspended unmapped apc safe_program : bool) (rva : Z) :
  (evaluate_hollowing_anomaly suspended unmapped rva = true <-> suspended = true /\ (unmapped = true \/ rva = 0)) /\
  (evaluate_early_bird_apc suspended apc safe_program = true <-> safe_program = false /\ suspended = true /\ apc = true).
Proof.
  unfold evaluate_hollowing_anomaly, evaluate_early_bird_apc.
  split; [|destruct suspended, apc, safe_program; cbn; intuition discriminate].
  destruct suspended; cbn [negb]; [|split; [done|intros [? _]; done]]. destruct (Z.eqb_spec rva 0); destruct unmapped; cbn; intuition (congruence || done).
Qed.
