(* ===== verification/AlertManager.v ===== *)
(** * AlertManager: the alerts a user sees

    Models src/src/alert/alert_manager.cpp: what is kept of an event, the history with its
    bound, acknowledging, and the limit on sounds.  Every operation holds the mutex around
    the state it changes; balloons, the tray and the beep itself are calls to Windows, so a
    push returns what it would show and play. *)
From S2P Require Import Prelude BoundedLog Float64 Observation Text Threat.

Record AlertRecord := Alert {
  ar_id : Z;
  ar_timestamp : Z;
  ar_level : ThreatLevel;
  ar_category : ThreatCategory;
  ar_source : string;
  ar_description : string;
  ar_process_name : string;
  ar_process_id : Z;
  ar_acknowledged : bool;
}.

Record AlertManager := Alerts {
  history_ : list AlertRecord;
  am_next_id : Z;
  min_level_ : ThreatLevel;
  sound_enabled_ : bool;
  toast_enabled_ : bool;
  last_sound_time_ms_ : Z;
  notification_cb_ : bool;
}.

Definition SOUND_COOLDOWN_MS : Z := 3000.
Definition MAX_HISTORY : Z := 500.

Definition new_alerts : AlertManager := Alerts [] 1 LOW false true 0 false.

Definition map_category_source (cat : ThreatCategory) : string :=
  match cat with
  | MEMORY_INJECTION | PROCESS_HOLLOW | DLL_INJECTION | APC_INJECTION | REFLECTIVE_LOAD | SHELLCODE | FILELESS_EXEC => "PMSR"
  | DNS_TUNNEL | DGA_DOMAIN => "DnsMon"
  | RANSOMWARE | FILE_ENCRYPT | BACKDOOR_ACCOUNT => "ARHS"
  | NETWORK_SCAN | SYN_FLOOD | UDP_FLOOD | ARP_POISON | ICMP_COVERT | RAW_SOCKET_PROBE => "ZRGP"
  | REGISTRY_TAMPER => "RegMon"
  | EVASION_AMSI | EVASION_ETW | EVASION_UNHOOK | DIRECT_SYSCALL => "SyscallGuard"
  | PPID_SPOOF | KERBEROS_ATTACK | NTLM_COERCE | CREDENTIAL_DUMP => "KernelMon"
  | ENTROPY_ANOMALY | SUSPICIOUS_BINARY => "DeepScan"
  | ANTI_FORENSIC => "SelfDefense"
  | FILE_INTEGRITY_VIOLATION => "FIM"
  | YARA_RULE_MATCH => "YARA"
  | _ => "GCAD"
  end%string.

(** What a push shows and plays. *)
Inductive shown_alert := Notified (r : AlertRecord) | Balloon (r : AlertRecord) | Beep (level : ThreatLevel) (at_ms : Z).

Definition with_history (st : AlertManager) (h : list AlertRecord) : AlertManager :=
  Alerts h (am_next_id st) (min_level_ st) (sound_enabled_ st) (toast_enabled_ st) (last_sound_time_ms_ st) (notification_cb_ st).

(** [now_ms] is the steady clock in milliseconds. *)
Definition play_sound (st : AlertManager) (level : ThreatLevel) (now_ms : Z) : AlertManager * list shown_alert :=
  if level_value level <? level_value HIGH then (st, [])
  else if now_ms - last_sound_time_ms_ st <? SOUND_COOLDOWN_MS then (st, [])
  else (Alerts (history_ st) (am_next_id st) (min_level_ st) (sound_enabled_ st) (toast_enabled_ st) now_ms (notification_cb_ st), [Beep level now_ms]).

(** The record made of an event; [now] is the system clock. *)
Definition record_of (st : AlertManager) (ev : ThreatEvent) (now : Z) : AlertRecord :=
  Alert (am_next_id st) (if ev_timestamp ev =? 0 then now else ev_timestamp ev) (ev_level ev) (ev_category ev)
    (map_category_source (ev_category ev)) (ev_description ev) (ev_process_name ev) (ev_process_id ev) false.

Definition push (st : AlertManager) (ev : ThreatEvent) (now now_ms : Z) : AlertManager * list shown_alert :=
  if level_value (ev_level ev) <? level_value (min_level_ st) then (st, [])
  else
    let rec := record_of st ev now in
    let st := Alerts (push_bounded MAX_HISTORY (history_ st) rec) (u64 (am_next_id st + 1)) (min_level_ st) (sound_enabled_ st)
                (toast_enabled_ st) (last_sound_time_ms_ st) (notification_cb_ st) in
    let shown := if notification_cb_ st then [Notified rec] else if toast_enabled_ st then [Balloon rec] else [] in
    if sound_enabled_ st then let '(st, beeps) := play_sound st (ar_level rec) now_ms in (st, shown ++ beeps) else (st, shown).

(** The loop from [start] on. *)
Definition recent (st : AlertManager) (n : Z) : list AlertRecord :=
  let size := Z.of_nat (length (history_ st)) in
  let start := if n <? size then size - n else 0 in
  drop (Z.to_nat start) (history_ st).

Definition total_count (st : AlertManager) : Z := Z.of_nat (length (history_ st)).

Fixpoint count_new (h : list AlertRecord) (count : Z) : Z :=
  match h with [] => count | r :: h => count_new h (if negb (ar_acknowledged r) then count + 1 else count) end.

Definition unacknowledged_count (st : AlertManager) : Z := count_new (history_ st) 0.

Definition acknowledged (r : AlertRecord) : AlertRecord :=
  Alert (ar_id r) (ar_timestamp r) (ar_level r) (ar_category r) (ar_source r) (ar_description r) (ar_process_name r) (ar_process_id r) true.

Fixpoint acknowledge_first (h : list AlertRecord) (id : Z) : list AlertRecord :=
  match h with
  | [] => []
  | r :: h => if ar_id r =? id then acknowledged r :: h else r :: acknowledge_first h id
  end.

Definition acknowledge (st : AlertManager) (id : Z) : AlertManager := with_history st (acknowledge_first (history_ st) id).
Definition acknowledge_all (st : AlertManager) : AlertManager := with_history st (acknowledged <$> history_ st).
Definition clear (st : AlertManager) : AlertManager := with_history st [].

Definition set_min_level (st : AlertManager) (level : ThreatLevel) : AlertManager :=
  Alerts (history_ st) (am_next_id st) level (sound_enabled_ st) (toast_enabled_ st) (last_sound_time_ms_ st) (notification_cb_ st).
Definition set_sound_enabled (st : AlertManager) (on : bool) : AlertManager :=
  Alerts (history_ st) (am_next_id st) (min_level_ st) on (toast_enabled_ st) (last_sound_time_ms_ st) (notification_cb_ st).
Definition set_toast_enabled (st : AlertManager) (on : bool) : AlertManager :=
  Alerts (history_ st) (am_next_id st) (min_level_ st) (sound_enabled_ st) on (last_sound_time_ms_ st) (notification_cb_ st).
Definition set_notification_callback (st : AlertManager) (on : bool) : AlertManager :=
  Alerts (history_ st) (am_next_id st) (min_level_ st) (sound_enabled_ st) (toast_enabled_ st) (last_sound_time_ms_ st) on.

(** ** Calls *)

Inductive alert_call :=
| CallPush (ev : ThreatEvent) (now now_ms : Z)
| CallAcknowledge (id : Z)
| CallAcknowledgeAll
| CallClear
| CallMinLevel (level : ThreatLevel)
| CallSound (on : bool)
| CallToast (on : bool)
| CallNotification (on : bool).

Definition alert_step (st : AlertManager) (c : alert_call) : AlertManager * list shown_alert :=
  match c with
  | CallPush ev now now_ms => push st ev now now_ms
  | CallAcknowledge id => (acknowledge st id, [])
  | CallAcknowledgeAll => (acknowledge_all st, [])
  | CallClear => (clear st, [])
  | CallMinLevel level => (set_min_level st level, [])
  | CallSound on => (set_sound_enabled st on, [])
  | CallToast on => (set_toast_enabled st on, [])
  | CallNotification on => (set_notification_callback st on, [])
  end.

Fixpoint alert_run (st : AlertManager) (cs : list alert_call) : AlertManager * list shown_alert :=
  match cs with
  | [] => (st, [])
  | c :: cs => let '(st, shown) := alert_step st c in let '(st, rest) := alert_run st cs in (st, shown ++ rest)
  end.

Definition is_push (c : alert_call) : bool := match c with CallPush _ _ _ => true | _ => false end.
Definition push_count (cs : list alert_call) : Z := Z.of_nat (length (filter (fun c => is_push c = true) cs)).

(** ** Lemmas *)

Record alerts_ok (st : AlertManager) : Prop := {
  ao_ids : StronglySorted Z.lt (ar_id <$> history_ st);
  ao_below : Forall (fun r => 1 <= ar_id r < am_next_id st) (history_ st);
  ao_bounded : Z.of_nat (length (history_ st)) <= MAX_HISTORY;
  ao_next : 1 <= am_next_id st;
}.

Lemma new_alerts_ok : alerts_ok new_alerts.
Proof. split; [apply SSorted_nil|by apply Forall_nil|done|done]. Qed.

Lemma sorted_drop n l : StronglySorted Z.lt l -> StronglySorted Z.lt (drop n l).
Proof. intros H. revert n. induction H as [|y l Hs IH Hy]; intros [|n]; cbn [drop]; [apply SSorted_nil..|by apply SSorted_cons|apply IH]. Qed.

Lemma sorted_NoDup (l : list Z) : StronglySorted Z.lt l -> NoDup l.
Proof.
  induction 1 as [|y l _ IH Hy]; [apply NoDup_nil_2|]. apply NoDup_cons. split; [|done]. intros Hin.
  rewrite Forall_forall in Hy. specialize (Hy _ Hin). lia.
Qed.

Lemma recent_latest st n : 0 <= n -> recent st n = latest n (history_ st).
Proof.
  intros Hn. unfold recent, latest, last_n. f_equal. destruct (Z.ltb_spec n (Z.of_nat (length (history_ st)))); lia.
Qed.

Lemma push_bounded_ids h r next : 1 <= next -> ar_id r = next -> StronglySorted Z.lt (ar_id <$> h) ->
  Forall (fun r => 1 <= ar_id r < next) h ->
  StronglySorted Z.lt (ar_id <$> push_bounded MAX_HISTORY h r) /\ Forall (fun r => 1 <= ar_id r < next + 1) (push_bounded MAX_HISTORY h r).
Proof.
  intros Hn Hr Hs Hb. unfold push_bounded. split.
  - unfold last_n. rewrite fmap_drop, fmap_app. apply sorted_drop, sorted_snoc; [done|]. apply Forall_fmap. eapply Forall_impl; [exact Hb|].
    intros x Hx. cbn in *. lia.
  - apply Forall_last_n, Forall_app. split; [eapply Forall_impl; [exact Hb|]; intros x Hx; cbn in *; lia|]. apply Forall_singleton. cbv beta. lia.
Qed.

Lemma play_sound_keeps st level now_ms :
  let '(st', _) := play_sound st level now_ms in
  history_ st' = history_ st /\ am_next_id st' = am_next_id st /\ min_level_ st' = min_level_ st.
Proof. unfold play_sound. destruct (_ <? _); [done|]. by destruct (_ <? _). Qed.

(** What a push does to the history. *)
Lemma push_history st ev now now_ms :
  let '(st', _) := push st ev now now_ms in
  if level_value (ev_level ev) <? level_value (min_level_ st) then st' = st
  else history_ st' = push_bounded MAX_HISTORY (history_ st) (record_of st ev now) /\ am_next_id st' = u64 (am_next_id st + 1).
Proof.
  unfold push. destruct (_ <? _); [done|]. cbn [sound_enabled_]. destruct (sound_enabled_ st); [|done].
  pose proof (play_sound_keeps (Alerts (push_bounded MAX_HISTORY (history_ st) (record_of st ev now)) (u64 (am_next_id st + 1)) (min_level_ st)
    true (toast_enabled_ st) (last_sound_time_ms_ st) (notification_cb_ st)) (ar_level (record_of st ev now)) now_ms) as H.
  destruct (play_sound _ _ _) as [st' beeps]. destruct H as (-> & -> & _). done.
Qed.

Lemma push_ok st ev now now_ms : alerts_ok st -> am_next_id st + 1 < 2 ^ 64 ->
  let st' := fst (push st ev now now_ms) in alerts_ok st' /\ am_next_id st' <= am_next_id st + 1.
Proof.
  intros Hok Hn. pose proof (push_history st ev now now_ms) as H. destruct (push st ev now now_ms) as [st' shown]. cbn [fst].
  destruct (_ <? _); [by subst; split; [done|lia]|]. destruct H as [Eh Ei]. destruct Hok as [H1 H2 H3 H4]. rewrite u64_small in Ei by lia.
  split; [|lia]. destruct (push_bounded_ids (history_ st) (record_of st ev now) (am_next_id st) H4 eq_refl H1 H2) as [Hs Hb].
  split; [by rewrite Eh|by rewrite Eh, Ei| |lia]. rewrite Eh. unfold push_bounded. rewrite last_n_length by done. lia.
Qed.

Lemma acknowledge_first_ids h id : ar_id <$> acknowledge_first h id = ar_id <$> h.
Proof. induction h as [|r h IH]; [done|]. cbn [acknowledge_first]. destruct (ar_id r =? id); cbn; [done|by rewrite IH]. Qed.

Lemma ids_below_iff next h : Forall (fun r => 1 <= ar_id r < next) h <-> Forall (fun i => 1 <= i < next) (ar_id <$> h).
Proof. by rewrite Forall_fmap. Qed.

Lemma with_history_ok st h : alerts_ok st -> ar_id <$> h = ar_id <$> history_ st -> alerts_ok (with_history st h).
Proof.
  intros [H1 H2 H3 H4] E. split; cbn; [by rewrite E| |by rewrite <- (length_fmap ar_id h), E, length_fmap|done].
  apply ids_below_iff. rewrite E. by apply ids_below_iff.
Qed.

Lemma alert_step_ok st c : alerts_ok st -> (is_push c = true -> am_next_id st + 1 < 2 ^ 64) ->
  let st' := fst (alert_step st c) in
  alerts_ok st' /\ am_next_id st' <= am_next_id st + (if is_push c then 1 else 0).
Proof.
  intros Hok Hn. destruct c; cbn [alert_step fst is_push] in *; try (split; [|cbn; lia]).
  - by apply push_ok, Hn.
  - apply with_history_ok; [done|]. apply acknowledge_first_ids.
  - apply with_history_ok; [done|]. rewrite <- list_fmap_compose. by apply list_fmap_ext.
  - destruct Hok. split; cbn; [apply SSorted_nil|by apply Forall_nil|done|done].
  - by destruct Hok.
  - by destruct Hok.
  - by destruct Hok.
  - by destruct Hok.
Qed.

Lemma alert_run_ok cs : forall st, alerts_ok st -> am_next_id st + push_count cs < 2 ^ 64 -> alerts_ok (fst (alert_run st cs)).
Proof.
  unfold push_count. induction cs as [|c cs IH]; intros st Hok Hn; [done|]. cbn [alert_run]. rewrite filter_cons in Hn.
  destruct (alert_step_ok st c Hok) as [Hok' Hle].
  { intros Hp. rewrite decide_True in Hn by done. cbn [length] in Hn. lia. }
  destruct (alert_step st c) as [st1 shown]. cbn [fst] in *. destruct (is_push c).
  - rewrite decide_True in Hn by done. cbn [length] in Hn. specialize (IH st1 Hok' ltac:(lia)). by destruct (alert_run st1 cs).
  - rewrite decide_False in Hn by done. specialize (IH st1 Hok' ltac:(lia)). by destruct (alert_run st1 cs).
Qed.

(** *** Counting *)

Definition fresh (r : AlertRecord) : Prop := ar_acknowledged r = false.

#[export] Instance fresh_decision r : Decision (fresh r).
Proof. unfold fresh. apply _. Defined.

Lemma count_new_spec h : forall count, count_new h count = count + Z.of_nat (length (filter fresh h)).
Proof.
  induction h as [|r h IH]; intros count; cbn [count_new]; [cbn; lia|]. rewrite IH, filter_cons.
  destruct (ar_acknowledged r) eqn:E; cbn [negb].
  - by rewrite decide_False by (unfold fresh; congruence).
  - rewrite decide_True by done. cbn [length]. lia.
Qed.

Lemma unacknowledged_spec st : unacknowledged_count st = Z.of_nat (length (filter fresh (history_ st))).
Proof. unfold unacknowledged_count. by rewrite count_new_spec. Qed.

Lemma acknowledge_first_spec h id : NoDup (ar_id <$> h) ->
  acknowledge_first h id = (fun r => if ar_id r =? id then acknowledged r else r) <$> h.
Proof.
  induction h as [|r h IH]; intros Hnd; [done|]. cbn [fmap list_fmap] in Hnd. apply NoDup_cons in Hnd as [Hr Hnd].
  cbn [acknowledge_first fmap list_fmap]. destruct (Z.eqb_spec (ar_id r) id) as [E|_]; [|by rewrite IH].
  f_equal. rewrite <- (list_fmap_id h) at 1. apply list_fmap_ext. intros i x Hx. cbn. destruct (Z.eqb_spec (ar_id x) id) as [Ex|_]; [|done].
  destruct Hr. rewrite E, <- Ex. apply list_elem_of_fmap_2. by eapply list_elem_of_lookup_2.
Qed.

Lemma acknowledge_count h id : NoDup (ar_id <$> h) ->
  Z.of_nat (length (filter fresh (acknowledge_first h id))) =
  Z.of_nat (length (filter fresh h)) - (if existsb (fun r => (ar_id r =? id) && negb (ar_acknowledged r)) h then 1 else 0).
Proof.
  induction h as [|r h IH]; intros Hnd; [done|]. cbn [fmap list_fmap] in Hnd. apply NoDup_cons in Hnd as [Hr Hnd].
  cbn [acknowledge_first existsb]. destruct (Z.eqb_spec (ar_id r) id) as [E|E]; cbn [andb orb].
  - assert (Hn : existsb (fun r => (ar_id r =? id) && negb (ar_acknowledged r)) h = false).
    { apply not_true_is_false. intros (x & Hx & Hi)%existsb_exists. apply andb_true_iff in Hi as [Hi%Z.eqb_eq _]. destruct Hr.
      rewrite E, <- Hi. apply list_elem_of_fmap_2. by apply list_elem_of_In. }
    rewrite Hn, orb_false_r, !filter_cons. rewrite decide_False by done. destruct (ar_acknowledged r) eqn:Ea; cbn [negb].
    + rewrite decide_False by (unfold fresh; congruence). lia.
    + rewrite decide_True by done. cbn [length]. lia.
  - rewrite !filter_cons. destruct (decide (fresh r)); cbn [length]; rewrite ?Nat2Z.inj_succ, IH by done; lia.
Qed.

(** *** Sounds *)

Definition beep_time (s : shown_alert) : option Z := match s with Beep _ t => Some t | _ => None end.
Definition beep_times (shown : list shown_alert) : list Z := omap beep_time shown.

Definition spaced : list Z -> Prop := StronglySorted (fun a b => a + SOUND_COOLDOWN_MS <= b).

Lemma omap_app_beeps a b : beep_times (a ++ b) = beep_times a ++ beep_times b.
Proof. unfold beep_times. by rewrite omap_app. Qed.

Lemma push_beeps st ev now now_ms :
  let '(st', shown) := push st ev now now_ms in
  (beep_times shown = [] /\ last_sound_time_ms_ st' = last_sound_time_ms_ st) \/
  (beep_times shown = [now_ms] /\ last_sound_time_ms_ st' = now_ms /\ last_sound_time_ms_ st + SOUND_COOLDOWN_MS <= now_ms).
Proof.
  unfold push. destruct (_ <? _); [by left|]. cbn [sound_enabled_ notification_cb_ toast_enabled_].
  set (rec := record_of st ev now).
  assert (Hs : beep_times (if notification_cb_ st then [Notified rec] else if toast_enabled_ st then [Balloon rec] else []) = [])
    by (destruct (notification_cb_ st); [done|by destruct (toast_enabled_ st)]).
  destruct (sound_enabled_ st); [|left; by split]. unfold play_sound.
  destruct (level_value (ar_level rec) <? level_value HIGH); [left; rewrite omap_app_beeps, Hs; by split|]. cbn [last_sound_time_ms_].
  destruct (Z.ltb_spec (now_ms - last_sound_time_ms_ st) SOUND_COOLDOWN_MS) as [H|H].
  - left. rewrite omap_app_beeps, Hs. by split.
  - right. rewrite omap_app_beeps, Hs. split_and!; [done|done|lia].
Qed.

Lemma alert_step_beeps st c :
  let '(st', shown) := alert_step st c in
  (beep_times shown = [] /\ last_sound_time_ms_ st' = last_sound_time_ms_ st) \/
  (exists t, beep_times shown = [t] /\ last_sound_time_ms_ st' = t /\ last_sound_time_ms_ st + SOUND_COOLDOWN_MS <= t).
Proof.
  destruct c as [ev now now_ms| | | | | | |]; cbn [alert_step]; try by left.
  pose proof (push_beeps st ev now now_ms) as H. destruct (push st ev now now_ms) as [st' shown]. destruct H as [H|H]; [by left|right; by exists now_ms].
Qed.

Lemma alert_run_beeps cs : forall st,
  let '(_, shown) := alert_run st cs in
  spaced (beep_times shown) /\ Forall (fun t => last_sound_time_ms_ st + SOUND_COOLDOWN_MS <= t) (beep_times shown).
Proof.
  induction cs as [|c cs IH]; intros st; cbn [alert_run]; [split; [apply SSorted_nil|by apply Forall_nil]|].
  pose proof (alert_step_beeps st c) as H. destruct (alert_step st c) as [st1 shown]. specialize (IH st1). destruct (alert_run st1 cs) as [st2 rest].
  destruct IH as [Hs Hf]. rewrite omap_app_beeps. destruct H as [[-> <-] | (t & -> & <- & Ht)]; [by split|]. cbn [app]. split.
  - by apply SSorted_cons.
  - apply Forall_cons. split; [done|]. eapply Forall_impl; [exact Hf|]. intros x Hx. unfold SOUND_COOLDOWN_MS in *. cbn in *. lia.
Qed.

(** ** Properties *)

(** after any calls the history holds at most 500 alerts with strictly increasing numbers,
    oldest first, so that a number names one alert; acknowledging it marks that alert and no
    other, lowers the count of new alerts by one if it was new and by none otherwise, and
    acknowledging all leaves none new. *)
Theorem alerts_are_numbered (cs : list alert_call) (id : Z) :
  1 + push_count cs < 2 ^ 64 ->
  let st := fst (alert_run new_alerts cs) in
  StronglySorted Z.lt (ar_id <$> history_ st) /\ total_count st <= 500 /\ 0 <= unacknowledged_count st <= total_count st /\
  history_ (acknowledge st id) = (fun r => if ar_id r =? id then acknowledged r else r) <$> history_ st /\
  unacknowledged_count (acknowledge st id) =
    unacknowledged_count st - (if existsb (fun r => (ar_id r =? id) && negb (ar_acknowledged r)) (history_ st) then 1 else 0) /\
  unacknowledged_count (acknowledge_all st) = 0 /\ total_count (acknowledge_all st) = total_count st.
Proof.
  intros Hn st. pose proof (alert_run_ok cs new_alerts new_alerts_ok Hn) as [H1 H2 H3 H4]. fold st in H1, H2, H3, H4.
  pose proof (sorted_NoDup _ H1) as Hnd. rewrite !unacknowledged_spec. unfold total_count. split_and!; try done.
  - lia.
  - pose proof (length_filter fresh (history_ st)). lia.
  - by apply acknowledge_first_spec.
  - by apply acknowledge_count.
  - change (Z.of_nat (length (filter fresh (acknowledged <$> history_ st))) = 0).
    clear. induction (history_ st) as [|r h IH]; [done|]. cbn [fmap list_fmap]. by rewrite filter_cons, decide_False.
  - cbn [acknowledge_all with_history history_]. by rewrite length_fmap.
Qed.

Definition some_event (level : ThreatLevel) : ThreatEvent := Event 0 0 level RANSOMWARE 7 "a.exe" EmptyString "bad" EmptyString 0 false false.

Lemma alerts_are_numbered_witness :
  let st := fst (alert_run new_alerts [CallPush (some_event HIGH) 5 5; CallPush (some_event SAFE) 6 6; CallPush (some_event LOW) 7 7]) in
  unacknowledged_count (acknowledge st 2) = unacknowledged_count st - 1.
Proof.
  cbv zeta. destruct (alerts_are_numbered [CallPush (some_event HIGH) 5 5; CallPush (some_event SAFE) 6 6; CallPush (some_event LOW) 7 7] 2) as (_ & _ & _ & _ & H & _).
  - vm_compute. reflexivity.
  - rewrite H. reflexivity.
Defined.

(** two sounds are at least three seconds apart, whatever calls are made and whatever the
    clock says, and only alerts of level HIGH and above sound. *)
Theorem sounds_are_spaced (st : AlertManager) (cs : list alert_call) :
  let shown := snd (alert_run st cs) in
  StronglySorted (fun a b => a + 3000 <= b) (beep_times shown) /\
  Forall (fun s => match s with Beep level _ => level_value HIGH <= level_value level | _ => True end) shown.
Proof.
  intros shown. unfold shown. split.
  - pose proof (alert_run_beeps cs st) as H. destruct (alert_run st cs) as [st' s]. apply H.
  - clear shown. revert st. induction cs as [|c cs IH]; intros st; cbn [alert_run]; [by apply Forall_nil|].
    assert (Hc : Forall (fun s => match s with Beep level _ => level_value HIGH <= level_value level | _ => True end) (snd (alert_step st c))).
    { destruct c as [ev now now_ms| | | | | | |]; try by apply Forall_nil. cbn [alert_step]. unfold push. destruct (_ <? _); [by apply Forall_nil|].
      cbn [sound_enabled_ notification_cb_ toast_enabled_]. set (rec := record_of st ev now).
      assert (Hs : Forall (fun s => match s with Beep level _ => level_value HIGH <= level_value level | _ => True end)
        (if notification_cb_ st then [Notified rec] else if toast_enabled_ st then [Balloon rec] else [])).
      { destruct (notification_cb_ st); [by apply Forall_singleton|]. destruct (toast_enabled_ st); [by apply Forall_singleton|by apply Forall_nil]. }
      destruct (sound_enabled_ st); [|exact Hs]. unfold play_sound.
      destruct (Z.ltb_spec (level_value (ar_level rec)) (level_value HIGH)) as [_|Hl]; [by rewrite app_nil_r|].
      destruct (_ <? _); [by rewrite app_nil_r|]. apply Forall_app. split; [exact Hs|by apply Forall_singleton]. }
    specialize (IH (fst (alert_step st c))). destruct (alert_step st c) as [st1 s1]. cbn [fst snd] in *. destruct (alert_run st1 cs) as [st2 s2].
    by apply Forall_app.
Qed.

(** an event below the smallest level shown leaves no trace; any other is the latest alert,
    new, with the event's level, category, text and process, the engine the category stands
    for, and the event's time or the present when it has none; older ones stay up to 500, and
    it goes to the callback if there is one and else to a balloon if balloons are on. *)
Theorem push_records (st : AlertManager) (ev : ThreatEvent) (now now_ms : Z) :
  let '(st', shown) := push st ev now now_ms in
  if level_value (ev_level ev) <? level_value (min_level_ st) then st' = st /\ shown = []
  else
    let r := record_of st ev now in
    recent st' 1 = [r] /\ history_ st' = last_n 500 (history_ st ++ [r]) /\ ar_acknowledged r = false /\
    (Notified r ∈ shown <-> notification_cb_ st = true) /\ (Balloon r ∈ shown <-> notification_cb_ st = false /\ toast_enabled_ st = true).
Proof.
  pose proof (push_history st ev now now_ms) as H. unfold push in *. destruct (_ <? _); [done|]. cbn [sound_enabled_] in *.
  set (rec := record_of st ev now) in *.
  assert (Hr : forall st', history_ st' = push_bounded MAX_HISTORY (history_ st) rec -> recent st' 1 = [rec]).
  { intros st' E. rewrite recent_latest, E by done. unfold push_bounded, MAX_HISTORY. rewrite latest_last_n by done.
    rewrite last_n_app by done. unfold last_n. by rewrite drop_ge by (cbn; lia). }
  assert (Hin : forall beeps, (forall x, x ∈ beeps -> exists l t, x = Beep l t) ->
    let shown := (if notification_cb_ st then [Notified rec] else if toast_enabled_ st then [Balloon rec] else []) ++ beeps in
    (Notified rec ∈ shown <-> notification_cb_ st = true) /\ (Balloon rec ∈ shown <-> notification_cb_ st = false /\ toast_enabled_ st = true)).
  { intros beeps Hb. assert (Hn : Notified rec ∉ beeps) by (intros (? & ? & ?)%Hb; done). assert (Ht : Balloon rec ∉ beeps) by (intros (? & ? & ?)%Hb; done).
    cbv zeta. rewrite !elem_of_app. destruct (notification_cb_ st), (toast_enabled_ st); rewrite ?list_elem_of_singleton, ?elem_of_nil; intuition congruence. }
  destruct (sound_enabled_ st).
  - unfold play_sound in *. destruct (_ <? level_value HIGH); [|destruct (_ <? SOUND_COOLDOWN_MS)]; destruct H as [Eh _];
      (split_and!; [by apply Hr|exact Eh|done|apply Hin..]); intros x; rewrite ?elem_of_nil, ?list_elem_of_singleton; try done; intros ->; by eexists _, _.
  - destruct H as [Eh _]. specialize (Hin [] ltac:(intros x Hx; by apply elem_of_nil in Hx)). rewrite app_nil_r in Hin.
    split_and!; [by apply Hr|exact Eh|done|apply Hin..].
Qed.
