(* ===== verification/WebhookEngine.v ===== *)
(** * Webhook: events as payloads for other systems

    Models src/src/engines/webhook_engine.cpp: the five formats, the queue, and the worker
    thread as a machine of atomic steps beside its callers.  A worker step is one part of
    the loop under the mutex; the payloads stay in memory, where the code leaves them.
    Texts with quotation marks are written with apostrophes and translated by [json_text]. *)
From S2P Require Import Prelude BoundedLog Observation Text Threat.

Inductive WebhookFormat := JSON_GENERIC | DISCORD | SLACK | SPLUNK_HEC | SYSLOG_CEF.

Record WebhookConfig := Config {
  wc_enabled : bool;
  wc_url : string;
  wc_format : WebhookFormat;
  wc_timeout_ms : Z;
  wc_min_level : Z;
}.

(** ** The formats *)

Definition quote_char : Ascii.ascii := char_of 34.

Definition json_text : string -> string := string_map (fun c => if char_value c =? 39 then quote_char else c).

Definition print_level (ev : ThreatEvent) : string := print_int (level_value (ev_level ev)).
Definition print_category (ev : ThreatEvent) : string := print_int (category_value (ev_category ev)).
Definition print_pid (ev : ThreatEvent) : string := print_int (ev_process_id ev).

Definition format_generic_json (ev : ThreatEvent) : string :=
  json_text "{'alert':{'level':" +:+ print_level ev +:+ json_text ",'category':" +:+ print_category ev +:+
  json_text ",'description':'" +:+ ev_description ev +:+ json_text "','process_name':'" +:+ ev_process_name ev +:+
  json_text "','process_id':" +:+ print_pid ev +:+ "}}".

Definition format_discord_payload (ev : ThreatEvent) : string :=
  let color := match ev_level ev with CRITICAL => 0xFF0000 | HIGH => 0xFF8800 | _ => 0xFFFF00 end in
  let title := if empty_string (ev_process_name ev) then "System Security Alert"%string else ev_process_name ev in
  json_text "{'embeds':[{'title':'GCAD Threat Alert: " +:+ title +:+ json_text "','description':'" +:+ ev_description ev +:+
  json_text "','color':" +:+ print_int color +:+ json_text ",'fields':[{'name':'Process','value':'" +:+ ev_process_name ev +:+
  " (PID: " +:+ print_pid ev +:+ json_text ")','inline':true},{'name':'Severity','value':'" +:+ print_level ev +:+
  json_text "','inline':true}]}]}".

Definition format_slack_payload (ev : ThreatEvent) : string :=
  let tag := if empty_string (ev_process_name ev) then "SECURITY"%string else ev_process_name ev in
  json_text "{'text':'[GCAD ALERT] " +:+ tag +:+ ": " +:+ ev_description ev +:+ json_text "'}".

Definition format_splunk_hec_payload (ev : ThreatEvent) : string :=
  json_text "{'sourcetype':'gcad:edr','event':{'category':" +:+ print_category ev +:+ json_text ",'level':" +:+ print_level ev +:+
  json_text ",'description':'" +:+ ev_description ev +:+ json_text "','process':'" +:+ ev_process_name ev +:+
  json_text "','pid':" +:+ print_pid ev +:+ "}}".

Definition format_syslog_cef_payload (ev : ThreatEvent) : string :=
  let src := if empty_string (ev_source_ip ev) then "127.0.0.1"%string else ev_source_ip ev in
  "CEF:0|Galoisconnection|GCAD|1.0|ALERT|" +:+ print_category ev +:+ "|" +:+ print_level ev +:+ "|src=" +:+ src +:+
  " dproc=" +:+ ev_process_name ev +:+ " pid=" +:+ print_pid ev +:+ " msg=" +:+ ev_description ev.

Definition format_payload (fmt : WebhookFormat) (ev : ThreatEvent) : string :=
  match fmt with
  | DISCORD => format_discord_payload ev
  | SLACK => format_slack_payload ev
  | SPLUNK_HEC => format_splunk_hec_payload ev
  | SYSLOG_CEF => format_syslog_cef_payload ev
  | JSON_GENERIC => format_generic_json ev
  end.

(** ** The engine *)

(** The worker: no thread, at the top of its loop, or holding an event it took. *)
Inductive hook_worker := Exited | Waits | Holds (ev : ThreatEvent) (fmt : WebhookFormat).

Record WebhookEngine := Webhook {
  wh_running : bool;
  wh_config : WebhookConfig;
  wh_queue : list ThreatEvent;
  wh_payloads : list string;
  wh_events : Z;
  wh_worker : hook_worker;
}.

Definition new_webhook : WebhookEngine := Webhook false (Config false EmptyString JSON_GENERIC 3000 2) [] [] 0 Exited.

(** Above 500 payloads the first hundred go. *)
Definition store_payload (payloads : list string) (payload : string) : list string :=
  let payloads := payloads ++ [payload] in
  if 500 <? Z.of_nat (length payloads) then drop 100 payloads else payloads.

Definition recent_dispatches (st : WebhookEngine) (limit : Z) : list string :=
  if bool_decide (wh_payloads st = []) || (limit =? 0) then [] else latest limit (wh_payloads st).

Definition queue_size (st : WebhookEngine) : Z := Z.of_nat (length (wh_queue st)).

(** What a step does to the outside: an event that came in, one the worker took, a payload it stored. *)
Inductive hook_label := Enqueues (ev : ThreatEvent) | Takes (ev : ThreatEvent) (fmt : WebhookFormat) | Stores (payload : string) | Silent.

Definition enqueue_event (st : WebhookEngine) (ev : ThreatEvent) : WebhookEngine :=
  Webhook (wh_running st) (wh_config st) (wh_queue st ++ [ev]) (wh_payloads st) (wh_events st) (wh_worker st).

Definition set_config (st : WebhookEngine) (cfg : WebhookConfig) : WebhookEngine :=
  Webhook (wh_running st) cfg (wh_queue st) (wh_payloads st) (wh_events st) (wh_worker st).

(** [start] of an engine that does not run creates the thread; a [stop] first clears the flag
    and then waits for the worker to leave its loop. *)
Inductive hook_call : WebhookEngine -> hook_label -> WebhookEngine -> Prop :=
| CallEnqueue st ev : hook_call st (Enqueues ev) (enqueue_event st ev)
| CallConfig st cfg : hook_call st Silent (set_config st cfg)
| CallStart st : wh_running st = false -> wh_worker st = Exited ->
    hook_call st Silent (Webhook true (wh_config st) (wh_queue st) (wh_payloads st) (wh_events st) Waits)
| CallStop st : hook_call st Silent (Webhook false (wh_config st) (wh_queue st) (wh_payloads st) (wh_events st) (wh_worker st)).

Inductive hook_step : WebhookEngine -> hook_label -> WebhookEngine -> Prop :=
| WorkerLeaves st : wh_worker st = Waits -> wh_running st = false ->
    hook_step st Silent (Webhook false (wh_config st) (wh_queue st) (wh_payloads st) (wh_events st) Exited)
| WorkerTakes st ev queue : wh_worker st = Waits -> wh_running st = true -> wh_queue st = ev :: queue ->
    hook_step st (Takes ev (wc_format (wh_config st)))
      (Webhook true (wh_config st) queue (wh_payloads st) (wh_events st) (Holds ev (wc_format (wh_config st))))
| WorkerStores st ev fmt : wh_worker st = Holds ev fmt ->
    hook_step st (Stores (format_payload fmt ev))
      (Webhook (wh_running st) (wh_config st) (wh_queue st) (store_payload (wh_payloads st) (format_payload fmt ev)) (u64 (wh_events st + 1)) Waits).

(** The states of an engine and what has happened on the way. *)
Inductive hook_reached : list hook_label -> WebhookEngine -> Prop :=
| HookNew : hook_reached [] new_webhook
| HookMoves labels st label st' : hook_reached labels st -> hook_call st label st' \/ hook_step st label st' -> hook_reached (labels ++ [label]) st'.

Definition enqueued (labels : list hook_label) : list ThreatEvent := omap (fun l => match l with Enqueues ev => Some ev | _ => None end) labels.
Definition taken (labels : list hook_label) : list (ThreatEvent * WebhookFormat) :=
  omap (fun l => match l with Takes ev fmt => Some (ev, fmt) | _ => None end) labels.
Definition stored (labels : list hook_label) : list string := omap (fun l => match l with Stores p => Some p | _ => None end) labels.

Definition held (w : hook_worker) : list (ThreatEvent * WebhookFormat) := match w with Holds ev fmt => [(ev, fmt)] | _ => [] end.

Definition payload_of (x : ThreatEvent * WebhookFormat) : string := format_payload (snd x) (fst x).

(** The steps the worker can still take on its own. *)
Definition hook_work (st : WebhookEngine) : nat :=
  match wh_worker st with
  | Exited => 0%nat
  | Waits => if wh_running st then (2 * length (wh_queue st))%nat else 1%nat
  | Holds _ _ => (1 + if wh_running st then 2 * length (wh_queue st) else 1)%nat
  end.

Inductive hook_run : WebhookEngine -> nat -> list hook_label -> WebhookEngine -> Prop :=
| HookHere st : hook_run st 0 [] st
| HookStep st label st' n labels st'' : hook_step st label st' -> hook_run st' n labels st'' -> hook_run st (S n) (label :: labels) st''.

(** ** Lemmas *)

Record hook_inv (labels : list hook_label) (st : WebhookEngine) : Prop := {
  hi_events : enqueued labels = (fst <$> taken labels) ++ wh_queue st;
  hi_taken : payload_of <$> taken labels = stored labels ++ (payload_of <$> held (wh_worker st));
  hi_kept : exists gone, stored labels = gone ++ wh_payloads st;
  hi_bounded : (length (wh_payloads st) <= 500)%nat;
  hi_least : (length (stored labels) <= 500 \/ 401 <= length (wh_payloads st))%nat;
  hi_whole : (length (stored labels) <= 500)%nat -> wh_payloads st = stored labels;
}.

Lemma store_bounded payloads p : (length payloads <= 500)%nat -> (length (store_payload payloads p) <= 500)%nat.
Proof.
  intros H. unfold store_payload. destruct (Z.ltb_spec 500 (Z.of_nat (length (payloads ++ [p])))) as [L|L]; [rewrite length_drop|]; rewrite length_app in *; cbn in *; lia.
Qed.

Lemma store_suffix payloads p : exists gone, payloads ++ [p] = gone ++ store_payload payloads p.
Proof.
  unfold store_payload. destruct (500 <? _); [|by exists []]. exists (take 100 (payloads ++ [p])). by rewrite take_drop.
Qed.

Lemma store_length payloads p : (length payloads <= 500)%nat ->
  store_payload payloads p = payloads ++ [p] \/ (length payloads = 500 /\ length (store_payload payloads p) = 401)%nat.
Proof.
  intros H. unfold store_payload. destruct (Z.ltb_spec 500 (Z.of_nat (length (payloads ++ [p])))) as [L|L]; [right|by left].
  rewrite length_app in L. cbn [length] in L. rewrite length_drop, length_app. cbn [length]. lia.
Qed.

Lemma label_app {B} (f : hook_label -> option B) labels l : omap f (labels ++ [l]) = omap f labels ++ (match f l with Some x => [x] | None => [] end).
Proof. rewrite omap_app. cbn. by destruct (f l). Qed.

Lemma hook_inv_reached labels st : hook_reached labels st -> hook_inv labels st.
Proof.
  induction 1 as [|labels st label st' _ IH Hs].
  { split; [done|done|by exists []|cbn; lia|left; cbn; lia|done]. }
  destruct IH as [H1 H2 H3 H4 H5 H6]. destruct Hs as [Hs|Hs]; [destruct Hs as [st ev|st cfg|st Hr Hw|st]|destruct Hs as [st Hw Hr|st ev queue Hw Hr Hq|st ev fmt Hw]];
    split; unfold enqueued, taken, stored in *; rewrite ?label_app, ?app_nil_r; cbn [enqueue_event set_config wh_queue wh_worker wh_payloads];
    rewrite ?Hw in *; cbn [held fmap list_fmap] in *; rewrite ?app_nil_r in *; try assumption.
  - by rewrite H1, app_assoc.
  - by rewrite fmap_app, <- app_assoc, H1, Hq.
  - by rewrite fmap_app, H2.
  - destruct H3 as (gone & ->), (store_suffix (wh_payloads st) (format_payload fmt ev)) as (g & Hg). exists (gone ++ g). by rewrite <- !app_assoc, Hg.
  - by apply store_bounded.
  - rewrite length_app. cbn [length]. destruct (store_length (wh_payloads st) (format_payload fmt ev) H4) as [E|[_ E]]; [|right; rewrite E; lia].
    rewrite E, length_app. cbn [length]. destruct H5 as [H5|H5]; [|right; lia]. rewrite (H6 H5). lia.
  - rewrite length_app. cbn [length]. intros L. pose proof (H6 ltac:(lia)) as E6.
    destruct (store_length (wh_payloads st) (format_payload fmt ev) H4) as [E|[E _]]; [by rewrite E, E6|]. rewrite E6 in E. lia.
Qed.

Lemma hook_step_works st label st' : hook_step st label st' -> hook_work st = S (hook_work st').
Proof.
  destruct 1 as [st Hw Hr|st ev queue Hw Hr Hq|st ev fmt Hw]; unfold hook_work; cbn [wh_worker wh_running wh_queue]; rewrite Hw.
  - by rewrite Hr.
  - rewrite Hr, Hq. cbn [length]. lia.
  - by destruct (wh_running st).
Qed.

Lemma hook_step_running st label st' : hook_step st label st' -> wh_running st' = wh_running st.
Proof. by destruct 1. Qed.

Lemma hook_progress st : (0 < hook_work st)%nat -> exists label st', hook_step st label st'.
Proof.
  unfold hook_work. destruct (wh_worker st) as [| |ev fmt] eqn:Hw; [lia| |].
  - destruct (wh_running st) eqn:Hr.
    + destruct (wh_queue st) as [|ev queue] eqn:Hq; [cbn; lia|]. intros _. eexists _, _. by eapply WorkerTakes.
    + intros _. eexists _, _. by apply WorkerLeaves.
  - intros _. eexists _, _. by eapply WorkerStores.
Qed.

Lemma hook_run_reached st n labels' st' : hook_run st n labels' st' -> forall labels, hook_reached labels st -> hook_reached (labels ++ labels') st'.
Proof.
  induction 1 as [st|st label st1 n labels' st2 Hs _ IH]; intros labels Hr; [by rewrite app_nil_r|].
  replace (labels ++ label :: labels') with ((labels ++ [label]) ++ labels') by by rewrite <- app_assoc.
  apply IH. eapply HookMoves; [exact Hr|by right].
Qed.

Lemma hook_run_work st n labels st' : hook_run st n labels st' -> hook_work st = (n + hook_work st')%nat /\ wh_running st' = wh_running st.
Proof.
  induction 1 as [|st label st1 n labels st2 Hs _ [IH1 IH2]]; [done|]. rewrite (hook_step_works _ _ _ Hs), IH1, IH2. split; [done|by eapply hook_step_running].
Qed.

Lemma hook_run_no_enqueue st n labels st' : hook_run st n labels st' -> enqueued labels = [].
Proof. induction 1 as [|st label st1 n labels st2 Hs _ IH]; [done|]. destruct Hs; exact IH. Qed.

(** *** Payloads that can be read *)

Definition unquoted (s : string) : Prop := has_char quote_char s = false.

Lemma digits_unquoted z : has_char quote_char (print_int z) = false.
Proof. apply print_int_plain; by vm_compute. Qed.

Lemma comma_unquoted z : has_char (char_of 44) (print_int z) = false.
Proof. apply print_int_plain; by vm_compute. Qed.

Lemma brace_unquoted z : has_char (char_of 125) (print_int z) = false.
Proof. apply print_int_plain; by vm_compute. Qed.

Lemma quoted_pieces :
  json_text "," = String.String (char_of 44) EmptyString /\ json_text "'" = String.String quote_char EmptyString.
Proof. by vm_compute. Qed.

Lemma string_cons_app c (a b : string) : String.String c a +:+ b = String.String c (a +:+ b).
Proof. done. Qed.

(** ** Properties *)

(** C28: whatever callers and worker do and in whatever order, no event is lost, invented or
    overtaken: the events that came in are those the worker took, followed by the queue; each
    one taken gives one payload in the format set at that moment, in order; and what the
    engine keeps is the end of the payloads, at most 500, at least 401 once there were more,
    and all of them until then. *)
Theorem hook_keeps_order (labels : list hook_label) (st : WebhookEngine) :
  hook_reached labels st ->
  enqueued labels = (fst <$> taken labels) ++ wh_queue st /\
  payload_of <$> taken labels = stored labels ++ (payload_of <$> held (wh_worker st)) /\
  (exists gone, stored labels = gone ++ wh_payloads st) /\ (length (wh_payloads st) <= 500)%nat /\
  (length (stored labels) <= 500 \/ 401 <= length (wh_payloads st))%nat /\
  ((length (stored labels) <= 500)%nat -> wh_payloads st = stored labels).
Proof. intros H. apply hook_inv_reached in H as [H1 H2 H3 H4 H5 H6]. by split_and!. Qed.

(** One event, taken and stored. *)
Definition hook_event : ThreatEvent := Event 0 0 HIGH RANSOMWARE 7 "a.exe" EmptyString "bad" EmptyString 0 false false.

Definition hook_started : WebhookEngine := Webhook true (wh_config new_webhook) [hook_event] [] 0 Waits.

Lemma hook_started_reached : hook_reached [Silent; Enqueues hook_event] hook_started.
Proof.
  change [Silent; Enqueues hook_event] with (([] ++ [Silent]) ++ [Enqueues hook_event]).
  eapply HookMoves; [eapply HookMoves; [apply HookNew|left; by apply CallStart]|left; apply CallEnqueue].
Qed.

Lemma hook_keeps_order_witness : wh_queue hook_started = [hook_event].
Proof. destruct (hook_keeps_order _ _ hook_started_reached) as [H _]. exact (eq_sym H). Defined.

(** C29: left alone, the worker of a reachable engine comes to rest: every run takes exactly the
    steps [hook_work] counts down, a step is always possible until then, and at rest a running
    engine has an empty queue and one payload for each event that ever came in, while a
    stopped one has no worker any more, and its queue waits for the next start. *)
Theorem hook_drains (labels labels' : list hook_label) (st st' : WebhookEngine) (n : nat) :
  hook_reached labels st -> hook_run st n labels' st' ->
  hook_work st = (n + hook_work st')%nat /\
  ((0 < hook_work st')%nat -> exists label st'', hook_step st' label st'') /\
  (hook_work st' = 0%nat ->
     (wh_worker st' = Waits -> wh_running st' = true /\ wh_queue st' = [] /\
        length (stored (labels ++ labels')) = length (enqueued labels)) /\
     (wh_running st = false -> wh_worker st' = Exited)).
Proof.
  intros Hr Hrun. destruct (hook_run_work _ _ _ _ Hrun) as [Hw Hrn]. split; [exact Hw|]. split; [apply hook_progress|]. intros H0.
  pose proof (hook_run_reached _ _ _ _ Hrun _ Hr) as Hr'. apply hook_inv_reached in Hr' as [H1 H2 _ _ _ _]. unfold hook_work in H0. split.
  - intros Ew. rewrite Ew in *. destruct (wh_running st') eqn:E; [|lia]. assert (Hq : wh_queue st' = []) by (destruct (wh_queue st'); [done|cbn in H0; lia]).
    split_and!; [done|done|]. cbn [held fmap list_fmap] in H2. rewrite Hq in H1. rewrite app_nil_r in H1, H2. rewrite <- H2, length_fmap.
    assert (E' : enqueued (labels ++ labels') = enqueued labels).
    { unfold enqueued. rewrite omap_app. pose proof (hook_run_no_enqueue _ _ _ _ Hrun) as Hn. unfold enqueued in Hn. by rewrite Hn, app_nil_r. }
    by rewrite <- E', H1, length_fmap.
  - intros Er. rewrite <- Hrn in Er. rewrite Er in H0. destruct (wh_worker st'); [done|lia|lia].
Qed.

Definition hook_done : WebhookEngine := Webhook true (wh_config new_webhook) [] [format_generic_json hook_event] 1 Waits.

Lemma hook_started_run : hook_run hook_started 2 [Takes hook_event JSON_GENERIC; Stores (format_generic_json hook_event)] hook_done.
Proof.
  eapply HookStep; [by apply (WorkerTakes hook_started hook_event [])|]. eapply HookStep; [by apply (WorkerStores _ hook_event JSON_GENERIC)|].
  apply HookHere.
Qed.

Lemma hook_drains_witness : hook_work hook_started = 2%nat /\ wh_queue hook_done = [].
Proof.
  destruct (hook_drains _ _ _ _ _ hook_started_reached hook_started_run) as (H & _ & H0). split; [exact H|]. apply (H0 eq_refl). reflexivity.
Defined.

(** events whose texts hold no quotation mark have the same generic payload only if they
    agree in level, category, description, process and process id. *)
Theorem generic_json_injective (a b : ThreatEvent) :
  unquoted (ev_description a) -> unquoted (ev_description b) -> unquoted (ev_process_name a) -> unquoted (ev_process_name b) ->
  format_generic_json a = format_generic_json b ->
  ev_level a = ev_level b /\ ev_category a = ev_category b /\ ev_description a = ev_description b /\
  ev_process_name a = ev_process_name b /\ ev_process_id a = ev_process_id b.
Proof.
  intros Hda Hdb Hna Hnb E. unfold format_generic_json in E. apply string_app_l_inj in E.
  change (json_text ",'category':") with (String.String (char_of 44) (json_text "'category':")) in E.
  change (json_text ",'description':'") with (String.String (char_of 44) (json_text "'description':'")) in E.
  change (json_text "','process_name':'") with (String.String quote_char (json_text ",'process_name':'")) in E.
  change (json_text "','process_id':") with (String.String quote_char (json_text ",'process_id':")) in E.
  change "}}"%string with (String.String (char_of 125) "}"%string) in E. rewrite !string_cons_app in E.
  apply split_at_char in E as [E1 E]; [|apply comma_unquoted..]. apply string_app_l_inj in E.
  apply split_at_char in E as [E2 E]; [|apply comma_unquoted..]. apply string_app_l_inj in E.
  apply split_at_char in E as [E3 E]; [|done..]. apply string_app_l_inj in E.
  apply split_at_char in E as [E4 E]; [|done..]. apply string_app_l_inj in E.
  apply split_at_char in E as [E5 _]; [|apply brace_unquoted..].
  split_and!; [by apply level_value_inj, print_int_inj|by apply category_value_inj, print_int_inj|done|done|by apply print_int_inj].
Qed.

(** Two events that differ in the description and the process, with the same payload. *)
Definition forged (description process : string) : ThreatEvent :=
  Event 0 0 HIGH RANSOMWARE 7 (json_text process) EmptyString (json_text description) EmptyString 0 false false.

Lemma payloads_can_be_forged :
  format_generic_json (forged "x" "y','process_name':'z") = format_generic_json (forged "x','process_name':'y" "z").
Proof. vm_compute. reflexivity. Qed.

Lemma generic_json_injective_witness : ev_process_id hook_event = ev_process_id (forged "bad" "a.exe").
Proof.
  apply (generic_json_injective hook_event (forged "bad" "a.exe")); [by vm_compute..|]. vm_compute. reflexivity.
Defined.
