(* ===== verification/Monitors.v ===== *)
(** * Monitors: watched files and autorun values

    Models src/src/engines/file_integrity_engine.cpp and registry_monitor_engine.cpp: the
    baseline each keeps, the check that compares it with what the system shows now, what a
    change reports, and the pace of the checks, which both share.  What a file is at a check
    and the values the registry holds are arguments; so is the order in which an
    [std::unordered_map] is walked, of which only that it visits each entry once is used. *)
From S2P Require Import Prelude Float64 Sha2 Observation Text Threat.

#[local] Opaque hash_file.

(** ** The pace *)

Definition MAX_POLL : Z := 30000.

(** The end of a turn of the two loops: the wait in milliseconds and the turns without a change. *)
Definition poll_step (base : Z) (st : Z * Z) (changes : Z) : Z * Z :=
  let '(poll_ms, quiet_ticks) := st in
  if 0 <? changes then (base, 0)
  else
    let quiet_ticks := quiet_ticks + 1 in
    if (5 <=? quiet_ticks) && (poll_ms <? MAX_POLL) then (Z.min (poll_ms * 2) MAX_POLL, quiet_ticks) else (poll_ms, quiet_ticks).

Definition poll_start (base : Z) : Z * Z := (base, 0).

(** ** Watched files *)

(** What the system tells of a path where there is something: whether it is a regular file,
    its content if it opens, its size, and its time if that is known. *)
Record FileFacts := Facts {
  ff_regular : bool;
  ff_content : option (list byte);
  ff_size : Z;
  ff_mtime : option Z;
}.

Definition files : Type := string -> option FileFacts.

Record FileIntegrityEntry := Entry {
  fe_path : string;
  fe_sha256 : string;
  fe_size : Z;
  fe_mtime : option Z;
}.

Record FileIntegrityEngine := Fim {
  fim_watch_paths : list string;
  fim_baseline : gmap string FileIntegrityEntry;
  fim_events : Z;
  fim_threats : Z;
  fim_threat_cb : bool;
  fim_observation_cb : bool;
}.

Definition default_watch_paths : list string :=
  ["C:\Windows\System32\drivers\etc\hosts"; "C:\Windows\System32\config\SAM"; "C:\Windows\System32\config\SYSTEM";
   "C:\Windows\System32\config\SOFTWARE"]%string.

Definition add_watch_path (st : FileIntegrityEngine) (path : string) : FileIntegrityEngine :=
  Fim (fim_watch_paths st ++ [path]) (fim_baseline st) (fim_events st) (fim_threats st) (fim_threat_cb st) (fim_observation_cb st).

Definition baseline_size (st : FileIntegrityEngine) : Z := Z.of_nat (size (fim_baseline st)).

(** The body of the loop of [build_baseline]. *)
Definition add_baseline (d : files) (baseline : gmap string FileIntegrityEntry) (path : string) : gmap string FileIntegrityEntry :=
  match d path with
  | Some f =>
      if negb (ff_regular f) then baseline
      else
        let hash := hash_file (ff_content f) in
        if empty_string hash then baseline else <[path := Entry path hash (ff_size f) (ff_mtime f)]> baseline
  | None => baseline
  end.

Definition with_baseline (st : FileIntegrityEngine) (b : gmap string FileIntegrityEntry) : FileIntegrityEngine :=
  Fim (fim_watch_paths st) b (fim_events st) (fim_threats st) (fim_threat_cb st) (fim_observation_cb st).

Definition build_baseline (st : FileIntegrityEngine) (d : files) : FileIntegrityEngine :=
  with_baseline st (foldl (add_baseline d) ∅ (fim_watch_paths st)).

Record FileAlert := ChangedFile { fa_evidence : string; fa_path : string; fa_sha256 : string }.

(** The body of the loop of [check_integrity]: the entry it leaves and the alert it adds. *)
Definition check_file (d : files) (path_str : string) (entry : FileIntegrityEntry) : FileIntegrityEntry * option FileAlert :=
  match d (fe_path entry) with
  | None => (entry, Some (ChangedFile ("Critical file deleted: " +:+ path_str) path_str (fe_sha256 entry)))
  | Some f =>
      match ff_mtime f with
      | None => (entry, None)
      | Some current_mtime =>
          if bool_decide (fe_mtime entry = Some current_mtime) then (entry, None)
          else
            let current_hash := hash_file (ff_content f) in
            if negb (empty_string current_hash) && negb (String.eqb current_hash (fe_sha256 entry)) then
              (Entry (fe_path entry) current_hash (ff_size f) (Some current_mtime),
               Some (ChangedFile ("Critical file modified: " +:+ path_str +:+ " (was " +:+ String.substring 0 16 (fe_sha256 entry) +:+ "...)")
                       path_str current_hash))
            else (Entry (fe_path entry) (fe_sha256 entry) (fe_size entry) (Some current_mtime), None)
      end
  end.

Definition file_threat (a : FileAlert) : ThreatEvent :=
  Event 0 0 CRITICAL FILE_INTEGRITY_VIOLATION 0 EmptyString (fa_path a) (fa_evidence a) EmptyString 0 false false.

Definition file_observation (a : FileAlert) (now : Z) : SecurityObservation :=
  Obs "fim" FILE_INTEGRITY now CRITICAL (dlit 95 100) true 0 EmptyString (fa_path a) (fa_sha256 a) (fa_evidence a).

(** The two calls for an alert. *)
Definition emit_alert (now : Z) (x : FileIntegrityEngine * list output) (a : FileAlert) : FileIntegrityEngine * list output :=
  let '(st, outs) := x in
  (Fim (fim_watch_paths st) (fim_baseline st) (fim_events st) (u64 (fim_threats st + 1)) (fim_threat_cb st) (fim_observation_cb st),
   outs ++ (if fim_threat_cb st then [Threat (file_threat a)] else []) ++
     (if fim_observation_cb st then [Observed (file_observation a now)] else [])).

Section walks.
Context (order : gmap string FileIntegrityEntry -> list (string * FileIntegrityEntry)).

Definition file_alerts (d : files) (b : gmap string FileIntegrityEntry) : list FileAlert :=
  omap (fun x => snd (check_file d (fst x) (snd x))) (order b).

Definition checked_baseline (d : files) (b : gmap string FileIntegrityEntry) : gmap string FileIntegrityEntry :=
  map_imap (fun path entry => Some (fst (check_file d path entry))) b.

(** The state after a check, the number of alerts, and what the callbacks got. *)
Definition check_integrity (st : FileIntegrityEngine) (d : files) (now : Z) : FileIntegrityEngine * Z * list output :=
  let alerts := file_alerts d (fim_baseline st) in
  let st := with_baseline st (checked_baseline d (fim_baseline st)) in
  let '(st, outs) := foldl (emit_alert now) (st, []) alerts in
  (st, Z.of_nat (length alerts), outs).

(** A turn of [monitor_loop] behind its wait. *)
Definition file_turn (st : FileIntegrityEngine) (pace : Z * Z) (d : files) (now : Z) : FileIntegrityEngine * (Z * Z) * list output :=
  let '(st, changes, outs) := check_integrity st d now in
  (Fim (fim_watch_paths st) (fim_baseline st) (u64 (fim_events st + 1)) (fim_threats st) (fim_threat_cb st) (fim_observation_cb st),
   poll_step 2000 pace changes, outs).
End walks.

(** ** Autorun values *)

Record RegistryValueSnapshot := Value {
  rv_key_path : string;
  rv_value_name : string;
  rv_type : Z;
  rv_data_hex : string;
}.

Record RegistryMonitorEngine := RegMon {
  rm_baseline : gmap string RegistryValueSnapshot;
  rm_events : Z;
  rm_threats : Z;
  rm_threat_cb : bool;
  rm_observation_cb : bool;
}.

Definition value_key (v : RegistryValueSnapshot) : string := rv_key_path v +:+ "\" +:+ rv_value_name v.

(** The map both [start] and the loop make of an enumeration. *)
Definition values_map (values : list RegistryValueSnapshot) : gmap string RegistryValueSnapshot :=
  foldl (fun m v => <[value_key v := v]> m) ∅ values.

Definition start_baseline (st : RegistryMonitorEngine) (values : list RegistryValueSnapshot) : RegistryMonitorEngine :=
  RegMon (values_map values) (rm_events st) (rm_threats st) (rm_threat_cb st) (rm_observation_cb st).

Definition changed_value (baseline : gmap string RegistryValueSnapshot) (key : string) (snap : RegistryValueSnapshot) : option string :=
  match baseline !! key with
  | None => Some ("New autorun entry: " +:+ key)
  | Some old => if negb (String.eqb (rv_data_hex old) (rv_data_hex snap)) then Some ("Modified autorun entry: " +:+ key) else None
  end.

Definition deleted_value (current : gmap string RegistryValueSnapshot) (key : string) : option string :=
  match current !! key with None => Some ("Deleted autorun entry: " +:+ key) | Some _ => None end.

Definition value_threat (alert : string) : ThreatEvent :=
  Event 0 0 HIGH REGISTRY_TAMPER 0 EmptyString EmptyString alert EmptyString 0 false false.

Definition value_observation (alert : string) (now : Z) : SecurityObservation :=
  Obs "registry-monitor" REGISTRY_PERSISTENCE now HIGH (dlit 85 100) true 0 EmptyString EmptyString EmptyString alert.

Definition emit_value (now : Z) (x : RegistryMonitorEngine * list output) (alert : string) : RegistryMonitorEngine * list output :=
  let '(st, outs) := x in
  (RegMon (rm_baseline st) (rm_events st) (u64 (rm_threats st + 1)) (rm_threat_cb st) (rm_observation_cb st),
   outs ++ (if rm_threat_cb st then [Threat (value_threat alert)] else []) ++
     (if rm_observation_cb st then [Observed (value_observation alert now)] else [])).

Section registry.
Context (order : gmap string RegistryValueSnapshot -> list (string * RegistryValueSnapshot)).

Definition value_alerts (baseline current : gmap string RegistryValueSnapshot) : list string :=
  omap (fun x => changed_value baseline (fst x) (snd x)) (order current) ++
  omap (fun x => deleted_value current (fst x)) (order baseline).

(** A turn of [monitor_loop] behind its wait. *)
Definition registry_turn (st : RegistryMonitorEngine) (pace : Z * Z) (values : list RegistryValueSnapshot) (now : Z) :
    RegistryMonitorEngine * (Z * Z) * list output :=
  let current := values_map values in
  let alerts := value_alerts (rm_baseline st) current in
  let st := RegMon current (u64 (rm_events st + 1)) (rm_threats st) (rm_threat_cb st) (rm_observation_cb st) in
  let pace := poll_step 3000 pace (Z.of_nat (length alerts)) in
  let '(st, outs) := foldl (emit_value now) (st, []) alerts in
  (st, pace, outs).
End registry.

(** ** Lemmas *)

Lemma pace_quiet base k : 0 < base <= MAX_POLL ->
  Nat.iter k (fun st => poll_step base st 0) (poll_start base) = (Z.min (base * 2 ^ (Z.max 0 (Z.of_nat k - 4))) MAX_POLL, Z.of_nat k).
Proof.
  unfold MAX_POLL. intros Hb. induction k as [|k IH]; [change (2 ^ Z.max 0 (Z.of_nat 0 - 4)) with 1; change (poll_start base = (Z.min (base * 1) 30000, 0)); unfold poll_start; f_equal; lia|]. rewrite Nat.iter_succ, IH. unfold poll_step, MAX_POLL.
  change (0 <? 0) with false. cbv iota. rewrite Nat2Z.inj_succ. unfold Z.succ.
  destruct (Z.leb_spec 5 (Z.of_nat k + 1)) as [H5|H5]; cbn [andb].
  - assert (E : 2 ^ Z.max 0 (Z.of_nat k + 1 - 4) = 2 * 2 ^ Z.max 0 (Z.of_nat k - 4)).
    { rewrite !Z.max_r by lia. replace (Z.of_nat k + 1 - 4) with (Z.succ (Z.of_nat k - 4)) by lia. apply Z.pow_succ_r. lia. }
    rewrite E. set (p := 2 ^ Z.max 0 (Z.of_nat k - 4)) in *. replace (base * (2 * p)) with (2 * (base * p)) by lia. set (q := base * p).
    destruct (Z.ltb_spec (Z.min q 30000) 30000) as [H|H]; f_equal; lia.
  - rewrite !Z.max_l by lia. done.
Qed.

Lemma pace_bounds base st changes : 0 < base <= MAX_POLL -> base <= fst st <= MAX_POLL ->
  base <= fst (poll_step base st changes) <= MAX_POLL.
Proof.
  intros Hb Hs. destruct st as [p q]. unfold poll_step, MAX_POLL in *. cbn [fst] in *. destruct (0 <? changes); [cbn; lia|]. destruct (_ && _); cbn [fst]; lia.
Qed.

(** What a changed entry is, and its alert. *)
Definition file_deleted (d : files) (p : string) (e : FileIntegrityEntry) (a : FileAlert) : Prop :=
  d (fe_path e) = None /\ a = ChangedFile ("Critical file deleted: " +:+ p) p (fe_sha256 e).

Definition file_modified (d : files) (p : string) (e : FileIntegrityEntry) (a : FileAlert) : Prop :=
  exists f t, d (fe_path e) = Some f /\ ff_mtime f = Some t /\ fe_mtime e <> Some t /\
    hash_file (ff_content f) <> EmptyString /\ hash_file (ff_content f) <> fe_sha256 e /\
    a = ChangedFile ("Critical file modified: " +:+ p +:+ " (was " +:+ String.substring 0 16 (fe_sha256 e) +:+ "...)") p (hash_file (ff_content f)).

Lemma check_file_alert d p e a : snd (check_file d p e) = Some a <-> file_deleted d p e a \/ file_modified d p e a.
Proof.
  unfold check_file, file_deleted, file_modified. destruct (d (fe_path e)) as [f|].
  2: { cbn [snd]. split; [intros [= <-]; by left|intros [[_ ->] | (? & ? & ? & _)]; done]. }
  destruct (ff_mtime f) as [t|] eqn:Et.
  2: { split; [done|]. intros [[? _] | (f' & t & [= <-] & E & _)]; [done|congruence]. }
  case_bool_decide as Hm.
  { split; [done|]. intros [[? _] | (f' & t' & [= <-] & E & Hn & _)]; [done|congruence]. }
  destruct (empty_string (hash_file (ff_content f))) eqn:Ee; cbn [negb andb].
  { apply empty_string_spec in Ee. split; [done|]. intros [[? _] | (f' & t' & [= <-] & _ & _ & Hn & _)]; [done|by destruct Hn]. }
  assert (Hne : hash_file (ff_content f) <> EmptyString) by (intros E; by rewrite E in Ee).
  destruct (String.eqb_spec (hash_file (ff_content f)) (fe_sha256 e)) as [E|E]; cbn [negb snd].
  - split; [done|]. intros [[? _] | (f' & t' & [= <-] & _ & _ & _ & Hn & _)]; [done|by destruct Hn].
  - split.
    + intros [= <-]. right. exists f, t. by split_and!.
    + intros [[? _] | (f' & t' & [= <-] & _ & _ & _ & _ & ->)]; [done|done].
Qed.

Lemma check_file_path d p e : fe_path (fst (check_file d p e)) = fe_path e.
Proof.
  unfold check_file. destruct (d (fe_path e)) as [f|]; [|done]. destruct (ff_mtime f); [|done]. case_bool_decide; [done|]. by destruct (_ && _).
Qed.

Lemma check_file_settles d p e f t : d (fe_path e) = Some f -> ff_mtime f = Some t -> fe_mtime (fst (check_file d p e)) = Some t.
Proof.
  intros Ed Et. unfold check_file. rewrite Ed, Et. case_bool_decide; [done|]. by destruct (_ && _).
Qed.

Lemma recheck_file d p e a : snd (check_file d p (fst (check_file d p e))) = Some a <-> d (fe_path e) = None /\ snd (check_file d p e) = Some a.
Proof.
  rewrite !check_file_alert. split.
  - intros [[Hd Ha] | (f & t & Hd & Ht & Hn & _)]; rewrite check_file_path in Hd.
    + split; [done|]. left. split; [done|]. rewrite Ha. unfold check_file. by rewrite Hd.
    + destruct Hn. by apply check_file_settles with f.
  - intros [Hd [[_ Ha] | (f & t & Hd' & _)]]; [|congruence]. left. split; [by rewrite check_file_path|]. rewrite Ha. unfold check_file. by rewrite Hd.
Qed.

Lemma check_file_alert_path d p e a : snd (check_file d p e) = Some a -> fa_path a = p.
Proof. intros [[_ ->] | (f & t & _ & _ & _ & _ & _ & ->)]%check_file_alert; done. Qed.

Lemma omap_keys_NoDup {A B} (g : string * A -> option B) (key : B -> string) (l : list (string * A)) :
  (forall x b, g x = Some b -> key b = fst x) -> NoDup (fst <$> l) -> NoDup (key <$> omap g l).
Proof.
  intros Hg. induction l as [|x l IH]; intros Hnd; [apply NoDup_nil_2|]. cbn [fmap list_fmap] in Hnd. apply NoDup_cons in Hnd as [Hx Hnd].
  cbn [omap list_omap]. destruct (g x) as [b|] eqn:E; [|by apply IH]. cbn [fmap list_fmap]. apply NoDup_cons. split; [|by apply IH].
  intros (b' & Ek & Hin)%list_elem_of_fmap. apply list_elem_of_omap in Hin as (x' & Hx' & E'). destruct Hx.
  rewrite <- (Hg _ _ E), Ek, (Hg _ _ E'). by apply list_elem_of_fmap_2.
Qed.

(** The outputs for one alert. *)
Definition file_outputs (st : FileIntegrityEngine) (now : Z) (a : FileAlert) : list output :=
  (if fim_threat_cb st then [Threat (file_threat a)] else []) ++ (if fim_observation_cb st then [Observed (file_observation a now)] else []).

Lemma emit_alerts now l : forall st outs,
  let '(st', outs') := foldl (emit_alert now) (st, outs) l in
  outs' = outs ++ mjoin (file_outputs st now <$> l) /\ fim_baseline st' = fim_baseline st /\ fim_events st' = fim_events st /\
  (l <> [] -> fim_threats st' = u64 (fim_threats st + Z.of_nat (length l))) /\ (l = [] -> st' = st).
Proof.
  induction l as [|a l IH]; intros st outs; [split_and!; try done; cbn; by rewrite app_nil_r|]. cbn [foldl].
  set (st1 := Fim (fim_watch_paths st) (fim_baseline st) (fim_events st) (u64 (fim_threats st + 1)) (fim_threat_cb st) (fim_observation_cb st)).
  change (emit_alert now (st, outs) a) with (st1, outs ++ file_outputs st now a). specialize (IH st1 (outs ++ file_outputs st now a)).
  destruct (foldl _ _ _) as [st' outs']. destruct IH as (-> & H2 & H3 & H4 & H5). split_and!; [|done|done| |done].
  - cbn [fmap list_fmap]. change (mjoin (file_outputs st now a :: ?r)) with (file_outputs st now a ++ mjoin r). by rewrite <- app_assoc.
  - intros _. destruct l as [|b l]; [by rewrite (H5 eq_refl)|]. rewrite (H4 ltac:(done)). cbn [st1 fim_threats]. apply u64_add_one.
Qed.

Section file_checks.
Context (order : gmap string FileIntegrityEntry -> list (string * FileIntegrityEntry)).
Hypothesis Horder : forall b, order b ≡ₚ map_to_list b.

Lemma in_order b p e : (p, e) ∈ order b <-> b !! p = Some e.
Proof using Horder. by rewrite Horder, elem_of_map_to_list. Qed.

Lemma file_alerts_in d b a : a ∈ file_alerts order d b <-> exists p e, b !! p = Some e /\ snd (check_file d p e) = Some a.
Proof using Horder.
  unfold file_alerts. rewrite list_elem_of_omap. split.
  - intros ([p e] & Hin & E). exists p, e. by rewrite <- in_order.
  - intros (p & e & Hin & E). exists (p, e). by rewrite in_order.
Qed.

Lemma checked_lookup d b p : checked_baseline d b !! p = (fun e => fst (check_file d p e)) <$> b !! p.
Proof. unfold checked_baseline. rewrite map_lookup_imap. by destruct (b !! p). Qed.

Lemma file_alerts_distinct d b : NoDup (fa_path <$> file_alerts order d b).
Proof using Horder.
  apply omap_keys_NoDup; [intros [p e] a; apply check_file_alert_path|]. rewrite (Horder b). apply NoDup_fst_map_to_list.
Qed.
End file_checks.

(** *** Values *)

Definition data_of (m : gmap string RegistryValueSnapshot) (key : string) : option string := rv_data_hex <$> m !! key.

Definition value_outputs (st : RegistryMonitorEngine) (now : Z) (alert : string) : list output :=
  (if rm_threat_cb st then [Threat (value_threat alert)] else []) ++ (if rm_observation_cb st then [Observed (value_observation alert now)] else []).

Lemma emit_values now l : forall st outs,
  let '(st', outs') := foldl (emit_value now) (st, outs) l in
  outs' = outs ++ mjoin (value_outputs st now <$> l) /\ rm_baseline st' = rm_baseline st /\ rm_events st' = rm_events st.
Proof.
  induction l as [|a l IH]; intros st outs; [split_and!; try done; cbn; by rewrite app_nil_r|]. cbn [foldl].
  set (st1 := RegMon (rm_baseline st) (rm_events st) (u64 (rm_threats st + 1)) (rm_threat_cb st) (rm_observation_cb st)).
  change (emit_value now (st, outs) a) with (st1, outs ++ value_outputs st now a). specialize (IH st1 (outs ++ value_outputs st now a)).
  destruct (foldl _ _ _) as [st' outs']. destruct IH as (-> & H2 & H3). split_and!; [|done|done].
  cbn [fmap list_fmap]. change (mjoin (value_outputs st now a :: ?r)) with (value_outputs st now a ++ mjoin r). by rewrite <- app_assoc.
Qed.

Lemma changed_value_some b key snap t : changed_value b key snap = Some t <->
  (b !! key = None /\ t = "New autorun entry: " +:+ key) \/
  (exists old, b !! key = Some old /\ rv_data_hex old <> rv_data_hex snap /\ t = "Modified autorun entry: " +:+ key).
Proof.
  unfold changed_value. destruct (b !! key) as [old|].
  - destruct (String.eqb_spec (rv_data_hex old) (rv_data_hex snap)) as [E|E]; cbn [negb]; split.
    + done.
    + intros [[? _] | (old' & [= <-] & Hn & _)]; done.
    + intros [= <-]. right. by exists old.
    + intros [[? _] | (old' & [= <-] & _ & ->)]; done.
  - split; [intros [= <-]; by left|intros [[_ ->] | (? & ? & _)]; done].
Qed.

Section value_checks.
Context (order : gmap string RegistryValueSnapshot -> list (string * RegistryValueSnapshot)).
Hypothesis Horder : forall b, order b ≡ₚ map_to_list b.

Lemma value_alerts_in b c t : t ∈ value_alerts order b c <->
  exists key,
    (b !! key = None /\ is_Some (c !! key) /\ t = "New autorun entry: " +:+ key) \/
    (exists old new, b !! key = Some old /\ c !! key = Some new /\ rv_data_hex old <> rv_data_hex new /\ t = "Modified autorun entry: " +:+ key) \/
    (is_Some (b !! key) /\ c !! key = None /\ t = "Deleted autorun entry: " +:+ key).
Proof using Horder.
  assert (Hin : forall m key v, (key, v) ∈ order m <-> m !! key = Some v) by (intros; by rewrite Horder, elem_of_map_to_list).
  unfold value_alerts. rewrite elem_of_app, !list_elem_of_omap. split.
  - intros [([key v] & Hv%Hin & E) | ([key v] & Hv%Hin & E)]; exists key; cbn [fst snd] in E.
    + apply changed_value_some in E as [[Hb ->] | (old & Hb & Hd & ->)]; [left; by split_and!|right; left; by exists old, v].
    + unfold deleted_value in E. destruct (c !! key) eqn:Ec; [done|]. injection E as <-. right; right. by split_and!.
  - intros (key & [(Hb & [v Hc] & ->) | [(old & new & Hb & Hc & Hd & ->) | ([v Hb] & Hc & ->)]]).
    + left. exists (key, v). split; [by apply Hin|]. apply changed_value_some. by left.
    + left. exists (key, new). split; [by apply Hin|]. apply changed_value_some. right. by exists old.
    + right. exists (key, v). split; [by apply Hin|]. cbn [fst]. unfold deleted_value. by rewrite Hc.
Qed.

Lemma value_alerts_none b c : value_alerts order b c = [] <-> forall key, data_of b key = data_of c key.
Proof using Horder.
  unfold data_of. split.
  - intros E key. pose proof (value_alerts_in b c) as H. rewrite E in H. destruct (b !! key) as [old|] eqn:Eb, (c !! key) as [new|] eqn:Ec; cbn; [|exfalso|exfalso|done].
    + destruct (decide (rv_data_hex old = rv_data_hex new)) as [Hd|Hd]; [by rewrite Hd|]. exfalso.
      apply (not_elem_of_nil ("Modified autorun entry: " +:+ key)), H. exists key. right; left. by exists old, new.
    + apply (not_elem_of_nil ("Deleted autorun entry: " +:+ key)), H. exists key. right; right. split_and!; [by rewrite Eb|done|done].
    + apply (not_elem_of_nil ("New autorun entry: " +:+ key)), H. exists key. left. split_and!; [done|by rewrite Ec|done].
  - intros E. destruct (value_alerts order b c) as [|t ts] eqn:Ea; [done|]. exfalso. assert (Ht : t ∈ value_alerts order b c) by (rewrite Ea; left).
    apply value_alerts_in in Ht as (key & H). specialize (E key). destruct H as [(Hb & [v Hc] & _) | [(old & new & Hb & Hc & Hd & _) | ([v Hb] & Hc & _)]];
      rewrite Hb, Hc in E; cbn in E; congruence.
Qed.
End value_checks.

(** ** Properties *)

(** a check alerts for a watched file exactly when it is gone, or when its time differs from
    the baseline's and a hash can be taken that differs too; each file at most once; every
    alert counts one threat and gives one threat and one observation, both CRITICAL, in the
    order of the walk.  A second check that finds the files unchanged alerts again for the
    files that are gone and for no other. *)
Theorem file_check_alerts (order : gmap string FileIntegrityEntry -> list (string * FileIntegrityEntry)) (st : FileIntegrityEngine) (d : files) (now : Z) :
  (forall b, order b ≡ₚ map_to_list b) ->
  let b := fim_baseline st in
  let alerts := file_alerts order d b in
  let '(st', changes, outs) := check_integrity order st d now in
  changes = Z.of_nat (length alerts) /\ outs = mjoin (file_outputs st now <$> alerts) /\ NoDup (fa_path <$> alerts) /\
  (forall a, a ∈ alerts <-> exists p e, b !! p = Some e /\ (file_deleted d p e a \/ file_modified d p e a)) /\
  fim_baseline st' = checked_baseline d b /\
  (forall a, a ∈ file_alerts order d (fim_baseline st') <-> exists p e, b !! p = Some e /\ file_deleted d p e a).
Proof.
  intros Horder b alerts. unfold check_integrity. fold b alerts.
  pose proof (emit_alerts now alerts (with_baseline st (checked_baseline d b)) []) as H. destruct (foldl _ _ _) as [st' outs].
  destruct H as (-> & Hb & _). split_and!; [done|done|by apply file_alerts_distinct| |exact Hb|].
  - intros a. unfold alerts. rewrite (file_alerts_in order Horder). by setoid_rewrite check_file_alert.
  - intros a. rewrite Hb. cbn [with_baseline fim_baseline]. rewrite (file_alerts_in order Horder). split.
    + intros (p & e & Hp & E). rewrite checked_lookup in Hp. apply fmap_Some in Hp as (e0 & Hp & ->). apply recheck_file in E as [Hd E].
      exists p, e0. split; [done|]. apply check_file_alert in E as [E | (f & t & Hd' & _)]; [done|congruence].
    + intros (p & e & Hp & E). exists p, (fst (check_file d p e)). rewrite checked_lookup, Hp. split; [done|]. apply recheck_file.
      split; [apply E|apply check_file_alert; by left].
Qed.

(** A file that is gone alerts at every check. *)
Definition hosts_entry : FileIntegrityEntry := Entry "hosts" "abcd" 9 (Some 1).

Lemma file_check_alerts_witness :
  ChangedFile "Critical file deleted: hosts" "hosts" "abcd" ∈
    file_alerts map_to_list (fun _ => None) (checked_baseline (fun _ => None) {["hosts"%string := hosts_entry]}).
Proof.
  pose proof (file_check_alerts map_to_list (Fim [] {["hosts"%string := hosts_entry]} 0 0 true true) (fun _ => None) 5 (fun b => Permutation_refl _)) as H.
  cbv zeta in H. destruct (check_integrity _ _ _ _) as [[st' changes] outs]. destruct H as (_ & _ & _ & _ & Hb & H). rewrite Hb in H.
  apply H. exists "hosts"%string, hosts_entry. split; [by apply lookup_singleton_eq|]. by split.
Defined.

(** A change that a check meets while the file cannot be read is never reported: the check
    takes over the new time without the new hash. *)
Lemma unreadable_change_missed d1 d2 p e f1 f2 t :
  d1 (fe_path e) = Some f1 -> ff_content f1 = None -> ff_mtime f1 = Some t -> d2 (fe_path e) = Some f2 -> ff_mtime f2 = Some t ->
  snd (check_file d1 p e) = None /\ snd (check_file d2 p (fst (check_file d1 p e))) = None.
Proof.
  intros H1 Hc Ht1 H2 Ht2. assert (Hn : snd (check_file d1 p e) = None).
  { unfold check_file. rewrite H1, Ht1, Hc. case_bool_decide; [done|].
    rewrite (proj2 (hash_file_is_hash_bytes [])). done. }
  split; [exact Hn|]. destruct (snd (check_file d2 p _)) as [a|] eqn:E; [|done]. exfalso.
  apply check_file_alert in E as [[Hd _] | (f & t' & Hd & Ht & Hm & _)]; rewrite check_file_path in Hd; [congruence|].
  rewrite H2 in Hd. injection Hd as <-. rewrite Ht2 in Ht. injection Ht as <-. destruct Hm. by apply check_file_settles with f1.
Qed.

(** a turn of the registry monitor alerts exactly for the values that are new, gone, or
    have other data, and takes the values it saw as its baseline; it alerts for nothing
    exactly when every value has the data it had, so a second turn that sees the same values
    is quiet and slows the pace down, whatever the first one found. *)
Theorem registry_turn_alerts (order : gmap string RegistryValueSnapshot -> list (string * RegistryValueSnapshot)) (st : RegistryMonitorEngine)
    (pace : Z * Z) (values : list RegistryValueSnapshot) (now now' : Z) :
  (forall b, order b ≡ₚ map_to_list b) ->
  let b := rm_baseline st in
  let c := values_map values in
  let '(st', pace', outs) := registry_turn order st pace values now in
  outs = mjoin (value_outputs st now <$> value_alerts order b c) /\ rm_baseline st' = c /\
  (forall t, t ∈ value_alerts order b c <->
     exists key,
       (b !! key = None /\ is_Some (c !! key) /\ t = "New autorun entry: " +:+ key) \/
       (exists old new, b !! key = Some old /\ c !! key = Some new /\ rv_data_hex old <> rv_data_hex new /\ t = "Modified autorun entry: " +:+ key) \/
       (is_Some (b !! key) /\ c !! key = None /\ t = "Deleted autorun entry: " +:+ key)) /\
  (value_alerts order b c = [] <-> forall key, data_of b key = data_of c key) /\
  (let '(st'', pace'', outs'') := registry_turn order st' pace' values now' in
   outs'' = [] /\ rm_baseline st'' = c /\ pace'' = poll_step 3000 pace' 0).
Proof.
  intros Horder b c. unfold registry_turn at 1. fold b c.
  set (st1 := RegMon c (u64 (rm_events st + 1)) (rm_threats st) (rm_threat_cb st) (rm_observation_cb st)).
  pose proof (emit_values now (value_alerts order b c) st1 []) as H. destruct (foldl _ _ _) as [st' outs]. destruct H as (-> & Hb & _).
  cbn [st1 rm_baseline] in Hb. split_and!; [done|done|by apply value_alerts_in|by apply value_alerts_none|].
  unfold registry_turn. rewrite Hb. fold c. assert (Hn : value_alerts order c c = []) by by apply value_alerts_none. by rewrite Hn.
Qed.

Definition run_key (data : string) : RegistryValueSnapshot := Value "HKCU\Run" "updater" 1 data.

(** A new value; the type of a value is not looked at, and two values whose key and name join
    to the same text count as one. *)
Lemma registry_turn_alerts_witness :
  value_alerts map_to_list (values_map [run_key "00"]) (values_map [run_key "01"]) <> [] /\
  value_alerts map_to_list (values_map [Value "a" "b" 1 "00"]) (values_map [Value "a" "b" 2 "00"]) = [] /\
  values_map [Value "a\b" "c" 1 "00"; Value "a" "b\c" 1 "11"] = values_map [Value "a" "b\c" 1 "11"].
Proof.
  pose proof (registry_turn_alerts map_to_list (RegMon (values_map [run_key "00"]) 0 0 true true) (3000, 0) [run_key "01"] 5 6 (fun b => Permutation_refl _)) as H.
  cbv zeta in H. destruct (registry_turn _ _ _ _ _) as [[st' pace'] outs]. destruct H as (_ & _ & _ & H & _). split_and!.
  - intros E. pose proof (proj1 H E "HKCU\Run\updater"%string) as E'. vm_compute in E'. discriminate E'.
  - vm_compute. reflexivity.
  - vm_compute. reflexivity.
Defined.

(** the wait between two checks stays between its start and 30 seconds; a change brings it
    back to its start, and after [k] turns without one it is its start doubled once for every
    turn from the fifth on, up to the limit. *)
Theorem pace_spec (base : Z) :
  0 < base <= 30000 ->
  (forall k, fst (Nat.iter k (fun st => poll_step base st 0) (poll_start base)) = Z.min (base * 2 ^ (Z.max 0 (Z.of_nat k - 4))) 30000) /\
  (forall st changes, base <= fst st <= 30000 -> base <= fst (poll_step base st changes) <= 30000) /\
  (forall st changes, 0 < changes -> poll_step base st changes = poll_start base).
Proof.
  intros Hb. split_and!.
  - intros k. by rewrite pace_quiet.
  - intros st changes. by apply pace_bounds.
  - intros [p q] changes Hc. unfold poll_step. by rewrite (proj2 (Z.ltb_lt 0 changes)).
Qed.

Lemma pace_spec_witness :
  (fun k => fst (Nat.iter k (fun st => poll_step 2000 st 0) (poll_start 2000))) <$> [4; 5; 6; 7; 8; 9]%nat = [2000; 4000; 8000; 16000; 30000; 30000].
Proof. cbn [fmap list_fmap]. rewrite !(proj1 (pace_spec 2000 ltac:(lia))). reflexivity. Defined.
