(* ===== verification/Guards.v ===== *)
(** * Guards: AMSI, drivers, named pipes, WMI and BITS

    Models src/src/engines/amsi_guard_engine.cpp, driver_guard_engine.cpp,
    named_pipe_engine.cpp and wmi_bits_engine.cpp: four small engines that compare names and
    texts with lists and remember what they have reported.  The bytes of the guarded
    function, the pipes that exist and the outcome of a change of protection are arguments;
    a turn is one pass of a monitor thread behind its wait, and the callbacks are set. *)
From S2P Require Import Prelude Observation Text Threat.

(** What every one of these engines counts, and the event it makes of a finding. *)
Record guard_counts := Counts { gc_events : Z; gc_threats : Z }.

Definition count_guard_event (c : guard_counts) : guard_counts := Counts (u64 (gc_events c + 1)) (gc_threats c).

Definition emit_guard (c : guard_counts) (ev : ThreatEvent) : guard_counts * list ThreatEvent :=
  (Counts (gc_events c) (u64 (gc_threats c + 1)), [ev]).

Definition guard_threat (level : ThreatLevel) (cat : ThreatCategory) (desc : string) (pid now : Z) : ThreatEvent :=
  Event 0 now level cat pid EmptyString EmptyString desc EmptyString 0 false false.

(** ** AMSI *)

(** The tests in order; each [&&] stops at the first byte that differs. *)
Fixpoint bytes_from (code : ptr) (i : Z) (pattern : list Z) : mem bool :=
  match pattern with
  | [] => Val true
  | v :: pattern => (let* b := rd code i in if bval b =? v then bytes_from code (i + 1) pattern else Val false)%mem
  end.

Definition bytes_are (code : ptr) (len : Z) (pattern : list Z) : mem bool :=
  if len <? Z.of_nat (length pattern) then Val false else bytes_from code 0 pattern.

Fixpoint any_pattern (code : ptr) (len : Z) (patterns : list (list Z)) : mem bool :=
  match patterns with
  | [] => Val false
  | p :: patterns => (let* found := bytes_are code len p in if found : bool then Val true else any_pattern code len patterns)%mem
  end.

Definition patch_patterns : list (list Z) :=
  [[0xC3]; [0xC2]; [0xB8; 0x57; 0x00; 0x07; 0x80; 0xC3]; [0x31; 0xC0; 0xC3]; [0x29; 0xC0; 0xC3]; [0x48; 0x31; 0xC0; 0xC3]].

Definition is_patch_bypass (code : ptr) (len : Z) : mem bool :=
  if null code || (len =? 0) then Val false else any_pattern code len patch_patterns.

(** The engine where AMSI is loaded: the prologue it copied, the bytes of the function now,
    and the flag the loop keeps. *)
Record AmsiGuard := Amsi {
  am_original : list byte;
  am_memory : list byte;
  am_was_bypassed : bool;
  am_counts : guard_counts;
}.

(** Sixteen bytes are copied at the start; [None] is a read outside of the function's bytes. *)
Definition check_amsi_integrity (st : AmsiGuard) : option bool * AmsiGuard :=
  let st := Amsi (am_original st) (am_memory st) (am_was_bypassed st) (count_guard_event (am_counts st)) in
  let size := Z.of_nat (length (am_original st)) in
  (if bool_decide (am_original st = []) then Some true
   else match is_patch_bypass (Some (am_memory st)) size, slice (Some (am_memory st)) 0 size with
        | Val bypass, Val now => Some (if bypass then false else bool_decide (now = am_original st))
        | _, _ => None
        end, st).

(** [protect] is whether the protection of the page could be changed. *)
Definition restore_amsi_prologue (st : AmsiGuard) (protect : bool) : bool * AmsiGuard :=
  if bool_decide (am_original st = []) || negb protect then (false, st)
  else (true, Amsi (am_original st) (am_original st ++ drop (length (am_original st)) (am_memory st)) (am_was_bypassed st) (am_counts st)).

Definition amsi_text : string := "AMSI AmsiScanBuffer memory patch bypass detected; repairing prologue".

(** A turn of the loop. *)
Definition amsi_turn (st : AmsiGuard) (protect : bool) (now : Z) : AmsiGuard * list ThreatEvent :=
  let '(intact, st) := check_amsi_integrity st in
  let flag b st := Amsi (am_original st) (am_memory st) b (am_counts st) in
  if bool_decide (intact = Some false) then
    if am_was_bypassed st then (st, [])
    else
      let st := flag true st in
      let '(counts, outs) := emit_guard (am_counts st) (guard_threat HIGH EVASION_AMSI amsi_text 0 now) in
      let st := Amsi (am_original st) (am_memory st) (am_was_bypassed st) counts in
      (snd (restore_amsi_prologue st protect), outs)
  else (flag false st, []).

(** *** Scripts *)

Inductive ScriptRiskLevel := BENIGN_SCRIPT | SUSPICIOUS_SCRIPT | MALICIOUS_SCRIPT.

Record ScriptScanResult := ScriptScan {
  ss_risk : ScriptRiskLevel;
  ss_score : Z;
  ss_indicators : list string;
}.

Definition k_rules : list (string * Z * string) :=
  [("invoke-expression", 25, "IEX_EXECUTION"); ("iex ", 25, "IEX_SHORT"); ("downloadstring", 25, "WEB_DOWNLOAD_STRING");
   ("downloadfile", 20, "WEB_DOWNLOAD_FILE"); ("frombase64string", 20, "BASE64_DECODE"); ("amsiutils", 35, "AMSI_UTILS_TARGETING");
   ("amsiinitfailed", 35, "AMSI_BYPASS_INIT"); ("system.reflection.assembly", 20, "REFLECTION_INJECTION");
   ("virtualalloc", 30, "MEM_ALLOC_INJECTION"); ("createthread", 30, "THREAD_INJECTION"); ("windowstyle hidden", 15, "STEALTH_WINDOW");
   ("bypass", 10, "EXECUTION_POLICY_BYPASS"); ("net.webclient", 15, "WEBCLIENT_USAGE"); ("mimikatz", 50, "MIMIKATZ_KEYWORD");
   ("-enc ", 20, "ENCODED_COMMAND"); ("-encodedcommand", 20, "ENCODED_COMMAND")]%string%Z.

(** The loop over the rules. *)
Fixpoint rule_loop (rules : list (string * Z * string)) (lower : string) (score : Z) (names : list string) : Z * list string :=
  match rules with
  | [] => (score, names)
  | (pattern, weight, name) :: rules =>
      if find_sub pattern lower then rule_loop rules lower (score + weight) (names ++ [name]) else rule_loop rules lower score names
  end.

Definition scan_script_buffer (c : guard_counts) (script : string) (now : Z) : ScriptScanResult * guard_counts * list ThreatEvent :=
  let c := count_guard_event c in
  if empty_string script then (ScriptScan BENIGN_SCRIPT 0 [], c, [])
  else
    let '(score, names) := rule_loop k_rules (string_map tolower script) 0 [] in
    if 40 <=? score then
      let '(c, outs) := emit_guard c (guard_threat HIGH FILELESS_EXEC ("Malicious script buffer detected (score=" +:+ print_int score +:+ ")") 0 now) in
      (ScriptScan MALICIOUS_SCRIPT score names, c, outs)
    else (ScriptScan (if 15 <=? score then SUSPICIOUS_SCRIPT else BENIGN_SCRIPT) score names, c, []).

(** ** Drivers *)

Inductive DriverRiskLevel := BENIGN | SUSPICIOUS | VULNERABLE_KNOWN | MALICIOUS_UNSIGNED.

Record DriverInfo := Driver {
  dv_driver_name : string;
  dv_file_path : string;
  dv_is_signed : bool;
  dv_is_vulnerable_byovd : bool;
  dv_risk : DriverRiskLevel;
  dv_threat_detail : string;
}.

Definition KNOWN_BYOVD_DRIVERS : list string :=
  ["gdrv.sys"; "kprocesshacker.sys"; "dbutil_2_3.sys"; "mhyprot2.sys"; "rtcore64.sys"; "procexp.sys"; "iqvw64e.sys"; "aswardisk.sys";
   "zam64.sys"; "cpuz141.sys"; "echo_driver.sys"; "speedfan.sys"]%string.

Definition SUSPICIOUS_PATH_KEYWORDS : list string :=
  ["\temp\"; "/temp/"; "\appdata\"; "/appdata/"; "\users\"; "/users/"; "\programdata\"; "/programdata/"; "\downloads\"; "/downloads/"]%string.

Definition mentions_any (words : list string) (text : string) : bool := existsb (fun w => find_sub w (string_map tolower text)) words.

Definition is_known_vulnerable_driver (driver_name : string) : bool := mentions_any KNOWN_BYOVD_DRIVERS driver_name.
Definition is_suspicious_driver_path (path : string) : bool := mentions_any SUSPICIOUS_PATH_KEYWORDS path.

Definition driver_threat (drv : DriverInfo) (now : Z) : ThreatEvent :=
  Event 0 now (match dv_risk drv with VULNERABLE_KNOWN => CRITICAL | MALICIOUS_UNSIGNED => HIGH | _ => MEDIUM end) KERNEL_ATTACK 0
    (dv_driver_name drv) (dv_file_path drv) (dv_threat_detail drv) EmptyString 0 false false.

Definition quoted_name (name path : string) : string := "'" +:+ name +:+ "' (" +:+ path +:+ ")".

Definition evaluate_driver_load (c : guard_counts) (driver_name path : string) (is_signed : bool) (now : Z) : DriverInfo * guard_counts * list ThreatEvent :=
  let c := count_guard_event c in
  let report info := let '(c, outs) := emit_guard c (driver_threat info now) in (info, c, outs) in
  if is_known_vulnerable_driver driver_name || is_known_vulnerable_driver path then
    report (Driver driver_name path is_signed true VULNERABLE_KNOWN
      ("BYOVD attack detected: attempt to load known vulnerable signed kernel driver " +:+ quoted_name driver_name path))
  else if negb is_signed then
    report (Driver driver_name path is_signed false MALICIOUS_UNSIGNED
      ("Unsigned kernel driver load attempt detected: " +:+ quoted_name driver_name path))
  else if is_suspicious_driver_path path then
    report (Driver driver_name path is_signed false SUSPICIOUS
      ("Kernel driver loading from user-writable non-system path: '" +:+ path +:+ "'"))
  else (Driver driver_name path is_signed false BENIGN EmptyString, c, []).

(** ** Named pipes *)

Definition k_signatures : list (string * string * string) :=
  [("msagent_", "Cobalt Strike", "Default Beacon SMB named pipe"); ("status_", "Cobalt Strike", "Secondary Beacon communication pipe");
   ("mypipe-f", "Cobalt Strike", "Post-exploitation lateral movement pipe"); ("mypipe-i", "Cobalt Strike", "Interactive Beacon command pipe");
   ("postex_", "Cobalt Strike", "Post-exploitation reflective DLL pipe"); ("pbind_", "Cobalt Strike", "Peer-to-peer SMB pipe binding");
   ("spoolss_", "Cobalt Strike", "Spoofed Print Spooler named pipe"); ("meterpreter_", "Metasploit", "Meterpreter reverse/bind SMB pipe");
   ("metsrv_", "Metasploit", "Meterpreter server internal pipe"); ("extapi_", "Metasploit", "Meterpreter extended API communication pipe");
   ("sliver_", "Sliver C2", "BishopFox Sliver SMB beacon pipe"); ("slv_", "Sliver C2", "Sliver implant short-named pipe");
   ("psexec_", "PsExec", "Sysinternals/Impacket PsExec lateral execution pipe"); ("psexecsvc", "PsExec", "PsExec remote service pipe");
   ("paexec_", "PAExec", "PowerAdmin execution pipe"); ("csexec_", "CSExec", "C# PsExec equivalent execution pipe")]%string.

Definition pipe_prefix : string := "\\.\pipe\".

(** The framework and the reason, [None] for false. *)
Definition is_c2_pipe (pipe_name : string) : option (string * string) :=
  if empty_string pipe_name then None
  else
    let pipe_name := if String.prefix pipe_prefix pipe_name then str_drop 9 pipe_name else pipe_name in
    let lower := string_map tolower pipe_name in
    (fun sig => (snd (fst sig), snd sig)) <$> find (fun sig => String.prefix (fst (fst sig)) lower) k_signatures.

Definition pipe_threat (name framework reason : string) (now : Z) : ThreatEvent :=
  guard_threat CRITICAL C2_BEACON ("C2 Named Pipe Detected: \\.\pipe\" +:+ name +:+ " [" +:+ framework +:+ "] - " +:+ reason) 0 now.

(** The body of the loop over the pipes, with the names known so far. *)
Definition pipe_entry (now : Z) (x : list string * guard_counts * list ThreatEvent) (name : string) : list string * guard_counts * list ThreatEvent :=
  let '(known, c, outs) := x in
  if bool_decide (name ∈ known) then x
  else
    let known := known ++ [name] in
    match is_c2_pipe name with
    | Some (framework, reason) => let '(c, new) := emit_guard c (pipe_threat name framework reason now) in (known, c, outs ++ new)
    | None => (known, c, outs)
    end.

(** A turn over the pipes that exist. *)
Definition pipe_turn (x : list string * guard_counts * list ThreatEvent) (t : list string * Z) : list string * guard_counts * list ThreatEvent :=
  let '(known, c, outs) := x in
  foldl (pipe_entry (snd t)) (known, count_guard_event c, outs) (fst t).

(** ** WMI and BITS *)

Record WmiSubscription := Wmi {
  wm_filter_name : string;
  wm_consumer_name : string;
  wm_consumer_type : string;
  wm_command_or_script : string;
}.

Record BitsJobInfo := Bits {
  bj_job_id : string;
  bj_display_name : string;
  bj_remote_url : string;
  bj_local_file_path : string;
}.

Definition k_suspicious_patterns : list string :=
  ["powershell"; "cmd.exe"; "cscript"; "wscript"; "mshta"; "rundll32"; "certutil"; "bitsadmin"; "-enc "; "-encodedcommand";
   "downloadstring"; "invoke-expression"; "iex "; "hidden"; "frombase64string"]%string.

(** The reason, [None] for false. *)
Definition evaluate_wmi_subscription (sub : WmiSubscription) : option string :=
  if find_sub "activescripteventconsumer" (string_map tolower (wm_consumer_type sub)) then
    Some "ActiveScriptEventConsumer used (Script-based WMI persistence)"%string
  else
    (fun pat => "CommandLineEventConsumer contains suspicious execution pattern: " +:+ pat) <$>
      find (fun pat => find_sub pat (string_map tolower (wm_command_or_script sub))) k_suspicious_patterns.

Definition k_exec_extensions : list string := [".exe"; ".dll"; ".ps1"; ".bat"; ".cmd"; ".vbs"; ".js"; ".hta"; ".sys"; ".scr"]%string.

Definition ends_with (str suffix : string) : bool :=
  if (String.length str <? String.length suffix)%nat then false
  else String.eqb (str_drop (String.length str - String.length suffix) str) suffix.

Definition evaluate_bits_job (job : BitsJobInfo) : option string :=
  let lower_path := string_map tolower (bj_local_file_path job) in
  let lower_url := string_map tolower (bj_remote_url job) in
  match find (ends_with lower_path) k_exec_extensions with
  | Some ext => Some ("BITS job targets executable file download: " +:+ ext)
  | None =>
      if find_sub "\temp\" lower_path || find_sub "\appdata\local\temp\" lower_path then Some "BITS job targets temp directory destination"%string
      else if find_sub ":8080" lower_url || find_sub ":4444" lower_url || find_sub ":1337" lower_url
      then Some "BITS job downloads from suspicious C2 port"%string
      else None
  end.

(** The two scans open nothing they read from: their lists are always empty. *)
Definition scan_wmi_subscriptions (c : guard_counts) : guard_counts * list WmiSubscription := (count_guard_event c, []).
Definition scan_bits_jobs (c : guard_counts) : guard_counts * list BitsJobInfo := (count_guard_event c, []).

Record WmiBitsEngine := WmiBits { wb_subscriptions : list string; wb_jobs : list string; wb_counts : guard_counts }.

Definition wmi_entry (now : Z) (x : WmiBitsEngine * list ThreatEvent) (sub : WmiSubscription) : WmiBitsEngine * list ThreatEvent :=
  let '(st, outs) := x in
  let key := wm_filter_name sub +:+ ":" +:+ wm_consumer_name sub in
  if bool_decide (key ∈ wb_subscriptions st) then x
  else
    let known := wb_subscriptions st ++ [key] in
    match evaluate_wmi_subscription sub with
    | Some reason =>
        let '(c, new) := emit_guard (wb_counts st) (guard_threat HIGH REGISTRY_TAMPER
          ("WMI Persistence Threat: " +:+ wm_filter_name sub +:+ " -> " +:+ wm_consumer_name sub +:+ " (" +:+ reason +:+ ")") 0 now) in
        (WmiBits known (wb_jobs st) c, outs ++ new)
    | None => (WmiBits known (wb_jobs st) (wb_counts st), outs)
    end.

Definition bits_entry (now : Z) (x : WmiBitsEngine * list ThreatEvent) (job : BitsJobInfo) : WmiBitsEngine * list ThreatEvent :=
  let '(st, outs) := x in
  if bool_decide (bj_job_id job ∈ wb_jobs st) then x
  else
    let known := wb_jobs st ++ [bj_job_id job] in
    match evaluate_bits_job job with
    | Some reason =>
        let '(c, new) := emit_guard (wb_counts st) (guard_threat HIGH SUSPICIOUS_BINARY
          ("BITS Stealth Download Threat: " +:+ bj_display_name job +:+ " -> " +:+ bj_local_file_path job +:+ " (" +:+ reason +:+ ")") 0 now) in
        (WmiBits (wb_subscriptions st) known c, outs ++ new)
    | None => (WmiBits (wb_subscriptions st) known (wb_counts st), outs)
    end.

Definition wmi_bits_turn (st : WmiBitsEngine) (now : Z) : WmiBitsEngine * list ThreatEvent :=
  let '(c, subs) := scan_wmi_subscriptions (wb_counts st) in
  let '(st, outs) := foldl (wmi_entry now) (WmiBits (wb_subscriptions st) (wb_jobs st) c, []) subs in
  let '(c, jobs) := scan_bits_jobs (wb_counts st) in
  foldl (bits_entry now) (WmiBits (wb_subscriptions st) (wb_jobs st) c, outs) jobs.

(** ** Lemmas *)

Lemma tolower_toupper s : string_map tolower (string_map toupper s) = string_map tolower s.
Proof. rewrite string_map_map. apply string_map_ext. intros c. destruct c as [[] [] [] [] [] [] [] []]; reflexivity. Qed.

(** *** Code bytes *)

Definition pattern_bytes (p : list Z) : list byte := byte_of <$> p.

Definition patched (code : list byte) : bool := existsb (fun p => bool_decide (pattern_bytes p `prefix_of` code)) patch_patterns.

Lemma bytes_from_spec p : forall (pre rest : list byte), Forall (fun v => 0 <= v < 256) p -> (length p <= length rest)%nat ->
  bytes_from (Some (pre ++ rest)) (Z.of_nat (length pre)) p = Val (bool_decide (pattern_bytes p `prefix_of` rest)).
Proof.
  induction p as [|v p IH]; intros pre rest Hp Hl; cbn [bytes_from].
  - rewrite bool_decide_eq_true_2; [done|apply prefix_nil].
  - apply Forall_cons in Hp as [Hv Hp]. destruct rest as [|b rest]; [cbn in Hl; lia|]. rewrite rd_app. cbn [mem_bind].
    unfold pattern_bytes. cbn [fmap list_fmap]. destruct (Z.eqb_spec (bval b) v) as [E|E].
    + replace (pre ++ b :: rest) with ((pre ++ [b]) ++ rest) by by rewrite <- app_assoc.
      replace (Z.of_nat (length pre) + 1) with (Z.of_nat (length (pre ++ [b]))) by (rewrite length_app; cbn; lia).
      rewrite IH by (done || (cbn in Hl; lia)). f_equal. apply bool_decide_ext. rewrite <- E, byte_of_bval.
      split; [intros H; by apply prefix_cons|by intros H%prefix_cons_inv_2].
    + f_equal. symmetry. apply bool_decide_eq_false. intros H%prefix_cons_inv_1. apply E. by rewrite <- H, bval_byte_of_small.
Qed.

Lemma bytes_are_spec p (d : list byte) n : Forall (fun v => 0 <= v < 256) p -> (n <= length d)%nat ->
  bytes_are (Some d) (Z.of_nat n) p = Val (bool_decide (pattern_bytes p `prefix_of` take n d)).
Proof.
  intros Hp Hn. unfold bytes_are. destruct (Z.ltb_spec (Z.of_nat n) (Z.of_nat (length p))) as [H|H].
  - f_equal. symmetry. apply bool_decide_eq_false. intros Hl%prefix_length. unfold pattern_bytes in Hl. rewrite length_fmap, length_take in Hl. lia.
  - rewrite <- (take_drop n d) at 1. pose proof (bytes_from_spec p [] (take n d ++ drop n d) Hp) as E. cbn [app length] in E.
    change (Z.of_nat 0) with 0 in E. rewrite E by (rewrite take_drop; lia). f_equal. apply bool_decide_ext. split; [|by apply prefix_app_r].
    intros Hpre. rewrite take_drop in Hpre. destruct Hpre as [r Er]. exists (drop (length p) (take n d)).
    rewrite <- (take_drop (length p) (take n d)) at 1. f_equal. rewrite take_take, Er, take_app.
    unfold pattern_bytes. rewrite length_fmap. rewrite (take_ge (byte_of <$> p)) by (rewrite length_fmap; lia).
    replace (Nat.min (length p) n - length p)%nat with 0%nat by lia. by rewrite take_0, app_nil_r.
Qed.

Lemma is_patch_bypass_spec (d : list byte) n : (n <= length d)%nat -> is_patch_bypass (Some d) (Z.of_nat n) = Val (patched (take n d)).
Proof.
  intros Hn. unfold is_patch_bypass. cbn [null orb]. destruct (Z.eqb_spec (Z.of_nat n) 0) as [E|E]; [by replace n with 0%nat by lia|].
  unfold patched. assert (Hp : Forall (Forall (fun v => 0 <= v < 256)) patch_patterns) by (unfold patch_patterns; repeat (apply Forall_cons; split; [repeat (apply Forall_cons; split; [lia|]); by apply Forall_nil|]); by apply Forall_nil).
  induction Hp as [|p ps Hp _ IH]; [done|]. cbn [any_pattern existsb]. rewrite bytes_are_spec by done. cbn [mem_bind]. by case_bool_decide.
Qed.

(** An engine whose copy of the prologue lies within the function and is no patch itself. *)
Record amsi_ok (st : AmsiGuard) : Prop := {
  ak_some : am_original st <> [];
  ak_within : (length (am_original st) <= length (am_memory st))%nat;
  ak_clean : patched (am_original st) = false;
}.

Definition prologue (st : AmsiGuard) : list byte := take (length (am_original st)) (am_memory st).

Lemma check_amsi_spec st : amsi_ok st ->
  check_amsi_integrity st =
  (Some (bool_decide (prologue st = am_original st)), Amsi (am_original st) (am_memory st) (am_was_bypassed st) (count_guard_event (am_counts st))).
Proof.
  intros [Hs Hw Hc]. unfold check_amsi_integrity. cbn [am_original am_memory]. rewrite bool_decide_eq_false_2 by done.
  rewrite is_patch_bypass_spec by done.
  destruct (safe_inv _ _ (slice_safe (am_memory st) 0 (Z.of_nat (length (am_original st))) ltac:(lia) ltac:(lia) ltac:(lia))) as (l & -> & El & _).
  assert (El' : l = prologue st) by (rewrite El; unfold prologue; by rewrite drop_0, Nat2Z.id).
  rewrite El'. fold (prologue st). destruct (patched (prologue st)) eqn:Ep; [|done].
  rewrite bool_decide_eq_false_2; [done|]. intros E. congruence.
Qed.

(** *** Scripts *)

Definition rule_weight (lower : string) (r : string * Z * string) : Z := if find_sub (fst (fst r)) lower then snd (fst r) else 0.

Definition script_score (script : string) : Z := foldr (fun r acc => rule_weight (string_map tolower script) r + acc) 0 k_rules.

Lemma rule_loop_score rules lower : forall score names,
  fst (rule_loop rules lower score names) = score + foldr (fun r acc => rule_weight lower r + acc) 0 rules.
Proof.
  induction rules as [|[[p w] n] rules IH]; intros score names; cbn [rule_loop foldr]; [cbn; lia|]. unfold rule_weight at 1. cbn [fst snd].
  destruct (find_sub p lower); rewrite IH; lia.
Qed.

Lemma empty_script_score : script_score EmptyString = 0.
Proof. vm_compute. reflexivity. Qed.

Lemma weights_monotone rules lower lower' : Forall (fun r : string * Z * string => 0 <= snd (fst r)) rules ->
  (forall r, In r rules -> find_sub (fst (fst r)) lower = true -> find_sub (fst (fst r)) lower' = true) ->
  foldr (fun r acc => rule_weight lower r + acc) 0 rules <= foldr (fun r acc => rule_weight lower' r + acc) 0 rules.
Proof.
  induction 1 as [|r rules Hr _ IH]; intros H; [done|]. cbn [foldr]. specialize (IH ltac:(intros r' Hin; apply H; by right)).
  assert (Hw : rule_weight lower r <= rule_weight lower' r).
  { unfold rule_weight. destruct (find_sub _ lower) eqn:E; [by rewrite (H r (or_introl eq_refl) E)|]. by destruct (find_sub _ lower'). }
  lia.
Qed.

(** *** Pipes *)

Definition pipe_text (name : string) : option string :=
  (fun x => ev_description (pipe_threat name (fst x) (snd x) 0)) <$> is_c2_pipe name.

Lemma pipe_entries now names : forall known c outs, NoDup known -> ev_description <$> outs = omap pipe_text known ->
  let '(known', c', outs') := foldl (pipe_entry now) (known, c, outs) names in
  NoDup known' /\ ev_description <$> outs' = omap pipe_text known' /\ (forall n, n ∈ known' <-> n ∈ known \/ n ∈ names) /\ (exists new, known' = known ++ new).
Proof.
  induction names as [|name names IH]; intros known c outs Hnd He; cbn [foldl].
  { split_and!; [done|done| |exists []; by rewrite app_nil_r]. intros n. rewrite elem_of_nil. tauto. }
  unfold pipe_entry at 2. case_bool_decide as Hk.
  - specialize (IH known c outs Hnd He). destruct (foldl _ _ _) as [[known' c'] outs']. destruct IH as (H1 & H2 & H3 & H4). split_and!; [done|done| |done].
    intros n. rewrite H3, elem_of_cons. split; [tauto|]. intros [H | [-> | H]]; tauto.
  - assert (Hnd' : NoDup (known ++ [name])).
    { apply NoDup_app. split_and!; [done| |apply NoDup_singleton]. intros x Hx ->%list_elem_of_singleton. done. }
    assert (Hgo : forall c1 outs1, ev_description <$> outs1 = omap pipe_text (known ++ [name]) ->
      let '(known', c', outs') := foldl (pipe_entry now) (known ++ [name], c1, outs1) names in
      NoDup known' /\ ev_description <$> outs' = omap pipe_text known' /\ (forall n, n ∈ known' <-> n ∈ known \/ n ∈ name :: names) /\ (exists new, known' = known ++ new)).
    { intros c1 outs1 H1. specialize (IH (known ++ [name]) c1 outs1 Hnd' H1). destruct (foldl _ _ _) as [[known' c'] outs'].
      destruct IH as (H2 & H3 & H4 & new & ->). split_and!; [done|done| |exists (name :: new); by rewrite <- app_assoc].
      intros n. rewrite H4, elem_of_app, list_elem_of_singleton, elem_of_cons. tauto. }
    unfold pipe_text at 1 in Hgo. destruct (is_c2_pipe name) as [[framework reason]|] eqn:Ec.
    + apply Hgo. rewrite fmap_app, omap_app, He. f_equal. cbn. unfold pipe_text. by rewrite Ec.
    + apply Hgo. rewrite omap_app, He. cbn. unfold pipe_text. by rewrite Ec, app_nil_r.
Qed.

(** *** Suffixes *)

Lemma ends_with_spec str suffix : ends_with str suffix = true <-> exists before, str = before +:+ suffix.
Proof.
  unfold ends_with. destruct (Nat.ltb_spec (String.length str) (String.length suffix)) as [H|H].
  - split; [done|]. intros [before ->]. rewrite string_app_length in H. lia.
  - rewrite String.eqb_eq. split.
    + intros E. exists (String.substring 0 (String.length str - String.length suffix) str). rewrite <- E at 2.
      generalize (String.length str - String.length suffix)%nat. clear. intros n. revert n. induction str as [|c str IH]; intros [|n]; cbn; [done..|].
      exact (f_equal (String.String c) (IH n)).
    + intros [before ->]. rewrite string_app_length. replace (String.length before + String.length suffix - String.length suffix)%nat with (String.length before) by lia.
      apply str_drop_app.
Qed.

(** ** Properties *)

(** the test for a patched function reads in bounds and says yes exactly when the code
    begins with one of the six patterns. *)
Theorem patch_test_spec (code : list byte) :
  is_patch_bypass (Some code) (Z.of_nat (length code)) = Val (patched code).
Proof. rewrite is_patch_bypass_spec by done. by rewrite take_ge. Qed.

(** a turn of the AMSI guard that finds the prologue as it was clears its flag and says
    nothing; one that finds it changed, with the flag clear, reports once, sets the flag and,
    where the protection can be changed, puts the prologue back; with the flag set it neither
    reports nor repairs.  So a patch that comes back before a turn has seen the repaired
    prologue stays, unreported, for as many turns as follow. *)
Theorem amsi_turn_spec (st : AmsiGuard) (protect : bool) (now : Z) :
  amsi_ok st ->
  let '(st', outs) := amsi_turn st protect now in
  amsi_ok st' /\ am_original st' = am_original st /\
  (prologue st = am_original st -> am_memory st' = am_memory st /\ am_was_bypassed st' = false /\ outs = []) /\
  (prologue st <> am_original st -> am_was_bypassed st = false ->
     am_was_bypassed st' = true /\ outs = [guard_threat HIGH EVASION_AMSI amsi_text 0 now] /\
     (if protect then prologue st' = am_original st /\ drop (length (am_original st)) (am_memory st') = drop (length (am_original st)) (am_memory st)
      else am_memory st' = am_memory st)) /\
  (prologue st <> am_original st -> am_was_bypassed st = true ->
     am_memory st' = am_memory st /\ outs = [] /\
     forall n, let '(stn, outn) := Nat.iter n (fun x => let '(s, o) := amsi_turn (fst x) protect now in (s, snd x ++ o)) (st, []) in
       am_memory stn = am_memory st /\ outn = []).
Proof.
  intros Hok. pose proof Hok as [Hs Hw Hc].
  assert (Hstay : forall s, amsi_ok s -> prologue s <> am_original s -> am_was_bypassed s = true ->
    amsi_turn s protect now = (Amsi (am_original s) (am_memory s) true (count_guard_event (am_counts s)), [])).
  { intros s Hs' Hp Hb. unfold amsi_turn. rewrite (check_amsi_spec s Hs'), (bool_decide_eq_false_2 _ Hp). cbn [am_was_bypassed]. by rewrite Hb. }
  unfold amsi_turn. rewrite (check_amsi_spec st Hok). destruct (decide (prologue st = am_original st)) as [Hp|Hp];
    [rewrite (bool_decide_eq_true_2 _ Hp)|rewrite (bool_decide_eq_false_2 _ Hp)]; cbn [am_was_bypassed am_counts am_original am_memory].
  - rewrite bool_decide_eq_false_2 by done. split_and!; [by split|done|done|done|done].
  - rewrite bool_decide_eq_true_2 by done. destruct (am_was_bypassed st) eqn:Eb.
    + split_and!; [by split|done|done|done|]. intros _ _. split_and!; [done|done|]. intros n.
      assert (H : let '(stn, outn) := Nat.iter n (fun x => let '(s, o) := amsi_turn (fst x) protect now in (s, snd x ++ o)) (st, []) in
        am_memory stn = am_memory st /\ outn = [] /\ am_original stn = am_original st /\ am_was_bypassed stn = true).
      { induction n as [|n IH]; [by split_and!|]. rewrite Nat.iter_succ. destruct (Nat.iter n _ _) as [stn outn]. destruct IH as (Em & -> & Eo & Ef).
        cbn [fst snd]. rewrite Hstay; [by split_and!| |unfold prologue; by rewrite Em, Eo|done]. split; by rewrite ?Em, Eo. }
      destruct (Nat.iter n _ _) as [stn outn]. tauto.
    + unfold restore_amsi_prologue, emit_guard. cbn [am_original am_memory am_counts am_was_bypassed]. rewrite bool_decide_eq_false_2 by done. cbn [orb].
      destruct protect; cbn [negb snd am_original am_memory am_was_bypassed].
      * split_and!; [split; cbn; [done|rewrite length_app; lia|done]|done|done| |done]. intros _ _. split_and!; [done|done| |].
        -- unfold prologue. cbn. by rewrite take_app_length.
        -- by rewrite drop_app_length.
      * split_and!; [by split|done|done|done|done].
Qed.

(** A function patched, repaired and patched again. *)
Definition clean_prologue : list byte := byte_of <$> [0x4C; 0x8B; 0xDC].

Definition attacked (st : AmsiGuard) : AmsiGuard :=
  Amsi (am_original st) (byte_of <$> [0xC3; 0x8B; 0xDC]) (am_was_bypassed st) (am_counts st).

Definition amsi_start : AmsiGuard := Amsi clean_prologue clean_prologue false (Counts 0 0).

Definition repaired : AmsiGuard := fst (amsi_turn (attacked amsi_start) true 5).

Lemma amsi_turn_spec_witness :
  prologue repaired = clean_prologue /\ prologue (fst (amsi_turn (attacked repaired) true 6)) <> clean_prologue /\
  snd (amsi_turn (attacked repaired) true 6) = [].
Proof.
  pose proof (amsi_turn_spec (attacked amsi_start) true 5) as H. unfold repaired.
  destruct (amsi_turn (attacked amsi_start) true 5) as [st1 outs] eqn:E1.
  destruct H as (_ & _ & _ & H & _); [split; [done|cbn; lia|vm_compute; reflexivity]|].
  destruct H as (_ & _ & Hp & _); [intros H; vm_compute in H; discriminate H|reflexivity|]. split; [exact Hp|].
  vm_compute in E1. injection E1 as <- _. split; [intros H; vm_compute in H; discriminate H|vm_compute; reflexivity].
Defined.

(** the score of a script is the sum of the weights of the patterns it holds, in any case of
    its letters; text put before or behind a script never lowers it; a script is malicious
    exactly from 40 on, and exactly then one threat is raised. *)
Theorem script_scan_spec (c : guard_counts) (script before after : string) (now : Z) :
  let '(r, c', outs) := scan_script_buffer c script now in
  ss_score r = script_score script /\ script_score (string_map toupper script) = script_score script /\
  script_score script <= script_score (before +:+ script +:+ after) /\
  (ss_risk r = MALICIOUS_SCRIPT <-> 40 <= ss_score r) /\ (ss_risk r = BENIGN_SCRIPT <-> ss_score r < 15) /\
  gc_events c' = u64 (gc_events c + 1) /\ (outs <> [] <-> 40 <= ss_score r) /\ (length outs <= 1)%nat.
Proof.
  assert (Hup : script_score (string_map toupper script) = script_score script) by (unfold script_score; by rewrite tolower_toupper).
  assert (Hpad : script_score script <= script_score (before +:+ script +:+ after)).
  { unfold script_score. apply weights_monotone.
    - unfold k_rules. repeat (apply Forall_cons; split; [cbn; lia|]). by apply Forall_nil.
    - intros r _ H. rewrite !string_map_app. by apply find_sub_padded. }
  unfold scan_script_buffer. destruct (empty_string script) eqn:Ee.
  { apply empty_string_spec in Ee as ->. cbn [ss_score ss_risk]. rewrite empty_script_score in *. split_and!; try done; try (cbn; lia); split; try done; lia. }
  pose proof (rule_loop_score k_rules (string_map tolower script) 0 []) as Hs. destruct (rule_loop _ _ _ _) as [score names]. cbn [fst] in Hs.
  rewrite Z.add_0_l in Hs. fold (script_score script) in Hs. destruct (Z.leb_spec 40 score) as [H|H]; cbn [ss_score ss_risk emit_guard gc_events].
  - split_and!; try done; try (cbn; lia); split; try done; lia.
  - destruct (Z.leb_spec 15 score) as [H'|H']; split_and!; try done; try (cbn; lia); split; try done; lia.
Qed.

(** a driver is reported as vulnerable, CRITICAL, when its name or path holds a known one,
    else as unsigned, HIGH, when it is, else as suspicious, MEDIUM, when its path holds one of
    the words, in any case of the letters; otherwise it is benign and nothing is reported. *)
Theorem driver_load_spec (c : guard_counts) (name path : string) (is_signed : bool) (now : Z) :
  let '(info, c', outs) := evaluate_driver_load c name path is_signed now in
  let known := is_known_vulnerable_driver name = true \/ is_known_vulnerable_driver path = true in
  (dv_risk info = VULNERABLE_KNOWN <-> known) /\
  (dv_risk info = MALICIOUS_UNSIGNED <-> ~ known /\ is_signed = false) /\
  (dv_risk info = SUSPICIOUS <-> ~ known /\ is_signed = true /\ is_suspicious_driver_path path = true) /\
  outs = (match dv_risk info with BENIGN => [] | _ => [driver_threat info now] end) /\
  gc_events c' = u64 (gc_events c + 1) /\ gc_threats c' = (match dv_risk info with BENIGN => gc_threats c | _ => u64 (gc_threats c + 1) end) /\
  is_known_vulnerable_driver (string_map toupper name) = is_known_vulnerable_driver name.
Proof.
  assert (Hup : is_known_vulnerable_driver (string_map toupper name) = is_known_vulnerable_driver name)
    by (unfold is_known_vulnerable_driver, mentions_any; by rewrite tolower_toupper).
  unfold evaluate_driver_load. cbv zeta. destruct (is_known_vulnerable_driver name || is_known_vulnerable_driver path) eqn:Ek.
  - apply orb_true_iff in Ek. cbn. split_and!; try done; split; try done; tauto.
  - apply orb_false_iff in Ek as [En Ep]. rewrite Hup, En, Ep. destruct is_signed; cbn [negb].
    + destruct (is_suspicious_driver_path path) eqn:Es; cbn; split_and!; try done; split; try done; intuition congruence.
    + cbn. split_and!; try done; split; try done; intuition congruence.
Qed.

(** over any turns of the pipe monitor each name is looked at once: the names it knows are
    those that ever existed, each once, in the order it met them, and the threats are, in the
    same order, those of the names that are of a known framework. *)
Theorem pipes_reported_once (turns : list (list string * Z)) (c : guard_counts) :
  let '(known, _, outs) := foldl pipe_turn ([], c, []) turns in
  NoDup known /\ (forall n, n ∈ known <-> exists t, t ∈ turns /\ n ∈ fst t) /\ ev_description <$> outs = omap pipe_text known.
Proof.
  induction turns as [|t turns IH] using rev_ind.
  { cbn. split_and!; [apply NoDup_nil_2| |done]. intros n. rewrite elem_of_nil. split; [done|]. intros (t & Ht & _). by apply elem_of_nil in Ht. }
  rewrite foldl_app. destruct (foldl _ _ _) as [[known c0] outs]. destruct IH as (H1 & H2 & H3). cbn [foldl pipe_turn].
  pose proof (pipe_entries (snd t) (fst t) known (count_guard_event c0) outs H1 H3) as H. destruct (foldl _ _ _) as [[known' c'] outs'].
  destruct H as (H4 & H5 & H6 & _). split_and!; [done| |done]. intros n. rewrite H6, H2. split.
  - intros [(t' & Ht & Hn) | Hn]; [exists t'|exists t]; rewrite elem_of_app, list_elem_of_singleton; tauto.
  - intros (t' & Ht & Hn). apply elem_of_app in Ht as [Ht | ->%list_elem_of_singleton]; [left; by exists t'|by right].
Qed.

(** The prefix is cut before the letters are lowered, so another spelling of it hides the name. *)
Lemma pipe_prefix_case :
  is_c2_pipe "\\.\pipe\MSAgent_7" = Some ("Cobalt Strike", "Default Beacon SMB named pipe")%string /\ is_c2_pipe "\\.\PIPE\msagent_7" = None.
Proof. by vm_compute. Qed.

(** a job is suspicious exactly when its file has one of the extensions, lies below a
    temporary directory, or comes from one of the three ports, and the extension is named
    where there is one; a subscription exactly when it runs a script or its command holds
    one of the words.  But the lists the monitor evaluates are always empty: no turn reports
    anything. *)
Theorem wmi_bits_spec (job : BitsJobInfo) (sub : WmiSubscription) (st : WmiBitsEngine) (now : Z) :
  let path := string_map tolower (bj_local_file_path job) in
  let url := string_map tolower (bj_remote_url job) in
  (is_Some (evaluate_bits_job job) <->
     (exists ext before, In ext k_exec_extensions /\ path = before +:+ ext) \/ find_sub "\temp\" path = true \/
     find_sub ":8080" url = true \/ find_sub ":4444" url = true \/ find_sub ":1337" url = true) /\
  (is_Some (evaluate_wmi_subscription sub) <->
     find_sub "activescripteventconsumer" (string_map tolower (wm_consumer_type sub)) = true \/
     exists pat, In pat k_suspicious_patterns /\ find_sub pat (string_map tolower (wm_command_or_script sub)) = true) /\
  (let '(st', outs) := wmi_bits_turn st now in
   outs = [] /\ wb_subscriptions st' = wb_subscriptions st /\ wb_jobs st' = wb_jobs st /\ gc_threats (wb_counts st') = gc_threats (wb_counts st)).
Proof.
  intros path url. split_and!.
  - unfold evaluate_bits_job. fold path url. destruct (find (ends_with path) k_exec_extensions) as [ext|] eqn:Ef.
    + apply find_some in Ef as [Hin He]. apply ends_with_spec in He as [before He]. split; [intros _; left; by exists ext, before|done].
    + assert (Hne : ~ exists ext before, In ext k_exec_extensions /\ path = before +:+ ext).
      { intros (ext & before & Hin & He). pose proof (find_none _ _ Ef ext Hin) as H. cbn in H.
        assert (Ht : ends_with path ext = true) by (apply ends_with_spec; by exists before). congruence. }
      assert (Ht : find_sub "\appdata\local\temp\" path = true -> find_sub "\temp\" path = true).
      { rewrite !find_sub_spec. intros (a & b & ->). exists (a +:+ "\appdata\local"), b. by rewrite <- string_app_assoc. }
      destruct (find_sub "\temp\" path); cbn [orb]; [split; [tauto|done]|].
      destruct (find_sub "\appdata\local\temp\" path); [by specialize (Ht eq_refl)|].
      destruct (find_sub ":8080" url), (find_sub ":4444" url), (find_sub ":1337" url); cbn [orb]; split; try done; try tauto;
        intros [H | [H | [H | [H | H]]]]; [by destruct Hne|discriminate..].
  - unfold evaluate_wmi_subscription. destruct (find_sub "activescripteventconsumer" _); [split; [by left|done]|].
    destruct (find _ k_suspicious_patterns) as [pat|] eqn:Ef; cbn [fmap option_fmap option_map].
    + apply find_some in Ef as [Hin He]. split; [intros _; right; by exists pat|done].
    + split; [intros [? ?]; done|]. intros [H | (pat & Hin & He)]; [done|]. pose proof (find_none _ _ Ef pat Hin) as H. cbn in H. congruence.
  - unfold wmi_bits_turn, scan_wmi_subscriptions, scan_bits_jobs. by cbn.
Qed.
