(* ===== verification/ServiceIpc.v ===== *)
(** * ServiceIpc: the pipe between the service and its window

    Models src/src/platform/service_ipc.cpp as built for Windows: the packets, the text of
    an event, what the server does with its clients and the life of a client.  The outcome
    of each call on a pipe is an argument; a [HANDLE] is a number, and the value that is
    not a handle is absent. *)
From S2P Require Import Prelude Observation Text Threat.

(** ** Packets *)

Inductive IpcMsgType := PING | PONG | STATUS_REQ | STATUS_RESP | THREAT_EVENT | COMMAND.

Definition type_value (t : IpcMsgType) : Z :=
  match t with PING => 1 | PONG => 2 | STATUS_REQ => 3 | STATUS_RESP => 4 | THREAT_EVENT => 5 | COMMAND => 6 end.

(** [#pragma pack(push, 1)] *)
Record IpcHeader := Header { hdr_magic : Z; hdr_type : Z; hdr_length : Z }.

Definition header_size : Z := 10.
Definition MAGIC : Z := 0x47434144.

(** A field of [n] bytes as it lies in memory, and the field read from them. *)
Fixpoint field (n : nat) (v : Z) : list byte :=
  match n with O => [] | S n => byte_of v :: field n (v / 256) end.

Definition header_bytes (h : IpcHeader) : list byte := field 4 (hdr_magic h) ++ field 2 (hdr_type h) ++ field 4 (hdr_length h).

Definition header_of (raw : list byte) : IpcHeader :=
  Header (le_val (take 4 raw)) (le_val (take 2 (drop 4 raw))) (le_val (take 4 (drop 6 raw))).

Definition serialize_packet (type : IpcMsgType) (payload : list byte) : list byte :=
  header_bytes (Header MAGIC (u16 (type_value type)) (u32 (Z.of_nat (length payload)))) ++ payload.

(** The header and the payload of a packet that is accepted. *)
Definition parse_packet (data : ptr) (size : Z) : mem (option (IpcHeader * list byte)) :=
  if null data || (size <? header_size) then Val None
  else
    (let* raw := slice data 0 header_size in
     let h := header_of raw in
     if negb (hdr_magic h =? MAGIC) then Val None
     else if size <? header_size + hdr_length h then Val None
     else if 0 <? hdr_length h then let* payload := slice data header_size (hdr_length h) in Val (Some (h, payload))
     else Val (Some (h, [])))%mem.

(** ** Events as text *)

Definition tab : Ascii.ascii := char_of 9.

Definition tabbed (field rest : string) : string := field +:+ String.String tab rest.

Definition flag_text (b : bool) : string := if b then "1" else "0".

Definition serialize_threat (ev : ThreatEvent) : string :=
  tabbed (print_int (ev_id ev)) (tabbed (print_int (level_value (ev_level ev))) (tabbed (print_int (category_value (ev_category ev)))
    (tabbed (print_int (ev_process_id ev)) (tabbed (ev_process_name ev) (tabbed (ev_file_path ev) (tabbed (ev_description ev)
      (tabbed (ev_source_ip ev) (tabbed (print_int (ev_source_port ev)) (tabbed (flag_text (ev_quarantined ev))
        (flag_text (ev_rolled_back ev))))))))))).

(** What [std::getline] takes from the stream up to its end; [item] holds what is read of the
    next token. *)
Fixpoint tokens_of (s item : string) (started : bool) : list string :=
  match s with
  | EmptyString => if started then [item] else []
  | String.String c s =>
      if bool_decide (c = tab) then item :: tokens_of s EmptyString false
      else tokens_of s (item +:+ String.String c EmptyString) true
  end.

(** An event as it arrives: its level and its category are numbers that need not be one of
    the enumeration's. *)
Record WireEvent := Wire {
  we_id : Z;
  we_level : Z;
  we_category : Z;
  we_process_id : Z;
  we_process_name : string;
  we_file_path : string;
  we_description : string;
  we_source_ip : string;
  we_source_port : Z;
  we_quarantined : bool;
  we_rolled_back : bool;
  we_timestamp : Z;
}.

Definition wire_of (ev : ThreatEvent) (now : Z) : WireEvent :=
  Wire (ev_id ev) (level_value (ev_level ev)) (category_value (ev_category ev)) (ev_process_id ev) (ev_process_name ev) (ev_file_path ev)
    (ev_description ev) (ev_source_ip ev) (ev_source_port ev) (ev_quarantined ev) (ev_rolled_back ev) now.

Definition wire_default (now : Z) : WireEvent :=
  Wire 0 0 0 0 EmptyString EmptyString EmptyString EmptyString 0 false false now.

(** [unsigned long] has [w] bits: 32 on Windows, 64 elsewhere. *)
Definition stoul (w : Z) : string -> option Z := sto_unsigned w.

(** The assignments of the [try] block; the first that throws ends them and keeps those before. *)
Definition assign_tokens (w : Z) (tok : nat -> string) (now : Z) : WireEvent :=
  match stoull (tok 0%nat) with
  | None => wire_default now
  | Some i =>
  match stoi (tok 1%nat) with
  | None => Wire i 0 0 0 EmptyString EmptyString EmptyString EmptyString 0 false false now
  | Some level =>
  match stoi (tok 2%nat) with
  | None => Wire i (u8 level) 0 0 EmptyString EmptyString EmptyString EmptyString 0 false false now
  | Some cat =>
  match stoul w (tok 3%nat) with
  | None => Wire i (u8 level) (u16 cat) 0 EmptyString EmptyString EmptyString EmptyString 0 false false now
  | Some pid =>
  match stoul w (tok 8%nat) with
  | None => Wire i (u8 level) (u16 cat) (u32 pid) (tok 4%nat) (tok 5%nat) (tok 6%nat) (tok 7%nat) 0 false false now
  | Some port =>
      Wire i (u8 level) (u16 cat) (u32 pid) (tok 4%nat) (tok 5%nat) (tok 6%nat) (tok 7%nat) (u16 port)
        (String.eqb (tok 9%nat) "1") (String.eqb (tok 10%nat) "1") now
  end end end end end.

Definition deserialize_threat (w : Z) (payload : string) (now : Z) : WireEvent :=
  let tokens := tokens_of payload EmptyString false in
  if Nat.leb 11 (length tokens) then assign_tokens w (fun i => nth i tokens EmptyString) now
  else wire_default now.

(** ** The server *)

(** Its flag and its pipes; [sv_sent] records what the writes on each pipe have sent, and
    [sv_closed] the pipes it has closed. *)
Record ServiceIpcServer := Server {
  sv_running : bool;
  sv_clients : list Z;
  sv_sent : list (Z * list byte);
  sv_closed : list Z;
}.

Definition no_server : ServiceIpcServer := Server false [] [] [].

Definition start (st : ServiceIpcServer) : ServiceIpcServer :=
  if sv_running st then st else Server true (sv_clients st) (sv_sent st) (sv_closed st).

(** [stop] closes every pipe it holds. *)
Definition stop (st : ServiceIpcServer) : ServiceIpcServer :=
  if sv_running st then Server false [] (sv_sent st) (sv_closed st ++ sv_clients st) else st.

(** A client that [ConnectNamedPipe] has returned, where the flag is still set behind it. *)
Definition accept (st : ServiceIpcServer) (pipe : Z) : ServiceIpcServer :=
  if sv_running st then Server true (sv_clients st ++ [pipe]) (sv_sent st) (sv_closed st)
  else Server (sv_running st) (sv_clients st) (sv_sent st) (sv_closed st ++ [pipe]).

(** The loop of a broadcast; [written] is whether all of the packet could be written. *)
Fixpoint send_all (written : Z -> bool) (pkt : list byte) (pipes active : list Z) (sent : list (Z * list byte)) (closed : list Z) :
    list Z * list (Z * list byte) * list Z :=
  match pipes with
  | [] => (active, sent, closed)
  | p :: pipes =>
      if written p then send_all written pkt pipes (active ++ [p]) (sent ++ [(p, pkt)]) closed
      else send_all written pkt pipes active sent (closed ++ [p])
  end.

Definition broadcast (st : ServiceIpcServer) (written : Z -> bool) (pkt : list byte) : ServiceIpcServer :=
  let '(active, sent, closed) := send_all written pkt (sv_clients st) [] (sv_sent st) (sv_closed st) in
  Server (sv_running st) active sent closed.

Definition broadcast_threat (st : ServiceIpcServer) (written : Z -> bool) (ev : ThreatEvent) : ServiceIpcServer :=
  broadcast st written (serialize_packet THREAT_EVENT (bytes_of_string (serialize_threat ev))).

Definition broadcast_status (st : ServiceIpcServer) (written : Z -> bool) (status_str : string) : ServiceIpcServer :=
  broadcast st written (serialize_packet STATUS_RESP (bytes_of_string status_str)).

(** What the server's threads do, one lock at a time. *)
Inductive server_call :=
  | CallStart
  | CallStop
  | CallAccept (pipe : Z)
  | CallThreat (ev : ThreatEvent) (written : Z -> bool)
  | CallStatus (status_str : string) (written : Z -> bool).

Definition server_step (st : ServiceIpcServer) (c : server_call) : ServiceIpcServer :=
  match c with
  | CallStart => start st
  | CallStop => stop st
  | CallAccept pipe => accept st pipe
  | CallThreat ev written => broadcast_threat st written ev
  | CallStatus s written => broadcast_status st written s
  end.

(** ** A client *)

(** The listener's [std::thread]: it never ran, runs, or has returned and was not joined. *)
Inductive listener := NoListener | Listening | Returned.

Record ServiceIpcClient := Client {
  cl_pipe : option Z;
  cl_connected : bool;
  cl_listener : listener;
}.

Definition new_client : ServiceIpcClient := Client None false NoListener.

Definition joinable (l : listener) : bool := match l with NoListener => false | _ => true end.

(** [opened] is the pipe where the waiting, the opening and the setting of its mode succeed.
    Assigning to a thread that is joinable ends the process, [None]. *)
Definition connect (c : ServiceIpcClient) (opened : option Z) : option (bool * ServiceIpcClient) :=
  if cl_connected c then Some (true, c)
  else
    match opened with
    | None => Some (false, c)
    | Some pipe => if joinable (cl_listener c) then None else Some (true, Client (Some pipe) true Listening)
    end.

(** The join waits for the listener, which a closed pipe ends. *)
Definition disconnect (c : ServiceIpcClient) : ServiceIpcClient :=
  if cl_connected c then Client None false NoListener else c.

(** The destructor disconnects, then destroys the members: a thread that is joinable ends the process. *)
Definition destroy (c : ServiceIpcClient) : option unit :=
  if joinable (cl_listener (disconnect c)) then None else Some tt.

Definition buffer_size : Z := 16384.

(** A message of the pipe that arrives at [ReadFile]: one that is longer than the buffer makes
    the call fail. *)
Definition read_message (message : option (list byte)) : option (list byte) :=
  match message with
  | Some m => if (Z.of_nat (length m) <=? buffer_size) && (0 <? Z.of_nat (length m)) then Some m else None
  | None => None
  end.

(** A turn of the listener, and the event it hands to the callback; [message] is [None] where
    the read fails. *)
Definition listen_turn (w : Z) (c : ServiceIpcClient) (message : option (list byte)) (now : Z) : ServiceIpcClient * mem (option WireEvent) :=
  match cl_listener c with
  | Listening =>
      if negb (cl_connected c) then (Client (cl_pipe c) false Returned, Val None)
      else
        match read_message message with
        | None => (Client (cl_pipe c) false Returned, Val None)
        | Some m =>
            (c, (let* parsed := parse_packet (Some m) (Z.of_nat (length m)) in
                 match parsed with
                 | Some (h, payload) =>
                     if hdr_type h =? type_value THREAT_EVENT then Val (Some (deserialize_threat w (string_of_bytes payload) now)) else Val None
                 | None => Val None
                 end)%mem)
        end
  | _ => (c, Val None)
  end.

(** [ping] and [request_status] hand one packet to the pipe; [written] is how many bytes went out. *)
Definition ping (c : ServiceIpcClient) (written : option Z) : bool :=
  if cl_connected c && bool_decide (is_Some (cl_pipe c)) then
    match written with Some n => n =? Z.of_nat (length (serialize_packet PING (bytes_of_string "PING"))) | None => false end
  else false.

Definition request_status (c : ServiceIpcClient) (written : option Z) : string :=
  if cl_connected c && bool_decide (is_Some (cl_pipe c)) then
    match written with Some _ => "REQUESTED" | None => EmptyString end
  else EmptyString.

(** ** Lemmas *)

Lemma field_length n v : length (field n v) = n.
Proof. revert v. induction n as [|n IH]; intros v; [done|]. cbn. by rewrite IH. Qed.

Lemma field_value n v : 0 <= v -> le_val (field n v) = v mod 256 ^ Z.of_nat n.
Proof.
  revert v. induction n as [|n IH]; intros v Hv; [cbn; by rewrite Z.mod_1_r|].
  cbn [field]. change (byte_of v :: field n (v / 256)) with ([byte_of v] ++ field n (v / 256)).
  rewrite le_val_app, IH by (apply Z.div_pos; lia). cbn [length]. change (256 ^ Z.of_nat 1) with 256.
  unfold le_val at 1. cbn. rewrite bval_byte_of, Nat2Z.inj_succ, Z.pow_succ_r by lia.
  rewrite Z.rem_mul_r by (lia || (apply Z.pow_pos_nonneg; lia)). lia.
Qed.

Lemma field_of_value l : field (length l) (le_val l) = l.
Proof.
  apply le_val_inj; [by rewrite field_length|]. rewrite field_value by apply le_val_nonneg.
  apply Z.mod_small, le_val_bound.
Qed.

Lemma header_bytes_length h : length (header_bytes h) = 10%nat.
Proof. unfold header_bytes. by rewrite !length_app, !field_length. Qed.

(** The three fields of ten bytes. *)
Lemma header_parts (raw : list byte) : length raw = 10%nat ->
  raw = take 4 raw ++ take 2 (drop 4 raw) ++ take 4 (drop 6 raw).
Proof. intros H. do 11 (destruct raw as [|? raw]; [discriminate H || reflexivity|]). discriminate H. Qed.

Lemma header_bytes_of raw : length raw = 10%nat -> header_bytes (header_of raw) = raw.
Proof.
  intros H. unfold header_bytes, header_of. cbn [hdr_magic hdr_type hdr_length]. rewrite (header_parts raw H) at 4.
  assert (E : forall n k, (k + n <= 10)%nat -> field n (le_val (take n (drop k raw))) = take n (drop k raw)).
  { intros n k Hn. rewrite <- (field_of_value (take n (drop k raw))) at 2. f_equal. rewrite length_take, length_drop. lia. }
  pose proof (E 4%nat 0%nat ltac:(lia)) as E1. rewrite drop_0 in E1. by rewrite E1, (E 2%nat 4%nat), (E 4%nat 6%nat) by lia.
Qed.

Definition header_ok (h : IpcHeader) : Prop := 0 <= hdr_magic h < 2 ^ 32 /\ 0 <= hdr_type h < 2 ^ 16 /\ 0 <= hdr_length h < 2 ^ 32.

Lemma header_of_ok raw : length raw = 10%nat -> header_ok (header_of raw).
Proof.
  intros H. unfold header_ok, header_of. cbn [hdr_magic hdr_type hdr_length].
  pose proof (le_val_bound (take 4 raw)) as H1. pose proof (le_val_bound (take 2 (drop 4 raw))) as H2. pose proof (le_val_bound (take 4 (drop 6 raw))) as H3.
  rewrite !length_take, ?length_drop, H in *. cbn in H1, H2, H3. lia.
Qed.

Lemma header_of_bytes h : header_ok h -> header_of (header_bytes h) = h.
Proof.
  intros (H1 & H2 & H3). unfold header_of, header_bytes. destruct h as [m t l]. cbn [hdr_magic hdr_type hdr_length] in *.
  rewrite (take_app_length' (field 4 m)) by by rewrite field_length. rewrite (drop_app_length' (field 4 m)) by by rewrite field_length.
  rewrite (take_app_length' (field 2 t)) by by rewrite field_length. rewrite app_assoc, (drop_app_length' (field 4 m ++ field 2 t)) by by rewrite length_app, !field_length.
  rewrite take_ge by by rewrite field_length. rewrite !field_value by lia. cbn.
  f_equal; apply Z.mod_small; lia.
Qed.

(** A packet with any header. *)
Definition packet (h : IpcHeader) (payload rest : list byte) : list byte := header_bytes h ++ payload ++ rest.

Lemma parse_packet_spec (d : list byte) :
  exists r, parse_packet (Some d) (Z.of_nat (length d)) = Val r /\
  (forall h payload, r = Some (h, payload) <->
     header_ok h /\ hdr_magic h = MAGIC /\ hdr_length h = Z.of_nat (length payload) /\ exists rest, d = packet h payload rest).
Proof.
  unfold parse_packet. cbn [null orb]. destruct (Z.ltb_spec (Z.of_nat (length d)) header_size) as [Hs|Hs].
  { exists None. split; [done|]. intros h payload. split; [done|]. intros (_ & _ & _ & rest & ->). unfold packet, header_size in Hs.
    rewrite length_app, header_bytes_length in Hs. lia. }
  unfold header_size in *. set (raw := take 10 d). assert (Hraw : length raw = 10%nat) by (unfold raw; rewrite length_take; lia).
  assert (Eraw : slice (Some d) 0 10 = Val raw).
  { unfold slice. destruct ((0 <=? 0) && (0 <=? 10) && (0 + 10 <=? Z.of_nat (length d))) eqn:E; [by rewrite drop_0|].
    apply andb_false_iff in E as [E|E]; [discriminate E|]. apply Z.leb_gt in E. lia. }
  rewrite Eraw. cbn [mem_bind]. set (h := header_of raw). pose proof (header_of_ok raw Hraw) as Hok. fold h in Hok.
  assert (Ed : d = header_bytes h ++ drop 10 d) by (unfold h; rewrite header_bytes_of by done; unfold raw; by rewrite take_drop).
  assert (Huniq : forall h' payload rest, header_ok h' -> d = packet h' payload rest -> h' = h /\ drop 10 d = payload ++ rest).
  { intros h' payload rest Hh' E. unfold packet in E. assert (Er : raw = header_bytes h').
    { unfold raw. rewrite E. apply take_app_length'. by rewrite header_bytes_length. }
    split; [unfold h; by rewrite Er, header_of_bytes|]. rewrite E. apply drop_app_length'. by rewrite header_bytes_length. }
  destruct (Z.eqb_spec (hdr_magic h) MAGIC) as [Hm|Hm]; cbn [negb].
  2:{ exists None. split; [done|]. intros h' payload. split; [done|]. intros (Hh & Hm' & _ & rest & E). destruct (Huniq _ _ _ Hh E) as [-> _]. done. }
  destruct (Z.ltb_spec (Z.of_nat (length d)) (10 + hdr_length h)) as [Hl|Hl].
  { exists None. split; [done|]. intros h' payload. split; [done|]. intros (Hh & _ & Hl' & rest & E). destruct (Huniq _ _ _ Hh E) as [-> E'].
    apply (f_equal length) in E'. rewrite length_drop, length_app in E'. lia. }
  set (n := Z.to_nat (hdr_length h)). exists (Some (h, take n (drop 10 d))). split.
  - destruct (Z.ltb_spec 0 (hdr_length h)) as [Hp|Hp].
    + unfold slice. destruct ((0 <=? 10) && (0 <=? hdr_length h) && (10 + hdr_length h <=? Z.of_nat (length d))) eqn:E; [done|].
      destruct Hok as (_ & _ & Hk). rewrite (proj2 (Z.leb_le 0 (hdr_length h))) in E by lia. apply Z.leb_gt in E. lia.
    + assert (En : n = 0%nat) by (unfold n; lia). by rewrite En.
  - destruct Hok as (H1 & H2 & H3). intros h' payload. split.
    + intros [= <- <-]. split_and!; [by split|done| |].
      * rewrite length_take, length_drop. unfold n. lia.
      * exists (drop n (drop 10 d)). unfold packet. by rewrite take_drop.
    + intros (Hh & _ & Hl' & rest & E). destruct (Huniq _ _ _ Hh E) as [-> E']. do 2 f_equal. rewrite E'. apply take_app_length'. unfold n. lia.
Qed.

(** *** Tokens *)

Lemma tokens_app f rest : has_char tab f = false -> forall item started,
  tokens_of (tabbed f rest) item started = (item +:+ f) :: tokens_of rest EmptyString false.
Proof.
  unfold tabbed. induction f as [|c f IH]; intros Hf item started.
  - change (EmptyString +:+ String.String tab rest) with (String.String tab rest). cbn [tokens_of]. by rewrite bool_decide_eq_true_2, string_app_nil.
  - cbn [has_char] in Hf. apply orb_false_iff in Hf as [Hc Hf].
    change (String.String c f +:+ String.String tab rest) with (String.String c (f +:+ String.String tab rest)). cbn [tokens_of].
    rewrite Hc, IH by done. by rewrite string_app_cons.
Qed.

Lemma tokens_cons f rest : has_char tab f = false -> tokens_of (tabbed f rest) EmptyString false = f :: tokens_of rest EmptyString false.
Proof. intros Hf. by rewrite tokens_app. Qed.

Lemma number_without_tab z : has_char tab (print_int z) = false.
Proof. by apply print_int_plain. Qed.

Lemma flag_without_tab b : has_char tab (flag_text b) = false.
Proof. by destruct b. Qed.

#[local] Hint Resolve number_without_tab flag_without_tab : core.

Lemma flag_tokens b : tokens_of (flag_text b) EmptyString false = [flag_text b].
Proof. by destruct b. Qed.

Lemma flag_read b : String.eqb (flag_text b) "1" = b.
Proof. by destruct b. Qed.

(** The text of an event when no field of it holds a tab. *)
Definition tabless (ev : ThreatEvent) : Prop :=
  has_char tab (ev_process_name ev) = false /\ has_char tab (ev_file_path ev) = false /\
  has_char tab (ev_description ev) = false /\ has_char tab (ev_source_ip ev) = false.

Lemma threat_tokens ev : tabless ev ->
  tokens_of (serialize_threat ev) EmptyString false =
  [print_int (ev_id ev); print_int (level_value (ev_level ev)); print_int (category_value (ev_category ev)); print_int (ev_process_id ev);
   ev_process_name ev; ev_file_path ev; ev_description ev; ev_source_ip ev; print_int (ev_source_port ev);
   flag_text (ev_quarantined ev); flag_text (ev_rolled_back ev)].
Proof. intros (H1 & H2 & H3 & H4). unfold serialize_threat. rewrite !tokens_cons by auto. by rewrite flag_tokens. Qed.

Lemma level_small l : 0 <= level_value l < 2 ^ 8.
Proof. by destruct l. Qed.

Lemma category_small c : 0 <= category_value c < 2 ^ 16.
Proof. by destruct c. Qed.

Lemma stoi_small z : 0 <= z < 2 ^ 31 -> stoi (print_int z) = Some z.
Proof.
  intros H. rewrite stoi_print. unfold as_int. rewrite (proj2 (Z.leb_le _ _)), (proj2 (Z.ltb_lt _ _)) by lia. done.
Qed.

(** The fields that have a width in the source. *)
Definition event_widths (ev : ThreatEvent) : Prop :=
  0 <= ev_id ev < 2 ^ 64 /\ 0 <= ev_process_id ev < 2 ^ 32 /\ 0 <= ev_source_port ev < 2 ^ 16.

(** *** The server's ledger *)

Lemma send_all_spec written pkt pipes : forall active sent closed,
  send_all written pkt pipes active sent closed =
  (active ++ filter (fun p => written p = true) pipes, sent ++ ((fun p => (p, pkt)) <$> filter (fun p => written p = true) pipes),
   closed ++ filter (fun p => written p = false) pipes).
Proof.
  induction pipes as [|p pipes IH]; intros active sent closed; cbn [send_all].
  - cbn. by rewrite !app_nil_r.
  - destruct (written p) eqn:E; rewrite IH.
    + rewrite !(filter_cons_True (fun p => written p = true)) by done. rewrite (filter_cons_False (fun p => written p = false)) by by rewrite E.
      cbn. by rewrite <- !app_assoc.
    + rewrite !(filter_cons_False (fun p => written p = true)) by by rewrite E. rewrite (filter_cons_True (fun p => written p = false)) by done.
      by rewrite <- app_assoc.
Qed.

(** The packets a pipe was sent. *)
Definition received (st : ServiceIpcServer) (p : Z) : list (list byte) := snd <$> filter (fun x => fst x = p) (sv_sent st).

(** *** One client of the server *)

Inductive phase := Waiting | Open | Closed.

Record client_view := View { cv_running : bool; cv_phase : phase; cv_got : list (list byte) }.

(** The pipe as the calls treat it when no other exists: what a broadcast does to it depends on
    its own write alone. *)
Definition view_sends (p : Z) (v : client_view) (written : Z -> bool) (pkt : list byte) : client_view :=
  match cv_phase v with
  | Open => if written p then View (cv_running v) Open (cv_got v ++ [pkt]) else View (cv_running v) Closed (cv_got v)
  | _ => v
  end.

Definition view_step (p : Z) (v : client_view) (c : server_call) : client_view :=
  match c with
  | CallStart => View true (cv_phase v) (cv_got v)
  | CallStop => View false (if cv_running v then match cv_phase v with Open => Closed | x => x end else cv_phase v) (cv_got v)
  | CallAccept q => if p =? q then View (cv_running v) (if cv_running v then Open else Closed) (cv_got v) else v
  | CallThreat ev written => view_sends p v written (serialize_packet THREAT_EVENT (bytes_of_string (serialize_threat ev)))
  | CallStatus s written => view_sends p v written (serialize_packet STATUS_RESP (bytes_of_string s))
  end.

Definition view_of (p : Z) (st : ServiceIpcServer) : client_view :=
  View (sv_running st) (if bool_decide (p ∈ sv_clients st) then Open else if bool_decide (p ∈ sv_closed st) then Closed else Waiting)
    (received st p).

Definition accepted (cs : list server_call) : list Z := omap (fun c => match c with CallAccept p => Some p | _ => None end) cs.

(** Each pipe is in one of the two lists, once. *)
Definition server_ok (st : ServiceIpcServer) : Prop := NoDup (sv_clients st ++ sv_closed st).

Lemma broadcast_ok st written pkt : server_ok st -> server_ok (broadcast st written pkt).
Proof.
  unfold server_ok, broadcast. rewrite send_all_spec. cbn [sv_clients sv_closed app]. rewrite !NoDup_app. setoid_rewrite elem_of_app. setoid_rewrite list_elem_of_filter.
  intros (H1 & H2 & H3). split_and!.
  - by apply NoDup_filter.
  - intros p [Hw Hp] [H | [Hw' _]]; [by apply (H2 p)|congruence].
  - done.
  - intros p Hp [_ H]. by apply (H2 p).
  - by apply NoDup_filter.
Qed.

Lemma received_sends sent new p run clients closed : received (Server run clients (sent ++ new) closed) p =
  (snd <$> filter (fun x : Z * list byte => fst x = p) sent) ++ (snd <$> filter (fun x : Z * list byte => fst x = p) new).
Proof. unfold received. cbn [sv_sent]. by rewrite filter_app, fmap_app. Qed.

Lemma sent_to_one (p : Z) (pkt : list byte) (l : list Z) : NoDup l ->
  snd <$> filter (fun x => fst x = p) ((fun q => (q, pkt)) <$> l) = if bool_decide (p ∈ l) then [pkt] else [].
Proof.
  induction l as [|q l IH]; intros Hl; [done|]. apply NoDup_cons in Hl as [Hq Hl]. cbn [fmap list_fmap].
  destruct (decide (q = p)) as [-> |Hne].
  - rewrite filter_cons_True by done. cbn [fmap list_fmap snd]. rewrite (bool_decide_eq_true_2 (p ∈ p :: l)) by (by left).
    rewrite IH, bool_decide_eq_false_2 by done. done.
  - rewrite filter_cons_False by done. rewrite IH by done. apply (f_equal (fun b : bool => if b then [pkt] else [])). apply bool_decide_ext.
    rewrite elem_of_cons. split; [by right|by intros [-> |H]].
Qed.

Lemma broadcast_view st written pkt p : server_ok st -> view_of p (broadcast st written pkt) = view_sends p (view_of p st) written pkt.
Proof.
  intros Hok. pose proof Hok as (H1 & H2 & H3)%NoDup_app. unfold view_of, broadcast, view_sends. rewrite send_all_spec. cbn [sv_clients sv_closed sv_running app cv_phase cv_running cv_got].
  rewrite received_sends, sent_to_one by by apply NoDup_filter.
  assert (E1 : p ∈ filter (fun q => written q = true) (sv_clients st) <-> written p = true /\ p ∈ sv_clients st) by by rewrite list_elem_of_filter.
  assert (E2 : p ∈ sv_closed st ++ filter (fun q => written q = false) (sv_clients st) <-> p ∈ sv_closed st \/ (written p = false /\ p ∈ sv_clients st))
    by by rewrite elem_of_app, list_elem_of_filter.
  rewrite (bool_decide_ext _ _ E1), (bool_decide_ext _ _ E2). fold (received st p).
  destruct (decide (p ∈ sv_clients st)) as [Hp|Hp].
  - rewrite (bool_decide_eq_true_2 (p ∈ sv_clients st)) by done. destruct (written p).
    + by rewrite bool_decide_eq_true_2.
    + rewrite bool_decide_eq_false_2 by (by intros [? ?]). rewrite bool_decide_eq_true_2 by (by right). by rewrite app_nil_r.
  - rewrite (bool_decide_eq_false_2 (p ∈ sv_clients st)) by done. rewrite bool_decide_eq_false_2 by tauto. rewrite app_nil_r.
    destruct (decide (p ∈ sv_closed st)) as [Hc|Hc].
    + by rewrite !bool_decide_eq_true_2 by tauto.
    + by rewrite !bool_decide_eq_false_2 by tauto.
Qed.

(** What the pipes of the state have come from. *)
Definition known_pipes (st : ServiceIpcServer) (ps : list Z) : Prop :=
  (forall p, p ∈ sv_clients st ++ sv_closed st -> p ∈ ps) /\ (forall p, p ∈ (fst <$> sv_sent st) -> p ∈ ps).

Lemma broadcast_known st written pkt ps : known_pipes st ps -> known_pipes (broadcast st written pkt) ps.
Proof.
  intros [H1 H2]. unfold known_pipes, broadcast. rewrite send_all_spec. cbn [sv_clients sv_closed sv_sent app]. split.
  - intros p. rewrite !elem_of_app, !list_elem_of_filter. intros H. apply H1. rewrite elem_of_app. tauto.
  - intros p. rewrite fmap_app, elem_of_app. intros [H|H]; [by apply H2|]. apply H1. rewrite <- list_fmap_compose in H.
    apply list_elem_of_fmap in H as (q & -> & H%list_elem_of_filter). rewrite elem_of_app. tauto.
Qed.

Lemma received_none st p : ~ p ∈ (fst <$> sv_sent st) -> received st p = [].
Proof.
  unfold received. induction (sv_sent st) as [|x l IH]; intros H; [done|]. cbn [fmap list_fmap] in H. apply not_elem_of_cons in H as [H1 H2].
  rewrite filter_cons_False by done. by apply IH.
Qed.

Lemma accept_ok st q ps : server_ok st -> known_pipes st ps -> ~ q ∈ ps -> server_ok (accept st q) /\ known_pipes (accept st q) (ps ++ [q]) /\
  forall p, view_of p (accept st q) = if p =? q then View (sv_running st) (if sv_running st then Open else Closed) (received st p) else view_of p st.
Proof.
  intros Hok [K1 K2] Hq. assert (Hn : ~ q ∈ sv_clients st ++ sv_closed st) by (intros H; by apply Hq, K1).
  pose proof Hn as Hn'. rewrite elem_of_app in Hn'. unfold accept. destruct (sv_running st) eqn:Er; cbn [sv_clients sv_closed].
  - split_and!.
    + unfold server_ok. cbn [sv_clients sv_closed]. rewrite <- app_assoc. cbn [app]. rewrite <- Permutation_middle. by apply NoDup_cons.
    + split; [|intros p Hp; apply elem_of_app; left; by apply K2]. cbn [sv_clients sv_closed]. intros p. rewrite !elem_of_app, list_elem_of_singleton.
      intros [[H|H] |H]; [left; apply K1, elem_of_app; tauto|by right|left; apply K1, elem_of_app; tauto].
    + intros p. unfold view_of. cbn [sv_clients sv_closed sv_running]. rewrite Er. destruct (Z.eqb_spec p q) as [-> |Hne].
      * by rewrite bool_decide_eq_true_2 by (rewrite elem_of_app, list_elem_of_singleton; tauto).
      * rewrite (bool_decide_ext (p ∈ sv_clients st ++ [q]) (p ∈ sv_clients st)); [done|].
        rewrite elem_of_app, list_elem_of_singleton. tauto.
  - split_and!.
    + unfold server_ok. cbn [sv_clients sv_closed]. rewrite app_assoc, <- Permutation_cons_append. by apply NoDup_cons.
    + split; [|intros p Hp; apply elem_of_app; left; by apply K2]. cbn [sv_clients sv_closed]. intros p. rewrite !elem_of_app, list_elem_of_singleton.
      intros [H|[H|H]]; [left; apply K1, elem_of_app; tauto|left; apply K1, elem_of_app; tauto|by right].
    + intros p. unfold view_of. cbn [sv_clients sv_closed sv_running]. rewrite Er. destruct (Z.eqb_spec p q) as [-> |Hne].
      * rewrite bool_decide_eq_false_2 by tauto. by rewrite bool_decide_eq_true_2 by (rewrite elem_of_app, list_elem_of_singleton; tauto).
      * rewrite (bool_decide_ext (p ∈ sv_closed st ++ [q]) (p ∈ sv_closed st)); [done|].
        rewrite elem_of_app, list_elem_of_singleton. tauto.
Qed.

Lemma stop_ok st ps : server_ok st -> known_pipes st ps -> server_ok (stop st) /\ known_pipes (stop st) ps /\
  forall p, view_of p (stop st) = View false (if sv_running st then match cv_phase (view_of p st) with Open => Closed | x => x end else cv_phase (view_of p st)) (received st p).
Proof.
  intros Hok [K1 K2]. unfold stop. destruct (sv_running st) eqn:Er.
  - split_and!.
    + unfold server_ok in *. cbn [sv_clients sv_closed app]. by rewrite Permutation_app_comm.
    + split; [|done]. cbn [sv_clients sv_closed app]. intros p Hp. apply K1. rewrite elem_of_app in Hp |- *. tauto.
    + intros p. unfold view_of. cbn [sv_clients sv_closed sv_running cv_phase]. rewrite bool_decide_eq_false_2 by apply not_elem_of_nil.
      f_equal. rewrite (bool_decide_ext (p ∈ sv_closed st ++ sv_clients st) (p ∈ sv_clients st \/ p ∈ sv_closed st)) by (rewrite elem_of_app; tauto).
      destruct (decide (p ∈ sv_clients st)) as [H|H];
        [rewrite !bool_decide_eq_true_2 by tauto; done|rewrite (bool_decide_eq_false_2 (p ∈ sv_clients st)) by done].
      rewrite (bool_decide_ext (p ∈ sv_clients st \/ p ∈ sv_closed st) (p ∈ sv_closed st)) by tauto. by destruct (bool_decide _).
  - split_and!; [done|by split|]. intros p. unfold view_of. by rewrite Er.
Qed.

Lemma start_ok st ps : server_ok st -> known_pipes st ps -> server_ok (start st) /\ known_pipes (start st) ps /\
  forall p, view_of p (start st) = View true (cv_phase (view_of p st)) (received st p).
Proof. intros Hok K. unfold start. destruct (sv_running st) eqn:Er; split_and!; try done. intros p. unfold view_of. by rewrite Er. Qed.

Lemma server_run_ok (cs : list server_call) : NoDup (accepted cs) ->
  let st := foldl server_step no_server cs in
  server_ok st /\ known_pipes st (accepted cs) /\ forall p, view_of p st = foldl (view_step p) (View false Waiting []) cs.
Proof.
  induction cs as [|c cs IH] using rev_ind; intros Hn.
  { split_and!; [apply NoDup_nil_2|split; intros p Hp; by apply elem_of_nil in Hp|done]. }
  unfold accepted in Hn. rewrite omap_app in Hn. fold (accepted cs) in Hn. apply NoDup_app in Hn as (Hn & Hc & _).
  destruct (IH Hn) as (Hok & K & Hv). clear IH. rewrite !foldl_app. cbn [foldl]. unfold accepted. rewrite omap_app. fold (accepted cs).
  set (st := foldl server_step no_server cs) in *. destruct c as [| |q|ev written|s written]; cbn [server_step omap list_omap]; rewrite ?app_nil_r.
  - destruct (start_ok st _ Hok K) as (H1 & H2 & H3). split_and!; [done|done|]. intros p. by rewrite foldl_app, H3, <- Hv.
  - destruct (stop_ok st _ Hok K) as (H1 & H2 & H3). split_and!; [done|done|]. intros p. by rewrite foldl_app, H3, <- Hv.
  - assert (Hq : ~ q ∈ accepted cs) by (intros H; apply (Hc q H); cbn; by left).
    destruct (accept_ok st q _ Hok K Hq) as (H1 & H2 & H3). split_and!; [done|done|]. intros p. by rewrite foldl_app, H3, <- Hv.
  - split_and!; [by apply broadcast_ok|by apply broadcast_known|]. intros p. unfold broadcast_threat. rewrite broadcast_view, foldl_app, <- Hv by done. done.
  - split_and!; [by apply broadcast_ok|by apply broadcast_known|]. intros p. unfold broadcast_status. rewrite broadcast_view, foldl_app, <- Hv by done. done.
Qed.

(** ** Properties *)

(** C11: reading a packet stays in bounds whatever the bytes are, and it is accepted exactly when
    the bytes begin with a header of the magic number followed by as many bytes as it says;
    what is written is read back, whatever follows it. *)
Theorem ipc_packets (d : list byte) (type : IpcMsgType) (payload rest : list byte) :
  (exists r, parse_packet (Some d) (Z.of_nat (length d)) = Val r /\
     forall h p, r = Some (h, p) <->
       header_ok h /\ hdr_magic h = MAGIC /\ hdr_length h = Z.of_nat (length p) /\ exists rest, d = packet h p rest) /\
  (Z.of_nat (length payload) < 2 ^ 32 ->
   let d := serialize_packet type payload ++ rest in
   parse_packet (Some d) (Z.of_nat (length d)) = Val (Some (Header MAGIC (type_value type) (Z.of_nat (length payload)), payload))).
Proof.
  split; [apply parse_packet_spec|]. intros Hp. cbv zeta. destruct (parse_packet_spec (serialize_packet type payload ++ rest)) as (r & -> & Hr).
  f_equal. apply Hr. unfold serialize_packet. rewrite u32_small by lia. replace (u16 (type_value type)) with (type_value type) by (by destruct type).
  split_and!; [split_and!; cbn; [done|done|destruct type; done|destruct type; done|lia|lia]|done|done|].
  exists rest. unfold packet. by rewrite app_assoc.
Qed.

Lemma ipc_packets_witness :
  parse_packet (Some (serialize_packet PING [x00; x01])) 12 = Val (Some (Header MAGIC 1 2, [x00; x01])).
Proof. exact (proj2 (ipc_packets [] PING [x00; x01] []) ltac:(done)). Defined.

(** C35: a threat the server broadcasts reaches the callback of a listening client with every
    field of it, and the client's own time, when no text of it holds a tab and the packet
    fits the buffer; one that does not fit ends the listener. *)
Theorem threat_crosses_pipe (w : Z) (ev : ThreatEvent) (now : Z) (c : ServiceIpcClient) :
  32 <= w -> event_widths ev -> tabless ev -> cl_listener c = Listening -> cl_connected c = true ->
  let pkt := serialize_packet THREAT_EVENT (bytes_of_string (serialize_threat ev)) in
  listen_turn w c (Some pkt) now =
    if Z.of_nat (length pkt) <=? buffer_size then (c, Val (Some (wire_of ev now)))
    else (Client (cl_pipe c) false Returned, Val None).
Proof.
  intros Hw (Hi & Hp & Hs) Ht Hl Hc. cbv zeta. unfold listen_turn, read_message. rewrite Hl, Hc. cbn [negb]. set (text := bytes_of_string _).
  assert (Hlen : length (serialize_packet THREAT_EVENT text) = (10 + length text)%nat)
    by (unfold serialize_packet; by rewrite length_app, header_bytes_length).
  destruct (Z.leb_spec (Z.of_nat (length (serialize_packet THREAT_EVENT text))) buffer_size) as [Hb|Hb]; cbn [andb]; [|done].
  rewrite (proj2 (Z.ltb_lt _ _)) by lia. f_equal.
  destruct (parse_packet_spec (serialize_packet THREAT_EVENT text)) as (r & -> & Hr). cbn [mem_bind].
  assert (Hu : Z.of_nat (length text) < 2 ^ 32) by (unfold buffer_size in Hb; lia).
  rewrite (proj2 (Hr (Header MAGIC 5 (Z.of_nat (length text))) text)).
  2:{ unfold serialize_packet. rewrite u32_small by lia. split_and!; [split_and!; cbn; done || lia|done|done|]. exists []. unfold packet. by rewrite app_nil_r. }
  cbn [hdr_type type_value Z.eqb]. do 2 f_equal. unfold text. rewrite string_of_bytes_of_string. unfold deserialize_threat. rewrite threat_tokens by done.
  cbn [length Nat.leb nth]. unfold assign_tokens, stoull, stoul. cbn [nth].
  rewrite sto_unsigned_print by lia. rewrite !stoi_small by (pose proof (level_small (ev_level ev)); pose proof (category_small (ev_category ev)); lia).
  assert (H2w : 2 ^ 32 <= 2 ^ w) by (apply Z.pow_le_mono_r; lia).
  rewrite !sto_unsigned_print by lia. rewrite !flag_read. unfold wire_of, u8, u16, u32. f_equal; apply Z.mod_small; try lia; [apply level_small|apply category_small].
Qed.

(** C39: whatever the service does, each pipe fares as if it were the only one: it is open, closed
    or not yet there, and has been sent exactly the packets broadcast since it was accepted up
    to its first failed write or the end of the service, in order; no pipe is closed twice. *)
Theorem each_client_alone (cs : list server_call) :
  NoDup (accepted cs) ->
  let st := foldl server_step no_server cs in
  NoDup (sv_clients st ++ sv_closed st) /\ forall p, view_of p st = foldl (view_step p) (View false Waiting []) cs.
Proof. intros Hn. destruct (server_run_ok cs Hn) as (H1 & _ & H3). by split. Qed.

Definition some_service : list server_call :=
  [CallStart; CallAccept 1; CallAccept 2; CallStatus "up" (fun _ => true); CallStatus "busy" (fun p => p =? 2); CallAccept 3; CallStatus "idle" (fun _ => true); CallStop].

Lemma each_client_alone_witness :
  received (foldl server_step no_server some_service) 1 = [serialize_packet STATUS_RESP (bytes_of_string "up")] /\
  cv_phase (view_of 3 (foldl server_step no_server some_service)) = Closed.
Proof.
  assert (Hn : NoDup (accepted some_service)) by (apply (bool_decide_unpack _); vm_compute; exact I).
  destruct (each_client_alone some_service Hn) as [_ H]. pose proof (f_equal cv_got (H 1)) as H1. pose proof (f_equal cv_phase (H 3)) as H3.
  cbn [cv_got view_of] in H1. split; [rewrite H1; reflexivity|rewrite H3; reflexivity].
Defined.

(** *** The life of a client *)

Inductive client_reaches : ServiceIpcClient -> Prop :=
  | client_new : client_reaches new_client
  | client_connects c opened b c' : client_reaches c -> connect c opened = Some (b, c') -> client_reaches c'
  | client_disconnects c : client_reaches c -> client_reaches (disconnect c)
  | client_listens c w message now : client_reaches c -> client_reaches (fst (listen_turn w c message now)).

Definition client_ok (c : ServiceIpcClient) : Prop :=
  (cl_connected c = true <-> cl_listener c = Listening) /\ (cl_listener c = Listening -> is_Some (cl_pipe c)) /\
  (cl_listener c = NoListener -> cl_pipe c = None).

Lemma listen_turn_client w c message now : cl_listener c = Listening -> cl_connected c = true ->
  fst (listen_turn w c message now) = if bool_decide (read_message message = None) then Client (cl_pipe c) false Returned else c.
Proof. intros Hl Hc. unfold listen_turn. rewrite Hl, Hc. cbn [negb]. by destruct (read_message message). Qed.

Lemma client_reaches_ok c : client_reaches c -> client_ok c.
Proof.
  unfold client_ok. induction 1 as [|c opened b c' _ IH E|c _ IH|c w message now _ IH].
  - by split_and!.
  - unfold connect in E. destruct (cl_connected c) eqn:Ec; [injection E as _ <-; by rewrite Ec|].
    destruct opened as [p|]; [|injection E as _ <-; by rewrite Ec]. destruct (joinable (cl_listener c)); [done|]. injection E as _ <-. cbn.
    split_and!; [done|by exists p|done].
  - unfold disconnect. destruct (cl_connected c) eqn:Ec; [|by rewrite Ec]. by split_and!.
  - destruct IH as (H1 & H2 & H3). destruct (cl_listener c) eqn:El.
    + unfold listen_turn. rewrite El. cbn [fst]. rewrite El. by split_and!.
    + rewrite listen_turn_client by tauto. destruct (bool_decide _); cbn; [by split_and!|]. rewrite El. by split_and!.
    + unfold listen_turn. rewrite El. cbn [fst]. rewrite El. by split_and!.
Qed.

(** once a read of a client's listener has failed, the client can neither be destroyed nor
    connected again: either ends the process, since the thread is never joined, and a
    disconnect in between does nothing.  In every other state the destructor returns and a
    successful connect works. *)
Theorem lost_connection_is_fatal (c : ServiceIpcClient) :
  client_reaches c ->
  (destroy c = None <-> cl_listener c = Returned) /\
  (cl_listener c = Returned -> disconnect c = c /\ (forall pipe, connect c (Some pipe) = None) /\ forall written, ping c written = false) /\
  (cl_listener c <> Returned -> forall pipe, exists c', connect c (Some pipe) = Some (true, c') /\ cl_connected c' = true) /\
  (cl_listener c = Listening -> forall w message now,
     cl_listener (fst (listen_turn w c message now)) = Returned <-> read_message message = None).
Proof.
  intros (H1 & H2 & H3)%client_reaches_ok. unfold destroy, disconnect, connect, ping. destruct (cl_connected c) eqn:Ec.
  - assert (El : cl_listener c = Listening) by tauto. rewrite El. cbn. split_and!; [done|done| |].
    + intros _ pipe. by exists c.
    + intros _ w message now. rewrite listen_turn_client by done. case_bool_decide; cbn; [done|]. rewrite El. done.
  - destruct (cl_listener c) eqn:El; cbn [joinable].
    + split_and!; [done|done| |done]. intros _ pipe. by eexists.
    + by destruct H1 as [_ H1]; specialize (H1 eq_refl).
    + split_and!; [done|done| |done]. intros H. by destruct H.
Qed.

(** The service stops while a window is connected: the window's end takes the process down. *)
Definition abandoned : ServiceIpcClient := fst (listen_turn 32 (Client (Some 5) true Listening) None 0).

Lemma lost_connection_is_fatal_witness : destroy abandoned = None /\ connect abandoned (Some 6) = None.
Proof.
  assert (H : client_reaches abandoned) by (apply client_listens; eapply (client_connects new_client (Some 5)); [apply client_new|reflexivity]).
  destruct (lost_connection_is_fatal abandoned H) as (H1 & H2 & _). split; [by apply H1|by apply H2].
Defined.

(** A tab in a text shifts what follows it: a process name can forge every later field, and a
    tab in the description turns the address into the port and loses that it was quarantined. *)
Lemma tabs_shift_fields :
  let forged := tabbed "a.exe" (tabbed "C:\a" (tabbed "harmless" (tabbed "10.0.0.1" (tabbed "80" (tabbed "1" "1"))))) in
  deserialize_threat 32 (serialize_threat (Event 9 0 CRITICAL RANSOMWARE 7 forged "C:\b" "bad" EmptyString 0 false false)) 5 =
    Wire 9 4 768 7 "a.exe" "C:\a" "harmless" "10.0.0.1" 80 true true 5 /\
  deserialize_threat 32 (serialize_threat (Event 9 0 CRITICAL RANSOMWARE 7 "a.exe" "C:\b" (tabbed "bad" "thing") "10.0.0.1" 80 true true)) 5 =
    Wire 9 4 768 7 "a.exe" "C:\b" "bad" "thing" 10 false true 5.
Proof. by vm_compute. Qed.

(** A field that cannot be read keeps the fields before it and drops those behind it, and a level
    is not one of the five. *)
Lemma fields_before_error :
  deserialize_threat 32 (tabbed "9" (tabbed "300" (tabbed "768" (tabbed "x" (tabbed "a" (tabbed "b" (tabbed "c" (tabbed "d" (tabbed "80" (tabbed "1" "1"))))))))) ) 5 =
    Wire 9 44 768 0 EmptyString EmptyString EmptyString EmptyString 0 false false 5.
Proof. by vm_compute. Qed.

(** Any event whose texts hold no tab arrives whole. *)
Definition plain_event : ThreatEvent := Event 9 0 CRITICAL RANSOMWARE 7 "a.exe" "C:\b" "bad thing" "10.0.0.1" 80 true false.

Lemma threat_crosses_pipe_witness :
  listen_turn 32 (Client (Some 5) true Listening) (Some (serialize_packet THREAT_EVENT (bytes_of_string (serialize_threat plain_event)))) 5 =
  (Client (Some 5) true Listening, Val (Some (wire_of plain_event 5))).
Proof.
  pose proof (threat_crosses_pipe 32 plain_event 5 (Client (Some 5) true Listening) ltac:(lia) ltac:(split_and!; cbn; lia)
    ltac:(split_and!; reflexivity) eq_refl eq_refl) as H. cbv zeta in H. exact H.
Defined.
