(* ===== verification/UiPreferences.v ===== *)
(** * UiPreferences: the preferences file of the window

    Models src/src/ui/ui_preferences.cpp.  The text of a file is what the stream gives after
    newline translation; the file system may refuse any request or stop a write, as in
    FileSystem.v.  Whether the directory of the path could be created is an argument. *)
From S2P Require Import Prelude Observation Text Policy PolicyStore FileSystem.

#[local] Open Scope io_scope.

Record UiPreferences := Preferences { minimize_to_tray : bool; report_format : Z }.

Definition default_preferences : UiPreferences := Preferences true 0.

(** ** Loading *)

Definition parse_bool (value : string) : option bool :=
  if String.eqb value "0" then Some false else if String.eqb value "1" then Some true else None.

(** The characters [std::stoi] has not used: those from the first that is no digit on. *)
Definition unsigned_part (s : string) : string :=
  match s with String.String c s' => if (char_value c =? 45) || (char_value c =? 43) then s' else s | EmptyString => s end.

Fixpoint unused (s : string) : string :=
  match s with
  | String.String c s' => match digit_value c with Some _ => unused s' | None => s end
  | EmptyString => s
  end.

(** [consumed == value.size()] *)
Definition all_consumed (value : string) : bool := empty_string (unused (unsigned_part (skip_space value))).

Definition parse_report_format (value : string) : option Z :=
  match stoi value with
  | Some parsed => if negb (all_consumed value) || (parsed <? 0) || (1 <? parsed) then None else Some parsed
  | None => None
  end.

Definition load_preference (p : UiPreferences) (line : string) : UiPreferences :=
  if is_comment line then p
  else
    match split_eq line with
    | None => p
    | Some (key, value) =>
        if empty_string key then p
        else if String.eqb key "minimize_to_tray" then
          match parse_bool value with Some b => Preferences b (report_format p) | None => p end
        else if String.eqb key "report_format" then
          match parse_report_format value with Some n => Preferences (minimize_to_tray p) n | None => p end
        else p
    end.

(** [None] is a file that does not open. *)
Definition load (file : option string) : UiPreferences :=
  match file with
  | None => default_preferences
  | Some text => foldl load_preference default_preferences (get_lines text)
  end.

(** ** Saving *)

Definition preferences_text (p : UiPreferences) : string :=
  policy_line "minimize_to_tray" (print_int (if minimize_to_tray p then 1 else 0)) +:+
  policy_line "report_format" (print_int (report_format p)).

Definition temporary (path : string) : string := path +:+ ".tmp".

(** [MoveFileEx] and [rename] replace the file in one step.  [out.good()] is asked while both lines are
    still in the buffer of the stream, which is written when the block ends: it cannot be false there. *)
Definition save (parent_ok : bool) (path : string) (p : UiPreferences) : io ErrorCode :=
  if (report_format p <? 0) || (1 <? report_format p) then io_ret ERR_SCAN_IO
  else if negb parent_ok then io_ret ERR_SCAN_IO
  else
    let* _ := remove (temporary path) in
    let* opened := create_file (temporary path) (bytes_of_string (preferences_text p)) in
    if negb opened then io_ret ERR_SCAN_IO
    else
      let* failed := rename (temporary path) path in
      if failed : bool then let* _ := remove (temporary path) in io_ret ERR_SCAN_IO
      else io_ret OK.

(** ** Lemmas *)

Definition preferences_ok (p : UiPreferences) : Prop := 0 <= report_format p <= 1.

Lemma load_preference_ok p line : preferences_ok p -> preferences_ok (load_preference p line).
Proof.
  intros H. unfold load_preference. destruct (is_comment line); [done|]. destruct (split_eq line) as [[key value]|]; [|done].
  destruct (empty_string key); [done|]. destruct (String.eqb key _); [by destruct (parse_bool value)|]. destruct (String.eqb key _); [|done].
  unfold parse_report_format. destruct (stoi value) as [v|]; [|done]. destruct (_ || _) eqn:E; [done|].
  apply orb_false_iff in E as [E H1%Z.ltb_ge]. apply orb_false_iff in E as [_ H0%Z.ltb_ge]. split; [exact H0|exact H1].
Qed.

Lemma load_preferences_ok lines p : preferences_ok p -> preferences_ok (foldl load_preference p lines).
Proof. revert p. induction lines as [|l lines IH]; intros p Hp; [done|]. by apply IH, load_preference_ok. Qed.

Lemma load_line_cons p key value rest :
  has_char newline (key +:+ String.String equals_sign value) = false ->
  foldl load_preference p (get_lines (policy_line key value +:+ rest)) =
  foldl load_preference (load_preference p (key +:+ String.String equals_sign value)) (get_lines rest).
Proof.
  intros Hn. unfold policy_line.
  replace ((key +:+ _) +:+ rest) with ((key +:+ String.String equals_sign value) +:+ String.String newline rest).
  2:{ rewrite <- !string_app_assoc. f_equal. change (String.String equals_sign (value +:+ String.String newline rest) = String.String equals_sign ((value +:+ String.String newline EmptyString) +:+ rest)). by rewrite string_app_cons. }
  by rewrite get_lines_cons.
Qed.

(** What was written is read, whatever stood before. *)
Lemma load_text p q : preferences_ok q -> foldl load_preference p (get_lines (preferences_text q)) = q.
Proof.
  intros Hq. unfold preferences_text. rewrite load_line_cons by (by destruct (minimize_to_tray q)).
  rewrite <- (string_app_nil (policy_line "report_format" _)), load_line_cons.
  - destruct q as [b n]. unfold preferences_ok in Hq. cbn [report_format minimize_to_tray] in *.
    assert (H : n = 0 \/ n = 1) by lia. destruct b, H as [-> | ->], p; vm_compute; reflexivity.
  - rewrite has_char_app. cbn [has_char]. by rewrite has_newline_print.
Qed.

Lemma temporary_other path : temporary path <> path.
Proof. intros H%(f_equal String.length). unfold temporary in H. rewrite string_app_length in H. cbn in H. lia. Qed.

Lemma create_post p l w : post (create_file p l) w (fun ok w' =>
  if ok : bool then exists n, files w' = <[p := Regular (take n l)]> (files w) else files w' = files w).
Proof.
  unfold create_file, write_file. run_request. destruct (files w !! p) as [[c|t|]|]; cbn; try done; destruct r; cbn; try done.
  all: try (exists (length l); by rewrite firstn_all). all: by exists n.
Qed.

(** What [save] leaves, whatever the system replies. *)
Definition save_result (path : string) (q : UiPreferences) (w : world) (e : ErrorCode) (w' : world) : Prop :=
  (forall p, p <> path -> p <> temporary path -> files w' !! p = files w !! p) /\
  (e = ERR_SCAN_IO -> files w' !! path = files w !! path) /\
  (e = OK -> exists n, files w' !! path = Some (Regular (take n (bytes_of_string (preferences_text q))))).

Lemma save_post parent_ok path q w : post (save parent_ok path q) w (fun e w' => (e = OK \/ e = ERR_SCAN_IO) /\ save_result path q w e w').
Proof.
  pose proof (temporary_other path) as Ht. unfold save, save_result. destruct (_ || _); [apply post_ret; split_and!; try done; by right|].
  destruct (negb parent_ok); [apply post_ret; split_and!; try done; by right|].
  apply post_bind. eapply post_mono; [apply remove_post|]. intros ec w1 H1.
  assert (F1 : forall p, p <> temporary path -> files w1 !! p = files w !! p).
  { intros p Hp. destruct ec; rewrite H1; [done|]. by rewrite lookup_delete_ne by (intros E; by apply Hp). }
  apply post_bind. eapply post_mono; [apply create_post|]. intros ok w2 H2. destruct ok; cbn [negb].
  2:{ apply post_ret. rewrite H2. split_and!; [by right|by intros; apply F1|by intros; apply F1|done]. }
  destruct H2 as [n H2]. assert (F2 : forall p, p <> temporary path -> files w2 !! p = files w !! p).
  { intros p Hp. rewrite H2, lookup_insert_ne by (intros E; by apply Hp). by apply F1. }
  apply post_bind. eapply post_mono; [apply rename_post|]. intros failed w3 H3. destruct failed.
  - apply post_bind. eapply post_mono; [apply remove_post|]. intros ec' w4 H4.
    assert (F4 : forall p, p <> temporary path -> files w4 !! p = files w !! p).
    { intros p Hp. destruct ec'; rewrite H4, ?lookup_delete_ne by (intros E; by apply Hp); rewrite H3; by apply F2. }
    apply post_ret. split_and!; [by right|by intros; apply F4|by intros; apply F4|done].
  - destruct H3 as (nd & Hnd & H3). rewrite H2, lookup_insert_eq in Hnd. injection Hnd as <-. apply post_ret. rewrite H3.
    split_and!; [by left| |done|].
    + intros p Hp Hp'. rewrite lookup_insert_ne by (intros E; by apply Hp). rewrite lookup_delete_ne by (intros E; by apply Hp'). by apply F2.
    + intros _. exists n. by rewrite lookup_insert_eq.
Qed.

(** ** Properties *)

(** a save touches only the file and its temporary neighbour, and one that reports an error
    leaves the file as it was; a saved file loads as what was saved on a system that complies,
    and whatever a file holds, what is loaded can be saved again. *)
Theorem preferences_are_kept (parent_ok : bool) (path : string) (q : UiPreferences) (w : world) (file : option string) :
  post (save parent_ok path q) w (fun e w' => (e = OK \/ e = ERR_SCAN_IO) /\ save_result path q w e w') /\
  preferences_ok (load file) /\
  (complies w -> parent_ok = true -> preferences_ok q -> files w !! path <> Some Directory -> files w !! temporary path <> Some Directory ->
   post (save parent_ok path q) w (fun e w' =>
     e = OK /\ exists content, files w' !! path = Some (Regular content) /\ load (Some (string_of_bytes content)) = q)).
Proof.
  split_and!.
  - apply save_post.
  - destruct file as [text|]; [|done]. by apply load_preferences_ok.
  - intros Hw -> Hq Hp Ht. pose proof (temporary_other path) as Hne. unfold save. unfold preferences_ok in Hq.
    rewrite (proj2 (Z.ltb_ge _ _)), (proj2 (Z.ltb_ge _ _)) by lia. cbn [orb negb]. unfold post. rewrite io_bind_eq, remove_works by done.
    rewrite io_bind_eq, create_works by (done || (intros; cbn; by rewrite lookup_delete_eq)). cbn [negb].
    rewrite io_bind_eq. erewrite rename_works; [|done|cbn; by rewrite lookup_insert_eq|].
    2:{ cbn. rewrite lookup_insert_ne, lookup_delete_ne by (intros E; by apply Hne). done. }
    unfold io_ret. split; [done|]. eexists. split; [cbn; by rewrite lookup_insert_eq|]. rewrite string_of_bytes_of_string. by apply load_text.
Qed.

Definition some_world : world := World (<[ "p" := Regular [x00] ]> ∅) [].

Lemma preferences_are_kept_witness :
  post (save true "p" (Preferences false 1)) some_world (fun e w' =>
    e = OK /\ exists content, files w' !! "p"%string = Some (Regular content) /\ load (Some (string_of_bytes content)) = Preferences false 1).
Proof.
  apply (preferences_are_kept true "p" (Preferences false 1) some_world None); [reflexivity|reflexivity|cbv; by split|vm_compute; discriminate|vm_compute; discriminate].
Defined.

(** The stream is asked before its buffer is written: when the disk is full the file is replaced by
    an empty one, and the save is reported as done. *)
Lemma full_disk_loses_preferences :
  let '(e, w') := save true "p" (Preferences false 1) (World (<[ "p" := Regular (bytes_of_string (preferences_text (Preferences false 1))) ]> ∅) [Works; Short 0]) in
  e = OK /\ files w' !! "p"%string = Some (Regular []) /\ load (Some (string_of_bytes [])) = default_preferences.
Proof. by vm_compute. Qed.
