(* ===== verification/ReportGenerator.v ===== *)
(** * ReportGenerator: the reports of what was detected

    Models src/src/report/report_generator.cpp.  In the texts of the page a backquote stands
    for the double quote of the source.  How a time is shown is an argument, [fmt], with the
    text [std::strftime] makes of it. *)
From S2P Require Import Prelude Correlation Observation Text Threat Policy EventLog AlertManager.

(** ** Texts *)

Definition quote : Ascii.ascii := char_of 34.
Definition unquoted (c : Ascii.ascii) : Ascii.ascii := if char_value c =? 96 then quote else c.
Definition q (s : string) : string := string_map unquoted s.

Definition nl : string := String.String newline EmptyString.

(** What is written to the stream, piece by piece. *)
Fixpoint cat (pieces : list string) : string :=
  match pieces with [] => EmptyString | p :: pieces => p +:+ cat pieces end.

(** [<<] of an [uint8_t] writes the character. *)
Definition show_u8 (v : Z) : string := String.String (char_of v) EmptyString.

Definition lt_char : Ascii.ascii := char_of 60.
Definition gt_char : Ascii.ascii := char_of 62.

Definition escape_char (c : Ascii.ascii) : string :=
  if char_value c =? 38 then "&amp;"
  else if char_value c =? 60 then "&lt;"
  else if char_value c =? 62 then "&gt;"
  else if char_value c =? 34 then "&quot;"
  else String.String c EmptyString.

Fixpoint html_escape (s : string) : string :=
  match s with EmptyString => EmptyString | String.String c s => escape_char c +:+ html_escape s end.

Definition level_color (level : ThreatLevel) : string :=
  match level with SAFE => "#39d353" | LOW => "#58a6ff" | MEDIUM => "#d29922" | HIGH => "#f0883e" | CRITICAL => "#f85149" end.

Definition level_label (level : ThreatLevel) : string :=
  match level with SAFE => "SAFE" | LOW => "LOW" | MEDIUM => "MEDIUM" | HIGH => "HIGH" | CRITICAL => "CRITICAL" end.

Record MitreTtpInfo := Ttp { tactic : string; technique_id : string; technique_name : string }.

Definition category_label (cat : ThreatCategory) : string :=
  match cat with
  | NONE => "None"
  | MEMORY_INJECTION => "Memory Injection"
  | PROCESS_HOLLOW => "Process Hollowing"
  | DLL_INJECTION => "DLL Injection"
  | APC_INJECTION => "APC Injection"
  | REFLECTIVE_LOAD => "Reflective Loading"
  | SHELLCODE => "Shellcode"
  | NETWORK_SCAN => "Network Scan"
  | SYN_FLOOD => "SYN Flood"
  | UDP_FLOOD => "UDP Flood"
  | DNS_TUNNEL => "DNS Tunnel"
  | ARP_POISON => "ARP Poisoning"
  | ICMP_COVERT => "ICMP Covert Channel"
  | RAW_SOCKET_PROBE => "Raw Socket Probe"
  | RANSOMWARE => "Ransomware"
  | FILE_ENCRYPT => "File Encryption"
  | REGISTRY_TAMPER => "Registry Tamper"
  | BACKDOOR_ACCOUNT => "Backdoor Account"
  | EVASION_AMSI => "AMSI Evasion"
  | EVASION_ETW => "ETW Evasion"
  | EVASION_UNHOOK => "Unhooking"
  | DIRECT_SYSCALL => "Direct Syscall"
  | PPID_SPOOF => "PPID Spoofing"
  | KERBEROS_ATTACK => "Kerberos Attack"
  | NTLM_COERCE => "NTLM Coerce"
  | CREDENTIAL_DUMP => "Credential Dump"
  | ENTROPY_ANOMALY => "Entropy Anomaly"
  | SUSPICIOUS_BINARY => "Suspicious Binary"
  | FILELESS_EXEC => "Fileless Execution"
  | ANTI_FORENSIC => "Anti-Forensic"
  | DGA_DOMAIN => "DGA Domain"
  | FILE_INTEGRITY_VIOLATION => "File Integrity Violation"
  | YARA_RULE_MATCH => "YARA Rule Match"
  | KERNEL_ATTACK => "Kernel / BYOVD Attack"
  | LOLBIN_EXECUTION => "LOLBin Execution"
  | MALWARE_PACKER => "Malware Packer / Crypter"
  | PERSISTENCE_HIJACK => "Persistence / COM Hijacking"
  | _ => "Unknown"
  end.

Definition mitre_ttp_for_category (cat : ThreatCategory) : MitreTtpInfo :=
  match cat with
  | MEMORY_INJECTION => Ttp "Defense Evasion" "T1055" "Process Injection"
  | PROCESS_HOLLOW => Ttp "Defense Evasion" "T1055.012" "Process Hollowing"
  | DLL_INJECTION => Ttp "Defense Evasion" "T1055.001" "Dynamic-link Library Injection"
  | APC_INJECTION => Ttp "Defense Evasion" "T1055.004" "Asynchronous Procedure Call"
  | REFLECTIVE_LOAD => Ttp "Defense Evasion" "T1620" "Reflective Code Loading"
  | SHELLCODE => Ttp "Execution" "T1059" "Command and Scripting Interpreter"
  | NETWORK_SCAN => Ttp "Discovery" "T1046" "Network Service Discovery"
  | SYN_FLOOD => Ttp "Impact" "T1498.001" "Direct Network Flood (SYN)"
  | UDP_FLOOD => Ttp "Impact" "T1498.001" "Direct Network Flood (UDP)"
  | DNS_TUNNEL => Ttp "Command and Control" "T1071.004" "DNS Communication"
  | ARP_POISON => Ttp "Credential Access" "T1557.002" "ARP Spoofing"
  | ICMP_COVERT => Ttp "Command and Control" "T1095" "Non-Application Layer Protocol"
  | RAW_SOCKET_PROBE => Ttp "Discovery" "T1046" "Raw Socket Network Discovery"
  | RANSOMWARE | FILE_ENCRYPT => Ttp "Impact" "T1486" "Data Encrypted for Impact"
  | REGISTRY_TAMPER => Ttp "Defense Evasion" "T1112" "Modify Registry"
  | BACKDOOR_ACCOUNT => Ttp "Persistence" "T1136" "Create Account"
  | EVASION_AMSI => Ttp "Defense Evasion" "T1562.001" "Disable or Modify Tools: AMSI"
  | EVASION_ETW => Ttp "Defense Evasion" "T1562.006" "Indicator Blocking: ETW Bypass"
  | EVASION_UNHOOK => Ttp "Defense Evasion" "T1562.001" "Unhooking Native APIs"
  | DIRECT_SYSCALL => Ttp "Defense Evasion" "T1106" "Native API Direct Syscall"
  | PPID_SPOOF => Ttp "Defense Evasion" "T1134.004" "Parent PID Spoofing"
  | KERBEROS_ATTACK => Ttp "Credential Access" "T1558" "Steal or Forge Kerberos Tickets"
  | NTLM_COERCE => Ttp "Credential Access" "T1187" "Forced Authentication"
  | CREDENTIAL_DUMP => Ttp "Credential Access" "T1003.001" "LSASS Memory Dump"
  | ENTROPY_ANOMALY => Ttp "Defense Evasion" "T1027.002" "Software Packing (High Entropy)"
  | SUSPICIOUS_BINARY => Ttp "Execution" "T1204" "User Execution: Malicious File"
  | FILELESS_EXEC => Ttp "Execution" "T1059.001" "PowerShell Fileless Execution"
  | ANTI_FORENSIC => Ttp "Defense Evasion" "T1070" "Indicator Removal"
  | DGA_DOMAIN => Ttp "Command and Control" "T1568.002" "Domain Generation Algorithms"
  | FILE_INTEGRITY_VIOLATION => Ttp "Impact" "T1565.001" "Stored Data Manipulation"
  | YARA_RULE_MATCH => Ttp "Execution" "T1204.002" "Malicious File Signature Match"
  | KERNEL_ATTACK => Ttp "Privilege Escalation" "T1068" "Exploitation for Privilege Escalation (BYOVD)"
  | LOLBIN_EXECUTION => Ttp "Execution" "T1218" "System Binary Proxy Execution (LOLBins)"
  | MALWARE_PACKER => Ttp "Defense Evasion" "T1027.002" "Software Packing / Crypter"
  | PERSISTENCE_HIJACK => Ttp "Persistence" "T1546.015" "Component Object Model Hijacking"
  | _ => Ttp "General" "T1000" "Unclassified Anomaly"
  end.

(** ** What a report holds *)

Record EngineInfo := Engine { en_name : string; en_running : bool; en_events_processed : Z; en_threats_detected : Z }.

(** The histogram of severities has five entries. *)
Record ReportData := Report {
  generated_at : string;
  gcad_version : string;
  uptime_seconds : Z;
  rd_engines : list EngineInfo;
  total_events : Z;
  rd_total_threats : Z;
  rd_severity : list Z;
  rd_categories : list (ThreatCategory * Z);
  rd_recent_events : list ThreatEvent;
  rd_findings : list SecurityFinding;
  total_alerts : Z;
  unacknowledged_alerts : Z;
}.

Definition VERSION : string := "1.0.0".

(** Each query of the engine manager takes its lock by itself: [log i] is the event log as the
    [i]th of them finds it; [now] is the time as text. *)
Definition collect (sort : list (ThreatCategory * Z) -> list (ThreatCategory * Z)) (now : string) (statuses : list EngineInfo)
    (log : nat -> list ThreatEvent) (pipeline : option CorrelationEngine) (am : option AlertManager) (uptime : Z) : ReportData :=
  Report now VERSION uptime statuses
    (foldl (fun sum s => u64 (sum + en_events_processed s)) 0 statuses)
    (total_threats (log 0%nat)) (severity_histogram (log 1%nat)) (category_histogram sort (log 2%nat))
    (recent_events (log 3%nat) 100) (match pipeline with Some p => Correlation.recent p 50 | None => [] end)
    (match am with Some am => total_count am | None => 0 end)
    (match am with Some am => unacknowledged_count am | None => 0 end).

Definition running_engines (d : ReportData) : Z := Z.of_nat (length (filter (fun e => en_running e = true) (rd_engines d))).

(** [static_cast<int>] *)
Definition as_i32 (z : Z) : Z := let v := u32 z in if v <? 2 ^ 31 then v else v - 2 ^ 32.

Definition max_severity (h : list Z) : Z := foldl Z.max 1 h.

Definition bar_percent (h : list Z) (v : Z) : Z := Z.max (as_i32 (u64 (v * 100) / max_severity h)) 1.

(** ** The page *)

Section html.
Variable fmt : Z -> string.

Definition page_head : list string :=
  ["<!DOCTYPE html>";
   "<html lang=`en`>";
   "<head>";
   "<meta charset=`utf-8`>";
   "<title>GCAD Security Report</title>";
   "<style>";
   "*{margin:0;padding:0;box-sizing:border-box}";
   "body{background:#0d1117;color:#e6edf3;font-family:'Segoe UI',system-ui,sans-serif;padding:24px;max-width:1000px;margin:auto}";
   "h1{font-size:24px;margin-bottom:4px}";
   "h2{font-size:18px;color:#58a6ff;margin:24px 0 12px;border-bottom:1px solid #30363d;padding-bottom:6px}";
   ".subtitle{color:#8b949e;margin-bottom:20px}";
   ".summary{display:grid;grid-template-columns:repeat(auto-fit,minmax(180px,1fr));gap:12px;margin-bottom:24px}";
   ".card{background:#161b22;border:1px solid #30363d;border-radius:8px;padding:16px}";
   ".card .label{color:#8b949e;font-size:13px}";
   ".card .value{font-size:28px;font-weight:600;margin-top:4px}";
   "table{width:100%;border-collapse:collapse;margin-bottom:16px}";
   "th{text-align:left;color:#8b949e;font-size:13px;padding:8px;border-bottom:1px solid #30363d}";
   "td{padding:8px;border-bottom:1px solid #21262d;font-size:14px}";
   "tr:hover{background:#161b22}";
   ".level{font-weight:600;font-size:12px;padding:2px 8px;border-radius:3px}";
   ".bar-row{display:flex;align-items:center;gap:8px;margin:4px 0}";
   ".bar-label{width:70px;color:#8b949e;font-size:13px}";
   ".bar{height:16px;border-radius:3px}";
   ".bar-value{color:#8b949e;font-size:13px}";
   ".safe{color:#39d353} .low{color:#58a6ff} .medium{color:#d29922} .high{color:#f0883e} .critical{color:#f85149}";
   ".footer{margin-top:32px;color:#484f58;font-size:12px;text-align:center;border-top:1px solid #21262d;padding-top:12px}";
   "</style>";
   "</head>";
   "<body>";
   "<h1>GCAD Security Report</h1>";
   "<p class=`subtitle`>Generated: "]%string.

(** The raw text of the source has its lines from the first to the one that goes on with the time. *)
Fixpoint joined (lines : list string) : string :=
  match lines with [] => EmptyString | [l] => l | l :: rest => l +:+ nl +:+ joined rest end.

Definition card (label value : string) : string :=
  cat [q "<div class=`card`><div class=`label`>"; label; q "</div><div class=`value`>"; value; "</div></div>"; nl].

Definition summary (d : ReportData) : string :=
  let uptime_min := Z.quot (uptime_seconds d) 60 in
  let uptime_hr := Z.quot uptime_min 60 in
  cat [q "<div class=`summary`>"; nl;
       card "Engines Online" (cat [print_int (running_engines d); " / "; print_int (Z.of_nat (length (rd_engines d)))]);
       card "Total Events" (print_int (total_events d));
       card "Threats Detected" (print_int (rd_total_threats d));
       card "Uptime" (cat [print_int uptime_hr; "h "; print_int (Z.rem uptime_min 60); "m"]);
       (if 0 <? total_alerts d then card "Alerts" (cat [print_int (total_alerts d); " ("; print_int (unacknowledged_alerts d); " unread)"]) else EmptyString);
       "</div>"; nl].

Definition engine_row (e : EngineInfo) : string :=
  cat ["<tr><td>"; html_escape (en_name e); q "</td><td class=`"; (if en_running e then "safe" else "critical"); q "`>";
       (if en_running e then "ACTIVE" else "STOPPED"); "</td><td>"; print_int (en_events_processed e); "</td><td>";
       print_int (en_threats_detected e); "</td></tr>"; nl].

Definition engine_table (d : ReportData) : string :=
  cat ["<h2>Engine Status</h2>"; nl; "<table><tr><th>Engine</th><th>Status</th>"; "<th>Events</th><th>Threats</th></tr>"; nl;
       cat (engine_row <$> rd_engines d); "</table>"; nl].

Definition all_levels : list ThreatLevel := [SAFE; LOW; MEDIUM; HIGH; CRITICAL].

Definition severity_bar (h : list Z) (x : ThreatLevel * Z) : string :=
  cat [q "<div class=`bar-row`><span class=`bar-label`>"; level_label (fst x); q "</span><div class=`bar` style=`width:";
       print_int (bar_percent h (snd x)); "%;background:"; level_color (fst x); q "`></div><span class=`bar-value`>"; print_int (snd x); "</span></div>"; nl].

Definition severity_bars (d : ReportData) : string :=
  cat ["<h2>Severity Distribution</h2>"; nl; cat (severity_bar (rd_severity d) <$> zip all_levels (rd_severity d))].

Definition category_row (x : ThreatCategory * Z) : string :=
  cat ["<tr><td>"; category_label (fst x); "</td><td>"; print_int (snd x); "</td></tr>"; nl].

Definition category_table (d : ReportData) : string :=
  match rd_categories d with
  | [] => EmptyString
  | categories =>
      cat ["<h2>Threat Categories</h2>"; nl; "<table><tr><th>Category</th><th>Count</th></tr>"; nl; cat (category_row <$> categories); "</table>"; nl]
  end.

Definition level_span (level : ThreatLevel) : string :=
  cat [q "<span class=`level` style=`color:"; level_color level; q "`>"; level_label level; "</span></td>"].

Definition event_row (ev : ThreatEvent) : string :=
  cat ["<tr><td>"; fmt (ev_timestamp ev); "</td>"; "<td>"; level_span (ev_level ev); "<td>"; category_label (ev_category ev); "</td>";
       "<td>"; html_escape (ev_description ev); "</td></tr>"; nl].

Definition event_table (d : ReportData) : string :=
  match rd_recent_events d with
  | [] => EmptyString
  | events =>
      cat ["<h2>Detection Timeline (last "; print_int (Z.of_nat (length events)); ")</h2>"; nl;
           "<table><tr><th>Time</th><th>Level</th><th>Category</th><th>Description</th></tr>"; nl;
           cat (event_row <$> rev events); "</table>"; nl]
  end.

Definition finding_row (f : SecurityFinding) : string :=
  cat ["<tr><td>"; level_span (f_level f); "<td>"; show_u8 (f_risk_score f); "</td>"; "<td>"; html_escape (f_rationale f); "</td></tr>"; nl].

Definition finding_table (d : ReportData) : string :=
  match rd_findings d with
  | [] => EmptyString
  | findings =>
      cat ["<h2>Security Findings ("; print_int (Z.of_nat (length findings)); ")</h2>"; nl;
           "<table><tr><th>Level</th><th>Risk</th><th>Rationale</th></tr>"; nl; cat (finding_row <$> rev findings); "</table>"; nl]
  end.

Definition mitre_row (x : ThreatCategory * Z) : string :=
  let ttp := mitre_ttp_for_category (fst x) in
  cat [q "<tr><td><span class=`badge` style=`background:#21262d;color:#58a6ff;padding:2px 6px;border-radius:4px;`>";
       html_escape (tactic ttp); "</span></td>"; "<td><strong>"; html_escape (technique_id ttp); "</strong></td>"; "<td>";
       html_escape (technique_name ttp); "</td>"; "<td>"; html_escape (category_label (fst x)); "</td>"; "<td>"; print_int (snd x); "</td></tr>"; nl].

Definition mitre_table (d : ReportData) : string :=
  cat ["<h2>MITRE ATT&amp;CK&reg; Enterprise Matrix Mapping</h2>"; nl;
       "<table><tr><th>Tactic</th><th>Technique ID</th><th>Technique Name</th><th>GCAD Category</th><th>Detections</th></tr>"; nl;
       (match rd_categories d with
        | [] => cat [q "<tr><td colspan=`5` style=`color:#8b949e;text-align:center;`>No active threats detected in this session.</td></tr>"; nl]
        | categories => cat (mitre_row <$> categories)
        end); "</table>"; nl].

Definition generate_html (d : ReportData) : string :=
  cat [joined (q <$> page_head); html_escape (generated_at d); " &mdash; GCAD v"; html_escape (gcad_version d); "</p>"; nl;
       summary d; engine_table d; severity_bars d; category_table d; event_table d; finding_table d; mitre_table d;
       q "<div class=`footer`>GCAD v"; html_escape (gcad_version d); " &mdash; Galoisconnection Antivirus &amp; Defense &mdash; ";
       html_escape (generated_at d); "</div>"; nl; "</body>"; nl; "</html>"; nl].

(** ** The text *)

Definition engine_line (e : EngineInfo) : string :=
  cat ["  "; en_name e; ": "; (if en_running e then "ACTIVE" else "STOPPED"); "  events="; print_int (en_events_processed e);
       " threats="; print_int (en_threats_detected e); nl].

Definition category_line (x : ThreatCategory * Z) : string := cat ["  "; category_label (fst x); ": "; print_int (snd x); nl].

Definition mitre_line (x : ThreatCategory * Z) : string :=
  let ttp := mitre_ttp_for_category (fst x) in
  cat ["  ["; technique_id ttp; "] "; tactic ttp; " - "; technique_name ttp; " ("; category_label (fst x); "): "; print_int (snd x); " detections"; nl].

Definition event_line (ev : ThreatEvent) : string :=
  cat ["  ["; level_label (ev_level ev); "] "; fmt (ev_timestamp ev); " "; ev_description ev; nl].

Definition finding_line (f : SecurityFinding) : string :=
  cat ["  ["; level_label (f_level f); " risk:"; show_u8 (f_risk_score f); "] "; f_rationale f; nl].

Definition generate_text (d : ReportData) : string :=
  cat ["GCAD Security Report"; nl; "===================="; nl; "Generated: "; generated_at d; nl; "Version:   "; gcad_version d; nl;
       (if 0 <? uptime_seconds d then
          cat ["Uptime:    "; print_int (Z.quot (uptime_seconds d) 3600); "h "; print_int (Z.rem (Z.quot (uptime_seconds d) 60) 60); "m"; nl]
        else EmptyString); nl;
       "SUMMARY"; nl; "  Engines:  "; print_int (running_engines d); " / "; print_int (Z.of_nat (length (rd_engines d))); nl;
       "  Events:   "; print_int (total_events d); nl; "  Threats:  "; print_int (rd_total_threats d); nl;
       (if 0 <? total_alerts d then cat ["  Alerts:   "; print_int (total_alerts d); " ("; print_int (unacknowledged_alerts d); " unread)"; nl] else EmptyString); nl;
       "ENGINE STATUS"; nl; cat (engine_line <$> rd_engines d); nl;
       "SEVERITY DISTRIBUTION"; nl; cat ((fun x => cat ["  "; level_label (fst x); ": "; print_int (snd x); nl]) <$> zip all_levels (rd_severity d)); nl;
       (match rd_categories d with
        | [] => EmptyString
        | categories => cat ["THREAT CATEGORIES"; nl; cat (category_line <$> categories); nl; "MITRE ATT&CK MAPPING"; nl; cat (mitre_line <$> categories); nl]
        end);
       (match rd_recent_events d with
        | [] => EmptyString
        | events => cat ["DETECTION TIMELINE (last "; print_int (Z.of_nat (length events)); ")"; nl; cat (event_line <$> rev events); nl]
        end);
       (match rd_findings d with
        | [] => EmptyString
        | findings => cat ["SECURITY FINDINGS ("; print_int (Z.of_nat (length findings)); ")"; nl; cat (finding_line <$> rev findings); nl]
        end); "--- End of GCAD Report ---"; nl].

End html.

(** [save_to_file]: whether the stream opens, and whether it is still good behind the writing. *)
Definition save_to_file (opens good : bool) : bool := if negb opens then false else good.

(** ** Markup *)

(** What of a page lies between angle brackets, and whether its end does. *)
Fixpoint markup (inside : bool) (s : string) : string :=
  match s with
  | EmptyString => EmptyString
  | String.String c s =>
      if inside then String.String c (markup (negb (char_value c =? 62)) s)
      else if char_value c =? 60 then String.String c (markup true s)
      else markup false s
  end.

Fixpoint ends_inside (inside : bool) (s : string) : bool :=
  match s with
  | EmptyString => inside
  | String.String c s => ends_inside (if inside then negb (char_value c =? 62) else char_value c =? 60) s
  end.

Lemma markup_app b s t : markup b (s +:+ t) = markup b s +:+ markup (ends_inside b s) t.
Proof.
  revert b. induction s as [|c s IH]; intros b; [done|]. change (String.String c s +:+ t) with (String.String c (s +:+ t)).
  cbn [markup ends_inside]. destruct b; [by rewrite IH|]. destruct (char_value c =? 60); by rewrite IH.
Qed.

Lemma ends_inside_app b s t : ends_inside b (s +:+ t) = ends_inside (ends_inside b s) t.
Proof. revert b. induction s as [|c s IH]; intros b; [done|]. exact (IH _). Qed.

(** Two pieces that put the same markup on a page, from the state [b] to the state [b']. *)
Definition same_markup (b b' : bool) (s t : string) : Prop :=
  markup b s = markup b t /\ ends_inside b s = b' /\ ends_inside b t = b'.

Lemma same_cat_nil b : same_markup b b (cat []) (cat []).
Proof. by split_and!. Qed.

Lemma same_app b b' b'' s t s' t' : same_markup b b' s s' -> same_markup b' b'' t t' -> same_markup b b'' (s +:+ t) (s' +:+ t').
Proof.
  intros (H1 & H2 & H3) (H4 & H5 & H6). unfold same_markup. rewrite !markup_app, !ends_inside_app, H1, H2, H3, H4. by rewrite H5, H6.
Qed.

Lemma same_cat_cons b b' b'' s t l k : same_markup b b' s t -> same_markup b' b'' (cat l) (cat k) -> same_markup b b'' (cat (s :: l)) (cat (t :: k)).
Proof. apply same_app. Qed.

(** A piece of the text itself. *)
Lemma same_piece b s : same_markup b (ends_inside b s) s s.
Proof. by split_and!. Qed.

(** Text without brackets, in either state. *)
Lemma markup_plain s : has_char lt_char s = false -> markup false s = EmptyString /\ ends_inside false s = false.
Proof.
  induction s as [|c s IH]; intros H; [done|]. cbn [has_char] in H. apply orb_false_iff in H as [Hc H]. cbn [markup ends_inside].
  destruct (Z.eqb_spec (char_value c) 60) as [E|_]; [|by apply IH]. apply bool_decide_eq_false in Hc. destruct Hc. by apply char_value_inj.
Qed.

Lemma stays_inside s : has_char gt_char s = false -> ends_inside true s = true.
Proof.
  induction s as [|c s IH]; intros H; [done|]. cbn [has_char] in H. apply orb_false_iff in H as [Hc H]. cbn [ends_inside].
  destruct (Z.eqb_spec (char_value c) 62) as [E|_]; [|by apply IH]. apply bool_decide_eq_false in Hc. destruct Hc. by apply char_value_inj.
Qed.

Lemma same_text s t : has_char lt_char s = false -> has_char lt_char t = false -> same_markup false false s t.
Proof. intros [H1 H2]%markup_plain [H3 H4]%markup_plain. split_and!; congruence. Qed.

Lemma same_number b z : same_markup b b (print_int z) (print_int z).
Proof.
  split_and!; [done| |]; destruct b; (apply stays_inside || apply markup_plain); by apply print_int_plain.
Qed.

Lemma escape_plain s : has_char lt_char (html_escape s) = false.
Proof.
  induction s as [|c s IH]; [done|]. cbn [html_escape]. rewrite has_char_app, IH, orb_false_r. unfold escape_char.
  destruct (_ =? 38); [done|]. destruct (Z.eqb_spec (char_value c) 60) as [|H]; [done|]. destruct (_ =? 62); [done|]. destruct (_ =? 34); [done|].
  cbn [has_char]. rewrite orb_false_r. apply bool_decide_eq_false. by intros ->.
Qed.

Lemma same_escaped s t : same_markup false false (html_escape s) (html_escape t).
Proof. apply same_text; apply escape_plain. Qed.

Lemma same_map {A} (row : A -> string) (blank : A -> A) (l : list A) :
  (forall x, x ∈ l -> same_markup false false (row x) (row (blank x))) ->
  same_markup false false (cat (row <$> l)) (cat (row <$> (blank <$> l))).
Proof.
  induction l as [|x l IH]; intros H; [apply same_cat_nil|]. cbn [fmap list_fmap]. eapply same_cat_cons; [apply H; by left|].
  apply IH. intros y Hy. apply H. by right.
Qed.

(** ** A page without its texts *)

Definition blank_engine (e : EngineInfo) : EngineInfo := Engine EmptyString (en_running e) (en_events_processed e) (en_threats_detected e).

Definition blank_event (ev : ThreatEvent) : ThreatEvent :=
  Event (ev_id ev) 0 (ev_level ev) (ev_category ev) (ev_process_id ev) EmptyString EmptyString EmptyString EmptyString
    (ev_source_port ev) (ev_quarantined ev) (ev_rolled_back ev).

Definition blank_finding (f : SecurityFinding) : SecurityFinding :=
  Finding (f_id f) 0 (f_level f) (f_risk_score f) (f_deterministic_signature f) EmptyString EmptyString EmptyString EmptyString [] [].

Definition blank (d : ReportData) : ReportData :=
  Report EmptyString EmptyString (uptime_seconds d) (blank_engine <$> rd_engines d) (total_events d) (rd_total_threats d) (rd_severity d)
    (rd_categories d) (blank_event <$> rd_recent_events d) (blank_finding <$> rd_findings d) (total_alerts d) (unacknowledged_alerts d).

(** A piece that both pages share, whose end is known by running over it. *)
Ltac piece :=
  first
    [ apply same_number | apply same_escaped
    | lazymatch goal with |- same_markup ?b _ (String.String _ _) _ => eapply (same_piece b) end
    | lazymatch goal with |- same_markup ?b _ (q _) _ => eapply (same_piece b) end
    | lazymatch goal with |- same_markup ?b _ nl _ => eapply (same_piece b) end ].

Ltac pieces := repeat first [apply same_cat_nil | eapply same_cat_cons; [piece|]].

Section html.
Variable fmt : Z -> string.
Hypothesis fmt_plain : forall t, has_char lt_char (fmt t) = false.

Lemma same_label b l : same_markup b b (level_label l) (level_label l).
Proof. split_and!; destruct b, l; reflexivity. Qed.

Lemma same_color l : same_markup true true (level_color l) (level_color l).
Proof. split_and!; destruct l; reflexivity. Qed.

Lemma same_category c : same_markup false false (category_label c) (category_label c).
Proof. split_and!; destruct c; reflexivity. Qed.

Lemma same_level l : same_markup false false (level_span l) (level_span l).
Proof. split_and!; destruct l; reflexivity. Qed.

Lemma same_risk v : 0 <= v < 256 -> v <> 60 -> same_markup false false (show_u8 v) (show_u8 v).
Proof.
  intros Hv H. assert (E : ends_inside false (show_u8 v) = false); [|by split_and!]. unfold show_u8. cbn [ends_inside].
  destruct (Z.eqb_spec (char_value (char_of v)) 60) as [E|]; [|done]. destruct H. rewrite <- E. unfold char_value, char_of.
  rewrite Ascii.N_ascii_embedding by lia. lia.
Qed.
End html.

(** *** Row by row *)

Section rows.
Variable fmt : Z -> string.
Hypothesis fmt_plain : forall t, has_char lt_char (fmt t) = false.

Ltac row := unfold engine_row, severity_bar, category_row, event_row, finding_row, mitre_row, card; cbn [en_name en_running en_events_processed en_threats_detected fst snd];
  repeat first [apply same_cat_nil | eapply same_cat_cons; [first [piece | apply same_category | apply same_level | apply same_label | apply same_color]|]].

Lemma same_engine_row e : same_markup false false (engine_row e) (engine_row (blank_engine e)).
Proof. destruct e as [n [] ev th]; unfold blank_engine; row. Qed.

Lemma same_severity_bar h x : same_markup false false (severity_bar h x) (severity_bar h x).
Proof. destruct x as [l v]. row. Qed.

Lemma same_category_row x : same_markup false false (category_row x) (category_row x).
Proof. destruct x as [c n]. row. Qed.

Lemma same_mitre_row x : same_markup false false (mitre_row x) (mitre_row x).
Proof. destruct x as [c n]. row. Qed.

Lemma same_event_row ev : same_markup false false (event_row fmt ev) (event_row fmt (blank_event ev)).
Proof.
  unfold event_row. cbn [blank_event ev_timestamp ev_level ev_category ev_description].
  repeat first [apply same_cat_nil | eapply same_cat_cons; [first [piece | apply same_category | apply same_level | by apply same_text]|]].
Qed.

Lemma same_finding_row f : 0 <= f_risk_score f < 256 -> f_risk_score f <> 60 -> same_markup false false (finding_row f) (finding_row (blank_finding f)).
Proof.
  intros H H60. unfold finding_row. cbn [blank_finding f_level f_risk_score f_rationale].
  repeat first [apply same_cat_nil | eapply same_cat_cons; [first [piece | apply same_level | by apply same_risk]|]].
Qed.

Lemma same_rows {A} (row : A -> string) l : (forall x, same_markup false false (row x) (row x)) ->
  same_markup false false (cat (row <$> l)) (cat (row <$> l)).
Proof. intros H. pose proof (same_map row id l (fun x _ => H x)) as E. by rewrite list_fmap_id in E. Qed.

Lemma same_card label v w : same_markup false false label label -> same_markup false false v w -> same_markup false false (card label v) (card label w).
Proof.
  intros Hl Hv. unfold card. repeat first [apply same_cat_nil | eapply same_cat_cons; [first [exact Hl | exact Hv | piece]|]].
Qed.

Lemma blank_running d : running_engines (blank d) = running_engines d.
Proof.
  unfold running_engines. cbn [blank rd_engines]. f_equal. induction (rd_engines d) as [|e l IH]; [done|]. cbn [fmap list_fmap].
  destruct (en_running e) eqn:E.
  - rewrite !filter_cons_True by done. cbn [length]. by rewrite IH.
  - rewrite !filter_cons_False by (cbn; by rewrite E). done.
Qed.

Lemma same_summary d : same_markup false false (summary d) (summary (blank d)).
Proof.
  unfold summary. rewrite blank_running. cbn [blank rd_engines uptime_seconds total_events rd_total_threats total_alerts unacknowledged_alerts].
  rewrite length_fmap. cbv zeta.
  assert (Hc : forall l v, has_char lt_char l = false -> same_markup false false v v -> same_markup false false (card l v) (card l v))
    by (intros l v Hl Hv; apply same_card; [by apply same_text|done]).
  do 2 (eapply same_cat_cons; [piece|]).
  do 4 (eapply same_cat_cons; [apply Hc; [reflexivity|first [apply same_number | solve [pieces]]]|]).
  eapply (same_cat_cons _ false); [|solve [pieces]]. destruct (0 <? total_alerts d); [apply Hc; [reflexivity|solve [pieces]]|by split_and!].
Qed.

Lemma rev_fmap {A B} (f : A -> B) l : rev (f <$> l) = f <$> rev l.
Proof. induction l as [|x l IH]; [done|]. cbn. by rewrite IH, fmap_app. Qed.

Lemma same_tables d : Forall (fun f => 0 <= f_risk_score f < 256 /\ f_risk_score f <> 60) (rd_findings d) ->
  same_markup false false (engine_table d) (engine_table (blank d)) /\ same_markup false false (severity_bars d) (severity_bars (blank d)) /\
  same_markup false false (category_table d) (category_table (blank d)) /\ same_markup false false (event_table fmt d) (event_table fmt (blank d)) /\
  same_markup false false (finding_table d) (finding_table (blank d)) /\ same_markup false false (mitre_table d) (mitre_table (blank d)).
Proof.
  intros Hf. unfold engine_table, severity_bars, category_table, event_table, finding_table, mitre_table.
  cbn [blank rd_engines rd_severity rd_categories rd_recent_events rd_findings]. split_and!.
  - do 5 (eapply same_cat_cons; [piece|]). eapply same_cat_cons; [apply same_map; intros e _; apply same_engine_row|pieces].
  - do 2 (eapply same_cat_cons; [piece|]). eapply same_cat_cons; [apply same_rows, same_severity_bar|apply same_cat_nil].
  - destruct (rd_categories d) as [|x l]; [by split_and!|]. do 4 (eapply same_cat_cons; [piece|]). eapply same_cat_cons; [apply same_rows, same_category_row|pieces].
  - destruct (rd_recent_events d) as [|ev l]; [by split_and!|]. change (blank_event <$> ev :: l) with (blank_event ev :: (blank_event <$> l)).
    cbn [length]. rewrite length_fmap. do 6 (eapply same_cat_cons; [piece|]).
    change (blank_event ev :: (blank_event <$> l)) with (blank_event <$> ev :: l). rewrite rev_fmap.
    eapply same_cat_cons; [apply same_map; intros e _; apply same_event_row|pieces].
  - destruct (rd_findings d) as [|f l] eqn:E; [by split_and!|]. change (blank_finding <$> f :: l) with (blank_finding f :: (blank_finding <$> l)).
    cbn [length]. rewrite length_fmap. do 6 (eapply same_cat_cons; [piece|]).
    change (blank_finding f :: (blank_finding <$> l)) with (blank_finding <$> f :: l). rewrite rev_fmap.
    eapply same_cat_cons; [apply same_map; intros g Hg|pieces]. rewrite Forall_forall in Hf.
    destruct (Hf g) as [H1 H2]; [by apply list_elem_of_In, in_rev, list_elem_of_In|]. by apply same_finding_row.
  - do 4 (eapply same_cat_cons; [piece|]). eapply (same_cat_cons _ false); [|solve [pieces]]. destruct (rd_categories d) as [|x l]; [solve [pieces]|]. apply same_rows, same_mitre_row.
Qed.

Lemma same_head : same_markup false false (joined (q <$> page_head)) (joined (q <$> page_head)).
Proof. split_and!; [reflexivity|vm_compute; reflexivity|vm_compute; reflexivity]. Qed.

Lemma same_page d : Forall (fun f => 0 <= f_risk_score f < 256 /\ f_risk_score f <> 60) (rd_findings d) ->
  same_markup false false (generate_html fmt d) (generate_html fmt (blank d)).
Proof.
  intros Hf. destruct (same_tables d Hf) as (H1 & H2 & H3 & H4 & H5 & H6). unfold generate_html. cbn [blank generated_at gcad_version].
  eapply same_cat_cons; [apply same_head|]. do 5 (eapply same_cat_cons; [piece|]). eapply same_cat_cons; [apply same_summary|].
  eapply same_cat_cons; [exact H1|]. eapply same_cat_cons; [exact H2|]. eapply same_cat_cons; [exact H3|]. eapply same_cat_cons; [exact H4|].
  eapply same_cat_cons; [exact H5|]. eapply same_cat_cons; [exact H6|]. solve [pieces].
Qed.
End rows.

(** ** Reading back an escaped text *)

Fixpoint unescape_go (fuel : nat) (s : string) : string :=
  match fuel, s with
  | O, _ | _, EmptyString => EmptyString
  | S fuel, String.String c s' =>
      if char_value c =? 38 then
        if String.prefix "&amp;" s then String.String c (unescape_go fuel (str_drop 5 s))
        else if String.prefix "&lt;" s then String.String lt_char (unescape_go fuel (str_drop 4 s))
        else if String.prefix "&gt;" s then String.String gt_char (unescape_go fuel (str_drop 4 s))
        else if String.prefix "&quot;" s then String.String quote (unescape_go fuel (str_drop 6 s))
        else String.String c (unescape_go fuel s')
      else String.String c (unescape_go fuel s')
  end.

(** What a browser shows of a text. *)
Definition unescape (s : string) : string := unescape_go (String.length s) s.

Lemma prefix_app_self p s : String.prefix p (p +:+ s) = true.
Proof. apply prefix_spec. by exists s. Qed.

Lemma unescape_char c s fuel : unescape_go (S fuel) (escape_char c +:+ s) = String.String c (unescape_go fuel s).
Proof.
  assert (Hc : forall z, char_value c = z -> c = char_of z) by (intros z <-; destruct c as [[] [] [] [] [] [] [] []]; reflexivity).
  assert (Hs : forall e, e = String.String (char_of 38) (str_drop 1 e) -> unescape_go (S fuel) (e +:+ s) =
    let t := e +:+ s in
    if String.prefix "&amp;" t then String.String (char_of 38) (unescape_go fuel (str_drop 5 t))
    else if String.prefix "&lt;" t then String.String lt_char (unescape_go fuel (str_drop 4 t))
    else if String.prefix "&gt;" t then String.String gt_char (unescape_go fuel (str_drop 4 t))
    else if String.prefix "&quot;" t then String.String quote (unescape_go fuel (str_drop 6 t))
    else String.String (char_of 38) (unescape_go fuel (str_drop 1 t))) by (intros e He; rewrite He; reflexivity).
  unfold escape_char. destruct (Z.eqb_spec (char_value c) 38) as [E|E1].
  { rewrite (Hc _ E), Hs by reflexivity. cbv zeta. by rewrite prefix_app_self. }
  destruct (Z.eqb_spec (char_value c) 60) as [E|E2].
  { rewrite (Hc _ E), Hs by reflexivity. cbv zeta. by rewrite (prefix_app_self "&lt;"). }
  destruct (Z.eqb_spec (char_value c) 62) as [E|E3].
  { rewrite (Hc _ E), Hs by reflexivity. cbv zeta. by rewrite (prefix_app_self "&gt;"). }
  destruct (Z.eqb_spec (char_value c) 34) as [E|E4].
  { rewrite (Hc _ E), Hs by reflexivity. cbv zeta. by rewrite (prefix_app_self "&quot;"). }
  change (String.String c EmptyString +:+ s) with (String.String c s). cbn [unescape_go]. by rewrite (proj2 (Z.eqb_neq _ _) E1).
Qed.

Lemma escape_char_length c : (1 <= String.length (escape_char c))%nat.
Proof. unfold escape_char. repeat case_match; cbn; lia. Qed.

Lemma unescape_escape s fuel : (String.length (html_escape s) <= fuel)%nat -> unescape_go fuel (html_escape s) = s.
Proof.
  revert fuel. induction s as [|c s IH]; intros fuel Hf; [by destruct fuel|]. cbn [html_escape] in *. rewrite string_app_length in Hf.
  pose proof (escape_char_length c). destruct fuel as [|fuel]; [lia|]. rewrite unescape_char, IH by lia. done.
Qed.

Lemma escape_has_no s c : In (char_value c) [60; 62; 34] -> has_char c (html_escape s) = false.
Proof.
  intros Hc. induction s as [|x s IH]; [done|]. cbn [html_escape]. rewrite has_char_app, IH, orb_false_r. unfold escape_char.
  assert (Hn : forall t, forallb (fun v => negb (has_char (char_of v) t)) [60; 62; 34] = true -> has_char c t = false).
  { intros t Ht. rewrite forallb_forall in Ht. specialize (Ht _ Hc). apply negb_true_iff in Ht. rewrite <- Ht. f_equal.
    destruct c as [[] [] [] [] [] [] [] []]; reflexivity. }
  destruct (_ =? 38); [by apply Hn|]. destruct (Z.eqb_spec (char_value x) 60) as [|H1]; [by apply Hn|].
  destruct (Z.eqb_spec (char_value x) 62) as [|H2]; [by apply Hn|]. destruct (Z.eqb_spec (char_value x) 34) as [|H3]; [by apply Hn|].
  cbn [has_char]. rewrite orb_false_r. apply bool_decide_eq_false. intros ->. destruct Hc as [Hc|[Hc|[Hc|[]]]]; congruence.
Qed.

(** ** The bars *)

Lemma foldl_max_ge h m : m <= foldl Z.max m h /\ Forall (fun v => v <= foldl Z.max m h) h.
Proof.
  revert m. induction h as [|v h IH]; intros m; cbn; [split; [lia|done]|]. destruct (IH (Z.max m v)) as [H1 H2].
  split; [lia|]. constructor; [lia|done].
Qed.

Lemma foldl_max_in h m : foldl Z.max m h = m \/ foldl Z.max m h ∈ h.
Proof.
  revert m. induction h as [|v h IH]; intros m; cbn; [by left|]. destruct (IH (Z.max m v)) as [-> |H]; [|right; by right].
  destruct (Z.max_spec m v) as [[_ ->]|[_ ->]]; [right; by left|by left].
Qed.

Lemma bar_value h v : 0 <= v -> v <= max_severity h -> v * 100 < 2 ^ 64 ->
  bar_percent h v = Z.max (v * 100 / max_severity h) 1 /\ 1 <= bar_percent h v <= 100.
Proof.
  intros Hv Hm Ho. assert (H1 : 1 <= max_severity h) by apply foldl_max_ge. unfold bar_percent. rewrite u64_small by lia.
  assert (Hq : 0 <= v * 100 / max_severity h <= 100) by (split; [apply Z.div_pos; lia|apply Z.div_le_upper_bound; lia]).
  unfold as_i32. rewrite u32_small by lia. rewrite (proj2 (Z.ltb_lt _ _)) by lia. split; [done|lia].
Qed.

(** ** Properties *)

(** no text of a report changes the markup of its page: what lies between angle brackets is the
    same when every name, path, description, rationale and date is taken out of the data, as
    long as no risk score is 60. *)
Theorem report_markup_is_fixed (fmt : Z -> string) (d : ReportData) :
  (forall t, has_char lt_char (fmt t) = false) ->
  Forall (fun f => 0 <= f_risk_score f < 256 /\ f_risk_score f <> 60) (rd_findings d) ->
  markup false (generate_html fmt d) = markup false (generate_html fmt (blank d)) /\ ends_inside false (generate_html fmt d) = false.
Proof. intros Hfmt Hf. destruct (same_page fmt Hfmt d Hf) as (H1 & H2 & _). by split. Qed.

Definition sample_finding (risk : Z) : SecurityFinding :=
  Finding 1 0 HIGH risk false "k" "C:\<b>.exe" EmptyString "found <script> & more" ["PMSR"%string] [1].

Definition sample_report (risk : Z) : ReportData :=
  Report "2025-01-01 00:00:00" VERSION 90 [Engine "<b>PMSR</b>" true 3 1] 3 1 [0; 0; 0; 1; 0] [(RANSOMWARE, 1)]
    [Event 1 5 HIGH RANSOMWARE 7 "<i>" EmptyString "</td><script>" EmptyString 0 false false] [sample_finding risk] 1 1.

Lemma report_markup_is_fixed_witness :
  let fmt := fun _ : Z => "2025-01-01 00:00:00"%string in
  markup false (generate_html fmt (sample_report 90)) = markup false (generate_html fmt (blank (sample_report 90))).
Proof.
  apply (report_markup_is_fixed (fun _ => "2025-01-01 00:00:00"%string) (sample_report 90)); [reflexivity|].
  repeat constructor; cbn; lia.
Defined.

(** A risk score is written as the character of its number: 90 as Z, and 60 opens a tag. *)
Lemma risk_written_as_character :
  finding_row (sample_finding 60) =
    cat ["<tr><td>"; level_span HIGH; "<td><</td><td>found &lt;script&gt; &amp; more</td></tr>"; nl] /\
  finding_row (sample_finding 90) =
    cat ["<tr><td>"; level_span HIGH; "<td>Z</td><td>found &lt;script&gt; &amp; more</td></tr>"; nl] /\
  markup false (finding_row (sample_finding 60)) <> markup false (finding_row (sample_finding 90)).
Proof. split_and!; [reflexivity|reflexivity|intros H; vm_compute in H; discriminate H]. Qed.

(** an escaped text is shown as the text it came from, so no two texts become the same, and it
    holds no angle bracket and no double quote. *)
Theorem html_escape_spec (s t : string) :
  unescape (html_escape s) = s /\ (html_escape s = html_escape t -> s = t) /\
  forall c, In (char_value c) [60; 62; 34] -> has_char c (html_escape s) = false.
Proof.
  split_and!; [by apply unescape_escape| |by intros; apply escape_has_no].
  intros E. rewrite <- (unescape_escape s (String.length (html_escape s))) by done. rewrite <- (unescape_escape t (String.length (html_escape s))) by (by rewrite E).
  by rewrite E.
Qed.

Lemma html_escape_spec_witness : has_char quote (html_escape "a < b") = false /\ html_escape "a < b" = "a &lt; b"%string.
Proof. split; [apply (html_escape_spec "a < b" "a < b"); cbn; tauto|reflexivity]. Defined.

(** a report made while the log does not change is of one piece: the severities sum up to the
    number of threats, every category is listed with the number of its events, the timeline is
    the end of the log, at most 100 long, and each bar is between 1 and 100 percent wide, the
    longest, of a level that occurs, exactly 100; larger counts never have shorter bars. *)
Theorem report_counts (sort : list (ThreatCategory * Z) -> list (ThreatCategory * Z)) (now : string) (statuses : list EngineInfo)
    (log : list ThreatEvent) (pipeline : option CorrelationEngine) (am : option AlertManager) (uptime : Z) :
  (forall l, sort l ≡ₚ l) -> Z.of_nat (length log) * 100 < 2 ^ 64 ->
  let d := collect sort now statuses (fun _ => log) pipeline am uptime in
  foldl Z.add 0 (rd_severity d) = rd_total_threats d /\
  (forall c n, In (c, n) (rd_categories d) <-> n = count_where (of_category c) log /\ 0 < n) /\
  (exists before, log = before ++ rd_recent_events d) /\ (length (rd_recent_events d) <= 100)%nat /\ (length (rd_findings d) <= 50)%nat /\
  (forall v, v ∈ rd_severity d -> 1 <= bar_percent (rd_severity d) v <= 100) /\
  (forall v, v ∈ rd_severity d -> 0 < v -> (forall w, w ∈ rd_severity d -> w <= v) -> bar_percent (rd_severity d) v = 100) /\
  (forall v w, v ∈ rd_severity d -> w ∈ rd_severity d -> v <= w -> bar_percent (rd_severity d) v <= bar_percent (rd_severity d) w).
Proof.
  intros Hperm Hlog. cbv zeta. cbn [collect rd_severity rd_total_threats rd_categories rd_recent_events rd_findings].
  assert (Hr : forall v, v ∈ severity_histogram log -> 0 <= v <= Z.of_nat (length log)).
  { intros v Hv. rewrite severity_counts in Hv. apply list_elem_of_fmap in Hv as (l & -> & _). unfold count_where.
    pose proof (List.filter_length_le (of_level l) log). lia. }
  assert (Hmax : forall v, v ∈ severity_histogram log -> v <= max_severity (severity_histogram log)).
  { intros v Hv. pose proof (proj2 (foldl_max_ge (severity_histogram log) 1)) as H. rewrite Forall_forall in H. by apply H. }
  assert (Hbar : forall v, v ∈ severity_histogram log -> _) by (intros v Hv; exact (bar_value (severity_histogram log) v (proj1 (Hr v Hv)) (Hmax v Hv) ltac:(specialize (Hr v Hv); lia))).
  split_and!.
  - apply severity_sum.
  - destruct (category_counts_spec log) as [Hok Hc]. intros c n. unfold category_histogram.
    rewrite <- Hc, <- list_elem_of_In, (Hperm (category_counts log)), list_elem_of_In, assoc_in by done. split; intros [? ?]; by split.
  - unfold recent_events. eexists. by rewrite take_drop.
  - unfold recent_events. rewrite length_drop. destruct (Z.ltb_spec 100 (Z.of_nat (length log))); lia.
  - destruct pipeline as [p|]; cbn [length]; [|lia]. unfold Correlation.recent. cbv zeta. rewrite length_drop.
    destruct (Z.ltb_spec 50 (Z.of_nat (length (findings_ p)))); lia.
  - intros v Hv. by apply Hbar.
  - intros v Hv Hp Hall. destruct (Hbar v Hv) as [-> _]. assert (E : max_severity (severity_histogram log) = v).
    { apply Z.le_antisymm; [|by apply Hmax]. destruct (foldl_max_in (severity_histogram log) 1) as [E|E]; [unfold max_severity; rewrite E; lia|by apply Hall]. }
    rewrite E, Z.mul_comm, Z.div_mul by lia. done.
  - intros v w Hv Hw Hvw. destruct (Hbar v Hv) as [-> _], (Hbar w Hw) as [-> _]. pose proof (proj1 (foldl_max_ge (severity_histogram log) 1)) as H1.
    fold (max_severity (severity_histogram log)) in H1.
    assert (v * 100 / max_severity (severity_histogram log) <= w * 100 / max_severity (severity_histogram log)) by (apply Z.div_le_mono; lia). lia.
Qed.

Lemma report_counts_witness :
  let d := collect id EmptyString [] (fun _ => sample_log) None None 0 in
  foldl Z.add 0 (rd_severity d) = 3 /\ bar_percent (rd_severity d) 1 = 100.
Proof.
  destruct (report_counts id EmptyString [] sample_log None None 0 ltac:(reflexivity) ltac:(cbn; lia)) as (H1 & _ & _ & _ & _ & _ & H2 & _).
  split; [exact H1|]. apply H2; [apply (bool_decide_unpack _); vm_compute; exact I|lia|].
  intros w Hw. change (w ∈ [0; 1; 1; 0; 1]) in Hw. repeat (apply elem_of_cons in Hw as [-> |Hw]; [lia|]). by apply elem_of_nil in Hw.
Defined.

(** Two reads of the log that an event comes between do not agree. *)
Lemma report_of_two_moments :
  let d := collect id EmptyString [] (fun i => if Nat.eqb i 0 then [] else sample_log) None None 0 in
  rd_total_threats d = 0 /\ foldl Z.add 0 (rd_severity d) = 3.
Proof. by vm_compute. Qed.

Lemma category_listed c : In c all_categories.
Proof. apply list_elem_of_In, (bool_decide_eq_true_1 _). by destruct c. Qed.

(** every category has a label of its own but the two without a case, which the report calls
    Unknown; exactly these and the absent one are mapped to the unclassified technique. *)
Theorem category_labels (c c' : ThreatCategory) :
  (category_label c = category_label c' -> c = c' \/ category_label c = "Unknown"%string) /\
  (category_label c = "Unknown"%string <-> c = C2_BEACON \/ c = DEVICE_POLICY) /\
  (technique_id (mitre_ttp_for_category c) = "T1000"%string <-> c = NONE \/ c = C2_BEACON \/ c = DEVICE_POLICY).
Proof.
  split_and!.
  - intros E. destruct (decide (c = c')) as [Heq|Hne]; [by left|right].
    assert (H : forallb (fun a => forallb (fun b => bool_decide (a = b) || negb (String.eqb (category_label a) (category_label b)) || String.eqb (category_label a) "Unknown") all_categories) all_categories = true)
      by (vm_compute; reflexivity).
    rewrite forallb_forall in H. specialize (H c (category_listed c)). rewrite forallb_forall in H. specialize (H c' (category_listed c')).
    rewrite (bool_decide_eq_false_2 _ Hne), E, String.eqb_refl in H. cbn [orb negb] in H. rewrite <- E in H. by apply String.eqb_eq in H.
  - split; [by destruct c; intros H; try discriminate H; [left|right]|by intros [-> | ->]].
  - split; [by destruct c; intros H; try discriminate H; [left|right; left|right; right]|by intros [-> | [-> | ->]]].
Qed.

Lemma category_labels_witness : RANSOMWARE = RANSOMWARE \/ category_label RANSOMWARE = "Unknown"%string.
Proof. apply (category_labels RANSOMWARE RANSOMWARE). reflexivity. Defined.

(** The text report writes every text as it is, so a description can add lines of its own. *)
Lemma text_report_forged (fmt : Z -> string) (ev : ThreatEvent) :
  event_line fmt (Event 1 5 LOW RANSOMWARE 7 "a" EmptyString ("x" +:+ nl +:+ "--- End of GCAD Report ---") EmptyString 0 false false) =
  cat ["  [LOW] "; fmt 5; " x"; nl; "--- End of GCAD Report ---"; nl].
Proof. unfold event_line. cbn [ev_level ev_timestamp ev_description cat level_label]. by rewrite !string_app_nil. Qed.
