(* ===== verification/ExactFloat.v ===== *)
(** * ExactFloat: doubles that hold small integers

    Sums and comparisons of doubles below 2 ^ 53 that are integers are exact: the scores that
    add whole weights are sums of integers. *)
From S2P Require Import Prelude Float64.

(** The digits of a positive number, counted in binary. *)
Definition width (n : Z) : Z := Zdigits2 n.

Lemma width_bounds n : 0 < n -> 1 <= width n /\ 2 ^ (width n - 1) <= n < 2 ^ width n.
Proof.
  destruct n as [|p|p]; [lia| |lia]. intros _. unfold width. cbn [Zdigits2]. pose proof (digits_lower p). pose proof (digits_upper p). lia.
Qed.

Lemma width_unique n d : 0 < n -> 2 ^ (d - 1) <= n < 2 ^ d -> width n = d.
Proof.
  intros Hn [H1 H2]. destruct (width_bounds n Hn) as (Hw & H3 & H4).
  assert (Hd : 1 <= d). { destruct (Z.le_gt_cases 1 d) as [|H]; [done|]. assert (2 ^ d <= 2 ^ 0) by (apply Z.pow_le_mono_r; lia). change (2 ^ 0) with 1 in *. lia. }
  assert (d - 1 < width n) by (apply (Z.pow_lt_mono_r_iff 2); lia). assert (width n - 1 < d) by (apply (Z.pow_lt_mono_r_iff 2); lia). lia.
Qed.

Lemma width_shift n k : 0 < n -> 0 <= k -> width (n * 2 ^ k) = width n + k.
Proof.
  intros Hn Hk. destruct (width_bounds n Hn) as (Hw & H1 & H2). assert (0 < 2 ^ k) by (apply Z.pow_pos_nonneg; lia).
  apply width_unique; [nia|]. replace (width n + k - 1) with ((width n - 1) + k) by lia. rewrite !Z.pow_add_r by lia. nia.
Qed.

Lemma width_mono a b : 0 < a <= b -> width a <= width b.
Proof.
  intros H. destruct (width_bounds a ltac:(lia)) as (H1 & H2 & _). destruct (width_bounds b ltac:(lia)) as (H3 & _ & H4).
  assert (width a - 1 < width b); [|lia]. apply (Z.pow_lt_mono_r_iff 2); lia.
Qed.

Lemma width_small n : 0 < n < 2 ^ 53 -> 1 <= width n <= 53.
Proof.
  intros H. destruct (width_bounds n ltac:(lia)) as (H1 & H2 & _). split; [done|].
  assert (width n - 1 < 53); [|lia]. apply (Z.pow_lt_mono_r_iff 2); lia.
Qed.

Lemma iter_xO m d : Z.pos (Pos.iter xO m d) = Z.pos m * 2 ^ Z.pos d.
Proof.
  induction d as [|d IH] using Pos.peano_ind; [cbn; lia|]. rewrite Pos.iter_succ, Pos2Z.inj_succ, Z.pow_succ_r by lia. lia.
Qed.

Lemma shl_align_spec m e e' : let '(m', e1) := shl_align m e e' in e1 = Z.min e e' /\ Z.pos m' = Z.pos m * 2 ^ (e - e1).
Proof.
  unfold shl_align. destruct (e' - e) as [|d|d] eqn:E.
  - split; [lia|]. rewrite Z.sub_diag. lia.
  - split; [lia|]. rewrite Z.sub_diag. lia.
  - split; [lia|]. rewrite iter_xO. do 2 f_equal. lia.
Qed.

Lemma fexp_width d : - 1000 <= d - 53 -> fexp 53 1024 d = d - 53.
Proof. intros H. unfold fexp, emin. lia. Qed.

(** The one double that holds a positive integer. *)
Definition holds (n : Z) (x : double) : Prop :=
  exists c, x = S754_finite false c (width n - 53) /\ Z.pos c = n * 2 ^ (53 - width n).

Lemma holds_unique n x y : holds n x -> holds n y -> x = y.
Proof. intros (c & -> & Hc) (c' & -> & Hc'). f_equal. apply Pos2Z.inj. by rewrite Hc, Hc'. Qed.

(** A shift that loses nothing. *)
Lemma shr_exact m e k q : 0 <= k -> 0 <= q -> m = q * 2 ^ k -> shr (Build_shr_record m false false) e k = (Build_shr_record q false false, e + k).
Proof.
  intros Hk Hq ->. assert (Hp : 0 < 2 ^ k) by (apply Z.pow_pos_nonneg; lia). pose proof (shr_spec (q * 2 ^ k) e k ltac:(nia)) as H.
  destruct (shr _ _ _) as [[m' r s] e']. rewrite Z.max_r in H by lia. rewrite Z.div_mul, Z.mod_mul in H by lia.
  destruct H as (-> & E & Ei). cbn in E, Ei. cbn in Ei. unfold inexact in Ei. cbn in Ei. destruct r, s; try discriminate Ei. by rewrite E.
Qed.

(** Rounding a mantissa whose exponent is low enough. *)
Lemma round_aux_holds n mz ez : 0 < n < 2 ^ 53 -> - 1000 < ez <= width n - 53 -> Z.pos mz = n * 2 ^ (- ez) ->
  holds n (binary_round_aux 53 1024 false (Z.pos mz) ez loc_Exact).
Proof.
  intros Hn Hez Hmz'. pose proof (width_small n Hn) as Hw. unfold binary_round_aux, shr_fexp. cbn [shr_record_of_loc].
  assert (Hdz : Zdigits2 (Z.pos mz) + ez = width n) by (change (Zdigits2 (Z.pos mz)) with (width (Z.pos mz)); rewrite Hmz', width_shift by lia; lia).
  rewrite Hdz, fexp_width by lia. set (q := n * 2 ^ (53 - width n)).
  assert (Hq : 0 < q) by (unfold q; apply Z.mul_pos_pos; [lia|apply Z.pow_pos_nonneg; lia]).
  rewrite (shr_exact (Z.pos mz) ez (width n - 53 - ez) q) by (try lia; rewrite Hmz'; unfold q; rewrite <- Z.mul_assoc, <- Z.pow_add_r by lia; do 2 f_equal; lia).
  cbn [shr_m loc_of_shr_record round_nearest_even].
  assert (Hdq : Zdigits2 q + (ez + (width n - 53 - ez)) = width n) by (change (Zdigits2 q) with (width q); unfold q; rewrite width_shift by lia; lia).
  rewrite Hdq, fexp_width by lia. rewrite (shr_exact q _ _ q) by (try lia; replace (width n - 53 - (ez + (width n - 53 - ez))) with 0 by lia; change (2 ^ 0) with 1; lia).
  cbn [shr_m]. destruct q as [|c|c] eqn:E; [lia| |lia]. rewrite (proj2 (Z.leb_le _ _)) by lia.
  exists c. split; [f_equal; lia|]. rewrite <- E. reflexivity.
Qed.

Lemma round_holds n m k : 0 < n < 2 ^ 53 -> 0 <= k -> Z.pos m = n * 2 ^ k -> width n + k < 1000 ->
  holds n (binary_round 53 1024 false m (- k)).
Proof.
  intros Hn Hk Hm Hs. pose proof (width_small n Hn) as Hw. unfold binary_round.
  assert (Hd : Z.pos (digits2_pos m) = width n + k) by (change (Z.pos (digits2_pos m)) with (width (Z.pos m)); rewrite Hm; apply width_shift; lia).
  rewrite Hd. replace (width n + k + - k) with (width n) by lia. rewrite fexp_width by lia.
  pose proof (shl_align_spec m (- k) (width n - 53)) as Ha. destruct (shl_align m (- k) (width n - 53)) as [mz ez]. destruct Ha as [Hez Hmz].
  apply round_aux_holds; [done|lia|]. rewrite Hmz, Hm, <- Z.mul_assoc, <- Z.pow_add_r by lia. do 2 f_equal. lia.
Qed.

Lemma dz_holds n : 0 < n < 2 ^ 53 -> holds n (dz n).
Proof.
  intros H. pose proof (width_small n H). unfold dz, binary_normalize. destruct n as [|p|p]; [lia| |lia].
  apply (round_holds (Z.pos p) p 0); [done|lia|change (2 ^ 0) with 1; lia|lia].
Qed.

(** Adding integers is exact while the sum stays below 2 ^ 53. *)
Lemma dadd_dz a b : 0 <= a -> 0 <= b -> a + b < 2 ^ 53 -> dadd (dz a) (dz b) = dz (a + b).
Proof.
  intros Ha Hb Hs. destruct (Z.eq_dec a 0) as [-> |Ha0].
  { rewrite Z.add_0_l. destruct (Z.eq_dec b 0) as [-> |Hb0]; [reflexivity|]. destruct (dz_holds b ltac:(lia)) as (c & -> & _). reflexivity. }
  destruct (Z.eq_dec b 0) as [-> |Hb0].
  { rewrite Z.add_0_r. destruct (dz_holds a ltac:(lia)) as (c & -> & _). reflexivity. }
  apply (holds_unique (a + b)); [|apply dz_holds; lia].
  destruct (dz_holds a ltac:(lia)) as (ca & -> & Eca). destruct (dz_holds b ltac:(lia)) as (cb & -> & Ecb).
  pose proof (width_small a ltac:(lia)). pose proof (width_small b ltac:(lia)). unfold dadd, SFadd. cbn [cond_Zopp].
  set (ez := Z.min (width a - 53) (width b - 53)).
  pose proof (shl_align_spec ca (width a - 53) ez) as H1. destruct (shl_align ca _ ez) as [ma ea]. destruct H1 as [-> H1].
  pose proof (shl_align_spec cb (width b - 53) ez) as H2. destruct (shl_align cb _ ez) as [mb eb]. destruct H2 as [-> H2]. cbn [fst].
  assert (Hma : Z.pos ma = a * 2 ^ (- ez)).
  { rewrite H1, Eca, <- Z.mul_assoc, <- Z.pow_add_r by lia. do 2 f_equal. lia. }
  assert (Hmb : Z.pos mb = b * 2 ^ (- ez)).
  { rewrite H2, Ecb, <- Z.mul_assoc, <- Z.pow_add_r by lia. do 2 f_equal. lia. }
  change (Z.pos ma + Z.pos mb) with (Z.pos (ma + mb)). cbn [binary_normalize].
  replace ez with (- - ez) at 1 by lia. pose proof (width_small (a + b) ltac:(lia)).
  apply round_holds; [lia|lia| |lia]. rewrite Pos2Z.inj_add, Hma, Hmb. lia.
Qed.

Lemma dcompare_dz a b : 0 <= a < 2 ^ 53 -> 0 <= b < 2 ^ 53 -> SFcompare (dz a) (dz b) = Some (a ?= b).
Proof.
  intros Ha Hb. destruct (Z.eq_dec a 0) as [-> |Ha0].
  { destruct (Z.eq_dec b 0) as [-> |Hb0]; [reflexivity|]. destruct (dz_holds b ltac:(lia)) as (c & -> & _). cbn. destruct b; (done || lia). }
  destruct (Z.eq_dec b 0) as [-> |Hb0].
  { destruct (dz_holds a ltac:(lia)) as (c & -> & _). cbn. destruct a; (done || lia). }
  destruct (dz_holds a ltac:(lia)) as (ca & -> & Eca). destruct (dz_holds b ltac:(lia)) as (cb & -> & Ecb).
  pose proof (width_small a ltac:(lia)). pose proof (width_small b ltac:(lia)). unfold SFcompare.
  destruct (width_bounds a ltac:(lia)) as (_ & A1 & A2). destruct (width_bounds b ltac:(lia)) as (_ & B1 & B2).
  destruct (Z.compare_spec (width a - 53) (width b - 53)) as [E|E|E].
  - assert (Ew : width a = width b) by lia. f_equal. change (Pos.compare_cont Eq ca cb) with (Z.pos ca ?= Z.pos cb). rewrite Eca, Ecb, Ew.
    symmetry. apply Zmult_compare_compat_r, Z.lt_gt, Z.pow_pos_nonneg; lia.
  - f_equal. symmetry. apply Z.compare_lt_iff. assert (2 ^ width a <= 2 ^ (width b - 1)) by (apply Z.pow_le_mono_r; lia). lia.
  - f_equal. symmetry. apply Z.compare_gt_iff. assert (2 ^ width b <= 2 ^ (width a - 1)) by (apply Z.pow_le_mono_r; lia). lia.
Qed.

Lemma dle_dz a b : 0 <= a < 2 ^ 53 -> 0 <= b < 2 ^ 53 -> dle (dz a) (dz b) = (a <=? b).
Proof. intros Ha Hb. unfold dle, SFleb. rewrite dcompare_dz by done. unfold Z.leb. by destruct (a ?= b). Qed.

Lemma dlt_dz a b : 0 <= a < 2 ^ 53 -> 0 <= b < 2 ^ 53 -> dlt (dz a) (dz b) = (a <? b).
Proof. intros Ha Hb. unfold dlt, SFltb. rewrite dcompare_dz by done. unfold Z.ltb. by destruct (a ?= b). Qed.

Lemma dmin_dz a b : 0 <= a < 2 ^ 53 -> 0 <= b < 2 ^ 53 -> dmin (dz a) (dz b) = dz (Z.min a b).
Proof.
  intros Ha Hb. unfold dmin. rewrite dlt_dz by done. destruct (Z.ltb_spec b a); f_equal; lia.
Qed.

(** A weight added under a condition. *)
Lemma dadd_if (c : bool) a w : 0 <= a -> 0 <= w -> a + w < 2 ^ 53 -> (if c then dadd (dz a) (dz w) else dz a) = dz (a + if c then w else 0).
Proof. intros. destruct c; [by apply dadd_dz|by rewrite Z.add_0_r]. Qed.

Lemma dmul_dz a b : 0 < a < 2 ^ 53 -> 0 < b < 2 ^ 53 -> a * b < 2 ^ 53 -> dmul (dz a) (dz b) = dz (a * b).
Proof.
  intros Ha Hb Hs. apply (holds_unique (a * b)); [|apply dz_holds; nia].
  destruct (dz_holds a ltac:(lia)) as (ca & -> & Eca). destruct (dz_holds b ltac:(lia)) as (cb & -> & Ecb).
  pose proof (width_small a ltac:(lia)). pose proof (width_small b ltac:(lia)). unfold dmul, SFmul. cbn [xorb].
  destruct (width_bounds a ltac:(lia)) as (_ & A1 & _). destruct (width_bounds b ltac:(lia)) as (_ & B1 & _).
  destruct (width_bounds (a * b) ltac:(nia)) as (_ & _ & W).
  assert (Hw : width a + width b - 2 < width (a * b)).
  { apply (Z.pow_lt_mono_r_iff 2); [lia|pose proof (width_small (a * b) ltac:(nia)); lia|]. replace (width a + width b - 2) with ((width a - 1) + (width b - 1)) by lia.
    rewrite Z.pow_add_r by lia. assert (0 < 2 ^ (width a - 1)) by (apply Z.pow_pos_nonneg; lia). assert (0 < 2 ^ (width b - 1)) by (apply Z.pow_pos_nonneg; lia). nia. }
  apply round_aux_holds; [nia|lia|]. rewrite Pos2Z.inj_mul, Eca, Ecb.
  replace (- (width a - 53 + (width b - 53))) with ((53 - width a) + (53 - width b)) by lia. rewrite Z.pow_add_r by lia. lia.
Qed.
