(* ===== verification/Sandbox.v ===== *)
(** * Sandbox: watching a program run

    Models src/src/engines/sandbox_engine.cpp as built for Windows: the score of what was
    observed, its summary, what the polls of a running process record, and the queue of
    submissions with the worker that empties it.  What the file system and the process calls
    answer are arguments; the callbacks are set. *)
From S2P Require Import Prelude BoundedLog Float64 ExactFloat Observation Text Threat.

Inductive SandboxVerdict := PENDING | CLEAN | SUSPICIOUS | MALICIOUS | ANALYSIS_ERROR.

#[export] Instance SandboxVerdict_eq_decision : EqDecision SandboxVerdict.
Proof. solve_decision. Defined.

Record SandboxBehavior := Behavior {
  files_created : Z;
  files_modified : Z;
  files_deleted : Z;
  registry_writes : Z;
  network_connections : Z;
  child_processes : Z;
  dll_loads : Z;
  memory_allocations : Z;
  attempted_privilege_escalation : bool;
  attempted_debug_api : bool;
  attempted_process_injection : bool;
  attempted_sandbox_escape : bool;
  modified_startup_entries : bool;
  encrypted_files : bool;
  suspicious_apis : list string;
  network_destinations : list string;
  dropped_files : list string;
}.

Definition no_behavior : SandboxBehavior := Behavior 0 0 0 0 0 0 0 0 false false false false false false [] [] [].

Record SandboxAnalysis := Analysis {
  sa_id : Z;
  sa_file_path : string;
  sa_verdict : SandboxVerdict;
  sa_threat_level : ThreatLevel;
  sa_risk_score : double;
  sa_behavior : SandboxBehavior;
  sa_summary : string;
  sa_started_at : Z;
  sa_completed_at : Z;
  sa_duration_ms : Z;
}.

Definition no_analysis : SandboxAnalysis := Analysis 0 EmptyString PENDING SAFE (dz 0) no_behavior EmptyString 0 0 0.

(** ** The score *)

(** [if (c) risk += w] *)
Definition add_when (c : bool) (w : Z) (risk : double) : double := if c then dadd risk (dz w) else risk.

(** [if (n > high) risk += a; else if (n > low) risk += b] *)
Definition add_steps (n high a low b : Z) (risk : double) : double :=
  if high <? n then dadd risk (dz a) else if low <? n then dadd risk (dz b) else risk.

Definition risk_of (b : SandboxBehavior) : double :=
  let risk := dz 0 in
  let risk := add_when (attempted_sandbox_escape b) 40 risk in
  let risk := add_when (attempted_process_injection b) 35 risk in
  let risk := add_when (attempted_privilege_escalation b) 30 risk in
  let risk := add_when (attempted_debug_api b) 15 risk in
  let risk := add_when (encrypted_files b) 35 risk in
  let risk := add_when (modified_startup_entries b) 20 risk in
  let risk := add_steps (files_deleted b) 20 15 5 5 risk in
  let risk := add_steps (registry_writes b) 10 10 3 5 risk in
  let risk := add_steps (network_connections b) 5 10 0 3 risk in
  let risk := add_steps (child_processes b) 5 10 2 5 risk in
  let risk := add_when (50 <? memory_allocations b) 5 risk in
  let risk := dadd risk (dmul (dz (Z.of_nat (length (suspicious_apis b)))) (dz 5)) in
  dmin risk (dz 100).

Definition verdict_of (risk : double) : SandboxVerdict :=
  if dle (dz 70) risk then MALICIOUS else if dle (dz 30) risk then SUSPICIOUS else CLEAN.

Definition classify (b : SandboxBehavior) : SandboxVerdict * double := (verdict_of (risk_of b), risk_of b).

Definition verdict_text (v : SandboxVerdict) : string :=
  match v with MALICIOUS => "MALICIOUS" | SUSPICIOUS => "SUSPICIOUS" | ANALYSIS_ERROR => "ERROR" | _ => "CLEAN" end.

Definition said (c : bool) (text : string) : string := if c then text else EmptyString.

(** The names joined with commas. *)
Definition comma_names (names : list string) : string := String.concat ", " names.

Definition generate_summary (b : SandboxBehavior) (v : SandboxVerdict) : string :=
  let n := length (suspicious_apis b) in
  "Verdict: " +:+ verdict_text v +:+ ". " +:+
  said (attempted_sandbox_escape b) "Sandbox escape attempt detected. " +:+
  said (attempted_process_injection b) "Process injection attempt. " +:+
  said (attempted_privilege_escalation b) "Privilege escalation attempt. " +:+
  said (encrypted_files b) "File encryption activity (possible ransomware). " +:+
  said (modified_startup_entries b) "Modified startup/autorun entries. " +:+
  "Files: " +:+ print_int (files_created b) +:+ " created, " +:+ print_int (files_modified b) +:+ " modified, " +:+ print_int (files_deleted b) +:+ " deleted. " +:+
  "Registry: " +:+ print_int (registry_writes b) +:+ " writes. " +:+ "Network: " +:+ print_int (network_connections b) +:+ " connections. " +:+
  "Children: " +:+ print_int (child_processes b) +:+ ". " +:+
  (if Nat.eqb n 0 then EmptyString
   else "Suspicious APIs: " +:+ comma_names (take 5 (suspicious_apis b)) +:+
        (if Nat.ltb 5 n then " (+" +:+ print_int (Z.of_nat (n - 5)) +:+ " more)" else EmptyString) +:+ ". ").

Definition detect_escape_attempt (b : SandboxBehavior) : bool :=
  attempted_sandbox_escape b || (attempted_process_injection b && attempted_privilege_escalation b) ||
  (attempted_debug_api b && (3 <? child_processes b)).

(** ** Watching a process *)

(** What one turn of the loop finds of a process that still runs: its modules and its children,
    where a snapshot could be taken, and its regions that can be written and executed. *)
Record Poll := Seen { modules : option Z; children : option Z; rwx_regions : Z }.

Definition poll_step (b : SandboxBehavior) (p : Poll) : SandboxBehavior :=
  let kids := match children p with Some n => u64 (child_processes b + n) | None => child_processes b end in
  let memory := u64 (memory_allocations b + rwx_regions p) in
  Behavior (files_created b) (files_modified b) (files_deleted b) (registry_writes b) (network_connections b) kids
    (default (dll_loads b) (modules p)) memory (attempted_privilege_escalation b) (attempted_debug_api b)
    (if 10 <? memory then true else attempted_process_injection b) (attempted_sandbox_escape b) (modified_startup_entries b) (encrypted_files b)
    (suspicious_apis b) (network_destinations b) (dropped_files b).

(** The turns before the process ends or the time is over. *)
Definition monitor_process (opened : bool) (polls : list Poll) : SandboxBehavior :=
  if opened then foldl poll_step no_behavior polls else no_behavior.

(** What there is at a path, and what came of starting it: no job object, no process, or the polls. *)
Inductive target := Missing | Unsized | Present.
Inductive launch := NoJob | NotCreated | Ran (opened : bool) (polls : list Poll).

Definition observed (l : launch) : SandboxBehavior :=
  match l with
  | NoJob => no_behavior
  | NotCreated => Behavior 0 0 0 0 0 0 0 0 false false false false false false ["CreateProcess_failed"%string] [] []
  | Ran opened polls => monitor_process opened polls
  end.

Definition level_of_verdict (v : SandboxVerdict) : ThreatLevel :=
  match v with MALICIOUS => HIGH | SUSPICIOUS => MEDIUM | _ => SAFE end.

(** [std::filesystem::file_size] throws for what is no file, which nothing catches: the process ends, [None].
    Times are milliseconds. *)
Definition analyze_file (path : string) (t : target) (l : launch) (started completed : Z) : option SandboxAnalysis :=
  match t with
  | Missing => Some (Analysis 0 path ANALYSIS_ERROR SAFE (dz 0) no_behavior ("File not found: " +:+ path) started completed 0)
  | Unsized => None
  | Present =>
      let b := observed l in
      let '(verdict, risk) := classify b in
      Some (Analysis 0 path verdict (level_of_verdict verdict) risk b (generate_summary b verdict) started completed (completed - started))
  end.

(** ** The engine *)

Record SandboxEngine := Sandbox {
  analyses_ : list SandboxAnalysis;
  pending_queue_ : list (string * Z);
  sb_next_id : Z;
  sb_events_processed : Z;
  sb_threats_detected : Z;
}.

Definition no_sandbox : SandboxEngine := Sandbox [] [] 1 0 0.

Definition MAX_ANALYSES : Z := 500.
Definition DEFAULT_TIMEOUT_MS : Z := 30000.

Definition submitted (id : Z) (path : string) (now : Z) : SandboxAnalysis :=
  Analysis id path PENDING SAFE (dz 0) no_behavior EmptyString now 0 0.

Definition submit (st : SandboxEngine) (path : string) (timeout_ms now : Z) : Z * SandboxEngine :=
  let id := sb_next_id st in
  (id, Sandbox (push_bounded MAX_ANALYSES (analyses_ st) (submitted id path now)) (pending_queue_ st ++ [(path, timeout_ms)]) (u64 (id + 1))
         (sb_events_processed st) (sb_threats_detected st)).

Definition get_analysis (st : SandboxEngine) (id : Z) : SandboxAnalysis :=
  default no_analysis (find (fun a => sa_id a =? id) (analyses_ st)).

Definition recent_analyses (st : SandboxEngine) (n : Z) : list SandboxAnalysis := latest n (analyses_ st).

Definition with_id (a : SandboxAnalysis) (id : Z) : SandboxAnalysis :=
  Analysis id (sa_file_path a) (sa_verdict a) (sa_threat_level a) (sa_risk_score a) (sa_behavior a) (sa_summary a) (sa_started_at a) (sa_completed_at a) (sa_duration_ms a).

Definition waits_for (path : string) (a : SandboxAnalysis) : bool :=
  String.eqb (sa_file_path a) path && bool_decide (sa_verdict a = PENDING).

(** The first entry of the path that still waits takes the result. *)
Fixpoint store_result (path : string) (result : SandboxAnalysis) (analyses : list SandboxAnalysis) : list SandboxAnalysis :=
  match analyses with
  | [] => []
  | a :: rest => if waits_for path a then with_id result (sa_id a) :: rest else a :: store_result path result rest
  end.

Definition sandbox_threat (desc file : string) (now : Z) : ThreatEvent :=
  Event 0 now HIGH SUSPICIOUS_BINARY 0 EmptyString file desc EmptyString 0 false false.

Definition sandbox_observation (level : ThreatLevel) (confidence : double) (evidence file : string) (now : Z) : SecurityObservation :=
  Obs "sandbox" ARTIFACT_STRUCTURE now level confidence false 0 EmptyString file EmptyString evidence.

(** What a result makes the engine say. *)
Definition outputs_of (result : SandboxAnalysis) (path : string) (now : Z) : list output :=
  let obs level := Observed (sandbox_observation level (ddiv (sa_risk_score result) (dz 100)) (sa_summary result) path now) in
  match sa_verdict result with
  | MALICIOUS => [Threat (sandbox_threat ("Sandbox: " +:+ sa_summary result) path now); obs HIGH]
  | SUSPICIOUS => [obs MEDIUM]
  | _ => []
  end.

(** The first critical section of the worker: the front of the queue.  An empty path is dropped. *)
Definition worker_take (st : SandboxEngine) : option (string * Z) * SandboxEngine :=
  let '(path, timeout, queue) :=
    match pending_queue_ st with (f, t) :: rest => (f, t, rest) | [] => (EmptyString, DEFAULT_TIMEOUT_MS, []) end in
  (if empty_string path then None else Some (path, timeout),
   Sandbox (analyses_ st) queue (sb_next_id st) (sb_events_processed st) (sb_threats_detected st)).

(** What follows the analysis: the counter, the second critical section and the reports. *)
Definition worker_finish (st : SandboxEngine) (path : string) (result : SandboxAnalysis) (now : Z) : SandboxEngine * list output :=
  (Sandbox (store_result path result (analyses_ st)) (pending_queue_ st) (sb_next_id st) (u64 (sb_events_processed st + 1))
     (if bool_decide (sa_verdict result = MALICIOUS) then u64 (sb_threats_detected st + 1) else sb_threats_detected st),
   outputs_of result path now).

(** A turn nobody interrupts; [run] answers for the path it takes. *)
Definition worker_turn (st : SandboxEngine) (run : string -> Z -> target * launch) (now completed : Z) : option (SandboxEngine * list output) :=
  let '(job, st) := worker_take st in
  match job with
  | None => Some (st, [])
  | Some (path, timeout) =>
      let '(t, l) := run path timeout in
      match analyze_file path t l now completed with None => None | Some result => Some (worker_finish st path result completed) end
  end.

(** The engine while its worker may be at an analysis, which holds no lock. *)
Record machine := Machine { engine : SandboxEngine; running : option (string * Z) }.

(** What a thread does at once: a caller submits, the worker takes, or it finishes an analysis.  An analysis
    without a result ends the process and has no step behind it. *)
Inductive action :=
  | Submit (path : string) (timeout now : Z)
  | Take
  | Finish (t : target) (l : launch) (started completed : Z).

Definition act (m : machine) (a : action) : option machine :=
  match a, running m with
  | Submit path timeout now, job => Some (Machine (snd (submit (engine m) path timeout now)) job)
  | Take, None => let '(job, st) := worker_take (engine m) in Some (Machine st job)
  | Finish t l started completed, Some (path, timeout) =>
      match analyze_file path t l started completed with
      | Some result => Some (Machine (fst (worker_finish (engine m) path result completed)) None)
      | None => None
      end
  | _, _ => None
  end.

(** ** Lemmas *)

Definition when (c : bool) (w : Z) : Z := if c then w else 0.
Definition steps (n high a low b : Z) : Z := if high <? n then a else if low <? n then b else 0.

(** The score as a sum of integers. *)
Definition risk_sum (b : SandboxBehavior) : Z :=
  when (attempted_sandbox_escape b) 40 + when (attempted_process_injection b) 35 + when (attempted_privilege_escalation b) 30 +
  when (attempted_debug_api b) 15 + when (encrypted_files b) 35 + when (modified_startup_entries b) 20 +
  steps (files_deleted b) 20 15 5 5 + steps (registry_writes b) 10 10 3 5 + steps (network_connections b) 5 10 0 3 +
  steps (child_processes b) 5 10 2 5 + when (50 <? memory_allocations b) 5 + 5 * Z.of_nat (length (suspicious_apis b)).

Definition verdict_sum (s : Z) : SandboxVerdict := if 70 <=? s then MALICIOUS else if 30 <=? s then SUSPICIOUS else CLEAN.

Lemma add_when_dz c w a : 0 <= a <= 1000 -> 0 <= w <= 1000 -> add_when c w (dz a) = dz (a + when c w).
Proof. intros. apply dadd_if; lia. Qed.

Lemma add_steps_dz n h x l y a : 0 <= a <= 1000 -> 0 <= x <= 1000 -> 0 <= y <= 1000 -> add_steps n h x l y (dz a) = dz (a + steps n h x l y).
Proof. intros. unfold add_steps, steps. destruct (h <? n); [apply dadd_dz; lia|]. destruct (l <? n); [apply dadd_dz; lia|by rewrite Z.add_0_r]. Qed.

Lemma when_range c w : 0 <= w -> 0 <= when c w <= w.
Proof. destruct c; cbn; lia. Qed.

Lemma steps_range n h x l y : 0 <= y <= x -> 0 <= steps n h x l y <= x.
Proof. intros. unfold steps. repeat case_match; lia. Qed.

Lemma times_five n : Z.of_nat n < 2 ^ 40 -> dmul (dz (Z.of_nat n)) (dz 5) = dz (5 * Z.of_nat n).
Proof. intros H. destruct n as [|n]; [reflexivity|]. rewrite dmul_dz by lia. f_equal. lia. Qed.

Lemma risk_of_spec b : Z.of_nat (length (suspicious_apis b)) < 2 ^ 40 -> risk_of b = dz (Z.min (risk_sum b) 100) /\ 0 <= risk_sum b < 2 ^ 50.
Proof.
  intros Hn. unfold risk_of, risk_sum. cbv zeta.
  pose proof (when_range (attempted_sandbox_escape b) 40 ltac:(lia)). pose proof (when_range (attempted_process_injection b) 35 ltac:(lia)).
  pose proof (when_range (attempted_privilege_escalation b) 30 ltac:(lia)). pose proof (when_range (attempted_debug_api b) 15 ltac:(lia)).
  pose proof (when_range (encrypted_files b) 35 ltac:(lia)). pose proof (when_range (modified_startup_entries b) 20 ltac:(lia)).
  pose proof (steps_range (files_deleted b) 20 15 5 5 ltac:(lia)). pose proof (steps_range (registry_writes b) 10 10 3 5 ltac:(lia)).
  pose proof (steps_range (network_connections b) 5 10 0 3 ltac:(lia)). pose proof (steps_range (child_processes b) 5 10 2 5 ltac:(lia)).
  pose proof (when_range (50 <? memory_allocations b) 5 ltac:(lia)).
  split; [|lia]. repeat rewrite add_when_dz by lia. repeat rewrite add_steps_dz by lia. rewrite add_when_dz by lia. rewrite times_five by done.
  rewrite dadd_dz by lia. rewrite dmin_dz by lia. f_equal.
Qed.

Lemma verdict_of_spec s : 0 <= s -> verdict_of (dz (Z.min s 100)) = verdict_sum s.
Proof.
  intros H. unfold verdict_of, verdict_sum. rewrite !dle_dz by lia.
  destruct (Z.leb_spec 70 (Z.min s 100)), (Z.leb_spec 70 s), (Z.leb_spec 30 (Z.min s 100)), (Z.leb_spec 30 s); try done; lia.
Qed.

Lemma classify_sum b : Z.of_nat (length (suspicious_apis b)) < 2 ^ 40 ->
  classify b = (verdict_sum (risk_sum b), dz (Z.min (risk_sum b) 100)) /\ 0 <= risk_sum b.
Proof. intros H. destruct (risk_of_spec b H) as [E Hr]. unfold classify. rewrite E, verdict_of_spec by lia. split; [done|lia]. Qed.

(** A percentage as a confidence. *)
Lemma confidence_of_risk s : 0 <= s <= 100 -> is_double (ddiv (dz s) (dz 100)) = true /\ unit_interval (ddiv (dz s) (dz 100)) = true.
Proof.
  intros Hs. assert (H : forallb (fun n => is_double (ddiv (dz (Z.of_nat n)) (dz 100)) && unit_interval (ddiv (dz (Z.of_nat n)) (dz 100))) (seq 0 101) = true)
    by (vm_compute; reflexivity).
  rewrite forallb_forall in H. specialize (H (Z.to_nat s) ltac:(apply in_seq; lia)). rewrite Z2Nat.id in H by lia. by apply andb_true_iff in H.
Qed.

(** *** Polls *)

Definition poll_ok (p : Poll) : Prop := 0 <= rwx_regions p /\ 0 <= default 0 (children p).

Definition total (f : Poll -> Z) (polls : list Poll) : Z := foldr (fun p s => f p + s) 0 polls.

Lemma total_nonneg f polls : Forall (fun p => 0 <= f p) polls -> 0 <= total f polls.
Proof. induction 1 as [|p l Hp _ IH]; [done|]. change (total f (p :: l)) with (f p + total f l). lia. Qed.

Lemma total_app f l k : total f (l ++ k) = total f l + total f k.
Proof.
  induction l as [|p l IH]; [done|]. change (total f ((p :: l) ++ k)) with (f p + total f (l ++ k)). change (total f (p :: l)) with (f p + total f l). lia.
Qed.

Lemma total_replicate f n p : total f (replicate n p) = Z.of_nat n * f p.
Proof. induction n as [|n IH]; [done|]. change (total f (replicate (S n) p)) with (f p + total f (replicate n p)). lia. Qed.

(** What the polls leave behind. *)
Lemma polls_add_up polls : Forall poll_ok polls ->
  total rwx_regions polls < 2 ^ 64 -> total (fun p => default 0 (children p)) polls < 2 ^ 64 ->
  let b := foldl poll_step no_behavior polls in
  memory_allocations b = total rwx_regions polls /\ child_processes b = total (fun p => default 0 (children p)) polls /\
  attempted_process_injection b = (10 <? total rwx_regions polls).
Proof.
  induction polls as [|p polls IH] using rev_ind; intros Hok H1 H2; [done|]. cbv zeta. apply Forall_app in Hok as [Hok Hp]. apply Forall_singleton in Hp as [Hr Hc].
  rewrite !total_app in *. cbn [total foldr] in H1, H2 |- *.
  pose proof (total_nonneg rwx_regions polls ltac:(eapply Forall_impl; [exact Hok|]; by intros q [? ?])).
  pose proof (total_nonneg (fun p => default 0 (children p)) polls ltac:(eapply Forall_impl; [exact Hok|]; by intros q [? ?])).
  destruct (IH Hok ltac:(lia) ltac:(lia)) as (E1 & E2 & E3). rewrite foldl_app. cbn [foldl].
  set (b := foldl poll_step no_behavior polls) in *. unfold poll_step. cbn [memory_allocations child_processes attempted_process_injection].
  rewrite E1, E2, E3. rewrite Z.add_0_r. split_and!.
  - rewrite u64_small by lia. lia.
  - destruct (children p) as [n|]; cbn [from_option id] in *; [rewrite u64_small by lia|]; lia.
  - rewrite u64_small by lia. destruct (Z.ltb_spec 10 (total rwx_regions polls + rwx_regions p)), (Z.ltb_spec 10 (total rwx_regions polls)); try done; lia.
Qed.

(** The fields no poll sets. *)
Definition unwatched (b : SandboxBehavior) : Prop :=
  files_deleted b = 0 /\ registry_writes b = 0 /\ network_connections b = 0 /\ attempted_sandbox_escape b = false /\
  attempted_privilege_escalation b = false /\ attempted_debug_api b = false /\ encrypted_files b = false /\ modified_startup_entries b = false.

Lemma observed_unwatched l : unwatched (observed l) /\ (length (suspicious_apis (observed l)) <= 1)%nat /\
  (suspicious_apis (observed l) <> [] -> attempted_process_injection (observed l) = false).
Proof.
  assert (H0 : unwatched no_behavior) by by split_and!.
  destruct l as [| |opened polls]; [split_and!; try done; cbn; lia|split_and!; try done; cbn; lia|]. cbn [observed]. unfold monitor_process.
  destruct opened; [|split_and!; try done; cbn; lia].
  assert (H : unwatched (foldl poll_step no_behavior polls) /\ suspicious_apis (foldl poll_step no_behavior polls) = []).
  { induction polls as [|p polls IH] using rev_ind; [by split_and!|]. rewrite foldl_app. cbn [foldl]. destruct IH as [(H1 & H2 & H3 & H4 & H5 & H6 & H7 & H8) H9].
    unfold unwatched. cbn. by split_and!. }
  destruct H as [H ->]. split_and!; [done|cbn; lia|done].
Qed.

Lemma observed_risk l : 0 <= risk_sum (observed l) <= 50.
Proof.
  destruct (observed_unwatched l) as ((H1 & H2 & H3 & H4 & H5 & H6 & H7 & H8) & Hn & Hi). unfold risk_sum. rewrite H1, H2, H3, H4, H5, H6, H7, H8. cbn [when].
  change (steps 0 20 15 5 5) with 0. change (steps 0 10 10 3 5) with 0. change (steps 0 5 10 0 3) with 0.
  pose proof (when_range (attempted_process_injection (observed l)) 35 ltac:(lia)). pose proof (steps_range (child_processes (observed l)) 5 10 2 5 ltac:(lia)).
  pose proof (when_range (50 <? memory_allocations (observed l)) 5 ltac:(lia)).
  destruct (suspicious_apis (observed l)) as [|s rest] eqn:E; [cbn; lia|]. rewrite Hi in * by done. cbn [when] in *. cbn [length] in *. lia.
Qed.

Lemma analyze_result path t l started completed r : analyze_file path t l started completed = Some r ->
  sa_file_path r = path /\ sa_verdict r <> PENDING /\ sa_verdict r <> MALICIOUS /\
  exists s, 0 <= s <= 50 /\ sa_risk_score r = dz s.
Proof.
  unfold analyze_file. destruct t; [intros [= <-]; cbn; split_and!; try done; exists 0; split; [lia|done]|done|].
  destruct (classify_sum (observed l)) as [E _]; [destruct (observed_unwatched l) as (_ & H & _); lia|]. rewrite E. intros [= <-]. cbn.
  pose proof (observed_risk l). unfold verdict_sum. rewrite (proj2 (Z.leb_gt 70 _)) by lia. split_and!; try done; try (by case_match).
  exists (risk_sum (observed l)). split; [lia|]. by rewrite Z.min_l by lia.
Qed.

(** *** The queue *)

Definition waiting (a : SandboxAnalysis) : Prop := sa_verdict a = PENDING.

Lemma store_result_first path result done a pend : Forall (fun a => ~ waiting a) done -> waiting a -> sa_file_path a = path ->
  store_result path result (done ++ a :: pend) = done ++ with_id result (sa_id a) :: pend.
Proof.
  intros Hd Ha Hp. induction Hd as [|x done Hx Hd IH]; cbn [app store_result]; unfold waits_for.
  - by rewrite Hp, String.eqb_refl, bool_decide_eq_true_2.
  - rewrite (bool_decide_eq_false_2 _ Hx), andb_false_r. by rewrite IH.
Qed.

(** The submissions so far and the results so far, oldest first, with the engine they lead to: whatever the
    interleaving, while no path is empty and fewer than 500 submissions are unanswered at each new one. *)
Definition unanswered (m : machine) : list (string * Z) := match running m with Some job => [job] | None => [] end ++ pending_queue_ (engine m).

Inductive sandbox_run : list (string * Z * Z) -> list SandboxAnalysis -> machine -> Prop :=
  | run_new : sandbox_run [] [] (Machine no_sandbox None)
  | run_submit subs rs m m' path timeout now : sandbox_run subs rs m -> path <> EmptyString -> (length (unanswered m) < 500)%nat ->
      act m (Submit path timeout now) = Some m' -> sandbox_run (subs ++ [(path, timeout, now)]) rs m'
  | run_take subs rs m m' : sandbox_run subs rs m -> act m Take = Some m' -> sandbox_run subs rs m'
  | run_finish subs rs m m' path timeout t l started completed r : sandbox_run subs rs m -> running m = Some (path, timeout) ->
      analyze_file path t l started completed = Some r -> act m (Finish t l started completed) = Some m' -> sandbox_run subs (rs ++ [r]) m'.

(** The entry of the [i]-th submission: its result, when it has one. *)
Definition entry_of (rs : list SandboxAnalysis) (i : nat) (sub : string * Z * Z) : SandboxAnalysis :=
  let id := u64 (1 + Z.of_nat i) in
  match rs !! i with Some r => with_id r id | None => submitted id sub.1.1 sub.2 end.

Record run_ok (subs : list (string * Z * Z)) (rs : list SandboxAnalysis) (m : machine) : Prop := {
  ro_analyses : analyses_ (engine m) = last_n 500 (imap (entry_of rs) subs);
  ro_unanswered : unanswered m = drop (length rs) (fst <$> subs);
  ro_answered : (length rs <= length subs)%nat;
  ro_bound : (length subs - length rs <= 500)%nat;
  ro_id : sb_next_id (engine m) = u64 (1 + Z.of_nat (length subs));
  ro_paths : Forall (fun sub => sub.1.1 <> EmptyString) subs;
  ro_results : forall i r, rs !! i = Some r -> ~ waiting r /\ exists sub, subs !! i = Some sub /\ sa_file_path r = sub.1.1;
}.

Lemma unanswered_length subs rs m : run_ok subs rs m -> length (unanswered m) = (length subs - length rs)%nat.
Proof. intros H. by rewrite (ro_unanswered _ _ _ H), length_drop, length_fmap. Qed.

Lemma submit_ok subs rs m m' path timeout now : run_ok subs rs m -> path <> EmptyString -> (length (unanswered m) < 500)%nat ->
  act m (Submit path timeout now) = Some m' -> run_ok (subs ++ [(path, timeout, now)]) rs m'.
Proof.
  intros Hok Hp Hl [= <-]. pose proof (unanswered_length _ _ _ Hok) as Hu. destruct Hok as [H1 H2 H3 H4 H5 H6 H7].
  split; unfold unanswered in *; cbn [engine running submit snd analyses_ pending_queue_ sb_next_id] in *; rewrite ?length_app; cbn [length].
  - rewrite H1. change MAX_ANALYSES with 500. rewrite last_n_push by lia. rewrite imap_app. cbn [imap]. do 3 f_equal.
    unfold entry_of, compose. cbn [fst snd]. rewrite Nat.add_0_r, (lookup_ge_None_2 rs) by lia. by rewrite H5.
  - rewrite app_assoc, H2, fmap_app, drop_app_le by (rewrite length_fmap; lia). done.
  - lia.
  - lia.
  - rewrite H5. unfold u64. rewrite Z.add_mod_idemp_l by lia. f_equal. lia.
  - apply Forall_app. split; [done|]. by apply Forall_singleton.
  - intros i r Hr. destruct (H7 i r Hr) as (Hw & sub & Hs & Hf). split; [done|]. exists sub. split; [|done]. by apply lookup_app_l_Some.
Qed.

Lemma take_ok subs rs m m' : run_ok subs rs m -> act m Take = Some m' ->
  run_ok subs rs m' /\ unanswered m' = unanswered m /\ (running m' = None -> pending_queue_ (engine m') = []).
Proof.
  intros Hok. unfold act. destruct (running m) as [job|] eqn:Er; [done|]. unfold worker_take.
  assert (Hu : unanswered m = pending_queue_ (engine m)) by (unfold unanswered; by rewrite Er).
  assert (Hne : forall p, p ∈ pending_queue_ (engine m) -> fst p <> EmptyString).
  { intros p. rewrite <- Hu, (ro_unanswered _ _ _ Hok). intros Hp%(subseteq_drop _ _ p). apply list_elem_of_fmap in Hp as (sub & -> & Hsub).
    pose proof (ro_paths _ _ _ Hok) as Hp. rewrite Forall_forall in Hp. by apply Hp. }
  destruct (pending_queue_ (engine m)) as [|[path timeout] queue] eqn:Eq; [|assert (Hp : path <> EmptyString) by (apply (Hne (path, timeout)); left)].
  - cbn [empty_string String.eqb]. intros [= <-]. split_and!; [|by rewrite Hu|done].
    destruct Hok as [H1 H2 H3 H4 H5 H6 H7]. split; try done. by rewrite <- H2, Hu.
  - destruct (empty_string path) eqn:Ee; [by apply empty_string_spec in Ee|]. intros [= <-]. split_and!; [|by rewrite Hu|done].
    destruct Hok as [H1 H2 H3 H4 H5 H6 H7]. split; try done. by rewrite <- H2, Hu.
Qed.

(** The results before the [k]-th do not change, and those behind it do not matter. *)
Lemma entries_finish subs rs r sub : subs !! length rs = Some sub ->
  exists before after, imap (entry_of rs) subs = before ++ submitted (u64 (1 + Z.of_nat (length rs))) sub.1.1 sub.2 :: after /\
    imap (entry_of (rs ++ [r])) subs = before ++ with_id r (u64 (1 + Z.of_nat (length rs))) :: after /\
    before = imap (entry_of rs) (take (length rs) subs) /\ length after = (length subs - S (length rs))%nat.
Proof.
  intros Hs. set (k := length rs) in *. exists (imap (entry_of rs) (take k subs)), (imap (entry_of rs ∘ (fun j => k + S j)%nat) (drop (S k) subs)).
  assert (Hk : length (take k subs) = k) by (rewrite length_take; apply lookup_lt_Some in Hs; lia).
  assert (Hall : forall g : nat -> string * Z * Z -> SandboxAnalysis, imap g subs = imap g (take k subs) ++ g k sub :: imap (g ∘ (fun j => k + S j)%nat) (drop (S k) subs)).
  { intros g. rewrite <- (take_drop_middle subs k sub Hs) at 1. rewrite imap_app, imap_cons, Hk, Nat.add_0_r. done. }
  assert (Hlater : forall j, rs !! (k + S j)%nat = None /\ (rs ++ [r]) !! (k + S j)%nat = None) by (intros j; split; apply lookup_ge_None_2; rewrite ?length_app; cbn; lia).
  rewrite !Hall. split_and!.
  - f_equal. f_equal. unfold entry_of. by rewrite (lookup_ge_None_2 rs) by lia.
  - f_equal; [|f_equal].
    + apply imap_ext. intros i x Hx. unfold entry_of. apply lookup_lt_Some in Hx. by rewrite lookup_app_l by lia.
    + unfold entry_of. by rewrite lookup_app_r, Nat.sub_diag by lia.
    + apply imap_ext. intros i x _. unfold compose, entry_of. by rewrite (proj1 (Hlater i)), (proj2 (Hlater i)).
  - done.
  - by rewrite length_imap, length_drop.
Qed.

Lemma finish_ok subs rs m m' path timeout t l started completed r : run_ok subs rs m -> running m = Some (path, timeout) ->
  analyze_file path t l started completed = Some r -> act m (Finish t l started completed) = Some m' ->
  run_ok subs (rs ++ [r]) m' /\ running m' = None /\ unanswered m' = tail (unanswered m).
Proof.
  intros Hok Hr Ha. unfold act. rewrite Hr, Ha. intros [= <-]. pose proof (unanswered_length _ _ _ Hok) as Hu.
  destruct (analyze_result _ _ _ _ _ _ Ha) as (Hfile & Hv & _).
  assert (Et : drop (length rs) (fst <$> subs) = (path, timeout) :: pending_queue_ (engine m)) by (rewrite <- (ro_unanswered _ _ _ Hok); unfold unanswered; by rewrite Hr).
  assert (Hk : exists sub, subs !! length rs = Some sub /\ sub.1 = (path, timeout)).
  { pose proof (f_equal (fun l => l !! 0%nat) Et) as E0. cbn in E0. rewrite lookup_drop, Nat.add_0_r, list_lookup_fmap in E0.
    destruct (subs !! length rs) as [sub|] eqn:Es; [|discriminate E0]. exists sub. split; [done|]. by injection E0. }
  destruct Hk as (sub & Hs & Hsub). destruct (entries_finish subs rs r sub Hs) as (before & after & E1 & E2 & Hb & Hla).
  pose proof (lookup_lt_Some _ _ _ Hs) as Hlt. destruct Hok as [H1 H2 H3 H4 H5 H6 H7]. split_and!; [|done|].
  - split; unfold unanswered in *; cbn [engine running worker_finish fst analyses_ pending_queue_ sb_next_id] in *; rewrite ?length_app; cbn [length].
    + rewrite H1, E1, E2, (last_n_app _ before (_ :: after)), (last_n_app _ before (with_id r _ :: after)) by (cbn [length]; rewrite Hla; lia).
      apply store_result_first; [|done|by rewrite Hsub].
      apply Forall_last_n. rewrite Hb. apply Forall_lookup. intros i x Hx. rewrite list_lookup_imap in Hx.
      destruct (take (length rs) subs !! i) as [y|] eqn:Ei; [|discriminate Hx]. cbn in Hx. injection Hx as <-. unfold entry_of.
      assert (Hi : (i < length rs)%nat) by (apply lookup_lt_Some in Ei; rewrite length_take in Ei; lia).
      destruct (lookup_lt_is_Some_2 rs i Hi) as [x Hx]. rewrite Hx. by destruct (H7 i x Hx).
    + rewrite <- drop_drop, Et. done.
    + lia.
    + lia.
    + done.
    + done.
    + intros i x Hx. apply lookup_snoc_Some in Hx as [[Hi Hx] | [-> <-]]; [by apply H7|]. split; [exact Hv|]. exists sub. split; [done|]. by rewrite Hfile, Hsub.
  - unfold unanswered. rewrite Hr. done.
Qed.

Lemma sandbox_run_ok subs rs m : sandbox_run subs rs m -> run_ok subs rs m.
Proof.
  induction 1 as [|subs rs m m' path timeout now _ IH Hp Hl Ha|subs rs m m' _ IH Ha|subs rs m m' path timeout t l started completed r _ IH Hr Ha Hs].
  - split; try done; cbn; lia.
  - by apply (submit_ok subs rs m m' path timeout now).
  - by apply (take_ok subs rs m m').
  - by apply (finish_ok subs rs m m' path timeout t l started completed r).
Qed.

Lemma last_n_fmap {A B} (f : A -> B) n l : f <$> last_n n l = last_n n (f <$> l).
Proof. unfold last_n. by rewrite fmap_drop, length_fmap. Qed.

(** Numbers and paths are those of the submissions, answered or not. *)
Lemma entries_keep subs rs m : run_ok subs rs m ->
  (fun a => (sa_id a, sa_file_path a)) <$> last_n 500 (imap (entry_of rs) subs) = last_n 500 (imap (fun i sub => (u64 (1 + Z.of_nat i), sub.1.1)) subs).
Proof.
  intros Hok. rewrite last_n_fmap. f_equal. rewrite fmap_imap. apply imap_ext. intros i sub Hi. unfold compose, entry_of.
  destruct (rs !! i) as [r|] eqn:Er; [|done]. destruct (ro_results _ _ _ Hok i r Er) as (_ & sub' & Hs & Hf). rewrite Hi in Hs. injection Hs as <-. cbn. by rewrite Hf.
Qed.

(** What the worker does next when nobody submits; [run] answers for the path it is at. *)
Definition worker_next (run : string -> Z -> target * launch) (now completed : Z) (m : machine) : action :=
  match running m with
  | None => Take
  | Some (path, timeout) => let '(t, l) := run path timeout in Finish t l now completed
  end.

Fixpoint worker_steps (n : nat) (run : string -> Z -> target * launch) (now completed : Z) (m : machine) : option machine :=
  match n with
  | O => Some m
  | S n => match act m (worker_next run now completed m) with Some m' => worker_steps n run now completed m' | None => None end
  end.

(** The steps that are left: a submission in the queue takes two, the one that is analysed takes one. *)
Definition steps_left (m : machine) : nat := match running m with Some _ => 1 | None => 0 end + 2 * length (pending_queue_ (engine m)).

Lemma worker_drains run now completed : (forall path timeout, fst (run path timeout) <> Unsized) -> forall subs rs m, sandbox_run subs rs m ->
  exists rs' m', worker_steps (steps_left m) run now completed m = Some m' /\ sandbox_run subs (rs ++ rs') m' /\ unanswered m' = [].
Proof.
  intros Hrun subs rs m Hm. remember (steps_left m) as n eqn:En. revert rs m Hm En. induction n as [n IH] using lt_wf_ind; intros rs m Hm En.
  pose proof (sandbox_run_ok _ _ _ Hm) as Hok. unfold steps_left in En. destruct (running m) as [[path timeout]|] eqn:Er.
  - destruct (run path timeout) as [t l] eqn:Ert. specialize (Hrun path timeout). rewrite Ert in Hrun. cbn in Hrun.
    assert (Ha : exists r, analyze_file path t l now completed = Some r) by (destruct t; [by eexists|done|]; cbn [analyze_file]; destruct (classify (observed l)); by eexists).
    destruct Ha as [r Ha]. set (m1 := Machine (fst (worker_finish (engine m) path r completed)) None).
    assert (Hact : act m (Finish t l now completed) = Some m1) by (unfold act; by rewrite Er, Ha).
    destruct (IH (steps_left m1) ltac:(unfold steps_left; cbn; lia) (rs ++ [r]) m1 (run_finish _ _ _ _ _ _ _ _ _ _ _ Hm Er Ha Hact) eq_refl) as (rs' & m' & Hs & Hr' & Hu).
    exists (r :: rs'), m'. rewrite <- app_assoc in Hr'. split_and!; [|done|done]. rewrite En. cbn [Nat.add worker_steps]. unfold worker_next at 1. rewrite Er, Ert, Hact. exact Hs.
  - destruct (pending_queue_ (engine m)) as [|[path timeout] queue] eqn:Eq.
    { exists [], m. rewrite En, app_nil_r. split_and!; [done|done|]. unfold unanswered. by rewrite Er, Eq. }
    assert (Hp : path <> EmptyString).
    { pose proof (ro_paths _ _ _ Hok) as Hp. rewrite Forall_forall in Hp. assert (Hin : (path, timeout) ∈ unanswered m) by (unfold unanswered; rewrite Er, Eq; left).
      rewrite (ro_unanswered _ _ _ Hok) in Hin. apply (subseteq_drop _ _ _), list_elem_of_fmap in Hin as (sub & E & Hsub). specialize (Hp sub Hsub). by rewrite <- E in Hp. }
    set (m1 := Machine (Sandbox (analyses_ (engine m)) queue (sb_next_id (engine m)) (sb_events_processed (engine m)) (sb_threats_detected (engine m))) (Some (path, timeout))).
    assert (Hact : act m Take = Some m1).
    { unfold act, worker_take. rewrite Er, Eq. destruct (empty_string path) eqn:Ee; [by apply empty_string_spec in Ee|done]. }
    destruct (IH (steps_left m1) ltac:(unfold steps_left; cbn; cbn in En; lia) rs m1 (run_take _ _ _ _ Hm Hact) eq_refl) as (rs' & m' & Hs & Hr' & Hu).
    exists rs', m'. split_and!; [|done|done]. rewrite En. cbn [length Nat.mul Nat.add]. rewrite Nat.add_succ_r. cbn [worker_steps]. unfold worker_next at 1. rewrite Er, Hact.
    replace (length queue + S (length queue + 0))%nat with (steps_left m1) by (unfold steps_left; cbn; lia). exact Hs.
Qed.

(** [n] turns one behind the other. *)
Fixpoint turns (n : nat) (st : SandboxEngine) (run : string -> Z -> target * launch) (now completed : Z) : option SandboxEngine :=
  match n with
  | O => Some st
  | S n => match worker_turn st run now completed with Some (st', _) => turns n st' run now completed | None => None end
  end.

(** ** Properties *)

(** the score is exactly the sum of the weights, cut at 100, with no rounding: a behavior is
    malicious from 70 on and suspicious from 30 on, and every score divided by 100 is a valid
    confidence. *)
Theorem classify_exact (b : SandboxBehavior) :
  Z.of_nat (length (suspicious_apis b)) < 2 ^ 40 ->
  let '(verdict, risk) := classify b in
  risk = dz (Z.min (risk_sum b) 100) /\ 0 <= risk_sum b /\
  (verdict = MALICIOUS <-> 70 <= risk_sum b) /\ (verdict = SUSPICIOUS <-> 30 <= risk_sum b < 70) /\ (verdict = CLEAN <-> risk_sum b < 30) /\
  is_double (ddiv risk (dz 100)) = true /\ unit_interval (ddiv risk (dz 100)) = true.
Proof.
  intros H. destruct (classify_sum b H) as [-> H0]. pose proof (confidence_of_risk (Z.min (risk_sum b) 100) ltac:(lia)) as [H1 H2].
  unfold verdict_sum. destruct (Z.leb_spec 70 (risk_sum b)); [|destruct (Z.leb_spec 30 (risk_sum b))]; split_and!; try done; split; try done; lia.
Qed.

Definition injector : SandboxBehavior := monitor_process true (replicate 11 (Seen (Some 9) (Some 3) 1)).

Lemma classify_exact_witness : fst (classify injector) = SUSPICIOUS /\ snd (classify injector) = dz 45.
Proof.
  pose proof (classify_exact injector ltac:(cbn; lia)) as H. destruct (classify injector) as [v r]. destruct H as (Hr & _ & _ & Hs & _). split.
  - apply Hs. vm_compute. split; [discriminate|reflexivity].
  - rewrite Hr. reflexivity.
Defined.

(** the polls of a process add up: children and writable-executable regions are counted again at
    every poll, and injection is reported exactly when the sum of the regions over all polls
    exceeds ten; so a process that never changes and has one such region is reported from its
    eleventh poll on. *)
Theorem polls_accumulate (polls : list Poll) (p : Poll) (k : nat) :
  Forall poll_ok polls -> total rwx_regions polls < 2 ^ 64 -> total (fun p => default 0 (children p)) polls < 2 ^ 64 ->
  let b := monitor_process true polls in
  memory_allocations b = total rwx_regions polls /\ child_processes b = total (fun p => default 0 (children p)) polls /\
  (attempted_process_injection b = true <-> 10 < total rwx_regions polls) /\
  (polls = replicate k p -> (attempted_process_injection b = true <-> 10 < Z.of_nat k * rwx_regions p)).
Proof.
  intros Hok H1 H2. cbv zeta. destruct (polls_add_up polls Hok H1 H2) as (E1 & E2 & E3). unfold monitor_process. rewrite E1, E2, E3.
  split_and!; [done|done|apply Z.ltb_lt|]. intros ->. rewrite total_replicate. apply Z.ltb_lt.
Qed.

Lemma polls_accumulate_witness : attempted_process_injection injector = true /\ child_processes injector = 33.
Proof.
  destruct (polls_accumulate (replicate 11 (Seen (Some 9) (Some 3) 1)) (Seen (Some 9) (Some 3) 1) 11) as (_ & H2 & H3 & _).
  - repeat constructor; cbn; lia.
  - reflexivity.
  - reflexivity.
  - split; [apply H3; reflexivity|exact H2].
Defined.

(** whatever a program does in the sandbox, its score is at most 50: no analysis is malicious and
    the engine never raises a threat; what it says are observations with a valid confidence. *)
Theorem sandbox_never_convicts (st : SandboxEngine) (run : string -> Z -> target * launch) (now completed : Z) (st' : SandboxEngine) (outs : list output) :
  worker_turn st run now completed = Some (st', outs) ->
  sb_threats_detected st' = sb_threats_detected st /\
  Forall (fun o => exists s level evidence path, 0 <= s <= 50 /\ unit_interval (ddiv (dz s) (dz 100)) = true /\
    o = Observed (sandbox_observation level (ddiv (dz s) (dz 100)) evidence path completed)) outs /\
  (length outs <= 1)%nat.
Proof.
  unfold worker_turn. destruct (worker_take st) as [job st1] eqn:Et.
  assert (Ed : sb_threats_detected st1 = sb_threats_detected st) by (unfold worker_take in Et; destruct (pending_queue_ st) as [|[p q] rest]; by injection Et as _ <-).
  destruct job as [[path timeout]|]; [|intros [= <- <-]; split_and!; [done|by apply Forall_nil|cbn; lia]].
  destruct (run path timeout) as [t l]. destruct (analyze_file path t l now completed) as [r|] eqn:Er; [|done]. intros [= <- <-].
  destruct (analyze_result _ _ _ _ _ _ Er) as (_ & _ & Hm & s & Hs & Hr). cbn [sb_threats_detected]. rewrite bool_decide_eq_false_2 by done.
  split; [done|]. unfold outputs_of. destruct (sa_verdict r); try done; (split; [|cbn; lia]); try (by apply Forall_nil).
  apply Forall_singleton. exists s, MEDIUM, (sa_summary r), path. rewrite Hr. split_and!; [lia|lia| |done]. apply confidence_of_risk. lia.
Qed.

Definition one_waiting : SandboxEngine := snd (submit no_sandbox "C:\a.exe" 30000 5).

Lemma sandbox_never_convicts_witness :
  match worker_turn one_waiting (fun _ _ => (Present, Ran true (replicate 11 (Seen (Some 9) (Some 3) 1)))) 6 7 with
  | Some (st', outs) => sb_threats_detected st' = 0 /\ (length outs <= 1)%nat
  | None => False
  end.
Proof.
  destruct (worker_turn one_waiting _ 6 7) as [[st' outs]|] eqn:E; [|discriminate E].
  destruct (sandbox_never_convicts _ _ _ _ _ _ E) as (H1 & _ & H3). split; [exact H1|exact H3].
Defined.

(** C30: submissions by any threads, the worker taking the front of the queue, and the worker finishing an
    analysis may follow one another in any order, an analysis lasting over any number of
    submissions.  While no submitted path is empty and fewer than 500 submissions are unanswered at
    each new one: the entries kept are those of the latest 500 submissions, numbered in order, each
    with the result of the analysis of its own path when that is done and waiting otherwise; the one
    being analysed and then the queue are exactly the unanswered ones, in order; and when no path
    left is one that cannot be sized (which ends the process), the worker alone answers all of them
    in two steps for each that is queued and one for the one it is at, and then no entry waits. *)
Theorem sandbox_drains (subs : list (string * Z * Z)) (rs : list SandboxAnalysis) (m : machine)
    (run : string -> Z -> target * launch) (now completed : Z) :
  sandbox_run subs rs m -> (forall path timeout, fst (run path timeout) <> Unsized) ->
  let entry results i sub :=
    let id := u64 (1 + Z.of_nat i) in
    match results !! i with Some r => with_id r id | None => submitted id sub.1.1 sub.2 end in
  analyses_ (engine m) = last_n 500 (imap (entry rs) subs) /\
  match running m with Some job => [job] | None => [] end ++ pending_queue_ (engine m) = drop (length rs) (fst <$> subs) /\
  (forall i r, rs !! i = Some r -> sa_verdict r <> PENDING /\ exists sub, subs !! i = Some sub /\ sa_file_path r = sub.1.1) /\
  exists rs' m', worker_steps (match running m with Some _ => 1 | None => 0 end + 2 * length (pending_queue_ (engine m))) run now completed m = Some m' /\
    length (rs ++ rs') = length subs /\ running m' = None /\ pending_queue_ (engine m') = [] /\
    analyses_ (engine m') = last_n 500 (imap (entry (rs ++ rs')) subs) /\
    Forall (fun a => sa_verdict a <> PENDING) (analyses_ (engine m')) /\
    (fun a => (sa_id a, sa_file_path a)) <$> analyses_ (engine m') = (fun a => (sa_id a, sa_file_path a)) <$> analyses_ (engine m).
Proof.
  intros Hm Hrun entry. pose proof (sandbox_run_ok _ _ _ Hm) as Hok.
  split; [exact (ro_analyses _ _ _ Hok)|]. split; [exact (ro_unanswered _ _ _ Hok)|]. split; [exact (ro_results _ _ _ Hok)|].
  destruct (worker_drains run now completed Hrun subs rs m Hm) as (rs' & m' & Hs & Hm' & Hu). exists rs', m'. split; [exact Hs|].
  pose proof (sandbox_run_ok _ _ _ Hm') as Hok'. pose proof (unanswered_length _ _ _ Hok') as Hlen. rewrite Hu in Hlen. cbn in Hlen.
  pose proof (ro_answered _ _ _ Hok') as Hle. unfold unanswered in Hu. apply app_eq_nil in Hu as [Hu1 Hu2]. split_and!.
  - lia.
  - by destruct (running m').
  - exact Hu2.
  - exact (ro_analyses _ _ _ Hok').
  - rewrite (ro_analyses _ _ _ Hok'). apply Forall_last_n, Forall_lookup. intros i x Hx. rewrite list_lookup_imap in Hx.
    destruct (subs !! i) as [sub|] eqn:Ei; [|discriminate Hx]. cbn in Hx. injection Hx as <-. unfold entry_of. apply lookup_lt_Some in Ei.
    destruct (lookup_lt_is_Some_2 (rs ++ rs') i ltac:(lia)) as [r Hr]. rewrite Hr. apply (ro_results _ _ _ Hok' i r Hr).
  - rewrite (ro_analyses _ _ _ Hok), (ro_analyses _ _ _ Hok'). by rewrite (entries_keep _ _ _ Hok), (entries_keep _ _ _ Hok').
Qed.

Lemma sandbox_drains_witness :
  exists (rs' : list SandboxAnalysis) m', worker_steps 3 (fun _ _ => (Missing, NoJob)) 6 7 (Machine (snd (submit (snd (worker_take one_waiting)) "C:\b.exe" 30000 6)) (Some ("C:\a.exe"%string, 30000))) = Some m' /\
    length rs' = 2%nat /\ Forall (fun a => sa_verdict a <> PENDING) (analyses_ (engine m')).
Proof.
  assert (H1 : sandbox_run [("C:\a.exe"%string, 30000, 5)] [] (Machine one_waiting None)) by (apply (run_submit [] [] (Machine no_sandbox None)); [apply run_new|discriminate|cbn; lia|reflexivity]).
  assert (H2 : sandbox_run [("C:\a.exe"%string, 30000, 5)] [] (Machine (snd (worker_take one_waiting)) (Some ("C:\a.exe"%string, 30000)))) by (eapply run_take; [exact H1|reflexivity]).
  assert (H3 : sandbox_run [("C:\a.exe"%string, 30000, 5); ("C:\b.exe"%string, 30000, 6)] [] (Machine (snd (submit (snd (worker_take one_waiting)) "C:\b.exe" 30000 6)) (Some ("C:\a.exe"%string, 30000))))
    by (apply (run_submit _ _ _ _ "C:\b.exe" 30000 6 H2); [discriminate|cbn; lia|reflexivity]).
  destruct (sandbox_drains _ _ _ (fun _ _ => (Missing, NoJob)) 6 7 H3 ltac:(discriminate)) as (_ & _ & _ & rs' & m' & Hs & Hl & _ & _ & _ & Hw & _).
  exists rs', m'. split; [exact Hs|]. split; [exact Hl|exact Hw].
Defined.

(** A submission of an empty path is taken from the queue and never answered. *)
Lemma empty_path_waits (run : string -> Z -> target * launch) (now completed : Z) (n : nat) :
  match turns (S n) (snd (submit no_sandbox EmptyString 30000 5)) run now completed with
  | Some st => pending_queue_ st = [] /\ sa_verdict (get_analysis st 1) = PENDING
  | None => False
  end.
Proof. cbn [turns]. assert (H : forall st, pending_queue_ st = [] -> sa_verdict (get_analysis st 1) = PENDING ->
    match turns n st run now completed with Some st => pending_queue_ st = [] /\ sa_verdict (get_analysis st 1) = PENDING | None => False end).
  { induction n as [|n IH]; intros st H1 H2; [done|]. cbn [turns]. unfold worker_turn, worker_take. rewrite H1. cbn. by apply IH. }
  cbn. by apply H.
Qed.

(** A path that exists but whose size cannot be asked for, as one removed in between, ends the process. *)
Lemma unsized_ends_process : worker_turn (snd (submit no_sandbox "C:\a.exe" 30000 5)) (fun _ _ => (Unsized, NoJob)) 6 7 = None.
Proof. reflexivity. Qed.
