(* ===== verification/EtgRi.v ===== *)
(** * EtgRi: raw packets

    Models src/src/engines/etg_ri_engine.cpp: the header of a captured packet, the statistics of
    its payload, the rate of an address and the list of blocked addresses.  Logarithms and
    formats are arguments; the socket is not modelled: a packet is the bytes [recv] returned.
    Times are nanoseconds of the steady clock. *)
From S2P Require Import Prelude BoundedLog Float64 Entropy Observation Text Threat.

Record PacketStats := Stats {
  ps_shannon_entropy : double;
  ps_chi_squared : double;
  ps_src_ip : Z;
  ps_dst_ip : Z;
  ps_src_port : Z;
  ps_dst_port : Z;
  ps_protocol : Z;
  ps_payload_len : Z;
  ps_timestamp : Z;
}.

Definition WINDOW_SIZE : Z := 64.
Definition ENTROPY_THRESH_HIGH : double := dlit 75 10.
Definition ENTROPY_THRESH_LOW : double := dlit 5 10.
Definition CHI2_THRESH : double := dz 400.
Definition FLOOD_THRESH : Z := 500.
Definition FLOOD_WINDOW : Z := 10 ^ 9.

Record EtgRi := Etg {
  sliding_window_ : list PacketStats;
  conn_tracker_ : gmap Z (list Z);
  blocked_ips_ : list Z;
  et_events_processed : Z;
  et_threats_detected : Z;
  packets_captured_ : Z;
}.

Definition no_packets : EtgRi := Etg [] ∅ [] 0 0 0.

(** ** The rate of an address *)

(** [while (!times.empty() && (now - times.front()) > FLOOD_WINDOW) times.erase(times.begin())] *)
Fixpoint drop_old (now : Z) (times : list Z) : list Z :=
  match times with
  | [] => []
  | t :: rest => if FLOOD_WINDOW <? now - t then drop_old now rest else times
  end.

(** The pass over a tracker that has grown. *)
Definition prune (tracker : gmap Z (list Z)) (now : Z) : gmap Z (list Z) :=
  if 512 <? Z.of_nat (size tracker) then filter (fun p => snd p <> []) (drop_old now <$> tracker) else tracker.

Definition is_flood (tracker : gmap Z (list Z)) (src_ip now : Z) : bool * gmap Z (list Z) :=
  let tracker := prune tracker now in
  let times := drop_old now (default [] (tracker !! src_ip) ++ [now]) in
  (FLOOD_THRESH <? Z.of_nat (length times), <[src_ip := times]> tracker).

(** ** Blocked addresses *)

Definition is_blocked (st : EtgRi) (ip : Z) : bool := bool_decide (ip ∈ blocked_ips_ st).

Definition with_blocked (st : EtgRi) (ips : list Z) : EtgRi :=
  Etg (sliding_window_ st) (conn_tracker_ st) ips (et_events_processed st) (et_threats_detected st) (packets_captured_ st).

Definition block_ip (st : EtgRi) (ip : Z) : EtgRi := if is_blocked st ip then st else with_blocked st (blocked_ips_ st ++ [ip]).

Definition unblock_ip (st : EtgRi) (ip : Z) : EtgRi := with_blocked st (filter (fun x => x <> ip) (blocked_ips_ st)).

Definition recent_packets (st : EtgRi) (n : Z) : list PacketStats := latest n (sliding_window_ st).

(** ** A packet *)

#[local] Open Scope word_scope.

Definition ip_str (ip : Z) : string :=
  print_int ((ip >>> 24) .& 255) +:+ "." +:+ print_int ((ip >>> 16) .& 255) +:+ "." +:+ print_int ((ip >>> 8) .& 255) +:+ "." +:+ print_int (ip .& 255).

Definition etg_threat (cat : ThreatCategory) (desc : string) (src_ip port : Z) : ThreatEvent :=
  Event 0 0 HIGH cat 0 EmptyString EmptyString desc (ip_str src_ip) port false false.

(** Four bytes as they stand, the first the highest, and two. *)
Definition word32 (data : ptr) (i : Z) : mem Z :=
  (let* a := rd data i in let* b := rd data (i + 1) in let* c := rd data (i + 2) in let* d := rd data (i + 3) in
   Val (Z.lor (Z.lor (Z.lor (u32 (bval a <<< 24)) (u32 (bval b <<< 16))) (u32 (bval c <<< 8))) (bval d)))%mem.

Definition word16 (data : ptr) (i : Z) : mem Z :=
  (let* a := rd data i in let* b := rd data (i + 1) in Val (u16 (Z.lor (bval a <<< 8) (bval b))))%mem.

Section packets.
Context (log2 : double -> double) (format1 format2 : double -> string).

Definition compute_stats (payload : list byte) (src dst sp dp proto now : Z) : PacketStats :=
  Stats (shannon_entropy log2 payload) (chi_squared payload) src dst sp dp proto (Z.of_nat (length payload)) now.

Definition entropy_high_text (s : PacketStats) : string :=
  "High entropy payload (" +:+ format2 (ps_shannon_entropy s) +:+ " bits) from " +:+ ip_str (ps_src_ip s) +:+ ":" +:+ print_int (ps_src_port s).

Definition entropy_low_text (s : PacketStats) : string :=
  "Suspiciously low entropy (" +:+ format2 (ps_shannon_entropy s) +:+ ") " +:+ em_dash +:+ " possible structured attack from " +:+ ip_str (ps_src_ip s).

Definition chi_text (s : PacketStats) : string := "Chi-squared anomaly (" +:+ format1 (ps_chi_squared s) +:+ ") from " +:+ ip_str (ps_src_ip s).

Definition flood_text (src_ip : Z) : string := "Flood detected from " +:+ ip_str src_ip +:+ " (" +:+ print_int FLOOD_THRESH +:+ "+ pkts/s)".

(** The three tests of the statistics. *)
Definition payload_threats (s : PacketStats) : list ThreatEvent :=
  let say cat text := [etg_threat cat text (ps_src_ip s) (ps_src_port s)] in
  (if dlt ENTROPY_THRESH_HIGH (ps_shannon_entropy s) && (100 <? ps_payload_len s) then say ENTROPY_ANOMALY (entropy_high_text s) else []) ++
  (if dlt (ps_shannon_entropy s) ENTROPY_THRESH_LOW && (200 <? ps_payload_len s) then say ENTROPY_ANOMALY (entropy_low_text s) else []) ++
  (if dlt CHI2_THRESH (ps_chi_squared s) && (64 <? ps_payload_len s) then say RAW_SOCKET_PROBE (chi_text s) else []).

(** What the engine does with the statistics of a packet that is not blocked. *)
Definition judge_packet (st : EtgRi) (s : PacketStats) (now : Z) : EtgRi * list ThreatEvent :=
  let window := push_bounded WINDOW_SIZE (sliding_window_ st) s in
  let '(flood, tracker) := is_flood (conn_tracker_ st) (ps_src_ip s) now in
  let outs := payload_threats s ++ (if flood then [etg_threat SYN_FLOOD (flood_text (ps_src_ip s)) (ps_src_ip s) (ps_src_port s)] else []) in
  let st := Etg window tracker (blocked_ips_ st) (u64 (et_events_processed st + 1)) (u64 (et_threats_detected st + Z.of_nat (length outs))) (packets_captured_ st) in
  (if flood then block_ip st (ps_src_ip s) else st, outs).

Definition analyze_packet (st : EtgRi) (data : ptr) (len now : Z) : mem (EtgRi * list ThreatEvent) :=
  if len <? 20 then Val (st, [])
  else
    (let* first := rd data 0 in
     if negb ((bval first >>> 4) .& 15 =? 4) then Val (st, [])
     else
       let ihl := u8 (((bval first) .& 15) * 4) in
       if len <? ihl then Val (st, [])
       else
         let* src := word32 data 12 in
         let* dst := word32 data 16 in
         let* proto := rd data 9 in
         if is_blocked st src then Val (st, [])
         else
           let plen := len - ihl in
           let* payload := slice data ihl plen in
           if ((bval proto =? 6) || (bval proto =? 17)) && (4 <=? plen) then
             let* sp := word16 data ihl in
             let* dp := word16 data (ihl + 2) in
             Val (judge_packet st (compute_stats payload src dst sp dp (bval proto) now) now)
           else Val (judge_packet st (compute_stats payload src dst 0 0 (bval proto) now) now))%mem.

(** A turn of the capture loop; [received] is what [recv] returned. *)
Definition capture_turn (st : EtgRi) (received : list byte) (now : Z) : mem (EtgRi * list ThreatEvent) :=
  match received with
  | [] => Val (st, [])
  | _ =>
      let st := Etg (sliding_window_ st) (conn_tracker_ st) (blocked_ips_ st) (et_events_processed st) (et_threats_detected st) (u64 (packets_captured_ st + 1)) in
      analyze_packet st (Some received) (Z.of_nat (length received)) now
  end.
End packets.

(** ** Lemmas *)

(** *** The window of an address *)

Definition fresh (now t : Z) : Prop := now - t <= FLOOD_WINDOW.

#[local] Instance fresh_dec now t : Decision (fresh now t).
Proof. unfold fresh. apply _. Defined.

Lemma drop_old_sorted now times : StronglySorted Z.le times -> drop_old now times = filter (fresh now) times.
Proof.
  induction 1 as [|t rest _ IH Ht]; [done|]. cbn [drop_old]. destruct (Z.ltb_spec FLOOD_WINDOW (now - t)) as [Hn|Hn].
  - by rewrite filter_cons_False by (unfold fresh; lia).
  - rewrite filter_cons_True by (unfold fresh; lia). f_equal. symmetry. clear IH. induction Ht as [|x l Hx Hl IH]; [done|].
    rewrite filter_cons_True by (unfold fresh; lia). by rewrite IH.
Qed.

Lemma sorted_filter (P : Z -> Prop) `{Hdec : !forall x, Decision (P x)} l : StronglySorted Z.le l -> StronglySorted Z.le (filter P l).
Proof.
  induction 1 as [|t rest _ IH Ht]; [constructor|]. destruct (decide (P t)) as [Hp|Hp].
  - rewrite filter_cons_True by done. constructor; [done|]. apply Forall_forall. intros x Hx. apply list_elem_of_filter in Hx as [_ Hx].
    rewrite Forall_forall in Ht. by apply Ht.
  - by rewrite filter_cons_False.
Qed.

(** The packets of an address among those seen, oldest first. *)
Definition times_of (ip : Z) (seen : list (Z * Z)) : list Z := snd <$> filter (fun x => fst x = ip) seen.

(** The packets of an address in the second before [now]. *)
Definition rate (ip now : Z) (seen : list (Z * Z)) : Z := Z.of_nat (length (filter (fresh now) (times_of ip seen))).

(** The tracker holds for each address the end of its times that is fresh at [last], and maybe more. *)
Definition tracks (seen : list (Z * Z)) (last : Z) (tracker : gmap Z (list Z)) : Prop :=
  forall ip, exists cut, cut <= last /\ default [] (tracker !! ip) = filter (fresh cut) (times_of ip seen).

Lemma fresh_twice cut now (l : list Z) : cut <= now -> filter (fresh now) (filter (fresh cut) l) = filter (fresh now) l.
Proof.
  intros H. rewrite list_filter_filter. apply list_filter_iff. intros t. unfold fresh. lia.
Qed.

Lemma times_sorted ip seen : StronglySorted Z.le (snd <$> seen) -> StronglySorted Z.le (times_of ip seen).
Proof.
  unfold times_of. induction seen as [|[i t] seen IH]; intros H; [constructor|]. cbn [fmap list_fmap snd] in H. inversion H as [|? ? H1 H2]; subst.
  destruct (decide (i = ip)) as [E|E]; [rewrite filter_cons_True by done|rewrite filter_cons_False by done; by apply IH].
  cbn [fmap list_fmap snd]. constructor; [by apply IH|]. apply Forall_forall. intros x Hx. rewrite Forall_forall in H2. apply H2.
  apply list_elem_of_fmap in Hx as (p & -> & Hp). apply list_elem_of_filter in Hp as [_ Hp]. by apply list_elem_of_fmap_2.
Qed.

Lemma tracks_drop seen last tracker now ip : StronglySorted Z.le (snd <$> seen) -> tracks seen last tracker -> last <= now ->
  drop_old now (default [] (tracker !! ip)) = filter (fresh now) (times_of ip seen).
Proof.
  intros Hs Ht Hn. destruct (Ht ip) as (cut & Hc & ->). rewrite drop_old_sorted by (by apply sorted_filter, times_sorted).
  apply fresh_twice. lia.
Qed.

Lemma prune_tracks seen last tracker now : StronglySorted Z.le (snd <$> seen) -> tracks seen last tracker -> last <= now -> tracks seen now (prune tracker now).
Proof.
  intros Hs Ht Hn. unfold prune. destruct (512 <? Z.of_nat (size tracker)).
  - intros ip. exists now. split; [lia|]. rewrite <- (tracks_drop seen last tracker now ip Hs Ht Hn). rewrite map_lookup_filter, lookup_fmap.
    destruct (tracker !! ip) as [l|]; [|done]. cbn. destruct (drop_old now l) as [|t rest] eqn:E; [by rewrite option_guard_False by naive_solver|].
    by rewrite option_guard_True.
  - intros ip. destruct (Ht ip) as (cut & Hc & E). exists cut. split; [lia|done].
Qed.

Lemma times_of_snoc ip seen i t : times_of ip (seen ++ [(i, t)]) = times_of ip seen ++ (if bool_decide (i = ip) then [t] else []).
Proof.
  unfold times_of. rewrite filter_app, fmap_app. f_equal. destruct (decide (i = ip)) as [E|E].
  - rewrite filter_cons_True, bool_decide_eq_true_2 by done. done.
  - rewrite filter_cons_False, bool_decide_eq_false_2 by done. done.
Qed.

Lemma is_flood_spec seen last tracker ip now : StronglySorted Z.le (snd <$> seen) -> tracks seen last tracker ->
  Forall (fun t => t <= last) (snd <$> seen) -> last <= now ->
  fst (is_flood tracker ip now) = (FLOOD_THRESH <? rate ip now (seen ++ [(ip, now)])) /\ tracks (seen ++ [(ip, now)]) now (snd (is_flood tracker ip now)).
Proof.
  intros Hs Ht Hl Hn. pose proof (prune_tracks _ _ _ _ Hs Ht Hn) as Hp. unfold is_flood. set (m := prune tracker now) in *. clearbody m. cbn [fst snd].
  assert (Hf : filter (fresh now) [now] = [now]) by (rewrite filter_cons_True by (unfold fresh, FLOOD_WINDOW; lia); done).
  assert (E : drop_old now (default [] (m !! ip) ++ [now]) = filter (fresh now) (times_of ip (seen ++ [(ip, now)]))).
  { rewrite times_of_snoc, bool_decide_eq_true_2, filter_app, Hf by done. destruct (Hp ip) as (cut & Hc & ->).
    rewrite drop_old_sorted; [by rewrite filter_app, Hf, fresh_twice|].
    apply StronglySorted_app_2; [|by apply sorted_filter, times_sorted|repeat constructor].
    intros x y Hx Hy%list_elem_of_singleton. subst y. apply list_elem_of_filter in Hx as [_ Hx]. unfold times_of in Hx. apply list_elem_of_fmap in Hx as (p & -> & Hx).
    apply list_elem_of_filter in Hx as [_ Hx]. rewrite Forall_forall in Hl. specialize (Hl (snd p) (list_elem_of_fmap_2 _ _ _ Hx)). lia. }
  rewrite E. split; [done|]. intros i. destruct (decide (i = ip)) as [-> |Hne].
  - exists now. split; [lia|]. by rewrite lookup_insert_eq.
  - rewrite lookup_insert_ne, times_of_snoc, bool_decide_eq_false_2, app_nil_r by done. apply Hp.
Qed.

(** The tracker behind any calls at times that never go back. *)
Fixpoint track (tracker : gmap Z (list Z)) (seen : list (Z * Z)) : gmap Z (list Z) :=
  match seen with [] => tracker | (ip, now) :: seen => track (snd (is_flood tracker ip now)) seen end.

Lemma track_tracks later : forall seen last tracker, StronglySorted Z.le (snd <$> seen ++ later) -> tracks seen last tracker ->
  Forall (fun t => t <= last) (snd <$> seen) -> Forall (fun t => last <= t) (snd <$> later) ->
  exists last', tracks (seen ++ later) last' (track tracker later) /\ Forall (fun t => t <= last') (snd <$> seen ++ later) /\
    (forall t, Forall (fun x => x <= t) (snd <$> seen ++ later) -> last <= t -> last' <= t).
Proof.
  induction later as [|[ip now] later IH]; intros seen last tracker Hs Ht Hl Hg.
  - exists last. rewrite app_nil_r. by split_and!.
  - cbn [fmap list_fmap snd] in Hg. apply Forall_cons in Hg as [Hn Hg]. cbn [track].
    assert (E : seen ++ (ip, now) :: later = (seen ++ [(ip, now)]) ++ later) by by rewrite <- app_assoc. rewrite E in *.
    assert (Hs1 : StronglySorted Z.le (snd <$> seen)).
    { rewrite <- app_assoc, fmap_app in Hs. by apply StronglySorted_app_1_l in Hs. }
    destruct (is_flood_spec seen last tracker ip now Hs1 Ht Hl Hn) as [_ Ht'].
    destruct (IH (seen ++ [(ip, now)]) now (snd (is_flood tracker ip now)) Hs Ht') as (last' & H1 & H2 & H3).
    + rewrite fmap_app. apply Forall_app. split; [eapply Forall_impl; [exact Hl|cbn; lia]|]. apply Forall_singleton. cbn. lia.
    + rewrite fmap_app in Hs. apply StronglySorted_app in Hs as (H & _ & _). apply Forall_forall. intros t Hin. apply H; [|done].
      rewrite fmap_app. apply elem_of_app. right. by apply list_elem_of_singleton.
    + exists last'. split_and!; [done|done|]. intros t Hall Hlt. apply H3; [done|]. rewrite !fmap_app, !Forall_app in Hall. destruct Hall as [[_ Hall] _].
      cbn in Hall. apply Forall_cons in Hall as [Hall _]. exact Hall.
Qed.

(** *** Reads *)

Lemma word32_safe d i : 0 <= i -> i + 4 <= Z.of_nat (length d) -> exists v, word32 (Some d) i = Val v.
Proof.
  intros H1 H2. unfold word32.
  assert (Hr : forall j, 0 <= j < Z.of_nat (length d) -> exists b, rd (Some d) j = Val b).
  { intros j Hj. destruct (safe_inv _ _ (rd_safe d j Hj)) as (b & -> & _). by exists b. }
  destruct (Hr i ltac:(lia)) as [a ->], (Hr (i + 1) ltac:(lia)) as [b ->], (Hr (i + 2) ltac:(lia)) as [c ->], (Hr (i + 3) ltac:(lia)) as [e ->].
  cbn [mem_bind]. by eexists.
Qed.

Lemma word16_safe d i : 0 <= i -> i + 2 <= Z.of_nat (length d) -> exists v, word16 (Some d) i = Val v /\ 0 <= v < 2 ^ 16.
Proof.
  intros H1 H2. unfold word16.
  destruct (safe_inv _ _ (rd_safe d i ltac:(lia))) as (a & -> & _), (safe_inv _ _ (rd_safe d (i + 1) ltac:(lia))) as (b & -> & _).
  cbn [mem_bind]. eexists. split; [done|]. unfold u16. apply Z.mod_pos_bound. lia.
Qed.

Section packets.
Context (log2 : double -> double) (format1 format2 : double -> string).
Implicit Types (st : EtgRi).

(** A packet that is looked at ends in [judge_packet] with what its bytes say. *)
Lemma analyze_packet_cases st d now :
  exists r, analyze_packet log2 format1 format2 st (Some d) (Z.of_nat (length d)) now = Val r /\
  (r = (st, []) \/
   exists payload src dst sp dp proto, is_blocked st src = false /\ infix_of payload d /\
     r = judge_packet format1 format2 st (compute_stats log2 payload src dst sp dp proto now) now).
Proof.
  unfold analyze_packet. destruct (Z.ltb_spec (Z.of_nat (length d)) 20) as [H|H]; [eexists; split; [done|by left]|].
  destruct (safe_inv _ _ (rd_safe d 0 ltac:(lia))) as (first & -> & _). cbn [mem_bind].
  destruct (negb _); [eexists; split; [done|by left]|]. set (ihl := u8 _).
  destruct (Z.ltb_spec (Z.of_nat (length d)) ihl) as [Hi|Hi]; [eexists; split; [done|by left]|].
  assert (Hihl : 0 <= ihl) by (unfold ihl, u8; apply Z.mod_pos_bound; lia).
  destruct (word32_safe d 12 ltac:(lia) ltac:(lia)) as [src ->], (word32_safe d 16 ltac:(lia) ltac:(lia)) as [dst ->]. cbn [mem_bind].
  destruct (safe_inv _ _ (rd_safe d 9 ltac:(lia))) as (proto & -> & _). cbn [mem_bind].
  destruct (is_blocked st src) eqn:Eb; [eexists; split; [done|by left]|].
  destruct (safe_inv _ _ (slice_safe d ihl (Z.of_nat (length d) - ihl) ltac:(lia) ltac:(lia) ltac:(lia))) as (payload & E & Hp). rewrite E. cbn [mem_bind].
  assert (Hpay : infix_of payload d) by (unfold slice in E; destruct (_ && _) in E; [|done]; injection E as <-; apply infix_take_drop).
  destruct (((bval proto =? 6) || (bval proto =? 17)) && (4 <=? Z.of_nat (length d) - ihl)) eqn:Ep.
  - apply andb_true_iff in Ep as [_ Ep%Z.leb_le]. destruct (word16_safe d ihl ltac:(lia) ltac:(lia)) as (sp & -> & _), (word16_safe d (ihl + 2) ltac:(lia) ltac:(lia)) as (dp & -> & _).
    cbn [mem_bind]. eexists. split; [done|]. right. by exists payload, src, dst, sp, dp, (bval proto).
  - eexists. split; [done|]. right. by exists payload, src, dst, 0, 0, (bval proto).
Qed.
End packets.

Definition ip_a : Z := 0x0A000001.

(** ** Properties *)

(** C13: whatever bytes are captured, the analysis stays inside of them; a packet that is short, not of
    version 4, cut within its header or from a blocked address changes nothing and raises
    nothing, and any other is judged by a piece of its own bytes. *)
Theorem etg_packets_in_bounds (log2 : double -> double) (format1 format2 : double -> string) (st : EtgRi) (d : list byte) (now : Z) :
  exists r, analyze_packet log2 format1 format2 st (Some d) (Z.of_nat (length d)) now = Val r /\
  (r = (st, []) \/
   exists payload src dst sp dp proto, is_blocked st src = false /\ infix_of payload d /\
     r = judge_packet format1 format2 st (compute_stats log2 payload src dst sp dp proto now) now) /\
  (forall src, word32 (Some d) 12 = Val src -> is_blocked st src = true -> r = (st, [])).
Proof.
  destruct (analyze_packet_cases log2 format1 format2 st d now) as (r & E & Hr). exists r. split_and!; [done|done|].
  intros src Hsrc Hb. revert E. unfold analyze_packet. destruct (_ <? 20); [by intros [= <-]|].
  destruct (rd (Some d) 0) as [first|]; cbn [mem_bind]; [|done]. destruct (negb _); [by intros [= <-]|]. destruct (_ <? _); [by intros [= <-]|].
  rewrite Hsrc. cbn [mem_bind]. destruct (word32 (Some d) 16); cbn [mem_bind]; [|done]. destruct (rd (Some d) 9); cbn [mem_bind]; [|done].
  rewrite Hb. by intros [= <-].
Qed.

Definition some_packet : list byte := byte_of <$> [0x45; 0; 0; 24; 0; 0; 0; 0; 64; 6; 0; 0; 10; 0; 0; 1; 10; 0; 0; 2; 0x1F; 0x90; 0; 80].

Lemma etg_packets_in_bounds_witness :
  analyze_packet (fun x => x) (fun _ => EmptyString) (fun _ => EmptyString) (block_ip no_packets ip_a) (Some some_packet) 24 5 = Val (block_ip no_packets ip_a, []).
Proof.
  destruct (etg_packets_in_bounds (fun x => x) (fun _ => EmptyString) (fun _ => EmptyString) (block_ip no_packets ip_a) some_packet 5) as (r & E & _ & H).
  rewrite <- (H ip_a); [exact E|vm_compute; reflexivity|vm_compute; reflexivity].
Defined.

(** the test for a flood is exact for a clock that never goes back: whatever packets came before,
    of whatever addresses, and however often the tracker was pruned, it says yes exactly when
    more than 500 packets of the address, this one included, came within the last second. *)
Theorem flood_rate_exact (seen : list (Z * Z)) (ip now : Z) :
  StronglySorted Z.le (snd <$> seen ++ [(ip, now)]) ->
  fst (is_flood (track ∅ seen) ip now) = (FLOOD_THRESH <? rate ip now (seen ++ [(ip, now)])).
Proof.
  rewrite fmap_app. intros (Hle & Hs & _)%StronglySorted_app. assert (Hn : Forall (fun t => t <= now) (snd <$> seen)).
  { apply Forall_forall. intros t Ht. apply Hle; [done|by apply list_elem_of_singleton]. }
  set (first := match seen with [] => now | (_, t) :: _ => t end).
  assert (Hf : Forall (fun t => first <= t) (snd <$> seen)).
  { unfold first. destruct seen as [|[i t] rest]; [by apply Forall_nil|]. cbn [fmap list_fmap snd] in *. inversion Hs; subst. constructor; [lia|done]. }
  assert (Hfn : first <= now) by (unfold first; destruct seen as [|[i t] rest]; [lia|cbn in Hn; by apply Forall_cons in Hn as [? _]]).
  destruct (track_tracks seen [] first ∅) as (last & H1 & H2 & H3).
  - done.
  - intros i. exists first. split; [lia|]. by rewrite lookup_empty.
  - by apply Forall_nil.
  - done.
  - cbn [app] in *. apply (is_flood_spec seen last (track ∅ seen) ip now Hs H1 H2). by apply H3.
Qed.

Lemma flood_rate_exact_witness : fst (is_flood (track ∅ [(ip_a, 1); (3, 2)]) ip_a 9) = false.
Proof.
  rewrite (flood_rate_exact [(ip_a, 1); (3, 2)] ip_a 9); [reflexivity|]. repeat (apply SSorted_cons || apply Forall_cons_2 || constructor; cbn; try lia).
Defined.

(** a packet that completes a flood raises it as the last of its threats and blocks its address;
    a blocked address is listed once, stays so until it is unblocked, and its packets raise
    nothing, so an address raises one flood per unblocking. *)
Theorem flood_blocks_source (format1 format2 : double -> string) (st : EtgRi) (s : PacketStats) (now : Z) :
  NoDup (blocked_ips_ st) -> is_blocked st (ps_src_ip s) = false ->
  let '(st', outs) := judge_packet format1 format2 st s now in
  let flood := fst (is_flood (conn_tracker_ st) (ps_src_ip s) now) in
  NoDup (blocked_ips_ st') /\ is_blocked st' (ps_src_ip s) = flood /\
  (forall ip, ip <> ps_src_ip s -> is_blocked st' ip = is_blocked st ip) /\
  outs = payload_threats format1 format2 s ++ (if flood then [etg_threat SYN_FLOOD (flood_text (ps_src_ip s)) (ps_src_ip s) (ps_src_port s)] else []) /\
  Z.of_nat (length (sliding_window_ st')) <= Z.max WINDOW_SIZE (Z.of_nat (length (sliding_window_ st))) /\
  (forall ip, NoDup (blocked_ips_ (unblock_ip st' ip)) /\ is_blocked (unblock_ip st' ip) ip = false).
Proof.
  intros Hn Hb. assert (Hnin : ps_src_ip s ∉ blocked_ips_ st) by (by apply bool_decide_eq_false in Hb).
  unfold judge_packet. destruct (is_flood (conn_tracker_ st) (ps_src_ip s) now) as [flood tracker] eqn:Ef. cbn [fst].
  assert (Hw : Z.of_nat (length (push_bounded WINDOW_SIZE (sliding_window_ st) s)) <= Z.max WINDOW_SIZE (Z.of_nat (length (sliding_window_ st)))).
  { unfold push_bounded. rewrite last_n_length by done. unfold WINDOW_SIZE. lia. }
  assert (Hu : forall st' : EtgRi, NoDup (blocked_ips_ st') -> forall ip, NoDup (blocked_ips_ (unblock_ip st' ip)) /\ is_blocked (unblock_ip st' ip) ip = false).
  { intros st' H ip. split; [by apply NoDup_filter|]. apply bool_decide_eq_false. cbn. rewrite list_elem_of_filter. by intros [H' _]. }
  destruct flood.
  - set (st1 := Etg _ _ _ _ _ _). assert (Eb : block_ip st1 (ps_src_ip s) = with_blocked st1 (blocked_ips_ st ++ [ps_src_ip s]))
      by (unfold block_ip, is_blocked; by rewrite bool_decide_eq_false_2).
    rewrite Eb. assert (Hn' : NoDup (blocked_ips_ st ++ [ps_src_ip s])).
    { apply NoDup_app. split_and!; [done| |apply NoDup_singleton]. intros x Hx ->%list_elem_of_singleton. done. }
    split_and!; [exact Hn'| | |done|exact Hw|by apply Hu].
    + apply bool_decide_eq_true. cbn. rewrite elem_of_app, list_elem_of_singleton. by right.
    + intros ip Hne. apply bool_decide_ext. cbn. rewrite elem_of_app, list_elem_of_singleton. tauto.
  - split_and!; [done|exact Hb|done|done|exact Hw|by apply Hu].
Qed.

Lemma flood_blocks_source_witness :
  let st := Etg [] {[ ip_a := replicate 500 5 ]} [] 0 0 0 in
  is_blocked (fst (judge_packet (fun _ => EmptyString) (fun _ => EmptyString) st (Stats (dz 4) (dz 0) ip_a 2 80 80 6 10 5) 6)) ip_a = true.
Proof.
  intros st. set (s := Stats (dz 4) (dz 0) ip_a 2 80 80 6 10 5).
  pose proof (flood_blocks_source (fun _ => EmptyString) (fun _ => EmptyString) st s 6 (NoDup_nil_2) eq_refl) as H.
  destruct (judge_packet _ _ st s 6) as [st' outs]. destruct H as (_ & H & _). change (is_blocked st' (ps_src_ip s) = true). rewrite H. vm_compute. reflexivity.
Defined.
