(* ===== verification/Pmsr.v ===== *)
(** * Pmsr: the shadow ring

    Models src/src/engines/pmsr_engine.cpp: entries with a canary under a key and a hash over
    their fields, the turn of the monitor that checks them and the rotation of the keys.  The
    keys drawn are an argument, [keys i] the [i]th of an operation; the memory of the process
    is an argument, for an address the bytes that can be read from it to the end of its region. *)
From S2P Require Import Prelude Sha2 Observation Text Threat.

#[local] Open Scope word_scope.

Definition memory : Type := Z -> option (list byte).

Record ShadowEntry := Shadow {
  original_addr : Z;
  xor_key : Z;
  canary : Z;
  shadow_hash : Z;
  last_check : Z;
  region_size : Z;
  content_hash : Z;
}.

Definition RING_SIZE : Z := 256.
Definition CANARY_MAGIC : Z := 0xDEADBEEFCAFEBABE.

(** FNV-1a *)
Definition fnv_basis : Z := 0xcbf29ce484222325.
Definition fnv_prime : Z := 0x100000001b3.

Definition fnv_mix (h v : Z) : Z := u64 (Z.lxor h v * fnv_prime).

Definition MAX_HASHED : Z := 2 * 1024 * 1024.

(** Zero where nothing can be read. *)
Definition hash_memory_region (m : memory) (addr size : Z) : Z :=
  if (addr =? 0) || (size =? 0) then 0
  else
    match m addr with
    | None => 0
    | Some bytes => foldl (fun h b => fnv_mix h (bval b)) fnv_basis (take (Z.to_nat (Z.min size MAX_HASHED)) bytes)
    end.

Definition compute_shadow_hash (e : ShadowEntry) : Z :=
  fnv_mix (fnv_mix (fnv_mix fnv_basis (original_addr e)) (xor_key e)) (canary e).

Definition verify_canary (e : ShadowEntry) : bool := Z.lxor (canary e) (xor_key e) =? CANARY_MAGIC.

Definition with_hash (e : ShadowEntry) : ShadowEntry :=
  Shadow (original_addr e) (xor_key e) (canary e) (compute_shadow_hash e) (last_check e) (region_size e) (content_hash e).

(** A new key for the text under the canary. *)
Definition sealed (e : ShadowEntry) (text key : Z) : ShadowEntry :=
  with_hash (Shadow (original_addr e) key (Z.lxor text key) (shadow_hash e) (last_check e) (region_size e) (content_hash e)).

Definition at_time (e : ShadowEntry) (now : Z) : ShadowEntry :=
  Shadow (original_addr e) (xor_key e) (canary e) (shadow_hash e) now (region_size e) (content_hash e).

Definition no_entry : ShadowEntry := Shadow 0 0 0 0 0 0 0.

(** [start] appends a ring of fresh entries. *)
Definition fresh_entries (keys : nat -> Z) (now : Z) : list ShadowEntry :=
  (fun i => at_time (sealed no_entry CANARY_MAGIC (keys i)) now) <$> seq 0 (Z.to_nat RING_SIZE).

Definition start_ring (ring : list ShadowEntry) (keys : nat -> Z) (now : Z) : list ShadowEntry := ring ++ fresh_entries keys now.

(** A ring that is too short is filled with zeroed entries. *)
Definition resized (ring : list ShadowEntry) : list ShadowEntry := ring ++ replicate (Z.to_nat RING_SIZE - length ring) no_entry.

Definition region_slot (addr : Z) : nat := Z.to_nat (addr mod RING_SIZE).

Definition register_region (ring : list ShadowEntry) (m : memory) (addr size key now : Z) : list ShadowEntry :=
  let e := at_time (sealed (Shadow addr 0 0 0 0 0 0) CANARY_MAGIC key) now in
  <[region_slot addr := Shadow (original_addr e) (xor_key e) (canary e) (shadow_hash e) now size (hash_memory_region m addr size)]> (resized ring).

Definition inject_honey_iat (ring : list ShadowEntry) (fake_addr trap_canary key now : Z) : list ShadowEntry :=
  let honey := at_time (sealed (Shadow fake_addr 0 0 0 0 0 0) trap_canary key) now in
  if Z.of_nat (length ring) <? RING_SIZE * 2 then ring ++ [honey] else ring.

(** What [start] reads from the headers of the program: the base, the code and the import table. *)
Record Image := Loaded { hmod : Z; base_of_code : Z; size_of_code : Z; iat_address : Z; iat_size : Z }.

(** Starting twice does nothing. *)
Definition pmsr_start (running : bool) (ring : list ShadowEntry) (image : option Image) (m : memory) (keys : nat -> Z) (now : Z) : list ShadowEntry :=
  if running then ring
  else
    let ring := start_ring ring keys now in
    match image with
    | None => ring
    | Some img =>
        let ring := register_region ring m (u64 (hmod img + base_of_code img)) (size_of_code img) (keys 256%nat) now in
        let ring := if iat_address img =? 0 then ring
                    else register_region ring m (u64 (hmod img + iat_address img)) (iat_size img) (keys 257%nat) now in
        let ring := inject_honey_iat ring (u64 (hmod img + 0xDEAD0)) CANARY_MAGIC (keys 258%nat) now in
        inject_honey_iat ring (u64 (hmod img + 0xBEEF0)) CANARY_MAGIC (keys 259%nat) now
    end.

Definition pmsr_stop (running : bool) (ring : list ShadowEntry) : list ShadowEntry := if running then [] else ring.

(** [std::format("{:016x}", v)] of a 64-bit number. *)
Definition hex16 (v : Z) : string :=
  foldr (fun i s => String.String (hex_digit (v >>> (4 * (15 - Z.of_nat i)) .& 15)) s) EmptyString (seq 0 16).

Definition canary_text (i : nat) (addr : Z) : string :=
  "PMSR canary violation at ring index " +:+ print_int (Z.of_nat i) +:+ ", addr=0x" +:+ hex16 addr.

Definition hash_text (i : nat) : string := "PMSR shadow hash mismatch at ring index " +:+ print_int (Z.of_nat i).

Definition region_text (addr size : Z) : string :=
  "PMSR code region modified at 0x" +:+ hex16 addr +:+ " (" +:+ print_int size +:+ " bytes)".

(** The three checks of an entry, in order. *)
Definition check_canary (i : nat) (key : Z) (e : ShadowEntry) : list string * ShadowEntry :=
  if verify_canary e then ([], e) else ([canary_text i (original_addr e)], sealed e CANARY_MAGIC key).

Definition check_hash (i : nat) (e : ShadowEntry) : list string * ShadowEntry :=
  if negb (shadow_hash e =? compute_shadow_hash e) then ([hash_text i], with_hash e) else ([], e).

Definition check_region (m : memory) (e : ShadowEntry) : list string * ShadowEntry :=
  if 0 <? region_size e then
    let live := hash_memory_region m (original_addr e) (region_size e) in
    if negb (live =? 0) && negb (content_hash e =? 0) && negb (live =? content_hash e)
    then ([region_text (original_addr e) (region_size e)],
          Shadow (original_addr e) (xor_key e) (canary e) (shadow_hash e) (last_check e) (region_size e) live)
    else ([], e)
  else ([], e).

Definition check_entry (m : memory) (i : nat) (key : Z) (e : ShadowEntry) : list string * ShadowEntry :=
  let '(v1, e) := check_canary i key e in
  let '(v2, e) := check_hash i e in
  let '(v3, e) := check_region m e in
  (v1 ++ v2 ++ v3, e).

Definition check_ring (m : memory) (keys : nat -> Z) (ring : list ShadowEntry) : list string * list ShadowEntry :=
  let checked := imap (fun i e => check_entry m i (keys i) e) ring in (mjoin (fst <$> checked), snd <$> checked).

(** The rotation keeps what is under each canary, whatever it is. *)
Definition rotate_keys (ring : list ShadowEntry) (keys : nat -> Z) (now : Z) : list ShadowEntry :=
  imap (fun i e => at_time (sealed e (Z.lxor (canary e) (xor_key e)) (keys i)) now) ring.

Definition pmsr_threat (desc : string) : ThreatEvent :=
  Event 0 0 CRITICAL MEMORY_INJECTION 0 EmptyString EmptyString desc EmptyString 0 false false.

Record Pmsr := Ring { shadow_ring_ : list ShadowEntry; pm_events_processed : Z; pm_threats_detected : Z }.

(** The two critical sections of a turn: the checks, whose threats are raised after it, and the
    rotation.  Others may run between them. *)
Definition pmsr_check (st : Pmsr) (m : memory) (keys : nat -> Z) : Pmsr * list ThreatEvent :=
  let '(violations, ring) := check_ring m keys (shadow_ring_ st) in
  (Ring ring (u64 (pm_events_processed st + Z.of_nat (length (shadow_ring_ st)))) (u64 (pm_threats_detected st + Z.of_nat (length violations))),
   pmsr_threat <$> violations).

Definition pmsr_rotate (st : Pmsr) (rotated : nat -> Z) (now : Z) : Pmsr :=
  Ring (rotate_keys (shadow_ring_ st) rotated now) (u64 (pm_events_processed st + 1)) (pm_threats_detected st).

(** A turn of the monitor with nobody in between. *)
Definition pmsr_turn (st : Pmsr) (m : memory) (keys rotated : nat -> Z) (now : Z) : Pmsr * list ThreatEvent :=
  let '(st, outs) := pmsr_check st m keys in (pmsr_rotate st rotated now, outs).

(** ** Lemmas *)

Definition word64 (z : Z) : Prop := 0 <= z < 2 ^ 64.

Lemma lxor_word64 a b : word64 a -> word64 b -> word64 (Z.lxor a b).
Proof.
  intros [Ha1 Ha2] [Hb1 Hb2]. split; [by apply Z.lxor_nonneg|].
  destruct (Z.eq_dec (Z.lxor a b) 0) as [-> |Hn]; [lia|]. apply Z.log2_lt_pow2; [pose proof (proj2 (Z.lxor_nonneg a b) ltac:(lia)); lia|].
  pose proof (Z.log2_lxor a b Ha1 Hb1) as H.
  assert (Hl : forall x, 0 <= x < 2 ^ 64 -> Z.log2 x < 64).
  { intros x [H0 H1]. destruct (Z.eq_dec x 0) as [-> |]; [done|]. apply Z.log2_lt_pow2; lia. }
  pose proof (Hl a ltac:(lia)). pose proof (Hl b ltac:(lia)). lia.
Qed.

(** The prime is odd, so multiplying by it loses nothing. *)
Definition prime_inverse : Z := 14886173955864302971.

Lemma times_prime_inj a b : word64 a -> word64 b -> u64 (a * fnv_prime) = u64 (b * fnv_prime) -> a = b.
Proof.
  intros Ha Hb E. assert (H : forall x, word64 x -> u64 (u64 (x * fnv_prime) * prime_inverse) = x).
  { intros x Hx. unfold u64. rewrite Z.mul_mod_idemp_l by lia. rewrite <- Z.mul_assoc, Z.mul_mod by lia.
    change ((fnv_prime * prime_inverse) mod 2 ^ 64) with 1. rewrite Z.mul_1_r, Z.mod_mod by lia. by apply Z.mod_small. }
  rewrite <- (H a Ha), <- (H b Hb), E. done.
Qed.

Lemma lxor_inj_l a b c : Z.lxor a b = Z.lxor a c -> b = c.
Proof.
  intros E. apply (f_equal (Z.lxor a)) in E. by rewrite <- !Z.lxor_assoc, Z.lxor_nilpotent, !Z.lxor_0_l in E.
Qed.

Lemma fnv_mix_value h v w : word64 h -> word64 v -> word64 w -> fnv_mix h v = fnv_mix h w -> v = w.
Proof. intros Hh Hv Hw E. apply (lxor_inj_l h). apply times_prime_inj; [by apply lxor_word64..|exact E]. Qed.

Lemma fnv_mix_state h k v : word64 h -> word64 k -> word64 v -> fnv_mix h v = fnv_mix k v -> h = k.
Proof.
  intros Hh Hk Hv E. apply (lxor_inj_l v). rewrite !(Z.lxor_comm v). apply times_prime_inj; [by apply lxor_word64..|exact E].
Qed.

Lemma fnv_mix_word h v : word64 (fnv_mix h v).
Proof. apply u64_range. Qed.

Definition entry_words (e : ShadowEntry) : Prop :=
  word64 (original_addr e) /\ word64 (xor_key e) /\ word64 (canary e) /\ word64 (shadow_hash e).

(** What every entry is between two turns. *)
Definition consistent (e : ShadowEntry) : Prop := verify_canary e = true /\ shadow_hash e = compute_shadow_hash e.

(** The bytes a region had when they were last hashed are those it has. *)
Definition region_same (m : memory) (e : ShadowEntry) : Prop :=
  0 < region_size e -> hash_memory_region m (original_addr e) (region_size e) = 0 \/ content_hash e = 0 \/
    hash_memory_region m (original_addr e) (region_size e) = content_hash e.

Lemma basis_word : word64 fnv_basis.
Proof. by split. Qed.

Lemma hash_of_addr a a' k c : word64 a -> word64 a' -> word64 k -> word64 c ->
  fnv_mix (fnv_mix (fnv_mix fnv_basis a) k) c = fnv_mix (fnv_mix (fnv_mix fnv_basis a') k) c -> a = a'.
Proof.
  intros Ha Ha' Hk Hc E. apply fnv_mix_state in E; [|apply fnv_mix_word..|done]. apply fnv_mix_state in E; [|apply fnv_mix_word..|done].
  by apply fnv_mix_value in E; [|apply basis_word|..].
Qed.

Lemma sealed_consistent e key now : consistent (at_time (sealed e CANARY_MAGIC key) now).
Proof.
  split; [|done]. unfold verify_canary. cbn. rewrite Z.lxor_assoc, Z.lxor_nilpotent, Z.lxor_0_r. apply Z.eqb_refl.
Qed.

Lemma check_canary_ok i key e : verify_canary e = true -> check_canary i key e = ([], e).
Proof. intros H. unfold check_canary. by rewrite H. Qed.

Lemma check_hash_ok i e : shadow_hash e = compute_shadow_hash e -> check_hash i e = ([], e).
Proof. intros H. unfold check_hash. by rewrite H, Z.eqb_refl. Qed.

Lemma check_region_ok m e : region_same m e -> check_region m e = ([], e).
Proof.
  intros H. unfold check_region. destruct (Z.ltb_spec 0 (region_size e)) as [Hs|Hs]; [|done]. destruct (H Hs) as [-> | [-> | ->]]; cbn [negb Z.eqb].
  - done.
  - by rewrite andb_false_r.
  - by rewrite Z.eqb_refl, andb_false_r.
Qed.

(** Whatever an entry is, its checks leave it consistent, its region as it is now. *)
Lemma check_entry_repairs m i key e : consistent (snd (check_entry m i key e)).
Proof.
  unfold check_entry, check_canary, check_hash, check_region. destruct (verify_canary e) eqn:Ev.
  - destruct (Z.eqb_spec (shadow_hash e) (compute_shadow_hash e)) as [Eh|Eh]; cbn [negb].
    + destruct (0 <? region_size e); [|by split]. cbv zeta. by destruct (_ && _); split.
    + cbn [region_size original_addr with_hash content_hash]. destruct (0 <? region_size e); [|by split]. cbv zeta. by destruct (_ && _); split.
  - destruct (sealed_consistent e key 0) as [H1 H2]. cbn [shadow_hash at_time] in H2.
    assert (Hs : shadow_hash (sealed e CANARY_MAGIC key) = compute_shadow_hash (sealed e CANARY_MAGIC key)) by reflexivity.
    rewrite Hs, Z.eqb_refl. cbn [negb]. assert (Hv : verify_canary (sealed e CANARY_MAGIC key) = true) by exact H1.
    destruct (0 <? region_size (sealed e CANARY_MAGIC key)); [|by split]. cbv zeta. by destruct (_ && _); split.
Qed.

Lemma check_entry_quiet m i key e : consistent e -> region_same m e -> check_entry m i key e = ([], e).
Proof.
  intros [H1 H2] H3. unfold check_entry. rewrite check_canary_ok, check_hash_ok, check_region_ok by done. done.
Qed.

(** One field of a consistent entry overwritten. *)
Inductive tampered (e : ShadowEntry) : ShadowEntry -> Prop :=
  | tamper_addr a : a <> original_addr e -> word64 a -> tampered e (Shadow a (xor_key e) (canary e) (shadow_hash e) (last_check e) (region_size e) (content_hash e))
  | tamper_key k : k <> xor_key e -> word64 k -> tampered e (Shadow (original_addr e) k (canary e) (shadow_hash e) (last_check e) (region_size e) (content_hash e))
  | tamper_canary c : c <> canary e -> word64 c -> tampered e (Shadow (original_addr e) (xor_key e) c (shadow_hash e) (last_check e) (region_size e) (content_hash e))
  | tamper_hash h : h <> shadow_hash e -> word64 h -> tampered e (Shadow (original_addr e) (xor_key e) (canary e) h (last_check e) (region_size e) (content_hash e)).

Lemma tampered_seen e e' : consistent e -> entry_words e -> tampered e e' -> verify_canary e' = false \/ (verify_canary e' = true /\ shadow_hash e' <> compute_shadow_hash e').
Proof.
  intros [H1 H2] (Wa & Wk & Wc & Wh). unfold verify_canary in *. apply Z.eqb_eq in H1. intros [a Hn Hw|k Hn Hw|c Hn Hw|h Hn Hw]; cbn [canary xor_key shadow_hash original_addr].
  - right. split; [by apply Z.eqb_eq|]. rewrite H2. unfold compute_shadow_hash. cbn [canary xor_key shadow_hash original_addr]. intros E.
    by apply hash_of_addr in E.
  - left. apply Z.eqb_neq. intros E. apply Hn, (lxor_inj_l (canary e)). by rewrite E, H1.
  - left. apply Z.eqb_neq. intros E. apply Hn, (lxor_inj_l (xor_key e)). by rewrite !(Z.lxor_comm (xor_key e)), E, H1.
  - right. split; [by apply Z.eqb_eq|]. unfold compute_shadow_hash in *. cbn [canary xor_key shadow_hash original_addr]. by rewrite <- H2.
Qed.

Lemma check_entry_reports m i key e : verify_canary e = false \/ (verify_canary e = true /\ shadow_hash e <> compute_shadow_hash e) ->
  exists v vs, fst (check_entry m i key e) = v :: vs /\ (v = canary_text i (original_addr e) \/ v = hash_text i).
Proof.
  unfold check_entry, check_canary, check_hash. intros [Hv | [Hv Hh]]; rewrite Hv.
  - destruct (if negb _ then _ else _) as [v2 e2]. destruct (check_region m e2) as [v3 e3]. cbn [fst app]. eexists _, _. split; [done|by left].
  - rewrite (proj2 (Z.eqb_neq _ _) Hh). cbn [negb]. destruct (check_region m (with_hash e)) as [v3 e3]. cbn [fst app]. eexists _, _. split; [done|by right].
Qed.

Lemma rotate_consistent e key now : consistent e -> consistent (at_time (sealed e (Z.lxor (canary e) (xor_key e)) key) now).
Proof.
  intros [H _]. split; [|done]. unfold verify_canary in *. cbn. by rewrite Z.lxor_assoc, Z.lxor_nilpotent, Z.lxor_0_r.
Qed.

Lemma check_ring_spec m keys ring : check_ring m keys ring =
  (mjoin (fst <$> imap (fun i e => check_entry m i (keys i) e) ring), snd <$> imap (fun i e => check_entry m i (keys i) e) ring).
Proof. done. Qed.

Lemma Forall_imap_all {A B} (f : nat -> A -> B) (P : B -> Prop) l : (forall i x, P (f i x)) -> Forall P (imap f l).
Proof. intros H. apply Forall_lookup. intros i x E. rewrite list_lookup_imap in E. destruct (l !! i); [|discriminate E]. injection E as <-. apply H. Qed.

Lemma quiet_ring m keys ring : Forall (fun e => consistent e /\ region_same m e) ring -> check_ring m keys ring = ([], ring).
Proof.
  intros H. unfold check_ring. assert (E : forall l f, Forall (fun e => consistent e /\ region_same m e) l ->
    mjoin (fst <$> imap (fun i e => check_entry m (f i) (keys (f i)) e) l) = [] /\ snd <$> imap (fun i e => check_entry m (f i) (keys (f i)) e) l = l).
  { clear. intros l. induction l as [|e l IH]; intros f Hl; [done|]. apply Forall_cons in Hl as [[H1 H2] Hl]. rewrite imap_cons. cbn [fmap list_fmap].
    rewrite check_entry_quiet by done. cbn [fst snd]. destruct (IH (f ∘ S) Hl) as [E1 E2]. split.
    - exact E1.
    - f_equal. exact E2. }
  destruct (E ring (fun i => i) H) as [-> ->]. done.
Qed.

Definition ring_ok (ring : list ShadowEntry) : Prop := Forall consistent ring.

Lemma rotate_ring_ok ring keys now : ring_ok ring -> ring_ok (rotate_keys ring keys now).
Proof.
  intros H. apply Forall_lookup. intros i e E. unfold rotate_keys in E. rewrite list_lookup_imap in E. destruct (ring !! i) as [e0|] eqn:E0; [|discriminate E].
  injection E as <-. apply rotate_consistent. unfold ring_ok in H. rewrite Forall_lookup in H. by apply (H i).
Qed.

Lemma check_ring_ok m keys ring : ring_ok (snd (check_ring m keys ring)).
Proof.
  unfold check_ring. cbn [snd]. apply Forall_fmap. apply Forall_imap_all. intros i e. apply check_entry_repairs.
Qed.

Lemma check_ring_reports m keys ring i e v : ring !! i = Some e -> In v (fst (check_entry m i (keys i) e)) -> In v (fst (check_ring m keys ring)).
Proof.
  intros E Hv. unfold check_ring. cbn [fst]. apply list_elem_of_In, list_elem_of_join. exists (fst (check_entry m i (keys i) e)). split; [by apply list_elem_of_In|].
  apply list_elem_of_fmap. exists (check_entry m i (keys i) e). split; [done|]. apply list_elem_of_lookup. exists i. by rewrite list_lookup_imap, E.
Qed.

(** ** Properties *)

(** whatever happened to the ring, a turn leaves every entry with a valid canary and hash, under
    new keys; and a turn over a ring where every entry is as the last one left it, and every
    watched region reads as it did, raises nothing. *)
Theorem pmsr_turn_invariant (st : Pmsr) (m : memory) (keys rotated : nat -> Z) (now : Z) :
  let '(st', outs) := pmsr_turn st m keys rotated now in
  ring_ok (shadow_ring_ st') /\ length (shadow_ring_ st') = length (shadow_ring_ st) /\
  (Forall (fun e => consistent e /\ region_same m e) (shadow_ring_ st) -> outs = [] /\ pm_threats_detected st' = u64 (pm_threats_detected st)).
Proof.
  unfold pmsr_turn, pmsr_check, pmsr_rotate. pose proof (check_ring_ok m keys (shadow_ring_ st)) as Hok.
  assert (Hl : length (snd (check_ring m keys (shadow_ring_ st))) = length (shadow_ring_ st)) by (unfold check_ring; cbn [snd]; by rewrite length_fmap, length_imap).
  destruct (check_ring m keys (shadow_ring_ st)) as [vs ring] eqn:E. cbn [snd] in *. cbn [shadow_ring_ pm_threats_detected]. split_and!.
  - by apply rotate_ring_ok.
  - unfold rotate_keys. by rewrite length_imap.
  - intros H. rewrite quiet_ring in E by done. injection E as <- <-. split; [done|]. cbn. by rewrite Z.add_0_r.
Qed.

Definition started : Pmsr := Ring (start_ring [] (fun i => Z.of_nat i * 77) 5) 0 0.

Lemma pmsr_turn_invariant_witness : snd (pmsr_turn started (fun _ => None) (fun _ => 1) (fun _ => 2) 6) = [].
Proof.
  pose proof (pmsr_turn_invariant started (fun _ => None) (fun _ => 1) (fun _ => 2) 6) as H. destruct (pmsr_turn _ _ _ _ _) as [st' outs].
  destruct H as (_ & _ & H). apply H. apply Forall_forall. intros e He. unfold started, start_ring, fresh_entries in He. cbn [shadow_ring_ app] in He.
  apply list_elem_of_fmap in He as (i & -> & _). split; [apply sealed_consistent|]. intros Hr. cbn in Hr. discriminate Hr.
Defined.

(** C31: overwriting any one field of any entry, its address, its key, its canary or its hash, is seen
    by the next turn: it raises a threat that names the entry. *)
Theorem tampering_is_seen (st : Pmsr) (m : memory) (keys rotated : nat -> Z) (now : Z) (i : nat) (e e' : ShadowEntry) :
  shadow_ring_ st !! i = Some e' -> consistent e -> entry_words e -> tampered e e' ->
  exists text, (text = canary_text i (original_addr e') \/ text = hash_text i) /\ In (pmsr_threat text) (snd (pmsr_turn st m keys rotated now)).
Proof.
  intros Hi Hc Hw Ht. destruct (check_entry_reports m i (keys i) e' (tampered_seen e e' Hc Hw Ht)) as (v & vs & Hv & Htext). exists v. split; [done|].
  assert (Hin : In v (fst (check_ring m keys (shadow_ring_ st)))) by (apply (check_ring_reports m keys _ i e'); [done|rewrite Hv; by left]).
  unfold pmsr_turn, pmsr_check. destruct (check_ring m keys (shadow_ring_ st)) as [violations ring]. cbn [snd fst] in *. by apply in_map.
Qed.

(** What is overwritten between the checks and the rotation: the rotation seals a changed address
    or hash, which no check sees then; a changed key or canary stays visible. *)
Lemma tampering_before_rotation (e : ShadowEntry) (v key now : Z) : consistent e ->
  consistent (at_time (sealed (Shadow v (xor_key e) (canary e) (shadow_hash e) (last_check e) (region_size e) (content_hash e)) (Z.lxor (canary e) (xor_key e)) key) now) /\
  consistent (at_time (sealed (Shadow (original_addr e) (xor_key e) (canary e) v (last_check e) (region_size e) (content_hash e)) (Z.lxor (canary e) (xor_key e)) key) now) /\
  (v <> xor_key e ->
   verify_canary (at_time (sealed (Shadow (original_addr e) v (canary e) (shadow_hash e) (last_check e) (region_size e) (content_hash e)) (Z.lxor (canary e) v) key) now) = false) /\
  (v <> canary e ->
   verify_canary (at_time (sealed (Shadow (original_addr e) (xor_key e) v (shadow_hash e) (last_check e) (region_size e) (content_hash e)) (Z.lxor v (xor_key e)) key) now) = false).
Proof.
  intros [H _]. unfold verify_canary in H. apply Z.eqb_eq in H. rewrite H. split_and!; [apply sealed_consistent..| |]; intros Hn; unfold verify_canary; cbn;
    rewrite Z.lxor_assoc, Z.lxor_nilpotent, Z.lxor_0_r; apply Z.eqb_neq; rewrite <- H; intros E.
  - by apply Hn, (lxor_inj_l (canary e)).
  - apply Hn, (lxor_inj_l (xor_key e)). by rewrite !(Z.lxor_comm (xor_key e)).
Qed.

Definition sample_entry : ShadowEntry := at_time (sealed (Shadow 4096 0 0 0 0 0 0) CANARY_MAGIC 1234567) 5.

Definition patched_entry : ShadowEntry := Shadow 8192 (xor_key sample_entry) (canary sample_entry) (shadow_hash sample_entry) 5 0 0.

Lemma tampering_is_seen_witness : snd (pmsr_turn (Ring [patched_entry] 0 0) (fun _ => None) (fun _ => 1) (fun _ => 2) 6) <> [].
Proof.
  destruct (tampering_is_seen (Ring [patched_entry] 0 0) (fun _ => None) (fun _ => 1) (fun _ => 2) 6 0 sample_entry patched_entry) as (text & _ & Hin).
  - reflexivity.
  - apply sealed_consistent.
  - unfold entry_words, word64. split_and!; vm_compute; (discriminate || reflexivity).
  - apply (tamper_addr sample_entry 8192); [vm_compute; discriminate|split; [discriminate|reflexivity]].
  - intros E. rewrite E in Hin. destruct Hin.
Defined.

Lemma same_slot_forgets ring m m' a b size size' key key' now now' : region_slot a = region_slot b ->
  register_region (register_region ring m a size key now) m' b size' key' now' = register_region ring m' b size' key' now'.
Proof.
  intros Hs. unfold register_region. rewrite Hs.
  assert (Hr : forall l x, resized (<[region_slot b := x]> (resized l)) = <[region_slot b := x]> (resized l)).
  { intros l x. unfold resized at 1. rewrite length_insert. unfold resized. rewrite length_app, length_replicate.
    replace (Z.to_nat RING_SIZE - (length l + (Z.to_nat RING_SIZE - length l)))%nat with 0%nat by lia. by rewrite app_nil_r. }
  by rewrite Hr, list_insert_insert_eq.
Qed.

(** a watched region is reported exactly when it can be read, was read when it was registered and
    has another hash, and once per change: behind a report its next check is quiet until the
    bytes change again.  Two regions whose addresses are equal modulo 256, as all addresses of
    pages are, share one entry: registering the second forgets the first. *)
Theorem watched_regions (m m' : memory) (e : ShadowEntry) (ring : list ShadowEntry) (a b size size' key key' now now' : Z) :
  (fst (check_region m e) <> [] <-> ~ region_same m e) /\
  region_same m (snd (check_region m e)) /\
  (region_slot a = region_slot b ->
     register_region (register_region ring m a size key now) m' b size' key' now' = register_region ring m' b size' key' now').
Proof.
  split_and!.
  - unfold check_region, region_same. destruct (Z.ltb_spec 0 (region_size e)) as [Hs|Hs]; [|split; [done|intros H; destruct H; lia]]. cbv zeta.
    destruct (Z.eqb_spec (hash_memory_region m (original_addr e) (region_size e)) 0) as [E1|E1]; cbn [negb andb]; [split; [done|tauto]|].
    destruct (Z.eqb_spec (content_hash e) 0) as [E2|E2]; cbn [negb andb]; [split; [done|tauto]|].
    destruct (Z.eqb_spec (hash_memory_region m (original_addr e) (region_size e)) (content_hash e)) as [E3|E3]; cbn [negb fst]; [split; [done|tauto]|].
    split; [|done]. intros _ H. destruct (H Hs) as [?|[?|?]]; done.
  - unfold check_region, region_same. destruct (Z.ltb_spec 0 (region_size e)) as [Hs|Hs]; [|cbn; lia]. cbv zeta.
    destruct (Z.eqb_spec (hash_memory_region m (original_addr e) (region_size e)) 0) as [E1|E1]; cbn [negb andb snd]; [by left|].
    destruct (Z.eqb_spec (content_hash e) 0) as [E2|E2]; cbn [negb andb snd]; [by right; left|].
    destruct (Z.eqb_spec (hash_memory_region m (original_addr e) (region_size e)) (content_hash e)) as [E3|E3]; cbn [negb snd]; [by right; right|].
    cbn. by right; right.
  - apply same_slot_forgets.
Qed.

Lemma watched_regions_witness :
  register_region (register_region [] (fun _ => None) 0x140001000 8 3 5) (fun _ => None) 0x140005000 16 4 6 =
  register_region [] (fun _ => None) 0x140005000 16 4 6.
Proof. apply (watched_regions (fun _ => None) (fun _ => None) no_entry). vm_compute. reflexivity. Defined.

(** A region registered before the engine starts fills the ring with zeroed entries, whose canary
    is invalid: the first turn raises a threat for each of the other 255. *)
Lemma early_registration_alarms :
  length (snd (pmsr_turn (Ring (start_ring (register_region [] (fun _ => None) 4096 8 3 5) (fun _ => 7) 6) 0 0) (fun _ => None) (fun _ => 1) (fun _ => 2) 7)) = 255%nat.
Proof. vm_compute. reflexivity. Qed.

Definition page_aligned (a : Z) : Prop := a mod 4096 = 0.

Lemma page_aligned_slot a : page_aligned a -> region_slot a = 0%nat.
Proof. unfold page_aligned, region_slot, RING_SIZE. intros H. replace (a mod 256) with 0; [done|]. apply Z.mod_divide in H as [k ->]; [|lia]. symmetry. apply Z.mod_divide; [lia|]. exists (k * 16). lia. Qed.

(** when the sections of the code and of the import table begin at pages, as a linker lays them
    out, the engine watches the import table alone: behind [start] the ring is the one without
    the code, so that a change of the code is never looked for. *)
Theorem code_is_not_watched (img : Image) (m : memory) (keys : nat -> Z) (now : Z) :
  page_aligned (u64 (hmod img + base_of_code img)) -> page_aligned (u64 (hmod img + iat_address img)) -> iat_address img <> 0 ->
  pmsr_start false [] (Some img) m keys now =
    let ring := register_region (start_ring [] keys now) m (u64 (hmod img + iat_address img)) (iat_size img) (keys 257%nat) now in
    let ring := inject_honey_iat ring (u64 (hmod img + 0xDEAD0)) CANARY_MAGIC (keys 258%nat) now in
    inject_honey_iat ring (u64 (hmod img + 0xBEEF0)) CANARY_MAGIC (keys 259%nat) now.
Proof.
  intros H1 H2 H3. unfold pmsr_start. rewrite (proj2 (Z.eqb_neq _ _) H3). cbv zeta.
  by rewrite same_slot_forgets by (by rewrite !page_aligned_slot).
Qed.

Definition sample_image : Image := Loaded 0x140000000 0x1000 0x5000 0x9000 0x200.

Lemma code_is_not_watched_witness :
  original_addr <$> pmsr_start false [] (Some sample_image) (fun _ => None) Z.of_nat 5 !! 0%nat = Some 0x140009000.
Proof. rewrite code_is_not_watched by (reflexivity || discriminate). vm_compute. reflexivity. Defined.
