(* ===== verification/Arhs.v ===== *)
(** * Arhs: snapshots of watched files

    Models src/src/engines/arhs_engine.cpp: the hashes and the ring of snapshots of the watched
    files, the pass that compares the files with them, the count of rapid changes, the rollback
    of a file and the processes it suspended.  The disk is a finite map from paths to files; the
    regular files that a walk of a directory meets, the logarithm and the format of the entropy
    are arguments.  Nothing keeps a file as it is between two accesses: each access to a file, for
    its size, its hash, its entropy and its snapshot, has a disk of its own ([steady] is the disk that
    does not change).  Times are nanoseconds; a path is its text. *)
From S2P Require Import Prelude Float64 Sha2 Entropy Observation Text Threat.

#[local] Opaque hash_file hash_bytes256.

(** A regular file: its bytes, or its size where it cannot be opened. *)
Inductive DiskFile := Readable (data : list byte) | Locked (size : Z).

Definition disk : Type := gmap string DiskFile.

Definition size_of_file (f : DiskFile) : Z :=
  match f with Readable data => Z.of_nat (length data) | Locked size => size end.

Definition file_bytes (f : DiskFile) : option (list byte) :=
  match f with Readable data => Some data | Locked _ => None end.

(** The files that a walk of a directory meets; [None]: it does not open. *)
Definition tree : Type := string -> option (list string).

Record CowSnapshot := Cow {
  cow_path : string;
  original_data : list byte;
  original_size : Z;
  sha256_hash : string;
}.

Record SandboxedProcess := Suspended {
  sp_pid : Z;
  creation_time : Z;
  reason : ThreatCategory;
  snapshots : list CowSnapshot;
}.

Definition MAX_SNAPSHOTS : Z := 4096.
Definition MAX_SNAPSHOT_FILE_SIZE : Z := 64 * 1024 * 1024.
Definition RANSOMWARE_ENTROPY_THRESH : double := dlit 78 10.
Definition RAPID_CHANGE_THRESH : Z := 20.
Definition RAPID_CHANGE_WINDOW : Z := 5.
Definition SECOND : Z := 1000000000.

Record Arhs := Watch {
  ar_running : bool;
  watch_dirs_ : list string;
  file_hashes_ : gmap string string;
  sandboxed_ : list SandboxedProcess;
  snapshot_ring_ : list CowSnapshot;
  recent_changes_ : list (string * Z);
  ar_events_processed : Z;
  ar_threats_detected : Z;
  rollbacks_performed_ : Z;
}.

Definition arhs_init : Arhs := Watch false [] ∅ [] [] [] 0 0 0.

Definition with_hashes (st : Arhs) (h : gmap string string) : Arhs :=
  Watch (ar_running st) (watch_dirs_ st) h (sandboxed_ st) (snapshot_ring_ st) (recent_changes_ st) (ar_events_processed st)
    (ar_threats_detected st) (rollbacks_performed_ st).

Definition with_ring (st : Arhs) (ring : list CowSnapshot) : Arhs :=
  Watch (ar_running st) (watch_dirs_ st) (file_hashes_ st) (sandboxed_ st) ring (recent_changes_ st) (ar_events_processed st)
    (ar_threats_detected st) (rollbacks_performed_ st).

Definition with_changes (st : Arhs) (changes : list (string * Z)) : Arhs :=
  Watch (ar_running st) (watch_dirs_ st) (file_hashes_ st) (sandboxed_ st) (snapshot_ring_ st) changes (ar_events_processed st)
    (ar_threats_detected st) (rollbacks_performed_ st).

Definition arhs_event (st : Arhs) : Arhs :=
  Watch (ar_running st) (watch_dirs_ st) (file_hashes_ st) (sandboxed_ st) (snapshot_ring_ st) (recent_changes_ st)
    (u64 (ar_events_processed st + 1)) (ar_threats_detected st) (rollbacks_performed_ st).

Definition add_watch_directory (st : Arhs) (dir : string) : Arhs :=
  Watch (ar_running st) (watch_dirs_ st ++ [dir]) (file_hashes_ st) (sandboxed_ st) (snapshot_ring_ st) (recent_changes_ st)
    (ar_events_processed st) (ar_threats_detected st) (rollbacks_performed_ st).

(** The sizes the engine looks at. *)
Definition snapshot_size (f : DiskFile) : bool := negb (size_of_file f =? 0) && (size_of_file f <=? MAX_SNAPSHOT_FILE_SIZE).

Definition push_snapshot (ring : list CowSnapshot) (s : CowSnapshot) : list CowSnapshot :=
  (if MAX_SNAPSHOTS <=? Z.of_nat (length ring) then tail ring else ring) ++ [s].

(** Reading [size] bytes into a buffer of zeros of that size. *)
Definition read_zeroed (size : Z) (data : list byte) : list byte := take (Z.to_nat size) (data ++ replicate (Z.to_nat size) x00).

(** The size is asked for, and then the file is opened and read. *)
Definition take_snapshot (st : Arhs) (sized opened : disk) (path : string) : Arhs :=
  match sized !! path with
  | Some f =>
      if snapshot_size f then
        match opened !! path with
        | Some (Readable data) =>
            let original := read_zeroed (size_of_file f) data in
            with_ring st (push_snapshot (snapshot_ring_ st) (Cow path original (size_of_file f) (hash_bytes256 original)))
        | _ => st
        end
      else st
  | None => st
  end.

(** [hash_file] of a path: empty where it does not open. *)
Definition hash_at (d : disk) (path : string) : string :=
  hash_file (match d !! path with Some f => file_bytes f | None => None end).

(** The disk at each access to a file, in the order of the accesses. *)
Definition accesses : Type := string -> nat -> disk.

Definition steady (d : disk) : accesses := fun _ _ => d.

(** The critical section of [scan_directory]. *)
Definition scan_locked (st : Arhs) (hash : string) (sized opened : disk) (path : string) : Arhs :=
  take_snapshot (with_hashes st (<[path := hash]> (file_hashes_ st))) sized opened path.

(** A file that [scan_directory] meets. *)
Definition scan_file (ds : accesses) (st : Arhs) (path : string) : Arhs :=
  match ds path 0%nat !! path with
  | Some f =>
      if snapshot_size f then
        let hash := hash_at (ds path 1%nat) path in
        arhs_event (if empty_string hash then st else scan_locked st hash (ds path 2%nat) (ds path 3%nat) path)
      else st
  | None => st
  end.

Definition scan_directory (ds : accesses) (t : tree) (st : Arhs) (dir : string) : Arhs := foldl (scan_file ds) st (default [] (t dir)).

(** The profile of the user is watched where nothing else is. *)
Definition default_dirs (profile : option string) : list string :=
  match profile with Some p => [p +:+ "\Desktop"] | None => [] end.

Definition started_with (st : Arhs) (running : bool) (dirs : list string) : Arhs :=
  Watch running dirs (file_hashes_ st) (sandboxed_ st) (snapshot_ring_ st) (recent_changes_ st) (ar_events_processed st)
    (ar_threats_detected st) (rollbacks_performed_ st).

Definition arhs_start (st : Arhs) (ds : accesses) (t : tree) (profile : option string) : Arhs :=
  if ar_running st then st
  else
    let dirs := match watch_dirs_ st with [] => default_dirs profile | dirs => dirs end in
    foldl (scan_directory ds t) (started_with st true dirs) dirs.

Definition arhs_stop (st : Arhs) : Arhs :=
  if ar_running st then with_ring (started_with st false (watch_dirs_ st)) [] else st.

Record PendingThreat := Pending { pt_cat : ThreatCategory; pt_desc : string; pt_path : string }.

Section watch.
Context (log2 : double -> double) (fmt2 : double -> string).

Definition entropy_threat (path : string) (ent : double) : PendingThreat :=
  Pending RANSOMWARE ("High-entropy file modification detected: " +:+ path +:+ " (entropy=" +:+ fmt2 ent +:+ ")") path.

(** The critical section of the loop, on a file whose size and hash were found before it. *)
Definition watch_locked (size : Z) (current_hash : string) (now : Z) (for_entropy sized opened : disk) (acc : Arhs * list PendingThreat) (path : string) :
    Arhs * list PendingThreat :=
  let '(st, pending) := acc in
  match file_hashes_ st !! path with
  | Some hash =>
      if negb (String.eqb hash current_hash) then
        let st := arhs_event (with_changes st (recent_changes_ st ++ [(path, now)])) in
        let data := match for_entropy !! path with Some (Readable data) => data | _ => [] end in
        let ent := shannon_entropy log2 (read_zeroed size data) in
        if dlt RANSOMWARE_ENTROPY_THRESH ent then (st, pending ++ [entropy_threat path ent])
        else
          let st := take_snapshot st sized opened path in
          (with_hashes st (<[path := current_hash]> (file_hashes_ st)), pending)
      else acc
  | None => (take_snapshot (with_hashes st (<[path := current_hash]> (file_hashes_ st))) sized opened path, pending)
  end.

(** A file that a pass meets at a time. *)
Definition watch_file (ds : accesses) (clock : string -> Z) (acc : Arhs * list PendingThreat) (path : string) : Arhs * list PendingThreat :=
  match ds path 0%nat !! path with
  | Some f =>
      if snapshot_size f then
        let current_hash := hash_at (ds path 1%nat) path in
        if empty_string current_hash then acc
        else watch_locked (size_of_file f) current_hash (clock path) (ds path 2%nat) (ds path 3%nat) (ds path 4%nat) acc path
      else acc
  | None => acc
  end.

Definition detect_rapid_encryption (st : Arhs) (now : Z) : Arhs * bool :=
  let changes := List.filter (fun r => negb (RAPID_CHANGE_WINDOW * SECOND <? now - snd r)) (recent_changes_ st) in
  (with_changes st changes, RAPID_CHANGE_THRESH <=? Z.of_nat (length changes)).

Definition rapid_threat : PendingThreat :=
  Pending FILE_ENCRYPT ("Rapid bulk file encryption detected (" +:+ print_int RAPID_CHANGE_THRESH +:+ "+ files in " +:+
    print_int RAPID_CHANGE_WINDOW +:+ "s)") EmptyString.

Definition arhs_threat (cat : ThreatCategory) (desc : string) (pid : Z) (path : string) : ThreatEvent :=
  Event 0 0 CRITICAL cat pid EmptyString path desc EmptyString 0 false false.

Definition count_threats (st : Arhs) (n : Z) : Arhs :=
  Watch (ar_running st) (watch_dirs_ st) (file_hashes_ st) (sandboxed_ st) (snapshot_ring_ st) (recent_changes_ st)
    (ar_events_processed st) (u64 (ar_threats_detected st + n)) (rollbacks_performed_ st).

(** A turn of the loop, whose walks meet the files of [t]. *)
Definition watch_pass (st : Arhs) (ds : accesses) (t : tree) (clock : string -> Z) (now : Z) : Arhs * list ThreatEvent :=
  let '(st, pending) := foldl (fun acc dir => foldl (watch_file ds clock) acc (default [] (t dir))) (st, []) (watch_dirs_ st) in
  let '(st, rapid) := detect_rapid_encryption st now in
  let pending := if rapid then pending ++ [rapid_threat] else pending in
  (count_threats st (Z.of_nat (length pending)), (fun p => arhs_threat (pt_cat p) (pt_desc p) 0 (pt_path p)) <$> pending).
End watch.

(** Writing over a file: [None] where it does not open, else how many bytes the disk takes. *)
Definition room : Type := string -> option nat.

Definition write_over (d : disk) (r : room) (path : string) (data : list byte) : option disk :=
  match r path with Some n => Some (<[path := Readable (take n data)]> d) | None => None end.

Definition rolled_back (st : Arhs) : Arhs :=
  Watch (ar_running st) (watch_dirs_ st) (file_hashes_ st) (sandboxed_ st) (snapshot_ring_ st) (recent_changes_ st)
    (ar_events_processed st) (ar_threats_detected st) (u64 (rollbacks_performed_ st + 1)).

(** The search runs from the newest snapshot to the oldest. *)
Definition newest_snapshot (ring : list CowSnapshot) (path : string) : option CowSnapshot :=
  List.find (fun s => String.eqb (cow_path s) path && negb (match original_data s with [] => true | _ => false end)) (rev ring).

Definition rollback_file (st : Arhs) (d : disk) (r : room) (path : string) : ErrorCode * Arhs * disk :=
  match newest_snapshot (snapshot_ring_ st) path with
  | Some s =>
      match write_over d r path (original_data s) with
      | None => (ERR_ROLLBACK_FAIL, st, d)
      | Some d => (OK, rolled_back (with_hashes st (<[path := sha256_hash s]> (file_hashes_ st))), d)
      end
  | None => (ERR_ROLLBACK_FAIL, st, d)
  end.

Definition rollback_snapshot (r : room) (acc : Arhs * disk) (s : CowSnapshot) : Arhs * disk :=
  let '(st, d) := acc in
  match write_over d r (cow_path s) (original_data s) with Some d => (rolled_back st, d) | None => (st, d) end.

Definition rollback_process (st : Arhs) (d : disk) (r : room) (pid : Z) : ErrorCode * Arhs * disk :=
  match List.find (fun sp => sp_pid sp =? pid) (sandboxed_ st) with
  | Some sp => let '(st, d) := foldl (rollback_snapshot r) (st, d) (snapshots sp) in (OK, st, d)
  | None => (ERR_ROLLBACK_FAIL, st, d)
  end.

(** [opened] is what the system answers: the time the process began, where it opens. *)
Definition suspend_process (st : Arhs) (opened : option Z) (pid : Z) (why : ThreatCategory) : ErrorCode * Arhs * list ThreatEvent :=
  match opened with
  | None => (ERR_PLATFORM, st, [])
  | Some created =>
      let st := Watch (ar_running st) (watch_dirs_ st) (file_hashes_ st) (sandboxed_ st ++ [Suspended pid created why []]) (snapshot_ring_ st)
                  (recent_changes_ st) (ar_events_processed st) (ar_threats_detected st) (rollbacks_performed_ st) in
      (OK, count_threats st 1, [arhs_threat why ("Process " +:+ print_int pid +:+ " suspended and sandboxed") pid EmptyString])
  end.

Definition arhs_memory_bytes (st : Arhs) : Z := foldl (fun n s => n + Z.of_nat (length (original_data s))) 0 (snapshot_ring_ st).

(** ** Lemmas *)

#[local] Transparent hash_file hash_bytes256.

Lemma hash_readable data : hash_file (Some data) = hash_bytes256 data.
Proof. apply (proj1 (hash_file_is_hash_bytes data)). Qed.

Lemma hash_locked : hash_file None = EmptyString.
Proof. done. Qed.

Lemma hash_not_empty data : empty_string (hash_bytes256 data) = false.
Proof.
  unfold hash_bytes256. pose proof (sha256_digest_length data) as H. destruct (sha256_digest data) as [|b l]; [discriminate H|]. done.
Qed.

#[local] Opaque hash_file hash_bytes256.

(** A file as [watch_file] and [scan_file] take it over: its hash and a snapshot. *)
Definition accepted (st : Arhs) (path : string) (data : list byte) : Arhs :=
  with_ring (with_hashes st (<[path := hash_bytes256 data]> (file_hashes_ st)))
    (push_snapshot (snapshot_ring_ st) (Cow path data (Z.of_nat (length data)) (hash_bytes256 data))).

Definition snapshot_data (data : list byte) : Prop := data <> [] /\ Z.of_nat (length data) <= MAX_SNAPSHOT_FILE_SIZE.

Lemma snapshot_size_data data : snapshot_size (Readable data) = true <-> snapshot_data data.
Proof.
  unfold snapshot_size, snapshot_data. cbn [size_of_file]. rewrite andb_true_iff, negb_true_iff, Z.eqb_neq, Z.leb_le.
  destruct data as [|b data]; cbn [length].
  - split; intros [H _]; [lia|done].
  - split; intros [_ H]; (split; [|exact H]); [done|lia].
Qed.

Lemma read_zeroed_all data : read_zeroed (Z.of_nat (length data)) data = data.
Proof. unfold read_zeroed. by rewrite Nat2Z.id, take_app_length. Qed.


Lemma take_steady st d path data : d !! path = Some (Readable data) -> snapshot_data data ->
  take_snapshot st d d path = with_ring st (push_snapshot (snapshot_ring_ st) (Cow path data (Z.of_nat (length data)) (hash_bytes256 data))).
Proof. intros Hd Hs. unfold take_snapshot. rewrite Hd, (proj2 (snapshot_size_data data) Hs). cbn [size_of_file]. by rewrite read_zeroed_all. Qed.

Lemma accept_scan st d path data : d !! path = Some (Readable data) -> snapshot_data data ->
  take_snapshot (with_hashes st (<[path := hash_bytes256 data]> (file_hashes_ st))) d d path = accepted st path data.
Proof. intros Hd Hs. by rewrite (take_steady _ d path data). Qed.

Lemma accept_watch st d path data : d !! path = Some (Readable data) -> snapshot_data data ->
  (let st := take_snapshot st d d path in with_hashes st (<[path := hash_bytes256 data]> (file_hashes_ st))) = accepted st path data.
Proof. intros Hd Hs. by rewrite (take_steady _ d path data). Qed.

(** The files that are looked at: those that can be read and have a size in bounds. *)
Definition looked_at (d : disk) (path : string) : option (list byte) :=
  match d !! path with Some (Readable data) => if snapshot_size (Readable data) then Some data else None | _ => None end.

Lemma looked_at_spec d path data : looked_at d path = Some data <-> d !! path = Some (Readable data) /\ snapshot_data data.
Proof.
  unfold looked_at. destruct (d !! path) as [[data'|z]|]; [|split; [done|by intros []]..].
  destruct (snapshot_size (Readable data')) eqn:E.
  - apply snapshot_size_data in E. split; [by intros [= <-]|by intros [[= <-] _]].
  - split; [done|]. intros [[= <-] H]. apply snapshot_size_data in H. congruence.
Qed.

Section watch_lemmas.
Context (log2 : double -> double) (fmt2 : double -> string).

(** A known file whose bytes are others now. *)
Definition changed (st : Arhs) (d : disk) (path : string) : option (list byte) :=
  match looked_at d path, file_hashes_ st !! path with
  | Some data, Some hash => if String.eqb hash (hash_bytes256 data) then None else Some data
  | _, _ => None
  end.

Definition high_entropy (data : list byte) : bool := dlt RANSOMWARE_ENTROPY_THRESH (shannon_entropy log2 data).

(** What a pass says of a file. *)
Definition file_alert (st : Arhs) (d : disk) (path : string) : list PendingThreat :=
  match changed st d path with
  | Some data => if high_entropy data then [entropy_threat fmt2 path (shannon_entropy log2 data)] else []
  | None => []
  end.

Definition note_change (st : Arhs) (clock : string -> Z) (path : string) : Arhs :=
  arhs_event (with_changes st (recent_changes_ st ++ [(path, clock path)])).

(** What a pass does of a file. *)
Definition file_update (st : Arhs) (d : disk) (clock : string -> Z) (path : string) : Arhs :=
  match looked_at d path with
  | Some data =>
      match file_hashes_ st !! path with
      | Some hash =>
          if String.eqb hash (hash_bytes256 data) then st
          else if high_entropy data then note_change st clock path else accepted (note_change st clock path) path data
      | None => accepted st path data
      end
  | None => st
  end.

Lemma watch_file_eq d clock st pending path :
  watch_file log2 fmt2 (steady d) clock (st, pending) path = (file_update st d clock path, pending ++ file_alert st d path).
Proof.
  unfold watch_file, file_update, file_alert, changed, high_entropy, hash_at, steady. destruct (looked_at d path) as [data|] eqn:E.
  - apply looked_at_spec in E as [E1 E2]. unfold watch_locked. rewrite E1, (proj2 (snapshot_size_data data) E2). cbn [file_bytes]. rewrite hash_readable, hash_not_empty.
    cbn [size_of_file]. rewrite read_zeroed_all. destruct (file_hashes_ st !! path) as [hash|]; [|by rewrite accept_scan, app_nil_r].
    destruct (String.eqb hash (hash_bytes256 data)); cbn [negb]; [by rewrite app_nil_r|]. cbv zeta. unfold note_change.
    destruct (dlt RANSOMWARE_ENTROPY_THRESH (shannon_entropy log2 data)); [done|]. rewrite app_nil_r. f_equal. by apply accept_watch.
  - rewrite app_nil_r. unfold looked_at in E. destruct (d !! path) as [[data|z]|]; [| |done].
    + by destruct (snapshot_size (Readable data)).
    + cbn [file_bytes]. rewrite hash_locked. by destruct (snapshot_size (Locked z)).
Qed.

End watch_lemmas.

(** ** The critical sections *)

(** What a thread does at once: the critical sections and the changes of the counters, with the disks they meet.
    A pass or a start is a sequence of them, between which any others may run. *)
Inductive arhs_op :=
  | Begin (profile : option string)
  | ScanLocked (hash : string) (sized opened : disk) (path : string)
  | Counted
  | WatchLocked (size : Z) (hash : string) (now : Z) (for_entropy sized opened : disk) (path : string)
  | Detect (now : Z)
  | Alarms (n : Z)
  | Finish
  | AddDirectory (dir : string)
  | TakeSnapshot (sized opened : disk) (path : string)
  | Rollback (d : disk) (r : room) (path : string)
  | RollbackProcess (d : disk) (r : room) (pid : Z)
  | Suspend (opened : option Z) (pid : Z) (why : ThreatCategory).

Section acts.
Context (log2 : double -> double) (fmt2 : double -> string).

Definition arhs_act (st : Arhs) (op : arhs_op) : Arhs :=
  match op with
  | Begin profile => if ar_running st then st else started_with st true match watch_dirs_ st with [] => default_dirs profile | dirs => dirs end
  | ScanLocked hash sized opened path => scan_locked st hash sized opened path
  | Counted => arhs_event st
  | WatchLocked size hash now for_entropy sized opened path => fst (watch_locked log2 fmt2 size hash now for_entropy sized opened (st, []) path)
  | Detect now => fst (detect_rapid_encryption st now)
  | Alarms n => count_threats st n
  | Finish => arhs_stop st
  | AddDirectory dir => add_watch_directory st dir
  | TakeSnapshot sized opened path => take_snapshot st sized opened path
  | Rollback d r path => snd (fst (rollback_file st d r path))
  | RollbackProcess d r pid => snd (fst (rollback_process st d r pid))
  | Suspend opened pid why => snd (fst (suspend_process st opened pid why))
  end.

Definition arhs_run (ops : list arhs_op) : Arhs := foldl arhs_act arhs_init ops.

Definition arhs_reachable (st : Arhs) : Prop := exists ops, st = arhs_run ops.

Lemma reachable_init : arhs_reachable arhs_init.
Proof. by exists []. Qed.

Lemma reachable_act st op : arhs_reachable st -> arhs_reachable (arhs_act st op).
Proof. intros [ops ->]. exists (ops ++ [op]). unfold arhs_run. by rewrite foldl_app. Qed.

Lemma foldl_inv {A B} (P : A -> Prop) (f : A -> B -> A) l a : P a -> (forall a b, P a -> P (f a b)) -> P (foldl f a l).
Proof. intros Ha Hf. revert a Ha. induction l as [|b l IH]; intros a Ha; cbn [foldl]; [done|]. by apply IH, Hf. Qed.

(** The operations of the engine are sequences of critical sections. *)
Lemma watch_locked_state size hash now d0 d1 d2 st pending path :
  fst (watch_locked log2 fmt2 size hash now d0 d1 d2 (st, pending) path) = fst (watch_locked log2 fmt2 size hash now d0 d1 d2 (st, []) path).
Proof. unfold watch_locked. destruct (file_hashes_ st !! path); [|done]. destruct (negb _); [|done]. cbv zeta. by destruct (dlt _ _). Qed.

Lemma reachable_scan st ds path : arhs_reachable st -> arhs_reachable (scan_file ds st path).
Proof.
  intros H. unfold scan_file. destruct (ds path 0%nat !! path) as [f|]; [|done]. destruct (snapshot_size f); [|done]. cbv zeta.
  apply (reachable_act _ Counted). destruct (empty_string _); [done|]. by apply (reachable_act st (ScanLocked _ _ _ path)).
Qed.

Lemma reachable_watch ds clock acc path : arhs_reachable (fst acc) -> arhs_reachable (fst (watch_file log2 fmt2 ds clock acc path)).
Proof.
  intros H. unfold watch_file. destruct (ds path 0%nat !! path) as [f|]; [|done]. destruct (snapshot_size f); [|done]. cbv zeta.
  destruct (empty_string _); [done|]. destruct acc as [st pending]. rewrite watch_locked_state. by apply (reachable_act st (WatchLocked _ _ _ _ _ _ path)).
Qed.

Lemma reachable_start st ds t profile : arhs_reachable st -> arhs_reachable (arhs_start st ds t profile).
Proof.
  intros H. pose proof (reachable_act st (Begin profile) H) as Hb. cbn [arhs_act] in Hb. unfold arhs_start. destruct (ar_running st); [done|].
  apply (foldl_inv arhs_reachable); [exact Hb|]. intros a dir Ha. unfold scan_directory. apply (foldl_inv arhs_reachable); [done|]. intros b path. apply reachable_scan.
Qed.

Lemma reachable_pass st ds t clock now : arhs_reachable st -> arhs_reachable (fst (watch_pass log2 fmt2 st ds t clock now)).
Proof.
  intros H. unfold watch_pass.
  assert (Hw : arhs_reachable (fst (foldl (fun acc dir => foldl (watch_file log2 fmt2 ds clock) acc (default [] (t dir))) (st, []) (watch_dirs_ st)))).
  { apply (foldl_inv (fun acc => arhs_reachable (fst acc))); [done|]. intros a dir Ha. apply (foldl_inv (fun acc => arhs_reachable (fst acc))); [done|]. intros b path. apply reachable_watch. }
  destruct (foldl _ _ _) as [st1 pending]. pose proof (reachable_act st1 (Detect now) Hw) as Hd. cbn [arhs_act] in Hd.
  destruct (detect_rapid_encryption st1 now) as [st2 rapid]. cbn [fst] in *. by apply (reachable_act st2 (Alarms _)).
Qed.
End acts.

(** ** The snapshots *)





Lemma list_find_app {A} (f : A -> bool) l k : List.find f (l ++ k) = match List.find f l with Some x => Some x | None => List.find f k end.
Proof. induction l as [|x l IH]; cbn [app List.find]; [done|]. by destruct (f x). Qed.










(** ** Reachable states *)

Section reach.
Context (log2 : double -> double) (fmt2 : double -> string).






(** No process has snapshots, whatever the disks. *)
Lemma reachable_sandboxed st : arhs_reachable log2 fmt2 st -> Forall (fun sp => snapshots sp = []) (sandboxed_ st).
Proof.
  intros [ops ->]. induction ops as [|op ops IH] using rev_ind; [constructor|]. unfold arhs_run in *. rewrite foldl_app. cbn [foldl]. set (st := foldl _ _ _) in *.
  assert (Htake : forall st sized opened path, sandboxed_ (take_snapshot st sized opened path) = sandboxed_ st).
  { intros st' sized opened path. unfold take_snapshot. destruct (sized !! path); [|done]. destruct (snapshot_size _); [|done]. by destruct (opened !! path) as [[]|]. }
  destruct op; cbn [arhs_act]; try done.
  - by destruct (ar_running _).
  - unfold scan_locked. by rewrite Htake.
  - unfold watch_locked. destruct (file_hashes_ st !! path); [|cbn [fst]; by rewrite Htake]. destruct (negb _); [|done]. cbv zeta. destruct (dlt _ _); cbn [fst]; [done|]. cbn [sandboxed_ with_hashes]. by rewrite Htake.
  - unfold arhs_stop. by destruct (ar_running _).
  - by rewrite Htake.
  - unfold rollback_file. destruct (newest_snapshot _ _); [|done]. by destruct (write_over _ _ _ _).
  - unfold rollback_process. destruct (List.find _ _) as [sp|] eqn:E; [|done]. apply find_some in E as [E _]. apply list_elem_of_In in E.
    pose proof IH as Hall. rewrite Forall_forall in Hall. by rewrite (Hall sp E).
  - unfold suspend_process. destruct opened; [|done]. cbn. apply Forall_app. split; [done|by repeat constructor].
Qed.


Lemma foldl_files d clock files st pending : NoDup files ->
  foldl (watch_file log2 fmt2 (steady d) clock) (st, pending) files =
    (foldl (fun st path => file_update log2 st d clock path) st files, pending ++ mjoin (file_alert log2 fmt2 st d <$> files)).
Proof.
  revert st pending. induction files as [|p files IH]; intros st pending Hnd; cbn [foldl fmap list_fmap]; [by rewrite app_nil_r|].
  apply NoDup_cons in Hnd as [Hp Hnd]. rewrite watch_file_eq, IH by done. f_equal. rewrite <- app_assoc. f_equal. cbn [mjoin list_join]. f_equal. f_equal.
  apply list_fmap_ext. intros i q Hq. assert (Hne : q <> p) by (intros ->; apply Hp; by apply list_elem_of_lookup_2 in Hq).
  unfold file_alert, changed. assert (E : file_hashes_ (file_update log2 st d clock p) !! q = file_hashes_ st !! q); [|by rewrite E].
  unfold file_update. destruct (looked_at d p) as [data|]; [|done]. destruct (file_hashes_ st !! p) as [h|]; [destruct (String.eqb _ _); [done|]; destruct (high_entropy _ _); [done|]|];
    cbn; by rewrite lookup_insert_ne.
Qed.

Lemma walk_files d (t : tree) clock dirs st pending : foldl (fun acc dir => foldl (watch_file log2 fmt2 (steady d) clock) acc (default [] (t dir))) (st, pending) dirs =
  foldl (watch_file log2 fmt2 (steady d) clock) (st, pending) (mjoin ((fun dir => default [] (t dir)) <$> dirs)).
Proof.
  revert st pending. induction dirs as [|dir dirs IH]; intros st pending; cbn [foldl fmap list_fmap]; [done|]. cbn [mjoin list_join]. rewrite foldl_app.
  destruct (foldl (watch_file log2 fmt2 (steady d) clock) (st, pending) (default [] (t dir))) as [st' p']. apply IH.
Qed.

(** The hashes that a walk leaves. *)
Definition expected_hash (st : Arhs) (d : disk) (path : string) : option string :=
  match looked_at d path with
  | Some data => match changed st d path with
                 | Some _ => if high_entropy log2 data then file_hashes_ st !! path else Some (hash_bytes256 data)
                 | None => Some (hash_bytes256 data)
                 end
  | None => file_hashes_ st !! path
  end.

Lemma update_hash st d clock p q : file_hashes_ (file_update log2 st d clock p) !! q = if String.eqb p q then expected_hash st d p else file_hashes_ st !! q.
Proof.
  destruct (String.eqb_spec p q) as [<-|Hn].
  - unfold expected_hash, changed, file_update. destruct (looked_at d p) as [data|]; [|done]. destruct (file_hashes_ st !! p) as [h|] eqn:E.
    + destruct (String.eqb_spec h (hash_bytes256 data)) as [-> |]; [done|]. destruct (high_entropy log2 data); [done|]. cbn. by rewrite lookup_insert_eq.
    + cbn. by rewrite lookup_insert_eq.
  - unfold file_update. destruct (looked_at d p) as [data|]; [|done]. destruct (file_hashes_ st !! p) as [h|]; [destruct (String.eqb _ _); [done|]; destruct (high_entropy _ _); [done|]|];
    cbn; by rewrite lookup_insert_ne.
Qed.

Lemma walk_hashes d clock files st q : NoDup files ->
  file_hashes_ (foldl (fun st path => file_update log2 st d clock path) st files) !! q =
    if bool_decide (q ∈ files) then expected_hash st d q else file_hashes_ st !! q.
Proof.
  revert st. induction files as [|p files IH]; intros st Hnd; cbn [foldl]; [done|]. apply NoDup_cons in Hnd as [Hp Hnd]. rewrite IH by done.
  assert (Hu := update_hash st d clock p q). destruct (String.eqb_spec p q) as [<-|Hn].
  - rewrite (bool_decide_eq_false_2 _ Hp), bool_decide_eq_true_2 by by left. done.
  - destruct (decide (q ∈ files)) as [Hq|Hq].
    + rewrite !bool_decide_eq_true_2 by (done || by right). unfold expected_hash, changed. by rewrite Hu.
    + rewrite !bool_decide_eq_false_2; [exact Hu| |done]. intros Hin. apply elem_of_cons in Hin as [->|]; done.
Qed.

(** The changes that a walk notes. *)
Definition changed_files (st : Arhs) (d : disk) (files : list string) : list string :=
  List.filter (fun p => match changed st d p with Some _ => true | None => false end) files.

Lemma update_changes st d clock p :
  recent_changes_ (file_update log2 st d clock p) = recent_changes_ st ++ match changed st d p with Some _ => [(p, clock p)] | None => [] end.
Proof.
  unfold file_update, changed. destruct (looked_at d p) as [data|]; [|by rewrite app_nil_r]. destruct (file_hashes_ st !! p) as [h|]; [|by rewrite app_nil_r].
  destruct (String.eqb _ _); [by rewrite app_nil_r|]. by destruct (high_entropy _ _).
Qed.

Lemma changed_update st d clock p q : p <> q -> changed (file_update log2 st d clock p) d q = changed st d q.
Proof. intros H. unfold changed. by rewrite update_hash, (proj2 (String.eqb_neq p q) H). Qed.

Lemma walk_changes d clock files st : NoDup files ->
  recent_changes_ (foldl (fun st path => file_update log2 st d clock path) st files) =
    recent_changes_ st ++ ((fun p => (p, clock p)) <$> changed_files st d files).
Proof.
  revert st. induction files as [|p files IH]; intros st Hnd; cbn [foldl]; [by rewrite app_nil_r|]. apply NoDup_cons in Hnd as [Hp Hnd].
  rewrite IH, update_changes, <- app_assoc by done. f_equal. unfold changed_files at 2. cbn [List.filter].
  assert (E : changed_files (file_update log2 st d clock p) d files = changed_files st d files).
  { apply List.filter_ext_in. intros q Hq. rewrite changed_update; [done|]. intros <-. by apply Hp, list_elem_of_In. }
  rewrite E. by destruct (changed st d p).
Qed.

(** The files of the watched directories, as a pass meets them. *)
Definition watched_files (st : Arhs) (t : tree) : list string := mjoin ((fun dir => default [] (t dir)) <$> watch_dirs_ st).

Definition recent (now : Z) (r : string * Z) : bool := now - snd r <=? 5 * SECOND.

Definition pass_changes (st : Arhs) (d : disk) (t : tree) (clock : string -> Z) (now : Z) : list (string * Z) :=
  List.filter (recent now) (recent_changes_ st ++ ((fun p => (p, clock p)) <$> changed_files st d (watched_files st t))).

Lemma update_dirs st d clock p : watch_dirs_ (file_update log2 st d clock p) = watch_dirs_ st.
Proof.
  unfold file_update. destruct (looked_at d p) as [data|]; [|done]. destruct (file_hashes_ st !! p) as [h|]; [|done].
  destruct (String.eqb _ _); [done|]. by destruct (high_entropy _ _).
Qed.

Definition to_threat (p : PendingThreat) : ThreatEvent := arhs_threat (pt_cat p) (pt_desc p) 0 (pt_path p).

Lemma watch_pass_spec st d t clock now : NoDup (watched_files st t) ->
  let '(st', outs) := watch_pass log2 fmt2 st (steady d) t clock now in
  outs = to_threat <$> mjoin (file_alert log2 fmt2 st d <$> watched_files st t) ++
           (if 20 <=? Z.of_nat (length (pass_changes st d t clock now)) then [rapid_threat] else []) /\
  (forall q, file_hashes_ st' !! q = if bool_decide (q ∈ watched_files st t) then expected_hash st d q else file_hashes_ st !! q) /\
  recent_changes_ st' = pass_changes st d t clock now /\ watch_dirs_ st' = watch_dirs_ st.
Proof.
  intros Hnd. unfold watch_pass. rewrite walk_files. fold (watched_files st t). rewrite foldl_files by done.
  pose proof (fun q => walk_hashes d clock (watched_files st t) st q Hnd) as Hh. pose proof (walk_changes d clock (watched_files st t) st Hnd) as Hc.
  assert (Hd : watch_dirs_ (foldl (fun st path => file_update log2 st d clock path) st (watched_files st t)) = watch_dirs_ st).
  { apply (foldl_inv (fun s => watch_dirs_ s = watch_dirs_ st)); [done|]. intros a b <-. apply update_dirs. }
  set (st1 := foldl _ _ _) in *. unfold detect_rapid_encryption. cbn [app].
  assert (Hf : List.filter (fun r => negb (RAPID_CHANGE_WINDOW * SECOND <? now - snd r)) (recent_changes_ st1) = pass_changes st d t clock now).
  { rewrite Hc. unfold pass_changes. apply List.filter_ext. intros r. unfold recent, RAPID_CHANGE_WINDOW. by rewrite <- Z.leb_antisym. }
  rewrite Hf. unfold RAPID_CHANGE_THRESH. split_and!; [|exact Hh|done|exact Hd].
  destruct (20 <=? _); [done|]. by rewrite app_nil_r.
Qed.

(** ** Properties *)


(** a pass over files that are met once each reports, in their order, exactly the known files that
    changed and whose entropy is above the threshold, then one threat for the volume when at least
    twenty changes, of any entropy, lie within the last five seconds; it takes over the hash of
    every file it can read but those it reported. *)
Theorem watch_pass_exact (st : Arhs) (d : disk) (t : tree) (clock : string -> Z) (now : Z) :
  NoDup (watched_files st t) ->
  let '(st', outs) := watch_pass log2 fmt2 st (steady d) t clock now in
  outs = to_threat <$> mjoin (file_alert log2 fmt2 st d <$> watched_files st t) ++
           (if 20 <=? Z.of_nat (length (pass_changes st d t clock now)) then [rapid_threat] else []) /\
  (forall q, file_hashes_ st' !! q = if bool_decide (q ∈ watched_files st t) then expected_hash st d q else file_hashes_ st !! q).
Proof.
  intros H. pose proof (watch_pass_spec st d t clock now H) as Hs. destruct (watch_pass _ _ _ _ _ _ _) as [st' outs]. by destruct Hs as (H1 & H2 & _).
Qed.

Lemma alert_again st st' d q : file_hashes_ st' !! q = expected_hash st d q -> file_alert log2 fmt2 st' d q = file_alert log2 fmt2 st d q.
Proof.
  intros E. unfold file_alert. assert (Hc : changed st' d q = match changed st d q with Some data => if high_entropy log2 data then Some data else None | None => None end).
  { unfold expected_hash, changed in *. destruct (looked_at d q) as [data|]; [|done]. destruct (file_hashes_ st !! q) as [h|] eqn:Eh.
    - destruct (String.eqb_spec h (hash_bytes256 data)) as [Eq|Eq].
      + by rewrite E, String.eqb_refl.
      + destruct (high_entropy log2 data); rewrite E; [by rewrite (proj2 (String.eqb_neq _ _) Eq)|by rewrite String.eqb_refl].
    - by rewrite E, String.eqb_refl. }
  rewrite Hc. destruct (changed st d q) as [data|]; [|done]. destruct (high_entropy log2 data) eqn:Eh; [by rewrite Eh|done].
Qed.

Definition encrypted_files (st : Arhs) (d : disk) (files : list string) : list string :=
  List.filter (fun p => match changed st d p with Some data => high_entropy log2 data | None => false end) files.

Lemma changed_again st st' d q : file_hashes_ st' !! q = expected_hash st d q ->
  (match changed st' d q with Some _ => true | None => false end) = match changed st d q with Some data => high_entropy log2 data | None => false end.
Proof.
  intros E. unfold expected_hash, changed in *. destruct (looked_at d q) as [data|]; [|done]. destruct (file_hashes_ st !! q) as [h|] eqn:Eh.
  - destruct (String.eqb_spec h (hash_bytes256 data)) as [Eq|Eq]; [by rewrite E, String.eqb_refl|].
    destruct (high_entropy log2 data); rewrite E; [by rewrite (proj2 (String.eqb_neq _ _) Eq)|by rewrite String.eqb_refl].
  - by rewrite E, String.eqb_refl.
Qed.

Lemma filter_all {A} (f : A -> bool) l : (forall x, In x l -> f x = true) -> List.filter f l = l.
Proof. induction l as [|x l IH]; intros H; cbn; [done|]. rewrite H by by left. f_equal. apply IH. intros y Hy. apply H. by right. Qed.

Lemma encrypted_are_changed st d files : (length (encrypted_files st d files) <= length (changed_files st d files))%nat.
Proof.
  unfold encrypted_files, changed_files. induction files as [|p files IH]; cbn [List.filter]; [done|]. destruct (changed st d p) as [data|]; [|exact IH].
  destruct (high_entropy log2 data); cbn [length]; lia.
Qed.

(** an encrypted file is reported again by every pass for as long as it stays as it is, and counts
    again as a change each time: ten encrypted files and a second pass within five seconds are
    reported as twenty. *)
Theorem encrypted_files_count_again (st : Arhs) (d : disk) (t : tree) (clock clock' : string -> Z) (now now' : Z) :
  NoDup (watched_files st t) ->
  let st1 := fst (watch_pass log2 fmt2 st (steady d) t clock now) in
  let outs2 := snd (watch_pass log2 fmt2 st1 (steady d) t clock' now') in
  (exists more, outs2 = (to_threat <$> mjoin (file_alert log2 fmt2 st d <$> watched_files st t)) ++ more) /\
  ((forall p, now - clock p <= 5 * SECOND /\ now' - clock p <= 5 * SECOND /\ now' - clock' p <= 5 * SECOND) ->
   (10 <= length (encrypted_files st d (watched_files st t)))%nat -> In (to_threat rapid_threat) outs2).
Proof.
  intros Hnd. pose proof (watch_pass_spec st d t clock now Hnd) as Hs. destruct (watch_pass log2 fmt2 st (steady d) t clock now) as [st1 outs1]. cbn [fst].
  destruct Hs as (_ & Hh & Hc & Hd). assert (Hw : watched_files st1 t = watched_files st t) by (unfold watched_files; by rewrite Hd).
  rewrite <- Hw in Hnd. pose proof (watch_pass_spec st1 d t clock' now' Hnd) as Hs2. destruct (watch_pass log2 fmt2 st1 (steady d) t clock' now') as [st2 outs2]. cbn [snd].
  destruct Hs2 as (Ho & _ & _ & _). rewrite Hw in *. rewrite fmap_app in Ho.
  assert (He : forall q, q ∈ watched_files st t -> file_hashes_ st1 !! q = expected_hash st d q) by (intros q Hq; by rewrite Hh, bool_decide_eq_true_2).
  split.
  - eexists. rewrite Ho. f_equal. f_equal. f_equal. apply list_fmap_ext. intros i q Hq. by apply alert_again, He, (list_elem_of_lookup_2 _ i).
  - intros Ht Hn. rewrite Ho. apply in_app_iff. right.
    assert (Hc2 : changed_files st1 d (watched_files st t) = encrypted_files st d (watched_files st t)).
    { apply List.filter_ext_in. intros q Hq. apply changed_again, He. by apply list_elem_of_In. }
    rewrite (proj2 (Z.leb_le _ _)); [by left|]. unfold pass_changes. rewrite Hw, Hc2, Hc. unfold pass_changes.
    rewrite List.filter_app, !length_app, (filter_all (recent now') ((fun p => (p, clock' p)) <$> _)), length_fmap.
    + rewrite List.filter_app, List.filter_app, length_app, !(filter_all _ ((fun p => (p, clock p)) <$> _)), length_fmap.
      * pose proof (encrypted_are_changed st d (watched_files st t)). lia.
      * intros x Hx. apply list_elem_of_In, list_elem_of_fmap in Hx as (p & -> & _). apply Z.leb_le, Ht.
      * intros x Hx. apply list_elem_of_In, list_elem_of_fmap in Hx as (p & -> & _). apply Z.leb_le, Ht.
    + intros x Hx. apply list_elem_of_In, list_elem_of_fmap in Hx as (p & -> & _). apply Z.leb_le, Ht.
Qed.

(** [rollback_process] restores no file in any state the engine can be in, whatever the process
    did: it answers [OK] exactly for the processes that were suspended. *)
Theorem rollback_process_restores_nothing (st : Arhs) (d : disk) (r : room) (pid : Z) :
  arhs_reachable log2 fmt2 st ->
  rollback_process st d r pid = (if existsb (fun sp => sp_pid sp =? pid) (sandboxed_ st) then OK else ERR_ROLLBACK_FAIL, st, d).
Proof.
  intros H. apply reachable_sandboxed in H. unfold rollback_process. destruct (List.find _ _) as [sp|] eqn:E.
  - apply find_some in E as [E1 E2]. rewrite Forall_forall in H. rewrite (H sp) by by apply list_elem_of_In. rewrite (proj2 (existsb_exists _ _)); [done|by exists sp].
  - destruct (existsb _ _) eqn:Ex; [|done]. apply existsb_exists in Ex as (sp & Hin & Hp). by rewrite (find_none _ _ E sp Hin) in Hp.
Qed.
End reach.

(** ** Witnesses *)

Definition log2_zero : double -> double := fun _ => dz 0.
Definition log2_high : double -> double := fun _ => dz (-1000).
Definition no_fmt : double -> string := fun _ => EmptyString.

Definition one_disk : disk := {["a"%string := Readable ["A"%byte]]}.
Definition one_tree : tree := fun _ => Some ["a"%string].



(** A file that shrinks between the question for its size and the read is kept with zeros at its end. *)
Example shrunk_file_padded :
  original_data <$> snapshot_ring_ (take_snapshot arhs_init {["a"%string := Readable ["A"%byte; "B"%byte]]} {["a"%string := Readable ["C"%byte]]} "a") = [["C"%byte; x00]].
Proof. reflexivity. Qed.

Definition ten_names : list string := ["a"; "b"; "c"; "d"; "e"; "f"; "g"; "h"; "i"; "j"]%string.
Definition ten_disk : disk := list_to_map ((fun p => (p, Readable ["A"%byte])) <$> ten_names).
Definition ten_tree : tree := fun _ => Some ten_names.
Definition ten_known : Arhs := Watch true ["w"%string] (list_to_map ((fun p => (p, EmptyString)) <$> ten_names)) [] [] [] 0 0 0.

Lemma changed_from_empty st d p data : file_hashes_ st !! p = Some EmptyString -> looked_at d p = Some data -> changed st d p = Some data.
Proof.
  intros H1 H2. unfold changed. rewrite H1, H2. pose proof (hash_not_empty data) as H. by destruct (hash_bytes256 data).
Qed.

Lemma ten_changed : Forall (fun p => changed ten_known ten_disk p = Some ["A"%byte]) ten_names.
Proof. repeat constructor; apply changed_from_empty; vm_compute; reflexivity. Qed.

Lemma ten_nodup : NoDup ten_names.
Proof. apply (bool_decide_unpack _). vm_compute. exact I. Qed.

Lemma ten_watched : watched_files ten_known ten_tree = ten_names.
Proof. reflexivity. Qed.

Lemma watch_pass_exact_witness :
  In (to_threat (entropy_threat no_fmt "c" (shannon_entropy log2_high ["A"%byte]))) (snd (watch_pass log2_high no_fmt ten_known (steady ten_disk) ten_tree (fun _ => 0) 0)).
Proof.
  assert (Hn : NoDup (watched_files ten_known ten_tree)) by (rewrite ten_watched; exact ten_nodup).
  pose proof (watch_pass_exact log2_high no_fmt ten_known ten_disk ten_tree (fun _ => 0) 0 Hn) as H.
  destruct (watch_pass _ _ _ _ _ _ _) as [st' outs]. destruct H as [-> _]. cbn [snd]. apply in_map_iff.
  eexists. split; [reflexivity|]. apply in_app_iff. left. apply list_elem_of_In. apply list_elem_of_join. exists (file_alert log2_high no_fmt ten_known ten_disk "c"). split.
  - unfold file_alert. pose proof ten_changed as Ht. rewrite Forall_forall in Ht. rewrite Ht by (by rewrite list_elem_of_In; cbn; tauto).
    replace (high_entropy log2_high ["A"%byte]) with true by (vm_compute; reflexivity). by left.
  - rewrite ten_watched. apply list_elem_of_fmap. exists "c"%string. split; [done|]. apply list_elem_of_In. cbn. tauto.
Defined.

Lemma encrypted_files_count_again_witness :
  In (to_threat rapid_threat)
    (snd (watch_pass log2_high no_fmt (fst (watch_pass log2_high no_fmt ten_known (steady ten_disk) ten_tree (fun _ => 0) 0)) (steady ten_disk) ten_tree (fun _ => 3 * SECOND) (3 * SECOND))).
Proof.
  assert (Hn : NoDup (watched_files ten_known ten_tree)) by (rewrite ten_watched; exact ten_nodup).
  pose proof (encrypted_files_count_again log2_high no_fmt ten_known ten_disk ten_tree (fun _ => 0) (fun _ => 3 * SECOND) 0 (3 * SECOND) Hn) as H.
  cbv zeta in H. destruct H as [_ H]. apply H; clear H.
  - intros p. unfold SECOND. lia.
  - rewrite ten_watched. unfold encrypted_files. rewrite filter_all; [cbn; lia|]. intros p Hp. pose proof ten_changed as Ht. rewrite Forall_forall in Ht.
    rewrite Ht by (by apply list_elem_of_In). vm_compute. reflexivity.
Defined.

Definition one_suspended : Arhs := snd (fst (suspend_process arhs_init (Some 5) 77 RANSOMWARE)).

Lemma rollback_process_restores_nothing_witness : rollback_process one_suspended one_disk (fun _ => Some 9%nat) 77 = (OK, one_suspended, one_disk).
Proof.
  apply (rollback_process_restores_nothing log2_zero no_fmt one_suspended). exact (reachable_act log2_zero no_fmt arhs_init (Suspend (Some 5) 77 RANSOMWARE) (reachable_init log2_zero no_fmt)).
Defined.
