(* ===== verification/Zrgp.v ===== *)
(** * Zrgp: the deception ports

    Models src/src/engines/zrgp_engine.cpp: the banners, the answers made up for a port, the
    ports that are bound when the listener begins, what a probe does and the statistics of the
    addresses that probed.  The draws of the generator and the outcomes of the calls on sockets
    are arguments; an address is the number in the order of the host. *)
From S2P Require Import Prelude Observation Text Threat EtgRi.

Definition cr : Ascii.ascii := char_of 13.
Definition crlf : string := String.String cr (String.String newline EmptyString).

Record FakeBanner := Banner {
  fb_port : Z;
  service_name : string;
  version_string : string;
  response_template : string;
}.

Record DeceptionStats := Deceived {
  ds_attacker_ip : Z;
  ds_target_port : Z;
  ds_probes_received : Z;
  ds_fake_responses_sent : Z;
  ds_first_seen : Z;
  ds_last_seen : Z;
}.

(** The template of the port 3389 is made of a literal: it ends before its first zero byte. *)
Definition rdp_literal : string :=
  string_of_bytes (byte_of <$> [0x03; 0; 0; 0x13; 0x0e; 0xd0; 0; 0; 0x12; 0x34; 0; 0x02; 0x01; 0x08; 0; 0x02; 0; 0; 0]).

Definition literal_text (s : string) : string :=
  match find_idx (Ascii.eqb (char_of 0)) s with Some n => String.substring 0 n s | None => s end.

Definition default_banners : list FakeBanner :=
  [Banner 22 "ssh" "OpenSSH_8.9p1" ("SSH-2.0-OpenSSH_8.9p1 Ubuntu-3ubuntu0.6" +:+ crlf);
   Banner 21 "ftp" "vsftpd 3.0.5" ("220 (vsFTPd 3.0.5)" +:+ crlf);
   Banner 25 "smtp" "Postfix" ("220 mail.example.local ESMTP Postfix" +:+ crlf);
   Banner 80 "http" "Apache/2.4.57" EmptyString;
   Banner 443 "https" "nginx/1.24.0" EmptyString;
   Banner 3306 "mysql" "MySQL 8.0.36" EmptyString;
   Banner 3389 "rdp" "Microsoft RDP" (literal_text rdp_literal);
   Banner 445 "smb" "Samba 4.18.6" EmptyString;
   Banner 8080 "http-proxy" "Squid/6.6" EmptyString;
   Banner 1433 "mssql" "MS SQL 2022" EmptyString;
   Banner 5432 "postgresql" "PostgreSQL 16.2" EmptyString;
   Banner 6379 "redis" "Redis 7.2.4" ("-ERR unknown command" +:+ crlf)]%string.

(** The draws of a version: 6 to 9, 0 to 9 and one of seven. *)
Record VersionDraw := Draw { draw_major : Z; draw_minor : Z; draw_patch : nat }.

Definition patches : list string := ["p1"; "p2"; "p3"; "p4"; "p5"; "p6"; "p7"]%string.

Definition drawn (v : VersionDraw) : Prop := 6 <= draw_major v <= 9 /\ 0 <= draw_minor v <= 9 /\ (draw_patch v < length patches)%nat.

Definition randomize_version (v : VersionDraw) : string :=
  print_int (draw_major v) +:+ "." +:+ print_int (draw_minor v) +:+ nth (draw_patch v) patches EmptyString.

(** What an answer draws: three versions, a variant and a number from 1 to 99. *)
Record AnswerDraws := Draws {
  body_version : VersionDraw;
  server_version : VersionDraw;
  php_version : VersionDraw;
  ssh_variant : nat;
  mail_number : Z;
}.

Definition http_body (v : VersionDraw) : string :=
  "<html><head><title>Apache2 Ubuntu Default Page</title></head>" +:+
  "<body><h1>It works!</h1><p>Server version: Apache/" +:+ randomize_version v +:+ " (Ubuntu)</p></body></html>" +:+ crlf.

Definition generate_fake_http_response (r : AnswerDraws) : string :=
  let body := http_body (body_version r) in
  "HTTP/1.1 200 OK" +:+ crlf +:+
  "Server: Apache/" +:+ randomize_version (server_version r) +:+ " (Ubuntu)" +:+ crlf +:+
  "Content-Type: text/html" +:+ crlf +:+
  "Content-Length: " +:+ print_int (Z.of_nat (String.length body)) +:+ crlf +:+
  "X-Powered-By: PHP/" +:+ randomize_version (php_version r) +:+ crlf +:+
  "Connection: close" +:+ crlf +:+ crlf +:+ body.

Definition ssh_variants : list string :=
  ["SSH-2.0-OpenSSH_8.9p1 Ubuntu-3ubuntu0.6" +:+ crlf; "SSH-2.0-OpenSSH_9.3p1 Debian-1" +:+ crlf;
   "SSH-2.0-OpenSSH_8.4p1 Raspbian-5" +:+ crlf; "SSH-2.0-dropbear_2022.83" +:+ crlf]%string.

Definition generate_fake_ssh_banner (r : AnswerDraws) : string := nth (ssh_variant r) ssh_variants EmptyString.

Definition generate_fake_ftp_banner (r : AnswerDraws) : string := "220 (vsFTPd " +:+ randomize_version (body_version r) +:+ ")" +:+ crlf.

Definition generate_fake_smtp_banner (r : AnswerDraws) : string :=
  "220 mail-gw" +:+ print_int (mail_number r) +:+ ".example.local ESMTP Postfix (Ubuntu)" +:+ crlf.

Definition template_of (banners : list FakeBanner) (port : Z) : string :=
  match List.find (fun b => (fb_port b =? port) && negb (empty_string (response_template b))) banners with
  | Some b => response_template b
  | None => "220 Service ready" +:+ crlf
  end.

Definition generate_fake_banner (banners : list FakeBanner) (r : AnswerDraws) (port : Z) : string :=
  if port =? 22 then generate_fake_ssh_banner r
  else if port =? 21 then generate_fake_ftp_banner r
  else if port =? 25 then generate_fake_smtp_banner r
  else if (port =? 80) || (port =? 8080) || (port =? 443) then generate_fake_http_response r
  else template_of banners port.

Record Zrgp := Deception {
  zr_running : bool;
  banners_ : list FakeBanner;
  active_ports_ : list FakeBanner;
  attacker_stats_ : gmap Z DeceptionStats;
  zr_events_processed : Z;
  zr_threats_detected : Z;
  fake_responses_ : Z;
}.

Definition zrgp_init : Zrgp := Deception false default_banners [] ∅ 0 0 0.

Definition with_ports (st : Zrgp) (running : bool) (ports : list FakeBanner) : Zrgp :=
  Deception running (banners_ st) ports (attacker_stats_ st) (zr_events_processed st) (zr_threats_detected st) (fake_responses_ st).

(** [start] and the beginning of the listener, which binds the ports that the system gives it. *)
Definition zrgp_start (st : Zrgp) (bound : Z -> bool) : Zrgp :=
  if zr_running st then st
  else with_ports st true (active_ports_ st ++ List.filter (fun b => bound (fb_port b)) (banners_ st)).

Definition zrgp_stop (st : Zrgp) : Zrgp := if zr_running st then with_ports st false [] else st.

Definition add_honey_port (st : Zrgp) (port : Z) (service : string) (v : VersionDraw) : Zrgp :=
  Deception (zr_running st) (banners_ st ++ [Banner port service (randomize_version v) EmptyString]) (active_ports_ st) (attacker_stats_ st)
    (zr_events_processed st) (zr_threats_detected st) (fake_responses_ st).

Definition probe_text (b : FakeBanner) (ip : Z) : string :=
  "Probe on honey port " +:+ print_int (fb_port b) +:+ " (" +:+ service_name b +:+ ") from " +:+ ip_str ip.

Definition zrgp_threat (desc src_ip : string) (port : Z) : ThreatEvent :=
  Event 0 0 MEDIUM NETWORK_SCAN 0 EmptyString EmptyString desc src_ip port false false.

Definition no_stats : DeceptionStats := Deceived 0 0 0 0 0 0.

Definition count_probe (stats : gmap Z DeceptionStats) (ip port now : Z) : gmap Z DeceptionStats :=
  let s := default no_stats (stats !! ip) in
  <[ip := Deceived ip port (u64 (ds_probes_received s + 1)) (ds_fake_responses_sent s) (if ds_first_seen s =? 0 then now else ds_first_seen s) now]> stats.

(** A connection that a port accepted: the threat and what is sent. *)
Definition probe (st : Zrgp) (b : FakeBanner) (ip now : Z) (r : AnswerDraws) : Zrgp * ThreatEvent * string :=
  (Deception (zr_running st) (banners_ st) (active_ports_ st) (count_probe (attacker_stats_ st) ip (fb_port b) now)
     (u64 (zr_events_processed st + 1)) (u64 (zr_threats_detected st + 1)) (u64 (fake_responses_ st + 1)),
   zrgp_threat (probe_text b ip) (ip_str ip) (fb_port b),
   generate_fake_banner (banners_ st) r (fb_port b)).

(** A turn of the loop: [accepted i] is what the [i]th port accepted. *)
Record Connection := Client { cn_ip : Z; cn_now : Z; cn_draws : AnswerDraws }.

Definition listen_step (accepted : nat -> option Connection) (acc : Zrgp * list (ThreatEvent * string)) (ib : nat * FakeBanner) : Zrgp * list (ThreatEvent * string) :=
  let '(st, outs) := acc in
  match accepted (fst ib) with
  | Some c => let '(st, ev, response) := probe st (snd ib) (cn_ip c) (cn_now c) (cn_draws c) in (st, outs ++ [(ev, response)])
  | None => acc
  end.

Definition honey_turn (st : Zrgp) (accepted : nat -> option Connection) : Zrgp * list (ThreatEvent * string) :=
  foldl (listen_step accepted) (st, []) (imap (fun i b => (i, b)) (active_ports_ st)).

Definition get_attacker_stats (st : Zrgp) : list DeceptionStats := snd <$> map_to_list (attacker_stats_ st).

(** ** Lemmas *)

(** The empty line that ends the head of an answer. *)
Definition empty_line : string := crlf +:+ crlf.

(** A message: lines, an empty line and a body. *)
Definition message (lines : list string) (body : string) : string := foldr (fun l s => l +:+ crlf +:+ s) (crlf +:+ body) lines.

Definition header_line (l : string) : Prop := l <> EmptyString /\ has_char cr l = false.

Fixpoint head_length (lines : list string) : nat :=
  match lines with
  | [] => 0
  | [l] => String.length l
  | l :: lines => String.length l + 2 + head_length lines
  end.

Lemma no_line_here c s : c <> cr -> find_pos empty_line (String.String c s) = S <$> find_pos empty_line s.
Proof.
  intros H. change (find_pos empty_line (String.String c s)) with (if String.prefix empty_line (String.String c s) then Some 0%nat else S <$> find_pos empty_line s).
  destruct (String.prefix _ _) eqn:E; [|done]. apply prefix_spec in E as [rest [= E _]]. by destruct H.
Qed.

Lemma find_line_skip a s : has_char cr a = false -> find_pos empty_line (a +:+ s) = Nat.add (String.length a) <$> find_pos empty_line s.
Proof.
  induction a as [|c a IH]; intros H; cbn [has_char] in H.
  - change (EmptyString +:+ s) with s. by destruct (find_pos empty_line s).
  - apply orb_false_iff in H as [Hc H]. apply bool_decide_eq_false in Hc. change (String.String c a +:+ s) with (String.String c (a +:+ s)).
    rewrite no_line_here, IH by done. by destruct (find_pos empty_line s).
Qed.

Lemma find_line_next c s : c <> cr -> find_pos empty_line (crlf +:+ String.String c s) = Nat.add 2 <$> find_pos empty_line (String.String c s).
Proof.
  intros H. change (crlf +:+ String.String c s) with (String.String cr (String.String newline (String.String c s))).
  assert (E : find_pos empty_line (String.String cr (String.String newline (String.String c s))) = S <$> find_pos empty_line (String.String newline (String.String c s))).
  { change (find_pos empty_line (String.String cr (String.String newline (String.String c s)))) with
      (if String.prefix empty_line (String.String cr (String.String newline (String.String c s))) then Some 0%nat else S <$> find_pos empty_line (String.String newline (String.String c s))).
    destruct (String.prefix _ _) eqn:E; [|done]. apply prefix_spec in E as [rest [= E _]]. by destruct H. }
  rewrite E, no_line_here by done. by destruct (find_pos empty_line (String.String c s)).
Qed.

Lemma message_head lines body : lines <> [] -> Forall header_line lines -> find_pos empty_line (message lines body) = Some (head_length lines).
Proof.
  induction lines as [|l lines IH]; [done|]. intros _ H. apply Forall_cons in H as [[_ Hl] H]. unfold message. cbn [foldr]. rewrite find_line_skip by done.
  destruct lines as [|l' lines].
  - cbn [foldr head_length]. assert (E : find_pos empty_line (crlf +:+ crlf +:+ body) = Some 0%nat).
    { change (crlf +:+ crlf +:+ body) with (empty_line +:+ body). assert (Hp : String.prefix empty_line (empty_line +:+ body) = true) by (apply prefix_spec; by exists body).
      change (find_pos empty_line (empty_line +:+ body)) with
        (if String.prefix empty_line (empty_line +:+ body) then Some 0%nat else S <$> find_pos empty_line (String.String newline (crlf +:+ body))).
      by rewrite Hp. }
    rewrite E. cbn [fmap option_fmap option_map]. f_equal. lia.
  - pose proof (IH ltac:(done) H) as IH'. unfold message in IH'. cbn [foldr] in IH' |- *. apply Forall_cons in H as [[Hn' Hl'] _]. destruct l' as [|c l']; [done|].
    cbn [has_char] in Hl'. apply orb_false_iff in Hl' as [Hc _]. apply bool_decide_eq_false in Hc.
    change (String.String c l' +:+ crlf +:+ foldr (fun l s => l +:+ crlf +:+ s) (crlf +:+ body) lines) with
      (String.String c (l' +:+ crlf +:+ foldr (fun l s => l +:+ crlf +:+ s) (crlf +:+ body) lines)) in *.
    rewrite find_line_next, IH' by done. cbn [fmap option_fmap option_map head_length]. f_equal. lia.
Qed.

Lemma message_length lines body : Forall header_line lines -> lines <> [] -> str_drop (head_length lines + 4) (message lines body) = body.
Proof.
  assert (Hd : forall a n s, str_drop (String.length a + n) (a +:+ s) = str_drop n s).
  { induction a as [|c a IH]; intros n s; cbn [String.length]; [done|]. apply IH. }
  intros _. induction lines as [|l lines IH]; [done|]. intros _. unfold message. cbn [foldr]. destruct lines as [|l' lines].
  - cbn [head_length foldr]. by rewrite Hd.
  - change (head_length (l :: l' :: lines)) with (String.length l + 2 + head_length (l' :: lines))%nat. rewrite <- !Nat.add_assoc, Hd.
    change (2 + (head_length (l' :: lines) + 4))%nat with (String.length crlf + (head_length (l' :: lines) + 4))%nat. rewrite Hd. by apply IH.
Qed.

(** Every version is five characters, none of them an end of a line. *)
Definition version_fits (v : VersionDraw) : bool := Nat.eqb (String.length (randomize_version v)) 5 && negb (has_char cr (randomize_version v)).

Lemma all_versions_fit :
  forallb (fun a => forallb (fun b => forallb (fun p => version_fits (Draw a b p)) [0; 1; 2; 3; 4; 5; 6]%nat) [0; 1; 2; 3; 4; 5; 6; 7; 8; 9]) [6; 7; 8; 9] = true.
Proof. vm_compute. reflexivity. Qed.

Lemma version_shape v : drawn v -> String.length (randomize_version v) = 5%nat /\ has_char cr (randomize_version v) = false.
Proof.
  destruct v as [a b p]. intros (Ha & Hb & Hp). cbn [draw_major draw_minor draw_patch length patches] in *.
  pose proof all_versions_fit as H. rewrite forallb_forall in H. specialize (H a ltac:(cbn; lia)). rewrite forallb_forall in H. specialize (H b ltac:(cbn; lia)).
  rewrite forallb_forall in H. specialize (H p ltac:(cbn; lia)). unfold version_fits in H. apply andb_true_iff in H as [H1 H2].
  split; [by apply Nat.eqb_eq|by apply negb_true_iff].
Qed.

(** The lines of the head. *)
Definition http_lines (r : AnswerDraws) : list string :=
  ["HTTP/1.1 200 OK"; "Server: Apache/" +:+ randomize_version (server_version r) +:+ " (Ubuntu)"; "Content-Type: text/html";
   "Content-Length: " +:+ print_int (Z.of_nat (String.length (http_body (body_version r))));
   "X-Powered-By: PHP/" +:+ randomize_version (php_version r); "Connection: close"]%string.

Lemma http_is_message r : generate_fake_http_response r = message (http_lines r) (http_body (body_version r)).
Proof. unfold generate_fake_http_response, message, http_lines. cbn [foldr]. by rewrite !string_app_assoc. Qed.

Lemma http_lines_ok r : drawn (server_version r) -> drawn (php_version r) -> Forall header_line (http_lines r).
Proof.
  intros Hs Hp. apply version_shape in Hs as [_ Hs], Hp as [_ Hp]. unfold http_lines, header_line. repeat apply Forall_cons_2; [..|constructor].
  all: split; [done|]. all: rewrite ?has_char_app, ?Hs, ?Hp. all: try reflexivity. all: rewrite print_int_plain; [reflexivity|reflexivity|discriminate].
Qed.

(** The connections of a turn, with the port of each. *)
Definition served (st : Zrgp) (accepted : nat -> option Connection) : list (FakeBanner * Connection) :=
  omap (fun ib => match accepted (fst ib) with Some c => Some (snd ib, c) | None => None end) (imap (fun i b => (i, b)) (active_ports_ st)).

Definition serve (st : Zrgp) (bc : FakeBanner * Connection) : Zrgp := fst (fst (probe st (fst bc) (cn_ip (snd bc)) (cn_now (snd bc)) (cn_draws (snd bc)))).

Definition answer (banners : list FakeBanner) (bc : FakeBanner * Connection) : ThreatEvent * string :=
  (zrgp_threat (probe_text (fst bc) (cn_ip (snd bc))) (ip_str (cn_ip (snd bc))) (fb_port (fst bc)), generate_fake_banner banners (cn_draws (snd bc)) (fb_port (fst bc))).

Lemma serve_all_same l st : banners_ (foldl serve st l) = banners_ st /\ active_ports_ (foldl serve st l) = active_ports_ st.
Proof. revert st. induction l as [|x l IH]; intros st; cbn [foldl]; [done|]. destruct (IH (serve st x)) as [-> ->]. done. Qed.

Lemma listen_steps accepted l st outs :
  foldl (listen_step accepted) (st, outs) l =
    let bcs := omap (fun ib => match accepted (fst ib) with Some c => Some (snd ib, c) | None => None end) l in
    (foldl serve st bcs, outs ++ (answer (banners_ st) <$> bcs)).
Proof.
  revert st outs. induction l as [|[i b] l IH]; intros st outs; cbn [foldl]; [by rewrite app_nil_r|]. unfold listen_step at 2. cbn [fst snd]. cbn [omap list_omap fst snd].
  destruct (accepted i) as [c|]; [|apply IH]. destruct (probe st b (cn_ip c) (cn_now c) (cn_draws c)) as [[st' ev] resp] eqn:E. rewrite IH.
  cbv zeta. cbn [foldl fmap list_fmap]. assert (Es : serve st (b, c) = st') by (unfold serve; cbn [fst snd]; by rewrite E). rewrite Es. f_equal.
  rewrite <- app_assoc. f_equal. injection E as <- <- <-. done.
Qed.

Definition stat (st : Zrgp) (ip : Z) : DeceptionStats := default no_stats (attacker_stats_ st !! ip).

Definition from_ip (ip : Z) (bc : FakeBanner * Connection) : bool := cn_ip (snd bc) =? ip.

Lemma stat_serve st bc ip : stat (serve st bc) ip =
  if from_ip ip bc then Deceived ip (fb_port (fst bc)) (u64 (ds_probes_received (stat st ip) + 1)) (ds_fake_responses_sent (stat st ip))
                          (if ds_first_seen (stat st ip) =? 0 then cn_now (snd bc) else ds_first_seen (stat st ip)) (cn_now (snd bc))
  else stat st ip.
Proof.
  unfold stat at 1, serve, from_ip, probe. cbn [fst snd attacker_stats_]. unfold count_probe. destruct (Z.eqb_spec (cn_ip (snd bc)) ip) as [<-|Hn].
  - by rewrite lookup_insert_eq.
  - by rewrite lookup_insert_ne.
Qed.

Lemma serve_all_stats l st ip :
  u64 (ds_probes_received (stat (foldl serve st l) ip)) = u64 (ds_probes_received (stat st ip) + Z.of_nat (length (List.filter (from_ip ip) l))) /\
  ds_fake_responses_sent (stat (foldl serve st l) ip) = ds_fake_responses_sent (stat st ip).
Proof.
  revert st. induction l as [|bc l IH]; intros st; cbn [foldl List.filter length]; [by rewrite Z.add_0_r|]. destruct (IH (serve st bc)) as [-> ->].
  rewrite stat_serve. destruct (from_ip ip bc); cbn [ds_probes_received ds_fake_responses_sent length]; [|done]. split; [apply u64_add_one|done].
Qed.

Lemma serve_all_counts l st : u64 (fake_responses_ (foldl serve st l)) = u64 (fake_responses_ st + Z.of_nat (length l)).
Proof.
  revert st. induction l as [|bc l IH]; intros st; cbn [foldl length]; [by rewrite Z.add_0_r|]. rewrite IH. cbn [serve probe fst snd fake_responses_]. apply u64_add_one.
Qed.

(** ** Properties *)

(** the answer of the ports of the web, read as a client reads it, is a status line and a head that
    the first empty line ends, and what follows it is exactly as long as the head says. *)
Theorem http_content_length (r : AnswerDraws) :
  drawn (server_version r) -> drawn (php_version r) ->
  let response := generate_fake_http_response r in
  exists lines pos body,
    response = message lines body /\ Forall header_line lines /\ head lines = Some "HTTP/1.1 200 OK"%string /\
    find_pos empty_line response = Some pos /\ str_drop (pos + 4) response = body /\
    In ("Content-Length: " +:+ print_int (Z.of_nat (String.length body))) lines.
Proof.
  intros Hs Hp. cbv zeta. pose proof (http_lines_ok r Hs Hp) as Hl. rewrite http_is_message.
  exists (http_lines r), (head_length (http_lines r)), (http_body (body_version r)). split_and!; [done|done|done| | |].
  - by apply message_head.
  - by apply message_length.
  - unfold http_lines. cbn. tauto.
Qed.

Definition some_draws : AnswerDraws := Draws (Draw 8 9 0) (Draw 7 1 3) (Draw 6 0 6) 2 44.

Lemma http_content_length_witness : exists pos, find_pos empty_line (generate_fake_http_response some_draws) = Some pos.
Proof.
  destruct (http_content_length some_draws) as (lines & pos & body & _ & _ & _ & E & _).
  - unfold drawn. cbn. lia.
  - unfold drawn. cbn. lia.
  - by exists pos.
Defined.

(** a turn of the listener raises, in the order of the ports, one threat for each connection and
    sends it the answer of its port; each is added to the statistics of its address and to the
    count of answers, but never to the answers that the statistics of the address give. *)
Theorem probes_are_counted (st : Zrgp) (accepted : nat -> option Connection) :
  let '(st', outs) := honey_turn st accepted in
  outs = answer (banners_ st) <$> served st accepted /\
  u64 (fake_responses_ st') = u64 (fake_responses_ st + Z.of_nat (length (served st accepted))) /\
  (forall ip, u64 (ds_probes_received (stat st' ip)) = u64 (ds_probes_received (stat st ip) + Z.of_nat (length (List.filter (from_ip ip) (served st accepted)))) /\
              ds_fake_responses_sent (stat st' ip) = ds_fake_responses_sent (stat st ip)) /\
  banners_ st' = banners_ st /\ active_ports_ st' = active_ports_ st.
Proof.
  unfold honey_turn. rewrite listen_steps. cbv zeta. fold (served st accepted). cbn [app]. split_and!.
  - done.
  - apply serve_all_counts.
  - intros ip. apply serve_all_stats.
  - apply serve_all_same.
  - apply serve_all_same.
Qed.

(** a port that is added while the engine runs is not opened: whatever connects, the turns of the
    listener are those of the ports that were bound at the start; the next start opens it. *)
Theorem added_port_waits (st : Zrgp) (port : Z) (service : string) (v : VersionDraw) (bound : Z -> bool) :
  zr_running st = true ->
  active_ports_ (add_honey_port st port service v) = active_ports_ st /\
  zrgp_start (add_honey_port st port service v) bound = add_honey_port st port service v /\
  active_ports_ (zrgp_start (zrgp_stop (add_honey_port st port service v)) bound) =
    List.filter (fun b => bound (fb_port b)) (banners_ st) ++ (if bound port then [Banner port service (randomize_version v) EmptyString] else []).
Proof.
  intros H. split_and!; [done| |].
  - unfold zrgp_start. cbn [zr_running add_honey_port]. by rewrite H.
  - unfold zrgp_stop. cbn [zr_running add_honey_port]. rewrite H. unfold zrgp_start. cbn [zr_running with_ports active_ports_ banners_ app add_honey_port].
    rewrite List.filter_app. cbn [List.filter fb_port]. done.
Qed.

Lemma added_port_waits_witness :
  active_ports_ (add_honey_port (zrgp_start zrgp_init (fun _ => false)) 2222 "ssh" (Draw 8 9 0)) = [].
Proof. apply (added_port_waits (zrgp_start zrgp_init (fun _ => false)) 2222 "ssh" (Draw 8 9 0) (fun _ => true)). reflexivity. Defined.

(** The remote desktop port sends a single byte: its literal ends before its first zero. *)
Lemma rdp_answer r : generate_fake_banner default_banners r 3389 = String.String (char_of 3) EmptyString.
Proof. reflexivity. Qed.

(** The ports of the databases and of file sharing greet like a mail server. *)
Lemma database_answers r : Forall (fun port => generate_fake_banner default_banners r port = "220 Service ready" +:+ crlf) [3306; 445; 1433; 5432].
Proof. repeat constructor. Qed.
