(* ===== verification/Galois.v ===== *)
(** * Galois: the facade over the engines

    Models src/src/galois_shield.cpp over the interface of Lifecycle.v: the report on the health
    of the engines with its score, and their arrangement into categories; and, from
    src/src/engine_manager.cpp, the names of the engines that the manager creates. *)
From S2P Require Import Prelude Float64 Entropy Observation Text Threat EtwProcess EventLog Lifecycle.

Inductive EngineCategory :=
  | MEMORY_PROTECTION | PROCESS_DEFENSE | NETWORK_SECURITY | FILE_PROTECTION | SYSTEM_INTEGRITY | THREAT_ANALYSIS | ENDPOINT_CONTROL.

#[global] Instance EngineCategory_eq : EqDecision EngineCategory.
Proof. solve_decision. Defined.

(** By their values, 0 to 6. *)
Definition all_engine_categories : list EngineCategory :=
  [MEMORY_PROTECTION; PROCESS_DEFENSE; NETWORK_SECURITY; FILE_PROTECTION; SYSTEM_INTEGRITY; THREAT_ANALYSIS; ENDPOINT_CONTROL].

Record EngineCategoryInfo := CategoryInfo { ci_category : EngineCategory; ci_label : string; ci_engine_names : list string }.

Record ShieldHealthReport := Health {
  overall_score : double;
  engines_total : Z;
  engines_running : Z;
  engines_stopped : Z;
  hr_total_events : Z;
  hr_total_threats : Z;
  hr_threat_level : ThreatLevel;
  etw_active : bool;
  stopped_engine_names : list string;
}.

Definition version_string : string := "GaloisShield Engine" +:+ " v" +:+ "1.0.0" +:+ " (" +:+ "Bastion" +:+ ") " +:+ em_dash +:+ " " +:+ "Galoisconnection".

Definition threat_penalty (l : ThreatLevel) : double :=
  match l with SAFE => dz 0 | LOW => dlit 5 100 | MEDIUM => dlit 15 100 | HIGH => dlit 30 100 | CRITICAL => dlit 50 100 end.

Definition health_score (running total : Z) (l : ThreatLevel) : double :=
  if total =? 0 then dz 0 else dclamp (dsub (ddiv (dz running) (dz total)) (threat_penalty l)) (dz 0) (dz 1).

Definition named (engine_name : string) (names : list string) : bool := existsb (String.eqb engine_name) names.

Definition categorize (engine_name : string) : EngineCategory :=
  if named engine_name ["PMSR"; "AMSI-Guard"; "ReflectiveInjection"]%string then MEMORY_PROTECTION
  else if named engine_name ["SelfDefense"; "SyscallGuard"; "CredentialGuard"; "LolbinsGuard"]%string then PROCESS_DEFENSE
  else if named engine_name ["DnsMonitor"; "Firewall"; "NetworkDPI"; "ETG-RI"; "ZRGP"; "NamedPipe-Defense"]%string then NETWORK_SECURITY
  else if named engine_name ["FileIntegrity"; "RansomwareShield"; "ARHS"; "PeStaticAnalysis"]%string then FILE_PROTECTION
  else if named engine_name ["KernelMonitor"; "RegistryMonitor"; "DeviceControl"; "WMI-BITS-Defense"; "DriverGuard"]%string then SYSTEM_INTEGRITY
  else if named engine_name ["YARA"; "BehaviorML"; "ThreatIntel"; "ForensicTimeline"; "VulnScanner"; "FilelessAstGuard"]%string then THREAT_ANALYSIS
  else ENDPOINT_CONTROL.

Definition category_label (cat : EngineCategory) : string :=
  match cat with
  | MEMORY_PROTECTION => "Memory Protection"
  | PROCESS_DEFENSE => "Process Defense"
  | NETWORK_SECURITY => "Network Security"
  | FILE_PROTECTION => "File Protection"
  | SYSTEM_INTEGRITY => "System Integrity"
  | THREAT_ANALYSIS => "Threat Analysis"
  | ENDPOINT_CONTROL => "Endpoint Control"
  end.

(** The names that go to a bucket, in the order of the engines. *)
Definition bucket (names : list string) (cat : EngineCategory) : list string := List.filter (fun n => bool_decide (categorize n = cat)) names.

(** [categories], over the names that the statuses of the engines give. *)
Definition categories (names : list string) : list EngineCategoryInfo :=
  omap (fun cat => match bucket names cat with [] => None | ns => Some (CategoryInfo cat (category_label cat) ns) end) all_engine_categories.

Section shield.
Context {E : Type} `{ISecurityEngine E}.

(** What the manager tells besides its engines: the log of events and whether the sensor runs. *)
Definition health (engines : list E) (event_log : list ThreatEvent) (etw : bool) (now : Z) : ShieldHealthReport :=
  let stopped := stopped_engines engines in
  let total := Z.of_nat (length engines) in
  let running := u64 (total - Z.of_nat (length stopped)) in
  let level := current_threat_level event_log now in
  Health (health_score running total level) total running (Z.of_nat (length stopped)) (total_engine_events engines)
    (Z.of_nat (length event_log)) level etw stopped.

Definition shield_categories (engines : list E) : list EngineCategoryInfo := categories (e_name <$> engines).

(** ** Lemmas *)

Lemma running_count (engines : list E) :
  Z.of_nat (length engines) - Z.of_nat (length (stopped_engines engines)) = Z.of_nat (length (List.filter e_running engines)).
Proof.
  unfold stopped_engines. rewrite length_fmap. induction engines as [|e engines IH]; cbn [List.filter length]; [done|].
  destruct (e_running e); cbn [negb length]; lia.
Qed.
End shield.

(** The names of the engines that the manager creates, in its order. *)
Definition created_engines : list string :=
  ["PMSR"; "ETG-RI"; "ARHS"; "ZRGP"; "SelfDefense"; "SyscallGuard"; "KernelMon"; "RegMon"; "FIM"; "DnsMon"; "YARA"; "Firewall"; "Sandbox";
   "ThreatIntel"; "AutoUpdate"; "BehaviorML"; "ForensicTimeline"; "VulnScanner"; "RansomwareShield"; "CredentialGuard"; "NetworkDPI";
   "DeviceControl"; "AMSI-Guard"; "WMI-BITS-Defense"; "NamedPipe-Defense"; "ReflectiveInjection"; "DriverGuard"; "WebhookEngine";
   "PeStaticAnalysis"; "LolbinsGuard"; "FilelessAstGuard"]%string.

Lemma buckets_permute names : Permutation names (mjoin (bucket names <$> all_engine_categories)).
Proof.
  induction names as [|n names IH]; [done|]. unfold all_engine_categories in *. cbn [fmap list_fmap mjoin list_join] in *. unfold bucket in *.
  cbn [List.filter]. rewrite app_nil_r in *.
  destruct (categorize n); cbn [bool_decide decide_rel]; repeat (rewrite bool_decide_eq_false_2 by discriminate); rewrite bool_decide_eq_true_2 by done;
    cbn [app]; (etransitivity; [apply perm_skip, IH|]).
  all: repeat first [reflexivity | etransitivity; [apply Permutation_middle|apply Permutation_app_head]].
Qed.

Definition category_info (names : list string) (cat : EngineCategory) : option EngineCategoryInfo :=
  match bucket names cat with [] => None | ns => Some (CategoryInfo cat (category_label cat) ns) end.

Lemma info_in names (cat : EngineCategory) (l : list EngineCategory) : cat ∈ ci_category <$> omap (category_info names) l -> cat ∈ l.
Proof.
  intros Hc. apply list_elem_of_fmap in Hc as (c & -> & Hc). apply list_elem_of_omap in Hc as (cat' & Hin & Hc). unfold category_info in Hc.
  destruct (bucket names cat'); [done|]. by injection Hc as <-.
Qed.

Lemma info_nodup names (l : list EngineCategory) : NoDup l -> NoDup (ci_category <$> omap (category_info names) l).
Proof.
  induction l as [|cat l IH]; intros Hnd; [constructor|]. apply NoDup_cons in Hnd as [Hc Hnd]. cbn [omap list_omap]. unfold category_info at 1.
  destruct (bucket names cat); [by apply IH|]. cbn [fmap list_fmap ci_category]. apply NoDup_cons. split; [by intros ?%info_in|by apply IH].
Qed.

(** The scores of the engines of the program. *)
Definition levels : list ThreatLevel := [SAFE; LOW; MEDIUM; HIGH; CRITICAL].
Definition program_engines : Z := 31.
Definition running_counts : list Z := Z.of_nat <$> seq 0 32.

Definition score_fits (running : Z) (l : ThreatLevel) : bool :=
  let s := health_score running program_engines l in
  unit_interval s &&
  Bool.eqb (dle (dz 1) s) ((running =? program_engines) && bool_decide (l = SAFE)) &&
  implb ((running <? 16) && bool_decide (l = CRITICAL)) (dle s (dz 0)) &&
  implb (0 <? running) (dle (health_score (running - 1) program_engines l) s).

Lemma scores_fit : forallb (fun running => forallb (score_fits running) levels) running_counts = true.
Proof. vm_compute. reflexivity. Qed.

Lemma score_fit running l : 0 <= running <= program_engines -> score_fits running l = true.
Proof.
  intros H. pose proof scores_fit as Hs. rewrite forallb_forall in Hs. specialize (Hs running). rewrite forallb_forall in Hs. apply Hs.
  - unfold running_counts. apply in_map_iff. exists (Z.to_nat running). unfold program_engines in H. split; [lia|]. apply in_seq. lia.
  - unfold levels. destruct l; cbn; tauto.
Qed.

(** ** Properties *)

(** the categories arrange the engines without losing or repeating any: their lists together are the
    names of the statuses, each under the category of its name, no category twice and none empty. *)
Theorem categories_partition (names : list string) :
  Permutation names (mjoin (ci_engine_names <$> categories names)) /\
  NoDup (ci_category <$> categories names) /\
  Forall (fun c => ci_engine_names c <> [] /\ ci_label c = category_label (ci_category c) /\
                   ci_engine_names c = List.filter (fun n => bool_decide (categorize n = ci_category c)) names) (categories names).
Proof.
  split_and!.
  - etransitivity; [apply buckets_permute|]. unfold categories. generalize all_engine_categories. intros l.
    induction l as [|cat l IH]; cbn [omap list_omap fmap list_fmap mjoin list_join]; [done|]. destruct (bucket names cat) as [|n ns]; [exact IH|].
    cbn [fmap list_fmap mjoin list_join ci_engine_names]. by apply Permutation_app_head.
  - unfold categories. apply info_nodup. apply (bool_decide_unpack _). vm_compute. exact I.
  - apply Forall_forall. intros c Hc. apply list_elem_of_omap in Hc as (cat & _ & Hc). fold (bucket names (ci_category c)). destruct (bucket names cat) as [|n ns] eqn:E; [done|].
    injection Hc as <-. cbn [ci_engine_names ci_label ci_category]. by rewrite E.
Qed.

(** the report counts the engines that run, and over the engines of the program its score lies
    between 0 and 1, is 1 exactly when every engine runs and no recent event is above SAFE, is 0
    when fewer than 16 run under a critical event, and does not rise when an engine stops. *)
Theorem health_report {E : Type} `{ISecurityEngine E} (engines : list E) (event_log : list ThreatEvent) (etw : bool) (now : Z) :
  Z.of_nat (length engines) = program_engines ->
  let r := health engines event_log etw now in
  let level := current_threat_level event_log now in
  engines_running r = Z.of_nat (length (List.filter e_running engines)) /\
  engines_total r = engines_running r + engines_stopped r /\
  unit_interval (overall_score r) = true /\
  (dle (dz 1) (overall_score r) = true <-> stopped_engine_names r = [] /\ level = SAFE) /\
  (engines_running r < 16 -> level = CRITICAL -> dle (overall_score r) (dz 0) = true) /\
  (0 < engines_running r -> dle (health_score (engines_running r - 1) program_engines level) (overall_score r) = true).
Proof.
  intros Hl. cbv zeta. unfold health. cbn [engines_running engines_total engines_stopped overall_score stopped_engine_names]. rewrite Hl.
  pose proof (running_count engines) as Hr. rewrite Hl in Hr. rewrite Hr. unfold program_engines in *.
  assert (Hn : (length (List.filter e_running engines) <= length engines)%nat) by apply List.filter_length_le.
  set (n := Z.of_nat (length (List.filter e_running engines))) in *. assert (Hnb : 0 <= n <= 31) by lia. rewrite u64_small by lia.
  pose proof (score_fit n (current_threat_level event_log now) Hnb) as Hs. unfold score_fits, program_engines in Hs. apply andb_true_iff in Hs as [Hs H4].
  apply andb_true_iff in Hs as [Hs H3]. apply andb_true_iff in Hs as [H1 H2]. apply Bool.eqb_prop in H2. split_and!; [done|lia|done| | |].
  - rewrite H2, andb_true_iff, Z.eqb_eq, bool_decide_eq_true. assert (Hz : n = 31 <-> stopped_engines engines = []); [|by rewrite Hz].
    rewrite <- length_zero_iff_nil. lia.
  - intros Hlt Hc. rewrite (proj2 (Z.ltb_lt _ _) Hlt), (bool_decide_eq_true_2 _ Hc) in H3. exact H3.
  - intros Hlt. rewrite (proj2 (Z.ltb_lt _ _) Hlt) in H4. exact H4.
Qed.

Definition idle_engines : list ThreadEngine := replicate 31 (ThreadEng "PMSR" false 0 true).

Lemma health_report_witness : engines_running (health idle_engines [] false 0) = 0.
Proof.
  rewrite (proj1 (health_report idle_engines [] false 0 ltac:(reflexivity))). reflexivity.
Defined.

(** of the engines of the program the monitors of the kernel, the registry, the files and of name
    resolution are filed under Endpoint Control: [categorize] looks for names that none of them
    has, and all the names it does know otherwise are those of an engine. *)
Theorem misfiled_engines :
  length created_engines = 31%nat /\
  bucket created_engines ENDPOINT_CONTROL = ["KernelMon"; "RegMon"; "FIM"; "DnsMon"; "Sandbox"; "AutoUpdate"; "WebhookEngine"]%string /\
  Forall (fun n => categorize n <> ENDPOINT_CONTROL /\ named n created_engines = false) ["KernelMonitor"; "RegistryMonitor"; "FileIntegrity"; "DnsMonitor"]%string.
Proof. split_and!; [reflexivity|reflexivity|]. repeat constructor; (discriminate || reflexivity). Qed.
