(* ===== verification/Behavior.v ===== *)
(** * Behavior: the score of a process

    Models src/src/engines/behavior_scorer.cpp: the features, their normalization, the weights,
    the logistic risk, its level, the explanation and the engine's log and reports.  [std::exp],
    [std::sort], which is handed the comparator of the source, and the format of a number with
    two decimals are arguments. *)
From S2P Require Import Prelude Float64 Entropy Observation Text Threat BoundedLog.

Definition FEATURE_COUNT : nat := 12.

Record BehaviorFeatures := Features {
  api_call_entropy : double;
  memory_rwx_ratio : double;
  network_rate : double;
  file_write_rate : double;
  registry_write_rate : double;
  child_spawn_rate : double;
  dll_load_count : double;
  privilege_escalation : double;
  injection_indicators : double;
  evasion_indicators : double;
  persistence_indicators : double;
  encryption_indicators : double;
}.

Definition no_features : BehaviorFeatures :=
  Features (dz 0) (dz 0) (dz 0) (dz 0) (dz 0) (dz 0) (dz 0) (dz 0) (dz 0) (dz 0) (dz 0) (dz 0).

Definition feature_at (f : BehaviorFeatures) (i : nat) : double :=
  match i with
  | 0%nat => api_call_entropy f
  | 1%nat => memory_rwx_ratio f
  | 2%nat => network_rate f
  | 3%nat => file_write_rate f
  | 4%nat => registry_write_rate f
  | 5%nat => child_spawn_rate f
  | 6%nat => dll_load_count f
  | 7%nat => privilege_escalation f
  | 8%nat => injection_indicators f
  | 9%nat => evasion_indicators f
  | 10%nat => persistence_indicators f
  | 11%nat => encryption_indicators f
  | _ => dz 0
  end.

Definition set_feature (f : BehaviorFeatures) (i : nat) (val : double) : BehaviorFeatures :=
  let keep k x := if Nat.eqb i k then val else x in
  Features (keep 0%nat (api_call_entropy f)) (keep 1%nat (memory_rwx_ratio f)) (keep 2%nat (network_rate f)) (keep 3%nat (file_write_rate f))
    (keep 4%nat (registry_write_rate f)) (keep 5%nat (child_spawn_rate f)) (keep 6%nat (dll_load_count f)) (keep 7%nat (privilege_escalation f))
    (keep 8%nat (injection_indicators f)) (keep 9%nat (evasion_indicators f)) (keep 10%nat (persistence_indicators f)) (keep 11%nat (encryption_indicators f)).

Definition s_feature_names : list string :=
  ["api_call_entropy"; "memory_rwx_ratio"; "network_rate"; "file_write_rate"; "registry_write_rate"; "child_spawn_rate"; "dll_load_count";
   "privilege_escalation"; "injection_indicators"; "evasion_indicators"; "persistence_indicators"; "encryption_indicators"]%string.

Definition feature_name (i : nat) : string := nth i s_feature_names "unknown"%string.

Record ModelWeights := Weights {
  mw_weights : nat -> double;
  mw_bias : double;
  threshold_suspicious : double;
  threshold_malicious : double;
}.

Definition default_weights : list double :=
  [dlit 8 10; dlit 25 10; dlit 12 10; dlit 9 10; dlit 15 10; dz 1; dlit 6 10; dz 3; dlit 35 10; dlit 28 10; dz 2; dlit 25 10].

Definition default_model : ModelWeights := Weights (fun i => nth i default_weights (dz 0)) (dz (-2)) (dlit 40 100) (dlit 75 100).

(** Into the unit interval. *)
Definition unit_clamp (x : double) : double := dclamp x (dz 0) (dz 1).

Definition normalize (raw : BehaviorFeatures) : BehaviorFeatures :=
  Features (unit_clamp (ddiv (api_call_entropy raw) (dz 8))) (unit_clamp (memory_rwx_ratio raw)) (unit_clamp (ddiv (network_rate raw) (dz 100)))
    (unit_clamp (ddiv (file_write_rate raw) (dz 50))) (unit_clamp (ddiv (registry_write_rate raw) (dz 20)))
    (unit_clamp (ddiv (child_spawn_rate raw) (dz 10))) (unit_clamp (ddiv (dll_load_count raw) (dz 50))) (unit_clamp (privilege_escalation raw))
    (unit_clamp (injection_indicators raw)) (unit_clamp (evasion_indicators raw)) (unit_clamp (persistence_indicators raw))
    (unit_clamp (encryption_indicators raw)).

Definition classify (risk : double) (w : ModelWeights) : ThreatLevel :=
  if dle (threshold_malicious w) risk then HIGH
  else if dle (threshold_suspicious w) risk then MEDIUM
  else if dle (dlit 20 100) risk then LOW
  else SAFE.

Section scorer.
Context (exp : double -> double) (fmt2 : double -> string).

Definition sigmoid (x : double) : double :=
  if dle (dz 0) x then let z := exp (SFopp x) in ddiv (dz 1) (dadd (dz 1) z)
  else let z := exp x in ddiv z (dadd (dz 1) z).

Definition logit (f : BehaviorFeatures) (w : ModelWeights) : double :=
  foldl (fun sum i => dadd sum (dmul (feature_at f i) (mw_weights w i))) (mw_bias w) (seq 0 FEATURE_COUNT).

Definition compute_risk (f : BehaviorFeatures) (w : ModelWeights) : double := sigmoid (logit f w).

(** ** The explanation *)

Record Contribution := Contrib { ct_idx : nat; ct_value : double }.

Definition contributions (f : BehaviorFeatures) (w : ModelWeights) : list Contribution :=
  omap (fun i => let c := dmul (feature_at f i) (mw_weights w i) in if dlt (dlit 1 100) (SFabs c) then Some (Contrib i c) else None) (seq 0 FEATURE_COUNT).

(** The comparator given to [std::sort]. *)
Definition larger_contribution (a b : Contribution) : bool := dlt (SFabs (ct_value b)) (SFabs (ct_value a)).

Context (sort : (Contribution -> Contribution -> bool) -> list Contribution -> list Contribution).

Definition shown_contributions (f : BehaviorFeatures) (w : ModelWeights) : list Contribution := take 5 (sort larger_contribution (contributions f w)).

Definition factor_text (f : BehaviorFeatures) (c : Contribution) : string :=
  feature_name (ct_idx c) +:+ "=" +:+ fmt2 (feature_at f (ct_idx c)) +:+ " (w=" +:+ fmt2 (ct_value c) +:+ ")".

Fixpoint joined (l : list string) : string :=
  match l with
  | [] => EmptyString
  | [x] => x
  | x :: l => x +:+ ", " +:+ joined l
  end.

Definition explain (f : BehaviorFeatures) (w : ModelWeights) : string :=
  "Risk factors: " +:+ match shown_contributions f w with [] => "none significant" | l => joined (factor_text f <$> l) end.

(** ** The engine *)

Record ScoringResult := Scoring {
  sr_id : Z;
  sr_pid : Z;
  sr_process_name : string;
  sr_features : BehaviorFeatures;
  sr_risk_score : double;
  sr_level : ThreatLevel;
  sr_explanation : string;
  sr_scored_at : Z;
}.

Definition MAX_SCORES : Z := 1000.

Record BehaviorScorer := Scorer {
  model_ : ModelWeights;
  score_log_ : list ScoringResult;
  bs_next_id : Z;
  bs_events_processed : Z;
  bs_threats_detected : Z;
  bs_threat_cb : bool;
  bs_observation_cb : bool;
}.

Definition behavior_init : BehaviorScorer := Scorer default_model [] 1 0 0 false false.

Definition set_model (st : BehaviorScorer) (w : ModelWeights) : BehaviorScorer :=
  Scorer w (score_log_ st) (bs_next_id st) (bs_events_processed st) (bs_threats_detected st) (bs_threat_cb st) (bs_observation_cb st).

Definition score_result (st : BehaviorScorer) (pid : Z) (proc_name : string) (f : BehaviorFeatures) (now : Z) : ScoringResult :=
  let normalized := normalize f in
  let risk := compute_risk normalized (model_ st) in
  Scoring (bs_next_id st) pid proc_name normalized risk (classify risk (model_ st)) (explain normalized (model_ st)) now.

Definition behavior_threat (r : ScoringResult) : ThreatEvent :=
  Event 0 (sr_scored_at r) (sr_level r) SUSPICIOUS_BINARY (sr_pid r) (sr_process_name r) EmptyString
    ("BehaviorML: " +:+ sr_process_name r +:+ " risk=" +:+ print_int (dtrunc (dmul (sr_risk_score r) (dz 100))) +:+ "% " +:+ em_dash +:+ " " +:+ sr_explanation r)
    EmptyString 0 false false.

Definition behavior_observation (r : ScoringResult) : SecurityObservation :=
  Obs "behavior-ml" PROCESS_MEMORY (sr_scored_at r) (sr_level r) (sr_risk_score r) false (sr_pid r) (sr_process_name r) EmptyString EmptyString (sr_explanation r).

Definition score (st : BehaviorScorer) (pid : Z) (proc_name : string) (f : BehaviorFeatures) (now : Z) : BehaviorScorer * ScoringResult * list output :=
  let result := score_result st pid proc_name f now in
  let high := level_value HIGH <=? level_value (sr_level result) in
  let medium := level_value MEDIUM <=? level_value (sr_level result) in
  (Scorer (model_ st) (push_bounded MAX_SCORES (score_log_ st) result) (u64 (bs_next_id st + 1)) (u64 (bs_events_processed st + 1))
     (if high then u64 (bs_threats_detected st + 1) else bs_threats_detected st) (bs_threat_cb st) (bs_observation_cb st),
   result,
   (if high && bs_threat_cb st then [Threat (behavior_threat result)] else []) ++
   (if medium && bs_observation_cb st then [Observed (behavior_observation result)] else [])).

Definition recent_scores (st : BehaviorScorer) (n : Z) : list ScoringResult := latest n (score_log_ st).

(** A turn of the monitor, every five seconds, counts an event. *)
Definition monitor_tick (st : BehaviorScorer) : BehaviorScorer :=
  Scorer (model_ st) (score_log_ st) (bs_next_id st) (u64 (bs_events_processed st + 1)) (bs_threats_detected st) (bs_threat_cb st) (bs_observation_cb st).

(** ** Lemmas *)

Lemma compare_opp x y : SFcompare y x = option_map CompOpp (SFcompare x y).
Proof.
  destruct x as [s|s| |s m e], y as [s'|s'| |s' m' e']; try destruct s; try destruct s'; cbn [SFcompare option_map CompOpp]; try done.
  all: rewrite (Z.compare_antisym e e'); destruct (e ?= e'); cbn [CompOpp]; try done.
  all: pose proof (Pos.compare_antisym m m') as H; unfold Pos.compare in H; rewrite H; by destruct (Pos.compare_cont Eq m m').
Qed.

Definition is_nan (x : double) : bool := match x with S754_nan => true | _ => false end.

Lemma compare_number x y : is_nan x = false -> is_nan y = false -> exists c, SFcompare x y = Some c.
Proof. destruct x as [s|s| |s m e], y as [s'|s'| |s' m' e']; cbn [is_nan]; try done; intros _ _; cbn [SFcompare]; repeat case_match; eauto. Qed.

Lemma not_lt_le x y : is_nan x = false -> is_nan y = false -> dlt x y = false -> dle y x = true.
Proof.
  intros Hx Hy. unfold dlt, dle, SFltb, SFleb. rewrite (compare_opp x y). destruct (compare_number x y Hx Hy) as [c ->]. by destruct c.
Qed.

Lemma unit_clamp_bounds x : is_nan x = false -> dle (dz 0) (unit_clamp x) = true /\ dle (unit_clamp x) (dz 1) = true.
Proof.
  intros Hx. unfold unit_clamp, dclamp. destruct (dlt x (dz 0)) eqn:E0; [by split|]. destruct (dlt (dz 1) x) eqn:E1; [by split|].
  split; by apply not_lt_le.
Qed.

Lemma unit_clamp_nan : unit_clamp S754_nan = S754_nan.
Proof. reflexivity. Qed.

Lemma dle_positive m e m' e' : dle (S754_finite false m e) (S754_finite false m' e') = true <-> e < e' \/ e = e' /\ Z.pos m <= Z.pos m'.
Proof.
  unfold dle, SFleb. cbn [SFcompare]. change (Pos.compare_cont Eq m m') with (m ?= m')%positive.
  destruct (Z.compare_spec e e') as [E|E|E]; [destruct (Pos.compare_spec m m')| |]; split; intros; (done || lia).
Qed.

Lemma dle_negative m e m' e' : dle (S754_finite true m e) (S754_finite true m' e') = true <-> e' < e \/ e = e' /\ Z.pos m' <= Z.pos m.
Proof.
  unfold dle, SFleb. cbn [SFcompare]. change (Pos.compare_cont Eq m m') with (m ?= m')%positive.
  destruct (Z.compare_spec e e') as [E|E|E]; [destruct (Pos.compare_spec m m')| |]; cbn [CompOpp]; split; intros; (done || lia).
Qed.

Lemma dle_trans x y z : dle x y = true -> dle y z = true -> dle x z = true.
Proof.
  destruct x as [s|s| |s m e], y as [s'|s'| |s' m' e'], z as [s2|s2| |s2 m2 e2]; try destruct s; try destruct s'; try destruct s2; try done.
  - rewrite !dle_negative. lia.
  - rewrite !dle_positive. lia.
Qed.

Lemma logit_nan f w i : (i < FEATURE_COUNT)%nat -> feature_at f i = S754_nan -> logit f w = S754_nan.
Proof.
  intros Hi Hn. unfold logit. assert (Hin : In i (seq 0 FEATURE_COUNT)) by (apply in_seq; lia). revert Hin. generalize (seq 0 FEATURE_COUNT). intros l.
  assert (Hkeep : forall l, foldl (fun sum i => dadd sum (dmul (feature_at f i) (mw_weights w i))) S754_nan l = S754_nan) by (intros l'; induction l' as [|j l' IH]; [done|apply IH]).
  generalize (mw_bias w). induction l as [|j l IH]; intros b; [done|]. intros [-> |Hin]; cbn [foldl]; [|by apply IH]. rewrite Hn.
  assert (E : dadd b (dmul S754_nan (mw_weights w i)) = S754_nan) by (by destruct b). by rewrite E, Hkeep.
Qed.

(** The raw features that are not a number, by the index. *)
Lemma normalize_nan f i : (i < FEATURE_COUNT)%nat -> feature_at f i = S754_nan -> feature_at (normalize f) i = S754_nan.
Proof. unfold FEATURE_COUNT. intros Hi. repeat (destruct i as [|i]; [cbn [feature_at]; intros E; unfold normalize; cbn; by rewrite E|]). lia. Qed.

(** A rounded quotient of two numbers is a number. *)
Lemma shr_nonneg r e k : 0 <= shr_m r -> 0 <= shr_m (fst (shr r e k)).
Proof.
  intros H. unfold shr. destruct k as [|p|p]; cbn [fst]; [done| |done]. rewrite iter_pos_nat. induction (Pos.to_nat p) as [|n IH]; [done|].
  change (Nat.iter (S n) shr_1 r) with (shr_1 (Nat.iter n shr_1 r)). rewrite (proj1 (shr_1_spec _ IH)). apply Z.div_pos; [exact IH|lia].
Qed.

Lemma record_of_loc_mantissa m l : shr_m (shr_record_of_loc m l) = m.
Proof. by destruct l as [|[]]. Qed.

Lemma shr_fexp_nonneg m e l : 0 <= m -> 0 <= shr_m (fst (shr_fexp 53 1024 m e l)).
Proof. intros H. unfold shr_fexp. apply shr_nonneg. by rewrite record_of_loc_mantissa. Qed.

Lemma nearest_nonneg m l : 0 <= m -> 0 <= round_nearest_even m l.
Proof. intros H. destruct l as [|[]]; cbn; repeat case_match; lia. Qed.

Lemma round_aux_number s m e l : 0 <= m -> is_nan (binary_round_aux 53 1024 s m e l) = false.
Proof.
  intros H. unfold binary_round_aux. pose proof (shr_fexp_nonneg m e l H) as H1. destruct (shr_fexp 53 1024 m e l) as [r1 e1]. cbn [fst] in H1.
  pose proof (shr_fexp_nonneg _ e1 loc_Exact (nearest_nonneg _ (loc_of_shr_record r1) H1)) as H2. destruct (shr_fexp 53 1024 _ e1 loc_Exact) as [r2 e2]. cbn [fst] in H2.
  destruct (shr_m r2); [done|by destruct (_ <=? _)|lia].
Qed.

Lemma division_number x s m e : is_nan x = false -> is_nan (ddiv x (S754_finite s m e)) = false.
Proof.
  destruct x as [s'|s'| |s' m' e']; try done. intros _. unfold ddiv, SFdiv, SFdiv_core_binary. cbv zeta. set (e0 := Z.min _ _).
  assert (Hm : 0 <= match e' - e - e0 with Z.pos _ => Z.shiftl (Z.pos m') (e' - e - e0) | 0 => Z.pos m' | Z.neg _ => 0 end).
  { destruct (e' - e - e0); [lia|apply Z.shiftl_nonneg; lia|lia]. }
  revert Hm. generalize (match e' - e - e0 with Z.pos _ => Z.shiftl (Z.pos m') (e' - e - e0) | 0 => Z.pos m' | Z.neg _ => 0 end). intros q Hq.
  pose proof (Z.div_pos q (Z.pos m) Hq ltac:(lia)) as Hd. unfold Z.div in Hd. destruct (Z.div_eucl q (Z.pos m)) as [d r]. by apply round_aux_number.
Qed.

Lemma normalize_number f i : is_nan (feature_at f i) = false -> exists x, is_nan x = false /\ (feature_at (normalize f) i = unit_clamp x \/ feature_at (normalize f) i = x /\ x = dz 0).
Proof.
  repeat (destruct i as [|i]; [cbn [feature_at normalize]; intros H; eexists; split; [|left; reflexivity]; (exact H || apply division_number; exact H)|]).
  intros _. exists (dz 0). split; [done|by right].
Qed.

Lemma classify_nan w : classify S754_nan w = SAFE.
Proof. unfold classify, dle, SFleb. by destruct (threshold_malicious w), (threshold_suspicious w). Qed.

Lemma sigmoid_nan : exp S754_nan = S754_nan -> sigmoid S754_nan = S754_nan.
Proof. intros H. unfold sigmoid. cbn [dle SFleb SFcompare]. by rewrite H. Qed.

(** Requests of scores, one after the other. *)
Record Request := Req { rq_pid : Z; rq_name : string; rq_features : BehaviorFeatures; rq_now : Z }.

Definition request_score (acc : BehaviorScorer * list ScoringResult) (r : Request) : BehaviorScorer * list ScoringResult :=
  let '(st, results) := acc in
  let '(st, result, _) := score st (rq_pid r) (rq_name r) (rq_features r) (rq_now r) in (st, results ++ [result]).

Definition numbered (first : Z) (w : ModelWeights) (i : nat) (r : Request) : ScoringResult :=
  score_result (Scorer w [] (u64 (first + Z.of_nat i)) 0 0 false false) (rq_pid r) (rq_name r) (rq_features r) (rq_now r).

Lemma requests_results rs : forall st results, bs_next_id st = u64 (bs_next_id st) ->
  let '(st', results') := foldl request_score (st, results) rs in
  results' = results ++ imap (numbered (bs_next_id st) (model_ st)) rs /\
  score_log_ st' = foldl (push_bounded MAX_SCORES) (score_log_ st) (imap (numbered (bs_next_id st) (model_ st)) rs).
Proof.
  induction rs as [|r rs IH]; intros st results Hid; cbn [foldl]; [by rewrite app_nil_r|]. unfold request_score at 2.
  destruct (score st (rq_pid r) (rq_name r) (rq_features r) (rq_now r)) as [[st1 result] outs] eqn:E. unfold score in E. injection E as <- <- _.
  set (result := score_result st _ _ _ _). match goal with |- context [foldl request_score (?s, _) rs] => specialize (IH s (results ++ [result])) end.
  cbn [bs_next_id model_ score_log_] in IH. specialize (IH ltac:(by rewrite (u64_small (u64 _)) by apply u64_range)).
  destruct (foldl request_score _ rs) as [st' results']. destruct IH as [-> ->]. rewrite imap_cons, <- app_assoc. cbn [app foldl].
  assert (E1 : result = numbered (bs_next_id st) (model_ st) 0 r) by (unfold result, numbered, score_result; cbn [bs_next_id model_]; by rewrite Z.add_0_r, <- Hid).
  assert (E2 : imap (numbered (u64 (bs_next_id st + 1)) (model_ st)) rs = imap (numbered (bs_next_id st) (model_ st) ∘ S) rs).
  { apply imap_ext. intros i x _. unfold numbered, compose. by rewrite u64_add_one. }
  rewrite E2, E1. done.
Qed.
End scorer.

(** ** The order of the contributions *)

Lemma contributions_spec f w i c :
  In (Contrib i c) (contributions f w) <-> (i < 12)%nat /\ c = dmul (feature_at f i) (mw_weights w i) /\ dlt (dlit 1 100) (SFabs c) = true.
Proof.
  rewrite <- list_elem_of_In. unfold contributions. rewrite list_elem_of_omap. setoid_rewrite elem_of_seq. unfold FEATURE_COUNT. split.
  - intros (j & Hj & E). cbv zeta in E. destruct (dlt (dlit 1 100) _) eqn:Hd; [|discriminate E]. injection E as -> <-. split; [lia|done].
  - intros (Hi & -> & Hd). exists i. split; [lia|]. cbv zeta. by rewrite Hd.
Qed.

Lemma contribution_number f w c : c ∈ contributions f w -> is_nan (SFabs (ct_value c)) = false.
Proof.
  destruct c as [i x]. rewrite list_elem_of_In, contributions_spec. intros (_ & _ & H). cbn [ct_value]. by destruct x.
Qed.

Lemma lt_then_le x y : dlt x y = false <-> dle y x = true \/ is_nan x = true \/ is_nan y = true.
Proof.
  destruct (is_nan x) eqn:Hx; [destruct x; try discriminate Hx; split; [tauto|done]|].
  destruct (is_nan y) eqn:Hy; [destruct y; try discriminate Hy; split; [tauto|by destruct x]|].
  split; [intros H; left; by apply not_lt_le|]. intros [H|[H|H]]; try discriminate H. revert H. unfold dlt, dle, SFltb, SFleb.
  rewrite (compare_opp x y). destruct (SFcompare x y) as [[]|]; done.
Qed.

(** On numbers the comparator is a strict weak order. *)
Lemma larger_weak f w : strict_weak_on larger_contribution (contributions f w).
Proof.
  unfold larger_contribution. split.
  - intros a b _ _. unfold dlt, SFltb. rewrite (compare_opp (SFabs (ct_value b)) (SFabs (ct_value a))). by destruct (SFcompare _ _) as [[]|].
  - intros a b c Ha Hb Hc Hab Hbc. apply contribution_number in Ha, Hb, Hc. apply lt_then_le. left.
    apply (dle_trans _ (SFabs (ct_value b))); apply not_lt_le; done.
Qed.

Lemma falling_sizes l : (forall c, c ∈ l -> is_nan (SFabs (ct_value c)) = false) -> StronglySorted (fun a b => larger_contribution b a = false) l ->
  StronglySorted (fun a b => dle (SFabs (ct_value b)) (SFabs (ct_value a)) = true) l.
Proof.
  intros Hn. induction 1 as [|a l Hs IH Ha]; [constructor|]. constructor; [apply IH; intros c Hc; apply Hn; by right|].
  rewrite Forall_forall in *. intros b Hb. apply not_lt_le; [apply Hn; by left|apply Hn; by right|by apply Ha].
Qed.

Lemma sorted_cut {A} (R : A -> A -> Prop) l n : StronglySorted R l ->
  StronglySorted R (take n l) /\ (forall a b, In a (take n l) -> In b (drop n l) -> R a b).
Proof.
  intros Hs. revert n. induction Hs as [|x l Hs IH Hx]; intros n; [by destruct n; split; [constructor|done|constructor|done]|].
  destruct n as [|n]; [split; [constructor|done]|]. destruct (IH n) as [IH1 IH2]. rewrite List.Forall_forall in Hx. cbn [take drop]. split.
  - constructor; [done|]. apply List.Forall_forall. intros y Hy. apply Hx. rewrite <- (take_drop n l). apply in_app_iff. by left.
  - intros a b [-> |Ha] Hb; [|by apply IH2]. apply Hx. rewrite <- (take_drop n l). apply in_app_iff. by right.
Qed.

Lemma joined_concat l : joined l = String.concat ", " l.
Proof. induction l as [|x [|y l] IH]; [done..|]. cbn [joined]. cbn [joined] in IH. rewrite IH. done. Qed.

Lemma joined_head x l : exists rest, joined (x :: l) = x +:+ rest.
Proof. destruct l as [|y l]; [exists EmptyString; cbn; by rewrite string_app_nil|by exists (", " +:+ joined (y :: l))]. Qed.

(** No name of a feature starts as the text for none does. *)
Lemma name_is_not_none i rest : (i < 12)%nat -> String.substring 0 2 (feature_name i +:+ rest) <> "no"%string.
Proof. intros Hi. do 12 (destruct i as [|i]; [intros H; unfold feature_name in H; simpl in H; discriminate H|]). lia. Qed.

Lemma factor_is_not_none fmt2 f c rest : (ct_idx c < 12)%nat -> "Risk factors: " +:+ (factor_text fmt2 f c +:+ rest) <> "Risk factors: none significant"%string.
Proof.
  intros Hi H. apply (f_equal (String.substring 14 2)) in H. unfold factor_text in H. rewrite <- string_app_assoc in H.
  set (t := _ +:+ rest) in H. change (String.substring 0 2 (feature_name (ct_idx c) +:+ t) = "no"%string) in H. by apply name_is_not_none in H.
Qed.

Lemma reports_exactly (high medium cb ocb : bool) (ev : ThreatEvent) (o : SecurityObservation) :
  let outs := (if high && cb then [Threat ev] else []) ++ (if medium && ocb then [Observed o] else []) in
  (forall e, In (Threat e) outs <-> cb = true /\ high = true /\ e = ev) /\ (forall p, In (Observed p) outs <-> ocb = true /\ medium = true /\ p = o).
Proof. destruct high, medium, cb, ocb; cbn; split; intros x; intuition congruence. Qed.

(** ** Properties *)

(** every feature that is a number is brought into the unit interval. *)
Theorem features_normalized (f : BehaviorFeatures) (i : nat) :
  is_nan (feature_at f i) = false ->
  dle (dz 0) (feature_at (normalize f) i) = true /\ dle (feature_at (normalize f) i) (dz 1) = true.
Proof.
  intros H. destruct (normalize_number f i H) as (x & Hx & [-> | [-> ->]]); [by apply unit_clamp_bounds|by split].
Qed.

Definition many_writes : BehaviorFeatures := set_feature (set_feature no_features 3 (dz 700)) 8 (dz (-3)).

Lemma features_normalized_witness : dle (feature_at (normalize many_writes) 3) (dz 1) = true.
Proof. apply (features_normalized many_writes 3). vm_compute. reflexivity. Defined.

(** a single feature that is not a number makes a process SAFE, whatever the others are: the clamp
    keeps it, the risk is not a number, and no threshold is at or below it, so nothing is raised. *)
Theorem nan_feature_is_safe (exp : double -> double) (fmt2 : double -> string) (sort : (Contribution -> Contribution -> bool) -> list Contribution -> list Contribution)
    (st : BehaviorScorer) (pid : Z) (name : string) (f : BehaviorFeatures) (now : Z) (i : nat) :
  exp S754_nan = S754_nan -> (i < FEATURE_COUNT)%nat -> feature_at f i = S754_nan ->
  let '(st', result, outs) := score exp fmt2 sort st pid name f now in
  sr_level result = SAFE /\ outs = [] /\ bs_threats_detected st' = bs_threats_detected st.
Proof.
  intros He Hi Hn. assert (Hl : sr_level (score_result exp fmt2 sort st pid name f now) = SAFE).
  { unfold score_result. cbn [sr_level]. unfold compute_risk. rewrite (logit_nan _ _ i Hi) by (by apply normalize_nan).
    rewrite sigmoid_nan by done. apply classify_nan. }
  unfold score. cbn [bs_threats_detected]. rewrite Hl. cbn. by split_and!.
Qed.

Definition exp_stub (x : double) : double := match x with S754_nan => S754_nan | _ => dz 1 end.
Definition no_format : double -> string := fun _ => EmptyString.
Definition keep_order : (Contribution -> Contribution -> bool) -> list Contribution -> list Contribution := fun _ l => l.

Lemma nan_feature_is_safe_witness :
  snd (score exp_stub no_format keep_order (Scorer default_model [] 1 0 0 true true) 7 "evil" (set_feature (set_feature no_features 8 (dz 1)) 2 S754_nan) 5) = [].
Proof.
  pose proof (nan_feature_is_safe exp_stub no_format keep_order (Scorer default_model [] 1 0 0 true true) 7 "evil"
    (set_feature (set_feature no_features 8 (dz 1)) 2 S754_nan) 5 2 ltac:(reflexivity) ltac:(unfold FEATURE_COUNT; lia) ltac:(reflexivity)) as H.
  destruct (score _ _ _ _ _ _ _ _) as [[st' result] outs]. cbn [snd]. apply H.
Defined.

(** a greater risk never has a lower level, whatever the thresholds are; a score reports a threat
    exactly from HIGH on and an observation exactly from MEDIUM on, where somebody listens, with
    the level, the risk and the explanation of the result. *)
Theorem levels_and_reports (exp : double -> double) (fmt2 : double -> string) (sort : (Contribution -> Contribution -> bool) -> list Contribution -> list Contribution)
    (w : ModelWeights) (r1 r2 : double) (st : BehaviorScorer) (pid : Z) (name : string) (f : BehaviorFeatures) (now : Z) :
  (dle r1 r2 = true -> level_value (classify r1 w) <= level_value (classify r2 w)) /\
  let '(_, result, outs) := score exp fmt2 sort st pid name f now in
  sr_level result = classify (sr_risk_score result) (model_ st) /\
  (forall ev, In (Threat ev) outs <-> bs_threat_cb st = true /\ level_value HIGH <= level_value (sr_level result) /\ ev = behavior_threat result) /\
  (forall o, In (Observed o) outs <-> bs_observation_cb st = true /\ level_value MEDIUM <= level_value (sr_level result) /\ o = behavior_observation result).
Proof.
  split.
  - intros H. unfold classify. destruct (dle (threshold_malicious w) r1) eqn:E1.
    { by rewrite (dle_trans _ _ _ E1 H). }
    destruct (dle (threshold_malicious w) r2); [repeat case_match; cbn; lia|]. destruct (dle (threshold_suspicious w) r1) eqn:E2.
    { by rewrite (dle_trans _ _ _ E2 H). }
    destruct (dle (threshold_suspicious w) r2); [repeat case_match; cbn; lia|]. destruct (dle (dlit 20 100) r1) eqn:E3.
    { by rewrite (dle_trans _ _ _ E3 H). }
    repeat case_match; cbn; lia.
  - unfold score. cbv zeta. split; [unfold score_result; cbn [sr_level sr_risk_score]; reflexivity|]. generalize (score_result exp fmt2 sort st pid name f now). intros result.
    pose proof (reports_exactly (level_value HIGH <=? level_value (sr_level result)) (level_value MEDIUM <=? level_value (sr_level result))
      (bs_threat_cb st) (bs_observation_cb st) (behavior_threat result) (behavior_observation result)) as [H1 H2].
    split; intros x; [rewrite H1|rewrite H2]; by rewrite Z.leb_le.
Qed.

Lemma levels_and_reports_witness : level_value (classify (dlit 41 100) default_model) <= level_value (classify (dlit 76 100) default_model).
Proof.
  refine (proj1 (levels_and_reports exp_stub no_format keep_order default_model (dlit 41 100) (dlit 76 100) behavior_init 0 EmptyString no_features 0) _).
  vm_compute. reflexivity.
Defined.

(** behind any requests the log holds the latest thousand of their results, in order and numbered one
    after the other, and a query of the recent ones returns the end of it. *)
Theorem scores_logged (exp : double -> double) (fmt2 : double -> string) (sort : (Contribution -> Contribution -> bool) -> list Contribution -> list Contribution) (rs : list Request) (n : Z) :
  0 <= n ->
  let '(st, results) := foldl (request_score exp fmt2 sort) (behavior_init, []) rs in
  length results = length rs /\
  (forall i r, rs !! i = Some r -> results !! i = Some (numbered exp fmt2 sort 1 default_model i r)) /\
  recent_scores st n = last_n (Z.min n MAX_SCORES) results.
Proof.
  intros Hn. pose proof (requests_results exp fmt2 sort rs behavior_init [] ltac:(reflexivity)) as H.
  destruct (foldl (request_score exp fmt2 sort) _ rs) as [st results]. destruct H as [-> Hlog]. cbn [app model_ bs_next_id score_log_ behavior_init] in *. split_and!.
  - apply length_imap.
  - intros i r E. by rewrite list_lookup_imap, E.
  - unfold recent_scores. rewrite Hlog, push_bounded_all by (unfold MAX_SCORES; lia). apply latest_last_n; unfold MAX_SCORES; lia.
Qed.

Lemma scores_logged_witness : recent_scores (fst (foldl (request_score exp_stub no_format keep_order) (behavior_init, []) [])) 5 = [].
Proof.
  pose proof (scores_logged exp_stub no_format keep_order [] 5 ltac:(lia)) as H. destruct (foldl _ _ _) as [st results]. destruct H as (Hl & _ & H).
  cbn [fst]. rewrite H. by destruct results.
Defined.

Lemma one_contribution : contributions (set_feature no_features 8 (dz 1)) default_model = [Contrib 8 (dmul (dz 1) (dlit 35 10))].
Proof. vm_compute. reflexivity. Qed.

(** C36: for any sort that keeps the promise of [std::sort], the explanation shows at most five
    contributions, all of them the product of a feature and its weight and above a hundredth in
    size; they stand by falling size, none of the contributions left out is larger than one
    shown, and none is left out while fewer than five are shown.  The text is the introduction
    followed by the texts of the shown contributions (name, value and contribution, with two
    decimals), separated by commas, and it is "none significant" exactly when there is no
    contribution. *)
Theorem explanation_shows_the_largest (fmt2 : double -> string)
    (sort : (Contribution -> Contribution -> bool) -> list Contribution -> list Contribution) (f : BehaviorFeatures) (w : ModelWeights) :
  std_sort sort ->
  exists shown others,
    Permutation (shown ++ others) (contributions f w) /\
    (length shown <= 5)%nat /\ (others <> [] -> length shown = 5%nat) /\
    (forall i c, In (Contrib i c) (contributions f w) <->
       (i < 12)%nat /\ c = dmul (feature_at f i) (mw_weights w i) /\ dlt (dlit 1 100) (SFabs c) = true) /\
    StronglySorted (fun a b => dle (SFabs (ct_value b)) (SFabs (ct_value a)) = true) shown /\
    (forall a b, In a shown -> In b others -> dle (SFabs (ct_value b)) (SFabs (ct_value a)) = true) /\
    (contributions f w <> [] ->
       explain fmt2 sort f w = "Risk factors: " +:+ String.concat ", "
         (map (fun c => feature_name (ct_idx c) +:+ "=" +:+ fmt2 (feature_at f (ct_idx c)) +:+ " (w=" +:+ fmt2 (ct_value c) +:+ ")") shown)) /\
    (explain fmt2 sort f w = "Risk factors: none significant"%string <-> contributions f w = []).
Proof.
  intros Hstd. destruct (Hstd larger_contribution (contributions f w) (larger_weak f w)) as [Hp Hs].
  set (l := sort larger_contribution (contributions f w)) in *. exists (take 5 l), (drop 5 l).
  assert (Hf : StronglySorted (fun a b => dle (SFabs (ct_value b)) (SFabs (ct_value a)) = true) l) by (apply falling_sizes; [intros c; rewrite Hp; apply contribution_number|exact Hs]).
  destruct (sorted_cut _ l 5 Hf) as [Hshown Hcut].
  assert (Hnil : take 5 l = [] <-> contributions f w = []).
  { split; intros H; [|rewrite H in Hp; symmetry in Hp; apply Permutation_nil in Hp; by rewrite Hp].
    apply Permutation_nil. destruct l as [|c l']; [done|discriminate H]. }
  assert (Hin : forall c, In c (take 5 l) -> (ct_idx c < 12)%nat).
  { intros [i c] Hc. assert (H : In (Contrib i c) (contributions f w)).
    { apply (Permutation_in _ Hp). rewrite <- (take_drop 5 l). apply in_app_iff. by left. }
    apply contributions_spec in H as [H _]. exact H. }
  split_and!.
  - by rewrite take_drop.
  - rewrite length_take. lia.
  - intros Ho. rewrite length_take. destruct (Nat.le_gt_cases 5 (length l)); [lia|]. by rewrite drop_ge in Ho by lia.
  - intros i c. apply contributions_spec.
  - exact Hshown.
  - exact Hcut.
  - intros Hne. unfold explain. fold (shown_contributions sort f w). change (shown_contributions sort f w) with (take 5 l). rewrite <- joined_concat.
    destruct (take 5 l) as [|c shown]; [destruct Hne; by apply Hnil|done].
  - unfold explain. change (shown_contributions sort f w) with (take 5 l). rewrite <- Hnil. destruct (take 5 l) as [|c shown]; [by split|].
    split; [|done]. intros H. exfalso. specialize (Hin c (or_introl eq_refl)). cbn [fmap list_fmap] in H.
    destruct (joined_head (factor_text fmt2 f c) (factor_text fmt2 f <$> shown)) as [rest E]. rewrite E in H. by apply (factor_is_not_none fmt2 f c rest).
Qed.

Lemma explanation_shows_the_largest_witness :
  exists shown, Permutation shown (contributions (set_feature no_features 8 (dz 1)) default_model) /\ (length shown <= 5)%nat.
Proof.
  destruct (explanation_shows_the_largest no_format insert_sort (set_feature no_features 8 (dz 1)) default_model insert_sort_std) as (shown & others & Hp & Hl & Ho & _).
  exists shown. split; [|exact Hl]. destruct others as [|c others].
  - pose proof (app_nil_r shown) as E. rewrite E in Hp. exact Hp.
  - exfalso. pose proof (Ho ltac:(intros E; discriminate E)) as E. pose proof (Permutation_length Hp) as H. rewrite one_contribution, length_app, E in H. discriminate H.
Defined.
