(* ===== verification/SelfDefense.v ===== *)
(** * SelfDefense: the process guards itself

    Models src/src/engines/self_defense.cpp for Windows: the access list that denies dangerous
    rights to everyone, parsed and built byte by byte, the checks that it is still there, that
    the code is what it was and that no module came, and the loop of the guard.  What the
    native calls and the snapshot of modules return are arguments. *)
From S2P Require Import Prelude Observation Text Threat PeHash EtwProcess.

#[local] Open Scope word_scope.

(** The sizes of the headers of an access list, of an entry and of a descriptor. *)
Definition acl_header : Z := 8.
Definition ace_header : Z := 4.
Definition sd_header : Z := 20.

Definition kSelfRelativeFlag : Z := 0x8000.

Definition kDangerousProcessAccessMask : Z :=
  0x0020 .| 0x0008 .| 0x0002 .| 0x0800 .| 0x0200 .| 0x0001 .| 0x0040.

Definition is_dangerous_process_access (granted_access : Z) : bool := negb (granted_access .& kDangerousProcessAccessMask =? 0).

Record RawAclEntry := AclEntry { ace_type : Z; ace_mask : Z }.

Definition ACCESS_DENIED_ACE_TYPE : Z := 1.
Definition ACL_REVISION : Z := 2.

(** The entries from an offset on; the rest of the list is kept out where an entry does not fit. *)
Fixpoint acl_loop (acl_bytes : ptr) (size : Z) (count : nat) (offset : Z) : mem (list RawAclEntry) :=
  match count with
  | O => Val []
  | S count =>
      if size <? offset + ace_header then Val []
      else
        (let* ace_size := read_u16 acl_bytes (offset + 2) in
         if (ace_size <? ace_header + 4) || (size <? offset + ace_size) then Val []
         else
           let* mask := read_u32 acl_bytes (offset + ace_header) in
           let* type := rd acl_bytes offset in
           let* entries := acl_loop acl_bytes size count (offset + ace_size) in
           Val (AclEntry (bval type) mask :: entries))%mem
  end.

Definition parse_acl_entries (acl_bytes : ptr) (size : Z) : mem (list RawAclEntry) :=
  if null acl_bytes || (size <? acl_header) then Val []
  else (let* count := read_u16 acl_bytes 4 in acl_loop acl_bytes size (Z.to_nat count) acl_header)%mem.

(** S-1-1-0 *)
Definition everyone_sid : list byte := (byte_of <$> [1; 1; 0; 0; 0; 0; 0; 1]) ++ le_word 4 0.

Definition deny_ace_size : Z := 20.

Definition deny_ace (deny_mask : Z) : list byte :=
  [byte_of ACCESS_DENIED_ACE_TYPE; byte_of 0] ++ le_word 2 deny_ace_size ++ le_word 4 deny_mask ++ everyone_sid.

(** The empty list of bytes is the refusal. *)
Definition build_acl_with_prepended_deny (existing_acl_bytes : ptr) (existing_size deny_mask : Z) : mem (list byte) :=
  if null existing_acl_bytes || (existing_size <? acl_header) then Val []
  else
    (let* acl_size := read_u16 existing_acl_bytes 2 in
     if negb (acl_size =? existing_size) then Val []
     else
       let* ace_count := read_u16 existing_acl_bytes 4 in
       if ace_count =? 0xFFFF then Val []
       else
         let total_size := existing_size + deny_ace_size in
         if 0xFFFF <? total_size then Val []
         else
           let* entries := slice existing_acl_bytes acl_header (existing_size - acl_header) in
           Val ([byte_of ACL_REVISION; byte_of 0] ++ le_word 2 total_size ++ le_word 2 (u16 (ace_count + 1)) ++ le_word 2 0 ++
                deny_ace deny_mask ++ entries))%mem.

(** What [NtQuerySecurityObject] answers: the size it needs, and the bytes of the second call
    where that succeeds. *)
Record SdReply := Reply { sr_needed : Z; sr_bytes : option (list byte) }.

(** A vector of [n] bytes that a call wrote into. *)
Definition filled (n : Z) (l : list byte) : list byte := take (Z.to_nat n) l ++ replicate (Z.to_nat n - length l) x00.

Definition query_dacl_bytes (reply : SdReply) : mem (option (list byte)) :=
  if (sr_needed reply =? 0) || (16 * 1024 * 1024 <? sr_needed reply) then Val None
  else
    match sr_bytes reply with
    | None => Val None
    | Some bytes =>
        let sd_buffer := filled (sr_needed reply) bytes in
        let size := Z.of_nat (length sd_buffer) in
        if size <? sd_header then Val None
        else
          (let* control := read_u16 (Some sd_buffer) 2 in
           if control .& kSelfRelativeFlag =? 0 then Val None
           else
             let* dacl_offset := read_u32 (Some sd_buffer) 16 in
             if dacl_offset =? 0 then Val None
             else if (size <=? dacl_offset) || (size <? dacl_offset + acl_header) then Val None
             else
               let* acl_size := read_u16 (Some sd_buffer) (dacl_offset + 2) in
               if size <? dacl_offset + acl_size then Val None
               else let* acl := slice (Some sd_buffer) dacl_offset acl_size in Val (Some acl))%mem
    end.

(** [set] is what [NtSetSecurityObject] answers for a list; [resolved]: the calls were found. *)
Definition apply_process_protection_dacl (resolved : bool) (reply : SdReply) (set : list byte -> bool) : mem bool :=
  if negb resolved then Val false
  else
    (let* dacl := query_dacl_bytes reply in
     match dacl with
     | None => Val false
     | Some existing =>
         let* new_acl := build_acl_with_prepended_deny (Some existing) (Z.of_nat (length existing)) kDangerousProcessAccessMask in
         match new_acl with [] => Val false | _ => Val (set new_acl) end
     end)%mem.

Definition denies_dangerous (entry : RawAclEntry) : bool := (ace_type entry =? ACCESS_DENIED_ACE_TYPE) && is_dangerous_process_access (ace_mask entry).

Definition verify_process_protection_dacl (resolved : bool) (reply : SdReply) : mem bool :=
  if negb resolved then Val false
  else
    (let* dacl := query_dacl_bytes reply in
     match dacl with
     | None => Val false
     | Some acl => let* entries := parse_acl_entries (Some acl) (Z.of_nat (length acl)) in Val (existsb denies_dangerous entries)
     end)%mem.

(** [value] is what [GetEnvironmentVariableA] finds; a value of eight characters or more does not
    fit the buffer. *)
Definition self_protection_disabled_by_env (value : option string) : bool :=
  match value with
  | Some v => let len := Z.of_nat (String.length v) in (0 <? len) && (len <? 8) && negb (String.prefix "0" v)
  | None => false
  end.

Definition protection_at_start (value : option string) (resolved : bool) (reply : SdReply) (set : list byte -> bool) : mem bool :=
  if self_protection_disabled_by_env value then Val false else apply_process_protection_dacl resolved reply set.

Definition check_handle_integrity (protection_applied resolved : bool) (reply : SdReply) : mem bool :=
  if negb protection_applied then Val true else verify_process_protection_dacl resolved reply.

(** ** The guard *)

Definition s_standard_runtime_modules : list string :=
  ["d3d11.dll"; "dxgi.dll"; "d3dcompiler_47.dll"; "uxtheme.dll"; "dwmapi.dll"; "imm32.dll"; "msctf.dll"; "clbcatq.dll"; "version.dll";
   "cryptbase.dll"; "wintrust.dll"; "crypt32.dll"; "msvcp140.dll"; "vcruntime140.dll"; "vcruntime140_1.dll"; "gdiplus.dll"; "comctl32.dll";
   "shell32.dll"; "ole32.dll"; "oleaut32.dll"; "shlwapi.dll"; "setupapi.dll"; "cfgmgr32.dll"; "devobj.dll"; "wtsapi32.dll"; "userenv.dll";
   "profapi.dll"]%string.

Record Guard := Guarding {
  acl_violation_reported : bool;
  memory_tamper_reported : bool;
  known_modules : list string;
  sd_events_processed : Z;
  sd_threats_detected : Z;
}.

Definition guard_init : Guard := Guarding false false [] 0 0.

(** The code at the start of the engine, and what stands there now. *)
Definition check_memory_integrity (original_text_section current : list byte) : bool :=
  match original_text_section with [] => true | _ => bool_decide (current = original_text_section) end.

Definition unexpected_module (known : list string) (m : string) : bool :=
  negb (existsb (String.eqb (string_map tolower m)) s_standard_runtime_modules) && negb (existsb (String.eqb m) known).

(** [snapshot] is [None] where it cannot be taken. *)
Definition check_module_integrity (known : list string) (snapshot : option (list string)) : list string * list string :=
  match snapshot with
  | None => ([], known)
  | Some current => match known with [] => ([], current) | _ => (List.filter (unexpected_module known) current, current) end
  end.

Definition defense_threat (own_pid : Z) (cat : ThreatCategory) (desc : string) : ThreatEvent :=
  Event 0 0 CRITICAL cat own_pid EmptyString EmptyString desc EmptyString 0 false false.

Definition acl_text : string := "GCAD process-protection ACL was weakened or removed after being applied".
Definition text_text : string := "GCAD .text section tampered " +:+ em_dash +:+ " possible code injection".
Definition module_text : string := "Unexpected module loaded into GCAD process".

(** What a turn of the loop sees: the checks of the list and of the code, and the modules. *)
Record Seen := Sees { handle_ok : bool; memory_ok : bool; modules_now : option (list string) }.

Definition guard_turn (own_pid : Z) (st : Guard) (s : Seen) : Guard * list ThreatEvent :=
  let acl := negb (handle_ok s) && negb (acl_violation_reported st) in
  let text := negb (memory_ok s) && negb (memory_tamper_reported st) in
  let '(unexpected, known) := check_module_integrity (known_modules st) (modules_now s) in
  let module := negb (match unexpected with [] => true | _ => false end) in
  let outs :=
    (if acl then [defense_threat own_pid EVASION_UNHOOK acl_text] else []) ++
    (if text then [defense_threat own_pid MEMORY_INJECTION text_text] else []) ++
    (if module then [defense_threat own_pid DLL_INJECTION module_text] else []) in
  let counted := (if memory_ok s then 0 else 1) + Z.of_nat (length unexpected) + Z.of_nat (length outs) in
  (Guarding (negb (handle_ok s)) (negb (memory_ok s)) known (u64 (sd_events_processed st + 1)) (u64 (sd_threats_detected st + counted)), outs).

(** ** Lemmas *)

(** No right is missing from the mask. *)
Lemma dangerous_mask : kDangerousProcessAccessMask = 0xA6B.
Proof. reflexivity. Qed.

Lemma acl_loop_safe d size count offset : size = Z.of_nat (length d) -> 0 <= offset ->
  safe (acl_loop (Some d) size count offset) (fun l => (length l <= count)%nat /\ offset + 8 * Z.of_nat (length l) <= Z.max size offset).
Proof.
  intros Hs. revert offset. induction count as [|count IH]; intros offset Ho; cbn [acl_loop]; [split; cbn; lia|].
  unfold ace_header in *. destruct (Z.ltb_spec size (offset + 4)) as [H|H]; [split; cbn; lia|].
  eapply safe_bind; [apply (read_u16_safe d size); lia|]. intros ace_size Hsize. cbv beta in Hsize.
  destruct (Z.ltb_spec ace_size (4 + 4)) as [H1|H1]; cbn [orb]; [split; cbn; lia|]. destruct (Z.ltb_spec size (offset + ace_size)) as [H2|H2]; [split; cbn; lia|].
  eapply safe_bind; [apply (read_u32_safe d size); lia|]. intros mask _. eapply safe_bind; [apply rd_safe; lia|]. intros type _.
  eapply safe_bind; [apply IH; lia|]. intros l [Hl1 Hl2]. cbn [safe length]. lia.
Qed.

Section shift.
Context (d hdr : list byte) (Hd : (8 <= length d)%nat) (Hh : length hdr = 28%nat).

Lemma rd_shift i : 8 <= i -> rd (Some (hdr ++ drop 8 d)) (i + 20) = rd (Some d) i.
Proof using Hd Hh.
  intros Hi. unfold rd. rewrite length_app, length_drop, Hh.
  destruct (Z.ltb_spec i (Z.of_nat (length d))) as [H|H].
  - rewrite !(proj2 (Z.leb_le _ _)), (proj2 (Z.ltb_lt _ _)) by lia. cbn [andb]. rewrite lookup_app_r, lookup_drop, Hh by lia.
    by replace (8 + (Z.to_nat (i + 20) - 28))%nat with (Z.to_nat i) by lia.
  - rewrite (proj2 (Z.ltb_ge (i + 20) _)) by lia. by rewrite !andb_false_r.
Qed.

Lemma read_u16_shift i : 8 <= i -> read_u16 (Some (hdr ++ drop 8 d)) (i + 20) = read_u16 (Some d) i.
Proof using Hd Hh. intros Hi. unfold read_u16. replace (i + 20 + 1) with (i + 1 + 20) by lia. by rewrite !rd_shift by lia. Qed.

Lemma read_u32_shift i : 8 <= i -> read_u32 (Some (hdr ++ drop 8 d)) (i + 20) = read_u32 (Some d) i.
Proof using Hd Hh. 
  intros Hi. unfold read_u32. replace (i + 20 + 1) with (i + 1 + 20) by lia. replace (i + 20 + 2) with (i + 2 + 20) by lia.
  replace (i + 20 + 3) with (i + 3 + 20) by lia. by rewrite !rd_shift by lia.
 Qed.

Lemma acl_loop_shift size count offset : 8 <= offset ->
  acl_loop (Some (hdr ++ drop 8 d)) (size + 20) count (offset + 20) = acl_loop (Some d) size count offset.
Proof using Hd Hh.
  revert offset. induction count as [|count IH]; intros offset Ho; [done|]. cbn [acl_loop]. unfold ace_header.
  replace (offset + 20 + 4) with (offset + 4 + 20) by lia. replace (offset + 20 + 2) with (offset + 2 + 20) by lia. rewrite read_u16_shift by lia.
  assert (Hlt : forall a b, (a + 20 <? b + 20) = (a <? b)) by (intros a b; destruct (Z.ltb_spec a b); [apply Z.ltb_lt|apply Z.ltb_ge]; lia).
  rewrite Hlt. destruct (size <? offset + 4); [done|]. destruct (read_u16 (Some d) (offset + 2)) as [ace_size|]; [|done]. cbn [mem_bind].
  replace (offset + 20 + ace_size) with (offset + ace_size + 20) by lia. rewrite Hlt. destruct (Z.ltb_spec ace_size (4 + 4)) as [H|H]; [done|]. cbn [orb]. destruct (size <? offset + ace_size); [done|].
  rewrite read_u32_shift, rd_shift, IH by lia. done.
Qed.
End shift.

(** The list a build makes: its header, the entry that denies, and the old entries. *)
Definition prepended (d : list byte) (count mask : Z) : list byte :=
  ([byte_of ACL_REVISION; byte_of 0] ++ le_word 2 (Z.of_nat (length d) + 20) ++ le_word 2 (count + 1) ++ le_word 2 0 ++ deny_ace mask) ++ drop 8 d.

Lemma deny_ace_length mask : length (deny_ace mask) = 20%nat.
Proof. unfold deny_ace. rewrite !length_app, !le_word_length. reflexivity. Qed.

Lemma prepended_length d count mask : (8 <= length d)%nat -> length (prepended d count mask) = (length d + 20)%nat.
Proof. intros H. unfold prepended. rewrite !length_app, !le_word_length, deny_ace_length, length_drop. cbn [length]. lia. Qed.

(** A list with its header: its size is its length. *)
Definition whole_acl (d : list byte) (count : Z) : Prop :=
  (8 <= length d)%nat /\ read_u16 (Some d) 2 = Val (Z.of_nat (length d)) /\ read_u16 (Some d) 4 = Val count.

Lemma count_range d count : whole_acl d count -> 0 <= count < 2 ^ 16.
Proof.
  intros (H & _ & E). pose proof (read_u16_safe d (Z.of_nat (length d)) ltac:(lia) 4 ltac:(lia) ltac:(lia)) as Hs. rewrite E in Hs. exact Hs.
Qed.

Lemma build_whole d count mask : whole_acl d count -> count < 0xFFFF -> Z.of_nat (length d) + 20 <= 0xFFFF ->
  build_acl_with_prepended_deny (Some d) (Z.of_nat (length d)) mask = Val (prepended d count mask).
Proof.
  intros Hw Hc Hl. pose proof (count_range d count Hw) as Hr. destruct Hw as (H8 & E2 & E4). unfold build_acl_with_prepended_deny. cbn [null orb]. unfold acl_header, deny_ace_size.
  rewrite (proj2 (Z.ltb_ge _ _)) by lia. rewrite E2. cbn [mem_bind]. rewrite Z.eqb_refl. cbn [negb]. rewrite E4. cbn [mem_bind].
  rewrite (proj2 (Z.eqb_neq _ _)) by lia. rewrite (proj2 (Z.ltb_ge _ _)) by lia.
  assert (Es : slice (Some d) 8 (Z.of_nat (length d) - 8) = Val (drop 8 d)).
  { unfold slice. rewrite !(proj2 (Z.leb_le _ _)) by lia. cbn [andb]. f_equal. apply take_ge. rewrite length_drop. lia. }
  rewrite Es. cbn [mem_bind]. unfold prepended, deny_ace_size. unfold u16. rewrite Z.mod_small by lia. by rewrite <- !app_assoc.
Qed.

Lemma prepended_whole d count mask : whole_acl d count -> count < 0xFFFF -> Z.of_nat (length d) + 20 <= 0xFFFF -> whole_acl (prepended d count mask) (count + 1).
Proof.
  intros Hw Hc Hl. pose proof (count_range d count Hw) as Hr. destruct Hw as (H8 & _ & _). unfold whole_acl. rewrite prepended_length by done. split_and!; [lia| |].
  - unfold prepended. rewrite <- !app_assoc. pose proof (read_u16_word [byte_of ACL_REVISION; byte_of 0] (Z.of_nat (length d) + 20)
      (le_word 2 (count + 1) ++ le_word 2 0 ++ deny_ace mask ++ drop 8 d) ltac:(lia)) as E. change (Z.of_nat (length [byte_of ACL_REVISION; byte_of 0])) with 2 in E. rewrite E. f_equal. lia.
  - unfold prepended. rewrite <- !app_assoc. rewrite (app_assoc [byte_of ACL_REVISION; byte_of 0]).
    pose proof (read_u16_word ([byte_of ACL_REVISION; byte_of 0] ++ le_word 2 (Z.of_nat (length d) + 20)) (count + 1)
      (le_word 2 0 ++ deny_ace mask ++ drop 8 d) ltac:(lia)) as E. rewrite length_app, le_word_length in E. exact E.
Qed.

(** The first entry read back is the one that denies, and the others are the old ones. *)
Lemma parse_prepended d count mask : whole_acl d count -> count < 0xFFFF -> Z.of_nat (length d) + 20 <= 0xFFFF -> 0 <= mask < 2 ^ 32 ->
  parse_acl_entries (Some (prepended d count mask)) (Z.of_nat (length (prepended d count mask))) =
    (let* entries := parse_acl_entries (Some d) (Z.of_nat (length d)) in Val (AclEntry 1 mask :: entries))%mem.
Proof.
  intros Hw Hc Hl Hm. pose proof (count_range d count Hw) as Hr. destruct (prepended_whole d count mask Hw Hc Hl) as (H8' & _ & E4').
  destruct Hw as (H8 & _ & E4). unfold parse_acl_entries. cbn [null orb]. unfold acl_header. rewrite !(proj2 (Z.ltb_ge _ _)) by lia. rewrite E4, E4'. cbn [mem_bind].
  rewrite Z2Nat.inj_add, Nat.add_1_r by lia. cbn [acl_loop]. unfold ace_header. rewrite prepended_length by done. rewrite (proj2 (Z.ltb_ge _ _)) by lia.
  set (h := [byte_of ACL_REVISION; byte_of 0] ++ le_word 2 (Z.of_nat (length d) + 20) ++ le_word 2 (count + 1) ++ le_word 2 0).
  assert (Hh : length h = 8%nat) by (unfold h; rewrite !length_app, !le_word_length; reflexivity).
  assert (Ep : prepended d count mask = h ++ [byte_of 1; byte_of 0] ++ le_word 2 20 ++ le_word 4 mask ++ everyone_sid ++ drop 8 d).
  { unfold prepended, deny_ace, ACCESS_DENIED_ACE_TYPE, deny_ace_size, h. by rewrite <- !app_assoc. }
  assert (E16 : read_u16 (Some (prepended d count mask)) (8 + 2) = Val 20).
  { rewrite Ep, (app_assoc h). pose proof (read_u16_word (h ++ [byte_of 1; byte_of 0]) 20 (le_word 4 mask ++ everyone_sid ++ drop 8 d) ltac:(lia)) as E.
    rewrite length_app, Hh in E. exact E. }
  assert (E32 : read_u32 (Some (prepended d count mask)) (8 + 4) = Val mask).
  { rewrite Ep, (app_assoc h), (app_assoc (h ++ _)). pose proof (read_u32_word ((h ++ [byte_of 1; byte_of 0]) ++ le_word 2 20) mask (everyone_sid ++ drop 8 d) Hm) as E.
    rewrite !length_app, Hh, le_word_length in E. exact E. }
  assert (E8 : rd (Some (prepended d count mask)) 8 = Val (byte_of 1)).
  { rewrite Ep. pose proof (rd_app h (byte_of 1) ([byte_of 0] ++ le_word 2 20 ++ le_word 4 mask ++ everyone_sid ++ drop 8 d)) as E. rewrite Hh in E. exact E. }
  rewrite E16. cbn [mem_bind]. rewrite (proj2 (Z.ltb_ge 20 _)) by lia. cbn [orb]. rewrite (proj2 (Z.ltb_ge _ (8 + 20))) by lia.
  rewrite E32. cbn [mem_bind]. rewrite E8. cbn [mem_bind]. rewrite Nat2Z.inj_add. change (Z.of_nat 20) with 20. unfold prepended.
  rewrite (acl_loop_shift d) by (try done; try lia; rewrite !length_app, !le_word_length, deny_ace_length; reflexivity). done.
Qed.

(** Descriptors that hold a list. *)
Definition holds_dacl (reply : SdReply) (acl : list byte) : Prop := query_dacl_bytes reply = Val (Some acl).

Lemma byte_of_one : bval (byte_of 1) = 1.
Proof. reflexivity. Qed.

Lemma build_inv d mask new : build_acl_with_prepended_deny (Some d) (Z.of_nat (length d)) mask = Val new ->
  new = [] \/ exists count, whole_acl d count /\ count < 0xFFFF /\ Z.of_nat (length d) + 20 <= 0xFFFF /\ new = prepended d count mask.
Proof.
  intros E. assert (E0 := E). unfold build_acl_with_prepended_deny in E. cbn [null orb] in E. unfold acl_header, deny_ace_size in E.
  destruct (Z.ltb_spec (Z.of_nat (length d)) 8) as [H|H]; [injection E as <-; by left|].
  pose proof (read_u16_safe d (Z.of_nat (length d)) ltac:(lia) 2 ltac:(lia) ltac:(lia)) as H2. pose proof (read_u16_safe d (Z.of_nat (length d)) ltac:(lia) 4 ltac:(lia) ltac:(lia)) as H4.
  destruct (read_u16 (Some d) 2) as [size|] eqn:E2; [|discriminate E]. cbn [mem_bind] in E. destruct (Z.eqb_spec size (Z.of_nat (length d))) as [Es|Es]; [|injection E as <-; by left].
  cbn [negb] in E. destruct (read_u16 (Some d) 4) as [count|] eqn:E4; [|discriminate E]. cbn [mem_bind safe] in E, H4.
  destruct (Z.eqb_spec count 0xFFFF) as [Ec|Ec]; [injection E as <-; by left|]. destruct (Z.ltb_spec 0xFFFF (Z.of_nat (length d) + 20)) as [Hl|Hl]; [injection E as <-; by left|].
  right. exists count. assert (Hw : whole_acl d count) by (split; [lia|split; [by rewrite <- Es|exact E4]]). split_and!; [exact Hw|lia|lia|].
  rewrite (build_whole d count mask Hw) in E0 by lia. by injection E0.
Qed.

Lemma build_total d mask : exists new, build_acl_with_prepended_deny (Some d) (Z.of_nat (length d)) mask = Val new.
Proof.
  unfold build_acl_with_prepended_deny. cbn [null orb]. unfold acl_header. destruct (Z.ltb_spec (Z.of_nat (length d)) 8) as [H|H]; [by eexists|].
  destruct (safe_inv _ _ (read_u16_safe d (Z.of_nat (length d)) ltac:(lia) 2 ltac:(lia) ltac:(lia))) as (a & -> & _). cbn [mem_bind].
  destruct (negb _); [by eexists|]. destruct (safe_inv _ _ (read_u16_safe d (Z.of_nat (length d)) ltac:(lia) 4 ltac:(lia) ltac:(lia))) as (b & -> & _). cbn [mem_bind].
  destruct (b =? 0xFFFF); [by eexists|]. cbv zeta. destruct (0xFFFF <? _); [by eexists|].
  destruct (safe_inv _ _ (slice_safe d 8 (Z.of_nat (length d) - 8) ltac:(lia) ltac:(lia) ltac:(lia))) as (l & -> & _). by eexists.
Qed.

Lemma verify_of_acl reply acl entries : holds_dacl reply acl -> parse_acl_entries (Some acl) (Z.of_nat (length acl)) = Val entries ->
  verify_process_protection_dacl true reply = Val (existsb denies_dangerous entries).
Proof. intros H E. unfold verify_process_protection_dacl. cbn [negb]. rewrite H. cbn [mem_bind]. by rewrite E. Qed.

Lemma parse_total d : exists l, parse_acl_entries (Some d) (Z.of_nat (length d)) = Val l /\ (l = [] \/ 8 + 8 * Z.of_nat (length l) <= Z.of_nat (length d)).
Proof.
  unfold parse_acl_entries. cbn [null orb]. unfold acl_header. destruct (Z.ltb_spec (Z.of_nat (length d)) 8) as [H|H]; [exists []; by split; [|left]|].
  destruct (safe_inv _ _ (read_u16_safe d (Z.of_nat (length d)) ltac:(lia) 4 ltac:(lia) ltac:(lia))) as (count & -> & _). cbn [mem_bind].
  destruct (safe_inv _ _ (acl_loop_safe d (Z.of_nat (length d)) (Z.to_nat count) 8 ltac:(lia) ltac:(lia))) as (l & -> & _ & Hl). exists l. split; [done|right]. lia.
Qed.

(** ** Properties *)

(** whatever bytes a list is made of, its parser reads none outside of it and ends with no more
    entries than have room behind its header. *)
Theorem acl_parse_in_bounds (d : list byte) :
  exists entries, parse_acl_entries (Some d) (Z.of_nat (length d)) = Val entries /\
    (entries = [] \/ 8 + 8 * Z.of_nat (length entries) <= Z.of_nat (length d)).
Proof. apply parse_total. Qed.

(** C12: a build over any bytes reads none outside of them, and refuses, or returns a list that is twenty
    bytes longer, whose header gives its own size and one entry more, and which parses as the
    entry that denies the mask to everyone before the entries that were there, in their order. *)
Theorem deny_is_prepended (d : list byte) (mask : Z) :
  0 <= mask < 2 ^ 32 ->
  exists new, build_acl_with_prepended_deny (Some d) (Z.of_nat (length d)) mask = Val new /\
    (new <> [] -> length new = (length d + 20)%nat /\ (exists count, whole_acl d count /\ whole_acl new (count + 1)) /\
       exists entries, parse_acl_entries (Some d) (Z.of_nat (length d)) = Val entries /\
         parse_acl_entries (Some new) (Z.of_nat (length new)) = Val (AclEntry ACCESS_DENIED_ACE_TYPE mask :: entries)) /\
    (new = [] <-> ~ exists count, whole_acl d count /\ count < 0xFFFF /\ Z.of_nat (length d) + 20 <= 0xFFFF).
Proof.
  intros Hm. destruct (build_total d mask) as [new E]. exists new. split; [exact E|]. destruct (build_inv d mask new E) as [-> |(count & Hw & Hc & Hl & ->)].
  - split; [done|]. split; [|done]. intros _ (count & Hw & Hc & Hl). rewrite (build_whole d count mask Hw Hc Hl) in E. injection E as E.
    apply (f_equal length) in E. rewrite prepended_length in E by apply Hw. cbn in E. lia.
  - assert (Hlen : length (prepended d count mask) = (length d + 20)%nat) by (apply prepended_length, Hw). split.
    + intros _. split; [exact Hlen|]. split; [exists count; split; [done|by apply prepended_whole]|].
      destruct (parse_total d) as (entries & Ep & _). exists entries. split; [exact Ep|]. rewrite (parse_prepended d count mask Hw Hc Hl Hm), Ep. done.
    + split; [|intros H; destruct H; by exists count]. intros E0. rewrite E0 in Hlen. cbn in Hlen. lia.
Qed.

Definition empty_acl : list byte := [byte_of 2; byte_of 0; byte_of 8; byte_of 0; byte_of 0; byte_of 0; byte_of 0; byte_of 0].

Lemma deny_is_prepended_witness : exists new, build_acl_with_prepended_deny (Some empty_acl) 8 0xA6B = Val new.
Proof. destruct (deny_is_prepended empty_acl 0xA6B ltac:(lia)) as (new & E & _). by exists new. Defined.

(** C32: where a protection was applied, the system that then shows the list it was given passes every
    check; so does one that shows the old list behind a denial of any mask with a single one of
    the dangerous rights, while a system that shows a list without a denial of such a right, or
    shows none, does not. *)
Theorem protection_is_verified (reply : SdReply) (set : list byte -> bool) :
  apply_process_protection_dacl true reply set = Val true ->
  exists existing new, holds_dacl reply existing /\ set new = true /\
    build_acl_with_prepended_deny (Some existing) (Z.of_nat (length existing)) kDangerousProcessAccessMask = Val new /\
    (forall reply', holds_dacl reply' new -> check_handle_integrity true true reply' = Val true) /\
    (forall reply' mask weak, 0 <= mask < 2 ^ 32 -> is_dangerous_process_access mask = true ->
       build_acl_with_prepended_deny (Some existing) (Z.of_nat (length existing)) mask = Val weak -> holds_dacl reply' weak ->
       check_handle_integrity true true reply' = Val true) /\
    (forall reply', query_dacl_bytes reply' = Val None -> check_handle_integrity true true reply' = Val false) /\
    (forall reply' acl entries, holds_dacl reply' acl -> parse_acl_entries (Some acl) (Z.of_nat (length acl)) = Val entries ->
       check_handle_integrity true true reply' = Val (existsb denies_dangerous entries)).
Proof.
  unfold apply_process_protection_dacl. cbn [negb]. intros E. destruct (query_dacl_bytes reply) as [[existing|]|] eqn:Eq; [|discriminate E..]. cbn [mem_bind] in E.
  destruct (build_total existing kDangerousProcessAccessMask) as [new En]. rewrite En in E. cbn [mem_bind] in E. destruct new as [|b new]; [discriminate E|]. injection E as E.
  assert (Hweak : forall reply' mask weak, 0 <= mask < 2 ^ 32 -> is_dangerous_process_access mask = true ->
    build_acl_with_prepended_deny (Some existing) (Z.of_nat (length existing)) mask = Val weak -> holds_dacl reply' weak -> verify_process_protection_dacl true reply' = Val true).
  { intros reply' mask weak Hm Hd Hb Hh. destruct (build_inv _ _ _ En) as [|(count & Hw & Hc & Hl & _)]; [done|].
    rewrite (build_whole existing count mask Hw Hc Hl) in Hb. injection Hb as <-. destruct (parse_total existing) as (entries & Ep & _).
    rewrite (verify_of_acl reply' (prepended existing count mask) (AclEntry 1 mask :: entries)); [|done|by rewrite parse_prepended, Ep].
    cbn [existsb]. unfold denies_dangerous at 1. cbn [ace_type ace_mask]. by rewrite Hd. }
  exists existing, (b :: new). unfold check_handle_integrity. cbn [negb]. split_and!; [exact Eq|exact E|exact En| |exact Hweak| |].
  - intros reply' Hh. apply (Hweak reply' kDangerousProcessAccessMask (b :: new)); [by vm_compute|reflexivity|exact En|exact Hh].
  - intros reply' Hn. unfold verify_process_protection_dacl. cbn [negb]. by rewrite Hn.
  - intros reply' acl entries Hh Ep. by apply (verify_of_acl reply' acl).
Qed.

(** A descriptor with an empty list behind its header. *)
Definition sample_sd : SdReply :=
  Reply 28 (Some ((byte_of <$> [1; 0; 4; 0x80; 0; 0; 0; 0; 0; 0; 0; 0; 0; 0; 0; 0; 20; 0; 0; 0]) ++ empty_acl)).

Lemma protection_is_verified_witness : exists new, build_acl_with_prepended_deny (Some empty_acl) 8 kDangerousProcessAccessMask = Val new.
Proof.
  assert (H : apply_process_protection_dacl true sample_sd (fun _ => true) = Val true) by (vm_compute; reflexivity).
  destruct (protection_is_verified sample_sd (fun _ => true) H) as (existing & new & Hh & _ & E & _).
  assert (He : holds_dacl sample_sd empty_acl) by (vm_compute; reflexivity). unfold holds_dacl in Hh, He. rewrite He in Hh. injection Hh as <-. by exists new.
Defined.

(** behind any turn, the next one raises the threat of the list exactly when the check fails and
    had not failed the turn before, likewise that of the code, and that of the modules exactly
    when one came whose name is neither known nor, in any case of letters, that of a standard
    one; an own process that is left alone raises nothing. *)
Theorem guard_reports_changes (own_pid : Z) (st : Guard) (before s : Seen) :
  let st1 := fst (guard_turn own_pid st before) in
  let '(st2, outs) := guard_turn own_pid st1 s in
  (In (defense_threat own_pid EVASION_UNHOOK acl_text) outs <-> handle_ok s = false /\ handle_ok before = true) /\
  (In (defense_threat own_pid MEMORY_INJECTION text_text) outs <-> memory_ok s = false /\ memory_ok before = true) /\
  (In (defense_threat own_pid DLL_INJECTION module_text) outs <->
     exists current m, modules_now s = Some current /\ known_modules st1 <> [] /\ In m current /\ ~ In m (known_modules st1) /\
       ~ In (string_map tolower m) s_standard_runtime_modules) /\
  (handle_ok s = true -> memory_ok s = true -> modules_now s = Some (known_modules st1) -> outs = [] /\ sd_threats_detected st2 = u64 (sd_threats_detected st1)).
Proof.
  cbv zeta. set (st1 := fst (guard_turn own_pid st before)).
  assert (Ha : acl_violation_reported st1 = negb (handle_ok before)) by (unfold st1, guard_turn; by destruct (check_module_integrity _ _)).
  assert (Ht : memory_tamper_reported st1 = negb (memory_ok before)) by (unfold st1, guard_turn; by destruct (check_module_integrity _ _)).
  clearbody st1. unfold guard_turn. destruct (check_module_integrity (known_modules st1) (modules_now s)) as [unexpected known] eqn:Em. rewrite Ha, Ht, !negb_involutive.
  assert (Hu : forall m, In m unexpected <-> exists current, modules_now s = Some current /\ known_modules st1 <> [] /\ In m current /\ unexpected_module (known_modules st1) m = true).
  { intros m. unfold check_module_integrity in Em. destruct (modules_now s) as [current|].
    - destruct (known_modules st1) as [|k ks] eqn:Ek; injection Em as <- <-.
      + split; [done|]. by intros (? & _ & [] & _).
      + rewrite filter_In. split; [intros [H1 H2]; by exists current|by intros (? & [= <-] & _ & H1 & H2)].
    - injection Em as <- <-. split; [done|]. by intros (? & [=] & _). }
  assert (Hx : forall m, unexpected_module (known_modules st1) m = true <-> ~ In m (known_modules st1) /\ ~ In (string_map tolower m) s_standard_runtime_modules).
  { intros m. unfold unexpected_module. rewrite andb_true_iff, !negb_true_iff, <- !not_true_iff_false, !existsb_exists. split.
    - intros [H1 H2]. split; intros H; [apply H2; exists m|apply H1; exists (string_map tolower m)]; (split; [done|apply String.eqb_refl]).
    - intros [H1 H2]. split; intros (x & Hin & E); apply String.eqb_eq in E; subst x; done. }
  split_and!.
  - rewrite !in_app_iff. destruct (handle_ok s), (handle_ok before), (memory_ok s), (memory_ok before), unexpected; cbn; intuition (congruence || done).
  - rewrite !in_app_iff. destruct (handle_ok s), (handle_ok before), (memory_ok s), (memory_ok before), unexpected; cbn; intuition (congruence || done).
  - transitivity (unexpected <> []).
    + rewrite !in_app_iff. destruct (handle_ok s), (handle_ok before), (memory_ok s), (memory_ok before), unexpected; cbn; intuition (congruence || done).
    + split.
      * destruct unexpected as [|m ms]; [done|]. intros _. destruct (proj1 (Hu m) ltac:(by left)) as (current & H1 & H2 & H3 & H4). apply Hx in H4 as [H4 H5]. by exists current, m.
      * intros (current & m & H1 & H2 & H3 & H4 & H5) E. assert (Hin : In m unexpected) by (apply Hu; exists current; split_and!; try done; by apply Hx). by rewrite E in Hin.
  - intros H1 H2 H3. assert (E : unexpected = []).
    { destruct unexpected as [|m ms]; [done|]. destruct (proj1 (Hu m) ltac:(by left)) as (current & E1 & _ & E2 & E3). rewrite H3 in E1. injection E1 as <-. by apply Hx in E3 as [E3 _]. }
    rewrite H1, H2, E. cbn. split; [done|]. by rewrite Z.add_0_r.
Qed.

Lemma guard_reports_changes_witness :
  snd (guard_turn 5 (fst (guard_turn 5 guard_init (Sees true true (Some ["a.dll"%string])))) (Sees true true (Some ["a.dll"%string]))) = [].
Proof.
  pose proof (guard_reports_changes 5 guard_init (Sees true true (Some ["a.dll"%string])) (Sees true true (Some ["a.dll"%string]))) as H. cbv zeta in H.
  destruct (guard_turn 5 (fst _) _) as [st2 outs]. destruct H as (_ & _ & _ & H). cbn [snd]. by apply H.
Defined.

(** A library with the name of a standard one is let in, from whatever directory. *)
Lemma standard_name_passes known : unexpected_module known "VERSION.dll" = false.
Proof. reflexivity. Qed.
