(* ===== verification/Syscall.v ===== *)
(** * Syscall: the guard of the system calls

    Models src/src/engines/syscall_guard.cpp for Windows on 64 bits: the code of ntdll.dll read
    from its file, its comparison with what each process holds, the test for a system call made
    from elsewhere, the turn over the processes, and the records kept.  The file and what the
    system tells of a process are arguments. *)
From S2P Require Import Prelude Observation Text Threat PeHash.

#[local] Open Scope word_scope.

Record SyscallRecord := SysRecord { syr_pid : Z; syr_legitimate : bool; syr_timestamp : Z }.

(** The code as it was loaded, and where it lies. *)
Record Ntdll := Pristine { pristine_ntdll : list byte; ntdll_text_base : Z; ntdll_text_size : Z }.

Definition IMAGE_DOS_SIGNATURE : Z := 0x5A4D.
Definition IMAGE_NT_SIGNATURE : Z := 0x4550.

Definition text_name : list byte := byte_of <$> [0x2E; 0x74; 0x65; 0x78; 0x74].

(** The loop over the headers of the sections, 40 bytes each; what it leaves set when it fails. *)
Fixpoint find_text (file : ptr) (old : Ntdll) (count : nat) (section : Z) : mem (Ntdll * bool) :=
  match count with
  | O => Val (old, false)
  | S count =>
      (let* name := slice file section 5 in
       if bool_decide (name = text_name) then
         let* virtual_size := read_u32 file (section + 8) in
         let* virtual_address := read_u32 file (section + 12) in
         let* raw := read_u32 file (section + 16) in
         let* pointer := read_u32 file (section + 20) in
         let raw_size := Z.min raw virtual_size in
         let* code := slice file pointer raw_size in
         Val (Pristine code virtual_address virtual_size, true)
       else find_text file old count (section + 40))%mem
  end.

(** [file]: the bytes of ntdll.dll, where they can be read whole. *)
Definition load_pristine_ntdll (old : Ntdll) (file : option (list byte)) : mem (Ntdll * bool) :=
  match file with
  | None | Some [] => Val (old, false)
  | Some data =>
      let file := Some data in
      (let* magic := read_u16 file 0 in
       if negb (magic =? IMAGE_DOS_SIGNATURE) then Val (old, false)
       else
         let* lfanew := read_u32 file 0x3C in
         let* signature := read_u32 file lfanew in
         if negb (signature =? IMAGE_NT_SIGNATURE) then Val (old, false)
         else
           let* sections := read_u16 file (lfanew + 6) in
           let* optional := read_u16 file (lfanew + 20) in
           find_text file old (Z.to_nat sections) (lfanew + 24 + optional))%mem
  end.

Record SyscallGuard := Sysg {
  sg_running : bool;
  sg_ntdll : Ntdll;
  suspicious_records_ : list SyscallRecord;
  sg_events_processed : Z;
  sg_threats_detected : Z;
}.

Definition sysguard_init : SyscallGuard := Sysg false (Pristine [] 0 0) [] 0 0.

(** A failed load is only logged. *)
Definition sysguard_start (st : SyscallGuard) (file : option (list byte)) : mem SyscallGuard :=
  if sg_running st then Val st
  else
    (let* loaded := load_pristine_ntdll (sg_ntdll st) file in
     Val (Sysg true (fst loaded) (suspicious_records_ st) (sg_events_processed st) (sg_threats_detected st)))%mem.

(** The bytes are zeroed; the vector keeps its size. *)
Definition wiped (n : Ntdll) : Ntdll := Pristine (replicate (length (pristine_ntdll n)) x00) (ntdll_text_base n) (ntdll_text_size n).

Definition sysguard_stop (st : SyscallGuard) : SyscallGuard :=
  if sg_running st then Sysg false (wiped (sg_ntdll st)) (suspicious_records_ st) (sg_events_processed st) (sg_threats_detected st) else st.

(** What the system tells of a process: whether it opens, for reading and its facts or for reading
    alone, runs on 32 bits, the bases and names of
    its modules ([None] where the name cannot be told) and what a read of its memory returns; and
    of the first of its threads that it lists, where that opens, the next instruction. *)
Record ProcessView := View {
  pv_pid : Z;
  pv_name : string;
  pv_opens : bool;
  pv_opens_read : bool;
  pv_wow64 : bool;
  pv_modules : list (Z * option string);
  pv_read : Z -> Z -> option (list byte);
  pv_thread_rip : option Z;
}.

Definition ntdll_base (p : ProcessView) : option Z :=
  fst <$> List.find (fun m => match snd m with Some name => String.eqb (string_map tolower name) "ntdll.dll" | None => false end) (take 1024 (pv_modules p)).

Definition detect_ntdll_unhook (n : Ntdll) (own_pid : Z) (p : ProcessView) : bool :=
  match pristine_ntdll n with
  | [] => false
  | pristine =>
      if pv_pid p =? own_pid then false
      else if negb (pv_opens p) || pv_wow64 p then false
      else
        match ntdll_base p with
        | None => false
        | Some base =>
            match pv_read p (u64 (base + ntdll_text_base n)) (Z.of_nat (length pristine)) with
            | None => false
            | Some remote_text =>
                if Z.of_nat (length remote_text) <? Z.of_nat (length pristine) then false
                else negb (bool_decide (take (length pristine) remote_text = pristine))
            end
        end
  end.

(** [own]: the base and the size of ntdll.dll in the own process. *)
Definition validate_caller_stack (own : option (Z * Z)) (caller_ip : Z) : bool :=
  match own with
  | None => true
  | Some (base, size) => (base <=? caller_ip) && (caller_ip <? base + size)
  end.

Definition detect_direct_syscall (own : option (Z * Z)) (caller_ip : Z) (p : ProcessView) : bool :=
  if validate_caller_stack own caller_ip then false
  else if negb (pv_opens_read p) then false
  else
    match pv_read p caller_ip 2 with
    | Some [a; b] => (bval a =? 0x0F) && (bval b =? 0x05)
    | _ => false
    end.

(** More than 1000 records lose the 500 oldest. *)
Definition keep_record (records : list SyscallRecord) (r : SyscallRecord) : list SyscallRecord :=
  let records := records ++ [r] in
  if 1000 <? Z.of_nat (length records) then drop 500 records else records.

Definition syscall_threat (cat : ThreatCategory) (desc : string) (pid : Z) : ThreatEvent :=
  Event 0 0 CRITICAL cat pid EmptyString EmptyString desc EmptyString 0 false false.

Definition emit_syscall (acc : SyscallGuard * list ThreatEvent) (cat : ThreatCategory) (desc : string) (pid now : Z) : SyscallGuard * list ThreatEvent :=
  let '(st, outs) := acc in
  (Sysg (sg_running st) (sg_ntdll st) (keep_record (suspicious_records_ st) (SysRecord pid false now)) (sg_events_processed st)
     (u64 (sg_threats_detected st + 1)),
   outs ++ [syscall_threat cat desc pid]).

Definition unhook_text (p : ProcessView) : string :=
  "ntdll.dll .text section modified in PID " +:+ print_int (pv_pid p) +:+ " (" +:+ pv_name p +:+ ")".

Definition direct_text (p : ProcessView) : string := "Direct syscall execution detected outside ntdll in PID " +:+ print_int (pv_pid p).

Definition count_process (st : SyscallGuard) : SyscallGuard :=
  Sysg (sg_running st) (sg_ntdll st) (suspicious_records_ st) (u64 (sg_events_processed st + 1)) (sg_threats_detected st).

Definition inspect_process (own_pid : Z) (own : option (Z * Z)) (now : Z) (acc : SyscallGuard * list ThreatEvent) (p : ProcessView) : SyscallGuard * list ThreatEvent :=
  let acc := if detect_ntdll_unhook (sg_ntdll (fst acc)) own_pid p then emit_syscall acc EVASION_UNHOOK (unhook_text p) (pv_pid p) now else acc in
  let acc :=
    match pv_thread_rip p with
    | Some rip => if detect_direct_syscall own rip p then emit_syscall acc DIRECT_SYSCALL (direct_text p) (pv_pid p) now else acc
    | None => acc
    end in
  (count_process (fst acc), snd acc).

(** A turn of the monitor over the processes that a snapshot lists. *)
Definition syscall_turn (own_pid : Z) (own : option (Z * Z)) (st : SyscallGuard) (processes : list ProcessView) (now : Z) : SyscallGuard * list ThreatEvent :=
  foldl (inspect_process own_pid own now) (st, []) processes.

Definition get_suspicious_records (st : SyscallGuard) (n : Z) : list SyscallRecord :=
  let records := suspicious_records_ st in
  if n <? Z.of_nat (length records) then drop (length records - Z.to_nat n) records else records.

(** ** Lemmas *)

Definition process_alerts (n : Ntdll) (own_pid : Z) (own : option (Z * Z)) (p : ProcessView) : list ThreatEvent :=
  (if detect_ntdll_unhook n own_pid p then [syscall_threat EVASION_UNHOOK (unhook_text p) (pv_pid p)] else []) ++
  (match pv_thread_rip p with
   | Some rip => if detect_direct_syscall own rip p then [syscall_threat DIRECT_SYSCALL (direct_text p) (pv_pid p)] else []
   | None => []
   end).

Lemma emit_syscall_eq st outs cat desc pid now : emit_syscall (st, outs) cat desc pid now =
  (fst (emit_syscall (st, outs) cat desc pid now), outs ++ [syscall_threat cat desc pid]).
Proof. done. Qed.

Lemma inspect_process_spec own_pid own now st outs p :
  let '(st', outs') := inspect_process own_pid own now (st, outs) p in
  outs' = outs ++ process_alerts (sg_ntdll st) own_pid own p /\ sg_ntdll st' = sg_ntdll st /\
  sg_events_processed st' = u64 (sg_events_processed st + 1) /\
  u64 (sg_threats_detected st') = u64 (sg_threats_detected st + Z.of_nat (length (process_alerts (sg_ntdll st) own_pid own p))) /\
  suspicious_records_ st' = foldl keep_record (suspicious_records_ st) (replicate (length (process_alerts (sg_ntdll st) own_pid own p)) (SysRecord (pv_pid p) false now)).
Proof.
  unfold inspect_process, process_alerts. cbn [fst].
  assert (Hone : u64 (u64 (sg_threats_detected st + 1)) = u64 (sg_threats_detected st + Z.of_nat 1)) by (unfold u64; by rewrite Z.mod_mod by lia).
  assert (Htwo : u64 (u64 (u64 (sg_threats_detected st + 1) + 1)) = u64 (sg_threats_detected st + Z.of_nat 2)).
  { unfold u64. rewrite Z.mod_mod, Z.add_mod_idemp_l by lia. f_equal. lia. }
  assert (Hzero : u64 (sg_threats_detected st) = u64 (sg_threats_detected st + Z.of_nat 0)) by (by rewrite Z.add_0_r).
  destruct (detect_ntdll_unhook (sg_ntdll st) own_pid p); cbn [emit_syscall fst snd]; destruct (pv_thread_rip p) as [rip|];
    try destruct (detect_direct_syscall own rip p); cbn; rewrite <- ?app_assoc, ?app_nil_r; by split_and!.
Qed.

Lemma keep_record_spec records r : Z.of_nat (length records) <= 1000 ->
  Z.of_nat (length (keep_record records r)) <= 1000 /\ (exists dropped, records ++ [r] = dropped ++ keep_record records r) /\
  (length (keep_record records r) = S (length records) \/ length (keep_record records r) = 501%nat).
Proof.
  intros H. unfold keep_record. rewrite length_app. cbn [length]. destruct (Z.ltb_spec 1000 (Z.of_nat (length records + 1))) as [Hl|Hl].
  - rewrite length_drop, length_app. cbn [length]. split; [lia|]. split; [exists (take 500 (records ++ [r])); by rewrite take_drop|]. right. lia.
  - rewrite length_app. cbn [length]. split; [lia|]. split; [by exists []|left; lia].
Qed.

Lemma keep_records_spec rs : forall records, Z.of_nat (length records) <= 1000 ->
  let kept := foldl keep_record records rs in
  Z.of_nat (length kept) <= 1000 /\ (exists dropped, records ++ rs = dropped ++ kept) /\ (Nat.min (length records + length rs) 501 <= length kept)%nat.
Proof.
  induction rs as [|r rs IH]; intros records H; cbn [foldl].
  - rewrite app_nil_r. split; [done|]. split; [by exists []|]. cbn. lia.
  - destruct (keep_record_spec records r H) as (H1 & (d1 & E1) & H2). destruct (IH (keep_record records r) H1) as (H3 & (d2 & E2) & H4). split; [exact H3|]. split.
    + exists (d1 ++ d2). rewrite <- app_assoc, <- E2, app_assoc, <- E1. by rewrite <- app_assoc.
    + cbn [length]. destruct H2 as [H2|H2]; rewrite H2 in H4; lia.
Qed.

Lemma turn_spec own_pid own now ps : forall st outs,
  let '(st', outs') := foldl (inspect_process own_pid own now) (st, outs) ps in
  outs' = outs ++ mjoin (process_alerts (sg_ntdll st) own_pid own <$> ps) /\ sg_ntdll st' = sg_ntdll st /\
  exists rs, length rs = length (mjoin (process_alerts (sg_ntdll st) own_pid own <$> ps)) /\ suspicious_records_ st' = foldl keep_record (suspicious_records_ st) rs.
Proof.
  induction ps as [|p ps IH]; intros st outs; cbn [foldl].
  - cbn. rewrite app_nil_r. split; [done|]. split; [done|]. by exists [].
  - pose proof (inspect_process_spec own_pid own now st outs p) as H. destruct (inspect_process own_pid own now (st, outs) p) as [st1 outs1]. destruct H as (-> & En & _ & _ & Er).
    specialize (IH st1 (outs ++ process_alerts (sg_ntdll st) own_pid own p)). destruct (foldl _ _ ps) as [st' outs']. destruct IH as (-> & En' & rs & Hl & Er').
    rewrite En in *. cbn [fmap list_fmap mjoin list_join]. split; [by rewrite <- app_assoc|]. split; [done|].
    eexists (_ ++ rs). rewrite foldl_app, <- Er. split; [|exact Er']. rewrite !length_app, Hl, length_replicate. done.
Qed.

Lemma unhook_spec n own_pid p :
  detect_ntdll_unhook n own_pid p = true <->
  pristine_ntdll n <> [] /\ pv_pid p <> own_pid /\ pv_opens p = true /\ pv_wow64 p = false /\
  exists base remote, ntdll_base p = Some base /\ pv_read p (u64 (base + ntdll_text_base n)) (Z.of_nat (length (pristine_ntdll n))) = Some remote /\
    (length (pristine_ntdll n) <= length remote)%nat /\ take (length (pristine_ntdll n)) remote <> pristine_ntdll n.
Proof.
  unfold detect_ntdll_unhook. set (c := pristine_ntdll n). destruct c as [|b c0] eqn:Ec; [split; [done|by intros ([] & _)]|]. rewrite <- Ec. clearbody c.
  destruct (Z.eqb_spec (pv_pid p) own_pid) as [E|E]; [split; [done|by intros (_ & [] & _)]|].
  destruct (pv_opens p); cbn [negb orb]; [|split; [done|by intros (_ & _ & [=] & _)]]. destruct (pv_wow64 p); [split; [done|by intros (_ & _ & _ & [=] & _)]|].
  destruct (ntdll_base p) as [base|]; [|split; [done|by intros (_ & _ & _ & _ & base & remote & [=] & _)]].
  destruct (pv_read p _ _) as [remote|] eqn:Er.
  - destruct (Z.ltb_spec (Z.of_nat (length remote)) (Z.of_nat (length c))) as [Hl|Hl].
    + split; [done|]. intros (_ & _ & _ & _ & base' & remote' & [= <-] & Er' & Hl' & _). rewrite Er in Er'. injection Er' as <-. lia.
    + rewrite negb_true_iff, bool_decide_eq_false. split.
      * intros H. split_and!; try done; [by rewrite Ec|]. exists base, remote. split_and!; try done. lia.
      * intros (_ & _ & _ & _ & base' & remote' & [= <-] & Er' & _ & H). rewrite Er in Er'. by injection Er' as <-.
  - split; [done|]. intros (_ & _ & _ & _ & base' & remote' & [= <-] & Er' & _). congruence.
Qed.

(** ** Properties *)

(** a turn reports, process by process in the order of the snapshot, exactly those whose code of
    ntdll.dll could be read in full and differs, and those whose first thread stands at a system
    call outside of it; it keeps a record of each, at most a thousand, always the latest and
    never fewer of these than 501 while there are as many. *)
Theorem syscall_turn_exact (own_pid : Z) (own : option (Z * Z)) (st : SyscallGuard) (processes : list ProcessView) (now : Z) :
  Z.of_nat (length (suspicious_records_ st)) <= 1000 ->
  let '(st', outs) := syscall_turn own_pid own st processes now in
  outs = mjoin (process_alerts (sg_ntdll st) own_pid own <$> processes) /\ sg_ntdll st' = sg_ntdll st /\
  (forall p, detect_ntdll_unhook (sg_ntdll st) own_pid p = true <->
     pristine_ntdll (sg_ntdll st) <> [] /\ pv_pid p <> own_pid /\ pv_opens p = true /\ pv_wow64 p = false /\
     exists base remote, ntdll_base p = Some base /\
       pv_read p (u64 (base + ntdll_text_base (sg_ntdll st))) (Z.of_nat (length (pristine_ntdll (sg_ntdll st)))) = Some remote /\
       (length (pristine_ntdll (sg_ntdll st)) <= length remote)%nat /\ take (length (pristine_ntdll (sg_ntdll st))) remote <> pristine_ntdll (sg_ntdll st)) /\
  exists rs dropped, length rs = length outs /\ suspicious_records_ st ++ rs = dropped ++ suspicious_records_ st' /\
    Z.of_nat (length (suspicious_records_ st')) <= 1000 /\ (Nat.min (length (suspicious_records_ st) + length outs) 501 <= length (suspicious_records_ st'))%nat.
Proof.
  intros Hr. unfold syscall_turn. pose proof (turn_spec own_pid own now processes st []) as H. destruct (foldl _ _ processes) as [st' outs]. destruct H as (-> & En & rs & Hl & Er).
  cbn [app]. split; [done|]. split; [done|]. split; [intros p; apply unhook_spec|]. destruct (keep_records_spec rs _ Hr) as (H1 & (dropped & H2) & H3).
  rewrite <- Er in H1, H2, H3. exists rs, dropped. rewrite <- Hl. by split_and!.
Qed.

Definition hooked_process : ProcessView := View 77 "mal.exe" true true false [(0x1000, Some "NTDLL.dll"%string)] (fun _ _ => Some [byte_of 5]) None.
Definition sample_ntdll : Ntdll := Pristine [byte_of 4] 0x100 1.

Lemma syscall_turn_exact_witness :
  snd (syscall_turn 5 None (Sysg true sample_ntdll [] 0 0) [hooked_process] 9) = [syscall_threat EVASION_UNHOOK (unhook_text hooked_process) 77].
Proof.
  pose proof (syscall_turn_exact 5 None (Sysg true sample_ntdll [] 0 0) [hooked_process] 9 ltac:(cbn; lia)) as H.
  destruct (syscall_turn _ _ _ _ _) as [st' outs]. destruct H as [-> _]. vm_compute. reflexivity.
Defined.

(** stopping zeroes the code that was loaded but keeps it: when the file cannot be read at the next
    start, every other process of 64 bits whose ntdll.dll can be read is reported as modified,
    unless its code is all zeros. *)
Theorem failed_reload_accuses_all (st st' : SyscallGuard) (own_pid base : Z) (p : ProcessView) (remote : list byte) :
  sg_running st = true -> pristine_ntdll (sg_ntdll st) <> [] -> sysguard_start (sysguard_stop st) None = Val st' ->
  pv_pid p <> own_pid -> pv_opens p = true -> pv_wow64 p = false -> ntdll_base p = Some base ->
  pv_read p (u64 (base + ntdll_text_base (sg_ntdll st))) (Z.of_nat (length (pristine_ntdll (sg_ntdll st)))) = Some remote ->
  length remote = length (pristine_ntdll (sg_ntdll st)) -> remote <> replicate (length remote) x00 ->
  detect_ntdll_unhook (sg_ntdll st') own_pid p = true.
Proof.
  intros Hrun Hc Hs Hp Ho Hw Hb Hr Hl Hz. unfold sysguard_stop in Hs. rewrite Hrun in Hs. unfold sysguard_start in Hs. cbn in Hs. injection Hs as <-.
  apply unhook_spec. cbn [sg_ntdll wiped pristine_ntdll ntdll_text_base]. rewrite length_replicate. split_and!; try done.
  - destruct (pristine_ntdll (sg_ntdll st)); [done|]. discriminate.
  - exists base, remote. split_and!; try done; [lia|]. rewrite <- Hl, take_ge by lia. exact Hz.
Qed.

Definition clean_process : ProcessView := View 78 "good.exe" true true false [(0x1000, Some "ntdll.dll"%string)] (fun _ _ => Some [byte_of 4]) None.

Lemma failed_reload_accuses_all_witness :
  detect_ntdll_unhook sample_ntdll 5 clean_process = false /\
  exists st', sysguard_start (sysguard_stop (Sysg true sample_ntdll [] 0 0)) None = Val st' /\ detect_ntdll_unhook (sg_ntdll st') 5 clean_process = true.
Proof.
  split; [reflexivity|]. eexists. split; [reflexivity|].
  apply (failed_reload_accuses_all (Sysg true sample_ntdll [] 0 0) _ 5 0x1000 clean_process [byte_of 4]); try reflexivity; try discriminate.
Defined.

(** A file of 64 bytes whose header points behind its end is read there. *)
Lemma lfanew_is_not_checked : load_pristine_ntdll (Pristine [] 0 0) (Some ([byte_of 0x4D; byte_of 0x5A] ++ replicate 58 x00 ++ replicate 4 (byte_of 0x70))) = OOB.
Proof. vm_compute. reflexivity. Qed.
