(* ===== verification/KernelMon.v ===== *)
(** * KernelMon: the sensors of the system and their engine

    Models src/src/engines/kernel_monitor_engine.cpp with its two sensors,
    src/src/platform/win32_etw.cpp and linux_ebpf.cpp: the processes whose parent is younger
    than they are, the patches of two functions, the turn of the Windows sensor, the events of
    the Linux one, and what the engine makes of them.  The snapshot of processes, the times
    they began, the code in memory and what the kernel sends are arguments. *)
From S2P Require Import Prelude Observation Text Threat.

(** A vector that loses its oldest part when it has grown beyond a bound. *)
Definition trimmed {A} (max cut : Z) (l : list A) : list A := if max <? Z.of_nat (length l) then drop (Z.to_nat cut) l else l.

Definition recent_of {A} (n : Z) (l : list A) : list A := if n <? Z.of_nat (length l) then drop (length l - Z.to_nat n) l else l.

(** ** The Windows sensor *)

Record EtwEvent := SensorEvent { sv_process_id : Z; sv_event_id : Z; sv_provider : string; sv_description : string }.

(** The process and the parent it claims, in the order of the snapshot; [created] is 0 where the
    time is not known. *)
Definition claimed_younger (alive : list Z) (created : Z -> Z) (p : Z * Z) : bool :=
  let '(pid, ppid) := p in
  if (ppid =? 0) || (pid =? ppid) then false
  else if negb (existsb (Z.eqb ppid) alive) then false
  else negb (created pid =? 0) && negb (created ppid =? 0) && (created pid <? created ppid).

Definition find_suspicious_process_creation (snapshot : list (Z * Z)) (created : Z -> Z) : list Z :=
  fst <$> List.filter (claimed_younger (fst <$> snapshot) created) snapshot.

Definition detect_ppid_spoofing (snapshot : list (Z * Z)) (created : Z -> Z) (pid : Z) : bool :=
  existsb (Z.eqb pid) (find_suspicious_process_creation snapshot created).

(** The code at the entry of a function; [None] where it is not found. *)
Definition entry_code : Type := option (Z -> Z).

Definition check_amsi_tampering (code : entry_code) : bool :=
  match code with
  | None => false
  | Some p => if (p 0 =? 0xB8) && (p 5 =? 0xC3) then true else p 0 =? 0xC3
  end.

Definition check_etw_tampering (code : entry_code) : bool :=
  match code with
  | None => false
  | Some p => if (p 0 =? 0x33) && (p 1 =? 0xC0) && (p 2 =? 0xC3) then true else p 0 =? 0xC3
  end.

Definition creation_event (pid : Z) : EtwEvent :=
  SensorEvent pid 1 "GCAD-ProcessMonitor" ("Suspicious process creation detected: PID " +:+ print_int pid).
Definition amsi_event : EtwEvent := SensorEvent 0 2 "GCAD-AMSIGuard" "AMSI tampering detected (AmsiScanBuffer patched)".
Definition etw_event : EtwEvent := SensorEvent 0 3 "GCAD-ETWGuard" "ETW tampering detected (EtwEventWrite patched)".

(** What a turn of the sensor sees. *)
Record SensorView := Snap { sv_snapshot : list (Z * Z); sv_created : Z -> Z; sv_amsi : entry_code; sv_etw : entry_code }.

Definition sensor_batch (v : SensorView) : list EtwEvent :=
  (creation_event <$> find_suspicious_process_creation (sv_snapshot v) (sv_created v)) ++
  (if check_amsi_tampering (sv_amsi v) then [amsi_event] else []) ++
  (if check_etw_tampering (sv_etw v) then [etw_event] else []).

Definition sensor_log (events : list EtwEvent) (batch : list EtwEvent) : list EtwEvent :=
  match batch with [] => events | _ => trimmed 5000 2500 (events ++ batch) end.

(** ** The engine *)

Record KernelMonitor := Kernel { km_events : list EtwEvent; km_events_processed : Z; km_threats_detected : Z }.

Definition kernel_threat (level : ThreatLevel) (cat : ThreatCategory) (desc : string) (pid : Z) : ThreatEvent :=
  Event 0 0 level cat pid EmptyString EmptyString desc EmptyString 0 false false.

(** The callback of the engine. *)
Definition kernel_event (e : EtwEvent) : list ThreatEvent :=
  if sv_event_id e =? 2 then [kernel_threat CRITICAL EVASION_AMSI (sv_description e) (sv_process_id e)]
  else if sv_event_id e =? 3 then [kernel_threat HIGH EVASION_ETW (sv_description e) (sv_process_id e)]
  else if sv_event_id e =? 1 then [kernel_threat HIGH PPID_SPOOF (sv_description e) (sv_process_id e)]
  else [].

Definition kernel_turn (st : KernelMonitor) (v : SensorView) : KernelMonitor * list ThreatEvent :=
  let batch := sensor_batch v in
  let outs := mjoin (kernel_event <$> batch) in
  (Kernel (sensor_log (km_events st) batch) (u64 (km_events_processed st + Z.of_nat (length batch)))
     (u64 (km_threats_detected st + Z.of_nat (length outs))), outs).

(** ** The Linux sensor *)

Record FileEvent := FileSeen { fe_pid : Z; fe_seen_path : string; fe_mask : Z }.
Record ProcessEvent := Executed { pe_pid : Z; pe_comm : string; pe_exe : string }.

Record LinuxEbpf := Ebpf { file_events_ : list FileEvent; proc_events_ : list ProcessEvent; lx_events_processed : Z; lx_threats_detected : Z }.

(** A [fanotify] event whose path can be told. *)
Definition linux_file_event (st : LinuxEbpf) (e : FileEvent) : LinuxEbpf :=
  Ebpf (trimmed 5000 2500 (file_events_ st ++ [e])) (proc_events_ st) (u64 (lx_events_processed st + 1)) (lx_threats_detected st).

Definition volatile_path (exe : string) : bool := String.prefix "/tmp/" exe || String.prefix "/dev/shm/" exe.

(** An exec; the names are empty where they cannot be read. *)
Definition linux_exec_event (st : LinuxEbpf) (e : ProcessEvent) : LinuxEbpf * list ThreatEvent :=
  let outs := if volatile_path (pe_exe e) then [kernel_threat HIGH SUSPICIOUS_BINARY ("Process exec from volatile path: " +:+ pe_exe e) (pe_pid e)] else [] in
  (Ebpf (file_events_ st) (trimmed 5000 2500 (proc_events_ st ++ [e])) (u64 (lx_events_processed st + 1))
     (u64 (lx_threats_detected st + Z.of_nat (length outs))), outs).

(** ** Lemmas *)

Lemma trimmed_one {A} max cut (l : list A) x : 0 < cut <= max -> Z.of_nat (length l) <= max ->
  Z.of_nat (length (trimmed max cut (l ++ [x]))) <= max /\ exists before, l ++ [x] = before ++ trimmed max cut (l ++ [x]) /\ (before = [] \/ Z.of_nat (length before) = cut).
Proof.
  intros Hc Hl. unfold trimmed. rewrite length_app. cbn [length]. destruct (Z.ltb_spec max (Z.of_nat (length l + 1))) as [H|H].
  - rewrite length_drop, length_app. cbn [length]. split; [lia|]. exists (take (Z.to_nat cut) (l ++ [x])). rewrite take_drop. split; [done|right].
    rewrite length_take, length_app. cbn [length]. lia.
  - rewrite length_app. cbn [length]. split; [lia|]. exists []. split; [done|by left].
Qed.

Lemma claimed_younger_spec alive created pid ppid : claimed_younger alive created (pid, ppid) = true <->
  ppid <> 0 /\ pid <> ppid /\ In ppid alive /\ created pid <> 0 /\ created ppid <> 0 /\ created pid < created ppid.
Proof.
  unfold claimed_younger. destruct (Z.eqb_spec ppid 0) as [E1|E1]; cbn [orb]; [split; [done|by intros ([] & _)]|].
  destruct (Z.eqb_spec pid ppid) as [E2|E2]; [split; [done|by intros (_ & [] & _)]|].
  destruct (existsb (Z.eqb ppid) alive) eqn:E3; cbn [negb].
  - apply existsb_exists in E3 as (x & Hin & Ex). apply Z.eqb_eq in Ex. subst x. rewrite !andb_true_iff, !negb_true_iff, !Z.eqb_neq, Z.ltb_lt. tauto.
  - split; [done|]. intros (_ & _ & Hin & _). exfalso. assert (existsb (Z.eqb ppid) alive = true) by (apply existsb_exists; exists ppid; by rewrite Z.eqb_refl). congruence.
Qed.

Lemma spoof_spec snapshot created pid : In pid (find_suspicious_process_creation snapshot created) <->
  exists ppid, In (pid, ppid) snapshot /\ ppid <> 0 /\ pid <> ppid /\ In ppid (fst <$> snapshot) /\ created pid <> 0 /\ created ppid <> 0 /\ created pid < created ppid.
Proof.
  unfold find_suspicious_process_creation. rewrite in_map_iff. split.
  - intros ([p q] & <- & H). apply filter_In in H as [H1 H2]. apply claimed_younger_spec in H2. cbn [fst]. by exists q.
  - intros (ppid & H1 & H2). exists (pid, ppid). split; [done|]. apply filter_In. split; [done|]. by apply claimed_younger_spec.
Qed.

Lemma creation_threats l : mjoin (kernel_event <$> (creation_event <$> l)) =
  (fun pid => kernel_threat HIGH PPID_SPOOF ("Suspicious process creation detected: PID " +:+ print_int pid) pid) <$> l.
Proof.
  induction l as [|pid l IH]; [done|].
  change (kernel_threat HIGH PPID_SPOOF ("Suspicious process creation detected: PID " +:+ print_int pid) pid :: mjoin (kernel_event <$> (creation_event <$> l)) =
    kernel_threat HIGH PPID_SPOOF ("Suspicious process creation detected: PID " +:+ print_int pid) pid ::
      ((fun pid => kernel_threat HIGH PPID_SPOOF ("Suspicious process creation detected: PID " +:+ print_int pid) pid) <$> l)).
  by rewrite IH.
Qed.

Lemma sensor_threats v : mjoin (kernel_event <$> sensor_batch v) =
  ((fun pid => kernel_threat HIGH PPID_SPOOF ("Suspicious process creation detected: PID " +:+ print_int pid) pid) <$>
     find_suspicious_process_creation (sv_snapshot v) (sv_created v)) ++
  (if check_amsi_tampering (sv_amsi v) then [kernel_threat CRITICAL EVASION_AMSI (sv_description amsi_event) 0] else []) ++
  (if check_etw_tampering (sv_etw v) then [kernel_threat HIGH EVASION_ETW (sv_description etw_event) 0] else []).
Proof.
  unfold sensor_batch. rewrite !fmap_app, !join_app, creation_threats. by destruct (check_amsi_tampering _), (check_etw_tampering _).
Qed.

(** ** Properties *)

(** a turn of the Windows sensor raises a threat for each process whose claimed parent is another
    one in the snapshot that began after it, in the order of the snapshot, then one for each of the
    two functions that is patched, and nothing else; so a process that claims a parent that was
    there when it began, which is what forging a parent amounts to, is not among them, and one
    whose parent ended and left its number to a later process is. *)
Theorem kernel_turn_exact (st : KernelMonitor) (v : SensorView) :
  let '(st', outs) := kernel_turn st v in
  outs = ((fun pid => kernel_threat HIGH PPID_SPOOF ("Suspicious process creation detected: PID " +:+ print_int pid) pid) <$>
            find_suspicious_process_creation (sv_snapshot v) (sv_created v)) ++
         (if check_amsi_tampering (sv_amsi v) then [kernel_threat CRITICAL EVASION_AMSI (sv_description amsi_event) 0] else []) ++
         (if check_etw_tampering (sv_etw v) then [kernel_threat HIGH EVASION_ETW (sv_description etw_event) 0] else []) /\
  km_threats_detected st' = u64 (km_threats_detected st + Z.of_nat (length outs)) /\
  (forall pid, In pid (find_suspicious_process_creation (sv_snapshot v) (sv_created v)) <->
     exists ppid, In (pid, ppid) (sv_snapshot v) /\ ppid <> 0 /\ pid <> ppid /\ In ppid (fst <$> sv_snapshot v) /\
       sv_created v pid <> 0 /\ sv_created v ppid <> 0 /\ sv_created v pid < sv_created v ppid) /\
  (forall pid, (forall ppid, In (pid, ppid) (sv_snapshot v) -> sv_created v ppid <= sv_created v pid) ->
     detect_ppid_spoofing (sv_snapshot v) (sv_created v) pid = false).
Proof.
  unfold kernel_turn. split_and!; [apply sensor_threats|done|intros pid; apply spoof_spec|].
  intros pid H. unfold detect_ppid_spoofing. destruct (existsb _ _) eqn:E; [|done]. apply existsb_exists in E as (x & Hx & Ex). apply Z.eqb_eq in Ex. subst x.
  apply spoof_spec in Hx as (ppid & Hin & _ & _ & _ & _ & _ & Hlt). pose proof (H ppid Hin). lia.
Qed.

Definition forged_view : SensorView := Snap [(4, 0); (900, 4); (1000, 900)] (fun pid => pid * 10) None None.

Lemma kernel_turn_exact_witness : detect_ppid_spoofing (sv_snapshot forged_view) (sv_created forged_view) 1000 = false.
Proof.
  pose proof (kernel_turn_exact (Kernel [] 0 0) forged_view) as H. destruct (kernel_turn _ _) as [st' outs]. destruct H as (_ & _ & _ & H).
  apply H. intros ppid Hin. cbn in Hin |- *. destruct Hin as [E|[E|[E|[]]]]; injection E; intros; lia.
Defined.

(** an exec on Linux raises its threat exactly when the path of the program begins with one of the
    two volatile directories, and the log of execs keeps at most 5000, always the latest. *)
Theorem linux_exec_exact (st : LinuxEbpf) (e : ProcessEvent) :
  Z.of_nat (length (proc_events_ st)) <= 5000 ->
  let '(st', outs) := linux_exec_event st e in
  (outs <> [] <-> (exists rest, pe_exe e = "/tmp/" +:+ rest) \/ (exists rest, pe_exe e = "/dev/shm/" +:+ rest)) /\
  (length outs <= 1)%nat /\ Z.of_nat (length (proc_events_ st')) <= 5000 /\
  (exists before, proc_events_ st ++ [e] = before ++ proc_events_ st') /\ file_events_ st' = file_events_ st.
Proof.
  intros H. unfold linux_exec_event. cbn [proc_events_ file_events_]. destruct (trimmed_one 5000 2500 (proc_events_ st) e ltac:(lia) H) as (H1 & before & H2 & _).
  split_and!; [|by destruct (volatile_path _); cbn; lia|exact H1|by exists before|done].
  rewrite <- !prefix_spec. unfold volatile_path. destruct (String.prefix "/tmp/" (pe_exe e)), (String.prefix "/dev/shm/" (pe_exe e)); cbn; intuition discriminate.
Qed.

Lemma linux_exec_exact_witness : snd (linux_exec_event (Ebpf [] [] 0 0) (Executed 9 "x" "/tmp/x")) <> [].
Proof.
  pose proof (linux_exec_exact (Ebpf [] [] 0 0) (Executed 9 "x" "/tmp/x") ltac:(cbn; lia)) as H. destruct (linux_exec_event _ _) as [st' outs].
  apply H. left. by exists "x"%string.
Defined.
